(* ===== verification/_CoqProject ===== *)
-Q . S2P
Prelude.v
GoStrings.v
GoFloat.v
Breaker.v
Semaphore.v
TokenBucket.v
ProtectionTypes.v
KillStore.v
Quota.v
MemoryStore.v
Provenance.v
OperatorMutation.v
Gate.v
GateSpec.v
GateRun.v
RateHistory.v
Alerting.v
Governance.v
PolicyFiles.v
GovernancePolicy.v
Execution.v
Executor.v
ExecutorSpec.v
Remote.v
SSHPool.v
Dispatch.v
Manifest.v
Coverage.v
AppendLog.v
Ledger.v
Chain.v
Publish.v
ControlStore.v
PluginContract.v
Rbac.v
Sandbox.v
PluginManager.v
Tokens.v
TransitionStore.v
SignedLog.v
GoTime.v
KeyLifecycle.v
Destruction.v
DestructionSpec.v
SnapshotFiles.v
SnapshotVerify.v
Acceptance.v
InputIntegrity.v
Platform.v
Builtin.v
SchedulerConfig.v
Scheduler.v
ExportSpec.v
Anchor.v
AnchorLog.v
Verification.v
VerificationLog.v
