(* ===== verification/Prelude.v ===== *)
(** * OpsCore: a verification development

    OpsCore is an operations control plane. Operations, builtin or contributed
    by plugins, turn a request into an execution plan; a protection gate admits
    the request; the executor runs the plan's steps locally or over SSH and
    records the run; the control plane stores users, roles, grants, audit and
    policies, and publishes signed, chained snapshots of its alert history. This
    library models the Go code of these parts under [src/] and proves what makes
    them correct.

    ** How to read it

    A mutable object is a record, a method is a definition that answers the new
    object, a step of a goroutine is a step of a relation or a command of a
    step function. An error is a value of [result] or an [option error]; error
    texts follow the source without the quotes of [%q]. Go's [int] and [int64]
    are [Z] with [wrap64] where they can overflow; [float64] is binary64 of the
    Standard Library (GoFloat). Maps are [gmap]; where the order of a map's
    iteration shows, it is an argument or is left open. What is not code under
    [src/], or is drawn from outside (the clock, random bytes, a file system
    call's outcome, the answer of a step or of an SSH server, SHA-256, Ed25519,
    JSON), is an argument or a class with named laws, and the witnesses give
    instances. A method that runs under its object's mutex is one atomic step;
    where a source function releases the lock in between, its critical sections
    are separate steps and interleave.

    ** Files, in order, and the code they model

    - Prelude: results, machine integers, time, sorting, string order, runs of
      commands. GoStrings: [strings], [encoding/hex], [unicode/utf8], [bufio],
      [strconv] as used. GoFloat: [float64].
    - Protection (internal/protection): Breaker (breaker.go), Semaphore
      (semaphore.go), TokenBucket (tokenbucket.go), ProtectionTypes (types.go),
      KillStore (killstore.go), Quota (quota.go), Provenance (provenance.go),
      OperatorMutation (killmutation.go, quotamutation.go), Gate (gate.go,
      timeout.go), RateHistory (ratehistory.go), Alerting (alerting.go);
      MemoryStore: the backends of internal/storage/memory. GateSpec states the
      guard order as an abstract specification that [Gate_Check] refines, GateRun
      proves invariants over histories of requests.
    - Governance: Governance (internal/governance), PolicyFiles and
      GovernancePolicy (internal/governancepolicy).
    - Core (internal/core): Execution (execution/), Executor (executor.go,
      service.go, runtime.go, plan.go, audit.go) with ExecutorSpec, Remote and
      SSHPool (ssh.go, host.go, safe.go), Dispatch (operation.go, dispatcher.go).
    - Snapshot publication (internal/controlplane/server): Manifest
      (history_export_manifest.go, snapshot_signature.go), Coverage
      (history_export_coverage.go), AppendLog (appendonly_log.go), Ledger
      (snapshot_ledger.go), Chain (snapshot_chain.go), Publish (the publication
      half of history_export_scheduler.go, over a directory of its own).
    - Control plane and plugins: ControlStore (internal/storage: models.go,
      memory.go, audit_query.go), PluginContract (internal/plugin: validate,
      manifest, compat, capability, lifecycle, descriptor), Rbac
      (controlplane/auth/rbac.go, controlplane/sync/sync.go), Sandbox (sandbox,
      modules, loaders, SDK), PluginManager (runtime/manager.go), Tokens
      (controlplane/auth: token.go, service.go, password.go).
    - Durable alert history: TransitionStore (file_transition_store.go),
      Acceptance and InputIntegrity (snapshot_acceptance.go).
    - Evidence logs: SignedLog (what a log of signed, chained entries keeps under
      appends and compactions, shared by the logs below), GoTime (RFC 3339),
      KeyLifecycle (snapshot_key_lifecycle.go, snapshot_lifecycle_domain.go),
      Destruction with DestructionSpec (snapshot_destruction.go, the abstract
      register of what was announced and done), Anchor and AnchorLog
      (snapshot_anchor.go, snapshot_anchor_delivery.go: recording, delivery, the
      comparison with a witness), Verification and VerificationLog
      (snapshot_verification.go: reports and their comparison, their log, the gaps).
    - The export directory: SnapshotFiles (the names, the groups and the retention
      of history_export_scheduler.go), SnapshotVerify (the list and the verification
      of history_export_manifest.go), SchedulerConfig (the construction guards),
      Scheduler (the export, publishManifest's file calls included, and the tick
      over a directory that others change),
      ExportSpec (what a verification says of what an export has placed).
    - Operations: Platform (core/snapshot, capability.go, context.go, the probe
      of ssh.go; internal/platform), Builtin (core/step.go, internal/builtin).

    The interfaces are classes: the persistence behind the kill and quota stores
    ([MemoryStore] discharges their laws), the storage behind the synchronizer
    and the plugin manager ([Rbac.Storage]), the crypto and codecs of manifests,
    ledgers and records ([ManifestCrypto], [LedgerCodec], [TransitionCodec],
    [AcceptanceCodec]), of the lines of an evidence log ([SignedLog.LineCodec], which
    the codec of each log contains), of cursors and artifacts ([CursorCodec],
    [ArtifactCodec]), of tokens and passwords ([TokenCrypto], [Bcrypt]), the
    storage behind sessions ([AuthStorage]), the decoding of a request's input
    ([DecodeInput]), the loaders of plugins ([PluginManager.HonestLoader]).

    ** What the theorems show

    - Admission: the gate's guards act in one order, fail closed, hold exactly
      the slots of the admissions outstanding, and observers cannot change a
      decision; the kill store fails closed and projects its backend; buckets,
      breakers, quotas and alerts keep their contracts.
    - Execution: over every interleaving a terminal status is final, a run
      settles its record once, cancellation is effective, and every run ends.
      The remote command line quotes every argument, whatever it holds (a plain
      executable is not quoted); a pooled connection has one holder.
    - Policies: compare-and-transition has a single winner, history only grows,
      and a record on disk is the old or the new one whatever crashes.
    - Publication: ids are never reused, whatever retention removes; while it keeps
      the newest chain-bearing manifest, these form one chain; the verdict over
      retained manifests is exact, signatures make tampering evident, the log and
      the ledger survive crashes, coverage is exact.
    - The export directory: if nobody acts between a look and the call that trusts
      it, an export removes only files of its own, and by name its two temporaries
      (the examples show what a stranger in between can lose); the owner of a name
      is its unit or its nearest valid ancestor; retention removes exactly the
      oldest units, announces each removal and records how it ended; a list is
      paged without loss; a verification finds a snapshot sound exactly if what its
      manifest declares is there and unchanged, and finds what an undisturbed export
      has placed sound, once its key is accepted and its watermark is not behind.
    - Evidence logs: after any history of operations, of which some fail cleanly
      ([SignedLog.clean_io]: an append that fails wrote nothing), each log loads
      without a hole and holds what was written; the interval of a key is what was
      recorded and an end is final; the destruction log refines its register, and
      whose removal was announced before it, at a time that can be read, is not
      accused; a host within its capacity is never found broken by a witness, and the
      comparison is exact; a report says what was found, no change between reports is
      silent, a gap was never verified. Examples show where the code falls short of
      its comments (a torn append that no later load accepts, a backlog that breaks
      the anchor log, concurrent runs that make a false gap).
    - Durable alert history: the file holds exactly what was appended, paging is
      stable under appends and evictions, a torn append corrupts, an alert
      survives a restart. The acceptance ledger is exact, its cached tail changes
      nothing, a verdict [input_ok] is sound against tampering with the store and
      nothing is accused that nobody touched; examples show the failures that
      break it (a stale tail, a failed stat, a failed sync).
    - Operations: every builtin runs a fixed program on exactly its arguments; a
      remote context holds only what the target answered; a deny rule opens the
      port on two of the firewalls.
    - Access: authorization decides by the row's flag and the grants;
      synchronizing grants the admin; a plugin cannot leave its name space, the
      plans of handlers that bring no envelope of their own cannot exceed its
      declaration, registering, enabling, disabling and unloading follow the state
      machine (discovering and bootstrapping may reset it), a reload is all or
      nothing, and access follows enabling and disabling. One theorem shows where it
      does not: registering alone makes a plugin's operations executable.

    ** Fuel and bounds

    Recursion is structural but for these, whose fuel is enough by a theorem or by
    the bound named: the walk back through the ledger ([Chain.backtrack_fuel], the
    entries and conflicts on record and three: each turn uses one up or ends,
    [Chain.backtrack_total]); the pages of a list ([SnapshotVerify.page_fuel], two
    more than there are groups: each page takes one, [listing_exhausts]); the
    nearest valid ancestor of a name ([SnapshotFiles.valid_ancestor], its length and
    one: each turn cuts the name); an export tries a hundred ordinals, as the source
    does; the compaction of the destruction log, which is itself recorded in it,
    takes two turns ([Destruction.enough], [DestructionSpec.compaction_once]).
    [Ledger.parse_fields] and [SignedLog.unpack] belong to codecs of witnesses. A run
    of [n] steps takes at most [4 n + 10] steps of the system ([ExecutorSpec]).
    Sequences are [int64]; the theorems on histories assume them shorter than its
    range.

    ** Not modelled

    - Text and wire: the HTTP and WebSocket handlers of controlplane/server
      (server.go, ws.go, bus.go, dashboard.go, mgmt_obs.go, mgmt_kill.go,
      mgmt_quota.go, the routes of the snapshot files) and of internal/management,
      the command lines under cmd/, JSON, SQL (storage/sqlite), the demo host, the
      test harness: they carry the components above or are other programs' formats.
    - Processes and networks: dialling and sessions of SSH, host probes
      (core/capability, controlplane/inventory), helper processes of plugins
      (plugin/isolation), Git and OCI providers, the ecosystem/ tools, the HTTP
      transport of anchors.
    - Of the evidence logs: the verifier authority, the attestation of decisions, the
      comparison of the further anchor families and the realization view, which are
      more logs and views of the kinds above; of the scheduler, its status rows and
      the registry of witness families.
    - The cluster manager and the observability and tracing stores, which keep
      counts beside the components and act on none of them.
    - Timing: tickers, hook time limits, watch intervals and debouncing.
    - Go's memory model below a mutex, and panics of third-party code. *)

From stdpp Require Export base tactics option list gmap strings pretty relations.
From Stdlib Require Export ZArith Lia Sorted.

#[global] Open Scope Z_scope.
#[global] Set Default Proof Using "Type".

(** ** Notations, hints and tactics of the development *)

Declare Scope go_scope.
Delimit Scope go_scope with go.

Create HintDb opscore.

(** Case analysis on every match, [if] and [decide] in sight. *)
Ltac go_cases :=
  repeat (case_match || case_decide || case_bool_decide); simplify_eq/=; try done.

(** Open the boolean tests of a Go condition in a hypothesis. *)
Ltac go_bools :=
  repeat match goal with
  | H : _ && _ = true |- _ => apply andb_true_iff in H as [? ?]
  | H : _ || _ = false |- _ => apply orb_false_iff in H as [? ?]
  | H : negb _ = true |- _ => apply negb_true_iff in H
  | H : negb _ = false |- _ => apply negb_false_iff in H
  | H : (_ <? _) = true |- _ => apply Z.ltb_lt in H
  | H : (_ <? _) = false |- _ => apply Z.ltb_ge in H
  | H : (_ <=? _) = true |- _ => apply Z.leb_le in H
  | H : (_ <=? _) = false |- _ => apply Z.leb_gt in H
  | H : (_ =? _) = true |- _ => apply Z.eqb_eq in H
  | H : (_ =? _) = false |- _ => apply Z.eqb_neq in H
  end.

(** ** Go results: a value or an error *)

Inductive result (E A : Type) : Type :=
| Ok (a : A)
| Err (e : E).
Arguments Ok {E A} a.
Arguments Err {E A} e.

(** A Go [error] value is known by its text. *)
Definition error : Type := string.

Definition is_ok {E A} (r : result E A) : bool :=
  match r with Ok _ => true | Err _ => false end.

(** ** Machine integers: Go's [int] and [int64] *)

Definition min_int64 : Z := - 2 ^ 63.
Definition max_int64 : Z := 2 ^ 63 - 1.
Definition in_int64 (z : Z) : Prop := min_int64 <= z <= max_int64.

(** Two's-complement wrap-around of an int64 operation's exact result. *)
Definition wrap64 (z : Z) : Z := (z + 2 ^ 63) mod 2 ^ 64 - 2 ^ 63.

Lemma wrap64_id z : in_int64 z -> wrap64 z = z.
Proof.
  unfold in_int64, min_int64, max_int64, wrap64. intros H.
  rewrite Z.mod_small; lia.
Qed.

Lemma wrap64_range z : in_int64 (wrap64 z).
Proof.
  unfold in_int64, min_int64, max_int64, wrap64.
  pose proof (Z.mod_pos_bound (z + 2 ^ 63) (2 ^ 64)). lia.
Qed.

Lemma wrap64_congr z : (wrap64 z) mod 2 ^ 64 = z mod 2 ^ 64.
Proof.
  unfold wrap64. rewrite Zminus_mod, Zmod_mod, <- Zminus_mod. f_equal. lia.
Qed.

Lemma wrap64_wrap_l a b : wrap64 (wrap64 a + b) = wrap64 (a + b).
Proof.
  unfold wrap64 at 1 3. f_equal.
  rewrite <- (Z.add_assoc (wrap64 a)), Zplus_mod, wrap64_congr, <- Zplus_mod.
  f_equal. lia.
Qed.

#[export] Hint Resolve wrap64_range : opscore.

(** ** [time.Time] and [time.Duration]

    An instant is a number of nanoseconds since Go's zero time, which is the
    instant [0]; [Time.Sub] saturates at the ends of the [Duration] range. *)

Definition Time : Type := Z.
Definition Duration : Type := Z.
Definition zero_time : Time := 0.
Definition time_is_zero (t : Time) : bool := t =? zero_time.
Definition Second : Duration := 10 ^ 9.
Definition Minute : Duration := 60 * Second.

Definition time_Sub (t u : Time) : Duration :=
  if t - u <? min_int64 then min_int64
  else if max_int64 <? t - u then max_int64
  else t - u.

(** Inside the Duration range [Sub] is subtraction. *)
Lemma time_Sub_exact t u : in_int64 (t - u) -> time_Sub t u = t - u.
Proof. unfold in_int64, time_Sub. intros. go_cases; go_bools; lia. Qed.

Lemma time_Sub_ge t u d :
  in_int64 d -> min_int64 < d -> (d <= time_Sub t u <-> d <= t - u).
Proof. unfold in_int64, time_Sub. intros. go_cases; go_bools; lia. Qed.

(** ** Go slices: the trailing [n] elements, and dropping from the front *)

Definition lastn {A} (n : nat) (l : list A) : list A := drop (length l - n) l.

Lemma lastn_length {A} n (l : list A) : length (lastn n l) = (n `min` length l)%nat.
Proof. unfold lastn. rewrite length_drop. lia. Qed.

Lemma lastn_all {A} n (l : list A) : (length l <= n)%nat -> lastn n l = l.
Proof. intros. unfold lastn. replace (length l - n)%nat with 0%nat by lia. done. Qed.

Lemma lastn_snoc {A} n (l : list A) x :
  lastn (S n) (l ++ [x]) = lastn n l ++ [x].
Proof.
  unfold lastn. rewrite length_app. simpl.
  replace (length l + 1 - S n)%nat with (length l - n)%nat by lia.
  rewrite drop_app_le by lia. done.
Qed.

(** Evicting the oldest of a full window is the window one shorter. *)
Lemma drop_1_lastn {A} n (l : list A) :
  (n <= length l)%nat -> drop 1 (lastn n l) = lastn (n - 1) l.
Proof.
  intros. unfold lastn. rewrite drop_drop.
  destruct n as [|n]; [|f_equal; lia].
  rewrite !drop_ge; [done| |]; lia.
Qed.

Lemma lastn_app_suffix {A} n (l : list A) : exists p, l = p ++ lastn n l.
Proof. exists (take (length l - n) l). unfold lastn. by rewrite take_drop. Qed.

(** ** Sorting with a Go [less] function *)

Section StableSort.
Context {A : Type} (less : A -> A -> bool).

(** Insertion in front of the first element that is not less than [x]. *)
Fixpoint sort_insert (x : A) (l : list A) : list A :=
  match l with
  | [] => [x]
  | y :: l' => if less y x then y :: sort_insert x l' else x :: l
  end.

Definition sort_slice (l : list A) : list A := foldr sort_insert [] l.

(** [sort_le x y]: the order the result is in, "[y] is not less than [x]". *)
Definition sort_le (x y : A) : Prop := less y x = false.

Lemma sort_insert_perm x l : sort_insert x l ≡ₚ x :: l.
Proof.
  induction l as [|y l IH]; simpl; [done|].
  destruct (less y x); [|done]. rewrite IH. constructor.
Qed.

Lemma sort_slice_perm l : sort_slice l ≡ₚ l.
Proof.
  induction l as [|x l IH]; simpl; [done|]. by rewrite sort_insert_perm, IH.
Qed.

Lemma sort_slice_length l : length (sort_slice l) = length l.
Proof. by rewrite sort_slice_perm. Qed.

Lemma sort_slice_elem x l : x ∈ sort_slice l <-> x ∈ l.
Proof. by rewrite sort_slice_perm. Qed.

Context (less_asym : forall x y, less x y = true -> less y x = false).
Context (less_ntrans :
  forall x y z, less y x = false -> less z y = false -> less z x = false).

Lemma sort_insert_sorted x l :
  StronglySorted sort_le l -> StronglySorted sort_le (sort_insert x l).
Proof using less_asym less_ntrans.
  induction 1 as [|y l Hl IH Hy]; simpl; [repeat constructor|].
  destruct (less y x) eqn:E.
  - constructor; [done|]. rewrite (sort_insert_perm x l).
    constructor; [by apply less_asym|done].
  - constructor; [by constructor|]. constructor; [done|].
    eapply Forall_impl; [exact Hy|]. intros z Hz. by eapply less_ntrans.
Qed.

Lemma sort_slice_sorted l : StronglySorted sort_le (sort_slice l).
Proof using less_asym less_ntrans.
  induction l; simpl; [constructor|by apply sort_insert_sorted].
Qed.
End StableSort.

(** Two sorted permutations of one list are equal when the order separates its
    elements: the result of an unstable sort is then determined. *)
Lemma sorted_perm_unique {A} (R : A -> A -> Prop) (l1 l2 : list A) :
  (forall x y, x ∈ l1 -> y ∈ l1 -> R x y -> R y x -> x = y) ->
  StronglySorted R l1 -> StronglySorted R l2 -> l1 ≡ₚ l2 -> l1 = l2.
Proof.
  intros Hanti H1. revert l2 Hanti.
  induction H1 as [|x l1 H1 IH Hx]; intros l2 Hanti H2 Hp.
  { by apply Permutation_nil_l in Hp. }
  destruct H2 as [|y l2 H2 Hy].
  { by apply Permutation_nil_r in Hp. }
  assert (x = y) as <-.
  { assert (Hyx : y ∈ x :: l1) by (rewrite Hp; left).
    assert (Hxy : x ∈ y :: l2) by (rewrite <- Hp; left).
    apply elem_of_cons in Hyx as [->|Hyx]; [done|].
    apply elem_of_cons in Hxy as [->|Hxy]; [done|].
    apply Hanti; [left|by right| |].
    - by eapply (proj1 (Forall_forall _ _)) in Hx.
    - by eapply (proj1 (Forall_forall _ _)) in Hy. }
  f_equal. apply IH; [|done|by eapply Permutation_cons_inv].
  intros; apply Hanti; [by right|by right|done|done].
Qed.

Lemma StronglySorted_snoc {A} (R : A -> A -> Prop) (l : list A) x :
  StronglySorted R (l ++ [x]) <-> StronglySorted R l /\ Forall (fun y => R y x) l.
Proof.
  induction l as [|y l IH]; cbn; [split; intros _; repeat constructor|]. split.
  - intros [Hs Hy]%StronglySorted_inv. apply IH in Hs as [Hs Hl]. rewrite Forall_app in Hy. destruct Hy as [Hy Hx].
    rewrite Forall_singleton in Hx. by split; constructor.
  - intros [[Hs Hy]%StronglySorted_inv Hl]. apply Forall_cons in Hl as [Hyx Hl]. constructor; [by apply IH|].
    apply Forall_app. split; [done|by constructor].
Qed.

(** ** Go's string order: byte by byte *)

Definition string_ltb (s t : string) : bool :=
  match String.compare s t with Lt => true | _ => false end.

Lemma string_compare_trans s t u c :
  String.compare s t = c -> String.compare t u = c -> String.compare s u = c.
Proof.
  revert t u. induction s as [|a s IH]; intros [|b t] [|d u]; simpl; try congruence.
  unfold Ascii.compare.
  destruct (N.compare_spec (Ascii.N_of_ascii a) (Ascii.N_of_ascii b)) as [Hab|Hab|Hab],
    (N.compare_spec (Ascii.N_of_ascii b) (Ascii.N_of_ascii d)) as [Hbd|Hbd|Hbd];
    intros <-; try done;
    destruct (N.compare_spec (Ascii.N_of_ascii a) (Ascii.N_of_ascii d)); try lia; try done; eauto.
Qed.

Lemma string_ltb_compare s t :
  String.compare t s = CompOpp (String.compare s t).
Proof. apply String.compare_antisym. Qed.

Lemma string_ltb_asym s t : string_ltb s t = true -> string_ltb t s = false.
Proof. unfold string_ltb. rewrite (string_ltb_compare s t). by destruct (String.compare s t). Qed.

Lemma string_ltb_antisym s t : string_ltb s t = false -> string_ltb t s = false -> s = t.
Proof.
  unfold string_ltb. rewrite (string_ltb_compare s t).
  destruct (String.compare s t) eqn:E; try done. intros _ _. by apply String.compare_eq_iff.
Qed.

Lemma string_ltb_irrefl s : string_ltb s s = false.
Proof. by destruct (string_ltb s s) eqn:E; [rewrite (string_ltb_asym _ _ E) in E|]. Qed.

Lemma string_ltb_ntrans s t u :
  string_ltb t s = false -> string_ltb u t = false -> string_ltb u s = false.
Proof.
  intros H1 H2. destruct (string_ltb u s) eqn:E; [|done].
  destruct (string_ltb s t) eqn:F.
  - enough (string_ltb u t = true) by congruence. unfold string_ltb in *.
    destruct (String.compare u s) eqn:E1, (String.compare s t) eqn:E2; try done.
    by rewrite (string_compare_trans _ _ _ _ E1 E2).
  - rewrite (string_ltb_antisym _ _ F H1) in E. congruence.
Qed.

#[export] Hint Resolve string_ltb_asym string_ltb_ntrans : opscore.

Definition sort_strings (l : list string) : list string := sort_slice string_ltb l.

(** ** Reachability: an invariant holds along every sequence of steps *)

Lemma rtc_invariant {A} (R : A -> A -> Prop) (P : A -> Prop) x y :
  (forall a b, R a b -> P a -> P b) -> rtc R x y -> P x -> P y.
Proof. intros HR H. induction H; eauto. Qed.

(** A property of one run of commands, folded from the left. *)
Definition run_list {S C} (f : S -> C -> S) (s : S) (cs : list C) : S := foldl f s cs.

Lemma run_list_invariant {S C} (f : S -> C -> S) (P : S -> Prop) s cs :
  (forall s c, P s -> P (f s c)) -> P s -> P (run_list f s cs).
Proof. intros Hf. revert s. induction cs as [|c cs IH]; simpl; eauto. Qed.

Lemma run_list_snoc {S C} (f : S -> C -> S) s cs c :
  run_list f s (cs ++ [c]) = f (run_list f s cs) c.
Proof. unfold run_list. by rewrite foldl_app. Qed.

(** ** Map lookups *)

Lemma lookup_default_insert {A} (d : A) (m : gmap string A) k k' x :
  default d (<[k := x]> m !! k') = if decide (k = k') then x else default d (m !! k').
Proof. rewrite lookup_insert. by case_decide. Qed.
