(* ===== verification/GoStrings.v ===== *)
(** * Strings of the standard library

    What the components use of [encoding/hex], [unicode/utf8], [strings] and
    [bufio]: bytes are the characters of a [string]. *)

From Stdlib Require Import Ascii.
From S2P Require Import Prelude.

(** ** Hexadecimal *)

Definition hex_digit (n : N) : ascii :=
  match String.get (N.to_nat n) "0123456789abcdef" with
  | Some c => c
  | None => "0"%char
  end.

(** [hex.EncodeToString] *)
Fixpoint hex_EncodeToString (s : string) : string :=
  match s with
  | EmptyString => EmptyString
  | String c s' =>
      let n := N_of_ascii c in
      String (hex_digit (n / 16)) (String (hex_digit (n mod 16)) (hex_EncodeToString s'))
  end.

Lemma hex_length s : String.length (hex_EncodeToString s) = (2 * String.length s)%nat.
Proof. induction s as [|c s IH]; cbn -[Nat.mul]; [done|]. rewrite IH. lia. Qed.

Lemma hex_digit_inj n m : (n < 16)%N -> (m < 16)%N -> hex_digit n = hex_digit m -> n = m.
Proof.
  intros Hn Hm E. assert (Hdec : forall x, (x < 16)%N -> N.of_nat (default 0%nat (String.index 0 (String (hex_digit x) "") "0123456789abcdef")) = x).
  { intros x Hx. assert (Hc : (x = 0 \/ x = 1 \/ x = 2 \/ x = 3 \/ x = 4 \/ x = 5 \/ x = 6 \/ x = 7 \/ x = 8 \/ x = 9 \/
      x = 10 \/ x = 11 \/ x = 12 \/ x = 13 \/ x = 14 \/ x = 15)%N) by lia.
    repeat destruct Hc as [->|Hc]; try (vm_compute; reflexivity). subst. vm_compute. reflexivity. }
  rewrite <- (Hdec n Hn), <- (Hdec m Hm). by rewrite E.
Qed.

Lemma hex_inj s t : hex_EncodeToString s = hex_EncodeToString t -> s = t.
Proof.
  revert t. induction s as [|c s IH]; intros [|d t] E; try done. cbn [hex_EncodeToString] in E. injection E as E1 E2 E3.
  assert (Hb : forall c, (N_of_ascii c / 16 < 16)%N /\ (N_of_ascii c mod 16 < 16)%N).
  { intros x. pose proof (N_ascii_bounded x). split; [apply N.Div0.div_lt_upper_bound; lia|apply N.mod_lt; lia]. }
  f_equal; [|by apply IH]. rewrite <- (ascii_N_embedding c), <- (ascii_N_embedding d). f_equal.
  rewrite (N.div_mod' (N_of_ascii c) 16), (N.div_mod' (N_of_ascii d) 16). destruct (Hb c), (Hb d). f_equal; [f_equal|]; by apply hex_digit_inj.
Qed.

Lemma string_length_app s t : String.length (s +:+ t) = (String.length s + String.length t)%nat.
Proof. induction s as [|c s IH]; simpl; [done|]. by rewrite IH. Qed.

(** ** UTF-8 *)

Fixpoint bytes_of (s : string) : list N :=
  match s with
  | EmptyString => []
  | String a s' => Ascii.N_of_ascii a :: bytes_of s'
  end.

Definition between (lo hi b : N) : bool := N.leb lo b && N.leb b hi.

(** [utf8.Valid]. *)
Fixpoint utf8_valid (l : list N) : bool :=
  match l with
  | [] => true
  | a :: l1 =>
      if N.ltb a 128 then utf8_valid l1
      else match l1 with
      | [] => false
      | b :: l2 =>
          if between 194 223 a then between 128 191 b && utf8_valid l2
          else match l2 with
          | [] => false
          | c :: l3 =>
              if between 224 239 a then
                between (if N.eqb a 224 then 160 else 128) (if N.eqb a 237 then 159 else 191) b &&
                between 128 191 c && utf8_valid l3
              else match l3 with
              | [] => false
              | d :: l4 =>
                  between 240 244 a &&
                  between (if N.eqb a 240 then 144 else 128) (if N.eqb a 244 then 143 else 191) b &&
                  between 128 191 c && between 128 191 d && utf8_valid l4
              end
          end
      end
  end.

Definition ValidString (s : string) : bool := utf8_valid (bytes_of s).

(** ** Concatenation *)

Lemma append_assoc (a b c : string) : (a +:+ b) +:+ c = a +:+ (b +:+ c).
Proof. induction a as [|x a IH]; [done|]. change (String x ((a +:+ b) +:+ c) = String x (a +:+ (b +:+ c))). by rewrite IH. Qed.

Lemma append_nil_r (a : string) : a +:+ "" = a.
Proof. induction a as [|x a IH]; [done|]. change (String x (a +:+ "") = String x a). by rewrite IH. Qed.

Lemma append_inj (a b c : string) : a +:+ b = a +:+ c -> b = c.
Proof.
  induction a as [|x a IH]; [done|]. intros E.
  change (String x (a +:+ b) = String x (a +:+ c)) in E. injection E. exact IH.
Qed.

Lemma append_cons x (a b : string) : String x a +:+ b = String x (a +:+ b).
Proof. done. Qed.

(** ** White space *)

(** The bytes that encode a white space character ([unicode.IsSpace]), by their
    number. *)
Definition space1 (a : ascii) : bool :=
  let n := N_of_ascii a in between 9 13 n || (n =? 32)%N.
Definition space2 (a b : ascii) : bool :=
  (N_of_ascii a =? 194)%N && ((N_of_ascii b =? 133)%N || (N_of_ascii b =? 160)%N).
Definition space3 (a b c : ascii) : bool :=
  let x := N_of_ascii a in let y := N_of_ascii b in let z := N_of_ascii c in
  ((x =? 225)%N && (y =? 154)%N && (z =? 128)%N) ||
  ((x =? 226)%N && (y =? 128)%N && (between 128 138 z || (z =? 168)%N || (z =? 169)%N || (z =? 175)%N)) ||
  ((x =? 226)%N && (y =? 129)%N && (z =? 159)%N) ||
  ((x =? 227)%N && (y =? 128)%N && (z =? 128)%N).

(** White space off the front, given what the encodings look like from there. *)
Fixpoint trim_front (s2 : ascii -> ascii -> bool) (s3 : ascii -> ascii -> ascii -> bool) (s : string) : string :=
  match s with
  | EmptyString => EmptyString
  | String a l1 =>
      if space1 a then trim_front s2 s3 l1
      else match l1 with
      | EmptyString => s
      | String b l2 =>
          if s2 a b then trim_front s2 s3 l2
          else match l2 with
          | EmptyString => s
          | String c l3 => if s3 a b c then trim_front s2 s3 l3 else s
          end
      end
  end.

Fixpoint string_rev_app (s t : string) : string :=
  match s with EmptyString => t | String a s' => string_rev_app s' (String a t) end.
Definition string_rev (s : string) : string := string_rev_app s "".

(** [strings.TrimSpace], [bytes.TrimSpace] *)
Definition TrimSpace (s : string) : string :=
  string_rev (trim_front (fun b a => space2 a b) (fun c b a => space3 a b c)
    (string_rev (trim_front space2 space3 s))).

(** ** Lines *)

Definition newline : ascii := "010"%char.

Fixpoint has_newline (s : string) : bool :=
  match s with EmptyString => false | String a s' => Ascii.eqb a newline || has_newline s' end.

(** The pieces between newlines, the last one included when it is not empty. *)
Fixpoint split_lines (cur : string) (s : string) : list string :=
  match s with
  | EmptyString => match cur with EmptyString => [] | _ => [string_rev cur] end
  | String a s' =>
      if Ascii.eqb a newline then string_rev cur :: split_lines "" s' else split_lines (String a cur) s'
  end.

(** [bufio.Scanner] with [ScanLines] and a buffer of 4 MiB: a piece that does
    not fit in the buffer with its newline ends the scan with an error. The
    carriage return it drops is white space to its callers. *)
Definition max_token : Z := 4 * 1024 * 1024.

(** ** Lemmas *)

Lemma string_rev_app_spec s t u : string_rev_app (string_rev_app s t) u = string_rev_app t (s +:+ u).
Proof. revert t. induction s as [|a s IH]; intros t; [done|]. exact (IH (String a t)). Qed.

Lemma string_rev_involutive s : string_rev (string_rev s) = s.
Proof. unfold string_rev. rewrite string_rev_app_spec. apply append_nil_r. Qed.

Lemma string_rev_app_append s t u : string_rev_app (s +:+ t) u = string_rev_app t (string_rev_app s u).
Proof. revert u. induction s as [|a s IH]; intros u; [done|]. exact (IH (String a u)). Qed.

Lemma string_rev_app_to s t : string_rev_app s t = string_rev s +:+ t.
Proof.
  unfold string_rev. revert t. induction s as [|a s IH]; intros t; [done|].
  cbn [string_rev_app]. rewrite (IH (String a t)), (IH (String a "")), append_assoc. done.
Qed.

Lemma string_rev_append s t : string_rev (s +:+ t) = string_rev t +:+ string_rev s.
Proof. unfold string_rev at 1. by rewrite string_rev_app_append, string_rev_app_to. Qed.

Section Trim.
Context (s2 : ascii -> ascii -> bool) (s3 : ascii -> ascii -> ascii -> bool).

Definition head_space (s : string) : bool :=
  match s with
  | EmptyString => false
  | String a l1 => space1 a || match l1 with
      | EmptyString => false
      | String b l2 => s2 a b || match l2 with EmptyString => false | String c _ => s3 a b c end
      end
  end.

(** What is left is a suffix, starts with no white space, and is all there was
    when it did not to begin with. *)
Lemma trim_front_spec n s :
  (String.length s <= n)%nat ->
  (exists p, s = p +:+ trim_front s2 s3 s) /\ head_space (trim_front s2 s3 s) = false /\
  (head_space s = false -> trim_front s2 s3 s = s).
Proof.
  revert s. induction n as [|n IH]; intros [|a l1] Hn; cbn in Hn; [by split; [exists ""|]|lia|by split; [exists ""|]|].
  assert (Hstep : forall q l, String a l1 = q +:+ l -> (String.length l <= n)%nat ->
    (exists p, String a l1 = p +:+ trim_front s2 s3 l) /\ head_space (trim_front s2 s3 l) = false).
  { intros q l Hq Hl. destruct (IH l Hl) as ((p & Hp) & Hh & _). split; [|done].
    exists (q +:+ p). rewrite append_assoc, <- Hp. exact Hq. }
  cbn [trim_front head_space]. destruct (space1 a) eqn:E1; cbn [orb].
  { destruct (Hstep (String a "") l1) as [H1 H2]; [done|lia|done]. }
  destruct l1 as [|b l2]; [split; [by exists ""|]; cbn [head_space]; by rewrite E1|].
  destruct (s2 a b) eqn:E2; cbn [orb].
  { destruct (Hstep (String a (String b "")) l2) as [H1 H2]; [done|cbn in Hn; lia|done]. }
  destruct l2 as [|c l3]; [split; [by exists ""|]; cbn [head_space]; by rewrite E1, E2|].
  destruct (s3 a b c) eqn:E3.
  { destruct (Hstep (String a (String b (String c ""))) l3) as [H1 H2]; [done|cbn in Hn; lia|done]. }
  split; [by exists ""|]. cbn [head_space]. by rewrite E1, E2, E3.
Qed.

Lemma head_space_prefix p q : head_space p = true -> head_space (p +:+ q) = true.
Proof.
  destruct p as [|a [|b [|c p]]]; cbn -[space1]; [done| | |done]; rewrite ?orb_false_r.
  - intros H. rewrite append_cons. cbn [head_space]. by rewrite H.
  - rewrite !append_cons. cbn [head_space]. intros [->| ->]%orb_true_iff; [done|]. by rewrite orb_true_r.
Qed.
End Trim.

Lemma TrimSpace_split s :
  exists p q, s = p +:+ TrimSpace s +:+ q /\ head_space space2 space3 (TrimSpace s) = false /\
  head_space (fun b a => space2 a b) (fun c b a => space3 a b c) (string_rev (TrimSpace s)) = false.
Proof.
  unfold TrimSpace. rewrite string_rev_involutive. set (u := trim_front space2 space3 s).
  destruct (trim_front_spec space2 space3 _ s ltac:(done)) as ((p & Hp) & Hu & _). fold u in Hp, Hu.
  destruct (trim_front_spec (fun b a => space2 a b) (fun c b a => space3 a b c) _ (string_rev u) ltac:(done))
    as ((q & Hq) & Hv & _).
  set (v := trim_front _ _ (string_rev u)) in *.
  assert (Huv : u = string_rev v +:+ string_rev q).
  { rewrite <- string_rev_append, <- Hq. by rewrite string_rev_involutive. }
  exists p, (string_rev q). split; [by rewrite <- Huv|]. split; [|done].
  destruct (head_space space2 space3 (string_rev v)) eqn:E; [|done].
  apply (head_space_prefix _ _ _ (string_rev q)) in E. rewrite <- Huv in E. congruence.
Qed.

Lemma TrimSpace_idem s : TrimSpace (TrimSpace s) = TrimSpace s.
Proof.
  destruct (TrimSpace_split s) as (_ & _ & _ & Hl & Hr). set (v := TrimSpace s) in *. clearbody v.
  unfold TrimSpace.
  destruct (trim_front_spec space2 space3 _ v ltac:(done)) as (_ & _ & ->); [|done].
  destruct (trim_front_spec (fun b a => space2 a b) (fun c b a => space3 a b c) _ (string_rev v) ltac:(done))
    as (_ & _ & ->); [|done].
  apply string_rev_involutive.
Qed.

Lemma has_newline_append s t : has_newline (s +:+ t) = has_newline s || has_newline t.
Proof. induction s as [|a s IH]; [done|]. rewrite append_cons. cbn. by rewrite IH, orb_assoc. Qed.

Lemma TrimSpace_newline s : has_newline s = false -> has_newline (TrimSpace s) = false.
Proof.
  destruct (TrimSpace_split s) as (p & q & Hs & _). rewrite Hs at 1. rewrite !has_newline_append.
  by intros [_ [? _]%orb_false_iff]%orb_false_iff.
Qed.

Lemma split_lines_app cur a b :
  split_lines cur (a +:+ String newline b) = split_lines cur (a +:+ String newline "") ++ split_lines "" b.
Proof.
  revert cur. induction a as [|x a IH]; intros cur; [done|]. rewrite !append_cons. cbn [split_lines].
  destruct (Ascii.eqb x newline); [cbn [app]; f_equal|]; apply IH.
Qed.

Lemma split_lines_line cur a :
  has_newline a = false -> split_lines cur (a +:+ String newline "") = [string_rev cur +:+ a].
Proof.
  revert cur. induction a as [|x a IH]; intros cur H.
  - cbn. by rewrite append_nil_r.
  - cbn in H. apply orb_false_iff in H as [Hx H]. rewrite append_cons. cbn [split_lines].
    rewrite Hx, IH by done. f_equal. unfold string_rev at 1. cbn [string_rev_app].
    by rewrite string_rev_app_to, append_assoc.
Qed.

(** A text in whole lines. *)
Definition whole_lines (s : string) : Prop := s = "" \/ exists a, s = a +:+ String newline "".

Lemma split_lines_whole s t : whole_lines s -> split_lines "" (s +:+ t) = split_lines "" s ++ split_lines "" t.
Proof.
  intros [->|[a ->]]; [done|]. rewrite append_assoc. change (String newline "" +:+ t) with (String newline t).
  apply split_lines_app.
Qed.

Lemma whole_lines_append s t : whole_lines t -> whole_lines s -> whole_lines (s +:+ t).
Proof.
  intros [->|[a ->]]; [by rewrite append_nil_r|]. intros _. right. exists (s +:+ a). by rewrite append_assoc.
Qed.

(** ** [strconv.ParseInt(s, 10, 64)] *)

Definition digit_value (a : ascii) : option N :=
  let n := N_of_ascii a in if between 48 57 n then Some (n - 48)%N else None.

Fixpoint parse_digits (acc : N) (s : string) : option N :=
  match s with
  | EmptyString => Some acc
  | String a s' => match digit_value a with Some d => parse_digits (acc * 10 + d) s' | None => None end
  end.

Definition ParseInt (s : string) : option Z :=
  let '(neg, digits) :=
    match s with
    | String "-" r => (true, r)
    | String "+" r => (false, r)
    | _ => (false, s)
    end in
  if String.eqb digits "" then None
  else
    match parse_digits 0 digits with
    | None => None
    | Some n =>
        let z := if neg : bool then - Z.of_N n else Z.of_N n in
        if (z <? min_int64) || (max_int64 <? z) then None else Some z
    end.

(** Graphic ASCII is no white space: such a string on a line is trimmed to
    itself. *)
Definition is_graphic (a : ascii) : bool := between 33 126 (N_of_ascii a).

Fixpoint all_graphic (s : string) : bool :=
  match s with EmptyString => true | String a s' => is_graphic a && all_graphic s' end.

Definition is_digit (a : ascii) : bool := between 48 57 (N_of_ascii a).

Fixpoint all_digits (s : string) : bool :=
  match s with EmptyString => true | String a s' => is_digit a && all_digits s' end.

Lemma digits_graphic s : all_digits s = true -> all_graphic s = true.
Proof.
  induction s as [|a s IH]; [done|]. cbn. intros [Ha Hs]%andb_true_iff. rewrite (IH Hs), andb_true_r.
  unfold is_digit, is_graphic, between in *. go_bools. apply andb_true_iff. split; apply N.leb_le;
    repeat match goal with H : (_ <=? _)%N = true |- _ => apply N.leb_le in H end; lia.
Qed.

Lemma graphic_append s t : all_graphic (s +:+ t) = all_graphic s && all_graphic t.
Proof.
  induction s as [|a s IH]; [done|]. change (String a s +:+ t) with (String a (s +:+ t)). cbn [all_graphic].
  by rewrite IH, andb_assoc.
Qed.

Lemma graphic_head a s : is_graphic a = true ->
  head_space space2 space3 (String a s) = false /\
  head_space (fun b a => space2 a b) (fun c b a => space3 a b c) (String a s) = false /\
  Ascii.eqb a newline = false.
Proof.
  intros Ha. destruct a as [a0 a1 a2 a3 a4 a5 a6 a7].
  destruct a0, a1, a2, a3, a4, a5, a6, a7; try discriminate Ha; (split; [|split; [|done]]);
    destruct s as [|b [|c s]]; try done; unfold head_space, space2, space3; cbn; by rewrite ?andb_false_r.
Qed.

Lemma graphic_trim s : all_graphic s = true -> TrimSpace (s +:+ String newline "") = s /\ has_newline s = false.
Proof.
  intros Hp. split.
  2: { induction s as [|a s IH]; [done|]. cbn [all_graphic has_newline] in Hp |- *. apply andb_true_iff in Hp as [Ha Hp].
       rewrite (IH Hp), orb_false_r. by apply (graphic_head a s Ha). }
  destruct s as [|a s]; [done|]. pose proof Hp as [Ha _]%andb_true_iff. unfold TrimSpace.
  destruct (trim_front_spec space2 space3 _ (String a s +:+ String newline "") ltac:(done)) as (_ & _ & ->).
  2: { rewrite append_cons. by apply graphic_head. }
  rewrite string_rev_append. change (string_rev (String newline "")) with (String newline ""). rewrite append_cons.
  cbn [trim_front]. change (space1 newline) with true. cbn iota.
  assert (Hr : forall t, all_graphic t = true -> all_graphic (string_rev t) = true).
  { intros t. unfold string_rev. enough (H : forall u, all_graphic (string_rev_app t u) = all_graphic t && all_graphic u)
      by (intros Ht; by rewrite H, Ht).
    induction t as [|x t IH]; intros u; [done|]. cbn [string_rev_app all_graphic]. rewrite IH. cbn [all_graphic].
    by destruct (is_graphic x), (all_graphic t), (all_graphic u). }
  specialize (Hr _ Hp). destruct (trim_front_spec (fun b a => space2 a b) (fun c b a => space3 a b c) _
    (string_rev (String a s)) ltac:(done)) as (_ & _ & E).
  change ("" +:+ string_rev (String a s)) with (string_rev (String a s)). rewrite E; [apply string_rev_involutive|].
  destruct (string_rev (String a s)) as [|x r]; [done|]. apply andb_true_iff in Hr as [Hx _]. by apply graphic_head.
Qed.

Lemma TrimSpace_graphic s : all_graphic s = true -> TrimSpace s = s.
Proof. intros [E _]%graphic_trim. rewrite <- E at 1. by rewrite TrimSpace_idem. Qed.

Lemma digits_trim s : all_digits s = true -> TrimSpace (s +:+ String newline "") = s /\ has_newline s = false.
Proof. intros Hs. by apply graphic_trim, digits_graphic. Qed.

Lemma digit_char n : (n < 10)%N -> digit_value (pretty_N_char n) = Some n /\ is_digit (pretty_N_char n) = true.
Proof.
  intros Hn. assert (Hall : Forall (fun n => digit_value (pretty_N_char n) = Some n /\ is_digit (pretty_N_char n) = true)
    (map N.of_nat (seq 0 10))) by (by repeat constructor).
  rewrite Forall_forall in Hall. apply Hall. replace n with (N.of_nat (N.to_nat n)) by lia.
  apply list_elem_of_In, in_map, in_seq. lia.
Qed.

Lemma pretty_go_digits x s :
  (0 < x)%N -> parse_digits 0 (pretty_N_go x s) = parse_digits x s /\
  all_digits (pretty_N_go x s) = all_digits s /\ exists a r, pretty_N_go x s = String a r /\ is_digit a = true.
Proof.
  revert s. induction (N.lt_wf_0 x) as [x _ IH]; intros s Hx.
  rewrite pretty_N_go_step by done. destruct (digit_char (x mod 10)%N) as [Hv Hd]; [by apply N.mod_lt|].
  pose proof (N.div_mod x 10 ltac:(done)) as Hdm. destruct (decide (x / 10 = 0)%N) as [E|E].
  - rewrite E, pretty_N_go_0. split; [|split; [cbn [all_digits]; by rewrite Hd|by eexists _, _]].
    cbn [parse_digits]. rewrite Hv. f_equal. lia.
  - destruct (IH (x / 10)%N) with (s := String (pretty_N_char (x mod 10)) s) as (-> & -> & Hs);
      [by apply (N.div_lt x 10)|by apply N.neq_0_lt_0|].
    split; [|split; [cbn [all_digits]; by rewrite Hd|done]]. cbn [parse_digits]. rewrite Hv. f_equal. lia.
Qed.

Lemma pretty_digits (z : Z) :
  0 <= z -> parse_digits 0 (pretty z) = Some (Z.to_N z) /\ all_digits (pretty z) = true /\
  exists a r, pretty z = String a r /\ is_digit a = true.
Proof.
  intros Hz. destruct z as [|p|p]; [by split_and!; [| |eexists _, _]| |lia].
  change (pretty (Zpos p)) with (pretty (Npos p)). unfold pretty, pretty_N. rewrite decide_False by done.
  destruct (pretty_go_digits (Npos p) "" ltac:(lia)) as (-> & -> & H). by split_and!.
Qed.

(** What [FormatInt] writes on a line is read again. *)
Lemma ParseInt_pretty z : 0 <= z <= max_int64 -> ParseInt (TrimSpace (pretty z +:+ String newline "")) = Some z.
Proof.
  intros Hz. destruct (pretty_digits z) as (Hp & Hd & a & r & E & Ha); [lia|]. rewrite (proj1 (digits_trim _ Hd)).
  rewrite E in *. unfold ParseInt.
  assert (Hsign : Ascii.eqb a "-" = false /\ Ascii.eqb a "+" = false).
  { destruct a as [a0 a1 a2 a3 a4 a5 a6 a7]. destruct a0, a1, a2, a3, a4, a5, a6, a7; try discriminate Ha; by split. }
  assert (Hcase : (match String a r with String "-" r => (true, r) | String "+" r => (false, r) | _ => (false, String a r) end) =
    (false, String a r)).
  { destruct a as [a0 a1 a2 a3 a4 a5 a6 a7]. by destruct a0, a1, a2, a3, a4, a5, a6, a7. }
  rewrite Hcase, Hp. cbn [String.eqb]. rewrite Z2N.id by lia. unfold max_int64, min_int64 in *.
  destruct (Z.ltb_spec z (- 2 ^ 63)); [lia|]. destruct (Z.ltb_spec (2 ^ 63 - 1) z); [lia|]. done.
Qed.

Lemma ParseInt_text z : 0 <= z <= max_int64 -> ParseInt (pretty z) = Some z.
Proof.
  intros Hz. rewrite <- (ParseInt_pretty z Hz). by rewrite (proj1 (digits_trim _ (proj1 (proj2 (pretty_digits z ltac:(lia)))))).
Qed.

(** ** [strings.HasPrefix], [TrimPrefix], [Split], and cutting at a byte *)

Definition HasPrefix (s p : string) : bool := String.prefix p s.

Fixpoint drop_bytes (n : nat) (s : string) : string :=
  match n, s with S n, String _ s => drop_bytes n s | _, _ => s end.

Definition TrimPrefix (s p : string) : string := if HasPrefix s p then drop_bytes (String.length p) s else s.

(** [strings.Fields], on the current word and what is before it *)
Fixpoint fields_from (cur : string) (s : string) : list string :=
  let flush l := if String.eqb cur "" then l else string_rev cur :: l in
  match s with
  | EmptyString => flush []
  | String a l1 =>
      if space1 a then flush (fields_from "" l1)
      else match l1 with
      | String b l2 =>
          if space2 a b then flush (fields_from "" l2)
          else match l2 with
          | String c l3 => if space3 a b c then flush (fields_from "" l3) else fields_from (String a cur) l1
          | EmptyString => fields_from (String a cur) l1
          end
      | EmptyString => fields_from (String a cur) l1
      end
  end.
Definition Fields (s : string) : list string := fields_from "" s.

(** [strings.Trim(s, c)] for one byte *)
Fixpoint trim_left (c : ascii) (s : string) : string :=
  match s with String a s' => if Ascii.eqb a c then trim_left c s' else s | EmptyString => "" end.
Definition Trim (s : string) (c : ascii) : string := string_rev (trim_left c (string_rev (trim_left c s))).

(** [strings.ToLower] of ASCII text *)
Fixpoint ToLower (s : string) : string :=
  match s with
  | EmptyString => ""
  | String a s' => String (if between 65 90 (N_of_ascii a) then ascii_of_N (N_of_ascii a + 32) else a) (ToLower s')
  end.

Fixpoint split_byte (c : ascii) (cur : string) (s : string) : list string :=
  match s with
  | EmptyString => [string_rev cur]
  | String a s' => if Ascii.eqb a c then string_rev cur :: split_byte c "" s' else split_byte c (String a cur) s'
  end.

(** [strings.Split] with a separator of one byte. *)
Definition Split (s : string) (c : ascii) : list string := split_byte c "" s.

(** The part before the first [c], or everything. *)
Fixpoint before_byte (c : ascii) (s : string) : string :=
  match s with
  | EmptyString => ""
  | String a s' => if Ascii.eqb a c then "" else String a (before_byte c s')
  end.

Fixpoint has_byte (c : ascii) (s : string) : bool :=
  match s with EmptyString => false | String a s' => Ascii.eqb a c || has_byte c s' end.

(** The part before the last [c], or everything. *)
Definition before_last_byte (c : ascii) (s : string) : string :=
  if has_byte c s then
    let r := string_rev s in string_rev (drop_bytes (S (String.length (before_byte c r))) r)
  else s.

Fixpoint join_byte (c : ascii) (l : list string) : string :=
  match l with
  | [] => ""
  | [s] => s
  | s :: l' => s +:+ String c (join_byte c l')
  end.

Lemma append_nil_l (a : string) : "" +:+ a = a.
Proof. done. Qed.

Lemma HasPrefix_app p s : HasPrefix (p +:+ s) p = true.
Proof. unfold HasPrefix. induction p as [|a p IH]; [by destruct s|]. rewrite append_cons. cbn. by destruct (ascii_dec a a). Qed.

Lemma TrimPrefix_app p s : TrimPrefix (p +:+ s) p = s.
Proof. unfold TrimPrefix. rewrite HasPrefix_app. by induction p. Qed.

Lemma string_rev_cons a s : string_rev (String a s) = string_rev s +:+ String a "".
Proof. unfold string_rev at 1. cbn. by rewrite string_rev_app_to. Qed.

Lemma split_byte_plain c cur s : has_byte c s = false -> split_byte c cur s = [string_rev cur +:+ s].
Proof.
  revert cur. induction s as [|a s IH]; intros cur; cbn; [by rewrite append_nil_r|].
  intros [Ha Hs]%orb_false_iff. rewrite Ha, IH by done. by rewrite string_rev_cons, append_assoc.
Qed.

Lemma split_byte_cut c cur s t :
  has_byte c s = false -> split_byte c cur (s +:+ String c t) = (string_rev cur +:+ s) :: split_byte c "" t.
Proof.
  revert cur. induction s as [|a s IH]; intros cur; rewrite ?append_nil_l, ?append_cons; cbn;
    [by rewrite Ascii.eqb_refl, append_nil_r|].
  intros [Ha Hs]%orb_false_iff. rewrite Ha, IH by done. by rewrite string_rev_cons, append_assoc.
Qed.

Lemma Split_join c l : l <> [] -> Forall (fun s => has_byte c s = false) l -> Split (join_byte c l) c = l.
Proof.
  unfold Split. induction l as [|s [|s' l] IH]; [done| |]; intros _ [Hs Hl]%Forall_cons.
  - cbn [join_byte]. by rewrite split_byte_plain.
  - change (join_byte c (s :: s' :: l)) with (s +:+ String c (join_byte c (s' :: l))).
    rewrite split_byte_cut by done. f_equal. by apply IH.
Qed.

Lemma has_byte_append c s t : has_byte c (s +:+ t) = has_byte c s || has_byte c t.
Proof. induction s as [|a s IH]; rewrite ?append_nil_l, ?append_cons; cbn; [done|]. by rewrite IH, orb_assoc. Qed.

Lemma before_byte_cut c s t : has_byte c s = false -> before_byte c (s +:+ String c t) = s.
Proof.
  induction s as [|a s IH]; rewrite ?append_nil_l, ?append_cons; cbn; [by rewrite Ascii.eqb_refl|]. intros [-> Hs]%orb_false_iff. by rewrite IH.
Qed.

Lemma has_byte_rev c s : has_byte c (string_rev s) = has_byte c s.
Proof.
  induction s as [|a s IH]; [done|]. rewrite string_rev_cons, has_byte_append, IH. cbn. by rewrite orb_false_r, orb_comm.
Qed.

Lemma drop_bytes_app s t : drop_bytes (String.length s) (s +:+ t) = t.
Proof. induction s as [|a s IH]; rewrite ?append_nil_l, ?append_cons; [by destruct t|done]. Qed.

(** [name@version] is cut at its last [@]. *)
Lemma before_last_byte_cut c s t : has_byte c t = false -> before_last_byte c (s +:+ String c t) = s.
Proof.
  intros Ht. unfold before_last_byte. rewrite has_byte_append. cbn [has_byte]. rewrite Ascii.eqb_refl, orb_true_r.
  rewrite string_rev_append, string_rev_cons, append_assoc. rewrite append_cons, append_nil_l.
  rewrite before_byte_cut by (by rewrite has_byte_rev).
  replace (drop_bytes (S (String.length (string_rev t))) (string_rev t +:+ String c (string_rev s))) with (string_rev s);
    [apply string_rev_involutive|].
  generalize (string_rev t) as u. induction u as [|a u IH]; rewrite ?append_nil_l, ?append_cons; [done|]. by apply IH.
Qed.
