(* ===== verification/GoFloat.v ===== *)
(** * Go's float64

    IEEE 754 binary64 with round-to-nearest-even, through the Standard
    Library's executable specification floats ([SpecFloat]). *)

From S2P Require Import Prelude.
From Stdlib Require Export SpecFloat.

Definition float64 : Type := spec_float.

Definition f64_prec : Z := 53.
Definition f64_emax : Z := 1024.

Definition f64_add : float64 -> float64 -> float64 := SFadd f64_prec f64_emax.
Definition f64_sub : float64 -> float64 -> float64 := SFsub f64_prec f64_emax.
Definition f64_mul : float64 -> float64 -> float64 := SFmul f64_prec f64_emax.
Definition f64_div : float64 -> float64 -> float64 := SFdiv f64_prec f64_emax.

(** [x < y], [x <= y] and [x > y]; false when an operand is NaN. *)
Definition f64_ltb (x y : float64) : bool := SFltb x y.
Definition f64_leb (x y : float64) : bool := SFleb x y.
Definition f64_gtb (x y : float64) : bool := SFltb y x.

(** [float64(z)] for an integer [z]. *)
Definition f64_of_Z (z : Z) : float64 := binary_normalize f64_prec f64_emax z 0 false.

Definition f64_zero : float64 := f64_of_Z 0.
Definition f64_one : float64 := f64_of_Z 1.

Definition f64_is_nan (x : float64) : bool :=
  match x with S754_nan => true | _ => false end.

Definition f64_is_neg_zero (x : float64) : bool :=
  match x with S754_zero true => true | _ => false end.

(** The built-in [min]: NaN if an operand is NaN, and -0 below +0. *)
Definition f64_min (x y : float64) : float64 :=
  if f64_is_nan x || f64_is_nan y then S754_nan
  else if f64_ltb x y then x
  else if f64_ltb y x then y
  else if f64_is_neg_zero x then x else y.

(** [Duration.Seconds]: whole seconds plus the nanosecond remainder. *)
Definition Duration_Seconds (d : Duration) : float64 :=
  f64_add (f64_of_Z (Z.quot d Second)) (f64_div (f64_of_Z (Z.rem d Second)) (f64_of_Z (10 ^ 9))).

(** [int(x)] of a float64 whose integral part fits: truncation to zero. *)
Definition f64_to_Z (x : float64) : Z :=
  match x with
  | S754_finite s m e =>
      let a := if 0 <=? e then Z.pos m * 2 ^ e else Z.pos m / 2 ^ (- e) in
      if s then - a else a
  | _ => 0
  end.

(** ** Lemmas *)

Lemma f64_ltb_nan_l x : f64_ltb S754_nan x = false.
Proof. done. Qed.

Lemma f64_ltb_nan_r x : f64_ltb x S754_nan = false.
Proof. by destruct x. Qed.

Lemma SFcompare_refl x : f64_is_nan x = false -> SFcompare x x = Some Eq.
Proof.
  destruct x as [s|s| |s m e]; simpl; intros; try done; destruct s; try done.
  all: rewrite Z.compare_refl; by rewrite ?Pos.compare_cont_refl.
Qed.

Lemma SFcompare_antisym x y : SFcompare y x = CompOpp <$> SFcompare x y.
Proof.
  destruct x as [s|s| |s m e], y as [t|t| |t n f]; simpl; try done;
    destruct s, t; simpl; try done.
  all: rewrite (Z.compare_antisym e f); destruct (e ?= f); simpl; try done.
  all: f_equal; rewrite ?(Pos.compare_cont_antisym); simpl; rewrite ?CompOpp_involutive; done.
Qed.

(** The minimum is below both operands. *)
Lemma f64_min_le_l x y :
  f64_is_nan x = false -> f64_is_nan y = false -> f64_leb (f64_min x y) x = true.
Proof.
  intros Hx Hy. unfold f64_min. rewrite Hx, Hy. simpl.
  assert (Hr : f64_leb x x = true) by (unfold f64_leb, SFleb; by rewrite SFcompare_refl).
  destruct (f64_ltb x y) eqn:E1; [done|].
  destruct (f64_ltb y x) eqn:E2.
  - unfold f64_ltb, f64_leb, SFltb, SFleb in *. by destruct (SFcompare y x) as [[]|].
  - destruct (f64_is_neg_zero x); [done|].
    revert E1 E2. unfold f64_ltb, f64_leb, SFltb, SFleb. rewrite (SFcompare_antisym x y).
    destruct (SFcompare x y) as [[]|] eqn:E; simpl; try done.
    destruct x, y; simpl in *; try done; repeat case_match; done.
Qed.
