(* ===== verification/Breaker.v ===== *)
(** * The circuit breaker (internal/protection/breaker.go)

    Per-capability breakers fed by a failure-evidence reader. The reader is
    code of the control plane, so its answer is an argument of [Evaluate]; the
    mutex makes every method one atomic step. *)

From S2P Require Import Prelude.

(** ** Data *)

Inductive BreakerState : Type :=
| BreakerClosed
| BreakerOpen
| BreakerHalfOpen
| BreakerUnknown.

#[export] Instance BreakerState_eq_dec : EqDecision BreakerState.
Proof. solve_decision. Defined.

Definition BreakerState_String (b : BreakerState) : string :=
  match b with
  | BreakerOpen => "open"
  | BreakerHalfOpen => "half_open"
  | BreakerUnknown => "unknown"
  | _ => "closed"
  end.

Record BreakerConfig : Type := MkBreakerConfig {
  FailureThreshold : Z;
  Window : Duration;
  Cooldown : Duration }.

Definition DefaultBreakerConfig : BreakerConfig :=
  MkBreakerConfig 5 (60 * Second) (30 * Second).

Record circuitBreaker : Type := MkCircuitBreaker {
  cb_state : BreakerState;
  failureCount : Z;
  openedAt : Time;
  probeAllowed : bool }.

Record FailureWindow : Type := MkFailureWindow {
  Count : Z;
  Truncated : bool }.

(** What [RecentFailures] answers when asked, [None] for a nil reader. *)
Definition FailureEvidenceReader : Type :=
  option (string -> Duration -> result error FailureWindow).

Record BreakerSet : Type := MkBreakerSet {
  breakers : gmap string circuitBreaker;
  bs_cfg : BreakerConfig }.

(** ** Operations *)

Definition NewBreakerSet (cfg : BreakerConfig) : BreakerSet :=
  MkBreakerSet ∅
    (MkBreakerConfig
       (if FailureThreshold cfg <=? 0 then 5 else FailureThreshold cfg)
       (if Window cfg <=? 0 then 60 * Second else Window cfg)
       (if Cooldown cfg <=? 0 then 30 * Second else Cooldown cfg)).

Definition BreakerSet_FailureThreshold (bs : BreakerSet) : Z :=
  FailureThreshold (bs_cfg bs).

Definition new_circuit : circuitBreaker :=
  MkCircuitBreaker BreakerClosed 0 zero_time false.

(** [get]: the capability's breaker, created Closed on first use. *)
Definition BreakerSet_get (bs : BreakerSet) (capID : string)
  : BreakerSet * circuitBreaker :=
  match breakers bs !! capID with
  | Some b => (bs, b)
  | None =>
      (MkBreakerSet (<[capID := new_circuit]> (breakers bs)) (bs_cfg bs), new_circuit)
  end.

Definition BreakerSet_put (bs : BreakerSet) (capID : string) (b : circuitBreaker)
  : BreakerSet :=
  MkBreakerSet (<[capID := b]> (breakers bs)) (bs_cfg bs).

(** What [Evaluate] returns: the state, the effective failure count, an error. *)
Definition Evaluation : Type := BreakerState * Z * option error.

(** The locked part of [Evaluate], on the capability's breaker. *)
Definition evaluate_locked (cfg : BreakerConfig) (reader : FailureEvidenceReader)
    (capID : string) (now : Time) (b : circuitBreaker)
  : circuitBreaker * Evaluation :=
  match cb_state b with
  | BreakerOpen =>
      if Cooldown cfg <=? time_Sub now (openedAt b) then
        (MkCircuitBreaker BreakerHalfOpen (failureCount b) (openedAt b) true,
         (BreakerHalfOpen, failureCount b, None))
      else (b, (BreakerOpen, failureCount b, None))
  | BreakerHalfOpen => (b, (BreakerHalfOpen, failureCount b, None))
  | _ =>
      match reader with
      | None => (b, (BreakerClosed, 0, None))
      | Some recent =>
          match recent capID (Window cfg) with
          | Err e => (b, (BreakerUnknown, 0, Some e))
          | Ok w =>
              let visible := Count w in
              let effective :=
                if negb (Truncated w) && (visible =? 0) then failureCount b else visible in
              if Truncated w && (effective <? FailureThreshold cfg) then
                (b, (BreakerUnknown, effective, None))
              else if FailureThreshold cfg <=? effective then
                (MkCircuitBreaker BreakerOpen (failureCount b) now (probeAllowed b),
                 (BreakerOpen, effective, None))
              else (b, (BreakerClosed, effective, None))
          end
      end
  end.

Definition BreakerSet_Evaluate (reader : FailureEvidenceReader) (bs : BreakerSet)
    (capID : string) (now : Time) : BreakerSet * Evaluation :=
  let '(bs1, b) := BreakerSet_get bs capID in
  let '(b', r) := evaluate_locked (bs_cfg bs1) reader capID now b in
  (BreakerSet_put bs1 capID b', r).

(** The locked part of [RecordOutcome]; [failureCount++] wraps like an int. *)
Definition record_outcome_locked (failed : bool) (now : Time) (b : circuitBreaker)
  : circuitBreaker :=
  let fc := if failed then wrap64 (failureCount b + 1) else failureCount b in
  match cb_state b with
  | BreakerHalfOpen =>
      if failed then MkCircuitBreaker BreakerOpen fc now false
      else MkCircuitBreaker BreakerClosed fc (openedAt b) false
  | _ => MkCircuitBreaker (cb_state b) fc (openedAt b) (probeAllowed b)
  end.

Definition BreakerSet_RecordOutcome (bs : BreakerSet) (capID : string)
    (failed : bool) (now : Time) : BreakerSet :=
  let '(bs1, b) := BreakerSet_get bs capID in
  BreakerSet_put bs1 capID (record_outcome_locked failed now b).

(** ** Sequences of calls *)

(** One call on the set, with the reader's answers at the time of the call. *)
Inductive BreakerCall : Type :=
| CallEvaluate (reader : FailureEvidenceReader) (capID : string) (now : Time)
| CallOutcome (capID : string) (failed : bool) (now : Time).

Definition call_capID (c : BreakerCall) : string :=
  match c with CallEvaluate _ k _ | CallOutcome k _ _ => k end.

Definition call_time (c : BreakerCall) : Time :=
  match c with CallEvaluate _ _ t | CallOutcome _ _ t => t end.

Definition breaker_call (bs : BreakerSet) (c : BreakerCall) : BreakerSet :=
  match c with
  | CallEvaluate reader k now => fst (BreakerSet_Evaluate reader bs k now)
  | CallOutcome k failed now => BreakerSet_RecordOutcome bs k failed now
  end.

(** The state the set shows for a capability; Closed before its first use. *)
Definition circuit_of (bs : BreakerSet) (capID : string) : circuitBreaker :=
  default new_circuit (breakers bs !! capID).

(** ** Lemmas *)

Lemma BreakerSet_get_circuit bs k : snd (BreakerSet_get bs k) = circuit_of bs k.
Proof. unfold BreakerSet_get, circuit_of. by destruct (breakers bs !! k). Qed.

Lemma BreakerSet_get_cfg bs k : bs_cfg (fst (BreakerSet_get bs k)) = bs_cfg bs.
Proof. unfold BreakerSet_get. by destruct (breakers bs !! k). Qed.

Lemma BreakerSet_get_circuit_of bs k k' :
  circuit_of (fst (BreakerSet_get bs k)) k' = circuit_of bs k'.
Proof.
  unfold BreakerSet_get, circuit_of. destruct (breakers bs !! k) eqn:E; simpl; [done|].
  rewrite lookup_default_insert. case_decide; [|done]. subst. by rewrite E.
Qed.

Lemma BreakerSet_Evaluate_unfold reader bs k now :
  BreakerSet_Evaluate reader bs k now =
    (BreakerSet_put (fst (BreakerSet_get bs k)) k
       (fst (evaluate_locked (bs_cfg bs) reader k now (circuit_of bs k))),
     snd (evaluate_locked (bs_cfg bs) reader k now (circuit_of bs k))).
Proof.
  unfold BreakerSet_Evaluate. rewrite <- BreakerSet_get_circuit, <- (BreakerSet_get_cfg bs k).
  destruct (BreakerSet_get bs k) as [bs1 b]. simpl. by destruct (evaluate_locked _ _ _ _ _).
Qed.

Lemma circuit_of_put bs k k' b :
  circuit_of (BreakerSet_put bs k b) k' = if decide (k = k') then b else circuit_of bs k'.
Proof. apply lookup_default_insert. Qed.

Lemma breaker_call_cfg bs c : bs_cfg (breaker_call bs c) = bs_cfg bs.
Proof.
  destruct c as [r k now|k f now]; simpl.
  - rewrite BreakerSet_Evaluate_unfold. apply BreakerSet_get_cfg.
  - unfold BreakerSet_RecordOutcome. rewrite <- (BreakerSet_get_cfg bs k).
    by destruct (BreakerSet_get bs k).
Qed.

(** A call changes the breaker of its own capability only. *)
Lemma breaker_call_circuit bs c k :
  circuit_of (breaker_call bs c) k =
    if decide (call_capID c = k) then
      match c with
      | CallEvaluate r _ now => fst (evaluate_locked (bs_cfg bs) r k now (circuit_of bs k))
      | CallOutcome _ f now => record_outcome_locked f now (circuit_of bs k)
      end
    else circuit_of bs k.
Proof.
  destruct c as [r k1 now|k1 f now]; simpl.
  - rewrite BreakerSet_Evaluate_unfold. simpl. rewrite circuit_of_put.
    case_decide; [by subst|]. apply BreakerSet_get_circuit_of.
  - unfold BreakerSet_RecordOutcome. pose proof (BreakerSet_get_circuit bs k1) as Hc.
    pose proof (BreakerSet_get_circuit_of bs k1 k) as Ho.
    destruct (BreakerSet_get bs k1) as [bs1 b]; simpl in *. rewrite circuit_of_put.
    case_decide; by subst.
Qed.

(** [cooldown_ok cfg]: the cooldown [NewBreakerSet] guarantees. *)
Definition cooldown_ok (cfg : BreakerConfig) : Prop := 0 < Cooldown cfg <= max_int64.

Lemma cooldown_leb cfg now t :
  cooldown_ok cfg -> (Cooldown cfg <=? time_Sub now t) = (Cooldown cfg <=? now - t).
Proof.
  intros [H1 H2]. apply eq_bool_prop_intro. rewrite !Is_true_true, !Z.leb_le.
  apply time_Sub_ge; unfold in_int64, min_int64, max_int64 in *; lia.
Qed.

(** An Open breaker stays Open, opened when it was, through any call that
    comes before its cooldown has passed. *)
Lemma open_call_stays bs c k t :
  cooldown_ok (bs_cfg bs) ->
  cb_state (circuit_of bs k) = BreakerOpen -> openedAt (circuit_of bs k) = t ->
  call_time c < t + Cooldown (bs_cfg bs) ->
  cb_state (circuit_of (breaker_call bs c) k) = BreakerOpen /\
  openedAt (circuit_of (breaker_call bs c) k) = t.
Proof.
  intros Hc Hs Ht Hlt. rewrite breaker_call_circuit. case_decide; [|done].
  destruct c as [r k1 now|k1 f now]; simpl in *.
  - unfold evaluate_locked. rewrite Hs, cooldown_leb, Ht by done.
    destruct (Z.leb_spec (Cooldown (bs_cfg bs)) (now - t)); [lia|done].
  - unfold record_outcome_locked. by rewrite Hs.
Qed.

Lemma open_calls_stay bs cs k t :
  cooldown_ok (bs_cfg bs) ->
  cb_state (circuit_of bs k) = BreakerOpen -> openedAt (circuit_of bs k) = t ->
  Forall (fun c => call_time c < t + Cooldown (bs_cfg bs)) cs ->
  cb_state (circuit_of (run_list breaker_call bs cs) k) = BreakerOpen /\
  openedAt (circuit_of (run_list breaker_call bs cs) k) = t.
Proof.
  intros Hc Hs Ht Hcs. revert bs Hc Hs Ht Hcs.
  induction cs as [|c cs IH]; intros bs Hc Hs Ht Hcs; [done|]; simpl.
  apply Forall_cons in Hcs as [H1 Hcs]. apply IH; rewrite ?breaker_call_cfg; try done.
  all: by eapply open_call_stays.
Qed.

Lemma run_list_cfg bs cs : bs_cfg (run_list breaker_call bs cs) = bs_cfg bs.
Proof. revert bs; induction cs as [|c cs IH]; intros; simpl; [done|]. by rewrite IH, breaker_call_cfg. Qed.

(** ** Properties *)

(** The binding decision table of a Closed breaker (R21-8, R93-2): with
    complete evidence below the threshold it answers Closed, with truncated
    evidence below it Unknown, with evidence at or above it Open, opened now,
    and with unreadable evidence Unknown with the reader's error; an answer other than Open leaves
    the breaker as it was. *)
Theorem breaker_decision_table bs recent k now :
  cb_state (circuit_of bs k) = BreakerClosed ->
  let th := FailureThreshold (bs_cfg bs) in
  let '(bs', (st, eff, err)) := BreakerSet_Evaluate (Some recent) bs k now in
  (st <> BreakerOpen -> circuit_of bs' k = circuit_of bs k) /\
  match recent k (Window (bs_cfg bs)) with
  | Err e => st = BreakerUnknown /\ err = Some e
  | Ok w =>
      err = None /\
      let visible := if negb (Truncated w) && (Count w =? 0)
                     then failureCount (circuit_of bs k) else Count w in
      eff = visible /\
      (visible < th -> Truncated w = false -> st = BreakerClosed) /\
      (visible < th -> Truncated w = true -> st = BreakerUnknown) /\
      (th <= visible -> st = BreakerOpen /\
        cb_state (circuit_of bs' k) = BreakerOpen /\ openedAt (circuit_of bs' k) = now)
  end.
Proof.
  intros Hs. simpl. rewrite BreakerSet_Evaluate_unfold.
  unfold evaluate_locked. rewrite Hs.
  destruct (recent k _) as [w|e]; simpl.
  2: { rewrite circuit_of_put, decide_True by done. done. }
  set (eff := if negb (Truncated w) && (Count w =? 0) then _ else _).
  destruct (Truncated w && (eff <? _)) eqn:E1; [|destruct (_ <=? eff) eqn:E2]; simpl;
    rewrite circuit_of_put, decide_True by done; go_bools;
    repeat split; intros; simpl; try done; try lia; try congruence.
  apply andb_false_iff in E1 as [E1|E1]; go_bools; [congruence|lia].
Qed.

(** An Open breaker rejects until its cooldown has passed: whatever calls
    come before [t + Cooldown], the next evaluation before that instant answers
    Open, and the first evaluation at or after it answers HalfOpen. *)
Theorem breaker_open_until_cooldown bs cs k t reader now :
  cooldown_ok (bs_cfg bs) ->
  cb_state (circuit_of bs k) = BreakerOpen -> openedAt (circuit_of bs k) = t ->
  Forall (fun c => call_time c < t + Cooldown (bs_cfg bs)) cs ->
  (snd (BreakerSet_Evaluate reader (run_list breaker_call bs cs) k now)).1.1 =
    if now <? t + Cooldown (bs_cfg bs) then BreakerOpen else BreakerHalfOpen.
Proof.
  intros Hc Hs Ht Hcs. destruct (open_calls_stay bs cs k t Hc Hs Ht Hcs) as [Hs' Ht'].
  rewrite BreakerSet_Evaluate_unfold, run_list_cfg. unfold evaluate_locked.
  rewrite Hs', cooldown_leb, Ht' by done. simpl.
  destruct (Z.ltb_spec now (t + Cooldown (bs_cfg bs))),
    (Z.leb_spec (Cooldown (bs_cfg bs)) (now - t)); done || lia.
Qed.

(** A half-open breaker does not admit "exactly one probe": once the
    cooldown has passed, any number of evaluations with no outcome in between
    all answer HalfOpen, and [probeAllowed] stays set. *)
Theorem breaker_half_open_admits_every_probe bs k (probes : list (FailureEvidenceReader * Time)) reader now :
  cb_state (circuit_of bs k) = BreakerHalfOpen ->
  let bs' := run_list breaker_call bs (map (fun p => CallEvaluate p.1 k p.2) probes) in
  (snd (BreakerSet_Evaluate reader bs' k now)).1.1 = BreakerHalfOpen /\
  circuit_of bs' k = circuit_of bs k.
Proof.
  intros Hs. simpl.
  assert (Hk : circuit_of (run_list breaker_call bs
             (map (fun p => CallEvaluate p.1 k p.2) probes)) k = circuit_of bs k).
  { revert bs Hs. induction probes as [|[r t] ps IH]; intros bs Hs; [done|]; simpl.
    assert (Hc : circuit_of (breaker_call bs (CallEvaluate r k t)) k = circuit_of bs k).
    { rewrite breaker_call_circuit, decide_True by done. unfold evaluate_locked. by rewrite Hs. }
    simpl in Hc. rewrite IH; [done|by rewrite Hc]. }
  split; [|done]. rewrite BreakerSet_Evaluate_unfold. unfold evaluate_locked.
  by rewrite Hk, Hs.
Qed.

(** A successful probe does not bring a breaker back when the evidence
    store reads clean: [RecordOutcome] closes it but never resets
    [failureCount], so a breaker that counted [FailureThreshold] failures in
    memory is Open again at the very next evaluation, cooldown after cooldown. *)
Theorem breaker_reopens_after_successful_probe bs k recent w t now :
  cb_state (circuit_of bs k) = BreakerHalfOpen ->
  FailureThreshold (bs_cfg bs) <= failureCount (circuit_of bs k) ->
  recent k (Window (bs_cfg bs)) = Ok w -> Count w = 0 -> Truncated w = false ->
  let closed := BreakerSet_RecordOutcome bs k false t in
  cb_state (circuit_of closed k) = BreakerClosed /\
  (snd (BreakerSet_Evaluate (Some recent) closed k now)).1.1 = BreakerOpen.
Proof.
  intros Hs Hth Hr Hw Ht. simpl.
  assert (Hk : circuit_of (BreakerSet_RecordOutcome bs k false t) k =
    MkCircuitBreaker BreakerClosed (failureCount (circuit_of bs k)) (openedAt (circuit_of bs k)) false).
  { pose proof (breaker_call_circuit bs (CallOutcome k false t) k) as H. simpl in H.
    rewrite H, decide_True by done. unfold record_outcome_locked. by rewrite Hs. }
  rewrite Hk. split; [done|].
  rewrite BreakerSet_Evaluate_unfold, Hk.
  pose proof (breaker_call_cfg bs (CallOutcome k false t)) as Hcfg. simpl in Hcfg.
  rewrite Hcfg. unfold evaluate_locked. simpl. rewrite Hr, Hw, Ht. simpl.
  rewrite (proj2 (Z.leb_le _ _) Hth). done.
Qed.

(** ** Witnesses *)

Definition wit_reader : string -> Duration -> result error FailureWindow :=
  fun _ _ => Ok (MkFailureWindow 0 false).

Definition wit_failures : list BreakerCall :=
  [CallOutcome "svc" true 1; CallOutcome "svc" true 2; CallOutcome "svc" true 3;
   CallOutcome "svc" true 4; CallOutcome "svc" true 5].

(** Five recorded failures, then an evaluation at time 10: Open. *)
Definition wit_open : BreakerSet :=
  run_list breaker_call (NewBreakerSet DefaultBreakerConfig)
    (wit_failures ++ [CallEvaluate (Some wit_reader) "svc" 10]).

(** ... and one more evaluation after the cooldown: HalfOpen. *)
Definition wit_half : BreakerSet :=
  breaker_call wit_open (CallEvaluate (Some wit_reader) "svc" (10 + 30 * Second)).

Lemma breaker_decision_table_witness :
  (snd (BreakerSet_Evaluate (Some (fun _ _ => Ok (MkFailureWindow 2 true)))
          (NewBreakerSet DefaultBreakerConfig) "svc" 7)).1.1 = BreakerUnknown.
Proof.
  pose proof (breaker_decision_table (NewBreakerSet DefaultBreakerConfig)
    (fun _ _ => Ok (MkFailureWindow 2 true)) "svc" 7 eq_refl) as H.
  destruct (BreakerSet_Evaluate _ _ _ _) as [bs' [[st eff] err]] eqn:E.
  destruct H as (_ & _ & _ & _ & H & _). apply H; vm_compute; reflexivity.
Defined.

Lemma breaker_open_until_cooldown_witness :
  (snd (BreakerSet_Evaluate None (run_list breaker_call wit_open
     [CallOutcome "svc" false 20; CallEvaluate None "svc" 30]) "svc" 40)).1.1 = BreakerOpen.
Proof.
  refine (eq_trans (breaker_open_until_cooldown wit_open
    [CallOutcome "svc" false 20; CallEvaluate None "svc" 30] "svc" 10 None 40 _ _ _ _) _).
  - vm_compute; split; [reflexivity|discriminate].
  - vm_compute; reflexivity.
  - vm_compute; reflexivity.
  - assert (He : 10 + Cooldown (bs_cfg wit_open) = 30000000010) by (vm_compute; reflexivity).
    rewrite He. repeat constructor; lia.
  - vm_compute; reflexivity.
Defined.

Lemma breaker_half_open_witness :
  (snd (BreakerSet_Evaluate None (run_list breaker_call wit_half
     (map (fun p => CallEvaluate p.1 "svc" p.2) [(None, 1); (None, 2)])) "svc" 3)).1.1
  = BreakerHalfOpen.
Proof.
  exact (proj1 (breaker_half_open_admits_every_probe wit_half "svc"
                  [(None, 1); (None, 2)] None 3 ltac:(vm_compute; reflexivity))).
Defined.

Lemma breaker_reopens_witness :
  (snd (BreakerSet_Evaluate (Some wit_reader)
     (BreakerSet_RecordOutcome wit_half "svc" false 50) "svc" 60)).1.1 = BreakerOpen.
Proof.
  exact (proj2 (breaker_reopens_after_successful_probe wit_half "svc" wit_reader
           (MkFailureWindow 0 false) 50 60 ltac:(vm_compute; reflexivity)
           ltac:(vm_compute; discriminate) eq_refl eq_refl eq_refl)).
Defined.
