(* ===== verification/Semaphore.v ===== *)
(** * Bounded concurrency (internal/protection/semaphore.go)

    A semaphore per capability: a buffered Go channel of empty structs, of
    which only the capacity and the number of buffered values matter. A send or
    receive under [select] with a [default] branch never blocks. *)

From S2P Require Import Prelude.

(** ** Data *)

(** [chan struct{}] *)
Record Chan : Type := MkChan { chan_cap : Z; chan_len : Z }.

Record SemaphoreSet : Type := MkSemaphoreSet {
  sems : gmap string Chan;
  caps : gmap string Z;
  defaultCap : Z }.

(** ** Operations *)

Definition NewSemaphoreSet (defaultCap : Z) : SemaphoreSet :=
  MkSemaphoreSet ∅ ∅ (if defaultCap <=? 0 then 8 else defaultCap).

Definition SemaphoreSet_SetCap (ss : SemaphoreSet) (capID : string) (cap : Z) : SemaphoreSet :=
  let cap := if cap <=? 0 then defaultCap ss else cap in
  MkSemaphoreSet (sems ss) (<[capID := cap]> (caps ss)) (defaultCap ss).

Definition SemaphoreSet_Cap (ss : SemaphoreSet) (capID : string) : Z :=
  match caps ss !! capID with
  | Some c => c
  | None => defaultCap ss
  end.

(** [select { case ch <- struct{}{}: return true; default: return false }] *)
Definition chan_try_send (ch : Chan) : Chan * bool :=
  if chan_len ch <? chan_cap ch then (MkChan (chan_cap ch) (chan_len ch + 1), true)
  else (ch, false).

(** [select { case <-ch: default: }] *)
Definition chan_try_recv (ch : Chan) : Chan :=
  if 0 <? chan_len ch then MkChan (chan_cap ch) (chan_len ch - 1) else ch.

Definition SemaphoreSet_Acquire (ss : SemaphoreSet) (capID : string) : SemaphoreSet * bool :=
  let ch :=
    match sems ss !! capID with
    | Some ch => ch
    | None => MkChan (SemaphoreSet_Cap ss capID) 0
    end in
  let '(ch', ok) := chan_try_send ch in
  (MkSemaphoreSet (<[capID := ch']> (sems ss)) (caps ss) (defaultCap ss), ok).

Definition SemaphoreSet_Release (ss : SemaphoreSet) (capID : string) : SemaphoreSet :=
  match sems ss !! capID with
  | Some ch =>
      MkSemaphoreSet (<[capID := chan_try_recv ch]> (sems ss)) (caps ss) (defaultCap ss)
  | None => ss
  end.

(** ** What the set shows *)

(** Slots taken for a capability. *)
Definition occupancy (ss : SemaphoreSet) (capID : string) : Z :=
  match sems ss !! capID with Some ch => chan_len ch | None => 0 end.

(** The bound that is enforced: the channel's capacity once it exists. *)
Definition enforced_cap (ss : SemaphoreSet) (capID : string) : Z :=
  match sems ss !! capID with
  | Some ch => chan_cap ch
  | None => SemaphoreSet_Cap ss capID
  end.

(** Well-formedness: every cap is positive, every channel within its capacity. *)
Definition sem_wf (ss : SemaphoreSet) : Prop :=
  0 < defaultCap ss /\
  (forall k c, caps ss !! k = Some c -> 0 < c) /\
  (forall k ch, sems ss !! k = Some ch -> 0 < chan_cap ch /\ 0 <= chan_len ch <= chan_cap ch).

Inductive SemCall : Type :=
| CallSetCap (capID : string) (cap : Z)
| CallAcquire (capID : string)
| CallRelease (capID : string).

Definition sem_call (ss : SemaphoreSet) (c : SemCall) : SemaphoreSet :=
  match c with
  | CallSetCap k cap => SemaphoreSet_SetCap ss k cap
  | CallAcquire k => fst (SemaphoreSet_Acquire ss k)
  | CallRelease k => SemaphoreSet_Release ss k
  end.

(** ** Lemmas *)

Lemma SemaphoreSet_Cap_pos ss k : sem_wf ss -> 0 < SemaphoreSet_Cap ss k.
Proof.
  intros (Hd & Hc & _). unfold SemaphoreSet_Cap.
  destruct (caps ss !! k) eqn:E; [by eapply Hc|done].
Qed.

Lemma enforced_cap_pos ss k : sem_wf ss -> 0 < enforced_cap ss k.
Proof.
  intros H. unfold enforced_cap. destruct (sems ss !! k) eqn:E.
  - destruct H as (_ & _ & H). by eapply H.
  - by apply SemaphoreSet_Cap_pos.
Qed.

Lemma occupancy_bounds ss k : sem_wf ss -> 0 <= occupancy ss k <= enforced_cap ss k.
Proof.
  intros H. pose proof (enforced_cap_pos ss k H). revert H0.
  unfold occupancy, enforced_cap. destruct (sems ss !! k) eqn:E; [|lia].
  destruct H as (_ & _ & H). intros _. by eapply H.
Qed.

Lemma NewSemaphoreSet_wf d : sem_wf (NewSemaphoreSet d).
Proof.
  unfold sem_wf. simpl. repeat split; try (intros; simplify_map_eq).
  destruct (Z.leb_spec d 0); lia.
Qed.

(** The effect of [Acquire] in terms of occupancy and bound. *)
Lemma Acquire_spec ss k :
  let '(ss', ok) := SemaphoreSet_Acquire ss k in
  ok = (occupancy ss k <? enforced_cap ss k) /\
  (forall k', occupancy ss' k' = occupancy ss k' + (if decide (k = k') then Z.b2z ok else 0)) /\
  (forall k', enforced_cap ss' k' = enforced_cap ss k') /\
  (forall k', SemaphoreSet_Cap ss' k' = SemaphoreSet_Cap ss k').
Proof.
  unfold SemaphoreSet_Acquire, occupancy, enforced_cap.
  set (ch := match sems ss !! k with Some ch => ch | None => _ end).
  assert (Hc : chan_cap ch = match sems ss !! k with
           | Some ch => chan_cap ch | None => SemaphoreSet_Cap ss k end).
  { unfold ch. by destruct (sems ss !! k). }
  assert (Hl : chan_len ch = match sems ss !! k with
           | Some ch => chan_len ch | None => 0 end).
  { unfold ch. by destruct (sems ss !! k). }
  rewrite <- Hc, <- Hl. unfold chan_try_send.
  destruct (chan_len ch <? chan_cap ch) eqn:E; simpl;
    (split; [done|]; split; [|split]); intros k'; try done;
    rewrite lookup_insert; unfold SemaphoreSet_Cap in *; simpl;
    case_decide; subst; simpl; rewrite <- ?Hc, <- ?Hl; lia || done.
Qed.

Lemma Acquire_creates ss k :
  exists ch, sems (fst (SemaphoreSet_Acquire ss k)) !! k = Some ch.
Proof.
  unfold SemaphoreSet_Acquire. destruct (chan_try_send _) as [ch ok]. simpl.
  exists ch. apply lookup_insert_eq.
Qed.

Lemma Release_spec ss k :
  sem_wf ss ->
  (forall k', occupancy (SemaphoreSet_Release ss k) k' =
     if decide (k = k') then Z.max 0 (occupancy ss k' - 1) else occupancy ss k') /\
  (forall k', enforced_cap (SemaphoreSet_Release ss k) k' = enforced_cap ss k') /\
  (forall k', SemaphoreSet_Cap (SemaphoreSet_Release ss k) k' = SemaphoreSet_Cap ss k').
Proof.
  intros Hwf. pose proof (occupancy_bounds ss k Hwf) as Hb. revert Hb.
  unfold SemaphoreSet_Release, occupancy, enforced_cap.
  destruct (sems ss !! k) as [ch|] eqn:E; intros Hb; repeat split; intros k'; simpl; try done.
  - rewrite lookup_insert. case_decide; [subst|done]. rewrite E. unfold chan_try_recv.
    destruct (Z.ltb_spec 0 (chan_len ch)); simpl; lia.
  - rewrite lookup_insert. case_decide; [subst|done]. rewrite E. unfold chan_try_recv.
    by destruct (0 <? chan_len ch).
  - case_decide; [subst|done]. by rewrite E.
Qed.

Lemma sem_call_wf ss c : sem_wf ss -> sem_wf (sem_call ss c).
Proof.
  intros Hwf. pose proof Hwf as (Hd & Hc & Hs).
  destruct c as [k cap|k|k]; simpl; unfold sem_wf.
  - unfold SemaphoreSet_SetCap. simpl. split; [done|]. split; [|done].
    intros k' c'. rewrite lookup_insert. case_decide; [|apply Hc].
    intros [= <-]. destruct (Z.leb_spec cap 0); lia.
  - pose proof (SemaphoreSet_Cap_pos ss k Hwf) as Hp. unfold SemaphoreSet_Acquire.
    assert (Hch : exists ch, match sems ss !! k with Some ch => ch
      | None => MkChan (SemaphoreSet_Cap ss k) 0 end = ch /\
      0 < chan_cap ch /\ 0 <= chan_len ch <= chan_cap ch).
    { eexists; split; [done|]. destruct (sems ss !! k) eqn:E; [by eapply Hs|simpl; lia]. }
    destruct Hch as (ch & -> & Hch). unfold chan_try_send.
    destruct (Z.ltb_spec (chan_len ch) (chan_cap ch)); simpl; (split; [done|]; split; [done|]);
      intros k' ch'; rewrite lookup_insert; case_decide; try apply Hs; intros [= <-]; simpl; lia.
  - unfold SemaphoreSet_Release. destruct (sems ss !! k) as [ch|] eqn:E; simpl; [|done].
    split; [done|]. split; [done|]. intros k' ch'. rewrite lookup_insert.
    case_decide; [|apply Hs]. intros [= <-]. apply Hs in E. unfold chan_try_recv.
    destruct (Z.ltb_spec 0 (chan_len ch)); simpl; lia.
Qed.

#[export] Hint Resolve NewSemaphoreSet_wf sem_call_wf : opscore.

(** ** Properties *)

(** The concurrency bound: from a fresh set, through any calls whatever,
    the slots taken for a capability never exceed the bound enforced for it,
    and [Acquire] answers true exactly when a slot is free. *)
Theorem semaphore_bound d cs k :
  let ss := run_list sem_call (NewSemaphoreSet d) cs in
  0 <= occupancy ss k <= enforced_cap ss k /\ 0 < enforced_cap ss k /\
  snd (SemaphoreSet_Acquire ss k) = (occupancy ss k <? enforced_cap ss k).
Proof.
  simpl. assert (Hwf : sem_wf (run_list sem_call (NewSemaphoreSet d) cs)).
  { apply run_list_invariant; eauto with opscore. }
  split; [by apply occupancy_bounds|]. split; [by apply enforced_cap_pos|].
  pose proof (Acquire_spec (run_list sem_call (NewSemaphoreSet d) cs) k) as H.
  by destruct (SemaphoreSet_Acquire _ _) as [ss' ok], H as [H _].
Qed.

(** The bound is frozen at the first [Acquire]: a later [SetCap] changes
    what [Cap] reports and leaves the bound that is enforced as it was. *)
Theorem semaphore_setcap_after_acquire ss k cap cs :
  sem_wf ss -> 0 < cap ->
  let ss1 := fst (SemaphoreSet_Acquire ss k) in
  let ss2 := run_list sem_call (SemaphoreSet_SetCap ss1 k cap)
               (map (fun b : bool => if b then CallAcquire k else CallRelease k) cs) in
  SemaphoreSet_Cap ss2 k = cap /\ enforced_cap ss2 k = enforced_cap ss k.
Proof.
  intros Hwf Hcap. simpl.
  set (ss1 := SemaphoreSet_SetCap _ _ _).
  assert (H1 : SemaphoreSet_Cap ss1 k = cap /\ enforced_cap ss1 k = enforced_cap ss k /\ sem_wf ss1).
  { pose proof (Acquire_spec ss k) as Ha. unfold ss1.
    pose proof (sem_call_wf _ (CallAcquire k) Hwf) as Hwf1. simpl in Hwf1.
    pose proof (sem_call_wf _ (CallSetCap k cap) Hwf1) as Hwf2. simpl in Hwf2.
    pose proof (Acquire_creates ss k) as [ch Hch].
    destruct (SemaphoreSet_Acquire ss k) as [ss' ok], Ha as (_ & _ & He & _). simpl in *.
    specialize (He k). revert He Hwf2.
    unfold SemaphoreSet_Cap, enforced_cap, SemaphoreSet_SetCap. simpl.
    rewrite Hch, lookup_insert_eq. destruct (Z.leb_spec cap 0); [lia|done]. }
  clearbody ss1. revert ss1 H1. induction cs as [|b cs IH]; intros ss1 (H1 & H2 & H3).
  { done. }
  simpl. apply IH. destruct b.
  - pose proof (sem_call_wf _ (CallAcquire k) H3) as Hw. simpl in *.
    pose proof (Acquire_spec ss1 k) as Ha. destruct (SemaphoreSet_Acquire ss1 k) as [ss' ok].
    destruct Ha as (_ & _ & He & Hc). simpl in *. by rewrite Hc, He.
  - pose proof (sem_call_wf _ (CallRelease k) H3) as Hw. simpl in *.
    pose proof (Release_spec ss1 k H3) as (_ & He & Hc). by rewrite Hc, He.
Qed.

Lemma semaphore_setcap_after_acquire_witness :
  let ss1 := fst (SemaphoreSet_Acquire (NewSemaphoreSet 8) "svc") in
  let ss2 := run_list sem_call (SemaphoreSet_SetCap ss1 "svc" 2)
               (map (fun b : bool => if b then CallAcquire "svc" else CallRelease "svc") [true; false]) in
  SemaphoreSet_Cap ss2 "svc" = 2 /\ enforced_cap ss2 "svc" = enforced_cap (NewSemaphoreSet 8) "svc".
Proof.
  exact (semaphore_setcap_after_acquire (NewSemaphoreSet 8) "svc" 2 [true; false]
           (NewSemaphoreSet_wf 8) ltac:(lia)).
Defined.
