(* ===== verification/TokenBucket.v ===== *)
(** * Rate limiting (internal/protection/tokenbucket.go)

    A token bucket per (capability, hashed principal). Tokens are float64, as
    in the code. The clock reading of [Take] is an argument. *)

From S2P Require Import Prelude GoStrings GoFloat.
From Stdlib Require Import Ascii.

(** ** Data *)

Record TokenBucketConfig : Type := MkTokenBucketConfig {
  tbc_Capacity : float64;
  tbc_Refill : float64 }.

Record tokenBucket : Type := MkTokenBucket {
  tokens : float64;
  capacity : float64;
  refill : float64;
  last : Time }.

Record TokenBucketSet : Type := MkTokenBucketSet {
  buckets : gmap string tokenBucket;
  tbs_cfg : TokenBucketConfig }.

(** ** Operations *)

Definition NewTokenBucketSet (cfg : TokenBucketConfig) : TokenBucketSet :=
  let cap := if f64_leb (tbc_Capacity cfg) f64_zero then f64_of_Z 60 else tbc_Capacity cfg in
  let rate := if f64_leb (tbc_Refill cfg) f64_zero then f64_div cap (f64_of_Z 60)
              else tbc_Refill cfg in
  MkTokenBucketSet ∅ (MkTokenBucketConfig cap rate).

Definition TokenBucketSet_Capacity (tbs : TokenBucketSet) : float64 := tbc_Capacity (tbs_cfg tbs).
Definition TokenBucketSet_Refill (tbs : TokenBucketSet) : float64 := tbc_Refill (tbs_cfg tbs).

(** The refill half of [take]: nothing when no time has elapsed. *)
Definition bucket_refill (t : tokenBucket) (now : Time) : tokenBucket :=
  let elapsed := Duration_Seconds (time_Sub now (last t)) in
  if f64_gtb elapsed f64_zero then
    MkTokenBucket (f64_min (capacity t) (f64_add (tokens t) (f64_mul elapsed (refill t))))
      (capacity t) (refill t) now
  else t.

(** [take]: refill, then consume one token if there is one. *)
Definition tokenBucket_take (t : tokenBucket) (now : Time) : tokenBucket * bool :=
  let t := bucket_refill t now in
  if f64_leb f64_one (tokens t) then
    (MkTokenBucket (f64_sub (tokens t) f64_one) (capacity t) (refill t) (last t), true)
  else (t, false).

Definition bucket_key (capID hash : string) : string := capID +:+ ":" +:+ hash.

(** The bucket a key has, a full one before its first use. *)
Definition bucket_at (tbs : TokenBucketSet) (key : string) (now : Time) : tokenBucket :=
  match buckets tbs !! key with
  | Some b => b
  | None => MkTokenBucket (tbc_Capacity (tbs_cfg tbs)) (tbc_Capacity (tbs_cfg tbs))
              (tbc_Refill (tbs_cfg tbs)) now
  end.

Definition TokenBucketSet_Take (tbs : TokenBucketSet) (capID hash : string) (now : Time)
  : TokenBucketSet * bool :=
  let key := bucket_key capID hash in
  let '(b', ok) := tokenBucket_take (bucket_at tbs key now) now in
  (MkTokenBucketSet (<[key := b']> (buckets tbs)) (tbs_cfg tbs), ok).

(** ** The principal hash *)

(** SHA-256 ([crypto/sha256]) is a parameter. *)
Definition principalHash (sha256 : string -> string) (principal salt : string) : string :=
  hex_EncodeToString (sha256 (salt +:+ principal)).

(** ** [take] without its lock

    [Take] releases the set's mutex before it calls [b.take], so two requests
    with one key run [take] on one shared bucket. Its memory accesses at an
    instant with nothing to refill: load the tokens and test them, load them
    again, store them less one. *)

Inductive take_pc : Type :=
| PcTest
| PcLoad
| PcStore (loaded : float64)
| PcDone (ok : bool).

Record take_race : Type := MkTakeRace {
  shared_tokens : float64;
  pc_a : take_pc;
  pc_b : take_pc }.

Definition take_step (tk : float64) (pc : take_pc) : option (float64 * take_pc) :=
  match pc with
  | PcTest => Some (tk, if f64_leb f64_one tk then PcLoad else PcDone false)
  | PcLoad => Some (tk, PcStore tk)
  | PcStore v => Some (f64_sub v f64_one, PcDone true)
  | PcDone _ => None
  end.

Inductive take_race_step : take_race -> take_race -> Prop :=
| race_a s tk pc : take_step (shared_tokens s) (pc_a s) = Some (tk, pc) ->
    take_race_step s (MkTakeRace tk pc (pc_b s))
| race_b s tk pc : take_step (shared_tokens s) (pc_b s) = Some (tk, pc) ->
    take_race_step s (MkTakeRace tk (pc_a s) pc).

(** ** Lemmas *)

Lemma Duration_Seconds_zero : f64_gtb (Duration_Seconds 0) f64_zero = false.
Proof. vm_compute. done. Qed.

Lemma bucket_refill_same t : bucket_refill t (last t) = t.
Proof.
  unfold bucket_refill. rewrite time_Sub_exact, Z.sub_diag, Duration_Seconds_zero; [done|].
  unfold in_int64, min_int64, max_int64. lia.
Qed.

Lemma tokenBucket_take_frame t now :
  capacity (fst (tokenBucket_take t now)) = capacity t /\
  refill (fst (tokenBucket_take t now)) = refill t.
Proof.
  unfold tokenBucket_take, bucket_refill. by destruct (f64_gtb _ _); destruct (f64_leb _ _).
Qed.

(** Equal concatenations whose tails have one length have equal parts. *)
Lemma string_app_inj_tail a b c d :
  String.length b = String.length d -> a +:+ b = c +:+ d -> a = c /\ b = d.
Proof.
  revert c. induction a as [|x a IH]; intros [|y c] Hl H; try done.
  - change (b = String y (c +:+ d)) in H. rewrite H in Hl. cbn in Hl.
    pose proof (string_length_app c d) as Ha. unfold String.append in *. lia.
  - change (String x (a +:+ b) = d) in H. rewrite <- H in Hl. cbn in Hl.
    pose proof (string_length_app a b) as Ha. unfold String.append in *. lia.
  - change (String x (a +:+ b) = String y (c +:+ d)) in H.
    injection H as -> H. apply IH in H as [-> ->]; done.
Qed.

#[local] Instance float64_eq_dec : EqDecision float64.
Proof. unfold float64. solve_decision. Defined.

(** Integral amounts up to [burst_max] are exact: taking one leaves one less. *)
Definition burst_max : nat := 4096.

Definition burst_step_ok (i : nat) : bool :=
  let z := Z.of_nat i in
  bool_decide (f64_sub (f64_of_Z (Z.succ z)) f64_one = f64_of_Z z) &&
  f64_leb f64_one (f64_of_Z (Z.succ z)).

Lemma burst_steps_ok : forallb burst_step_ok (seq 0 burst_max) = true.
Proof. vm_compute. reflexivity. Qed.

Lemma burst_take_exact (n : nat) :
  (n < burst_max)%nat ->
  f64_sub (f64_of_Z (Z.of_nat (S n))) f64_one = f64_of_Z (Z.of_nat n) /\
  f64_leb f64_one (f64_of_Z (Z.of_nat (S n))) = true.
Proof.
  intros Hn. assert (H : burst_step_ok n = true).
  { apply (proj1 (forallb_forall _ _) burst_steps_ok). apply in_seq. split; [apply Nat.le_0_l|done]. }
  apply andb_true_iff in H as [H1 H2]. apply bool_decide_eq_true in H1.
  rewrite Nat2Z.inj_succ. done.
Qed.

(** A bucket holding [n] tokens, last refilled at [now]. *)
Definition full_bucket (cap rate : float64) (n : nat) (now : Time) : tokenBucket :=
  MkTokenBucket (f64_of_Z (Z.of_nat n)) cap rate now.

Lemma bucket_refill_full cap rate n now :
  bucket_refill (full_bucket cap rate n now) now = full_bucket cap rate n now.
Proof. exact (bucket_refill_same (full_bucket cap rate n now)). Qed.

Lemma take_full_succ cap rate n now :
  (n < burst_max)%nat ->
  tokenBucket_take (full_bucket cap rate (S n) now) now = (full_bucket cap rate n now, true).
Proof.
  intros Hn. destruct (burst_take_exact n Hn) as [H1 H2].
  unfold tokenBucket_take. rewrite bucket_refill_full. cbv zeta.
  change (tokens (full_bucket cap rate (S n) now)) with (f64_of_Z (Z.of_nat (S n))).
  by rewrite H2, H1.
Qed.

Lemma take_full_zero cap rate now :
  tokenBucket_take (full_bucket cap rate 0 now) now = (full_bucket cap rate 0 now, false).
Proof. unfold tokenBucket_take. by rewrite bucket_refill_full. Qed.

(** [k] calls with one key at one instant, and what they answered. *)
Fixpoint takes_at (tbs : TokenBucketSet) (capID hash : string) (now : Time) (k : nat)
  : TokenBucketSet * list bool :=
  match k with
  | O => (tbs, [])
  | S k' =>
      let '(tbs1, ok) := TokenBucketSet_Take tbs capID hash now in
      let '(tbs2, oks) := takes_at tbs1 capID hash now k' in
      (tbs2, ok :: oks)
  end.

Lemma takes_at_full tbs capID hash now cap rate n k :
  (n <= burst_max)%nat ->
  bucket_at tbs (bucket_key capID hash) now = full_bucket cap rate n now ->
  snd (takes_at tbs capID hash now k) =
    replicate (n `min` k) true ++ replicate (k - n) false.
Proof.
  revert tbs n. induction k as [|k IH]; intros tbs n Hn Hb.
  { by rewrite Nat.min_0_r. }
  simpl. unfold TokenBucketSet_Take. rewrite Hb. destruct n as [|n].
  - rewrite take_full_zero.
    destruct (takes_at _ capID hash now k) as [tbs2 oks] eqn:E.
    match type of E with takes_at ?t _ _ _ _ = _ => pose proof (IH t 0%nat ltac:(lia)) as H end.
    rewrite E in H. simpl in *. rewrite H, Nat.sub_0_r; [done|].
    unfold bucket_at. simpl. by rewrite lookup_insert_eq.
  - rewrite take_full_succ by lia.
    destruct (takes_at _ capID hash now k) as [tbs2 oks] eqn:E.
    match type of E with takes_at ?t _ _ _ _ = _ => pose proof (IH t n ltac:(lia)) as H end.
    rewrite E in H. simpl in *. rewrite H; [done|].
    unfold bucket_at. simpl. by rewrite lookup_insert_eq.
Qed.

(** ** Properties *)

(** The burst bound: with an integral capacity of up to 4096 tokens, of any
    number [k] of requests of one principal at one instant exactly the first
    [capacity] are admitted and every later one is refused. *)
Theorem token_bucket_burst c rate capID hash now k :
  (0 < c <= burst_max)%nat -> f64_leb rate f64_zero = false ->
  snd (takes_at (NewTokenBucketSet (MkTokenBucketConfig (f64_of_Z (Z.of_nat c)) rate))
         capID hash now k) =
    replicate (c `min` k) true ++ replicate (k - c) false.
Proof.
  intros [Hc1 Hc2] Hr.
  apply takes_at_full with (cap := f64_of_Z (Z.of_nat c)) (rate := rate); [done|].
  unfold bucket_at, NewTokenBucketSet. simpl. rewrite lookup_empty, Hr.
  destruct c as [|c]; [lia|].
  destruct (burst_take_exact c ltac:(lia)) as [_ H].
  assert (Hp : f64_leb (f64_of_Z (Z.of_nat (S c))) f64_zero = false); [|by rewrite Hp].
  revert H. unfold f64_leb, SFleb.
  generalize (f64_of_Z (Z.of_nat (S c))) as x. intros x.
  change f64_one with (S754_finite false 4503599627370496 (-52)).
  change f64_zero with (S754_zero false).
  destruct x as [[]|[]| |[] m e]; simpl; done.
Qed.

(** Refills never overfill and refusals never consume: after time has
    passed the tokens a request finds are at most the capacity, and a refused
    request leaves the bucket as the refill left it. *)
Theorem token_bucket_refill_capped t now :
  f64_is_nan (capacity t) = false ->
  f64_is_nan (f64_add (tokens t) (f64_mul (Duration_Seconds (time_Sub now (last t))) (refill t))) = false ->
  f64_gtb (Duration_Seconds (time_Sub now (last t))) f64_zero = true ->
  f64_leb (tokens (bucket_refill t now)) (capacity t) = true /\
  (snd (tokenBucket_take t now) = false ->
     fst (tokenBucket_take t now) = bucket_refill t now) /\
  (snd (tokenBucket_take t now) = true <-> f64_leb f64_one (tokens (bucket_refill t now)) = true).
Proof.
  intros Hc Hn He. split; [|split].
  - unfold bucket_refill. rewrite He. by apply f64_min_le_l.
  - unfold tokenBucket_take. by destruct (f64_leb _ _).
  - unfold tokenBucket_take. by destruct (f64_leb _ _).
Qed.

(** Buckets are per principal: as SHA-256 gives 32 bytes, two requests use
    one bucket only if their capability and their principal hash agree, and a
    [Take] leaves every other bucket untouched. *)
Theorem token_bucket_isolation (sha256 : string -> string) tbs capID p salt capID' p' now :
  (forall s, String.length (sha256 s) = 32%nat) ->
  let h := principalHash sha256 p salt in
  let h' := principalHash sha256 p' salt in
  (capID, h) <> (capID', h') ->
  buckets (fst (TokenBucketSet_Take tbs capID h now)) !! bucket_key capID' h'
  = buckets tbs !! bucket_key capID' h'.
Proof.
  intros Hs h h' Hne. unfold TokenBucketSet_Take.
  destruct (tokenBucket_take _ now) as [b ok]. simpl. apply lookup_insert_ne.
  unfold bucket_key. intros Heq. apply Hne.
  assert (Hl : String.length (":" +:+ h) = String.length (":" +:+ h')).
  { unfold h, h', principalHash. by rewrite !string_length_app, !hex_length, !Hs. }
  apply string_app_inj_tail in Heq as [-> Heq]; [|done].
  change (String ":" h = String ":" h') in Heq. by injection Heq as ->.
Qed.

(** [Take] is not atomic: [take] runs after the mutex is released, and two
    concurrent requests on a bucket that holds a single token can both be
    admitted. *)
Theorem token_bucket_take_race :
  exists s, rtc take_race_step (MkTakeRace f64_one PcTest PcTest) s /\
    pc_a s = PcDone true /\ pc_b s = PcDone true.
Proof.
  exists (MkTakeRace f64_zero (PcDone true) (PcDone true)). split; [|done].
  eapply rtc_l; [by apply race_a|]. eapply rtc_l; [by apply race_b|]. simpl.
  eapply rtc_l; [by apply race_a|]. eapply rtc_l; [by apply race_b|]. simpl.
  eapply rtc_l; [by apply race_a|]. eapply rtc_l; [by apply race_b|]. simpl.
  apply rtc_refl.
Qed.

(** ** Witnesses *)

Lemma token_bucket_burst_witness :
  snd (takes_at (NewTokenBucketSet (MkTokenBucketConfig (f64_of_Z (Z.of_nat 3)) f64_one))
         "svc" "h" 5 5) = [true; true; true; false; false].
Proof.
  refine (token_bucket_burst 3 f64_one "svc" "h" 5 5 _ _); [|vm_compute; reflexivity].
  unfold burst_max; lia.
Defined.

Definition wit_bucket : tokenBucket :=
  MkTokenBucket (f64_of_Z 2) (f64_of_Z 3) f64_one 0.

Lemma token_bucket_refill_capped_witness :
  f64_leb (tokens (bucket_refill wit_bucket (5 * Second))) (f64_of_Z 3) = true.
Proof.
  exact (proj1 (token_bucket_refill_capped wit_bucket (5 * Second)
    ltac:(vm_compute; reflexivity) ltac:(vm_compute; reflexivity) ltac:(vm_compute; reflexivity))).
Defined.

(** A constant 32-byte digest stands for SHA-256. *)
Definition wit_digest (_ : string) : string := "0123456789abcdef0123456789abcdef".

Lemma token_bucket_isolation_witness :
  buckets (fst (TokenBucketSet_Take (NewTokenBucketSet (MkTokenBucketConfig f64_one f64_one))
    "a" (principalHash wit_digest "p" "s") 0)) !! bucket_key "b" (principalHash wit_digest "p" "s")
  = buckets (NewTokenBucketSet (MkTokenBucketConfig f64_one f64_one))
      !! bucket_key "b" (principalHash wit_digest "p" "s").
Proof.
  apply (token_bucket_isolation wit_digest
    (NewTokenBucketSet (MkTokenBucketConfig f64_one f64_one)) "a" "p" "s" "b" "p" 0).
  - intros s. reflexivity.
  - intros H. discriminate H.
Defined.
