(* ===== verification/ProtectionTypes.v ===== *)
(** * Shared vocabulary of the protection layer (internal/protection/types.go)

    Actions, audit events and the audit stream, rejections, counters. *)

From S2P Require Import Prelude GoFloat.

(** ** The action vocabulary *)

Definition ActionKilled : string := "protection.killed".
Definition ActionAdmit : string := "protection.admit".
Definition ActionPrincipalKilled : string := "protection.principal_killed".
Definition ActionCircuitOpen : string := "protection.circuit_open".
Definition ActionBreakerUnknown : string := "protection.breaker_unknown".
Definition ActionConcurrencyExceeded : string := "protection.concurrency_exceeded".
Definition ActionRateLimited : string := "protection.rate_limited".
Definition ActionOperatorKill : string := "protection.kill".
Definition ActionOperatorRelease : string := "protection.release".
Definition ActionQuotaExceeded : string := "protection.quota_exceeded".
Definition ActionQuotaEvidenceUnavailable : string := "protection.quota_evidence_unavailable".
Definition ActionQuotaSet : string := "protection.quota_set".
Definition ActionQuotaClear : string := "protection.quota_clear".

(** ** Audit events

    [Detail] is text in the code: empty, the word "intent", or the JSON of a
    [map[string]any]. The map is kept here, its rendering is not modelled. *)

Inductive JsonValue : Type :=
| JString (s : string)
| JBool (b : bool)
| JInt (z : Z)
| JFloat (f : float64).

Inductive EventDetail : Type :=
| DetailEmpty
| DetailIntent
| DetailObject (fields : gmap string JsonValue).

Record ProtectionEvent : Type := MkProtectionEvent {
  Timestamp : Time;
  Action : string;
  CapID : string;
  Principal : string;
  Detail : EventDetail }.

(** ** The audit writer

    [WriteEvent] belongs to the control plane. What it answers to its [n]-th
    call is a parameter; the events it accepted are the durable audit trail. *)

Record AuditWriter : Type := MkAuditWriter {
  aw_answer : nat -> ProtectionEvent -> option error;
  aw_calls : nat;
  aw_trail : list ProtectionEvent }.

Definition WriteEvent (aw : AuditWriter) (ev : ProtectionEvent) : AuditWriter * option error :=
  match aw_answer aw (aw_calls aw) ev with
  | None => (MkAuditWriter (aw_answer aw) (S (aw_calls aw)) (aw_trail aw ++ [ev]), None)
  | Some e => (MkAuditWriter (aw_answer aw) (S (aw_calls aw)) (aw_trail aw), Some e)
  end.

(** [writeAudit] of the operator services: a nil writer accepts everything. *)
Definition writeAudit (aw : option AuditWriter) (ev : ProtectionEvent)
  : option AuditWriter * option error :=
  match aw with
  | None => (None, None)
  | Some w => let '(w', e) := WriteEvent w ev in (Some w', e)
  end.

Definition trail (aw : option AuditWriter) : list ProtectionEvent :=
  match aw with None => [] | Some w => aw_trail w end.

(** ** Rejections and counters *)

Record Reject : Type := MkReject {
  rej_Action : string;
  RetryAfter : Duration;
  HTTPStatus : Z }.

Record Metrics : Type := MkMetrics {
  Admitted_ : Z;
  Killed : Z;
  PrincipalKilled : Z;
  CircuitOpen : Z;
  BreakerUnknownCount : Z;
  ConcurrencyExceeded : Z;
  RateLimited : Z;
  AuditWriteFailed : Z;
  QuotaExceededCount : Z;
  QuotaEvidenceUnavailable : Z }.

Definition zero_metrics : Metrics := MkMetrics 0 0 0 0 0 0 0 0 0 0.

(** ** Lemmas *)

(** The trail only grows, by the event itself when the write succeeds. *)
Lemma writeAudit_spec aw ev :
  let '(aw', e) := writeAudit aw ev in
  match e with
  | None => trail aw' = trail aw ++ (if aw is Some _ then [ev] else [])
  | Some _ => trail aw' = trail aw
  end.
Proof.
  destruct aw as [w|]; simpl; [|done]. unfold WriteEvent.
  by destruct (aw_answer w (aw_calls w) ev).
Qed.

Lemma writeAudit_some aw ev : is_Some aw <-> is_Some (fst (writeAudit aw ev)).
Proof.
  destruct aw as [w|]; simpl; [|done]. unfold WriteEvent.
  destruct (aw_answer w (aw_calls w) ev); simpl; split; eauto.
Qed.
