(* ===== verification/KillStore.v ===== *)
(** * Kill switches (internal/protection/killstore.go, types.go)

    The store is the single owner of the kill state: it writes through to a
    persistence backend and projects the result in memory, and fails closed
    until it has loaded that backend. The backend is an interface, given here
    by a class of operations and a class of the laws the store relies on. *)

From S2P Require Import Prelude.

(** ** Data *)

Inductive KillStoreState : Type :=
| KillStateUninitialized
| KillStateReady
| KillStateFailed.

#[export] Instance KillStoreState_eq_dec : EqDecision KillStoreState.
Proof. solve_decision. Defined.

Definition KillStoreState_String (k : KillStoreState) : string :=
  match k with
  | KillStateReady => "ready"
  | KillStateFailed => "failed"
  | _ => "uninitialized"
  end.

Record KillEntry : Type := MkKillEntry {
  ke_CapabilityID : string;
  ke_Killed : bool;
  ke_KilledAt : Time;
  ke_KilledBy : string;
  ke_Principal : bool;
  ke_PrincipalHash : string }.

(** ** The persistence interface *)

Class KillPersistence (P : Type) := {
  LoadKills : P -> result error (gmap string bool);
  LoadPrincipalKills : P -> result error (gmap string bool);
  PersistKilled : P -> string -> bool -> P * option error;
  PersistPrincipalKilled : P -> string -> bool -> P * option error;
  ListKills : P -> result error (list KillEntry) }.

(** A write that succeeds is read back, and touches the other table not at
    all; a write that fails persists nothing. *)
Class KillPersistenceLaws (P : Type) `{KillPersistence P} := {
  persist_killed_ok p k b p' m :
    PersistKilled p k b = (p', None) -> LoadKills p = Ok m ->
    LoadKills p' = Ok (<[k := b]> m);
  persist_killed_frame p k b p' :
    PersistKilled p k b = (p', None) -> LoadPrincipalKills p' = LoadPrincipalKills p;
  persist_killed_err p k b p' e : PersistKilled p k b = (p', Some e) -> p' = p;
  persist_principal_ok p k b p' m :
    PersistPrincipalKilled p k b = (p', None) -> LoadPrincipalKills p = Ok m ->
    LoadPrincipalKills p' = Ok (<[k := b]> m);
  persist_principal_frame p k b p' :
    PersistPrincipalKilled p k b = (p', None) -> LoadKills p' = LoadKills p;
  persist_principal_err p k b p' e : PersistPrincipalKilled p k b = (p', Some e) -> p' = p }.

Record operatorKillMeta : Type := MkOperatorKillMeta {
  okm_Operator : string;
  okm_Reason : string;
  okm_At : Time }.

Record OperatorKillEntry : Type := MkOperatorKillEntry {
  oke_CapabilityID : string;
  oke_Operator : string;
  oke_Reason : string;
  oke_At : Time }.

Record KillStore (P : Type) : Type := MkKillStore {
  killed : gmap string bool;
  principalKilled : gmap string bool;
  ks_store : P;
  ks_state : KillStoreState;
  opMeta : gmap string operatorKillMeta }.
Arguments MkKillStore {P}.
Arguments killed {P}.
Arguments principalKilled {P}.
Arguments ks_store {P}.
Arguments ks_state {P}.
Arguments opMeta {P}.

Section KillStore.
Context {P : Type} `{KillPersistence P}.

(** ** Operations *)

Definition NewKillStore (store : P) : KillStore P :=
  MkKillStore ∅ ∅ store KillStateUninitialized ∅.

Definition KillStore_Bootstrap (ks : KillStore P) : KillStore P * option error :=
  let failed := MkKillStore (killed ks) (principalKilled ks) (ks_store ks) KillStateFailed (opMeta ks) in
  match LoadKills (ks_store ks) with
  | Err e => (failed, Some ("kill store load kills: " +:+ e))
  | Ok kills =>
      match LoadPrincipalKills (ks_store ks) with
      | Err e => (failed, Some ("kill store load principal kills: " +:+ e))
      | Ok principal => (MkKillStore kills principal (ks_store ks) KillStateReady (opMeta ks), None)
      end
  end.

Definition KillStore_IsKilled (ks : KillStore P) (capID : string) : bool :=
  if negb (bool_decide (ks_state ks = KillStateReady)) then true
  else default false (killed ks !! capID).

Definition KillStore_IsPrincipalKilled (ks : KillStore P) (hash : string) : bool :=
  if negb (bool_decide (ks_state ks = KillStateReady)) then true
  else default false (principalKilled ks !! hash).

Definition KillStore_SetKilled (ks : KillStore P) (capID : string) (b : bool)
  : KillStore P * option error :=
  match PersistKilled (ks_store ks) capID b with
  | (p', Some e) => (MkKillStore (killed ks) (principalKilled ks) p' (ks_state ks) (opMeta ks), Some e)
  | (p', None) =>
      (MkKillStore (<[capID := b]> (killed ks)) (principalKilled ks) p' (ks_state ks) (opMeta ks), None)
  end.

Definition KillStore_SetPrincipalKilled (ks : KillStore P) (hash : string) (b : bool)
  : KillStore P * option error :=
  match PersistPrincipalKilled (ks_store ks) hash b with
  | (p', Some e) => (MkKillStore (killed ks) (principalKilled ks) p' (ks_state ks) (opMeta ks), Some e)
  | (p', None) =>
      (MkKillStore (killed ks) (<[hash := b]> (principalKilled ks)) p' (ks_state ks) (opMeta ks), None)
  end.

Definition KillStore_List (ks : KillStore P) : result error (list KillEntry) :=
  ListKills (ks_store ks).

Definition KillStore_RecordOperatorKill (ks : KillStore P) (capID operator reason : string) (now : Time)
  : KillStore P * option error :=
  match KillStore_SetKilled ks capID true with
  | (ks', Some e) => (ks', Some e)
  | (ks', None) =>
      (MkKillStore (killed ks') (principalKilled ks') (ks_store ks') (ks_state ks')
         (<[capID := MkOperatorKillMeta operator reason now]> (opMeta ks')), None)
  end.

Definition KillStore_ClearOperatorKill (ks : KillStore P) (capID : string)
  : KillStore P * option error :=
  match KillStore_SetKilled ks capID false with
  | (ks', Some e) => (ks', Some e)
  | (ks', None) =>
      (MkKillStore (killed ks') (principalKilled ks') (ks_store ks') (ks_state ks')
         (delete capID (opMeta ks')), None)
  end.

Definition KillStore_ListOperatorKills (ks : KillStore P) : list OperatorKillEntry :=
  map (fun '(capID, m) => MkOperatorKillEntry capID (okm_Operator m) (okm_Reason m) (okm_At m))
    (map_to_list (opMeta ks)).

(** ** Sequences of calls *)

Inductive KillCall : Type :=
| KBootstrap
| KSetKilled (capID : string) (b : bool)
| KSetPrincipalKilled (hash : string) (b : bool)
| KOperatorKill (capID operator reason : string) (now : Time)
| KOperatorClear (capID : string).

Definition kill_call (ks : KillStore P) (c : KillCall) : KillStore P :=
  match c with
  | KBootstrap => fst (KillStore_Bootstrap ks)
  | KSetKilled k b => fst (KillStore_SetKilled ks k b)
  | KSetPrincipalKilled h b => fst (KillStore_SetPrincipalKilled ks h b)
  | KOperatorKill k op r now => fst (KillStore_RecordOperatorKill ks k op r now)
  | KOperatorClear k => fst (KillStore_ClearOperatorKill ks k)
  end.

(** The projection invariant: a Ready store mirrors its backend. *)
Definition projection_ok (ks : KillStore P) : Prop :=
  ks_state ks = KillStateReady ->
  LoadKills (ks_store ks) = Ok (killed ks) /\
  LoadPrincipalKills (ks_store ks) = Ok (principalKilled ks).

(** ** Lemmas *)

Lemma SetKilled_state ks k b : ks_state (fst (KillStore_SetKilled ks k b)) = ks_state ks.
Proof. unfold KillStore_SetKilled. by destruct (PersistKilled _ _ _) as [p' [e|]]. Qed.

Lemma kill_call_state ks c :
  c <> KBootstrap -> ks_state (kill_call ks c) = ks_state ks.
Proof.
  destruct c as [|k b|h b|k op r now|k]; intros Hc; simpl; [done|..].
  - apply SetKilled_state.
  - unfold KillStore_SetPrincipalKilled. by destruct (PersistPrincipalKilled _ _ _) as [p' [e|]].
  - unfold KillStore_RecordOperatorKill. rewrite <- (SetKilled_state ks k true).
    by destruct (KillStore_SetKilled ks k true) as [ks' [e|]].
  - unfold KillStore_ClearOperatorKill. rewrite <- (SetKilled_state ks k false).
    by destruct (KillStore_SetKilled ks k false) as [ks' [e|]].
Qed.

(** A failed [SetKilled] changes nothing at all. *)
Lemma SetKilled_err `{!KillPersistenceLaws P} ks k b e :
  snd (KillStore_SetKilled ks k b) = Some e -> fst (KillStore_SetKilled ks k b) = ks.
Proof.
  unfold KillStore_SetKilled. destruct (PersistKilled _ _ _) as [p' [e'|]] eqn:E; [|done].
  intros _. apply persist_killed_err in E as ->. by destruct ks.
Qed.

Lemma SetKilled_projection `{!KillPersistenceLaws P} ks k b :
  projection_ok ks -> projection_ok (fst (KillStore_SetKilled ks k b)).
Proof.
  unfold KillStore_SetKilled, projection_ok. intros Hp.
  destruct (PersistKilled _ _ _) as [p' [e|]] eqn:E; simpl; intros Hr.
  - apply persist_killed_err in E as ->. by apply Hp.
  - destruct (Hp Hr) as [H1 H2]. split.
    + by eapply persist_killed_ok.
    + rewrite <- H2. by eapply persist_killed_frame.
Qed.

Lemma kill_call_projection `{!KillPersistenceLaws P} ks c :
  projection_ok ks -> projection_ok (kill_call ks c).
Proof.
  intros Hp. destruct c as [|k b|h b|k op r now|k]; simpl.
  - unfold KillStore_Bootstrap, projection_ok.
    destruct (LoadKills (ks_store ks)) eqn:E1; simpl; [|done].
    by destruct (LoadPrincipalKills (ks_store ks)) eqn:E2.
  - by apply SetKilled_projection.
  - unfold KillStore_SetPrincipalKilled, projection_ok.
    destruct (PersistPrincipalKilled _ _ _) as [p' [e|]] eqn:E; simpl; intros Hr.
    + apply persist_principal_err in E as ->. by apply Hp.
    + destruct (Hp Hr) as [H1 H2]. split.
      * rewrite <- H1. by eapply persist_principal_frame.
      * by eapply persist_principal_ok.
  - pose proof (SetKilled_projection ks k true Hp) as Hp'. unfold KillStore_RecordOperatorKill.
    by destruct (KillStore_SetKilled ks k true) as [ks' [e|]].
  - pose proof (SetKilled_projection ks k false Hp) as Hp'. unfold KillStore_ClearOperatorKill.
    by destruct (KillStore_SetKilled ks k false) as [ks' [e|]].
Qed.

Lemma not_ready_killed ks k :
  ks_state ks <> KillStateReady ->
  KillStore_IsKilled ks k = true /\ KillStore_IsPrincipalKilled ks k = true.
Proof.
  intros Hs. unfold KillStore_IsKilled, KillStore_IsPrincipalKilled.
  by rewrite bool_decide_eq_false_2.
Qed.

(** ** Properties *)

(** Fail closed: from a fresh store, until a [Bootstrap] succeeds, every
    capability and every principal is killed, whatever else is written; and a
    [Bootstrap] that fails puts any store back in that condition. *)
Theorem killstore_fail_closed (p : P) (ks : KillStore P) cs cs' k :
  Forall (fun c => c <> KBootstrap) cs -> Forall (fun c => c <> KBootstrap) cs' ->
  (let s := run_list kill_call (NewKillStore p) cs in
   KillStore_IsKilled s k = true /\ KillStore_IsPrincipalKilled s k = true) /\
  (is_Some (snd (KillStore_Bootstrap ks)) ->
   let s := run_list kill_call (fst (KillStore_Bootstrap ks)) cs' in
   ks_state s = KillStateFailed /\
   KillStore_IsKilled s k = true /\ KillStore_IsPrincipalKilled s k = true).
Proof.
  assert (Hrun : forall l s, Forall (fun c => c <> KBootstrap) l ->
            ks_state (run_list kill_call s l) = ks_state s).
  { induction l as [|c l IH]; intros s Hl; [done|]. apply Forall_cons in Hl as [Hc Hl].
    simpl. rewrite IH by done. by apply kill_call_state. }
  intros Hcs Hcs'. split; simpl.
  - apply not_ready_killed. by rewrite Hrun.
  - intros [e He]. assert (Hf : ks_state (fst (KillStore_Bootstrap ks)) = KillStateFailed).
    { revert He. unfold KillStore_Bootstrap. destruct (LoadKills _); simpl; [|done].
      by destruct (LoadPrincipalKills _). }
    assert (Hf' : ks_state (run_list kill_call (fst (KillStore_Bootstrap ks)) cs') = KillStateFailed).
    { by rewrite Hrun. }
    split; [done|]. apply not_ready_killed. by rewrite Hf'.
Qed.

(** The memory maps are a projection of the persisted state: through any
    calls, failed writes and restarts included, a Ready store answers
    [IsKilled] and [IsPrincipalKilled] exactly as its backend has them, and a
    second store bootstrapped from that backend answers the same. *)
Theorem killstore_projection `{!KillPersistenceLaws P} (p : P) cs :
  let ks := run_list kill_call (NewKillStore p) cs in
  ks_state ks = KillStateReady ->
  LoadKills (ks_store ks) = Ok (killed ks) /\
  LoadPrincipalKills (ks_store ks) = Ok (principalKilled ks) /\
  let restarted := fst (KillStore_Bootstrap (NewKillStore (ks_store ks))) in
  (forall k, KillStore_IsKilled restarted k = KillStore_IsKilled ks k) /\
  (forall h, KillStore_IsPrincipalKilled restarted h = KillStore_IsPrincipalKilled ks h).
Proof.
  intros ks Hr. assert (Hp : projection_ok ks).
  { apply run_list_invariant; [intros; by apply kill_call_projection|done]. }
  destruct (Hp Hr) as [H1 H2]. split; [done|]. split; [done|]. simpl.
  unfold KillStore_Bootstrap. simpl. rewrite H1, H2. simpl.
  unfold KillStore_IsKilled, KillStore_IsPrincipalKilled. simpl. by rewrite Hr.
Qed.

End KillStore.

(** ** Witnesses *)

(** A backend whose writes can be refused. *)
Record FlakyKills : Type := MkFlakyKills {
  fk_writable : bool;
  fk_kills : gmap string bool;
  fk_principals : gmap string bool }.

#[export] Instance FlakyKills_persistence : KillPersistence FlakyKills := {
  LoadKills p := if fk_writable p then Ok (fk_kills p) else Err "unreadable";
  LoadPrincipalKills p := Ok (fk_principals p);
  PersistKilled p k b :=
    if fk_writable p then (MkFlakyKills true (<[k := b]> (fk_kills p)) (fk_principals p), None)
    else (p, Some "read-only");
  PersistPrincipalKilled p k b :=
    if fk_writable p then (MkFlakyKills true (fk_kills p) (<[k := b]> (fk_principals p)), None)
    else (p, Some "read-only");
  ListKills p := Ok [] }.

#[export] Instance FlakyKills_laws : KillPersistenceLaws FlakyKills.
Proof.
  constructor; simpl; intros; repeat case_match; by simplify_eq/=.
Qed.

Definition wit_kill_calls : list KillCall :=
  [KBootstrap; KSetKilled "svc" true; KOperatorKill "db" "root" "incident" 7;
   KSetPrincipalKilled "h" true; KOperatorClear "svc"].

Lemma killstore_fail_closed_witness :
  KillStore_IsKilled (run_list kill_call (NewKillStore (MkFlakyKills true ∅ ∅))
    [KSetKilled "svc" false]) "svc" = true.
Proof.
  exact (proj1 (proj1 (killstore_fail_closed (MkFlakyKills true ∅ ∅)
    (NewKillStore (MkFlakyKills false ∅ ∅)) [KSetKilled "svc" false] [] "svc"
    ltac:(repeat constructor; discriminate) ltac:(constructor)))).
Defined.

Lemma killstore_projection_witness :
  let ks := run_list kill_call (NewKillStore (MkFlakyKills true ∅ ∅)) wit_kill_calls in
  LoadKills (ks_store ks) = Ok (killed ks).
Proof.
  intros ks.
  assert (Hr : ks_state ks = KillStateReady) by (vm_compute; reflexivity).
  exact (proj1 (killstore_projection (MkFlakyKills true ∅ ∅) wit_kill_calls Hr)).
Defined.
