(* ===== verification/Quota.v ===== *)
(** * Quota definitions (internal/protection/quota.go)

    Operator-configured ceilings, owned by one store in front of a persistence
    backend, and the comparison of observed usage with a ceiling. *)

From S2P Require Import Prelude GoFloat.

(** ** Data *)

Record QuotaDefinition : Type := MkQuotaDefinition {
  qd_Capability : string;
  qd_Principal : string;
  qd_RSSBytes : Z;
  qd_CPUSecs : float64 }.

Record QuotaUsage : Type := MkQuotaUsage {
  qu_RSSBytes : Z;
  qu_CPUSecs : float64;
  qu_Complete : bool }.

(** What [CurrentUsage] answers when asked. *)
Definition QuotaEvidenceReader : Type := string -> string -> result error QuotaUsage.

Definition NUL : string := String Ascii.zero EmptyString.

Definition quotaKey (capability principal : string) : string :=
  capability +:+ NUL +:+ principal.

Definition def_key (d : QuotaDefinition) : string := quotaKey (qd_Capability d) (qd_Principal d).

(** The map [Bootstrap] builds from a list of definitions, last one winning. *)
Definition def_table (ds : list QuotaDefinition) : gmap string QuotaDefinition :=
  foldl (fun m d => <[def_key d := d]> m) ∅ ds.

(** ** The persistence interface *)

Class QuotaPersistence (Q : Type) := {
  LoadDefinitions : Q -> result error (list QuotaDefinition);
  SaveDefinition : Q -> QuotaDefinition -> Q * option error;
  PersistClearDefinition : Q -> string -> string -> Q * option error }.

Class QuotaPersistenceLaws (Q : Type) `{QuotaPersistence Q} := {
  save_definition_ok q d q' ds :
    SaveDefinition q d = (q', None) -> LoadDefinitions q = Ok ds ->
    exists ds', LoadDefinitions q' = Ok ds' /\ def_table ds' = <[def_key d := d]> (def_table ds);
  save_definition_err q d q' e : SaveDefinition q d = (q', Some e) -> q' = q;
  clear_definition_ok q c p q' ds :
    PersistClearDefinition q c p = (q', None) -> LoadDefinitions q = Ok ds ->
    exists ds', LoadDefinitions q' = Ok ds' /\ def_table ds' = delete (quotaKey c p) (def_table ds);
  clear_definition_err q c p q' e : PersistClearDefinition q c p = (q', Some e) -> q' = q }.

Record QuotaStore (Q : Type) : Type := MkQuotaStore {
  defs : gmap string QuotaDefinition;
  qs_persist : Q }.
Arguments MkQuotaStore {Q}.
Arguments defs {Q}.
Arguments qs_persist {Q}.

(** [QuotaExceeded]: a zero field of the definition means unlimited. *)
Definition QuotaExceeded (def : QuotaDefinition) (u : QuotaUsage) : bool :=
  if (0 <? qd_RSSBytes def) && (qd_RSSBytes def <? qu_RSSBytes u) then true
  else if f64_gtb (qd_CPUSecs def) f64_zero && f64_gtb (qu_CPUSecs u) (qd_CPUSecs def) then true
  else false.

Section QuotaStore.
Context {Q : Type} `{QuotaPersistence Q}.

(** ** Operations *)

Definition NewQuotaStore (p : Q) : QuotaStore Q := MkQuotaStore ∅ p.

Definition QuotaStore_Bootstrap (qs : QuotaStore Q) : QuotaStore Q * option error :=
  match LoadDefinitions (qs_persist qs) with
  | Err e => (qs, Some ("quota store load: " +:+ e))
  | Ok ds => (MkQuotaStore (def_table ds) (qs_persist qs), None)
  end.

Definition QuotaStore_GetDefinition (qs : QuotaStore Q) (capability principal : string)
  : option QuotaDefinition :=
  match defs qs !! quotaKey capability principal with
  | Some d => Some d
  | None => defs qs !! quotaKey capability ""
  end.

Definition QuotaStore_SetDefinition (qs : QuotaStore Q) (d : QuotaDefinition)
  : QuotaStore Q * option error :=
  match SaveDefinition (qs_persist qs) d with
  | (q', Some e) => (MkQuotaStore (defs qs) q', Some e)
  | (q', None) => (MkQuotaStore (<[def_key d := d]> (defs qs)) q', None)
  end.

Definition QuotaStore_ClearDefinition (qs : QuotaStore Q) (capability principal : string)
  : QuotaStore Q * option error :=
  match PersistClearDefinition (qs_persist qs) capability principal with
  | (q', Some e) => (MkQuotaStore (defs qs) q', Some e)
  | (q', None) => (MkQuotaStore (delete (quotaKey capability principal) (defs qs)) q', None)
  end.

(** In some order: Go iterates over a map in an unspecified order. *)
Definition QuotaStore_ListDefinitions (qs : QuotaStore Q) : list QuotaDefinition :=
  (map_to_list (defs qs)).*2.

(** ** Sequences of calls *)

Inductive QuotaCall : Type :=
| QBootstrap
| QSet (d : QuotaDefinition)
| QClear (capability principal : string).

Definition quota_call (qs : QuotaStore Q) (c : QuotaCall) : QuotaStore Q :=
  match c with
  | QBootstrap => fst (QuotaStore_Bootstrap qs)
  | QSet d => fst (QuotaStore_SetDefinition qs d)
  | QClear c p => fst (QuotaStore_ClearDefinition qs c p)
  end.

(** The store's map is the one its backend's definitions make. *)
Definition quota_synced (qs : QuotaStore Q) : Prop :=
  exists ds, LoadDefinitions (qs_persist qs) = Ok ds /\ defs qs = def_table ds.

(** ** Lemmas *)

Lemma quota_call_synced `{!QuotaPersistenceLaws Q} qs c :
  quota_synced qs -> quota_synced (quota_call qs c).
Proof.
  intros (ds & Hl & Ht). unfold quota_synced. destruct c as [|d|cp p]; simpl.
  - unfold QuotaStore_Bootstrap. rewrite Hl. simpl. eauto.
  - unfold QuotaStore_SetDefinition. destruct (SaveDefinition _ _) as [q' [e|]] eqn:E; simpl.
    + apply save_definition_err in E as ->. eauto.
    + destruct (save_definition_ok _ _ _ _ E Hl) as (ds' & Hl' & Ht'). exists ds'.
      by rewrite Ht, Ht'.
  - unfold QuotaStore_ClearDefinition. destruct (PersistClearDefinition _ _ _) as [q' [e|]] eqn:E; simpl.
    + apply clear_definition_err in E as ->. eauto.
    + destruct (clear_definition_ok _ _ _ _ _ E Hl) as (ds' & Hl' & Ht'). exists ds'.
      by rewrite Ht, Ht'.
Qed.

(** ** Properties *)

(** The definitions in force are the persisted ones: after a successful
    [Bootstrap] and any later calls, failed writes included, a lookup finds the
    principal's own persisted definition, else the capability-wide one, else
    nothing. *)
Theorem quota_definitions_persisted `{!QuotaPersistenceLaws Q} (q : Q) cs c p :
  snd (QuotaStore_Bootstrap (NewQuotaStore q)) = None ->
  let qs := run_list quota_call (fst (QuotaStore_Bootstrap (NewQuotaStore q))) cs in
  exists ds, LoadDefinitions (qs_persist qs) = Ok ds /\
    QuotaStore_GetDefinition qs c p =
      match def_table ds !! quotaKey c p with
      | Some d => Some d
      | None => def_table ds !! quotaKey c ""
      end.
Proof.
  intros Hb qs. assert (Hs : quota_synced qs).
  { apply run_list_invariant; [intros; by apply quota_call_synced|].
    revert Hb. unfold QuotaStore_Bootstrap, quota_synced. simpl.
    destruct (LoadDefinitions q) eqn:E; simpl; [|done]. eauto. }
  destruct Hs as (ds & Hl & Ht). exists ds. split; [done|].
  unfold QuotaStore_GetDefinition. by rewrite Ht.
Qed.

End QuotaStore.

(** Keys of NUL-free capabilities are injective. *)
Fixpoint nul_free (s : string) : bool :=
  match s with
  | EmptyString => true
  | String c s' => negb (Ascii.eqb c Ascii.zero) && nul_free s'
  end.

Lemma quotaKey_inj c p c' p' :
  nul_free c = true -> nul_free c' = true ->
  quotaKey c p = quotaKey c' p' -> c = c' /\ p = p'.
Proof.
  unfold quotaKey. revert c'. induction c as [|x c IH]; intros [|y c'] Hc Hc' Heq.
  - change (String Ascii.zero p = String Ascii.zero p') in Heq. by injection Heq as ->.
  - change (String Ascii.zero p = String y (c' +:+ NUL +:+ p')) in Heq.
    injection Heq as <- Heq. simpl in Hc'. done.
  - change (String x (c +:+ NUL +:+ p) = String Ascii.zero p') in Heq.
    injection Heq as -> Heq. simpl in Hc. done.
  - change (String x (c +:+ NUL +:+ p) = String y (c' +:+ NUL +:+ p')) in Heq.
    injection Heq as -> Heq. cbn in Hc, Hc'. go_bools.
    destruct (IH c') as [-> ->]; done.
Qed.
