(* ===== verification/MemoryStore.v ===== *)
(** * The in-memory backends (internal/storage/memory)

    The non-durable kill-state and quota-definition backends and the default
    consumption reader, with the proofs that they keep the interfaces' laws. *)

From S2P Require Import Prelude GoFloat KillStore Quota.

(** ** Kill state (protection.go) *)

Record protectionStore : Type := MkProtectionStore {
  ps_killed : gmap string bool;
  ps_principal : gmap string bool }.

Definition NewProtectionStore : protectionStore := MkProtectionStore ∅ ∅.

(** The loads copy the map: the caller never aliases the store's own. *)
Definition protectionStore_LoadKills (s : protectionStore) : result error (gmap string bool) :=
  Ok (ps_killed s).

Definition protectionStore_LoadPrincipalKills (s : protectionStore)
  : result error (gmap string bool) :=
  Ok (ps_principal s).

Definition protectionStore_SetKilled (s : protectionStore) (capID : string) (b : bool)
  : protectionStore * option error :=
  (MkProtectionStore (<[capID := b]> (ps_killed s)) (ps_principal s), None).

Definition protectionStore_SetPrincipalKilled (s : protectionStore) (hash : string) (b : bool)
  : protectionStore * option error :=
  (MkProtectionStore (ps_killed s) (<[hash := b]> (ps_principal s)), None).

Definition protectionStore_ListKills (s : protectionStore) : result error (list KillEntry) :=
  Ok (map (fun '(k, v) => MkKillEntry k v zero_time "" false "") (map_to_list (ps_killed s)) ++
      map (fun '(h, v) => MkKillEntry "" v zero_time "" true h) (map_to_list (ps_principal s))).

#[export] Instance protectionStore_persistence : KillPersistence protectionStore := {
  LoadKills := protectionStore_LoadKills;
  LoadPrincipalKills := protectionStore_LoadPrincipalKills;
  PersistKilled := protectionStore_SetKilled;
  PersistPrincipalKilled := protectionStore_SetPrincipalKilled;
  ListKills := protectionStore_ListKills }.

#[export] Instance protectionStore_laws : KillPersistenceLaws protectionStore.
Proof.
  constructor; cbn; unfold protectionStore_SetKilled, protectionStore_SetPrincipalKilled,
    protectionStore_LoadKills, protectionStore_LoadPrincipalKills; intros; by simplify_eq/=.
Qed.

(** ** Quota definitions (quota.go) *)

Record quotaStore : Type := MkMemQuotaStore { mq_defs : gmap string QuotaDefinition }.

Definition NewMemQuotaStore : quotaStore := MkMemQuotaStore ∅.

Definition quotaStore_LoadDefinitions (s : quotaStore) : result error (list QuotaDefinition) :=
  Ok ((map_to_list (mq_defs s)).*2).

Definition quotaStore_SaveDefinition (s : quotaStore) (d : QuotaDefinition)
  : quotaStore * option error :=
  (MkMemQuotaStore (<[qd_Capability d +:+ NUL +:+ qd_Principal d := d]> (mq_defs s)), None).

Definition quotaStore_ClearDefinition (s : quotaStore) (capability principal : string)
  : quotaStore * option error :=
  (MkMemQuotaStore (delete (capability +:+ NUL +:+ principal) (mq_defs s)), None).

(** A map whose every entry sits under its own key, as [SaveDefinition] puts it. *)
Definition keyed (m : gmap string QuotaDefinition) : Prop :=
  map_Forall (fun k d => k = def_key d) m.

Lemma def_table_snoc ds d : def_table (ds ++ [d]) = <[def_key d := d]> (def_table ds).
Proof. unfold def_table. by rewrite foldl_app. Qed.

Lemma foldl_keyed_list (l : list (string * QuotaDefinition)) (m0 : gmap string QuotaDefinition) :
  NoDup l.*1 -> Forall (fun kd => kd.1 = def_key kd.2) l ->
  foldl (fun m d => <[def_key d := d]> m) m0 l.*2 = list_to_map l ∪ m0.
Proof.
  revert m0. induction l as [|[k d] l IH]; intros m0 Hn Hf; simpl.
  { by rewrite (left_id_L ∅ (∪)). }
  apply NoDup_cons in Hn as [Hk Hn]. apply Forall_cons in Hf as [Hd Hf]. simpl in *.
  rewrite IH by done. rewrite <- Hd. subst k.
  rewrite <- insert_union_l. symmetry. apply insert_union_r.
  by apply not_elem_of_list_to_map_1.
Qed.

Lemma def_table_keyed m : keyed m -> def_table (map_to_list m).*2 = m.
Proof.
  intros Hk. unfold def_table. rewrite foldl_keyed_list.
  - by rewrite list_to_map_to_list, (right_id_L ∅ (∪)).
  - apply NoDup_fst_map_to_list.
  - apply Forall_forall. intros [k d] Hkd. apply elem_of_map_to_list in Hkd. by apply Hk.
Qed.

(** The backend together with the invariant every state of it has. *)
Record MemQuota : Type := MkMemQuota {
  mq_store : quotaStore;
  mq_keyed : keyed (mq_defs mq_store) }.

Lemma save_keyed s d : keyed (mq_defs s) -> keyed (mq_defs (fst (quotaStore_SaveDefinition s d))).
Proof. intros Hk. by apply map_Forall_insert_2. Qed.

Lemma clear_keyed s c p : keyed (mq_defs s) -> keyed (mq_defs (fst (quotaStore_ClearDefinition s c p))).
Proof. intros Hk. by apply map_Forall_delete. Qed.

Lemma empty_keyed : keyed (mq_defs NewMemQuotaStore).
Proof. apply map_Forall_empty. Qed.

#[export] Instance MemQuota_persistence : QuotaPersistence MemQuota := {
  LoadDefinitions q := quotaStore_LoadDefinitions (mq_store q);
  SaveDefinition q d :=
    (MkMemQuota (fst (quotaStore_SaveDefinition (mq_store q) d)) (save_keyed _ d (mq_keyed q)),
     snd (quotaStore_SaveDefinition (mq_store q) d));
  PersistClearDefinition q c p :=
    (MkMemQuota (fst (quotaStore_ClearDefinition (mq_store q) c p)) (clear_keyed _ c p (mq_keyed q)),
     snd (quotaStore_ClearDefinition (mq_store q) c p)) }.

#[export] Instance MemQuota_laws : QuotaPersistenceLaws MemQuota.
Proof.
  constructor; simpl; intros; simplify_eq/=.
  - eexists. split; [done|]. unfold quotaStore_LoadDefinitions in *. simplify_eq.
    rewrite (def_table_keyed (mq_defs (mq_store q))) by apply mq_keyed.
    apply (def_table_keyed (<[_ := _]> _)). exact (save_keyed _ d (mq_keyed q)).
  - eexists. split; [done|]. unfold quotaStore_LoadDefinitions in *. simplify_eq.
    rewrite (def_table_keyed (mq_defs (mq_store q))) by apply mq_keyed.
    apply (def_table_keyed (delete _ _)). exact (clear_keyed _ c p (mq_keyed q)).
Qed.

(** ** The default consumption reader (quota_evidence.go) *)

Record MemQuotaEvidence : Type := MkMemQuotaEvidence { mqe_usage : gmap string QuotaUsage }.

Definition NewQuotaEvidenceReader : MemQuotaEvidence := MkMemQuotaEvidence ∅.

Definition evidenceKey (capability principal : string) : string := capability +:+ NUL +:+ principal.

Definition QuotaEvidenceReader_Report (r : MemQuotaEvidence) (capability principal : string)
    (u : QuotaUsage) : MemQuotaEvidence :=
  MkMemQuotaEvidence (<[evidenceKey capability principal := u]> (mqe_usage r)).

Definition QuotaEvidenceReader_CurrentUsage (r : MemQuotaEvidence) (capability principal : string)
  : result error QuotaUsage :=
  match mqe_usage r !! evidenceKey capability principal with
  | Some u => Ok u
  | None => Ok (MkQuotaUsage 0 f64_zero false)
  end.

(** A pair nobody reported on reads as incomplete evidence, never as zero usage. *)
Lemma unreported_incomplete r c p :
  mqe_usage r !! evidenceKey c p = None ->
  exists u, QuotaEvidenceReader_CurrentUsage r c p = Ok u /\ qu_Complete u = false.
Proof. unfold QuotaEvidenceReader_CurrentUsage. intros ->. eauto. Qed.

(** ** Witnesses *)

Definition wit_quota : QuotaDefinition := MkQuotaDefinition "svc" "" 100 f64_zero.

Lemma quota_definitions_persisted_witness :
  QuotaStore_GetDefinition (run_list quota_call
      (fst (QuotaStore_Bootstrap (NewQuotaStore (MkMemQuota NewMemQuotaStore empty_keyed))))
      [QSet wit_quota]) "svc" "bob" = Some wit_quota.
Proof.
  assert (Hb : snd (QuotaStore_Bootstrap
    (NewQuotaStore (MkMemQuota NewMemQuotaStore empty_keyed))) = None) by (cbn; reflexivity).
  destruct (quota_definitions_persisted (MkMemQuota NewMemQuotaStore empty_keyed)
    [QSet wit_quota] "svc" "bob" Hb) as (ds & Hds & Hget).
  refine (eq_trans Hget _).
  vm_compute in Hds. injection Hds as <-. vm_compute. reflexivity.
Defined.
