(* ===== verification/Provenance.v ===== *)
(** * The decision log (internal/protection/provenance.go)

    A bounded in-memory sink of decision records that evicts its oldest record
    when full, and says so. *)

From S2P Require Import Prelude.

(** ** Data *)

Record DecisionProvenance : Type := MkDecisionProvenance {
  dp_TraceID : string;
  dp_CapabilityID : string;
  dp_PrincipalHash : string;
  dp_Guard : string;
  dp_Decision : string;
  dp_Action : string;
  dp_Threshold : string;
  dp_Observed : string;
  dp_Detail : string;
  dp_LatencyMicros : Z;
  dp_At : Time }.

Record ProvenanceStats : Type := MkProvenanceStats {
  pst_Capacity : Z;
  pst_Buffered : Z;
  pst_Dropped : Z;
  pst_Truncated : bool }.

Record RecordingProvenanceSink : Type := MkSink {
  capN : Z;
  buf : list DecisionProvenance;
  dropped : Z;
  truncated : bool }.

(** ** Operations *)

Definition NewRecordingProvenanceSink (capacity : Z) : RecordingProvenanceSink :=
  MkSink (if capacity <=? 0 then 4096 else capacity) [] 0 false.

Definition Sink_Emit (s : RecordingProvenanceSink) (p : DecisionProvenance)
  : RecordingProvenanceSink :=
  if capN s <=? Z.of_nat (length (buf s)) then
    MkSink (capN s) (drop 1 (buf s) ++ [p]) (wrap64 (dropped s + 1)) true
  else MkSink (capN s) (buf s ++ [p]) (dropped s) (truncated s).

Definition Sink_Stats (s : RecordingProvenanceSink) : ProvenanceStats :=
  MkProvenanceStats (capN s) (Z.of_nat (length (buf s))) (dropped s) (truncated s).

Definition Sink_Recent (s : RecordingProvenanceSink) (n : Z) : list DecisionProvenance :=
  let len := Z.of_nat (length (buf s)) in
  let n := if (n <=? 0) || (len <? n) then len else n in
  drop (Z.to_nat (len - n)) (buf s).

Definition Sink_ByTraceID (s : RecordingProvenanceSink) (id : string) : list DecisionProvenance :=
  List.filter (fun p => bool_decide (dp_TraceID p = id)) (buf s).

Definition Sink_ByCapability (s : RecordingProvenanceSink) (cap : string) : list DecisionProvenance :=
  List.filter (fun p => bool_decide (dp_CapabilityID p = cap)) (buf s).

(** ** Lemmas *)

Lemma capN_new c : 0 < capN (NewRecordingProvenanceSink c).
Proof. simpl. destruct (Z.leb_spec c 0); lia. Qed.

(** What a sink of capacity [c] holds after emitting [ps]. *)
Definition sink_of (c : Z) (ps : list DecisionProvenance) : RecordingProvenanceSink :=
  let kept := lastn (Z.to_nat c) ps in
  MkSink c kept (wrap64 (Z.of_nat (length ps - length kept)))
    (bool_decide (c < Z.of_nat (length ps))).

Lemma Sink_Emit_sink_of c ps p :
  0 < c -> Sink_Emit (sink_of c ps) p = sink_of c (ps ++ [p]).
Proof.
  intros Hc. unfold Sink_Emit, sink_of. simpl.
  rewrite !lastn_length, length_app. simpl.
  destruct (Z.leb_spec c (Z.of_nat (Z.to_nat c `min` length ps))) as [Hf|Hf].
  - assert (Hl : (Z.to_nat c <= length ps)%nat) by lia.
    rewrite drop_1_lastn by done.
    replace (Z.to_nat c) with (S (Z.to_nat c - 1)) at 3 by lia. rewrite lastn_snoc.
    rewrite wrap64_wrap_l. f_equal; [f_equal; lia|].
    symmetry. apply bool_decide_eq_true. lia.
  - assert (Hl : (length ps < Z.to_nat c)%nat) by lia.
    rewrite (lastn_all _ ps), (lastn_all _ (ps ++ [p])) by (rewrite ?length_app; simpl; lia).
    f_equal; [f_equal; lia|]. apply bool_decide_ext. lia.
Qed.

Lemma emit_all c ps :
  0 < c -> run_list Sink_Emit (sink_of c []) ps = sink_of c ps.
Proof.
  intros Hc. induction ps as [|p ps IH] using rev_ind; [done|].
  by rewrite run_list_snoc, IH, Sink_Emit_sink_of.
Qed.

Lemma new_sink_of c :
  NewRecordingProvenanceSink c = sink_of (capN (NewRecordingProvenanceSink c)) [].
Proof.
  unfold sink_of, NewRecordingProvenanceSink. simpl. unfold lastn. rewrite drop_nil. simpl.
  f_equal. symmetry. apply bool_decide_eq_false. pose proof (capN_new c). simpl in *. lia.
Qed.

(** ** Properties *)

(** Bounded loss is honest (R24-7): after any emissions the sink holds
    exactly the newest [capacity] of them, in order; what [Stats] reports as
    dropped and as buffered adds up to what was emitted, and it reports
    truncation exactly when something was dropped. *)
Theorem provenance_honest_loss c ps :
  let s := run_list Sink_Emit (NewRecordingProvenanceSink c) ps in
  let st := Sink_Stats s in
  Z.of_nat (length ps) <= max_int64 ->
  buf s = lastn (Z.to_nat (pst_Capacity st)) ps /\
  pst_Buffered st <= pst_Capacity st /\
  pst_Dropped st + pst_Buffered st = Z.of_nat (length ps) /\
  (pst_Truncated st = true <-> 0 < pst_Dropped st) /\
  (forall n, Sink_Recent s n `suffix_of` ps).
Proof.
  cbv zeta. intros Hlen. rewrite new_sink_of, emit_all by apply capN_new.
  set (k := capN _). assert (Hk : 0 < k) by apply capN_new.
  unfold sink_of, Sink_Stats. cbn [buf capN dropped truncated pst_Capacity pst_Buffered pst_Dropped pst_Truncated].
  rewrite lastn_length, bool_decide_eq_true.
  rewrite wrap64_id by (unfold in_int64, min_int64, max_int64 in *; lia).
  split; [done|]. split; [lia|]. split; [lia|]. split; [lia|].
  intros n. unfold Sink_Recent. cbn [buf].
  etrans; [eexists; by rewrite take_drop|].
  destruct (lastn_app_suffix (Z.to_nat k) ps) as [pre Hpre]. by exists pre.
Qed.

Definition wit_prov (d : string) : DecisionProvenance :=
  MkDecisionProvenance "t" "svc" "h" "admit" "admit" "protection.admit" "" "" d 0 0.

Lemma provenance_honest_loss_witness :
  buf (run_list Sink_Emit (NewRecordingProvenanceSink 2)
         [wit_prov "a"; wit_prov "b"; wit_prov "c"]) = [wit_prov "b"; wit_prov "c"].
Proof.
  refine (eq_trans (proj1 (provenance_honest_loss 2
    [wit_prov "a"; wit_prov "b"; wit_prov "c"] _)) _); [|reflexivity].
  unfold max_int64. simpl. lia.
Defined.
