(* ===== verification/OperatorMutation.v ===== *)
(** * Operator services (internal/protection/killmutation.go, quotamutation.go)

    The single write entry points of an operator: kill and release of a
    capability, set and clear of a quota definition. Each one records an intent
    on the audit stream, mutates the store the gate reads, and records the
    outcome. The two readings of the service's clock are arguments. *)

From S2P Require Import Prelude GoFloat ProtectionTypes KillStore Quota.

Inductive MutationError : Type :=
| ErrAuditIntentFailed (e : error)
| ErrStoreMutationFailed (e : error)
| ErrAuditOutcomeFailed.

(** ** Kill and release *)

Record KillMutationResult : Type := MkKillMutationResult {
  kmr_CapabilityID : string;
  kmr_PrevKilled : bool;
  kmr_NewKilled : bool;
  kmr_Reason : string;
  kmr_Operator : string;
  kmr_At : Time }.

Definition zero_kill_result : KillMutationResult :=
  MkKillMutationResult "" false false "" "" zero_time.

Record OperatorMutation (P : Type) : Type := MkOperatorMutation {
  om_ks : KillStore P;
  om_audit : option AuditWriter }.
Arguments MkOperatorMutation {P}.
Arguments om_ks {P}.
Arguments om_audit {P}.

(** ** Quota set and clear *)

Record QuotaMutationResult : Type := MkQuotaMutationResult {
  qmr_Capability : string;
  qmr_Principal : string;
  qmr_Action : string;
  qmr_Operator : string;
  qmr_At : Time }.

Definition zero_quota_result : QuotaMutationResult :=
  MkQuotaMutationResult "" "" "" "" zero_time.

Record OperatorQuotaMutation (Q : Type) : Type := MkOperatorQuotaMutation {
  oq_qs : QuotaStore Q;
  oq_audit : option AuditWriter }.
Arguments MkOperatorQuotaMutation {Q}.
Arguments oq_qs {Q}.
Arguments oq_audit {Q}.

(** [json.Marshal] fails on a NaN or infinite number; the error is dropped and
    the detail is then empty. *)
Definition f64_is_finite (x : float64) : bool :=
  match x with S754_nan | S754_infinity _ => false | _ => true end.

(** The two events of each service. *)
Definition intent_event (action capID operator : string) (now : Time) : ProtectionEvent :=
  MkProtectionEvent now action capID operator DetailIntent.

Definition kill_outcome (capID reason operator : string) (prev : bool) (at_ : Time) : ProtectionEvent :=
  MkProtectionEvent at_ ActionOperatorKill capID operator
    (DetailObject {[ "prev_killed" := JBool prev; "new_killed" := JBool true;
                     "reason" := JString reason; "operator" := JString operator ]}).

Definition release_outcome (capID operator : string) (prev : bool) (at_ : Time) : ProtectionEvent :=
  MkProtectionEvent at_ ActionOperatorRelease capID operator
    (DetailObject {[ "prev_killed" := JBool prev; "new_killed" := JBool false;
                     "operator" := JString operator ]}).

Definition quota_set_outcome (def : QuotaDefinition) (operator : string) (at_ : Time) : ProtectionEvent :=
  MkProtectionEvent at_ ActionQuotaSet (qd_Capability def) operator
    (if f64_is_finite (qd_CPUSecs def) then
       DetailObject {[ "capability" := JString (qd_Capability def);
                       "principal" := JString (qd_Principal def);
                       "rss_bytes" := JInt (qd_RSSBytes def);
                       "cpu_secs" := JFloat (qd_CPUSecs def); "operator" := JString operator ]}
     else DetailEmpty).

Definition quota_clear_outcome (capability principal operator : string) (at_ : Time) : ProtectionEvent :=
  MkProtectionEvent at_ ActionQuotaClear capability operator
    (DetailObject {[ "capability" := JString capability; "principal" := JString principal;
                     "operator" := JString operator ]}).

Section Operator.
Context {P : Type} `{KillPersistence P} {Q : Type} `{QuotaPersistence Q}.

Definition OperatorMutation_Kill (m : OperatorMutation P) (capID reason operator : string)
    (now at_ kill_at : Time)
  : OperatorMutation P * (KillMutationResult * option MutationError) :=
  let prev := KillStore_IsKilled (om_ks m) capID in
  match writeAudit (om_audit m) (intent_event ActionOperatorKill capID operator now) with
  | (a1, Some e) => (MkOperatorMutation (om_ks m) a1, (zero_kill_result, Some (ErrAuditIntentFailed e)))
  | (a1, None) =>
      match KillStore_RecordOperatorKill (om_ks m) capID operator reason kill_at with
      | (ks', Some e) => (MkOperatorMutation ks' a1, (zero_kill_result, Some (ErrStoreMutationFailed e)))
      | (ks', None) =>
          let res := MkKillMutationResult capID prev true reason operator at_ in
          match writeAudit a1 (kill_outcome capID reason operator prev at_) with
          | (a2, Some _) => (MkOperatorMutation ks' a2, (res, Some ErrAuditOutcomeFailed))
          | (a2, None) => (MkOperatorMutation ks' a2, (res, None))
          end
      end
  end.

Definition OperatorMutation_Release (m : OperatorMutation P) (capID operator : string)
    (now at_ : Time)
  : OperatorMutation P * (KillMutationResult * option MutationError) :=
  let prev := KillStore_IsKilled (om_ks m) capID in
  match writeAudit (om_audit m) (intent_event ActionOperatorRelease capID operator now) with
  | (a1, Some e) => (MkOperatorMutation (om_ks m) a1, (zero_kill_result, Some (ErrAuditIntentFailed e)))
  | (a1, None) =>
      match KillStore_ClearOperatorKill (om_ks m) capID with
      | (ks', Some e) => (MkOperatorMutation ks' a1, (zero_kill_result, Some (ErrStoreMutationFailed e)))
      | (ks', None) =>
          let res := MkKillMutationResult capID prev false "" operator at_ in
          match writeAudit a1 (release_outcome capID operator prev at_) with
          | (a2, Some _) => (MkOperatorMutation ks' a2, (res, Some ErrAuditOutcomeFailed))
          | (a2, None) => (MkOperatorMutation ks' a2, (res, None))
          end
      end
  end.

Definition OperatorQuotaMutation_Set (m : OperatorQuotaMutation Q) (def : QuotaDefinition)
    (operator : string) (now at_ : Time)
  : OperatorQuotaMutation Q * (QuotaMutationResult * option MutationError) :=
  let cap := qd_Capability def in
  match writeAudit (oq_audit m) (intent_event ActionQuotaSet cap operator now) with
  | (a1, Some e) => (MkOperatorQuotaMutation (oq_qs m) a1, (zero_quota_result, Some (ErrAuditIntentFailed e)))
  | (a1, None) =>
      match QuotaStore_SetDefinition (oq_qs m) def with
      | (qs', Some e) => (MkOperatorQuotaMutation qs' a1, (zero_quota_result, Some (ErrStoreMutationFailed e)))
      | (qs', None) =>
          let res := MkQuotaMutationResult cap (qd_Principal def) "set" operator at_ in
          match writeAudit a1 (quota_set_outcome def operator at_) with
          | (a2, Some _) => (MkOperatorQuotaMutation qs' a2, (res, Some ErrAuditOutcomeFailed))
          | (a2, None) => (MkOperatorQuotaMutation qs' a2, (res, None))
          end
      end
  end.

Definition OperatorQuotaMutation_Clear (m : OperatorQuotaMutation Q)
    (capability principal operator : string) (now at_ : Time)
  : OperatorQuotaMutation Q * (QuotaMutationResult * option MutationError) :=
  match writeAudit (oq_audit m) (intent_event ActionQuotaClear capability operator now) with
  | (a1, Some e) => (MkOperatorQuotaMutation (oq_qs m) a1, (zero_quota_result, Some (ErrAuditIntentFailed e)))
  | (a1, None) =>
      match QuotaStore_ClearDefinition (oq_qs m) capability principal with
      | (qs', Some e) => (MkOperatorQuotaMutation qs' a1, (zero_quota_result, Some (ErrStoreMutationFailed e)))
      | (qs', None) =>
          let res := MkQuotaMutationResult capability principal "clear" operator at_ in
          match writeAudit a1 (quota_clear_outcome capability principal operator at_) with
          | (a2, Some _) => (MkOperatorQuotaMutation qs' a2, (res, Some ErrAuditOutcomeFailed))
          | (a2, None) => (MkOperatorQuotaMutation qs' a2, (res, None))
          end
      end
  end.

End Operator.

(** ** The audited-mutation contract

    What the four services promise alike: [pre] is the store before, [mut] what
    its own mutation answers, [t0] the audit trail before; a nil writer
    ([recording] false) records nothing and never fails. *)

Definition recording (a : option AuditWriter) : bool := if a is Some _ then true else false.

Inductive audited {S : Type} (rec : bool) (pre : S) (mut : S * option error)
    (intent outcome : ProtectionEvent) (t0 : list ProtectionEvent)
  : S -> list ProtectionEvent -> option MutationError -> Prop :=
| audited_no_intent e : rec = true ->
    audited rec pre mut intent outcome t0 pre t0 (Some (ErrAuditIntentFailed e))
| audited_no_mutation e : snd mut = Some e ->
    audited rec pre mut intent outcome t0 (fst mut)
      (t0 ++ if rec then [intent] else []) (Some (ErrStoreMutationFailed e))
| audited_no_outcome : snd mut = None -> rec = true ->
    audited rec pre mut intent outcome t0 (fst mut) (t0 ++ [intent]) (Some ErrAuditOutcomeFailed)
| audited_done : snd mut = None ->
    audited rec pre mut intent outcome t0 (fst mut)
      (t0 ++ if rec then [intent; outcome] else []) None.

(** The control flow the services share. *)
Definition audited_run {S R : Type} (a : option AuditWriter) (pre : S) (mut : S * option error)
    (intent outcome : ProtectionEvent) (zero res : R)
  : S * option AuditWriter * (R * option MutationError) :=
  match writeAudit a intent with
  | (a1, Some e) => (pre, a1, (zero, Some (ErrAuditIntentFailed e)))
  | (a1, None) =>
      match mut with
      | (st, Some e) => (st, a1, (zero, Some (ErrStoreMutationFailed e)))
      | (st, None) =>
          match writeAudit a1 outcome with
          | (a2, Some _) => (st, a2, (res, Some ErrAuditOutcomeFailed))
          | (a2, None) => (st, a2, (res, None))
          end
      end
  end.

Lemma writeAudit_recording a ev : recording (fst (writeAudit a ev)) = recording a.
Proof. pose proof (writeAudit_some a ev) as [H1 H2]. destruct a, (writeAudit _ ev) as [[] ?]; naive_solver. Qed.

Lemma writeAudit_err a ev e : snd (writeAudit a ev) = Some e -> recording a = true.
Proof. by destruct a. Qed.

Lemma audited_run_spec {S R : Type} a (pre : S) mut intent outcome (zero res : R) :
  let '(st, a', (r, err)) := audited_run a pre mut intent outcome zero res in
  audited (recording a) pre mut intent outcome (trail a) st (trail a') err /\
  (err = None -> r = res).
Proof.
  unfold audited_run.
  pose proof (writeAudit_spec a intent) as H1. pose proof (writeAudit_recording a intent) as R1.
  pose proof (writeAudit_err a intent) as E1.
  destruct (writeAudit a intent) as [a1 [e1|]]; simpl in *.
  { rewrite H1. split; [|done]. apply audited_no_intent. by eapply E1. }
  assert (H1' : trail a1 = trail a ++ if recording a then [intent] else []) by (by destruct a).
  destruct mut as [st [e2|]].
  { rewrite H1'. split; [|done]. by apply (audited_no_mutation _ _ (st, Some e2)). }
  pose proof (writeAudit_spec a1 outcome) as H2. pose proof (writeAudit_err a1 outcome) as E2.
  destruct (writeAudit a1 outcome) as [a2 [e3|]]; simpl in *.
  - rewrite H2, H1', <- R1, (E2 e3) by done. split; [|done].
    by apply (audited_no_outcome _ _ (st, None)).
  - rewrite H2, H1'. split; [|done].
    assert (H3 : (if a1 is Some _ then [outcome] else []) =
                 if recording a then [outcome] else []) by (rewrite <- R1; by destruct a1).
    rewrite H3, <- app_assoc.
    replace ((if recording a then [intent] else []) ++ (if recording a then [outcome] else []))
      with (if recording a then [intent; outcome] else []) by (by destruct (recording a)).
    by apply (audited_done _ _ (st, None)).
Qed.

(** Each service is its store's mutation in that control flow. *)
Section Services.
Context {P : Type} `{KillPersistence P} {Q : Type} `{QuotaPersistence Q}.

Lemma Kill_run (m : OperatorMutation P) capID reason operator now at_ kill_at :
  OperatorMutation_Kill m capID reason operator now at_ kill_at =
  let prev := KillStore_IsKilled (om_ks m) capID in
  let '(st, a', r) := audited_run (om_audit m) (om_ks m)
    (KillStore_RecordOperatorKill (om_ks m) capID operator reason kill_at)
    (intent_event ActionOperatorKill capID operator now)
    (kill_outcome capID reason operator prev at_) zero_kill_result
    (MkKillMutationResult capID prev true reason operator at_) in
  (MkOperatorMutation st a', r).
Proof. unfold OperatorMutation_Kill, audited_run. cbv zeta. repeat case_match; by simplify_eq/=. Qed.

Lemma Release_run (m : OperatorMutation P) capID operator now at_ :
  OperatorMutation_Release m capID operator now at_ =
  let prev := KillStore_IsKilled (om_ks m) capID in
  let '(st, a', r) := audited_run (om_audit m) (om_ks m)
    (KillStore_ClearOperatorKill (om_ks m) capID)
    (intent_event ActionOperatorRelease capID operator now)
    (release_outcome capID operator prev at_) zero_kill_result
    (MkKillMutationResult capID prev false "" operator at_) in
  (MkOperatorMutation st a', r).
Proof. unfold OperatorMutation_Release, audited_run. cbv zeta. repeat case_match; by simplify_eq/=. Qed.

Lemma Set_run (m : OperatorQuotaMutation Q) def operator now at_ :
  OperatorQuotaMutation_Set m def operator now at_ =
  let '(st, a', r) := audited_run (oq_audit m) (oq_qs m)
    (QuotaStore_SetDefinition (oq_qs m) def)
    (intent_event ActionQuotaSet (qd_Capability def) operator now)
    (quota_set_outcome def operator at_) zero_quota_result
    (MkQuotaMutationResult (qd_Capability def) (qd_Principal def) "set" operator at_) in
  (MkOperatorQuotaMutation st a', r).
Proof. unfold OperatorQuotaMutation_Set, audited_run. cbv zeta. repeat case_match; by simplify_eq/=. Qed.

Lemma Clear_run (m : OperatorQuotaMutation Q) capability principal operator now at_ :
  OperatorQuotaMutation_Clear m capability principal operator now at_ =
  let '(st, a', r) := audited_run (oq_audit m) (oq_qs m)
    (QuotaStore_ClearDefinition (oq_qs m) capability principal)
    (intent_event ActionQuotaClear capability operator now)
    (quota_clear_outcome capability principal operator at_) zero_quota_result
    (MkQuotaMutationResult capability principal "clear" operator at_) in
  (MkOperatorQuotaMutation st a', r).
Proof. unfold OperatorQuotaMutation_Clear, audited_run. cbv zeta. repeat case_match; by simplify_eq/=. Qed.

(** ** Properties *)

(** Operator kill and release run intent, mutation, outcome in that order
    (P22-8): a refused intent leaves store and trail as they were, a refused
    mutation leaves the intent alone on the trail, and a refused outcome leaves
    the mutation standing. The result reports the server's own kill state. *)
Theorem operator_kill_audited (m : OperatorMutation P) capID reason operator now at_ kill_at :
  let prev := KillStore_IsKilled (om_ks m) capID in
  (let '(m', (r, err)) := OperatorMutation_Kill m capID reason operator now at_ kill_at in
   audited (recording (om_audit m)) (om_ks m)
     (KillStore_RecordOperatorKill (om_ks m) capID operator reason kill_at)
     (intent_event ActionOperatorKill capID operator now)
     (kill_outcome capID reason operator prev at_)
     (trail (om_audit m)) (om_ks m') (trail (om_audit m')) err /\
   (err = None -> r = MkKillMutationResult capID prev true reason operator at_)) /\
  (let '(m', (r, err)) := OperatorMutation_Release m capID operator now at_ in
   audited (recording (om_audit m)) (om_ks m) (KillStore_ClearOperatorKill (om_ks m) capID)
     (intent_event ActionOperatorRelease capID operator now)
     (release_outcome capID operator prev at_)
     (trail (om_audit m)) (om_ks m') (trail (om_audit m')) err /\
   (err = None -> r = MkKillMutationResult capID prev false "" operator at_)).
Proof.
  cbv zeta. rewrite Kill_run, Release_run. cbv zeta. split.
  all: match goal with |- context [audited_run ?a ?p ?m ?i ?o ?z ?r] =>
         pose proof (audited_run_spec a p m i o z r) as Hs;
         destruct (audited_run a p m i o z r) as [[st a'] [r' err]] end; exact Hs.
Qed.

(** Quota set and clear keep the same contract, with the quota store's own
    write in the middle. *)
Theorem operator_quota_audited (m : OperatorQuotaMutation Q) def capability principal operator now at_ :
  (let '(m', (r, err)) := OperatorQuotaMutation_Set m def operator now at_ in
   audited (recording (oq_audit m)) (oq_qs m) (QuotaStore_SetDefinition (oq_qs m) def)
     (intent_event ActionQuotaSet (qd_Capability def) operator now)
     (quota_set_outcome def operator at_)
     (trail (oq_audit m)) (oq_qs m') (trail (oq_audit m')) err /\
   (err = None -> r = MkQuotaMutationResult (qd_Capability def) (qd_Principal def) "set" operator at_)) /\
  (let '(m', (r, err)) := OperatorQuotaMutation_Clear m capability principal operator now at_ in
   audited (recording (oq_audit m)) (oq_qs m) (QuotaStore_ClearDefinition (oq_qs m) capability principal)
     (intent_event ActionQuotaClear capability operator now)
     (quota_clear_outcome capability principal operator at_)
     (trail (oq_audit m)) (oq_qs m') (trail (oq_audit m')) err /\
   (err = None -> r = MkQuotaMutationResult capability principal "clear" operator at_)).
Proof.
  rewrite Set_run, Clear_run. split.
  all: match goal with |- context [audited_run ?a ?p ?m ?i ?o ?z ?r] =>
         pose proof (audited_run_spec a p m i o z r) as Hs;
         destruct (audited_run a p m i o z r) as [[st a'] [r' err]] end; exact Hs.
Qed.

End Services.
