(* ===== verification/Gate.v ===== *)
(** * The admission gate (internal/protection/gate.go, timeout.go)

    [Check] composes the guards in a fixed order: kill, principal kill,
    breaker, concurrency, quota, rate. What a call reads from outside the gate
    (the clock, the evidence readers, the trace id) is its environment. *)

From S2P Require Import Prelude GoFloat ProtectionTypes Breaker Semaphore TokenBucket.
From S2P Require Import KillStore Quota Provenance.

(** ** Timeouts *)

Record TimeoutConfig : Type := MkTimeoutConfig {
  tc_Default : Duration;
  tc_Override : gmap string Duration }.

Definition NewTimeoutConfig : TimeoutConfig := MkTimeoutConfig (30 * Second) ∅.

(** [WithDeadline]: a context is known by its deadline; [context.WithTimeout]
    never extends the parent's. *)
Definition TimeoutConfig_WithDeadline (tc : TimeoutConfig) (parent : option Time)
    (capID : string) (now : Time) : option Time :=
  let d := default (tc_Default tc) (tc_Override tc !! capID) in
  if d <=? 0 then parent
  else match parent with
       | Some t => Some (if t <? now + d then t else now + d)
       | None => Some (now + d)
       end.

(** ** Counters *)

Inductive Counter : Type :=
| CtrAdmitted | CtrKilled | CtrPrincipalKilled | CtrCircuitOpen | CtrBreakerUnknown
| CtrConcurrencyExceeded | CtrRateLimited | CtrAuditWriteFailed | CtrQuotaExceeded
| CtrQuotaEvidenceUnavailable.

#[export] Instance Counter_eq_dec : EqDecision Counter.
Proof. solve_decision. Defined.

Definition metric (c : Counter) (m : Metrics) : Z :=
  match c with
  | CtrAdmitted => Admitted_ m
  | CtrKilled => Killed m
  | CtrPrincipalKilled => PrincipalKilled m
  | CtrCircuitOpen => CircuitOpen m
  | CtrBreakerUnknown => BreakerUnknownCount m
  | CtrConcurrencyExceeded => ConcurrencyExceeded m
  | CtrRateLimited => RateLimited m
  | CtrAuditWriteFailed => AuditWriteFailed m
  | CtrQuotaExceeded => QuotaExceededCount m
  | CtrQuotaEvidenceUnavailable => QuotaEvidenceUnavailable m
  end.

(** [counter.Add(1)] on an [atomic.Int64]. *)
Definition bump (c : Counter) (m : Metrics) : Metrics :=
  let add c' := if decide (c = c') then wrap64 (metric c' m + 1) else metric c' m in
  MkMetrics (add CtrAdmitted) (add CtrKilled) (add CtrPrincipalKilled) (add CtrCircuitOpen)
    (add CtrBreakerUnknown) (add CtrConcurrencyExceeded) (add CtrRateLimited)
    (add CtrAuditWriteFailed) (add CtrQuotaExceeded) (add CtrQuotaEvidenceUnavailable).

(** ** The gate *)

Record Gate (P Q : Type) : Type := MkGate {
  g_kills : option (KillStore P);
  g_breaker : option BreakerSet;
  g_sem : option SemaphoreSet;
  g_buckets : option TokenBucketSet;
  g_quotas : option (QuotaStore Q);
  g_audit : option AuditWriter;
  g_timeout : option TimeoutConfig;
  g_salt : string;
  g_counters : Metrics;
  g_provenance : option RecordingProvenanceSink }.
Arguments MkGate {P Q}.
Arguments g_kills {P Q}.
Arguments g_breaker {P Q}.
Arguments g_sem {P Q}.
Arguments g_buckets {P Q}.
Arguments g_quotas {P Q}.
Arguments g_audit {P Q}.
Arguments g_timeout {P Q}.
Arguments g_salt {P Q}.
Arguments g_counters {P Q}.
Arguments g_provenance {P Q}.

(** What one [Check] reads: the clock at entry, in [Take] and at emission, the
    answers of the two evidence readers, and the context's trace id. *)
Record CheckEnv : Type := MkCheckEnv {
  env_now : Time;
  env_take_now : Time;
  env_emit_now : Time;
  env_failures : FailureEvidenceReader;
  env_evidence : option QuotaEvidenceReader;
  env_trace : string }.

Record Admission : Type := MkAdmission { adm_capID : string; adm_held : bool }.

Section Gate.
Context {P : Type} `{KillPersistence P} {Q : Type} `{QuotaPersistence Q}.
Context (sha256 : string -> string).

#[local] Abbreviation gate := (Gate P Q).

Definition with_breaker (g : gate) (b : option BreakerSet) : gate :=
  MkGate (g_kills g) b (g_sem g) (g_buckets g) (g_quotas g) (g_audit g) (g_timeout g)
    (g_salt g) (g_counters g) (g_provenance g).
Definition with_sem (g : gate) (s : option SemaphoreSet) : gate :=
  MkGate (g_kills g) (g_breaker g) s (g_buckets g) (g_quotas g) (g_audit g) (g_timeout g)
    (g_salt g) (g_counters g) (g_provenance g).
Definition with_buckets (g : gate) (b : option TokenBucketSet) : gate :=
  MkGate (g_kills g) (g_breaker g) (g_sem g) b (g_quotas g) (g_audit g) (g_timeout g)
    (g_salt g) (g_counters g) (g_provenance g).
Definition with_counters (g : gate) (c : Metrics) : gate :=
  MkGate (g_kills g) (g_breaker g) (g_sem g) (g_buckets g) (g_quotas g) (g_audit g) (g_timeout g)
    (g_salt g) c (g_provenance g).
Definition with_audit (g : gate) (a : option AuditWriter) : gate :=
  MkGate (g_kills g) (g_breaker g) (g_sem g) (g_buckets g) (g_quotas g) a (g_timeout g)
    (g_salt g) (g_counters g) (g_provenance g).
Definition with_provenance (g : gate) (p : option RecordingProvenanceSink) : gate :=
  MkGate (g_kills g) (g_breaker g) (g_sem g) (g_buckets g) (g_quotas g) (g_audit g) (g_timeout g)
    (g_salt g) (g_counters g) p.

Definition count (c : Counter) (g : gate) : gate := with_counters g (bump c (g_counters g)).

(** [New], on a configuration given as the gate it makes: defaults for a nil
    timeout configuration and a nil salt ([fresh_salt]), zero counters. *)
Definition New (kills : option (KillStore P)) (breaker : option BreakerSet)
    (sem : option SemaphoreSet) (buckets : option TokenBucketSet) (quotas : option (QuotaStore Q))
    (audit : option AuditWriter) (timeout : option TimeoutConfig) (salt : option string)
    (fresh_salt : string) (provenance : option RecordingProvenanceSink) : gate :=
  MkGate kills breaker sem buckets quotas audit
    (Some (default NewTimeoutConfig timeout)) (default fresh_salt salt) zero_metrics provenance.

(** A failed audit write is counted, and nothing else happens. *)
Definition Gate_auditWrite (g : gate) (ev : ProtectionEvent) : gate :=
  match g_audit g with
  | None => g
  | Some w =>
      match WriteEvent w ev with
      | (w', None) => with_audit g (Some w')
      | (w', Some _) => count CtrAuditWriteFailed (with_audit g (Some w'))
      end
  end.

Definition Gate_emitDecision (g : gate) (env : CheckEnv)
    (capID hash guard decision action threshold observed detail : string) : gate :=
  match g_provenance g with
  | None => g
  | Some s =>
      with_provenance g (Some (Sink_Emit s
        (MkDecisionProvenance (env_trace env) capID hash guard decision action threshold observed
           detail (Z.quot (time_Sub (env_emit_now env) (env_now env)) 1000) (env_now env))))
  end.

(** What every rejection does: count, audit, emit, return. *)
Definition reject (g : gate) (env : CheckEnv) (capID hash : string) (c : Counter)
    (guard action threshold observed detail : string) (status : Z) : gate * (Reject + Admission) :=
  let g := count c g in
  let g := Gate_auditWrite g (MkProtectionEvent (env_now env) action capID hash DetailEmpty) in
  let g := Gate_emitDecision g env capID hash guard "reject" action threshold observed detail in
  (g, inl (MkReject action 0 status)).

Definition Gate_release_slot (g : gate) (capID : string) : gate :=
  match g_sem g with
  | None => g
  | Some s => with_sem g (Some (SemaphoreSet_Release s capID))
  end.

(** Stage 3: the breaker's answer, and the set after it. *)
Definition check_breaker (g : gate) (env : CheckEnv) (capID : string)
  : gate * option (Counter * string * Z * BreakerState * Z) :=
  match g_breaker g with
  | None => (g, None)
  | Some bs =>
      let '(bs', (state, eff, err)) := BreakerSet_Evaluate (env_failures env) bs capID (env_now env) in
      let unknown := bool_decide (state = BreakerUnknown) || (if err is Some _ then true else false) in
      if bool_decide (state = BreakerOpen) || unknown then
        (with_breaker g (Some bs'),
         Some (if unknown then CtrBreakerUnknown else CtrCircuitOpen,
               if unknown then ActionBreakerUnknown else ActionCircuitOpen,
               eff, state, BreakerSet_FailureThreshold bs'))
      else (with_breaker g (Some bs'), None)
  end.

(** Stage 4: take a slot; true when there is none. *)
Definition check_sem (g : gate) (capID : string) : gate * bool :=
  match g_sem g with
  | None => (g, false)
  | Some s => let '(s', ok) := SemaphoreSet_Acquire s capID in (with_sem g (Some s'), negb ok)
  end.

(** Stage 4b: the three-state quota verdict. *)
Inductive QuotaVerdict : Type :=
| QuotaNotConfigured
| QuotaUnknown
| QuotaBreached (def : QuotaDefinition) (usage : QuotaUsage)
| QuotaWithin.

Definition check_quota (g : gate) (env : CheckEnv) (capID principal : string) : QuotaVerdict :=
  match g_quotas g, env_evidence env with
  | Some qs, Some evidence =>
      match QuotaStore_GetDefinition qs capID principal with
      | None => QuotaNotConfigured
      | Some def =>
          match evidence capID principal with
          | Err _ => QuotaUnknown
          | Ok usage =>
              if negb (qu_Complete usage) then QuotaUnknown
              else if QuotaExceeded def usage then QuotaBreached def usage
              else QuotaWithin
          end
      end
  | _, _ => QuotaNotConfigured
  end.

(** Stage 5: take a token; true when there is none. *)
Definition check_rate (g : gate) (env : CheckEnv) (capID hash : string) : gate * bool :=
  match g_buckets g with
  | None => (g, false)
  | Some b =>
      let '(b', ok) := TokenBucketSet_Take b capID hash (env_take_now env) in
      (with_buckets g (Some b'), negb ok)
  end.

Definition sem_cap_text (g : gate) (capID : string) : string :=
  match g_sem g with Some s => pretty (SemaphoreSet_Cap s capID) | None => "" end.
Definition bucket_cap_text (g : gate) : string :=
  match g_buckets g with Some b => pretty (f64_to_Z (TokenBucketSet_Capacity b)) | None => "" end.

Definition check_killed (g : gate) (capID : string) : bool :=
  match g_kills g with Some ks => KillStore_IsKilled ks capID | None => false end.
Definition check_principal_killed (g : gate) (hash : string) : bool :=
  match g_kills g with Some ks => KillStore_IsPrincipalKilled ks hash | None => false end.

Definition Gate_Check (g : gate) (env : CheckEnv) (capID principal : string)
  : gate * (Reject + Admission) :=
  let hash := principalHash sha256 principal (g_salt g) in
  if check_killed g capID then
    reject g env capID hash CtrKilled "kill" ActionKilled "" "" "kill-switch active" 403
  else if check_principal_killed g hash then
    reject g env capID hash CtrPrincipalKilled "principal_kill" ActionPrincipalKilled "" ""
      "principal kill-switch active" 403
  else
    match check_breaker g env capID with
    | (g, Some (c, action, eff, state, threshold)) =>
        reject g env capID hash c "breaker" action (pretty threshold) (pretty eff)
          (BreakerState_String state) 503
    | (g, None) =>
        let '(g, full) := check_sem g capID in
        if full then
          reject g env capID hash CtrConcurrencyExceeded "concurrency" ActionConcurrencyExceeded
            (sem_cap_text g capID) "exhausted" "concurrency cap reached" 503
        else
          match check_quota g env capID principal with
          | QuotaUnknown =>
              reject (Gate_release_slot g capID) env capID hash CtrQuotaEvidenceUnavailable "quota"
                ActionQuotaEvidenceUnavailable "defined" "unavailable"
                "quota evidence missing/incomplete" 503
          | QuotaBreached def usage =>
              reject (Gate_release_slot g capID) env capID hash CtrQuotaExceeded "quota"
                ActionQuotaExceeded ("rss=" +:+ pretty (qd_RSSBytes def))
                ("rss=" +:+ pretty (qu_RSSBytes usage)) "quota ceiling breached" 503
          | _ =>
              let '(g, empty) := check_rate g env capID hash in
              if empty then
                reject (Gate_release_slot g capID) env capID hash CtrRateLimited "rate"
                  ActionRateLimited (bucket_cap_text g) "exhausted" "rate bucket empty" 429
              else
                let g := count CtrAdmitted g in
                let g := Gate_emitDecision g env capID hash "admit" "admit" ActionAdmit "" "" "admitted" in
                (g, inr (MkAdmission capID true))
          end
    end.

(** ** Admissions *)

Definition Admission_DeadlineContext (g : gate) (a : Admission) (parent : option Time) (now : Time)
  : option Time :=
  match g_timeout g with
  | None => parent
  | Some tc => TimeoutConfig_WithDeadline tc parent (adm_capID a) now
  end.

Definition Admission_RecordOutcome (g : gate) (a : Admission) (failed : bool) (now : Time) : gate :=
  match g_breaker g with
  | None => g
  | Some bs => with_breaker g (Some (BreakerSet_RecordOutcome bs (adm_capID a) failed now))
  end.

(** [Release]: idempotent, as the release function is dropped after its call. *)
Definition Admission_Release (g : gate) (a : Admission) : gate * Admission :=
  if adm_held a then (Gate_release_slot g (adm_capID a), MkAdmission (adm_capID a) false)
  else (g, a).

(** ** The read surface *)

Definition Gate_KillState (g : gate) : KillStoreState :=
  match g_kills g with None => KillStateUninitialized | Some ks => ks_state ks end.

Definition Gate_ListKills (g : gate) : result error (list KillEntry) :=
  match g_kills g with None => Ok [] | Some ks => KillStore_List ks end.

Definition Gate_SnapshotMetrics (g : gate) : Metrics := g_counters g.

End Gate.
