(* ===== verification/GateSpec.v ===== *)
(** * What the admission gate guarantees

    The guard order as an abstract specification that [Check] implements, and
    the effect of a decision on every component behind the gate. *)

From S2P Require Import Prelude GoFloat ProtectionTypes Breaker Semaphore TokenBucket.
From S2P Require Import KillStore Quota Provenance Gate.

Section GateSpec.
Context {P : Type} `{KillPersistence P} {Q : Type} `{QuotaPersistence Q}.
Context (sha256 : string -> string).

#[local] Abbreviation gate := (Gate P Q).

(** ** The specification: eight guards in order, each judged on the gate as it
    was when the request came in *)

Record GuardVerdict : Type := MkGuardVerdict {
  gv_counter : Counter;
  gv_action : string;
  gv_status : Z;
  gv_blocks : bool }.

Definition breaker_verdict (g : gate) (env : CheckEnv) (capID : string) : option Evaluation :=
  match g_breaker g with
  | None => None
  | Some bs => Some (snd (BreakerSet_Evaluate (env_failures env) bs capID (env_now env)))
  end.

Definition breaker_unknown (v : option Evaluation) : bool :=
  match v with
  | Some (st, _, err) => bool_decide (st = BreakerUnknown) || (if err is Some _ then true else false)
  | None => false
  end.

Definition breaker_open (v : option Evaluation) : bool :=
  match v with Some (st, _, _) => bool_decide (st = BreakerOpen) | None => false end.

Definition slots_full (g : gate) (capID : string) : bool :=
  match g_sem g with
  | Some s => negb (occupancy s capID <? enforced_cap s capID)
  | None => false
  end.

Definition rate_empty (g : gate) (env : CheckEnv) (capID hash : string) : bool :=
  match g_buckets g with
  | Some b => negb (snd (TokenBucketSet_Take b capID hash (env_take_now env)))
  | None => false
  end.

Definition guards (g : gate) (env : CheckEnv) (capID principal : string) : list GuardVerdict :=
  let hash := principalHash sha256 principal (g_salt g) in
  let v := breaker_verdict g env capID in
  let q := check_quota g env capID principal in
  [ MkGuardVerdict CtrKilled ActionKilled 403 (check_killed g capID);
    MkGuardVerdict CtrPrincipalKilled ActionPrincipalKilled 403 (check_principal_killed g hash);
    MkGuardVerdict CtrBreakerUnknown ActionBreakerUnknown 503 (breaker_unknown v);
    MkGuardVerdict CtrCircuitOpen ActionCircuitOpen 503 (breaker_open v);
    MkGuardVerdict CtrConcurrencyExceeded ActionConcurrencyExceeded 503 (slots_full g capID);
    MkGuardVerdict CtrQuotaEvidenceUnavailable ActionQuotaEvidenceUnavailable 503
      (match q with QuotaUnknown => true | _ => false end);
    MkGuardVerdict CtrQuotaExceeded ActionQuotaExceeded 503
      (match q with QuotaBreached _ _ => true | _ => false end);
    MkGuardVerdict CtrRateLimited ActionRateLimited 429 (rate_empty g env capID hash) ].

Definition first_blocking (g : gate) (env : CheckEnv) (capID principal : string) : option GuardVerdict :=
  List.find gv_blocks (guards g env capID principal).

(** The counter a decision is counted under. *)
Definition decision_counter (v : option GuardVerdict) : Counter :=
  match v with Some v => gv_counter v | None => CtrAdmitted end.

(** ** Lemmas *)

Lemma metric_bump c c' m :
  metric c (bump c' m) = if decide (c' = c) then wrap64 (metric c m + 1) else metric c m.
Proof. destruct c; reflexivity. Qed.

(** The state behind the gate: everything but counters and observers. *)
Definition behind (g : gate) :=
  (g_kills g, g_breaker g, g_sem g, g_buckets g, g_quotas g, g_timeout g, g_salt g).

Lemma auditWrite_behind (g : gate) ev : behind (Gate_auditWrite g ev) = behind g.
Proof. unfold Gate_auditWrite. destruct (g_audit g); [|done]. by destruct (WriteEvent _ _) as [w [e|]]. Qed.

Lemma emit_behind (g : gate) env a b c d e f h i : behind (Gate_emitDecision g env a b c d e f h i) = behind g.
Proof. unfold Gate_emitDecision. by destruct (g_provenance g). Qed.

Lemma emit_counters (g : gate) env a b c d e f h i :
  g_counters (Gate_emitDecision g env a b c d e f h i) = g_counters g.
Proof. unfold Gate_emitDecision. by destruct (g_provenance g). Qed.

Lemma reject_behind (g : gate) env a b c d e f h i st : behind (fst (reject g env a b c d e f h i st)) = behind g.
Proof. unfold reject. simpl. by rewrite emit_behind, auditWrite_behind. Qed.

Lemma reject_snd (g : gate) env a b c d e f h i st :
  snd (reject g env a b c d e f h i st) = inl (MkReject e 0 st).
Proof. done. Qed.

Lemma reject_metric (g : gate) env a b c d e f h i st c' :
  c' <> CtrAuditWriteFailed ->
  metric c' (g_counters (fst (reject g env a b c d e f h i st))) =
    if decide (c = c') then wrap64 (metric c' (g_counters g) + 1) else metric c' (g_counters g).
Proof.
  intros Hc. unfold reject. simpl. rewrite emit_counters.
  set (g1 := count c g).
  assert (Hg : metric c' (g_counters (Gate_auditWrite g1
    (MkProtectionEvent (env_now env) e a b DetailEmpty))) = metric c' (g_counters g1)).
  { unfold Gate_auditWrite. destruct (g_audit g1); [|done].
    destruct (WriteEvent _ _) as [w [er|]]; [|done]. simpl.
    rewrite metric_bump. by rewrite decide_False. }
  rewrite Hg. unfold g1, count. simpl. apply metric_bump.
Qed.

(** ** The stages, one lemma each *)

Lemma check_breaker_behind (g : gate) env k :
  behind (fst (check_breaker g env k)) =
  (g_kills g,
   match g_breaker g with
   | Some bs => Some (fst (BreakerSet_Evaluate (env_failures env) bs k (env_now env)))
   | None => None
   end, g_sem g, g_buckets g, g_quotas g, g_timeout g, g_salt g).
Proof.
  unfold check_breaker. destruct (g_breaker g) as [bs|] eqn:E.
  - destruct (BreakerSet_Evaluate _ _ _ _) as [bs' [[st eff] err]]. by destruct (_ || _).
  - unfold behind. simpl. by rewrite E.
Qed.

Lemma check_breaker_verdict (g : gate) env k :
  snd (check_breaker g env k) = None /\
    breaker_unknown (breaker_verdict g env k) = false /\ breaker_open (breaker_verdict g env k) = false
  \/ exists eff st th, snd (check_breaker g env k) =
       Some (if breaker_unknown (breaker_verdict g env k) then CtrBreakerUnknown else CtrCircuitOpen,
             if breaker_unknown (breaker_verdict g env k) then ActionBreakerUnknown else ActionCircuitOpen,
             eff, st, th) /\
     breaker_open (breaker_verdict g env k) || breaker_unknown (breaker_verdict g env k) = true.
Proof.
  unfold check_breaker, breaker_verdict. destruct (g_breaker g) as [bs|]; [|by left].
  destruct (BreakerSet_Evaluate _ _ _ _) as [bs' [[st eff] err]]. cbn -[bool_decide].
  destruct (bool_decide (st = BreakerOpen) || _) eqn:E; cbn -[bool_decide].
  - right. do 3 eexists. split; [reflexivity|done].
  - left. apply orb_false_iff in E as [-> ->]. done.
Qed.

Lemma check_breaker_frame (g : gate) env k :
  g_counters (fst (check_breaker g env k)) = g_counters g /\
  g_audit (fst (check_breaker g env k)) = g_audit g /\
  g_provenance (fst (check_breaker g env k)) = g_provenance g.
Proof.
  unfold check_breaker. destruct (g_breaker g) as [bs|]; [|done].
  destruct (BreakerSet_Evaluate _ _ _ _) as [bs' [[st eff] err]]. by destruct (_ || _).
Qed.

Lemma check_sem_full (g : gate) k : snd (check_sem g k) = slots_full g k.
Proof.
  unfold check_sem, slots_full. destruct (g_sem g) as [s|]; [|done].
  pose proof (Acquire_spec s k) as Ha. destruct (SemaphoreSet_Acquire s k) as [s' ok].
  destruct Ha as [-> _]. done.
Qed.

Lemma check_rate_empty (g : gate) env k h : snd (check_rate g env k h) = rate_empty g env k h.
Proof.
  unfold check_rate, rate_empty. destruct (g_buckets g) as [b|]; [|done].
  by destruct (TokenBucketSet_Take _ _ _ _).
Qed.

(** ** What a decision leaves behind *)

Definition gate_occupancy (g : gate) (k : string) : Z :=
  match g_sem g with Some s => occupancy s k | None => 0 end.
Definition gate_cap (g : gate) (k : string) : Z :=
  match g_sem g with Some s => enforced_cap s k | None => 0 end.
Definition gate_sem_wf (g : gate) : Prop :=
  match g_sem g with Some s => sem_wf s | None => True end.

Definition breaker_reached (v : option GuardVerdict) : bool :=
  match v with
  | Some v => match gv_counter v with CtrKilled | CtrPrincipalKilled => false | _ => true end
  | None => true
  end.
Definition rate_reached (v : option GuardVerdict) : bool :=
  match v with
  | Some v => match gv_counter v with CtrRateLimited => true | _ => false end
  | None => true
  end.

(** [g0] is the gate [g] after a decision [v] and before it is recorded. *)
Record settled (g : gate) (env : CheckEnv) (k hash : string) (v : option GuardVerdict) (g0 : gate)
  : Prop := MkSettled {
  st_kills : g_kills g0 = g_kills g;
  st_breaker : g_breaker g0 =
    if breaker_reached v then
      (fun bs => fst (BreakerSet_Evaluate (env_failures env) bs k (env_now env))) <$> g_breaker g
    else g_breaker g;
  st_slots : forall k', gate_occupancy g0 k' = gate_occupancy g k' +
    match v, g_sem g with None, Some _ => if decide (k = k') then 1 else 0 | _, _ => 0 end;
  st_caps : forall k', gate_cap g0 k' = gate_cap g k';
  st_wf : gate_sem_wf g0;
  st_buckets : g_buckets g0 =
    if rate_reached v then
      (fun b => fst (TokenBucketSet_Take b k hash (env_take_now env))) <$> g_buckets g
    else g_buckets g;
  st_quotas : g_quotas g0 = g_quotas g;
  st_counters : g_counters g0 = g_counters g;
  st_audit : g_audit g0 = g_audit g;
  st_provenance : g_provenance g0 = g_provenance g }.

(** A slot taken and given back is as if never taken. *)
Lemma acquire_release_slots (g : gate) k :
  gate_sem_wf g -> snd (check_sem g k) = false ->
  let g1 := fst (check_sem g k) in
  (forall k', gate_occupancy g1 k' = gate_occupancy g k' +
     match g_sem g with Some _ => if decide (k = k') then 1 else 0 | None => 0 end) /\
  (forall k', gate_cap g1 k' = gate_cap g k') /\ gate_sem_wf g1 /\
  (forall k', gate_occupancy (Gate_release_slot g1 k) k' = gate_occupancy g k') /\
  (forall k', gate_cap (Gate_release_slot g1 k) k' = gate_cap g k') /\
  gate_sem_wf (Gate_release_slot g1 k).
Proof.
  unfold gate_sem_wf, check_sem, gate_occupancy, gate_cap, Gate_release_slot.
  destruct (g_sem g) as [s|] eqn:E; cbn.
  2: { intros _ _. rewrite !E. repeat split; intros; lia || done. }
  intros Hwf. pose proof (Acquire_spec s k) as Ha.
  pose proof (sem_call_wf s (CallAcquire k) Hwf) as Hw1. cbn in Hw1.
  destruct (SemaphoreSet_Acquire s k) as [s' ok]. cbn in *. destruct Ha as (_ & Ho & Hc & _).
  intros Hok. apply negb_false_iff in Hok as ->.
  pose proof (sem_call_wf s' (CallRelease k) Hw1) as Hw2. cbn in Hw2.
  destruct (Release_spec s' k Hw1) as (Ho2 & Hc2 & _).
  split; [|split; [|split; [done|split; [|split; [|done]]]]];
    intros k'; rewrite ?Ho2, ?Hc2, ?Ho, ?Hc; try done.
  case_decide; [subst|simpl; lia]. pose proof (occupancy_bounds s k' Hwf). simpl. lia.
Qed.

Lemma full_slots (g : gate) k :
  gate_sem_wf g -> snd (check_sem g k) = true ->
  let g1 := fst (check_sem g k) in
  (forall k', gate_occupancy g1 k' = gate_occupancy g k') /\
  (forall k', gate_cap g1 k' = gate_cap g k') /\ gate_sem_wf g1.
Proof.
  unfold gate_sem_wf, check_sem, gate_occupancy, gate_cap.
  destruct (g_sem g) as [s|] eqn:E; cbn; [|done].
  intros Hwf. pose proof (Acquire_spec s k) as Ha.
  pose proof (sem_call_wf s (CallAcquire k) Hwf) as Hw1. cbn in Hw1.
  destruct (SemaphoreSet_Acquire s k) as [s' ok]. cbn in *. destruct Ha as (_ & Ho & Hc & _).
  intros Hok. apply negb_true_iff in Hok as ->.
  split; [|split; [|done]]; intros k'; rewrite ?Ho, ?Hc; [|done]. case_decide; simpl; lia.
Qed.

Lemma check_sem_frame (g : gate) k :
  let g1 := fst (check_sem g k) in
  g_kills g1 = g_kills g /\ g_breaker g1 = g_breaker g /\ g_buckets g1 = g_buckets g /\
  g_quotas g1 = g_quotas g /\ g_counters g1 = g_counters g /\ g_audit g1 = g_audit g /\
  g_provenance g1 = g_provenance g.
Proof. unfold check_sem. destruct (g_sem g); [|done]. by destruct (SemaphoreSet_Acquire _ _). Qed.

Lemma release_slot_frame (g : gate) k :
  let g1 := Gate_release_slot g k in
  g_kills g1 = g_kills g /\ g_breaker g1 = g_breaker g /\ g_buckets g1 = g_buckets g /\
  g_quotas g1 = g_quotas g /\ g_counters g1 = g_counters g /\ g_audit g1 = g_audit g /\
  g_provenance g1 = g_provenance g.
Proof. unfold Gate_release_slot. by destruct (g_sem g). Qed.

Lemma check_rate_frame (g : gate) env k h :
  let g1 := fst (check_rate g env k h) in
  g_kills g1 = g_kills g /\ g_breaker g1 = g_breaker g /\ g_sem g1 = g_sem g /\
  g_buckets g1 = (fun b => fst (TokenBucketSet_Take b k h (env_take_now env))) <$> g_buckets g /\
  g_quotas g1 = g_quotas g /\ g_counters g1 = g_counters g /\ g_audit g1 = g_audit g /\
  g_provenance g1 = g_provenance g.
Proof.
  unfold check_rate. destruct (g_buckets g) as [b|] eqn:E; cbn; [|by rewrite ?E].
  by destruct (TokenBucketSet_Take b k h (env_take_now env)).
Qed.

(** The master lemma: [Check] is its first blocking guard, recorded on a
    settled gate. *)
Inductive check_outcome (g : gate) (env : CheckEnv) (k hash : string)
  : option GuardVerdict -> gate * (Reject + Admission) -> Prop :=
| outcome_reject v g0 guard th obs det :
    settled g env k hash (Some v) g0 ->
    check_outcome g env k hash (Some v)
      (reject g0 env k hash (gv_counter v) guard (gv_action v) th obs det (gv_status v))
| outcome_admit g0 :
    settled g env k hash None g0 ->
    check_outcome g env k hash None
      (Gate_emitDecision (count CtrAdmitted g0) env k hash "admit" "admit" ActionAdmit "" "" "admitted",
       inr (MkAdmission k true)).

Lemma behind_frame (g g1 : gate) : behind g1 = behind g ->
  g_kills g1 = g_kills g /\ g_breaker g1 = g_breaker g /\ g_sem g1 = g_sem g /\
  g_buckets g1 = g_buckets g /\ g_quotas g1 = g_quotas g.
Proof. unfold behind. intros [=]. done. Qed.

(** Settled before the slot: the guards that look only. *)
Lemma settled_look (g g1 : gate) env k hash v :
  gate_sem_wf g -> rate_reached (Some v) = false ->
  g_kills g1 = g_kills g -> g_sem g1 = g_sem g -> g_buckets g1 = g_buckets g ->
  g_quotas g1 = g_quotas g -> g_counters g1 = g_counters g -> g_audit g1 = g_audit g ->
  g_provenance g1 = g_provenance g ->
  g_breaker g1 = (if breaker_reached (Some v) then
      (fun bs => fst (BreakerSet_Evaluate (env_failures env) bs k (env_now env))) <$> g_breaker g
    else g_breaker g) ->
  settled g env k hash (Some v) g1.
Proof.
  intros Hwf Hr Hk Hs Hb Hq Hc Ha Hp Hbr.
  constructor; try done; unfold gate_occupancy, gate_cap, gate_sem_wf; rewrite ?Hs; try done.
  - intros. lia.
  - by rewrite Hr, Hb.
Qed.

(** The gate after the breaker stage agrees with the one before on the rest. *)
Lemma check_breaker_rest (g : gate) env k :
  let g1 := fst (check_breaker g env k) in
  g_kills g1 = g_kills g /\
  g_breaker g1 = (fun bs => fst (BreakerSet_Evaluate (env_failures env) bs k (env_now env))) <$> g_breaker g /\
  g_sem g1 = g_sem g /\ g_buckets g1 = g_buckets g /\ g_quotas g1 = g_quotas g /\
  g_counters g1 = g_counters g /\ g_audit g1 = g_audit g /\ g_provenance g1 = g_provenance g.
Proof.
  pose proof (check_breaker_behind g env k) as Hb. unfold behind in Hb. injection Hb as Hk Hbr Hs Hbu Hq _ _.
  destruct (check_breaker_frame g env k) as (Hc & Ha & Hp).
  cbn zeta. rewrite Hk, Hbr, Hs, Hbu, Hq. by destruct (g_breaker g).
Qed.

Lemma Gate_Check_outcome (g : gate) env k principal :
  gate_sem_wf g ->
  check_outcome g env k (principalHash sha256 principal (g_salt g))
    (first_blocking g env k principal) (Gate_Check sha256 g env k principal).
Proof.
  intros Hwf. unfold Gate_Check, first_blocking, guards.
  set (hash := principalHash sha256 principal (g_salt g)).
  cbn [List.find gv_blocks].
  destruct (check_killed g k).
  { apply (outcome_reject g env k hash (MkGuardVerdict _ _ _ _)). by apply settled_look. }
  destruct (check_principal_killed g hash).
  { apply (outcome_reject g env k hash (MkGuardVerdict _ _ _ _)). by apply settled_look. }
  pose proof (check_breaker_rest g env k) as Hrest.
  destruct (check_breaker_verdict g env k) as [(Hn & Hu & Ho) | (eff & st & th & Hs & Hor)];
    destruct (check_breaker g env k) as [g1 r]; cbn [fst snd] in *; subst r.
  2: { destruct Hrest as (?&?&?&?&?&?&?&?).
       destruct (breaker_unknown (breaker_verdict g env k)).
       - apply (outcome_reject g env k hash (MkGuardVerdict _ _ _ _)). by apply settled_look.
       - rewrite orb_false_r in Hor. rewrite Hor.
         apply (outcome_reject g env k hash (MkGuardVerdict _ _ _ _)). by apply settled_look. }
  rewrite Hu, Ho. destruct Hrest as (Hk1 & Hbr1 & Hs1 & Hbu1 & Hq1 & Hc1 & Ha1 & Hp1).
  assert (Hwf1 : gate_sem_wf g1) by (unfold gate_sem_wf; by rewrite Hs1).
  assert (Hfull : snd (check_sem g1 k) = slots_full g k)
    by (rewrite check_sem_full; unfold slots_full; by rewrite Hs1).
  assert (Hocc : forall k', gate_occupancy g1 k' = gate_occupancy g k')
    by (intros; unfold gate_occupancy; by rewrite Hs1).
  assert (Hcap : forall k', gate_cap g1 k' = gate_cap g k')
    by (intros; unfold gate_cap; by rewrite Hs1).
  destruct (check_sem_frame g1 k) as (Hk2 & Hbr2 & Hbu2 & Hq2 & Hc2 & Ha2 & Hp2).
  pose proof (full_slots g1 k Hwf1) as Hfs. pose proof (acquire_release_slots g1 k Hwf1) as Hars.
  destruct (check_sem g1 k) as [g2 full]; cbn [fst snd] in *. subst full.
  destruct (slots_full g k).
  { apply (outcome_reject g env k hash (MkGuardVerdict _ _ _ _)). 
    destruct (Hfs eq_refl) as (Ho3 & Hc3 & Hw3).
    constructor; cbn -[gate_occupancy gate_cap gate_sem_wf]; try congruence; intros; rewrite ?Ho3, ?Hc3, ?Hocc, ?Hcap; auto; lia. }
  destruct (Hars eq_refl) as (Ho2 & Hcp2 & Hw2 & Ho3 & Hcp3 & Hw3). rewrite Hs1 in Ho2.
  assert (Hq : check_quota g2 env k principal = check_quota g env k principal)
    by (unfold check_quota; by rewrite Hq2, Hq1).
  rewrite Hq. clear Hfs Hars.
  destruct (release_slot_frame g2 k) as (Hk3 & Hbr3 & Hbu3 & Hq3 & Hc3 & Ha3 & Hp3).
  destruct (check_quota g env k principal) as [| |d u|] eqn:Eq.
  2,3: apply (outcome_reject g env k hash (MkGuardVerdict _ _ _ _));
    constructor; cbn -[gate_occupancy gate_cap gate_sem_wf]; try congruence; intros; rewrite ?Ho3, ?Hcp3, ?Hocc, ?Hcap; auto; lia.
  all: pose proof (check_rate_empty g2 env k hash) as He;
    assert (Hre : rate_empty g2 env k hash = rate_empty g env k hash)
      by (unfold rate_empty; by rewrite Hbu2, Hbu1);
    rewrite Hre in He;
    pose proof (check_rate_frame g2 env k hash) as Hrf;
    destruct (check_rate g2 env k hash) as [g4 empty]; cbn [fst snd] in *; subst empty;
    destruct Hrf as (Hk4 & Hbr4 & Hs4 & Hbu4 & Hq4 & Hc4 & Ha4 & Hp4);
    destruct (release_slot_frame g4 k) as (Hk5 & Hbr5 & Hbu5 & Hq5 & Hc5 & Ha5 & Hp5);
    assert (Hs5 : g_sem (Gate_release_slot g4 k) = g_sem (Gate_release_slot g2 k))
      by (unfold Gate_release_slot; rewrite Hs4; destruct (g_sem g2) eqn:E2; cbn; congruence);
    destruct (rate_empty g env k hash).
  1,3: apply (outcome_reject g env k hash (MkGuardVerdict _ _ _ _));
    constructor; cbn -[gate_occupancy gate_cap gate_sem_wf]; try congruence;
    unfold gate_occupancy, gate_cap, gate_sem_wf in *; rewrite ?Hs5; try done;
    intros; rewrite ?Ho3, ?Hcp3, ?Hocc, ?Hcap; auto; lia.
  all: apply (outcome_admit g env k hash g4);
    constructor; cbn -[gate_occupancy gate_cap gate_sem_wf]; try congruence;
    unfold gate_occupancy, gate_cap, gate_sem_wf in *; rewrite ?Hs4; try done;
    intros; rewrite ?Ho2, ?Hcp2, ?Hocc, ?Hcap; auto; lia.
Qed.

Lemma first_blocking_blocks (g : gate) env k principal v :
  first_blocking g env k principal = Some v -> v ∈ guards g env k principal /\ gv_blocks v = true.
Proof. intros Hf. apply find_some in Hf as [Hin Hb]. by rewrite list_elem_of_In. Qed.

Lemma guard_counter_not_audit (g : gate) env k principal v :
  first_blocking g env k principal = Some v ->
  gv_counter v <> CtrAuditWriteFailed /\ gv_counter v <> CtrAdmitted.
Proof.
  intros [Hin _]%first_blocking_blocks. unfold guards in Hin.
  repeat (apply elem_of_cons in Hin as [->|Hin]; [done|]). by apply elem_of_nil in Hin.
Qed.

(** [Check] through its specification: the answer, and what it leaves. *)
Lemma Gate_Check_answer (g : gate) env k principal :
  gate_sem_wf g ->
  snd (Gate_Check sha256 g env k principal) =
    match first_blocking g env k principal with
    | Some v => inl (MkReject (gv_action v) 0 (gv_status v))
    | None => inr (MkAdmission k true)
    end.
Proof.
  intros Hwf. by destruct (Gate_Check_outcome g env k principal Hwf).
Qed.

Lemma Gate_Check_frame (g : gate) env k principal :
  gate_sem_wf g ->
  let hash := principalHash sha256 principal (g_salt g) in
  let v := first_blocking g env k principal in
  let g' := fst (Gate_Check sha256 g env k principal) in
  (forall k', gate_occupancy g' k' = gate_occupancy g k' +
     match v, g_sem g with None, Some _ => if decide (k = k') then 1 else 0 | _, _ => 0 end) /\
  (forall k', gate_cap g' k' = gate_cap g k') /\
  g_buckets g' = (if rate_reached v then
    (fun b => fst (TokenBucketSet_Take b k hash (env_take_now env))) <$> g_buckets g else g_buckets g) /\
  g_breaker g' = (if breaker_reached v then
    (fun bs => fst (BreakerSet_Evaluate (env_failures env) bs k (env_now env))) <$> g_breaker g
    else g_breaker g) /\
  g_kills g' = g_kills g /\ g_quotas g' = g_quotas g.
Proof.
  intros Hwf. cbv zeta.
  destruct (Gate_Check_outcome g env k principal Hwf) as [v g0 guard th obs det Hs|g0 Hs];
    (match goal with |- context [fst (reject ?a ?b ?c ?d ?e ?f ?h ?i ?j ?l ?m)] =>
       pose proof (reject_behind a b c d e f h i j l m) as Hb
     | |- context [fst (Gate_emitDecision ?a ?b ?c ?d ?e ?f ?h ?i ?j ?l, _)] =>
       pose proof (emit_behind a b c d e f h i j l) as Hb; cbn [fst] end);
    apply behind_frame in Hb as (-> & -> & Hsem & -> & ->);
    destruct Hs; unfold gate_occupancy, gate_cap in *; rewrite Hsem; done.
Qed.

(** ** Properties of one decision *)

(** C13. The guard order: [Check] answers with the action and status of the
    first blocking guard of the specification (kill, principal kill, breaker
    unknown, breaker open, concurrency, quota evidence, quota ceiling, rate),
    each judged on the gate as the request found it, and admits exactly when
    none blocks. *)
Theorem gate_guard_order (g : gate) env k principal :
  gate_sem_wf g ->
  snd (Gate_Check sha256 g env k principal) =
    match first_blocking g env k principal with
    | Some v => inl (MkReject (gv_action v) 0 (gv_status v))
    | None => inr (MkAdmission k true)
    end.
Proof. exact (Gate_Check_answer g env k principal). Qed.

(** A rejected request leaves nothing behind: no slot stays taken, the
    token bucket is touched only when the rate guard itself answered, the
    breaker only when the two kill guards let the request through, kill and
    quota tables never. An admission holds exactly one slot of its own
    capability and one [Take] of its own bucket. *)
Theorem gate_decision_frame (g : gate) env k principal :
  gate_sem_wf g ->
  let hash := principalHash sha256 principal (g_salt g) in
  let v := first_blocking g env k principal in
  let g' := fst (Gate_Check sha256 g env k principal) in
  (forall k', gate_occupancy g' k' = gate_occupancy g k' +
     match v, g_sem g with None, Some _ => if decide (k = k') then 1 else 0 | _, _ => 0 end) /\
  (forall k', gate_cap g' k' = gate_cap g k') /\
  g_buckets g' = (if rate_reached v then
    (fun b => fst (TokenBucketSet_Take b k hash (env_take_now env))) <$> g_buckets g else g_buckets g) /\
  g_breaker g' = (if breaker_reached v then
    (fun bs => fst (BreakerSet_Evaluate (env_failures env) bs k (env_now env))) <$> g_breaker g
    else g_breaker g) /\
  g_kills g' = g_kills g /\ g_quotas g' = g_quotas g.
Proof. exact (Gate_Check_frame g env k principal). Qed.

(** Every decision is counted exactly once, under the counter of the guard
    that made it; the audit-failure counter moves by at most one and only on a
    rejection. *)
Theorem gate_counted_once (g : gate) env k principal c :
  gate_sem_wf g -> c <> CtrAuditWriteFailed ->
  let g' := fst (Gate_Check sha256 g env k principal) in
  metric c (Gate_SnapshotMetrics g') =
    (if decide (decision_counter (first_blocking g env k principal) = c)
     then wrap64 (metric c (Gate_SnapshotMetrics g) + 1) else metric c (Gate_SnapshotMetrics g)).
Proof.
  intros Hwf Hc. cbv zeta. unfold Gate_SnapshotMetrics.
  destruct (Gate_Check_outcome g env k principal Hwf) as [v g0 guard th obs det Hs|g0 Hs];
    pose proof (st_counters _ _ _ _ _ _ Hs) as Hg0.
  - rewrite reject_metric by done. by rewrite Hg0.
  - cbn [fst]. rewrite emit_counters. unfold count. cbn [g_counters with_counters].
    rewrite metric_bump. by rewrite Hg0.
Qed.

(** The evidence a decision leaves (R24-7, R9-3): with a sink and an audit
    writer, one decision record is emitted per call and says what was decided,
    by which principal hash and under which action; a rejection writes one audit
    event with the same action and hash, an admission writes none, and neither
    ever carries the principal itself. *)
Theorem gate_decision_evidence (g : gate) env k principal sink :
  gate_sem_wf g -> g_provenance g = Some sink ->
  let hash := principalHash sha256 principal (g_salt g) in
  let g' := fst (Gate_Check sha256 g env k principal) in
  let v := first_blocking g env k principal in
  (exists r, g_provenance g' = Some (Sink_Emit sink r) /\
     dp_TraceID r = env_trace env /\ dp_CapabilityID r = k /\ dp_PrincipalHash r = hash /\
     dp_At r = env_now env /\
     dp_Decision r = (if v is Some _ then "reject" else "admit") /\
     dp_Action r = (if v is Some x then gv_action x else ActionAdmit)) /\
  g_audit g' =
    match v, g_audit g with
    | Some x, Some w =>
        Some (fst (WriteEvent w (MkProtectionEvent (env_now env) (gv_action x) k hash DetailEmpty)))
    | _, a => a
    end.
Proof.
  intros Hwf Hsink. cbv zeta.
  destruct (Gate_Check_outcome g env k principal Hwf) as [v g0 guard th obs det Hs|g0 Hs];
    pose proof (st_audit _ _ _ _ _ _ Hs) as Ha;
    pose proof (st_provenance _ _ _ _ _ _ Hs) as Hp; rewrite Hsink in Hp.
  - unfold reject, Gate_auditWrite, Gate_emitDecision. cbn [fst g_audit count with_counters].
    rewrite Ha. destruct (g_audit g) as [w|].
    + destruct (WriteEvent w _) as [w' [e|]]; cbn; rewrite Hp; cbn;
        (split; [eexists; split; [reflexivity|done]|done]).
    + cbn. rewrite Hp; cbn. split; [eexists; split; [reflexivity|done]|]. done.
  - unfold Gate_emitDecision. cbn. rewrite Hp. cbn. rewrite Ha.
    split; [eexists; split; [reflexivity|done]|]. by destruct (g_audit g).
Qed.

End GateSpec.
