(* ===== verification/GateRun.v ===== *)
(** * The admission gate over a history of requests

    Requests, outcomes and releases in any order on one gate; the slots in use
    are the admissions outstanding. Also: what the observers cannot change. *)

From S2P Require Import Prelude GoFloat ProtectionTypes Breaker Semaphore TokenBucket.
From S2P Require Import KillStore Quota Provenance Gate GateSpec MemoryStore.

Section GateRun.
Context {P : Type} `{KillPersistence P} {Q : Type} `{QuotaPersistence Q}.
Context (sha256 : string -> string).

#[local] Abbreviation gate := (Gate P Q).

(** ** Histories *)

(** The i-th admission handed out is the i-th of the list. *)
Record GateRun : Type := MkGateRun { gr_gate : gate; gr_admissions : list Admission }.

Inductive GateEvent : Type :=
| EvCheck (env : CheckEnv) (capID principal : string)
| EvOutcome (i : nat) (failed : bool) (now : Time)
| EvRelease (i : nat).

Definition gate_event (s : GateRun) (e : GateEvent) : GateRun :=
  match e with
  | EvCheck env k p =>
      let '(g, r) := Gate_Check sha256 (gr_gate s) env k p in
      MkGateRun g (gr_admissions s ++ match r with inl _ => [] | inr a => [a] end)
  | EvOutcome i failed now =>
      match gr_admissions s !! i with
      | Some a => MkGateRun (Admission_RecordOutcome (gr_gate s) a failed now) (gr_admissions s)
      | None => s
      end
  | EvRelease i =>
      match gr_admissions s !! i with
      | Some a =>
          let '(g, a') := Admission_Release (gr_gate s) a in
          MkGateRun g (<[i := a']> (gr_admissions s))
      | None => s
      end
  end.

(** Admissions of a capability that have not been released. *)
Fixpoint outstanding (k : string) (l : list Admission) : Z :=
  match l with
  | [] => 0
  | a :: l' =>
      (if adm_held a then if decide (adm_capID a = k) then 1 else 0 else 0) + outstanding k l'
  end.

(** ** Lemmas *)

Lemma outstanding_app k l1 l2 : outstanding k (l1 ++ l2) = outstanding k l1 + outstanding k l2.
Proof. induction l1; simpl; lia. Qed.

Lemma outstanding_nonneg k l : 0 <= outstanding k l.
Proof. induction l as [|a l IH]; simpl; [lia|]. destruct (adm_held a); [case_decide|]; lia. Qed.

Lemma outstanding_release k l i a :
  l !! i = Some a -> adm_held a = true ->
  outstanding k (<[i := MkAdmission (adm_capID a) false]> l) =
    outstanding k l - (if decide (adm_capID a = k) then 1 else 0).
Proof.
  revert i. induction l as [|b l IH]; intros [|i] Hl Ha; simplify_eq/=.
  - rewrite Ha. case_decide; lia.
  - rewrite IH by done. destruct (adm_held b); case_decide; try case_decide; lia.
Qed.

Lemma outstanding_same k l i a :
  l !! i = Some a -> outstanding k (<[i := a]> l) = outstanding k l.
Proof. intros Hl. by rewrite list_insert_id. Qed.

(** The slot ledger: taken slots are outstanding admissions. *)
Definition balanced (cap : string -> Z) (s : GateRun) : Prop :=
  is_Some (g_sem (gr_gate s)) /\ gate_sem_wf (gr_gate s) /\
  (forall k, gate_occupancy (gr_gate s) k = outstanding k (gr_admissions s)) /\
  (forall k, gate_cap (gr_gate s) k = cap k).

(** A semaphore set is there when its caps are positive. *)
Lemma gate_cap_some (g : gate) :
  gate_sem_wf g -> (is_Some (g_sem g) <-> 0 < gate_cap g "").
Proof.
  unfold gate_sem_wf, gate_cap. destruct (g_sem g) as [s|]; intros Hw.
  - split; [intros _; by apply enforced_cap_pos|eauto].
  - split; [by intros []|lia].
Qed.

Lemma Gate_Check_wf (g : gate) env k p :
  gate_sem_wf g -> gate_sem_wf (fst (Gate_Check sha256 g env k p)).
Proof.
  intros Hwf. destruct (Gate_Check_outcome sha256 g env k p Hwf) as [v g0 guard th obs det [] | g0 []].
  - pose proof (reject_behind g0 env k (principalHash sha256 p (g_salt g)) (gv_counter v)
      guard (gv_action v) th obs det (gv_status v)) as Hb.
    apply behind_frame in Hb as (_ & _ & Hb & _). unfold gate_sem_wf in *. by rewrite Hb.
  - cbn [fst]. unfold Gate_emitDecision. by destruct (g_provenance _).
Qed.

Lemma Check_sem_some (g : gate) env k p :
  gate_sem_wf g -> is_Some (g_sem g) ->
  let g' := fst (Gate_Check sha256 g env k p) in gate_sem_wf g' /\ is_Some (g_sem g').
Proof.
  intros Hwf Hs. cbv zeta.
  pose proof (Gate_Check_frame sha256 g env k p Hwf) as (_ & Hc & _).
  pose proof (Gate_Check_wf g env k p Hwf) as Hw. split; [done|]. apply gate_cap_some; [done|]. rewrite Hc. by apply gate_cap_some.
Qed.

Lemma gate_event_balanced cap s e : balanced cap s -> balanced cap (gate_event s e).
Proof.
  intros (Hs & Hwf & Hocc & Hcap). destruct e as [env k p|i failed now|i]; simpl.
  - destruct (Check_sem_some (gr_gate s) env k p Hwf Hs) as [Hwf' Hs'].
    pose proof (Gate_Check_answer sha256 (gr_gate s) env k p Hwf) as Hr.
    pose proof (Gate_Check_frame sha256 (gr_gate s) env k p Hwf) as (Ho & Hc & _).
    destruct (Gate_Check sha256 (gr_gate s) env k p) as [g r]. cbn [fst snd] in *. subst r.
    split; [done|]. split; [done|]. cbn [gr_gate gr_admissions].
    split; intros k'; rewrite ?Ho, ?Hc; [|done]. rewrite Hocc, outstanding_app.
    destruct Hs as [ss ->]. destruct (first_blocking _ _ _ _ _); simpl; lia.
  - destruct (gr_admissions s !! i); [|done].
    unfold balanced, gate_sem_wf, gate_occupancy, gate_cap, Admission_RecordOutcome in *.
    by destruct (g_breaker (gr_gate s)).
  - destruct (gr_admissions s !! i) as [a|] eqn:Ea; [|done].
    unfold Admission_Release. destruct (adm_held a) eqn:Hh.
    2: { unfold balanced. cbn [gr_gate gr_admissions]. rewrite list_insert_id by done. done. }
    unfold balanced, gate_sem_wf, gate_occupancy, gate_cap, Gate_release_slot in *.
    destruct (g_sem (gr_gate s)) as [ss|] eqn:E; [|by destruct Hs]. cbn.
    destruct (Release_spec ss (adm_capID a) Hwf) as (Ho & Hc & _).
    split; [eauto|]. split; [apply (sem_call_wf ss (CallRelease _) Hwf)|].
    split; intros k; rewrite ?Ho, ?Hc; [|done].
    rewrite (outstanding_release k _ _ a) by done. pose proof (Hocc k) as Hk.
    assert (Hpos : adm_capID a = k -> 1 <= outstanding k (gr_admissions s)).
    { intros <-. pose proof (outstanding_release (adm_capID a) _ _ _ Ea Hh) as Hr.
      rewrite decide_True in Hr by done.
      pose proof (outstanding_nonneg (adm_capID a) (<[i:=MkAdmission (adm_capID a) false]> (gr_admissions s))). lia. }
    case_decide; [|lia]. specialize (Hpos ltac:(done)). lia.
Qed.

(** ** What a decision can see: all but the counters and the observers *)

Record gate_equiv (g1 g2 : gate) : Prop := MkGateEquiv {
  ge_kills : g_kills g1 = g_kills g2;
  ge_breaker : g_breaker g1 = g_breaker g2;
  ge_buckets : g_buckets g1 = g_buckets g2;
  ge_quotas : g_quotas g1 = g_quotas g2;
  ge_salt : g_salt g1 = g_salt g2;
  ge_wf1 : gate_sem_wf g1;
  ge_wf2 : gate_sem_wf g2;
  ge_occ : forall k, gate_occupancy g1 k = gate_occupancy g2 k;
  ge_cap : forall k, gate_cap g1 k = gate_cap g2 k }.

#[local] Instance gate_equiv_sym : Symmetric gate_equiv.
Proof. intros g1 g2 []. by constructor. Qed.

#[local] Instance gate_equiv_trans : Transitive gate_equiv.
Proof. intros g1 g2 g3 [] []. constructor; congruence || (intros; etrans; eauto). Qed.

Lemma gate_equiv_sem g1 g2 : gate_equiv g1 g2 -> is_Some (g_sem g1) <-> is_Some (g_sem g2).
Proof. intros []. by rewrite !gate_cap_some, ge_cap0. Qed.

#[local] Instance slots_full_proper : Proper (gate_equiv ==> eq ==> eq) slots_full.
Proof.
  intros g1 g2 He k ? <-. pose proof (gate_equiv_sem _ _ He) as Hs.
  destruct He. specialize (ge_occ0 k). specialize (ge_cap0 k).
  unfold slots_full, gate_occupancy, gate_cap in *.
  destruct (g_sem g1), (g_sem g2).
  - by rewrite ge_occ0, ge_cap0.
  - destruct Hs as [[? Hs] _]; [eauto|done].
  - destruct Hs as [_ [? Hs]]; [eauto|done].
  - done.
Qed.

#[local] Instance guards_proper : Proper (gate_equiv ==> eq ==> eq ==> eq ==> eq) (guards sha256).
Proof.
  intros g1 g2 He env ? <- k ? <- p ? <-. pose proof (slots_full_proper _ _ He k k eq_refl) as Hf.
  destruct He. unfold guards. rewrite Hf.
  unfold check_killed, check_principal_killed, breaker_verdict, check_quota, rate_empty.
  by rewrite ge_kills0, ge_breaker0, ge_buckets0, ge_quotas0, ge_salt0.
Qed.

Lemma reject_salt (g : gate) env k hash c a b d e f st :
  g_salt (fst (reject g env k hash c a b d e f st)) = g_salt g.
Proof.
  unfold reject, Gate_emitDecision, Gate_auditWrite. cbn [fst]. destruct (g_audit _); [|by destruct (g_provenance _)].
  destruct (WriteEvent _ _) as [w [|]]; by destruct (g_provenance _).
Qed.

Lemma Gate_Check_salt (g : gate) env k p : g_salt (fst (Gate_Check sha256 g env k p)) = g_salt g.
Proof.
  assert (Hrel : forall (g0 : gate), g_salt (Gate_release_slot g0 k) = g_salt g0).
  { intros g0. unfold Gate_release_slot. by destruct (g_sem g0). }
  unfold Gate_Check. set (hash := principalHash sha256 p (g_salt g)).
  destruct (check_killed g k); [apply reject_salt|].
  destruct (check_principal_killed g hash); [apply reject_salt|].
  pose proof (check_breaker_behind g env k) as Hb. unfold behind in Hb. injection Hb as _ _ _ _ _ _ Hb.
  destruct (check_breaker g env k) as [g1 [[[[[c a] eff] st] th]|]]; cbn [fst] in Hb;
    [by rewrite reject_salt|].
  assert (Hs : g_salt (fst (check_sem g1 k)) = g_salt g1).
  { unfold check_sem. destruct (g_sem g1); [|done]. by destruct (SemaphoreSet_Acquire _ _). }
  destruct (check_sem g1 k) as [g2 [|]]; cbn [fst] in Hs; [rewrite reject_salt; congruence|].
  assert (Hr : forall h, g_salt (fst (check_rate g2 env k h)) = g_salt g2).
  { intros h. unfold check_rate. destruct (g_buckets g2); [|done]. by destruct (TokenBucketSet_Take _ _ _ _). }
  specialize (Hr hash).
  destruct (check_quota g2 env k p); try (rewrite reject_salt, Hrel; congruence);
    destruct (check_rate g2 env k hash) as [g3 [|]]; cbn [fst] in Hr;
    try (rewrite reject_salt, Hrel; congruence);
    unfold Gate_emitDecision; cbn; destruct (g_provenance g3); cbn; congruence.
Qed.

#[local] Instance Gate_Check_proper :
  Proper (gate_equiv ==> eq ==> eq ==> eq ==> prod_relation gate_equiv eq) (Gate_Check sha256).
Proof.
  intros g1 g2 He env ? <- k ? <- p ? <-.
  assert (Hfb : first_blocking sha256 g1 env k p = first_blocking sha256 g2 env k p).
  { unfold first_blocking. f_equal. by apply guards_proper. }
  pose proof (gate_equiv_sem _ _ He) as Hsome. pose proof He as [].
  pose proof (Gate_Check_answer sha256 g1 env k p ge_wf3) as Hr1.
  pose proof (Gate_Check_answer sha256 g2 env k p ge_wf4) as Hr2.
  split; [|by rewrite Hr1, Hr2, Hfb].
  destruct (Gate_Check_frame sha256 g1 env k p ge_wf3) as (Ho1 & Hc1 & Hb1 & Hbr1 & Hk1 & Hq1).
  destruct (Gate_Check_frame sha256 g2 env k p ge_wf4) as (Ho2 & Hc2 & Hb2 & Hbr2 & Hk2 & Hq2).
  constructor; rewrite ?Gate_Check_salt.
  - by rewrite Hk1, Hk2.
  - by rewrite Hbr1, Hbr2, Hfb, ge_breaker0.
  - by rewrite Hb1, Hb2, Hfb, ge_buckets0, ge_salt0.
  - by rewrite Hq1, Hq2.
  - done.
  - by apply Gate_Check_wf.
  - by apply Gate_Check_wf.
  - intros k'. rewrite Ho1, Ho2, Hfb, ge_occ0. f_equal.
    destruct (first_blocking sha256 g2 env k p); [done|].
    destruct (g_sem g1), (g_sem g2); try done.
    + destruct Hsome as [[? Hs] _]; [eauto|done].
    + destruct Hsome as [_ [? Hs]]; [eauto|done].
  - intros k'. by rewrite Hc1, Hc2.
Qed.

Lemma release_slot_equiv g1 g2 k :
  gate_equiv g1 g2 -> gate_equiv (Gate_release_slot g1 k) (Gate_release_slot g2 k).
Proof.
  intros He. pose proof (gate_equiv_sem _ _ He) as Hsome. destruct He.
  unfold Gate_release_slot, gate_sem_wf, gate_occupancy, gate_cap in *.
  destruct (g_sem g1) as [s1|] eqn:E1, (g_sem g2) as [s2|] eqn:E2.
  - destruct (Release_spec s1 k ge_wf3) as (Ho1 & Hc1 & _).
    destruct (Release_spec s2 k ge_wf4) as (Ho2 & Hc2 & _).
    constructor; unfold gate_sem_wf, gate_occupancy, gate_cap; cbn; try done;
      [apply (sem_call_wf s1 (CallRelease k) ge_wf3)|apply (sem_call_wf s2 (CallRelease k) ge_wf4)| |];
      intros k'; rewrite ?Ho1, ?Ho2, ?Hc1, ?Hc2, ?ge_occ0, ?ge_cap0; done.
  - destruct Hsome as [[? Hs] _]; [eauto|done].
  - destruct Hsome as [_ [? Hs]]; [eauto|done].
  - constructor; unfold gate_sem_wf, gate_occupancy, gate_cap; rewrite ?E1, ?E2; done.
Qed.

Definition run_equiv (s1 s2 : GateRun) : Prop :=
  gate_equiv (gr_gate s1) (gr_gate s2) /\ gr_admissions s1 = gr_admissions s2.

Lemma gate_event_equiv s1 s2 e : run_equiv s1 s2 -> run_equiv (gate_event s1 e) (gate_event s2 e).
Proof.
  intros [Hg Ha]. destruct e as [env k p|i failed now|i]; simpl.
  - pose proof (Gate_Check_proper _ _ Hg env env eq_refl k k eq_refl p p eq_refl) as [He Hr].
    destruct (Gate_Check sha256 (gr_gate s1) env k p), (Gate_Check sha256 (gr_gate s2) env k p).
    cbn in *. subst. split; [done|]. cbn. by rewrite Ha.
  - rewrite Ha. destruct (gr_admissions s2 !! i) as [a|]; [|done]. split; [|done]. cbn.
    unfold Admission_RecordOutcome. destruct Hg. rewrite ge_breaker0.
    destruct (g_breaker (gr_gate s2)) eqn:E; constructor; cbn; congruence || done.
  - rewrite Ha. destruct (gr_admissions s2 !! i) as [a|]; [|done].
    unfold Admission_Release. destruct (adm_held a); [|split; cbn; congruence || done].
    split; cbn; [by apply release_slot_equiv|congruence].
Qed.

(** ** Properties *)

(** C36. No slot leaks and none is given twice: on a gate with a fresh semaphore
    set, after any history of requests, outcomes and releases (double releases
    and releases of foreign indices included) the slots taken for a capability
    are exactly the admissions of it not yet released, and there are never more
    of these than the configured cap. *)
Theorem gate_slots_accounted (g : gate) d es k :
  g_sem g = Some (NewSemaphoreSet d) ->
  let s := run_list gate_event (MkGateRun g []) es in
  gate_occupancy (gr_gate s) k = outstanding k (gr_admissions s) /\
  outstanding k (gr_admissions s) <= (if d <=? 0 then 8 else d).
Proof.
  intros Hg. cbv zeta.
  assert (Hb : balanced (fun _ => if d <=? 0 then 8 else d)
                 (run_list gate_event (MkGateRun g []) es)).
  { apply run_list_invariant; [intros; by apply gate_event_balanced|].
    unfold balanced, gate_sem_wf, gate_occupancy, gate_cap. cbn [gr_gate gr_admissions]. rewrite Hg.
    split; [eauto|]. split; [apply NewSemaphoreSet_wf|]. split; [|done].
    intros k'. unfold occupancy. simpl. by rewrite lookup_empty. }
  destruct Hb as ([ss Hss] & Hwf & Hocc & Hcap). split; [apply Hocc|].
  rewrite <- Hocc, <- (Hcap k). unfold gate_occupancy, gate_cap, gate_sem_wf in *.
  rewrite Hss in *. by apply occupancy_bounds.
Qed.

(** Observers cannot change a decision (R24-6): two gates that differ only
    in the audit writer (whatever it answers), the provenance sink and the
    counters hand out the same admissions over every history, and answer the
    next request alike. *)
Theorem gate_observers_powerless (g : gate) audit sink counters es env k p :
  gate_sem_wf g ->
  let g' := with_counters (with_provenance (with_audit g audit) sink) counters in
  let s := run_list gate_event (MkGateRun g []) es in
  let s' := run_list gate_event (MkGateRun g' []) es in
  gr_admissions s = gr_admissions s' /\
  snd (Gate_Check sha256 (gr_gate s) env k p) = snd (Gate_Check sha256 (gr_gate s') env k p).
Proof.
  intros Hwf. cbv zeta.
  assert (He : forall s1 s2, run_equiv s1 s2 ->
    run_equiv (run_list gate_event s1 es) (run_list gate_event s2 es)).
  { induction es as [|e es IH]; intros s1 s2 He; [done|]. simpl. by apply IH, gate_event_equiv. }
  destruct (He (MkGateRun g []) (MkGateRun
    (with_counters (with_provenance (with_audit g audit) sink) counters) [])) as [Hg Ha].
  { split; [|done]. by constructor. }
  split; [done|]. by apply (Gate_Check_proper _ _ Hg).
Qed.

(** Missing knowledge fails closed: a kill store that is not Ready, failure
    evidence that cannot be read for a breaker that is not tripped, and a quota
    whose usage is missing or incomplete each reject the request. *)
Theorem gate_fails_closed (g : gate) env k p :
  gate_sem_wf g ->
  let r := snd (Gate_Check sha256 g env k p) in
  (forall ks, g_kills g = Some ks -> ks_state ks <> KillStateReady ->
     r = inl (MkReject ActionKilled 0 403)) /\
  (forall bs recent e, g_breaker g = Some bs -> env_failures env = Some recent ->
     cb_state (circuit_of bs k) = BreakerClosed ->
     recent k (Window (bs_cfg bs)) = Err e -> exists rej, r = inl rej) /\
  (forall qs ev def, g_quotas g = Some qs -> env_evidence env = Some ev ->
     QuotaStore_GetDefinition qs k p = Some def ->
     (forall u, ev k p = Ok u -> qu_Complete u = false) -> exists rej, r = inl rej).
Proof.
  intros Hwf. cbv zeta. rewrite Gate_Check_answer by done.
  assert (Hrej : forall v, v ∈ guards sha256 g env k p -> gv_blocks v = true ->
    exists rej, match first_blocking sha256 g env k p with
      | Some v => inl (MkReject (gv_action v) 0 (gv_status v))
      | None => inr (MkAdmission k true) end = inl rej :> Reject + Admission).
  { intros v Hin Hb. unfold first_blocking. destruct (List.find _ _) eqn:E; [by eexists|].
    apply list_elem_of_In in Hin. by rewrite (find_none _ _ E v Hin) in Hb. }
  split; [|split].
  - intros ks Hk Hn. unfold first_blocking, guards, check_killed. rewrite Hk.
    cbn [List.find gv_blocks]. destruct (not_ready_killed ks k Hn) as [-> _]. done.
  - intros bs recent e Hb Hf Hc He. eapply Hrej; [apply list_elem_of_In; do 2 right; left; reflexivity|].
    cbn. unfold breaker_verdict. rewrite Hb, BreakerSet_Evaluate_unfold.
    unfold evaluate_locked. by rewrite Hc, Hf, He.
  - intros qs ev def Hq Hev Hd Hu. eapply Hrej; [apply list_elem_of_In; do 5 right; left; reflexivity|].
    cbn. unfold check_quota. rewrite Hq, Hev, Hd.
    destruct (ev k p) as [u|] eqn:E; [by rewrite (Hu u eq_refl)|done].
Qed.


End GateRun.
Arguments MkGateRun {P Q}.
Arguments gr_gate {P Q}.
Arguments gr_admissions {P Q}.

(** ** Witnesses *)

Definition wit_env (t : Time) : CheckEnv :=
  MkCheckEnv t t t None None "trace-1".

Definition wit_kills : KillStore protectionStore := fst (KillStore_Bootstrap (NewKillStore NewProtectionStore)).

(** One slot per capability, two tokens per bucket, all guards in place. *)
Definition wit_gate : Gate protectionStore MemQuota :=
  New (Some wit_kills) (Some (NewBreakerSet DefaultBreakerConfig)) (Some (NewSemaphoreSet 1))
    (Some (NewTokenBucketSet (MkTokenBucketConfig (f64_of_Z 2) (f64_of_Z 1))))
    (Some (NewQuotaStore (MkMemQuota NewMemQuotaStore empty_keyed)))
    (Some (MkAuditWriter (fun _ _ => None) 0 [])) None (Some "salt") ""
    (Some (NewRecordingProvenanceSink 8)).

Lemma wit_gate_wf : gate_sem_wf wit_gate.
Proof. apply NewSemaphoreSet_wf. Defined.

Lemma gate_guard_order_witness :
  snd (Gate_Check wit_digest wit_gate (wit_env Second) "svc" "alice") = inr (MkAdmission "svc" true).
Proof.
  refine (eq_trans (gate_guard_order wit_digest wit_gate (wit_env Second) "svc" "alice" wit_gate_wf) _).
  vm_compute. reflexivity.
Defined.

Lemma gate_decision_frame_witness :
  gate_occupancy (fst (Gate_Check wit_digest wit_gate (wit_env Second) "svc" "alice")) "svc" = 1.
Proof.
  refine (eq_trans (proj1 (gate_decision_frame wit_digest wit_gate (wit_env Second) "svc" "alice"
    wit_gate_wf) "svc") _).
  vm_compute. reflexivity.
Defined.

Lemma gate_counted_once_witness :
  Admitted_ (Gate_SnapshotMetrics (fst (Gate_Check wit_digest wit_gate (wit_env Second) "svc" "alice"))) = 1.
Proof.
  refine (eq_trans (gate_counted_once wit_digest wit_gate (wit_env Second) "svc" "alice" CtrAdmitted
    wit_gate_wf ltac:(discriminate)) _).
  vm_compute. reflexivity.
Defined.

Lemma gate_decision_evidence_witness :
  exists r, g_provenance (fst (Gate_Check wit_digest wit_gate (wit_env Second) "svc" "alice")) =
    Some (Sink_Emit (NewRecordingProvenanceSink 8) r) /\ dp_Decision r = "admit".
Proof.
  destruct (gate_decision_evidence wit_digest wit_gate (wit_env Second) "svc" "alice"
    (NewRecordingProvenanceSink 8) wit_gate_wf eq_refl) as [(r & Hr & _ & _ & _ & _ & Hd & _) _].
  exists r. split; [exact Hr|]. refine (eq_trans Hd _). vm_compute. reflexivity.
Defined.

Lemma gate_slots_accounted_witness :
  gate_occupancy (gr_gate (run_list (gate_event wit_digest) (MkGateRun wit_gate [])
    [EvCheck (wit_env Second) "svc" "alice"; EvCheck (wit_env Second) "svc" "bob"])) "svc" = 1.
Proof.
  refine (eq_trans (proj1 (gate_slots_accounted wit_digest wit_gate 1
    [EvCheck (wit_env Second) "svc" "alice"; EvCheck (wit_env Second) "svc" "bob"] "svc" eq_refl)) _).
  vm_compute. reflexivity.
Defined.

Lemma gate_observers_powerless_witness :
  gr_admissions (run_list (gate_event wit_digest) (MkGateRun wit_gate [])
      [EvCheck (wit_env Second) "svc" "alice"; EvRelease 0]) =
  gr_admissions (run_list (gate_event wit_digest) (MkGateRun
      (with_counters (with_provenance (with_audit wit_gate
         (Some (MkAuditWriter (fun _ _ => Some "disk full") 0 []))) None) zero_metrics) [])
      [EvCheck (wit_env Second) "svc" "alice"; EvRelease 0]).
Proof.
  exact (proj1 (gate_observers_powerless wit_digest wit_gate
    (Some (MkAuditWriter (fun _ _ => Some "disk full") 0 [])) None zero_metrics
    [EvCheck (wit_env Second) "svc" "alice"; EvRelease 0] (wit_env Second) "svc" "alice" wit_gate_wf)).
Defined.

(** A gate whose kill store was never bootstrapped. *)
Definition wit_gate_unready : Gate protectionStore MemQuota :=
  New (Some (NewKillStore NewProtectionStore)) None (Some (NewSemaphoreSet 1)) None None None None
    (Some "salt") "" None.

Lemma gate_fails_closed_witness :
  snd (Gate_Check wit_digest wit_gate_unready (wit_env Second) "svc" "alice") =
    inl (MkReject ActionKilled 0 403).
Proof.
  exact (proj1 (gate_fails_closed wit_digest wit_gate_unready (wit_env Second) "svc" "alice"
    (NewSemaphoreSet_wf 1)) (NewKillStore NewProtectionStore) eq_refl ltac:(discriminate)).
Defined.
