(* ===== verification/RateHistory.v ===== *)
(** * Rate history (internal/protection/ratehistory.go)

    A bounded, time-ordered buffer of counter snapshots, and the counter deltas
    over a trailing window that declarative alerting reads. *)

From S2P Require Import Prelude GoFloat ProtectionTypes.

(** ** Data *)

Record bucketSample : Type := MkBucketSample { bsm_Time : Time; bsm_Metrics : Metrics }.

Record RateHistory : Type := MkRateHistory {
  rh_window : Duration;
  rh_cap : Z;
  samples : list bucketSample }.

(** ** Operations *)

Definition NewRateHistory (window : Duration) (capacity : Z) : RateHistory :=
  MkRateHistory (if window <=? 0 then Minute else window)
    (if capacity <=? 0 then 120 else capacity) [].

Definition RateHistory_Record (h : RateHistory) (now : Time) (m : Metrics) : RateHistory :=
  let s := samples h ++ [MkBucketSample now m] in
  MkRateHistory (rh_window h) (rh_cap h)
    (if rh_cap h <? Z.of_nat (length s) then drop 1 s else s).

Definition subtractMetrics (a b : Metrics) : Metrics :=
  MkMetrics (wrap64 (Admitted_ a - Admitted_ b)) (wrap64 (Killed a - Killed b))
    (wrap64 (PrincipalKilled a - PrincipalKilled b)) (wrap64 (CircuitOpen a - CircuitOpen b))
    (wrap64 (BreakerUnknownCount a - BreakerUnknownCount b))
    (wrap64 (ConcurrencyExceeded a - ConcurrencyExceeded b))
    (wrap64 (RateLimited a - RateLimited b)) (wrap64 (AuditWriteFailed a - AuditWriteFailed b))
    (wrap64 (QuotaExceededCount a - QuotaExceededCount b))
    (wrap64 (QuotaEvidenceUnavailable a - QuotaEvidenceUnavailable b)).

(** The loop from the newest sample down: the first one at or before [cutoff]. *)
Fixpoint window_start (cutoff : Time) (newest_first : list bucketSample) : option bucketSample :=
  match newest_first with
  | [] => None
  | s :: l => if bsm_Time s <=? cutoff then Some s else window_start cutoff l
  end.

Definition RateHistory_WindowDelta (h : RateHistory) (window : Duration) (now : Time)
  : option Metrics :=
  if Z.of_nat (length (samples h)) <? 2 then None
  else
    let cutoff := now + wrap64 (- window) in
    match window_start cutoff (rev (samples h)), last (samples h) with
    | Some start, Some end_ => Some (subtractMetrics (bsm_Metrics end_) (bsm_Metrics start))
    | _, _ => None
    end.

(** ** Lemmas *)

Lemma window_start_rev cutoff l s :
  window_start cutoff (rev l) = Some s <->
  exists l1 l2, l = l1 ++ s :: l2 /\ bsm_Time s <= cutoff /\
    Forall (fun x => cutoff < bsm_Time x) l2.
Proof.
  induction l as [|x l IH] using rev_ind; simpl.
  { split; [done|]. intros ([|? ?] & ? & ? & _); done. }
  rewrite rev_unit. simpl. destruct (Z.leb_spec (bsm_Time x) cutoff) as [Hx|Hx].
  - split.
    + intros [= <-]. exists l, []. auto.
    + intros (l1 & l2 & Heq & Hs & Hl). destruct l2 as [|y l2 _] using rev_ind.
      * by apply app_inj_tail in Heq as [_ ->].
      * rewrite app_comm_cons, app_assoc in Heq. apply app_inj_tail in Heq as [_ ->].
        apply Forall_app in Hl as [_ Hl]. apply Forall_inv in Hl. simpl in Hl. lia.
  - rewrite IH. split.
    + intros (l1 & l2 & -> & Hs & Hl). exists l1, (l2 ++ [x]). rewrite <- app_assoc.
      split; [done|]. split; [done|]. apply Forall_app. split; [done|by constructor].
    + intros (l1 & l2 & Heq & Hs & Hl). destruct l2 as [|y l2 _] using rev_ind.
      * apply app_inj_tail in Heq as [_ ->]. lia.
      * rewrite app_comm_cons, app_assoc in Heq. apply app_inj_tail in Heq as [-> ->].
        apply Forall_app in Hl as [Hl _]. eauto.
Qed.

(** The samples after recording [rs] are the newest [cap] of them. *)
Definition record_all (h : RateHistory) (rs : list bucketSample) : RateHistory :=
  run_list (fun h s => RateHistory_Record h (bsm_Time s) (bsm_Metrics s)) h rs.

Lemma record_all_samples w c rs :
  0 < c -> record_all (MkRateHistory w c []) rs = MkRateHistory w c (lastn (Z.to_nat c) rs).
Proof.
  intros Hc. unfold record_all. induction rs as [|r rs IH] using rev_ind; [done|].
  rewrite run_list_snoc, IH. unfold RateHistory_Record. cbn [samples rh_cap rh_window].
  f_equal. destruct r as [t m]. cbn [bsm_Time bsm_Metrics].
  rewrite length_app, lastn_length. cbn [length].
  replace (Z.to_nat c) with (S (Z.to_nat c - 1)) at 4 by lia. rewrite lastn_snoc.
  destruct (Z.ltb_spec c (Z.of_nat (Z.to_nat c `min` length rs + 1))).
  - rewrite drop_app_le by (rewrite lastn_length; lia). f_equal.
    apply drop_1_lastn. lia.
  - f_equal. rewrite !lastn_all by lia. done.
Qed.

(** ** Properties *)

(** The window delta: over a history of recorded snapshots the delta is the
    newest snapshot minus the newest retained one at or before the start of the
    window, counter by counter modulo 2^64; it is refused exactly when fewer
    than two snapshots are retained or every retained one lies inside the
    window. *)
Theorem rate_window_delta window cap rs w now :
  let h := record_all (NewRateHistory window cap) rs in
  let kept := lastn (Z.to_nat (rh_cap h)) rs in
  let cutoff := now + wrap64 (- w) in
  samples h = kept /\
  (forall d, RateHistory_WindowDelta h w now = Some d <->
     exists l1 s l2 e, kept = l1 ++ s :: l2 /\ last kept = Some e /\ (2 <= length kept)%nat /\
       bsm_Time s <= cutoff /\ Forall (fun x => cutoff < bsm_Time x) l2 /\
       d = subtractMetrics (bsm_Metrics e) (bsm_Metrics s)) /\
  (RateHistory_WindowDelta h w now = None <->
     (length kept < 2)%nat \/ Forall (fun x => cutoff < bsm_Time x) kept).
Proof.
  cbv zeta. unfold NewRateHistory.
  set (c := if cap <=? 0 then 120 else cap).
  assert (Hc : 0 < c) by (unfold c; destruct (Z.leb_spec cap 0); lia).
  rewrite record_all_samples by done. cbn [rh_cap samples].
  set (kept := lastn (Z.to_nat c) rs). split; [done|].
  unfold RateHistory_WindowDelta. cbn [samples].
  set (cutoff := now + _).
  assert (Hlast : (2 <= length kept)%nat -> is_Some (last kept)).
  { intros Hk. apply last_is_Some. by destruct kept; simpl in *; [lia|]. }
  destruct (Z.ltb_spec (Z.of_nat (length kept)) 2) as [Hlt|Hge].
  { split; [intros d; split; [done|]|split; [intros _; left; lia|done]].
    intros (l1 & s & l2 & e & _ & _ & ? & _). lia. }
  destruct (Hlast ltac:(lia)) as [e He]. rewrite He.
  destruct (window_start cutoff (rev kept)) as [s|] eqn:Hw.
  - pose proof (proj1 (window_start_rev _ _ _) Hw) as (l1 & l2 & Hk & Hs & Hl). split.
    + intros d. split; [intros [= <-]; exists l1, s, l2, e; repeat split; try done; lia|].
      intros (l1' & s' & l2' & e' & Hk' & He' & _ & Hs' & Hl' & ->).
      assert (Hw' : window_start cutoff (rev kept) = Some s') by (apply window_start_rev; eauto).
      congruence.
    + split; [done|]. intros [?|Hall]; [lia|]. rewrite Hk in Hall.
      apply Forall_app in Hall as [_ Hall]. apply Forall_cons in Hall as [? _]. lia.
  - split.
    + intros d. split; [done|]. intros (l1 & s & l2 & e' & Hk & _ & _ & Hs & Hl & _).
      assert (Hw' : window_start cutoff (rev kept) = Some s) by (apply window_start_rev; eauto).
      congruence.
    + split; [|done]. intros _. right. clear - Hw. induction kept as [|x l IH] using rev_ind; [done|].
      rewrite rev_unit in Hw. simpl in Hw. destruct (Z.leb_spec (bsm_Time x) cutoff); [done|].
      apply Forall_app. split; [by apply IH|by constructor].
Qed.
