(* ===== verification/Alerting.v ===== *)
(** * Declarative alerting (internal/protection/alerting.go)

    The alert condition, and the tracker that turns a stream of conditions into
    edge events: a bounded ring in memory, an ordered append to a durable store,
    and the reconstruction of the alert state from that store at start. The
    store is an interface. *)

From S2P Require Import Prelude GoFloat ProtectionTypes RateHistory.

(** ** Data *)

Record AlertPolicy : Type := MkAlertPolicy {
  ap_Window : Duration;
  ThresholdUnknownRate : Z }.

Definition DefaultAlertPolicy : AlertPolicy := MkAlertPolicy Minute 50.

Record AlertCondition : Type := MkAlertCondition {
  ac_Firing : bool;
  ac_UnknownRate : Z;
  ac_Threshold : Z;
  ac_Window : Duration }.

Definition ComputeAlertCondition (delta : Metrics) (policy : AlertPolicy) : AlertCondition :=
  let unknown := wrap64 (BreakerUnknownCount delta + QuotaEvidenceUnavailable delta) in
  MkAlertCondition
    ((0 <? ThresholdUnknownRate policy) && (ThresholdUnknownRate policy <=? unknown))
    unknown (ThresholdUnknownRate policy) (ap_Window policy).

Record AlertState : Type := MkAlertState {
  as_Firing : bool;
  as_Since : Time;
  as_UnknownRate : Z;
  as_Threshold : Z;
  as_Window : Duration }.

Definition TransitionHistoryCapacity : Z := 256.

Record AlertTransition : Type := MkAlertTransition {
  at_At : Time;
  at_From : bool;
  at_To : bool;
  at_UnknownRate : Z;
  at_Threshold : Z }.

(** The part of a load that the tracker reads. *)
Record TransitionLoadResult : Type := MkTransitionLoadResult {
  tl_Transitions : list AlertTransition;
  tl_FileDropped : Z;
  tl_RetentionMetaInconsistent : bool;
  tl_Corrupt : bool;
  tl_LoadErr : option error }.

Class AlertTransitionStore (S : Type) := {
  store_Append : S -> AlertTransition -> S * option error;
  store_Load : S -> TransitionLoadResult }.

Record TransitionHistoryStats : Type := MkTransitionHistoryStats {
  ths_Capacity : Z;
  ths_Retained : Z;
  ths_Dropped : Z;
  ths_Truncated : bool;
  ths_FileDropped : Z;
  ths_RetentionMetaInconsistent : bool;
  ths_Available : bool;
  ths_LoadError : bool;
  ths_HistoryCorrupt : bool }.

Record AlertTracker (S : Type) : Type := MkAlertTracker {
  firing : bool;
  since : Time;
  lastUnknown : Z;
  lastThreshold : Z;
  lastWindow : Duration;
  transitions : list AlertTransition;
  historyDropped : Z;
  at_store : option S;
  historyLoaded : bool;
  loadError : bool;
  historyCorrupt : bool;
  retentionMetaInconsistent : bool;
  fileDropped : Z }.
Arguments MkAlertTracker {S}.
Arguments firing {S}.
Arguments since {S}.
Arguments lastUnknown {S}.
Arguments lastThreshold {S}.
Arguments lastWindow {S}.
Arguments transitions {S}.
Arguments historyDropped {S}.
Arguments at_store {S}.
Arguments historyLoaded {S}.
Arguments loadError {S}.
Arguments historyCorrupt {S}.
Arguments retentionMetaInconsistent {S}.
Arguments fileDropped {S}.

Section Alerting.
Context {S : Type} `{AlertTransitionStore S}.

#[local] Abbreviation tracker := (AlertTracker S).

(** ** Operations *)

Definition empty_tracker (store : option S) (loaded err corrupt meta : bool) (fd : Z)
    (fire : bool) (ts : list AlertTransition) : tracker :=
  MkAlertTracker fire zero_time 0 0 0 ts 0 store loaded err corrupt meta fd.

Definition NewAlertTrackerWithStore (store : option S) : tracker :=
  match store with
  | None => empty_tracker None true false false false 0 false []
  | Some s =>
      let res := store_Load s in
      if (if tl_LoadErr res is Some _ then true else false) || tl_Corrupt res then
        empty_tracker store false (if tl_LoadErr res is Some _ then true else false)
          (tl_Corrupt res) false 0 false []
      else
        match last (tl_Transitions res) with
        | None =>
            empty_tracker store true false false (tl_RetentionMetaInconsistent res)
              (tl_FileDropped res) false []
        | Some l =>
            empty_tracker store true false false (tl_RetentionMetaInconsistent res)
              (tl_FileDropped res) (at_To l)
              (lastn (Z.to_nat TransitionHistoryCapacity) (tl_Transitions res))
        end
  end.

Definition NewAlertTracker : tracker := NewAlertTrackerWithStore None.

Definition with_state (t : tracker) (f : bool) (s : Time) : tracker :=
  MkAlertTracker f s (lastUnknown t) (lastThreshold t) (lastWindow t) (transitions t)
    (historyDropped t) (at_store t) (historyLoaded t) (loadError t) (historyCorrupt t)
    (retentionMetaInconsistent t) (fileDropped t).

(** The last inputs, and [historyLoaded]. *)
Definition with_last (t : tracker) (cond : AlertCondition) (loaded : bool) : tracker :=
  MkAlertTracker (firing t) (since t) (ac_UnknownRate cond) (ac_Threshold cond) (ac_Window cond)
    (transitions t) (historyDropped t) (at_store t) loaded (loadError t) (historyCorrupt t)
    (retentionMetaInconsistent t) (fileDropped t).

Definition pushTransitionLocked (t : tracker) (tr : AlertTransition) : tracker :=
  let full := TransitionHistoryCapacity <=? Z.of_nat (length (transitions t)) in
  MkAlertTracker (firing t) (since t) (lastUnknown t) (lastThreshold t) (lastWindow t)
    ((if full then drop 1 (transitions t) else transitions t) ++ [tr])
    (if full then wrap64 (historyDropped t + 1) else historyDropped t)
    (at_store t) (historyLoaded t) (loadError t) (historyCorrupt t)
    (retentionMetaInconsistent t) (fileDropped t).

(** The append to the store is best effort: its error is dropped. *)
Definition recordEdgeLocked (t : tracker) (now : Time) (from to_ : bool) (cond : AlertCondition)
  : tracker :=
  let tr := MkAlertTransition now from to_ (ac_UnknownRate cond) (ac_Threshold cond) in
  let t := pushTransitionLocked t tr in
  match at_store t with
  | Some s =>
      if historyLoaded t then
        MkAlertTracker (firing t) (since t) (lastUnknown t) (lastThreshold t) (lastWindow t)
          (transitions t) (historyDropped t) (Some (fst (store_Append s tr))) (historyLoaded t)
          (loadError t) (historyCorrupt t) (retentionMetaInconsistent t) (fileDropped t)
      else t
  | None => t
  end.

Definition stateLocked (t : tracker) : AlertState :=
  MkAlertState (firing t) (since t) (lastUnknown t) (lastThreshold t) (lastWindow t).

Definition AlertTracker_Observe (t : tracker) (cond : AlertCondition) (now : Time)
  : tracker * AlertState :=
  let t' :=
    if (if at_store t is Some _ then true else false) && (loadError t || historyCorrupt t)
       && negb (historyLoaded t) then
      with_last (with_state t (ac_Firing cond) (if ac_Firing cond then now else zero_time)) cond true
    else
      let t1 :=
        if ac_Firing cond && negb (firing t) then
          recordEdgeLocked (with_state t true now) now false true cond
        else if negb (ac_Firing cond) && firing t then
          recordEdgeLocked (with_state t false zero_time) now true false cond
        else t in
      with_last t1 cond (historyLoaded t1) in
  (t', stateLocked t').

Definition AlertTracker_State (t : tracker) : AlertState := stateLocked t.

Definition AlertTracker_Transitions (t : tracker) : list AlertTransition := rev (transitions t).

Definition AlertTracker_HistoryStats (t : tracker) : TransitionHistoryStats :=
  MkTransitionHistoryStats TransitionHistoryCapacity (Z.of_nat (length (transitions t)))
    (historyDropped t)
    ((0 <? historyDropped t) || (0 <? fileDropped t) || retentionMetaInconsistent t)
    (fileDropped t) (retentionMetaInconsistent t)
    (historyLoaded t && negb (loadError t) && negb (historyCorrupt t))
    (loadError t) (historyCorrupt t).

(** One turn of the feeder loop of cmd/opscore: without a confident delta the
    tracker is not told anything. *)
Definition feeder_tick (h : RateHistory) (t : tracker) (policy : AlertPolicy) (now : Time)
    (metrics : Metrics) : RateHistory * tracker :=
  let h := RateHistory_Record h now metrics in
  match RateHistory_WindowDelta h (ap_Window policy) now with
  | None => (h, t)
  | Some delta => (h, fst (AlertTracker_Observe t (ComputeAlertCondition delta policy) now))
  end.

(** ** Specification: the edges of a stream of conditions *)

Fixpoint edges (f : bool) (obs : list (AlertCondition * Time)) : list AlertTransition :=
  match obs with
  | [] => []
  | (c, now) :: obs' =>
      (if Bool.eqb (ac_Firing c) f then []
       else [MkAlertTransition now f (ac_Firing c) (ac_UnknownRate c) (ac_Threshold c)])
      ++ edges (ac_Firing c) obs'
  end.

(** Each edge starts where the previous one ended. *)
Fixpoint alternating (f : bool) (l : list AlertTransition) : Prop :=
  match l with
  | [] => True
  | e :: l' => at_From e = f /\ at_To e = negb f /\ alternating (negb f) l'
  end.

Definition firing_after (f : bool) (obs : list (AlertCondition * Time)) : bool :=
  match last obs with Some (c, _) => ac_Firing c | None => f end.

Definition observe (t : tracker) (o : AlertCondition * Time) : tracker :=
  fst (AlertTracker_Observe t (fst o) (snd o)).

(** ** Lemmas *)

Lemma edges_app f o1 o2 : edges f (o1 ++ o2) = edges f o1 ++ edges (firing_after f o1) o2.
Proof.
  revert f. induction o1 as [|[c t] o1 IH]; intros f; [done|]. simpl. rewrite IH, app_assoc.
  do 2 f_equal. unfold firing_after. rewrite last_cons. by destruct (last o1) as [[? ?]|].
Qed.

Lemma edges_alternate f obs : alternating f (edges f obs).
Proof.
  revert f. induction obs as [|[c t] obs IH]; intros f; [done|]. simpl.
  destruct (Bool.eqb (ac_Firing c) f) eqn:E; simpl.
  - apply Bool.eqb_prop in E as ->. apply IH.
  - assert (ac_Firing c = negb f) as -> by (by destruct (ac_Firing c), f). auto.
Qed.

(** The durable log after appending [ts] to [s], errors ignored. *)
Definition append_all (s : S) (ts : list AlertTransition) : S :=
  run_list (fun s t => fst (store_Append s t)) s ts.

(** A tracker past its baseline, seen as a function of what was recorded. *)
Record tracking (t : tracker) (f : bool) (ring0 es : list AlertTransition) (store0 : option S)
  : Prop := MkTracking {
  tr_firing : firing t = f;
  tr_loaded : historyLoaded t = true;
  tr_ring : transitions t = lastn (Z.to_nat TransitionHistoryCapacity) (ring0 ++ es);
  tr_dropped : historyDropped t =
    wrap64 (Z.of_nat (length (ring0 ++ es) - Z.to_nat TransitionHistoryCapacity));
  tr_store : at_store t = (fun s => append_all s es) <$> store0 }.

Lemma recordEdge_tracking t f ring0 es store0 now from to_ cond s' :
  tracking t f ring0 es store0 ->
  tracking (with_last (recordEdgeLocked (with_state t to_ s') now from to_ cond) cond true)
    to_ ring0 (es ++ [MkAlertTransition now from to_ (ac_UnknownRate cond) (ac_Threshold cond)]) store0.
Proof.
  intros [Hf Hl Hr Hd Hs]. set (tr := MkAlertTransition _ _ _ _ _).
  assert (Hring : (if TransitionHistoryCapacity <=? Z.of_nat (length (transitions t))
      then drop 1 (transitions t) else transitions t) ++ [tr] =
      lastn (Z.to_nat TransitionHistoryCapacity) (ring0 ++ es ++ [tr])).
  { rewrite Hr, lastn_length, app_assoc. unfold TransitionHistoryCapacity.
    change (Z.to_nat 256) with (1 + 255)%nat. rewrite lastn_snoc.
    destruct (Z.leb_spec 256 (Z.of_nat ((1 + 255) `min` length (ring0 ++ es)))).
    - rewrite drop_1_lastn by lia. done.
    - by rewrite !lastn_all by lia. }
  assert (Hdr : (if TransitionHistoryCapacity <=? Z.of_nat (length (transitions t))
      then wrap64 (historyDropped t + 1) else historyDropped t) =
      wrap64 (Z.of_nat (length (ring0 ++ es ++ [tr]) - Z.to_nat TransitionHistoryCapacity))).
  { rewrite Hr, Hd, lastn_length, (app_assoc ring0), (length_app _ [tr]).
    unfold TransitionHistoryCapacity. cbn [length].
    destruct (Z.leb_spec 256 (Z.of_nat (Z.to_nat 256 `min` length (ring0 ++ es)))).
    - rewrite wrap64_wrap_l. f_equal. lia.
    - f_equal. lia. }
  unfold recordEdgeLocked, pushTransitionLocked, with_last, with_state. cbn.
  rewrite Hs, Hl. unfold append_all. destruct store0 as [s|]; cbn;
    (constructor; cbn; [done|done|exact Hring|exact Hdr|]); [|done].
  do 2 f_equal. unfold append_all, run_list. by rewrite foldl_app.
Qed.

Lemma observe_tracking t f ring0 es store0 o :
  tracking t f ring0 es store0 ->
  tracking (observe t o) (ac_Firing (fst o)) ring0 (es ++ edges f [o]) store0.
Proof.
  intros Ht. pose proof Ht as [Hf Hl Hr Hd Hs]. destruct o as [c now].
  unfold observe, AlertTracker_Observe. cbn [fst snd edges].
  rewrite Hl, andb_false_r. cbn [negb]. rewrite app_nil_r, Hf.
  assert (Hkeep : forall b s b' b'', historyLoaded (recordEdgeLocked (with_state t b s) now b' b'' c) = true).
  { intros b s b' b''. unfold recordEdgeLocked, pushTransitionLocked. cbn. by destruct (at_store t); rewrite ?Hl. }
  destruct (ac_Firing c) eqn:Ec, f; cbn -[recordEdgeLocked with_state with_last].
  - rewrite app_nil_r. constructor; cbn; done.
  - rewrite Hkeep. by eapply recordEdge_tracking.
  - rewrite Hkeep. by eapply recordEdge_tracking.
  - rewrite app_nil_r. constructor; cbn; done.
Qed.

Lemma observe_all_tracking t f ring0 es store0 obs :
  tracking t f ring0 es store0 ->
  tracking (run_list observe t obs) (firing_after f obs) ring0 (es ++ edges f obs) store0.
Proof.
  revert t f es. induction obs as [|o obs IH]; intros t f es Ht; simpl.
  { by rewrite app_nil_r. }
  apply observe_tracking with (o := o), IH in Ht. destruct o as [c now].
  rewrite <- app_assoc in Ht. cbn [edges fst] in Ht. rewrite app_nil_r in Ht.
  unfold firing_after in *. rewrite last_cons. by destruct (last obs) as [[? ?]|].
Qed.

(** A load that is neither an error nor corrupt. *)
Definition clean (r : TransitionLoadResult) : Prop := tl_LoadErr r = None /\ tl_Corrupt r = false.

Definition last_state (ts : list AlertTransition) : bool :=
  match last ts with Some l => at_To l | None => false end.

Lemma new_tracking s :
  clean (store_Load s) ->
  tracking (NewAlertTrackerWithStore (Some s)) (last_state (tl_Transitions (store_Load s)))
    (lastn (Z.to_nat TransitionHistoryCapacity) (tl_Transitions (store_Load s))) [] (Some s).
Proof.
  intros [He Hc]. unfold NewAlertTrackerWithStore, last_state. rewrite He, Hc. cbn [orb].
  set (ts := tl_Transitions (store_Load s)).
  assert (Hlen : (length (lastn (Z.to_nat TransitionHistoryCapacity) ts ++ []) <= 256)%nat).
  { rewrite app_nil_r, lastn_length. unfold TransitionHistoryCapacity. lia. }
  assert (Hring : lastn (Z.to_nat TransitionHistoryCapacity)
      (lastn (Z.to_nat TransitionHistoryCapacity) ts ++ []) = lastn (Z.to_nat TransitionHistoryCapacity) ts).
  { rewrite lastn_all; [by rewrite app_nil_r|]. unfold TransitionHistoryCapacity in *. lia. }
  assert (Hdr : wrap64 (Z.of_nat (length (lastn (Z.to_nat TransitionHistoryCapacity) ts ++ [])
      - Z.to_nat TransitionHistoryCapacity)) = 0).
  { replace (_ - _)%nat with 0%nat; [done|]. unfold TransitionHistoryCapacity in *. lia. }
  destruct (last ts) as [l|] eqn:El; constructor; cbn -[Z.to_nat lastn wrap64]; try done.
  apply last_None in El. rewrite El in *. by rewrite <- Hring.
Qed.

Lemma new_memory_tracking :
  tracking NewAlertTracker false [] [] None.
Proof. by constructor. Qed.

Lemma observe_flags (t : tracker) o :
  loadError (observe t o) = loadError t /\ historyCorrupt (observe t o) = historyCorrupt t /\
  fileDropped (observe t o) = fileDropped t /\
  retentionMetaInconsistent (observe t o) = retentionMetaInconsistent t.
Proof.
  destruct o as [c now]. unfold observe, AlertTracker_Observe. cbn [fst snd].
  destruct (_ && _ && negb (historyLoaded t)); [done|].
  destruct (ac_Firing c && negb (firing t)); [|destruct (negb (ac_Firing c) && firing t); [|done]];
    unfold recordEdgeLocked, pushTransitionLocked; cbn;
    destruct (at_store t); try done; by destruct (historyLoaded t).
Qed.

Lemma observe_all_flags (t : tracker) obs :
  loadError (run_list observe t obs) = loadError t /\
  historyCorrupt (run_list observe t obs) = historyCorrupt t /\
  fileDropped (run_list observe t obs) = fileDropped t /\
  retentionMetaInconsistent (run_list observe t obs) = retentionMetaInconsistent t.
Proof.
  apply (run_list_invariant observe (fun t' => loadError t' = loadError t /\
    historyCorrupt t' = historyCorrupt t /\ fileDropped t' = fileDropped t /\
    retentionMetaInconsistent t' = retentionMetaInconsistent t)); [|done].
  intros t' o (H1 & H2 & H3 & H4). destruct (observe_flags t' o) as (-> & -> & -> & ->). done.
Qed.

Lemma firing_after_edges f obs :
  firing_after f obs = match last (edges f obs) with Some l => at_To l | None => f end.
Proof.
  revert f. induction obs as [|[c t] obs IH]; intros f; [done|]. cbn [edges].
  assert (Hstep : firing_after f ((c, t) :: obs) = firing_after (ac_Firing c) obs).
  { unfold firing_after. rewrite last_cons. by destruct (last obs) as [[? ?]|]. }
  rewrite Hstep, IH, last_app.
  destruct (last (edges (ac_Firing c) obs)); [done|].
  destruct (Bool.eqb (ac_Firing c) f) eqn:E; [by apply Bool.eqb_prop in E|done].
Qed.

(** ** Properties *)

(** The in-memory tracker records edges and nothing else: over any stream
    of observed conditions the alert state is the last condition's, the ring
    shows the newest 256 edges of the stream newest first, edges alternate
    starting with a rising one, and dropped plus retained is the number of edges,
    [Truncated] exactly when some were dropped. *)
Theorem alert_history_exact obs :
  Z.of_nat (length obs) <= max_int64 ->
  let t := run_list observe NewAlertTracker obs in
  let es := edges false obs in
  as_Firing (AlertTracker_State t) = firing_after false obs /\
  AlertTracker_Transitions t = rev (lastn 256 es) /\
  alternating false es /\
  ths_Dropped (AlertTracker_HistoryStats t) + ths_Retained (AlertTracker_HistoryStats t) =
    Z.of_nat (length es) /\
  (ths_Truncated (AlertTracker_HistoryStats t) = true <-> (256 < length es)%nat) /\
  ths_Available (AlertTracker_HistoryStats t) = true.
Proof.
  intros Hlen. cbv zeta.
  pose proof (observe_all_tracking _ _ _ _ _ obs new_memory_tracking) as [Hf Hl Hr Hd _].
  destruct (observe_all_flags NewAlertTracker obs) as (He & Hc & Hfd & Hm). cbn [app] in *.
  assert (Hle : (length (edges false obs) <= length obs)%nat).
  { generalize false. clear. induction obs as [|[c t] obs IH]; intros f; simpl; [lia|].
    rewrite length_app. specialize (IH (ac_Firing c)). destruct (Bool.eqb _ _); simpl; lia. }
  change (Z.to_nat TransitionHistoryCapacity) with 256%nat in *.
  assert (Hdr : wrap64 (Z.of_nat (length (edges false obs) - 256)) = Z.of_nat (length (edges false obs) - 256)).
  { apply wrap64_id. unfold in_int64, min_int64, max_int64 in *. lia. }
  rewrite Hdr in Hd. split; [done|]. unfold AlertTracker_Transitions. rewrite Hr.
  split; [done|]. split; [apply edges_alternate|].
  unfold AlertTracker_HistoryStats. cbn [ths_Dropped ths_Retained ths_Truncated ths_Available].
  rewrite Hr, Hd, lastn_length, Hfd, Hm, Hl, He, Hc.
  split; [lia|]. split; [|done].
  change (fileDropped NewAlertTracker) with 0. change (retentionMetaInconsistent NewAlertTracker) with false.
  rewrite !orb_false_r, Z.ltb_lt. lia.
Qed.

(** Restart reconstruction (P30-I7): after any observations on a tracker
    whose store loads cleanly and keeps every append, a tracker built anew from
    the store has the same alert state and the newest 256 durable edges, and
    the condition in force at the restart records no edge when observed again. *)
Theorem alert_restart s obs cond now :
  clean (store_Load s) ->
  let t := run_list observe (NewAlertTrackerWithStore (Some s)) obs in
  let log := tl_Transitions (store_Load s) ++ edges (last_state (tl_Transitions (store_Load s))) obs in
  (forall s', at_store t = Some s' ->
     clean (store_Load s') /\ tl_Transitions (store_Load s') = log) ->
  let t' := NewAlertTrackerWithStore (at_store t) in
  firing t' = firing t /\ transitions t' = lastn 256 log /\
  (ac_Firing cond = firing t ->
     transitions (observe t' (cond, now)) = transitions t' /\ at_store (observe t' (cond, now)) = at_store t').
Proof.
  intros Hcl. cbv zeta. intros Hst.
  pose proof (observe_all_tracking _ _ _ _ _ obs (new_tracking s Hcl)) as [Hf Hl Hr Hd Hs].
  cbn [app fmap option_fmap option_map] in Hs.
  destruct (Hst _ Hs) as [Hcl' Hlog]. rewrite Hs.
  set (s' := append_all s _) in *.
  pose proof (new_tracking s' Hcl') as Ht'. pose proof Ht' as [Hf' _ Hr' _ Hs'].
  rewrite app_nil_r, Hlog in Hr'. rewrite Hlog in Hf'.
  assert (Hfire : firing (NewAlertTrackerWithStore (Some s')) =
    firing (run_list observe (NewAlertTrackerWithStore (Some s)) obs)).
  { rewrite Hf', Hf, firing_after_edges. unfold last_state at 1. rewrite last_app.
    by destruct (last (edges _ obs)). }
  split; [done|]. split; [rewrite Hr'; apply lastn_all; rewrite lastn_length; unfold TransitionHistoryCapacity; lia|].
  intros Hc. unfold observe, AlertTracker_Observe. cbn [fst snd].
  destruct Ht' as [_ Hl' _ _ _]. rewrite Hl', andb_false_r. cbn [fst].
  rewrite Hc, <- Hfire. destruct (firing (NewAlertTrackerWithStore (Some s'))); done.
Qed.

(** A failed or corrupt load never invents history (P30-I11, P30-I12): the
    first observation only sets the baseline, with no edge in the ring and
    nothing appended to the store; later edges are those of the stream from that
    baseline on, and the history is never again presented as available. *)
Theorem alert_failed_load s cond now obs :
  ~ clean (store_Load s) ->
  let t := run_list observe (NewAlertTrackerWithStore (Some s)) ((cond, now) :: obs) in
  let es := edges (ac_Firing cond) obs in
  firing t = firing_after (ac_Firing cond) obs /\
  AlertTracker_Transitions t = rev (lastn 256 es) /\
  at_store t = Some (append_all s es) /\
  ths_Available (AlertTracker_HistoryStats t) = false.
Proof.
  intros Hn. cbv zeta. set (t0 := NewAlertTrackerWithStore (Some s)).
  assert (Ht0 : t0 = empty_tracker (Some s) false (if tl_LoadErr (store_Load s) is Some _ then true else false)
      (tl_Corrupt (store_Load s)) false 0 false [] /\
    (if tl_LoadErr (store_Load s) is Some _ then true else false) || tl_Corrupt (store_Load s) = true).
  { unfold t0, NewAlertTrackerWithStore, clean in *.
    destruct (tl_LoadErr (store_Load s)), (tl_Corrupt (store_Load s)); try done. by destruct Hn. }
  destruct Ht0 as [Ht0 Hbad].
  assert (Hb : tracking (observe t0 (cond, now)) (ac_Firing cond) [] [] (Some s)).
  { rewrite Ht0. unfold observe, AlertTracker_Observe. cbn. rewrite Hbad. cbn. by constructor. }
  change (run_list observe t0 ((cond, now) :: obs)) with (run_list observe (observe t0 (cond, now)) obs).
  destruct (observe_all_flags (observe t0 (cond, now)) obs) as (He & Hc & _ & _).
  destruct (observe_flags t0 (cond, now)) as (He0 & Hc0 & _ & _).
  pose proof (observe_all_tracking _ _ _ _ _ obs Hb) as [Hf Hl Hr _ Hs]. cbn [app] in *.
  split; [done|]. unfold AlertTracker_Transitions. rewrite Hr. split; [done|]. split; [done|].
  unfold AlertTracker_HistoryStats. cbn [ths_Available].
  rewrite Hl, He, Hc, He0, Hc0, Ht0. cbn. by rewrite <- negb_orb, Hbad.
Qed.

End Alerting.

(** ** Witnesses: a store that keeps every append, and one that cannot be read *)

Record LogStore : Type := MkLogStore { ls_log : list AlertTransition; ls_err : option error }.

Definition LogStore_Append (s : LogStore) (t : AlertTransition) : LogStore * option error :=
  (MkLogStore (ls_log s ++ [t]) (ls_err s), None).

Definition LogStore_Load (s : LogStore) : TransitionLoadResult :=
  MkTransitionLoadResult (ls_log s) 0 false false (ls_err s).

#[export] Instance LogStore_store : AlertTransitionStore LogStore := {
  store_Append := LogStore_Append; store_Load := LogStore_Load }.

Definition wit_fire : AlertCondition := MkAlertCondition true 60 50 Minute.
Definition wit_calm : AlertCondition := MkAlertCondition false 0 50 Minute.
Definition wit_obs : list (AlertCondition * Time) :=
  [(wit_calm, 1); (wit_fire, 2); (wit_fire, 3); (wit_calm, 4); (wit_fire, 5)].

Lemma alert_history_exact_witness :
  ths_Dropped (AlertTracker_HistoryStats (run_list observe (NewAlertTracker (S := LogStore)) wit_obs)) +
  ths_Retained (AlertTracker_HistoryStats (run_list observe (NewAlertTracker (S := LogStore)) wit_obs)) = 3.
Proof.
  assert (H : Z.of_nat (length wit_obs) <= max_int64) by (unfold max_int64; simpl; lia).
  destruct (alert_history_exact (S := LogStore) wit_obs H) as (_ & _ & _ & Hd & _).
  refine (eq_trans Hd _). vm_compute. reflexivity.
Defined.

Lemma alert_restart_witness :
  firing (NewAlertTrackerWithStore (at_store (run_list observe
    (NewAlertTrackerWithStore (Some (MkLogStore [] None))) wit_obs))) = true.
Proof.
  assert (Hst : forall s', at_store (run_list observe
      (NewAlertTrackerWithStore (Some (MkLogStore [] None))) wit_obs) = Some s' ->
      clean (store_Load s') /\ tl_Transitions (store_Load s') =
      tl_Transitions (store_Load (MkLogStore [] None)) ++
      edges (last_state (tl_Transitions (store_Load (MkLogStore [] None)))) wit_obs).
  { intros s' [= <-]. split; [split|]; vm_compute; reflexivity. }
  refine (eq_trans (proj1 (alert_restart (MkLogStore [] None) wit_obs wit_fire 9
    (conj eq_refl eq_refl) Hst)) _).
  vm_compute. reflexivity.
Defined.

Lemma alert_failed_load_witness :
  AlertTracker_Transitions (run_list observe
    (NewAlertTrackerWithStore (Some (MkLogStore [] (Some "permission denied"))))
    [(wit_fire, 1); (wit_fire, 2)]) = [].
Proof.
  assert (H : ~ clean (store_Load (MkLogStore [] (Some "permission denied")))).
  { intros [H _]. discriminate H. }
  exact (proj1 (proj2 (alert_failed_load (MkLogStore [] (Some "permission denied")) wit_fire 1
    [(wit_fire, 2)] H))).
Defined.
