(* ===== verification/Governance.v ===== *)
(** * Policy evaluation (internal/governance)

    The stateless engine: rules in a stable order (priority descending, then
    rule id ascending), the first that matches decides, Allow by default. *)

From S2P Require Import Prelude.

(** ** Data (model.go) *)

Definition Allow : string := "allow".
Definition Deny : string := "deny".
Definition RequireApproval : string := "require-approval".
Definition MaintenanceBlocked : string := "maintenance-blocked".

Definition RuleMaintenanceWindow : string := "maintenance-window".
Definition RuleChangeFreeze : string := "change-freeze".
Definition RuleRequireApproval : string := "require-approval".
Definition RuleTenantScope : string := "tenant-scope".
Definition RuleGroupAllow : string := "group-allow".

Record Verdict : Type := MkVerdict {
  v_Code : string;
  v_Reason : string;
  v_PolicyID : string;
  v_RuleID : string;
  v_MatchedPolicy : string;
  v_MatchedRule : string;
  v_Priority : Z;
  v_Evidence : gmap string string }.

Record Rule : Type := MkRule {
  RuleID : string;
  Priority : Z;
  Kind : string;
  Param : string }.

#[export] Instance Rule_eq_dec : EqDecision Rule.
Proof. solve_decision. Defined.

Record Policy : Type := MkPolicy { pol_PolicyID : string; pol_Rules : list Rule }.

Record State : Type := MkState {
  PluginID : string;
  RuntimeID : string;
  Group : string;
  ExecutionID : string;
  Tenant : string;
  InMaintenanceWindow : bool;
  ChangeFreeze : bool;
  RequiresApproval : bool }.

(** ** Operations (governance.go, errors.go) *)

Definition ErrPolicyEmpty : error := "governance: policy has empty PolicyID".

Definition ValidatePolicy (p : Policy) : option error :=
  if decide (pol_PolicyID p = "") then Some ErrPolicyEmpty else None.

Definition evalRule (r : Rule) (s : State) : string * bool * string :=
  let none := (Allow, false, "") in
  if decide (Kind r = RuleMaintenanceWindow) then
    if InMaintenanceWindow s then (MaintenanceBlocked, true, "maintenance window active") else none
  else if decide (Kind r = RuleChangeFreeze) then
    if ChangeFreeze s then (Deny, true, "change freeze active") else none
  else if decide (Kind r = RuleRequireApproval) then
    if RequiresApproval s then (RequireApproval, true, "action requires approval") else none
  else if decide (Kind r = RuleTenantScope) then
    if bool_decide (Param r <> "") && bool_decide (Tenant s <> Param r)
    then (Deny, true, "tenant out of scope") else none
  else if decide (Kind r = RuleGroupAllow) then
    if bool_decide (Param r <> "") && bool_decide (Group s = Param r)
    then (Allow, true, "group allowed") else none
  else none.

(** [if v != "" { ev[k] = v }] *)
Definition put_nonempty (k v : string) (ev : gmap string string) : gmap string string :=
  if decide (v = "") then ev else <[k := v]> ev.

Definition buildEvidence (r : Rule) (s : State) : gmap string string :=
  let ev := {[ "ruleKind" := Kind r ]} in
  let ev := put_nonempty "param" (Param r) ev in
  let ev := put_nonempty "plugin" (PluginID s) ev in
  let ev := put_nonempty "runtime" (RuntimeID s) ev in
  let ev := put_nonempty "group" (Group s) ev in
  let ev := put_nonempty "tenant" (Tenant s) ev in
  put_nonempty "execution" (ExecutionID s) ev.

(** The comparator handed to [sort.SliceStable]. *)
Definition rule_less (a b : Rule) : bool :=
  if negb (Priority a =? Priority b) then Priority b <? Priority a
  else string_ltb (RuleID a) (RuleID b).

(** The loop: the first rule that matches. *)
Fixpoint first_match (policyID : string) (rules : list Rule) (s : State) : option Verdict :=
  match rules with
  | [] => None
  | r :: rules' =>
      match evalRule r s with
      | (code, true, reason) =>
          Some (MkVerdict code reason policyID (RuleID r) policyID (RuleID r) (Priority r)
                  (buildEvidence r s))
      | _ => first_match policyID rules' s
      end
  end.

Definition Engine_Evaluate (policy : Policy) (s : State) : Verdict :=
  if decide (pol_PolicyID policy = "") then
    MkVerdict Allow "empty policy" "" "" "" "" 0
      (<["default" := "allow"]> {[ "note" := "empty-policy" ]})
  else
    match first_match (pol_PolicyID policy) (sort_slice rule_less (pol_Rules policy)) s with
    | Some v => v
    | None =>
        MkVerdict Allow "no rule matched" (pol_PolicyID policy) "" "" "" 0 {[ "default" := "allow" ]}
    end.

(** ** Specification *)

Definition matches (s : State) (r : Rule) : bool := snd (fst (evalRule r s)).

Definition verdict_of (policyID : string) (s : State) (r : Rule) : Verdict :=
  MkVerdict (fst (fst (evalRule r s))) (snd (evalRule r s)) policyID (RuleID r) policyID (RuleID r)
    (Priority r) (buildEvidence r s).

(** [r] goes before [r'] or ties with it. *)
Definition outranks (r r' : Rule) : Prop :=
  Priority r' < Priority r \/ Priority r' = Priority r /\ string_ltb (RuleID r') (RuleID r) = false.

(** ** Lemmas *)

Lemma rule_less_asym a b : rule_less a b = true -> rule_less b a = false.
Proof.
  unfold rule_less. rewrite (Z.eqb_sym (Priority b)).
  destruct (Z.eqb_spec (Priority a) (Priority b)); simpl; [apply string_ltb_asym|].
  intros ?%Z.ltb_lt. apply Z.ltb_ge. lia.
Qed.

Lemma rule_less_outranks a b : rule_less b a = false <-> outranks a b.
Proof.
  unfold rule_less, outranks. destruct (Z.eqb_spec (Priority b) (Priority a)); simpl.
  - split; [intros; by right|]. intros [?|[_ ?]]; [lia|done].
  - rewrite Z.ltb_ge. split; [lia|]. intros [?|[? _]]; lia.
Qed.

Lemma rule_less_ntrans a b c :
  rule_less b a = false -> rule_less c b = false -> rule_less c a = false.
Proof.
  rewrite !rule_less_outranks. unfold outranks. intros [?|[? H1]] [?|[? H2]]; try (left; lia).
  right. split; [lia|]. by eapply string_ltb_ntrans.
Qed.

Lemma first_match_spec pid rules s :
  match first_match pid rules s with
  | Some v => exists l1 r l2, rules = l1 ++ r :: l2 /\ v = verdict_of pid s r /\
      matches s r = true /\ Forall (fun r' => matches s r' = false) l1
  | None => Forall (fun r' => matches s r' = false) rules
  end.
Proof.
  induction rules as [|r rules IH]; simpl; [constructor|].
  assert (Hm : matches s r = snd (fst (evalRule r s))) by done.
  assert (Hv : verdict_of pid s r = MkVerdict (fst (fst (evalRule r s))) (snd (evalRule r s)) pid
    (RuleID r) pid (RuleID r) (Priority r) (buildEvidence r s)) by done.
  destruct (evalRule r s) as [[code ok] reason]. simpl in *. destruct ok.
  - exists [], r, rules. rewrite Hv. auto.
  - destruct (first_match pid rules s).
    + destruct IH as (l1 & r0 & l2 & -> & -> & ? & ?). exists (r :: l1), r0, l2. auto.
    + by constructor.
Qed.

Lemma sorted_rules rules : StronglySorted outranks (sort_slice rule_less rules).
Proof.
  pose proof (sort_slice_sorted rule_less rule_less_asym rule_less_ntrans rules) as Hs.
  induction Hs as [|x l Hs IH Hx]; constructor; [done|].
  eapply Forall_impl; [exact Hx|]. intros y. apply rule_less_outranks.
Qed.

(** ** Properties *)

(** The verdict: on a policy with an id, either no rule matches the state
    and the verdict is the default Allow, or the verdict is that of a matching
    rule which no other matching rule outranks. *)
Theorem evaluate_decides policy s :
  (pol_PolicyID policy = "" /\ v_Code (Engine_Evaluate policy s) = Allow) \/
  (pol_PolicyID policy <> "" /\ Forall (fun r => matches s r = false) (pol_Rules policy) /\
     v_Code (Engine_Evaluate policy s) = Allow /\ v_RuleID (Engine_Evaluate policy s) = "") \/
  (pol_PolicyID policy <> "" /\ exists r, r ∈ pol_Rules policy /\ matches s r = true /\
     Engine_Evaluate policy s = verdict_of (pol_PolicyID policy) s r /\
     Forall (fun r' => matches s r' = true -> outranks r r') (pol_Rules policy)).
Proof.
  unfold Engine_Evaluate. destruct (decide (pol_PolicyID policy = "")) as [He|He]; [by left|right].
  pose proof (first_match_spec (pol_PolicyID policy) (sort_slice rule_less (pol_Rules policy)) s) as Hf.
  pose proof (sorted_rules (pol_Rules policy)) as Hs.
  pose proof (sort_slice_perm rule_less (pol_Rules policy)) as Hp.
  destruct (first_match _ _ _) as [v|].
  - right. split; [done|]. destruct Hf as (l1 & r & l2 & Heq & -> & Hm & Hl1).
    rewrite Heq in *. exists r. rewrite <- Hp. split; [apply elem_of_app; right; left|].
    split; [done|]. split; [done|]. apply Forall_app. split.
    + eapply Forall_impl; [exact Hl1|]. intros ? H1 H2. simpl in H1. congruence.
    + constructor; [intros _; right; split; [done|apply string_ltb_irrefl]|].
      assert (Hs2 : StronglySorted outranks (r :: l2)).
      { clear - Hs. induction l1; [done|]. apply IHl1. by inversion Hs. }
      inversion Hs2 as [|? ? _ Hall]. eapply Forall_impl; [exact Hall|]. auto.
  - left. split; [done|]. rewrite Hp in Hf. done.
Qed.

(** Determinism (ADR-018 MUST-4): when no two rules share priority and rule
    id, the verdict does not depend on the order the rules are listed in. *)
Theorem evaluate_order_independent pid rules1 rules2 s :
  NoDup (map (fun r => (Priority r, RuleID r)) rules1) -> rules1 ≡ₚ rules2 ->
  Engine_Evaluate (MkPolicy pid rules1) s = Engine_Evaluate (MkPolicy pid rules2) s.
Proof.
  intros Hn Hp. unfold Engine_Evaluate. simpl.
  assert (Hs : sort_slice rule_less rules1 = sort_slice rule_less rules2).
  { apply (sorted_perm_unique outranks); [|apply sorted_rules|apply sorted_rules|].
    - intros x y Hx Hy H1 H2. rewrite sort_slice_elem in Hx, Hy.
      assert (Hk : (Priority x, RuleID x) = (Priority y, RuleID y)).
      { destruct H1 as [?|[H1 ?]], H2 as [?|[H2 ?]]; try lia. f_equal; [lia|].
        by apply string_ltb_antisym. }
      clear - Hn Hx Hy Hk. induction rules1 as [|r l IH]; [by apply elem_of_nil in Hx|].
      simpl in Hn. apply NoDup_cons in Hn as [Hr Hn].
      assert (Hin : forall z, z ∈ l -> (Priority z, RuleID z) <> (Priority r, RuleID r)).
      { intros z Hz Heq. apply Hr. rewrite <- Heq. by apply (list_elem_of_fmap_2 (fun r => (Priority r, RuleID r))). }
      apply elem_of_cons in Hx as [->|Hx], Hy as [->|Hy]; try done.
      + by destruct (Hin y Hy).
      + by destruct (Hin x Hx).
      + auto.
    - by rewrite !sort_slice_perm. }
  by rewrite Hs.
Qed.

(** ** Witnesses *)

Definition wit_rules : list Rule :=
  [MkRule "freeze" 50 RuleChangeFreeze ""; MkRule "maint" 100 RuleMaintenanceWindow ""].

Definition wit_state : State := MkState "" "" "" "" "" true true false.

Lemma evaluate_order_independent_witness :
  Engine_Evaluate (MkPolicy "p" wit_rules) wit_state =
    Engine_Evaluate (MkPolicy "p" (rev wit_rules)) wit_state /\
  v_Code (Engine_Evaluate (MkPolicy "p" wit_rules) wit_state) = MaintenanceBlocked.
Proof.
  assert (Hn : NoDup (map (fun r => (Priority r, RuleID r)) wit_rules)).
  { apply (bool_decide_unpack _). vm_compute. exact I. }
  assert (Hp : wit_rules ≡ₚ rev wit_rules) by (apply Permutation_rev).
  split; [exact (evaluate_order_independent "p" wit_rules (rev wit_rules) wit_state Hn Hp)|].
  vm_compute. reflexivity.
Defined.
