(* ===== verification/PolicyFiles.v ===== *)
(** * Policy files (internal/governancepolicy: model.go, repository.go)

    The directory of the file repository, the names in it, and the atomic
    publication of a record: temporary file, fsync, rename. JSON is the standard
    library's: a codec, of which the round trip is used. *)

From Stdlib Require Import Ascii.
From S2P Require Import Prelude GoStrings Governance.

(** ** Records (model.go) and errors (errors.go) *)

Definition StatusDraft : string := "draft".
Definition StatusActive : string := "active".
Definition StatusArchived : string := "archived".

Record PolicyRecord : Type := MkPolicyRecord {
  PolicyID : string;
  Revision : Z;
  Status : string;
  Rules : list Rule;
  CreatedAt : Time;
  UpdatedAt : Time;
  ActivatedAt : Time }.

Definition zero_record : PolicyRecord := MkPolicyRecord "" 0 "" [] zero_time zero_time zero_time.

Definition ErrNotFound : error := "governancepolicy: policy not found".
Definition ErrInvalidID : error := "governancepolicy: invalid policy id".
Definition ErrRevisionConflict : error := "governancepolicy: revision conflict (compare-and-swap)".
Definition ErrIllegalTransition : error := "governancepolicy: illegal lifecycle transition".

(** ** The JSON codec

    [encoding/json] replaces invalid UTF-8 both ways, so a record comes back as
    it went only when its strings are valid, and a decoded one always is. *)

Definition rule_utf8 (r : Rule) : bool :=
  ValidString (RuleID r) && ValidString (Kind r) && ValidString (Param r).

Definition record_utf8 (r : PolicyRecord) : bool :=
  ValidString (PolicyID r) && ValidString (Status r) && forallb rule_utf8 (Rules r).

Class PolicyCodec := {
  MarshalIndent : PolicyRecord -> result error (list Z);
  Unmarshal : list Z -> result error PolicyRecord;
  codec_roundtrip r d :
    record_utf8 r = true -> MarshalIndent r = Ok d -> Unmarshal d = Ok r;
  unmarshal_utf8 d r : Unmarshal d = Ok r -> record_utf8 r = true }.

(** ** The directory

    A file is its data and whether they have reached the disk. *)

Record File : Type := MkFile { f_data : list Z; f_synced : bool }.
Abbreviation FS := (gmap string File).

(** What a crash leaves of a directory: the entries, and of a file that was not
    synced any prefix. *)
Definition file_survives (f f' : File) : Prop :=
  if f_synced f then f' = f else f_data f' `prefix_of` f_data f.

Definition crash (fs fs' : FS) : Prop :=
  forall n, match fs !! n, fs' !! n with
    | Some f, Some f' => file_survives f f'
    | None, None => True
    | _, _ => False
    end.

(** ** Names *)

(** [strings.ContainsAny(s, "/\")] *)
Fixpoint has_separator (s : string) : bool :=
  match s with
  | EmptyString => false
  | String a s' => bool_decide (a = "/"%char) || bool_decide (a = "\"%char) || has_separator s'
  end.

Fixpoint has_slash (s : string) : bool :=
  match s with
  | EmptyString => false
  | String a s' => bool_decide (a = "/"%char) || has_slash s'
  end.

(** Only slashes, the empty string included. *)
Fixpoint all_slashes (s : string) : bool :=
  match s with
  | EmptyString => true
  | String a s' => bool_decide (a = "/"%char) && all_slashes s'
  end.

Fixpoint strip_trailing_slashes (s : string) : string :=
  match s with
  | EmptyString => EmptyString
  | String a s' => if all_slashes s then EmptyString else String a (strip_trailing_slashes s')
  end.

Fixpoint after_last_slash (s : string) : string :=
  match s with
  | EmptyString => EmptyString
  | String a s' => if has_slash s then after_last_slash s' else s
  end.

(** [filepath.Base] on a Unix system. *)
Definition filepath_Base (path : string) : string :=
  if decide (path = "") then "."
  else let b := after_last_slash (strip_trailing_slashes path) in if decide (b = "") then "/" else b.

Definition safeName (policyID : string) : result error string :=
  if decide (policyID = "") then Err ErrInvalidID
  else if negb (bool_decide (policyID = filepath_Base policyID)) || has_separator policyID
  then Err ErrInvalidID
  else Ok policyID.

(** The entry of the directory; [filepath.Join(dir, ...)] of a single component. *)
Definition fileRepository_pathFor (policyID : string) : result error string :=
  match safeName policyID with
  | Err e => Err e
  | Ok name => Ok ("policy-" +:+ name +:+ ".json")
  end.

(** ** Reading *)

(** The outside of one operation: the two clock readings, the error of the read
    if it fails, and of each system call of the write, with the random part of
    the temporary name and the bytes written before a failure. *)
Record RepoIO : Type := MkRepoIO {
  io_now1 : Time;
  io_now2 : Time;
  io_read : option error;
  io_random : string;
  io_create : option error;
  io_written : nat;
  io_write : option error;
  io_sync : option error;
  io_close : option error;
  io_chmod : option error;
  io_rename : option error;
  io_remove : option error }.

Section Files.
Context `{PolicyCodec}.

Definition fileRepository_read (io : RepoIO) (fs : FS) (policyID : string)
  : result error (option PolicyRecord) :=
  match fileRepository_pathFor policyID with
  | Err e => Err e
  | Ok p =>
      match io_read io with
      | Some e => Err e
      | None =>
          match fs !! p with
          | None => Ok None
          | Some f =>
              match Unmarshal (f_data f) with
              | Err e => Err e
              | Ok rec => Ok (Some rec)
              end
          end
      end
  end.

(** ** Writing *)

Definition tmp_name (io : RepoIO) : string := ".policy-" +:+ io_random io +:+ ".tmp".

(** [os.Remove], whose error is dropped. *)
Definition remove (io : RepoIO) (fs : FS) (n : string) : FS :=
  match io_remove io with None => delete n fs | Some _ => fs end.

(** [write]: the states of the directory, one per system call that changes it,
    and the error returned. [CreateTemp] opens a name that is not taken. *)
Definition write_steps (io : RepoIO) (fs : FS) (rec : PolicyRecord) : list FS * option error :=
  match fileRepository_pathFor (PolicyID rec) with
  | Err e => ([], Some e)
  | Ok p =>
      match MarshalIndent rec with
      | Err e => ([], Some e)
      | Ok data =>
          let tmp := tmp_name io in
          match io_create io, fs !! tmp with
          | Some e, _ => ([], Some e)
          | None, Some _ => ([], Some "file exists")
          | None, None =>
              let fs1 := <[tmp := MkFile [] false]> fs in
              match io_write io with
              | Some e =>
                  let fs2 := <[tmp := MkFile (take (io_written io) data) false]> fs1 in
                  ([fs1; fs2; remove io fs2 tmp], Some e)
              | None =>
                  let fs2 := <[tmp := MkFile data false]> fs1 in
                  match io_sync io with
                  | Some e => ([fs1; fs2; remove io fs2 tmp], Some e)
                  | None =>
                      let fs3 := <[tmp := MkFile data true]> fs2 in
                      match io_close io with
                      | Some e => ([fs1; fs2; fs3; remove io fs3 tmp], Some e)
                      | None =>
                          match io_chmod io with
                          | Some e => ([fs1; fs2; fs3; remove io fs3 tmp], Some e)
                          | None =>
                              match io_rename io with
                              | Some e => ([fs1; fs2; fs3; remove io fs3 tmp], Some e)
                              | None =>
                                  ([fs1; fs2; fs3;
                                    match fs3 !! tmp with
                                    | Some f => <[p := f]> (delete tmp fs3)
                                    | None => fs3
                                    end], None)
                              end
                          end
                      end
                  end
              end
          end
      end
  end.

Definition fileRepository_write (io : RepoIO) (fs : FS) (rec : PolicyRecord) : FS * option error :=
  let '(states, e) := write_steps io fs rec in (default fs (last states), e).

(** ** Lemmas: names *)

Lemma has_separator_slash s : has_separator s = false -> has_slash s = false.
Proof.
  induction s as [|a s IH]; simpl; [done|].
  rewrite !orb_false_iff. intros [[-> _] ?]. split; [done|auto].
Qed.

Lemma no_slash_Base s : s <> "" -> has_slash s = false -> filepath_Base s = s.
Proof.
  intros Hne Hs. unfold filepath_Base. rewrite decide_False by done.
  assert (Hstrip : strip_trailing_slashes s = s).
  { clear Hne. induction s as [|a s IH]; [done|]. cbn [has_slash] in Hs.
    apply orb_false_iff in Hs as [Ha Hs]. cbn [strip_trailing_slashes all_slashes].
    rewrite Ha. cbn [andb]. by rewrite IH. }
  rewrite Hstrip. assert (Hal : after_last_slash s = s).
  { destruct s; [done|]. cbn [after_last_slash]. by rewrite Hs. }
  rewrite Hal. by rewrite decide_False.
Qed.

Lemma safeName_spec id n :
  safeName id = Ok n <-> n = id /\ id <> "" /\ has_separator id = false.
Proof.
  unfold safeName. destruct (decide (id = "")) as [->|Hne]; [split; [done|by intros (_ & ? & _)]|].
  destruct (has_separator id) eqn:Hs; [rewrite orb_true_r; split; [done|by intros (_ & _ & ?)]|].
  rewrite no_slash_Base by (done || by apply has_separator_slash).
  rewrite bool_decide_eq_true_2 by done. simpl.
  split; [intros [= <-]; done|intros (-> & _); done].
Qed.

Lemma pathFor_spec id p :
  fileRepository_pathFor id = Ok p <->
  p = "policy-" +:+ id +:+ ".json" /\ id <> "" /\ has_separator id = false.
Proof.
  unfold fileRepository_pathFor. pose proof (safeName_spec id) as Hs.
  destruct (safeName id) as [n|e] eqn:E.
  - destruct (proj1 (Hs n) eq_refl) as (-> & Hne & Hsep).
    split; [intros [= <-]; done|intros (-> & _); done].
  - split; [done|]. intros (_ & Hne & Hsep).
    pose proof (proj2 (Hs id) (conj eq_refl (conj Hne Hsep))). done.
Qed.

Lemma string_app_length s t : String.length (s +:+ t) = (String.length s + String.length t)%nat.
Proof. induction s; simpl; [done|]. by rewrite IHs. Qed.

Lemma string_app_inj_r s t u : s +:+ u = t +:+ u -> s = t.
Proof.
  revert t. induction s as [|a s IH]; intros [|b t] He.
  - done.
  - apply (f_equal String.length) in He. rewrite !string_app_length in He. simpl in He. lia.
  - apply (f_equal String.length) in He. rewrite !string_app_length in He. simpl in He. lia.
  - change (String a (s +:+ u) = String b (t +:+ u)) in He. injection He as -> He. by rewrite (IH _ He).
Qed.

(** Different ids have different files, and no file is a temporary one. *)
Lemma pathFor_inj id1 id2 p :
  fileRepository_pathFor id1 = Ok p -> fileRepository_pathFor id2 = Ok p -> id1 = id2.
Proof.
  rewrite !pathFor_spec. intros (-> & _) (He & _).
  change ("policy-" +:+ id1 +:+ ".json") with
    (String "p" (String "o" (String "l" (String "i" (String "c" (String "y" (String "-" (id1 +:+ ".json")))))))) in He.
  change ("policy-" +:+ id2 +:+ ".json") with
    (String "p" (String "o" (String "l" (String "i" (String "c" (String "y" (String "-" (id2 +:+ ".json")))))))) in He.
  injection He as He. by eapply string_app_inj_r.
Qed.

Lemma pathFor_not_tmp id p io : fileRepository_pathFor id = Ok p -> p <> tmp_name io.
Proof. rewrite pathFor_spec. intros (-> & _). unfold tmp_name. intros He. discriminate He. Qed.

(** ** Lemmas: publication *)

(** A write that fails at any point changes temporary entries only; one that
    succeeds goes through such states to the directory with the record's file
    replaced by its full, synced data. *)
Lemma write_steps_spec io fs rec states e :
  write_steps io fs rec = (states, e) ->
  match e with
  | Some _ => forall fs' n, fs' ∈ states -> n <> tmp_name io -> fs' !! n = fs !! n
  | None => exists p d pre, fileRepository_pathFor (PolicyID rec) = Ok p /\
      MarshalIndent rec = Ok d /\ states = pre ++ [<[p := MkFile d true]> fs] /\
      (forall fs' n, fs' ∈ pre -> n <> tmp_name io -> fs' !! n = fs !! n)
  end.
Proof.
  unfold write_steps, remove. generalize (tmp_name io) as tmp. intros tmp.
  destruct (fileRepository_pathFor (PolicyID rec)) as [p|]; [|intros [= <- <-]; by intros ? ? ?%elem_of_nil].
  destruct (MarshalIndent rec) as [d|]; [|intros [= <- <-]; by intros ? ? ?%elem_of_nil].
  destruct (io_create io); [intros [= <- <-]; by intros ? ? ?%elem_of_nil|].
  destruct (fs !! tmp) eqn:Et; [intros [= <- <-]; by intros ? ? ?%elem_of_nil|].
  destruct (io_write io), (io_sync io), (io_close io), (io_chmod io), (io_rename io);
    intros [= <- <-];
    try (intros fs' n Hin Hn; rewrite ?elem_of_cons, ?elem_of_nil in Hin;
         destruct (io_remove io); destruct_or! Hin; subst fs';
      by rewrite ?lookup_delete_ne, ?lookup_insert_ne by done).
  exists p, d, [<[tmp := MkFile [] false]> fs; <[tmp := MkFile d false]> (<[tmp := MkFile [] false]> fs);
    <[tmp := MkFile d true]> (<[tmp := MkFile d false]> (<[tmp := MkFile [] false]> fs))].
  split; [done|]. split; [done|]. split.
  - simpl. do 4 f_equal. rewrite lookup_insert_eq. f_equal.
    rewrite !insert_insert_eq. apply delete_insert_id. done.
  - intros fs' n Hin Hn.
    rewrite ?elem_of_cons, ?elem_of_nil in Hin. destruct_or! Hin; subst fs';
      by rewrite ?lookup_delete_ne, ?lookup_insert_ne by done.
Qed.

Lemma write_spec io fs rec fs' e :
  fileRepository_write io fs rec = (fs', e) ->
  match e with
  | Some _ => forall n, n <> tmp_name io -> fs' !! n = fs !! n
  | None => exists p d, fileRepository_pathFor (PolicyID rec) = Ok p /\
      MarshalIndent rec = Ok d /\ fs' = <[p := MkFile d true]> fs
  end.
Proof.
  unfold fileRepository_write. destruct (write_steps io fs rec) as [states e'] eqn:E.
  intros [= <- ->]. apply write_steps_spec in E. destruct e.
  - intros n Hn. destruct (last states) as [fs'|] eqn:El; [|done]. simpl.
    apply E; [|done]. by apply last_Some_elem_of.
  - destruct E as (p & d & pre & ? & ? & -> & _). exists p, d. by rewrite last_snoc.
Qed.

(** ** What the directory shows of a policy *)

Definition stored (fs : FS) (id : string) : option PolicyRecord :=
  match fileRepository_pathFor id with
  | Err _ => None
  | Ok p =>
      match fs !! p with
      | None => None
      | Some f => match Unmarshal (f_data f) with Ok rec => Some rec | Err _ => None end
      end
  end.

(** A read that answers, answers what is stored. *)
Lemma read_stored io fs id r : fileRepository_read io fs id = Ok r -> stored fs id = r.
Proof.
  unfold fileRepository_read, stored. destruct (fileRepository_pathFor id); [|done].
  destruct (io_read io); [done|]. destruct (fs !! a) as [f|]; [|by intros [= <-]].
  destruct (Unmarshal (f_data f)); [by intros [= <-]|done].
Qed.

Lemma read_utf8 io fs id r : fileRepository_read io fs id = Ok (Some r) -> record_utf8 r = true.
Proof.
  unfold fileRepository_read. destruct (fileRepository_pathFor id); [|done].
  destruct (io_read io); [done|]. destruct (fs !! a) as [f|]; [|done].
  destruct (Unmarshal (f_data f)) eqn:E; [|done]. intros [= <-]. by eapply unmarshal_utf8.
Qed.

(** Directories that differ in temporary entries only show the same policies. *)
Lemma stored_tmp io fs fs' :
  (forall n, n <> tmp_name io -> fs' !! n = fs !! n) -> forall id, stored fs' id = stored fs id.
Proof.
  intros Hn id. unfold stored. destruct (fileRepository_pathFor id) as [p|] eqn:E; [|done].
  by rewrite Hn by (by eapply pathFor_not_tmp).
Qed.

Lemma stored_insert fs id p d id' r :
  fileRepository_pathFor id = Ok p -> Unmarshal d = Ok r ->
  stored (<[p := MkFile d true]> fs) id' = if decide (id' = id) then Some r else stored fs id'.
Proof.
  intros Hp Hd. unfold stored. case_decide as Hid.
  - subst. rewrite Hp, lookup_insert_eq. simpl. by rewrite Hd.
  - destruct (fileRepository_pathFor id') as [p'|] eqn:E; [|done].
    rewrite lookup_insert_ne; [done|]. intros <-. apply Hid. by eapply pathFor_inj.
Qed.

(** ** Crash atomicity *)

(** A crash never loses a policy (ADR-036 3.2.1): interrupt a write between
    any two of its system calls and let the crash truncate every file that was
    not synced; each policy then reads as before the write or as after it,
    never as a partial file, and a write that reported success is there. *)
Theorem policy_write_crash_atomic io fs rec states e fs1 fs2 id :
  write_steps io fs rec = (states, e) -> record_utf8 rec = true ->
  (forall id p f, fileRepository_pathFor id = Ok p -> fs !! p = Some f -> f_synced f = true) ->
  fs1 ∈ fs :: states -> crash fs1 fs2 ->
  (stored fs2 id = stored fs id \/ id = PolicyID rec /\ e = None /\ stored fs2 id = Some rec) /\
  (last states = Some fs1 -> e = None -> stored fs2 (PolicyID rec) = Some rec).
Proof.
  intros Hw Hutf Hsync Hin Hcrash. apply write_steps_spec in Hw.
  assert (Hold : forall id, (forall n, n <> tmp_name io -> fs1 !! n = fs !! n) -> stored fs2 id = stored fs id).
  { intros id' Hn. unfold stored. destruct (fileRepository_pathFor id') as [p|] eqn:Ep; [|done].
    specialize (Hcrash p). rewrite Hn in Hcrash by (by eapply pathFor_not_tmp).
    destruct (fs !! p) as [f|] eqn:Ef, (fs2 !! p) as [f'|]; try done.
    unfold file_survives in Hcrash. rewrite (Hsync _ _ _ Ep Ef) in Hcrash. by subst. }
  destruct e as [e|].
  - split; [|done]. left. apply Hold. intros n Hn. apply elem_of_cons in Hin as [->|Hin]; [done|].
    by apply Hw.
  - destruct Hw as (p & d & pre & Hp & Hd & -> & Hpre).
    assert (Hnew : fs1 = <[p := MkFile d true]> fs -> forall id,
      stored fs2 id = if decide (id = PolicyID rec) then Some rec else stored fs id).
    { intros -> id'. pose proof (codec_roundtrip rec d Hutf Hd) as Hr.
      rewrite <- (stored_insert fs (PolicyID rec) p d id' rec Hp Hr).
      unfold stored. destruct (fileRepository_pathFor id') as [p'|] eqn:Ep; [|done].
      specialize (Hcrash p'). destruct (decide (p = p')) as [<-|Hne].
      - rewrite lookup_insert_eq in *. destruct (fs2 !! p); [|done].
        unfold file_survives in Hcrash. simpl in Hcrash. by subst.
      - rewrite lookup_insert_ne in * by done.
        destruct (fs !! p') as [f|] eqn:Ef, (fs2 !! p') as [f'|]; try done.
        unfold file_survives in Hcrash. rewrite (Hsync _ _ _ Ep Ef) in Hcrash. by subst. }
    rewrite last_snoc. split.
    + rewrite elem_of_cons, elem_of_app, list_elem_of_singleton in Hin.
      destruct Hin as [->|[Hin|Hin]]; [left; by apply Hold|left; apply Hold; by intros; apply Hpre|].
      rewrite (Hnew Hin). case_decide; [by right|by left].
    + intros [= Hfs] _. rewrite (Hnew (eq_sym Hfs)). by rewrite decide_True.
Qed.

(** Policy ids cannot escape the store or collide: an id has a file exactly
    when it is not empty and has no path separator; the file's name has none
    either, differs from every temporary name, and belongs to no other id. *)
Theorem policy_paths_safe io id p :
  (fileRepository_pathFor id = Ok p <->
     id <> "" /\ has_separator id = false /\ p = "policy-" +:+ id +:+ ".json") /\
  (fileRepository_pathFor id = Ok p ->
     has_separator p = false /\ p <> tmp_name io /\
     forall id', fileRepository_pathFor id' = Ok p -> id' = id).
Proof.
  split; [rewrite pathFor_spec; tauto|]. intros Hp. split; [|split].
  - apply pathFor_spec in Hp as (-> & _ & Hs).
    assert (Happ : forall s t, has_separator (s +:+ t) = has_separator s || has_separator t).
    { intros s t. induction s as [|a s IH]; [done|].
      change (has_separator (String a (s +:+ t)) = has_separator (String a s) || has_separator t).
      cbn [has_separator]. rewrite IH. by rewrite !orb_assoc. }
    by rewrite !Happ, Hs.
  - by eapply pathFor_not_tmp.
  - intros id' Hp'. by eapply pathFor_inj.
Qed.

End Files.
