(* ===== verification/GovernancePolicy.v ===== *)
(** * The policy repository (internal/governancepolicy)

    Operations of the file repository on the directory of PolicyFiles, each one
    atomic under the repository's mutex; the lifecycle functions composed of
    them; the read adapter. *)

From S2P Require Import Prelude GoStrings Governance PolicyFiles.

Section Repository.
Context `{PolicyCodec}.

(** ** Operations (repository.go) *)

Definition with_content (rec : PolicyRecord) (rev : Z) (st : string) (created updated activated : Time)
  : PolicyRecord :=
  MkPolicyRecord (PolicyID rec) rev st (Rules rec) created updated activated.

(** Write, and return the record or the error. *)
Definition publish_record (io : RepoIO) (fs : FS) (rec : PolicyRecord) : FS * result error PolicyRecord :=
  match fileRepository_write io fs rec with
  | (fs', Some e) => (fs', Err e)
  | (fs', None) => (fs', Ok rec)
  end.

Definition fileRepository_Save (io : RepoIO) (fs : FS) (rec : PolicyRecord)
  : FS * result error PolicyRecord :=
  if decide (PolicyID rec = "") then (fs, Err ErrInvalidID)
  else
    match fileRepository_read io fs (PolicyID rec) with
    | Err e => (fs, Err e)
    | Ok existing =>
        let rev := match existing with
          | Some ex => if Revision rec =? 0 then wrap64 (Revision ex + 1) else Revision rec
          | None => Revision rec end in
        let created :=
          if CreatedAt rec =? zero_time then
            match existing with Some ex => CreatedAt ex | None => io_now1 io end
          else CreatedAt rec in
        let st := if decide (Status rec = "") then StatusDraft else Status rec in
        publish_record io fs (with_content rec rev st created (io_now2 io) (ActivatedAt rec))
    end.

Definition fileRepository_Get (io : RepoIO) (fs : FS) (policyID : string)
  : result error (option PolicyRecord) :=
  fileRepository_read io fs policyID.

Definition fileRepository_setState (io : RepoIO) (fs : FS) (policyID st : string) (activated : bool)
  : FS * option error :=
  match fileRepository_read io fs policyID with
  | Err e => (fs, Some e)
  | Ok None => (fs, Some ErrNotFound)
  | Ok (Some rec) =>
      fileRepository_write io fs
        (with_content rec (Revision rec) st (CreatedAt rec) (io_now2 io)
           (if activated then io_now1 io else ActivatedAt rec))
  end.

Definition fileRepository_Archive (io : RepoIO) (fs : FS) (policyID : string) : FS * option error :=
  fileRepository_setState io fs policyID StatusArchived false.
Definition fileRepository_Activate (io : RepoIO) (fs : FS) (policyID : string) : FS * option error :=
  fileRepository_setState io fs policyID StatusActive true.
Definition fileRepository_Deactivate (io : RepoIO) (fs : FS) (policyID : string) : FS * option error :=
  fileRepository_setState io fs policyID StatusDraft false.

Definition fileRepository_NextRevision (io : RepoIO) (fs : FS) (policyID : string) : result error Z :=
  match fileRepository_read io fs policyID with
  | Err e => Err e
  | Ok None => Ok 1
  | Ok (Some rec) => Ok (wrap64 (Revision rec + 1))
  end.

Definition fileRepository_CompareAndSave (io : RepoIO) (fs : FS) (rec : PolicyRecord)
    (expectedRevision : Z) : FS * result error PolicyRecord :=
  if decide (PolicyID rec = "") then (fs, Err ErrInvalidID)
  else if expectedRevision <? 0 then (fs, Err ErrInvalidID)
  else
    match fileRepository_read io fs (PolicyID rec) with
    | Err e => (fs, Err e)
    | Ok existing =>
        if expectedRevision =? 0 then
          match existing with
          | Some _ => (fs, Err ErrRevisionConflict)
          | None =>
              publish_record io fs (with_content rec 1 StatusDraft
                (if CreatedAt rec =? zero_time then io_now1 io else CreatedAt rec) (io_now2 io) zero_time)
          end
        else
          match existing with
          | None => (fs, Err ErrNotFound)
          | Some ex =>
              if negb (Revision ex =? expectedRevision) then (fs, Err ErrRevisionConflict)
              else if decide (Status ex <> StatusDraft) then (fs, Err ErrIllegalTransition)
              else publish_record io fs (with_content rec (wrap64 (Revision ex + 1)) (Status ex) (CreatedAt ex)
                     (io_now2 io) (ActivatedAt ex))
          end
    end.

(** [admittedTransitions[from][to]] *)
Definition admittedTransitions (from to_ : string) : bool :=
  if decide (from = StatusDraft) then
    bool_decide (to_ = StatusActive) || bool_decide (to_ = StatusArchived)
  else if decide (from = StatusActive) then
    bool_decide (to_ = StatusDraft) || bool_decide (to_ = StatusArchived)
  else false.

Definition fileRepository_CompareAndTransition (io : RepoIO) (fs : FS) (policyID : string)
    (expectedRevision : Z) (targetStatus : string) : FS * result error PolicyRecord :=
  if decide (policyID = "") then (fs, Err ErrInvalidID)
  else if bool_decide (targetStatus = StatusDraft) || bool_decide (targetStatus = StatusActive)
          || bool_decide (targetStatus = StatusArchived) then
    match fileRepository_read io fs policyID with
    | Err e => (fs, Err e)
    | Ok None => (fs, Err ErrNotFound)
    | Ok (Some rec) =>
        if negb (Revision rec =? expectedRevision) then (fs, Err ErrRevisionConflict)
        else if decide (Status rec = targetStatus) then (fs, Ok rec)
        else if negb (admittedTransitions (Status rec) targetStatus) then (fs, Err ErrIllegalTransition)
        else
          publish_record io fs (with_content rec (wrap64 (Revision rec + 1)) targetStatus (CreatedAt rec)
            (io_now2 io)
            (if decide (targetStatus = StatusActive) then io_now1 io else ActivatedAt rec))
    end
  else (fs, Err ErrIllegalTransition).

(** [SameContent]: equality of the authored payload. A nil and an empty rule
    list are the same list here, as [normalizeRules] makes them. *)
Definition SameContent (a b : PolicyRecord) : bool :=
  bool_decide (PolicyID a = PolicyID b) && bool_decide (Rules a = Rules b).

(** *** List *)

Fixpoint strip_prefix (pre s : string) : option string :=
  match pre, s with
  | EmptyString, _ => Some s
  | String a pre', String b s' => if decide (a = b) then strip_prefix pre' s' else None
  | _, _ => None
  end.

(** The name without a trailing [suf], when it has one. *)
Fixpoint strip_suffix (suf s : string) : option string :=
  if decide (s = suf) then Some ""
  else match s with
       | EmptyString => None
       | String a s' => option_map (String a) (strip_suffix suf s')
       end.

(** The id in a directory entry's name, for the names [List] looks at. *)
Definition entry_id (name : string) : option string :=
  match strip_prefix "policy-" name with
  | Some rest => strip_suffix ".json" rest
  | None => None
  end.

Fixpoint read_all (io : RepoIO) (fs : FS) (ids : list string) : result error (list PolicyRecord) :=
  match ids with
  | [] => Ok []
  | id :: ids' =>
      match fileRepository_read io fs id with
      | Err e => Err e
      | Ok rec =>
          match read_all io fs ids' with
          | Err e => Err e
          | Ok l => Ok (match rec with Some r => r :: l | None => l end)
          end
      end
  end.

(** [os.ReadDir] lists the entries by name; [dir_err] is its error. *)
Definition fileRepository_List (io : RepoIO) (dir_err : option error) (fs : FS)
  : result error (list PolicyRecord) :=
  match dir_err with
  | Some e => Err e
  | None =>
      let names := sort_strings (elements (dom fs)) in
      match read_all io fs (omap entry_id names) with
      | Err e => Err e
      | Ok l => Ok (sort_slice (fun a b => string_ltb (PolicyID a) (PolicyID b)) l)
      end
  end.

(** ** Lifecycle (lifecycle.go): each call of the repository has its own outside *)

Definition Create (io1 io2 : RepoIO) (now : Time) (fs : FS) (policyID : string) (rules : list Rule)
  : FS * result error PolicyRecord :=
  if decide (policyID = "") then (fs, Err ErrInvalidID)
  else
    match fileRepository_NextRevision io1 fs policyID with
    | Err e => (fs, Err e)
    | Ok rev =>
        fileRepository_Save io2 fs (MkPolicyRecord policyID rev StatusDraft rules now zero_time zero_time)
    end.

Definition lifecycle (op : FS -> FS * option error) (io : RepoIO) (fs : FS) (policyID : string)
  : FS * result error PolicyRecord :=
  match op fs with
  | (fs', Some e) => (fs', Err e)
  | (fs', None) =>
      match fileRepository_Get io fs' policyID with
      | Err e => (fs', Err e)
      | Ok (Some rec) => (fs', Ok rec)
      | Ok None => (fs', Ok zero_record)
      end
  end.

Definition Activate (io1 io2 : RepoIO) (fs : FS) (policyID : string) : FS * result error PolicyRecord :=
  lifecycle (fun fs => fileRepository_Activate io1 fs policyID) io2 fs policyID.
Definition Deactivate (io1 io2 : RepoIO) (fs : FS) (policyID : string) : FS * result error PolicyRecord :=
  lifecycle (fun fs => fileRepository_Deactivate io1 fs policyID) io2 fs policyID.
Definition Archive (io1 io2 : RepoIO) (fs : FS) (policyID : string) : FS * result error PolicyRecord :=
  lifecycle (fun fs => fileRepository_Archive io1 fs policyID) io2 fs policyID.

(** ** The read adapter (reader.go) *)

Record RuleView : Type := MkRuleView {
  rv_RuleID : string;
  rv_Kind : string;
  rv_Priority : Z;
  rv_SourceCapability : string;
  rv_SourceID : string;
  rv_CollectedAt : Time;
  rv_RelatedIDs : list string }.

Definition ErrPolicyNotFound : error := "platformview: policy not found".

Definition view_less (a b : RuleView) : bool :=
  if negb (rv_Priority a =? rv_Priority b) then rv_Priority b <? rv_Priority a
  else string_ltb (rv_RuleID a) (rv_RuleID b).

(** [clock] gives the reading taken for the i-th rule. *)
Definition Reader_QueryRules (io : RepoIO) (clock : nat -> Time) (fs : FS) (policyID : string)
  : result error (list RuleView) :=
  match fileRepository_Get io fs policyID with
  | Err e => Err e
  | Ok None => Err ErrPolicyNotFound
  | Ok (Some rec) =>
      Ok (sort_slice view_less (imap (fun i rule =>
        MkRuleView (RuleID rule) (Kind rule) (Priority rule) "governance" policyID (clock i)
          [PolicyID rec; "rev-" +:+ pretty (Revision rec)]) (Rules rec)))
  end.

Definition ScopePolicy : string := "policy".

Definition Reader_QueryVerdictRefs (io : RepoIO) (dir_err : option error) (fs : FS)
    (scopeKind scopeRef : string) : result error (list string) :=
  match fileRepository_List io dir_err fs with
  | Err e => Err e
  | Ok recs =>
      Ok (sort_strings (map PolicyID (List.filter (fun rec =>
        negb (bool_decide (scopeKind = ScopePolicy) && bool_decide (scopeRef <> PolicyID rec))) recs)))
  end.

(** ** Lemmas *)

Lemma publish_record_spec io fs rec fs' r :
  publish_record io fs rec = (fs', r) ->
  match r with
  | Ok rec' => rec' = rec /\
      (record_utf8 rec = true -> forall id,
         stored fs' id = if decide (id = PolicyID rec) then Some rec else stored fs id)
  | Err _ => forall id, stored fs' id = stored fs id
  end.
Proof.
  unfold publish_record. destruct (fileRepository_write io fs rec) as [fs1 e] eqn:E.
  apply write_spec in E. destruct e; intros [= <- <-].
  - by eapply stored_tmp.
  - split; [done|]. destruct E as (p & d & Hp & Hd & ->). intros Hutf id.
    by eapply stored_insert; [|apply codec_roundtrip].
Qed.

Definition content_utf8 (rec : PolicyRecord) : bool :=
  ValidString (PolicyID rec) && forallb rule_utf8 (Rules rec).

Lemma with_content_utf8 rec rev st c u a :
  content_utf8 rec = true -> ValidString st = true -> record_utf8 (with_content rec rev st c u a) = true.
Proof.
  unfold content_utf8, record_utf8, with_content. simpl. intros [-> ->]%andb_true_iff ->. done.
Qed.

Lemma record_utf8_content rec : record_utf8 rec = true -> content_utf8 rec = true.
Proof. unfold record_utf8, content_utf8. intros [[-> _]%andb_true_iff ->]%andb_true_iff. done. Qed.

Lemma status_utf8 st : st = StatusDraft \/ st = StatusActive \/ st = StatusArchived -> ValidString st = true.
Proof. intros [->|[->| ->]]; reflexivity. Qed.

(** ** The compare-and-swap contract

    What one successful mutation does to a policy: [commits cur exp rec'] says
    that the stored state [cur] had the expected revision and that [rec'] is a
    legal successor of it. *)

Definition legal_status (from to_ : string) : Prop :=
  from = to_ /\ from = StatusDraft \/ admittedTransitions from to_ = true.

Definition commits (cur : option PolicyRecord) (exp : Z) (rec' : PolicyRecord) : Prop :=
  Revision rec' = wrap64 (exp + 1) /\
  match cur with
  | None => exp = 0 /\ Status rec' = StatusDraft
  | Some ex => Revision ex = exp /\ CreatedAt rec' = CreatedAt ex /\ legal_status (Status ex) (Status rec')
  end.

Inductive CasOp : Type :=
| CasSave (rec : PolicyRecord) (expected : Z)
| CasTransition (policyID : string) (expected : Z) (target : string).

Definition cas_id (op : CasOp) : string :=
  match op with CasSave rec _ => PolicyID rec | CasTransition id _ _ => id end.
Definition cas_expected (op : CasOp) : Z :=
  match op with CasSave _ e | CasTransition _ e _ => e end.
Definition cas_utf8 (op : CasOp) : bool :=
  match op with CasSave rec _ => content_utf8 rec | CasTransition _ _ _ => true end.

Definition cas_run (io : RepoIO) (fs : FS) (op : CasOp) : FS * result error PolicyRecord :=
  match op with
  | CasSave rec e => fileRepository_CompareAndSave io fs rec e
  | CasTransition id e t => fileRepository_CompareAndTransition io fs id e t
  end.

Lemma commit_publish_record io fs rec id exp fs' r :
  publish_record io fs rec = (fs', r) -> record_utf8 rec = true -> PolicyID rec = id ->
  commits (stored fs id) exp rec ->
  match r with
  | Ok rec' => PolicyID rec' = id /\ commits (stored fs id) exp rec' /\
      (forall id', stored fs' id' = if decide (id' = id) then Some rec' else stored fs id')
  | Err _ => forall id', stored fs' id' = stored fs id'
  end.
Proof.
  intros Hp Hutf <- Hc. apply publish_record_spec in Hp. destruct r as [rec'|]; [|done].
  destruct Hp as [-> Hs]. auto.
Qed.

(** Every file holds a record of its own id. *)
Definition consistent (fs : FS) : Prop :=
  forall id rec, stored fs id = Some rec -> PolicyID rec = id.

(** What an operation that returns [r] did to the stored policies. *)
Definition cas_effect (fs : FS) (op : CasOp) (fs' : FS) (r : result error PolicyRecord) : Prop :=
  match r with
  | Err _ => forall id, stored fs' id = stored fs id
  | Ok rec' =>
      PolicyID rec' = cas_id op /\
      ((fs' = fs /\ stored fs (cas_id op) = Some rec' /\ Revision rec' = cas_expected op) \/
       commits (stored fs (cas_id op)) (cas_expected op) rec' /\
       (forall id, stored fs' id = if decide (id = cas_id op) then Some rec' else stored fs id))
  end.

Lemma CompareAndSave_effect io fs rec exp fs' r :
  content_utf8 rec = true -> fileRepository_CompareAndSave io fs rec exp = (fs', r) ->
  cas_effect fs (CasSave rec exp) fs' r.
Proof.
  intros Hutf. unfold fileRepository_CompareAndSave.
  destruct (decide (PolicyID rec = "")); [by intros [= <- <-]|].
  destruct (exp <? 0) eqn:E0; [by intros [= <- <-]|].
  destruct (fileRepository_read io fs (PolicyID rec)) as [existing|] eqn:Er; [|by intros [= <- <-]].
  pose proof (read_stored _ _ _ _ Er) as Hst.
  destruct (Z.eqb_spec exp 0) as [->|Hne].
  - destruct existing; [by intros [= <- <-]|]. intros Hp.
    eapply commit_publish_record with (id := PolicyID rec) (exp := 0) in Hp; [|by apply with_content_utf8|done|].
    + destruct r; [|done]. destruct Hp as (? & ? & ?). split; [done|]. by right.
    + rewrite Hst. done.
  - destruct existing as [ex|]; [|by intros [= <- <-]].
    destruct (Z.eqb_spec (Revision ex) exp) as [<-|]; [|by intros [= <- <-]]. cbn [negb].
    destruct (decide (Status ex <> StatusDraft)) as [|Hd]; [by intros [= <- <-]|]. intros Hp.
    apply dec_stable in Hd.
    eapply commit_publish_record with (id := PolicyID rec) (exp := Revision ex) in Hp;
      [|apply with_content_utf8; [done|apply status_utf8; auto]|done|].
    + destruct r; [|done]. destruct Hp as (? & ? & ?). split; [done|]. by right.
    + rewrite Hst. split; [done|]. split; [done|]. split; [done|]. by left.
Qed.

Lemma CompareAndTransition_effect io fs id exp target fs' r :
  consistent fs -> fileRepository_CompareAndTransition io fs id exp target = (fs', r) ->
  cas_effect fs (CasTransition id exp target) fs' r.
Proof.
  intros Hcons. unfold fileRepository_CompareAndTransition.
  destruct (decide (id = "")); [by intros [= <- <-]|].
  destruct (_ || _ || _) eqn:Et; [|by intros [= <- <-]].
  destruct (fileRepository_read io fs id) as [[ex|]|] eqn:Er; try by intros [= <- <-].
  pose proof (read_stored _ _ _ _ Er) as Hst. pose proof (Hcons _ _ Hst) as Hid.
  pose proof (read_utf8 _ _ _ _ Er) as Hutf.
  destruct (Z.eqb_spec (Revision ex) exp) as [<-|]; [|by intros [= <- <-]]. cbn [negb].
  destruct (decide (Status ex = target)) as [<-|].
  { intros [= <- <-]. split; [done|]. by left. }
  destruct (admittedTransitions (Status ex) target) eqn:Ea; [|by intros [= <- <-]]. cbn [negb]. intros Hp.
  eapply commit_publish_record with (id := id) (exp := Revision ex) in Hp; [| |done|].
  - destruct r; [|done]. destruct Hp as (? & ? & ?). split; [done|]. by right.
  - apply with_content_utf8; [by apply record_utf8_content|]. apply status_utf8.
    apply orb_true_iff in Et as [[Et|Et]%orb_true_iff|Et]; apply bool_decide_eq_true in Et; auto.
  - rewrite Hst. split; [done|]. split; [done|]. split; [done|]. by right.
Qed.

Lemma cas_run_effect io fs op fs' r :
  consistent fs -> cas_utf8 op = true -> cas_run io fs op = (fs', r) -> cas_effect fs op fs' r.
Proof. destruct op; simpl; intros; [by eapply CompareAndSave_effect|by eapply CompareAndTransition_effect]. Qed.

Lemma cas_effect_consistent fs op fs' r : consistent fs -> cas_effect fs op fs' r -> consistent fs'.
Proof.
  intros Hc. destruct r as [rec'|]; simpl.
  - intros [Hid [(-> & _)|[_ Hs]]]; [done|]. intros id rec. rewrite Hs. case_decide; [|apply Hc].
    intros [= <-]. congruence.
  - intros Hs id rec. rewrite Hs. apply Hc.
Qed.

(** What a policy's stored state can become through such operations. *)
Definition evolves (a b : option PolicyRecord) : Prop :=
  match a, b with
  | None, _ => True
  | Some _, None => False
  | Some x, Some y =>
      Revision x <= Revision y /\ CreatedAt y = CreatedAt x /\
      (Revision x = Revision y -> y = x) /\ (Status x = StatusArchived -> y = x)
  end.

#[local] Instance evolves_preorder : PreOrder evolves.
Proof.
  split.
  - intros [x|]; simpl; [|done]. split; [lia|done].
  - intros [x|] [y|] [z|]; simpl; try done. intros (? & ? & Hr1 & Hs1) (? & ? & Hr2 & Hs2).
    split; [lia|]. split; [congruence|]. split.
    + intros. rewrite <- Hr1 by lia. apply Hr2. lia.
    + intros Ha. rewrite (Hs1 Ha) in *. by apply Hs2.
Qed.

Lemma archived_terminal from to_ : legal_status from to_ -> from <> StatusArchived.
Proof. intros [[_ ->]|Ha]; [done|]. intros ->. done. Qed.

Lemma cas_effect_evolves fs op fs' r id :
  cas_expected op < max_int64 -> min_int64 <= cas_expected op -> cas_effect fs op fs' r ->
  evolves (stored fs id) (stored fs' id).
Proof.
  intros Hmax Hmin. destruct r as [rec'|]; simpl.
  - intros [Hid [(-> & _)|[Hc Hs]]]; [reflexivity|]. rewrite Hs. case_decide as Hi; [|reflexivity].
    subst id. destruct Hc as [Hrev Hc]. destruct (stored fs (cas_id op)) as [ex|]; [|done].
    destruct Hc as (Hx & Hcr & Hl). rewrite wrap64_id in Hrev by (unfold in_int64, min_int64, max_int64 in *; lia).
    split; [lia|]. split; [done|]. split; [lia|]. intros Ha. by apply archived_terminal in Hl.
  - intros ->. reflexivity.
Qed.

(** ** Histories: operations of any clients, in the order the mutex admits them *)

Definition cas_step (fs : FS) (iop : RepoIO * CasOp) : FS := fst (cas_run (fst iop) fs (snd iop)).

Definition cas_ok (iop : RepoIO * CasOp) : Prop :=
  cas_utf8 (snd iop) = true /\ min_int64 <= cas_expected (snd iop) < max_int64.

Lemma cas_history fs ops :
  consistent fs -> Forall cas_ok ops ->
  consistent (run_list cas_step fs ops) /\
  forall id, evolves (stored fs id) (stored (run_list cas_step fs ops) id).
Proof.
  intros Hc Hok. revert fs Hc. induction Hok as [|[io op] ops [Hu [Hmin Hmax]] Hok IH]; intros fs Hc.
  { done. }
  simpl. set (fs1 := cas_step fs (io, op)).
  assert (He : cas_effect fs op fs1 (snd (cas_run io fs op))).
  { apply (cas_run_effect io); [done|done|]. unfold fs1, cas_step. simpl. by destruct (cas_run io fs op). }
  destruct (IH fs1) as [Hc' He']; [by eapply cas_effect_consistent|]. split; [done|].
  intros id. etrans; [|apply He']. by eapply cas_effect_evolves.
Qed.

(** An operation that succeeds and moves the revision. *)
Definition bumps (io : RepoIO) (fs : FS) (op : CasOp) : Prop :=
  exists rec', snd (cas_run io fs op) = Ok rec' /\ Revision rec' = cas_expected op + 1.

(** ** Properties *)

(** Compare-and-swap (ADR-036 CAS-1 to CAS-6, CT-1 to CT-9): an operation
    that fails, at whatever point of the write, leaves every stored policy as
    it was. One that succeeds either found the policy already in the target
    state at the expected revision and changed nothing, or found it at the
    expected revision (absent, for 0) and left exactly the returned record, one
    revision further, a legal successor; no other policy changes. *)
Theorem policy_cas io fs op :
  consistent fs -> cas_utf8 op = true ->
  cas_effect fs op (fst (cas_run io fs op)) (snd (cas_run io fs op)).
Proof. intros Hc Hu. apply (cas_run_effect io); [done|done|]. by destruct (cas_run io fs op). Qed.

(** One winner (CT-3): of the operations that move a policy's revision, any
    later one expects a strictly greater revision than any earlier one, whatever
    other operations come between; so two clients holding the same revision
    never both commit. *)
Theorem policy_single_winner fs io1 op1 ops io2 op2 :
  consistent fs -> Forall cas_ok ((io1, op1) :: ops ++ [(io2, op2)]) ->
  cas_id op1 = cas_id op2 ->
  let fs1 := cas_step fs (io1, op1) in
  bumps io1 fs op1 -> bumps io2 (run_list cas_step fs1 ops) op2 ->
  cas_expected op1 < cas_expected op2.
Proof.
  intros Hc [Hok1 Hok]%Forall_cons Hid. cbv zeta. intros (r1 & Hr1 & Hb1) (r2 & Hr2 & Hb2).
  apply Forall_app in Hok as [Hok [Hok2 _]%Forall_cons].
  set (fs1 := cas_step fs (io1, op1)) in *.
  assert (He1 : cas_effect fs op1 fs1 (Ok r1)).
  { apply (cas_run_effect io1); [done|apply Hok1|]. unfold fs1, cas_step. simpl. rewrite <- Hr1.
    by destruct (cas_run io1 fs op1). }
  destruct (cas_history fs1 ops) as [Hc2 Hev]; [by eapply cas_effect_consistent|done|].
  set (fs2 := run_list cas_step fs1 ops) in *.
  assert (He2 : cas_effect fs2 op2 (fst (cas_run io2 fs2 op2)) (Ok r2)).
  { apply (cas_run_effect io2); [done|apply Hok2|]. rewrite <- Hr2. by destruct (cas_run io2 fs2 op2). }
  destruct He1 as [_ [(_ & _ & Hr)|[_ Hs1]]]; [lia|].
  specialize (Hev (cas_id op1)). rewrite Hs1, decide_True in Hev by done.
  destruct (stored fs2 (cas_id op1)) as [x|] eqn:Ex; [|done]. destruct Hev as (Hle & _).
  destruct He2 as [_ [(_ & _ & Hr)|[[_ Hcur] _]]]; [lia|].
  rewrite <- Hid, Ex in Hcur. destruct Hcur as (Hx & _). lia.
Qed.

(** Over any history of compare-and-swap operations a stored policy is never
    lost, its revision never decreases and pins the whole record, its creation
    time stays, and an archived policy never changes again. *)
Theorem policy_history fs ops id :
  consistent fs -> Forall cas_ok ops ->
  evolves (stored fs id) (stored (run_list cas_step fs ops) id).
Proof. intros Hc Hok. by apply cas_history. Qed.

End Repository.

(** ** Witnesses: a codec that writes a record's bits *)

#[export] Instance Rule_countable : Countable Rule.
Proof.
  apply (inj_countable' (fun r => (RuleID r, Priority r, Kind r, Param r))
    (fun '(a, b, c, d) => MkRule a b c d)). by intros [].
Defined.

#[export] Instance PolicyRecord_eq_dec : EqDecision PolicyRecord.
Proof. solve_decision. Defined.

#[export] Instance PolicyRecord_countable : Countable PolicyRecord.
Proof.
  apply (inj_countable' (fun r => (PolicyID r, Revision r, Status r, Rules r, CreatedAt r, UpdatedAt r, ActivatedAt r))
    (fun '(a, b, c, d, e, f, g) => MkPolicyRecord a b c d e f g)). by intros [].
Defined.

Fixpoint bits_of (p : positive) : list Z :=
  match p with
  | xH => []
  | xO p' => 0 :: bits_of p'
  | xI p' => 1 :: bits_of p'
  end.

Fixpoint of_bits (l : list Z) : positive :=
  match l with
  | [] => xH
  | b :: l' => if b =? 0 then xO (of_bits l') else xI (of_bits l')
  end.

Lemma of_bits_of p : of_bits (bits_of p) = p.
Proof. induction p; simpl; congruence. Qed.

Definition bit_marshal (r : PolicyRecord) : result error (list Z) := Ok (bits_of (encode r)).

Definition bit_unmarshal (d : list Z) : result error PolicyRecord :=
  match decode (of_bits d) with
  | Some r => if record_utf8 r then Ok r else Err "invalid UTF-8"
  | None => Err "unexpected end of JSON input"
  end.

Definition bit_codec : PolicyCodec.
Proof.
  refine {| MarshalIndent := bit_marshal; Unmarshal := bit_unmarshal |}.
  - intros r d Hu [= <-]. unfold bit_unmarshal. by rewrite of_bits_of, decode_encode, Hu.
  - intros d r. unfold bit_unmarshal. destruct (decode _) as [r'|]; [|done].
    destruct (record_utf8 r') eqn:E; [|done]. by intros [= <-].
Defined.

Definition wit_io : RepoIO :=
  MkRepoIO 1 2 None "123" None 0 None None None None None None.

Definition wit_policy : PolicyRecord := MkPolicyRecord "prod" 0 "" wit_rules zero_time zero_time zero_time.

Lemma empty_consistent : @consistent bit_codec ∅.
Proof.
  intros id rec. unfold stored. destruct (fileRepository_pathFor id); [|done].
  by rewrite lookup_empty.
Defined.

Definition wit_fs : FS := cas_step (H := bit_codec) ∅ (wit_io, CasSave wit_policy 0).

Lemma policy_cas_witness :
  stored (H := bit_codec) wit_fs "prod" = Some (MkPolicyRecord "prod" 1 StatusDraft wit_rules 1 2 zero_time).
Proof.
  destruct (policy_cas (H := bit_codec) wit_io ∅ (CasSave wit_policy 0) empty_consistent eq_refl)
    as [_ [(_ & H & _)|[_ H]]]; [vm_compute in H; discriminate H|].
  refine (eq_trans (H "prod") _). vm_compute. reflexivity.
Defined.

Definition wit_ops : list (RepoIO * CasOp) :=
  [(wit_io, CasSave wit_policy 0); (wit_io, CasTransition "prod" 1 StatusActive);
   (wit_io, CasTransition "prod" 1 StatusArchived)].

Lemma wit_ops_ok : Forall cas_ok wit_ops.
Proof. repeat constructor; try reflexivity; unfold min_int64, max_int64; simpl; lia. Defined.

Lemma policy_history_witness :
  evolves (stored (H := bit_codec) ∅ "prod")
    (stored (H := bit_codec) (run_list (cas_step (H := bit_codec)) ∅ wit_ops) "prod") /\
  (Revision <$> stored (H := bit_codec) (run_list (cas_step (H := bit_codec)) ∅ wit_ops) "prod") = Some 2.
Proof.
  split; [exact (policy_history (H := bit_codec) ∅ wit_ops "prod" empty_consistent wit_ops_ok)|].
  vm_compute. reflexivity.
Defined.

Lemma policy_single_winner_witness : 0 < 1.
Proof.
  assert (Hok : Forall cas_ok ((wit_io, CasSave wit_policy 0) :: [] ++
    [(wit_io, CasTransition "prod" 1 StatusActive)])).
  { repeat constructor; try reflexivity; unfold min_int64, max_int64; simpl; lia. }
  refine (policy_single_winner (H := bit_codec) ∅ wit_io (CasSave wit_policy 0) []
    wit_io (CasTransition "prod" 1 StatusActive) empty_consistent Hok eq_refl _ _).
  - exists (MkPolicyRecord "prod" 1 StatusDraft wit_rules 1 2 zero_time). split; vm_compute; reflexivity.
  - exists (MkPolicyRecord "prod" 2 StatusActive wit_rules 1 2 1). split; vm_compute; reflexivity.
Defined.

(** A second write over [wit_fs], crashed after its data went out and before the
    sync, which leaves an empty temporary file. *)
Definition wit_torn : FS := default ∅ (fst (write_steps (H := bit_codec) wit_io wit_fs wit_policy) !! 1%nat).
Definition wit_crashed : FS := <[tmp_name wit_io := MkFile [] false]> wit_torn.

Lemma wit_crash : crash wit_torn wit_crashed.
Proof.
  intros n. unfold wit_crashed. destruct (decide (tmp_name wit_io = n)) as [<-|Hn].
  - rewrite lookup_insert_eq. assert (H : f_synced <$> wit_torn !! tmp_name wit_io = Some false) by (vm_compute; reflexivity).
    destruct (wit_torn !! tmp_name wit_io) as [f|]; [|discriminate H]. unfold file_survives.
    injection H as ->. apply prefix_nil.
  - rewrite lookup_insert_ne by done. destruct (wit_torn !! n) as [f|]; [|done].
    unfold file_survives. by destruct (f_synced f).
Defined.

Lemma policy_write_crash_atomic_witness :
  is_Some (stored (H := bit_codec) wit_fs "prod") /\
  (stored (H := bit_codec) wit_crashed "prod" = stored (H := bit_codec) wit_fs "prod" \/
   "prod" = PolicyID wit_policy /\ snd (write_steps (H := bit_codec) wit_io wit_fs wit_policy) = None /\
   stored (H := bit_codec) wit_crashed "prod" = Some wit_policy).
Proof.
  assert (Hold : is_Some (stored (H := bit_codec) wit_fs "prod")).
  { exists (MkPolicyRecord "prod" 1 StatusDraft wit_rules 1 2 zero_time). vm_compute. reflexivity. }
  split; [exact Hold|].
  assert (Hutf : record_utf8 wit_policy = true) by (vm_compute; reflexivity).
  assert (Hsync : forall id p f, fileRepository_pathFor id = Ok p -> wit_fs !! p = Some f -> f_synced f = true).
  { assert (H : forallb (fun nf => f_synced nf.2) (map_to_list wit_fs) = true) by (vm_compute; reflexivity).
    intros id p f _ Hf. apply elem_of_map_to_list in Hf. apply list_elem_of_In in Hf.
    exact (proj1 (forallb_forall _ _) H (p, f) Hf). }
  assert (Hin : wit_torn ∈ wit_fs :: fst (write_steps (H := bit_codec) wit_io wit_fs wit_policy)).
  { right. unfold wit_torn. set (states := fst _).
    assert (Hlen : (1 <? length states)%nat = true) by (vm_compute; reflexivity).
    destruct (lookup_lt_is_Some_2 states 1) as [x Hx]; [by apply Nat.ltb_lt|].
    rewrite Hx. exact (list_elem_of_lookup_2 _ _ _ Hx). }
  exact (proj1 (policy_write_crash_atomic (H := bit_codec) wit_io wit_fs wit_policy
    (fst (write_steps (H := bit_codec) wit_io wit_fs wit_policy)) _ wit_torn wit_crashed "prod"
    (surjective_pairing _) Hutf Hsync Hin wit_crash)).
Defined.

Lemma policy_paths_safe_witness :
  has_separator "policy-prod.json" = false /\ fileRepository_pathFor "prod" = Ok "policy-prod.json".
Proof.
  assert (H : fileRepository_pathFor "prod" = Ok "policy-prod.json") by reflexivity.
  split; [|exact H].
  exact (proj1 (proj2 (policy_paths_safe wit_io "prod" "policy-prod.json") H)).
Defined.
