(* ===== verification/Execution.v ===== *)
(** * Execution records and their in-memory store (internal/core/execution)

    The lifecycle record of an operation run, and the store that owns its
    status. Each method runs under the store's lock and is atomic. *)

From S2P Require Import Prelude.

(** ** Data (model.go) *)

Inductive Status : Type :=
| StatusCreated | StatusPlanning | StatusRunning | StatusCancelRequested
| StatusCancelled | StatusSuccess | StatusFailed.

#[export] Instance Status_eq_dec : EqDecision Status.
Proof. solve_decision. Defined.

Definition Status_text (s : Status) : string :=
  match s with
  | StatusCreated => "CREATED"
  | StatusPlanning => "PLANNING"
  | StatusRunning => "RUNNING"
  | StatusCancelRequested => "CANCEL_REQUESTED"
  | StatusCancelled => "CANCELLED"
  | StatusSuccess => "SUCCESS"
  | StatusFailed => "FAILED"
  end.

Inductive StepStatus : Type := StepPending | StepRunning | StepSuccess | StepFailed.

Record ExecutionStepRecord : Type := MkExecutionStepRecord {
  esr_ID : string;
  esr_Name : string;
  esr_Index : Z;
  esr_Status : StepStatus;
  esr_Success : bool;
  esr_Output : string;
  esr_Error : string;
  esr_DurationMs : Z }.

Record ExecutionRecord : Type := MkExecutionRecord {
  er_ID : string;
  er_Operation : string;
  er_Permission : string;
  er_Risk : string;
  er_Status : Status;
  er_UserID : string;
  er_UserName : string;
  er_Target : string;
  er_TraceID : string;
  er_CapabilityHash : string;
  er_Source : string;
  er_Origin : string;
  er_Version : N;
  er_CreatedAt : Time;
  er_StartedAt : option Time;
  er_FinishedAt : option Time;
  er_DurationMs : Z;
  er_Error : string;
  er_Steps : list ExecutionStepRecord }.

Record Query : Type := MkQuery {
  q_Operation : string;
  q_Status : option Status;
  q_Limit : Z;
  q_Offset : Z }.

Inductive ExecutionEventType : Type :=
| EventExecutionCreated | EventExecutionStarted | EventExecutionStepUpdated
| EventExecutionFinished | EventExecutionCancelled.

Record ExecutionEvent : Type := MkExecutionEvent {
  ev_Type : ExecutionEventType;
  ev_ID : string;
  ev_Status : Status;
  ev_Timestamp : Time }.

Definition ErrNotFound : error := "execution not found".
Definition ErrConflict : error := "execution status transition conflict".

(** ** The store (memory.go) *)

Record MemoryStore : Type := MkMemoryStore { items : gmap string ExecutionRecord }.

Definition NewMemoryStore : MemoryStore := MkMemoryStore ∅.

Definition set_status (r : ExecutionRecord) (st : Status) (version : N)
    (started finished : option Time) : ExecutionRecord :=
  MkExecutionRecord (er_ID r) (er_Operation r) (er_Permission r) (er_Risk r) st (er_UserID r)
    (er_UserName r) (er_Target r) (er_TraceID r) (er_CapabilityHash r) (er_Source r) (er_Origin r)
    version (er_CreatedAt r) started finished (er_DurationMs r) (er_Error r) (er_Steps r).

Definition set_created (r : ExecutionRecord) (created : Time) (started : option Time) : ExecutionRecord :=
  MkExecutionRecord (er_ID r) (er_Operation r) (er_Permission r) (er_Risk r) (er_Status r) (er_UserID r)
    (er_UserName r) (er_Target r) (er_TraceID r) (er_CapabilityHash r) (er_Source r) (er_Origin r)
    (er_Version r) created started (er_FinishedAt r) (er_DurationMs r) (er_Error r) (er_Steps r).

Definition set_steps (r : ExecutionRecord) (steps : list ExecutionStepRecord) : ExecutionRecord :=
  MkExecutionRecord (er_ID r) (er_Operation r) (er_Permission r) (er_Risk r) (er_Status r) (er_UserID r)
    (er_UserName r) (er_Target r) (er_TraceID r) (er_CapabilityHash r) (er_Source r) (er_Origin r)
    (er_Version r) (er_CreatedAt r) (er_StartedAt r) (er_FinishedAt r) (er_DurationMs r) (er_Error r) steps.

Definition MemoryStore_Create (s : MemoryStore) (rec : ExecutionRecord) (now : Time) : MemoryStore :=
  let created := if er_CreatedAt rec =? zero_time then now else er_CreatedAt rec in
  let started := match er_Status rec, er_StartedAt rec with
    | StatusRunning, None => Some created
    | _, st => st end in
  MkMemoryStore (<[er_ID rec := set_created rec created started]> (items s)).

(** [rec.Status = status; rec.Version++] and the timestamps; the version is an
    unsigned 64-bit integer. *)
Definition move_to (rec : ExecutionRecord) (to_ : Status) (now : Time) : ExecutionRecord :=
  let version := ((er_Version rec + 1) mod 2 ^ 64)%N in
  match to_ with
  | StatusRunning =>
      set_status rec to_ version (Some (default now (er_StartedAt rec))) (er_FinishedAt rec)
  | StatusSuccess | StatusFailed | StatusCancelled =>
      set_status rec to_ version (er_StartedAt rec) (Some (default now (er_FinishedAt rec)))
  | _ => set_status rec to_ version (er_StartedAt rec) (er_FinishedAt rec)
  end.

Definition MemoryStore_UpdateStatus (s : MemoryStore) (id : string) (status : Status) (now : Time)
  : MemoryStore * option error :=
  match items s !! id with
  | None => (s, Some ErrNotFound)
  | Some rec => (MkMemoryStore (<[id := move_to rec status now]> (items s)), None)
  end.

Definition MemoryStore_Transition (s : MemoryStore) (id : string) (from to_ : Status) (now : Time)
  : MemoryStore * option error :=
  match items s !! id with
  | None => (s, Some ErrNotFound)
  | Some rec =>
      if decide (er_Status rec <> from) then (s, Some ErrConflict)
      else (MkMemoryStore (<[id := move_to rec to_ now]> (items s)), None)
  end.

(** The loop of [UpdateStep]: replace the first step of that id, or append. *)
Fixpoint upsert_step (steps : list ExecutionStepRecord) (step : ExecutionStepRecord)
  : list ExecutionStepRecord :=
  match steps with
  | [] => [step]
  | x :: steps' => if decide (esr_ID x = esr_ID step) then step :: steps' else x :: upsert_step steps' step
  end.

Definition MemoryStore_UpdateStep (s : MemoryStore) (id : string) (step : ExecutionStepRecord)
  : MemoryStore * option error :=
  match items s !! id with
  | None => (s, Some ErrNotFound)
  | Some rec =>
      (MkMemoryStore (<[id := set_steps rec (upsert_step (er_Steps rec) step)]> (items s)), None)
  end.

Definition MemoryStore_Get (s : MemoryStore) (id : string) : result error ExecutionRecord :=
  match items s !! id with
  | None => Err ErrNotFound
  | Some rec => Ok rec
  end.

Definition query_matches (q : Query) (rec : ExecutionRecord) : bool :=
  (bool_decide (q_Operation q = "") || bool_decide (er_Operation rec = q_Operation q)) &&
  match q_Status q with None => true | Some st => bool_decide (er_Status rec = st) end.

(** [iteration] is the order in which the map is ranged over. *)
Definition MemoryStore_List (iteration : list ExecutionRecord) (q : Query) : list ExecutionRecord :=
  let out := List.filter (query_matches q) iteration in
  if (0 <? q_Limit q) && (q_Limit q <? Z.of_nat (length out)) then take (Z.to_nat (q_Limit q)) out
  else out.

Definition iterates (s : MemoryStore) (iteration : list ExecutionRecord) : Prop :=
  iteration ≡ₚ (map_to_list (items s)).*2.

(** ** Lemmas *)

Definition status_of (s : MemoryStore) (id : string) : option Status := er_Status <$> items s !! id.

Lemma move_to_status rec st now : er_Status (move_to rec st now) = st.
Proof. by destruct st. Qed.

Lemma move_to_steps rec st now : er_Steps (move_to rec st now) = er_Steps rec.
Proof. by destruct st. Qed.

Lemma Transition_status s id from to_ now id' :
  status_of (fst (MemoryStore_Transition s id from to_ now)) id' =
    if decide (id' = id /\ status_of s id = Some from) then Some to_ else status_of s id'.
Proof.
  unfold MemoryStore_Transition, status_of. destruct (items s !! id) as [rec|] eqn:E; simpl.
  2: { rewrite decide_False; [done|]. intros [_ ?]. done. }
  destruct (decide (er_Status rec <> from)) as [Hn|Hn]; simpl.
  - rewrite decide_False; [done|]. intros [_ [= ?]]. done.
  - apply dec_stable in Hn. destruct (decide (id' = id)) as [->|Hne].
    + rewrite lookup_insert_eq. simpl. rewrite move_to_status, decide_True; [done|by subst].
    + rewrite lookup_insert_ne by done. rewrite decide_False; [done|]. by intros [? _].
Qed.

Lemma Transition_error s id from to_ now :
  snd (MemoryStore_Transition s id from to_ now) = None <-> status_of s id = Some from.
Proof.
  unfold MemoryStore_Transition, status_of. destruct (items s !! id) as [rec|]; simpl; [|done].
  destruct (decide (er_Status rec <> from)) as [Hn|Hn]; simpl.
  - split; [done|]. intros [= ?]. done.
  - apply dec_stable in Hn. by subst.
Qed.

Lemma UpdateStep_status s id step id' :
  status_of (fst (MemoryStore_UpdateStep s id step)) id' = status_of s id'.
Proof.
  unfold MemoryStore_UpdateStep, status_of. destruct (items s !! id) as [rec|] eqn:E; simpl; [|done].
  destruct (decide (id' = id)) as [->|]; [by rewrite lookup_insert_eq, E|by rewrite lookup_insert_ne].
Qed.

Lemma Create_status s rec now id' :
  status_of (MemoryStore_Create s rec now) id' =
    if decide (id' = er_ID rec) then Some (er_Status rec) else status_of s id'.
Proof.
  unfold status_of, MemoryStore_Create. simpl. case_decide; subst.
  - by rewrite lookup_insert_eq.
  - by rewrite lookup_insert_ne.
Qed.

(** ** Properties *)

(** A listing is complete up to its limit: whatever order the map is ranged
    over in, every listed record is stored and matches the query, at most
    [Limit] are listed when a limit is given, and every matching record is
    listed when there is none or it is not reached. The offset of the query is
    never looked at. *)
Theorem execution_list s iteration q offset :
  iterates s iteration ->
  let out := MemoryStore_List iteration q in
  (forall rec, rec ∈ out -> query_matches q rec = true /\ exists id, items s !! id = Some rec) /\
  (0 < q_Limit q -> Z.of_nat (length out) <= q_Limit q) /\
  (q_Limit q <= 0 \/ Z.of_nat (length out) < q_Limit q -> forall id rec,
     items s !! id = Some rec -> query_matches q rec = true -> rec ∈ out) /\
  MemoryStore_List iteration (MkQuery (q_Operation q) (q_Status q) (q_Limit q) offset) = out.
Proof.
  intros Hit. cbv zeta. unfold MemoryStore_List. cbn [q_Limit].
  assert (Hm : forall rec, rec ∈ List.filter (query_matches q) iteration <->
    query_matches q rec = true /\ exists id, items s !! id = Some rec).
  { intros rec. rewrite list_elem_of_In, filter_In, <- list_elem_of_In.
    unfold iterates in Hit. rewrite Hit, list_elem_of_fmap. split.
    - intros [([id r] & -> & Hin) ?]. apply elem_of_map_to_list in Hin. eauto.
    - intros [? [id Hid]]. split; [|done]. exists (id, rec). split; [done|]. by apply elem_of_map_to_list. }
  change (query_matches (MkQuery (q_Operation q) (q_Status q) (q_Limit q) offset)) with (query_matches q).
  set (out := List.filter (query_matches q) iteration) in *.
  destruct ((0 <? q_Limit q) && (q_Limit q <? Z.of_nat (length out))) eqn:E.
  - go_bools. rewrite length_take. split; [|split; [lia|split; [lia|done]]].
    intros rec Hin. apply Hm. apply elem_of_take in Hin as (i & Hi & _). by eapply list_elem_of_lookup_2.
  - split; [by intros; apply Hm|]. split; [|split; [|done]].
    + intros Hl. apply andb_false_iff in E as [E|E]; go_bools; lia.
    + intros _ id rec Hid Hq. apply Hm. eauto.
Qed.

Definition wit_record (id : string) (st : Status) : ExecutionRecord :=
  MkExecutionRecord id "disk.list" "disk.read" "low" st "u1" "alice" "" "t" "" "builtin" "API" 1 5
    None None 0 "" [].

Lemma execution_list_witness :
  wit_record "exe-1" StatusRunning ∈
    MemoryStore_List [wit_record "exe-1" StatusRunning] (MkQuery "" (Some StatusRunning) 10 0).
Proof.
  assert (Hit : iterates (MkMemoryStore {["exe-1" := wit_record "exe-1" StatusRunning]})
    [wit_record "exe-1" StatusRunning]).
  { unfold iterates. simpl. by rewrite map_to_list_singleton. }
  refine (proj1 (proj2 (proj2 (execution_list _ _ (MkQuery "" (Some StatusRunning) 10 0) 3 Hit))) _
    "exe-1" _ _ _).
  - right. vm_compute. reflexivity.
  - reflexivity.
  - reflexivity.
Defined.
