(* ===== verification/Executor.v ===== *)
(** * Running plans (internal/core: plan.go, executor.go, service.go, runtime.go)

    The executor, the asynchronous service in front of it, and the cancel
    registry, as one system: a run is a goroutine that advances between the
    atomic operations of the shared store, registry and bus, and any other
    goroutine's operation may fall between two of its steps. The composition is
    the one of [NewRuntime]: a recorder and a registry are always there. *)

From S2P Require Import Prelude Execution.

(** ** Data (plan.go) *)

Record Permission : Type := MkPermission { ResourceType : string; perm_Action : string }.

Definition Permission_String (p : Permission) : string := ResourceType p +:+ "." +:+ perm_Action p.

Inductive RiskLevel : Type := RiskLow | RiskMedium | RiskHigh | RiskCritical | RiskOther (n : Z).

Definition RiskLevel_String (r : RiskLevel) : string :=
  match r with
  | RiskLow => "low"
  | RiskMedium => "medium"
  | RiskHigh => "high"
  | RiskCritical => "critical"
  | RiskOther _ => "unknown"
  end.

(** A step is an interface: what it answers is decided when it is executed, so
    a plan holds the descriptions only. *)
Record ExecutionPlan : Type := MkExecutionPlan {
  plan_OperationName : string;
  plan_Steps : list string;
  plan_Permission : Permission;
  plan_Risk : RiskLevel;
  plan_Timeout : Duration;
  plan_Source : string;
  plan_Origin : string }.

Record StepResult : Type := MkStepResult {
  sr_StepName : string;
  sr_StepID : string;
  sr_Index : Z;
  sr_Success : bool;
  sr_Output : string;
  sr_Error : option error;
  sr_Duration : Duration }.

(** The errors a run ends with. *)
Inductive RunError : Type :=
| ErrExecutionFailed (step : string) (cause : option error)
| ErrContext.

Record ExecutionResult : Type := MkExecutionResult {
  res_Success : bool;
  res_Output : string;
  res_Error : option RunError;
  res_Duration : Duration;
  res_Steps : list StepResult;
  res_Cancelled : bool }.

Definition empty_result : ExecutionResult := MkExecutionResult false "" None 0 [] false.

(** What a run reads of its context. *)
Record RunContext : Type := MkRunContext {
  rc_UserID : string;
  rc_UserName : string;
  rc_Target : string;
  rc_TraceID : string;
  rc_CapabilityHash : string;
  rc_ExecutionID : string }.

Record AuditEvent : Type := MkAuditEvent {
  ae_TraceID : string;
  ae_Timestamp : Time;
  ae_OperationName : string;
  ae_UserName : string;
  ae_Target : string;
  ae_CapabilityHash : string;
  ae_ExecutionID : string;
  ae_Permission : Permission;
  ae_Risk : RiskLevel;
  ae_Result : ExecutionResult;
  ae_Duration : Duration }.

(** ** The state of the system *)

(** Where a run is, in the order of [runAsync] and [runBody]. *)
Inductive Pc : Type :=
| PcRegister                      (* runAsync: about to register its cancel func *)
| PcBegin                         (* about to move PLANNING to RUNNING *)
| PcStarted                       (* about to publish STARTED *)
| PcSyncRegister                  (* runBody, owning path: record created, about to register *)
| PcCheck (i : nat)               (* head of the loop, before step i *)
| PcExec (i : nat)                (* step i is executing *)
| PcRecord (i : nat) (r : StepResult)  (* about to store the step *)
| PcAfter (i : nat) (r : StepResult)   (* after the step: cancelled? failed? *)
| PcSettle (st : Status)          (* first transition of finishRecordStatus *)
| PcSettle2                       (* second one, after a conflict *)
| PcAudit
| PcFinished                      (* runAsync: about to publish FINISHED *)
| PcUnregister
| PcDone.

Record Run : Type := MkRun {
  run_pc : Pc;
  run_async : bool;
  run_plan : ExecutionPlan;
  run_ctx : RunContext;
  run_start : Time;
  run_cancelled : bool;            (* runCtx.Err() != nil *)
  run_result : ExecutionResult }.

Record System : Type := MkSystem {
  sys_store : MemoryStore;
  sys_runs : gmap string Run;
  sys_cancels : gset string;       (* the ids of the cancel registry *)
  sys_bus : list ExecutionEvent;
  sys_audit : list (string * AuditEvent) }.

Definition at_pc (r : Run) (pc : Pc) : Run :=
  MkRun pc (run_async r) (run_plan r) (run_ctx r) (run_start r) (run_cancelled r) (run_result r).
Definition with_result (r : Run) (pc : Pc) (res : ExecutionResult) : Run :=
  MkRun pc (run_async r) (run_plan r) (run_ctx r) (run_start r) (run_cancelled r) res.
Definition cancelled (r : Run) : Run :=
  MkRun (run_pc r) (run_async r) (run_plan r) (run_ctx r) (run_start r) true (run_result r).

Definition put_run (s : System) (id : string) (r : Run) : System :=
  MkSystem (sys_store s) (<[id := r]> (sys_runs s)) (sys_cancels s) (sys_bus s) (sys_audit s).
Definition with_store (s : System) (st : MemoryStore) : System :=
  MkSystem st (sys_runs s) (sys_cancels s) (sys_bus s) (sys_audit s).
Definition with_cancels (s : System) (c : gset string) : System :=
  MkSystem (sys_store s) (sys_runs s) c (sys_bus s) (sys_audit s).

(** ** Operations *)

Definition publish (s : System) (t : ExecutionEventType) (id : string) (st : Status) (now : Time) : System :=
  MkSystem (sys_store s) (sys_runs s) (sys_cancels s) (sys_bus s ++ [MkExecutionEvent t id st now])
    (sys_audit s).

Definition cancelRegistry_Register (s : System) (id : string) : System :=
  with_cancels s ({[id]} ∪ sys_cancels s).
Definition cancelRegistry_Unregister (s : System) (id : string) : System :=
  with_cancels s (sys_cancels s ∖ {[id]}).

(** Signal the run of a registered id; false for an unknown one. *)
Definition cancelRegistry_Cancel (s : System) (id : string) : System * bool :=
  if bool_decide (id ∈ sys_cancels s) then
    (match sys_runs s !! id with Some r => put_run s id (cancelled r) | None => s end, true)
  else (s, false).

Definition Executor_emitAudit (s : System) (id : string) (r : Run) (now : Time) : System :=
  let p := run_plan r in
  let c := run_ctx r in
  MkSystem (sys_store s) (sys_runs s) (sys_cancels s) (sys_bus s)
    (sys_audit s ++ [(id, MkAuditEvent (rc_TraceID c) now (plan_OperationName p) (rc_UserName c)
       (rc_Target c) (rc_CapabilityHash c) (rc_ExecutionID c) (plan_Permission p) (plan_Risk p)
       (run_result r) (time_Sub now (run_start r)))]).

Definition stepStatus (ok : bool) : StepStatus := if ok then StepSuccess else StepFailed.
Definition errText (e : option error) : string := default "" e.

(** [Duration.Milliseconds] *)
Definition Milliseconds (d : Duration) : Z := Z.quot d (10 ^ 6).

Definition step_record (r : StepResult) : ExecutionStepRecord :=
  MkExecutionStepRecord (sr_StepID r) (sr_StepName r) (sr_Index r) (stepStatus (sr_Success r))
    (sr_Success r) (sr_Output r) (errText (sr_Error r)) (Milliseconds (sr_Duration r)).

(** [ExecutionService.Submit]: [id] is what [NewExecutionID] drew. *)
Definition ExecutionService_Submit (s : System) (id : string) (ctx : RunContext) (plan : ExecutionPlan)
    (now : Time) : System :=
  let rec := MkExecutionRecord id (plan_OperationName plan) (Permission_String (plan_Permission plan))
    (RiskLevel_String (plan_Risk plan)) StatusPlanning (rc_UserID ctx) (rc_UserName ctx) (rc_Target ctx)
    (rc_TraceID ctx) (rc_CapabilityHash ctx) (plan_Source plan) (plan_Origin plan) 1 now None None 0 "" [] in
  let s := with_store s (MemoryStore_Create (sys_store s) rec now) in
  let s := publish s EventExecutionCreated id StatusPlanning now in
  let ctx := MkRunContext (rc_UserID ctx) (rc_UserName ctx) (rc_Target ctx) (rc_TraceID ctx)
    (rc_CapabilityHash ctx) id in
  put_run s id (MkRun PcRegister true plan ctx now false empty_result).

(** [Runtime.Run] up to the creation of the record by [runBody]. *)
Definition Runtime_Run (s : System) (id : string) (ctx : RunContext) (plan : ExecutionPlan) (now : Time)
  : System :=
  let plan := MkExecutionPlan (plan_OperationName plan) (plan_Steps plan) (plan_Permission plan)
    (plan_Risk plan) (plan_Timeout plan) (plan_Source plan)
    (if decide (plan_Origin plan = "") then "CLI" else plan_Origin plan) in
  let rec := MkExecutionRecord id (plan_OperationName plan) (Permission_String (plan_Permission plan))
    (RiskLevel_String (plan_Risk plan)) StatusRunning (rc_UserID ctx) (rc_UserName ctx) (rc_Target ctx)
    "" (rc_CapabilityHash ctx) (plan_Source plan) (plan_Origin plan) 0 now None None 0 "" [] in
  put_run (with_store s (MemoryStore_Create (sys_store s) rec now)) id
    (MkRun PcSyncRegister false plan ctx now false empty_result).

(** The two halves of [ExecutionService.Cancel] and [Runtime.Cancel]. *)
Definition Cancel_mark (s : System) (id : string) (now : Time) : System :=
  with_store s (fst (MemoryStore_Transition (sys_store s) id StatusRunning StatusCancelRequested now)).

Definition Cancel_signal (s : System) (id : string) : System := fst (cancelRegistry_Cancel s id).

Definition ExecutionService_Cancel (s : System) (id : string) (now : Time) : System :=
  Cancel_signal (Cancel_mark s id now) id.

(** [cancelRun], and the two ends of [runBody]. *)
Definition cancelRun (r : Run) (now : Time) : Run :=
  let res := run_result r in
  with_result r (PcSettle StatusCancelled)
    (MkExecutionResult false (res_Output res) (Some ErrContext) (time_Sub now (run_start r))
       (res_Steps res) true).

Definition failRun (r : Run) (sr : StepResult) (now : Time) : Run :=
  let res := run_result r in
  with_result r (PcSettle StatusFailed)
    (MkExecutionResult false (res_Output res) (Some (ErrExecutionFailed (sr_StepName sr) (sr_Error sr)))
       (time_Sub now (run_start r)) (res_Steps res) (res_Cancelled res)).

Definition succeedRun (r : Run) (now : Time) : Run :=
  let res := run_result r in
  with_result r (PcSettle StatusSuccess)
    (MkExecutionResult true (res_Output res) (res_Error res) (time_Sub now (run_start r))
       (res_Steps res) (res_Cancelled res)).

Definition add_step (r : Run) (i : nat) (sr : StepResult) : Run :=
  let res := run_result r in
  with_result r (PcRecord i sr)
    (MkExecutionResult (res_Success res) (res_Output res +:+ sr_Output sr) (res_Error res)
       (res_Duration res) (res_Steps res ++ [sr]) (res_Cancelled res)).

(** The status [runAsync] publishes, taken from the result. *)
Definition final_status (res : ExecutionResult) : Status :=
  if res_Success res then StatusSuccess
  else if res_Cancelled res then StatusCancelled else StatusFailed.

(** One step of a run. [outcome] is what the plan's step answers, and used when
    one is executing. *)
Definition advance (s : System) (id : string) (r : Run) (outcome : StepResult) (now : Time) : System :=
  match run_pc r with
  | PcRegister => put_run (cancelRegistry_Register s id) id (at_pc r PcBegin)
  | PcBegin =>
      match MemoryStore_Transition (sys_store s) id StatusPlanning StatusRunning now with
      | (st, None) => put_run (with_store s st) id (at_pc r PcStarted)
      | (st, Some _) => put_run (with_store s st) id (at_pc r PcUnregister)
      end
  | PcStarted =>
      put_run (publish s EventExecutionStarted id StatusRunning now) id
        (MkRun (PcCheck 0) (run_async r) (run_plan r) (run_ctx r) now (run_cancelled r) (run_result r))
  | PcSyncRegister => put_run (cancelRegistry_Register s id) id (at_pc r (PcCheck 0))
  | PcCheck i =>
      if decide (i < length (plan_Steps (run_plan r)))%nat then
        if run_cancelled r then put_run s id (cancelRun r now)
        else put_run s id (at_pc r (PcExec i))
      else put_run s id (succeedRun r now)
  | PcExec i => put_run s id (add_step r i outcome)
  | PcRecord i sr =>
      put_run (with_store s (fst (MemoryStore_UpdateStep (sys_store s) id (step_record sr)))) id
        (at_pc r (PcAfter i sr))
  | PcAfter i sr =>
      if run_cancelled r then put_run s id (cancelRun r now)
      else if sr_Success sr then put_run s id (at_pc r (PcCheck (S i)))
      else put_run s id (failRun r sr now)
  | PcSettle status =>
      match MemoryStore_Transition (sys_store s) id StatusRunning status now with
      | (st, None) => put_run (with_store s st) id (at_pc r PcAudit)
      | (st, Some _) => put_run (with_store s st) id (at_pc r PcSettle2)
      end
  | PcSettle2 =>
      put_run (with_store s (fst (MemoryStore_Transition (sys_store s) id StatusCancelRequested
        StatusCancelled now))) id (at_pc r PcAudit)
  | PcAudit =>
      put_run (Executor_emitAudit s id r now) id
        (at_pc r (if run_async r then PcFinished else PcUnregister))
  | PcFinished =>
      put_run (publish s EventExecutionFinished id (final_status (run_result r)) now) id
        (at_pc r PcUnregister)
  | PcUnregister => put_run (cancelRegistry_Unregister s id) id (at_pc r PcDone)
  | PcDone => s
  end.

(** ** The interleaving *)

Inductive Action : Type :=
| ActSubmit (id : string) (ctx : RunContext) (plan : ExecutionPlan)
| ActRun (id : string) (ctx : RunContext) (plan : ExecutionPlan)
| ActAdvance (id : string) (outcome : StepResult)
| ActCancelMark (id : string)
| ActCancelSignal (id : string)
| ActParentDone (id : string).     (* the caller's context is cancelled *)

(** An id is drawn afresh: an action that would reuse one does not happen. *)
Definition exec_act (s : System) (a : Action * Time) : System :=
  let '(a, now) := a in
  match a with
  | ActSubmit id ctx plan =>
      match sys_runs s !! id with
      | None => ExecutionService_Submit s id ctx plan now
      | Some _ => s
      end
  | ActRun id ctx plan =>
      match sys_runs s !! id with
      | None => Runtime_Run s id ctx plan now
      | Some _ => s
      end
  | ActAdvance id outcome =>
      match sys_runs s !! id with Some r => advance s id r outcome now | None => s end
  | ActCancelMark id => Cancel_mark s id now
  | ActCancelSignal id => Cancel_signal s id
  | ActParentDone id =>
      match sys_runs s !! id with Some r => put_run s id (cancelled r) | None => s end
  end.

Definition NewRuntime : System := MkSystem NewMemoryStore ∅ ∅ [] [].

Definition exec_run (acts : list (Action * Time)) : System := run_list exec_act NewRuntime acts.
