(* ===== verification/ExecutorSpec.v ===== *)
(** * What the execution core guarantees

    Properties of every interleaving of submissions, runs, step outcomes and
    cancellations from the initial system. *)

From S2P Require Import Prelude Execution Executor.

(** ** The invariant *)

Definition terminal (st : Status) : Prop :=
  st = StatusSuccess \/ st = StatusFailed \/ st = StatusCancelled.

Definition in_flight (st : Status) : Prop := st = StatusRunning \/ st = StatusCancelRequested.

Definition all_ok (l : list StepResult) : Prop := Forall (fun sr => sr_Success sr = true) l.

(** [v] is the verdict of a run of [n] steps with result [res]. *)
Definition verdict (n : nat) (res : ExecutionResult) (v : Status) : Prop :=
  final_status res = v /\ (length (res_Steps res) <= n)%nat /\
  match v with
  | StatusSuccess => length (res_Steps res) = n /\ all_ok (res_Steps res)
  | StatusFailed => exists pre sr, res_Steps res = pre ++ [sr] /\ all_ok pre /\ sr_Success sr = false
  | StatusCancelled => True
  | _ => False
  end.

Definition steps_of (r : Run) : list StepResult := res_Steps (run_result r).
Definition total (r : Run) : nat := length (plan_Steps (run_plan r)).

Definition fresh_result (res : ExecutionResult) : Prop := res_Success res = false /\ res_Cancelled res = false.

Definition pc_ok (r : Run) (st : Status) : Prop :=
  match run_pc r with
  | PcRegister | PcBegin => st = StatusPlanning /\ steps_of r = [] /\ fresh_result (run_result r)
  | PcStarted | PcSyncRegister => in_flight st /\ steps_of r = [] /\ fresh_result (run_result r)
  | PcCheck i => in_flight st /\ (i <= total r)%nat /\ length (steps_of r) = i /\ all_ok (steps_of r) /\
      fresh_result (run_result r)
  | PcExec i => in_flight st /\ (i < total r)%nat /\ length (steps_of r) = i /\ all_ok (steps_of r) /\
      fresh_result (run_result r)
  | PcRecord i sr | PcAfter i sr =>
      in_flight st /\ (i < total r)%nat /\ fresh_result (run_result r) /\
      exists pre, steps_of r = pre ++ [sr] /\ length pre = i /\ all_ok pre
  | PcSettle v => in_flight st /\ verdict (total r) (run_result r) v
  | PcSettle2 => st = StatusCancelRequested /\ exists v, verdict (total r) (run_result r) v
  | PcAudit | PcFinished | PcUnregister | PcDone =>
      exists v, verdict (total r) (run_result r) v /\ (st = v \/ st = StatusCancelled)
  end.

(** The steps the record of a run holds. *)
Definition recorded (l : list StepResult) : list ExecutionStepRecord :=
  foldl upsert_step [] (map step_record l).

Definition stored_steps (r : Run) : list ExecutionStepRecord :=
  recorded (match run_pc r with PcRecord i _ => take i (steps_of r) | _ => steps_of r end).

Definition sys_inv (s : System) : Prop :=
  (forall id, match sys_runs s !! id with
     | None => items (sys_store s) !! id = None
     | Some r => exists rec, items (sys_store s) !! id = Some rec /\ pc_ok r (er_Status rec) /\
         er_Steps rec = stored_steps r
     end) /\
  (forall e, e ∈ sys_bus s -> ev_Type e = EventExecutionFinished ->
     exists r, sys_runs s !! ev_ID e = Some r /\ (run_pc r = PcUnregister \/ run_pc r = PcDone) /\
       ev_Status e = final_status (run_result r)).

(** ** Lemmas *)

Lemma verdict_terminal n res v : verdict n res v -> terminal v.
Proof. unfold verdict, terminal. destruct v; tauto. Qed.

Lemma terminal_not_in_flight st : terminal st -> ~ in_flight st /\ st <> StatusPlanning.
Proof. unfold terminal, in_flight. intros [->|[->| ->]]; split; [|done| |done| |done]; by intros [?|?]. Qed.

Lemma pc_ok_settled r st :
  pc_ok r st -> terminal st ->
  run_pc r = PcAudit \/ run_pc r = PcFinished \/ run_pc r = PcUnregister \/ run_pc r = PcDone.
Proof.
  unfold pc_ok. intros Hp Ht. destruct (terminal_not_in_flight st Ht) as [Hn Hp'].
  destruct (run_pc r); try tauto. by destruct Hp as [-> _]; destruct Ht as [?|[?|?]].
Qed.

Lemma pc_ok_cancelled r st : pc_ok (cancelled r) st <-> pc_ok r st.
Proof. done. Qed.

(** What one transition does to the record of its id. *)
Lemma Transition_lookup st id from to_ now id' :
  items (fst (MemoryStore_Transition st id from to_ now)) !! id' =
    match items st !! id' with
    | Some rec => if decide (id' = id /\ er_Status rec = from) then Some (move_to rec to_ now) else Some rec
    | None => None
    end.
Proof.
  unfold MemoryStore_Transition. destruct (items st !! id) as [rec|] eqn:E; simpl.
  - destruct (decide (er_Status rec <> from)) as [Hn|Hn]; simpl.
    + destruct (items st !! id') as [rec'|] eqn:E'; [|done]. rewrite decide_False; [done|].
      intros [-> ?]. congruence.
    + apply dec_stable in Hn. destruct (decide (id' = id)) as [->|Hne].
      * by rewrite lookup_insert_eq, E, decide_True.
      * rewrite lookup_insert_ne by done. destruct (items st !! id') eqn:E'; [|done].
        rewrite decide_False; [done|]. by intros [? _].
  - destruct (items st !! id') as [rec'|] eqn:E'; [|done]. rewrite decide_False; [done|].
    intros [-> ?]. congruence.
Qed.

Lemma UpdateStep_lookup st id step id' :
  items (fst (MemoryStore_UpdateStep st id step)) !! id' =
    match items st !! id' with
    | Some rec => if decide (id' = id) then Some (set_steps rec (upsert_step (er_Steps rec) step)) else Some rec
    | None => None
    end.
Proof.
  unfold MemoryStore_UpdateStep. destruct (items st !! id) as [rec|] eqn:E; simpl.
  - destruct (decide (id' = id)) as [->|Hne].
    + by rewrite lookup_insert_eq, E.
    + rewrite lookup_insert_ne by done. by destruct (items st !! id').
  - destruct (items st !! id') as [rec'|] eqn:E'; [|done]. rewrite decide_False; [done|]. congruence.
Qed.

Lemma Transition_ok st id from to_ now rec :
  items st !! id = Some rec ->
  snd (MemoryStore_Transition st id from to_ now) =
    if decide (er_Status rec = from) then None else Some ErrConflict.
Proof.
  intros Hr. unfold MemoryStore_Transition. rewrite Hr.
  destruct (decide (er_Status rec <> from)), (decide (er_Status rec = from)); done || (exfalso; tauto).
Qed.

Lemma recorded_snoc l sr : recorded (l ++ [sr]) = upsert_step (recorded l) (step_record sr).
Proof. unfold recorded. by rewrite map_app, foldl_app. Qed.

(** The part of the invariant about one id, and how it is carried. *)
Definition id_inv (s : System) (id : string) : Prop :=
  match sys_runs s !! id with
  | None => items (sys_store s) !! id = None
  | Some r => exists rec, items (sys_store s) !! id = Some rec /\ pc_ok r (er_Status rec) /\
      er_Steps rec = stored_steps r
  end.

Lemma id_inv_frame s s' id :
  sys_runs s' !! id = sys_runs s !! id -> items (sys_store s') !! id = items (sys_store s) !! id ->
  id_inv s id -> id_inv s' id.
Proof. unfold id_inv. by intros -> ->. Qed.

Lemma id_inv_put s id r rec :
  items (sys_store s) !! id = Some rec -> pc_ok r (er_Status rec) -> er_Steps rec = stored_steps r ->
  id_inv (put_run s id r) id.
Proof. intros. unfold id_inv, put_run. simpl. rewrite lookup_insert_eq. eauto. Qed.

Lemma settled_pc_ok r st v (pc : Pc) :
  verdict (total r) (run_result r) v -> st = v \/ st = StatusCancelled ->
  pc = PcAudit \/ pc = PcFinished \/ pc = PcUnregister \/ pc = PcDone -> pc_ok (at_pc r pc) st.
Proof. intros Hv Hst [->|[->|[->| ->]]]; exists v; done. Qed.

(** What a step of a run starts from: the run, its record, and the invariant. *)
Record stepping (s : System) (id : string) (r : Run) (rec : ExecutionRecord) : Prop := MkStepping {
  sg_run : sys_runs s !! id = Some r;
  sg_rec : items (sys_store s) !! id = Some rec;
  sg_pc : pc_ok r (er_Status rec);
  sg_steps : er_Steps rec = stored_steps r }.

Lemma to_settle s id r rec r' v :
  stepping s id r rec -> (forall i sr, run_pc r <> PcRecord i sr) ->
  run_pc r' = PcSettle v -> steps_of r' = steps_of r -> pc_ok r' (er_Status rec) ->
  id_inv (put_run s id r') id.
Proof.
  intros [Hr Hrec Hpc Hst] Hn Hp Hs Hok. apply (id_inv_put s id r' rec); [done|done|].
  unfold stored_steps in *. rewrite Hp, Hs, Hst. destruct (run_pc r) as [| | | |?|?|i sr|? ?|?| | | | |]; try done.
  by destruct (Hn i sr).
Qed.

(** Before the loop. *)
Lemma advance_start_inv s id r outcome now rec :
  stepping s id r rec ->
  match run_pc r with PcRegister | PcBegin | PcStarted | PcSyncRegister => True | _ => False end ->
  id_inv (advance s id r outcome now) id.
Proof.
  intros Hstep Hwhere. pose proof Hstep as [Hr Hrec Hpc Hst]. unfold pc_ok in Hpc. unfold stored_steps in Hst.
  unfold advance. destruct (run_pc r) as [| | | |i|i|i sr|i sr|v| | | | |] eqn:Epc; try (exfalso; exact Hwhere).
  - by apply (id_inv_put (cancelRegistry_Register s id) id _ rec).
  - destruct Hpc as (Hpl & Hsteps & Hf).
    pose proof (Transition_ok (sys_store s) id StatusPlanning StatusRunning now rec Hrec) as Hok.
    pose proof (Transition_lookup (sys_store s) id StatusPlanning StatusRunning now id) as Hl.
    rewrite Hrec, decide_True in Hl by done. rewrite decide_True in Hok by done.
    destruct (MemoryStore_Transition _ _ _ _ _) as [st e]; cbn [fst snd] in *. subst e.
    apply (id_inv_put (with_store s st) id _ _ Hl).
    + rewrite move_to_status. split; [by left|done].
    + rewrite move_to_steps. done.
  - by apply (id_inv_put (publish s _ _ _ _) id _ rec); [| |]; destruct Hpc as (? & Hs & ?);
      try done; split; [done|split; [lia|unfold steps_of in *; simpl; rewrite Hs; split; [done|split; [constructor|done]]]].
  - by apply (id_inv_put (cancelRegistry_Register s id) id _ rec); [| |]; destruct Hpc as (? & Hs & ?);
      try done; split; [done|split; [lia|unfold steps_of in *; simpl; rewrite Hs; split; [done|split; [constructor|done]]]].
Qed.

(** In the loop. *)
Lemma advance_loop_inv s id r outcome now rec :
  stepping s id r rec ->
  match run_pc r with PcCheck _ | PcExec _ | PcRecord _ _ | PcAfter _ _ => True | _ => False end ->
  id_inv (advance s id r outcome now) id.
Proof.
  intros Hstep Hwhere. pose proof Hstep as [Hr Hrec Hpc Hst]. unfold pc_ok in Hpc. unfold stored_steps in Hst.
  unfold advance. destruct (run_pc r) as [| | | |i|i|i sr|i sr|v| | | | |] eqn:Epc; try (exfalso; exact Hwhere).
  - destruct Hpc as (Hfl & Hi & Hlen & Hall & Hfr). case_decide as Hlt.
    + destruct (run_cancelled r).
      * eapply (to_settle s id r rec _ _ Hstep); [by rewrite Epc|done|done|]. split; [done|]. split; [done|].
        split; [|done]. change (length (steps_of r) <= total r)%nat. lia.
      * by apply (id_inv_put s id _ rec).
    + eapply (to_settle s id r rec _ _ Hstep); [by rewrite Epc|done|done|]. split; [done|]. split; [done|].
      change (length (steps_of r) <= total r /\ length (steps_of r) = total r /\ all_ok (steps_of r))%nat.
      unfold total in *. split; [lia|]. split; [lia|done].
  - destruct Hpc as (Hfl & Hi & Hlen & Hall & Hfr). apply (id_inv_put s id _ rec); [done| |].
    + split; [done|]. split; [done|]. split; [done|]. by exists (steps_of r).
    + rewrite Hst. unfold stored_steps. simpl. unfold steps_of. simpl.
      by rewrite take_app_length' by done.
  - destruct Hpc as (Hfl & Hi & Hfr & pre & Hs & Hlen & Hall).
    pose proof (UpdateStep_lookup (sys_store s) id (step_record sr) id) as Hl.
    rewrite Hrec, decide_True in Hl by done.
    apply (id_inv_put (with_store s _) id _ _ Hl).
    + split; [done|]. split; [done|]. split; [done|]. by exists pre.
    + simpl. rewrite Hst. unfold stored_steps. simpl. change (steps_of (at_pc r (PcAfter i sr))) with (steps_of r).
      by rewrite Hs, take_app_length', recorded_snoc by done.
  - destruct Hpc as (Hfl & Hi & Hfr & pre & Hs & Hlen & Hall).
    assert (Hle : (length (steps_of r) <= total r)%nat) by (rewrite Hs, length_app; simpl; lia).
    destruct (run_cancelled r); [|destruct (sr_Success sr) eqn:Es].
    + eapply (to_settle s id r rec _ _ Hstep); [by rewrite Epc|done|done|]. split; [done|]. by split.
    + apply (id_inv_put s id _ rec); [done| |done]. split; [done|]. split; [unfold total in *; simpl; lia|].
      change (steps_of (at_pc r (PcCheck (S i)))) with (steps_of r). rewrite Hs, length_app. simpl.
      split; [lia|]. split; [|done]. apply Forall_app. split; [done|]. by constructor.
    + eapply (to_settle s id r rec _ _ Hstep); [by rewrite Epc|done|done|]. split; [done|]. split.
      * unfold final_status. simpl. destruct Hfr as [_ ->]. done.
      * split; [done|]. exists pre, sr. done.
Qed.

(** After the loop. *)
Lemma advance_settle_inv s id r outcome now rec :
  stepping s id r rec ->
  match run_pc r with PcSettle _ | PcSettle2 | PcAudit | PcFinished | PcUnregister | PcDone => True | _ => False end ->
  id_inv (advance s id r outcome now) id.
Proof.
  intros Hstep Hwhere. pose proof Hstep as [Hr Hrec Hpc Hst]. unfold pc_ok in Hpc. unfold stored_steps in Hst.
  unfold advance. destruct (run_pc r) as [| | | |i|i|i sr|i sr|v| | | | |] eqn:Epc; try (exfalso; exact Hwhere).
  - destruct Hpc as [Hfl Hv].
    pose proof (Transition_ok (sys_store s) id StatusRunning v now rec Hrec) as Hok.
    pose proof (Transition_lookup (sys_store s) id StatusRunning v now id) as Hl. rewrite Hrec in Hl.
    destruct (MemoryStore_Transition _ _ _ _ _) as [st e]; cbn [fst snd] in *. subst e.
    destruct (decide (er_Status rec = StatusRunning)) as [He|He].
    + rewrite decide_True in Hl by done. apply (id_inv_put (with_store s st) id _ _ Hl).
      * rewrite move_to_status. eapply settled_pc_ok; [done|by left|by left].
      * rewrite move_to_steps. done.
    + rewrite decide_False in Hl by (by intros [_ ?]). apply (id_inv_put (with_store s st) id _ _ Hl).
      * destruct Hfl as [?|?]; [done|]. split; [done|by exists v].
      * done.
  - destruct Hpc as (Hcr & v & Hv).
    pose proof (Transition_lookup (sys_store s) id StatusCancelRequested StatusCancelled now id) as Hl.
    rewrite Hrec, decide_True in Hl by done. apply (id_inv_put (with_store s _) id _ _ Hl).
    + rewrite move_to_status. eapply settled_pc_ok; [done|by right|by left].
    + rewrite move_to_steps. done.
  - destruct Hpc as (v & Hv & Hs). apply (id_inv_put (Executor_emitAudit s id r now) id _ rec Hrec).
    + eapply settled_pc_ok; [done|done|]. destruct (run_async r); tauto.
    + rewrite Hst. unfold stored_steps. simpl. by destruct (run_async r).
  - destruct Hpc as (v & Hv & Hs). apply (id_inv_put (publish s _ _ _ _) id _ rec Hrec); [|done].
    eapply settled_pc_ok; [done|done|tauto].
  - destruct Hpc as (v & Hv & Hs). apply (id_inv_put (cancelRegistry_Unregister s id) id _ rec Hrec); [|done].
    eapply settled_pc_ok; [done|done|tauto].
  - unfold id_inv. rewrite Hr. exists rec. unfold stored_steps. rewrite Epc. split; [done|]. split; [|done]. unfold pc_ok. by rewrite Epc.
Qed.

(** A run's own step keeps the invariant of its id. *)
Lemma advance_id_inv s id r outcome now rec :
  stepping s id r rec -> id_inv (advance s id r outcome now) id.
Proof.
  intros Hstep. destruct (run_pc r) eqn:Epc;
    first [by apply (advance_start_inv s id r outcome now rec); [|rewrite Epc]
          |by apply (advance_loop_inv s id r outcome now rec); [|rewrite Epc]
          |by apply (advance_settle_inv s id r outcome now rec); [|rewrite Epc]].
Qed.

(** A run's own step leaves every other id alone. *)
Lemma advance_frame s id r outcome now id' :
  id' <> id ->
  sys_runs (advance s id r outcome now) !! id' = sys_runs s !! id' /\
  items (sys_store (advance s id r outcome now)) !! id' = items (sys_store s) !! id'.
Proof.
  intros Hne.
  assert (Ht : forall from to_, items (fst (MemoryStore_Transition (sys_store s) id from to_ now)) !! id' =
    items (sys_store s) !! id').
  { intros. rewrite Transition_lookup. destruct (items (sys_store s) !! id'); [|done].
    rewrite decide_False; [done|]. by intros [? _]. }
  unfold advance. destruct (run_pc r); simpl;
    repeat (match goal with
      | |- context [MemoryStore_Transition (sys_store s) id ?f ?t now] =>
          specialize (Ht f t); destruct (MemoryStore_Transition (sys_store s) id f t now) as [? [?|]]
      | |- context [if decide ?P then _ else _] => destruct (decide P)
      | |- context [if ?b then _ else _] => destruct b
      end; simpl in *);
    rewrite ?lookup_insert_ne by done; try done.
  rewrite UpdateStep_lookup. destruct (items (sys_store s) !! id'); [|done]. by rewrite decide_False.
Qed.

Lemma id_inv_cancelled s id r :
  sys_runs s !! id = Some r -> id_inv s id -> id_inv (put_run s id (cancelled r)) id.
Proof.
  intros Hr. unfold id_inv. rewrite Hr. simpl. rewrite lookup_insert_eq. done.
Qed.

Lemma id_inv_mark s id now : id_inv s id -> id_inv (Cancel_mark s id now) id.
Proof.
  unfold id_inv, Cancel_mark. simpl. rewrite Transition_lookup.
  destruct (sys_runs s !! id) as [r|]; [|by intros ->].
  intros (rec & -> & Hpc & Hst). case_decide as Hd; [|by eauto].
  destruct Hd as [_ Hrun]. eexists. split; [done|]. rewrite move_to_status, move_to_steps.
  split; [|done]. unfold pc_ok in *. rewrite Hrun in Hpc.
  destruct (run_pc r); try (destruct Hpc as [_ Hpc]; split; [by right|done]).
  - by destruct Hpc as [? _].
  - by destruct Hpc as [? _].
  - by destruct Hpc as [? _].
  - destruct Hpc as (v & Hv & [Hs|Hs]); [|done]. apply verdict_terminal in Hv. subst v.
    by destruct Hv as [?|[?|?]].
  - destruct Hpc as (v & Hv & [Hs|Hs]); [|done]. apply verdict_terminal in Hv. subst v.
    by destruct Hv as [?|[?|?]].
  - destruct Hpc as (v & Hv & [Hs|Hs]); [|done]. apply verdict_terminal in Hv. subst v.
    by destruct Hv as [?|[?|?]].
  - destruct Hpc as (v & Hv & [Hs|Hs]); [|done]. apply verdict_terminal in Hv. subst v.
    by destruct Hv as [?|[?|?]].
Qed.

(** The id an action is about. *)
Definition act_id (a : Action) : string :=
  match a with
  | ActSubmit id _ _ | ActRun id _ _ | ActAdvance id _ | ActCancelMark id | ActCancelSignal id
  | ActParentDone id => id
  end.

Lemma exec_act_frame s a now id' :
  id' <> act_id a ->
  sys_runs (exec_act s (a, now)) !! id' = sys_runs s !! id' /\
  items (sys_store (exec_act s (a, now))) !! id' = items (sys_store s) !! id'.
Proof.
  intros Hne. destruct a as [id ctx plan|id ctx plan|id outcome|id|id|id]; cbn [exec_act act_id] in *.
  - destruct (sys_runs s !! id); [done|]. simpl. by rewrite !lookup_insert_ne by done.
  - destruct (sys_runs s !! id); [done|]. simpl. by rewrite !lookup_insert_ne by done.
  - destruct (sys_runs s !! id); [|done]. by apply advance_frame.
  - split; [done|]. simpl. rewrite Transition_lookup. destruct (items (sys_store s) !! id'); [|done].
    rewrite decide_False; [done|]. by intros [? _].
  - unfold Cancel_signal, cancelRegistry_Cancel. case_bool_decide; [|done]. simpl.
    destruct (sys_runs s !! id); [|done]. simpl. by rewrite lookup_insert_ne.
  - destruct (sys_runs s !! id); [|done]. simpl. by rewrite lookup_insert_ne.
Qed.

Lemma exec_act_id_inv s a now id : id_inv s id -> id_inv (exec_act s (a, now)) id.
Proof.
  intros Hi. destruct (decide (id = act_id a)) as [->|Hne].
  2: { destruct (exec_act_frame s a now id Hne). by eapply id_inv_frame. }
  destruct a as [id ctx plan|id ctx plan|id outcome|id|id|id]; cbn [exec_act act_id] in *.
  - destruct (sys_runs s !! id) eqn:Er; [done|]. unfold id_inv. simpl. rewrite !lookup_insert_eq.
    eexists. split; [done|]. done.
  - destruct (sys_runs s !! id) eqn:Er; [done|]. unfold id_inv. simpl. rewrite !lookup_insert_eq.
    eexists. split; [done|]. split; [|done]. split; [by left|done].
  - destruct (sys_runs s !! id) as [r|] eqn:Er; [|done]. pose proof Hi as Hi'. unfold id_inv in Hi'.
    rewrite Er in Hi'. destruct Hi' as (rec & ? & ? & ?). by apply (advance_id_inv s id r outcome now rec).
  - by apply id_inv_mark.
  - unfold Cancel_signal, cancelRegistry_Cancel. case_bool_decide; [|done]. simpl.
    destruct (sys_runs s !! id) eqn:Er; [|done]. by apply id_inv_cancelled.
  - destruct (sys_runs s !! id) eqn:Er; [|done]. by apply id_inv_cancelled.
Qed.

(** What the bus says of a finished run. *)
Definition bus_inv (s : System) : Prop :=
  forall e, e ∈ sys_bus s -> ev_Type e = EventExecutionFinished ->
    exists r, sys_runs s !! ev_ID e = Some r /\ (run_pc r = PcUnregister \/ run_pc r = PcDone) /\
      ev_Status e = final_status (run_result r).

Lemma bus_step s s' id r r' l :
  bus_inv s -> sys_runs s !! id = Some r ->
  sys_runs s' = <[id := r']> (sys_runs s) -> sys_bus s' = sys_bus s ++ l ->
  (run_pc r = PcUnregister \/ run_pc r = PcDone ->
     (run_pc r' = PcUnregister \/ run_pc r' = PcDone) /\ run_result r' = run_result r) ->
  (forall e, e ∈ l -> ev_Type e = EventExecutionFinished ->
     ev_ID e = id /\ run_pc r' = PcUnregister /\ ev_Status e = final_status (run_result r')) ->
  bus_inv s'.
Proof.
  intros Hb Hr Hruns Hbus Hpc Hl e He Ht. rewrite Hbus in He. rewrite Hruns.
  apply elem_of_app in He as [He|He].
  - destruct (Hb e He Ht) as (r0 & Hr0 & Hp & Hst). destruct (decide (ev_ID e = id)) as [Heq|Hne].
    + rewrite Heq in *. rewrite lookup_insert_eq. assert (r0 = r) as -> by congruence.
      destruct (Hpc Hp) as [? Hres]. exists r'. by rewrite Hres.
    + rewrite lookup_insert_ne by done. eauto.
  - destruct (Hl e He Ht) as (-> & Hp & Hst). rewrite lookup_insert_eq. eauto.
Qed.

Lemma advance_bus s id r outcome now :
  bus_inv s -> sys_runs s !! id = Some r -> bus_inv (advance s id r outcome now).
Proof.
  intros Hb Hr. unfold advance. destruct (run_pc r) eqn:Epc;
    repeat (match goal with
      | |- context [MemoryStore_Transition (sys_store s) id ?f ?t now] =>
          destruct (MemoryStore_Transition (sys_store s) id f t now) as [? [?|]]
      | |- context [if decide ?P then _ else _] => destruct (decide P)
      | |- context [if ?b then _ else _] => destruct b
      end);
    try done;
    (eapply (bus_step s _ id r _ []);
      [done|done|reflexivity|by rewrite app_nil_r
      |rewrite Epc; intros [?|?]; (discriminate || (split; [tauto|done]))
      |by intros ? ?%elem_of_nil]) ||
    (eapply (bus_step s _ id r _ [_]);
      [done|done|reflexivity|reflexivity|rewrite Epc; intros [?|?]; discriminate
      |intros e [->|?%elem_of_nil]%elem_of_cons; [|done]; simpl; intros; (discriminate || done)]).
Qed.

Lemma exec_act_bus s a now : bus_inv s -> bus_inv (exec_act s (a, now)).
Proof.
  intros Hb.
  assert (Hcan : forall id r, sys_runs s !! id = Some r -> bus_inv (put_run s id (cancelled r))).
  { intros id r Hr. eapply (bus_step s _ id r _ []); [done|done|reflexivity|by rewrite app_nil_r|done|].
    by intros ? ?%elem_of_nil. }
  assert (Hnew : forall id r l, sys_runs s !! id = None ->
    (forall e, e ∈ l -> ev_Type e <> EventExecutionFinished) ->
    forall s', sys_runs s' = <[id := r]> (sys_runs s) -> sys_bus s' = sys_bus s ++ l -> bus_inv s').
  { intros id r l Hr Hl s' Hruns Hbus e He Ht. rewrite Hbus in He. rewrite Hruns.
    apply elem_of_app in He as [He|He]; [|by destruct (Hl e)].
    destruct (Hb e He Ht) as (r0 & Hr0 & ?). rewrite lookup_insert_ne by congruence. eauto. }
  destruct a as [id ctx plan|id ctx plan|id outcome|id|id|id]; cbn [exec_act].
  - destruct (sys_runs s !! id) eqn:Er; [done|].
    eapply Hnew; [done| |reflexivity|reflexivity]. by intros e [->|?%elem_of_nil]%elem_of_cons.
  - destruct (sys_runs s !! id) eqn:Er; [done|].
    eapply (Hnew id _ []); [done| |reflexivity|by rewrite app_nil_r]. by intros e ?%elem_of_nil.
  - destruct (sys_runs s !! id) eqn:Er; [|done]. by apply advance_bus.
  - done.
  - unfold Cancel_signal, cancelRegistry_Cancel. case_bool_decide; [|done]. simpl.
    destruct (sys_runs s !! id) eqn:Er; [|done]. by apply Hcan.
  - destruct (sys_runs s !! id) eqn:Er; [|done]. by apply Hcan.
Qed.

Lemma exec_run_inv acts id : id_inv (exec_run acts) id /\ bus_inv (exec_run acts).
Proof.
  unfold exec_run. apply (run_list_invariant exec_act (fun s => id_inv s id /\ bus_inv s)).
  - intros s [a now] [? ?]. split; [by apply exec_act_id_inv|by apply exec_act_bus].
  - split; [done|]. by intros e ?%elem_of_nil.
Qed.

Lemma exec_run_app acts more : exec_run (acts ++ more) = run_list exec_act (exec_run acts) more.
Proof. unfold exec_run, run_list. by rewrite foldl_app. Qed.

Lemma run_list_id_inv s more id : id_inv s id -> id_inv (run_list exec_act s more) id.
Proof.
  apply (run_list_invariant exec_act (fun s => id_inv s id)). intros s' [a now] Hi.
  by apply exec_act_id_inv.
Qed.

(** *** Settled records *)

Definition settled (s : System) (id : string) (rec : ExecutionRecord) : Prop :=
  items (sys_store s) !! id = Some rec /\ terminal (er_Status rec) /\
  exists r, sys_runs s !! id = Some r /\
    (run_pc r = PcAudit \/ run_pc r = PcFinished \/ run_pc r = PcUnregister \/ run_pc r = PcDone).

Lemma settled_act s a id rec : id_inv s id -> settled s id rec -> settled (exec_act s a) id rec.
Proof.
  intros Hi (Hrec & Ht & r & Hr & Hpc). destruct a as [a now].
  destruct (decide (id = act_id a)) as [->|Hne].
  2: { destruct (exec_act_frame s a now id Hne) as [Hr' Hs']. unfold settled. rewrite Hr', Hs'. eauto. }
  unfold settled. destruct a as [id ctx plan|id ctx plan|id outcome|id|id|id]; cbn [exec_act act_id] in *;
    rewrite ?Hr; eauto.
  - unfold advance. destruct Hpc as [Hp|[Hp|[Hp|Hp]]]; rewrite Hp; simpl; rewrite ?lookup_insert_eq;
      (split; [done|split; [done|]]); eexists; split; try done; simpl.
    + destruct (run_async r); tauto.
    + tauto.
    + tauto.
    + tauto.
  - simpl. rewrite Transition_lookup, Hrec. rewrite decide_False; [eauto|].
    intros [_ Hs]. destruct Ht as [?|[?|?]]; congruence.
  - unfold Cancel_signal, cancelRegistry_Cancel. case_bool_decide; [|eauto].
    rewrite Hr. simpl. rewrite lookup_insert_eq. split; [done|]. split; [done|].
    exists (cancelled r). done.
  - simpl. rewrite lookup_insert_eq. split; [done|]. split; [done|]. exists (cancelled r). done.
Qed.

(** *** Progress *)

(** How many more of its own steps a run takes at most. *)
Definition pc_measure (n : nat) (pc : Pc) : nat :=
  match pc with
  | PcRegister => 4 * n + 10
  | PcBegin => 4 * n + 9
  | PcStarted | PcSyncRegister => 4 * n + 8
  | PcCheck i => 4 * (n - i) + 7
  | PcExec i => 4 * (n - i) + 6
  | PcRecord i _ => 4 * (n - i) + 5
  | PcAfter i _ => 4 * (n - i) + 4
  | PcSettle _ => 5
  | PcSettle2 => 4
  | PcAudit => 3
  | PcFinished => 2
  | PcUnregister => 1
  | PcDone => 0
  end.

Definition run_measure (r : Run) : nat := pc_measure (total r) (run_pc r).

Lemma advance_measure s id r outcome now st :
  sys_runs s !! id = Some r -> pc_ok r st ->
  exists r', sys_runs (advance s id r outcome now) !! id = Some r' /\ (run_measure r' <= run_measure r - 1)%nat.
Proof.
  intros Hr Hpc. unfold pc_ok in Hpc. unfold run_measure, advance. destruct (run_pc r) eqn:Epc;
    repeat (match goal with
      | |- context [MemoryStore_Transition (sys_store s) id ?f ?t now] =>
          destruct (MemoryStore_Transition (sys_store s) id f t now) as [? [?|]]
      | |- context [if decide ?P then _ else _] => destruct (decide P)
      | |- context [if run_cancelled ?b then _ else _] => destruct (run_cancelled b)
      | |- context [if sr_Success ?b then _ else _] => destruct (sr_Success b)
      end);
    try (simpl sys_runs; rewrite lookup_insert_eq; eexists; split; [reflexivity|];
         unfold total in *; simpl; try destruct (run_async r); simpl; lia).
  exists r. rewrite Epc. simpl. split; [done|lia].
Qed.

(** Own steps of the run [id] in a schedule. *)
Fixpoint own_steps (id : string) (acts : list (Action * Time)) : nat :=
  match acts with
  | [] => 0
  | (a, _) :: acts' =>
      (match a with ActAdvance id' _ => if decide (id' = id) then 1 else 0 | _ => 0 end
       + own_steps id acts')%nat
  end.

Lemma exec_act_measure s a now id r :
  id_inv s id -> sys_runs s !! id = Some r ->
  exists r', sys_runs (exec_act s (a, now)) !! id = Some r' /\
    (run_measure r' <= run_measure r - own_steps id [(a, now)])%nat.
Proof.
  intros Hi Hr. destruct (decide (id = act_id a)) as [->|Hne].
  2: { destruct (exec_act_frame s a now id Hne) as [-> _]. exists r. split; [done|].
       destruct a; simpl; try lia. rewrite decide_False; [lia|]. simpl in Hne. congruence. }
  destruct a as [id ctx plan|id ctx plan|id outcome|id|id|id]; cbn [exec_act act_id own_steps] in *;
    rewrite ?Hr; try (exists r; split; [done|lia]).
  - rewrite decide_True by done. unfold id_inv in Hi. rewrite Hr in Hi. destruct Hi as (rec & _ & Hpc & _).
    destruct (advance_measure s id r outcome now _ Hr Hpc) as (r' & ? & ?). exists r'. split; [done|lia].
  - unfold Cancel_signal, cancelRegistry_Cancel. case_bool_decide; [|exists r; split; [done|lia]].
    rewrite Hr. simpl. rewrite lookup_insert_eq. exists (cancelled r). split; [done|].
    unfold run_measure, total. simpl. lia.
  - simpl. rewrite lookup_insert_eq. exists (cancelled r). split; [done|].
    unfold run_measure, total. simpl. lia.
Qed.

Lemma run_list_measure s more id r :
  id_inv s id -> sys_runs s !! id = Some r ->
  exists r', sys_runs (run_list exec_act s more) !! id = Some r' /\
    (run_measure r' <= run_measure r - own_steps id more)%nat.
Proof.
  revert s r. induction more as [|[a now] more IH]; intros s r Hi Hr.
  { exists r. split; [done|]. simpl. lia. }
  destruct (exec_act_measure s a now id r Hi Hr) as (r1 & Hr1 & Hm1).
  destruct (IH _ r1 (exec_act_id_inv s a now id Hi) Hr1) as (r2 & Hr2 & Hm2).
  exists r2. split; [done|]. simpl in *. lia.
Qed.

Lemma measure_done r : run_measure r = 0%nat -> run_pc r = PcDone.
Proof. unfold run_measure. destruct (run_pc r); simpl; try done; lia. Qed.

(** *** Cancellation *)

(** A check of the context is still to come. *)
Definition check_ahead (r : Run) : Prop :=
  match run_pc r with
  | PcRegister | PcBegin | PcStarted | PcSyncRegister => (0 < total r)%nat
  | PcCheck i => (i < total r)%nat
  | PcExec _ | PcRecord _ _ | PcAfter _ _ => True
  | _ => False
  end.

(** A step is executing or the run has none in flight. *)
Definition executing (r : Run) : nat := match run_pc r with PcExec _ => 1 | _ => 0 end.

Definition doomed (r : Run) : Prop :=
  run_cancelled r = true /\
  (check_ahead r \/
   match run_pc r with
   | PcSettle _ | PcSettle2 | PcAudit | PcFinished | PcUnregister | PcDone =>
       final_status (run_result r) = StatusCancelled
   | _ => False
   end).

Lemma advance_doomed s id r outcome now rec :
  sys_runs s !! id = Some r -> items (sys_store s) !! id = Some rec -> pc_ok r (er_Status rec) -> doomed r ->
  exists r', sys_runs (advance s id r outcome now) !! id = Some r' /\ doomed r' /\
    (length (steps_of r') + executing r' <= length (steps_of r) + executing r)%nat.
Proof.
  intros Hr Hrec Hpc [Hc Hd]. unfold pc_ok in Hpc. unfold check_ahead in Hd. unfold advance, executing.
  destruct (run_pc r) eqn:Epc; destruct Hd as [Hd|Hd]; try (exfalso; exact Hd).
  2: { pose proof (Transition_ok (sys_store s) id StatusPlanning StatusRunning now rec Hrec) as Hok.
       rewrite decide_True in Hok by apply Hpc. destruct (MemoryStore_Transition _ _ _ _ _) as [st e].
       simpl in Hok. subst e. simpl. rewrite lookup_insert_eq. eexists. split; [done|].
       split; [split; [done|by left]|unfold steps_of; simpl; lia]. }
  all: rewrite ?Hc; try (rewrite decide_True by done);
    try (destruct (MemoryStore_Transition _ _ _ _ _) as [ms [e|]]);
    try (simpl sys_runs; rewrite lookup_insert_eq; eexists; split; [reflexivity|]; unfold doomed, check_ahead;
         simpl; (split; [split; [done|]; first [by left|by right|right; by destruct (run_async r)]
                        |unfold steps_of; simpl; rewrite ?length_app; simpl;
                         try destruct (run_async r); simpl; lia])).
  exists r. split; [done|]. split; [split; [done|right; by rewrite Epc]|rewrite Epc; lia].
Qed.

Lemma doomed_run s more id r :
  id_inv s id -> sys_runs s !! id = Some r -> doomed r ->
  exists r', sys_runs (run_list exec_act s more) !! id = Some r' /\ doomed r' /\
    (length (steps_of r') + executing r' <= length (steps_of r) + executing r)%nat.
Proof.
  revert s r. induction more as [|[a now] more IH]; intros s r Hi Hr Hd.
  { exists r. split; [done|]. split; [done|lia]. }
  assert (Hone : exists r1, sys_runs (exec_act s (a, now)) !! id = Some r1 /\ doomed r1 /\
    (length (steps_of r1) + executing r1 <= length (steps_of r) + executing r)%nat).
  { destruct (decide (id = act_id a)) as [->|Hne].
    2: { destruct (exec_act_frame s a now id Hne) as [-> _]. eauto. }
    destruct a as [id ctx plan|id ctx plan|id outcome|id|id|id]; cbn [exec_act act_id] in *;
      rewrite ?Hr; eauto.
    - pose proof Hi as Hi'. unfold id_inv in Hi'. rewrite Hr in Hi'. destruct Hi' as (rec & ? & ? & _).
      by eapply advance_doomed.
    - unfold Cancel_signal, cancelRegistry_Cancel. case_bool_decide; [|eauto].
      rewrite Hr. simpl. rewrite lookup_insert_eq. exists (cancelled r). destruct Hd. done.
    - simpl. rewrite lookup_insert_eq. exists (cancelled r). destruct Hd. done. }
  destruct Hone as (r1 & Hr1 & Hd1 & Hl1).
  destruct (IH _ r1 (exec_act_id_inv s a now id Hi) Hr1 Hd1) as (r2 & Hr2 & Hd2 & Hl2).
  exists r2. split; [done|]. split; [done|lia].
Qed.

(** ** Properties *)

(** C32. No run lingers, and its record tells the truth: when a run's goroutine
    has ended, in whatever interleaving, its record is in a terminal state and
    holds the steps that were executed; SUCCESS means every step of the plan ran
    and succeeded, FAILED that the last executed one failed and those before it
    succeeded. *)
Theorem exec_record_settles acts id r :
  sys_runs (exec_run acts) !! id = Some r -> run_pc r = PcDone ->
  exists rec, items (sys_store (exec_run acts)) !! id = Some rec /\
    er_Steps rec = recorded (steps_of r) /\
    (er_Status rec = StatusSuccess /\ length (steps_of r) = total r /\ all_ok (steps_of r) \/
     er_Status rec = StatusFailed /\
       (exists pre sr, steps_of r = pre ++ [sr] /\ all_ok pre /\ sr_Success sr = false) \/
     er_Status rec = StatusCancelled).
Proof.
  intros Hr Hp. destruct (exec_run_inv acts id) as [Hi _]. unfold id_inv in Hi. rewrite Hr in Hi.
  destruct Hi as (rec & Hrec & Hpc & Hst). exists rec. split; [done|].
  unfold stored_steps in Hst. unfold pc_ok in Hpc. rewrite Hp in *. split; [done|].
  destruct Hpc as (v & (Hf & Hl & Hv) & [Hs|Hs]); [|right; by right].
  rewrite Hs. destruct v; try done.
  - right; by right.
  - left. by destruct Hv.
  - right; by left.
Qed.

(** C29. A settled record is final: once an execution's status is terminal, no
    later action of anyone, however interleaved (late cancels, the run's own
    remaining steps, other submissions), changes anything of its record. *)
Theorem exec_terminal_stable acts more id rec :
  items (sys_store (exec_run acts)) !! id = Some rec -> terminal (er_Status rec) ->
  items (sys_store (exec_run (acts ++ more))) !! id = Some rec.
Proof.
  intros Hrec Ht. rewrite exec_run_app. destruct (exec_run_inv acts id) as [Hi _].
  assert (Hs : settled (exec_run acts) id rec).
  { split; [done|]. split; [done|]. pose proof Hi as Hi'. unfold id_inv in Hi'.
    destruct (sys_runs (exec_run acts) !! id) as [r|] eqn:Er; [|congruence].
    destruct Hi' as (rec' & Hrec' & Hpc & _). exists r. split; [done|].
    eapply pc_ok_settled; [done|]. congruence. }
  assert (Hboth : id_inv (run_list exec_act (exec_run acts) more) id /\
    settled (run_list exec_act (exec_run acts) more) id rec).
  { apply (run_list_invariant exec_act (fun s => id_inv s id /\ settled s id rec)); [|done].
    intros s [a now] [? ?]. split; [by apply exec_act_id_inv|by apply settled_act]. }
  apply Hboth.
Qed.

(** C35. Every run ends: whatever the other goroutines do in between, a run of
    [n] steps is done after at most [4 n + 10] steps of its own. *)
Theorem exec_run_terminates acts more id r :
  sys_runs (exec_run acts) !! id = Some r ->
  (4 * total r + 10 <= own_steps id more)%nat ->
  exists r', sys_runs (exec_run (acts ++ more)) !! id = Some r' /\ run_pc r' = PcDone.
Proof.
  intros Hr Hn. rewrite exec_run_app. destruct (exec_run_inv acts id) as [Hi _].
  destruct (run_list_measure _ more id r Hi Hr) as (r' & Hr' & Hm). exists r'. split; [done|].
  apply measure_done. assert (run_measure r <= 4 * total r + 10)%nat; [|lia].
  pose proof Hi as Hi'. unfold id_inv in Hi'. rewrite Hr in Hi'.
  destruct Hi' as (rec & _ & Hpc & _). unfold pc_ok in Hpc. unfold run_measure, pc_measure.
  destruct (run_pc r); try lia.
Qed.

(** Cancellation takes effect: when the cancel signal has landed while a
    check of the context is still ahead, at most the step already executing
    completes, no further one starts, and once the run is done its record is
    CANCELLED. *)
Theorem exec_cancel_effective acts more id r :
  sys_runs (exec_run acts) !! id = Some r -> run_cancelled r = true -> check_ahead r ->
  exists r' rec, sys_runs (exec_run (acts ++ more)) !! id = Some r' /\
    items (sys_store (exec_run (acts ++ more))) !! id = Some rec /\
    (length (steps_of r') <= length (steps_of r) + executing r)%nat /\
    (run_pc r' = PcDone -> er_Status rec = StatusCancelled).
Proof.
  intros Hr Hc Ha. rewrite exec_run_app. destruct (exec_run_inv acts id) as [Hi _].
  destruct (doomed_run _ more id r Hi Hr) as (r' & Hr' & Hd & Hl); [split; [done|by left]|].
  pose proof (run_list_id_inv _ more id Hi) as Hi'. unfold id_inv in Hi'. rewrite Hr' in Hi'.
  destruct Hi' as (rec & Hrec & Hpc & _). exists r', rec. split; [done|]. split; [done|].
  split; [lia|]. intros Hp. unfold pc_ok in Hpc. unfold doomed, check_ahead in Hd. rewrite Hp in *.
  destruct Hd as [_ [[]|Hf]]. destruct Hpc as (v & (Hv & _) & [Hs|Hs]); congruence.
Qed.

(** The FINISHED event agrees with the record up to a late cancel: when it
    has been published, the record is terminal, and its status is the event's or
    CANCELLED. *)
Theorem exec_finished_event acts e :
  e ∈ sys_bus (exec_run acts) -> ev_Type e = EventExecutionFinished ->
  exists rec, items (sys_store (exec_run acts)) !! ev_ID e = Some rec /\ terminal (ev_Status e) /\
    (er_Status rec = ev_Status e \/ er_Status rec = StatusCancelled).
Proof.
  intros He Ht. destruct (exec_run_inv acts (ev_ID e)) as [Hi Hb].
  destruct (Hb e He Ht) as (r & Hr & Hp & Hst). unfold id_inv in Hi. rewrite Hr in Hi.
  destruct Hi as (rec & Hrec & Hpc & _). exists rec. split; [done|]. unfold pc_ok in Hpc.
  assert (Hv : exists v, verdict (total r) (run_result r) v /\ (er_Status rec = v \/ er_Status rec = StatusCancelled))
    by (by destruct Hp as [Hp|Hp]; rewrite Hp in Hpc).
  destruct Hv as (v & Hv & Hs). pose proof (verdict_terminal _ _ _ Hv). destruct Hv as [<- _]. by rewrite Hst.
Qed.

(** *** A cancel between the last check and the settling transition *)

Definition wit_plan : ExecutionPlan :=
  MkExecutionPlan "disk.list" ["df"] (MkPermission "disk" "read") RiskLow 0 "builtin" "API".
Definition wit_rctx : RunContext := MkRunContext "u1" "alice" "" "t" "" "".
Definition wit_step (ok : bool) : StepResult :=
  MkStepResult "df" "step-0" 0 ok "out" (if ok then None else Some "exit status 1") 5.

Definition own (id : string) (ok : bool) (n : nat) : list (Action * Time) :=
  repeat (ActAdvance id (wit_step ok), 1) n.

Definition late_cancel : list (Action * Time) :=
  [(ActSubmit "exe-1" wit_rctx wit_plan, 1)] ++ own "exe-1" true 8 ++ [(ActCancelMark "exe-1", 1)] ++
  own "exe-1" true 6.

(** The late cancel is real: there is an interleaving of one submission and
    one cancel after which the published FINISHED event says SUCCESS and the
    record CANCELLED. *)
Theorem exec_finished_event_diverges :
  exists acts e rec, e ∈ sys_bus (exec_run acts) /\ ev_Type e = EventExecutionFinished /\
    ev_Status e = StatusSuccess /\ items (sys_store (exec_run acts)) !! ev_ID e = Some rec /\
    er_Status rec = StatusCancelled.
Proof.
  exists late_cancel, (MkExecutionEvent EventExecutionFinished "exe-1" StatusSuccess 1).
  eexists. split; [|split; [reflexivity|split; [reflexivity|split; [vm_compute; reflexivity|reflexivity]]]].
  apply list_elem_of_In. vm_compute. tauto.
Qed.

(** ** Witnesses *)

Definition one_run : list (Action * Time) :=
  (ActSubmit "exe-1" wit_rctx wit_plan, 1) :: own "exe-1" true 14.

Definition wit_run (acts : list (Action * Time)) : Run :=
  default (MkRun PcDone true wit_plan wit_rctx 0 false empty_result) (sys_runs (exec_run acts) !! "exe-1").

Definition wit_rec (acts : list (Action * Time)) : ExecutionRecord :=
  default (wit_record "" StatusFailed) (items (sys_store (exec_run acts)) !! "exe-1").

Lemma exec_record_settles_witness :
  exists rec, items (sys_store (exec_run one_run)) !! "exe-1" = Some rec /\ length (er_Steps rec) = 1%nat.
Proof.
  assert (Hr : sys_runs (exec_run one_run) !! "exe-1" = Some (wit_run one_run)) by (vm_compute; reflexivity).
  assert (Hp : run_pc (wit_run one_run) = PcDone) by (vm_compute; reflexivity).
  destruct (exec_record_settles one_run "exe-1" (wit_run one_run) Hr Hp) as (rec & Hrec & Hst & _).
  exists rec. split; [exact Hrec|]. refine (eq_trans (f_equal length Hst) _). vm_compute. reflexivity.
Defined.

Lemma exec_terminal_stable_witness :
  items (sys_store (exec_run (one_run ++ [(ActCancelMark "exe-1", 9); (ActCancelSignal "exe-1", 9)])))
    !! "exe-1" = Some (wit_rec one_run).
Proof.
  assert (Hrec : items (sys_store (exec_run one_run)) !! "exe-1" = Some (wit_rec one_run))
    by (vm_compute; reflexivity).
  assert (Ht : terminal (er_Status (wit_rec one_run))) by (left; vm_compute; reflexivity).
  exact (exec_terminal_stable one_run _ "exe-1" (wit_rec one_run) Hrec Ht).
Defined.

Definition submitted : list (Action * Time) := [(ActSubmit "exe-1" wit_rctx wit_plan, 1)].

Lemma exec_run_terminates_witness :
  exists r, sys_runs (exec_run (submitted ++ own "exe-1" false 14)) !! "exe-1" =
    Some r /\ run_pc r = PcDone.
Proof.
  assert (Hr : sys_runs (exec_run submitted) !! "exe-1" =
    Some (wit_run submitted)) by (vm_compute; reflexivity).
  assert (Hn : (4 * total (wit_run submitted) + 10 <=
    own_steps "exe-1" (own "exe-1" false 14))%nat) by (vm_compute; lia).
  exact (exec_run_terminates _ (own "exe-1" false 14) "exe-1" _ Hr Hn).
Defined.

Lemma exec_cancel_effective_witness :
  let acts := [(ActSubmit "exe-1" wit_rctx wit_plan, 1)] ++ own "exe-1" true 4 ++
    [(ActCancelMark "exe-1", 1); (ActCancelSignal "exe-1", 1)] in
  exists r rec, sys_runs (exec_run (acts ++ own "exe-1" true 10)) !! "exe-1" = Some r /\
    items (sys_store (exec_run (acts ++ own "exe-1" true 10))) !! "exe-1" = Some rec /\
    er_Status rec = StatusCancelled.
Proof.
  intros acts.
  assert (Hr : sys_runs (exec_run acts) !! "exe-1" = Some (wit_run acts)) by (vm_compute; reflexivity).
  assert (Hc : run_cancelled (wit_run acts) = true) by (vm_compute; reflexivity).
  assert (Hp : run_pc (wit_run acts) = PcExec 0) by (vm_compute; reflexivity).
  assert (Ha : check_ahead (wit_run acts)) by (unfold check_ahead; rewrite Hp; exact I).
  destruct (exec_cancel_effective acts (own "exe-1" true 10) "exe-1" (wit_run acts) Hr Hc Ha)
    as (r & rec & Hr' & Hrec & _ & Hd).
  exists r, rec. split; [exact Hr'|]. split; [exact Hrec|]. apply Hd.
  vm_compute in Hr'. injection Hr' as <-. reflexivity.
Defined.

Lemma exec_finished_event_witness :
  exists rec, items (sys_store (exec_run one_run)) !! "exe-1" = Some rec /\ er_Status rec <> StatusRunning.
Proof.
  assert (He : MkExecutionEvent EventExecutionFinished "exe-1" StatusSuccess 1 ∈ sys_bus (exec_run one_run)).
  { apply list_elem_of_In. vm_compute. tauto. }
  destruct (exec_finished_event one_run _ He eq_refl) as (rec & Hrec & _ & [Hs|Hs]);
    exists rec; (split; [exact Hrec|]); rewrite Hs; discriminate.
Defined.
