(* ===== verification/Remote.v ===== *)
(** * Remote execution over SSH (internal/core: host.go, safe.go, ssh.go)

    The command line sent to a managed host, and the pool of connections. The
    SSH client is a third-party object: it is known by a number, and what the
    library answers (a dial, a keepalive, a run) is an input. *)

From Stdlib Require Import Ascii.
From S2P Require Import Prelude TokenBucket.

(** ** Targets (host.go) *)

Record TargetHost : Type := MkTargetHost {
  th_Address : string;
  th_Port : Z;
  th_User : string;
  th_Password : string;
  th_KeyPath : string;
  th_KeyBytes : string;
  th_InsecureIgnoreHostKey : bool;
  th_Sudo : bool }.

Definition TargetHost_IsZero (t : TargetHost) : bool := bool_decide (th_Address t = "").

Definition TargetHost_PortOrDefault (t : TargetHost) : Z := if th_Port t =? 0 then 22 else th_Port t.

Definition TargetHost_Key (t : TargetHost) : string :=
  if TargetHost_IsZero t then "local"
  else "ssh://" +:+ th_User t +:+ "@" +:+ th_Address t +:+ ":" +:+ pretty (TargetHost_PortOrDefault t).

(** ** The command line (ssh.go) *)

Definition quote_char : ascii := "'"%char.
Definition backslash : ascii := "\"%char.

(** [strings.ReplaceAll(s, "'", `'\''`)] *)
Fixpoint escape_quotes (s : string) : string :=
  match s with
  | EmptyString => EmptyString
  | String a s' =>
      if decide (a = quote_char) then
        String quote_char (String backslash (String quote_char (String quote_char (escape_quotes s'))))
      else String a (escape_quotes s')
  end.

Definition singleQuote (s : string) : string :=
  String quote_char (escape_quotes s +:+ String quote_char EmptyString).

Definition buildRemoteCommand (target : TargetHost) (executable : string) (args : list string) : string :=
  let remoteCmd := foldl (fun cmd a => cmd +:+ " " +:+ singleQuote a) executable args in
  if th_Sudo target then "sudo -n " +:+ remoteCmd else remoteCmd.

(** *** SafeToken (safe.go) *)

Definition ErrUnsafeArgument : error :=
  "opscore: unsafe argument (flag or metacharacter not allowed)".

(** Space, tab, newline, carriage return, form feed, vertical tab, and
    [;|&$`()<>'\] and the double quote, by their codes. *)
Definition unsafe_chars : list N :=
  [32; 9; 10; 13; 12; 11; 59; 124; 38; 36; 96; 40; 41; 60; 62; 34; 39; 92]%N.

Fixpoint contains_any (chars : list N) (s : string) : bool :=
  match s with
  | EmptyString => false
  | String a s' => bool_decide (Ascii.N_of_ascii a ∈ chars) || contains_any chars s'
  end.

Definition SafeToken (tok : string) : option error :=
  match tok with
  | EmptyString => Some "opscore: empty argument not allowed"
  | String a _ =>
      if decide (a = "-"%char) then Some ErrUnsafeArgument
      else if contains_any unsafe_chars tok then Some ErrUnsafeArgument
      else None
  end.

(** ** Specification: how a POSIX shell splits a simple command

    Blanks separate words; single quotes protect everything up to the next one;
    a backslash protects the next character; a character that could start an
    expansion, a substitution, a redirection or another command makes the line
    more than a simple command ([None]). *)

Definition is_blank (a : ascii) : bool := bool_decide (a = " "%char \/ a = "009"%char).

(** Characters that stand for themselves outside quotes. *)
Definition special_chars : list N :=
  [10; 33; 34; 35; 36; 38; 40; 41; 42; 59; 60; 61; 62; 63; 91; 93; 94; 96; 123; 124; 125; 126]%N.

Definition is_special (a : ascii) : bool := bool_decide (Ascii.N_of_ascii a ∈ special_chars).

Inductive Lex : Type :=
| LexBlank                      (* between words *)
| LexWord (w : string)          (* in a word, read so far *)
| LexQuote (w : string)         (* inside single quotes *)
| LexEscape (w : string).       (* after a backslash *)

Fixpoint shell_lex (st : Lex) (s : string) : option (list string) :=
  match s with
  | EmptyString =>
      match st with
      | LexBlank => Some []
      | LexWord w => Some [w]
      | _ => None
      end
  | String a s' =>
      match st with
      | LexQuote w =>
          if decide (a = quote_char) then shell_lex (LexWord w) s'
          else shell_lex (LexQuote (w +:+ String a EmptyString)) s'
      | LexEscape w => shell_lex (LexWord (w +:+ String a EmptyString)) s'
      | LexBlank =>
          if is_blank a then shell_lex LexBlank s'
          else if decide (a = quote_char) then shell_lex (LexQuote EmptyString) s'
          else if decide (a = backslash) then shell_lex (LexEscape EmptyString) s'
          else if is_special a then None
          else shell_lex (LexWord (String a EmptyString)) s'
      | LexWord w =>
          if is_blank a then option_map (cons w) (shell_lex LexBlank s')
          else if decide (a = quote_char) then shell_lex (LexQuote w) s'
          else if decide (a = backslash) then shell_lex (LexEscape w) s'
          else if is_special a then None
          else shell_lex (LexWord (w +:+ String a EmptyString)) s'
      end
  end.

Definition shell_words (cmd : string) : option (list string) := shell_lex LexBlank cmd.

(** A word that needs no quoting. *)
Definition plain_char (a : ascii) : bool :=
  negb (is_blank a) && negb (bool_decide (a = quote_char)) && negb (bool_decide (a = backslash)) &&
  negb (is_special a).

Fixpoint plain (s : string) : bool :=
  match s with EmptyString => true | String a s' => plain_char a && plain s' end.

(** *** Lemmas *)

Lemma sapp_assoc (s t u : string) : (s +:+ t) +:+ u = s +:+ (t +:+ u).
Proof.
  induction s as [|a s IH]; [done|].
  change (String a ((s +:+ t) +:+ u) = String a (s +:+ (t +:+ u))). by rewrite IH.
Qed.

Lemma sapp_nil (s : string) : s +:+ "" = s.
Proof. induction s as [|a s IH]; [done|]. change (String a (s +:+ "") = String a s). by rewrite IH. Qed.

Lemma sapp_cons a (s t : string) : String a s +:+ t = String a (s +:+ t).
Proof. done. Qed.

Lemma plain_char_lex a : plain_char a = true ->
  is_blank a = false /\ a <> quote_char /\ a <> backslash /\ is_special a = false.
Proof.
  unfold plain_char. intros H. go_bools. rewrite bool_decide_eq_false in *. done.
Qed.

Lemma lex_plain w p rest :
  plain p = true -> shell_lex (LexWord w) (p +:+ rest) = shell_lex (LexWord (w +:+ p)) rest.
Proof.
  revert w. induction p as [|a p IH]; intros w Hp; [by rewrite sapp_nil|].
  cbn [plain] in Hp. apply andb_true_iff in Hp as [Ha Hp]. apply plain_char_lex in Ha as (Hb & Hq & Hs & Hx).
  rewrite sapp_cons. cbn [shell_lex]. rewrite Hb, Hx. rewrite !decide_False by done.
  rewrite IH by done. by rewrite sapp_assoc.
Qed.

Lemma lex_plain_start a p rest :
  plain (String a p) = true -> shell_lex LexBlank (String a p +:+ rest) = shell_lex (LexWord (String a p)) rest.
Proof.
  cbn [plain]. intros [Ha Hp]%andb_true_iff. apply plain_char_lex in Ha as (Hb & Hq & Hs & Hx).
  rewrite sapp_cons. cbn [shell_lex]. rewrite Hb, Hx. rewrite !decide_False by done.
  by rewrite lex_plain.
Qed.

Lemma lex_word_quote w rest : shell_lex (LexWord w) (String quote_char rest) = shell_lex (LexQuote w) rest.
Proof. reflexivity. Qed.

Lemma lex_word_blank_quote w rest :
  shell_lex (LexWord w) (String " "%char (String quote_char rest)) =
    option_map (cons w) (shell_lex (LexQuote "") rest).
Proof. reflexivity. Qed.

Lemma lex_quote_close w rest : shell_lex (LexQuote w) (String quote_char rest) = shell_lex (LexWord w) rest.
Proof. reflexivity. Qed.

Lemma lex_backslash w a rest :
  shell_lex (LexWord w) (String backslash (String a rest)) = shell_lex (LexWord (w +:+ String a "")) rest.
Proof. reflexivity. Qed.

Lemma lex_escaped w s rest :
  shell_lex (LexQuote w) (escape_quotes s +:+ String quote_char rest) = shell_lex (LexWord (w +:+ s)) rest.
Proof.
  revert w. induction s as [|a s IH]; intros w.
  - cbn [escape_quotes]. change ("" +:+ String quote_char rest) with (String quote_char rest).
    by rewrite lex_quote_close, sapp_nil.
  - cbn [escape_quotes]. case_decide as Ha.
    + subst a. rewrite !sapp_cons.
      rewrite lex_quote_close, lex_backslash, lex_word_quote, IH, sapp_assoc. done.
    + rewrite sapp_cons. cbn [shell_lex]. rewrite decide_False by done. rewrite IH. by rewrite sapp_assoc.
Qed.

Lemma lex_args w args :
  shell_lex (LexWord w) (foldr (fun a cmd => " " +:+ singleQuote a +:+ cmd) "" args) = Some (w :: args).
Proof.
  revert w. induction args as [|a args IH]; intros w; [done|]. cbn [foldr].
  change (" " +:+ singleQuote a +:+ foldr (fun a cmd => " " +:+ singleQuote a +:+ cmd) "" args)
    with (String " "%char (singleQuote a +:+ foldr (fun a cmd => " " +:+ singleQuote a +:+ cmd) "" args)).
  unfold singleQuote at 1. rewrite sapp_cons, sapp_assoc, sapp_cons. rewrite lex_word_blank_quote.
  change ("" +:+ foldr (fun a cmd => " " +:+ singleQuote a +:+ cmd) "" args)
    with (foldr (fun a cmd => " " +:+ singleQuote a +:+ cmd) "" args).
  rewrite lex_escaped. change ("" +:+ a) with a. by rewrite IH.
Qed.

Lemma build_foldr exe args :
  foldl (fun cmd a => cmd +:+ " " +:+ singleQuote a) exe args =
  exe +:+ foldr (fun a cmd => " " +:+ singleQuote a +:+ cmd) "" args.
Proof.
  revert exe. induction args as [|a args IH]; intros exe; [by rewrite sapp_nil|].
  cbn [foldl foldr]. rewrite IH. by rewrite !sapp_assoc.
Qed.

(** *** Properties *)

Lemma remote_words target a exe args :
  plain (String a exe) = true ->
  shell_words (buildRemoteCommand target (String a exe) args) =
    Some ((if th_Sudo target then ["sudo"; "-n"] else []) ++ String a exe :: args).
Proof.
  intros Hp. unfold shell_words, buildRemoteCommand. rewrite build_foldr.
  destruct (th_Sudo target).
  - change ("sudo -n " +:+ String a exe +:+ foldr (fun a cmd => " " +:+ singleQuote a +:+ cmd) "" args)
      with ("sudo" +:+ String " "%char ("-n" +:+ String " "%char
        (String a exe +:+ foldr (fun a cmd => " " +:+ singleQuote a +:+ cmd) "" args))).
    rewrite lex_plain_start by done. cbn [shell_lex]. change (is_blank " "%char) with true. cbn iota.
    rewrite lex_plain_start by done. cbn [shell_lex]. change (is_blank " "%char) with true. cbn iota.
    rewrite lex_plain_start by done. by rewrite lex_args.
  - rewrite lex_plain_start by done. by rewrite lex_args.
Qed.

(** C39. No injection by arguments: where the executable is a plain word (no blank,
    quote, backslash or character that means something to the shell), the shell of
    the managed host reads the command line back as [sudo -n] if asked for, the
    executable, and the arguments, one word each, whatever characters the arguments
    hold (quotes, blanks, newlines, operators; the empty one included). The
    executable is not quoted: another than a plain one is split
    ([executable_unquoted]). *)
Theorem remote_argv target a exe args :
  plain (String a exe) = true ->
  shell_words (buildRemoteCommand target (String a exe) args) =
    Some ((if th_Sudo target then ["sudo"; "-n"] else []) ++ String a exe :: args).
Proof. apply remote_words. Qed.

(** What is put in place of the executable is read by the shell. *)
Example executable_unquoted :
  let build exe := buildRemoteCommand (MkTargetHost "h" 0 "root" "" "" "" false false) exe ["x"] in
  shell_words (build "echo y") = Some ["echo"; "y"; "x"] /\ build "a;b" = "a;b 'x'" /\ shell_words (build "a;b") = None.
Proof. vm_compute. repeat split. Qed.

Lemma remote_argv_witness :
  shell_words (buildRemoteCommand (MkTargetHost "h" 0 "root" "" "" "" false true) "useradd" ["a'; rm -rf /"; ""]) =
    Some ["sudo"; "-n"; "useradd"; "a'; rm -rf /"; ""].
Proof.
  assert (Hp : plain "useradd" = true) by (vm_compute; reflexivity).
  exact (remote_argv (MkTargetHost "h" 0 "root" "" "" "" false true) "u"%char "seradd" ["a'; rm -rf /"; ""] Hp).
Defined.
