(* ===== verification/SSHPool.v ===== *)
(** * The SSH connection pool (internal/core/ssh.go)

    Idle connections kept per target, and the callers that take and return
    them. A call of [Get] is several critical sections with a keepalive or a
    dial in between, so callers are threads and their sections interleave. *)

From S2P Require Import Prelude GoStrings Remote.

(** ** The pool *)

(** An [*ssh.Client] is known by a number. *)
Definition Client : Type := N.

Record sshClientPool : Type := MkPool {
  maxIdle : Z;
  idle : gmap string (list Client);     (* the last one is handed out first *)
  known : gmap Client string }.

Definition newSSHClientPool (maxIdle : Z) : sshClientPool :=
  MkPool (if maxIdle <=? 0 then 2 else maxIdle) ∅ ∅.

(** [key]: the target and a fingerprint of its auth material. *)
Definition sshClientPool_key (sha256 : string -> string) (t : TargetHost) : string :=
  let auth :=
    if negb (bool_decide (th_Password t = "")) then "pw:" +:+ th_Password t
    else if negb (bool_decide (th_KeyPath t = "")) then "path:" +:+ th_KeyPath t
    else if (0 <? String.length (th_KeyBytes t))%nat
         then "bytes:" +:+ hex_EncodeToString (sha256 (th_KeyBytes t))
    else "none" in
  th_User t +:+ "@" +:+ th_Address t +:+ ":" +:+ pretty (TargetHost_PortOrDefault t) +:+ "#" +:+ auth.

(** The sections of [Get]: pop the newest idle client; remember a client as
    handed out. *)
Definition pool_pop (p : sshClientPool) (k : string) : sshClientPool * option Client :=
  match last (default [] (idle p !! k)) with
  | None => (p, None)
  | Some c =>
      (MkPool (maxIdle p) (<[k := take (length (default [] (idle p !! k)) - 1) (default [] (idle p !! k))]> (idle p))
         (known p), Some c)
  end.

Definition pool_known (p : sshClientPool) (c : Client) (k : string) : sshClientPool :=
  MkPool (maxIdle p) (idle p) (<[c := k]> (known p)).

(** [Put]: the pool, and whether the client was closed. *)
Definition sshClientPool_Put (p : sshClientPool) (c : Client) (dead : bool) : sshClientPool * bool :=
  match known p !! c with
  | None => (p, true)
  | Some k =>
      let p := MkPool (maxIdle p) (idle p) (delete c (known p)) in
      if dead then (p, true)
      else
        let list := default [] (idle p !! k) in
        if maxIdle p <=? Z.of_nat (length list) then (p, true)
        else (MkPool (maxIdle p) (<[k := list ++ [c]]> (idle p)) (known p), false)
  end.

(** ** Callers *)

(** How a command ended. *)
Inductive RunOutcome : Type :=
| RunOk | RunExitError | RunTransportDeath | RunSessionFailed | RunTimeout | RunCtxDone.

(** [isTransportDeath] of the error, and the [putDead] that follows it. *)
Definition transport_dead (o : RunOutcome) : bool :=
  match o with RunTransportDeath | RunSessionFailed => true | _ => false end.

(** The arguments of [defer defaultSSHClientPool.Put(client, putDead)] are
    evaluated at the defer statement, where [putDead] is still false. *)
Definition deferred_dead (o : RunOutcome) : bool := false.

Inductive Thread : Type :=
| TStart (k : string)                  (* about to pop *)
| TProbe (k : string) (c : Client)     (* keepalive under way on a popped client *)
| TDial (k : string)
| TMark (k : string) (c : Client)      (* about to remember the client *)
| TUsing (k : string) (c : Client)
| TDone.

Record PoolSystem : Type := MkPoolSystem {
  ps_pool : sshClientPool;
  ps_threads : gmap nat Thread;
  ps_next : Client }.                  (* clients below have been dialled *)

Definition set_thread (s : PoolSystem) (p : sshClientPool) (i : nat) (t : Thread) : PoolSystem :=
  MkPoolSystem p (<[i := t]> (ps_threads s)) (ps_next s).

Inductive PoolAction : Type :=
| PCall (i : nat) (k : string)                    (* RunOverSSH by a new caller *)
| PStep (i : nat) (ok : bool) (o : RunOutcome).   (* a caller's next section *)

(** One section of caller [i]; [ok] is the answer of a keepalive or a dial. *)
Definition pool_step (s : PoolSystem) (i : nat) (t : Thread) (ok : bool) (o : RunOutcome) : PoolSystem :=
  match t with
  | TStart k =>
      match pool_pop (ps_pool s) k with
      | (p, Some c) => set_thread s p i (TProbe k c)
      | (p, None) => set_thread s p i (TDial k)
      end
  | TProbe k c => set_thread s (ps_pool s) i (if ok then TMark k c else TDial k)
  | TDial k =>
      if ok then
        MkPoolSystem (ps_pool s) (<[i := TMark k (ps_next s)]> (ps_threads s)) (ps_next s + 1)%N
      else set_thread s (ps_pool s) i TDone
  | TMark k c => set_thread s (pool_known (ps_pool s) c k) i (TUsing k c)
  | TUsing k c => set_thread s (fst (sshClientPool_Put (ps_pool s) c (deferred_dead o))) i TDone
  | TDone => s
  end.

Definition pool_act (s : PoolSystem) (a : PoolAction) : PoolSystem :=
  match a with
  | PCall i k =>
      match ps_threads s !! i with
      | None => set_thread s (ps_pool s) i (TStart k)
      | Some _ => s
      end
  | PStep i ok o =>
      match ps_threads s !! i with
      | Some t => pool_step s i t ok o
      | None => s
      end
  end.

Definition new_system (maxIdle : Z) : PoolSystem := MkPoolSystem (newSSHClientPool maxIdle) ∅ 0%N.

(** ** The invariant: every client is in one place *)

Inductive Place : Type := InIdle (k : string) (n : nat) | InThread (i : nat).

Definition thread_client (t : Thread) : option Client :=
  match t with TProbe _ c | TMark _ c | TUsing _ c => Some c | _ => None end.

Definition client_at (s : PoolSystem) (pl : Place) : option Client :=
  match pl with
  | InIdle k n => default [] (idle (ps_pool s) !! k) !! n
  | InThread i => ps_threads s !! i ≫= thread_client
  end.

Record pool_inv (s : PoolSystem) : Prop := MkPoolInv {
  pi_unique : forall pl1 pl2 c, client_at s pl1 = Some c -> client_at s pl2 = Some c -> pl1 = pl2;
  pi_fresh : forall pl c, client_at s pl = Some c -> (c < ps_next s)%N;
  pi_known : forall i k c, ps_threads s !! i = Some (TUsing k c) -> known (ps_pool s) !! c = Some k;
  pi_bound : forall k, Z.of_nat (length (default [] (idle (ps_pool s) !! k))) <= maxIdle (ps_pool s) }.

(** ** Lemmas *)

(** Moving one client, or none, to the place [pl]. *)
Lemma pool_inv_move s s' i t :
  pool_inv s ->
  ps_threads s' = <[i := t]> (ps_threads s) -> (ps_next s <= ps_next s')%N ->
  (forall k n c, client_at s' (InIdle k n) = Some c ->
     client_at s (InIdle k n) = Some c \/
     client_at s (InThread i) = Some c /\ thread_client t = None /\
     (forall k' n', client_at s' (InIdle k' n') = Some c -> k' = k /\ n' = n)) ->
  (forall c, thread_client t = Some c ->
     (client_at s (InThread i) = Some c \/ (forall pl, client_at s pl <> Some c) \/
      exists k n, client_at s (InIdle k n) = Some c) /\
     (forall k n, client_at s' (InIdle k n) <> Some c) /\ (c < ps_next s')%N) ->
  (forall j k c, ps_threads s' !! j = Some (TUsing k c) -> known (ps_pool s') !! c = Some k) ->
  (forall k, Z.of_nat (length (default [] (idle (ps_pool s') !! k))) <= maxIdle (ps_pool s')) ->
  pool_inv s'.
Proof.
  intros [Hu Hf Hk Hb] Hth Hnx Hidle Hthr Hkn Hbd.
  assert (Hold : forall j, j <> i -> client_at s' (InThread j) = client_at s (InThread j)).
  { intros j Hne. simpl. by rewrite Hth, lookup_insert_ne. }
  assert (Hnew : client_at s' (InThread i) = thread_client t).
  { simpl. by rewrite Hth, lookup_insert_eq. }
  constructor; [| |done|done].
  - assert (Hii : forall k n j c, client_at s' (InIdle k n) = Some c -> client_at s' (InThread j) = Some c -> False).
    { intros k n j c H1 H2. destruct (decide (j = i)) as [->|Hne].
      - rewrite Hnew in H2. destruct (Hthr c H2) as (_ & Hn & _). by eapply Hn.
      - rewrite Hold in H2 by done. destruct (Hidle _ _ _ H1) as [H1'|(H1' & _ & _)];
          pose proof (Hu _ _ _ H1' H2); congruence. }
    intros [k1 n1|j1] [k2 n2|j2] c H1 H2; [| by destruct (Hii k1 n1 j2 c)|by destruct (Hii k2 n2 j1 c)|].
    + destruct (Hidle _ _ _ H1) as [H1'|(_ & _ & Hone)].
      * destruct (Hidle _ _ _ H2) as [H2'|(_ & _ & Hone)]; [by eapply Hu|].
        by destruct (Hone _ _ H1) as [-> ->].
      * by destruct (Hone _ _ H2) as [-> ->].
    + f_equal. destruct (decide (j1 = i)) as [->|Hn1], (decide (j2 = i)) as [->|Hn2]; try done.
      * rewrite Hnew in H1. rewrite Hold in H2 by done. destruct (Hthr c H1) as ([H|[H|(k & n & H)]] & _).
        -- pose proof (Hu _ _ _ H H2). congruence.
        -- by apply H in H2.
        -- pose proof (Hu _ _ _ H H2). congruence.
      * rewrite Hnew in H2. rewrite Hold in H1 by done. destruct (Hthr c H2) as ([H|[H|(k & n & H)]] & _).
        -- pose proof (Hu _ _ _ H H1). congruence.
        -- by apply H in H1.
        -- pose proof (Hu _ _ _ H H1). congruence.
      * rewrite Hold in H1, H2 by done. pose proof (Hu _ _ _ H1 H2). congruence.
  - intros [k n|j] c H.
    + destruct (Hidle _ _ _ H) as [H'|(H' & _)]; apply Hf in H'; lia.
    + destruct (decide (j = i)) as [->|Hne].
      * rewrite Hnew in H. by apply Hthr.
      * rewrite Hold in H by done. apply Hf in H. lia.
Qed.

(** A caller that takes no client and leaves the idle lists and the record of
    handed-out clients alone. *)
Lemma pool_inv_thread s i t nx :
  pool_inv s -> (ps_next s <= nx)%N ->
  (forall c, thread_client t = Some c ->
     client_at s (InThread i) = Some c \/ (forall pl, client_at s pl <> Some c) /\ (c < nx)%N) ->
  (forall k c, t <> TUsing k c) ->
  pool_inv (MkPoolSystem (ps_pool s) (<[i := t]> (ps_threads s)) nx).
Proof.
  intros Hinv Hnx Hc Hnu. pose proof Hinv as [Hu Hf Hk Hb].
  eapply (pool_inv_move s _ i t Hinv); [done|done| | | |done].
  - intros k n c H. by left.
  - intros c Ht. destruct (Hc c Ht) as [H|[H Hlt]].
    + split; [by left|]. split; [|apply Hf in H; simpl; lia].
      intros k n H'. pose proof (Hu (InIdle k n) (InThread i) c H' H). discriminate.
    + split; [right; by left|]. split; [|done]. intros k n. apply (H (InIdle k n)).
  - intros j k c. simpl. destruct (decide (j = i)) as [->|Hne].
    + rewrite lookup_insert_eq. intros [= Ht]. by destruct (Hnu k c).
    + rewrite lookup_insert_ne by done. apply Hk.
Qed.

Lemma pool_inv_pop s i k p c :
  pool_inv s -> pool_pop (ps_pool s) k = (p, Some c) -> pool_inv (set_thread s p i (TProbe k c)).
Proof.
  intros Hinv. pose proof Hinv as [Hu Hf Hk Hb]. unfold pool_pop.
  set (l := default [] (idle (ps_pool s) !! k)).
  destruct (last l) as [c'|] eqn:El; [|done]. intros [= <- <-].
  assert (Hl : exists l0, l = l0 ++ [c']) by (by apply last_Some in El).
  destruct Hl as [l0 Hl].
  assert (Hat : client_at s (InIdle k (length l0)) = Some c').
  { simpl. fold l. rewrite Hl. by apply list_lookup_middle. }
  assert (Htake : take (length l - 1) l = l0).
  { rewrite Hl, length_app. simpl. by rewrite Nat.add_sub, take_app_length. }
  assert (Hidle : forall k' n c, client_at (set_thread s (MkPool (maxIdle (ps_pool s))
      (<[k := take (length l - 1) l]> (idle (ps_pool s))) (known (ps_pool s))) i (TProbe k c')) (InIdle k' n) = Some c ->
      client_at s (InIdle k' n) = Some c /\ (k' = k -> (n < length l0)%nat)).
  { intros k' n c. simpl. rewrite Htake. destruct (decide (k' = k)) as [->|Hne].
    - rewrite lookup_insert_eq. simpl. intros H. apply lookup_lt_Some in H as Hlt. split; [|done].
      fold l. rewrite Hl. by apply lookup_app_l_Some.
    - rewrite lookup_insert_ne by done. done. }
  eapply (pool_inv_move s _ i (TProbe k c') Hinv); [done|done| | | |].
  - intros k' n c H. left. by apply Hidle in H as [H _].
  - intros c [= <-]. split; [right; right; by exists k, (length l0)|]. split.
    + intros k' n H. apply Hidle in H as [H Hlt]. pose proof (Hu _ _ _ H Hat) as Heq.
      injection Heq as -> ->. specialize (Hlt eq_refl). lia.
    + by apply Hf in Hat.
  - intros j k' c. simpl. destruct (decide (j = i)) as [->|Hne].
    + by rewrite lookup_insert_eq.
    + rewrite lookup_insert_ne by done. apply Hk.
  - intros k'. simpl. rewrite Htake. destruct (decide (k' = k)) as [->|Hne].
    + rewrite lookup_insert_eq. simpl. specialize (Hb k). fold l in Hb. rewrite Hl, length_app in Hb. simpl in Hb. lia.
    + rewrite lookup_insert_ne by done. apply Hb.
Qed.

Lemma pool_inv_put s i k c dead :
  pool_inv s -> ps_threads s !! i = Some (TUsing k c) ->
  pool_inv (set_thread s (fst (sshClientPool_Put (ps_pool s) c dead)) i TDone).
Proof.
  intros Hinv Ht. pose proof Hinv as [Hu Hf Hk Hb]. unfold sshClientPool_Put.
  pose proof (Hk i k c Ht) as Hkn. rewrite Hkn.
  assert (Hat : client_at s (InThread i) = Some c) by (simpl; by rewrite Ht).
  assert (Hkn' : forall j k' c', (<[i := TDone]> (ps_threads s)) !! j = Some (TUsing k' c') ->
    delete c (known (ps_pool s)) !! c' = Some k').
  { intros j k' c'. destruct (decide (j = i)) as [->|Hne]; [by rewrite lookup_insert_eq|].
    rewrite lookup_insert_ne by done. intros Hj. rewrite lookup_delete_ne; [by eapply Hk|].
    intros <-. assert (Hj' : client_at s (InThread j) = Some c) by (simpl; by rewrite Hj).
    pose proof (Hu _ _ _ Hat Hj'). congruence. }
  assert (Hclose : pool_inv (set_thread s (MkPool (maxIdle (ps_pool s)) (idle (ps_pool s))
    (delete c (known (ps_pool s)))) i TDone)).
  { eapply (pool_inv_move s _ i TDone Hinv); [done|done| |done|exact Hkn'|exact Hb]. intros; by left. }
  destruct dead; [done|]. cbn [maxIdle idle known].
  set (l := default [] (idle (ps_pool s) !! k)).
  destruct (Z.leb_spec (maxIdle (ps_pool s)) (Z.of_nat (length l))) as [Hge|Hlt]; [done|]. cbn [fst].
  assert (Hidle : forall k' n c', client_at (set_thread s (MkPool (maxIdle (ps_pool s))
      (<[k := l ++ [c]]> (idle (ps_pool s))) (delete c (known (ps_pool s)))) i TDone) (InIdle k' n) = Some c' ->
      client_at s (InIdle k' n) = Some c' \/ k' = k /\ n = length l /\ c' = c).
  { intros k' n c'. simpl. destruct (decide (k' = k)) as [->|Hne].
    - rewrite lookup_insert_eq. simpl. intros [H|[Hn H]]%lookup_app_Some; [by left|right].
      apply list_lookup_singleton_Some in H as [Hn' <-]. split; [done|]. split; [lia|done].
    - rewrite lookup_insert_ne by done. by left. }
  assert (Hnot : forall k' n, client_at s (InIdle k' n) <> Some c).
  { intros k' n H. pose proof (Hu _ _ _ H Hat). discriminate. }
  eapply (pool_inv_move s _ i TDone Hinv); [done|done| |done|exact Hkn'|].
  - intros k' n c' H. destruct (Hidle _ _ _ H) as [H'|(-> & -> & ->)]; [by left|right].
    split; [done|]. split; [done|]. intros k2 n2 H2.
    destruct (Hidle _ _ _ H2) as [H2'|(-> & -> & _)]; [by destruct (Hnot k2 n2)|done].
  - intros k'. simpl. destruct (decide (k' = k)) as [->|Hne].
    + rewrite lookup_insert_eq. simpl. rewrite length_app. simpl. lia.
    + rewrite lookup_insert_ne by done. apply Hb.
Qed.

Lemma pool_act_inv s a : pool_inv s -> pool_inv (pool_act s a).
Proof.
  intros Hinv. pose proof Hinv as [Hu Hf Hk Hb]. destruct a as [i k|i ok o]; simpl.
  { destruct (ps_threads s !! i); [done|]. by apply (pool_inv_thread s i (TStart k) (ps_next s)). }
  destruct (ps_threads s !! i) as [[k|k c|k|k c|k c|]|] eqn:Ei; simpl; try done.
  - destruct (pool_pop (ps_pool s) k) as [p [c|]] eqn:Ep; [by eapply pool_inv_pop|].
    assert (p = ps_pool s) as ->.
    { revert Ep. unfold pool_pop. destruct (last _); [done|]. by intros [= ->]. }
    by apply (pool_inv_thread s i (TDial k) (ps_next s)).
  - apply (pool_inv_thread s i _ (ps_next s)); [done|done| |by destruct ok].
    intros c' Hc. left. simpl. rewrite Ei. by destruct ok.
  - destruct ok; [|by apply (pool_inv_thread s i TDone (ps_next s))].
    apply (pool_inv_thread s i (TMark k (ps_next s)) (ps_next s + 1)%N); [done|lia| |done].
    intros c [= <-]. right. split; [|lia]. intros pl H. apply Hf in H. lia.
  - assert (Hat : client_at s (InThread i) = Some c) by (simpl; by rewrite Ei).
    eapply (pool_inv_move s _ i (TUsing k c) Hinv); [done|done| | | |done].
    + intros k' n c' H. by left.
    + intros c' [= <-]. split; [by left|]. split; [|by apply Hf in Hat].
      intros k' n H. pose proof (Hu (InIdle k' n) (InThread i) c H Hat). discriminate.
    + intros j k' c'. simpl. destruct (decide (j = i)) as [->|Hne].
      * rewrite lookup_insert_eq. intros [= <- <-]. by rewrite lookup_insert_eq.
      * rewrite lookup_insert_ne by done. intros Hj. rewrite lookup_insert_ne; [by eapply Hk|].
        intros <-. assert (Hj' : client_at s (InThread j) = Some c) by (simpl; by rewrite Hj).
        pose proof (Hu _ _ _ Hat Hj'). congruence.
  - by eapply pool_inv_put.
Qed.

Lemma new_system_inv m : pool_inv (new_system m).
Proof.
  constructor; simpl.
  - intros [k n|i] pl c; simpl; [by rewrite lookup_empty|by rewrite lookup_empty].
  - intros [k n|i] c; simpl; by rewrite lookup_empty.
  - intros i k c. by rewrite lookup_empty.
  - intros k. rewrite lookup_empty. simpl. destruct (Z.leb_spec m 0); lia.
Qed.

(** ** Properties *)

(** Exclusive connections: however the sections of any number of callers
    interleave, a connection in use by one caller is used by no other, is not
    idle in any list, and was taken under that caller's own target key; and no
    target keeps more idle connections than the maximum. *)
Theorem ssh_pool_exclusive m acts :
  let s := run_list pool_act (new_system m) acts in
  (forall i j k k' c, ps_threads s !! i = Some (TUsing k c) -> ps_threads s !! j = Some (TUsing k' c) -> i = j) /\
  (forall i k k' c, ps_threads s !! i = Some (TUsing k c) -> c ∉ default [] (idle (ps_pool s) !! k')) /\
  (forall i k c, ps_threads s !! i = Some (TUsing k c) -> known (ps_pool s) !! c = Some k) /\
  (forall k, Z.of_nat (length (default [] (idle (ps_pool s) !! k))) <= maxIdle (ps_pool s)).
Proof.
  cbv zeta. assert (Hinv : pool_inv (run_list pool_act (new_system m) acts)).
  { apply (run_list_invariant pool_act pool_inv); [intros; by apply pool_act_inv|apply new_system_inv]. }
  destruct Hinv as [Hu Hf Hk Hb]. split; [|split; [|split; [exact Hk|exact Hb]]].
  - intros i j k k' c Hi Hj.
    pose proof (Hu (InThread i) (InThread j) c) as H. simpl in H. rewrite Hi, Hj in H.
    specialize (H eq_refl eq_refl). by injection H.
  - intros i k k' c Hi [n Hn]%list_elem_of_lookup_1.
    pose proof (Hu (InThread i) (InIdle k' n) c) as H. simpl in H. rewrite Hi, Hn in H.
    specialize (H eq_refl eq_refl). discriminate.
Qed.

(** A dead connection goes back into the pool: whatever way a command ended,
    its transport's death included, the connection is idle again (when the
    target's list has room) and is the next one popped for that target. *)
Theorem ssh_dead_client_recycled s i k c ok o :
  pool_inv s -> ps_threads s !! i = Some (TUsing k c) ->
  Z.of_nat (length (default [] (idle (ps_pool s) !! k))) < maxIdle (ps_pool s) ->
  transport_dead o = true ->
  snd (pool_pop (ps_pool (pool_act s (PStep i ok o))) k) = Some c.
Proof.
  intros [Hu Hf Hk Hb] Hi Hroom _. simpl. rewrite Hi. simpl. unfold sshClientPool_Put, deferred_dead.
  rewrite (Hk i k c Hi). cbn [maxIdle idle known].
  destruct (Z.leb_spec (maxIdle (ps_pool s)) (Z.of_nat (length (default [] (idle (ps_pool s) !! k))))); [lia|].
  unfold pool_pop. simpl. rewrite lookup_insert_eq. simpl. by rewrite last_snoc.
Qed.

(** Targets that differ in host-key verification share connections: the
    pool's key ignores [InsecureIgnoreHostKey], so a connection dialled without
    verification is handed to a target that asks for it. *)
Theorem ssh_key_ignores_verification sha256 a p u pw kp kb sudo :
  sshClientPool_key sha256 (MkTargetHost a p u pw kp kb true sudo) =
  sshClientPool_key sha256 (MkTargetHost a p u pw kp kb false sudo).
Proof. done. Qed.

(** ** Witnesses *)

Definition wit_pool_acts : list PoolAction :=
  [PCall 0 "root@h:22#none"; PStep 0 true RunOk; PStep 0 true RunOk; PStep 0 true RunOk].

Lemma ssh_dead_client_recycled_witness :
  snd (pool_pop (ps_pool (pool_act (run_list pool_act (new_system 2) wit_pool_acts)
    (PStep 0 true RunTransportDeath))) "root@h:22#none") = Some 0%N.
Proof.
  assert (Hinv : pool_inv (run_list pool_act (new_system 2) wit_pool_acts)).
  { apply (run_list_invariant pool_act pool_inv); [intros; by apply pool_act_inv|apply new_system_inv]. }
  assert (Hi : ps_threads (run_list pool_act (new_system 2) wit_pool_acts) !! 0%nat =
    Some (TUsing "root@h:22#none" 0%N)) by (vm_compute; reflexivity).
  assert (Hroom : Z.of_nat (length (default [] (idle (ps_pool (run_list pool_act (new_system 2) wit_pool_acts))
    !! "root@h:22#none"))) < maxIdle (ps_pool (run_list pool_act (new_system 2) wit_pool_acts)))
    by (vm_compute; reflexivity).
  exact (ssh_dead_client_recycled _ 0%nat "root@h:22#none" 0%N true RunTransportDeath Hinv Hi Hroom eq_refl).
Defined.
