(* ===== verification/Dispatch.v ===== *)
(** * Operations and dispatch (internal/core: operation.go, dispatcher.go)

    The registry of operations, planning with the registration's defaults, and
    the fan-out of one operation over many targets. A handler is plugin or
    builtin code, given as a function; running a plan is the executor's. *)

From S2P Require Import Prelude Executor Remote.

(** ** The registry (operation.go) *)

Section Dispatch.
(** What a handler is given: the context and the input map. *)
Context {Ctx Input : Type}.

Definition Handler : Type := Ctx -> Input -> result error ExecutionPlan.

Record Operation : Type := MkOperation {
  op_Name : string;
  op_Permission : Permission;
  op_Risk : RiskLevel;
  op_Handler : Handler;
  op_Source : string }.

Definition Registry : Type := gmap string Operation.

Definition NewRegistry : Registry := ∅.
Definition Registry_Register (r : Registry) (op : Operation) : Registry := <[op_Name op := op]> r.
Definition Registry_Unregister (r : Registry) (name : string) : Registry := delete name r.
Definition Registry_Get (r : Registry) (name : string) : option Operation := r !! name.
Definition Registry_List (r : Registry) : list Operation := (map_to_list r).*2.

(** ** The dispatcher (dispatcher.go) *)

Inductive DispatchError : Type :=
| ErrOperationNotFound (name : string)
| ErrPlanFailed (name : string) (cause : error).

Definition Dispatcher_Plan (r : Registry) (ctx : Ctx) (opName : string) (input : Input)
  : result DispatchError ExecutionPlan :=
  match Registry_Get r opName with
  | None => Err (ErrOperationNotFound opName)
  | Some op =>
      match op_Handler op ctx input with
      | Err e => Err (ErrPlanFailed opName e)
      | Ok plan =>
          Ok (MkExecutionPlan
            (if decide (plan_OperationName plan = "") then op_Name op else plan_OperationName plan)
            (plan_Steps plan)
            (if decide (ResourceType (plan_Permission plan) = "") then op_Permission op
             else plan_Permission plan)
            (plan_Risk plan) (plan_Timeout plan) (op_Source op) (plan_Origin plan))
      end
  end.

(** What [Execute] answers: the executor's result, or the planning error. *)
Definition DispatchResult : Type := result DispatchError ExecutionResult.

(** [execute] is the executor's, on the state [W] of the outside world. *)
Context {W : Type} (execute : W -> Ctx -> ExecutionPlan -> W * ExecutionResult).

Definition Dispatcher_Execute (r : Registry) (w : W) (ctx : Ctx) (opName : string) (input : Input)
  : W * DispatchResult :=
  match Dispatcher_Plan r ctx opName input with
  | Err e => (w, Err e)
  | Ok plan => let '(w, res) := execute w ctx plan in (w, Ok res)
  end.

Record BatchResult : Type := MkBatchResult {
  br_Target : TargetHost;
  br_Success : bool;
  br_Result : DispatchResult }.

Definition dispatch_success (r : DispatchResult) : bool :=
  match r with Ok res => res_Success res | Err _ => false end.

(** [derive] is the child context of a target, enriched by its probe. *)
Context (derive : W -> Ctx -> TargetHost -> W * Ctx).

Fixpoint Dispatcher_Batch (r : Registry) (w : W) (ctx : Ctx) (opName : string)
    (targets : list TargetHost) (input : Input) : W * list BatchResult :=
  match targets with
  | [] => (w, [])
  | t :: targets' =>
      let '(w, tctx) := derive w ctx t in
      let '(w, res) := Dispatcher_Execute r w tctx opName input in
      let '(w, rest) := Dispatcher_Batch r w ctx opName targets' input in
      (w, MkBatchResult t (dispatch_success res) res :: rest)
  end.

(** ** Properties *)

(** Planning carries the registration: a plan that comes out has the
    registered source, a name, and, when the handler named no resource, the
    registered permission; the steps are the handler's. Nothing is executed. *)
Theorem dispatch_plan_defaults r ctx name input plan :
  (forall n op, r !! n = Some op -> op_Name op = n) ->
  Dispatcher_Plan r ctx name input = Ok plan ->
  exists op hp, r !! name = Some op /\ op_Handler op ctx input = Ok hp /\
    plan_Source plan = op_Source op /\ plan_Steps plan = plan_Steps hp /\
    (plan_OperationName hp = "" -> plan_OperationName plan = name) /\
    (ResourceType (plan_Permission hp) = "" -> plan_Permission plan = op_Permission op).
Proof.
  intros Hname. unfold Dispatcher_Plan, Registry_Get. destruct (r !! name) as [op|] eqn:Er; [|done].
  destruct (op_Handler op ctx input) as [hp|e] eqn:Eh; [|done]. intros [= <-]. exists op, hp.
  split; [done|]. split; [done|]. cbn. split; [done|]. split; [done|].
  split; intros ->; rewrite decide_True by done; [by apply Hname|done].
Qed.

(** Batch isolation: every target gets exactly one result, in order,
    whatever fails before it; an unknown operation fails on every target and
    executes nothing. *)
Theorem dispatch_batch r w ctx name targets input :
  map br_Target (snd (Dispatcher_Batch r w ctx name targets input)) = targets /\
  (r !! name = None ->
     Forall (fun b => br_Success b = false /\ br_Result b = Err (ErrOperationNotFound name))
       (snd (Dispatcher_Batch r w ctx name targets input))).
Proof.
  revert w. induction targets as [|t targets IH]; intros w; simpl; [done|].
  destruct (derive w ctx t) as [w1 tctx].
  destruct (Dispatcher_Execute r w1 tctx name input) as [w2 res] eqn:Ex.
  destruct (IH w2) as [IH1 IH2]. destruct (Dispatcher_Batch r w2 ctx name targets input) as [w3 rest].
  cbn [snd map] in *. split; [cbn; by rewrite IH1|].
  intros Hn. constructor; [|by apply IH2].
  unfold Dispatcher_Execute, Dispatcher_Plan, Registry_Get in Ex. rewrite Hn in Ex. by simplify_eq/=.
Qed.

End Dispatch.
Arguments Operation : clear implicits.
Arguments Registry : clear implicits.
Arguments MkOperation {Ctx Input}.
