(* ===== verification/Manifest.v ===== *)
(** * Snapshot manifests and their signature
      (internal/controlplane/server/history_export_manifest.go,
       snapshot_signature.go, snapshot_chain.go)

    The manifest document, its check after decoding, the Ed25519 signature over
    the canonical payload and the digest the publication chain commits to. The
    cryptography and [encoding/json] are a class: what the code relies on are
    its laws. *)

From Stdlib Require Import Ascii.
From S2P Require Import Prelude GoStrings.

(** ** Data *)

Record manifestFormatInfo : Type := MkFormatInfo {
  mf_Format : string;
  mf_File : string;
  mf_SHA256 : string;
  mf_Bytes : Z;
  mf_Records : Z }.

Record signatureBlock : Type := MkSignature {
  sb_Alg : string;
  sb_KeyID : string;
  sb_Sig : string;
  sb_SignedAt : string }.

Record manifestChain : Type := MkManifestChain {
  mc_PrevPublicationID : Z;
  mc_PrevManifestDigest : string }.

Record snapshotManifest : Type := MkManifest {
  m_SchemaVersion : Z;
  m_PublicationID : Z;
  m_Snapshot : string;
  m_ExportedAt : string;
  m_GeneratedAt : string;
  m_Source : string;
  m_Truncated : bool;
  m_SeqContinuity : string;
  m_MinSeq : Z;
  m_MaxSeq : Z;
  m_Records : Z;
  m_Formats : list manifestFormatInfo;
  m_Signature : option signatureBlock;
  m_Chain : option manifestChain }.

Definition manifestSchemaVersionV2 : Z := 2.
Definition manifestSchemaVersionV3 : Z := 3.
Definition manifestSchemaVersionV4 : Z := 4.
Definition manifestSchemaVersion : Z := manifestSchemaVersionV2.
Definition seqContinuityValue : string := "not_asserted".

(** A snapshot group as [discoverSnapshotGroups] finds it, newest identity
    first: its identity, the name of its manifest file, and what reading that
    file and decoding its JSON give; [g_manifest] is what a caller has put
    there. *)
Record snapshotGroup : Type := MkGroup {
  g_identity : string;
  g_manifestFn : string;
  g_decoded : result error snapshotManifest;
  g_manifest : option snapshotManifest }.

(** A group as discovery makes it: [manifest] is nil. *)
Definition discovered (identity manifestFn : string) (decoded : result error snapshotManifest) : snapshotGroup :=
  MkGroup identity manifestFn decoded None.

(** [parseSnapshotManifest]; its last message also quotes the value. *)
Definition parseSnapshotManifest (decoded : result error snapshotManifest) : result error snapshotManifest :=
  match decoded with
  | Err e => Err ("manifest json: " +:+ e)
  | Ok m =>
      if negb (m_SchemaVersion m =? manifestSchemaVersionV2) && negb (m_SchemaVersion m =? manifestSchemaVersionV3) &&
         negb (m_SchemaVersion m =? manifestSchemaVersionV4)
      then Err ("unsupported manifest schema_version " +:+ pretty (m_SchemaVersion m) +:+ " (want 2, 3 or 4)")
      else if m_PublicationID m <=? 0 then Err "manifest publication_id missing or invalid"
      else if negb (String.eqb (m_SeqContinuity m) seqContinuityValue) then Err "manifest seq_continuity invalid"
      else Ok m
  end.

Lemma parse_decoded d m : parseSnapshotManifest d = Ok m -> d = Ok m /\ 0 < m_PublicationID m.
Proof.
  destruct d as [m'|e]; [|done]. cbn. destruct (_ && _); [done|].
  destruct (Z.leb_spec (m_PublicationID m') 0); [done|]. destruct (negb _); [done|]. intros [= <-]. by split.
Qed.

(** ** Cryptography and encoding *)

Definition format_utf8 (f : manifestFormatInfo) : bool :=
  ValidString (mf_Format f) && ValidString (mf_File f) && ValidString (mf_SHA256 f).

Definition signature_utf8 (s : signatureBlock) : bool :=
  ValidString (sb_Alg s) && ValidString (sb_KeyID s) && ValidString (sb_Sig s) && ValidString (sb_SignedAt s).

Definition manifest_utf8 (m : snapshotManifest) : bool :=
  ValidString (m_Snapshot m) && ValidString (m_ExportedAt m) && ValidString (m_GeneratedAt m) &&
  ValidString (m_Source m) && ValidString (m_SeqContinuity m) && forallb format_utf8 (m_Formats m) &&
  from_option signature_utf8 true (m_Signature m) &&
  from_option (fun c => ValidString (mc_PrevManifestDigest c)) true (m_Chain m).

(** [crypto/ed25519], [crypto/sha256], [encoding/base64], and the JSON encoding
    of a manifest, which is injective on valid strings (encoding/json replaces
    invalid UTF-8). *)
Class ManifestCrypto := {
  PrivKey : Type;
  PubKey : Type;
  Public : PrivKey -> PubKey;
  Sign : PrivKey -> string -> string;
  Verify : PubKey -> string -> string -> bool;
  Sum256 : string -> string;
  base64_Encode : string -> string;
  base64_Decode : string -> option string;
  manifest_json : snapshotManifest -> string;
  verify_sign k p : Verify (Public k) p (Sign k p) = true;
  base64_roundtrip s : base64_Decode (base64_Encode s) = Some s;
  sign_nonempty k p : base64_Encode (Sign k p) <> "";
  manifest_json_inj m1 m2 :
    manifest_utf8 m1 = true -> manifest_utf8 m2 = true -> manifest_json m1 = manifest_json m2 -> m1 = m2 }.

(** ** Signatures *)

Definition sigVerdictOK : string := "signature_ok".
Definition sigVerdictInvalid : string := "signature_invalid".
Definition sigVerdictAbsent : string := "signature_absent".
Definition sigVerdictMalformed : string := "signature_malformed".
Definition sigVerdictKeyUnknown : string := "key_unknown".
Definition signatureAlgEd25519 : string := "ed25519".

Definition verifyStatusOK : string := "ok".
Definition verifyStatusMismatch : string := "mismatch".
Definition verifyStatusUnknown : string := "unknown".

(** The verdicts the key lifecycle adds (Phase 41). *)
Definition sigVerdictBeforeActivation : string := "signature_before_activation".
Definition sigVerdictAfterRotation : string := "signature_after_rotation".
Definition sigVerdictAfterRevocation : string := "signature_after_revocation".
Definition sigVerdictTimeUnparseable : string := "signature_time_unparseable".

Record SignatureVerdict : Type := MkSignatureVerdict {
  sv_Verdict : string;
  sv_KeyID : string;
  sv_Detail : string }.

Definition blank_sig (s : signatureBlock) : signatureBlock := MkSignature (sb_Alg s) (sb_KeyID s) "" (sb_SignedAt s).

Definition with_signature (m : snapshotManifest) (s : option signatureBlock) : snapshotManifest :=
  MkManifest (m_SchemaVersion m) (m_PublicationID m) (m_Snapshot m) (m_ExportedAt m) (m_GeneratedAt m)
    (m_Source m) (m_Truncated m) (m_SeqContinuity m) (m_MinSeq m) (m_MaxSeq m) (m_Records m) (m_Formats m)
    s (m_Chain m).

(** The manifest without [signature.sig]. *)
Definition unsigned (m : snapshotManifest) : snapshotManifest := with_signature m (blank_sig <$> m_Signature m).

Section Signature.
Context `{ManifestCrypto}.

(** [priv_size] is whether the key has the length of an Ed25519 private key. *)
Record exportSigner : Type := MkSigner { es_priv : PrivKey; es_priv_size : bool; es_keyID : string }.

Record exportTrustStore : Type := MkTrust { ts_keys : gmap string PubKey }.

Definition canonicalSignaturePayload (m : option snapshotManifest) : result error string :=
  match m with None => Err "nil manifest" | Some m => Ok (manifest_json (unsigned m)) end.

(** [signManifest]; [signedAt] is the formatted time. *)
Definition signManifest (s : option exportSigner) (m : snapshotManifest) (signedAt : string)
  : result error snapshotManifest :=
  match s with
  | None => Err "no signer configured"
  | Some s =>
      if negb (es_priv_size s) then Err "sign key: private key is not a valid Ed25519 key"
      else
        let m := with_signature m (Some (MkSignature signatureAlgEd25519 (es_keyID s) "" signedAt)) in
        match canonicalSignaturePayload (Some m) with
        | Err e => Err e
        | Ok payload =>
            Ok (with_signature m (Some (MkSignature signatureAlgEd25519 (es_keyID s)
                  (base64_Encode (Sign (es_priv s) payload)) signedAt)))
        end
  end.

Definition verifyManifestSignature (m : option snapshotManifest) (trust : option exportTrustStore) : SignatureVerdict :=
  match m with
  | None => MkSignatureVerdict sigVerdictAbsent "" "manifest unavailable"
  | Some m =>
      match m_Signature m with
      | None => MkSignatureVerdict sigVerdictAbsent "" "manifest carries no signature block"
      | Some sb =>
          if String.eqb (sb_Alg sb) "" || String.eqb (sb_KeyID sb) "" || String.eqb (sb_Sig sb) "" ||
             String.eqb (sb_SignedAt sb) ""
          then MkSignatureVerdict sigVerdictMalformed (sb_KeyID sb) "signature block is incomplete"
          else
            match base64_Decode (sb_Sig sb) with
            | None => MkSignatureVerdict sigVerdictMalformed (sb_KeyID sb) "signature is not valid base64"
            | Some rawSig =>
                let keys := match trust with Some t => ts_keys t | None => ∅ end in
                if decide (keys = ∅)
                then MkSignatureVerdict sigVerdictKeyUnknown (sb_KeyID sb) "no trusted public keys are configured"
                else
                  match keys !! sb_KeyID sb with
                  | None => MkSignatureVerdict sigVerdictKeyUnknown (sb_KeyID sb) "key_id is not in the trusted key set"
                  | Some pub =>
                      match canonicalSignaturePayload (Some m) with
                      | Err e => MkSignatureVerdict sigVerdictMalformed (sb_KeyID sb) e
                      | Ok payload =>
                          if negb (Verify pub payload rawSig) then
                            MkSignatureVerdict sigVerdictInvalid (sb_KeyID sb)
                              "signature does not verify against the trusted key"
                          else MkSignatureVerdict sigVerdictOK (sb_KeyID sb) ""
                      end
                  end
            end
      end
  end.

Definition applySignatureVerdict (status : string) (v : SignatureVerdict) (schemaVersion : Z) : string :=
  let verdict := sv_Verdict v in
  if String.eqb verdict sigVerdictInvalid then verifyStatusMismatch
  else if String.eqb verdict sigVerdictAfterRevocation || String.eqb verdict sigVerdictAfterRotation ||
          String.eqb verdict sigVerdictBeforeActivation || String.eqb verdict sigVerdictTimeUnparseable
  then verifyStatusMismatch
  else if String.eqb verdict sigVerdictKeyUnknown || String.eqb verdict sigVerdictMalformed then
    if String.eqb status verifyStatusOK then verifyStatusUnknown else status
  else if String.eqb verdict sigVerdictAbsent then
    if (manifestSchemaVersionV3 <=? schemaVersion) && String.eqb status verifyStatusOK
    then verifyStatusUnknown else status
  else status.

(** [manifestDigest], and [ledgerDigestOf], which is the same. *)
Definition manifestDigest (m : option snapshotManifest) : result error string :=
  match canonicalSignaturePayload m with
  | Err e => Err e
  | Ok payload => Ok (hex_EncodeToString (Sum256 payload))
  end.

(** ** Properties *)

Lemma unsigned_utf8 m : manifest_utf8 m = true -> manifest_utf8 (unsigned m) = true.
Proof.
  unfold manifest_utf8, unsigned. cbn. intros Hm. go_bools. repeat (apply andb_true_iff; split); try done.
  destruct (m_Signature m) as [s|]; [|done]. cbn in *. unfold signature_utf8 in *. go_bools. cbn.
  by repeat (apply andb_true_iff; split).
Qed.

Lemma verdict_ok_inv m trust :
  sv_Verdict (verifyManifestSignature (Some m) trust) = sigVerdictOK ->
  exists sb t pub raw, m_Signature m = Some sb /\ trust = Some t /\ ts_keys t !! sb_KeyID sb = Some pub /\
    base64_Decode (sb_Sig sb) = Some raw /\ Verify pub (manifest_json (unsigned m)) raw = true.
Proof.
  unfold verifyManifestSignature. cbn. destruct (m_Signature m) as [sb|]; [|done].
  destruct (_ || _); [done|]. destruct (base64_Decode (sb_Sig sb)) as [raw|] eqn:Er; [|done].
  destruct (decide _) as [|Hne]; [done|]. destruct trust as [t|]; [|done].
  destruct (ts_keys t !! sb_KeyID sb) as [pub|] eqn:Ek; [|done].
  destruct (Verify _ _ raw) eqn:Ev; [|done]. intros _. by exists sb, t, pub, raw.
Qed.

(** What the signer signs verifies under a trust store that has its key,
    and the signing changes nothing but the signature block. *)
Theorem manifest_sign_verify s m at_ m' t :
  signManifest (Some s) m at_ = Ok m' -> es_keyID s <> "" -> at_ <> "" ->
  ts_keys t !! es_keyID s = Some (Public (es_priv s)) ->
  verifyManifestSignature (Some m') (Some t) = MkSignatureVerdict sigVerdictOK (es_keyID s) "" /\
  with_signature m' (m_Signature m) = m.
Proof.
  unfold signManifest. destruct (es_priv_size s); [|done]. cbn. intros [= <-] Hk Hat Ht. split; [|by destruct m].
  unfold verifyManifestSignature. cbn.
  assert (Hs : forall p, String.eqb (base64_Encode (Sign (es_priv s) p)) "" = false).
  { intros p. apply String.eqb_neq, sign_nonempty. }
  destruct (String.eqb_spec (es_keyID s) ""); [done|]. destruct (String.eqb_spec at_ ""); [done|].
  rewrite Hs. cbn. rewrite base64_roundtrip. case_decide as E; [by rewrite E, lookup_empty in Ht|]. rewrite Ht.
  unfold unsigned. cbn. by rewrite verify_sign.
Qed.

(** Tamper evidence (Phase 37): unless the signature text of a manifest is
    a forgery (it verifies, under a trusted key, a payload that is not the one
    of a manifest the key holder [signed]), an accepted manifest is one of the
    signed ones in everything but the text of the signature: no business field,
    key id or signing time can be changed, and its digest is that one's. *)
Theorem manifest_tamper_evident (signed : list snapshotManifest) t m :
  (forall sb pub raw, m_Signature m = Some sb -> ts_keys t !! sb_KeyID sb = Some pub ->
     base64_Decode (sb_Sig sb) = Some raw -> Verify pub (manifest_json (unsigned m)) raw = true ->
     exists m0, m0 ∈ signed /\ manifest_json (unsigned m) = manifest_json (unsigned m0)) ->
  Forall (fun m0 => manifest_utf8 m0 = true) signed -> manifest_utf8 m = true ->
  sv_Verdict (verifyManifestSignature (Some m) (Some t)) = sigVerdictOK ->
  exists m0, m0 ∈ signed /\ unsigned m0 = unsigned m /\
    manifestDigest (Some m0) = manifestDigest (Some m).
Proof.
  intros Hforge Hutf Hm Hv.
  destruct (verdict_ok_inv _ _ Hv) as (sb & t' & pub & raw & Hsb & [= <-] & Hk & Hraw & Hver).
  destruct (Hforge _ _ _ Hsb Hk Hraw Hver) as (m0 & Hin & Hp). exists m0. rewrite Forall_forall in Hutf.
  assert (E : unsigned m0 = unsigned m).
  { apply manifest_json_inj; [by apply unsigned_utf8, Hutf|by apply unsigned_utf8|done]. }
  split; [done|]. split; [done|]. unfold manifestDigest, canonicalSignaturePayload. by rewrite E.
Qed.

(** A signature verdict never upgrades: the status stays, or falls to
    unknown from ok, or becomes mismatch; and ok stays ok only on a good
    signature or, for a document older than signatures, on none. *)
Theorem signature_never_upgrades status v schema :
  sv_Verdict v ∈ [sigVerdictOK; sigVerdictInvalid; sigVerdictAbsent; sigVerdictMalformed; sigVerdictKeyUnknown;
    sigVerdictBeforeActivation; sigVerdictAfterRotation; sigVerdictAfterRevocation; sigVerdictTimeUnparseable] ->
  let r := applySignatureVerdict status v schema in
  (r = status \/ status = verifyStatusOK /\ r = verifyStatusUnknown \/ r = verifyStatusMismatch) /\
  (r = verifyStatusOK <-> status = verifyStatusOK /\
    (sv_Verdict v = sigVerdictOK \/ sv_Verdict v = sigVerdictAbsent /\ schema < manifestSchemaVersionV3)).
Proof.
  intros Hv. unfold applySignatureVerdict. destruct (String.eqb_spec status verifyStatusOK) as [->|Hst].
  - repeat (apply elem_of_cons in Hv as [->|Hv]); [.. |by apply elem_of_nil in Hv]; cbn;
      try destruct (Z.leb_spec manifestSchemaVersionV3 schema); cbn; (split; [by auto|]); split;
      first [discriminate | by auto | intros [_ [?|[? ?]]]; first [discriminate | lia | done]].
  - rewrite andb_false_r.
    repeat case_match; (split; [by auto|]); split; first [discriminate | done | by intros [? _]].
Qed.

End Signature.

(** ** An instance, and witnesses

    Keys are names, the signature of a payload is the name and the payload, the
    digest the payload itself, and the encoding writes every byte behind a "1"
    and a "0" at the end of each field. *)

Fixpoint field (s rest : string) : string :=
  match s with
  | EmptyString => String "0"%char rest
  | String a s' => String "1"%char (String a (field s' rest))
  end.

Definition fields (l : list string) : string := foldr field "" l.

Lemma field_inj s s' r r' : field s r = field s' r' -> s = s' /\ r = r'.
Proof.
  revert s'. induction s as [|a s IH]; intros [|b s'] E; cbn in E; [by injection E|done|done|].
  injection E as -> E. by destruct (IH s' E) as [-> ->].
Qed.

Lemma fields_inj l l' : fields l = fields l' -> l = l'.
Proof.
  revert l'. induction l as [|s l IH]; intros [|s' l'] E; [done|by destruct s'|by destruct s|].
  cbn in E. apply field_inj in E as [-> E]. by rewrite (IH _ E).
Qed.

Definition format_fields (f : manifestFormatInfo) : list string :=
  [mf_Format f; mf_File f; mf_SHA256 f; pretty (mf_Bytes f); pretty (mf_Records f)].
Definition signature_fields (s : option signatureBlock) : list string :=
  match s with None => [""] | Some s => ["+"; sb_Alg s; sb_KeyID s; sb_Sig s; sb_SignedAt s] end.
Definition chain_fields (c : option manifestChain) : list string :=
  match c with None => [""] | Some c => ["+"; pretty (mc_PrevPublicationID c); mc_PrevManifestDigest c] end.
Definition manifest_fields (m : snapshotManifest) : list string :=
  [pretty (m_SchemaVersion m); pretty (m_PublicationID m); m_Snapshot m; m_ExportedAt m; m_GeneratedAt m;
   m_Source m; (if m_Truncated m then "true" else "false"); m_SeqContinuity m; pretty (m_MinSeq m);
   pretty (m_MaxSeq m); pretty (m_Records m)] ++
  signature_fields (m_Signature m) ++ chain_fields (m_Chain m) ++ mjoin (map format_fields (m_Formats m)).

Lemma formats_inj (l l' : list manifestFormatInfo) :
  mjoin (map format_fields l) = mjoin (map format_fields l') -> l = l'.
Proof.
  revert l'. induction l as [|[] l IH]; intros [|[] l'] E; cbn in E; try done.
  injection E as -> -> -> E1 E2 E. apply (inj pretty) in E1, E2. by rewrite E1, E2, (IH _ E).
Qed.

Lemma manifest_fields_inj m m' : manifest_fields m = manifest_fields m' -> m = m'.
Proof.
  destruct m as [? ? ? ? ? ? tr ? ? ? ? ? sg ch], m' as [? ? ? ? ? ? tr' ? ? ? ? ? sg' ch']. unfold manifest_fields. cbn.
  intros E. injection E as E1 E2 -> -> -> -> E3 -> E4 E5 E6 E. apply (inj pretty) in E1, E2, E4, E5, E6. subst.
  assert (tr = tr') as -> by (by destruct tr, tr').
  assert (sg = sg' /\ chain_fields ch ++ mjoin (map format_fields m_Formats0) =
    chain_fields ch' ++ mjoin (map format_fields m_Formats1)) as [-> E'].
  { destruct sg as [[]|], sg' as [[]|]; cbn in E; simplify_eq; done. }
  assert (ch = ch' /\ mjoin (map format_fields m_Formats0) = mjoin (map format_fields m_Formats1)) as [-> E''].
  { destruct ch as [[]|], ch' as [[]|]; cbn in E'; simplify_eq; done. }
  by rewrite (formats_inj _ _ E'').
Qed.

Definition sample_sign (k p : string) : string := field k (field p "").

Definition sample_crypto : ManifestCrypto.
Proof.
  refine {| PrivKey := string; PubKey := string; Public k := k; Sign := sample_sign;
    Verify k p raw := String.eqb raw (sample_sign k p); Sum256 p := p;
    base64_Encode s := String "="%char s;
    base64_Decode s := match s with String _ s' => Some s' | EmptyString => None end;
    manifest_json m := fields (manifest_fields m) |}.
  - intros k p. apply String.eqb_refl.
  - done.
  - done.
  - intros m1 m2 _ _ E. by apply manifest_fields_inj, fields_inj.
Defined.

#[local] Existing Instance sample_crypto.

Definition sample_signer : exportSigner := MkSigner (H := sample_crypto) "alice" true "key-a".
Definition sample_trust : exportTrustStore := MkTrust (H := sample_crypto) {[ "key-a" := "alice" ]}.

Definition sample_manifest (id : Z) (snapshot : string) (chain : option manifestChain) : snapshotManifest :=
  MkManifest 4 id snapshot "2026-01-01T00:00:00Z" "2026-01-01T00:00:01Z" "durable" false seqContinuityValue
    1 9 9 [MkFormatInfo "json" (snapshot +:+ ".json") "00ff" 120 9] None chain.

Definition sample_signed (m : snapshotManifest) : snapshotManifest :=
  match signManifest (Some sample_signer) m "2026-01-01T00:00:02Z" with Ok m' => m' | Err _ => m end.

Lemma manifest_sign_verify_witness :
  verifyManifestSignature (Some (sample_signed (sample_manifest 7 "s7" None))) (Some sample_trust) =
    MkSignatureVerdict sigVerdictOK "key-a" "".
Proof.
  assert (Hs : signManifest (Some sample_signer) (sample_manifest 7 "s7" None) "2026-01-01T00:00:02Z" =
    Ok (sample_signed (sample_manifest 7 "s7" None))) by (vm_compute; reflexivity).
  assert (Hk : ts_keys sample_trust !! es_keyID sample_signer = Some (Public (es_priv sample_signer)))
    by (vm_compute; reflexivity).
  exact (proj1 (manifest_sign_verify _ _ _ _ _ Hs ltac:(discriminate) ltac:(discriminate) Hk)).
Defined.

(** The accepted manifest spells its signature in another way than the one that
    was signed. *)
Definition respelled (m : snapshotManifest) : snapshotManifest :=
  with_signature m ((fun s => MkSignature (sb_Alg s) (sb_KeyID s)
    (match sb_Sig s with String _ r => String "~"%char r | EmptyString => "" end) (sb_SignedAt s)) <$> m_Signature m).

Lemma manifest_tamper_evident_witness :
  let m0 := sample_signed (sample_manifest 7 "s7" None) in
  respelled m0 <> m0 /\
  exists m1, m1 ∈ [m0] /\ unsigned m1 = unsigned (respelled m0) /\
    manifestDigest (Some m1) = manifestDigest (Some (respelled m0)).
Proof.
  intros m0. split; [vm_compute; discriminate|].
  assert (Hsame : manifest_json (unsigned (respelled m0)) = manifest_json (unsigned m0)) by (vm_compute; reflexivity).
  assert (Hutf : Forall (fun m => manifest_utf8 m = true) [m0]) by (constructor; [vm_compute; reflexivity|constructor]).
  assert (Hm : manifest_utf8 (respelled m0) = true) by (vm_compute; reflexivity).
  assert (Hv : sv_Verdict (verifyManifestSignature (Some (respelled m0)) (Some sample_trust)) = sigVerdictOK)
    by (vm_compute; reflexivity).
  refine (manifest_tamper_evident [m0] sample_trust (respelled m0) _ Hutf Hm Hv).
  intros sb pub raw _ _ _ _. exists m0. split; [left|exact Hsame].
Defined.

Lemma signature_never_upgrades_witness :
  applySignatureVerdict verifyStatusOK (MkSignatureVerdict sigVerdictAbsent "" "") 2 = verifyStatusOK.
Proof.
  refine (proj2 (proj2 (signature_never_upgrades verifyStatusOK (MkSignatureVerdict sigVerdictAbsent "" "") 2 _)) _).
  - cbn. right. right. left.
  - split; [reflexivity|]. right. split; reflexivity.
Defined.
