(* ===== verification/Coverage.v ===== *)
(** * Sequence coverage of the exported snapshots
      (internal/controlplane/server/history_export_coverage.go)

    Which sequence numbers of the transition history the snapshot manifests
    declare, which are gaps, and whether that can be called complete. Closed
    intervals on int64. Reading the directory and decoding JSON give the groups
    and their manifests as input. *)

From S2P Require Import Prelude GoStrings Manifest.

(** ** Data *)

Record CoverageInterval : Type := MkInterval { iv_Min : Z; iv_Max : Z }.

Record CoverageWindow : Type := MkWindow { win_Since : Z; win_Until : Z }.

Definition completenessComplete : string := "complete".
Definition completenessGapsPresent : string := "gaps_present".
Definition completenessUnknown : string := "unknown".

Definition unusableUnparseable : string := "unparseable".
Definition unusableMissingRange : string := "missing_range".
Definition unusableInvalidRange : string := "invalid_range".
Definition unusableEmptyRange : string := "empty_range".

Definition coverageClassUncertain : string := "coverage_uncertain".
Definition coverageClassIrrelevant : string := "coverage_irrelevant".

Record CoverageUnusable : Type := MkUnusable {
  un_Snapshot : string;
  un_PublicationID : Z;
  un_Reason : string;
  un_Class : string }.

Record coverageUncertainCandidate : Type := MkCandidate {
  cand_manifest : option snapshotManifest;
  cand_reason : string }.

Record CoverageResult : Type := MkCoverageResult {
  cr_Window : CoverageWindow;
  cr_SnapshotsConsidered : Z;
  cr_Unusable : list CoverageUnusable;
  cr_Covered : list CoverageInterval;
  cr_Gaps : list CoverageInterval;
  cr_OutOfScope : list CoverageInterval;
  cr_PublicationGaps : list CoverageInterval;
  cr_Bounded : bool;
  cr_SourceTruncated : bool;
  cr_ProvenanceUncertain : bool;
  cr_Completeness : string }.

(** ** Interval operations *)

Definition maxI64 (a b : Z) : Z := if b <? a then a else b.
Definition minI64 (a b : Z) : Z := if a <? b then a else b.

Definition coverageMergeable (curMax nextMin : Z) : bool :=
  (nextMin <=? curMax) || ((curMax <? max_int64) && (nextMin =? wrap64 (curMax + 1))).

Definition interval_less (a b : CoverageInterval) : bool :=
  if negb (iv_Min a =? iv_Min b) then iv_Min a <? iv_Min b else iv_Max a <? iv_Max b.

(** The loop over the sorted intervals; [cur] is the last one of the output. *)
Fixpoint merge_loop (cur : CoverageInterval) (l : list CoverageInterval) : list CoverageInterval :=
  match l with
  | [] => [cur]
  | x :: l' =>
      if coverageMergeable (iv_Max cur) (iv_Min x) then
        merge_loop (MkInterval (iv_Min cur) (if iv_Max cur <? iv_Max x then iv_Max x else iv_Max cur)) l'
      else cur :: merge_loop x l'
  end.

Definition mergeCoverageIntervals (l : list CoverageInterval) : list CoverageInterval :=
  match sort_slice interval_less l with
  | [] => []
  | x :: l' => merge_loop x l'
  end.

(** The loop over the covered intervals: gaps found, the cursor behind the last
    one, and whether the axis is exhausted. *)
Fixpoint gap_loop (cursor : Z) (covered : list CoverageInterval) : list CoverageInterval * Z * bool :=
  match covered with
  | [] => ([], cursor, false)
  | iv :: l =>
      let found := if cursor <? iv_Min iv then [MkInterval cursor (wrap64 (iv_Min iv - 1))] else [] in
      if iv_Max iv =? max_int64 then (found, cursor, true)
      else
        let cursor := if cursor <? wrap64 (iv_Max iv + 1) then wrap64 (iv_Max iv + 1) else cursor in
        let '(rest, c, ex) := gap_loop cursor l in (found ++ rest, c, ex)
  end.

Definition coverage_gaps (spanLo spanHi : Z) (covered : list CoverageInterval) : list CoverageInterval :=
  let '(found, cursor, exhausted) := gap_loop spanLo covered in
  found ++ (if negb exhausted && (cursor <=? spanHi) then [MkInterval cursor spanHi] else []).

(** [publicationGaps]: positive ids without duplicates, sorted, and the holes
    between neighbours. *)
Fixpoint uniq_positive (seen : list Z) (ids : list Z) : list Z :=
  match ids with
  | [] => []
  | id :: ids' =>
      if (id <=? 0) || bool_decide (id ∈ seen) then uniq_positive seen ids'
      else id :: uniq_positive (id :: seen) ids'
  end.

Fixpoint holes (prev : Z) (l : list Z) : list CoverageInterval :=
  match l with
  | [] => []
  | x :: l' =>
      let lo := wrap64 (prev + 1) in
      let hi := wrap64 (x - 1) in
      (if lo <=? hi then [MkInterval lo hi] else []) ++ holes x l'
  end.

Definition publicationGaps (ids : list Z) : list CoverageInterval :=
  if (length ids <? 2)%nat then []
  else
    let uniq := uniq_positive [] ids in
    if (length uniq <? 2)%nat then []
    else match sort_slice Z.ltb uniq with
         | [] => []
         | x :: l => holes x l
         end.

(** ** Manifests *)

(** The manifest, when it parsed, and the reason it is unusable, or "". *)
Definition loadCoverageManifest (g : snapshotGroup) : option snapshotManifest * string :=
  if decide (g_manifestFn g = "") then (None, unusableUnparseable)
  else
    match parseSnapshotManifest (g_decoded g) with
    | Err _ => (None, unusableUnparseable)
    | Ok m =>
        if (m_MinSeq m =? 0) && (m_MaxSeq m =? 0) then (Some m, unusableMissingRange)
        else if m_MaxSeq m <? m_MinSeq m then (Some m, unusableInvalidRange)
        else if m_Records m =? 0 then (Some m, unusableEmptyRange)
        else (Some m, "")
    end.

Definition coverageUncertainRelevant (m : option snapshotManifest) (reason : string)
    (winSince winUntil : Z) : bool :=
  match m with
  | None => true
  | Some m =>
      if decide (reason = unusableUnparseable \/ reason = unusableMissingRange) then true
      else
        let lo := if m_MaxSeq m <? m_MinSeq m then m_MaxSeq m else m_MinSeq m in
        let hi := if m_MaxSeq m <? m_MinSeq m then m_MinSeq m else m_MaxSeq m in
        negb ((hi <? winSince) || (winUntil <? lo))
  end.

(** ** Coverage *)

(** What the first pass collects. *)
Record Pass : Type := MkPass {
  p_unusable : list CoverageUnusable;
  p_usable : list CoverageInterval;
  p_ids : list Z;
  p_uncertains : list coverageUncertainCandidate;
  p_truncated : bool;
  p_spanMin : Z;
  p_spanMax : Z }.

Definition have_usable (p : Pass) : bool := match p_usable p with [] => false | _ => true end.

Definition classify (p : Pass) (g : snapshotGroup) : Pass :=
  let '(m, reason) := loadCoverageManifest g in
  let pub := match m with Some m => m_PublicationID m | None => 0 end in
  let ids := p_ids p ++ match m with Some m => [m_PublicationID m] | None => [] end in
  if negb (bool_decide (reason = "")) then
    let irrelevant := bool_decide (reason = unusableEmptyRange) in
    MkPass (p_unusable p ++ [MkUnusable (g_identity g) pub reason
              (if irrelevant then coverageClassIrrelevant else coverageClassUncertain)])
      (p_usable p) ids
      (if irrelevant then p_uncertains p else p_uncertains p ++ [MkCandidate m reason])
      (p_truncated p) (p_spanMin p) (p_spanMax p)
  else
    match m with
    | None => p
    | Some m =>
        MkPass (p_unusable p) (p_usable p ++ [MkInterval (m_MinSeq m) (m_MaxSeq m)]) ids (p_uncertains p)
          (p_truncated p || m_Truncated m)
          (if negb (have_usable p) || (m_MinSeq m <? p_spanMin p) then m_MinSeq m else p_spanMin p)
          (if negb (have_usable p) || (p_spanMax p <? m_MaxSeq m) then m_MaxSeq m else p_spanMax p)
    end.

Definition first_pass (groups : list snapshotGroup) : Pass :=
  run_list classify (MkPass [] [] [] [] false 0 0) groups.

Definition clip (lo hi : Z) (ivs : list CoverageInterval) : list CoverageInterval :=
  List.filter (fun iv => iv_Min iv <=? iv_Max iv)
    (map (fun iv => MkInterval (maxI64 (iv_Min iv) lo) (minI64 (iv_Max iv) hi)) ivs).

(** The bounds of the clipped intervals, [0, -1] when there is none. *)
Definition observed_span (clipped : list CoverageInterval) : Z * Z :=
  match clipped with
  | [] => (0, -1)
  | x :: _ => (foldl (fun lo iv => if iv_Min iv <? lo then iv_Min iv else lo) (iv_Min x) clipped,
               foldl (fun hi iv => if hi <? iv_Max iv then iv_Max iv else hi) (iv_Max x) clipped)
  end.

Definition out_of_scope (winSince winUntil spanMin spanMax : Z) : list CoverageInterval :=
  (if winSince <? spanMin then [MkInterval winSince (minI64 winUntil (wrap64 (spanMin - 1)))] else []) ++
  (if spanMax <? winUntil then [MkInterval (maxI64 winSince (wrap64 (spanMax + 1))) winUntil] else []).

Definition is_nonempty {A} (l : list A) : bool := match l with [] => false | _ => true end.

Definition coverage_limit (limit : Z) : Z :=
  let limit := if limit <=? 0 then 10 else limit in
  if 100 <? limit then 100 else limit.

(** [Coverage] on the groups [discoverSnapshotGroups] found, newest first. *)
Definition Coverage (groups : list snapshotGroup) (since until : option Z) (limit : Z) : CoverageResult :=
  let limit := coverage_limit limit in
  let boundedByLimit := limit <? Z.of_nat (length groups) in
  let groups := if boundedByLimit then take (Z.to_nat limit) groups else groups in
  let p := first_pass groups in
  let winSince := match since with Some x => x | None => if have_usable p then p_spanMin p else 0 end in
  let winUntil := match until with Some x => x | None => if have_usable p then p_spanMax p else 0 end in
  let uncertain := existsb (fun c =>
    coverageUncertainRelevant (cand_manifest c) (cand_reason c) winSince winUntil) (p_uncertains p) in
  let result covered gaps oos bounded completeness :=
    MkCoverageResult (MkWindow winSince winUntil) (Z.of_nat (length groups)) (p_unusable p) covered gaps
      oos (publicationGaps (p_ids p)) bounded (p_truncated p) uncertain completeness in
  if negb (have_usable p) then
    let oos :=
      if (winSince <=? winUntil) &&
         ((if since is Some _ then true else false) || (if until is Some _ then true else false))
      then [MkInterval winSince winUntil] else [] in
    result [] [] oos (boundedByLimit || is_nonempty oos) completenessUnknown
  else if winUntil <? winSince then result [] [] [] true completenessUnknown
  else
    let clipped := clip winSince winUntil (p_usable p) in
    let covered := mergeCoverageIntervals clipped in
    let '(spanLo, spanHi) := observed_span clipped in
    let oos := out_of_scope winSince winUntil (p_spanMin p) (p_spanMax p) in
    let gaps := coverage_gaps spanLo spanHi covered in
    result covered gaps oos (boundedByLimit || is_nonempty oos)
      (if uncertain then completenessUnknown
       else if is_nonempty gaps then completenessGapsPresent
       else if p_truncated p then completenessUnknown
       else completenessComplete).

(** ** Specification: the sequence numbers an interval list stands for *)

Definition contains (iv : CoverageInterval) (x : Z) : Prop := iv_Min iv <= x <= iv_Max iv.
Definition union (l : list CoverageInterval) (x : Z) : Prop := Exists (fun iv => contains iv x) l.

Definition valid (iv : CoverageInterval) : Prop :=
  min_int64 <= iv_Min iv /\ iv_Min iv <= iv_Max iv /\ iv_Max iv <= max_int64.

(** [a] ends more than one before [b] begins. *)
Definition separated (a b : CoverageInterval) : Prop := iv_Max a + 1 < iv_Min b.

#[export] Instance union_dec l x : Decision (union l x).
Proof. apply Exists_dec. intros iv. unfold contains. apply _. Defined.

(** Between two sequence numbers of the list. *)
Definition hull (l : list CoverageInterval) (x : Z) : Prop :=
  exists a b, union l a /\ union l b /\ a <= x <= b.

(** What a group contributes, and the groups within the limit. *)
Definition usable_of (g : snapshotGroup) : option CoverageInterval :=
  match loadCoverageManifest g with
  | (Some m, "") => Some (MkInterval (m_MinSeq m) (m_MaxSeq m))
  | _ => None
  end.

Definition publication_of (g : snapshotGroup) : option Z :=
  m_PublicationID <$> (loadCoverageManifest g).1.

Definition considered (groups : list snapshotGroup) (limit : Z) : list snapshotGroup :=
  take (Z.to_nat (coverage_limit limit)) groups.

(** Decoded sequence numbers are 64-bit integers. *)
Definition group_ok (g : snapshotGroup) : Prop :=
  forall m, g_decoded g = Ok m -> in_int64 (m_MinSeq m) /\ in_int64 (m_MaxSeq m).

Definition bound_ok (b : option Z) : Prop := forall x, b = Some x -> in_int64 x.

(** ** Lemmas *)

Lemma union_cons iv l x : union (iv :: l) x <-> contains iv x \/ union l x.
Proof. apply Exists_cons. Qed.

Lemma union_app l1 l2 x : union (l1 ++ l2) x <-> union l1 x \/ union l2 x.
Proof. apply Exists_app. Qed.

Lemma union_nil x : ~ union [] x.
Proof. by intros H%Exists_nil. Qed.

Lemma union_perm l1 l2 x : l1 ≡ₚ l2 -> union l1 x <-> union l2 x.
Proof. intros Hp. unfold union. rewrite !Exists_exists. by setoid_rewrite Hp. Qed.

Lemma coverageMergeable_spec a b :
  min_int64 <= a <= max_int64 -> b <= max_int64 -> coverageMergeable a b = true <-> b <= a + 1.
Proof.
  intros Ha Hb. unfold coverageMergeable. rewrite orb_true_iff, andb_true_iff, Z.leb_le, Z.ltb_lt, Z.eqb_eq.
  destruct (Z.eq_dec a max_int64) as [->|Hne]; [lia|].
  rewrite wrap64_id by (unfold in_int64; lia). lia.
Qed.

Lemma interval_less_spec a b :
  interval_less a b = false <-> iv_Min b < iv_Min a \/ iv_Min b = iv_Min a /\ iv_Max b <= iv_Max a.
Proof.
  unfold interval_less. destruct (Z.eqb_spec (iv_Min a) (iv_Min b)); simpl; rewrite Z.ltb_ge; lia.
Qed.

Lemma interval_less_total a b : interval_less a b = true -> interval_less b a = false.
Proof.
  unfold interval_less. rewrite (Z.eqb_sym (iv_Min b)).
  destruct (Z.eqb_spec (iv_Min a) (iv_Min b)); simpl; rewrite Z.ltb_lt, Z.ltb_ge; lia.
Qed.

Lemma sorted_intervals l : StronglySorted (fun a b => iv_Min a <= iv_Min b) (sort_slice interval_less l).
Proof.
  assert (Hs : StronglySorted (sort_le interval_less) (sort_slice interval_less l)).
  { apply sort_slice_sorted.
    - apply interval_less_total.
    - intros a b c. rewrite !interval_less_spec. lia. }
  induction Hs as [|x l' Hs IH Hx]; constructor; [done|].
  eapply Forall_impl; [exact Hx|]. intros y Hy. apply interval_less_spec in Hy. lia.
Qed.

Lemma merge_loop_spec cur l :
  valid cur -> Forall valid l -> StronglySorted (fun a b => iv_Min a <= iv_Min b) (cur :: l) ->
  let out := merge_loop cur l in
  (forall x, union out x <-> contains cur x \/ union l x) /\
  StronglySorted separated out /\ Forall valid out /\
  Forall (fun iv => iv_Min cur <= iv_Min iv) out.
Proof.
  revert cur. induction l as [|y l IH]; intros cur Hc Hl Hs; cbn [merge_loop]; cbv zeta.
  { split; [|split; [|split]].
    - intros x. by rewrite union_cons.
    - by repeat constructor.
    - by constructor.
    - by repeat constructor. }
  apply Forall_cons in Hl as [Hy Hl]. inversion Hs as [|? ? Hs' Hmin]; subst.
  apply Forall_cons in Hmin as [Hcy Hcl]. pose proof (coverageMergeable_spec (iv_Max cur) (iv_Min y)) as Hm.
  destruct (coverageMergeable (iv_Max cur) (iv_Min y)) eqn:E.
  - assert (Hle : iv_Min y <= iv_Max cur + 1) by (unfold valid in *; apply Hm; [lia|lia|done]).
    set (cur' := MkInterval _ _).
    assert (Hc' : valid cur').
    { unfold cur', valid in *. simpl. destruct (Z.ltb_spec (iv_Max cur) (iv_Max y)); lia. }
    destruct (IH cur' Hc' Hl) as (Hu & Hsep & Hv & Hge).
    { constructor; [by inversion Hs'|]. exact Hcl. }
    split; [|done]. intros x. rewrite Hu, union_cons. unfold contains, cur', valid in *. simpl in *.
    assert (contains y x \/ iv_Min cur <= x <= iv_Max cur <->
            iv_Min cur <= x <= (if iv_Max cur <? iv_Max y then iv_Max y else iv_Max cur)) as <-.
    { unfold contains. destruct (Z.ltb_spec (iv_Max cur) (iv_Max y)); lia. }
    unfold contains. tauto.
  - assert (Hgt : iv_Max cur + 1 < iv_Min y).
    { unfold valid in *. destruct (Z.le_gt_cases (iv_Min y) (iv_Max cur + 1)) as [H|H]; [|done].
      apply Hm in H; [done|lia|lia]. }
    destruct (IH y Hy Hl Hs') as (Hu & Hsep & Hv & Hge). split; [|split; [|split; [by constructor|]]].
    + intros x. rewrite !union_cons, Hu. done.
    + constructor; [done|]. eapply Forall_impl; [exact Hge|]. unfold separated. simpl. lia.
    + constructor; [lia|]. eapply Forall_impl; [exact Hge|]. simpl. lia.
Qed.

Lemma merge_spec l :
  Forall valid l ->
  (forall x, union (mergeCoverageIntervals l) x <-> union l x) /\
  StronglySorted separated (mergeCoverageIntervals l) /\ Forall valid (mergeCoverageIntervals l).
Proof.
  intros Hl. pose proof (sort_slice_perm interval_less l) as Hp. pose proof (sorted_intervals l) as Hs.
  unfold mergeCoverageIntervals. rewrite <- Hp in Hl. setoid_rewrite <- (union_perm _ _ _ Hp).
  destruct (sort_slice interval_less l) as [|x l']; [by repeat constructor|].
  apply Forall_cons in Hl as [Hx Hl]. destruct (merge_loop_spec x l' Hx Hl Hs) as (Hu & Hsep & Hv & _).
  split; [|done]. intros y. by rewrite Hu, union_cons.
Qed.

Lemma coverage_gaps_cons lo hi iv l :
  coverage_gaps lo hi (iv :: l) =
    (if lo <? iv_Min iv then [MkInterval lo (wrap64 (iv_Min iv - 1))] else []) ++
    (if iv_Max iv =? max_int64 then []
     else coverage_gaps (if lo <? wrap64 (iv_Max iv + 1) then wrap64 (iv_Max iv + 1) else lo) hi l).
Proof.
  unfold coverage_gaps. cbn [gap_loop]. destruct (iv_Max iv =? max_int64); [done|].
  destruct (gap_loop _ l) as [[found c] ex]. by rewrite app_assoc.
Qed.

Lemma union_one b iv x : union (if b : bool then [iv] else []) x <-> b = true /\ contains iv x.
Proof.
  destruct b; [|split; [by intros ?%union_nil|by intros [? _]]].
  rewrite union_cons. pose proof (union_nil x). tauto.
Qed.

Lemma separated_above iv l x :
  StronglySorted separated (iv :: l) -> union l x -> iv_Max iv + 1 < x.
Proof.
  intros Hs. inversion Hs as [|? ? _ Ha]; subst. unfold union. rewrite Exists_exists.
  intros (y & Hy & Hx). rewrite Forall_forall in Ha. specialize (Ha y Hy).
  unfold separated, contains in *. lia.
Qed.

(** The gap loop is the complement of what is covered, in the span. *)
Lemma coverage_gaps_spec covered lo hi x :
  Forall valid covered -> StronglySorted separated covered ->
  Forall (fun iv => lo <= iv_Min iv /\ iv_Max iv <= hi) covered -> min_int64 <= lo -> hi <= max_int64 ->
  union (coverage_gaps lo hi covered) x <-> lo <= x <= hi /\ ~ union covered x.
Proof.
  revert lo. induction covered as [|iv l IH]; intros lo Hv Hs Hb Hlo Hhi.
  - unfold coverage_gaps. simpl. rewrite union_one, Z.leb_le. unfold contains. simpl.
    pose proof (union_nil x). intuition lia.
  - rewrite coverage_gaps_cons, union_app, union_one, Z.ltb_lt, union_cons.
    apply Forall_cons in Hv as [Hiv Hv]. apply Forall_cons in Hb as [Hbi Hb].
    pose proof (separated_above iv l x Hs) as Habove.
    inversion Hs as [|? ? Hs' Hsep]; subst. unfold valid in Hiv. unfold contains. simpl.
    assert (Hfirst : lo < iv_Min iv /\ lo <= x <= wrap64 (iv_Min iv - 1) <-> lo <= x < iv_Min iv).
    { destruct (Z.lt_ge_cases lo (iv_Min iv)); [|lia]. rewrite wrap64_id by (unfold in_int64; lia). lia. }
    rewrite Hfirst. destruct (Z.eqb_spec (iv_Max iv) max_int64) as [Hmax|Hmax].
    + pose proof (union_nil x). split; [|lia]. intros [H1|H1]; [|done].
      split; [lia|]. intros [H2|H2]; [lia|]. apply Habove in H2. lia.
    + rewrite (wrap64_id (iv_Max iv + 1)) by (unfold in_int64; lia).
      destruct (Z.ltb_spec lo (iv_Max iv + 1)); [|lia]. rewrite IH; [|done|done| |lia|done].
      2: { rewrite Forall_forall in Hb, Hsep |- *. intros y Hy. specialize (Hb y Hy).
           specialize (Hsep y Hy). unfold separated in Hsep. lia. }
      split; [intros [H1|[H1 H2]]|intros [H1 H2]].
      * split; [lia|]. intros [H3|H3]; [lia|]. apply Habove in H3. lia.
      * split; [lia|]. intros [H3|H3]; [lia|done].
      * destruct (Z.lt_ge_cases x (iv_Min iv)); [left; lia|]. right. split; [|tauto].
        destruct (Z.le_gt_cases x (iv_Max iv)); [|lia]. destruct H2. left. lia.
Qed.

Lemma union_clip lo hi ivs x : union (clip lo hi ivs) x <-> lo <= x <= hi /\ union ivs x.
Proof.
  unfold clip. induction ivs as [|iv l IH]; simpl.
  - pose proof (union_nil x). tauto.
  - rewrite union_cons. destruct (Z.leb_spec (maxI64 (iv_Min iv) lo) (minI64 (iv_Max iv) hi)) as [Hle|Hgt].
    + rewrite union_cons, IH. unfold contains. simpl. unfold maxI64, minI64 in *. go_cases; go_bools; intuition lia.
    + rewrite IH. unfold contains. unfold maxI64, minI64 in *. go_cases; go_bools; intuition lia.
Qed.

Lemma clip_valid lo hi ivs :
  in_int64 lo -> in_int64 hi -> Forall valid ivs -> Forall valid (clip lo hi ivs).
Proof.
  intros Hlo Hhi Hv. unfold clip. rewrite Forall_forall in Hv |- *. intros iv.
  rewrite list_elem_of_In, filter_In, in_map_iff. intros [(y & <- & Hy) Hle]. simpl in Hle |- *.
  specialize (Hv y). rewrite list_elem_of_In in Hv. specialize (Hv Hy).
  unfold valid, in_int64, maxI64, minI64 in *. simpl. go_cases; go_bools; lia.
Qed.

Lemma foldl_min (l : list CoverageInterval) lo :
  let r := foldl (fun lo iv => if iv_Min iv <? lo then iv_Min iv else lo) lo l in
  r <= lo /\ Forall (fun iv => r <= iv_Min iv) l /\ (r = lo \/ Exists (fun iv => iv_Min iv = r) l).
Proof.
  revert lo. induction l as [|iv l IH]; intros lo; simpl; [repeat split; [lia|constructor|by left]|].
  destruct (IH (if iv_Min iv <? lo then iv_Min iv else lo)) as (Hle & Hall & Hex).
  destruct (Z.ltb_spec (iv_Min iv) lo); (split; [lia|split; [constructor; [lia|done]|]]).
  - right. destruct Hex as [->|Hex]; [by constructor|by apply Exists_cons_tl].
  - destruct Hex as [->|Hex]; [by left|right; by apply Exists_cons_tl].
Qed.

Lemma foldl_max (l : list CoverageInterval) hi :
  let r := foldl (fun hi iv => if hi <? iv_Max iv then iv_Max iv else hi) hi l in
  hi <= r /\ Forall (fun iv => iv_Max iv <= r) l /\ (r = hi \/ Exists (fun iv => iv_Max iv = r) l).
Proof.
  revert hi. induction l as [|iv l IH]; intros hi; simpl; [repeat split; [lia|constructor|by left]|].
  destruct (IH (if hi <? iv_Max iv then iv_Max iv else hi)) as (Hle & Hall & Hex).
  destruct (Z.ltb_spec hi (iv_Max iv)); (split; [lia|split; [constructor; [lia|done]|]]).
  - right. destruct Hex as [->|Hex]; [by constructor|by apply Exists_cons_tl].
  - destruct Hex as [->|Hex]; [by left|right; by apply Exists_cons_tl].
Qed.

(** The observed span is the hull of the clipped intervals. *)
Lemma observed_span_spec l x :
  Forall (fun iv => iv_Min iv <= iv_Max iv) l ->
  (observed_span l).1 <= x <= (observed_span l).2 <-> hull l x.
Proof.
  intros Hv. destruct l as [|iv l].
  { simpl. split; [lia|]. intros (a & b & H & _). by apply union_nil in H. }
  unfold observed_span.
  pose proof (foldl_min (iv :: l) (iv_Min iv)) as (_ & Hmin & Hmin').
  pose proof (foldl_max (iv :: l) (iv_Max iv)) as (_ & Hmax & Hmax').
  cbn [fst snd] in *. unfold hull. set (lo := foldl _ (iv_Min iv) _) in *. set (hi := foldl _ (iv_Max iv) _) in *.
  assert (Hlo : Exists (fun iv => iv_Min iv = lo) (iv :: l)).
  { destruct Hmin' as [E|E]; [by constructor|done]. }
  assert (Hhi : Exists (fun iv => iv_Max iv = hi) (iv :: l)).
  { destruct Hmax' as [E|E]; [by constructor|done]. }
  clearbody lo hi. clear Hmin' Hmax'. rewrite Forall_forall in Hv, Hmin, Hmax. unfold union.
  setoid_rewrite Exists_exists. rewrite Exists_exists in Hlo. rewrite Exists_exists in Hhi. split.
  - destruct Hlo as (i & Hi & Hilo), Hhi as (j & Hj & Hjhi). intros Hx. exists lo, hi. 
    pose proof (Hv i Hi). pose proof (Hv j Hj).
    split; [exists i|split; [exists j|done]]; (split; [done|unfold contains; lia]).
  - intros (a & b & (i & Hi & Ha) & (j & Hj & Hb) & Hx). unfold contains in *.
    specialize (Hmin i Hi). specialize (Hmax j Hj). simpl in *. lia.
Qed.

Lemma observed_span_valid l :
  Forall valid l -> min_int64 <= (observed_span l).1 /\ (observed_span l).2 <= max_int64.
Proof.
  intros Hv. destruct l as [|iv l]; [by vm_compute|]. unfold observed_span.
  pose proof (foldl_min (iv :: l) (iv_Min iv)) as (_ & _ & Hmin).
  pose proof (foldl_max (iv :: l) (iv_Max iv)) as (_ & _ & Hmax).
  cbn [fst snd] in *. rewrite Exists_exists in Hmin. rewrite Exists_exists in Hmax.
  rewrite Forall_forall in Hv. pose proof (Hv iv (list_elem_of_here _ _)) as Hi. unfold valid in *. split.
  - destruct Hmin as [->|(i & Hin & <-)]; [tauto|]. apply Hv in Hin. lia.
  - destruct Hmax as [->|(i & Hin & <-)]; [tauto|]. apply Hv in Hin. lia.
Qed.

Lemma union_out_of_scope winSince winUntil spanMin spanMax x :
  in_int64 spanMin -> in_int64 spanMax -> in_int64 winSince -> in_int64 winUntil -> spanMin <= spanMax ->
  union (out_of_scope winSince winUntil spanMin spanMax) x <->
    winSince <= x <= winUntil /\ ~ spanMin <= x <= spanMax.
Proof.
  unfold in_int64. intros H1 H2 H3 H4 H5. unfold out_of_scope. rewrite union_app, !union_one, !Z.ltb_lt. unfold contains. simpl.
  destruct (Z.lt_ge_cases winSince spanMin), (Z.lt_ge_cases spanMax winUntil);
    rewrite ?(wrap64_id (spanMin - 1)), ?(wrap64_id (spanMax + 1)) by (unfold in_int64; lia);
    unfold maxI64, minI64; go_cases; go_bools; lia.
Qed.

Lemma load_reasons g m reason :
  loadCoverageManifest g = (m, reason) ->
  reason = unusableUnparseable /\ m = None \/
  exists m', m = Some m' /\ g_decoded g = Ok m' /\
    (reason = unusableMissingRange \/ reason = unusableInvalidRange \/ reason = unusableEmptyRange \/
     reason = "" /\ m_MinSeq m' <= m_MaxSeq m').
Proof.
  unfold loadCoverageManifest. intros H. case_decide; [left; by simplify_eq|].
  destruct (parseSnapshotManifest (g_decoded g)) as [m'|] eqn:Ep; [|left; by simplify_eq].
  destruct (parse_decoded _ _ Ep) as [Hd _]. right. exists m'.
  go_cases; repeat split; try done; auto. go_bools. auto.
Qed.

Lemma usable_of_inv g iv :
  usable_of g = Some iv -> group_ok g -> valid iv.
Proof.
  unfold usable_of. destruct (loadCoverageManifest g) as [m reason] eqn:E. intros H Hok.
  destruct (load_reasons _ _ _ E) as [[-> ->]|(m' & -> & Hd & Hr)]; [done|].
  destruct (Hok _ Hd) as [H1 H2]. destruct Hr as [->|[->|[->|[-> Hle]]]]; simplify_eq/=.
  unfold valid, in_int64 in *. simpl. lia.
Qed.

(** What the first pass has collected after the groups [gs]. *)
Record pass_spec (gs : list snapshotGroup) (p : Pass) : Prop := {
  ps_usable : p_usable p = omap usable_of gs;
  ps_ids : p_ids p = omap publication_of gs;
  ps_bounds : Forall (fun iv => p_spanMin p <= iv_Min iv /\ iv_Max iv <= p_spanMax p) (p_usable p);
  ps_attained : have_usable p = true ->
    Exists (fun iv => iv_Min iv = p_spanMin p) (p_usable p) /\
    Exists (fun iv => iv_Max iv = p_spanMax p) (p_usable p);
  ps_uncertain : forall g, g ∈ gs -> forall m reason, loadCoverageManifest g = (m, reason) ->
    reason = "" \/ reason = unusableEmptyRange \/ MkCandidate m reason ∈ p_uncertains p;
  ps_truncated : p_truncated p = false ->
    forall g, g ∈ gs -> forall m, loadCoverageManifest g = (Some m, "") -> m_Truncated m = false }.

Lemma pass_spec_nil : pass_spec [] (MkPass [] [] [] [] false 0 0).
Proof. split; simpl; try done; intros; by set_solver. Qed.

Lemma pass_spec_usable gs p g m :
  pass_spec gs p -> loadCoverageManifest g = (Some m, "") -> pass_spec (gs ++ [g]) (classify p g).
Proof.
  intros [Hu Hi Hb Ha Hun Ht] E. unfold classify. rewrite E, bool_decide_true by done. cbn.
  split; cbn.
  - rewrite omap_app, Hu. cbn. unfold usable_of. by rewrite E.
  - rewrite omap_app, Hi. cbn. unfold publication_of. by rewrite E.
  - apply Forall_app. unfold have_usable. destruct (p_usable p) eqn:Eu; cbn.
    { split; [done|]. constructor; [cbn; lia|done]. }
    split; [|constructor; [|done]]; [|cbn; destruct (Z.ltb_spec (m_MinSeq m) (p_spanMin p)), (Z.ltb_spec (p_spanMax p) (m_MaxSeq m)); lia].
    eapply Forall_impl; [exact Hb|]. cbn. intros iv Hiv.
    destruct (Z.ltb_spec (m_MinSeq m) (p_spanMin p)), (Z.ltb_spec (p_spanMax p) (m_MaxSeq m)); lia.
  - intros _. rewrite !Exists_app, !Exists_cons. cbn.
    destruct (have_usable p) eqn:Eu; cbn; [|tauto]. destruct (Ha eq_refl) as [Ha1 Ha2].
    destruct (Z.ltb_spec (m_MinSeq m) (p_spanMin p)), (Z.ltb_spec (p_spanMax p) (m_MaxSeq m)); tauto.
  - intros g' [Hg| ->%list_elem_of_singleton]%elem_of_app m' reason E'; [by eapply Hun|]. left. congruence.
  - intros [H1 H2]%orb_false_iff g' [Hg| ->%list_elem_of_singleton]%elem_of_app m' E'; [by eapply Ht|]. congruence.
Qed.

Lemma pass_spec_unusable gs p g m reason :
  pass_spec gs p -> loadCoverageManifest g = (m, reason) -> reason <> "" -> pass_spec (gs ++ [g]) (classify p g).
Proof.
  intros [Hu Hi Hb Ha Hun Ht] E Hr. unfold classify. rewrite E, bool_decide_false by done. cbn.
  split; cbn; try done.
  - rewrite omap_app, Hu. cbn. unfold usable_of. rewrite E. destruct m; [|by rewrite app_nil_r].
    destruct reason; [done|]. by rewrite app_nil_r.
  - rewrite omap_app, Hi. cbn. unfold publication_of. rewrite E. by destruct m.
  - intros g' [Hg| ->%list_elem_of_singleton]%elem_of_app m' reason' E'.
    + destruct (Hun g' Hg _ _ E') as [H|[H|H]]; [by left|by right; left|]. right. right.
      case_bool_decide; [exact H|]. apply elem_of_app. by left.
    + rewrite E in E'. injection E' as <- <-. right.
      case_bool_decide as Hd; [by left|]. right. apply elem_of_app. right. by apply list_elem_of_singleton.
  - intros Hf g' [Hg| ->%list_elem_of_singleton]%elem_of_app m' E'; [by eapply Ht|]. congruence.
Qed.

Lemma first_pass_spec gs : pass_spec gs (first_pass gs).
Proof.
  induction gs as [|g gs IH] using rev_ind; [exact pass_spec_nil|].
  unfold first_pass. rewrite run_list_snoc. fold (first_pass gs).
  destruct (loadCoverageManifest g) as [m reason] eqn:E.
  destruct (decide (reason = "")) as [->|Hne]; [|by eapply pass_spec_unusable].
  destruct m as [m|]; [by eapply pass_spec_usable|].
  by destruct (load_reasons _ _ _ E) as [[? _]|(m' & ? & _)].
Qed.

Lemma uniq_positive_spec seen ids :
  NoDup (uniq_positive seen ids) /\
  forall y, y ∈ uniq_positive seen ids <-> y ∈ ids /\ 0 < y /\ y ∉ seen.
Proof.
  revert seen. induction ids as [|id ids IH]; intros seen; cbn [uniq_positive].
  { split; [constructor|]. intros y. by split; [intros ?%elem_of_nil|intros [?%elem_of_nil _]]. }
  destruct (Z.leb_spec id 0) as [Hle|Hgt]; cbn [orb].
  { destruct (IH seen) as [Hn Hy]. split; [done|]. intros y. rewrite Hy, elem_of_cons.
    split; [tauto|]. intros ([->|H] & H1 & H2); [lia|done]. }
  case_bool_decide as Hs.
  { destruct (IH seen) as [Hn Hy]. split; [done|]. intros y. rewrite Hy, elem_of_cons.
    split; [tauto|]. intros ([->|H] & H1 & H2); [done|done]. }
  destruct (IH (id :: seen)) as [Hn Hy]. split.
  - constructor; [|done]. rewrite Hy, elem_of_cons. tauto.
  - intros y. rewrite !elem_of_cons, Hy, not_elem_of_cons. split.
    + intros [->|H]; [tauto|tauto].
    + intros ([->|H] & H1 & H2); [by left|]. destruct (Z.eq_dec y id); [by left|right; tauto].
Qed.

Lemma holes_spec prev l x :
  Forall in_int64 (prev :: l) -> StronglySorted Z.lt (prev :: l) ->
  union (holes prev l) x <-> prev < x /\ (x ∉ l) /\ exists b, b ∈ l /\ x < b.
Proof.
  revert prev. induction l as [|y l IH]; intros prev Hi Hs; cbn [holes].
  { split; [by intros ?%union_nil|]. by intros (_ & _ & b & ?%elem_of_nil & _). }
  apply Forall_cons in Hi as [Hp Hi]. inversion Hs as [|? ? Hs' Hlt]; subst.
  apply Forall_cons in Hlt as [Hpy _]. rewrite union_app, union_one, IH, Z.leb_le by done.
  apply Forall_cons in Hi as [Hy _]. unfold in_int64 in *. unfold contains. simpl.
  rewrite !wrap64_id by (unfold in_int64; lia).
  inversion Hs' as [|? ? _ Hyl]; subst. rewrite Forall_forall in Hyl. setoid_rewrite elem_of_cons. split.
  - intros [[H1 H2]|(H1 & H2 & b & Hb & H3)].
    + split; [lia|]. split; [|exists y; split; [by left|lia]]. intros [->|Hx]; [lia|]. specialize (Hyl x Hx). lia.
    + split; [lia|]. split; [intros [->|Hx]; [lia|done]|]. exists b. split; [by right|done].
  - intros (H1 & H2 & b & Hb & H3). destruct (Z.lt_trichotomy x y) as [H|[->|H]]; [left; lia|tauto|].
    right. split; [done|]. split; [tauto|]. destruct Hb as [->|Hb]; [lia|]. by exists b.
Qed.

Lemma sorted_ids_strict l : NoDup l -> StronglySorted Z.lt (sort_slice Z.ltb l).
Proof.
  intros Hn. rewrite <- (sort_slice_perm Z.ltb) in Hn.
  assert (Hs : StronglySorted (sort_le Z.ltb) (sort_slice Z.ltb l)).
  { apply sort_slice_sorted; intros a b; [|intros c]; rewrite ?Z.ltb_lt, ?Z.ltb_ge; lia. }
  induction Hs as [|x k Hs IH Hx]; [constructor|]. apply NoDup_cons in Hn as [Hnx Hn].
  constructor; [by apply IH|]. rewrite Forall_forall in Hx |- *. intros y Hy. specialize (Hx y Hy).
  unfold sort_le in Hx. apply Z.ltb_ge in Hx. destruct (Z.eq_dec x y) as [->|]; [done|lia].
Qed.

(** The holes of the ids of the considered manifests are exactly what is
    missing between two of them. *)
Lemma publicationGaps_spec ids x :
  Forall in_int64 ids ->
  union (publicationGaps ids) x <-> (x ∉ ids) /\ exists a b, a ∈ ids /\ b ∈ ids /\ 0 < a /\ a < x < b.
Proof.
  intros Hi. destruct (uniq_positive_spec [] ids) as [Hn Hu].
  assert (Hmem : forall y, y ∈ uniq_positive [] ids <-> y ∈ ids /\ 0 < y) by (intros y; rewrite Hu; pose proof (not_elem_of_nil y); tauto).
  assert (Hshort : (length (uniq_positive [] ids) < 2)%nat -> forall a b, a ∈ ids -> b ∈ ids -> 0 < a -> a < b -> False).
  { intros Hlen a b Ha Hb H0 Hab. assert (H1 : a ∈ uniq_positive [] ids) by (by apply Hmem).
    assert (H2 : b ∈ uniq_positive [] ids) by (apply Hmem; split; [done|lia]).
    destruct (uniq_positive [] ids) as [|u [|v l]]; simpl in Hlen; [|apply list_elem_of_singleton in H1, H2|]; try lia.
    by apply elem_of_nil in H1. }
  unfold publicationGaps. destruct (Nat.ltb_spec (length ids) 2) as [Hl|Hl].
  { split; [by intros ?%union_nil|]. intros (_ & a & b & Ha & Hb & _ & Hab).
    destruct ids as [|u [|v l]]; simpl in Hl; [by apply elem_of_nil in Ha|apply list_elem_of_singleton in Ha, Hb; lia|lia]. }
  destruct (Nat.ltb_spec (length (uniq_positive [] ids)) 2) as [Hl2|Hl2].
  { split; [by intros ?%union_nil|]. intros (_ & a & b & Ha & Hb & H0 & Hab). exfalso. eapply (Hshort Hl2 a b); lia || done. }
  pose proof (sorted_ids_strict _ Hn) as Hs. pose proof (sort_slice_perm Z.ltb (uniq_positive [] ids)) as Hp.
  assert (Hsi : forall y, y ∈ sort_slice Z.ltb (uniq_positive [] ids) <-> y ∈ ids /\ 0 < y) by (intros y; by rewrite Hp).
  destruct (sort_slice Z.ltb (uniq_positive [] ids)) as [|p l] eqn:E.
  { apply Permutation_nil_l in Hp. rewrite <- Hp in Hl2. simpl in Hl2. lia. }
  rewrite holes_spec; [|apply Forall_forall; intros y [Hy _]%Hsi; by eapply Forall_forall in Hi|done].
  inversion Hs as [|? ? _ Hpl]; subst. rewrite Forall_forall in Hpl. setoid_rewrite elem_of_cons in Hsi. split.
  - intros (H1 & H2 & b & Hb & H3). destruct (proj1 (Hsi p) (or_introl eq_refl)) as [Hpi Hp0].
    split; [|exists p, b; repeat split; try done; apply Hsi; by right].
    intros Hx. destruct (proj2 (Hsi x)) as [->|Hx']; [split; [done|lia]|lia|done].
  - intros (H1 & a & b & Ha & Hb & H0 & Hab). destruct (proj2 (Hsi a) (conj Ha H0)) as [->|Ha'].
    + split; [lia|]. split; [intros Hx; apply H1; apply Hsi; by right|].
      destruct (proj2 (Hsi b)) as [->|Hb']; [split; [done|lia]|lia|]. exists b. split; [done|lia].
    + specialize (Hpl a Ha'). split; [lia|]. split; [intros Hx; apply H1; apply Hsi; by right|].
      destruct (proj2 (Hsi b)) as [->|Hb']; [split; [done|lia]|lia|]. exists b. split; [done|lia].
Qed.

Lemma considered_ok groups limit : Forall group_ok groups -> Forall group_ok (considered groups limit).
Proof. intros H. by apply Forall_take. Qed.

Lemma considered_eq groups limit :
  (if coverage_limit limit <? Z.of_nat (length groups)
   then take (Z.to_nat (coverage_limit limit)) groups else groups) = considered groups limit.
Proof.
  unfold considered. destruct (Z.ltb_spec (coverage_limit limit) (Z.of_nat (length groups))); [done|].
  symmetry. apply take_ge. lia.
Qed.

Lemma usables_valid gs : Forall group_ok gs -> Forall valid (omap usable_of gs).
Proof.
  rewrite !Forall_forall. intros Hok iv (g & Hg & Hiv)%list_elem_of_omap.
  eapply usable_of_inv; eauto.
Qed.

(** The observed extent of the first pass is the hull of what is usable. *)
Lemma pass_extent gs x :
  Forall group_ok gs -> omap usable_of gs <> [] ->
  let p := first_pass gs in
  have_usable p = true /\ (p_spanMin p <= x <= p_spanMax p <-> hull (omap usable_of gs) x) /\
  in_int64 (p_spanMin p) /\ in_int64 (p_spanMax p) /\ p_spanMin p <= p_spanMax p.
Proof.
  intros Hok Hne p. destruct (first_pass_spec gs) as [Hu _ Hb Ha _ _]. fold p in Hu, Hb, Ha.
  pose proof (usables_valid gs Hok) as Hv. rewrite Hu in *. assert (Hh : have_usable p = true).
  { unfold have_usable. rewrite Hu. by destruct (omap usable_of gs). }
  specialize (Ha Hh). rewrite !Exists_exists in Ha. destruct Ha as [(i & Hi & Ei) (j & Hj & Ej)].
  rewrite Forall_forall in Hv, Hb. pose proof (Hv i Hi) as Hvi. pose proof (Hv j Hj) as Hvj.
  pose proof (Hb i Hi) as Hbi. pose proof (Hb j Hj) as Hbj.
  unfold valid, in_int64 in *. split; [done|]. split; [|lia]. unfold hull, union. setoid_rewrite Exists_exists. split.
  - intros Hx. exists (p_spanMin p), (p_spanMax p).
    split; [exists i|split; [exists j|done]]; (split; [done|unfold contains; lia]).
  - intros (a & b & (k & Hk & Hka) & (n & Hn & Hnb) & Hx). unfold contains in *.
    pose proof (Hb k Hk). pose proof (Hb n Hn). simpl in *. lia.
Qed.

(** The gaps of intervals merged from clipped ones. *)
Lemma gaps_of_clip clipped covered x :
  Forall valid clipped ->
  (forall x, union covered x <-> union clipped x) -> StronglySorted separated covered -> Forall valid covered ->
  union (coverage_gaps (observed_span clipped).1 (observed_span clipped).2 covered) x <->
  hull covered x /\ ~ union covered x.
Proof.
  intros Hcv Hu Hs Hv.
  assert (Hspan : forall y, (observed_span clipped).1 <= y <= (observed_span clipped).2 <-> hull covered y).
  { intros y. rewrite observed_span_spec by (eapply Forall_impl; [exact Hcv|]; unfold valid; simpl; lia).
    unfold hull. by setoid_rewrite Hu. }
  assert (Hin : forall y, union covered y -> min_int64 <= y <= max_int64).
  { intros y Hy. unfold union in Hy. rewrite Exists_exists in Hy. destruct Hy as (i & Hi & Hy).
    rewrite Forall_forall in Hv. specialize (Hv i Hi). unfold valid, contains in *. lia. }
  destruct (observed_span_valid clipped Hcv) as [Hlo Hhi].
  rewrite coverage_gaps_spec; [by rewrite Hspan|done|done| |done|done].
  rewrite Forall_forall in Hv |- *. intros i Hi. specialize (Hv i Hi). unfold valid in Hv.
  assert (Hh : forall y, contains i y -> hull covered y).
  { intros y Hy. assert (union covered y) by (apply Exists_exists; eauto). exists y, y. auto with lia. }
  pose proof (proj2 (Hspan (iv_Min i))) as H1. pose proof (proj2 (Hspan (iv_Max i))) as H2.
  unfold contains in Hh. split; [apply H1|apply H2]; apply Hh; lia.
Qed.
(** A result with a window and evidence in it. *)
Lemma Coverage_window groups since until limit :
  Forall group_ok groups -> bound_ok since -> bound_ok until ->
  let r := Coverage groups since until limit in
  let p := first_pass (considered groups limit) in
  let lo := win_Since (cr_Window r) in
  let hi := win_Until (cr_Window r) in
  omap usable_of (considered groups limit) <> [] -> lo <= hi ->
  lo = default (p_spanMin p) since /\ hi = default (p_spanMax p) until /\ in_int64 lo /\ in_int64 hi /\
  cr_Covered r = mergeCoverageIntervals (clip lo hi (p_usable p)) /\
  cr_Gaps r = coverage_gaps (observed_span (clip lo hi (p_usable p))).1
                (observed_span (clip lo hi (p_usable p))).2 (cr_Covered r) /\
  cr_OutOfScope r = out_of_scope lo hi (p_spanMin p) (p_spanMax p) /\
  cr_Completeness r =
    if existsb (fun c => coverageUncertainRelevant (cand_manifest c) (cand_reason c) lo hi) (p_uncertains p)
    then completenessUnknown
    else if is_nonempty (cr_Gaps r) then completenessGapsPresent
    else if p_truncated p then completenessUnknown else completenessComplete.
Proof.
  intros Hok Hs Hunt r p lo hi Hne Hlh.
  destruct (pass_extent _ 0 (considered_ok _ limit Hok) Hne) as (Hh & _ & Hmin & Hmax & _). fold p in Hh, Hmin, Hmax.
  unfold lo, hi, r, Coverage in Hlh |- *. rewrite !considered_eq in Hlh |- *. fold p in Hlh |- *.
  rewrite !Hh in Hlh |- *. cbn [negb] in Hlh |- *. unfold bound_ok in *.
  set (ws := match since with Some _ => _ | None => _ end) in *.
  set (wu := match until with Some _ => _ | None => _ end) in *.
  destruct (Z.ltb_spec wu ws) as [Hlt|Hge]; [cbn in Hlh; lia|].
  destruct (observed_span (clip ws wu (p_usable p))) as [a b] eqn:E. cbn. rewrite E.
  split; [by destruct since|]. split; [by destruct until|].
  split; [unfold ws; destruct since; [by apply Hs|done]|].
  split; [unfold wu; destruct until; [by apply Hunt|done]|]. done.
Qed.

(** With evidence and a window, what [Coverage] reports is exact: covered
    is the declared sequence numbers of the window, as disjoint intervals with
    room between them; gaps is the rest of what lies between two covered
    numbers; out of scope is the window outside the observed extent. *)
Theorem coverage_exact groups since until limit :
  Forall group_ok groups -> bound_ok since -> bound_ok until ->
  let r := Coverage groups since until limit in
  let ivs := omap usable_of (considered groups limit) in
  let inside x := win_Since (cr_Window r) <= x <= win_Until (cr_Window r) in
  ivs <> [] -> win_Since (cr_Window r) <= win_Until (cr_Window r) ->
  (forall x, union (cr_Covered r) x <-> inside x /\ union ivs x) /\
  StronglySorted separated (cr_Covered r) /\ Forall valid (cr_Covered r) /\
  (forall x, union (cr_Gaps r) x <-> hull (cr_Covered r) x /\ ~ union (cr_Covered r) x) /\
  (forall x, union (cr_OutOfScope r) x <-> inside x /\ ~ hull ivs x).
Proof.
  intros Hok Hs Hu r ivs inside Hne Hlh.
  destruct (Coverage_window groups since until limit Hok Hs Hu Hne Hlh) as (_ & _ & Hlo & Hhi & Hcov & Hgaps & Hoos & _).
  fold r in Hlo, Hhi, Hcov, Hgaps, Hoos. subst inside.
  set (lo := win_Since _) in *. set (hi := win_Until _) in *. set (p := first_pass _) in *.
  destruct (first_pass_spec (considered groups limit)) as [Hus _ _ _ _ _]. fold p ivs in Hus. rewrite Hus in *.
  pose proof (considered_ok _ limit Hok) as Hok'. pose proof (usables_valid _ Hok') as Hv. fold ivs in Hv.
  pose proof (clip_valid lo hi ivs Hlo Hhi Hv) as Hcv.
  destruct (merge_spec _ Hcv) as (Hmu & Hms & Hmv). rewrite <- Hcov in Hmu, Hms, Hmv.
  split; [intros x; by rewrite Hmu, union_clip|]. split; [done|]. split; [done|]. split.
  - intros x. rewrite Hgaps. by apply gaps_of_clip.
  - intros x. destruct (pass_extent _ x Hok' Hne) as (_ & Hx & Hmin & Hmax & Hle). fold p ivs in Hx, Hmin, Hmax, Hle.
    by rewrite Hoos, union_out_of_scope, Hx.
Qed.

(** No gap reported over the whole extent leaves nothing uncovered in it. *)
Lemma complete_no_gap ivs lo hi covered gaps x :
  Forall valid ivs -> in_int64 lo -> in_int64 hi -> (forall x, lo <= x <= hi <-> hull ivs x) ->
  covered = mergeCoverageIntervals (clip lo hi ivs) ->
  gaps = coverage_gaps (observed_span (clip lo hi ivs)).1 (observed_span (clip lo hi ivs)).2 covered ->
  is_nonempty gaps = false -> hull ivs x -> union ivs x.
Proof.
  intros Hv Hlo Hhi Hext -> Hg Hne Hx. pose proof (clip_valid lo hi ivs Hlo Hhi Hv) as Hcv.
  destruct (merge_spec _ Hcv) as (Hmu & Hms & Hmv).
  destruct gaps; [|done]. pose proof (gaps_of_clip _ _ x Hcv Hmu Hms Hmv) as Hgap. rewrite <- Hg in Hgap.
  assert (Hall : forall y, union ivs y <-> union (clip lo hi ivs) y).
  { intros y. rewrite union_clip, Hext. split; [|tauto]. intros Hy. split; [|done]. exists y, y. auto with lia. }
  set (cov := mergeCoverageIntervals _) in *. destruct (union_dec cov x) as [H|H].
  - by apply Hall, Hmu.
  - destruct (union_nil x). apply Hgap. split; [|done]. destruct Hx as (a & b & Ha & Hb & Hab).
    exists a, b. by rewrite !Hmu, <- !Hall.
Qed.

(** A group whose manifest does not make the verdict unknown. *)
Lemma irrelevant_group gs g lo hi m reason :
  existsb (fun c => coverageUncertainRelevant (cand_manifest c) (cand_reason c) lo hi)
    (p_uncertains (first_pass gs)) = false ->
  g ∈ gs -> loadCoverageManifest g = (m, reason) ->
  exists m', m = Some m' /\ reason <> unusableMissingRange /\
    (reason = unusableInvalidRange -> m_MaxSeq m' < lo /\ m_MinSeq m' < lo \/ hi < m_MaxSeq m' /\ hi < m_MinSeq m').
Proof.
  intros He Hg E. destruct (first_pass_spec gs) as [_ _ _ _ Hun _].
  assert (Hc : MkCandidate m reason ∈ p_uncertains (first_pass gs) -> coverageUncertainRelevant m reason lo hi = false).
  { intros Hin. destruct (coverageUncertainRelevant m reason lo hi) eqn:R; [|done].
    rewrite <- He. symmetry. apply existsb_exists. eexists. rewrite <- list_elem_of_In. eauto. }
  destruct (load_reasons _ _ _ E) as [[-> ->]|(m' & -> & Hd & Hr)].
  { destruct (Hun g Hg _ _ E) as [H|[H|Hin]]; [done|done|by specialize (Hc Hin)]. }
  exists m'. split; [done|]. destruct (Hun g Hg _ _ E) as [->|[->|Hin]]; [by split|by split|].
  specialize (Hc Hin). unfold coverageUncertainRelevant in Hc. destruct (decide _) as [|Hn]; [done|].
  split; [intros ->; tauto|]. intros _. apply negb_false_iff, orb_true_iff in Hc. rewrite !Z.ltb_lt in Hc.
  destruct (Z.ltb_spec (m_MaxSeq m') (m_MinSeq m')); lia.
Qed.

(** Asked without bounds, "complete" is a proof: every sequence number
    between the smallest and the largest one declared is declared by some
    usable manifest, no usable manifest says its source was truncated, and
    every manifest that could not be used is readable and has a range that is
    empty or outside the observed extent. *)
Theorem coverage_complete_sound groups limit :
  Forall group_ok groups ->
  let r := Coverage groups None None limit in
  let gs := considered groups limit in
  let ivs := omap usable_of gs in
  cr_Completeness r = completenessComplete ->
  (exists x, union ivs x) /\ (forall x, hull ivs x -> union ivs x) /\
  forall g, g ∈ gs -> exists m reason, loadCoverageManifest g = (Some m, reason) /\
    (reason = "" -> m_Truncated m = false) /\ reason <> unusableMissingRange /\
    (reason = unusableInvalidRange -> forall x, m_MaxSeq m <= x <= m_MinSeq m -> ~ hull ivs x).
Proof.
  intros Hok r gs ivs Hc. pose proof (considered_ok _ limit Hok) as Hok'. fold gs in Hok'.
  assert (Hne : ivs <> []).
  { intros E. destruct (first_pass_spec gs) as [Hus _ _ _ _ _]. fold ivs in Hus. rewrite E in Hus.
    subst r. unfold Coverage in Hc. rewrite considered_eq in Hc. fold gs in Hc.
    unfold have_usable in Hc. rewrite Hus in Hc. done. }
  destruct (pass_extent gs 0 Hok' Hne) as (Hh & _ & _ & _ & Hle).
  assert (Hlh : win_Since (cr_Window r) <= win_Until (cr_Window r)).
  { subst r. unfold Coverage. rewrite considered_eq. fold gs. rewrite !Hh.
    destruct (Z.ltb_spec (p_spanMax (first_pass gs)) (p_spanMin (first_pass gs))); [lia|]. cbn [negb].
    by destruct (observed_span _). }
  destruct (Coverage_window groups None None limit Hok ltac:(done) ltac:(done) Hne Hlh)
    as (Elo & Ehi & Hlo & Hhi & Hcov & Hgaps & _ & Hcomp).
  fold r gs in Elo, Ehi, Hlo, Hhi, Hcov, Hgaps, Hcomp. cbn in Elo, Ehi.
  set (lo := win_Since _) in *. set (hi := win_Until _) in *. rewrite Hcomp in Hc.
  destruct (first_pass_spec gs) as [Hus _ _ _ Hun Htr]. set (p := first_pass gs) in *. rewrite Hus in *. fold ivs in Hcov, Hgaps, Hus.
  destruct (existsb _ _) eqn:Eunc; [done|]. destruct (is_nonempty (cr_Gaps r)) eqn:Eg; [done|].
  destruct (p_truncated p) eqn:Et; [done|]. clear Hc.
  assert (Hext : forall x, lo <= x <= hi <-> hull ivs x).
  { intros x. rewrite Elo, Ehi. by apply (pass_extent gs x Hok' Hne). }
  split; [|split].
  - destruct (proj1 (Hext lo)) as (a & _ & Ha & _); [lia|]. by exists a.
  - intros x. by apply (complete_no_gap ivs lo hi (cr_Covered r) (cr_Gaps r) x (usables_valid gs Hok')).
  - intros g Hg. destruct (loadCoverageManifest g) as [m reason] eqn:E.
    destruct (irrelevant_group gs g lo hi m reason Eunc Hg E) as (m' & -> & Hr & Hinv).
    exists m', reason. split; [done|]. split; [intros ->; by eapply Htr|]. split; [done|].
    intros Hi x Hx. rewrite <- Hext. specialize (Hinv Hi). lia.
Qed.

(** The publication holes are exactly the ids missing between two of the
    manifests looked at, whether usable or not. *)
Theorem coverage_publication_holes groups since until limit x :
  Forall (fun g => forall m, g_decoded g = Ok m -> in_int64 (m_PublicationID m)) groups ->
  let ids := omap publication_of (considered groups limit) in
  union (cr_PublicationGaps (Coverage groups since until limit)) x <->
    (x ∉ ids) /\ exists a b, a ∈ ids /\ b ∈ ids /\ 0 < a /\ a < x < b.
Proof.
  intros Hok ids. assert (Hi : Forall in_int64 ids).
  { apply Forall_forall. intros id (g & Hg & Hid)%list_elem_of_omap.
    assert (Hg' : g ∈ groups) by (by eapply elem_of_take in Hg as [? [?%list_elem_of_lookup_2 ?]]).
    unfold publication_of in Hid. destruct (loadCoverageManifest g) as [m reason] eqn:E.
    destruct (load_reasons _ _ _ E) as [[-> ->]|(m' & -> & Hd & _)]; simplify_eq/=.
    by apply (proj1 (Forall_forall _ _) Hok g Hg'). }
  rewrite <- (publicationGaps_spec ids x Hi). unfold ids. rewrite <- (ps_ids _ _ (first_pass_spec _)).
  unfold Coverage. rewrite considered_eq. destruct (negb _); [done|]. destruct (_ <? _); [done|].
  by destruct (observed_span _).
Qed.

Definition declared (id lo hi records : Z) (truncated : bool) : snapshotManifest :=
  MkManifest 3 id "" "" "" "durable" truncated seqContinuityValue lo hi records [] None None.

(** A window inside the observed extent that no manifest touches, or that
    one ends in, is reported as complete with no gap at all: the gaps are
    sought between the bounds of the clipped intervals, not over the observed
    extent in the window. *)
Theorem coverage_false_complete :
  let snapshot n id lo hi := discovered n (n +:+ ".manifest") (Ok (declared id lo hi 10 false)) in
  let groups := [snapshot "b" 2 100 110; snapshot "a" 1 1 10] in
  let inside := Coverage groups (Some 50) (Some 60) 10 in
  let edge := Coverage groups (Some 5) (Some 60) 10 in
  Forall (fun x => hull (omap usable_of groups) x /\ ~ union (omap usable_of groups) x) (seqZ 50 11) /\
  cr_Covered inside = [] /\ cr_Gaps inside = [] /\ cr_OutOfScope inside = [] /\
  cr_Bounded inside = false /\ cr_Completeness inside = completenessComplete /\
  cr_Covered edge = [MkInterval 5 10] /\ cr_Gaps edge = [] /\ cr_OutOfScope edge = [] /\
  cr_Completeness edge = completenessComplete.
Proof.
  intros snapshot groups inside edge. split; [|by vm_compute].
  assert (E : omap usable_of groups = [MkInterval 100 110; MkInterval 1 10]) by (by vm_compute).
  apply Forall_forall. intros x Hx%elem_of_seqZ. rewrite E. split.
  - exists 10, 100. unfold union. rewrite !Exists_cons. unfold contains. simpl. lia.
  - unfold union. rewrite !Exists_cons, Exists_nil. unfold contains. simpl. lia.
Qed.

(** ** Witnesses *)

Definition sample_group (name : string) (id lo hi records : Z) (truncated : bool) : snapshotGroup :=
  discovered name (name +:+ ".manifest") (Ok (declared id lo hi records truncated)).

Definition sample_groups : list snapshotGroup :=
  [sample_group "e" 9 31 40 10 false; sample_group "d" 7 15 30 16 false;
   sample_group "c" 6 0 0 0 false; sample_group "b" 4 8 8 0 false; sample_group "a" 3 1 10 10 true].

Definition complete_groups : list snapshotGroup :=
  [sample_group "c" 3 16 40 25 false; sample_group "b" 2 90 50 3 false; sample_group "a" 1 1 15 15 false].

Lemma sample_group_ok name id lo hi records truncated :
  in_int64 lo -> in_int64 hi -> group_ok (sample_group name id lo hi records truncated).
Proof. intros Hlo Hhi m Hm. by simplify_eq/=. Qed.

Lemma sample_groups_ok : Forall group_ok sample_groups.
Proof. repeat first [apply Forall_nil; done | apply Forall_cons; split]; apply sample_group_ok; vm_compute; by split. Qed.

Lemma complete_groups_ok : Forall group_ok complete_groups.
Proof. repeat first [apply Forall_nil; done | apply Forall_cons; split]; apply sample_group_ok; vm_compute; by split. Qed.

Lemma coverage_exact_witness :
  let r := Coverage sample_groups (Some 5) (Some 60) 0 in
  cr_Covered r = [MkInterval 5 10; MkInterval 15 40] /\ cr_Gaps r = [MkInterval 11 14] /\
  cr_OutOfScope r = [MkInterval 41 60] /\
  (forall x, union (cr_Gaps r) x <-> hull (cr_Covered r) x /\ ~ union (cr_Covered r) x).
Proof.
  intros r. split; [by vm_compute|]. split; [by vm_compute|]. split; [by vm_compute|].
  assert (Hs : bound_ok (Some 5)) by (intros x [= <-]; vm_compute; by split).
  assert (Hu : bound_ok (Some 60)) by (intros x [= <-]; vm_compute; by split).
  assert (Hne : omap usable_of (considered sample_groups 0) <> []) by (vm_compute; done).
  assert (Hw : win_Since (cr_Window r) <= win_Until (cr_Window r)) by (vm_compute; done).
  destruct (coverage_exact sample_groups (Some 5) (Some 60) 0 sample_groups_ok Hs Hu Hne Hw)
    as (_ & _ & _ & Hg & _).
  exact Hg.
Defined.

Lemma coverage_complete_sound_witness :
  let r := Coverage complete_groups None None 10 in
  cr_Completeness r = completenessComplete /\ (exists g, g ∈ complete_groups /\ usable_of g = None) /\
  forall x, hull (omap usable_of (considered complete_groups 10)) x ->
    union (omap usable_of (considered complete_groups 10)) x.
Proof.
  intros r. assert (Hc : cr_Completeness r = completenessComplete) by (by vm_compute).
  split; [done|]. split.
  - exists (sample_group "b" 2 90 50 3 false). split; [right; left|by vm_compute].
  - exact (proj1 (proj2 (coverage_complete_sound complete_groups 10 complete_groups_ok Hc))).
Defined.

Lemma coverage_publication_holes_witness :
  cr_PublicationGaps (Coverage sample_groups None None 4) = [MkInterval 5 5; MkInterval 8 8] /\
  (union [MkInterval 5 5; MkInterval 8 8] 8 <->
   (8 ∉ [9; 7; 6; 4]) /\ exists a b, a ∈ [9; 7; 6; 4] /\ b ∈ [9; 7; 6; 4] /\ 0 < a /\ a < 8 < b).
Proof.
  split; [by vm_compute|].
  assert (Hok : Forall (fun g => forall m, g_decoded g = Ok m -> in_int64 (m_PublicationID m)) sample_groups).
  { repeat first [apply Forall_nil; done | apply Forall_cons; split]; intros m Hm; simplify_eq/=; vm_compute; by split. }
  exact (coverage_publication_holes sample_groups None None 4 8 Hok).
Defined.
