(* ===== verification/AppendLog.v ===== *)
(** * The append-only log file (internal/controlplane/server/appendonly_log.go)

    Lines of bytes in one file: a true append, and the compaction that drops the
    oldest whole groups. Each system call's outcome is an input ([LogIO]); the
    states the directory goes through are listed, so that a crash can fall
    between any two calls. *)

From Stdlib Require Import Ascii.
From S2P Require Import Prelude GoStrings.

(** ** Data *)

(** The caller's classifier: the group of a line, or that it cannot be read. *)
Abbreviation groupClassifier := (string -> Z * bool).

Record logLine : Type := MkLogLine {
  ll_raw : string;
  ll_group : Z;
  ll_classified : bool }.

(** A file: its bytes, and how many of them have reached the disk. *)
Record LogFile : Type := MkLogFile { lf_data : string; lf_durable : nat }.

Definition synced (s : string) : LogFile := MkLogFile s (String.length s).

(** The log and the temporary file of a compaction. *)
Record LogDisk : Type := MkLogDisk { ld_log : option LogFile; ld_tmp : option LogFile }.

(** A crash keeps the directory entries, and of each file at least what has
    reached the disk. *)
Definition file_crash (f f' : LogFile) : Prop :=
  exists cut, lf_data f = lf_data f' +:+ cut /\ (lf_durable f <= String.length (lf_data f'))%nat.

Definition log_crash (d d' : LogDisk) : Prop :=
  match ld_log d, ld_log d' with
  | Some f, Some f' => file_crash f f'
  | None, None => True
  | _, _ => False
  end.

(** The outcome of each system call: a failed write of the log has put some
    bytes there; a failed write of the temporary file is that of one line. *)
Record LogIO : Type := MkLogIO {
  io_read : option error;
  io_open : option error;
  io_write : option (nat * error);
  io_sync : option error;
  io_close : option error;
  io_tmp_open : option error;
  io_tmp_write : option (nat * nat * error);
  io_tmp_sync : option error;
  io_tmp_close : option error;
  io_rename : option error;
  io_remove : option error }.

(** ** Reading *)

Definition ErrTooLong : error := "bufio.Scanner: token too long".

Definition scan_lines (s : string) : result error (list string) :=
  let pieces := split_lines "" s in
  if existsb (fun p => max_token <=? Z.of_nat (String.length p)) pieces then Err ErrTooLong else Ok pieces.

Definition classify_line (classify : groupClassifier) (raw : string) : logLine :=
  MkLogLine raw (fst (classify raw)) (snd (classify raw)).

Definition readLogLines (io : LogIO) (classify : groupClassifier) (d : LogDisk)
  : result error (list logLine * bool) :=
  match ld_log d with
  | None => Ok ([], true)
  | Some f =>
      match io_read io with
      | Some e => Err e
      | None =>
          match scan_lines (lf_data f) with
          | Err e => Err e
          | Ok pieces =>
              let raws := List.filter (fun t => negb (String.eqb t "")) (map TrimSpace pieces) in
              let lines := map (classify_line classify) raws in
              Ok (lines, forallb ll_classified lines)
          end
      end
  end.

(** ** Appending *)

Definition take_bytes (n : nat) (s : string) : string := String.substring 0 n s.

(** The states of the directory, and the error. *)
Definition appendLogLine (io : LogIO) (d : LogDisk) (line : string) : list LogDisk * option error :=
  let trimmed := TrimSpace line in
  if String.eqb trimmed "" then ([], Some "append: refusing to write a blank line")
  else
    let out := trimmed +:+ String newline "" in
    match io_open io with
    | Some e => ([], Some e)
    | None =>
        let f := default (MkLogFile "" 0) (ld_log d) in
        let log f := MkLogDisk (Some f) (ld_tmp d) in
        match io_write io with
        | Some (n, e) => ([log f; log (MkLogFile (lf_data f +:+ take_bytes n out) (lf_durable f))], Some e)
        | None =>
            let written := MkLogFile (lf_data f +:+ out) (lf_durable f) in
            match io_sync io with
            | Some e => ([log f; log written], Some e)
            | None => ([log f; log written; log (synced (lf_data written))], io_close io)
            end
        end
    end.

(** ** Compaction *)

Fixpoint group_order (seen : gset Z) (lines : list logLine) : list Z :=
  match lines with
  | [] => []
  | l :: lines' =>
      if decide (ll_group l ∈ seen) then group_order seen lines'
      else ll_group l :: group_order ({[ ll_group l ]} ∪ seen) lines'
  end.

Definition planLogPrefixDrop (lines : list logLine) (keepGroups : Z) : gset Z * list logLine :=
  if keepGroups <=? 0 then (∅, lines)
  else
    let order := group_order ∅ lines in
    let drop := if keepGroups <? Z.of_nat (length order)
                then list_to_set (take (Z.to_nat (Z.of_nat (length order) - keepGroups)) order) else ∅ in
    (drop, base.filter (fun l => ll_group l ∉ drop) lines).

Definition line_bytes (l : logLine) : string := ll_raw l +:+ String newline "".
Definition lines_bytes (ls : list logLine) : string := foldr (fun l s => line_bytes l +:+ s) "" ls.

Definition remove_tmp (io : LogIO) (d : LogDisk) : LogDisk :=
  match io_remove io with None => MkLogDisk (ld_log d) None | Some _ => d end.

(** The write that fails, when it is one of the writes there are. *)
Definition tmp_write_error (io : LogIO) (lines : list logLine) : option (nat * nat * error) :=
  match io_tmp_write io with
  | Some (k, n, e) => if (k <? length lines)%nat then Some (k, n, e) else None
  | None => None
  end.

Definition rewriteLogLines (io : LogIO) (d : LogDisk) (lines : list logLine) : list LogDisk * option error :=
  match io_tmp_open io with
  | Some e => ([], Some e)
  | None =>
      let tmp f := MkLogDisk (ld_log d) (Some f) in
      let written n := tmp (MkLogFile (lines_bytes (take n lines)) 0) in
      let all := map written (seq 0 (S (length lines))) in
      let whole := tmp (synced (lines_bytes lines)) in
      match tmp_write_error io lines with
      | Some (k, n, e) =>
          let torn := tmp (MkLogFile (lines_bytes (take k lines) +:+
                             take_bytes n (from_option line_bytes "" (lines !! k))) 0) in
          (map written (seq 0 (S k)) ++ [torn; remove_tmp io torn], Some e)
      | None =>
          match io_tmp_sync io with
          | Some e => (all ++ [remove_tmp io (written (length lines))], Some e)
          | None =>
              match io_tmp_close io with
              | Some e => (all ++ [whole; remove_tmp io whole], Some e)
              | None =>
                  match io_rename io with
                  | Some e => (all ++ [whole; remove_tmp io whole], Some e)
                  | None => (all ++ [whole; MkLogDisk (ld_tmp whole) None], None)
                  end
              end
          end
      end
  end.

Definition countUnclassified (lines : list logLine) : nat :=
  length (base.filter (fun l => ll_classified l = false) lines).

(** The observer of a compaction: told what will be dropped, it refuses or gives
    what to do when the rewrite is done. [W] is its own state. *)
Definition compactionObserver (W : Type) : Type :=
  W -> list Z -> list logLine -> W * result error (option (W -> W * option error)).

Definition dropped_lines (drop : gset Z) (lines : list logLine) : list logLine :=
  base.filter (fun l => ll_group l ∈ drop) lines.

Definition compactLogPrefixGroupsObserved {W} (io : LogIO) (d : LogDisk) (w : W) (keepGroups : Z)
    (classify : groupClassifier) (observe : option (compactionObserver W))
  : list LogDisk * W * option error :=
  if keepGroups <=? 0 then ([], w, None)
  else
    match readLogLines io classify d with
    | Err e => ([], w, Some e)
    | Ok (lines, ok) =>
        if negb ok then ([], w, Some ("compaction refused: " +:+ pretty (countUnclassified lines) +:+
          " unclassifiable line(s) present; rewriting the file would silently discard that evidence"))
        else
          let '(drop, kept) := planLogPrefixDrop lines keepGroups in
          if (length kept =? length lines)%nat then ([], w, None)
          else
            let told := match observe with
              | None => (w, Ok None)
              | Some observe =>
                  let dropped := dropped_lines drop lines in observe w (group_order ∅ dropped) dropped
              end in
            match told with
            | (w, Err e) => ([], w, Some e)
            | (w, Ok complete) =>
                match rewriteLogLines io d kept with
                | (states, Some e) => (states, w, Some e)
                | (states, None) =>
                    match complete with
                    | None => (states, w, None)
                    | Some complete => let '(w, e) := complete w in (states, w, e)
                    end
                end
            end
    end.

Definition compactLogPrefixGroups (io : LogIO) (d : LogDisk) (keepGroups : Z) (classify : groupClassifier)
  : list LogDisk * option error :=
  let '(states, _, e) := compactLogPrefixGroupsObserved io d tt keepGroups classify None in (states, e).

(** The directory after the calls of an operation. *)
Definition final (d : LogDisk) (states : list LogDisk) : LogDisk := List.last states d.

Lemma last_app (d : LogDisk) (a b : list LogDisk) : List.last (a ++ b) d = List.last b (List.last a d).
Proof.
  destruct b as [|x b] using rev_ind; [by rewrite app_nil_r|]. by rewrite app_assoc, !last_last.
Qed.

(** ** Lines as they are read *)

Record line_ok (classify : groupClassifier) (l : logLine) : Prop := {
  lo_trimmed : TrimSpace (ll_raw l) = ll_raw l;
  lo_nonblank : ll_raw l <> "";
  lo_single : has_newline (ll_raw l) = false;
  lo_short : Z.of_nat (String.length (ll_raw l)) < max_token;
  lo_class : l = classify_line classify (ll_raw l) }.

Lemma split_lines_single cur s : has_newline cur = false -> Forall (fun p => has_newline p = false) (split_lines cur s).
Proof.
  assert (Hrev : forall t, has_newline (string_rev t) = has_newline t).
  { intros t. unfold string_rev. enough (H : forall u, has_newline (string_rev_app t u) = has_newline t || has_newline u)
      by (rewrite H; apply orb_false_r).
    induction t as [|x t IH]; intros u; [done|]. cbn. rewrite IH. cbn. by destruct (Ascii.eqb x newline), (has_newline t). }
  revert cur. induction s as [|a s IH]; intros cur Hc; cbn [split_lines].
  - destruct cur; [done|]. constructor; [by rewrite Hrev|done].
  - destruct (Ascii.eqb a newline) eqn:E; [constructor; [by rewrite Hrev|by apply IH]|].
    apply IH. cbn. by rewrite E.
Qed.

Lemma TrimSpace_length s : (String.length (TrimSpace s) <= String.length s)%nat.
Proof.
  destruct (TrimSpace_split s) as (p & q & Hs & _). rewrite Hs at 2. rewrite !string_length_app. lia.
Qed.

Lemma readLogLines_ok io classify d lines ok :
  readLogLines io classify d = Ok (lines, ok) -> Forall (line_ok classify) lines /\ ok = forallb ll_classified lines.
Proof.
  unfold readLogLines, scan_lines. destruct (ld_log d) as [f|]; [|by intros [= <- <-]].
  destruct (io_read io); [done|]. destruct (existsb _ _) eqn:Elong; [done|]. intros [= <- <-]. split; [|done].
  pose proof (split_lines_single "" (lf_data f) eq_refl) as Hs. rewrite Forall_forall in Hs.
  apply Forall_forall. intros l Hl. apply list_elem_of_In, in_map_iff in Hl as (raw & <- & Hraw).
  apply filter_In in Hraw as [Hraw Hne]. apply in_map_iff in Hraw as (piece & <- & Hp).
  assert (Hshort : Z.of_nat (String.length piece) < max_token).
  { destruct (Z.leb_spec max_token (Z.of_nat (String.length piece))) as [H|]; [|done].
    rewrite <- not_true_iff_false in Elong. destruct Elong. apply existsb_exists. exists piece. by rewrite Z.leb_le. }
  pose proof (TrimSpace_length piece). split; cbn; try done.
  - apply TrimSpace_idem.
  - intros E. by rewrite E in Hne.
  - apply TrimSpace_newline, Hs. by apply list_elem_of_In.
  - lia.
Qed.

(** Whole lines that were read are read again after the file is written. *)
Lemma scan_append s t :
  whole_lines s -> scan_lines (s +:+ t) =
    match scan_lines s, scan_lines t with Ok a, Ok b => Ok (a ++ b) | Err e, _ => Err e | _, Err e => Err e end.
Proof.
  intros Hs. unfold scan_lines. rewrite split_lines_whole by done. rewrite existsb_app.
  by destruct (existsb _ (split_lines "" s)), (existsb _ (split_lines "" t)).
Qed.

Lemma scan_line classify l : line_ok classify l -> scan_lines (line_bytes l) = Ok [ll_raw l].
Proof.
  intros [_ _ Hs Hl _]. unfold scan_lines, line_bytes. rewrite split_lines_line by done.
  change (string_rev "" +:+ ll_raw l) with (ll_raw l). cbn [existsb].
  by rewrite (proj2 (Z.leb_gt _ _) Hl).
Qed.

Lemma whole_line l : whole_lines (line_bytes l).
Proof. right. by exists (ll_raw l). Qed.

Lemma whole_lines_bytes ls : whole_lines (lines_bytes ls).
Proof. induction ls as [|l ls IH]; [by left|]. apply whole_lines_append; [done|apply whole_line]. Qed.

Lemma scan_lines_bytes classify ls : Forall (line_ok classify) ls -> scan_lines (lines_bytes ls) = Ok (map ll_raw ls).
Proof.
  induction 1 as [|l ls Hl _ IH]; [done|]. cbn [lines_bytes foldr]. rewrite scan_append by apply whole_line.
  fold (lines_bytes ls). by rewrite (scan_line _ _ Hl), IH.
Qed.

Lemma trimmed_lines classify ls :
  Forall (line_ok classify) ls ->
  map (classify_line classify) (List.filter (fun t => negb (String.eqb t "")) (map TrimSpace (map ll_raw ls))) = ls.
Proof.
  induction 1 as [|l ls [Ht Hn _ _ Hc] _ IH]; [done|]. cbn. rewrite Ht.
  destruct (String.eqb_spec (ll_raw l) ""); [done|]. cbn. by rewrite IH, <- Hc.
Qed.

Lemma read_written io classify f tmp ls :
  io_read io = None -> lf_data f = lines_bytes ls -> Forall (line_ok classify) ls ->
  readLogLines io classify (MkLogDisk (Some f) tmp) = Ok (ls, forallb ll_classified ls).
Proof.
  intros Hio Hd Hls. unfold readLogLines. cbn. rewrite Hio, Hd, (scan_lines_bytes _ _ Hls).
  by rewrite (trimmed_lines _ _ Hls).
Qed.

(** ** Groups *)

Lemma group_order_spec seen lines :
  NoDup (group_order seen lines) /\
  forall g, g ∈ group_order seen lines <-> (g ∉ seen) /\ g ∈ map ll_group lines.
Proof.
  revert seen. induction lines as [|l lines IH]; intros seen; cbn [group_order map].
  { split; [constructor|]. intros g. pose proof (not_elem_of_nil g). tauto. }
  case_decide as Hs.
  - destruct (IH seen) as [Hn Hg]. split; [done|]. intros g. rewrite Hg, elem_of_cons.
    split; [tauto|]. intros [H1 [->|H2]]; done.
  - destruct (IH ({[ll_group l]} ∪ seen)) as [Hn Hg]. split.
    + constructor; [|done]. rewrite Hg. rewrite elem_of_union, elem_of_singleton. tauto.
    + intros g. rewrite !elem_of_cons, Hg, elem_of_union, elem_of_singleton.
      destruct (decide (g = ll_group l)) as [->|]; tauto.
Qed.

(** Dropping the lines of some groups drops those groups of the order. *)
Lemma group_order_filter (drop : gset Z) seen seen' lines :
  (forall g, g ∉ drop -> g ∈ seen <-> g ∈ seen') ->
  group_order seen' (base.filter (fun l => ll_group l ∉ drop) lines) =
  base.filter (fun g => g ∉ drop) (group_order seen lines).
Proof.
  revert seen seen'. induction lines as [|l lines IH]; intros seen seen' Hs; [done|].
  rewrite filter_cons. cbn [group_order]. destruct (decide (ll_group l ∉ drop)) as [Hd|Hd].
  - cbn [group_order]. destruct (decide (ll_group l ∈ seen)) as [Hin|Hin].
    + rewrite decide_True by (by apply Hs). by apply IH.
    + rewrite decide_False by (by rewrite <- Hs). rewrite filter_cons_True by done. f_equal.
      apply IH. intros g Hg. rewrite !elem_of_union, (Hs g Hg). done.
  - destruct (decide (ll_group l ∈ seen)); [by apply IH|]. rewrite filter_cons_False by done.
    apply IH. intros g Hg. rewrite elem_of_union, elem_of_singleton, Hs by done. split; [|tauto].
    intros [->|?]; [done|done].
Qed.

Lemma filter_key_prefix {A} (f : A -> Z) (drop : gset Z) (a b : list A) :
  NoDup (map f (a ++ b)) -> (forall g, g ∈ drop <-> g ∈ map f a) ->
  base.filter (fun x => f x ∉ drop) (a ++ b) = b.
Proof.
  rewrite map_app. intros (_ & Hab & _)%NoDup_app Hd. rewrite filter_app.
  assert (Hin : forall (x : A) l, x ∈ l -> f x ∈ map f l).
  { intros x l Hx. apply list_elem_of_In, in_map. by apply list_elem_of_In. }
  assert (Ha : forall l : list A, (forall x, x ∈ l -> x ∈ a) -> base.filter (fun x => f x ∉ drop) l = []).
  { induction l as [|x l IH]; intros Hl; [done|]. rewrite filter_cons_False, IH; [done| |].
    - intros y Hy. apply Hl. by right.
    - intros Hx. apply Hx, Hd, Hin, Hl. by left. }
  assert (Hb : forall l : list A, (forall x, x ∈ l -> x ∈ b) -> base.filter (fun x => f x ∉ drop) l = l).
  { induction l as [|x l IH]; intros Hl; [done|]. rewrite filter_cons_True, IH; [done| |].
    - intros y Hy. apply Hl. by right.
    - intros Hx%Hd. apply (Hab _ Hx), Hin, Hl. by left. }
  by rewrite Ha, Hb.
Qed.

Lemma filter_not_prefix (drop : gset Z) (a b : list Z) :
  NoDup (a ++ b) -> (forall g, g ∈ drop <-> g ∈ a) -> base.filter (fun g => g ∉ drop) (a ++ b) = b.
Proof. intros Hn Hd. apply (filter_key_prefix id); by rewrite map_id. Qed.

(** The plan keeps the last groups in order of first appearance, each whole. *)
Lemma plan_spec lines keepGroups drop kept :
  0 < keepGroups -> planLogPrefixDrop lines keepGroups = (drop, kept) ->
  kept = base.filter (fun l => ll_group l ∉ drop) lines /\
  exists dropped, group_order ∅ lines = dropped ++ group_order ∅ kept /\
    (forall g, g ∈ drop <-> g ∈ dropped) /\ Z.of_nat (length (group_order ∅ kept)) <= keepGroups /\
    (dropped <> [] -> Z.of_nat (length (group_order ∅ kept)) = keepGroups).
Proof.
  intros Hk. unfold planLogPrefixDrop. destruct (Z.leb_spec keepGroups 0); [lia|]. intros [= Hd <-]. rewrite Hd.
  split; [done|]. rewrite (group_order_filter drop ∅ ∅) by done.
  destruct (group_order_spec ∅ lines) as [Hn _]. set (order := group_order ∅ lines) in *.
  destruct (Z.ltb_spec keepGroups (Z.of_nat (length order))) as [Hlt|Hge].
  - set (n := Z.to_nat (Z.of_nat (length order) - keepGroups)) in *.
    assert (Hin : forall g, g ∈ drop <-> g ∈ take n order) by (intros g; by rewrite <- Hd, elem_of_list_to_set).
    rewrite <- (take_drop n order) in Hn |- *. rewrite (filter_not_prefix drop (take n order)) by done.
    exists (take n order). rewrite take_drop, length_drop. split; [done|]. split; [done|]. lia.
  - subst drop. exists []. pose proof (filter_not_prefix ∅ [] order Hn ltac:(set_solver)) as E.
    cbn [app] in E. rewrite E.
    split; [done|]. split; [set_solver|]. split; [lia|done].
Qed.

(** ** Properties *)

(** Everything in the log has reached the disk. *)
Definition durable (d : LogDisk) : Prop :=
  match ld_log d with Some f => lf_durable f = String.length (lf_data f) | None => True end.

Definition log_bytes (d : LogDisk) : option string := lf_data <$> ld_log d.

Lemma string_length_0 s : String.length s = 0%nat -> s = "".
Proof. by destruct s. Qed.

Lemma durable_crash d d' : durable d -> log_crash d d' -> log_bytes d' = log_bytes d.
Proof.
  unfold durable, log_crash, log_bytes. destruct (ld_log d) as [f|], (ld_log d') as [f'|]; try done.
  intros Hd (cut & Hf & Hl). cbn. rewrite Hf. rewrite Hd, Hf, string_length_app in Hl.
  rewrite (string_length_0 cut) by lia. by rewrite append_nil_r.
Qed.

Lemma remove_tmp_log io d : ld_log (remove_tmp io d) = ld_log d.
Proof. unfold remove_tmp. by destruct (io_remove io). Qed.

Lemma last_two {A} (l : list A) a b d : List.last (l ++ [a; b]) d = b.
Proof. change [a; b] with ([a] ++ [b]). by rewrite app_assoc, last_last. Qed.

(** A rewrite leaves the log alone in every state until the last, which has the
    lines, all on disk. *)
Lemma rewrite_spec io d lines states e :
  rewriteLogLines io d lines = (states, e) ->
  (forall d1, d1 ∈ states -> ld_log d1 = ld_log d \/ e = None /\ ld_log d1 = Some (synced (lines_bytes lines))) /\
  (e = None -> ld_log (final d states) = Some (synced (lines_bytes lines))).
Proof.
  unfold rewriteLogLines. destruct (io_tmp_open io); [intros [= <- <-]; split; [by intros d1 ?%elem_of_nil|done]|].
  set (written := fun n => MkLogDisk _ _).
  assert (Hw : forall l d1, d1 ∈ map written l -> ld_log d1 = ld_log d).
  { intros l d1. rewrite list_elem_of_In, in_map_iff. by intros (n & <- & _). }
  assert (Herr : forall l k (e' : error), (forall d1, d1 ∈ l -> ld_log d1 = ld_log d) ->
    (map written k ++ l, Some e') = (states, e) ->
    (forall d1, d1 ∈ states -> ld_log d1 = ld_log d \/ e = None /\ ld_log d1 = Some (synced (lines_bytes lines))) /\
    (e = None -> ld_log (final d states) = Some (synced (lines_bytes lines)))).
  { intros l k e' Hl [= <- <-]. split; [|done]. intros d1 [H|H]%elem_of_app; left; [by eapply Hw|by apply Hl]. }
  destruct (tmp_write_error io lines) as [[[k n] e']|].
  { apply Herr. intros d1. rewrite elem_of_cons, list_elem_of_singleton. intros [->| ->]; [done|by rewrite remove_tmp_log]. }
  destruct (io_tmp_sync io).
  { apply Herr. intros d1 ->%list_elem_of_singleton. by rewrite remove_tmp_log. }
  destruct (io_tmp_close io); [|destruct (io_rename io)]; try
    (apply Herr; intros d1; rewrite elem_of_cons, list_elem_of_singleton; intros [->| ->]; [done|by rewrite remove_tmp_log]).
  intros [<- <-]%pair_equal_spec. split.
  - intros d1. rewrite elem_of_app, elem_of_cons, list_elem_of_singleton. intros [H|[->| ->]]; [left; by eapply Hw|by left|by right].
  - intros _. unfold final. by rewrite last_two.
Qed.

(** [d1] has the log of [d] without its oldest groups: each whole group of a
    prefix of the order is gone, the last [keepGroups] are there, every line as
    it was, all of it on disk and readable. *)
Definition compacted (io : LogIO) (classify : groupClassifier) (d : LogDisk) (keepGroups : Z) (d1 : LogDisk) : Prop :=
  exists lines kept (drop : gset Z) dropped,
    readLogLines io classify d = Ok (lines, true) /\
    kept = base.filter (fun l => ll_group l ∉ drop) lines /\
    group_order ∅ lines = dropped ++ group_order ∅ kept /\ (forall g, g ∈ drop <-> g ∈ dropped) /\
    Z.of_nat (length (group_order ∅ kept)) = keepGroups /\
    ld_log d1 = Some (synced (lines_bytes kept)) /\
    forall io', io_read io' = None -> readLogLines io' classify d1 = Ok (kept, true).

Lemma filter_Forall {A} (P Q : A -> Prop) `{forall x, Decision (Q x)} (l : list A) :
  Forall P l -> Forall P (base.filter Q l).
Proof. rewrite !Forall_forall. intros Hl x [_ Hx]%list_elem_of_filter. by apply Hl. Qed.

Lemma filter_drops_none (drop : gset Z) (lines : list logLine) :
  (forall g, g ∈ drop <-> g ∈ []) -> base.filter (fun l => ll_group l ∉ drop) lines = lines.
Proof.
  intros Hd. induction lines as [|l lines IH]; [done|]. rewrite filter_cons_True, IH; [done|].
  by intros ?%Hd%elem_of_nil.
Qed.

Lemma filter_forallb {A} (f : A -> bool) (Q : A -> Prop) `{forall x, Decision (Q x)} l :
  forallb f l = true -> forallb f (base.filter Q l) = true.
Proof.
  rewrite !forallb_forall. intros Hl x Hx. apply Hl. apply list_elem_of_In in Hx.
  apply list_elem_of_In. by apply list_elem_of_filter in Hx as [_ Hx].
Qed.

(** The states of a compaction, and what a crash keeps of them. *)
Lemma compaction_states {W} io d (w : W) keepGroups classify observe states w' e :
  compactLogPrefixGroupsObserved io d w keepGroups classify observe = (states, w', e) -> durable d ->
  forall d1 d2, d1 ∈ states -> log_crash d1 d2 ->
    log_bytes d2 = log_bytes d1 /\ (ld_log d1 = ld_log d \/ compacted io classify d keepGroups d1).
Proof.
  intros Hc Hd. unfold compactLogPrefixGroupsObserved in Hc.
  destruct (Z.leb_spec keepGroups 0); [simplify_eq; by intros d1 d2 ?%elem_of_nil|].
  destruct (readLogLines io classify d) as [[lines ok]|e0] eqn:Er; [|simplify_eq; by intros d1 d2 ?%elem_of_nil].
  destruct (readLogLines_ok _ _ _ _ _ Er) as [Hok ->].
  destruct (forallb ll_classified lines) eqn:Ecl; cbn [negb] in Hc; [|simplify_eq; by intros d1 d2 ?%elem_of_nil].
  destruct (planLogPrefixDrop lines keepGroups) as [drop kept] eqn:Ep.
  destruct (plan_spec _ _ _ _ ltac:(done) Ep) as (Hkept & dropped & Hord & Hdrop & _ & Hlen).
  destruct (Nat.eqb_spec (length kept) (length lines)) as [Hl|Hl]; [simplify_eq; by intros d1 d2 ?%elem_of_nil|].
  destruct (match observe with Some _ => _ | None => _ end) as [w1 [complete|e1]]; [|simplify_eq; by intros d1 d2 ?%elem_of_nil].
  destruct (rewriteLogLines io d kept) as [states1 e1] eqn:Ew.
  assert (states = states1) as -> by (destruct e1; [|destruct complete as [c|]; [destruct (c w1)|]]; by simplify_eq).
  destruct (rewrite_spec _ _ _ _ _ Ew) as [Hst _]. intros d1 d2 Hin Hcrash.
  assert (H1 : ld_log d1 = ld_log d \/ compacted io classify d keepGroups d1).
  { destruct (Hst d1 Hin) as [H1|[_ H1]]; [by left|right]. exists lines, kept, drop, dropped.
    split; [done|]. split; [done|]. split; [done|]. split; [done|]. split.
    - apply Hlen. intros ->. apply Hl. rewrite Hkept. f_equal. by apply filter_drops_none.
    - split; [done|]. intros io' Hio'. destruct d1 as [lg tmp]. cbn in H1. subst lg.
      rewrite (read_written io' classify _ _ kept); [|done|done|rewrite Hkept; by apply filter_Forall].
      by rewrite Hkept, filter_forallb. }
  split; [|done]. apply durable_crash; [|done]. unfold durable in *. destruct H1 as [->|H1]; [done|].
  by destruct H1 as (? & ? & ? & ? & _ & _ & _ & _ & _ & -> & _).
Qed.

(** Compaction (ADR-053): in every state it goes through, and after a
    crash in any of them, the log is what it was or the log without its oldest
    groups; an unreadable line or an observer that refuses leaves it alone. *)
Theorem log_compaction {W} io d (w : W) keepGroups classify observe states w' e :
  compactLogPrefixGroupsObserved io d w keepGroups classify observe = (states, w', e) -> durable d ->
  (forall d1 d2, d1 ∈ states -> log_crash d1 d2 ->
     log_bytes d2 = log_bytes d1 /\ (ld_log d1 = ld_log d \/ compacted io classify d keepGroups d1)) /\
  (forall lines, readLogLines io classify d = Ok (lines, false) -> 0 < keepGroups -> states = [] /\ e <> None) /\
  (forall obs, observe = Some obs -> (forall w gs ls, exists w' e, obs w gs ls = (w', Err e)) -> states = []).
Proof.
  intros Hc Hd. split; [by eapply compaction_states|]. unfold compactLogPrefixGroupsObserved in Hc. split.
  - intros lines Er Hk. destruct (Z.leb_spec keepGroups 0); [lia|]. rewrite Er in Hc. cbn in Hc. by simplify_eq.
  - intros obs -> Hobs. destruct (keepGroups <=? 0); [by simplify_eq|].
    destruct (readLogLines io classify d) as [[lines []]|e0]; cbn [negb] in Hc; [|by simplify_eq..].
    destruct (planLogPrefixDrop lines keepGroups) as [drop kept]. destruct (_ =? _)%nat; [by simplify_eq|].
    destruct (Hobs w (group_order ∅ (dropped_lines drop lines)) (dropped_lines drop lines)) as (w1 & e1 & E).
    rewrite E in Hc. by simplify_eq.
Qed.

Lemma substring_prefix n s : exists cut, s = take_bytes n s +:+ cut.
Proof.
  unfold take_bytes. revert n. induction s as [|a s IH]; intros [|n]; [by exists ""|by exists ""|by exists (String a s)|].
  destruct (IH n) as [cut Hc]. exists cut. cbn [String.substring]. by rewrite append_cons, <- Hc.
Qed.

Lemma append_split (a b x c : string) :
  a +:+ b = x +:+ c -> (String.length a <= String.length x)%nat -> exists r, x = a +:+ r /\ b = r +:+ c.
Proof.
  revert x. induction a as [|y a IH]; intros x E Hl; [by exists x|].
  destruct x as [|z x]; cbn in Hl; [lia|]. rewrite !append_cons in E. injection E as -> E.
  destruct (IH x E) as (r & -> & ->); [lia|]. by exists r.
Qed.

(** The log holds what was on disk and the start of what is added. *)
Definition grown (old new : string) (d : LogDisk) : Prop :=
  exists g rest cut, ld_log d = Some g /\ lf_data g = old +:+ rest /\ new = (old +:+ rest) +:+ cut /\
    (String.length old <= lf_durable g)%nat.

Lemma grown_crash old new d d' :
  grown old new d -> log_crash d d' ->
  exists rest cut, log_bytes d' = Some (old +:+ rest) /\ new = (old +:+ rest) +:+ cut.
Proof.
  intros (g & rest & cut & Hg & Hd & Hn & Hl). unfold log_crash, log_bytes. rewrite Hg.
  destruct (ld_log d') as [g'|]; [|done]. intros (lost & Hlost & Hl'). rewrite Hd in Hlost.
  destruct (append_split _ _ _ _ Hlost) as (r & Hr & ->); [lia|]. exists r, (lost +:+ cut).
  cbn. rewrite Hr. split; [done|]. by rewrite Hn, !append_assoc.
Qed.

(** What [appendLogLine] does to the log [old], all of it on disk. *)
Lemma append_states io d line states e :
  appendLogLine io d line = (states, e) -> durable d ->
  let old := default "" (log_bytes d) in
  let new := old +:+ TrimSpace line +:+ String newline "" in
  Forall (grown old new) states /\
  (e = None -> TrimSpace line <> "" /\ final d states = MkLogDisk (Some (synced new)) (ld_tmp d)).
Proof.
  intros Ha Hd old new. set (f := default (MkLogFile "" 0) (ld_log d)).
  assert (Hf : f = synced old).
  { unfold f, old, log_bytes, durable, synced in *. destruct (ld_log d) as [[b n]|]; [|done]. cbn in *. by subst. }
  unfold appendLogLine in Ha. fold f in Ha. rewrite Hf in Ha. cbn [synced lf_data lf_durable] in Ha.
  destruct (String.eqb_spec (TrimSpace line) "") as [|Hne]; [by simplify_eq|].
  destruct (io_open io); [by simplify_eq|]. set (out := TrimSpace line +:+ String newline "") in *.
  assert (Hgr : forall r c, out = r +:+ c -> forall n tmp, (String.length old <= n)%nat ->
    grown old new (MkLogDisk (Some (MkLogFile (old +:+ r) n)) tmp)).
  { intros r c Hout n tmp Hn. exists (MkLogFile (old +:+ r) n), r, c. split; [done|]. split; [done|].
    split; [|done]. subst new. by rewrite Hout, append_assoc. }
  assert (Hg1 : forall tmp, grown old new (MkLogDisk (Some (synced old)) tmp)).
  { intros tmp. exists (synced old), "", out. rewrite append_nil_r. by repeat split. }
  assert (Hg2 : forall n tmp, (String.length old <= n)%nat -> grown old new (MkLogDisk (Some (MkLogFile (old +:+ out) n)) tmp)).
  { intros n tmp. apply (Hgr out ""). by rewrite append_nil_r. }
  destruct (io_write io) as [[n e']|] eqn:Ew; [|destruct (io_sync io) as [e'|] eqn:Es]; simplify_eq.
  - split; [|done]. destruct (substring_prefix n out) as [cut Hcut]. repeat constructor; [apply Hg1|by eapply Hgr].
  - split; [|done]. repeat constructor; [apply Hg1|by apply Hg2].
  - split; [|done]. repeat constructor; [apply Hg1|by apply Hg2|apply Hg2]. rewrite string_length_app. lia.
Qed.

(** Reading after a line was added. *)
Lemma read_appended io classify d d' raw lines ok :
  let old := default "" (log_bytes d) in
  log_bytes d' = Some (old +:+ raw +:+ String newline "") -> whole_lines old -> TrimSpace raw = raw -> raw <> "" ->
  has_newline raw = false -> Z.of_nat (String.length raw) < max_token -> io_read io = None ->
  readLogLines io classify d = Ok (lines, ok) ->
  readLogLines io classify d' =
    Ok (lines ++ [classify_line classify raw], ok && ll_classified (classify_line classify raw)).
Proof.
  intros old Hd' Hw Ht Hne Hnl Hlen Hio Hread.
  assert (Hok : line_ok classify (classify_line classify raw)) by done.
  assert (Hone : scan_lines (raw +:+ String newline "") = Ok [raw]) by exact (scan_line _ _ Hok).
  unfold readLogLines in *. unfold log_bytes in Hd', old.
  destruct (ld_log d') as [f'|]; [|done]. injection Hd' as Hd'. rewrite Hio in *.
  rewrite Hd', scan_append, Hone by done.
  assert (Hold : exists pieces, scan_lines old = Ok pieces /\
    lines = map (classify_line classify) (List.filter (fun t => negb (String.eqb t "")) (map TrimSpace pieces)) /\
    ok = forallb ll_classified lines).
  { destruct (ld_log d) as [f|]; cbn in old; [|exists []; by simplify_eq]. subst old.
    destruct (scan_lines (lf_data f)) as [pieces|]; [|done]. exists pieces. by simplify_eq. }
  destruct Hold as (pieces & -> & -> & ->). rewrite map_app, List.filter_app, map_app, forallb_app. cbn.
  rewrite Ht. destruct (String.eqb_spec raw ""); [done|]. cbn. by rewrite andb_true_r.
Qed.

(** A true append: whatever call fails and wherever a crash falls, the
    bytes of a log on disk stay in front of what the log holds; a success has
    added the line, on disk, and a reader of a log in whole lines gets the old
    lines and the new one. *)
Theorem log_append io d line states e :
  appendLogLine io d line = (states, e) -> durable d ->
  let old := default "" (log_bytes d) in
  let new := old +:+ TrimSpace line +:+ String newline "" in
  (forall d1 d2, d1 ∈ states -> log_crash d1 d2 -> exists rest cut,
     log_bytes d2 = Some (old +:+ rest) /\ new = (old +:+ rest) +:+ cut) /\
  (e = None -> ld_log (final d states) = Some (synced new) /\
     forall io' classify lines ok, whole_lines old -> has_newline (TrimSpace line) = false ->
       Z.of_nat (String.length (TrimSpace line)) < max_token -> io_read io' = None ->
       readLogLines io' classify d = Ok (lines, ok) ->
       readLogLines io' classify (final d states) =
         Ok (lines ++ [classify_line classify (TrimSpace line)],
             ok && ll_classified (classify_line classify (TrimSpace line)))).
Proof.
  intros Ha Hd old new. destruct (append_states _ _ _ _ _ Ha Hd) as [Hg Hfin]. fold old new in Hg, Hfin. split.
  - intros d1 d2 Hin. apply grown_crash. by eapply Forall_forall in Hg.
  - intros He. destruct (Hfin He) as [Hne Hf]. rewrite Hf. split; [done|].
    intros io' classify lines ok Hw Hnl Hlen Hio Hread.
    by apply (read_appended io' classify d); try done; apply TrimSpace_idem.
Qed.

Lemma filter_length_eq {A} (Q : A -> Prop) `{forall x, Decision (Q x)} (l : list A) :
  length (base.filter Q l) = length l -> base.filter Q l = l.
Proof.
  induction l as [|x l IH]; [done|]. rewrite filter_cons. destruct (decide (Q x)); cbn.
  - intros [= E]. by rewrite IH.
  - intros E. pose proof (length_filter Q l). lia.
Qed.

(** ** Logs whose groups are single lines *)

Lemma group_order_nodup seen lines :
  NoDup (map ll_group lines) -> (forall l, l ∈ lines -> ll_group l ∉ seen) ->
  group_order seen lines = map ll_group lines.
Proof.
  revert seen. induction lines as [|l lines IH]; intros seen Hn Hs; [done|]. cbn in Hn |- *.
  apply NoDup_cons in Hn as [Hl Hn]. rewrite decide_False by (apply Hs; by left). f_equal.
  apply IH; [done|]. intros l' Hl'. rewrite elem_of_union, elem_of_singleton. intros [E|Hin].
  - apply Hl. rewrite <- E. apply list_elem_of_In, in_map. by apply list_elem_of_In.
  - by apply (Hs l'); [right|].
Qed.

Lemma plan_single lines keepGroups :
  0 < keepGroups -> NoDup (map ll_group lines) ->
  snd (planLogPrefixDrop lines keepGroups) = lastn (Z.to_nat keepGroups) lines.
Proof.
  intros Hk Hn. unfold planLogPrefixDrop, lastn. destruct (Z.leb_spec keepGroups 0); [lia|]. cbn [snd].
  rewrite (group_order_nodup ∅ lines Hn) by set_solver. rewrite length_map.
  destruct (Z.ltb_spec keepGroups (Z.of_nat (length lines))) as [Hlt|Hge].
  - replace (Z.to_nat (Z.of_nat (length lines) - keepGroups)) with (length lines - Z.to_nat keepGroups)%nat by lia.
    set (n := (length lines - Z.to_nat keepGroups)%nat).
    pose proof (filter_key_prefix ll_group (list_to_set (take n (map ll_group lines))) (take n lines) (drop n lines)) as E.
    rewrite take_drop in E. apply E; [done|].
    intros g. by rewrite elem_of_list_to_set, firstn_map.
  - replace (length lines - Z.to_nat keepGroups)%nat with 0%nat by lia.
    apply (filter_key_prefix ll_group ∅ [] lines); [done|]. set_solver.
Qed.

(** What a compaction leaves: the log it found, or the lines the plan keeps; the
    latter where it succeeds, if there is anything to drop. *)
Lemma compaction_result {W} io d (w : W) keepGroups classify observe states w' lines e :
  compactLogPrefixGroupsObserved io d w keepGroups classify observe = (states, w', e) ->
  0 < keepGroups -> readLogLines io classify d = Ok (lines, true) ->
  let kept := snd (planLogPrefixDrop lines keepGroups) in
  let d' := final d states in
  Forall (line_ok classify) kept /\ forallb ll_classified kept = true /\
  (ld_log d' = ld_log d /\ (e = None -> kept = lines) \/ ld_log d' = Some (synced (lines_bytes kept))).
Proof.
  intros Hc Hk Hread kept d'. destruct (readLogLines_ok _ _ _ _ _ Hread) as [Hok Hcl]. symmetry in Hcl.
  unfold compactLogPrefixGroupsObserved in Hc. destruct (Z.leb_spec keepGroups 0); [lia|]. rewrite Hread in Hc. cbn [negb] in Hc.
  unfold kept in *. destruct (planLogPrefixDrop lines keepGroups) as [drop kept'] eqn:Ep. cbn [snd].
  destruct (plan_spec _ _ _ _ Hk Ep) as (Hkept & _).
  split; [rewrite Hkept; by apply filter_Forall|]. split; [rewrite Hkept; by apply filter_forallb|].
  destruct (Nat.eqb_spec (length kept') (length lines)) as [Hl|Hl].
  { simplify_eq. left. split; [done|]. intros _. apply filter_length_eq. exact Hl. }
  destruct (match observe with Some _ => _ | None => _ end) as [w1 [complete|e1]]; [|simplify_eq; by left].
  destruct (rewriteLogLines io d kept') as [states1 e1] eqn:Ew. destruct (rewrite_spec _ _ _ _ _ Ew) as [Hst Hf].
  destruct e1 as [e1|].
  { simplify_eq. left. split; [|done]. unfold d', final. destruct states as [|x l _] using rev_ind; [done|]. rewrite last_last.
    destruct (Hst x) as [Hx|[Hx _]]; [apply elem_of_app; right; by left|exact Hx|done]. }
  assert (states = states1) as -> by (destruct complete as [c|]; [destruct (c w1)|]; by simplify_eq).
  right. by apply Hf.
Qed.

(** A compaction that succeeded: the log is read as the lines the plan keeps. *)
Lemma compaction_success {W} io d (w : W) keepGroups classify observe states w' lines :
  compactLogPrefixGroupsObserved io d w keepGroups classify observe = (states, w', None) ->
  0 < keepGroups -> io_read io = None -> durable d -> whole_lines (default "" (log_bytes d)) ->
  (forall io', io_read io' = None -> readLogLines io' classify d = Ok (lines, true)) ->
  let d' := final d states in
  durable d' /\ whole_lines (default "" (log_bytes d')) /\
  forall io', io_read io' = None ->
    readLogLines io' classify d' = Ok (snd (planLogPrefixDrop lines keepGroups), true).
Proof.
  intros Hc Hk Hio Hd Hw Hread d'.
  destruct (compaction_result _ _ _ _ _ _ _ _ _ _ Hc Hk (Hread io Hio)) as (Hok & Hcl & [[Hf Hkept]|Hf]); fold d' in Hf.
  - rewrite Hkept by done. unfold durable, log_bytes, readLogLines in *. by rewrite Hf.
  - unfold durable, log_bytes. rewrite Hf. split; [done|]. split; [apply whole_lines_bytes|].
    intros io' Hio'. destruct d' as [lg tmp]. cbn in Hf. subst lg. rewrite (read_written io' classify _ _ (snd (planLogPrefixDrop lines keepGroups))) by done. by rewrite Hcl.
Qed.

(** ** Witnesses *)

Definition io_ok : LogIO := MkLogIO None None None None None None None None None None None.
(** A write that leaves a part of the line, and a sync that fails when the line is
    there. *)
Definition io_torn : LogIO := MkLogIO None None (Some (3%nat, "no space left on device")) None None None None None None None None.
Definition io_sync_fails : LogIO := MkLogIO None None None (Some "EIO") None None None None None None None.

(** The group of a line is its first byte; a line that starts with "?" is not
    readable. *)
Definition sample_classify (raw : string) : Z * bool :=
  match raw with
  | String a _ => (Z.of_N (N_of_ascii a), negb (Ascii.eqb a "?"%char))
  | EmptyString => (0, false)
  end.

Definition text (ls : list string) : string := foldr (fun l s => l +:+ String newline s) "" ls.

Definition sample_log : LogDisk := MkLogDisk (Some (synced (text ["a1"; " b1"; ""; "a2"; "c1 "; "b2"]))) None.

Definition sample_compaction : list LogDisk * option error :=
  compactLogPrefixGroups io_ok sample_log 2 sample_classify.

Lemma log_compaction_witness :
  log_bytes (final sample_log (fst sample_compaction)) = Some (text ["b1"; "c1"; "b2"]) /\
  compacted io_ok sample_classify sample_log 2 (final sample_log (fst sample_compaction)).
Proof.
  split; [vm_compute; reflexivity|]. set (d1 := final _ _).
  assert (Hd : durable sample_log) by (vm_compute; reflexivity).
  assert (Hin : d1 ∈ fst sample_compaction) by (apply (list_elem_of_lookup_2 _ 5); vm_compute; reflexivity).
  assert (Hcrash : log_crash d1 d1).
  { assert (Hl : ld_log d1 = Some (synced (text ["b1"; "c1"; "b2"]))) by (vm_compute; reflexivity).
    unfold log_crash. rewrite Hl. exists "". split; [by rewrite append_nil_r|apply le_n]. }
  assert (Hrun : compactLogPrefixGroupsObserved io_ok sample_log tt 2 sample_classify None =
    (fst sample_compaction, tt, None)) by (vm_compute; reflexivity).
  assert (Hne : ld_log d1 <> ld_log sample_log) by (vm_compute; discriminate).
  destruct (proj2 (proj1 (log_compaction io_ok sample_log tt 2 sample_classify None _ _ _ Hrun Hd) d1 d1 Hin Hcrash))
    as [H|H]; [destruct (Hne H)|exact H].
Defined.

Lemma log_append_witness :
  let new := text ["a1"; " b1"; ""; "a2"; "c1 "; "b2"; "?x"] in
  let r := appendLogLine io_ok sample_log (" ?x" +:+ String newline "") in
  ld_log (final sample_log (fst r)) = Some (synced new) /\
  readLogLines io_ok sample_classify (final sample_log (fst r)) =
    Ok (map (classify_line sample_classify) ["a1"; "b1"; "a2"; "c1"; "b2"; "?x"], false).
Proof.
  intros new r. assert (Hd : durable sample_log) by (vm_compute; reflexivity).
  assert (Hrun : appendLogLine io_ok sample_log (" ?x" +:+ String newline "") = (fst r, None)) by (vm_compute; reflexivity).
  destruct (proj2 (log_append io_ok sample_log _ _ _ Hrun Hd) eq_refl) as [Hl Hread].
  assert (Hwhole : whole_lines (default "" (log_bytes sample_log))).
  { right. exists (text ["a1"; " b1"; ""; "a2"; "c1 "] +:+ "b2"). vm_compute. reflexivity. }
  split; [refine (eq_trans Hl _); vm_compute; reflexivity|].
  refine (eq_trans (Hread io_ok sample_classify _ _ Hwhole _ _ _ _) _);
    [vm_compute; reflexivity|vm_compute; reflexivity|reflexivity|vm_compute; reflexivity|vm_compute; reflexivity].
Defined.
