(* ===== verification/Ledger.v ===== *)
(** * The chain digest ledger (internal/controlplane/server/snapshot_ledger.go)

    One signed line per publication in an append-only log: reading and
    classifying the entries, and appending one, with the idempotence, conflict
    and fail-closed rules and the compaction behind a capacity. *)

From Stdlib Require Import Ascii.
From S2P Require Import Prelude GoStrings Manifest AppendLog.

(** ** Data *)

Record ledgerEntry : Type := MkLedgerEntry {
  le_PublicationID : Z;
  le_ManifestDigest : string;
  le_PrevPublicationID : Z;
  le_PrevManifestDigest : string;
  le_RecordedAt : string;
  le_Signature : option signatureBlock }.

Definition entry_utf8 (e : ledgerEntry) : bool :=
  ValidString (le_ManifestDigest e) && ValidString (le_PrevManifestDigest e) && ValidString (le_RecordedAt e) &&
  from_option signature_utf8 true (le_Signature e).

(** The JSON of an entry: [Encode] writes one line and a newline, and what
    [Unmarshal] reads of it is the entry. *)
Class LedgerCodec := {
  ledger_json : ledgerEntry -> string;
  ledger_decode : string -> option ledgerEntry;
  ledger_single e : has_newline (TrimSpace (ledger_json e)) = false;
  ledger_nonblank e : TrimSpace (ledger_json e) <> "";
  ledger_roundtrip e : entry_utf8 e = true -> ledger_decode (TrimSpace (ledger_json e)) = Some e }.

Record ledgerProblem : Type := MkLedgerProblem {
  lp_PublicationID : Z;
  lp_Verdict : string;
  lp_Detail : string }.

(** [conflicts] only ever holds [true]: the set of its keys. *)
Record ledgerState : Type := MkLedgerState {
  ls_usable : gmap Z ledgerEntry;
  ls_unusable : list ledgerProblem;
  ls_conflicts : gset Z;
  ls_total : Z }.

Definition empty_ledger : ledgerState := MkLedgerState ∅ [] ∅ 0.

Definition with_entry_signature (e : ledgerEntry) (s : option signatureBlock) : ledgerEntry :=
  MkLedgerEntry (le_PublicationID e) (le_ManifestDigest e) (le_PrevPublicationID e) (le_PrevManifestDigest e)
    (le_RecordedAt e) s.

Section Ledger.
Context `{ManifestCrypto} `{LedgerCodec}.

(** ** Signatures *)

Definition canonicalLedgerPayload (e : option ledgerEntry) : result error string :=
  match e with
  | None => Err "nil ledger entry"
  | Some e => Ok (ledger_json (with_entry_signature e (blank_sig <$> le_Signature e)))
  end.

Definition signLedgerEntry (s : option exportSigner) (e : ledgerEntry) (at_ : string) : result error ledgerEntry :=
  match s with
  | None => Err "no signer configured"
  | Some s =>
      if negb (es_priv_size s) then Err "sign key: private key is not a valid Ed25519 key"
      else
        let e := with_entry_signature e (Some (MkSignature signatureAlgEd25519 (es_keyID s) "" at_)) in
        match canonicalLedgerPayload (Some e) with
        | Err err => Err err
        | Ok payload =>
            Ok (with_entry_signature e (Some (MkSignature signatureAlgEd25519 (es_keyID s)
                  (base64_Encode (Sign (es_priv s) payload)) at_)))
        end
  end.

Definition verifyLedgerEntrySignature (e : option ledgerEntry) (trust : option exportTrustStore) : SignatureVerdict :=
  match e with
  | None => MkSignatureVerdict sigVerdictAbsent "" "ledger entry carries no signature"
  | Some e =>
      match le_Signature e with
      | None => MkSignatureVerdict sigVerdictAbsent "" "ledger entry carries no signature"
      | Some sb =>
          if String.eqb (sb_Alg sb) "" || String.eqb (sb_KeyID sb) "" || String.eqb (sb_Sig sb) "" ||
             String.eqb (sb_SignedAt sb) ""
          then MkSignatureVerdict sigVerdictMalformed (sb_KeyID sb) "ledger signature block is incomplete"
          else
            match base64_Decode (sb_Sig sb) with
            | None => MkSignatureVerdict sigVerdictMalformed (sb_KeyID sb) "ledger signature is not valid base64"
            | Some rawSig =>
                let keys := match trust with Some t => ts_keys t | None => ∅ end in
                if decide (keys = ∅)
                then MkSignatureVerdict sigVerdictKeyUnknown (sb_KeyID sb) "no trusted public keys are configured"
                else
                  match keys !! sb_KeyID sb with
                  | None => MkSignatureVerdict sigVerdictKeyUnknown (sb_KeyID sb)
                              "ledger key_id is not in the trusted key set"
                  | Some pub =>
                      match canonicalLedgerPayload (Some e) with
                      | Err err => MkSignatureVerdict sigVerdictMalformed (sb_KeyID sb) err
                      | Ok payload =>
                          if negb (Verify pub payload rawSig) then
                            MkSignatureVerdict sigVerdictInvalid (sb_KeyID sb)
                              "ledger signature does not verify against the trusted key"
                          else MkSignatureVerdict sigVerdictOK (sb_KeyID sb) ""
                      end
                  end
            end
      end
  end.

(** ** Loading *)

(** One line: the state and the digests of the ids seen. The decoder's message
    is not kept. *)
Definition load_line (trust : option exportTrustStore) (st : ledgerState * gmap Z string) (line : string)
  : ledgerState * gmap Z string :=
  let '(ls, seen) := st in
  match ledger_decode line with
  | None =>
      (MkLedgerState (ls_usable ls)
         (ls_unusable ls ++ [MkLedgerProblem 0 sigVerdictMalformed "ledger line is not valid JSON"])
         (ls_conflicts ls) (ls_total ls), seen)
  | Some e =>
      let total := ls_total ls + 1 in
      match seen !! le_PublicationID e with
      | Some prevDigest =>
          if String.eqb prevDigest (le_ManifestDigest e)
          then (MkLedgerState (ls_usable ls) (ls_unusable ls) (ls_conflicts ls) total, seen)
          else (MkLedgerState (delete (le_PublicationID e) (ls_usable ls)) (ls_unusable ls)
                  ({[ le_PublicationID e ]} ∪ ls_conflicts ls) total, seen)
      | None =>
          let seen := <[ le_PublicationID e := le_ManifestDigest e ]> seen in
          let v := verifyLedgerEntrySignature (Some e) trust in
          if negb (String.eqb (sv_Verdict v) sigVerdictOK)
          then (MkLedgerState (ls_usable ls)
                  (ls_unusable ls ++ [MkLedgerProblem (le_PublicationID e) (sv_Verdict v) (sv_Detail v)])
                  (ls_conflicts ls) total, seen)
          else (MkLedgerState (<[ le_PublicationID e := e ]> (ls_usable ls)) (ls_unusable ls) (ls_conflicts ls) total, seen)
      end
  end.

Definition loadLedgerState (io : LogIO) (d : LogDisk) (trust : option exportTrustStore) : result error ledgerState :=
  match ld_log d with
  | None => Ok empty_ledger
  | Some f =>
      match io_read io with
      | Some e => Err e
      | None =>
          match scan_lines (lf_data f) with
          | Err e => Err e
          | Ok pieces =>
              Ok (fst (run_list (load_line trust) (empty_ledger, ∅)
                         (List.filter (fun t => negb (String.eqb t "")) (map TrimSpace pieces))))
          end
      end
  end.

(** ** Appending *)

Definition ledgerGroupOf (raw : string) : Z * bool :=
  match ledger_decode raw with None => (0, false) | Some e => (le_PublicationID e, true) end.

Definition sameLedgerIdentity (a b : ledgerEntry) : bool :=
  (le_PublicationID a =? le_PublicationID b) && String.eqb (le_ManifestDigest a) (le_ManifestDigest b) &&
  (le_PrevPublicationID a =? le_PrevPublicationID b) &&
  String.eqb (le_PrevManifestDigest a) (le_PrevManifestDigest b).

(** The loop over the lines: [Some r] when it returns, [None] when it ends. *)
Fixpoint ledger_scan (e : ledgerEntry) (lines : list logLine) : option (option error) :=
  match lines with
  | [] => None
  | l :: lines' =>
      if negb (ll_classified l) then ledger_scan e lines'
      else if negb (ll_group l =? le_PublicationID e) then ledger_scan e lines'
      else
        match ledger_decode (ll_raw l) with
        | None => Some (Some ("ledger line for id " +:+ pretty (le_PublicationID e) +:+ " is not readable"))
        | Some prev =>
            if sameLedgerIdentity prev e then Some None
            else Some (Some ("ledger conflict: publication_id " +:+ pretty (le_PublicationID e) +:+
                             " already recorded with a different digest"))
        end
  end.

Definition appendLedgerEntryObserved {W} (io : LogIO) (d : LogDisk) (w : W) (capacity : Z) (e : ledgerEntry)
    (observe : option (compactionObserver W)) : list LogDisk * W * option error :=
  match readLogLines io ledgerGroupOf d with
  | Err err => ([], w, Some err)
  | Ok (lines, _) =>
      match ledger_scan e lines with
      | Some r => ([], w, r)
      | None =>
          if (0 <? countUnclassified lines)%nat then
            ([], w, Some ("ledger holds " +:+ pretty (countUnclassified lines) +:+
               " unclassifiable line(s); refusing to append — rewriting the file would silently discard that evidence"))
          else
            match appendLogLine io d (ledger_json e) with
            | (states, Some err) => (states, w, Some err)
            | (states, None) =>
                if 0 <? capacity then
                  let '(states', w, err) :=
                    compactLogPrefixGroupsObserved io (final d states) w capacity ledgerGroupOf observe in
                  (states ++ states', w, err)
                else (states, w, None)
            end
      end
  end.

Definition appendLedgerEntry (io : LogIO) (d : LogDisk) (capacity : Z) (e : ledgerEntry)
  : list LogDisk * option error :=
  let '(states, _, err) := appendLedgerEntryObserved io d tt capacity e None in (states, err).

(** [entryForManifest] *)
Definition entryForManifest (m : snapshotManifest) (recordedAt : string) : result error ledgerEntry :=
  match manifestDigest (Some m) with
  | Err e => Err e
  | Ok dg =>
      Ok (match m_Chain m with
          | Some c => MkLedgerEntry (m_PublicationID m) dg (mc_PrevPublicationID c) (mc_PrevManifestDigest c) recordedAt None
          | None => MkLedgerEntry (m_PublicationID m) dg 0 "" recordedAt None
          end)
  end.

(** ** A clean ledger *)

(** Whole lines on disk, each the entry of its own publication. *)
Record clean (d : LogDisk) (es : list ledgerEntry) : Prop := {
  cl_durable : durable d;
  cl_whole : whole_lines (default "" (log_bytes d));
  cl_unique : NoDup (map le_PublicationID es);
  cl_read : exists lines, Forall2 (fun l e => ledger_decode (ll_raw l) = Some e) lines es /\
    forall io, io_read io = None -> readLogLines io ledgerGroupOf d = Ok (lines, true) }.

Lemma clean_empty d : ld_log d = None -> clean d [].
Proof.
  intros Hd. split; unfold durable, log_bytes, readLogLines; rewrite ?Hd; [done|by left|constructor|].
  exists []. split; [constructor|]. done.
Qed.

Lemma decoded_group l e :
  line_ok ledgerGroupOf l -> ledger_decode (ll_raw l) = Some e ->
  ll_group l = le_PublicationID e /\ ll_classified l = true.
Proof. intros [_ _ _ _ Hc] He. rewrite Hc. cbn. unfold ledgerGroupOf. by rewrite He. Qed.

Lemma decoded_groups lines es :
  Forall (line_ok ledgerGroupOf) lines -> Forall2 (fun l e => ledger_decode (ll_raw l) = Some e) lines es ->
  map ll_group lines = map le_PublicationID es /\ forallb ll_classified lines = true.
Proof.
  intros Hok. induction 1 as [|l e lines es He _ IH]; [done|]. apply Forall_cons in Hok as [Hl Hok].
  destruct (decoded_group _ _ Hl He) as [Hg Hc]. destruct (IH Hok) as [IHg IHc]. cbn. by rewrite Hg, Hc, IHg, IHc.
Qed.

(** The scan stops at the entry of the id, if there is one. *)
Lemma ledger_scan_spec e lines es :
  Forall (line_ok ledgerGroupOf) lines -> Forall2 (fun l e => ledger_decode (ll_raw l) = Some e) lines es ->
  match ledger_scan e lines with
  | Some r => exists e0, e0 ∈ es /\ le_PublicationID e0 = le_PublicationID e /\
                (r = None <-> sameLedgerIdentity e0 e = true)
  | None => forall e0, e0 ∈ es -> le_PublicationID e0 <> le_PublicationID e
  end.
Proof.
  intros Hok. induction 1 as [|l e0 lines es He _ IH]; [by intros e0 ?%elem_of_nil|].
  apply Forall_cons in Hok as [Hl Hok]. destruct (decoded_group _ _ Hl He) as [Hg Hc]. specialize (IH Hok).
  cbn [ledger_scan]. rewrite Hc, Hg, He. cbn [negb].
  destruct (Z.eqb_spec (le_PublicationID e0) (le_PublicationID e)) as [E|E]; cbn [negb].
  - destruct (sameLedgerIdentity e0 e) eqn:Es; exists e0; rewrite Es; (split; [by left|]); by split.
  - destruct (ledger_scan e lines) as [r|].
    + destruct IH as (e1 & Hin & H1). exists e1. split; [by right|done].
    + intros e1 [->|Hin]%elem_of_cons; [done|by apply IH].
Qed.

Lemma clean_append io d es e states :
  clean d es -> appendLogLine io d (ledger_json e) = (states, None) ->
  (forall e0, e0 ∈ es -> le_PublicationID e0 <> le_PublicationID e) -> entry_utf8 e = true ->
  Z.of_nat (String.length (TrimSpace (ledger_json e))) < max_token ->
  clean (final d states) (es ++ [e]).
Proof.
  intros [Hd Hw Hn (lines & Hl & Hread)] Ha Hnew Hutf Hlen.
  destruct (append_states _ _ _ _ _ Ha Hd) as [_ Hf]. destruct (Hf eq_refl) as [Hne Hfin]. clear Hf.
  assert (Hb : log_bytes (final d states) =
    Some (default "" (log_bytes d) +:+ TrimSpace (ledger_json e) +:+ String newline "")) by (by rewrite Hfin).
  split; [by rewrite Hfin| | |].
  - rewrite Hb. cbn. apply whole_lines_append; [right; by eexists|done].
  - rewrite map_app. apply NoDup_app. split; [done|]. split; [|repeat constructor; by intros ?%elem_of_nil].
    intros x Hx ->%list_elem_of_singleton. apply list_elem_of_In, in_map_iff in Hx as (e0 & E & Hin).
    apply (Hnew e0); [by apply list_elem_of_In|done].
  - exists (lines ++ [classify_line ledgerGroupOf (TrimSpace (ledger_json e))]).
    pose proof (ledger_roundtrip e Hutf) as Hr. split.
    + apply Forall2_app; [done|]. by repeat constructor.
    + intros io' Hio. rewrite (read_appended io' ledgerGroupOf d _ (TrimSpace (ledger_json e)) lines true);
        try done; [|apply TrimSpace_idem|apply ledger_single|by apply Hread].
      cbn. unfold ledgerGroupOf. by rewrite Hr.
Qed.

Lemma clean_compact {W} io d (w : W) es capacity observe states w' :
  clean d es -> 0 < capacity -> io_read io = None ->
  compactLogPrefixGroupsObserved io d w capacity ledgerGroupOf observe = (states, w', None) ->
  clean (final d states) (lastn (Z.to_nat capacity) es).
Proof.
  intros [Hd Hw Hn (lines & Hl & Hread)] Hcap Hio Hc.
  destruct (compaction_success _ _ _ _ _ _ _ _ _ Hc Hcap Hio Hd Hw Hread) as (Hd' & Hw' & Hread').
  destruct (readLogLines_ok _ _ _ _ _ (Hread io Hio)) as [Hok _].
  destruct (decoded_groups _ _ Hok Hl) as [Hg _]. rewrite plan_single in Hread' by (done || by rewrite Hg).
  split; [done|done| |].
  - unfold lastn. rewrite skipn_map || rewrite <- skipn_map. rewrite <- (take_drop (length es - Z.to_nat capacity) (map _ es)) in Hn.
    by apply NoDup_app in Hn as (_ & _ & Hn).
  - exists (lastn (Z.to_nat capacity) lines). split; [|done]. unfold lastn. rewrite (Forall2_length _ _ _ Hl).
    by apply Forall2_drop.
Qed.

Lemma unique_entry es e0 e1 :
  NoDup (map le_PublicationID es) -> e0 ∈ es -> e1 ∈ es -> le_PublicationID e0 = le_PublicationID e1 -> e0 = e1.
Proof.
  intros Hn [i Hi]%list_elem_of_lookup [j Hj]%list_elem_of_lookup E.
  assert (i = j) as <-; [|congruence]. eapply (NoDup_lookup _ _ _ (le_PublicationID e0) Hn).
  - by rewrite list_lookup_fmap, Hi.
  - by rewrite list_lookup_fmap, Hj, E.
Qed.

Lemma no_unclassified lines : forallb ll_classified lines = true -> countUnclassified lines = 0%nat.
Proof.
  unfold countUnclassified. induction lines as [|l lines IH]; [done|]. cbn [forallb]. intros [Hl Hc]%andb_true_iff.
  rewrite filter_cons_False by congruence. by apply IH.
Qed.

(** ** Properties *)

(** Appending to a clean ledger: an id that is already there writes
    nothing, and is a success exactly when it names the same node; a new id adds
    its entry and keeps the newest [capacity] ones; and a crash in any state
    leaves the old bytes in front of a start of the new line, or the compacted
    log. *)
Theorem ledger_append {W} io d (w : W) capacity e observe es states w' err :
  clean d es -> io_read io = None -> entry_utf8 e = true ->
  Z.of_nat (String.length (TrimSpace (ledger_json e))) < max_token ->
  appendLedgerEntryObserved io d w capacity e observe = (states, w', err) ->
  (forall e0, e0 ∈ es -> le_PublicationID e0 = le_PublicationID e ->
     states = [] /\ (err = None <-> sameLedgerIdentity e0 e = true)) /\
  ((forall e0, e0 ∈ es -> le_PublicationID e0 <> le_PublicationID e) -> err = None ->
     clean (final d states) (if 0 <? capacity then lastn (Z.to_nat capacity) (es ++ [e]) else es ++ [e])) /\
  (forall d1 d2, d1 ∈ states -> log_crash d1 d2 ->
     (exists rest cut, log_bytes d2 = Some (default "" (log_bytes d) +:+ rest) /\
        TrimSpace (ledger_json e) +:+ String newline "" = rest +:+ cut) \/
     log_bytes d2 = log_bytes d1 /\ exists dA, clean dA (es ++ [e]) /\ compacted io ledgerGroupOf dA capacity d1).
Proof.
  intros Hcl Hio Hutf Hlen Ha. pose proof Hcl as [Hd Hw Hn (lines & Hl & Hread)].
  destruct (readLogLines_ok _ _ _ _ _ (Hread io Hio)) as [Hok _].
  destruct (decoded_groups _ _ Hok Hl) as [Hg Hcl'].
  pose proof (ledger_scan_spec e _ _ Hok Hl) as Hscan. unfold appendLedgerEntryObserved in Ha.
  rewrite (Hread io Hio) in Ha. destruct (ledger_scan e lines) as [r|].
  { simplify_eq. destruct Hscan as (e1 & Hin & E1 & Hr). split; [|split].
    - intros e0 Hin0 E0. split; [done|]. rewrite Hr. by rewrite (unique_entry es e0 e1 Hn Hin0 Hin) by congruence.
    - intros Hnew. by destruct (Hnew e1 Hin).
    - by intros d1 d2 ?%elem_of_nil. }
  rewrite (no_unclassified _ Hcl') in Ha. cbn [Nat.ltb Nat.leb] in Ha.
  destruct (appendLogLine io d (ledger_json e)) as [st1 e1] eqn:E1.
  destruct (append_states _ _ _ _ _ E1 Hd) as [Hg1 _]. rewrite Forall_forall in Hg1.
  assert (Hgrown : forall d1 d2, grown (default "" (log_bytes d)) (default "" (log_bytes d) +:+
      TrimSpace (ledger_json e) +:+ String newline "") d1 -> log_crash d1 d2 ->
    exists rest cut, log_bytes d2 = Some (default "" (log_bytes d) +:+ rest) /\
      TrimSpace (ledger_json e) +:+ String newline "" = rest +:+ cut).
  { intros d1 d2 H1 H2. destruct (grown_crash _ _ _ _ H1 H2) as (rest & cut & Hb & Hnew).
    exists rest, cut. split; [done|]. rewrite append_assoc in Hnew. by apply append_inj in Hnew. }
  assert (Hold : forall e0, e0 ∈ es -> le_PublicationID e0 = le_PublicationID e ->
    states = [] /\ (err = None <-> sameLedgerIdentity e0 e = true)) by (intros e0 Hi0 E0; by destruct (Hscan e0 Hi0)).
  split; [exact Hold|]. destruct e1 as [e1|]; [|destruct (Z.ltb_spec 0 capacity) as [Hcap|Hcap]].
  - simplify_eq. split; [done|]. intros d1 d2 Hin Hc. left. by eapply Hgrown; [apply Hg1|].
  - destruct (compactLogPrefixGroupsObserved _ _ _ _ _ _) as [[st2 w2] e2] eqn:E2. simplify_eq.
    pose proof (clean_append _ _ _ _ _ Hcl E1 Hscan Hutf Hlen) as Hcl1. split.
    + intros _ ->. unfold final in *. rewrite last_app. by eapply clean_compact.
    + intros d1 d2 [Hin|Hin]%elem_of_app Hc; [left; by eapply Hgrown; [apply Hg1|]|].
      destruct (compaction_states _ _ _ _ _ _ _ _ _ E2 (cl_durable _ _ Hcl1) d1 d2 Hin Hc) as [Hb [Hsame|Hcomp]]; [left|right; split; [done|]; by exists (final d st1)].
      destruct (append_states _ _ _ _ _ E1 Hd) as [_ Hf]. destruct (Hf eq_refl) as [_ Hf'].
      exists (TrimSpace (ledger_json e) +:+ String newline ""), "". rewrite append_nil_r. split; [|done].
      rewrite Hb. unfold log_bytes. rewrite Hsame, Hf'. done.
  - simplify_eq. split.
    + intros _ _. by eapply clean_append.
    + intros d1 d2 Hin Hc. left. by eapply Hgrown; [apply Hg1|].
Qed.

(** ** What loading makes of a file *)

Definition conflict (es : list ledgerEntry) (id : Z) : Prop :=
  exists e e', e ∈ es /\ e' ∈ es /\ le_PublicationID e = id /\ le_PublicationID e' = id /\
    le_ManifestDigest e <> le_ManifestDigest e'.

(** The first entry of an id. *)
Definition first_of (es : list ledgerEntry) (id : Z) : option ledgerEntry :=
  List.find (fun e => le_PublicationID e =? id) es.

(** What the load has found in the entries [es]. *)
Record load_spec (trust : option exportTrustStore) (es : list ledgerEntry) (st : ledgerState * gmap Z string) : Prop := {
  ld_seen id : snd st !! id = le_ManifestDigest <$> first_of es id;
  ld_conflicts id : id ∈ ls_conflicts (fst st) <-> conflict es id;
  ld_usable id e : ls_usable (fst st) !! id = Some e <->
    first_of es id = Some e /\ ~ conflict es id /\
    sv_Verdict (verifyLedgerEntrySignature (Some e) trust) = sigVerdictOK;
  ld_total : ls_total (fst st) = Z.of_nat (length es) }.

Lemma find_snoc {A} (f : A -> bool) l x :
  List.find f (l ++ [x]) = match List.find f l with Some y => Some y | None => if f x then Some x else None end.
Proof. induction l as [|y l IH]; cbn; [by destruct (f x)|]. by destruct (f y). Qed.

Lemma first_of_some es id e : first_of es id = Some e -> e ∈ es /\ le_PublicationID e = id.
Proof. intros [Hin E]%find_some. split; [by apply list_elem_of_In|exact (proj1 (Z.eqb_eq _ _) E)]. Qed.

Lemma first_of_none es id e : first_of es id = None -> e ∈ es -> le_PublicationID e <> id.
Proof. intros Hf Hin. apply Z.eqb_neq. apply list_elem_of_In in Hin. exact (find_none _ _ Hf _ Hin). Qed.

Lemma first_of_snoc es e id :
  first_of (es ++ [e]) id =
    match first_of es id with Some e0 => Some e0 | None => if le_PublicationID e =? id then Some e else None end.
Proof. exact (find_snoc (fun e => le_PublicationID e =? id) es e). Qed.

Lemma conflict_snoc es e id :
  conflict (es ++ [e]) id <->
  conflict es id \/ le_PublicationID e = id /\
    exists e', e' ∈ es /\ le_PublicationID e' = id /\ le_ManifestDigest e' <> le_ManifestDigest e.
Proof.
  unfold conflict. split.
  - intros (a & b & Ha & Hb & Ea & Eb & Hne). rewrite elem_of_app, list_elem_of_singleton in Ha, Hb.
    destruct Ha as [Ha| ->], Hb as [Hb| ->]; [left; by exists a, b| | |done].
    + right. split; [done|]. by exists a.
    + right. split; [done|]. exists b. by split; [|split; [|apply not_eq_sym]].
  - intros [(a & b & Ha & Hb & Hr)|(E & b & Hb & Eb & Hne)].
    + exists a, b. rewrite !elem_of_app. tauto.
    + exists b, e. rewrite !elem_of_app, !list_elem_of_singleton. split_and!; auto.
Qed.

(** An id seen before, and a new one. *)
Lemma load_spec_again trust es ls seen line e e0 :
  load_spec trust es (ls, seen) -> ledger_decode line = Some e ->
  first_of es (le_PublicationID e) = Some e0 ->
  load_spec trust (es ++ [e]) (load_line trust (ls, seen) line).
Proof.
  intros [Hseen Hcon Hus Htot] Ed E0. cbn [fst snd] in *. unfold load_line. rewrite Ed.
  assert (Hlen : ls_total ls + 1 = Z.of_nat (length (es ++ [e]))) by (rewrite length_app; cbn; lia).
  rewrite Hseen, E0. cbn [fmap option_fmap option_map].
  destruct (first_of_some _ _ _ E0) as [Hin0 Eid0].
  assert (Hf : forall id, first_of (es ++ [e]) id = first_of es id).
  { intros id. rewrite first_of_snoc. destruct (first_of es id) eqn:E1; [done|].
    destruct (Z.eqb_spec (le_PublicationID e) id) as [<-|]; [congruence|done]. }
  destruct (String.eqb_spec (le_ManifestDigest e0) (le_ManifestDigest e)) as [Edg|Edg].
  + assert (Hc : forall id, conflict (es ++ [e]) id <-> conflict es id).
    { intros id. rewrite conflict_snoc. split; [|tauto]. intros [H1|(<- & b & Hb & Eb & Hne)]; [done|].
      exists b, e0. rewrite Edg. auto. }
    split; cbn [fst snd ls_usable ls_conflicts ls_total]; intros; rewrite ?Hf, ?Hc; auto.
  + assert (Hc : forall id, conflict (es ++ [e]) id <-> conflict es id \/ id = le_PublicationID e).
    { intros id. rewrite conflict_snoc. split; [intros [?|[? _]]; auto|]. intros [H1| ->]; [by left|]. right. eauto. }
    split; cbn [fst snd ls_usable ls_conflicts ls_total]; [by intros id; rewrite Hf| | |done].
    * intros id. rewrite elem_of_union, elem_of_singleton, Hc, Hcon. tauto.
    * intros id e1. rewrite lookup_delete_Some, Hus, Hf, Hc. split; [|intros (? & ? & ?); split; [|split]; auto].
      intros [Hne (? & ? & ?)]. split; [done|]. split; [intros [?| ->]|]; done.
Qed.

Lemma load_spec_new trust es ls seen line e :
  load_spec trust es (ls, seen) -> ledger_decode line = Some e ->
  first_of es (le_PublicationID e) = None ->
  load_spec trust (es ++ [e]) (load_line trust (ls, seen) line).
Proof.
  intros [Hseen Hcon Hus Htot] Ed E0. cbn [fst snd] in *. unfold load_line. rewrite Ed.
  assert (Hlen : ls_total ls + 1 = Z.of_nat (length (es ++ [e]))) by (rewrite length_app; cbn; lia).
  rewrite Hseen, E0. cbn [fmap option_fmap option_map].
  assert (Hc : forall id, conflict (es ++ [e]) id <-> conflict es id).
  { intros id. rewrite conflict_snoc. split; [|tauto]. intros [H1|(<- & b & Hb & Eb & _)]; [done|].
    by destruct (first_of_none _ _ _ E0 Hb). }
  assert (Hnc : ~ conflict es (le_PublicationID e)).
  { intros (a & _ & Ha & _ & Ea & _). by destruct (first_of_none _ _ _ E0 Ha). }
  assert (Hseen' : forall id, <[le_PublicationID e := le_ManifestDigest e]> seen !! id =
    le_ManifestDigest <$> first_of (es ++ [e]) id).
  { intros id. rewrite first_of_snoc. destruct (Z.eqb_spec (le_PublicationID e) id) as [<-|Hne].
    - by rewrite lookup_insert_eq, E0.
    - rewrite lookup_insert_ne, Hseen by done. by destruct (first_of es id). }
  assert (Hfirst : forall id e1, first_of (es ++ [e]) id = Some e1 <->
    first_of es id = Some e1 \/ id = le_PublicationID e /\ e1 = e).
  { intros id e1. rewrite first_of_snoc. destruct (first_of es id) as [e2|] eqn:E2.
    - split; [by left|]. intros [H1|[-> ->]]; [done|]. congruence.
    - destruct (Z.eqb_spec (le_PublicationID e) id) as [<-|Hne]; split; intros H1.
      + right. by simplify_eq.
      + destruct H1 as [?|[_ ->]]; done.
      + done.
      + destruct H1 as [?|[-> ?]]; done. }
  destruct (String.eqb_spec (sv_Verdict (verifyLedgerEntrySignature (Some e) trust)) sigVerdictOK) as [Hv|Hv];
    cbn [negb]; split; cbn [fst snd ls_usable ls_conflicts ls_total]; try done;
    try (intros id; by rewrite Hc, Hcon).
  + intros id e1. rewrite Hfirst, Hc, lookup_insert_Some, Hus. split.
    * intros [[<- <-]|[Hne (? & ? & ?)]]; auto.
    * intros ([H1|[-> ->]] & H2 & H3); [|auto]. right. split; [|done]. intros <-. congruence.
  + intros id e1. rewrite Hfirst, Hc, Hus. split; [intros (? & ? & ?); auto|].
    intros ([H1|[-> ->]] & H2 & H3); [done|done].
Qed.

Lemma load_spec_line trust es st line :
  load_spec trust es st ->
  load_spec trust (es ++ from_option (fun e => [e]) [] (ledger_decode line)) (load_line trust st line).
Proof.
  destruct st as [ls seen]. intros Hs. destruct (ledger_decode line) as [e|] eqn:Ed; cbn [from_option].
  - destruct (first_of es (le_PublicationID e)) eqn:E0; [by eapply load_spec_again|by eapply load_spec_new].
  - destruct Hs. rewrite app_nil_r. unfold load_line. by rewrite Ed.
Qed.

(** The entries of a file: its readable lines, decoded. *)
Definition file_entries (s : string) : list ledgerEntry :=
  omap ledger_decode (List.filter (fun t => negb (String.eqb t "")) (map TrimSpace (split_lines "" s))).

Lemma load_spec_lines trust lines :
  load_spec trust (omap ledger_decode lines) (run_list (load_line trust) (empty_ledger, ∅) lines).
Proof.
  induction lines as [|line lines IH] using rev_ind.
  - split; cbn; [done| | |done].
    + intros id. split; [by intros ?%elem_of_empty|]. by intros (? & ? & ?%elem_of_nil & _).
    + intros id e. rewrite lookup_empty. by split; [|intros [? _]].
  - rewrite run_list_snoc, omap_app. pose proof (load_spec_line _ _ _ line IH) as Hl.
    cbn. by destruct (ledger_decode line).
Qed.

(** Loading: whatever bytes the ledger file holds, an id is in conflict
    exactly when two readable lines give it different digests, and it is usable
    exactly when it is not in conflict and the first line that has it is signed
    by a trusted key; that line is then its entry. Nothing is decided by a later
    line, and [total] counts the readable lines. *)
Theorem ledger_load io d trust ls :
  loadLedgerState io d trust = Ok ls ->
  let es := file_entries (default "" (log_bytes d)) in
  (forall id, id ∈ ls_conflicts ls <-> conflict es id) /\
  (forall id e, ls_usable ls !! id = Some e <->
     first_of es id = Some e /\ ~ conflict es id /\
     sv_Verdict (verifyLedgerEntrySignature (Some e) trust) = sigVerdictOK) /\
  ls_total ls = Z.of_nat (length es).
Proof.
  intros Hl es.
  assert (Hs : exists lines seen, es = omap ledger_decode lines /\
    run_list (load_line trust) (empty_ledger, ∅) lines = (ls, seen)).
  { unfold loadLedgerState, es, log_bytes, scan_lines in *. destruct (ld_log d) as [f|].
    - destruct (io_read io); [done|]. destruct (existsb _ _); [done|]. injection Hl as <-. eexists _, _.
      split; [done|]. apply surjective_pairing.
    - injection Hl as <-. by exists [], ∅. }
  destruct Hs as (lines & seen & -> & Hrun). pose proof (load_spec_lines trust lines) as [_ Hc Hu Ht].
  rewrite Hrun in Hc, Hu, Ht. done.
Qed.

End Ledger.

(** ** An instance, and witnesses

    A field is its bytes, each a "1" and eight bits, and a "0" at the end; an
    integer is its sign and its bits. *)

Definition bit (b : bool) : ascii := if b then "1"%char else "0"%char.
Definition unbit (a : ascii) : bool := Ascii.eqb a "1"%char.

Fixpoint bfield (s rest : string) : string :=
  match s with
  | EmptyString => String "0" rest
  | String (Ascii a b c d e f g h) s' =>
      String "1" (String (bit a) (String (bit b) (String (bit c) (String (bit d) (String (bit e)
        (String (bit f) (String (bit g) (String (bit h) (bfield s' rest)))))))))
  end.

Fixpoint parse_field (s : string) : option (string * string) :=
  match s with
  | String "0" rest => Some ("", rest)
  | String "1" (String a (String b (String c (String d (String e (String f (String g (String h s')))))))) =>
      match parse_field s' with
      | Some (x, rest) =>
          Some (String (Ascii (unbit a) (unbit b) (unbit c) (unbit d) (unbit e) (unbit f) (unbit g) (unbit h)) x, rest)
      | None => None
      end
  | _ => None
  end.

Lemma parse_bfield s rest : parse_field (bfield s rest) = Some (s, rest).
Proof.
  induction s as [|[a b c d e f g h] s IH]; [done|]. cbn. rewrite IH.
  by destruct a, b, c, d, e, f, g, h.
Qed.

Fixpoint pos_str (p : positive) : string :=
  match p with xH => "" | xO p => String "0" (pos_str p) | xI p => String "1" (pos_str p) end.
Definition Z_str (z : Z) : string :=
  match z with 0 => "" | Zpos p => String "+" (pos_str p) | Zneg p => String "-" (pos_str p) end.
Fixpoint str_pos (s : string) : positive :=
  match s with EmptyString => xH | String "0" s => xO (str_pos s) | String _ s => xI (str_pos s) end.
Definition str_Z (s : string) : Z :=
  match s with EmptyString => 0 | String "+" s => Zpos (str_pos s) | String _ s => Zneg (str_pos s) end.

Lemma str_Z_str z : str_Z (Z_str z) = z.
Proof.
  assert (Hp : forall p, str_pos (pos_str p) = p) by (induction p as [p IH|p IH|]; cbn; by rewrite ?IH).
  destruct z; cbn; by rewrite ?Hp.
Qed.

Definition entry_fields (e : ledgerEntry) : list string :=
  [Z_str (le_PublicationID e); le_ManifestDigest e; Z_str (le_PrevPublicationID e); le_PrevManifestDigest e;
   le_RecordedAt e] ++ signature_fields (le_Signature e).

Fixpoint parse_fields (fuel : nat) (s : string) : list string :=
  match fuel with
  | O => []
  | S fuel => match parse_field s with Some (x, rest) => x :: parse_fields fuel rest | None => [] end
  end.

Definition entry_of_fields (l : list string) : option ledgerEntry :=
  match l with
  | [id; dg; prev; pdg; at_; ""] => Some (MkLedgerEntry (str_Z id) dg (str_Z prev) pdg at_ None)
  | [id; dg; prev; pdg; at_; "+"; alg; key; sig; sat] =>
      Some (MkLedgerEntry (str_Z id) dg (str_Z prev) pdg at_ (Some (MkSignature alg key sig sat)))
  | _ => None
  end.

Lemma parse_fields_all l n : (length l < n)%nat -> parse_fields n (foldr bfield "" l) = l.
Proof.
  revert n. induction l as [|x l IH]; intros [|n] Hn; cbn in Hn; try lia; [done|].
  cbn [parse_fields foldr]. rewrite parse_bfield, IH by lia. done.
Qed.

Lemma entry_of_entry_fields e : entry_of_fields (entry_fields e) = Some e.
Proof.
  destruct e as [id dg prev pdg at_ [[]|]]; cbn; by rewrite !str_Z_str.
Qed.

(** No white space anywhere in the encoding. *)
Fixpoint plain (s : string) : bool :=
  match s with EmptyString => true | String a s' => (Ascii.eqb a "0" || Ascii.eqb a "1") && plain s' end.

Lemma plain_bfields l : plain (foldr bfield "" l) = true.
Proof.
  assert (Hf : forall s r, plain (bfield s r) = plain r).
  { induction s as [|[a b c d e f g h] s IH]; intros r; [done|]. cbn. rewrite IH. by destruct a, b, c, d, e, f, g, h. }
  induction l as [|x l IH]; [done|]. cbn [foldr]. by rewrite Hf.
Qed.

Lemma plain_trim s : plain s = true -> TrimSpace (s +:+ String newline "") = s /\ has_newline s = false.
Proof.
  intros Hp. apply digits_trim. induction s as [|a s IH]; [done|]. cbn [plain all_digits] in *.
  apply andb_true_iff in Hp as [Ha Hp]. rewrite (IH Hp), andb_true_r.
  by apply orb_true_iff in Ha as [->%Ascii.eqb_eq| ->%Ascii.eqb_eq].
Qed.

#[local] Existing Instance sample_crypto.

(** [Encode] of an entry with no more than 20 fields, as all are. *)
Definition sample_codec : LedgerCodec.
Proof.
  assert (Hline : forall e, TrimSpace (foldr bfield "" (entry_fields e) +:+ String newline "") =
    foldr bfield "" (entry_fields e) /\ has_newline (foldr bfield "" (entry_fields e)) = false).
  { intros e. apply plain_trim, plain_bfields. }
  refine {| ledger_json e := foldr bfield "" (entry_fields e) +:+ String newline "";
    ledger_decode s := entry_of_fields (parse_fields 20 s) |}.
  - intros e. destruct (Hline e) as [-> H]. exact H.
  - intros e. destruct (Hline e) as [-> _]. unfold entry_fields. cbn [app foldr].
    by destruct (Z_str (le_PublicationID e)) as [|[]].
  - intros e _. destruct (Hline e) as [-> _]. rewrite parse_fields_all; [apply entry_of_entry_fields|].
    unfold entry_fields. rewrite length_app. destruct (le_Signature e) as [[]|]; cbn; lia.
Defined.

#[local] Existing Instance sample_codec.

Definition sample_entry (id prev : Z) (digest prevDigest : string) : ledgerEntry :=
  let e := MkLedgerEntry id digest prev prevDigest "t" None in
  match signLedgerEntry (Some sample_signer) e "at" with Ok e' => e' | Err _ => e end.

Definition entry1 : ledgerEntry := sample_entry 101 0 "d1" "".
Definition entry2 : ledgerEntry := sample_entry 102 101 "d2" "d1".
Definition entry3 : ledgerEntry := sample_entry 104 102 "d4" "d2".

Definition empty_log : LogDisk := MkLogDisk None None.
Definition append_entry (d : LogDisk) (e : ledgerEntry) : LogDisk := final d (fst (appendLogLine io_ok d (ledger_json e))).
Definition log12 : LogDisk := append_entry (append_entry empty_log entry1) entry2.

Lemma sample_append d es e :
  clean d es -> snd (appendLogLine io_ok d (ledger_json e)) = None ->
  (forall e0, e0 ∈ es -> le_PublicationID e0 <> le_PublicationID e) -> entry_utf8 e = true ->
  (Z.of_nat (String.length (TrimSpace (ledger_json e))) <? max_token) = true ->
  clean (append_entry d e) (es ++ [e]).
Proof.
  intros Hcl Ha Hnew Hutf Hlen%Z.ltb_lt. apply (clean_append io_ok); try done.
  destruct (appendLogLine _ _ _) as [st err]. cbn in *. by subst.
Qed.

Lemma log1_clean : clean (append_entry empty_log entry1) [entry1].
Proof.
  apply (sample_append empty_log []); [by apply clean_empty|vm_compute; reflexivity| |vm_compute; reflexivity..].
  by intros e0 He%elem_of_nil.
Qed.

Lemma log12_clean : clean log12 [entry1; entry2].
Proof.
  apply (sample_append _ [entry1]); [exact log1_clean|vm_compute; reflexivity| |vm_compute; reflexivity..].
  intros e0 ->%list_elem_of_singleton. vm_compute. discriminate.
Qed.

Lemma surjective_pairing_2 {A B C} (r : A * B * C) : r = (fst (fst r), snd (fst r), snd r).
Proof. by destruct r as [[a b] c]. Qed.

Lemma ledger_append_witness :
  let r := appendLedgerEntryObserved io_ok log12 tt 2 entry3 None in
  clean (final log12 (fst (fst r))) [entry2; entry3] /\
  fst (fst (appendLedgerEntryObserved io_ok log12 tt 2 entry2 None)) = [].
Proof.
  intros r. assert (Hlen : forall e, e ∈ [entry2; entry3] ->
    Z.of_nat (String.length (TrimSpace (ledger_json e))) < max_token).
  { intros e He. apply Z.ltb_lt.
    apply elem_of_cons in He as [->|He%list_elem_of_singleton]; [|rewrite He]; vm_compute; reflexivity. }
  assert (H3 : snd r = None) by (vm_compute; reflexivity).
  assert (Hnew : forall e0, e0 ∈ [entry1; entry2] -> le_PublicationID e0 <> le_PublicationID entry3).
  { intros e0 He. apply elem_of_cons in He as [->|He%list_elem_of_singleton]; [|rewrite He]; vm_compute; discriminate. }
  split.
  - exact (proj1 (proj2 (ledger_append io_ok log12 tt 2 entry3 None _ _ _ _ log12_clean eq_refl eq_refl
      (Hlen _ ltac:(right; left)) (surjective_pairing_2 r))) Hnew H3).
  - exact (proj1 (proj1 (ledger_append io_ok log12 tt 2 entry2 None _ _ _ _ log12_clean eq_refl eq_refl
      (Hlen _ ltac:(left)) (surjective_pairing_2 _)) entry2 ltac:(right; left) eq_refl)).
Defined.

(** A file with an unreadable line, a line of [entry2] and one that gives its id
    another digest, and [entry1] unsigned. *)
Definition tampered_log : LogDisk :=
  MkLogDisk (Some (synced (text ["garbage"; TrimSpace (ledger_json entry3); TrimSpace (ledger_json entry2);
    TrimSpace (ledger_json (sample_entry 102 101 "dX" "d1")); TrimSpace (ledger_json (with_entry_signature entry1 None))]))) None.

Definition tampered_state : ledgerState :=
  match loadLedgerState io_ok tampered_log (Some sample_trust) with Ok ls => ls | Err _ => empty_ledger end.

Lemma ledger_load_witness :
  map fst (map_to_list (ls_usable tampered_state)) = [104] /\ length (ls_unusable tampered_state) = 2%nat /\
  102 ∈ ls_conflicts tampered_state /\ ls_total tampered_state = 4.
Proof.
  assert (Hl : loadLedgerState io_ok tampered_log (Some sample_trust) = Ok tampered_state) by (vm_compute; reflexivity).
  destruct (ledger_load _ _ _ _ Hl) as (Hc & _ & Ht).
  split; [vm_compute; reflexivity|]. split; [vm_compute; reflexivity|]. split.
  - apply Hc. exists entry2, (sample_entry 102 101 "dX" "d1").
    split; [apply (list_elem_of_lookup_2 _ 1); vm_compute; reflexivity|].
    split; [apply (list_elem_of_lookup_2 _ 2); vm_compute; reflexivity|].
    split; [vm_compute; reflexivity|]. split; [vm_compute; reflexivity|]. vm_compute. discriminate.
  - refine (eq_trans Ht _). vm_compute. reflexivity.
Defined.
