(* ===== verification/Chain.v ===== *)
(** * The publication chain (internal/controlplane/server/snapshot_chain.go)

    The choice of the predecessor a publication extends, the walk back through
    the ledger, and the verdict over the retained manifests. *)

From S2P Require Import Prelude GoStrings Manifest AppendLog Ledger.

(** ** Data *)

Definition chainVerdictOK : string := "chain_ok".
Definition chainVerdictBroken : string := "chain_broken".
Definition chainVerdictAbsent : string := "chain_absent".

Definition chainPosPredecessorVerified : string := "predecessor_verified".
Definition chainPosRetentionBoundary : string := "retention_boundary".
Definition chainPosBroken : string := "broken".
Definition chainPosAbsent : string := "absent".

Record ChainVerdict : Type := MkChainVerdict {
  cv_Verdict : string;
  cv_AnchorPublicationID : Z;
  cv_BrokenAt : list Z;
  cv_VerifiableFromPublicationID : Z;
  cv_LedgerEntriesUsed : Z;
  cv_LedgerErrors : list string;
  cv_Detail : string }.

Record chainNode : Type := MkChainNode {
  cn_id : Z;
  cn_digest : string;
  cn_prevID : Z;
  cn_prevDigest : string;
  cn_identity : string }.

#[export] Instance chainNode_eq_dec : EqDecision chainNode.
Proof. solve_decision. Defined.

(** ** The predecessor of a publication *)

Section Predecessor.
Context `{ManifestCrypto}.

(** The loop over the groups: the candidates, or the first refusal. *)
Fixpoint chain_candidates (groups : list snapshotGroup) (beforeID : Z) : result error (list snapshotManifest) :=
  match groups with
  | [] => Ok []
  | g :: groups' =>
      if String.eqb (g_manifestFn g) "" then chain_candidates groups' beforeID
      else
        match parseSnapshotManifest (g_decoded g) with
        | Err e =>
            Err ("manifest " +:+ g_identity g +:+ " cannot be parsed (" +:+ e +:+
                 ") — its publication position cannot be established, refusing to extend the chain (fail-closed)")
        | Ok m =>
            if (m_SchemaVersion m <? manifestSchemaVersionV4) || (if m_Chain m is None then true else false)
            then chain_candidates groups' beforeID
            else if beforeID <=? m_PublicationID m then
              Err ("manifest " +:+ pretty (m_PublicationID m) +:+ " is not older than the allocated publication id " +:+
                   pretty beforeID +:+ " — refusing to extend the chain (fail-closed)")
            else match chain_candidates groups' beforeID with Err e => Err e | Ok ms => Ok (m :: ms) end
        end
  end.

Definition newest (best : option snapshotManifest) (m : snapshotManifest) : option snapshotManifest :=
  match best with
  | None => Some m
  | Some b => if m_PublicationID b <? m_PublicationID m then Some m else best
  end.

(** On the groups [discoverSnapshotGroups] found; an unreadable file and one
    that does not parse are both refused. *)
Definition latestVerifiedChainPredecessor (groups : list snapshotGroup) (beforeID : Z)
    (trust : option exportTrustStore) : result error (option snapshotManifest) :=
  match chain_candidates groups beforeID with
  | Err e => Err e
  | Ok candidates =>
      match foldl newest None candidates with
      | None => Ok None
      | Some best =>
          let v := verifyManifestSignature (Some best) trust in
          if negb (String.eqb (sv_Verdict v) sigVerdictOK) then
            Err ("latest chain-bearing manifest " +:+ pretty (m_PublicationID best) +:+ " cannot be trusted (" +:+
                 sv_Verdict v +:+ ") — refusing to extend the chain (fail-closed)")
          else Ok (Some best)
      end
  end.

End Predecessor.

(** ** The walk back through the ledger *)

Definition problems_of (unusable : list ledgerProblem) : gmap Z ledgerProblem :=
  foldl (fun m p => <[ lp_PublicationID p := p ]> m) ∅ unusable.

(** One call is one turn of the loop; [None] is out of fuel. *)
Fixpoint backtrack_loop (fuel : nat) (ls : ledgerState) (problems : gmap Z ledgerProblem)
    (id : Z) (oldest used curID : Z) (curDigest : string) : option (Z * Z * string) :=
  match fuel with
  | O => None
  | S fuel =>
      if curID =? 0 then Some (oldest, used, "")
      else if Z.of_nat (size (ls_usable ls)) + Z.of_nat (size problems) + 1 <? used then
        Some (oldest, used, "ledger walk from " +:+ pretty id +:+ " exceeds the recorded entry count (cycle or corruption)")
      else if decide (curID ∈ ls_conflicts ls) then
        Some (oldest, used, "ledger records conflicting digests for publication_id " +:+ pretty curID)
      else
        match ls_usable ls !! curID with
        | None =>
            match problems !! curID with
            | Some p => Some (oldest, used, "ledger entry " +:+ pretty curID +:+ " is not trustworthy (" +:+ lp_Verdict p +:+ ")")
            | None => Some (oldest, used, "")
            end
        | Some e =>
            if negb (String.eqb curDigest "") && negb (String.eqb (le_ManifestDigest e) curDigest) then
              Some (oldest, used, "ledger entry " +:+ pretty curID +:+
                    " records a digest that does not match the committed predecessor")
            else
              let used := used + 1 in
              let oldest := le_PublicationID e in
              if negb (le_PrevPublicationID e =? 0) && String.eqb (le_PrevManifestDigest e) ""
              then Some (oldest, used, "")
              else backtrack_loop fuel ls problems id oldest used (le_PrevPublicationID e) (le_PrevManifestDigest e)
        end
  end.

(** More turns than the loop can take. *)
Definition backtrack_fuel (ls : ledgerState) (problems : gmap Z ledgerProblem) : nat :=
  size (ls_usable ls) + size problems + 3.

Definition backtrackLedger (ls : ledgerState) (problems : gmap Z ledgerProblem) (id : Z) (digest : string) : Z * Z * string :=
  if bool_decide (ls_usable ls = ∅) && bool_decide (problems = ∅) && bool_decide (ls_conflicts ls = ∅) then (0, 0, "")
  else default (0, 0, "") (backtrack_loop (backtrack_fuel ls problems) ls problems id 0 0 id digest).

(** ** The verdict *)

Definition ledger_errors (ls : ledgerState) : list string :=
  sort_strings (
    map (fun p => "ledger entry " +:+ pretty (lp_PublicationID p) +:+ ": " +:+ lp_Verdict p +:+ " (" +:+ lp_Detail p +:+ ")")
      (ls_unusable ls) ++
    map (fun id => "ledger entry " +:+ pretty id +:+ ": conflicting digests recorded for the same publication_id")
      (elements (ls_conflicts ls))).

Definition node_less (a b : chainNode) : bool := cn_id a <? cn_id b.

(** A verdict and the positions. *)
Definition CV : Type := ChainVerdict * gmap string string.

(** Broken at the node, with the detail if there is none yet. *)
Definition broken_at (n : chainNode) (detail : string) (s : CV) : CV :=
  let '(v, positions) := s in
  (MkChainVerdict chainVerdictBroken (cv_AnchorPublicationID v) (cv_BrokenAt v ++ [cn_id n])
     (cv_VerifiableFromPublicationID v) (cv_LedgerEntriesUsed v) (cv_LedgerErrors v)
     (if String.eqb (cv_Detail v) "" then detail else cv_Detail v),
   <[ cn_identity n := chainPosBroken ]> positions).

Definition at_boundary (n : chainNode) (from used : Z) (s : CV) : CV :=
  let '(v, positions) := s in
  (MkChainVerdict (cv_Verdict v) (cv_AnchorPublicationID v) (cv_BrokenAt v) from
     (cv_LedgerEntriesUsed v + used) (cv_LedgerErrors v) (cv_Detail v),
   <[ cn_identity n := chainPosRetentionBoundary ]> positions).

Definition used_entries (used : Z) (s : CV) : CV :=
  let '(v, positions) := s in
  (MkChainVerdict (cv_Verdict v) (cv_AnchorPublicationID v) (cv_BrokenAt v) (cv_VerifiableFromPublicationID v)
     (cv_LedgerEntriesUsed v + used) (cv_LedgerErrors v) (cv_Detail v), positions).

(** The boundary below the oldest retained node. *)
Definition boundary (ls : ledgerState) (problems : gmap Z ledgerProblem) (n : chainNode) (s : CV) : CV :=
  if (cn_prevID n =? 0) && String.eqb (cn_prevDigest n) "" then at_boundary n (cn_id n) 0 s
  else if cn_prevID n =? 0 then
    broken_at n ("chain anchor " +:+ pretty (cn_id n) +:+ " carries a predecessor digest without a predecessor id") s
  else if ls_total ls =? 0 then
    broken_at n ("chain anchor " +:+ pretty (cn_id n) +:+ " commits to predecessor " +:+ pretty (cn_prevID n) +:+
                 " which is not retained") s
  else
    let '(from, used, brokenDetail) := backtrackLedger ls problems (cn_prevID n) (cn_prevDigest n) in
    if negb (String.eqb brokenDetail "") then broken_at n brokenDetail (used_entries used s)
    else if 0 <? used then at_boundary n from used s
    else at_boundary n (cn_id n) used s.

(** A node against its ledger entry. *)
Definition ledger_check (ls : ledgerState) (s : CV) (n : chainNode) : CV :=
  if decide (cn_id n ∈ ls_conflicts ls) then
    broken_at n ("ledger records conflicting digests for publication_id " +:+ pretty (cn_id n)) s
  else
    match ls_usable ls !! cn_id n with
    | None => s
    | Some e =>
        if String.eqb (le_ManifestDigest e) (cn_digest n) then s
        else broken_at n ("manifest " +:+ pretty (cn_id n) +:+ " and its ledger entry record different digests") s
    end.

Definition links (prev cur : chainNode) : bool :=
  (cn_prevID cur =? cn_id prev) && String.eqb (cn_prevDigest cur) (cn_digest prev).

Definition hop_detail (prev cur : chainNode) : string :=
  if negb (cn_prevID cur =? cn_id prev) then
    "manifest " +:+ pretty (cn_id cur) +:+ " commits to predecessor " +:+ pretty (cn_prevID cur) +:+
    " but the retained predecessor is " +:+ pretty (cn_id prev)
  else if String.eqb (cn_prevDigest cur) "" then
    "manifest " +:+ pretty (cn_id cur) +:+ " commits to predecessor " +:+ pretty (cn_prevID cur) +:+
    " without a predecessor digest"
  else "manifest " +:+ pretty (cn_id cur) +:+ " commits to a predecessor digest that does not match " +:+ pretty (cn_id prev).

(** The hops over the retained nodes. *)
Fixpoint hops (prev : chainNode) (l : list chainNode) (s : CV) : CV :=
  match l with
  | [] => s
  | cur :: l' =>
      hops cur l'
        (if links prev cur then (fst s, <[ cn_identity cur := chainPosPredecessorVerified ]> (snd s))
         else broken_at cur (hop_detail prev cur) s)
  end.

Definition verifyChainWithLedger (nodes : list chainNode) (chainBearing : Z) (ls : option ledgerState) : CV :=
  let ls := default empty_ledger ls in
  let problems := problems_of (ls_unusable ls) in
  if chainBearing =? 0 then
    (MkChainVerdict chainVerdictAbsent 0 [] 0 0 [] "no chain-bearing manifests (pre-P38 history only)", ∅)
  else
    let unverifiable := chainBearing - Z.of_nat (length nodes) in
    match sort_slice node_less nodes with
    | [] =>
        (MkChainVerdict chainVerdictBroken 0 [] 0 0 (ledger_errors ls)
           (pretty chainBearing +:+ " chain-bearing manifest(s) exist but the predecessor chain cannot be cryptographically verified (signature not valid)"),
         ∅)
    | first :: rest =>
        let v := MkChainVerdict (if 0 <? unverifiable then chainVerdictBroken else chainVerdictOK) (cn_id first) [] 0 0
          (ledger_errors ls)
          (if 0 <? unverifiable then pretty unverifiable +:+
             " chain-bearing manifest(s) cannot be cryptographically verified (signature not valid)" else "") in
        hops first rest (foldl (ledger_check ls) (boundary ls problems first (v, ∅)) (first :: rest))
    end.

(** ** The walk: termination and what it proves *)

Definition recorded (ls : ledgerState) (problems : gmap Z ledgerProblem) : Z :=
  Z.of_nat (size (ls_usable ls)) + Z.of_nat (size problems).

Lemma backtrack_total fuel ls problems id oldest used curID curDigest :
  0 <= used <= recorded ls problems + 2 -> recorded ls problems + 3 <= used + Z.of_nat fuel ->
  exists oldest' used' detail,
    backtrack_loop fuel ls problems id oldest used curID curDigest = Some (oldest', used', detail) /\
    used <= used' <= recorded ls problems + 2.
Proof.
  revert oldest used curID curDigest. induction fuel as [|fuel IH]; intros oldest used curID curDigest Hu Hf; [lia|].
  assert (Hstop : forall (o : Z) (d : string), exists oldest' used' detail,
    Some (o, used, d) = Some (oldest', used', detail) /\ used <= used' <= recorded ls problems + 2).
  { intros o d. eexists _, _, _. split; [done|lia]. }
  cbn [backtrack_loop]. destruct (curID =? 0); [apply Hstop|].
  unfold recorded in *. destruct (Z.ltb_spec (Z.of_nat (size (ls_usable ls)) + Z.of_nat (size problems) + 1) used); [apply Hstop|].
  destruct (decide _); [apply Hstop|]. destruct (ls_usable ls !! curID) as [e|].
  2: { destruct (problems !! curID); apply Hstop. }
  destruct (_ && _); [apply Hstop|]. destruct (_ && _).
  { eexists _, _, _. split; [done|lia]. }
  destruct (IH (le_PublicationID e) (used + 1) (le_PrevPublicationID e) (le_PrevManifestDigest e)) as (o & u & d & E & Hu');
    [lia|lia|]. exists o, u, d. split; [done|lia].
Qed.

(** Entries that commit to one another, from the commitment [(id, digest)] on:
    each is usable and in no conflict, and its digest is the one committed to,
    if one was. *)
Inductive ledger_path (ls : ledgerState) : Z -> string -> list ledgerEntry -> Prop :=
| path_end id dg : ledger_path ls id dg []
| path_step id dg e es :
    id <> 0 -> id ∉ ls_conflicts ls -> ls_usable ls !! id = Some e -> (dg = "" \/ le_ManifestDigest e = dg) ->
    ledger_path ls (le_PrevPublicationID e) (le_PrevManifestDigest e) es ->
    ledger_path ls id dg (e :: es).

(** The commitment behind a path. *)
Definition next_commitment (id : Z) (dg : string) (es : list ledgerEntry) : Z * string :=
  match last es with Some e => (le_PrevPublicationID e, le_PrevManifestDigest e) | None => (id, dg) end.

(** Where a walk may end without a break: at the genesis, at an entry nobody
    has, or at a commitment without a digest. *)
Definition shrinks (ls : ledgerState) (problems : gmap Z ledgerProblem) (es : list ledgerEntry) (c : Z * string) : Prop :=
  c.1 = 0 \/ (c.1 ∉ ls_conflicts ls) /\ ls_usable ls !! c.1 = None /\ problems !! c.1 = None \/
  es <> [] /\ c.2 = "".

Lemma next_commitment_cons id dg e es :
  next_commitment id dg (e :: es) = next_commitment (le_PrevPublicationID e) (le_PrevManifestDigest e) es.
Proof. unfold next_commitment. rewrite last_cons. by destruct (last es). Qed.

Lemma backtrack_path fuel ls problems id oldest used curID curDigest oldest' used' detail :
  backtrack_loop fuel ls problems id oldest used curID curDigest = Some (oldest', used', detail) ->
  exists es, ledger_path ls curID curDigest es /\ used' = used + Z.of_nat (length es) /\
    oldest' = from_option le_PublicationID oldest (last es) /\
    (detail = "" -> shrinks ls problems es (next_commitment curID curDigest es)).
Proof.
  revert oldest used curID curDigest. induction fuel as [|fuel IH]; intros oldest used curID curDigest; [done|].
  assert (Hstop : forall d, (d = "" -> shrinks ls problems [] (curID, curDigest)) ->
    Some (oldest, used, d) = Some (oldest', used', detail) ->
    exists es, ledger_path ls curID curDigest es /\ used' = used + Z.of_nat (length es) /\
      oldest' = from_option le_PublicationID oldest (last es) /\
      (detail = "" -> shrinks ls problems es (next_commitment curID curDigest es))).
  { intros d Hd [= <- <- <-]. exists []. split; [constructor|]. split; [cbn; lia|]. by split. }
  cbn [backtrack_loop]. destruct (Z.eqb_spec curID 0) as [->|Hne]; [apply Hstop; intros _; by left|].
  destruct (_ <? used); [by apply Hstop|].
  destruct (decide (curID ∈ ls_conflicts ls)) as [Hc|Hc]; [by apply Hstop|].
  destruct (ls_usable ls !! curID) as [e|] eqn:Ee.
  2: { destruct (problems !! curID) eqn:Ep; [by apply Hstop|]. apply Hstop. intros _. right. left. done. }
  destruct (negb (String.eqb curDigest "") && negb (String.eqb (le_ManifestDigest e) curDigest)) eqn:Ed; [by apply Hstop|].
  assert (Hdg : curDigest = "" \/ le_ManifestDigest e = curDigest).
  { destruct (String.eqb_spec curDigest ""); [by left|]. destruct (String.eqb_spec (le_ManifestDigest e) curDigest); [by right|done]. }
  destruct (negb (le_PrevPublicationID e =? 0) && String.eqb (le_PrevManifestDigest e) "") eqn:El.
  - intros [= <- <- <-]. exists [e]. split; [by apply path_step; [..|apply path_end]|]. split; [cbn; lia|]. split; [done|].
    intros _. right. right. split; [done|]. apply andb_true_iff in El as [_ El]. by apply String.eqb_eq.
  - intros (es & Hp & -> & -> & Hs)%IH. exists (e :: es). split; [by apply path_step|]. split; [cbn; lia|]. split.
    + rewrite last_cons. by destruct (last es).
    + intros Hd. rewrite next_commitment_cons. destruct (Hs Hd) as [H1|[H1|[_ H1]]]; [by left|by right; left|]. right. by right.
Qed.

Lemma backtrackLedger_spec ls problems id dg oldest used detail :
  backtrackLedger ls problems id dg = (oldest, used, detail) ->
  is_Some (backtrack_loop (backtrack_fuel ls problems) ls problems id 0 0 id dg) /\
  used <= recorded ls problems + 2 /\
  exists es, ledger_path ls id dg es /\ used = Z.of_nat (length es) /\
    oldest = from_option le_PublicationID 0 (last es) /\
    (detail = "" -> shrinks ls problems es (next_commitment id dg es)).
Proof.
  intros Hb. destruct (backtrack_total (backtrack_fuel ls problems) ls problems id 0 0 id dg)
    as (o & u & d & E & Hu); [unfold recorded; lia|unfold recorded, backtrack_fuel; lia|].
  split; [by rewrite E|]. unfold backtrackLedger in Hb. rewrite E in Hb. cbn [default from_option] in Hb.
  destruct (_ && _ && _) eqn:Ee; [|injection Hb as -> -> ->; split; [lia|]].
  - injection Hb as <- <- <-. split; [unfold recorded; lia|]. exists []. split; [constructor|].
    split; [done|]. split; [done|]. intros _. right. left. cbn.
    rewrite !andb_true_iff, !bool_decide_eq_true in Ee. destruct Ee as [[-> ->] ->].
    split; [apply not_elem_of_empty|by rewrite !lookup_empty].
  - destruct (backtrack_path _ _ _ _ _ _ _ _ _ _ _ E) as (es & Hp & -> & -> & Hs). exists es. by split_and!.
Qed.

(** ** When the verdict is ok *)

Definition verdict (s : CV) : string := cv_Verdict (fst s).

Fixpoint linked_from (prev : chainNode) (l : list chainNode) : Prop :=
  match l with [] => True | cur :: l' => links prev cur = true /\ linked_from cur l' end.

Lemma verdict_broken_at n d s : verdict (broken_at n d s) = chainVerdictBroken.
Proof. by destruct s. Qed.

Lemma verdict_at_boundary n a b s : verdict (at_boundary n a b s) = verdict s.
Proof. by destruct s. Qed.

Lemma hops_broken prev l s : verdict s <> chainVerdictOK -> verdict (hops prev l s) <> chainVerdictOK.
Proof.
  revert prev s. induction l as [|cur l IH]; intros prev s Hs; [done|]. cbn [hops]. apply IH.
  destruct (links prev cur); [by destruct s|by rewrite verdict_broken_at].
Qed.

Lemma hops_ok prev l s : verdict (hops prev l s) = chainVerdictOK <-> verdict s = chainVerdictOK /\ linked_from prev l.
Proof.
  revert prev s. induction l as [|cur l IH]; intros prev s; cbn [hops linked_from]; [tauto|].
  destruct (links prev cur) eqn:E.
  - rewrite IH. destruct s. cbn. tauto.
  - split; [intros [H _]%IH; by rewrite verdict_broken_at in H|]. intros (_ & H & _). congruence.
Qed.

(** A node the ledger does not contradict. *)
Definition consistent (ls : ledgerState) (n : chainNode) : Prop :=
  (cn_id n ∉ ls_conflicts ls) /\ forall e, ls_usable ls !! cn_id n = Some e -> le_ManifestDigest e = cn_digest n.

Lemma ledger_check_ok ls n s :
  verdict (ledger_check ls s n) = chainVerdictOK <-> verdict s = chainVerdictOK /\ consistent ls n.
Proof.
  unfold ledger_check, consistent. destruct (decide _); [rewrite verdict_broken_at; split; [done|tauto]|].
  destruct (ls_usable ls !! cn_id n) as [e|].
  - destruct (String.eqb_spec (le_ManifestDigest e) (cn_digest n)) as [E|E].
    + split; [intros Hs; split; [done|]; split; [done|]; by intros e' [= <-]|tauto].
    + rewrite verdict_broken_at. split; [done|]. intros (_ & _ & H). destruct E. by apply H.
  - split; [|tauto]. intros Hs. by split.
Qed.

Lemma ledger_checks_ok ls l s :
  verdict (foldl (ledger_check ls) s l) = chainVerdictOK <-> verdict s = chainVerdictOK /\ Forall (consistent ls) l.
Proof.
  revert s. induction l as [|n l IH]; intros s; cbn [foldl].
  - split; [by split; [|constructor]|tauto].
  - rewrite IH, ledger_check_ok, Forall_cons. tauto.
Qed.

(** The boundary is fine: a genesis, or a predecessor the ledger does not
    disprove. *)
Definition boundary_fine (ls : ledgerState) (n : chainNode) : Prop :=
  cn_prevID n = 0 /\ cn_prevDigest n = "" \/
  cn_prevID n <> 0 /\ ls_total ls <> 0 /\
    (backtrackLedger ls (problems_of (ls_unusable ls)) (cn_prevID n) (cn_prevDigest n)).2 = "".

Lemma boundary_ok ls n s :
  verdict (boundary ls (problems_of (ls_unusable ls)) n s) = chainVerdictOK <->
  verdict s = chainVerdictOK /\ boundary_fine ls n.
Proof.
  unfold boundary, boundary_fine. destruct (Z.eqb_spec (cn_prevID n) 0) as [Hp|Hp]; cbn [andb].
  - destruct (String.eqb_spec (cn_prevDigest n) "") as [Hd|Hd].
    + rewrite verdict_at_boundary. tauto.
    + rewrite verdict_broken_at. split; [done|tauto].
  - destruct (Z.eqb_spec (ls_total ls) 0) as [Ht|Ht]; [rewrite verdict_broken_at; split; [done|tauto]|].
    destruct (backtrackLedger _ _ _ _) as [[from used] detail]. cbn [snd].
    destruct (String.eqb_spec detail "") as [->|Hd]; cbn [negb].
    + destruct (0 <? used); rewrite verdict_at_boundary; tauto.
    + rewrite verdict_broken_at. split; [done|tauto].
Qed.

Lemma verify_ok nodes chainBearing ls first rest :
  sort_slice node_less nodes = first :: rest ->
  verdict (verifyChainWithLedger nodes chainBearing (Some ls)) = chainVerdictOK <->
  0 <> chainBearing /\ chainBearing <= Z.of_nat (length nodes) /\
  boundary_fine ls first /\ Forall (consistent ls) (first :: rest) /\ linked_from first rest.
Proof.
  intros Hs. unfold verifyChainWithLedger. rewrite Hs. cbn [default from_option].
  destruct (Z.eqb_spec chainBearing 0) as [->|Hne]; [split; [done|lia]|].
  rewrite hops_ok, ledger_checks_ok, boundary_ok. unfold verdict at 1. cbn [fst cv_Verdict].
  destruct (Z.ltb_spec 0 (chainBearing - Z.of_nat (length nodes))); [split; [by intros [[[? _] _] _]|lia]|].
  split; [intros [[[_ Hb] Hc] Hl]; split_and!; try done; lia|]. intros (_ & _ & Hb & Hc & Hl). done.
Qed.

(** ** Genuine histories *)

(** What a scheduler that signs has published, oldest first: increasing ids, a
    genesis, and each node committing to the one before it. *)
Record genuine (hist : list chainNode) : Prop := {
  gn_ids : StronglySorted (fun a b => cn_id a < cn_id b) hist;
  gn_positive : Forall (fun n => 0 < cn_id n) hist;
  gn_genesis : forall n, hist !! 0%nat = Some n -> cn_prevID n = 0 /\ cn_prevDigest n = "";
  gn_linked : forall i a b, hist !! i = Some a -> hist !! S i = Some b -> links a b = true }.

(** A ledger whose entries all describe nodes of the history. *)
Record ledger_genuine (hist : list chainNode) (ls : ledgerState) : Prop := {
  lg_conflicts : ls_conflicts ls = ∅;
  lg_unusable : ls_unusable ls = [];
  lg_entries : forall id e, ls_usable ls !! id = Some e -> exists n, n ∈ hist /\ cn_id n = id /\
    le_PublicationID e = id /\ le_ManifestDigest e = cn_digest n /\ le_PrevPublicationID e = cn_prevID n /\
    le_PrevManifestDigest e = cn_prevDigest n }.

Lemma links_spec a b : links a b = true <-> cn_prevID b = cn_id a /\ cn_prevDigest b = cn_digest a.
Proof. unfold links. by rewrite andb_true_iff, Z.eqb_eq, String.eqb_eq. Qed.

Lemma linked_lookup prev l :
  linked_from prev l <-> forall i a b, (prev :: l) !! i = Some a -> (prev :: l) !! S i = Some b -> links a b = true.
Proof.
  revert prev. induction l as [|cur l IH]; intros prev; cbn [linked_from].
  - split; [|done]. by intros _ [|i] a b _ H.
  - rewrite IH. split.
    + intros [H1 H2] [|i] a b Ha Hb; [cbn in Ha, Hb; by simplify_eq|]. by apply (H2 i).
    + intros H. split; [by apply (H 0%nat)|]. intros i a b Ha Hb. by apply (H (S i)).
Qed.

Lemma sorted_lookup (l : list chainNode) i j a b :
  StronglySorted (fun a b => cn_id a < cn_id b) l ->
  l !! i = Some a -> l !! j = Some b -> (i < j)%nat -> cn_id a < cn_id b.
Proof.
  intros Hs. revert i j. induction Hs as [|x l Hs IH Hx]; intros [|i] [|j] Ha Hb Hij; try (done || lia).
  - cbn in Ha, Hb. simplify_eq. rewrite Forall_forall in Hx. apply Hx. by eapply list_elem_of_lookup_2.
  - apply (IH i j); [done|done|lia].
Qed.

Section Genuine.
Context (hist : list chainNode) (Hgen : genuine hist).

Lemma hist_index i j a b : hist !! i = Some a -> hist !! j = Some b -> cn_id a = cn_id b -> i = j.
Proof using Hgen.
  intros Ha Hb E. pose proof (gn_ids _ Hgen) as Hs. destruct (Nat.lt_trichotomy i j) as [H|[H|H]]; [|done|].
  - pose proof (sorted_lookup _ _ _ _ _ Hs Ha Hb H). lia.
  - pose proof (sorted_lookup _ _ _ _ _ Hs Hb Ha H). lia.
Qed.

Lemma hist_positive i a : hist !! i = Some a -> 0 < cn_id a.
Proof using Hgen. intros Ha. pose proof (gn_positive _ Hgen) as Hp. rewrite Forall_lookup in Hp. by eapply Hp. Qed.

(** What commits to a node of the history comes right behind it. *)
Lemma hist_successor i j a b : hist !! i = Some a -> hist !! j = Some b -> links a b = true -> j = S i.
Proof using Hgen.
  intros Ha Hb [Hp Hd]%links_spec. pose proof (hist_positive _ _ Ha). destruct j as [|j].
  - destruct (gn_genesis _ Hgen b Hb). lia.
  - destruct (lookup_lt_is_Some_2 hist j) as [p Hj]; [apply lookup_lt_Some in Hb; lia|].
    destruct (proj1 (links_spec _ _) (gn_linked _ Hgen _ _ _ Hj Hb)) as [E _]. f_equal.
    apply (hist_index j i p a Hj Ha). congruence.
Qed.

(** Linked nodes of the history are a stretch of it. *)
Lemma linked_stretch l first i :
  hist !! i = Some first -> linked_from first l -> (forall n, n ∈ l -> n ∈ hist) ->
  forall k, (k < length (first :: l))%nat -> hist !! (i + k)%nat = (first :: l) !! k.
Proof using Hgen.
  revert first i. induction l as [|cur l IH]; intros first i Hi Hl Hin k Hk.
  - destruct k; [by rewrite Nat.add_0_r|cbn in Hk; lia].
  - destruct Hl as [H1 H2]. destruct k as [|k]; [by rewrite Nat.add_0_r|].
    destruct (proj1 (list_elem_of_lookup _ _) (Hin cur ltac:(left))) as [j Hj].
    pose proof (hist_successor _ _ _ _ Hi Hj H1) as ->.
    replace (i + S k)%nat with (S i + k)%nat by lia. change ((first :: cur :: l) !! S k) with ((cur :: l) !! k).
    apply IH; [done|done| |rewrite !length_cons in *; lia]. intros n Hn. apply Hin. by right.
Qed.

Lemma stretch_split (l : list chainNode) i :
  (forall k, (k < length l)%nat -> hist !! (i + k)%nat = l !! k) ->
  hist = take i hist ++ l ++ drop (i + length l) hist.
Proof.
  intros Hk. rewrite <- (take_drop i hist) at 1. f_equal. rewrite <- (take_drop (length l) (drop i hist)).
  rewrite drop_drop. f_equal. apply list_eq_same_length with (n := length l); try done.
  - rewrite length_take, length_drop. destruct l as [|x l]; [cbn; lia|].
    destruct (lookup_lt_is_Some_2 (x :: l) (length l)) as [y Hy]; [cbn; lia|].
    rewrite <- (Hk (length l)) in Hy by (cbn; lia). apply lookup_lt_Some in Hy. rewrite length_cons. lia.
  - intros k a b Hlt Ha Hb. rewrite lookup_take_lt, lookup_drop, Hk in Ha by done. congruence.
Qed.

(** ** The walk through a genuine ledger *)

Context (ls : ledgerState) (Hls : ledger_genuine hist ls).

(** A commitment to a node of the history, or to none. *)
Definition commitment (id : Z) (dg : string) : Prop :=
  id = 0 \/ exists i n, hist !! i = Some n /\ cn_id n = id /\ cn_digest n = dg.

Lemma node_commitment i n : hist !! i = Some n -> commitment (cn_prevID n) (cn_prevDigest n) /\ cn_prevID n < cn_id n.
Proof using Hgen.
  intros Hn. pose proof (hist_positive _ _ Hn) as Hp. destruct i as [|i].
  - destruct (gn_genesis _ Hgen n Hn) as [-> ->]. split; [by left|done].
  - destruct (lookup_lt_is_Some_2 hist i) as [p Hi]; [apply lookup_lt_Some in Hn; lia|].
    destruct (proj1 (links_spec _ _) (gn_linked _ Hgen _ _ _ Hi Hn)) as [-> ->].
    split; [right; by exists i, p|]. by apply (sorted_lookup hist i (S i)); [apply Hgen|..|lia].
Qed.

Definition above (id : Z) : gset Z := base.filter (fun k => id < k) (dom (ls_usable ls)).

Lemma genuine_walk fuel id oldest used curID curDigest o u d :
  commitment curID curDigest -> (curID = 0 \/ used <= Z.of_nat (size (above curID))) ->
  backtrack_loop fuel ls ∅ id oldest used curID curDigest = Some (o, u, d) -> d = "".
Proof using Hgen Hls.
  revert oldest used curID curDigest. induction fuel as [|fuel IH]; intros oldest used curID curDigest Hc Hu; [done|].
  cbn [backtrack_loop]. destruct (Z.eqb_spec curID 0) as [|Hne]; [by intros [= _ _ <-]|].
  destruct Hc as [|(i & n & Hi & Hid & Hdg)]; [done|]. destruct Hu as [|Hu]; [done|].
  assert (Hsize : (size (above curID) <= size (ls_usable ls))%nat).
  { rewrite <- size_dom. apply subseteq_size. by intros k [_ Hk]%elem_of_filter. }
  destruct (Z.ltb_spec (Z.of_nat (size (ls_usable ls)) + Z.of_nat (size (∅ : gmap Z ledgerProblem)) + 1) used); [lia|].
  destruct (decide _) as [Hcf|_]; [rewrite (lg_conflicts _ _ Hls) in Hcf; by apply elem_of_empty in Hcf|].
  destruct (ls_usable ls !! curID) as [e|] eqn:Ee; [|rewrite lookup_empty; by intros [= _ _ <-]].
  destruct (lg_entries _ _ Hls _ _ Ee) as (n' & [j Hj]%list_elem_of_lookup & Hid' & _ & Hd & Hp & Hpd).
  assert (j = i) as -> by (eapply hist_index; [done..|congruence]). rewrite Hi in Hj. injection Hj as <-.
  rewrite Hd, Hdg. rewrite (proj2 (String.eqb_eq curDigest curDigest) eq_refl), andb_false_r.
  destruct (_ && _); [by intros [= _ _ <-]|]. destruct (node_commitment _ _ Hi) as [Hc' Hlt].
  apply IH; rewrite ?Hp, ?Hpd; [done|]. right.
  assert (Hsub : {[ curID ]} ∪ above curID ⊆ above (cn_prevID n)).
  { unfold above. intros k. rewrite elem_of_union, elem_of_singleton, !elem_of_filter. intros [->|[H1 H2]]; [|split; [lia|done]].
    split; [lia|]. by eapply elem_of_dom_2. }
  apply subseteq_size in Hsub. rewrite size_union, size_singleton in Hsub; [lia|].
  unfold above. intros k ->%elem_of_singleton [H1 _]%elem_of_filter. lia.
Qed.

Lemma genuine_backtrack i n : hist !! i = Some n -> (backtrackLedger ls ∅ (cn_prevID n) (cn_prevDigest n)).2 = "".
Proof using Hgen Hls.
  intros Hi. destruct (backtrackLedger _ _ _ _) as [[o u] d] eqn:E. cbn.
  destruct (backtrackLedger_spec _ _ _ _ _ _ _ E) as ([[[o' u'] d'] Hl] & _). unfold backtrackLedger in E.
  rewrite Hl in E. destruct (_ && _ && _); [by simplify_eq|]. injection E as <- <- <-.
  eapply genuine_walk; [|right|exact Hl]; [by eapply node_commitment|lia].
Qed.

End Genuine.

Lemma genuine_boundary hist ls n i :
  genuine hist -> ledger_genuine hist ls -> hist !! i = Some n -> (i = 0%nat \/ ls_total ls <> 0) -> boundary_fine ls n.
Proof.
  intros Hg Hl Hn Hi. destruct (decide (cn_prevID n = 0)) as [E|E].
  - left. destruct i as [|i]; [by apply (gn_genesis _ Hg)|].
    destruct (lookup_lt_is_Some_2 hist i) as [p Hp]; [apply lookup_lt_Some in Hn; lia|].
    destruct (proj1 (links_spec _ _) (gn_linked _ Hg _ _ _ Hp Hn)) as [E' _].
    pose proof (hist_positive hist Hg _ _ Hp). lia.
  - right. split; [done|]. split.
    + destruct Hi as [->|Ht]; [|done]. by destruct (gn_genesis _ Hg n Hn).
    + rewrite (lg_unusable _ _ Hl). by eapply genuine_backtrack.
Qed.

Lemma genuine_consistent hist ls n :
  genuine hist -> ledger_genuine hist ls -> n ∈ hist -> consistent ls n.
Proof.
  intros Hg Hl [i Hi]%list_elem_of_lookup. split; [rewrite (lg_conflicts _ _ Hl); apply not_elem_of_empty|].
  intros e He. destruct (lg_entries _ _ Hl _ _ He) as (n' & [j Hj]%list_elem_of_lookup & Hid & _ & Hd & _).
  assert (j = i) as -> by (by eapply (hist_index hist Hg)). congruence.
Qed.

(** An ok verdict is the one before, untouched. *)
Lemma hops_ok_same prev l s : verdict (hops prev l s) = chainVerdictOK -> fst (hops prev l s) = fst s.
Proof.
  revert prev s. induction l as [|cur l IH]; intros prev s; [done|]. cbn [hops].
  destruct (links prev cur); [intros H; by rewrite (IH _ _ H)|]. intros H%hops_ok.
  by rewrite verdict_broken_at in H; destruct H.
Qed.

Lemma ledger_checks_ok_same ls l s : verdict (foldl (ledger_check ls) s l) = chainVerdictOK -> foldl (ledger_check ls) s l = s.
Proof.
  revert s. induction l as [|n l IH]; intros s; [done|]. cbn [foldl]. intros H. rewrite (IH _ H).
  apply ledger_checks_ok in H as [H _]. unfold ledger_check in *.
  destruct (decide _); [by rewrite verdict_broken_at in H|]. destruct (ls_usable ls !! cn_id n) as [e|]; [|done].
  destruct (String.eqb _ _); [done|]. by rewrite verdict_broken_at in H.
Qed.

(** The positions of the hops, when every identity is its own. *)
Lemma hops_positions prev l s id :
  linked_from prev l -> NoDup (map cn_identity l) ->
  snd (hops prev l s) !! id =
    if decide (id ∈ map cn_identity l) then Some chainPosPredecessorVerified else snd s !! id.
Proof.
  revert prev s. induction l as [|cur l IH]; intros prev s Hl Hn; cbn [hops map].
  - by rewrite decide_False by apply not_elem_of_nil.
  - destruct Hl as [-> Hl]. cbn in Hn. apply NoDup_cons in Hn as [Hc Hn]. rewrite IH by done. cbn [snd].
    destruct (decide (id ∈ map cn_identity l)) as [Hi|Hi].
    + by rewrite decide_True by (by right).
    + destruct (decide (id = cn_identity cur)) as [->|Hne].
      * by rewrite lookup_insert_eq, decide_True by (by left).
      * rewrite lookup_insert_ne by done. rewrite decide_False; [done|]. by intros [?|?]%elem_of_cons.
Qed.

(** What the boundary has established when it is fine. *)
Lemma boundary_range ls n v :
  cv_VerifiableFromPublicationID v = 0 -> cv_LedgerEntriesUsed v = 0 ->
  verdict (boundary ls (problems_of (ls_unusable ls)) n (v, ∅)) = chainVerdictOK ->
  let v' := fst (boundary ls (problems_of (ls_unusable ls)) n (v, ∅)) in
  snd (boundary ls (problems_of (ls_unusable ls)) n (v, ∅)) = {[ cn_identity n := chainPosRetentionBoundary ]} /\
  cv_AnchorPublicationID v' = cv_AnchorPublicationID v /\ cv_BrokenAt v' = cv_BrokenAt v /\
  exists es, ledger_path ls (cn_prevID n) (cn_prevDigest n) es /\ cv_LedgerEntriesUsed v' = Z.of_nat (length es) /\
    cv_VerifiableFromPublicationID v' = from_option le_PublicationID (cn_id n) (last es).
Proof.
  intros Hv Hu. unfold boundary. destruct (_ && _); [intros _; split_and!; try done; exists []; cbn; rewrite Hu; split_and!; constructor|].
  destruct (cn_prevID n =? 0); [by rewrite verdict_broken_at|]. destruct (ls_total ls =? 0); [by rewrite verdict_broken_at|].
  destruct (backtrackLedger _ _ _ _) as [[from used] detail] eqn:E.
  destruct (backtrackLedger_spec _ _ _ _ _ _ _ E) as (_ & _ & es & Hp & -> & -> & _).
  destruct (negb _); [by rewrite verdict_broken_at|]. intros _.
  destruct (Z.ltb_spec 0 (Z.of_nat (length es))) as [Hlt|Hge]; cbn; rewrite ?Hu; split_and!; try done; exists es; split_and!; try done.
  - destruct es as [|e es _] using rev_ind; [cbn in Hlt; lia|]. by rewrite last_snoc.
  - destruct es; [done|cbn in Hge; lia].
Qed.

(** ** Properties *)

(** C34. Deletion shows (Phase 38/39): over retained manifests of a genuine
    history and a genuine ledger, the verdict is ok exactly when they are a
    contiguous stretch of the history, from its genesis or above a ledger that
    records something; a missing node between two retained ones always breaks
    the chain, an id that was never published never does. *)
Theorem chain_ok_iff_contiguous hist nodes ls :
  genuine hist -> ledger_genuine hist ls -> nodes <> [] -> (forall n, n ∈ nodes -> n ∈ hist) ->
  verdict (verifyChainWithLedger nodes (Z.of_nat (length nodes)) (Some ls)) = chainVerdictOK <->
  exists pre post, hist = pre ++ sort_slice node_less nodes ++ post /\ (pre = [] \/ ls_total ls <> 0).
Proof.
  intros Hg Hl Hne Hin. pose proof (sort_slice_perm node_less nodes) as Hp.
  destruct (sort_slice node_less nodes) as [|first rest] eqn:Es; [by apply Permutation_nil_l in Hp|].
  assert (Hin' : forall n, n ∈ first :: rest -> n ∈ hist) by (intros n; rewrite Hp; apply Hin).
  rewrite (verify_ok _ _ _ _ _ Es). split.
  - intros (_ & _ & Hb & _ & Hlk).
    destruct (proj1 (list_elem_of_lookup _ _) (Hin' first ltac:(left))) as [i Hi].
    pose proof (stretch_split hist (first :: rest) i) as Hs. exists (take i hist), (drop (i + length (first :: rest)) hist).
    split; [apply Hs, (linked_stretch hist Hg); [done|done|]; intros n Hn; apply Hin'; by right|].
    destruct Hb as [[H0 _]|(_ & Ht & _)]; [left|by right].
    destruct i as [|i]; [done|]. destruct (lookup_lt_is_Some_2 hist i) as [p Hpi]; [apply lookup_lt_Some in Hi; lia|].
    destruct (proj1 (links_spec _ _) (gn_linked _ Hg _ _ _ Hpi Hi)) as [E _].
    pose proof (hist_positive hist Hg _ _ Hpi). lia.
  - intros (pre & post & Hh & Hpre).
    assert (Hat : forall k x, (first :: rest) !! k = Some x -> hist !! (length pre + k)%nat = Some x).
    { intros k x Hx. rewrite Hh, lookup_app_r, lookup_app_l; rewrite ?Nat.add_sub_swap, ?Nat.sub_diag by lia; try lia;
        [done|by apply lookup_lt_Some in Hx]. }
    pose proof (Hat 0%nat first eq_refl) as H0. rewrite Nat.add_0_r in H0.
    split; [destruct nodes; [done|cbn; lia]|]. split; [done|]. split; [|split].
    + apply (genuine_boundary hist _ _ (length pre)); [done|done|done|]. destruct Hpre as [->|]; [by left|by right].
    + apply Forall_forall. intros n Hn. apply (genuine_consistent hist); [done|done|by apply Hin'].
    + apply linked_lookup. intros k a b Ha Hb. apply Hat in Ha, Hb. rewrite Nat.add_succ_r in Hb.
      by apply (gn_linked _ Hg (length pre + k)).
Qed.

(** What an ok verdict stands for, whatever the manifests and the ledger
    hold: no chain-bearing manifest is unverified, the retained nodes are linked
    by id and digest and contradicted by no ledger entry; below the oldest one
    there is a chain of usable ledger entries, each committed to by the one
    after it, and [verifiable_from] is its end. Every position says so. *)
Theorem chain_ok_sound nodes chainBearing ls :
  verdict (verifyChainWithLedger nodes chainBearing (Some ls)) = chainVerdictOK ->
  NoDup (map cn_identity nodes) ->
  exists first rest es, let v := fst (verifyChainWithLedger nodes chainBearing (Some ls)) in
    sort_slice node_less nodes = first :: rest /\ chainBearing <= Z.of_nat (length nodes) /\
    linked_from first rest /\ Forall (consistent ls) (first :: rest) /\
    cv_BrokenAt v = [] /\ cv_AnchorPublicationID v = cn_id first /\
    ledger_path ls (cn_prevID first) (cn_prevDigest first) es /\
    cv_LedgerEntriesUsed v = Z.of_nat (length es) /\
    cv_VerifiableFromPublicationID v = from_option le_PublicationID (cn_id first) (last es) /\
    forall n, n ∈ nodes -> snd (verifyChainWithLedger nodes chainBearing (Some ls)) !! cn_identity n =
      Some (if decide (n = first) then chainPosRetentionBoundary else chainPosPredecessorVerified).
Proof.
  intros Hok Hn. pose proof (sort_slice_perm node_less nodes) as Hp.
  destruct (sort_slice node_less nodes) as [|first rest] eqn:Es.
  { unfold verifyChainWithLedger in Hok. rewrite Es in Hok. by destruct (chainBearing =? 0). }
  destruct (proj1 (verify_ok _ _ _ _ _ Es) Hok) as (Hcb & Hle & _ & Hcons & Hlk).
  rewrite <- Hp in Hn. cbn in Hn. apply NoDup_cons in Hn as [Hf Hn].
  unfold verifyChainWithLedger in *. change (default empty_ledger (Some ls)) with ls in *. cbv zeta in *.
  rewrite Es in *. rewrite (proj2 (Z.eqb_neq chainBearing 0)) in * by done.
  set (v0 := MkChainVerdict _ (cn_id first) _ _ _ _ _) in *.
  set (s1 := boundary ls (problems_of (ls_unusable ls)) first (v0, ∅)) in *. pose proof (hops_ok_same _ _ _ Hok) as Hh.
  apply hops_ok in Hok as [Hchk _]. pose proof (ledger_checks_ok_same _ _ _ Hchk) as Hsame.
  rewrite Hsame in *. destruct (boundary_range ls first v0 eq_refl eq_refl Hchk) as (Hpos & Ha & Hb & es & Hpath & Hu & Hfrom).
  fold s1 in Hpos, Ha, Hb, Hu, Hfrom. exists first, rest, es. rewrite Hh. split_and!; try done.
  intros n Hin. rewrite <- Hp in Hin. rewrite hops_positions by done. rewrite Hpos.
  apply elem_of_cons in Hin as [->|Hin].
  - rewrite decide_False by done. rewrite decide_True by done. apply lookup_singleton_eq.
  - assert (Hi : cn_identity n ∈ map cn_identity rest) by (apply list_elem_of_In, in_map; by apply list_elem_of_In).
    rewrite decide_True by done. rewrite decide_False; [done|]. by intros ->.
Qed.

Section PredecessorSpec.
Context `{ManifestCrypto}.

Definition chain_bearing (m : snapshotManifest) : bool :=
  (manifestSchemaVersionV4 <=? m_SchemaVersion m) && (if m_Chain m is Some _ then true else false).

Lemma chain_candidates_spec groups before ms :
  chain_candidates groups before = Ok ms ->
  (forall g, g ∈ groups -> g_manifestFn g <> "" -> exists m, parseSnapshotManifest (g_decoded g) = Ok m /\
     (chain_bearing m = true -> m ∈ ms)) /\
  forall m, m ∈ ms -> chain_bearing m = true /\ m_PublicationID m < before /\
    exists g, g ∈ groups /\ parseSnapshotManifest (g_decoded g) = Ok m.
Proof.
  revert ms. induction groups as [|g groups IH]; intros ms; cbn [chain_candidates].
  { intros [= <-]. split; [by intros g Hg%elem_of_nil|by intros m Hm%elem_of_nil]. }
  assert (Hskip : forall ms' : list snapshotManifest, (forall m, m ∈ ms' -> exists g', g' ∈ groups /\ parseSnapshotManifest (g_decoded g') = Ok m) ->
    forall m, m ∈ ms' -> exists g', g' ∈ g :: groups /\ parseSnapshotManifest (g_decoded g') = Ok m).
  { intros ms' Hms m Hm. destruct (Hms m Hm) as (g' & Hg' & Hr). exists g'. split; [by right|done]. }
  destruct (String.eqb_spec (g_manifestFn g) "") as [Ef|Ef].
  { intros Hms. destruct (IH ms Hms) as [H1 H2]. split; [intros g' [->|Hg']%elem_of_cons; [done|by apply H1]|].
    intros m Hm. destruct (H2 m Hm) as (? & ? & _). split_and!; try done. apply (Hskip ms); [|done]. intros m' Hm'. by apply H2. }
  destruct (parseSnapshotManifest (g_decoded g)) as [m|] eqn:Ep; [|done].
  assert (Hb : (m_SchemaVersion m <? manifestSchemaVersionV4) || (if m_Chain m is None then true else false) =
    negb (chain_bearing m)).
  { unfold chain_bearing. rewrite Z.ltb_antisym. by destruct (_ <=? _), (m_Chain m). }
  rewrite Hb. destruct (chain_bearing m) eqn:Ec; cbn [negb].
  - destruct (Z.leb_spec before (m_PublicationID m)); [done|].
    destruct (chain_candidates groups before) as [ms'|]; [|done]. intros [= <-]. destruct (IH ms' eq_refl) as [H1 H2]. split.
    + intros g' [->|Hg']%elem_of_cons Hfn; [exists m; split; [done|by left]|].
      destruct (H1 g' Hg' Hfn) as (m' & Hp & Hin). exists m'. split; [done|]. right. by apply Hin.
    + intros m' [->|Hm']%elem_of_cons; [split_and!; try done; exists g; split; [by left|done]|].
      destruct (H2 m' Hm') as (? & ? & _). split_and!; try done. apply (Hskip ms'); [|done]. intros m'' Hm''. by apply H2.
  - intros Hms. destruct (IH ms Hms) as [H1 H2]. split.
    + intros g' [->|Hg']%elem_of_cons Hfn; [exists m; split; [done|congruence]|by apply H1].
    + intros m' Hm'. destruct (H2 m' Hm') as (? & ? & _). split_and!; try done. apply (Hskip ms); [|done]. intros m'' Hm''. by apply H2.
Qed.

Lemma newest_spec ms best :
  match foldl newest best ms with
  | None => best = None /\ ms = []
  | Some b => (best = Some b \/ b ∈ ms) /\ (forall m, m ∈ ms -> m_PublicationID m <= m_PublicationID b) /\
      (forall b0, best = Some b0 -> m_PublicationID b0 <= m_PublicationID b)
  end.
Proof.
  revert best. induction ms as [|m ms IH]; intros best; cbn [foldl].
  - destruct best; [|done]. split_and!; [by left|by intros m ?%elem_of_nil|intros b0 [= <-]; lia].
  - specialize (IH (newest best m)). assert (Hm : exists b1, newest best m = Some b1 /\ m_PublicationID m <= m_PublicationID b1 /\
      (best = Some b1 \/ b1 = m) /\ forall b0, best = Some b0 -> m_PublicationID b0 <= m_PublicationID b1).
    { unfold newest. destruct best as [b|]; [destruct (Z.ltb_spec (m_PublicationID b) (m_PublicationID m))|];
        eexists; split_and!; try done; try lia; auto; intros b0 [= <-]; lia. }
    destruct Hm as (b1 & Eb1 & Hle & Hb1 & Hold). rewrite Eb1 in *. destruct (foldl newest (Some b1) ms) as [b|]; [|by destruct IH].
    destruct IH as (Hin & Hmax & Hb). specialize (Hb b1 eq_refl). split_and!.
    + destruct Hin as [[= <-]|Hin]; [destruct Hb1 as [->| ->]; [by left|right; by left]|right; by right].
    + intros m' [->|Hm']%elem_of_cons; [lia|by apply Hmax].
    + intros b0 Hb0. specialize (Hold b0 Hb0). lia.
Qed.

(** The predecessor a publication extends (R198/R200/R201): when there is
    an answer, every manifest file of the directory was readable and every
    chain-bearing one is older than the new id; the answer is the one with the
    greatest publication id, whatever the order of the files, and is signed by a
    trusted key; and there is none only if no manifest bears a chain. *)
Theorem chain_predecessor groups beforeID trust r :
  latestVerifiedChainPredecessor groups beforeID trust = Ok r ->
  (forall g, g ∈ groups -> g_manifestFn g <> "" -> exists m, parseSnapshotManifest (g_decoded g) = Ok m /\
     (chain_bearing m = true -> m_PublicationID m < beforeID /\
        exists best, r = Some best /\ m_PublicationID m <= m_PublicationID best)) /\
  (forall best, r = Some best -> chain_bearing best = true /\ m_PublicationID best < beforeID /\
     sv_Verdict (verifyManifestSignature (Some best) trust) = sigVerdictOK /\
     exists g, g ∈ groups /\ parseSnapshotManifest (g_decoded g) = Ok best).
Proof.
  unfold latestVerifiedChainPredecessor. destruct (chain_candidates groups beforeID) as [ms|] eqn:E; [|done].
  destruct (chain_candidates_spec _ _ _ E) as [H1 H2]. pose proof (newest_spec ms None) as Hn.
  destruct (foldl newest None ms) as [best|].
  - destruct Hn as ([?|Hin] & Hmax & _); [done|].
    destruct (String.eqb_spec (sv_Verdict (verifyManifestSignature (Some best) trust)) sigVerdictOK) as [Hv|]; [|done].
    intros [= <-]. split.
    + intros g Hg Hfn. destruct (H1 g Hg Hfn) as (m & Hp & Hm). exists m. split; [done|]. intros Hb. specialize (Hm Hb).
      split; [by apply H2|]. exists best. split; [done|]. by apply Hmax.
    + intros b [= <-]. destruct (H2 best Hin) as (? & ? & ?). by split_and!.
  - destruct Hn as [_ ->]. intros [= <-]. split; [|done]. intros g Hg Hfn. destruct (H1 g Hg Hfn) as (m & Hp & Hm).
    exists m. split; [done|]. by intros ?%Hm%elem_of_nil.
Qed.
End PredecessorSpec.

(** ** Witnesses *)

Definition sample_node (id prev : Z) (digest prevDigest : string) : chainNode :=
  MkChainNode id digest prev prevDigest ("snapshot-" +:+ pretty id).

(** A replaced manifest loses its broken position: when the ledger records
    another digest for a retained node, the verdict is broken at that node, and
    the hop to it still reports it as [predecessor_verified]. *)
Theorem chain_lost_position :
  let nodes := [sample_node 101 0 "d1" ""; sample_node 102 101 "forged" "d1"] in
  let ls := MkLedgerState {[ 102 := MkLedgerEntry 102 "d2" 101 "d1" "" None ]} [] ∅ 1 in
  let r := verifyChainWithLedger nodes 2 (Some ls) in
  verdict r = chainVerdictBroken /\ cv_BrokenAt (fst r) = [102] /\
  snd r !! "snapshot-102" = Some chainPosPredecessorVerified.
Proof. by vm_compute. Qed.

(** Publications 101, 102, 104, 105: 103 was burnt by a crash. *)
Definition sample_history : list chainNode :=
  [sample_node 101 0 "d1" ""; sample_node 102 101 "d2" "d1"; sample_node 104 102 "d4" "d2"; sample_node 105 104 "d5" "d4"].

Definition ledger_entry_of (n : chainNode) : ledgerEntry :=
  MkLedgerEntry (cn_id n) (cn_digest n) (cn_prevID n) (cn_prevDigest n) "" None.

Definition sample_ledger : ledgerState :=
  MkLedgerState (list_to_map (map (fun n => (cn_id n, ledger_entry_of n)) (take 3 sample_history))) [] ∅ 3.

Lemma sample_genuine : genuine sample_history.
Proof.
  split.
  - repeat (apply SSorted_cons; [|repeat constructor; simpl; lia]). apply SSorted_nil.
  - repeat constructor; simpl; lia.
  - intros n [= <-]. done.
  - intros [|[|[|[|i]]]] a b Ha Hb; cbn in Ha, Hb; simplify_eq; vm_compute; reflexivity.
Qed.

Lemma sample_ledger_genuine : ledger_genuine sample_history sample_ledger.
Proof.
  split; [done|done|]. intros id e He. unfold sample_ledger in He. cbn [ls_usable] in He.
  apply elem_of_list_to_map_2 in He. apply list_elem_of_In, in_map_iff in He as (n & [= <- <-] & Hn).
  exists n. split; [|done]. apply list_elem_of_In in Hn. revert Hn.
  intros [i [Hi _]]%elem_of_take. by eapply list_elem_of_lookup_2.
Qed.

(** The two newest are kept and the ledger has the others; then the middle one
    of three is gone. *)
Lemma chain_ok_iff_contiguous_witness :
  verdict (verifyChainWithLedger (drop 2 sample_history) 2 (Some sample_ledger)) = chainVerdictOK /\
  verdict (verifyChainWithLedger [sample_node 105 104 "d5" "d4"; sample_node 102 101 "d2" "d1"] 2 (Some sample_ledger)) <>
    chainVerdictOK.
Proof.
  split.
  - assert (Hin : forall n, n ∈ drop 2 sample_history -> n ∈ sample_history).
    { intros n Hn. apply list_elem_of_In. apply list_elem_of_In in Hn. right. right. exact Hn. }
    apply (chain_ok_iff_contiguous sample_history (drop 2 sample_history) sample_ledger sample_genuine
      sample_ledger_genuine ltac:(discriminate) Hin).
    exists (take 2 sample_history), []. split; [vm_compute; reflexivity|]. right. discriminate.
  - vm_compute. discriminate.
Defined.

Lemma chain_ok_sound_witness :
  let r := verifyChainWithLedger (drop 2 sample_history) 2 (Some sample_ledger) in
  cv_VerifiableFromPublicationID (fst r) = 101 /\
  exists first rest es, sort_slice node_less (drop 2 sample_history) = first :: rest /\
    ledger_path sample_ledger (cn_prevID first) (cn_prevDigest first) es /\
    cv_VerifiableFromPublicationID (fst r) = from_option le_PublicationID (cn_id first) (last es).
Proof.
  intros r. split; [vm_compute; reflexivity|].
  assert (Hok : verdict (verifyChainWithLedger (drop 2 sample_history) 2 (Some sample_ledger)) = chainVerdictOK)
    by (vm_compute; reflexivity).
  assert (Hn : NoDup (map cn_identity (drop 2 sample_history))).
  { apply NoDup_cons. split; [|apply NoDup_singleton]. intros E%list_elem_of_singleton. vm_compute in E. discriminate E. }
  destruct (chain_ok_sound (drop 2 sample_history) 2 sample_ledger Hok Hn)
    as (first & rest & es & Hs & _ & _ & _ & _ & _ & Hp & _ & Hv & _).
  exists first, rest, es. split; [exact Hs|]. split; [exact Hp|exact Hv].
Defined.

#[local] Existing Instance sample_crypto.

Definition chain_group (id prev : Z) (digest : string) : snapshotGroup :=
  discovered ("s" +:+ pretty id) ("s" +:+ pretty id +:+ ".manifest")
    (Ok (sample_signed (sample_manifest id ("s" +:+ pretty id) (Some (MkManifestChain prev digest))))).

(** The newest file is not the newest publication. *)
Lemma chain_predecessor_witness :
  let groups := [chain_group 101 0 ""; chain_group 104 102 "d"; discovered "x" "" (Err "no manifest"); chain_group 102 101 "c"] in
  exists best, latestVerifiedChainPredecessor groups 106 (Some sample_trust) = Ok (Some best) /\
    m_PublicationID best = 104 /\
    sv_Verdict (verifyManifestSignature (Some best) (Some sample_trust)) = sigVerdictOK.
Proof.
  intros groups. destruct (latestVerifiedChainPredecessor groups 106 (Some sample_trust)) as [[best|]|] eqn:E;
    [|vm_compute in E; discriminate E|vm_compute in E; discriminate E].
  exists best. split; [reflexivity|]. split; [vm_compute in E; injection E as <-; reflexivity|].
  exact (proj1 (proj2 (proj2 (proj2 (chain_predecessor groups 106 (Some sample_trust) _ E) best eq_refl)))).
Defined.
