(* ===== verification/Publish.v ===== *)
(** * Publishing a manifest
      (internal/controlplane/server/history_export_manifest.go,
       history_export_scheduler.go: publishManifest, recordLedgerEntry)

    The publication-id watermark, and the last steps of an export: allocate an
    id, extend and sign the chain, put the manifest in place, record it in the
    ledger. No anchor is configured; the test hooks are nil. The outcome of each
    system call is an input. *)

From Stdlib Require Import Ascii.
From S2P Require Import Prelude GoStrings Manifest AppendLog Ledger Chain.

(** ** The export directory *)

(** The groups discovery would find, the content of the watermark file, and the
    ledger. *)
Record ExportDir : Type := MkExportDir {
  xd_groups : list snapshotGroup;
  xd_state : option string;
  xd_ledger : LogDisk }.

Definition publicationStateFile : string := "publication-seq.state".

(** The outcome of the calls of one publication. A new group takes the place
    its identity gives it. *)
Record PublishIO : Type := MkPublishIO {
  pio_state_read : option error;
  pio_discover : option error;
  pio_state_open : option error;
  pio_state_write : option error;
  pio_state_sync : option error;
  pio_state_close : option error;
  pio_state_rename : option error;
  pio_hash : string -> result error (string * Z);
  pio_tmp_open : option error;
  pio_tmp_write : option error;
  pio_link : option error;
  pio_place : nat;
  pio_ledger_prev : LogIO;
  pio_ledger : LogIO }.

(** ** The watermark *)

(** The first manifest in sight that is ahead of the watermark. *)
Fixpoint manifest_ahead (groups : list snapshotGroup) (last : Z) : option Z :=
  match groups with
  | [] => None
  | g :: groups' =>
      match g_manifest g with
      | None => manifest_ahead groups' last
      | Some m => if last <? m_PublicationID m then Some (m_PublicationID m) else manifest_ahead groups' last
      end
  end.

(** The temporary file that replaces the watermark: the failure of its first
    call that fails; the file is removed then. *)
Definition write_state (io : PublishIO) : option error :=
  match pio_state_open io with
  | Some e => Some ("publication watermark write: " +:+ e)
  | None =>
      match pio_state_write io with
      | Some e => Some ("publication watermark write: " +:+ e)
      | None =>
          match pio_state_sync io with
          | Some e => Some ("publication watermark sync: " +:+ e)
          | None =>
              match pio_state_close io with
              | Some e => Some ("publication watermark close: " +:+ e)
              | None =>
                  match pio_state_rename io with
                  | Some e => Some ("publication watermark commit: " +:+ e)
                  | None => None
                  end
              end
          end
      end
  end.

(** What [allocatePublicationID] reads: the id that comes next, or why there is
    none. *)
Definition next_publication_id (io : PublishIO) (d : ExportDir) : result error Z :=
  match (match pio_state_read io with Some e => Err e | None => from_option Ok (Err "no such file or directory") (xd_state d) end) with
  | Err e =>
      Err ("publication watermark unavailable (" +:+ publicationStateFile +:+ "): " +:+ e +:+
               " — export skipped (fail-closed M7)")
  | Ok raw =>
      match ParseInt (TrimSpace raw) with
      | None => Err ("publication watermark corrupt in " +:+ publicationStateFile +:+ " — export skipped (fail-closed M7)")
      | Some last =>
          if last <? 0 then
            Err ("publication watermark corrupt in " +:+ publicationStateFile +:+ " — export skipped (fail-closed M7)")
          else
            let ahead := match pio_discover io with None => manifest_ahead (xd_groups d) last | Some _ => None end in
            match ahead with
            | Some id =>
                Err ("publication watermark " +:+ pretty last +:+ " behind manifest id " +:+ pretty id +:+
                         " — export skipped (fail-closed M7)")
            | None => Ok (wrap64 (last + 1))
            end
      end
  end.

(** The watermark file as [allocatePublicationID] writes it. *)
Definition state_of (w : Z) : option string := Some (pretty w +:+ String newline "").

Definition allocatePublicationID (io : PublishIO) (d : ExportDir) : ExportDir * result error Z :=
  match next_publication_id io d with
  | Err e => (d, Err e)
  | Ok next =>
      match write_state io with
      | Some e => (d, Err e)
      | None => (MkExportDir (xd_groups d) (state_of next) (xd_ledger d), Ok next)
      end
  end.

(** [ensurePublicationState]: a fresh directory gets watermark 0; whether the
    write succeeds is [written]. *)
Definition ensurePublicationState (discover_err : option error) (written : bool) (d : ExportDir) : ExportDir :=
  match xd_state d with
  | Some _ => d
  | None =>
      match discover_err with
      | Some _ => d
      | None =>
          if existsb (fun g => negb (String.eqb (g_manifestFn g) "")) (xd_groups d) then d
          else if written then MkExportDir (xd_groups d) (Some ("0" +:+ String newline "")) (xd_ledger d) else d
      end
  end.

(** ** Publication *)

Section Publish.
Context `{ManifestCrypto} `{LedgerCodec}.

(** What the scheduler is configured with, and what an export says. *)
Record PublishConfig : Type := MkPublishConfig {
  pc_signer : option exportSigner;
  pc_trust : option exportTrustStore;
  pc_formats : list string;
  pc_ledger_capacity : Z }.

Record ExportInfo : Type := MkExportInfo {
  xi_identity : string;
  xi_file : string -> string;
  xi_exportedAt : string;
  xi_generatedAt : string;
  xi_truncated : bool;
  xi_MinSeq : Z;
  xi_MaxSeq : Z;
  xi_records : Z }.

(** The hashed formats, or the first failure. *)
Fixpoint hash_formats (io : PublishIO) (x : ExportInfo) (formats : list string) : result error (list manifestFormatInfo) :=
  match formats with
  | [] => Ok []
  | f :: formats' =>
      match pio_hash io (xi_file x f) with
      | Err e => Err ("manifest: hash " +:+ f +:+ ": " +:+ e)
      | Ok (sum, size) =>
          match hash_formats io x formats' with
          | Err e => Err e
          | Ok fs => Ok (MkFormatInfo f (xi_file x f) sum size (xi_records x) :: fs)
          end
      end
  end.

(** [recordLedgerEntry], no destruction observer configured. *)
Definition recordLedgerEntry (cfg : PublishConfig) (io : LogIO) (ledger : LogDisk) (m : snapshotManifest) (at_ : string)
  : LogDisk * option error :=
  match pc_signer cfg with
  | None => (ledger, None)
  | Some signer =>
      let v := verifyManifestSignature (Some m) (pc_trust cfg) in
      if negb (String.eqb (sv_Verdict v) sigVerdictOK) then
        (ledger, Some ("ledger: refusing to record publication " +:+ pretty (m_PublicationID m) +:+ " (" +:+ sv_Verdict v +:+ ")"))
      else
        match entryForManifest m at_ with
        | Err e => (ledger, Some e)
        | Ok e =>
            match signLedgerEntry (Some signer) e at_ with
            | Err err => (ledger, Some err)
            | Ok e =>
                let '(states, err) := appendLedgerEntry io ledger (pc_ledger_capacity cfg) e in
                (final ledger states, err)
            end
        end
  end.

(** The chain commitment and the signature: the manifest, or the error. The
    ledger is brought up to date with the predecessor first; its error is kept
    apart. *)
Definition chain_and_sign (cfg : PublishConfig) (io : PublishIO) (d : ExportDir) (m : snapshotManifest) (at_ : string)
  : ExportDir * result error snapshotManifest * option error :=
  match pc_signer cfg with
  | None => (d, Ok m, None)
  | Some signer =>
      match latestVerifiedChainPredecessor (xd_groups d) (m_PublicationID m) (pc_trust cfg) with
      | Err e => (d, Err ("manifest: chain: " +:+ e), None)
      | Ok prev =>
          let with_chain c := MkManifest manifestSchemaVersionV4 (m_PublicationID m) (m_Snapshot m) (m_ExportedAt m)
            (m_GeneratedAt m) (m_Source m) (m_Truncated m) (m_SeqContinuity m) (m_MinSeq m) (m_MaxSeq m) (m_Records m)
            (m_Formats m) (m_Signature m) (Some c) in
          let sign d chain lerr :=
            match signManifest (Some signer) (with_chain chain) at_ with
            | Err e => (d, Err ("manifest: sign: " +:+ e), lerr)
            | Ok m => (d, Ok m, lerr)
            end in
          match prev with
          | None => sign d (MkManifestChain 0 "") None
          | Some prev =>
              let '(ledger, lerr) := recordLedgerEntry cfg (pio_ledger_prev io) (xd_ledger d) prev at_ in
              let d := MkExportDir (xd_groups d) (xd_state d) ledger in
              match manifestDigest (Some prev) with
              | Err e => (d, Err ("manifest: chain digest: " +:+ e), lerr)
              | Ok dg => sign d (MkManifestChain (m_PublicationID prev) dg) lerr
              end
          end
      end
  end.

(** What a publication reports. *)
Record Published : Type := MkPublished {
  pb_manifestErr : string;
  pb_pubStateErr : string;
  pb_ledgerErr : option error }.

Definition insert_at {A} (n : nat) (x : A) (l : list A) : list A := take n l ++ x :: drop n l.

(** The manifest before it is signed. *)
Definition export_manifest (x : ExportInfo) (id : Z) (formats : list manifestFormatInfo) : snapshotManifest :=
  MkManifest manifestSchemaVersion id (xi_identity x) (xi_exportedAt x) (xi_generatedAt x) "durable"
    (xi_truncated x) seqContinuityValue (xi_MinSeq x) (xi_MaxSeq x) (xi_records x) formats None None.

(** [publishManifest] *)
Definition publishManifest (cfg : PublishConfig) (io : PublishIO) (d : ExportDir) (x : ExportInfo) : ExportDir * Published :=
  match hash_formats io x (pc_formats cfg) with
  | Err e => (d, MkPublished e "" None)
  | Ok formats =>
      match allocatePublicationID io d with
      | (d, Err e) => (d, MkPublished "" e None)
      | (d, Ok pubID) =>
          match chain_and_sign cfg io d (export_manifest x pubID formats) (xi_generatedAt x) with
          | (d, Err e, lerr) => (d, MkPublished e "" lerr)
          | (d, Ok m, lerr) =>
              let name := xi_file x "manifest" in
              match pio_tmp_open io with
              | Some e => (d, MkPublished ("manifest: write tmp: " +:+ e) "" lerr)
              | None =>
                  match pio_tmp_write io with
                  | Some e => (d, MkPublished ("manifest: write tmp: " +:+ e) "" lerr)
                  | None =>
                      if existsb (fun g => String.eqb (g_manifestFn g) name) (xd_groups d) then
                        (d, MkPublished ("manifest: link target occupied: " +:+ name) "" lerr)
                      else
                        match pio_link io with
                        | Some e => (d, MkPublished ("manifest: link: " +:+ e) "" lerr)
                        | None =>
                            let g := discovered (xi_identity x) name (Ok m) in
                            let '(ledger, lerr') := recordLedgerEntry cfg (pio_ledger io) (xd_ledger d) m (xi_generatedAt x) in
                            (MkExportDir (insert_at (pio_place io) g (xd_groups d)) (xd_state d) ledger,
                             MkPublished "" "" (match lerr' with Some e => Some e | None => lerr end))
                        end
                  end
              end
          end
      end
  end.

End Publish.

(** ** One publication *)

Lemma allocate_frame io d :
  match allocatePublicationID io d with
  | (d', Ok id) => d' = MkExportDir (xd_groups d) (state_of id) (xd_ledger d)
  | (d', Err _) => d' = d
  end.
Proof. unfold allocatePublicationID. destruct (next_publication_id io d); [|done]. by destruct (write_state io). Qed.

Lemma next_id io d w id : 0 <= w <= max_int64 -> xd_state d = state_of w -> next_publication_id io d = Ok id -> id = wrap64 (w + 1).
Proof.
  intros Hw Hs. unfold next_publication_id. rewrite Hs. destruct (pio_state_read io); [done|].
  cbn [state_of from_option]. rewrite ParseInt_pretty by done. destruct (w <? 0); [done|].
  destruct (match pio_discover io with None => _ | Some _ => _ end); [done|]. by intros [= <-].
Qed.

Lemma allocate_next io d d' w id :
  0 <= w <= max_int64 -> xd_state d = state_of w -> allocatePublicationID io d = (d', Ok id) -> id = wrap64 (w + 1).
Proof.
  intros Hw Hs. unfold allocatePublicationID. destruct (next_publication_id io d) as [next|] eqn:En; [|done]. apply (next_id _ _ w) in En as ->; [|done..].
  destruct (write_state io); [done|]. by intros [= _ <-].
Qed.

Section PublishSpec.
Context `{ManifestCrypto} `{LedgerCodec}.

(** The commitment to a predecessor. *)
Definition digest_of (m : snapshotManifest) : string :=
  match manifestDigest (Some m) with Ok dg => dg | Err _ => "" end.

Definition chain_of (prev : option snapshotManifest) : manifestChain :=
  match prev with None => MkManifestChain 0 "" | Some p => MkManifestChain (m_PublicationID p) (digest_of p) end.

Lemma sign_keeps s m at_ m' :
  signManifest s m at_ = Ok m' ->
  m_PublicationID m' = m_PublicationID m /\ m_SchemaVersion m' = m_SchemaVersion m /\
  m_SeqContinuity m' = m_SeqContinuity m /\ m_Chain m' = m_Chain m.
Proof. unfold signManifest. intros E. by go_cases. Qed.

Lemma chain_and_sign_spec cfg io d m at_ d' r lerr :
  chain_and_sign cfg io d m at_ = (d', r, lerr) ->
  xd_groups d' = xd_groups d /\ xd_state d' = xd_state d /\
  forall m', r = Ok m' -> m_PublicationID m' = m_PublicationID m /\ m_SeqContinuity m' = m_SeqContinuity m /\
    (m' = m \/ m_SchemaVersion m' = manifestSchemaVersionV4 /\
     exists prev, latestVerifiedChainPredecessor (xd_groups d) (m_PublicationID m) (pc_trust cfg) = Ok prev /\
       m_Chain m' = Some (chain_of prev)).
Proof.
  unfold chain_and_sign. destruct (pc_signer cfg) as [signer|].
  2: { intros [= <- <- <-]. split_and!; try done. intros m' [= <-]. split_and!; try done. by left. }
  destruct (latestVerifiedChainPredecessor _ _ _) as [[prev|]|e] eqn:Ep.
  3: { by intros [= <- <- <-]. }
  - destruct (recordLedgerEntry cfg (pio_ledger_prev io) (xd_ledger d) prev at_) as [ledger le]. cbn [manifestDigest canonicalSignaturePayload].
    destruct (signManifest _ _ at_) as [m1|e] eqn:Es; intros [= <- <- <-]; split_and!; try done.
    intros m' [= <-]. destruct (sign_keeps _ _ _ _ Es) as (? & ? & ? & Hc). split_and!; try done. right. split; [done|].
    exists (Some prev). by split.
  - destruct (signManifest _ _ at_) as [m1|e] eqn:Es; intros [= <- <- <-]; split_and!; try done.
    intros m' [= <-]. destruct (sign_keeps _ _ _ _ Es) as (? & ? & ? & Hc). split_and!; try done. right. split; [done|].
    by exists None.
Qed.

(** What one publication can do: nothing; burn an id; or put a manifest in
    place. *)
Inductive publication (cfg : PublishConfig) (io : PublishIO) (d : ExportDir) (x : ExportInfo) (d' : ExportDir) : Prop :=
| pub_skipped : d' = d -> publication cfg io d x d'
| pub_burnt id d1 : allocatePublicationID io d = (d1, Ok id) -> xd_groups d' = xd_groups d -> xd_state d' = xd_state d1 ->
    publication cfg io d x d'
| pub_placed id d1 m : allocatePublicationID io d = (d1, Ok id) -> xd_state d' = xd_state d1 ->
    xd_groups d' = insert_at (pio_place io) (discovered (xi_identity x) (xi_file x "manifest") (Ok m)) (xd_groups d) ->
    m_PublicationID m = id -> m_SeqContinuity m = seqContinuityValue ->
    (m_SchemaVersion m = manifestSchemaVersion /\ m_Chain m = None \/
     m_SchemaVersion m = manifestSchemaVersionV4 /\
     exists prev, latestVerifiedChainPredecessor (xd_groups d) id (pc_trust cfg) = Ok prev /\ m_Chain m = Some (chain_of prev)) ->
    publication cfg io d x d'.

Lemma publish_publication cfg io d x d' pb :
  publishManifest cfg io d x = (d', pb) -> publication cfg io d x d'.
Proof.
  unfold publishManifest. destruct (hash_formats io x (pc_formats cfg)) as [formats|e]; [|intros [= <- _]; by apply pub_skipped].
  pose proof (allocate_frame io d) as Hf. destruct (allocatePublicationID io d) as [d1 [id|e]] eqn:Ea.
  2: { intros [= <- _]. by apply pub_skipped. }
  set (m0 := export_manifest x id formats).
  destruct (chain_and_sign cfg io d1 m0 (xi_generatedAt x)) as [[d2 [m|e]] lerr] eqn:Ec.
  2: { intros [= <- _]. apply chain_and_sign_spec in Ec as (Hg & Hs & _). eapply pub_burnt; [done| |done]. by rewrite Hg, Hf. }
  apply chain_and_sign_spec in Ec as (Hg & Hs & Hm). destruct (Hm m eq_refl) as (Hid & Hseq & Hch).
  assert (Hb : publication cfg io d x d2) by (eapply pub_burnt; [done| |done]; by rewrite Hg, Hf).
  destruct (pio_tmp_open io); [by intros [= <- _]|]. destruct (pio_tmp_write io); [by intros [= <- _]|].
  destruct (existsb _ _); [by intros [= <- _]|]. destruct (pio_link io); [by intros [= <- _]|].
  destruct (recordLedgerEntry _ _ _ m _) as [ledger lerr']. intros [= <- _].
  apply (pub_placed _ _ _ _ _ id d1 m); [done|done| |done|done|].
  - cbn [xd_groups]. by rewrite Hg, Hf.
  - destruct Hch as [->|(Hv & prev & Hp & Hc)]; [by left|right]. split; [done|]. exists prev. split; [|done].
    rewrite Hf in Hp. exact Hp.
Qed.

(** ** Histories of an export directory *)

(** A directory nothing was published in. *)
Definition fresh (d : ExportDir) : Prop :=
  xd_state d = None /\
  Forall (fun g => g_manifestFn g = "" /\ g_manifest g = None /\ is_ok (g_decoded g) = false) (xd_groups d).

Definition has_manifest (m : snapshotManifest) (g : snapshotGroup) : Prop := g_manifestFn g <> "" /\ g_decoded g = Ok m.

(** What happens to it: [ms] are the manifests ever put in place, in order, [n]
    the publications tried. Retention and the ledger's capacity remove what they
    like; where [newest_kept] says so, not the newest chain-bearing manifest. *)
Inductive history (newest_kept : bool) (d0 : ExportDir) : nat -> list snapshotManifest -> ExportDir -> Prop :=
| history_start : history newest_kept d0 0 [] d0
| history_unpublished n ms d cfg io x d' pb :
    history newest_kept d0 n ms d -> publishManifest cfg io d x = (d', pb) -> xd_groups d' = xd_groups d -> history newest_kept d0 (S n) ms d'
| history_published n ms d cfg io x d' pb m :
    history newest_kept d0 n ms d -> xi_file x "manifest" <> "" -> publishManifest cfg io d x = (d', pb) ->
    xd_groups d' = insert_at (pio_place io) (discovered (xi_identity x) (xi_file x "manifest") (Ok m)) (xd_groups d) ->
    history newest_kept d0 (S n) (ms ++ [m]) d'
| history_retained n ms d groups ledger :
    history newest_kept d0 n ms d -> groups `sublist_of` xd_groups d ->
    (newest_kept = true -> forall m, last (base.filter (fun m => chain_bearing m = true) ms) = Some m -> Exists (has_manifest m) groups) ->
    history newest_kept d0 n ms (MkExportDir groups (xd_state d) ledger).

Definition chain_bearers (ms : list snapshotManifest) : list snapshotManifest :=
  base.filter (fun m => chain_bearing m = true) ms.

(** The node the chain verdict makes of a manifest. *)
Definition node_of (m : snapshotManifest) : chainNode :=
  MkChainNode (m_PublicationID m) (digest_of m) (from_option mc_PrevPublicationID 0 (m_Chain m))
    (from_option mc_PrevManifestDigest "" (m_Chain m)) (m_Snapshot m).

Record history_inv (newest_kept : bool) (n : nat) (ms : list snapshotManifest) (d : ExportDir) : Prop := {
  hi_watermark : exists w, 0 <= w <= Z.of_nat n /\ xd_state d = state_of w /\
    Forall (fun m => 0 < m_PublicationID m <= w) ms;
  hi_increasing : StronglySorted Z.lt (map m_PublicationID ms);
  hi_groups : Forall (fun g => g_manifest g = None /\ forall m, g_decoded g = Ok m -> m ∈ ms) (xd_groups d);
  hi_newest : newest_kept = true -> forall m, last (chain_bearers ms) = Some m -> Exists (has_manifest m) (xd_groups d);
  hi_chain : newest_kept = true -> genuine (map node_of (chain_bearers ms)) }.

Lemma sorted_sublist (l k : list Z) : l `sublist_of` k -> StronglySorted Z.lt k -> StronglySorted Z.lt l.
Proof.
  induction 1 as [|x l k Hs IH|x l k Hs IH]; intros Hk; [constructor| |].
  - apply StronglySorted_inv in Hk as [Hk Hx]. constructor; [by apply IH|].
    rewrite Forall_forall in *. intros y Hy. apply Hx. by eapply elem_of_sublist.
  - apply StronglySorted_inv in Hk as [Hk _]. by apply IH.
Qed.

Lemma bearers_snoc ms m : chain_bearers (ms ++ [m]) = chain_bearers ms ++ if chain_bearing m then [m] else [].
Proof. unfold chain_bearers. rewrite filter_app. f_equal. cbn. destruct (chain_bearing m); by case_decide. Qed.

(** The predecessor found is the newest chain-bearing manifest ever published. *)
Lemma predecessor_newest n ms d id trust prev :
  history_inv true n ms d -> latestVerifiedChainPredecessor (xd_groups d) id trust = Ok prev -> prev = last (chain_bearers ms).
Proof.
  intros Hi. unfold latestVerifiedChainPredecessor. destruct (chain_candidates _ _) as [cs|] eqn:Ec; [|done].
  destruct (chain_candidates_spec _ _ _ Ec) as [Hin Hcs]. pose proof (newest_spec cs None) as Hn.
  assert (Hms : forall m, m ∈ cs -> m ∈ chain_bearers ms).
  { intros m Hm. destruct (Hcs m Hm) as (Hb & _ & g & Hg & [Hd _]%parse_decoded). apply list_elem_of_filter.
    split; [done|]. pose proof (hi_groups _ _ _ _ Hi) as Hgs. rewrite Forall_forall in Hgs. by apply (Hgs g Hg). }
  destruct (foldl newest None cs) as [best|].
  - destruct (negb _); [done|]. intros [= <-]. destruct Hn as ([?|Hbest] & Hmax & _); [done|].
    pose proof (Hms _ Hbest) as Hb. pose proof (hi_increasing _ _ _ _ Hi) as Hs.
    apply (sorted_sublist (map m_PublicationID (chain_bearers ms))) in Hs; [|apply fmap_sublist, sublist_filter].
    destruct (last (chain_bearers ms)) as [m|] eqn:El.
    2: { apply last_None in El. by rewrite El in Hb; apply elem_of_nil in Hb. }
    pose proof (hi_newest _ _ _ _ Hi eq_refl m El) as (g & Hg & Hfn & Hd)%Exists_exists.
    destruct (Hin g Hg Hfn) as (m' & Hp & Hm'). apply parse_decoded in Hp as [Hd' _]. rewrite Hd in Hd'. injection Hd' as <-.
    apply last_Some in El as [l' El]. assert (Hcm : chain_bearing m = true).
    { assert (Hm : m ∈ chain_bearers ms) by (rewrite El; apply elem_of_app; right; left). apply list_elem_of_filter in Hm. by destruct Hm. }
    pose proof (Hmax m (Hm' Hcm)). rewrite El in Hb, Hs. rewrite map_app in Hs. apply StronglySorted_snoc in Hs as [_ Hl].
    apply elem_of_app in Hb as [Hb|Hb]; [|by apply list_elem_of_singleton in Hb as ->].
    rewrite Forall_forall in Hl. pose proof (Hl _ (list_elem_of_fmap_2 m_PublicationID _ _ Hb)) as Hlt. cbn in Hlt. lia.
  - destruct Hn as [_ ->]. intros [= <-]. destruct (last (chain_bearers ms)) as [m|] eqn:El; [|done].
    pose proof (hi_newest _ _ _ _ Hi eq_refl m El) as (g & Hg & Hfn & Hd)%Exists_exists.
    destruct (Hin g Hg Hfn) as (m' & Hp & Hm'). apply parse_decoded in Hp as [Hd' _]. rewrite Hd in Hd'. injection Hd' as <-.
    apply last_Some in El as [l' El]. assert (Hm : m ∈ chain_bearers ms) by (rewrite El; apply elem_of_app; right; left).
    apply list_elem_of_filter in Hm as [Hm _]. by apply Hm', elem_of_nil in Hm.
Qed.

Lemma genuine_snoc hist n :
  genuine hist -> 0 < cn_id n -> Forall (fun a => cn_id a < cn_id n) hist ->
  match last hist with None => cn_prevID n = 0 /\ cn_prevDigest n = "" | Some p => links p n = true end ->
  genuine (hist ++ [n]).
Proof.
  intros [Hs Hp Hgen Hl] Hid Hlt Hn. split.
  - clear -Hs Hlt. induction hist as [|a hist IH]; cbn; [by repeat constructor|].
    apply StronglySorted_inv in Hs as [Hs Ha]. apply Forall_cons in Hlt as [Han Hlt].
    constructor; [by apply IH|]. apply Forall_app. split; [done|by constructor].
  - apply Forall_app. split; [done|by constructor].
  - intros a Ha. destruct hist as [|b hist]; [cbn in Ha, Hn; by simplify_eq|]. by apply Hgen.
  - intros i a b Ha Hb. destruct (decide (S i < length hist)%nat).
    + rewrite lookup_app_l in Ha, Hb by lia. by apply (Hl i).
    + pose proof (lookup_lt_Some _ _ _ Hb) as Hlen. rewrite length_app in Hlen. cbn in Hlen.
      assert (S i = length hist) as E by lia. rewrite E, list_lookup_middle in Hb by done. injection Hb as <-.
      rewrite lookup_app_l in Ha by lia. rewrite last_lookup, <- E in Hn. cbn [Nat.pred] in Hn. by rewrite Ha in Hn.
Qed.

Lemma insert_at_elem {A} k (x y : A) l : y ∈ insert_at k x l <-> y = x \/ y ∈ l.
Proof. unfold insert_at. rewrite <- (take_drop k l) at 3. rewrite !elem_of_app, elem_of_cons. tauto. Qed.

Lemma insert_at_grows {A} k (x : A) l : insert_at k x l <> l.
Proof.
  intros E%(f_equal length). unfold insert_at in E. rewrite <- (take_drop k l) in E at 3.
  rewrite !length_app in E. cbn in E. lia.
Qed.

(** A publication that puts nothing in place. *)
Lemma inv_burnt kept n ms d d' w :
  history_inv kept n ms d -> xd_groups d' = xd_groups d -> xd_state d' = state_of w -> w <= Z.of_nat (S n) ->
  (forall w0, xd_state d = state_of w0 -> 0 <= w0 <= Z.of_nat n -> Forall (fun m => 0 < m_PublicationID m <= w0) ms -> w0 <= w) ->
  history_inv kept (S n) ms d'.
Proof.
  intros [(w0 & Hw0 & Hs0 & Hms) Hinc Hg Hn Hc] Eg Es Hw Hle. specialize (Hle w0 Hs0 Hw0 Hms). split; rewrite ?Eg; try done.
  exists w. split; [lia|]. split; [done|]. eapply Forall_impl; [exact Hms|]. intros m Hm. cbn in Hm. lia.
Qed.

Lemma pretty_state w w' : 0 <= w <= max_int64 -> 0 <= w' <= max_int64 -> state_of w = state_of w' -> w = w'.
Proof. intros Hw Hw' [= E]. pose proof (ParseInt_pretty w Hw) as H1. rewrite E, ParseInt_pretty in H1 by done. congruence. Qed.

Lemma watermark_step kept n ms d io d1 id :
  history_inv kept n ms d -> Z.of_nat (S n) <= max_int64 -> allocatePublicationID io d = (d1, Ok id) ->
  xd_state d1 = state_of id /\ 0 < id <= Z.of_nat (S n) /\ Forall (fun m => 0 < m_PublicationID m < id) ms /\
  forall w0, xd_state d = state_of w0 -> 0 <= w0 <= Z.of_nat n -> w0 <= id.
Proof.
  intros [(w & Hw & Hs & Hms) _ _ _ _] Hn Ha. pose proof (allocate_frame io d) as Hf. rewrite Ha in Hf.
  assert (Hm : 0 <= w <= max_int64) by lia. pose proof (allocate_next _ _ _ _ _ Hm Hs Ha) as Hid.
  rewrite wrap64_id in Hid by (unfold in_int64, min_int64; lia). split; [by rewrite Hf|]. split; [lia|]. split.
  - eapply Forall_impl; [exact Hms|]. intros m Hm'. cbn in Hm'. lia.
  - intros w0 Hw0 Hr. rewrite Hs in Hw0. apply pretty_state in Hw0; lia.
Qed.

Lemma inv_placed kept n ms d d' k id d1 io trust m identity fn :
  history_inv kept n ms d -> Z.of_nat (S n) <= max_int64 -> fn <> "" ->
  allocatePublicationID io d = (d1, Ok id) -> xd_state d' = xd_state d1 ->
  xd_groups d' = insert_at k (discovered identity fn (Ok m)) (xd_groups d) ->
  m_PublicationID m = id ->
  (m_SchemaVersion m = manifestSchemaVersion /\ m_Chain m = None \/
   m_SchemaVersion m = manifestSchemaVersionV4 /\
   exists prev, latestVerifiedChainPredecessor (xd_groups d) id trust = Ok prev /\ m_Chain m = Some (chain_of prev)) ->
  history_inv kept (S n) (ms ++ [m]) d'.
Proof.
  intros Hi Hn Hfn Ha Es Eg Hid Hch. destruct (watermark_step _ _ _ _ _ _ _ Hi Hn Ha) as (Es1 & Hidr & Hms & _).
  assert (Hnew : Exists (has_manifest m) (xd_groups d')).
  { rewrite Eg. apply Exists_exists. eexists. split; [apply insert_at_elem; by left|]. by split. }
  split.
  - exists id. split; [lia|]. split; [congruence|]. apply Forall_app. split; [|constructor; [lia|done]].
    eapply Forall_impl; [exact Hms|]. intros m' Hm'. cbn in Hm'. lia.
  - rewrite map_app. apply StronglySorted_snoc. split; [apply Hi|]. apply Forall_map. eapply Forall_impl; [exact Hms|].
    intros m' Hm'. cbn in *. lia.
  - rewrite Eg. apply Forall_forall. intros g [->|Hg]%insert_at_elem.
    + split; [done|]. intros m' [= <-]. apply elem_of_app. right. left.
    + pose proof (hi_groups _ _ _ _ Hi) as Hgs. rewrite Forall_forall in Hgs. destruct (Hgs g Hg) as [? Hd]. split; [done|].
      intros m' Hm'. apply elem_of_app. left. by apply Hd.
  - intros Hkept m'. rewrite bearers_snoc. destruct (chain_bearing m); [rewrite last_snoc; by intros [= <-]|].
    rewrite app_nil_r. intros Hl. pose proof (hi_newest _ _ _ _ Hi Hkept m' Hl) as (g & Hg & Hh)%Exists_exists.
    rewrite Eg. apply Exists_exists. exists g. split; [apply insert_at_elem; by right|done].
  - intros ->. rewrite bearers_snoc. destruct Hch as [[Hv Hc]|(Hv & prev & Hp & Hc)].
    { assert (chain_bearing m = false) as -> by (unfold chain_bearing; by rewrite Hv). rewrite app_nil_r. by apply Hi. }
    assert (chain_bearing m = true) as -> by (unfold chain_bearing; by rewrite Hv, Hc).
    apply (predecessor_newest n ms) in Hp as ->; [|done]. rewrite map_app. cbn [map]. apply genuine_snoc; [by apply Hi|cbn; lia| |].
    + apply Forall_map. apply Forall_forall. intros m' [_ Hm']%list_elem_of_filter. rewrite Forall_forall in Hms.
      specialize (Hms m' Hm'). cbn in *. lia.
    + rewrite fmap_last. unfold node_of. rewrite Hc. destruct (last (chain_bearers ms)) as [p|]; [|done]. by apply links_spec.
Qed.

Lemma history_holds kept d0 n ms d :
  fresh d0 -> history kept (ensurePublicationState None true d0) n ms d -> Z.of_nat n <= max_int64 -> history_inv kept n ms d.
Proof.
  intros [Hst Hg0]. induction 1 as [|n ms d cfg io x d' pb Hh IH Hp Eg|n ms d cfg io x d' pb m Hh IH Hfn Hp Eg|n ms d groups ledger Hh IH Hsub Hk]; intros Hn.
  - unfold ensurePublicationState. rewrite Hst. assert (existsb (fun g => negb (String.eqb (g_manifestFn g) "")) (xd_groups d0) = false) as ->.
    { apply not_true_iff_false. intros (g & Hg & Hb)%existsb_exists. rewrite Forall_forall in Hg0.
      destruct (Hg0 g) as (E & _); [by apply list_elem_of_In|]. by rewrite E in Hb. }
    split; [exists 0; by split_and!|constructor| |done|by repeat constructor].
    eapply Forall_impl; [exact Hg0|]. intros g (_ & ? & Hd). split; [done|]. intros m Hm. by rewrite Hm in Hd.
  - specialize (IH ltac:(lia)). destruct (publish_publication _ _ _ _ _ _ Hp) as [->|id d1 Ha _ Es|id d1 m Ha Es Eg' _ _ _].
    + destruct (hi_watermark _ _ _ _ IH) as (w & Hw & Hs & Hms). apply (inv_burnt kept n ms d d w); [done|done|done|lia|].
      intros w0 Hw0 Hr _. rewrite Hs in Hw0. apply pretty_state in Hw0; lia.
    + destruct (watermark_step _ _ _ _ _ _ _ IH Hn Ha) as (Es1 & Hidr & _ & Hle).
      apply (inv_burnt kept n ms d d' id); [done|done|congruence|lia|]. intros w0 ? ? _. by apply Hle.
    + rewrite Eg' in Eg. by apply insert_at_grows in Eg.
  - specialize (IH ltac:(lia)). destruct (publish_publication _ _ _ _ _ _ Hp) as [->|id d1 _ Eg' _|id d1 m' Ha Es Eg' Hid _ Hch].
    + symmetry in Eg. by apply insert_at_grows in Eg.
    + rewrite Eg' in Eg. symmetry in Eg. by apply insert_at_grows in Eg.
    + assert (m' = m) as ->. { rewrite Eg' in Eg. apply app_inv_head in Eg. by injection Eg. }
      by eapply inv_placed.
  - specialize (IH Hn). destruct IH as [Hw Hinc Hg Hnw Hc]. split; try done.
    cbn [xd_groups]. apply Forall_forall. intros g Hgin. rewrite Forall_forall in Hg. apply Hg. by eapply elem_of_sublist.
Qed.

(** ** Properties *)

(** C33. Publication ids (M7): in a directory that starts without a manifest, whatever
    fails on the way and whatever retention removes, be it the newest manifest or
    all, the manifests ever put in place have strictly increasing ids, all at most
    the number of publications tried; and the next one gets an id above theirs, so
    no id is used twice, not even the one of a manifest that is gone. (In these
    histories the watermark is changed by publications alone.) *)
Theorem publication_ids_never_reused d0 n ms d :
  fresh d0 -> history false (ensurePublicationState None true d0) n ms d -> Z.of_nat n < max_int64 ->
  StronglySorted Z.lt (map m_PublicationID ms) /\
  (forall cfg io x d' pb m, publishManifest cfg io d x = (d', pb) ->
     xd_groups d' = insert_at (pio_place io) (discovered (xi_identity x) (xi_file x "manifest") (Ok m)) (xd_groups d) ->
     Forall (fun m0 => m_PublicationID m0 < m_PublicationID m) ms /\ m_PublicationID m <= Z.of_nat (S n)).
Proof.
  intros Hf Hh Hn. pose proof (history_holds _ _ _ _ _ Hf Hh ltac:(lia)) as Hi. split; [apply Hi|].
  intros cfg io x d' pb m Hp Eg. destruct (publish_publication _ _ _ _ _ _ Hp) as [->|id d1 _ Eg' _|id d1 m' Ha Es Eg' Hid _ _].
  - symmetry in Eg. by apply insert_at_grows in Eg.
  - rewrite Eg' in Eg. symmetry in Eg. by apply insert_at_grows in Eg.
  - assert (m' = m) as ->. { rewrite Eg' in Eg. apply app_inv_head in Eg. by injection Eg. }
    destruct (watermark_step _ _ _ _ _ _ _ Hi ltac:(lia) Ha) as (_ & Hidr & Hms & _). subst id. split; [|lia].
    eapply Forall_impl; [exact Hms|]. intros m' Hm'. cbn in Hm'. lia.
Qed.

(** C31. The publication chain (Phase 38): as long as retention leaves the newest
    chain-bearing manifest in place, the chain-bearing manifests ever put in place,
    in order, are a genuine history: the first is the genesis and each other one
    commits to the id and the digest of the one right before it, failed
    publications and burnt ids in between notwithstanding. Retention can remove the
    newest ([retention_drops_newer] of SnapshotFiles): the next one then commits to
    an older one ([newest_dropped] below). *)
Theorem publication_chain d0 n ms d :
  fresh d0 -> history true (ensurePublicationState None true d0) n ms d -> Z.of_nat n <= max_int64 ->
  genuine (map node_of (chain_bearers ms)).
Proof. intros Hf Hh Hn. by apply (history_holds _ _ _ _ _ Hf Hh Hn). Qed.

(** A lost or unreadable watermark stops publication (M7): whatever else
    goes well, nothing changes and an error is reported, and at a restart the
    watermark is not made anew where a manifest is in sight. *)
Theorem publication_fail_closed cfg io d x d' pb :
  (forall raw w, xd_state d = Some raw -> ParseInt (TrimSpace raw) = Some w -> w < 0) ->
  publishManifest cfg io d x = (d', pb) ->
  d' = d /\ (pb_manifestErr pb <> "" \/ pb_pubStateErr pb <> "") /\
  forall e written, Exists (fun g => g_manifestFn g <> "") (xd_groups d) -> ensurePublicationState e written d = d.
Proof.
  intros Hw. unfold publishManifest.
  assert (Hen : forall e written, Exists (fun g => g_manifestFn g <> "") (xd_groups d) -> ensurePublicationState e written d = d).
  { intros e written (g & Hg & Hfn)%Exists_exists. unfold ensurePublicationState. destruct (xd_state d); [done|]. destruct e; [done|].
    assert (existsb (fun g => negb (String.eqb (g_manifestFn g) "")) (xd_groups d) = true) as ->; [|done].
    apply existsb_exists. exists g. split; [by apply list_elem_of_In|]. by apply negb_true_iff, String.eqb_neq. }
  assert (Hh : match hash_formats io x (pc_formats cfg) with Ok _ => True | Err e => e <> "" end).
  { induction (pc_formats cfg) as [|f fs IH]; [done|]. cbn. destruct (pio_hash io (xi_file x f)) as [[]|]; [|done].
    by destruct (hash_formats io x fs). }
  destruct (hash_formats io x (pc_formats cfg)) as [formats|e]; [|intros [= <- <-]; by split_and!; [|left|]].
  assert (Ha : exists e, allocatePublicationID io d = (d, Err e) /\ e <> "").
  { unfold allocatePublicationID, next_publication_id. destruct (pio_state_read io); [by eexists|]. destruct (xd_state d) as [raw|]; [|by eexists].
    cbn [from_option]. destruct (ParseInt (TrimSpace raw)) as [w|] eqn:Ep; [|by eexists].
    specialize (Hw raw w eq_refl Ep). destruct (Z.ltb_spec w 0); [by eexists|lia]. }
  destruct Ha as (e & -> & He). intros [= <- <-]. by split_and!; [|right|].
Qed.

End PublishSpec.

(** ** A watermark that is behind *)

#[local] Existing Instance sample_crypto.
#[local] Existing Instance sample_codec.

Definition sample_io (place : nat) (link : option error) : PublishIO :=
  MkPublishIO None None None None None None None (fun _ => Ok ("00ff", 120)) None None link place io_ok io_ok.

Definition sample_config (signed : bool) : PublishConfig :=
  MkPublishConfig (if signed then Some sample_signer else None) (Some sample_trust) ["json"] 100.

Definition sample_export (identity : string) : ExportInfo :=
  MkExportInfo identity (fun f => "h-" +:+ identity +:+ "." +:+ f) "t0" "t1" false 1 9 9.

Definition unsigned_group (id : Z) : snapshotGroup :=
  let m := sample_manifest id ("s" +:+ pretty id) None in
  discovered (m_Snapshot m) ("h-" +:+ m_Snapshot m +:+ ".manifest") (Ok m).

(** The check that the watermark dominates the manifests in sight never
    fires: discovery does not load a manifest, and the loop skips a group
    without one. With a watermark that was set back (a restored backup), the id
    of a manifest that is there is given out again. *)
Theorem watermark_check_dead :
  let d := MkExportDir [unsigned_group 7] (state_of 6) empty_log in
  let '(d', pb) := publishManifest (sample_config false) (sample_io 0 None) d (sample_export "s8") in
  pb = MkPublished "" "" None /\
  map (fun g => match g_decoded g with Ok m => m_PublicationID m | Err _ => 0 end) (xd_groups d') = [7; 7].
Proof. by vm_compute. Qed.

(** ** Witnesses *)

Definition manifest_at (d : ExportDir) (k : nat) : snapshotManifest :=
  match xd_groups d !! k with
  | Some g => match g_decoded g with Ok m => m | Err _ => sample_manifest 0 "" None end
  | None => sample_manifest 0 "" None
  end.

(** A first publication, one whose last step fails, one more. *)
Definition dir0 : ExportDir := MkExportDir [] None empty_log.
Definition dir1 : ExportDir := ensurePublicationState None true dir0.
Definition publish2 : ExportDir * Published := publishManifest (sample_config true) (sample_io 0 None) dir1 (sample_export "a").
Definition publish3 : ExportDir * Published :=
  publishManifest (sample_config true) (sample_io 0 (Some "no space left on device")) (fst publish2) (sample_export "b").
Definition publish4 : ExportDir * Published := publishManifest (sample_config true) (sample_io 0 None) (fst publish3) (sample_export "c").
Definition sample_published : list snapshotManifest := [manifest_at (fst publish2) 0; manifest_at (fst publish4) 0].

Lemma dir0_fresh : fresh dir0.
Proof. by split. Qed.

Lemma sample_publications kept : history kept dir1 3 sample_published (fst publish4).
Proof.
  assert (H2 : history kept dir1 1 [manifest_at (fst publish2) 0] (fst publish2)).
  { refine (history_published kept dir1 0 [] dir1 (sample_config true) (sample_io 0 None) (sample_export "a") (fst publish2)
      (snd publish2) _ (history_start kept dir1) _ (surjective_pairing publish2) _); [discriminate|vm_compute; reflexivity]. }
  assert (H3 : history kept dir1 2 [manifest_at (fst publish2) 0] (fst publish3)).
  { refine (history_unpublished kept dir1 1 _ (fst publish2) (sample_config true) (sample_io 0 (Some "no space left on device"))
      (sample_export "b") (fst publish3) (snd publish3) H2 (surjective_pairing publish3) _). vm_compute; reflexivity. }
  refine (history_published kept dir1 2 [manifest_at (fst publish2) 0] (fst publish3) (sample_config true) (sample_io 0 None)
    (sample_export "c") (fst publish4) (snd publish4) (manifest_at (fst publish4) 0) H3 _ (surjective_pairing publish4) _);
    [discriminate|vm_compute; reflexivity].
Qed.

(** The first manifest removed, and one more publication. *)
Definition emptied : ExportDir := MkExportDir [] (xd_state (fst publish2)) (xd_ledger (fst publish2)).
Definition publish5 : ExportDir * Published := publishManifest (sample_config true) (sample_io 0 None) emptied (sample_export "c").
Definition dropped_published : list snapshotManifest := [manifest_at (fst publish2) 0; manifest_at (fst publish5) 0].

Lemma dropped_publications : history false dir1 2 dropped_published (fst publish5).
Proof.
  assert (H1 : history false dir1 1 [manifest_at (fst publish2) 0] (fst publish2)).
  { refine (history_published false dir1 0 [] dir1 (sample_config true) (sample_io 0 None) (sample_export "a") (fst publish2)
      (snd publish2) _ (history_start false dir1) _ (surjective_pairing publish2) _); [discriminate|vm_compute; reflexivity]. }
  assert (H2 : history false dir1 1 [manifest_at (fst publish2) 0] emptied).
  { refine (history_retained false dir1 1 _ (fst publish2) [] _ H1 (sublist_nil_l _) _). intros E; discriminate E. }
  refine (history_published false dir1 1 [manifest_at (fst publish2) 0] emptied (sample_config true) (sample_io 0 None)
    (sample_export "c") (fst publish5) (snd publish5) (manifest_at (fst publish5) 0) H2 _ (surjective_pairing publish5) _);
    [discriminate|vm_compute; reflexivity].
Qed.

(** With the newest manifest removed the next one starts a chain anew, under an
    id of its own. *)
Example newest_dropped :
  map (fun m => (m_PublicationID m, from_option mc_PrevPublicationID (-1) (m_Chain m))) dropped_published = [(1, 0); (2, 0)].
Proof. vm_compute. reflexivity. Qed.

Lemma publication_ids_never_reused_witness :
  StronglySorted Z.lt (map m_PublicationID dropped_published) /\ map m_PublicationID dropped_published = [1; 2].
Proof.
  assert (Hn : Z.of_nat 2 < max_int64) by (vm_compute; reflexivity).
  split; [exact (proj1 (publication_ids_never_reused dir0 2 _ _ dir0_fresh dropped_publications Hn))|vm_compute; reflexivity].
Defined.

Lemma publication_chain_witness :
  genuine (map node_of (chain_bearers sample_published)) /\
  map cn_prevID (map node_of (chain_bearers sample_published)) = [0; 1].
Proof.
  assert (Hn : Z.of_nat 3 <= max_int64) by (vm_compute; discriminate).
  split; [exact (publication_chain dir0 3 _ _ dir0_fresh (sample_publications _) Hn)|vm_compute; reflexivity].
Defined.

Lemma publication_fail_closed_witness :
  let d := MkExportDir [unsigned_group 7] None empty_log in
  let r := publishManifest (sample_config true) (sample_io 0 None) d (sample_export "b") in
  fst r = d /\ (pb_manifestErr (snd r) <> "" \/ pb_pubStateErr (snd r) <> "").
Proof.
  intros d r. assert (Hw : forall raw w, xd_state d = Some raw -> ParseInt (TrimSpace raw) = Some w -> w < 0)
    by (intros raw w E; discriminate E).
  destruct (publication_fail_closed (sample_config true) (sample_io 0 None) d (sample_export "b") (fst r) (snd r) Hw
    (surjective_pairing r)) as (H1 & H2 & _).
  split; [exact H1|exact H2].
Defined.
