(* ===== verification/ControlStore.v ===== *)
(** * The control-plane store in memory
      (internal/storage: models.go, memory.go, audit_query.go)

    One record per sub-store and one definition per method; a method that
    mutates answers the new store. Each method runs under its mutex. Counters
    are atomic int64s, which do not reach their end. *)

From S2P Require Import Prelude.

Definition ErrNotFound : error := "storage: not found".

(** ** Rows (models.go) *)

Record Operation : Type := MkOperation {
  op_ID : Z;
  op_Name : string;
  op_ResourceType : string;
  op_ActionType : string;
  op_Risk : string;
  op_Source : string;
  op_Enabled : bool }.

Record Plugin : Type := MkPlugin {
  pl_ID : string;
  pl_Name : string;
  pl_Version : string;
  pl_Status : string;
  pl_Enabled : bool;
  pl_LoadedAt : Time }.

Record User : Type := MkUser {
  u_ID : Z;
  u_Username : string;
  u_PasswordHash : string;
  u_CreatedAt : Time }.

Record Role : Type := MkRole {
  r_ID : Z;
  r_Name : string;
  r_Description : string }.

Record AuditEvent : Type := MkAuditEvent {
  ev_ID : Z;
  ev_Timestamp : Time;
  ev_Actor : string;
  ev_Operation : string;
  ev_Action : string;
  ev_Target : string;
  ev_Result : string;
  ev_Detail : string;
  ev_CapabilityHash : string;
  ev_ExecutionID : string;
  ev_SnapshotSchemaVersion : Z;
  ev_Revision : Z;
  ev_CorrelationID : string }.

Record Task : Type := MkTask { t_ID : Z; t_Operation : string; t_Status : string; t_CreatedAt : Time }.

Record TaskStep : Type := MkTaskStep {
  ts_ID : Z;
  ts_TaskID : Z;
  ts_StepName : string;
  ts_Command : string;
  ts_Status : string;
  ts_Output : string;
  ts_DurationMs : Z }.

Record CapabilitySnapshot : Type := MkSnapshot {
  sn_ID : Z;
  sn_Hash : string;
  sn_SchemaVersion : Z;
  sn_Payload : string;
  sn_CreatedAt : Time }.

(** ** Operations *)

Record memOperationStore : Type := MkOps {
  os_items : gmap string Operation;
  os_byID : gmap Z Operation;
  os_next : Z }.

Definition with_op_id (op : Operation) (id : Z) : Operation :=
  MkOperation id (op_Name op) (op_ResourceType op) (op_ActionType op) (op_Risk op) (op_Source op) (op_Enabled op).

Definition with_op_enabled (op : Operation) (b : bool) : Operation :=
  MkOperation (op_ID op) (op_Name op) (op_ResourceType op) (op_ActionType op) (op_Risk op) (op_Source op) b.

Definition put_op (s : memOperationStore) (op : Operation) (next : Z) : memOperationStore :=
  MkOps (<[op_Name op := op]> (os_items s)) (<[op_ID op := op]> (os_byID s)) next.

Definition memOperationStore_Save (s : memOperationStore) (op : Operation) : memOperationStore * Operation :=
  match os_items s !! op_Name op with
  | Some existing => let op := with_op_id op (op_ID existing) in (put_op s op (os_next s), op)
  | None => let op := with_op_id op (os_next s + 1) in (put_op s op (os_next s + 1), op)
  end.

Definition memOperationStore_GetByName (s : memOperationStore) (name : string) : result error Operation :=
  match os_items s !! name with Some op => Ok op | None => Err ErrNotFound end.

Definition memOperationStore_GetByID (s : memOperationStore) (id : Z) : result error Operation :=
  match os_byID s !! id with Some op => Ok op | None => Err ErrNotFound end.

(** In the order of the map's iteration. *)
Definition memOperationStore_List (s : memOperationStore) : list Operation := (map_to_list (os_items s)).*2.

Definition memOperationStore_ListEnabled (s : memOperationStore) : list Operation :=
  List.filter op_Enabled (memOperationStore_List s).

Definition memOperationStore_SetEnabled (s : memOperationStore) (name : string) (enabled : bool)
  : memOperationStore * option error :=
  match os_items s !! name with
  | None => (s, Some ErrNotFound)
  | Some op =>
      let op := with_op_enabled op enabled in
      (MkOps (<[name := op]> (os_items s)) (<[op_ID op := op]> (os_byID s)) (os_next s), None)
  end.

Definition memOperationStore_Delete (s : memOperationStore) (name : string) : memOperationStore * option error :=
  match os_items s !! name with
  | None => (s, Some ErrNotFound)
  | Some op => (MkOps (delete name (os_items s)) (delete (op_ID op) (os_byID s)) (os_next s), None)
  end.

(** ** Roles *)

Record memRoleStore : Type := MkRoles {
  rs_items : gmap Z Role;
  rs_ops : gmap Z (list Z);
  rs_next : Z }.

(** The first role of that name in the map's iteration; there is at most one in
    a well-formed store. *)
Definition role_named (s : memRoleStore) (name : string) : option (Z * Role) :=
  find (fun p => String.eqb (r_Name (snd p)) name) (map_to_list (rs_items s)).

Definition with_role_id (r : Role) (id : Z) : Role := MkRole id (r_Name r) (r_Description r).

Definition memRoleStore_Save (s : memRoleStore) (r : Role) : memRoleStore * Role :=
  match role_named s (r_Name r) with
  | Some (id, _) => let r := with_role_id r id in (MkRoles (<[id := r]> (rs_items s)) (rs_ops s) (rs_next s), r)
  | None =>
      let '(r, next) := if r_ID r =? 0 then (with_role_id r (rs_next s + 1), rs_next s + 1) else (r, rs_next s) in
      (MkRoles (<[r_ID r := r]> (rs_items s)) (rs_ops s) next, r)
  end.

Definition memRoleStore_GetByName (s : memRoleStore) (name : string) : result error Role :=
  match role_named s name with Some (_, r) => Ok r | None => Err ErrNotFound end.

Definition memRoleStore_GetByID (s : memRoleStore) (id : Z) : result error Role :=
  match rs_items s !! id with Some r => Ok r | None => Err ErrNotFound end.

Definition memRoleStore_List (s : memRoleStore) : list Role := (map_to_list (rs_items s)).*2.

(** The id lists of a role or a user: no id twice. *)
Definition id_list_add (l : list Z) (id : Z) : list Z := if bool_decide (id ∈ l) then l else l ++ [id].
Definition id_list_remove (l : list Z) (id : Z) : list Z := List.filter (fun x => negb (x =? id)) l.

Definition memRoleStore_AddOperation (s : memRoleStore) (roleID opID : Z) : memRoleStore :=
  MkRoles (rs_items s) (<[roleID := id_list_add (default [] (rs_ops s !! roleID)) opID]> (rs_ops s)) (rs_next s).

Definition memRoleStore_RemoveOperation (s : memRoleStore) (roleID opID : Z) : memRoleStore :=
  MkRoles (rs_items s) (<[roleID := id_list_remove (default [] (rs_ops s !! roleID)) opID]> (rs_ops s)) (rs_next s).

Definition memRoleStore_Operations (s : memRoleStore) (ops : memOperationStore) (roleID : Z) : list Operation :=
  omap (fun id => os_byID ops !! id) (default [] (rs_ops s !! roleID)).

(** ** Users *)

Record memUserStore : Type := MkUsers {
  us_byName : gmap string User;
  us_byID : gmap Z User;
  us_roles : gmap Z (list Z);
  us_next : Z }.

Definition with_user_id (u : User) (id : Z) : User := MkUser id (u_Username u) (u_PasswordHash u) (u_CreatedAt u).

Definition memUserStore_Save (s : memUserStore) (u : User) : memUserStore * User :=
  match us_byName s !! u_Username u with
  | Some existing =>
      let u := with_user_id u (u_ID existing) in
      (MkUsers (<[u_Username u := u]> (us_byName s)) (<[u_ID u := u]> (us_byID s)) (us_roles s) (us_next s), u)
  | None =>
      let u := with_user_id u (us_next s + 1) in
      (MkUsers (<[u_Username u := u]> (us_byName s)) (<[u_ID u := u]> (us_byID s)) (us_roles s) (us_next s + 1), u)
  end.

Definition memUserStore_GetByUsername (s : memUserStore) (username : string) : result error User :=
  match us_byName s !! username with Some u => Ok u | None => Err ErrNotFound end.

Definition memUserStore_GetByID (s : memUserStore) (id : Z) : result error User :=
  match us_byID s !! id with Some u => Ok u | None => Err ErrNotFound end.

Definition memUserStore_List (s : memUserStore) : list User := (map_to_list (us_byName s)).*2.

Definition memUserStore_AddRole (s : memUserStore) (userID roleID : Z) : memUserStore :=
  MkUsers (us_byName s) (us_byID s) (<[userID := id_list_add (default [] (us_roles s !! userID)) roleID]> (us_roles s)) (us_next s).

Definition memUserStore_RemoveRole (s : memUserStore) (userID roleID : Z) : memUserStore :=
  MkUsers (us_byName s) (us_byID s) (<[userID := id_list_remove (default [] (us_roles s !! userID)) roleID]> (us_roles s)) (us_next s).

Definition memUserStore_Roles (s : memUserStore) (roles : memRoleStore) (userID : Z) : list Role :=
  omap (fun id => rs_items roles !! id) (default [] (us_roles s !! userID)).

(** ** The audit log (memory.go, audit_query.go) *)

Record memAuditStore : Type := MkAudit { au_items : list AuditEvent; au_next : Z }.

Definition with_event_id (e : AuditEvent) (id : Z) : AuditEvent :=
  MkAuditEvent id (ev_Timestamp e) (ev_Actor e) (ev_Operation e) (ev_Action e) (ev_Target e) (ev_Result e)
    (ev_Detail e) (ev_CapabilityHash e) (ev_ExecutionID e) (ev_SnapshotSchemaVersion e) (ev_Revision e)
    (ev_CorrelationID e).

Definition memAuditStore_Append (s : memAuditStore) (e : AuditEvent) : memAuditStore * AuditEvent :=
  let e := with_event_id e (au_next s + 1) in (MkAudit (au_items s ++ [e]) (au_next s + 1), e).

(** The walk from the newest event that stops once [limit] are found, which is
    checked after an event is taken. *)
Fixpoint newest_while (keep : AuditEvent -> bool) (limit : Z) (out : list AuditEvent) (l : list AuditEvent) : list AuditEvent :=
  match l with
  | [] => out
  | e :: l' =>
      if negb (keep e) then newest_while keep limit out l'
      else let out := out ++ [e] in
        if limit <=? Z.of_nat (length out) then out else newest_while keep limit out l'
  end.

(** [None]: a negative capacity panics. *)
Definition memAuditStore_slice (s : memAuditStore) (limit : Z) (onlyOp : string) : option (list AuditEvent) :=
  if limit <? 0 then None
  else Some (newest_while (fun e => String.eqb onlyOp "" || String.eqb (ev_Operation e) onlyOp) limit [] (rev (au_items s))).

Definition memAuditStore_List (s : memAuditStore) (limit : Z) : option (list AuditEvent) := memAuditStore_slice s limit "".

Definition memAuditStore_ListByOperation (s : memAuditStore) (op : string) (limit : Z) : option (list AuditEvent) :=
  memAuditStore_slice s limit op.

Definition memAuditStore_ListByCorrelation (s : memAuditStore) (correlationID : string) (limit : Z) : option (list AuditEvent) :=
  if limit <? 0 then None
  else Some (newest_while (fun e => String.eqb (ev_CorrelationID e) correlationID) limit [] (rev (au_items s))).

Record AuditQuery : Type := MkAuditQuery {
  aq_Target : string;
  aq_Result : string;
  aq_Action : string;
  aq_CorrelationID : string;
  aq_Limit : Z;
  aq_After : Z }.

Record AuditPage : Type := MkAuditPage { ap_Events : list AuditEvent; ap_Limit : Z; ap_Truncated : bool }.

Definition DefaultAuditQueryLimit : Z := 100.
Definition MaxAuditQueryLimit : Z := 1000.

Definition EffectiveAuditLimit (requested : Z) : Z :=
  if requested <=? 0 then DefaultAuditQueryLimit
  else if MaxAuditQueryLimit <? requested then MaxAuditQueryLimit
  else requested.

Definition AuditQuery_Matches (q : AuditQuery) (e : AuditEvent) : bool :=
  if negb (String.eqb (aq_Target q) "") && negb (String.eqb (ev_Target e) (aq_Target q)) then false
  else if negb (String.eqb (aq_Result q) "") && negb (String.eqb (ev_Result e) (aq_Result q)) then false
  else if negb (String.eqb (aq_Action q) "") && negb (String.eqb (ev_Action e) (aq_Action q)) then false
  else if negb (String.eqb (aq_CorrelationID q) "") && negb (String.eqb (ev_CorrelationID e) (aq_CorrelationID q)) then false
  else true.

(** The walk of [Query]: the events taken, and whether one more matches. *)
Fixpoint query_walk (q : AuditQuery) (limit : Z) (out : list AuditEvent) (l : list AuditEvent) : list AuditEvent * bool :=
  match l with
  | [] => (out, false)
  | e :: l' =>
      if negb (aq_After q =? 0) && (aq_After q <=? ev_ID e) then query_walk q limit out l'
      else if negb (AuditQuery_Matches q e) then query_walk q limit out l'
      else if Z.of_nat (length out) =? limit then (out, true)
      else query_walk q limit (out ++ [e]) l'
  end.

Definition memAuditStore_Query (s : memAuditStore) (q : AuditQuery) : AuditPage :=
  let limit := EffectiveAuditLimit (aq_Limit q) in
  let '(out, truncated) := query_walk q limit [] (rev (au_items s)) in
  MkAuditPage out limit truncated.

(** ** Settings *)

Record memConfigStore : Type := MkConfig { cs_items : gmap string string }.

Definition memConfigStore_Get (s : memConfigStore) (key : string) : option string := cs_items s !! key.
Definition memConfigStore_Set (s : memConfigStore) (key value : string) : memConfigStore := MkConfig (<[key := value]> (cs_items s)).
Definition memConfigStore_List (s : memConfigStore) : list (string * string) := map_to_list (cs_items s).

(** ** Tasks *)

Record memTaskStore : Type := MkTasks {
  tk_tasks : gmap Z Task;
  tk_steps : gmap Z (list TaskStep);
  tk_next : Z;
  tk_stepID : Z }.

Definition memTaskStore_Save (s : memTaskStore) (t : Task) : memTaskStore * Task :=
  let '(t, next) := if t_ID t =? 0 then (MkTask (tk_next s + 1) (t_Operation t) (t_Status t) (t_CreatedAt t), tk_next s + 1)
    else (t, tk_next s) in
  (MkTasks (<[t_ID t := t]> (tk_tasks s)) (tk_steps s) next (tk_stepID s), t).

Definition memTaskStore_GetByID (s : memTaskStore) (id : Z) : result error Task :=
  match tk_tasks s !! id with Some t => Ok t | None => Err ErrNotFound end.

Definition memTaskStore_AppendStep (s : memTaskStore) (step : TaskStep) : memTaskStore * TaskStep :=
  let step := MkTaskStep (tk_stepID s + 1) (ts_TaskID step) (ts_StepName step) (ts_Command step) (ts_Status step)
    (ts_Output step) (ts_DurationMs step) in
  (MkTasks (tk_tasks s) (<[ts_TaskID step := default [] (tk_steps s !! ts_TaskID step) ++ [step]]> (tk_steps s))
     (tk_next s) (tk_stepID s + 1), step).

Fixpoint update_step (l : list TaskStep) (id : Z) (status output : string) (durationMs : Z) : list TaskStep :=
  match l with
  | [] => []
  | st :: l' =>
      if ts_ID st =? id
      then MkTaskStep (ts_ID st) (ts_TaskID st) (ts_StepName st) (ts_Command st) status output durationMs :: l'
      else st :: update_step l' id status output durationMs
  end.

Definition memTaskStore_UpdateStep (s : memTaskStore) (id : Z) (status output : string) (durationMs : Z)
  : memTaskStore * option error :=
  match find (fun p => existsb (fun st => ts_ID st =? id) (snd p)) (map_to_list (tk_steps s)) with
  | Some (task, steps) =>
      (MkTasks (tk_tasks s) (<[task := update_step steps id status output durationMs]> (tk_steps s)) (tk_next s) (tk_stepID s), None)
  | None => (s, Some ErrNotFound)
  end.

Definition memTaskStore_Steps (s : memTaskStore) (taskID : Z) : list TaskStep := default [] (tk_steps s !! taskID).

(** ** Capability snapshots, by content hash *)

Record memSnapshotStore : Type := MkSnaps {
  ss_byID : gmap Z CapabilitySnapshot;
  ss_byHash : gmap string Z;
  ss_next : Z }.

Definition memSnapshotStore_Put (s : memSnapshotStore) (hash payload : string) (schemaVersion : Z) (now : Time)
  : memSnapshotStore * Z :=
  match ss_byHash s !! hash with
  | Some id => (s, id)
  | None =>
      let id := ss_next s + 1 in
      (MkSnaps (<[id := MkSnapshot id hash schemaVersion payload now]> (ss_byID s)) (<[hash := id]> (ss_byHash s)) id, id)
  end.

(** A Go map answers the zero value for a missing key: an empty payload. *)
Definition memSnapshotStore_GetByHash (s : memSnapshotStore) (hash : string) : result error string :=
  match ss_byHash s !! hash with
  | None => Err ErrNotFound
  | Some id => Ok (from_option sn_Payload "" (ss_byID s !! id))
  end.

Definition memSnapshotStore_GetByID (s : memSnapshotStore) (id : Z) : result error string :=
  match ss_byID s !! id with Some sn => Ok (sn_Payload sn) | None => Err ErrNotFound end.

Definition memSnapshotStore_IDForHash (s : memSnapshotStore) (hash : string) : result error Z :=
  match ss_byHash s !! hash with Some id => Ok id | None => Err ErrNotFound end.

(** ** Plugins *)

Record memPluginStore : Type := MkPlugins { ps_items : gmap string Plugin }.

Definition memPluginStore_Upsert (s : memPluginStore) (p : Plugin) : memPluginStore := MkPlugins (<[pl_ID p := p]> (ps_items s)).

Definition memPluginStore_Get (s : memPluginStore) (id : string) : result error Plugin :=
  match ps_items s !! id with Some p => Ok p | None => Err ErrNotFound end.

Definition memPluginStore_List (s : memPluginStore) : list Plugin := (map_to_list (ps_items s)).*2.

Definition memPluginStore_SetEnabled (s : memPluginStore) (id : string) (enabled : bool) : memPluginStore * option error :=
  match ps_items s !! id with
  | None => (s, Some ErrNotFound)
  | Some p => (MkPlugins (<[id := MkPlugin (pl_ID p) (pl_Name p) (pl_Version p) (pl_Status p) enabled (pl_LoadedAt p)]> (ps_items s)), None)
  end.

Definition memPluginStore_SetStatus (s : memPluginStore) (id status : string) : memPluginStore * option error :=
  match ps_items s !! id with
  | None => (s, Some ErrNotFound)
  | Some p => (MkPlugins (<[id := MkPlugin (pl_ID p) (pl_Name p) (pl_Version p) status (pl_Enabled p) (pl_LoadedAt p)]> (ps_items s)), None)
  end.

(** ** The store *)

Record MemoryStorage : Type := MkStorage {
  st_op : memOperationStore;
  st_user : memUserStore;
  st_role : memRoleStore;
  st_audit : memAuditStore;
  st_cfg : memConfigStore;
  st_task : memTaskStore;
  st_snap : memSnapshotStore;
  st_plugin : memPluginStore }.

Definition NewMemoryStorage : MemoryStorage :=
  MkStorage (MkOps ∅ ∅ 0) (MkUsers ∅ ∅ ∅ 0) (MkRoles ∅ ∅ 0) (MkAudit [] 0) (MkConfig ∅) (MkTasks ∅ ∅ 0 0)
    (MkSnaps ∅ ∅ 0) (MkPlugins ∅).

(** ** Well-formed stores *)

(** Rows under their name and under their id, ids from a counter. *)
Section Indexed.
Context {A : Type} (name : A -> string) (id : A -> Z).

Record indexed (byName : gmap string A) (byID : gmap Z A) (next : Z) : Prop := {
  ix_name : forall n a, byName !! n = Some a -> name a = n /\ byID !! id a = Some a /\ 0 < id a <= next;
  ix_id : forall i a, byID !! i = Some a -> id a = i /\ byName !! name a = Some a;
  ix_next : 0 <= next }.

Lemma indexed_empty : indexed ∅ ∅ 0.
Proof. split; [intros ? ? H|intros ? ? H|lia]; by rewrite lookup_empty in H. Qed.

(** A row saved under the id its name has, or under a new one. *)
Lemma indexed_put byName byID next next' a :
  indexed byName byID next -> next <= next' -> 0 < id a <= next' ->
  (forall old, byName !! name a = Some old -> id old = id a) ->
  (forall old, byID !! id a = Some old -> name old = name a) ->
  indexed (<[name a := a]> byName) (<[id a := a]> byID) next'.
Proof.
  intros [Hn Hi H0] Hle Hid Hname Hold. split; [| |lia].
  - intros n o. rewrite lookup_insert_Some. intros [[<- <-]|[Hne Ho]].
    + rewrite lookup_insert_eq. done.
    + destruct (Hn n o Ho) as (Hon & Hoi & ?). split; [done|]. split; [|lia]. rewrite lookup_insert_ne; [done|].
      intros E. rewrite <- E in Hoi. pose proof (Hold o Hoi). congruence.
  - intros i o. rewrite lookup_insert_Some. intros [[<- <-]|[Hne Ho]].
    + by rewrite lookup_insert_eq.
    + destruct (Hi i o Ho) as [<- Hon]. split; [done|]. rewrite lookup_insert_ne; [done|].
      intros E. rewrite <- E in Hon. pose proof (Hname o Hon). congruence.
Qed.

Lemma indexed_update byName byID next old a :
  indexed byName byID next -> byName !! name a = Some old -> id old = id a ->
  indexed (<[name a := a]> byName) (<[id a := a]> byID) next.
Proof.
  intros Hw Ho E. destruct (ix_name _ _ _ Hw _ _ Ho) as (He & Hb & Hid).
  apply (indexed_put _ _ next); [done|lia|lia| |]; congruence.
Qed.

Lemma indexed_new byName byID next a :
  indexed byName byID next -> byName !! name a = None -> id a = next + 1 ->
  indexed (<[name a := a]> byName) (<[id a := a]> byID) (next + 1).
Proof.
  intros Hw Ho E. pose proof (ix_next _ _ _ Hw). apply (indexed_put _ _ next); [done|lia|lia|congruence|].
  intros old Hold. destruct (ix_id _ _ _ Hw _ _ Hold) as [Hi Hn]. destruct (ix_name _ _ _ Hw _ _ Hn) as (_ & _ & ?). lia.
Qed.

Lemma indexed_delete byName byID next a :
  indexed byName byID next -> byName !! name a = Some a -> indexed (delete (name a) byName) (delete (id a) byID) next.
Proof.
  intros Hw E. destruct (ix_name _ _ _ Hw _ _ E) as (_ & Hb & Hid). split; [| |apply Hw].
  - intros n o [Hne Ho]%lookup_delete_Some. destruct (ix_name _ _ _ Hw _ _ Ho) as (<- & Hoi & ?). split; [done|]. split; [|done].
    apply lookup_delete_Some. split; [congruence|done].
  - intros i o [Hne Ho]%lookup_delete_Some. destruct (ix_id _ _ _ Hw _ _ Ho) as [<- Hon]. split; [done|].
    apply lookup_delete_Some. split; [congruence|done].
Qed.
End Indexed.

Definition ops_wf (s : memOperationStore) : Prop := indexed op_Name op_ID (os_items s) (os_byID s) (os_next s).

Record users_wf (s : memUserStore) : Prop := {
  uw_index : indexed u_Username u_ID (us_byName s) (us_byID s) (us_next s);
  uw_roles : forall i l, us_roles s !! i = Some l -> NoDup l }.

Record roles_wf (s : memRoleStore) : Prop := {
  rw_id : forall i r, rs_items s !! i = Some r -> r_ID r = i /\ 0 < i <= rs_next s;
  rw_name : forall i j r q, rs_items s !! i = Some r -> rs_items s !! j = Some q -> r_Name r = r_Name q -> i = j;
  rw_ops : forall i l, rs_ops s !! i = Some l -> NoDup l;
  rw_next : 0 <= rs_next s }.

Record audit_wf (s : memAuditStore) : Prop := {
  aw_ids : map ev_ID (au_items s) = seqZ 1 (au_next s);
  aw_next : 0 <= au_next s }.

Record tasks_wf (s : memTaskStore) : Prop := {
  tw_steps : forall t l, tk_steps s !! t = Some l ->
    Forall (fun st => ts_TaskID st = t /\ ts_ID st <= tk_stepID s) l /\ NoDup (map ts_ID l);
  tw_unique : forall t t' l l' st st', tk_steps s !! t = Some l -> tk_steps s !! t' = Some l' ->
    st ∈ l -> st' ∈ l' -> ts_ID st = ts_ID st' -> t = t' }.

Record snaps_wf (s : memSnapshotStore) : Prop := {
  sw_hash : forall h i, ss_byHash s !! h = Some i -> exists sn, ss_byID s !! i = Some sn /\ sn_Hash sn = h /\ i <= ss_next s;
  sw_id : forall i sn, ss_byID s !! i = Some sn -> ss_byHash s !! sn_Hash sn = Some i /\ i <= ss_next s }.

Record storage_wf (s : MemoryStorage) : Prop := {
  wf_op : ops_wf (st_op s);
  wf_user : users_wf (st_user s);
  wf_role : roles_wf (st_role s);
  wf_audit : audit_wf (st_audit s);
  wf_task : tasks_wf (st_task s);
  wf_snap : snaps_wf (st_snap s);
  wf_plugin : forall id p, ps_items (st_plugin s) !! id = Some p -> pl_ID p = id }.

Lemma Save_wf s op : ops_wf s -> ops_wf (fst (memOperationStore_Save s op)).
Proof.
  intros Hw. unfold memOperationStore_Save. destruct (os_items s !! op_Name op) as [e|] eqn:E; cbn [fst].
  - by apply (indexed_update op_Name op_ID _ _ _ e (with_op_id op (op_ID e))).
  - by apply (indexed_new op_Name op_ID _ _ _ (with_op_id op (os_next s + 1))).
Qed.

Lemma SetEnabled_wf s name b : ops_wf s -> ops_wf (fst (memOperationStore_SetEnabled s name b)).
Proof.
  intros Hw. unfold memOperationStore_SetEnabled. destruct (os_items s !! name) as [op|] eqn:E; [|done]. cbn [fst].
  destruct (ix_name _ _ _ _ _ Hw _ _ E) as (<- & _). by apply (indexed_update op_Name op_ID _ _ _ op (with_op_enabled op b)).
Qed.

Lemma Delete_wf s name : ops_wf s -> ops_wf (fst (memOperationStore_Delete s name)).
Proof.
  intros Hw. unfold memOperationStore_Delete. destruct (os_items s !! name) as [op|] eqn:E; [|done]. cbn [fst].
  destruct (ix_name _ _ _ _ _ Hw _ _ E) as (<- & _). by apply (indexed_delete op_Name op_ID).
Qed.

Lemma id_list_add_NoDup l id : NoDup l -> NoDup (id_list_add l id).
Proof.
  intros Hl. unfold id_list_add. case_bool_decide as Hd; [done|]. apply NoDup_app. split; [done|].
  split; [|apply NoDup_singleton]. intros x Hx ->%list_elem_of_singleton. done.
Qed.

Lemma id_list_remove_elem l id x : x ∈ id_list_remove l id <-> x ∈ l /\ x <> id.
Proof.
  unfold id_list_remove. rewrite !list_elem_of_In, filter_In, negb_true_iff, Z.eqb_neq. done.
Qed.

Lemma id_list_remove_NoDup l id : NoDup l -> NoDup (id_list_remove l id).
Proof. intros Hl. apply NoDup_ListNoDup, List.NoDup_filter. by apply NoDup_ListNoDup. Qed.

Lemma default_NoDup (m : gmap Z (list Z)) i : (forall i l, m !! i = Some l -> NoDup l) -> NoDup (default [] (m !! i)).
Proof. intros Hm. destruct (m !! i) eqn:E; [by eapply Hm|constructor]. Qed.

Lemma role_named_Some s name i r : role_named s name = Some (i, r) -> rs_items s !! i = Some r /\ r_Name r = name.
Proof.
  intros [Hin Hn]%find_some. split; [|by apply String.eqb_eq in Hn].
  apply list_elem_of_In, elem_of_map_to_list in Hin. done.
Qed.

Lemma role_named_None s name i r : role_named s name = None -> rs_items s !! i = Some r -> r_Name r <> name.
Proof.
  intros Hn Hi E. assert (Hin : In (i, r) (map_to_list (rs_items s))) by (by apply list_elem_of_In, elem_of_map_to_list).
  pose proof (find_none _ _ Hn _ Hin) as Hf. cbn in Hf. by apply String.eqb_neq in Hf.
Qed.

Lemma Role_Save_wf s r : roles_wf s -> r_ID r = 0 -> roles_wf (fst (memRoleStore_Save s r)).
Proof.
  intros Hw H0. pose proof (rw_next _ Hw) as Hn. unfold memRoleStore_Save.
  destruct (role_named s (r_Name r)) as [[i q]|] eqn:E.
  - apply role_named_Some in E as [Hq Hqn]. cbn [fst]. split; cbn; [| |apply Hw|done].
    + intros j x. rewrite lookup_insert_Some. intros [[<- <-]|[Hne Hx]]; [|by apply Hw].
      split; [done|]. by eapply (rw_id _ Hw).
    + intros j k x y. rewrite !lookup_insert_Some.
      intros [[<- <-]|[Hj Hx]] [[<- <-]|[Hk Hy]] Exy; cbn in Exy; try done.
      * symmetry. eapply (rw_name _ Hw); [exact Hy|exact Hq|congruence].
      * eapply (rw_name _ Hw); [exact Hx|exact Hq|congruence].
      * by eapply (rw_name _ Hw).
  - rewrite H0. cbn [Z.eqb fst]. split; cbn; [| |apply Hw|lia].
    + intros j x. rewrite lookup_insert_Some. intros [[<- <-]|[Hne Hx]]; [cbn; lia|].
      destruct (rw_id _ Hw _ _ Hx). lia.
    + intros j k x y. rewrite !lookup_insert_Some.
      intros [[<- <-]|[Hj Hx]] [[<- <-]|[Hk Hy]] Exy; cbn in Exy; try done.
      * exfalso. by apply (role_named_None _ _ _ _ E Hy).
      * exfalso. by apply (role_named_None _ _ _ _ E Hx).
      * by eapply (rw_name _ Hw).
Qed.

Lemma Role_AddOperation_wf s i o : roles_wf s -> roles_wf (memRoleStore_AddOperation s i o).
Proof.
  intros Hw. split; [apply Hw|apply Hw| |apply Hw]. cbn. intros j l. rewrite lookup_insert_Some.
  intros [[<- <-]|[Hne Hl]]; [|by eapply (rw_ops _ Hw)]. apply id_list_add_NoDup, default_NoDup, Hw.
Qed.

Lemma Role_RemoveOperation_wf s i o : roles_wf s -> roles_wf (memRoleStore_RemoveOperation s i o).
Proof.
  intros Hw. split; [apply Hw|apply Hw| |apply Hw]. cbn. intros j l. rewrite lookup_insert_Some.
  intros [[<- <-]|[Hne Hl]]; [|by eapply (rw_ops _ Hw)]. apply id_list_remove_NoDup, default_NoDup, Hw.
Qed.

Lemma User_Save_wf s u : users_wf s -> users_wf (fst (memUserStore_Save s u)).
Proof.
  intros [Hw Hr]. unfold memUserStore_Save. destruct (us_byName s !! u_Username u) as [e|] eqn:E; cbn [fst]; (split; [|exact Hr]).
  - by apply (indexed_update u_Username u_ID _ _ _ e (with_user_id u (u_ID e))).
  - by apply (indexed_new u_Username u_ID _ _ _ (with_user_id u (us_next s + 1))).
Qed.

Lemma User_roles_wf s i l : users_wf s -> NoDup l ->
  users_wf (MkUsers (us_byName s) (us_byID s) (<[i := l]> (us_roles s)) (us_next s)).
Proof.
  intros [Hw Hr] Hl. split; [done|]. cbn. intros j k. rewrite lookup_insert_Some.
  intros [[<- <-]|[Hne Hk]]; [done|by eapply Hr].
Qed.

Lemma Append_wf s e : audit_wf s -> audit_wf (fst (memAuditStore_Append s e)).
Proof.
  intros [Hi Hn]. split; cbn; [|lia]. rewrite map_app, Hi. cbn.
  rewrite (seqZ_app 1 (au_next s) 1) by lia. f_equal. rewrite seqZ_cons by lia. f_equal. lia.
Qed.

Lemma Task_Save_wf s t : tasks_wf s -> tasks_wf (fst (memTaskStore_Save s t)).
Proof. intros Hw. unfold memTaskStore_Save. destruct (t_ID t =? 0); (split; cbn; apply Hw). Qed.

Lemma AppendStep_wf s st : tasks_wf s -> tasks_wf (fst (memTaskStore_AppendStep s st)).
Proof.
  intros [Hs Hu]. set (new := MkTaskStep (tk_stepID s + 1) (ts_TaskID st) (ts_StepName st) (ts_Command st) (ts_Status st)
    (ts_Output st) (ts_DurationMs st)).
  assert (Hold : forall t l x, tk_steps s !! t = Some l -> x ∈ l -> ts_ID x < ts_ID new).
  { intros t l x Hl Hx. destruct (Hs t l Hl) as [Hf _]. rewrite Forall_forall in Hf. destruct (Hf x Hx). cbn. lia. }
  assert (Hd : forall x, x ∈ default [] (tk_steps s !! ts_TaskID st) -> ts_ID x < ts_ID new).
  { intros x Hx. destruct (tk_steps s !! ts_TaskID st) as [l|] eqn:El; [by eapply Hold|by apply elem_of_nil in Hx]. }
  split; cbn; fold new.
  - intros t l. rewrite lookup_insert_Some. intros [[<- <-]|[Hne Hl]].
    + split.
      * apply Forall_app. split; [|repeat constructor; cbn; lia]. destruct (tk_steps s !! ts_TaskID st) as [l|] eqn:El; [|done].
        destruct (Hs _ _ El) as [Hf _]. eapply Forall_impl; [exact Hf|]. cbn. intros x []. split; [done|lia].
      * rewrite map_app. apply NoDup_app. split; [destruct (tk_steps s !! ts_TaskID st) eqn:El; [by apply (Hs _ _ El)|constructor]|].
        split; [|apply NoDup_singleton]. intros i (x & -> & Hx)%list_elem_of_fmap Hi. apply list_elem_of_singleton in Hi.
        specialize (Hd x Hx). lia.
    + destruct (Hs t l Hl) as [Hf Hnd]. split; [|done]. eapply Forall_impl; [exact Hf|]. cbn. intros x []. split; [done|lia].
  - assert (Hcase : forall t l x, <[ts_TaskID st := default [] (tk_steps s !! ts_TaskID st) ++ [new]]> (tk_steps s) !! t = Some l ->
      x ∈ l -> x = new /\ t = ts_TaskID st \/ exists l0, tk_steps s !! t = Some l0 /\ x ∈ l0).
    { intros t l x. rewrite lookup_insert_Some. intros [[<- <-]|[Hne Hl]] Hx; [|right; by exists l].
      apply elem_of_app in Hx as [Hx|Hx%list_elem_of_singleton]; [|by left]. right.
      destruct (tk_steps s !! ts_TaskID st) as [l0|]; [by exists l0|by apply elem_of_nil in Hx]. }
    intros t t' l l' x x' Hl Hl' Hx Hx' E.
    destruct (Hcase _ _ _ Hl Hx) as [[-> ->]|(k & Hk & Hxk)], (Hcase _ _ _ Hl' Hx') as [[-> ->]|(k' & Hk' & Hxk')]; [done| | |].
    + pose proof (Hold _ _ _ Hk' Hxk'). lia.
    + pose proof (Hold _ _ _ Hk Hxk). lia.
    + by eapply Hu.
Qed.

Lemma update_step_ids l id status output d : map ts_ID (update_step l id status output d) = map ts_ID l.
Proof. induction l as [|st l IH]; cbn; [done|]. destruct (ts_ID st =? id); cbn; [done|]. by rewrite IH. Qed.

Lemma update_step_elem l id status output d x :
  x ∈ update_step l id status output d -> exists y, y ∈ l /\ ts_ID y = ts_ID x /\ ts_TaskID y = ts_TaskID x.
Proof.
  induction l as [|st l IH]; cbn; [by intros ?%elem_of_nil|]. destruct (ts_ID st =? id).
  - intros [->|Hx]%elem_of_cons; [exists st; split; [left|done]|exists x; split; [by right|done]].
  - intros [->|Hx]%elem_of_cons; [exists st; split; [left|done]|]. destruct (IH Hx) as (y & Hy & ?).
    exists y. split; [by right|done].
Qed.

Lemma UpdateStep_wf s id status output d : tasks_wf s -> tasks_wf (fst (memTaskStore_UpdateStep s id status output d)).
Proof.
  intros [Hs Hu]. unfold memTaskStore_UpdateStep. destruct (find _ _) as [[task steps]|] eqn:Ef; [|done]. cbn [fst].
  apply find_some in Ef as [Hin _]. apply list_elem_of_In, elem_of_map_to_list in Hin.
  assert (Hback : forall t l x, <[task := update_step steps id status output d]> (tk_steps s) !! t = Some l -> x ∈ l ->
    exists l0 y, tk_steps s !! t = Some l0 /\ y ∈ l0 /\ ts_ID y = ts_ID x /\ ts_TaskID y = ts_TaskID x).
  { intros t l x. rewrite lookup_insert_Some. intros [[<- <-]|[Hne Hl]] Hx; [|by exists l, x].
    apply update_step_elem in Hx as (y & ? & ? & ?). by exists steps, y. }
  split; cbn.
  - intros t l Hl. split.
    + apply Forall_forall. intros x Hx. destruct (Hback _ _ _ Hl Hx) as (l0 & y & Hl0 & Hy & <- & <-).
      destruct (Hs _ _ Hl0) as [Hf _]. rewrite Forall_forall in Hf. by apply Hf.
    + apply lookup_insert_Some in Hl as [[<- <-]|[_ Hl]]; [|by apply (Hs _ _ Hl)].
      rewrite update_step_ids. by apply (Hs _ _ Hin).
  - intros t t' l l' x x' Hl Hl' Hx Hx' E.
    destruct (Hback _ _ _ Hl Hx) as (k & y & Hk & Hy & Ey & _), (Hback _ _ _ Hl' Hx') as (k' & y' & Hk' & Hy' & Ey' & _).
    eapply Hu; [exact Hk|exact Hk'|exact Hy|exact Hy'|congruence].
Qed.

Lemma Put_wf s h p v now : snaps_wf s -> snaps_wf (fst (memSnapshotStore_Put s h p v now)).
Proof.
  intros [Hh Hi]. unfold memSnapshotStore_Put. destruct (ss_byHash s !! h) as [id|] eqn:E; [done|]. cbn [fst]. split; cbn.
  - intros h' i. rewrite lookup_insert_Some. intros [[<- <-]|[Hne Hx]].
    + eexists. rewrite lookup_insert_eq. split; [done|]. cbn. split; [done|lia].
    + destruct (Hh _ _ Hx) as (sn & Hsn & ? & ?). exists sn. rewrite lookup_insert_ne by lia. split_and!; [done..|lia].
  - intros i sn. rewrite lookup_insert_Some. intros [[<- <-]|[Hne Hx]].
    + cbn. rewrite lookup_insert_eq. split; [done|lia].
    + destruct (Hi _ _ Hx) as [Hsn ?]. rewrite lookup_insert_ne by congruence. split; [done|lia].
Qed.

(** ** Histories of a store *)

(** The mutating methods, as the control plane calls them. *)
Inductive StoreCmd : Type :=
| CmdSaveOperation (op : Operation)
| CmdSetOperationEnabled (name : string) (enabled : bool)
| CmdDeleteOperation (name : string)
| CmdSaveUser (u : User)
| CmdAddRole (userID roleID : Z)
| CmdRemoveRole (userID roleID : Z)
| CmdSaveRole (name description : string)
| CmdAddOperation (roleID opID : Z)
| CmdRemoveOperation (roleID opID : Z)
| CmdAppendAudit (e : AuditEvent)
| CmdSetConfig (key value : string)
| CmdSaveTask (t : Task)
| CmdAppendStep (st : TaskStep)
| CmdUpdateStep (id : Z) (status output : string) (durationMs : Z)
| CmdPutSnapshot (hash payload : string) (schemaVersion : Z) (now : Time)
| CmdUpsertPlugin (p : Plugin)
| CmdSetPluginEnabled (id : string) (enabled : bool)
| CmdSetPluginStatus (id status : string).

Definition with_ops (s : MemoryStorage) (x : memOperationStore) : MemoryStorage :=
  MkStorage x (st_user s) (st_role s) (st_audit s) (st_cfg s) (st_task s) (st_snap s) (st_plugin s).
Definition with_users (s : MemoryStorage) (x : memUserStore) : MemoryStorage :=
  MkStorage (st_op s) x (st_role s) (st_audit s) (st_cfg s) (st_task s) (st_snap s) (st_plugin s).
Definition with_roles (s : MemoryStorage) (x : memRoleStore) : MemoryStorage :=
  MkStorage (st_op s) (st_user s) x (st_audit s) (st_cfg s) (st_task s) (st_snap s) (st_plugin s).
Definition with_audit (s : MemoryStorage) (x : memAuditStore) : MemoryStorage :=
  MkStorage (st_op s) (st_user s) (st_role s) x (st_cfg s) (st_task s) (st_snap s) (st_plugin s).
Definition with_config (s : MemoryStorage) (x : memConfigStore) : MemoryStorage :=
  MkStorage (st_op s) (st_user s) (st_role s) (st_audit s) x (st_task s) (st_snap s) (st_plugin s).
Definition with_tasks (s : MemoryStorage) (x : memTaskStore) : MemoryStorage :=
  MkStorage (st_op s) (st_user s) (st_role s) (st_audit s) (st_cfg s) x (st_snap s) (st_plugin s).
Definition with_snaps (s : MemoryStorage) (x : memSnapshotStore) : MemoryStorage :=
  MkStorage (st_op s) (st_user s) (st_role s) (st_audit s) (st_cfg s) (st_task s) x (st_plugin s).
Definition with_plugins (s : MemoryStorage) (x : memPluginStore) : MemoryStorage :=
  MkStorage (st_op s) (st_user s) (st_role s) (st_audit s) (st_cfg s) (st_task s) (st_snap s) x.

Definition exec_store (s : MemoryStorage) (c : StoreCmd) : MemoryStorage :=
  match c with
  | CmdSaveOperation op => with_ops s (fst (memOperationStore_Save (st_op s) op))
  | CmdSetOperationEnabled n b => with_ops s (fst (memOperationStore_SetEnabled (st_op s) n b))
  | CmdDeleteOperation n => with_ops s (fst (memOperationStore_Delete (st_op s) n))
  | CmdSaveUser u => with_users s (fst (memUserStore_Save (st_user s) u))
  | CmdAddRole u r => with_users s (memUserStore_AddRole (st_user s) u r)
  | CmdRemoveRole u r => with_users s (memUserStore_RemoveRole (st_user s) u r)
  | CmdSaveRole n d => with_roles s (fst (memRoleStore_Save (st_role s) (MkRole 0 n d)))
  | CmdAddOperation r o => with_roles s (memRoleStore_AddOperation (st_role s) r o)
  | CmdRemoveOperation r o => with_roles s (memRoleStore_RemoveOperation (st_role s) r o)
  | CmdAppendAudit e => with_audit s (fst (memAuditStore_Append (st_audit s) e))
  | CmdSetConfig k v => with_config s (memConfigStore_Set (st_cfg s) k v)
  | CmdSaveTask t => with_tasks s (fst (memTaskStore_Save (st_task s) t))
  | CmdAppendStep st => with_tasks s (fst (memTaskStore_AppendStep (st_task s) st))
  | CmdUpdateStep id a b d => with_tasks s (fst (memTaskStore_UpdateStep (st_task s) id a b d))
  | CmdPutSnapshot h p v now => with_snaps s (fst (memSnapshotStore_Put (st_snap s) h p v now))
  | CmdUpsertPlugin p => with_plugins s (memPluginStore_Upsert (st_plugin s) p)
  | CmdSetPluginEnabled id b => with_plugins s (fst (memPluginStore_SetEnabled (st_plugin s) id b))
  | CmdSetPluginStatus id x => with_plugins s (fst (memPluginStore_SetStatus (st_plugin s) id x))
  end.

#[export] Hint Resolve Save_wf SetEnabled_wf Delete_wf User_Save_wf Role_Save_wf Role_AddOperation_wf
  Role_RemoveOperation_wf Append_wf Task_Save_wf AppendStep_wf UpdateStep_wf Put_wf : opscore.

Lemma exec_store_wf s c : storage_wf s -> storage_wf (exec_store s c).
Proof.
  intros [Ho Hu Hr Ha Ht Hs Hp]. destruct c; (split; cbn [st_op st_user st_role st_audit st_task st_snap st_plugin exec_store
    with_ops with_users with_roles with_audit with_config with_tasks with_snaps with_plugins]; auto with opscore).
  - apply User_roles_wf; [done|]. apply id_list_add_NoDup, default_NoDup, Hu.
  - apply User_roles_wf; [done|]. apply id_list_remove_NoDup, default_NoDup, Hu.
  - cbn. intros id q. rewrite lookup_insert_Some. intros [[<- <-]|[_ Hq]]; [done|by apply Hp].
  - unfold memPluginStore_SetEnabled. destruct (ps_items (st_plugin s) !! id) as [p|] eqn:E; cbn; [|done].
    intros i q. rewrite lookup_insert_Some. intros [[<- <-]|[_ Hq]]; [cbn; by apply Hp|by apply Hp].
  - unfold memPluginStore_SetStatus. destruct (ps_items (st_plugin s) !! id) as [p|] eqn:E; cbn; [|done].
    intros i q. rewrite lookup_insert_Some. intros [[<- <-]|[_ Hq]]; [cbn; by apply Hp|by apply Hp].
Qed.

Lemma NewMemoryStorage_wf : storage_wf NewMemoryStorage.
Proof.
  split; cbn; [apply indexed_empty| | | | | |intros ? ? H; by rewrite lookup_empty in H].
  - split; [apply indexed_empty|]; cbn. intros ? ? H. by rewrite lookup_empty in H.
  - split; cbn; [| | |done]; intros *; rewrite lookup_empty; done.
  - by split.
  - split; cbn; intros *; rewrite lookup_empty; done.
  - split; cbn; intros *; rewrite lookup_empty; done.
Qed.

Lemma run_store_wf cmds : storage_wf (run_list exec_store NewMemoryStorage cmds).
Proof. apply (run_list_invariant exec_store storage_wf); [apply exec_store_wf|apply NewMemoryStorage_wf]. Qed.

(** An operation id belongs to one name for good: it is below the counter, and
    what it names, now or later, is [name] or nothing. *)
Definition owned (name : string) (id : Z) (s : MemoryStorage) : Prop :=
  0 < id <= os_next (st_op s) /\ forall op, os_byID (st_op s) !! id = Some op -> op_Name op = name.

Lemma exec_store_owned name id s c : storage_wf s -> owned name id s -> owned name id (exec_store s c).
Proof.
  intros Hw [Hid Ho]. pose proof (wf_op _ Hw) as Hops.
  destruct c; cbn [exec_store]; try (by split); unfold owned, with_ops; cbn [st_op].
  - unfold memOperationStore_Save. destruct (os_items (st_op s) !! op_Name op) as [e|] eqn:E; cbn [fst put_op os_next os_byID op_ID with_op_id].
    + destruct (ix_name _ _ _ _ _ Hops _ _ E) as (He & Hb & Hr). split; [lia|]. intros o. rewrite lookup_insert_Some.
      intros [[Eid <-]|[_ Hx]]; [|by apply Ho]. cbn. rewrite <- He. apply Ho. congruence.
    + split; [lia|]. intros o. rewrite lookup_insert_Some. intros [[Eid <-]|[_ Hx]]; [lia|by apply Ho].
  - unfold memOperationStore_SetEnabled. destruct (os_items (st_op s) !! name0) as [e|] eqn:E; [|by split]. cbn [fst os_next os_byID].
    destruct (ix_name _ _ _ _ _ Hops _ _ E) as (He & Hb & Hr). split; [lia|]. intros o. rewrite lookup_insert_Some.
    intros [[Eid <-]|[_ Hx]]; [|by apply Ho]. cbn in *. apply Ho. congruence.
  - unfold memOperationStore_Delete. destruct (os_items (st_op s) !! name0) as [e|] eqn:E; [|by split]. cbn [fst os_next os_byID].
    split; [lia|]. intros o [_ Hx]%lookup_delete_Some. by apply Ho.
Qed.

(** ** The audit walk *)

Definition in_window (q : AuditQuery) (e : AuditEvent) : bool :=
  (aq_After q =? 0) || (ev_ID e <? aq_After q).

Definition wanted (q : AuditQuery) (e : AuditEvent) : bool := in_window q e && AuditQuery_Matches q e.

Lemma query_walk_spec q limit out l :
  Z.of_nat (length out) <= limit ->
  query_walk q limit out l =
    (take (Z.to_nat limit) (out ++ List.filter (wanted q) l),
     limit <? Z.of_nat (length (out ++ List.filter (wanted q) l))).
Proof.
  revert out. induction l as [|e l IH]; intros out Hl; cbn [query_walk List.filter].
  { rewrite app_nil_r, take_ge by lia. f_equal. symmetry. apply Z.ltb_ge. lia. }
  assert (Hw : negb (aq_After q =? 0) && (aq_After q <=? ev_ID e) = negb (in_window q e)).
  { unfold in_window. rewrite negb_orb, Z.leb_antisym. done. }
  assert (He : wanted q e = in_window q e && AuditQuery_Matches q e) by done. rewrite Hw, He.
  destruct (in_window q e); cbn [negb andb]; [|by apply IH].
  destruct (AuditQuery_Matches q e); cbn [negb]; [|by apply IH].
  destruct (Z.eqb_spec (Z.of_nat (length out)) limit) as [E|E].
  - rewrite take_app_le, take_ge by lia. f_equal. symmetry. apply Z.ltb_lt. rewrite length_app. cbn. lia.
  - rewrite IH by (rewrite length_app; cbn; lia). by rewrite <- !app_assoc.
Qed.

Lemma EffectiveAuditLimit_positive n : 0 < EffectiveAuditLimit n <= MaxAuditQueryLimit.
Proof.
  unfold EffectiveAuditLimit, DefaultAuditQueryLimit, MaxAuditQueryLimit. destruct (Z.leb_spec n 0); [lia|].
  destruct (Z.ltb_spec 1000 n); lia.
Qed.

Lemma Query_spec s q :
  memAuditStore_Query s q =
    let all := List.filter (wanted q) (rev (au_items s)) in
    MkAuditPage (take (Z.to_nat (EffectiveAuditLimit (aq_Limit q))) all) (EffectiveAuditLimit (aq_Limit q))
      (EffectiveAuditLimit (aq_Limit q) <? Z.of_nat (length all)).
Proof.
  unfold memAuditStore_Query. pose proof (EffectiveAuditLimit_positive (aq_Limit q)).
  rewrite query_walk_spec by (cbn; lia). done.
Qed.

(** *** Paging by cursor *)

Definition with_after (q : AuditQuery) (after : Z) : AuditQuery :=
  MkAuditQuery (aq_Target q) (aq_Result q) (aq_Action q) (aq_CorrelationID q) (aq_Limit q) after.

(** A client that asks for the rows before the last one it was given for as long
    as a page is truncated; one store per request, as it is then. [None]: the
    requests were not enough. *)
Fixpoint read_pages (q : AuditQuery) (after : Z) (stores : list memAuditStore) : option (list AuditEvent) :=
  match stores with
  | [] => None
  | s :: stores' =>
      let page := memAuditStore_Query s (with_after q after) in
      if ap_Truncated page
      then app (ap_Events page) <$> read_pages q (from_option ev_ID 0 (last (ap_Events page))) stores'
      else Some (ap_Events page)
  end.

(** A later state of the log. *)
Definition log_extends (s s' : memAuditStore) : Prop := audit_wf s' /\ exists es, au_items s' = au_items s ++ es.

Lemma log_extends_trans s1 s2 s3 : log_extends s1 s2 -> log_extends s2 s3 -> log_extends s1 s3.
Proof. intros [_ [es E]] [Hw [fs F]]. split; [done|]. exists (es ++ fs). by rewrite F, E, app_assoc. Qed.

Lemma newest_first s : audit_wf s -> StronglySorted Z.gt (map ev_ID (rev (au_items s))).
Proof.
  intros [Hi Hn]. rewrite map_rev, Hi. clear Hi. generalize (au_next s) Hn. clear s Hn.
  apply natlike_ind; [constructor|]. intros n Hn IH. unfold Z.succ. rewrite (seqZ_app 1 n 1), rev_app_distr by lia.
  cbn. constructor; [done|]. apply Forall_forall. intros x Hx.
  apply list_elem_of_In, in_rev, list_elem_of_In, elem_of_seqZ in Hx. lia.
Qed.

Lemma take_elem {A} n (l : list A) x : x ∈ take n l -> x ∈ l.
Proof. intros Hx. rewrite <- (take_drop n l). apply elem_of_app. by left. Qed.

Lemma last_elem {A} (l : list A) x : last l = Some x -> x ∈ l.
Proof. intros [l' ->]%last_Some. apply elem_of_app. right. left. Qed.

(** The tail of a newest-first list behind its [n]-th element is what has a
    smaller id. *)
Lemma filter_below (l : list AuditEvent) n x :
  StronglySorted Z.gt (map ev_ID l) -> last (take n l) = Some x ->
  List.filter (fun e => ev_ID e <? ev_ID x) l = drop n l.
Proof.
  revert n. induction l as [|e l IH]; intros n Hs Hx; [by rewrite take_nil in Hx|].
  cbn in Hs. apply StronglySorted_inv in Hs as [Hs He]. destruct n as [|n]; [done|]. cbn [take drop List.filter] in *.
  rewrite Forall_forall in He. destruct (last (take n l)) as [y|] eqn:Ey.
  - rewrite last_cons, Ey in Hx. injection Hx as ->. rewrite (IH n Hs Ey).
    assert (Hin : ev_ID x ∈ map ev_ID l) by (by apply list_elem_of_In, in_map, list_elem_of_In, (take_elem n), last_elem).
    specialize (He _ Hin). destruct (Z.ltb_spec (ev_ID e) (ev_ID x)); [lia|done].
  - rewrite last_cons, Ey in Hx. injection Hx as ->. destruct (Z.ltb_spec (ev_ID x) (ev_ID x)); [lia|].
    apply last_None in Ey. assert (drop n l = l) as ->.
    { destruct n as [|n]; [done|]. by destruct l. }
    clear -He. induction l as [|y l IH]; [done|]. cbn. assert (ev_ID x > ev_ID y) by (apply He; left).
    destruct (Z.ltb_spec (ev_ID y) (ev_ID x)); [|lia]. f_equal. apply IH. intros z Hz. apply He. by right.
Qed.

Lemma filter_wanted q (l : list AuditEvent) :
  List.filter (wanted q) l = List.filter (in_window q) (List.filter (AuditQuery_Matches q) l).
Proof.
  induction l as [|e l IH]; [done|]. cbn [List.filter]. unfold wanted at 1.
  destruct (AuditQuery_Matches q e); cbn; rewrite IH; [|by rewrite andb_false_r]. by destruct (in_window q e).
Qed.

Lemma filter_sorted (f : AuditEvent -> bool) (l : list AuditEvent) :
  StronglySorted Z.gt (map ev_ID l) -> StronglySorted Z.gt (map ev_ID (List.filter f l)).
Proof.
  induction l as [|e l IH]; intros Hs; [done|]. cbn in Hs. apply StronglySorted_inv in Hs as [Hs He]. cbn [List.filter].
  destruct (f e); [|by apply IH]. cbn. constructor; [by apply IH|]. rewrite Forall_map in He. apply Forall_map.
  rewrite Forall_forall in *. intros x Hx. apply He. apply list_elem_of_In in Hx. apply filter_In in Hx as [Hx _].
  by apply list_elem_of_In.
Qed.

Lemma filter_none {A} (f : A -> bool) l : (forall x, x ∈ l -> f x = false) -> List.filter f l = [].
Proof.
  induction l as [|x l IH]; intros Hf; [done|]. cbn. rewrite (Hf x) by left. apply IH. intros y Hy. apply Hf. by right.
Qed.

Lemma filter_all {A} (f : A -> bool) l : (forall x, f x = true) -> List.filter f l = l.
Proof. intros Hf. induction l as [|x l IH]; [done|]. cbn. by rewrite Hf, IH. Qed.

Lemma filter_filter {A} (f g : A -> bool) l :
  List.filter f (List.filter g l) = List.filter (fun x => g x && f x) l.
Proof. induction l as [|x l IH]; [done|]. cbn. destruct (g x); cbn; by rewrite IH. Qed.

(** An appended event is newer than a cursor taken from the log. *)
Lemma window_extends q s s' after :
  audit_wf s -> log_extends s s' -> 0 < after <= au_next s ->
  List.filter (wanted (with_after q after)) (rev (au_items s')) =
  List.filter (wanted (with_after q after)) (rev (au_items s)).
Proof.
  intros Hw [Hw' [es E]] Ha. rewrite E, rev_app_distr, List.filter_app.
  rewrite (filter_none _ (rev es)); [done|]. intros x Hx. unfold wanted, in_window. cbn [aq_After with_after].
  destruct (Z.eqb_spec after 0); [lia|]. cbn [orb]. destruct (Z.ltb_spec (ev_ID x) after); [|done]. exfalso.
  apply list_elem_of_In, in_rev, list_elem_of_In in Hx as Hin. apply list_elem_of_lookup in Hin as [k Hk].
  pose proof (aw_ids _ Hw') as Hi. rewrite E, map_app, (aw_ids _ Hw) in Hi.
  assert (Hlen : length (au_items s) = Z.to_nat (au_next s)) by (rewrite <- (length_map ev_ID), (aw_ids _ Hw), length_seqZ; done).
  assert (Hl : seqZ 1 (au_next s') !! (Z.to_nat (au_next s) + k)%nat = Some (ev_ID x)).
  { rewrite <- Hi, lookup_app_r by (rewrite length_seqZ; lia). rewrite length_seqZ.
    replace (Z.to_nat (au_next s) + k - Z.to_nat (au_next s))%nat with k by lia. by rewrite list_lookup_fmap, Hk. }
  apply lookup_seqZ in Hl as [Hl _]. lia.
Qed.

(** One page and the cursor behind it. *)
Lemma page_rest q after s :
  audit_wf s ->
  let page := memAuditStore_Query s (with_after q after) in
  let all := List.filter (wanted (with_after q after)) (rev (au_items s)) in
  ap_Truncated page = true ->
  exists x, last (ap_Events page) = Some x /\ 0 < ev_ID x <= au_next s /\ (length (ap_Events page) > 0)%nat /\
    all = ap_Events page ++ List.filter (wanted (with_after q (ev_ID x))) (rev (au_items s)).
Proof.
  intros Hw page all. unfold page. rewrite Query_spec. fold all. cbn [ap_Truncated ap_Events aq_Limit with_after].
  intros Ht%Z.ltb_lt. pose proof (EffectiveAuditLimit_positive (aq_Limit q)) as Hl. set (n := Z.to_nat (EffectiveAuditLimit (aq_Limit q))) in *.
  assert (Hlen : length (take n all) = n) by (rewrite length_take; lia).
  destruct (last (take n all)) as [x|] eqn:Ex.
  2: { apply last_None in Ex. rewrite Ex in Hlen. cbn in Hlen. lia. }
  exists x. split; [done|].
  assert (Hx : x ∈ all) by (by apply (take_elem n), last_elem).
  assert (Hid : 0 < ev_ID x <= au_next s).
  { unfold all in Hx. apply list_elem_of_In, filter_In in Hx as [Hx _]. apply in_rev in Hx. apply (in_map ev_ID) in Hx.
    rewrite (aw_ids _ Hw) in Hx. apply list_elem_of_In, elem_of_seqZ in Hx. lia. }
  split; [done|]. split; [lia|]. rewrite <- (take_drop n all) at 1. f_equal.
  rewrite <- (filter_below all n x); [|apply filter_sorted, newest_first, Hw|done].
  unfold all at 1. rewrite !filter_wanted. change (AuditQuery_Matches (with_after q after)) with (AuditQuery_Matches q).
  change (AuditQuery_Matches (with_after q (ev_ID x))) with (AuditQuery_Matches q).
  assert (Hax : after = 0 \/ ev_ID x < after).
  { unfold all in Hx. apply list_elem_of_In, filter_In in Hx as [_ Hx]. unfold wanted, in_window in Hx.
    apply andb_true_iff in Hx as [Hx _]. cbn [aq_After with_after] in Hx. apply orb_true_iff in Hx as [?%Z.eqb_eq|?%Z.ltb_lt]; auto. }
  rewrite filter_filter. apply filter_ext. intros e. unfold in_window. cbn [aq_After with_after].
  destruct (Z.eqb_spec (ev_ID x) 0), (Z.eqb_spec after 0), (Z.ltb_spec (ev_ID e) after), (Z.ltb_spec (ev_ID e) (ev_ID x));
    cbn; lia || done.
Qed.

Lemma read_pages_from q after s0 stores :
  audit_wf s0 -> (after = 0 -> head stores = Some s0) -> 0 <= after <= au_next s0 -> Forall (log_extends s0) stores ->
  let all := List.filter (wanted (with_after q after)) (rev (au_items s0)) in
  (forall l, read_pages q after stores = Some l -> l = all) /\
  ((length all < length stores)%nat -> read_pages q after stores <> None).
Proof.
  intros Hw0. revert after. induction stores as [|s stores IH]; intros after Hh Ha Hst all; [split; [done|cbn; lia]|].
  apply Forall_cons in Hst as [Hs Hst]. pose proof Hs as [Hw _].
  assert (Hall : List.filter (wanted (with_after q after)) (rev (au_items s)) = all).
  { destruct (decide (after = 0)) as [->|]; [cbn in Hh; by injection (Hh eq_refl) as ->|].
    apply window_extends; [done..|lia]. }
  cbn [read_pages]. pose proof (page_rest q after s Hw) as Hp. cbv zeta in Hp. rewrite Hall in Hp.
  pose proof (Query_spec s (with_after q after)) as Hq. cbv zeta in Hq. rewrite Hall in Hq.
  destruct (ap_Truncated (memAuditStore_Query s (with_after q after))) eqn:Et.
  - destruct (Hp eq_refl) as (x & Hx & Hid & Hlen & Erest). rewrite Hx. cbn [from_option].
    assert (Hx0 : ev_ID x <= au_next s0).
    { assert (Hin : x ∈ all) by (rewrite Erest; apply elem_of_app; left; by apply last_elem).
      unfold all in Hin. apply list_elem_of_In, filter_In in Hin as [Hin _]. apply in_rev in Hin. apply (in_map ev_ID) in Hin.
      rewrite (aw_ids _ Hw0) in Hin. apply list_elem_of_In, elem_of_seqZ in Hin. lia. }
    specialize (IH (ev_ID x) ltac:(lia) ltac:(lia) Hst). cbv zeta in IH. destruct IH as [IH1 IH2].
    rewrite (window_extends q s0 s (ev_ID x)) in Erest by (try done; lia). split.
    + intros l. destruct (read_pages q (ev_ID x) stores) as [l0|]; [|done]. intros [= <-]. rewrite Erest. f_equal. by apply IH1.
    + intros Hcount. destruct (read_pages q (ev_ID x) stores) as [l0|]; [done|]. exfalso. apply IH2; [|done].
      rewrite Erest, length_app in Hcount. cbn in Hcount. lia.
  - split; [|done]. intros l [= <-]. rewrite Hq in Et |- *. cbn [ap_Truncated ap_Events] in *. apply Z.ltb_ge in Et.
    rewrite take_ge by lia. done.
Qed.

(** ** Properties *)

(** The store stays well formed through any calls: rows are found under their
    name and their id, ids and names are unique, the audit log is numbered 1, 2,
    3, ..., a task's steps carry its id, a snapshot is found by its hash. *)
Theorem storage_well_formed cmds : storage_wf (run_list exec_store NewMemoryStorage cmds).
Proof. apply (run_list_invariant exec_store storage_wf); [apply exec_store_wf|apply NewMemoryStorage_wf]. Qed.

(** An operation id is never reused: whatever is deleted and saved after a name
    had it, an id names that operation or nothing, so a grant kept by a role can
    not come to mean another operation. *)
Theorem operation_id_never_reused before after name op op' :
  let s := run_list exec_store NewMemoryStorage before in
  memOperationStore_GetByName (st_op s) name = Ok op ->
  memOperationStore_GetByID (st_op (run_list exec_store s after)) (op_ID op) = Ok op' ->
  op_Name op' = name.
Proof.
  intros s Hn Hi. pose proof (run_store_wf before : storage_wf s) as Hw.
  assert (Hrun : storage_wf (run_list exec_store s after) /\ owned name (op_ID op) (run_list exec_store s after)).
  { apply (run_list_invariant exec_store (fun s => storage_wf s /\ owned name (op_ID op) s)).
    - intros s' c [Hw' Ho]. split; [by apply exec_store_wf|by apply exec_store_owned].
    - split; [done|]. unfold memOperationStore_GetByName in Hn. destruct (os_items (st_op s) !! name) as [o|] eqn:E; [|done].
      injection Hn as <-. destruct (ix_name _ _ _ _ _ (wf_op _ Hw) _ _ E) as (<- & Hb & Hid). split; [done|].
      intros o'. rewrite Hb. by intros [= <-]. }
  destruct Hrun as [_ [_ Ho]]. unfold memOperationStore_GetByID in Hi.
  destruct (os_byID _ !! op_ID op) as [o|] eqn:E; [|done]. injection Hi as <-. by apply Ho.
Qed.

(** Paging an audit query by cursor (Phase 18/19): the pages, read while the log
    grows, are together exactly the matching events of the log as it was at the
    first page, newest first, none twice and none missing; and a page is
    truncated only if there are more, so as many requests as there are matches,
    and one more, always reach the end. *)
Theorem audit_paging q s stores :
  audit_wf s -> Forall (log_extends s) stores ->
  let all := List.filter (AuditQuery_Matches q) (rev (au_items s)) in
  (forall events, read_pages q 0 (s :: stores) = Some events -> events = all) /\
  ((length all <= length stores)%nat -> read_pages q 0 (s :: stores) = Some all).
Proof.
  intros Hw Hst all. assert (Hs : log_extends s s) by (split; [done|]; exists []; by rewrite app_nil_r).
  pose proof (aw_next _ Hw) as Hnext. destruct (read_pages_from q 0 s (s :: stores)) as [H1 H2]; [done|done|lia|by constructor|].
  assert (Eall : List.filter (wanted (with_after q 0)) (rev (au_items s)) = all).
  { rewrite filter_wanted. apply filter_all. by intros e. }
  rewrite Eall in *. split; [done|]. intros Hlen. destruct (read_pages q 0 (s :: stores)) as [l|]; [by rewrite (H1 l)|].
  exfalso. apply H2; [cbn; lia|done].
Qed.

(** ** Witnesses *)

Definition event (target result : string) : AuditEvent :=
  MkAuditEvent 0 0 "alice" "op" "policy.update" target result "" "" "" 0 0 "".

Definition sample_op (name : string) : Operation := MkOperation 0 name "res" "act" "low" "builtin" true.

Definition log_of (es : list AuditEvent) : memAuditStore := foldl (fun s e => fst (memAuditStore_Append s e)) (MkAudit [] 0) es.

Definition paged_log : memAuditStore :=
  log_of [event "p" "intent"; event "p" "success"; event "q" "intent"; event "p" "intent"; event "p" "failure"; event "p" "intent"].

Definition paged_query : AuditQuery := MkAuditQuery "p" "" "policy.update" "" 2 0.

(** A new event arrives between the first and the second page. *)
Lemma audit_paging_witness :
  let stores := repeat (fst (memAuditStore_Append paged_log (event "p" "success"))) 5 in
  option_map (map ev_ID) (read_pages paged_query 0 (paged_log :: stores)) = Some [6; 5; 4; 2; 1].
Proof.
  intros stores. assert (Hw : audit_wf paged_log) by (split; [vm_compute; reflexivity|vm_compute; discriminate]).
  assert (Hst : Forall (log_extends paged_log) stores).
  { apply Forall_forall. intros x Hx. apply list_elem_of_In, repeat_spec in Hx. subst x.
    split; [apply Append_wf; exact Hw|eexists; reflexivity]. }
  assert (Hlen : (length (List.filter (AuditQuery_Matches paged_query) (rev (au_items paged_log))) <= length stores)%nat)
    by (vm_compute; lia).
  destruct (audit_paging paged_query paged_log stores Hw Hst) as [_ H]. rewrite (H Hlen). vm_compute. reflexivity.
Defined.

(** The operation is deleted and saved again; its old id is gone. *)
Lemma operation_id_never_reused_witness :
  let before := [CmdSaveOperation (sample_op "a"); CmdSaveOperation (sample_op "b")] in
  let s := run_list exec_store NewMemoryStorage before in
  let after := [CmdDeleteOperation "b"; CmdSaveOperation (sample_op "b"); CmdSaveOperation (sample_op "a")] in
  exists op op', memOperationStore_GetByName (st_op s) "a" = Ok op /\
    memOperationStore_GetByID (st_op (run_list exec_store s after)) (op_ID op) = Ok op' /\ op_Name op' = "a" /\
    is_ok (memOperationStore_GetByID (st_op (run_list exec_store s after)) 2) = false.
Proof.
  intros before s after. set (op := with_op_id (sample_op "a") 1).
  assert (H1 : memOperationStore_GetByName (st_op s) "a" = Ok op) by (vm_compute; reflexivity).
  assert (H2 : memOperationStore_GetByID (st_op (run_list exec_store s after)) (op_ID op) = Ok op) by (vm_compute; reflexivity).
  exists op, op. split; [exact H1|]. split; [exact H2|].
  split; [exact (operation_id_never_reused before after "a" op op H1 H2)|vm_compute; reflexivity].
Defined.
