(* ===== verification/PluginContract.v ===== *)
(** * The plugin contract
      (internal/plugin: validate.go, manifest/manifest.go, compat/compat.go,
       capability/capability.go, runtime/lifecycle.go, runtime/descriptor.go)

    What a plugin declares and the checks it passes before it enters the
    runtime: the operation namespace, the compatibility gate, the negotiation of
    capabilities, and the state machine of its life. JSON decoding is done by
    then. *)

From Stdlib Require Import Ascii.
From S2P Require Import Prelude GoStrings Executor.

(** ** Manifests and descriptors *)

Record PermissionDecl : Type := MkPermissionDecl { pd_Resource : string; pd_Action : string }.

Record OperationDecl : Type := MkOperationDecl {
  od_Name : string;
  od_Resource : string;
  od_Action : string;
  od_Risk : string;
  od_Description : string }.

Record Manifest : Type := MkPluginManifest {
  mf_Name : string;
  mf_Version : string;
  mf_Capabilities : list string;
  mf_Permissions : list PermissionDecl;
  mf_Operations : list OperationDecl;
  mf_SchemaVersion : Z;
  mf_PluginAPI : string;
  mf_MinKernel : string }.

Fixpoint validate_decls (name prefix : string) (ops : list OperationDecl) : option error :=
  match ops with
  | [] => None
  | op :: ops' =>
      if String.eqb (od_Name op) "" || String.eqb (od_Resource op) "" || String.eqb (od_Action op) "" then
        Some ("plugin manifest " +:+ name +:+ ": operation with empty name/resource/action")
      else if negb (HasPrefix (od_Name op) prefix) then
        Some ("plugin manifest " +:+ name +:+ ": operation " +:+ od_Name op +:+ " must use namespace " +:+ prefix)
      else validate_decls name prefix ops'
  end.

(** [Manifest.Validate]; Go's messages quote the names. *)
Definition Manifest_Validate (m : Manifest) : option error :=
  if String.eqb (mf_Name m) "" then Some "plugin manifest: empty name"
  else if String.eqb (mf_Version m) "" then Some ("plugin manifest " +:+ mf_Name m +:+ ": empty version")
  else validate_decls (mf_Name m) ("plugin." +:+ mf_Name m +:+ ".") (mf_Operations m).

(** ** The state machine (lifecycle.go) *)

Inductive LifecycleState : Type :=
| StateDiscovered | StateLoaded | StateRegistered | StateEnabled | StateDisabled | StateUnloaded.

#[export] Instance LifecycleState_eq_dec : EqDecision LifecycleState.
Proof. solve_decision. Defined.

Definition LifecycleState_string (s : LifecycleState) : string :=
  match s with
  | StateDiscovered => "discovered"
  | StateLoaded => "loaded"
  | StateRegistered => "registered"
  | StateEnabled => "enabled"
  | StateDisabled => "disabled"
  | StateUnloaded => "unloaded"
  end.

Definition validTransitions (s : LifecycleState) : list LifecycleState :=
  match s with
  | StateDiscovered => [StateLoaded]
  | StateLoaded => [StateRegistered]
  | StateRegistered => [StateEnabled; StateUnloaded]
  | StateEnabled => [StateDisabled]
  | StateDisabled => [StateEnabled; StateUnloaded]
  | StateUnloaded => []
  end.

Definition CanTransition (from to : LifecycleState) : bool := existsb (fun t => bool_decide (t = to)) (validTransitions from).

Definition Transition (from to : LifecycleState) : option error :=
  if bool_decide (from = to) then Some ("plugin lifecycle: already in state " +:+ LifecycleState_string from)
  else if CanTransition from to then None
  else Some ("plugin lifecycle: illegal transition " +:+ LifecycleState_string from +:+ " -> " +:+ LifecycleState_string to +:+
             " (must disable before unload)").

(** ** Descriptors (descriptor.go) *)

Record Descriptor : Type := MkDescriptor {
  d_ID : string;
  d_Manifest : Manifest;
  d_Source : string;
  d_State : LifecycleState;
  d_frozen : bool }.

Definition NewDescriptor (m : Manifest) : Descriptor :=
  let id := mf_Name m +:+ String "@" (mf_Version m) in
  MkDescriptor id m ("plugin:" +:+ id) StateDiscovered false.

Definition Freeze (d : Descriptor) : Descriptor := MkDescriptor (d_ID d) (d_Manifest d) (d_Source d) (d_State d) true.
Definition IsFrozen (d : Descriptor) : bool := d_frozen d.
Definition with_state (d : Descriptor) (s : LifecycleState) : Descriptor :=
  MkDescriptor (d_ID d) (d_Manifest d) (d_Source d) s (d_frozen d).

(** ** The operation namespace (validate.go) *)

Definition reservedResources : list string :=
  ["execution"; "system"; "host"; "disk"; "package"; "user"; "service"; "process"; "role"; "config"; "audit"; "capability"].
Definition reservedPrefixes : list string := ["builtin"; "system"; "core"; "internal"].

(** Of an operation of that name and permission. *)
Definition ValidateOperation (name : string) (perm : Permission) : option error :=
  if negb (HasPrefix name "plugin.") then
    Some ("plugin operation " +:+ name +:+ " must use the plugin.<name>.<resource>.<action> namespace")
  else
    let nameSeg := before_byte "." (drop_bytes 7 name) in
    if existsb (String.eqb nameSeg) reservedPrefixes then
      Some ("plugin operation " +:+ name +:+ ": plugin name " +:+ nameSeg +:+ " is a reserved system prefix")
    else if String.eqb (ResourceType perm) "" || String.eqb (perm_Action perm) "" then
      Some ("plugin operation " +:+ name +:+ ": empty resource type or action is not allowed")
    else if existsb (String.eqb (ResourceType perm)) reservedResources then
      Some ("plugin operation " +:+ name +:+ " may not claim reserved system resource " +:+ ResourceType perm)
    else None.

(** ** The compatibility gate (compat.go) *)

Record KernelInfo : Type := MkKernelInfo { k_Version : string; k_SupportedAPIs : list string }.

Record CompatResult : Type := MkCompatResult { cr_Compatible : bool; cr_Reason : string; cr_Code : string }.

Fixpoint version_segments (parts : list string) : result error (list Z) :=
  match parts with
  | [] => Ok []
  | p :: parts' =>
      match ParseInt p with
      | None => Err ("invalid segment " +:+ p)
      | Some n =>
          if n <? 0 then Err ("negative segment " +:+ p)
          else match version_segments parts' with Err e => Err e | Ok ns => Ok (n :: ns) end
      end
  end.

Definition splitVersion (v : string) : result error (list Z) :=
  let v := TrimSpace v in
  if String.eqb v "" then Ok [0]
  else version_segments (Split (TrimPrefix v "v") ".").

(** The loop over the segments from [i] on, [k] turns of it, the shorter side
    padded with zeros. *)
Fixpoint compare_from (a b : list Z) (k i : nat) : Z :=
  match k with
  | O => 0
  | S k =>
      let av := nth i a 0 in
      let bv := nth i b 0 in
      if av <? bv then -1 else if bv <? av then 1 else compare_from a b k (S i)
  end.

Definition compare_segments (a b : list Z) : Z := compare_from a b (Nat.max (length a) (length b)) 0.

Definition compareSemver (a b : string) : result error Z :=
  match splitVersion a with
  | Err e => Err ("version " +:+ a +:+ ": " +:+ e)
  | Ok as_ =>
      match splitVersion b with
      | Err e => Err ("version " +:+ b +:+ ": " +:+ e)
      | Ok bs => Ok (compare_segments as_ bs)
      end
  end.

(** [DefaultGate.Check]: the result, and the error. *)
Definition DefaultGate_Check (m : option Manifest) (kernel : KernelInfo) : CompatResult * option error :=
  match m with
  | None => (MkCompatResult false "nil manifest" "nil_manifest", Some "compat: nil manifest")
  | Some m =>
      let check_api :=
        if negb (String.eqb (mf_PluginAPI m) "") && negb (existsb (String.eqb (mf_PluginAPI m)) (k_SupportedAPIs kernel)) then
          (MkCompatResult false ("plugin " +:+ mf_Name m +:+ " requires PluginAPI " +:+ mf_PluginAPI m +:+
             " not supported by kernel " +:+ k_Version kernel) "plugin_api",
           Some ("plugin " +:+ mf_Name m +:+ " incompatible: PluginAPI " +:+ mf_PluginAPI m +:+ " unsupported"))
        else (MkCompatResult true "ok" "", None) in
      if String.eqb (mf_MinKernel m) "" then check_api
      else
        match compareSemver (k_Version kernel) (mf_MinKernel m) with
        | Err e =>
            (MkCompatResult false ("invalid kernel version " +:+ k_Version kernel +:+ ": " +:+ e) "invalid_kernel", Some e)
        | Ok cmp =>
            if cmp <? 0 then
              (MkCompatResult false ("plugin " +:+ mf_Name m +:+ " requires kernel >= " +:+ mf_MinKernel m +:+
                 ", current kernel is " +:+ k_Version kernel) "min_kernel",
               Some ("plugin " +:+ mf_Name m +:+ " incompatible: kernel " +:+ k_Version kernel +:+ " < required " +:+ mf_MinKernel m))
            else check_api
        end
  end.

(** ** Capability negotiation (capability.go) *)

Record Capability : Type := MkCapability {
  cap_Name : string;
  cap_Namespace : string;
  cap_Version : string;
  cap_Required : bool }.

Definition namespaceOf (name : string) : string := before_byte "." name.

Definition Capability_Parse (name : string) : result error Capability :=
  let name := TrimSpace name in
  if String.eqb name "" then Err "capability: empty name" else Ok (MkCapability name (namespaceOf name) "" true).

Definition ParseOptional (name : string) : result error Capability :=
  match Capability_Parse name with
  | Err e => Err e
  | Ok c => Ok (MkCapability (cap_Name c) (cap_Namespace c) (cap_Version c) false)
  end.

(** The tokens that parse. *)
Definition parse_capabilities (names : list string) : list Capability :=
  omap (fun n => match Capability_Parse n with Ok c => Some c | Err _ => None end) names.

Definition NewHostProvider (names : list string) : list Capability := parse_capabilities names.

Definition HostProvider_Has (host : list Capability) (name : string) : bool :=
  existsb (fun c => String.eqb (cap_Name c) name) host.

Inductive CapState : Type := StateGranted | StateMissing | StateOptionalMissing.

Record Outcome : Type := MkOutcome { oc_Cap : Capability; oc_State : CapState; oc_Reason : string }.

Record NegotiationResult : Type := MkNegotiation {
  ng_Outcomes : list Outcome;
  ng_AllGranted : bool;
  ng_Missing : list string;
  ng_OptionalMissing : list string }.

Fixpoint negotiate_loop (host : list Capability) (required : list Capability) (res : NegotiationResult) : NegotiationResult :=
  match required with
  | [] => res
  | req :: required' =>
      negotiate_loop host required'
        (if HostProvider_Has host (cap_Name req) then
           MkNegotiation (ng_Outcomes res ++ [MkOutcome req StateGranted ("host provides " +:+ cap_Name req)])
             (ng_AllGranted res) (ng_Missing res) (ng_OptionalMissing res)
         else if cap_Required req then
           MkNegotiation (ng_Outcomes res ++ [MkOutcome req StateMissing (cap_Name req +:+ " required but not provided by host")])
             false (ng_Missing res ++ [cap_Name req]) (ng_OptionalMissing res)
         else
           MkNegotiation (ng_Outcomes res ++ [MkOutcome req StateOptionalMissing (cap_Name req +:+ " optional and not provided by host")])
             (ng_AllGranted res) (ng_Missing res) (ng_OptionalMissing res ++ [cap_Name req]))
  end.

Definition Negotiate (required host : list Capability) : NegotiationResult :=
  negotiate_loop host required (MkNegotiation [] true [] []).

(** ** Versions are ordered *)

(** Equal up to trailing zeros. *)
Definition same_version (a b : list Z) : Prop := forall i, nth i a 0 = nth i b 0.

(** Less at the first segment that differs. *)
Definition older (a b : list Z) : Prop := exists i, nth i a 0 < nth i b 0 /\ forall j, (j < i)%nat -> nth j a 0 = nth j b 0.

Lemma compare_from_spec a b k i :
  (Nat.max (length a) (length b) <= i + k)%nat -> (forall j, (j < i)%nat -> nth j a 0 = nth j b 0) ->
  (compare_from a b k i = -1 /\ older a b) \/ (compare_from a b k i = 1 /\ older b a) \/
  (compare_from a b k i = 0 /\ same_version a b).
Proof.
  revert i. induction k as [|k IH]; intros i Hk Hj; cbn [compare_from].
  - right; right. split; [done|]. intros j. destruct (decide (j < i)%nat); [by apply Hj|]. by rewrite !nth_overflow by lia.
  - destruct (Z.ltb_spec (nth i a 0) (nth i b 0)); [left; split; [done|by exists i]|].
    destruct (Z.ltb_spec (nth i b 0) (nth i a 0)).
    { right; left. split; [done|]. exists i. split; [done|]. intros j ?. by rewrite Hj. }
    apply IH; [lia|]. intros j ?. destruct (decide (j = i)) as [->|]; [lia|]. apply Hj. lia.
Qed.

Lemma compare_segments_spec a b :
  (compare_segments a b = -1 /\ older a b) \/ (compare_segments a b = 1 /\ older b a) \/
  (compare_segments a b = 0 /\ same_version a b).
Proof. apply compare_from_spec; [lia|]. intros j ?. lia. Qed.

Lemma older_trans a b c : older a b -> older b c -> older a c.
Proof.
  intros (i & Hi & Hij) (k & Hk & Hkj). exists (Nat.min i k). split.
  - destruct (Nat.lt_trichotomy i k) as [H|[->|H]].
    + rewrite Nat.min_l by lia. rewrite <- (Hkj i) by lia. done.
    + rewrite Nat.min_id. lia.
    + rewrite Nat.min_r by lia. rewrite (Hij k) by lia. done.
  - intros j ?. rewrite Hij, Hkj by lia. done.
Qed.

Lemma older_irrefl a : ~ older a a.
Proof. intros (i & Hi & _). lia. Qed.

#[export] Instance same_version_equiv : Equivalence same_version.
Proof.
  split; [done|intros a b H i; by rewrite H|]. intros a b c H1 H2 i. by rewrite H1.
Qed.

#[export] Instance older_proper : Proper (same_version ==> same_version ==> iff) older.
Proof.
  assert (Hone : forall a a' b b', same_version a a' -> same_version b b' -> older a b -> older a' b').
  { intros a a' b b' Ha Hb (i & Hi & Hj). exists i. split; [by rewrite <- (Ha i), <- (Hb i)|].
    intros j ?. rewrite <- (Ha j), <- (Hb j). by apply Hj. }
  intros a a' Ha b b' Hb. split; apply Hone; done.
Qed.

(** The verdict of [compareSemver] on segments is the order: a decision between
    older, newer and the same. *)
Lemma compare_segments_iff a b :
  (compare_segments a b = -1 <-> older a b) /\ (compare_segments a b = 1 <-> older b a) /\
  (compare_segments a b = 0 <-> same_version a b).
Proof.
  assert (Hd : forall x y, older x y -> ~ older y x) by (intros x y H1 H2; by apply (older_irrefl x), (older_trans x y x)).
  assert (Hs : forall x y, same_version x y -> ~ older x y) by (intros x y -> H2; by apply (older_irrefl y)).
  assert (Hs' : forall x y, same_version x y -> ~ older y x) by (intros x y -> H2; by apply (older_irrefl y)).
  destruct (compare_segments_spec a b) as [[-> H]|[[-> H]|[-> H]]]; (split; [|split]); split; try done; intros H'; exfalso;
    solve [by eapply Hd | by eapply Hs | by eapply Hs'].
Qed.

(** What a manifest spells: numbers with dots, a [v] in front or not. *)
Definition spell_version (ns : list Z) : string := join_byte "." (map pretty ns).

Lemma pretty_no_byte c z : 0 <= z -> is_digit c = false -> has_byte c (pretty z) = false.
Proof.
  intros Hz Hc. destruct (pretty_digits z Hz) as (_ & Hd & _). induction (pretty z) as [|a s IH]; [done|].
  cbn in *. apply andb_true_iff in Hd as [Ha Hd]. rewrite IH by done. rewrite orb_false_r.
  apply Ascii.eqb_neq. intros ->. congruence.
Qed.

Lemma version_segments_pretty ns :
  Forall (fun n => 0 <= n <= max_int64) ns -> version_segments (map pretty ns) = Ok ns.
Proof.
  induction 1 as [|n ns Hn _ IH]; [done|]. cbn [map version_segments].
  pose proof (ParseInt_pretty n Hn) as Hp. rewrite (proj1 (digits_trim _ (proj1 (proj2 (pretty_digits n ltac:(lia)))))) in Hp.
  rewrite Hp, IH. destruct (Z.ltb_spec n 0); [lia|done].
Qed.

Lemma spell_graphic ns : Forall (fun n => 0 <= n <= max_int64) ns -> all_graphic (spell_version ns) = true.
Proof.
  intros Hn. unfold spell_version. induction Hn as [|n ns Hn Hns IH]; [done|].
  pose proof (digits_graphic _ (proj1 (proj2 (pretty_digits n ltac:(lia))))) as Hd.
  destruct ns as [|n' ns]; [done|]. cbn [map join_byte] in *. rewrite graphic_append, Hd. cbn. by apply IH.
Qed.

Lemma spell_head ns : ns <> [] -> Forall (fun n => 0 <= n <= max_int64) ns ->
  exists a r, spell_version ns = String a r /\ is_digit a = true.
Proof.
  intros Hne Hn. destruct ns as [|n ns]; [done|]. apply Forall_cons in Hn as [Hn _].
  destruct (pretty_digits n ltac:(lia)) as (_ & _ & a & r & E & Ha).
  unfold spell_version. destruct ns as [|n' ns]; cbn [map join_byte]; rewrite E; [by exists a, r|].
  exists a. eexists. by rewrite append_cons.
Qed.

(** ** Properties *)

(** Versions survive printing: a version spelled as numbers with dots, with a
    [v] in front or not, is read back as these numbers. *)
Theorem version_roundtrip ns :
  ns <> [] -> Forall (fun n => 0 <= n <= max_int64) ns ->
  splitVersion (spell_version ns) = Ok ns /\ splitVersion (String "v" (spell_version ns)) = Ok ns.
Proof.
  intros Hne Hn. pose proof (spell_graphic ns Hn) as Hg. destruct (spell_head ns Hne Hn) as (a & r & E & Ha).
  assert (Hseg : version_segments (Split (spell_version ns) ".") = Ok ns).
  { unfold spell_version. rewrite Split_join; [by apply version_segments_pretty|by destruct ns|].
    apply Forall_map. eapply Forall_impl; [exact Hn|]. intros n ?. cbn in *. apply pretty_no_byte; [lia|done]. }
  assert (Hv : TrimPrefix (spell_version ns) "v" = spell_version ns).
  { rewrite E. unfold TrimPrefix, HasPrefix. cbn -[ascii_dec]. destruct (ascii_dec _ _) as [E0|]; [subst a; discriminate Ha|done]. }
  unfold splitVersion. rewrite !TrimSpace_graphic by (cbn [all_graphic]; by rewrite ?Hg). split.
  - rewrite Hv, E in *. done.
  - change (String "v" (spell_version ns)) with ("v" +:+ spell_version ns). by rewrite TrimPrefix_app.
Qed.

(** The compatibility gate (Phase 3.5): a manifest is compatible exactly when
    the kernel's version is readable and not older than the minimum it names, if
    it names one, and the kernel supports the API it names, if it names one; an
    error is returned with every rejection and with no admission. *)
Theorem compat_gate_decides m kernel :
  let '(res, err) := DefaultGate_Check (Some m) kernel in
  (cr_Compatible res = true <->
     (mf_MinKernel m = "" \/ exists ks ms, splitVersion (k_Version kernel) = Ok ks /\ splitVersion (mf_MinKernel m) = Ok ms /\
        (older ms ks \/ same_version ms ks)) /\
     (mf_PluginAPI m = "" \/ mf_PluginAPI m ∈ k_SupportedAPIs kernel)) /\
  (err = None <-> cr_Compatible res = true).
Proof.
  assert (Hapi : negb (String.eqb (mf_PluginAPI m) "") && negb (existsb (String.eqb (mf_PluginAPI m)) (k_SupportedAPIs kernel)) = false
    <-> mf_PluginAPI m = "" \/ mf_PluginAPI m ∈ k_SupportedAPIs kernel).
  { rewrite andb_false_iff, !negb_false_iff, String.eqb_eq, existsb_exists. setoid_rewrite String.eqb_eq.
    rewrite list_elem_of_In. split; (intros [?|?]; [by left|right]); [by destruct H as (? & ? & ->)|by eexists]. }
  unfold DefaultGate_Check. cbv zeta. set (api := _ && _) in *.
  destruct (String.eqb_spec (mf_MinKernel m) "") as [Em|Em].
  { destruct api; cbn; (split; [|done]); rewrite <- Hapi; [split; [done|by intros [_ ?]]|split; [by split; [left|]|done]]. }
  unfold compareSemver. destruct (splitVersion (k_Version kernel)) as [ks|e].
  2: { cbn. split; [|done]. split; [done|]. by intros [[?|(? & ? & ? & _)] _]. }
  destruct (splitVersion (mf_MinKernel m)) as [ms|e].
  2: { cbn. split; [|done]. split; [done|]. by intros [[?|(? & ? & _ & ? & _)] _]. }
  destruct (compare_segments_iff ks ms) as (Hlt & Hgt & Heq).
  destruct (Z.ltb_spec (compare_segments ks ms) 0) as [Hc|Hc].
  - cbn. split; [|done]. split; [done|]. intros [[?|(ks' & ms' & [= <-] & [= <-] & Hle)] _]; [done|]. exfalso.
    assert (Ho : older ks ms) by (apply Hlt; destruct (compare_segments_spec ks ms) as [[? _]|[[? _]|[? _]]]; lia).
    destruct Hle as [Hle|Hle]; [by apply (older_irrefl ks), (older_trans ks ms ks)|rewrite Hle in Ho; by apply (older_irrefl ks)].
  - assert (Hle : older ms ks \/ same_version ms ks).
    { destruct (compare_segments_spec ks ms) as [[? _]|[[_ ?]|[_ Hs]]]; [lia|by left|right; by symmetry]. }
    destruct api; cbn; (split; [|done]); rewrite <- Hapi; [split; [done|by intros [_ ?]]|].
    split; [|done]. intros _. split; [|done]. right. by exists ks, ms.
Qed.

(** Negotiation (Phase 3.7): every requirement gets its outcome, in order; the
    missing ones are exactly the required capabilities the host does not provide,
    an optional one never blocks, and all is granted exactly when none is
    missing. *)
Theorem negotiation_exact required host :
  let res := Negotiate required host in
  map oc_Cap (ng_Outcomes res) = required /\
  ng_Missing res = map cap_Name (List.filter (fun c => cap_Required c && negb (HostProvider_Has host (cap_Name c))) required) /\
  ng_OptionalMissing res =
    map cap_Name (List.filter (fun c => negb (cap_Required c) && negb (HostProvider_Has host (cap_Name c))) required) /\
  (ng_AllGranted res = true <-> ng_Missing res = []).
Proof.
  unfold Negotiate. cbv zeta.
  assert (Hloop : forall req res, (ng_AllGranted res = true <-> ng_Missing res = []) ->
    let res' := negotiate_loop host req res in
    map oc_Cap (ng_Outcomes res') = map oc_Cap (ng_Outcomes res) ++ req /\
    ng_Missing res' = ng_Missing res ++ map cap_Name (List.filter (fun c => cap_Required c && negb (HostProvider_Has host (cap_Name c))) req) /\
    ng_OptionalMissing res' = ng_OptionalMissing res ++
      map cap_Name (List.filter (fun c => negb (cap_Required c) && negb (HostProvider_Has host (cap_Name c))) req) /\
    (ng_AllGranted res' = true <-> ng_Missing res' = [])).
  { induction req as [|c req IH]; intros res Hr; cbn [negotiate_loop List.filter map]; [by rewrite !app_nil_r|].
    match goal with |- context [negotiate_loop host req ?r] => assert (Hn : ng_AllGranted r = true <-> ng_Missing r = []) end.
    { destruct (HostProvider_Has host (cap_Name c)); [done|]. destruct (cap_Required c); [|done]. cbn.
      split; [done|]. by intros []%app_nil. }
    destruct (IH _ Hn) as (H1 & H2 & H3 & H4). rewrite H1, H2, H3. split_and!; [| | |by rewrite <- H2].
    all: destruct (HostProvider_Has host (cap_Name c)), (cap_Required c); cbn [ng_Outcomes ng_Missing ng_OptionalMissing andb negb map];
      rewrite ?map_app; cbn; by rewrite <- ?app_assoc. }
  destruct (Hloop required (MkNegotiation [] true [] [])) as (? & ? & ? & ?); done.
Qed.

(** ** Witnesses *)

Lemma version_roundtrip_witness : splitVersion "v0.2.10" = Ok [0; 2; 10].
Proof.
  assert (Hn : Forall (fun n => 0 <= n <= max_int64) [0; 2; 10]) by (repeat constructor; vm_compute; discriminate).
  exact (proj2 (version_roundtrip [0; 2; 10] ltac:(discriminate) Hn)).
Defined.
