(* ===== verification/Rbac.v ===== *)
(** * Authorization and the metadata synchronizer
      (internal/controlplane/auth/rbac.go, internal/controlplane/sync/sync.go)

    Who may run what, and how operations get into the store. The synchronizer
    and the plugin manager work against the storage interface, whose calls may
    fail; authorization is stated on the store in memory. *)

From Stdlib Require Import Ascii.
From S2P Require Import Prelude GoStrings Executor Dispatch PluginContract ControlStore.

(** ** The storage interface *)

(** What the synchronizer and the plugin manager use of [storage.Storage]. *)
Class Storage (S : Type) := {
  Operations_Save : S -> ControlStore.Operation -> S * result error ControlStore.Operation;
  Operations_GetByName : S -> string -> result error ControlStore.Operation;
  Operations_SetEnabled : S -> string -> bool -> S * option error;
  Roles_Save : S -> Role -> S * result error Role;
  Roles_AddOperation : S -> Z -> Z -> S * option error;
  Plugins_Upsert : S -> Plugin -> S * option error;
  Plugins_List : S -> result error (list Plugin);
  Plugins_SetEnabled : S -> string -> bool -> S * option error;
  Plugins_SetStatus : S -> string -> string -> S * option error;
  Audit_Append : S -> ControlStore.AuditEvent -> S }.

(** The store in memory fails only where a row is missing. *)
#[export] Instance memory_storage : Storage MemoryStorage := {|
  Operations_Save s op := let '(x, r) := memOperationStore_Save (st_op s) op in (with_ops s x, Ok r);
  Operations_GetByName s n := memOperationStore_GetByName (st_op s) n;
  Operations_SetEnabled s n b := let '(x, e) := memOperationStore_SetEnabled (st_op s) n b in (with_ops s x, e);
  Roles_Save s r := let '(x, r) := memRoleStore_Save (st_role s) r in (with_roles s x, Ok r);
  Roles_AddOperation s r o := (with_roles s (memRoleStore_AddOperation (st_role s) r o), None);
  Plugins_Upsert s p := (with_plugins s (memPluginStore_Upsert (st_plugin s) p), None);
  Plugins_List s := Ok (memPluginStore_List (st_plugin s));
  Plugins_SetEnabled s id b := let '(x, e) := memPluginStore_SetEnabled (st_plugin s) id b in (with_plugins s x, e);
  Plugins_SetStatus s id v := let '(x, e) := memPluginStore_SetStatus (st_plugin s) id v in (with_plugins s x, e);
  Audit_Append s e := with_audit s (fst (memAuditStore_Append (st_audit s) e)) |}.

(** ** Authorization (rbac.go) *)

Definition ErrOperationNotFound : error := "auth: operation not found".
Definition ErrOperationDisabled : error := "auth: operation disabled".
Definition ErrForbidden : error := "auth: forbidden".

Definition Can (stor : MemoryStorage) (username operation : string) : bool :=
  match memUserStore_GetByUsername (st_user stor) username with
  | Err _ => false
  | Ok u =>
      existsb (fun r => existsb (fun op => String.eqb (op_Name op) operation)
                          (memRoleStore_Operations (st_role stor) (st_op stor) (r_ID r)))
        (memUserStore_Roles (st_user stor) (st_role stor) (u_ID u))
  end.

Definition Authorize (stor : MemoryStorage) (username operation : string) : option error :=
  match memOperationStore_GetByName (st_op stor) operation with
  | Err _ => Some ErrOperationNotFound
  | Ok op =>
      if negb (op_Enabled op) then Some ErrOperationDisabled
      else if Can stor username operation then None
      else Some ErrForbidden
  end.

(** ** The synchronizer (sync.go) *)

Section Sync.
Context {Ctx Input S : Type} `{!Storage S}.

Definition DefaultAdminRole : string := "admin".

Definition system_op (name : string) : ControlStore.Operation :=
  ControlStore.MkOperation 0 name "execution" name "low" "system" true.

Definition systemOps : list ControlStore.Operation :=
  map system_op ["execution.create"; "execution.read"; "execution.cancel"; "execution.list"].

Definition syncOne (s : S) (source : string) (op : ControlStore.Operation) : S * result error ControlStore.Operation :=
  let op := ControlStore.MkOperation (op_ID op) (op_Name op) (op_ResourceType op) (op_ActionType op) (op_Risk op) source true in
  match Operations_Save s op with
  | (s, Err e) => (s, Err e)
  | (s, Ok _) => (s, Operations_GetByName s (op_Name op))
  end.

(** The row of a registered operation. *)
Definition projection (op : Dispatch.Operation Ctx Input) : ControlStore.Operation :=
  ControlStore.MkOperation 0 (Dispatch.op_Name op) (ResourceType (op_Permission op)) (perm_Action (op_Permission op))
    (RiskLevel_String (Dispatch.op_Risk op)) "" false.

Definition with_source (op : Dispatch.Operation Ctx Input) (source : string) : Dispatch.Operation Ctx Input :=
  Dispatch.MkOperation (Dispatch.op_Name op) (op_Permission op) (Dispatch.op_Risk op) (op_Handler op) source.

(** [SyncPlugin]: the operations are in the registry and the store up to the
    first that fails. *)
Fixpoint SyncPlugin (reg : Registry Ctx Input) (s : S) (pluginName : string) (ops : list (Dispatch.Operation Ctx Input))
  : Registry Ctx Input * S * option error :=
  match ops with
  | [] => (reg, s, None)
  | op :: ops' =>
      match ValidateOperation (Dispatch.op_Name op) (op_Permission op) with
      | Some e => (reg, s, Some ("plugin " +:+ pluginName +:+ ": " +:+ e))
      | None =>
          let reg := Registry_Register reg (with_source op ("plugin:" +:+ pluginName)) in
          match syncOne s ("plugin:" +:+ pluginName) (projection op) with
          | (s, Err e) => (reg, s, Some e)
          | (s, Ok _) => SyncPlugin reg s pluginName ops'
          end
      end
  end.

Fixpoint sync_builtins (reg : Registry Ctx Input) (s : S) (ops : list (Dispatch.Operation Ctx Input))
  : Registry Ctx Input * S * result error (list ControlStore.Operation) :=
  match ops with
  | [] => (reg, s, Ok [])
  | op :: ops' =>
      let op := if String.eqb (Dispatch.op_Source op) "" || String.eqb (Dispatch.op_Source op) "builtin"
        then with_source op "builtin" else op in
      let reg := Registry_Register reg op in
      match syncOne s "builtin" (projection op) with
      | (s, Err e) => (reg, s, Err e)
      | (s, Ok so) =>
          match sync_builtins reg s ops' with
          | (reg, s, Err e) => (reg, s, Err e)
          | (reg, s, Ok all) => (reg, s, Ok (so :: all))
          end
      end
  end.

Fixpoint sync_system (s : S) (ops : list ControlStore.Operation) : S * result error (list ControlStore.Operation) :=
  match ops with
  | [] => (s, Ok [])
  | so :: ops' =>
      match syncOne s "system" so with
      | (s, Err e) => (s, Err e)
      | (s, Ok so) =>
          match sync_system s ops' with
          | (s, Err e) => (s, Err e)
          | (s, Ok all) => (s, Ok (so :: all))
          end
      end
  end.

Fixpoint grant_all (s : S) (roleID : Z) (ops : list ControlStore.Operation) : S * option error :=
  match ops with
  | [] => (s, None)
  | op :: ops' =>
      match Roles_AddOperation s roleID (op_ID op) with
      | (s, Some e) => (s, Some e)
      | (s, None) => grant_all s roleID ops'
      end
  end.

Definition bootstrapAdmin (s : S) (ops : list ControlStore.Operation) : S * option error :=
  match Roles_Save s (MkRole 0 DefaultAdminRole "superuser — granted every synced operation") with
  | (s, Err e) => (s, Some e)
  | (s, Ok role) => grant_all s (r_ID role) ops
  end.

(** [Sync]; [List] answers in the order of the map's iteration. *)
Definition Sync (reg : Registry Ctx Input) (s : S) : Registry Ctx Input * S * option error :=
  match sync_builtins reg s (Registry_List reg) with
  | (reg, s, Err e) => (reg, s, Some e)
  | (reg, s, Ok all) =>
      match sync_system s systemOps with
      | (s, Err e) => (reg, s, Some e)
      | (s, Ok sys) => let '(s, e) := bootstrapAdmin s (all ++ sys) in (reg, s, e)
      end
  end.

End Sync.

(** ** Who is authorized *)

(** A role of the user grants the operation: by id, through roles that are
    there. *)
Definition granted (stor : MemoryStorage) (username : string) (opID : Z) : Prop :=
  exists u role, us_byName (st_user stor) !! username = Some u /\
    role ∈ default [] (us_roles (st_user stor) !! u_ID u) /\ is_Some (rs_items (st_role stor) !! role) /\
    opID ∈ default [] (rs_ops (st_role stor) !! role).

Lemma existsb_elem {A} (f : A -> bool) (l : list A) : existsb f l = true <-> exists x, x ∈ l /\ f x = true.
Proof. rewrite existsb_exists. by setoid_rewrite list_elem_of_In. Qed.

Lemma Can_spec stor username name op :
  storage_wf stor -> os_items (st_op stor) !! name = Some op ->
  Can stor username name = true <-> granted stor username (op_ID op).
Proof.
  intros Hw Ho. pose proof (wf_op _ Hw) as Hops. destruct (ix_name _ _ _ _ _ Hops _ _ Ho) as (Hn & Hb & _).
  unfold Can, granted, memUserStore_GetByUsername, memUserStore_Roles, memRoleStore_Operations.
  destruct (us_byName (st_user stor) !! username) as [u|]; [|split; [done|by intros (? & ? & ? & _)]].
  rewrite existsb_elem. split.
  - intros (r & (id & Hid & Hr)%list_elem_of_omap & (o & (i & Hi & Hoi)%list_elem_of_omap & Hname%String.eqb_eq)%existsb_elem).
    destruct (rw_id _ (wf_role _ Hw) _ _ Hr) as [Hrid _]. rewrite Hrid in Hi. exists u, id. split_and!; [done|done|by rewrite Hr|].
    destruct (ix_id _ _ _ _ _ Hops _ _ Hoi) as [Ei Hoi']. rewrite Hname, Ho in Hoi'. injection Hoi' as <-. by rewrite Ei.
  - intros (u' & id & [= <-] & Hid & [r Hr] & Hi). exists r. split; [apply list_elem_of_omap; by exists id|].
    apply existsb_elem. exists op. split; [|by apply String.eqb_eq]. apply list_elem_of_omap. exists (op_ID op).
    destruct (rw_id _ (wf_role _ Hw) _ _ Hr) as [-> _]. done.
Qed.

Lemma Authorize_spec stor username name :
  storage_wf stor ->
  Authorize stor username name =
    match os_items (st_op stor) !! name with
    | None => Some ErrOperationNotFound
    | Some op => if op_Enabled op then if Can stor username name then None else Some ErrForbidden else Some ErrOperationDisabled
    end.
Proof.
  intros Hw. unfold Authorize, memOperationStore_GetByName. destruct (os_items (st_op stor) !! name) as [op|]; [|done].
  by destruct (op_Enabled op).
Qed.

(** ** Synchronizing the store in memory *)

(** [syncOne] on the store in memory: the row is there, enabled, under the id
    its name had; nothing else changes. *)
Record synced (s s' : MemoryStorage) (name : string) (row : ControlStore.Operation) : Prop := {
  sy_row : os_items (st_op s') !! name = Some row;
  sy_name : op_Name row = name;
  sy_enabled : op_Enabled row = true;
  sy_id : forall old, os_items (st_op s) !! name = Some old -> op_ID row = op_ID old;
  sy_others : forall n, n <> name -> os_items (st_op s') !! n = os_items (st_op s) !! n;
  sy_rest : st_user s' = st_user s /\ st_role s' = st_role s /\ st_plugin s' = st_plugin s }.

Lemma syncOne_memory s source op :
  exists row, syncOne s source op = (with_ops s (fst (memOperationStore_Save (st_op s)
      (ControlStore.MkOperation (op_ID op) (op_Name op) (op_ResourceType op) (op_ActionType op) (op_Risk op) source true))), Ok row) /\
    synced s (fst (syncOne s source op)) (op_Name op) row /\
    op_ResourceType row = op_ResourceType op /\ op_Source row = source.
Proof.
  unfold syncOne, Operations_Save, Operations_GetByName, memory_storage, memOperationStore_Save, memOperationStore_GetByName.
  cbn [op_Name ControlStore.op_ID].
  destruct (os_items (st_op s) !! op_Name op) as [old|] eqn:E; cbn [fst st_op with_ops put_op os_items op_Name with_op_id];
    rewrite lookup_insert_eq; eexists; (split; [reflexivity|]); (split; [split|split; reflexivity]);
    cbn [st_op with_ops put_op os_items fst]; rewrite ?lookup_insert_eq; try done.
  - intros o Ho. rewrite E in Ho. by injection Ho as <-.
  - intros n Hn. by rewrite lookup_insert_ne.
  - intros o Ho. by rewrite E in Ho.
  - intros n Hn. by rewrite lookup_insert_ne.
Qed.

Lemma syncOne_wf s source op : storage_wf s -> storage_wf (fst (syncOne s source op)).
Proof.
  intros Hw. destruct (syncOne_memory s source op) as (row & E & _). rewrite E. cbn [fst].
  apply (exec_store_wf s (CmdSaveOperation _) Hw).
Qed.

(** A name that has an enabled row of that id keeps it. *)
Definition active (s : MemoryStorage) (name : string) (id : Z) : Prop :=
  exists row, os_items (st_op s) !! name = Some row /\ op_Enabled row = true /\ op_ID row = id.

Lemma synced_active s s' name row n id : synced s s' name row -> active s n id -> active s' n id.
Proof.
  intros Hs (r & Hr & He & <-). destruct (decide (n = name)) as [->|Hne].
  - exists row. split; [apply Hs|]. split; [apply Hs|]. by apply (sy_id _ _ _ _ Hs).
  - exists r. by rewrite (sy_others _ _ _ _ Hs).
Qed.

Section SyncMemory.
Context {Ctx Input : Type}.

Lemma sync_builtins_memory (ops : list (Dispatch.Operation Ctx Input)) reg s :
  storage_wf s ->
  exists reg' s' all, sync_builtins reg s ops = (reg', s', Ok all) /\ storage_wf s' /\
    st_user s' = st_user s /\ st_role s' = st_role s /\
    (forall n id, active s n id -> active s' n id) /\
    (forall op, op ∈ ops -> exists so, so ∈ all /\ active s' (Dispatch.op_Name op) (op_ID so)).
Proof.
  revert reg s. induction ops as [|op ops IH]; intros reg s Hw; cbn [sync_builtins].
  { exists reg, s, []. split_and!; try done. by intros op ?%elem_of_nil. }
  set (op' := if String.eqb (Dispatch.op_Source op) "" || _ then with_source op "builtin" else op).
  assert (Hname : Dispatch.op_Name op' = Dispatch.op_Name op) by (unfold op'; by destruct (_ || _)).
  pose proof (syncOne_wf s "builtin" (projection op') Hw) as Hw1.
  destruct (syncOne_memory s "builtin" (projection op')) as (row & E & Hs & _). rewrite E in *. cbn [fst] in *.
  destruct (IH (Registry_Register reg op') _ Hw1) as (reg2 & s2 & all & E2 & Hw2 & Hu & Hr & Hact & Hall). rewrite E2.
  destruct (sy_rest _ _ _ _ Hs) as (Hu1 & Hr1 & _). exists reg2, s2, (row :: all). split_and!; try done; try congruence.
  - intros n id Ha. apply Hact. by eapply synced_active.
  - intros o [->|Ho]%elem_of_cons.
    + exists row. split; [left|]. apply Hact. exists row. rewrite <- Hname. split; [apply (sy_row _ _ _ _ Hs)|].
      split; [apply Hs|done].
    + destruct (Hall o Ho) as (so & Hso & ?). exists so. split; [by right|done].
Qed.

Lemma sync_system_memory ops s :
  storage_wf s ->
  exists s' all, sync_system s ops = (s', Ok all) /\ storage_wf s' /\ st_user s' = st_user s /\ st_role s' = st_role s /\
    (forall n id, active s n id -> active s' n id) /\
    (forall op, op ∈ ops -> exists so, so ∈ all /\ active s' (op_Name op) (op_ID so)).
Proof.
  revert s. induction ops as [|op ops IH]; intros s Hw; cbn [sync_system].
  { exists s, []. split_and!; try done. by intros op ?%elem_of_nil. }
  pose proof (syncOne_wf s "system" op Hw) as Hw1.
  destruct (syncOne_memory s "system" op) as (row & E & Hs & _). rewrite E in *. cbn [fst] in *.
  destruct (IH _ Hw1) as (s2 & all & E2 & Hw2 & Hu & Hr & Hact & Hall). rewrite E2.
  destruct (sy_rest _ _ _ _ Hs) as (Hu1 & Hr1 & _). exists s2, (row :: all). split_and!; try done; try congruence.
  - intros n id Ha. apply Hact. by eapply synced_active.
  - intros o [->|Ho]%elem_of_cons.
    + exists row. split; [left|]. apply Hact. exists row. split; [apply Hs|]. split; [apply Hs|done].
    + destruct (Hall o Ho) as (so & Hso & ?). exists so. split; [by right|done].
Qed.

Lemma id_list_add_elem l id x : x ∈ id_list_add l id <-> x ∈ l \/ x = id.
Proof.
  unfold id_list_add. case_bool_decide.
  - split; [by left|]. by intros [?| ->].
  - rewrite elem_of_app, list_elem_of_singleton. done.
Qed.

Lemma grant_all_memory ops s roleID :
  storage_wf s ->
  exists s', grant_all s roleID ops = (s', None) /\ storage_wf s' /\ st_user s' = st_user s /\ st_op s' = st_op s /\
    rs_items (st_role s') = rs_items (st_role s) /\
    (forall x, x ∈ default [] (rs_ops (st_role s) !! roleID) -> x ∈ default [] (rs_ops (st_role s') !! roleID)) /\
    (forall op, op ∈ ops -> op_ID op ∈ default [] (rs_ops (st_role s') !! roleID)).
Proof.
  revert s. induction ops as [|op ops IH]; intros s Hw; cbn [grant_all].
  { exists s. split_and!; try done. by intros op ?%elem_of_nil. }
  cbn [Roles_AddOperation memory_storage].
  destruct (IH _ (exec_store_wf s (CmdAddOperation roleID (op_ID op)) Hw)) as (s' & E & Hw' & Hu & Ho & Hr & Hkeep & Hnew).
  cbn [exec_store] in *. rewrite E. exists s'. split_and!; try done.
  - intros x Hx. apply Hkeep. cbn. rewrite lookup_insert_eq. apply id_list_add_elem. by left.
  - intros o [->|Hin]%elem_of_cons; [|by apply Hnew]. apply Hkeep. cbn. rewrite lookup_insert_eq. apply id_list_add_elem. by right.
Qed.

End SyncMemory.

(** ** Properties *)

(** C28. Authorization (ADR-004): the answer is decided, in this order, by whether the
    operation is known, whether it is enabled, and whether a role of the user
    that exists grants its id; an unknown user is refused. *)
Theorem authorize_decides stor username name :
  storage_wf stor ->
  (Authorize stor username name = Some ErrOperationNotFound <-> os_items (st_op stor) !! name = None) /\
  (Authorize stor username name = Some ErrOperationDisabled <->
     exists op, os_items (st_op stor) !! name = Some op /\ op_Enabled op = false) /\
  (Authorize stor username name = None <->
     exists op, os_items (st_op stor) !! name = Some op /\ op_Enabled op = true /\ granted stor username (op_ID op)) /\
  (us_byName (st_user stor) !! username = None -> Authorize stor username name <> None).
Proof.
  intros Hw. rewrite (Authorize_spec _ _ _ Hw). destruct (os_items (st_op stor) !! name) as [op|] eqn:Eo.
  2: { split_and!; [done|split; [done|by intros (? & ? & _)]|split; [done|by intros (? & ? & _)]|done]. }
  pose proof (Can_spec _ username _ _ Hw Eo) as Hc. destruct (op_Enabled op) eqn:Ee.
  - destruct (Can stor username name) eqn:Ec.
    + split_and!; [done|split; [done|intros (? & [= <-] & ?); congruence]| |].
      * split; [|done]. intros _. exists op. split; [done|]. split; [done|]. by apply Hc.
      * intros Hu. destruct (proj1 Hc eq_refl) as (u & ? & Hu' & _). congruence.
    + split_and!; [done|split; [done|intros (? & [= <-] & ?); congruence]| |done].
      split; [done|]. intros (o & [= <-] & _ & Hg). by apply Hc in Hg.
  - split_and!; [done| |split; [done|intros (? & [= <-] & ? & _); congruence]|done]. split; [|done]. intros _. by exists op.
Qed.

(** Bootstrap (Phase 1.3): synchronizing the registry into any well-formed store
    in memory succeeds, and a user with the admin role may then run every
    registered operation and every control-plane operation. *)
Theorem sync_grants_admin {Ctx Input} (reg : Registry Ctx Input) stor :
  storage_wf stor -> (forall n op, reg !! n = Some op -> Dispatch.op_Name op = n) ->
  exists reg' stor', Sync reg stor = (reg', stor', None) /\ storage_wf stor' /\
    forall username u role name,
      us_byName (st_user stor') !! username = Some u ->
      memRoleStore_GetByName (st_role stor') DefaultAdminRole = Ok role ->
      r_ID role ∈ default [] (us_roles (st_user stor') !! u_ID u) ->
      is_Some (reg !! name) \/ name ∈ map op_Name systemOps ->
      Authorize stor' username name = None.
Proof.
  intros Hw Hname. unfold Sync.
  destruct (sync_builtins_memory (Registry_List reg) reg stor Hw) as (reg1 & s1 & all & E1 & Hw1 & Hu1 & Hr1 & _ & Hall).
  rewrite E1. destruct (sync_system_memory systemOps s1 Hw1) as (s2 & sys & E2 & Hw2 & Hu2 & Hr2 & Hact & Hsys). rewrite E2.
  unfold bootstrapAdmin. cbn [Roles_Save memory_storage].
  pose proof (exec_store_wf s2 (CmdSaveRole DefaultAdminRole "superuser — granted every synced operation") Hw2) as Hw3.
  cbn [exec_store] in Hw3. destruct (memRoleStore_Save (st_role s2) _) as [roles role] eqn:Er. cbn [fst] in Hw3.
  destruct (grant_all_memory (all ++ sys) _ (r_ID role) Hw3) as (s4 & E4 & Hw4 & Hu4 & Ho4 & Hi4 & _ & Hgr). rewrite E4.
  exists reg1, s4. split; [done|]. split; [done|]. intros username u role' name Hu Hrole Hin Hop.
  assert (Hrow : rs_items roles !! r_ID role = Some role /\ r_Name role = DefaultAdminRole).
  { unfold memRoleStore_Save in Er. destruct (role_named _ _) as [[i q]|]; cbn in Er; simplify_eq; cbn; by rewrite lookup_insert_eq. }
  assert (Eid : r_ID role' = r_ID role).
  { unfold memRoleStore_GetByName in Hrole. destruct (role_named (st_role s4) DefaultAdminRole) as [[i q]|] eqn:Eq; [|done].
    injection Hrole as ->. apply role_named_Some in Eq as [Hq Hqn]. rewrite Hi4 in Hq. cbn in Hq.
    assert (i = r_ID role) as -> by (eapply (rw_name _ (wf_role _ Hw3)); [exact Hq|exact (proj1 Hrow)|destruct Hrow; congruence]).
    by destruct (rw_id _ (wf_role _ Hw3) _ _ Hq). }
  assert (Ha : exists so, so ∈ all ++ sys /\ active s2 name (op_ID so)).
  { destruct Hop as [[op Hop]|Hop].
    - destruct (Hall op) as (so & Hso & Ha).
      { unfold Registry_List. apply list_elem_of_fmap. exists (name, op). split; [done|]. by apply (elem_of_map_to_list (M:=gmap string)). }
      exists so. split; [apply elem_of_app; by left|]. apply Hact. by rewrite (Hname _ _ Hop) in Ha.
    - apply list_elem_of_In, in_map_iff in Hop as (op & <- & Hop). destruct (Hsys op) as (so & Hso & Ha); [by apply list_elem_of_In|].
      exists so. split; [apply elem_of_app; by right|done]. }
  destruct Ha as (so & Hso & row & Hrow' & He & Hid). cbn in Ho4. assert (Hitems : os_items (st_op s4) !! name = Some row) by (by rewrite Ho4).
  rewrite (Authorize_spec _ _ _ Hw4), Hitems, He. assert (Can s4 username name = true) as ->; [|done].
  apply (Can_spec _ _ _ _ Hw4 Hitems). exists u, (r_ID role). rewrite Eid in Hin. split_and!; [done|done| |].
  - rewrite Hi4. cbn. by rewrite (proj1 Hrow).
  - rewrite Hid. by apply Hgr.
Qed.

Lemma ValidateOperation_ok name perm :
  ValidateOperation name perm = None ->
  HasPrefix name "plugin." = true /\ ~ before_byte "."%char (drop_bytes 7 name) ∈ reservedPrefixes /\
  ResourceType perm <> "" /\ ~ ResourceType perm ∈ reservedResources.
Proof.
  unfold ValidateOperation. destruct (HasPrefix name "plugin."); [|done]. cbn [negb].
  destruct (existsb (String.eqb (before_byte "."%char (drop_bytes 7 name))) reservedPrefixes) eqn:E1; [done|].
  destruct (String.eqb_spec (ResourceType perm) ""); [done|]. destruct (String.eqb (perm_Action perm) ""); [done|]. cbn [orb].
  destruct (existsb (String.eqb (ResourceType perm)) reservedResources) eqn:E2; [done|]. intros _. split_and!; try done.
  - intros Hin. apply not_true_iff_false in E1. apply E1, existsb_elem. eexists. split; [done|]. apply String.eqb_refl.
  - intros Hin. apply not_true_iff_false in E2. apply E2, existsb_elem. eexists. split; [done|]. apply String.eqb_refl.
Qed.

(** A plugin cannot reach past its name space (MUST-2): whatever operations it
    declares and however far the synchronization gets, no registration and no
    row outside [plugin.] changes, nor users, roles and grants; and a row that
    changes has a non-reserved resource, a plugin name that is no system prefix,
    and the plugin as its source. *)
Theorem sync_plugin_confined {Ctx Input} (reg reg' : Registry Ctx Input) (s s' : MemoryStorage) id ops err :
  SyncPlugin reg s id ops = (reg', s', err) ->
  st_user s' = st_user s /\ st_role s' = st_role s /\
  (forall n, HasPrefix n "plugin." = false -> reg' !! n = reg !! n /\ os_items (st_op s') !! n = os_items (st_op s) !! n) /\
  (forall n row, os_items (st_op s') !! n = Some row -> os_items (st_op s) !! n = Some row \/
     (~ before_byte "."%char (drop_bytes 7 n) ∈ reservedPrefixes /\ ~ op_ResourceType row ∈ reservedResources /\
      op_Source row = "plugin:" +:+ id)).
Proof.
  revert reg s. induction ops as [|op ops IH]; intros reg s; cbn [SyncPlugin].
  { intros [= <- <- <-]. split_and!; try done. intros n row ?. by left. }
  destruct (ValidateOperation _ _) eqn:Ev; [intros [= <- <- <-]; split_and!; try done; intros n row ?; by left|].
  apply ValidateOperation_ok in Ev as (Hp & Hseg & _ & Hres).
  destruct (syncOne_memory s ("plugin:" +:+ id) (projection op)) as (row & E & Hs & Hrt & Hsrc). rewrite E in *. cbn [fst] in *.
  intros Hrun. destruct (IH _ _ Hrun) as (Hu & Hr & Hout & Hin). destruct (sy_rest _ _ _ _ Hs) as (Hu1 & Hr1 & _).
  split_and!; [congruence|congruence| |].
  - intros n Hn. destruct (Hout n Hn) as [Hreg Hit]. assert (Hne : n <> Dispatch.op_Name op) by (intros ->; congruence).
    rewrite Hreg, Hit, (sy_others _ _ _ _ Hs n Hne). split; [|done]. unfold Registry_Register. apply (lookup_insert_ne (M:=gmap string)). cbn. congruence.
  - intros n r Hrow. destruct (Hin n r Hrow) as [Hold|?]; [|by right].
    destruct (decide (n = Dispatch.op_Name op)) as [->|Hne].
    + right. pose proof (eq_trans (eq_sym Hold) (sy_row _ _ _ _ Hs)) as [= ->].
      by rewrite Hrt, Hsrc.
    + left. by rewrite <- (sy_others _ _ _ _ Hs n Hne).
Qed.

(** ** Witnesses *)

Definition plain_operation (name res : string) : Dispatch.Operation unit unit :=
  Dispatch.MkOperation name (MkPermission res "run") RiskLow (fun _ _ => Err "no plan") "".

Definition sample_registry : Registry unit unit :=
  Registry_Register (Registry_Register NewRegistry (plain_operation "system.disk.list" "disk")) (plain_operation "system.user.add" "user").

(** A store with a user that has the admin role. *)
Definition sample_store : MemoryStorage :=
  run_list exec_store NewMemoryStorage
    [CmdSaveUser (MkUser 0 "root" "hash" 0); CmdSaveUser (MkUser 0 "eve" "hash" 0); CmdSaveRole DefaultAdminRole "";
     CmdAddRole 1 1; CmdSaveOperation (ControlStore.MkOperation 0 "legacy" "x" "y" "low" "builtin" false)].

Lemma sample_store_wf : storage_wf sample_store.
Proof. apply run_store_wf. Qed.

Lemma sample_registry_names n op : sample_registry !! n = Some op -> Dispatch.op_Name op = n.
Proof.
  unfold sample_registry, Registry_Register, NewRegistry, Registry. rewrite !(lookup_insert_Some (M:=gmap string)).
  intros [[<- <-]|[_ [[<- <-]|[_ H]]]]; [done|done|by rewrite (lookup_empty (M:=gmap string)) in H].
Qed.

Lemma authorize_decides_witness :
  Authorize sample_store "root" "legacy" = Some ErrOperationDisabled /\
  Authorize sample_store "eve" "system.disk.list" = Some ErrOperationNotFound.
Proof.
  destruct (authorize_decides sample_store "root" "legacy" sample_store_wf) as (_ & H1 & _).
  destruct (authorize_decides sample_store "eve" "system.disk.list" sample_store_wf) as (H2 & _).
  split; [apply H1; eexists; split; vm_compute; reflexivity|apply H2; vm_compute; reflexivity].
Defined.

Lemma sync_grants_admin_witness :
  exists reg' stor', Sync sample_registry sample_store = (reg', stor', None) /\
    Authorize stor' "root" "system.disk.list" = None /\ Authorize stor' "root" "execution.cancel" = None /\
    Authorize stor' "eve" "system.disk.list" = Some ErrForbidden.
Proof.
  destruct (sync_grants_admin sample_registry sample_store sample_store_wf sample_registry_names) as (reg' & stor' & E & _ & H).
  exists reg', stor'. split; [exact E|].
  assert (Estor : stor' = snd (fst (Sync sample_registry sample_store))) by (rewrite E; reflexivity). subst stor'.
  set (stor' := snd (fst (Sync sample_registry sample_store))) in *.
  assert (Hu : us_byName (st_user stor') !! "root" = Some (MkUser 1 "root" "hash" 0)) by (vm_compute; reflexivity).
  assert (Hr : exists role, memRoleStore_GetByName (st_role stor') DefaultAdminRole = Ok role /\ r_ID role = 1)
    by (eexists; split; vm_compute; reflexivity).
  destruct Hr as (role & Hr & Hid).
  assert (Hin : r_ID role ∈ default [] (us_roles (st_user stor') !! 1)) by (rewrite Hid; vm_compute; left).
  split; [|split].
  - refine (H "root" _ role "system.disk.list" Hu Hr Hin (or_introl _)). eexists; vm_compute; reflexivity.
  - refine (H "root" _ role "execution.cancel" Hu Hr Hin (or_intror _)). vm_compute. right; right; left.
  - vm_compute. reflexivity.
Defined.

(** The second operation claims a system resource; the first one is in. *)
Lemma sync_plugin_confined_witness :
  let ops := [plain_operation "plugin.mysql.db.dump" "db"; plain_operation "plugin.mysql.host.reboot" "host"] in
  exists reg' s' e, SyncPlugin sample_registry sample_store "mysql@1" ops = (reg', s', Some e) /\
    reg' !! "system.disk.list" = sample_registry !! "system.disk.list" /\
    is_ok (memOperationStore_GetByName (st_op s') "plugin.mysql.db.dump") = true.
Proof.
  intros ops. destruct (SyncPlugin sample_registry sample_store "mysql@1" ops) as [[reg' s'] [e|]] eqn:E;
    [|vm_compute in E; discriminate E].
  exists reg', s', e. split; [reflexivity|].
  destruct (sync_plugin_confined sample_registry reg' sample_store s' "mysql@1" ops (Some e) E) as (_ & _ & H & _).
  split; [exact (proj1 (H "system.disk.list" eq_refl))|].
  assert (Es : s' = snd (fst (SyncPlugin sample_registry sample_store "mysql@1" ops))) by (rewrite E; reflexivity).
  rewrite Es. vm_compute. reflexivity.
Defined.
