(* ===== verification/Sandbox.v ===== *)
(** * Plugin handlers, modules and loaders
      (internal/plugin: sandbox/sandbox.go, manifest.go, sdk.go,
       runtime/module.go, runtime/loader.go, runtime/file_loader.go)

    What a plugin's code may plan: its handler runs inside an envelope that
    bounds the planning and rejects a plan beyond the declaration. And where
    definitions come from: modules, built from a manifest and handlers, and the
    loaders that find and load them. *)

From S2P Require Import Prelude GoStrings Executor Dispatch PluginContract.

(** Go's [RiskLevel] is an int. *)
Definition risk_int (r : RiskLevel) : Z :=
  match r with RiskLow => 0 | RiskMedium => 1 | RiskHigh => 2 | RiskCritical => 3 | RiskOther n => n end.

(** ** The envelope (sandbox.go) *)

Inductive DecisionCode : Type :=
| CodeAllowed | CodeTimeout | CodePermissionEscalation | CodeRiskEscalation | CodeStepLimit
| CodeInputTooLarge | CodePlanTooLarge | CodePlanError | CodeNilPlan.

#[export] Instance DecisionCode_eq_dec : EqDecision DecisionCode.
Proof. solve_decision. Defined.

Record Decision : Type := MkDecision {
  dc_Operation : string;
  dc_Source : string;
  dc_Allowed : bool;
  dc_Code : DecisionCode;
  dc_Reason : string }.

(** [env_Audit] tells whether a sink is attached. *)
Record Envelope : Type := MkEnvelope {
  env_OpPermission : Permission;
  env_MaxRisk : RiskLevel;
  env_ExecTimeout : Duration;
  env_MaxSteps : Z;
  env_MaxInputBytes : Z;
  env_MaxPlanBytes : Z;
  env_Audit : bool }.

#[export] Instance Permission_eq_dec : EqDecision Permission.
Proof. solve_decision. Defined.

Section Envelope.
Context {Ctx Input : Type}.

Definition DefaultEnvelope (op : Dispatch.Operation Ctx Input) : Envelope :=
  MkEnvelope (op_Permission op) (Dispatch.op_Risk op) (30 * Second) 0 0 0 false.

Definition NewEnvelope (op : Dispatch.Operation Ctx Input) (maxSteps maxInputBytes maxPlanBytes : Z) : Envelope :=
  let e := DefaultEnvelope op in
  MkEnvelope (env_OpPermission e) (env_MaxRisk e) (env_ExecTimeout e) maxSteps maxInputBytes maxPlanBytes (env_Audit e).

Definition WithAudit (e : Envelope) (sink : bool) : Envelope :=
  MkEnvelope (env_OpPermission e) (env_MaxRisk e) (env_ExecTimeout e) (env_MaxSteps e) (env_MaxInputBytes e)
    (env_MaxPlanBytes e) sink.

(** A plugin's handler: how long it takes, and the answer, a plan that may be
    nil or an error. *)
Definition RawHandler : Type := Ctx -> Input -> Duration * result error (option ExecutionPlan).

(** A handler is wrapped at most once. *)
Inductive PluginHandler : Type :=
| Plain (h : RawHandler)
| Sandboxed (inner : RawHandler) (env : Envelope).

Definition Wrap (h : PluginHandler) (env : Envelope) : PluginHandler :=
  match h with
  | Sandboxed _ _ => h
  | Plain inner => Sandboxed inner env
  end.

(** The length of the JSON of an input and of a plan; none where the encoder
    refuses. *)
Context (marshal_input : Input -> option Z) (marshal_plan : ExecutionPlan -> option Z).

Definition approxBytes (v : Input) : Z := default 0 (marshal_input v).
Definition approxPlanBytes (plan : ExecutionPlan) : Z := default 0 (marshal_plan plan).

Definition audit_decision (env : Envelope) (plan : option ExecutionPlan) (allowed : bool) (code : DecisionCode)
    (reason : string) : list Decision :=
  if negb (env_Audit env) then []
  else match plan with
    | Some p => [MkDecision (plan_OperationName p) (plan_Source p) allowed code reason]
    | None => [MkDecision "" "" allowed code reason]
    end.

Definition with_timeout (p : ExecutionPlan) (t : Duration) : ExecutionPlan :=
  MkExecutionPlan (plan_OperationName p) (plan_Steps p) (plan_Permission p) (plan_Risk p) t (plan_Source p) (plan_Origin p).

(** [enforce]: the plan or the error, and the decisions for the sink. *)
Definition enforce (env : Envelope) (plan : option ExecutionPlan) (input : Input)
  : result error ExecutionPlan * list Decision :=
  match plan with
  | None => (Err "sandbox: handler returned nil plan", audit_decision env None false CodeNilPlan "nil plan")
  | Some plan =>
      let deny code reason msg := (Err msg, audit_decision env (Some plan) false code reason) in
      let perm := plan_Permission plan in
      let declared := env_OpPermission env in
      if (negb (String.eqb (ResourceType perm) "") || negb (String.eqb (perm_Action perm) "")) &&
         negb (bool_decide (perm = declared)) then
        deny CodePermissionEscalation
          ("permission escalation: plan " +:+ Permission_String perm +:+ " != declared " +:+ Permission_String declared)
          ("sandbox: permission escalation: plan " +:+ Permission_String perm +:+ " != declared " +:+ Permission_String declared)
      else if risk_int (env_MaxRisk env) <? risk_int (plan_Risk plan) then
        deny CodeRiskEscalation
          ("risk escalation: plan " +:+ RiskLevel_String (plan_Risk plan) +:+ " > declared " +:+ RiskLevel_String (env_MaxRisk env))
          ("sandbox: risk escalation: plan risk " +:+ RiskLevel_String (plan_Risk plan) +:+ " > declared " +:+
             RiskLevel_String (env_MaxRisk env))
      else if (0 <? env_MaxSteps env) && (env_MaxSteps env <? Z.of_nat (length (plan_Steps plan))) then
        deny CodeStepLimit
          ("too many steps: " +:+ pretty (Z.of_nat (length (plan_Steps plan))) +:+ " > " +:+ pretty (env_MaxSteps env))
          ("sandbox: plan has " +:+ pretty (Z.of_nat (length (plan_Steps plan))) +:+ " steps > limit " +:+ pretty (env_MaxSteps env))
      else if (0 <? env_MaxInputBytes env) && (env_MaxInputBytes env <? approxBytes input) then
        deny CodeInputTooLarge
          ("input too large: " +:+ pretty (approxBytes input) +:+ " > " +:+ pretty (env_MaxInputBytes env))
          ("sandbox: input " +:+ pretty (approxBytes input) +:+ " bytes > limit " +:+ pretty (env_MaxInputBytes env))
      else if (0 <? env_MaxPlanBytes env) && (env_MaxPlanBytes env <? approxPlanBytes plan) then
        deny CodePlanTooLarge
          ("plan too large: " +:+ pretty (approxPlanBytes plan) +:+ " > " +:+ pretty (env_MaxPlanBytes env))
          ("sandbox: plan " +:+ pretty (approxPlanBytes plan) +:+ " bytes > limit " +:+ pretty (env_MaxPlanBytes env))
      else
        let plan := if (plan_Timeout plan =? 0) && (0 <? env_ExecTimeout env)
          then with_timeout plan (env_ExecTimeout env) else plan in
        (Ok plan, audit_decision env (Some plan) true CodeAllowed "allowed")
  end.

(** [sandboxHandler.Plan]: the planning races the timer; an answer at the very
    instant of the timer is taken here as an answer. *)
Definition sandboxHandler_Plan (inner : RawHandler) (env : Envelope) (ctx : Ctx) (input : Input)
  : result error ExecutionPlan * list Decision :=
  let '(took, answer) := inner ctx input in
  if (0 <? env_ExecTimeout env) && (env_ExecTimeout env <? took) then
    (Err ("sandbox: handler Plan exceeded exec timeout " +:+ pretty (env_ExecTimeout env)),
     audit_decision env None false CodeTimeout ("exec timeout exceeded (" +:+ pretty (env_ExecTimeout env) +:+ ")"))
  else
    match answer with
    | Err e => (Err e, audit_decision env None false CodePlanError ("plan error: " +:+ e))
    | Ok plan => enforce env plan input
    end.

(** What the dispatcher gets of a plugin's handler. A handler outside an
    envelope that plans nil would crash the dispatcher: none is ever
    registered. *)
Definition handler_Plan (h : PluginHandler) : Dispatch.Handler :=
  match h with
  | Sandboxed inner env => fun ctx input => fst (sandboxHandler_Plan inner env ctx input)
  | Plain inner => fun ctx input =>
      match snd (inner ctx input) with
      | Ok (Some plan) => Ok plan
      | Ok None => Err "runtime error: invalid memory address or nil pointer dereference"
      | Err e => Err e
      end
  end.

(** ** Modules (module.go) *)

Definition riskFromString (s : string) : RiskLevel :=
  if String.eqb s "low" then RiskLow
  else if String.eqb s "medium" then RiskMedium
  else if String.eqb s "high" then RiskHigh
  else if String.eqb s "critical" then RiskCritical
  else RiskLow.

(** A module is known by its descriptor and its operations; [Operations]
    builds a new slice at each call. *)
Record Module_ : Type := MkModule {
  mod_Descriptor : Descriptor;
  mod_Operations : list (Dispatch.Operation Ctx Input) }.

Definition noopHandler : RawHandler := fun _ _ => (0, Err "plugin operation not implemented").

(** An operation with its handler in the default envelope. *)
Definition wrapped_operation (name : string) (perm : Permission) (risk : RiskLevel) (source : string) (h : PluginHandler)
  : Dispatch.Operation Ctx Input :=
  let bare := Dispatch.MkOperation name perm risk (handler_Plan h) source in
  Dispatch.MkOperation name perm risk (handler_Plan (Wrap h (DefaultEnvelope bare))) source.

Definition StaticModule_Operations (desc : Descriptor) (handlers : gmap string PluginHandler)
  : list (Dispatch.Operation Ctx Input) :=
  map (fun od =>
    wrapped_operation (od_Name od) (MkPermission (od_Resource od) (od_Action od)) (riskFromString (od_Risk od)) ""
      (default (Plain noopHandler) (handlers !! od_Name od)))
    (mf_Operations (d_Manifest desc)).

Definition NewStaticModule (m : Manifest) (handlers : gmap string PluginHandler) : Module_ :=
  let desc := Freeze (with_state (NewDescriptor m) StateLoaded) in
  MkModule desc (StaticModule_Operations desc handlers).

(** ** Loaders (loader.go) *)

(** A loader at one moment: what it discovers, the failures it reports of that
    pass, how it loads. *)
Record Loader : Type := MkLoader {
  ld_Discover : list Descriptor;
  ld_LoadErrors : list error;
  ld_Load : Descriptor -> result error Module_ }.

Definition NewStaticLoader (mods : gmap string Module_) : Loader :=
  MkLoader
    (map (fun '(_, m) => let d := with_state (mod_Descriptor m) StateDiscovered in
            MkDescriptor (d_ID d) (d_Manifest d) (d_Source d) (d_State d) false) (map_to_list mods))
    []
    (fun desc =>
       let name := mf_Name (d_Manifest desc) in
       match mods !! name with
       | None => Err ("static loader: no module for plugin " +:+ name)
       | Some m => Ok m
       end).

(** ** The file loader (file_loader.go) *)

(** [PluginError.Error]. *)
Definition PluginError_Error (key id err : string) : error :=
  if negb (String.eqb id "") then "plugin " +:+ id +:+ " (" +:+ key +:+ "): " +:+ err
  else "plugin " +:+ key +:+ ": " +:+ err.

(** The manifests read, by key, and the failures. *)
Fixpoint read_keys (read : string -> result error Manifest) (keys : list string) : list (string * Manifest) * list error :=
  match keys with
  | [] => ([], [])
  | key :: keys' =>
      let '(ms, errs) := read_keys read keys' in
      match read key with
      | Err e => (ms, PluginError_Error key "" e :: errs)
      | Ok m => ((key, m) :: ms, errs)
      end
  end.

(** The keys that claim an id. *)
Definition claimants (ms : list (string * Manifest)) (id : string) : list string :=
  map fst (List.filter (fun '(_, m) => String.eqb (d_ID (NewDescriptor m)) id) ms).

(** [Discover], on manifests that are there: the descriptors, by id, and the failures; those of duplicates
    come in the order of the map's iteration, here of the first claim. *)
Definition FileLoader_Discover (list_keys : result error (list string)) (read : string -> result error Manifest)
  : list Descriptor * list error :=
  match list_keys with
  | Err e => ([], [PluginError_Error "<provider>" "" e])
  | Ok keys =>
      let '(ms, errs) := read_keys read (sort_strings keys) in
      let descs := map (fun '(_, m) => NewDescriptor m) ms in
      let ids := remove_dups (map d_ID descs) in
      let conflicts := List.filter (fun id => (1 <? length (claimants ms id))%nat) ids in
      (sort_slice (fun a b => string_ltb (d_ID a) (d_ID b))
         (List.filter (fun d => (length (claimants ms (d_ID d)) <=? 1)%nat) descs),
       errs ++ map (fun id => PluginError_Error "" id ("duplicate plugin ID " +:+ id +:+ " across keys [" +:+
         String.concat " " (claimants ms id) +:+ "]")) conflicts)
  end.

Definition FileLoader_Load (desc : Descriptor) : result error Module_ := Ok (NewStaticModule (d_Manifest desc) ∅).

Definition NewFileLoader (list_keys : result error (list string)) (read : string -> result error Manifest) : Loader :=
  let '(descs, errs) := FileLoader_Discover list_keys read in MkLoader descs errs FileLoader_Load.

(** ** The SDK's modules (manifest.go, sdk.go) *)

Record SdkOperation : Type := MkSdkOperation {
  so_Name : string;
  so_ResourceType : string;
  so_Action : string;
  so_Risk : string }.

Record SdkManifest : Type := MkSdkManifest {
  sm_SchemaVersion : Z;
  sm_Name : string;
  sm_Version : string;
  sm_Operations : list SdkOperation }.

Definition Risk_Level (r : string) : result error RiskLevel :=
  if String.eqb r "low" then Ok RiskLow
  else if String.eqb r "medium" then Ok RiskMedium
  else if String.eqb r "high" then Ok RiskHigh
  else if String.eqb r "critical" then Ok RiskCritical
  else Err ("unknown risk " +:+ r +:+ " (want low|medium|high|critical)").

Fixpoint sdk_validate (name : string) (seen : list string) (ops : list SdkOperation) : option error :=
  match ops with
  | [] => None
  | op :: ops' =>
      if String.eqb (so_Name op) "" then Some ("plugin " +:+ name +:+ ": operation with empty name")
      else if String.eqb (so_ResourceType op) "" || String.eqb (so_Action op) "" then
        Some ("plugin " +:+ name +:+ ": operation " +:+ so_Name op +:+ " missing resource_type/action")
      else match Risk_Level (so_Risk op) with
        | Err e => Some ("plugin " +:+ name +:+ ": operation " +:+ so_Name op +:+ ": " +:+ e)
        | Ok _ =>
            if existsb (String.eqb (so_Name op)) seen then Some ("plugin " +:+ name +:+ ": duplicate operation " +:+ so_Name op)
            else sdk_validate name (so_Name op :: seen) ops'
        end
  end.

Definition SdkManifest_Validate (m : SdkManifest) : option error :=
  if String.eqb (sm_Name m) "" then Some "plugin manifest: missing name"
  else if sm_SchemaVersion m <? 1 then Some "plugin manifest: schema_version must be >= 1"
  else sdk_validate (sm_Name m) [] (sm_Operations m).

Fixpoint missing_handler (name : string) (handlers : gmap string PluginHandler) (ops : list SdkOperation) : option error :=
  match ops with
  | [] => None
  | op :: ops' =>
      match handlers !! so_Name op with
      | None => Some ("plugin " +:+ name +:+ ": declared operation " +:+ so_Name op +:+ " has no handler")
      | Some _ => missing_handler name handlers ops'
      end
  end.

(** The module is the manifest and the handlers. *)
Definition NewModule (m : SdkManifest) (handlers : gmap string PluginHandler)
  : result error (SdkManifest * gmap string PluginHandler) :=
  match SdkManifest_Validate m with
  | Some e => Err e
  | None => match missing_handler (sm_Name m) handlers (sm_Operations m) with Some e => Err e | None => Ok (m, handlers) end
  end.

(** The operation wired for a declaration; [Level] answers the zero level with
    its error, and a handler that is missing is nil. *)
Definition sdk_operation (handlers : gmap string PluginHandler) (op : SdkOperation) : Dispatch.Operation Ctx Input :=
  wrapped_operation (so_Name op) (MkPermission (so_ResourceType op) (so_Action op))
    (match Risk_Level (so_Risk op) with Ok lvl => lvl | Err _ => RiskLow end) ""
    (default (Plain (fun _ _ => (0, Err "runtime error: invalid memory address or nil pointer dereference")))
       (handlers !! so_Name op)).

Definition Module_Register (m : SdkManifest * gmap string PluginHandler) (reg : Registry Ctx Input) : Registry Ctx Input :=
  foldl (fun reg op => Registry_Register reg (sdk_operation (snd m) op)) reg (sm_Operations (fst m)).

(** ** Lemmas *)

Definition one_decision (env : Envelope) (ok : bool) (ds : list Decision) : Prop :=
  if env_Audit env then exists d, ds = [d] /\ dc_Allowed d = ok /\ (dc_Code d = CodeAllowed <-> ok = true) else ds = [].

Lemma audit_one env plan ok code reason :
  (code = CodeAllowed <-> ok = true) -> one_decision env ok (audit_decision env plan ok code reason).
Proof. intros Hc. unfold one_decision, audit_decision. destruct (env_Audit env), plan; cbn; try done; by eexists. Qed.

(** What an admitted plan is. *)
Record admitted (env : Envelope) (input : Input) (hp plan : ExecutionPlan) : Prop := {
  ad_perm : plan_Permission hp = MkPermission "" "" \/ plan_Permission hp = env_OpPermission env;
  ad_risk : risk_int (plan_Risk hp) <= risk_int (env_MaxRisk env);
  ad_steps : 0 < env_MaxSteps env -> Z.of_nat (length (plan_Steps hp)) <= env_MaxSteps env;
  ad_input : 0 < env_MaxInputBytes env -> approxBytes input <= env_MaxInputBytes env;
  ad_plan : 0 < env_MaxPlanBytes env -> approxPlanBytes hp <= env_MaxPlanBytes env;
  ad_same : plan = hp \/ (plan_Timeout hp = 0 /\ plan = with_timeout hp (env_ExecTimeout env));
  ad_timeout : 0 < env_ExecTimeout env -> plan_Timeout plan <> 0 }.

Lemma limit_ok limit n : (0 <? limit) && (limit <? n) = false <-> (0 < limit -> n <= limit).
Proof. rewrite andb_false_iff, !Z.ltb_ge. lia. Qed.

Lemma enforce_spec env plan input :
  let '(res, ds) := enforce env plan input in
  one_decision env (is_ok res) ds /\
  match res with
  | Ok p => exists hp, plan = Some hp /\ admitted env input hp p
  | Err _ => forall hp p, plan = Some hp -> ~ admitted env input hp p
  end.
Proof.
  unfold enforce. destruct plan as [hp|]; [|split; [by apply audit_one|done]]. cbv zeta.
  destruct (_ && negb (bool_decide (plan_Permission hp = _))) eqn:Ep.
  { split; [by apply audit_one|]. intros ? p [= <-] Ha. apply andb_true_iff in Ep as [Ep1 Ep2].
    apply negb_true_iff, bool_decide_eq_false in Ep2. destruct (ad_perm _ _ _ _ Ha) as [E|E]; [by rewrite E in Ep1|done]. }
  destruct (Z.ltb_spec (risk_int (env_MaxRisk env)) (risk_int (plan_Risk hp))).
  { split; [by apply audit_one|]. intros ? p [= <-] Ha. pose proof (ad_risk _ _ _ _ Ha). lia. }
  destruct ((0 <? env_MaxSteps env) && _) eqn:Es.
  { split; [by apply audit_one|]. intros ? p [= <-] Ha. apply not_false_iff_true in Es. apply Es, limit_ok, Ha. }
  destruct ((0 <? env_MaxInputBytes env) && _) eqn:Ei.
  { split; [by apply audit_one|]. intros ? p [= <-] Ha. apply not_false_iff_true in Ei. apply Ei, limit_ok, Ha. }
  destruct ((0 <? env_MaxPlanBytes env) && _) eqn:Epl.
  { split; [by apply audit_one|]. intros ? p [= <-] Ha. apply not_false_iff_true in Epl. apply Epl, limit_ok, Ha. }
  split; [by apply audit_one|]. exists hp. split; [done|]. rewrite !limit_ok in *. split; try done.
  - apply andb_false_iff in Ep as [Ep|Ep]; [left|right; by apply negb_false_iff, bool_decide_eq_true in Ep].
    apply orb_false_iff in Ep as [E1 E2]. apply negb_false_iff, String.eqb_eq in E1, E2.
    destruct (plan_Permission hp); cbn in *; by subst.
  - destruct (Z.eqb_spec (plan_Timeout hp) 0), (0 <? env_ExecTimeout env); cbn; auto.
  - intros Ht. destruct (Z.eqb_spec (plan_Timeout hp) 0), (Z.ltb_spec 0 (env_ExecTimeout env)); cbn; lia.
Qed.

End Envelope.
Arguments RawHandler : clear implicits.
Arguments PluginHandler : clear implicits.
Arguments Module_ : clear implicits.
Arguments Loader : clear implicits.

Section Confinement.
Context {Ctx Input : Type} (marshal_input : Input -> option Z) (marshal_plan : ExecutionPlan -> option Z).

Lemma wrapped_plan (r : Registry Ctx Input) name perm risk src (h : RawHandler Ctx Input) ctx input :
  r !! name = Some (wrapped_operation marshal_input marshal_plan name perm risk src (Plain h)) ->
  match Dispatcher_Plan r ctx name input with
  | Ok plan => fst (h ctx input) <= 30 * Second /\
      (exists hp, snd (h ctx input) = Ok (Some hp) /\ plan_Steps plan = plan_Steps hp /\ plan_Risk plan = plan_Risk hp) /\
      plan_Permission plan = perm /\ risk_int (plan_Risk plan) <= risk_int risk /\ plan_Timeout plan <> 0 /\
      plan_Source plan = src
  | Err e => (exists cause, e = ErrPlanFailed name cause) /\
      forall hp, fst (h ctx input) <= 30 * Second -> snd (h ctx input) = Ok (Some hp) ->
        plan_Permission hp = MkPermission "" "" \/ plan_Permission hp = perm -> risk_int risk < risk_int (plan_Risk hp)
  end.
Proof.
  intros Hr. unfold Dispatcher_Plan, Registry_Get. rewrite Hr. cbn [op_Handler wrapped_operation Wrap handler_Plan].
  unfold sandboxHandler_Plan. destruct (h ctx input) as [took answer]. cbn [fst snd DefaultEnvelope env_ExecTimeout].
  destruct (Z.ltb_spec (30 * Second) took) as [Ht|Ht]; cbn [andb Z.ltb].
  { split; [by eexists|]. intros hp ?. lia. }
  change (0 <? 30 * Second) with true. cbn [andb fst]. destruct answer as [hp|e]; cbn [fst].
  2: { split; [by eexists|done]. }
  pose proof (enforce_spec marshal_input marshal_plan
    (DefaultEnvelope (Dispatch.MkOperation name perm risk (handler_Plan marshal_input marshal_plan (Plain h)) src)) hp input) as He.
  destruct (enforce _ _ _ hp input) as [[plan|e] ds]; cbn [fst]; destruct He as [_ He].
  - destruct He as (hp' & -> & [Hp Hk _ _ _ Hs Hto]). cbn in *. split; [done|].
    assert (E : plan_Steps plan = plan_Steps hp' /\ plan_Risk plan = plan_Risk hp' /\ plan_Permission plan = plan_Permission hp')
      by (destruct Hs as [->|[_ ->]]; done).
    destruct E as (E1 & E2 & E3). split_and!; [exists hp'; done| |by rewrite E2|by apply Hto|done].
    rewrite E3. destruct Hp as [->| ->]; [done|]. by case_decide.
  - split; [by eexists|]. intros hp' _ [= ->] Hp. apply Z.nle_gt. intros Hk.
    apply (He hp' (if plan_Timeout hp' =? 0 then with_timeout hp' (30 * Second) else hp') eq_refl).
    split; cbn; try done; destruct (Z.eqb_spec (plan_Timeout hp') 0); auto.
Qed.

(** The code a module's operation runs. *)
Definition raw_of (handlers : gmap string (PluginHandler Ctx Input)) (name : string) : RawHandler Ctx Input :=
  match handlers !! name with Some (Plain h) => h | Some (Sandboxed h _) => h | None => noopHandler end.

(** A handler that comes in an envelope keeps that envelope, not the declared
    one: its plans are bounded by what it brought along. *)
Lemma prewrapped_keeps_envelope name perm risk src inner env :
  op_Handler (wrapped_operation marshal_input marshal_plan name perm risk src (Sandboxed inner env)) =
    (fun (ctx : Ctx) (input : Input) => fst (sandboxHandler_Plan marshal_input marshal_plan inner env ctx input)).
Proof. done. Qed.

(** ** The file loader's lemmas *)

Lemma read_keys_spec read keys key m :
  (key, m) ∈ fst (read_keys read keys) <-> key ∈ keys /\ read key = Ok m.
Proof.
  induction keys as [|k keys IH]; cbn [read_keys]; [split; [by intros ?%elem_of_nil|by intros [?%elem_of_nil _]]|].
  destruct (read_keys read keys) as [ms errs]. cbn [fst] in IH.
  destruct (read k) as [m'|e] eqn:E; cbn [fst]; rewrite !elem_of_cons, IH.
  - split; [intros [[= -> ->]|[? ?]]; auto|]. intros [[->|?] Hr]; [left; congruence|by right].
  - split; [intros [? ?]; auto|]. intros [[->|?] Hr]; [congruence|done].
Qed.

Lemma read_keys_errors read keys :
  snd (read_keys read keys) = [] <-> forall key, key ∈ keys -> exists m, read key = Ok m.
Proof.
  induction keys as [|k keys IH]; cbn [read_keys]; [split; [by intros _ ? ?%elem_of_nil|done]|].
  destruct (read_keys read keys) as [ms errs]. cbn [snd] in IH.
  destruct (read k) as [m'|e] eqn:E; cbn [snd].
  - rewrite IH. split; [intros H key [->|?]%elem_of_cons; eauto|]. intros H key ?. apply H. by right.
  - split; [done|]. intros H. destruct (H k) as [m ?]; [left|congruence].
Qed.

Lemma read_keys_NoDup read keys : NoDup keys -> NoDup (map fst (fst (read_keys read keys))).
Proof.
  induction 1 as [|k keys Hk _ IH]; cbn [read_keys]; [constructor|].
  pose proof (read_keys_spec read keys k) as Hs. destruct (read_keys read keys) as [ms errs]. cbn [fst] in *.
  destruct (read k); cbn [fst map]; [|done]. constructor; [|done]. intros ((k' & m) & -> & Hin)%list_elem_of_fmap.
  by apply Hs in Hin as [? _].
Qed.

Lemma NoDup_one {A} (l : list A) : NoDup l -> (length l <= 1)%nat <-> forall x y, x ∈ l -> y ∈ l -> x = y.
Proof.
  intros Hn. destruct l as [|a [|b l]].
  - split; [by intros _ x y ?%elem_of_nil|cbn; lia].
  - split; [|cbn; lia]. by intros _ x y ->%list_elem_of_singleton ->%list_elem_of_singleton.
  - split; [cbn; lia|]. intros H. apply NoDup_cons in Hn as [Hn _]. exfalso. apply Hn.
    rewrite (H a b); [left|left|right; left].
Qed.

Lemma claimants_elem ms id key : key ∈ claimants ms id <-> exists m, (key, m) ∈ ms /\ d_ID (NewDescriptor m) = id.
Proof.
  unfold claimants. rewrite list_elem_of_fmap. setoid_rewrite list_elem_of_In. setoid_rewrite filter_In. split.
  - intros ([k m] & -> & Hin & E%String.eqb_eq). by exists m.
  - intros (m & Hin & E). exists (key, m). split; [done|]. split; [done|]. by apply String.eqb_eq.
Qed.

Lemma claimants_NoDup ms id : NoDup (map fst ms) -> NoDup (claimants ms id).
Proof.
  unfold claimants. induction ms as [|[k m] ms IH]; cbn; [done|]. intros [Hk Hn]%NoDup_cons.
  destruct (String.eqb _ _); cbn; [|by apply IH]. constructor; [|by apply IH]. intros Hin. apply Hk.
  apply list_elem_of_fmap in Hin as ([k' m'] & -> & [Hin _]%list_elem_of_In%filter_In).
  apply list_elem_of_fmap. exists (k', m'). by rewrite list_elem_of_In.
Qed.

(** One claim: no other key reads a manifest of that id. *)
Definition only_claim (read : string -> result error Manifest) (keys : list string) (key id : string) : Prop :=
  forall key' m', key' ∈ keys -> read key' = Ok m' -> d_ID (NewDescriptor m') = id -> key' = key.

Lemma claimants_single read keys key m :
  NoDup keys -> key ∈ keys -> read key = Ok m ->
  let id := d_ID (NewDescriptor m) in
  (length (claimants (fst (read_keys read keys)) id) <= 1)%nat <-> only_claim read keys key id.
Proof.
  intros Hn Hk Hr id. rewrite (NoDup_one _ (claimants_NoDup _ _ (read_keys_NoDup _ _ Hn))). split.
  - intros H key' m' Hk' Hr' Hid. apply H; apply claimants_elem; [exists m'|exists m]; by rewrite read_keys_spec.
  - intros H x y (mx & [Hx Hrx]%read_keys_spec & Ex)%claimants_elem (my & [Hy Hry]%read_keys_spec & Ey)%claimants_elem.
    by rewrite (H x mx), (H y my).
Qed.

Definition by_id (a b : Descriptor) : bool := string_ltb (d_ID a) (d_ID b).

Lemma sorted_by_id l :
  NoDup (map d_ID l) -> StronglySorted (fun a b => by_id a b = true) (sort_slice by_id l).
Proof.
  intros Hn. assert (Hs : StronglySorted (sort_le by_id) (sort_slice by_id l)).
  { apply sort_slice_sorted; unfold by_id; intros *; [apply string_ltb_asym|apply string_ltb_ntrans]. }
  change (NoDup (d_ID <$> l)) in Hn. rewrite <- (sort_slice_perm by_id l) in Hn. induction Hs as [|a l' Hs IH Ha]; [constructor|].
  cbn in Hn. apply NoDup_cons in Hn as [Hin Hn]. constructor; [by apply IH|].
  apply Forall_forall. intros b Hb. rewrite Forall_forall in Ha. specialize (Ha b Hb). unfold sort_le, by_id in *.
  apply not_false_iff_true. intros E. apply Hin, list_elem_of_fmap. exists b. split; [|done]. by apply string_ltb_antisym.
Qed.

(** The manifests whose id is claimed once. *)
Definition unclaimed (ms : list (string * Manifest)) : list (string * Manifest) :=
  List.filter (fun p => (length (claimants ms (d_ID (NewDescriptor (snd p)))) <=? 1)%nat) ms.

Lemma unclaimed_spec read keys key m :
  NoDup keys ->
  (key, m) ∈ unclaimed (fst (read_keys read keys)) <->
    key ∈ keys /\ read key = Ok m /\ only_claim read keys key (d_ID (NewDescriptor m)).
Proof.
  intros Hn. unfold unclaimed. rewrite list_elem_of_In, filter_In, <- list_elem_of_In, read_keys_spec, Nat.leb_le. cbn [snd].
  split.
  - intros [[Hk Hr] Hc]. split_and!; [done|done|]. by apply claimants_single.
  - intros (Hk & Hr & Hc). split; [done|]. by apply (claimants_single read keys key m Hn Hk Hr).
Qed.

Lemma unclaimed_NoDup read keys :
  NoDup keys -> NoDup (map (fun p => d_ID (NewDescriptor (snd p))) (unclaimed (fst (read_keys read keys)))).
Proof.
  intros Hn. apply (NoDup_fmap_2_strong (fun p : string * Manifest => d_ID (NewDescriptor (snd p)))).
  - intros [k1 m1] [k2 m2] (Hk1 & Hr1 & _)%unclaimed_spec (_ & Hr2 & H2)%unclaimed_spec E; try done. cbn [snd] in E.
    assert (k1 = k2) as <- by (by apply (H2 k1 m1)). congruence.
  - apply NoDup_ListNoDup, List.NoDup_filter, NoDup_ListNoDup. apply (NoDup_fmap_1 fst), read_keys_NoDup, Hn.
Qed.

Lemma FileLoader_Discover_fst keys read :
  fst (FileLoader_Discover (Ok keys) read) =
    sort_slice by_id (map (fun p => NewDescriptor (snd p)) (unclaimed (fst (read_keys read (sort_strings keys))))).
Proof.
  unfold FileLoader_Discover. destruct (read_keys read (sort_strings keys)) as [ms errs]. cbn [fst].
  unfold unclaimed, by_id. f_equal.
  replace (map (fun '(_, m) => NewDescriptor m) ms) with (map (fun p => NewDescriptor (snd p)) ms)
    by (apply map_ext; by intros []).
  by rewrite filter_map_swap.
Qed.

Lemma no_conflicts read keys :
  NoDup keys ->
  List.filter (fun id => (1 <? length (claimants (fst (read_keys read keys)) id))%nat)
    (remove_dups (map d_ID (map (fun '(_, m) => NewDescriptor m) (fst (read_keys read keys))))) = [] <->
  forall key m, key ∈ keys -> read key = Ok m -> only_claim read keys key (d_ID (NewDescriptor m)).
Proof.
  intros Hn. split.
  - intros Hf key m Hk Hr. apply claimants_single; try done. apply Nat.nlt_ge. intros Hlt.
    assert (Hin : d_ID (NewDescriptor m) ∈ ([] : list string)); [|by apply elem_of_nil in Hin].
    rewrite <- Hf. apply list_elem_of_In, filter_In. rewrite <- list_elem_of_In. split; [|by apply Nat.ltb_lt].
    apply elem_of_remove_dups, list_elem_of_fmap. exists (NewDescriptor m). split; [done|].
    apply list_elem_of_fmap. exists (key, m). split; [done|]. by apply read_keys_spec.
  - intros H. destruct (List.filter _ _) as [|id l] eqn:E; [done|]. exfalso.
    assert (Hin : id ∈ id :: l) by left. rewrite <- E in Hin. apply list_elem_of_In, filter_In in Hin as [Hin Hlt].
    apply list_elem_of_In, elem_of_remove_dups, list_elem_of_fmap in Hin as (d & -> & Hd).
    apply list_elem_of_fmap in Hd as ([key m] & -> & [Hk Hr]%read_keys_spec). apply Nat.ltb_lt in Hlt.
    pose proof (proj2 (claimants_single read keys key m Hn Hk Hr) (H key m Hk Hr)). lia.
Qed.

(** ** Properties *)

(** C38. The envelope (Phase 6.1): of a module whose handlers all come without an
    envelope of their own, whatever these do, a plan the dispatcher obtains from an
    operation that is registered under its name asks for exactly the permission that
    operation declares, at most its declared risk, under a timeout, in the plugin's
    name, after at most thirty seconds of planning; and a planning that stays within
    the declaration is never refused. A handler that comes in an envelope keeps it,
    and is not held to the declaration ([prewrapped_keeps_envelope]). *)
Theorem sandbox_confines (r : Registry Ctx Input) m (handlers : gmap string (PluginHandler Ctx Input)) op ctx input :
  (forall n inner env, handlers !! n <> Some (Sandboxed inner env)) ->
  op ∈ mod_Operations (NewStaticModule marshal_input marshal_plan m handlers) ->
  r !! Dispatch.op_Name op = Some op ->
  let h := raw_of handlers (Dispatch.op_Name op) in
  (forall plan, Dispatcher_Plan r ctx (Dispatch.op_Name op) input = Ok plan ->
     plan_Permission plan = op_Permission op /\ risk_int (plan_Risk plan) <= risk_int (Dispatch.op_Risk op) /\
     plan_Timeout plan <> 0 /\ plan_Source plan = Dispatch.op_Source op /\ fst (h ctx input) <= 30 * Second) /\
  (forall hp, fst (h ctx input) <= 30 * Second -> snd (h ctx input) = Ok (Some hp) ->
     plan_Permission hp = op_Permission op -> risk_int (plan_Risk hp) <= risk_int (Dispatch.op_Risk op) ->
     is_ok (Dispatcher_Plan r ctx (Dispatch.op_Name op) input) = true).
Proof.
  intros Hplain Hop Hr h. cbn in Hop. apply list_elem_of_fmap in Hop as (od & Eop & _).
  assert (Eh : default (Plain noopHandler) (handlers !! od_Name od) = Plain h).
  { unfold h, raw_of. rewrite Eop. cbn. destruct (handlers !! od_Name od) as [[k|k e]|] eqn:E; [done| |done].
    by destruct (Hplain _ _ _ E). }
  rewrite Eh in Eop. assert (En : Dispatch.op_Name op = od_Name od) by (by rewrite Eop). rewrite Eop in Hr at 2.
  rewrite En in Hr |- *. pose proof (wrapped_plan r (od_Name od) _ _ "" h ctx input Hr) as Hp.
  assert (Ef : op_Permission op = MkPermission (od_Resource od) (od_Action od) /\
    Dispatch.op_Risk op = riskFromString (od_Risk od) /\ Dispatch.op_Source op = "") by (by rewrite Eop).
  destruct Ef as (-> & -> & ->). destruct (Dispatcher_Plan r ctx (od_Name od) input) as [plan|e].
  - destruct Hp as (Ht & _ & Hperm & Hk & Hto & Hs). split; [|done]. by intros ? [= <-].
  - destruct Hp as [_ Hp]. split; [done|]. intros hp Ht Ha Hperm Hk. specialize (Hp hp Ht Ha (or_intror Hperm)). lia.
Qed.

(** Discovery (Phase 3.4): of the keys a provider lists, the loader discovers
    exactly the plugins whose manifest reads and whose id no other key claims,
    strictly ordered by id; it reports no failure exactly when every manifest
    reads and no id is claimed twice. *)
Theorem file_discover_exact keys read :
  NoDup keys ->
  let '(descs, errs) := FileLoader_Discover (Ok keys) read in
  (forall d, d ∈ descs <-> exists key m, key ∈ keys /\ read key = Ok m /\ d = NewDescriptor m /\
     only_claim read keys key (d_ID d)) /\
  StronglySorted (fun a b => string_ltb (d_ID a) (d_ID b) = true) descs /\
  (errs = [] <-> forall key, key ∈ keys -> exists m, read key = Ok m /\ only_claim read keys key (d_ID (NewDescriptor m))).
Proof.
  intros Hn. pose proof (FileLoader_Discover_fst keys read) as Hf.
  assert (Hp : forall k, k ∈ sort_strings keys <-> k ∈ keys) by (intros k; apply sort_slice_elem).
  assert (Hn' : NoDup (sort_strings keys)) by (unfold sort_strings; by rewrite sort_slice_perm).
  assert (Hc : forall k id, only_claim read (sort_strings keys) k id <-> only_claim read keys k id)
    by (intros k id; unfold only_claim; by setoid_rewrite Hp).
  pose proof (no_conflicts read _ Hn') as Hconf. pose proof (read_keys_errors read (sort_strings keys)) as Herr.
  destruct (FileLoader_Discover (Ok keys) read) as [descs errs] eqn:E. cbn [fst] in Hf. split_and!.
  - intros d. rewrite Hf, sort_slice_elem, list_elem_of_fmap. split.
    + intros ([key m] & -> & (Hk & Hr & Ho)%unclaimed_spec); [|done]. exists key, m. by rewrite <- Hp, <- Hc.
    + intros (key & m & Hk & Hr & -> & Ho). exists (key, m). split; [done|]. apply unclaimed_spec; [done|].
      by rewrite Hp, Hc.
  - rewrite Hf. apply sorted_by_id. rewrite map_map. by apply unclaimed_NoDup.
  - unfold FileLoader_Discover in E. destruct (read_keys read (sort_strings keys)) as [ms es]. cbn [fst snd] in *.
    injection E as _ <-. setoid_rewrite Hp in Herr. setoid_rewrite Hp in Hconf. setoid_rewrite Hc in Hconf. split.
    + intros [He Hm]%app_nil key Hk. apply map_eq_nil in Hm. destruct (proj1 Herr He key Hk) as [m Hr]. exists m.
      split; [done|]. by apply (proj1 Hconf Hm).
    + intros H. rewrite (proj2 Herr), (proj2 Hconf); [done| |].
      * intros key m Hk Hr. destruct (H key Hk) as (m' & Hr' & Ho). by replace m with m' by congruence.
      * intros key Hk. destruct (H key Hk) as (m & Hr & _). by exists m.
Qed.

End Confinement.

(** ** Witnesses *)

Definition sample_manifest (version : string) : Manifest :=
  MkPluginManifest "mysql" version [] []
    [MkOperationDecl "plugin.mysql.db.dump" "db" "dump" "medium" ""; MkOperationDecl "plugin.mysql.db.drop" "db" "drop" "high" ""]
    1 "v1" "0.1.0".

(** Dumps within its declaration; drops as if it could reboot the host. *)
Definition sample_handlers : gmap string (PluginHandler unit unit) :=
  <["plugin.mysql.db.dump" := Plain (fun _ _ => (Second, Ok (Some
      (MkExecutionPlan "" ["mysqldump"] (MkPermission "" "") RiskLow 0 "" ""))))]>
  (<["plugin.mysql.db.drop" := Plain (fun _ _ => (Second, Ok (Some
      (MkExecutionPlan "" ["reboot"] (MkPermission "host" "reboot") RiskHigh 0 "" ""))))]> ∅).

Definition sample_module : Module_ unit unit :=
  NewStaticModule (fun _ => None) (fun _ => None) (sample_manifest "1.0.0") sample_handlers.

Definition sample_ops : Registry unit unit := foldl Registry_Register NewRegistry (mod_Operations sample_module).

Lemma sample_handlers_plain n inner env : sample_handlers !! n <> Some (Sandboxed inner env).
Proof.
  unfold sample_handlers. rewrite !lookup_insert_Some. intros [[_ ?]|[_ [[_ ?]|[_ H]]]]; [done|done|by rewrite lookup_empty in H].
Qed.

Lemma sandbox_confines_witness :
  exists dump drop, mod_Operations sample_module = [dump; drop] /\
    (exists plan, Dispatcher_Plan sample_ops () "plugin.mysql.db.dump" () = Ok plan /\
       plan_Permission plan = MkPermission "db" "dump" /\ plan_Steps plan = ["mysqldump"]) /\
    is_ok (Dispatcher_Plan sample_ops () "plugin.mysql.db.drop" ()) = false.
Proof.
  destruct (mod_Operations sample_module) as [|dump [|drop rest]] eqn:Eops; try discriminate Eops.
  injection Eops as Edump Edrop Erest. exists dump, drop. split; [by rewrite <- Erest|]. split; [|vm_compute; reflexivity].
  assert (Hin : dump ∈ mod_Operations sample_module) by (rewrite <- Edump; left).
  assert (Hname : Dispatch.op_Name dump = "plugin.mysql.db.dump") by (rewrite <- Edump; reflexivity).
  assert (Hreg : sample_ops !! Dispatch.op_Name dump = Some dump) by (rewrite <- Edump; reflexivity).
  destruct (sandbox_confines (fun _ => None) (fun _ => None) sample_ops (sample_manifest "1.0.0") sample_handlers dump () ()
    sample_handlers_plain Hin Hreg) as [H _].
  rewrite Hname in H. eexists. split; [vm_compute; reflexivity|].
  split; [|reflexivity]. rewrite <- Edump in H. refine (proj1 (H _ _)). vm_compute. reflexivity.
Defined.

Lemma file_discover_exact_witness :
  let read k := if String.eqb k "broken" then Err "bad json"
    else Ok (sample_manifest (if String.eqb k "old" then "0.9.0" else "1.0.0")) in
  let '(descs, errs) := FileLoader_Discover (Ok ["old"; "copy"; "main"; "broken"]) read in
  map d_ID descs = ["mysql@0.9.0"] /\ errs <> [] /\
  NewDescriptor (sample_manifest "0.9.0") ∈ descs.
Proof.
  intros read. assert (Hn : NoDup ["old"; "copy"; "main"; "broken"]) by (apply NoDup_ListNoDup; repeat constructor; cbn; intuition discriminate).
  pose proof (file_discover_exact ["old"; "copy"; "main"; "broken"] read Hn) as H.
  destruct (FileLoader_Discover (Ok ["old"; "copy"; "main"; "broken"]) read) as [descs errs] eqn:E.
  destruct H as (Hd & _ & He). split; [vm_compute in E; injection E as <- _; reflexivity|]. split.
  - intros Hnil. destruct (proj1 He Hnil "broken") as (m & Hm & _); [apply list_elem_of_In; vm_compute; tauto|discriminate Hm].
  - apply Hd. exists "old", (sample_manifest "0.9.0"). split; [left|]. split; [reflexivity|]. split; [reflexivity|].
    intros k m Hk Hr Hid. apply list_elem_of_In in Hk. cbn in Hk. destruct Hk as [<-|[<-|[<-|[<-|[]]]]]; [reflexivity| | |discriminate Hr];
      cbn in Hr; injection Hr as <-; discriminate Hid.
Defined.
