(* ===== verification/PluginManager.v ===== *)
(** * The plugin manager (internal/plugin/runtime: manager.go, hooks.go)

    The life of a plugin: discovered, loaded, registered, enabled, disabled,
    unloaded, and reloaded in place. The manager works against a loader, the
    storage interface, a compatibility gate and the synchronizer that projects
    operations; storage and gate may fail at every call. Its locks make each
    operation's reads and writes of the two maps atomic; the operations are
    modelled one after the other. Hooks only observe: which are fired is part of
    the answer. *)

From Stdlib Require Import Ascii.
From S2P Require Import Prelude GoStrings Executor Dispatch PluginContract ControlStore Rbac Sandbox.

Section PluginManager.
Context {Ctx Input S : Type} `{!Storage S}.

Record Manager : Type := MkManager {
  m_reg : Registry Ctx Input;
  m_store : S;
  m_descs : gmap string Descriptor;
  m_modules : gmap string (Module_ Ctx Input);
  m_gen : gmap string Z }.

(** The gate, nil for none; [DefaultGate_Check] is the default. *)
Definition CompatGate : Type := option (Manifest -> KernelInfo -> option CompatResult * option error).

Definition SyncFunc : Type :=
  Registry Ctx Input -> S -> string -> list (Dispatch.Operation Ctx Input) -> Registry Ctx Input * S * option error.

Context (gate : CompatGate) (kernel : KernelInfo) (syncFunc : SyncFunc).

Definition NewManager (reg : Registry Ctx Input) (store : S) : Manager := MkManager reg store ∅ ∅ ∅.

Definition mg_store (m : Manager) (s : S) : Manager := MkManager (m_reg m) s (m_descs m) (m_modules m) (m_gen m).
Definition mg_reg (m : Manager) (r : Registry Ctx Input) : Manager :=
  MkManager r (m_store m) (m_descs m) (m_modules m) (m_gen m).
Definition put_plugin (m : Manager) (id : string) (d : Descriptor) (md : Module_ Ctx Input) : Manager :=
  MkManager (m_reg m) (m_store m) (<[id := d]> (m_descs m)) (<[id := md]> (m_modules m)) (m_gen m).

(** ** Helpers *)

Definition setState (m : Manager) (id : string) (s : LifecycleState) : Manager :=
  let descs := match m_descs m !! id with Some d => <[id := with_state d s]> (m_descs m) | None => m_descs m end in
  MkManager (m_reg m) (fst (Plugins_SetStatus (m_store m) id (LifecycleState_string s))) descs (m_modules m) (m_gen m).

Definition operationNames (m : Manifest) : list string := map od_Name (mf_Operations m).

Definition diffNames (a b : list string) : list string :=
  List.filter (fun x => negb (existsb (String.eqb x) b)) a.

Definition pluginNameFromID (id : string) : string := before_last_byte "@"%char id.

Definition audit_event (id action name res detail : string) (now : Time) : ControlStore.AuditEvent :=
  ControlStore.MkAuditEvent 0 now "system" id action name res detail "" "" 0 0 "".

(** [recordRejection], of a manifest that is there. *)
Definition recordRejection (m : Manager) (id : string) (man : Manifest) (reason : string) (now : Time) : Manager :=
  let s := fst (Plugins_Upsert (m_store m) (MkPlugin id (mf_Name man) (mf_Version man) "rejected" false now)) in
  mg_store m (Audit_Append s (audit_event id "load" (mf_Name man) "failure" ("compatibility gate rejected: " +:+ reason) now)).

Definition auditCapability (m : Manager) (id name res detail : string) (now : Time) : Manager :=
  mg_store m (Audit_Append (m_store m) (audit_event id "capability" name res detail now)).

Definition auditReload (m : Manager) (id name res detail : string) (now : Time) : Manager :=
  mg_store m (Audit_Append (m_store m) (audit_event id "reload" name res detail now)).

(** The required capabilities the host lacks. *)
Definition negotiateCapabilities (m : Manager) (id : string) (man : Manifest) (hostCaps : list string) (now : Time)
  : Manager * list string :=
  match mf_Capabilities man with
  | [] => (m, [])
  | _ :: _ =>
      let res := Negotiate (parse_capabilities (mf_Capabilities man)) (NewHostProvider hostCaps) in
      if ng_AllGranted res then
        let detail := "granted=" +:+ pretty (Z.of_nat (length (ng_Outcomes res))) in
        let detail := match ng_OptionalMissing res with
          | [] => detail
          | _ => detail +:+ " optional-missing=" +:+ String.concat "," (ng_OptionalMissing res)
          end in
        (auditCapability m id (mf_Name man) "success" detail now, [])
      else
        (auditCapability m id (mf_Name man) "failure"
           ("code=missing-capability missing=" +:+ String.concat "," (ng_Missing res)) now, ng_Missing res)
  end.

(** The gate's verdict: admitted, or the reason and the code of the rejection. *)
Definition gate_rejects (man : Manifest) : option (string * string) :=
  match gate with
  | None => None
  | Some check =>
      match check man kernel with
      | (None, None) => None
      | (None, Some e) => Some (e, "incompatible")
      | (Some res, err) =>
          if (match err with Some _ => true | None => false end) || negb (cr_Compatible res) then
            Some (cr_Reason res, if String.eqb (cr_Code res) "" then "incompatible" else cr_Code res)
          else None
      end
  end.

Definition list_text (l : list string) : string := "[" +:+ String.concat " " l +:+ "]".

(** ** Loading *)

Fixpoint load_descriptors (m : Manager) (loader : Loader Ctx Input) (descs : list Descriptor) (hostCaps : list string)
    (now : Time) : Manager * list (Module_ Ctx Input) * list error :=
  match descs with
  | [] => (m, [], [])
  | d :: descs' =>
      let id := d_ID d in
      let skip m e :=
        let '(m, mods, errs) := load_descriptors m loader descs' hostCaps now in (m, mods, e :: errs) in
      match gate_rejects (d_Manifest d) with
      | Some (reason, _) =>
          skip (recordRejection m id (d_Manifest d) reason now) ("plugin " +:+ id +:+ ": compatibility gate rejected: " +:+ reason)
      | None =>
          match negotiateCapabilities m id (d_Manifest d) hostCaps now with
          | (m, (_ :: _) as missing) =>
              skip m ("plugin " +:+ id +:+ " requires capabilities " +:+ list_text missing +:+ " not satisfied by host")
          | (m, []) =>
              match ld_Load loader d with
              | Err e => skip m ("plugin " +:+ id +:+ ": " +:+ e)
              | Ok md =>
                  let m := put_plugin m id (mod_Descriptor md) md in
                  match Plugins_Upsert (m_store m)
                          (MkPlugin id (mf_Name (d_Manifest d)) (mf_Version (d_Manifest (mod_Descriptor md)))
                             (LifecycleState_string StateLoaded) false now) with
                  | (s, Some e) => skip (mg_store m s) ("plugin " +:+ id +:+ ": persist: " +:+ e)
                  | (s, None) =>
                      let '(m, mods, errs) := load_descriptors (mg_store m s) loader descs' hostCaps now in
                      (m, md :: mods, errs)
                  end
              end
          end
      end
  end.

Definition DiscoverAndLoad (m : Manager) (loader : Loader Ctx Input) (hostCaps : list string) (now : Time)
  : Manager * list (Module_ Ctx Input) * list error :=
  let '(m, mods, errs) := load_descriptors m loader (ld_Discover loader) hostCaps now in
  (m, mods, ld_LoadErrors loader ++ errs).

(** ** Registering, enabling, disabling, unloading *)

Fixpoint first_invalid (ops : list (Dispatch.Operation Ctx Input)) : option error :=
  match ops with
  | [] => None
  | op :: ops' =>
      match ValidateOperation (Dispatch.op_Name op) (op_Permission op) with Some e => Some e | None => first_invalid ops' end
  end.

Definition nil_pointer : error := "runtime error: invalid memory address or nil pointer dereference".

Definition Manager_Register (m : Manager) (id : string) : Manager * option error :=
  match m_descs m !! id with
  | None => (m, Some ("plugin " +:+ id +:+ ": not loaded"))
  | Some d =>
      match Transition (d_State d) StateRegistered with
      | Some e => (m, Some e)
      | None =>
          match m_modules m !! id with
          | None => (m, Some nil_pointer)
          | Some md =>
              let ops := map (fun op => with_source op (d_Source d)) (mod_Operations md) in
              match first_invalid ops with
              | Some e => (m, Some ("plugin " +:+ id +:+ ": " +:+ e))
              | None =>
                  let m := mg_reg m (foldl Registry_Register (m_reg m) ops) in
                  match syncFunc (m_reg m) (m_store m) id ops with
                  | (reg, s, Some e) => (mg_store (mg_reg m reg) s, Some ("plugin " +:+ id +:+ ": sync: " +:+ e))
                  | (reg, s, None) => (setState (mg_store (mg_reg m reg) s) id StateRegistered, None)
                  end
              end
          end
      end
  end.

Fixpoint enable_ops (s : S) (names : list string) : S * option (string * error) :=
  match names with
  | [] => (s, None)
  | n :: names' =>
      match Operations_SetEnabled s n true with
      | (s, Some e) => (s, Some (n, e))
      | (s, None) => enable_ops s names'
      end
  end.

Definition disable_ops (s : S) (names : list string) : S :=
  foldl (fun s n => fst (Operations_SetEnabled s n false)) s names.

Definition Enable (m : Manager) (id : string) : Manager * option error :=
  match m_descs m !! id with
  | None => (m, Some ("plugin " +:+ id +:+ ": unknown"))
  | Some d =>
      match Transition (d_State d) StateEnabled with
      | Some e => (m, Some e)
      | None =>
          match enable_ops (m_store m) (operationNames (d_Manifest d)) with
          | (s, Some (op, e)) => (mg_store m s, Some ("plugin " +:+ id +:+ ": enable op " +:+ op +:+ ": " +:+ e))
          | (s, None) =>
              match Plugins_SetEnabled s id true with
              | (s, Some e) => (mg_store m s, Some ("plugin " +:+ id +:+ ": enable: " +:+ e))
              | (s, None) => (setState (mg_store m s) id StateEnabled, None)
              end
          end
      end
  end.

Definition Disable (m : Manager) (id : string) : Manager * option error :=
  match m_descs m !! id with
  | None => (m, Some ("plugin " +:+ id +:+ ": unknown"))
  | Some d =>
      match Transition (d_State d) StateDisabled with
      | Some e => (m, Some e)
      | None =>
          let s := disable_ops (m_store m) (operationNames (d_Manifest d)) in
          let s := fst (Plugins_SetEnabled s id false) in
          (setState (mg_store m s) id StateDisabled, None)
      end
  end.

(** Take the names out of the registry and disable their rows. *)
Definition retire (m : Manager) (names : list string) : Manager :=
  foldl (fun m n => mg_store (mg_reg m (Registry_Unregister (m_reg m) n)) (fst (Operations_SetEnabled (m_store m) n false)))
    m names.

Definition Unload (m : Manager) (id : string) : Manager * option error :=
  match m_descs m !! id with
  | None => (m, Some ("plugin " +:+ id +:+ ": unknown"))
  | Some d =>
      match Transition (d_State d) StateUnloaded with
      | Some e => (m, Some e)
      | None =>
          let m := MkManager (m_reg m) (m_store m) (delete id (m_descs m)) (delete id (m_modules m)) (m_gen m) in
          let m := retire m (operationNames (d_Manifest d)) in
          (mg_store m (fst (Plugins_SetStatus (m_store m) id (LifecycleState_string StateUnloaded))), None)
      end
  end.

(** ** Bootstrap *)

Fixpoint boot_modules (m : Manager) (prev : gmap string bool) (autoEnable : bool) (mods : list (Module_ Ctx Input))
  : Manager * list string * list error :=
  match mods with
  | [] => (m, [], [])
  | md :: mods' =>
      let id := d_ID (mod_Descriptor md) in
      match Manager_Register m id with
      | (m, Some e) =>
          let '(m, enabled, errs) := boot_modules m prev autoEnable mods' in
          (m, enabled, ("plugin " +:+ id +:+ " register: " +:+ e) :: errs)
      | (m, None) =>
          if default autoEnable (prev !! id) then
            match Enable m id with
            | (m, Some e) =>
                let '(m, enabled, errs) := boot_modules m prev autoEnable mods' in
                (m, enabled, ("plugin " +:+ id +:+ " enable: " +:+ e) :: errs)
            | (m, None) =>
                let '(m, enabled, errs) := boot_modules m prev autoEnable mods' in (m, id :: enabled, errs)
            end
          else boot_modules m prev autoEnable mods'
      end
  end.

(** [Bootstrap]; [autoEnable] is the policy's [AutoEnableNewPlugin]. *)
Definition Bootstrap (m : Manager) (loader : Loader Ctx Input) (hostCaps : list string) (autoEnable : bool) (now : Time)
  : Manager * list string * list error :=
  let prev : gmap string bool := match Plugins_List (m_store m) with
    | Err _ => ∅
    | Ok rows => foldl (fun prev p => <[pl_ID p := pl_Enabled p]> prev) ∅ rows
    end in
  let '(m, mods, loadErrs) := DiscoverAndLoad m loader hostCaps now in
  match mods with
  | [] => (m, [], loadErrs)
  | _ => let '(m, enabled, errs) := boot_modules m prev autoEnable mods in (m, enabled, loadErrs ++ errs)
  end.

(** ** Reload *)

Inductive HookPhase : Type := HookBefore | HookCommit | HookRollback.

#[export] Instance HookPhase_eq_dec : EqDecision HookPhase.
Proof. solve_decision. Defined.

(** Phase A: nothing shared changes but the audit; the new descriptor, module
    and operations, or the failure. *)
Definition reload_validate (m : Manager) (id : string) (old : Descriptor) (loader : Loader Ctx Input)
    (hostCaps : list string) (now : Time)
  : Manager * result error (Descriptor * Module_ Ctx Input * list (Dispatch.Operation Ctx Input)) :=
  match List.find (fun d => String.eqb (d_ID d) id) (ld_Discover loader) with
  | None =>
      match List.find (fun d => String.eqb (mf_Name (d_Manifest d)) (pluginNameFromID id)) (ld_Discover loader) with
      | Some d =>
          (auditReload m id (mf_Name (d_Manifest d)) "failure"
             ("code=id-mismatch reason=source now declares " +:+ d_ID d +:+ " (use Upgrade, not Reload)") now,
           Err ("plugin " +:+ id +:+ ": source now declares " +:+ d_ID d +:+ " — identity changed, this is an Upgrade not a Reload"))
      | None =>
          (auditReload m id (mf_Name (d_Manifest old)) "failure"
             ("code=descriptor-not-found reason=plugin " +:+ id +:+ " not present in loader") now,
           Err ("plugin " +:+ id +:+ ": not present in loader for reload"))
      end
  | Some nd =>
      let name := mf_Name (d_Manifest nd) in
      if negb (String.eqb (d_ID nd) id) then
        (auditReload m id name "failure"
           ("code=id-mismatch reason=reloaded descriptor id " +:+ d_ID nd +:+ " != " +:+ id +:+ " (use Upgrade, not Reload)") now,
         Err ("plugin " +:+ id +:+ ": reloaded descriptor id " +:+ d_ID nd +:+ " != requested " +:+ id +:+ " (use Upgrade, not Reload)"))
      else match gate_rejects (d_Manifest nd) with
      | Some (reason, code) =>
          (auditReload m id name "failure" ("code=" +:+ code +:+ " reason=" +:+ reason) now,
           Err ("plugin " +:+ id +:+ ": compatibility gate rejected: " +:+ reason))
      | None =>
          match negotiateCapabilities m id (d_Manifest nd) hostCaps now with
          | (m, (_ :: _) as missing) =>
              (auditReload m id name "failure" ("code=missing-capability reason=requires " +:+ list_text missing) now,
               Err ("plugin " +:+ id +:+ ": requires capabilities " +:+ list_text missing +:+ " not satisfied by host"))
          | (m, []) =>
              match ld_Load loader nd with
              | Err e =>
                  (auditReload m id name "failure" ("code=load-error reason=" +:+ e) now,
                   Err ("plugin " +:+ id +:+ ": load: " +:+ e))
              | Ok nmod =>
                  match first_invalid (mod_Operations nmod) with
                  | Some e =>
                      (auditReload m id name "failure" ("code=invalid-operation reason=" +:+ e) now,
                       Err ("plugin " +:+ id +:+ ": " +:+ e))
                  | None => (m, Ok (nd, nmod, map (fun op => with_source op (d_Source nd)) (mod_Operations nmod)))
                  end
              end
          end
      end
  end.

(** Call the synchronizer and keep what it did. *)
Definition call_sync (m : Manager) (id : string) (ops : list (Dispatch.Operation Ctx Input)) : Manager * option error :=
  let '(reg, s, err) := syncFunc (m_reg m) (m_store m) id ops in (mg_store (mg_reg m reg) s, err).

(** Phase B: the projection, the swap, the row, and what the definition lost. *)
Definition reload_commit (m : Manager) (id : string) (old : Descriptor) (oldMod : Module_ Ctx Input)
    (nd : Descriptor) (nmod : Module_ Ctx Input) (newOps : list (Dispatch.Operation Ctx Input)) (now : Time)
  : Manager * option error :=
  let name := mf_Name (d_Manifest nd) in
  match call_sync m id newOps with
  | (m, Some e) =>
      let m := fst (call_sync m id (mod_Operations oldMod)) in
      (auditReload m id name "failure" ("code=sync-error reason=" +:+ e) now, Some ("plugin " +:+ id +:+ ": sync: " +:+ e))
  | (m, None) =>
      let m := put_plugin m id (with_state (mod_Descriptor nmod) (d_State old)) nmod in
      match Plugins_Upsert (m_store m)
              (MkPlugin id name (mf_Version (d_Manifest nd)) (LifecycleState_string (d_State old))
                 (bool_decide (d_State old = StateEnabled)) now) with
      | (s, Some e) =>
          let m := put_plugin (mg_store m s) id old oldMod in
          let m := fst (call_sync m id (mod_Operations oldMod)) in
          (auditReload m id name "failure" ("code=persist-error reason=" +:+ e) now,
           Some ("plugin " +:+ id +:+ ": persist: " +:+ e))
      | (s, None) =>
          let m := retire (mg_store m s) (diffNames (operationNames (d_Manifest old)) (operationNames (d_Manifest nd))) in
          let gen := default 0 (m_gen m !! id) + 1 in
          let m := MkManager (m_reg m) (m_store m) (m_descs m) (m_modules m) (<[id := gen]> (m_gen m)) in
          (auditReload m id name "success" ("generation=" +:+ pretty gen) now, None)
      end
  end.

(** [Reload]: the new manager, the error, and the hooks fired. *)
Definition Reload (m : Manager) (id : string) (loader : Loader Ctx Input) (hostCaps : list string) (now : Time)
  : Manager * option error * list HookPhase :=
  match m_descs m !! id, m_modules m !! id with
  | Some old, Some oldMod =>
      match reload_validate m id old loader hostCaps now with
      | (m, Err e) => (m, Some e, [HookRollback])
      | (m, Ok (nd, nmod, newOps)) =>
          match reload_commit m id old oldMod nd nmod newOps now with
          | (m, Some e) => (m, Some e, [HookBefore; HookRollback])
          | (m, None) => (m, None, [HookBefore; HookCommit])
          end
      end
  | _, _ => (m, Some ("plugin " +:+ id +:+ ": not loaded, cannot reload"), [])
  end.

Definition ReloadCount (m : Manager) (id : string) : Z := default 0 (m_gen m !! id).
Definition Manager_Get (m : Manager) (id : string) : option Descriptor := m_descs m !! id.
Definition Manager_List (m : Manager) : list Descriptor := (map_to_list (m_descs m)).*2.

(** ** Commands *)

Inductive ManagerCmd : Type :=
| CmdDiscoverAndLoad (loader : Loader Ctx Input) (hostCaps : list string) (now : Time)
| CmdBootstrap (loader : Loader Ctx Input) (hostCaps : list string) (autoEnable : bool) (now : Time)
| CmdRegister (id : string)
| CmdEnable (id : string)
| CmdDisable (id : string)
| CmdUnload (id : string)
| CmdReload (id : string) (loader : Loader Ctx Input) (hostCaps : list string) (now : Time).

Definition exec_manager (m : Manager) (c : ManagerCmd) : Manager :=
  match c with
  | CmdDiscoverAndLoad l h now => fst (fst (DiscoverAndLoad m l h now))
  | CmdBootstrap l h a now => fst (fst (Bootstrap m l h a now))
  | CmdRegister id => fst (Manager_Register m id)
  | CmdEnable id => fst (Enable m id)
  | CmdDisable id => fst (Disable m id)
  | CmdUnload id => fst (Unload m id)
  | CmdReload id l h now => fst (fst (Reload m id l h now))
  end.

(** ** Lemmas: what touches the two maps *)

Definition same_plugins (m m' : Manager) : Prop :=
  m_descs m' = m_descs m /\ m_modules m' = m_modules m /\ m_gen m' = m_gen m.

#[local] Instance same_plugins_pre : PreOrder same_plugins.
Proof. split; [done|]. intros a b c (? & ? & ?) (? & ? & ?). split_and!; congruence. Qed.

Lemma negotiate_same m id man caps now : same_plugins m (fst (negotiateCapabilities m id man caps now)).
Proof. unfold negotiateCapabilities. destruct (mf_Capabilities man); [done|]. cbv zeta. by destruct (ng_AllGranted _). Qed.

Lemma call_sync_same m id ops : same_plugins m (fst (call_sync m id ops)).
Proof. unfold call_sync. by destruct (syncFunc _ _ _ _) as [[? ?] ?]. Qed.

Lemma retire_same m names : same_plugins m (retire m names).
Proof. unfold retire. revert m. induction names as [|n names IH]; intros m; cbn; [done|]. etrans; [|apply IH]. done. Qed.

Lemma reload_validate_same m id old l h now :
  let '(m', r) := reload_validate m id old l h now in
  same_plugins m m' /\
  match r with
  | Ok (nd, nmod, _) => nd ∈ ld_Discover l /\ d_ID nd = id /\ ld_Load l nd = Ok nmod
  | Err _ => True
  end.
Proof.
  unfold reload_validate. destruct (List.find _ _) as [nd|] eqn:Ef.
  2: { clear Ef. match goal with |- context [List.find ?f ?l] => by destruct (List.find f l) end. }
  apply find_some in Ef as [Hin Hid%String.eqb_eq]. cbv zeta. rewrite Hid, String.eqb_refl. cbn [negb].
  destruct (gate_rejects _) as [[? ?]|]; [done|].
  pose proof (negotiate_same m id (d_Manifest nd) h now) as Hn. destruct (negotiateCapabilities _ _ _ _ _) as [m1 [|? ?]]; [|done].
  destruct (ld_Load l nd) as [nmod|] eqn:El; [|done]. destruct (first_invalid _); [done|].
  split; [done|]. split; [by apply list_elem_of_In|done].
Qed.

Lemma reload_commit_maps m id old oldMod nd nmod ops now :
  m_descs m !! id = Some old -> m_modules m !! id = Some oldMod ->
  let '(m', err) := reload_commit m id old oldMod nd nmod ops now in
  match err with
  | Some _ => same_plugins m m'
  | None =>
      m_descs m' = <[id := with_state (mod_Descriptor nmod) (d_State old)]> (m_descs m) /\
      m_modules m' = <[id := nmod]> (m_modules m) /\
      m_gen m' = <[id := default 0 (m_gen m !! id) + 1]> (m_gen m)
  end.
Proof.
  intros Hd Hm. unfold reload_commit. cbv zeta. pose proof (call_sync_same m id ops) as H1.
  destruct (call_sync m id ops) as [m1 [e|]]; cbn [fst] in H1.
  { etrans; [exact H1|]. etrans; [apply (call_sync_same m1 id (mod_Operations oldMod))|done]. }
  destruct H1 as (Ed & Em & Eg).
  destruct (Plugins_Upsert _ _) as [s [e|]].
  - match goal with |- context [call_sync ?x _ _] => pose proof (call_sync_same x id (mod_Operations oldMod)) as H2; set (m2 := x) in * end.
    destruct H2 as (Ed2 & Em2 & Eg2). split_and!; cbn.
    + rewrite Ed2. unfold m2. cbn. rewrite insert_insert_eq, Ed. by apply insert_id.
    + rewrite Em2. unfold m2. cbn. rewrite insert_insert_eq, Em. by apply insert_id.
    + rewrite Eg2. unfold m2. cbn. done.
  - match goal with |- context [retire ?x ?n] => pose proof (retire_same x n) as H2; set (m2 := retire x n) in * end.
    destruct H2 as (Ed2 & Em2 & Eg2). cbn in *. by rewrite Ed2, Em2, Eg2, Ed, Em, Eg.
Qed.

(** ** Lemmas: the life cycle *)

Definition state_of (m : Manager) (id : string) : option LifecycleState := d_State <$> m_descs m !! id.

(** A move of the state machine, or none. *)
Inductive moves : option LifecycleState -> option LifecycleState -> Prop :=
| move_stay o : moves o o
| move_step s t : CanTransition s t = true -> moves (Some s) (Some t)
| move_out s : CanTransition s StateUnloaded = true -> moves (Some s) None.

(** What a manager holds of a plugin: both maps know it, under its own id, in a
    state of a loaded plugin. *)
Definition live (s : LifecycleState) : Prop := s <> StateDiscovered /\ s <> StateUnloaded.

Definition plugin_ok (m : Manager) (id : string) : Prop :=
  match m_descs m !! id, m_modules m !! id with
  | Some d, Some _ => d_ID d = id /\ live (d_State d)
  | None, None => True
  | _, _ => False
  end.

Definition manager_wf (m : Manager) : Prop := forall id, plugin_ok m id.

(** What a loader promises of the modules it loads. *)
Class HonestLoader (l : Loader Ctx Input) : Prop := honest_load :
  forall d md, d ∈ ld_Discover l -> ld_Load l d = Ok md ->
    d_ID (mod_Descriptor md) = d_ID d /\ d_State (mod_Descriptor md) = StateLoaded.

Definition honest_cmd (c : ManagerCmd) : Prop :=
  match c with
  | CmdDiscoverAndLoad l _ _ | CmdBootstrap l _ _ _ | CmdReload _ l _ _ => HonestLoader l
  | _ => True
  end.

Lemma same_plugins_wf m m' : same_plugins m m' -> manager_wf m -> manager_wf m'.
Proof. intros (Ed & Em & _) H id. unfold plugin_ok. rewrite Ed, Em. apply H. Qed.

Lemma same_plugins_state m m' id : same_plugins m m' -> state_of m' id = state_of m id.
Proof. intros (Ed & _). unfold state_of. by rewrite Ed. Qed.

Lemma Transition_can s t : Transition s t = None -> CanTransition s t = true.
Proof. unfold Transition. case_bool_decide; [done|]. by destruct (CanTransition s t). Qed.

Lemma can_live s t : CanTransition s t = true -> t <> StateUnloaded -> live t.
Proof. by destruct s, t. Qed.

Lemma put_plugin_wf m id d md :
  manager_wf m -> d_ID d = id -> live (d_State d) -> manager_wf (put_plugin m id d md).
Proof.
  intros H Hid Hl i. unfold plugin_ok, put_plugin. cbn. destruct (decide (i = id)) as [->|Hne].
  - by rewrite !lookup_insert_eq.
  - rewrite !lookup_insert_ne by done. apply H.
Qed.

Lemma setState_state m id s i :
  state_of (setState m id s) i =
    if decide (i = id) then (fun _ => s) <$> m_descs m !! id else state_of m i.
Proof.
  unfold state_of, setState. cbn. destruct (m_descs m !! id) as [d|] eqn:E; destruct (decide (i = id)) as [->|Hne]; cbn.
  - by rewrite lookup_insert_eq.
  - by rewrite lookup_insert_ne.
  - by rewrite E.
  - done.
Qed.

Lemma setState_wf m id s : manager_wf m -> live s -> manager_wf (setState m id s).
Proof.
  intros H Hl i. unfold plugin_ok, setState. cbn. specialize (H i). unfold plugin_ok in H.
  destruct (m_descs m !! id) as [d|] eqn:E; [|done]. destruct (decide (i = id)) as [->|Hne].
  - rewrite lookup_insert_eq. rewrite E in H. destruct (m_modules m !! id); [|done]. by destruct H.
  - by rewrite lookup_insert_ne.
Qed.

(** A step that ends in [setState], from maps that are the same. *)
Lemma setState_moves m m1 id d t :
  same_plugins m m1 -> manager_wf m -> m_descs m !! id = Some d -> CanTransition (d_State d) t = true -> t <> StateUnloaded ->
  manager_wf (setState m1 id t) /\ forall i, moves (state_of m i) (state_of (setState m1 id t) i).
Proof.
  intros Hs Hw Hd Hc Ht. split; [apply setState_wf; [by eapply same_plugins_wf|by eapply can_live]|].
  intros i. rewrite setState_state. destruct (decide (i = id)) as [->|].
  - destruct Hs as (Ed & _). rewrite Ed, Hd. unfold state_of. rewrite Hd. by apply move_step.
  - rewrite (same_plugins_state _ _ _ Hs). constructor.
Qed.

Lemma same_moves m m' : same_plugins m m' -> manager_wf m ->
  manager_wf m' /\ forall i, moves (state_of m i) (state_of m' i).
Proof.
  intros Hs Hw. split; [by eapply same_plugins_wf|]. intros i. rewrite (same_plugins_state _ _ _ Hs). constructor.
Qed.

Lemma Register_moves m id :
  manager_wf m -> let m' := fst (Manager_Register m id) in manager_wf m' /\ forall i, moves (state_of m i) (state_of m' i).
Proof.
  intros Hw. unfold Manager_Register. destruct (m_descs m !! id) as [d|] eqn:Ed; [|by apply same_moves].
  destruct (Transition _ _) eqn:Et; [by apply same_moves|]. destruct (m_modules m !! id) as [md|]; [|by apply same_moves].
  cbv zeta. destruct (first_invalid _); [by apply same_moves|]. destruct (syncFunc _ _ _ _) as [[reg s] [e|]]; [by apply same_moves|].
  cbn [fst]. eapply setState_moves; [|done|done|by apply Transition_can|done]. done.
Qed.

Lemma Enable_moves m id :
  manager_wf m -> let m' := fst (Enable m id) in manager_wf m' /\ forall i, moves (state_of m i) (state_of m' i).
Proof.
  intros Hw. unfold Enable. destruct (m_descs m !! id) as [d|] eqn:Ed; [|by apply same_moves].
  destruct (Transition _ _) eqn:Et; [by apply same_moves|]. destruct (enable_ops _ _) as [s [[op e]|]]; [by apply same_moves|].
  destruct (Plugins_SetEnabled _ _ _) as [s' [e|]]; [by apply same_moves|].
  cbn [fst]. eapply setState_moves; [|done|done|by apply Transition_can|done]. done.
Qed.

Lemma Disable_moves m id :
  manager_wf m -> let m' := fst (Disable m id) in manager_wf m' /\ forall i, moves (state_of m i) (state_of m' i).
Proof.
  intros Hw. unfold Disable. destruct (m_descs m !! id) as [d|] eqn:Ed; [|by apply same_moves].
  destruct (Transition _ _) eqn:Et; [by apply same_moves|].
  cbn [fst]. eapply setState_moves; [|done|done|by apply Transition_can|done]. done.
Qed.

Lemma Unload_moves m id :
  manager_wf m -> let m' := fst (Unload m id) in manager_wf m' /\ forall i, moves (state_of m i) (state_of m' i).
Proof.
  intros Hw. unfold Unload. destruct (m_descs m !! id) as [d|] eqn:Ed; [|by apply same_moves].
  destruct (Transition _ _) eqn:Et; [by apply same_moves|]. cbv zeta. cbn [fst].
  match goal with |- context [retire ?x ?n] => pose proof (retire_same x n) as (E1 & E2 & _); set (m2 := retire x n) in * end.
  cbn in E1, E2. split.
  - intros i. unfold plugin_ok. cbn. rewrite E1, E2. destruct (decide (i = id)) as [->|].
    + by rewrite !lookup_delete_eq.
    + rewrite !lookup_delete_ne by done. apply Hw.
  - intros i. unfold state_of. cbn. rewrite E1. destruct (decide (i = id)) as [->|].
    + rewrite lookup_delete_eq, Ed. apply move_out. by apply Transition_can.
    + rewrite lookup_delete_ne by done. constructor.
Qed.

(** A reload leaves every state alone. *)
Lemma Reload_moves m id l h now :
  HonestLoader l -> manager_wf m ->
  let m' := fst (fst (Reload m id l h now)) in manager_wf m' /\ forall i, state_of m' i = state_of m i.
Proof.
  intros Hl Hw. unfold Reload. destruct (m_descs m !! id) as [old|] eqn:Ed, (m_modules m !! id) as [oldMod|] eqn:Em; try done.
  pose proof (reload_validate_same m id old l h now) as Hv. destruct (reload_validate _ _ _ _ _ _) as [m1 [[[nd nmod] ops]|e]].
  2: { destruct Hv as [Hs _]. cbn. split; [by eapply same_plugins_wf|]. intros i. by apply same_plugins_state. }
  destruct Hv as (Hs & Hin & Hid & Hload). destruct Hs as (E1 & E2 & E3).
  pose proof (reload_commit_maps m1 id old oldMod nd nmod ops now ltac:(by rewrite E1) ltac:(by rewrite E2)) as Hc.
  destruct (reload_commit _ _ _ _ _ _ _ _) as [m2 [e|]]; cbn [fst].
  - assert (Hs : same_plugins m m2) by (by etrans; [|exact Hc]). split; [by eapply same_plugins_wf|]. intros i. by apply same_plugins_state.
  - destruct Hc as (F1 & F2 & _). destruct (Hl nd nmod Hin Hload) as [Hnid _].
    assert (Hp : plugin_ok m id) by apply Hw. unfold plugin_ok in Hp. rewrite Ed, Em in Hp. destruct Hp as [_ Hlive]. split.
    + intros i. unfold plugin_ok. rewrite F1, F2, E1, E2. destruct (decide (i = id)) as [->|].
      * rewrite !lookup_insert_eq. split; [cbn; congruence|done].
      * rewrite !lookup_insert_ne by done. apply Hw.
    + intros i. unfold state_of. rewrite F1, E1. destruct (decide (i = id)) as [->|]; [by rewrite lookup_insert_eq, Ed|].
      by rewrite lookup_insert_ne.
Qed.

(** Loading: a state is unchanged or [Loaded]. *)
Lemma load_descriptors_moves m l descs h now :
  HonestLoader l -> (forall d, d ∈ descs -> d ∈ ld_Discover l) -> manager_wf m ->
  let '(m', mods, errs) := load_descriptors m l descs h now in
  manager_wf m' /\ forall i, state_of m' i = state_of m i \/ state_of m' i = Some StateLoaded.
Proof.
  intros Hl. revert m. induction descs as [|d descs IH]; intros m Hd Hw; cbn [load_descriptors]; [split; [done|by left]|].
  assert (Hd' : forall d', d' ∈ descs -> d' ∈ ld_Discover l) by (intros; apply Hd; by right).
  assert (Hskip : forall m1, manager_wf m1 -> (forall i, state_of m1 i = state_of m i \/ state_of m1 i = Some StateLoaded) ->
    let '(m', mods, errs) := load_descriptors m1 l descs h now in
    manager_wf m' /\ forall i, state_of m' i = state_of m i \/ state_of m' i = Some StateLoaded).
  { intros m1 Hw1 Hs1. specialize (IH m1 Hd' Hw1). destruct (load_descriptors m1 l descs h now) as [[m' mods] errs].
    destruct IH as [? IH]. split; [done|]. intros i. destruct (IH i) as [->|?]; [apply Hs1|by right]. }
  cbv zeta. destruct (gate_rejects (d_Manifest d)) as [[reason code]|].
  { specialize (Hskip (recordRejection m (d_ID d) (d_Manifest d) reason now)).
    destruct (load_descriptors _ l descs h now) as [[? ?] ?]. apply Hskip; [exact Hw|by left]. }
  pose proof (negotiate_same m (d_ID d) (d_Manifest d) h now) as Hn. destruct (negotiateCapabilities _ _ _ _ _) as [m1 missing].
  cbn [fst] in Hn. assert (Hw1 : manager_wf m1) by (by eapply same_plugins_wf).
  assert (Hs1 : forall i, state_of m1 i = state_of m i \/ state_of m1 i = Some StateLoaded) by (intros i; left; by apply same_plugins_state).
  destruct missing as [|x missing].
  2: { specialize (Hskip m1 Hw1 Hs1). by destruct (load_descriptors _ l descs h now) as [[? ?] ?]. }
  destruct (ld_Load l d) as [md|e] eqn:El.
  2: { specialize (Hskip m1 Hw1 Hs1). by destruct (load_descriptors _ l descs h now) as [[? ?] ?]. }
  destruct (Hl d md (Hd d ltac:(left)) El) as [Hid Hst].
  assert (Hput : forall s, manager_wf (mg_store (put_plugin m1 (d_ID d) (mod_Descriptor md) md) s)).
  { intros s. eapply (same_plugins_wf (put_plugin m1 (d_ID d) (mod_Descriptor md) md)); [done|]. apply put_plugin_wf; try done. by rewrite Hst. }
  assert (Hputs : forall s i, let m2 := mg_store (put_plugin m1 (d_ID d) (mod_Descriptor md) md) s in
    state_of m2 i = state_of m i \/ state_of m2 i = Some StateLoaded).
  { intros s i. unfold state_of. cbn. destruct (decide (i = d_ID d)) as [->|].
    - right. rewrite lookup_insert_eq. cbn. by rewrite Hst.
    - rewrite lookup_insert_ne by done. apply Hs1. }
  destruct (Plugins_Upsert _ _) as [s [e|]]; specialize (Hskip _ (Hput s) (Hputs s));
    by destruct (load_descriptors _ l descs h now) as [[? ?] ?].
Qed.

Lemma setState_changes m m1 id t i :
  same_plugins m m1 -> state_of (setState m1 id t) i = state_of m i \/ state_of (setState m1 id t) i = Some t.
Proof.
  intros Hs. rewrite setState_state. destruct (decide (i = id)) as [->|]; [|left; by apply same_plugins_state].
  destruct Hs as (Ed & _). rewrite Ed. unfold state_of. destruct (m_descs m !! id); [by right|by left].
Qed.

Lemma Register_state m id i :
  let m' := fst (Manager_Register m id) in state_of m' i = state_of m i \/ state_of m' i = Some StateRegistered.
Proof.
  unfold Manager_Register. destruct (m_descs m !! id) as [d|]; [|by left]. destruct (Transition _ _); [by left|].
  destruct (m_modules m !! id) as [md|]; [|by left]. cbv zeta. destruct (first_invalid _); [by left|].
  destruct (syncFunc _ _ _ _) as [[reg s] [e|]]; [by left|]. by apply setState_changes.
Qed.

Lemma Enable_state m id i :
  let m' := fst (Enable m id) in state_of m' i = state_of m i \/ state_of m' i = Some StateEnabled.
Proof.
  unfold Enable. destruct (m_descs m !! id) as [d|]; [|by left]. destruct (Transition _ _); [by left|].
  destruct (enable_ops _ _) as [s [[op e]|]]; [by left|]. destruct (Plugins_SetEnabled _ _ _) as [s' [e|]]; [by left|].
  by apply setState_changes.
Qed.

(** The states a start leaves plugins in. *)
Definition started : list (option LifecycleState) := [Some StateLoaded; Some StateRegistered; Some StateEnabled].

Lemma started_trans (a b c : option LifecycleState) : (b = a \/ b ∈ started) -> (c = b \/ c ∈ started) -> c = a \/ c ∈ started.
Proof. intros [->|?] [->|?]; auto. Qed.

Lemma started_step (P : LifecycleState) (a b : option LifecycleState) : Some P ∈ started -> b = a \/ b = Some P -> b = a \/ b ∈ started.
Proof. intros ? [->| ->]; auto. Qed.

Lemma boot_modules_moves m prev a mods :
  manager_wf m ->
  let '(m', enabled, errs) := boot_modules m prev a mods in
  manager_wf m' /\ forall i, state_of m' i = state_of m i \/ state_of m' i ∈ started.
Proof.
  revert m. induction mods as [|md mods IH]; intros m Hw; cbn [boot_modules]; [split; [done|by left]|]. cbv zeta.
  set (id := d_ID (mod_Descriptor md)).
  assert (Hskip : forall m1, manager_wf m1 -> (forall i, state_of m1 i = state_of m i \/ state_of m1 i ∈ started) ->
    let '(m', enabled, errs) := boot_modules m1 prev a mods in
    manager_wf m' /\ forall i, state_of m' i = state_of m i \/ state_of m' i ∈ started).
  { intros m1 Hw1 H1. specialize (IH m1 Hw1). destruct (boot_modules m1 prev a mods) as [[m' ?] ?]. destruct IH as [? IH].
    split; [done|]. intros i. by eapply started_trans. }
  pose proof (Register_moves m id Hw) as [Hw1 _].
  assert (H1 : forall i, state_of (fst (Manager_Register m id)) i = state_of m i \/ state_of (fst (Manager_Register m id)) i ∈ started).
  { intros i. apply (started_step StateRegistered); [right; left|apply Register_state]. }
  destruct (Manager_Register m id) as [m1 [e|]]; cbn [fst] in *.
  { specialize (Hskip m1 Hw1 H1). by destruct (boot_modules _ _ _ _) as [[? ?] ?]. }
  destruct (default a (prev !! id)); [|by apply Hskip].
  pose proof (Enable_moves m1 id Hw1) as [Hw2 _].
  assert (H2 : forall i, state_of (fst (Enable m1 id)) i = state_of m i \/ state_of (fst (Enable m1 id)) i ∈ started).
  { intros i. eapply started_trans; [apply H1|]. apply (started_step StateEnabled); [right; right; left|apply Enable_state]. }
  destruct (Enable m1 id) as [m2 [e|]]; cbn [fst] in *; specialize (Hskip m2 Hw2 H2); by destruct (boot_modules _ _ _ _) as [[? ?] ?].
Qed.

Lemma Discover_moves m l h now :
  HonestLoader l -> manager_wf m ->
  let '(m', mods, errs) := DiscoverAndLoad m l h now in
  manager_wf m' /\ forall i, state_of m' i = state_of m i \/ state_of m' i = Some StateLoaded.
Proof.
  intros Hl Hw. unfold DiscoverAndLoad. pose proof (load_descriptors_moves m l (ld_Discover l) h now Hl (fun _ H => H) Hw) as H.
  by destruct (load_descriptors m l (ld_Discover l) h now) as [[? ?] ?].
Qed.

Lemma Bootstrap_moves m l h a now :
  HonestLoader l -> manager_wf m ->
  let m' := fst (fst (Bootstrap m l h a now)) in
  manager_wf m' /\ forall i, state_of m' i = state_of m i \/ state_of m' i ∈ started.
Proof.
  intros Hl Hw. unfold Bootstrap. cbv zeta. match goal with |- context [default a] => idtac | _ => idtac end.
  pose proof (Discover_moves m l h now Hl Hw) as H. destruct (DiscoverAndLoad m l h now) as [[m1 mods] errs]. destruct H as [Hw1 H1].
  assert (H1' : forall i, state_of m1 i = state_of m i \/ state_of m1 i ∈ started).
  { intros i. apply (started_step StateLoaded); [left|apply H1]. }
  destruct mods as [|md mods]; [done|]. match goal with |- context [boot_modules m1 ?p a _] => pose proof (boot_modules_moves m1 p a (md :: mods) Hw1) as H2;
    destruct (boot_modules m1 p a (md :: mods)) as [[m2 ?] ?] end.
  destruct H2 as [Hw2 H2]. split; [done|]. intros i. eapply started_trans; [apply H1'|apply H2].
Qed.

Lemma exec_manager_wf m c : honest_cmd c -> manager_wf m -> manager_wf (exec_manager m c).
Proof.
  intros Hc Hw. destruct c; cbn in *.
  - pose proof (Discover_moves m loader hostCaps now Hc Hw) as H. by destruct (DiscoverAndLoad _ _ _ _) as [[? ?] ?]; destruct H.
  - by apply Bootstrap_moves.
  - by apply Register_moves.
  - by apply Enable_moves.
  - by apply Disable_moves.
  - by apply Unload_moves.
  - by apply Reload_moves.
Qed.

Lemma run_manager_wf reg store cs : Forall honest_cmd cs -> manager_wf (run_list exec_manager (NewManager reg store) cs).
Proof.
  intros Hc. assert (H0 : manager_wf (NewManager reg store)) by (intros id; unfold plugin_ok; cbn; by rewrite !lookup_empty).
  revert H0. generalize (NewManager reg store). induction Hc as [|c cs Hc Hcs IH]; intros m Hm; [done|].
  unfold run_list. cbn. apply IH. by apply exec_manager_wf.
Qed.

(** ** Properties *)

(** C18. The life cycle (Phase 3.0): after any commands, whatever storage, gate and
    synchronizer answer, with loaders that load a module under the id that was
    asked for, in state "loaded" ([HonestLoader]; the loader of files is one), both
    maps hold the same plugins under their own ids, in live states. Registering,
    enabling, disabling and unloading move a plugin along the state machine or not
    at all, and a reload changes no state. Discovery leaves a plugin as it was or
    puts it in "loaded", and a bootstrap in "loaded", "registered" or "enabled",
    from any state, which the machine does not have ([rediscovered_loaded]: an
    enabled plugin becomes "loaded"). An enabled plugin never disappears by one
    command, and unloading it is refused without a trace. *)
Theorem manager_lifecycle reg store cs c :
  Forall honest_cmd cs -> honest_cmd c ->
  let m := run_list exec_manager (NewManager reg store) cs in
  let m' := exec_manager m c in
  manager_wf m /\
  (forall i, match c with
   | CmdRegister _ | CmdEnable _ | CmdDisable _ | CmdUnload _ => moves (state_of m i) (state_of m' i)
   | CmdReload _ _ _ _ => state_of m' i = state_of m i
   | CmdDiscoverAndLoad _ _ _ => state_of m' i = state_of m i \/ state_of m' i = Some StateLoaded
   | CmdBootstrap _ _ _ _ => state_of m' i = state_of m i \/ state_of m' i ∈ started
   end) /\
  (forall i, state_of m i = Some StateEnabled -> state_of m' i <> None /\ (c = CmdUnload i -> m' = m)).
Proof.
  intros Hcs Hc m m'. pose proof (run_manager_wf reg store cs Hcs) as Hw. fold m in Hw. split; [done|].
  assert (Hm : forall i, match c with
   | CmdRegister _ | CmdEnable _ | CmdDisable _ | CmdUnload _ => moves (state_of m i) (state_of m' i)
   | CmdReload _ _ _ _ => state_of m' i = state_of m i
   | CmdDiscoverAndLoad _ _ _ => state_of m' i = state_of m i \/ state_of m' i = Some StateLoaded
   | CmdBootstrap _ _ _ _ => state_of m' i = state_of m i \/ state_of m' i ∈ started
   end).
  { intros i. unfold m'. destruct c; cbn in *.
    - pose proof (Discover_moves m loader hostCaps now Hc Hw) as H. destruct (DiscoverAndLoad _ _ _ _) as [[? ?] ?]. by destruct H.
    - by apply Bootstrap_moves.
    - by apply Register_moves.
    - by apply Enable_moves.
    - by apply Disable_moves.
    - by apply Unload_moves.
    - by apply Reload_moves. }
  split; [done|]. intros i Hi. split.
  - specialize (Hm i). rewrite Hi in Hm. intros Hn. rewrite Hn in Hm. destruct c; try by destruct Hm.
    all: try (by inversion Hm). destruct Hm as [?|Hm]; [done|]. unfold started in Hm. apply list_elem_of_In in Hm. cbn in Hm. by destruct Hm as [?|[?|[?|?]]].
  - intros ->. unfold m'. cbn. unfold Unload. unfold state_of in Hi. destruct (m_descs m !! i) as [d|]; [|done].
    injection Hi as ->. done.
Qed.

(** C24. Reload is all or nothing in memory (Phase 3.6, MUST-1 to MUST-3): whatever
    storage, gate, loader and synchronizer answer, a reload that fails leaves
    every descriptor, module and generation as it was, and a reload that succeeds
    replaces exactly the definition of that id, which the source still declares,
    keeps its state and counts one generation; the observers see one outcome, and
    the commit is announced exactly when the definition was valid. *)
Theorem reload_all_or_nothing m id l h now m' err hooks :
  Reload m id l h now = (m', err, hooks) ->
  match err with
  | Some _ => same_plugins m m' /\ hooks ∈ [[]; [HookRollback]; [HookBefore; HookRollback]] /\
      (hooks = [] <-> m_descs m !! id = None \/ m_modules m !! id = None)
  | None => exists old nd nmod,
      m_descs m !! id = Some old /\ nd ∈ ld_Discover l /\ d_ID nd = id /\ ld_Load l nd = Ok nmod /\
      m_descs m' = <[id := with_state (mod_Descriptor nmod) (d_State old)]> (m_descs m) /\
      m_modules m' = <[id := nmod]> (m_modules m) /\
      (forall i, ReloadCount m' i = ReloadCount m i + (if decide (i = id) then 1 else 0)) /\
      hooks = [HookBefore; HookCommit]
  end.
Proof.
  unfold Reload. destruct (m_descs m !! id) as [old|] eqn:Ed, (m_modules m !! id) as [oldMod|] eqn:Em.
  2-4: intros [= <- <- <-]; (split; [done|split; [left|split; [auto|done]]]).
  pose proof (reload_validate_same m id old l h now) as Hv. destruct (reload_validate _ _ _ _ _ _) as [m1 [[[nd nmod] ops]|e]].
  2: { intros [= <- <- <-]. split; [apply Hv|]. split; [right; left|]. split; [done|by intros []]. }
  destruct Hv as (Hs & Hin & Hid & Hload). pose proof Hs as (E1 & E2 & E3).
  pose proof (reload_commit_maps m1 id old oldMod nd nmod ops now ltac:(by rewrite E1) ltac:(by rewrite E2)) as Hc.
  destruct (reload_commit _ _ _ _ _ _ _ _) as [m2 [e|]]; intros [= <- <- <-].
  - split; [by etrans|]. split; [right; right; left|]. split; [done|by intros []].
  - destruct Hc as (F1 & F2 & F3). exists old, nd, nmod. rewrite F1, F2, E1, E2. split_and!; try done.
    intros i. unfold ReloadCount. rewrite F3, E3. case_decide; [subst; by rewrite lookup_insert_eq|]. rewrite lookup_insert_ne by done. cbn. lia.
Qed.

End PluginManager.
Arguments Manager : clear implicits.
Arguments SyncFunc : clear implicits.
Arguments MkManager {Ctx Input S}.

(** The loader of files is honest. *)
#[export] Instance file_loader_honest {Ctx Input} (mi : Input -> option Z) (mp : ExecutionPlan -> option Z) keys read :
  HonestLoader (Ctx:=Ctx) (NewFileLoader mi mp keys read).
Proof.
  intros d md. unfold NewFileLoader. destruct (FileLoader_Discover keys read) as [descs errs] eqn:E. cbn.
  intros Hin [= <-]. split; [|done]. cbn. unfold FileLoader_Discover in E. destruct keys as [keys|e]; [|injection E as <- _; by apply elem_of_nil in Hin].
  destruct (read_keys read (sort_strings keys)) as [ms es]. injection E as <- _.
  apply sort_slice_elem, list_elem_of_In, filter_In in Hin as [Hin _]. apply in_map_iff in Hin as ([k m] & <- & _). done.
Qed.

(** ** On the store in memory *)

Section Memory.
Context {Ctx Input : Type} (gate : CompatGate) (kernel : KernelInfo).
Implicit Types (m : Manager Ctx Input MemoryStorage) (s : MemoryStorage).

Definition row s (name : string) : option ControlStore.Operation := os_items (st_op s) !! name.
Definition row_enabled s (name : string) : option bool := op_Enabled <$> row s name.

(** Setting the flags of some rows. *)
Record flagged s s' (names : list string) (b : bool) : Prop := {
  fl_in : forall n, n ∈ names -> row_enabled s' n = (fun _ => b) <$> row s n;
  fl_id : forall n, op_ID <$> row s' n = op_ID <$> row s n;
  fl_out : forall n, n ∉ names -> row s' n = row s n;
  fl_rest : st_user s' = st_user s /\ st_role s' = st_role s;
  fl_wf : storage_wf s -> storage_wf s' }.

Lemma SetEnabled_flagged s n b : flagged s (fst (Operations_SetEnabled s n b)) [n] b.
Proof.
  cbn. pose proof (exec_store_wf s (CmdSetOperationEnabled n b)) as Hwf. cbn in Hwf. unfold memOperationStore_SetEnabled in *.
  destruct (os_items (st_op s) !! n) as [op|] eqn:E; cbn in *; (split; [| | |done|exact Hwf]); unfold row_enabled, row; cbn; intros i.
  - intros ->%list_elem_of_singleton. by rewrite lookup_insert_eq, E.
  - destruct (decide (i = n)) as [->|]; [by rewrite lookup_insert_eq, E|by rewrite lookup_insert_ne].
  - intros Hi. rewrite lookup_insert_ne; [done|]. intros ->. apply Hi. left.
  - intros ->%list_elem_of_singleton. by rewrite E.
  - done.
  - done.
Qed.

Lemma flagged_nil s b : flagged s s [] b.
Proof. split; try done. by intros n ?%elem_of_nil. Qed.

Lemma flagged_cons s s1 s2 n names b : flagged s s1 [n] b -> flagged s1 s2 names b -> flagged s s2 (n :: names) b.
Proof.
  intros H1 H2. split.
  - intros i Hi. destruct (decide (i ∈ names)) as [Hin|Hout].
    + rewrite (fl_in _ _ _ _ H2 i Hin). pose proof (fl_id _ _ _ _ H1 i) as Hid. by destruct (row s1 i), (row s i).
    + apply elem_of_cons in Hi as [->|]; [|done]. unfold row_enabled. rewrite (fl_out _ _ _ _ H2 n Hout).
      apply (fl_in _ _ _ _ H1). left.
  - intros i. by rewrite (fl_id _ _ _ _ H2), (fl_id _ _ _ _ H1).
  - intros i Hi. rewrite (fl_out _ _ _ _ H2), (fl_out _ _ _ _ H1); [done| |].
    + intros ->%list_elem_of_singleton. apply Hi. left.
    + intros ?. apply Hi. by right.
  - destruct (fl_rest _ _ _ _ H1) as (? & ?), (fl_rest _ _ _ _ H2) as (? & ?). split_and!; congruence.
  - intros Hw. by apply (fl_wf _ _ _ _ H2), (fl_wf _ _ _ _ H1).
Qed.

Lemma disable_ops_flagged s names : flagged s (disable_ops s names) names false.
Proof.
  unfold disable_ops. revert s. induction names as [|n names IH]; intros s; cbn -[Operations_SetEnabled]; [apply flagged_nil|].
  eapply flagged_cons; [apply SetEnabled_flagged|apply IH].
Qed.

Lemma enable_ops_flagged s names s' : enable_ops s names = (s', None) -> flagged s s' names true /\ (forall n, n ∈ names -> is_Some (row s n)).
Proof.
  revert s. induction names as [|n names IH]; intros s; cbn [enable_ops].
  { intros [= <-]. split; [apply flagged_nil|]. by intros n ?%elem_of_nil. }
  pose proof (SetEnabled_flagged s n true) as H1. destruct (Operations_SetEnabled s n true) as [s1 [e|]] eqn:E; [done|]. cbn in H1.
  intros Hr. destruct (IH _ Hr) as [H2 Hin]. split; [by eapply flagged_cons|]. intros i [->|Hi]%elem_of_cons.
  - cbn in E. unfold memOperationStore_SetEnabled in E. unfold row. revert E. destruct (os_items (st_op s) !! n); [intros _; by eexists|discriminate].
  - specialize (Hin i Hi). pose proof (fl_id _ _ _ _ H1 i) as Hid. revert Hin Hid. destruct (row s1 i), (row s i); cbn; [done|discriminate|by intros [? ?]|done].
Qed.

(** Authorization by the row's flag. *)
Lemma Authorize_row s user name op :
  storage_wf s -> row s name = Some op ->
  Authorize s user name = if op_Enabled op then if Can s user name then None else Some ErrForbidden else Some ErrOperationDisabled.
Proof. intros Hw Hr. rewrite (Authorize_spec _ _ _ Hw). unfold row in Hr. by rewrite Hr. Qed.

Lemma Authorize_disabled s user name : storage_wf s -> row_enabled s name <> Some true -> Authorize s user name <> None.
Proof.
  intros Hw Hr. rewrite (Authorize_spec _ _ _ Hw). unfold row_enabled, row in Hr.
  destruct (os_items (st_op s) !! name) as [op|]; [|done]. cbn in Hr. by destruct (op_Enabled op).
Qed.

Lemma Authorize_enabled s user name op :
  storage_wf s -> row s name = Some op -> op_Enabled op = true -> Authorize s user name = None <-> granted s user (op_ID op).
Proof.
  intros Hw Hr He. rewrite (Authorize_row _ _ _ _ Hw Hr), He. rewrite <- (Can_spec s user name op Hw Hr).
  by destruct (Can s user name).
Qed.

(** The rows of plugins are beside. *)
Record same_rows s s' : Prop := {
  sr_op : st_op s' = st_op s;
  sr_user : st_user s' = st_user s;
  sr_role : st_role s' = st_role s;
  sr_wf : storage_wf s -> storage_wf s' }.

Lemma Plugins_SetEnabled_rows s id b : same_rows s (fst (Plugins_SetEnabled s id b)).
Proof.
  cbn. pose proof (exec_store_wf s (CmdSetPluginEnabled id b)) as H. cbn in H.
  by destruct (memPluginStore_SetEnabled (st_plugin s) id b).
Qed.

Lemma Plugins_SetStatus_rows s id v : same_rows s (fst (Plugins_SetStatus s id v)).
Proof.
  cbn. pose proof (exec_store_wf s (CmdSetPluginStatus id v)) as H. cbn in H.
  by destruct (memPluginStore_SetStatus (st_plugin s) id v).
Qed.

Lemma flagged_rows s s1 s2 names b : flagged s s1 names b -> same_rows s1 s2 -> flagged s s2 names b.
Proof.
  intros [F1 F2 F3 [F4 F5] F6] [R1 R2 R3 R4].
  assert (Hr : forall n, row s2 n = row s1 n) by (intros n; unfold row; by rewrite R1).
  split; [|by intros n; rewrite Hr|intros n Hn; rewrite Hr; auto|split; congruence|auto].
  intros n Hn. unfold row_enabled. rewrite Hr. by apply F1.
Qed.

Lemma Enable_flagged m id d m' :
  m_descs m !! id = Some d -> Enable m id = (m', None) ->
  flagged (m_store m) (m_store m') (operationNames (d_Manifest d)) true /\
  forall n, n ∈ operationNames (d_Manifest d) -> is_Some (row (m_store m) n).
Proof.
  intros Hd. unfold Enable. rewrite Hd. destruct (Transition _ _); [done|].
  destruct (enable_ops _ _) as [s [[? ?]|]] eqn:Een; [done|]. destruct (enable_ops_flagged _ _ _ Een) as [Hf Hin].
  pose proof (Plugins_SetEnabled_rows s id true) as H1. destruct (Plugins_SetEnabled s id true) as [s1 [e|]]; [done|].
  intros [= <-]. split; [|done]. eapply flagged_rows; [by eapply flagged_rows|apply Plugins_SetStatus_rows].
Qed.

Lemma Disable_flagged m id d m' :
  m_descs m !! id = Some d -> Disable m id = (m', None) ->
  flagged (m_store m) (m_store m') (operationNames (d_Manifest d)) false.
Proof.
  intros Hd. unfold Disable. rewrite Hd. destruct (Transition _ _); [done|]. cbv zeta. intros [= <-].
  eapply flagged_rows; [|apply Plugins_SetStatus_rows]. eapply flagged_rows; [apply disable_ops_flagged|apply Plugins_SetEnabled_rows].
Qed.

Lemma retire_flagged m names :
  flagged (m_store m) (m_store (retire m names)) names false /\
  forall n, m_reg (retire m names) !! n = if decide (n ∈ names) then None else m_reg m !! n.
Proof.
  unfold retire. revert m. induction names as [|x names IH]; intros m; cbn -[Operations_SetEnabled].
  { split; [apply flagged_nil|]. intros n. rewrite decide_False; [done|]. by intros ?%elem_of_nil. }
  match goal with |- context [foldl _ ?y names] => destruct (IH y) as [H1 H2] end. cbn -[Operations_SetEnabled] in H1, H2. split.
  - eapply flagged_cons; [apply SetEnabled_flagged|exact H1].
  - intros n. rewrite H2. unfold Registry_Unregister, Registry. destruct (decide (n ∈ names)) as [Hn|Hn].
    + rewrite decide_True; [done|]. by right.
    + destruct (decide (n = x)) as [->|Hne].
      * rewrite decide_True by left. apply lookup_delete_eq.
      * rewrite decide_False by (intros [?|?]%elem_of_cons; done). by apply lookup_delete_ne.
Qed.

Lemma Unload_flagged m id d m' :
  m_descs m !! id = Some d -> Unload m id = (m', None) ->
  flagged (m_store m) (m_store m') (operationNames (d_Manifest d)) false /\
  forall n, m_reg m' !! n = if decide (n ∈ operationNames (d_Manifest d)) then None else m_reg m !! n.
Proof.
  intros Hd. unfold Unload. rewrite Hd. destruct (Transition _ _); [done|]. cbv zeta. intros [= <-].
  match goal with |- context [retire ?x ?n] => destruct (retire_flagged x n) as [H1 H2]; set (m2 := retire x n) in * end.
  cbn in H1, H2. split; [|done]. eapply flagged_rows; [exact H1|apply Plugins_SetStatus_rows].
Qed.

(** ** Properties *)

(** Access follows the life cycle, on the store in memory: after enabling a
    plugin each operation it declares may be run by exactly the users it is
    granted to; after disabling or unloading it by nobody; and no other row
    changes, nor users, roles and grants. After unloading, none of its operations
    is left to plan. *)
Theorem plugin_access m id d :
  storage_wf (m_store m) -> m_descs m !! id = Some d ->
  let names := operationNames (d_Manifest d) in
  (forall m', Enable m id = (m', None) ->
     storage_wf (m_store m') /\ (forall n, n ∉ names -> row (m_store m') n = row (m_store m) n) /\
     forall user n, n ∈ names -> exists op, row (m_store m') n = Some op /\
       (Authorize (m_store m') user n = None <-> granted (m_store m) user (op_ID op))) /\
  (forall m', Disable m id = (m', None) \/ Unload m id = (m', None) ->
     storage_wf (m_store m') /\ (forall n, n ∉ names -> row (m_store m') n = row (m_store m) n) /\
     forall user n, n ∈ names -> Authorize (m_store m') user n <> None) /\
  (forall m', Unload m id = (m', None) -> forall n, m_reg m' !! n = if decide (n ∈ names) then None else m_reg m !! n).
Proof.
  intros Hw Hd names. split_and!.
  - intros m' He. destruct (Enable_flagged _ _ _ _ Hd He) as [Hf Hin]. pose proof (fl_wf _ _ _ _ Hf Hw) as Hw'.
    split; [done|]. split; [apply Hf|]. intros user n Hn. destruct (Hin n Hn) as [op Hop].
    pose proof (fl_in _ _ _ _ Hf n Hn) as Hen. unfold row_enabled in Hen. rewrite Hop in Hen.
    destruct (row (m_store m') n) as [op'|] eqn:Hop'; [|done]. injection Hen as Hen. exists op'. split; [done|].
    rewrite (Authorize_enabled _ user n op' Hw' Hop' Hen). unfold granted.
    by rewrite (proj1 (fl_rest _ _ _ _ Hf)), (proj2 (fl_rest _ _ _ _ Hf)).
  - intros m' Hm. assert (Hf : flagged (m_store m) (m_store m') names false)
      by (destruct Hm as [Hm|Hm]; [by eapply Disable_flagged|by eapply Unload_flagged]).
    pose proof (fl_wf _ _ _ _ Hf Hw) as Hw'. split; [done|]. split; [apply Hf|]. intros user n Hn.
    apply Authorize_disabled; [done|]. rewrite (fl_in _ _ _ _ Hf n Hn). by destruct (row (m_store m) n).
  - intros m' Hm. by eapply Unload_flagged.
Qed.

(** [SyncPlugin] enables what it projects, and keeps the ids. *)
Lemma SyncPlugin_enables (reg reg' : Registry Ctx Input) s s' id ops :
  storage_wf s -> SyncPlugin reg s id ops = (reg', s', None) ->
  storage_wf s' /\ st_user s' = st_user s /\ st_role s' = st_role s /\
  (forall n old, row s n = Some old -> op_ID <$> row s' n = Some (op_ID old)) /\
  (forall n, row_enabled s n = Some true -> row_enabled s' n = Some true) /\
  forall op, op ∈ ops -> row_enabled s' (Dispatch.op_Name op) = Some true.
Proof.
  revert reg s. induction ops as [|op ops IH]; intros reg s Hw; cbn [SyncPlugin].
  { intros [= <- <-]. split_and!; try done; [by intros n old E; by rewrite E|by intros op ?%elem_of_nil]. }
  destruct (ValidateOperation _ _); [done|]. pose proof (syncOne_wf s ("plugin:" +:+ id) (projection op) Hw) as Hw1.
  destruct (syncOne_memory s ("plugin:" +:+ id) (projection op)) as (r & E & Hs & _). rewrite E in *. cbn [fst] in *.
  match type of Hs with synced _ ?x _ _ => set (s1 := x) in * end.
  intros Hrun. destruct (IH _ _ Hw1 Hrun) as (Hw' & Hu & Hr & Hid & Hen & Hin). destruct (sy_rest _ _ _ _ Hs) as (Hu1 & Hr1 & _).
  assert (Hrow1 : row s1 (Dispatch.op_Name op) = Some r) by apply (sy_row _ _ _ _ Hs).
  assert (He1 : row_enabled s1 (Dispatch.op_Name op) = Some true)
    by (unfold row_enabled; rewrite Hrow1; cbn; f_equal; apply (sy_enabled _ _ _ _ Hs)).
  split_and!; [done|congruence|congruence| | |].
  - intros n old Hold. destruct (decide (n = Dispatch.op_Name op)) as [->|Hne].
    + rewrite (Hid _ _ Hrow1). f_equal. by apply (sy_id _ _ _ _ Hs).
    + apply Hid. unfold row in *. by rewrite (sy_others _ _ _ _ Hs n Hne).
  - intros n Hn. apply Hen. destruct (decide (n = Dispatch.op_Name op)) as [->|Hne]; [done|].
    unfold row_enabled, row in *. by rewrite (sy_others _ _ _ _ Hs n Hne).
  - intros o [->|Ho]%elem_of_cons; [by apply Hen|by apply Hin].
Qed.

Lemma Register_success m m' id :
  Manager_Register SyncPlugin m id = (m', None) ->
  exists d md reg s, m_descs m !! id = Some d /\ m_modules m !! id = Some md /\
    SyncPlugin (foldl Registry_Register (m_reg m) (map (fun op => with_source op (d_Source d)) (mod_Operations md)))
      (m_store m) id (map (fun op => with_source op (d_Source d)) (mod_Operations md)) = (reg, s, None) /\
    m' = setState (mg_store (mg_reg m reg) s) id StateRegistered.
Proof.
  unfold Manager_Register. destruct (m_descs m !! id) as [d|]; [|done]. destruct (Transition _ _); [done|].
  destruct (m_modules m !! id) as [md|]; [|done]. cbv zeta. destruct (first_invalid _); [done|]. cbn [m_reg m_store mg_reg].
  destruct (SyncPlugin _ _ _ _) as [[reg s] [e|]] eqn:E; [done|]. intros [= <-]. exists d, md, reg, s. split_and!; try done.
Qed.

(** Registering is enough to run: once a plugin is registered, whatever its
    persisted flag says and although it is not enabled, each of its operations
    may be run by every user it was granted to before. *)
Theorem registered_is_executable m m' id md :
  storage_wf (m_store m) -> m_modules m !! id = Some md ->
  Manager_Register SyncPlugin m id = (m', None) ->
  state_of m' id = Some StateRegistered /\
  forall user op old, op ∈ mod_Operations md -> row (m_store m) (Dispatch.op_Name op) = Some old ->
    granted (m_store m) user (op_ID old) -> Authorize (m_store m') user (Dispatch.op_Name op) = None.
Proof.
  intros Hw Hmd Hr. destruct (Register_success _ _ _ Hr) as (d & md' & reg & s & Hd & Hmd' & Hsync & ->).
  rewrite Hmd in Hmd'. injection Hmd' as <-. split.
  { rewrite setState_state, decide_True by done. cbn. by rewrite Hd. }
  destruct (SyncPlugin_enables _ _ _ _ _ _ Hw Hsync) as (Hw' & Hu & Hro & Hid & _ & Hin).
  intros user op old Hop Hold Hg. unfold setState. cbn [m_store mg_store mg_reg].
  destruct (Plugins_SetStatus_rows s id (LifecycleState_string StateRegistered)) as [R1 R2 R3 R4].
  set (s2 := fst (Plugins_SetStatus _ _ _)) in *. specialize (Hid _ _ Hold).
  assert (He : row_enabled s (Dispatch.op_Name op) = Some true).
  { apply (Hin (with_source op (d_Source d))). apply list_elem_of_fmap. by exists op. }
  unfold row_enabled, row in *. destruct (os_items (st_op s) !! Dispatch.op_Name op) as [new|] eqn:Hnew; [|done].
  injection He as He. injection Hid as Hid. apply (Authorize_enabled s2 user _ new); [by apply R4|unfold row; by rewrite R1|done|].
  unfold granted in *. by rewrite R2, R3, Hu, Hro, Hid.
Qed.

End Memory.

(** ** A plugin's story *)

Definition default_gate : CompatGate :=
  Some (fun man k => let '(res, err) := DefaultGate_Check (Some man) k in (Some res, err)).
Definition sample_kernel : KernelInfo := MkKernelInfo "0.2.0" ["v1"].

(** A directory with the sample's manifest, in that version. *)
Definition sample_loader (version : string) : Loader unit unit :=
  NewFileLoader (fun _ => None) (fun _ => None) (Ok ["mysql"]) (fun _ => Ok (sample_manifest version)).

Definition exec_sample : Manager unit unit MemoryStorage -> ManagerCmd -> Manager unit unit MemoryStorage :=
  exec_manager default_gate sample_kernel SyncPlugin.

(** First start with the demo's policy: the plugin is enabled. *)
Definition first_boot : Manager unit unit MemoryStorage :=
  exec_sample (NewManager sample_registry sample_store) (CmdBootstrap (sample_loader "1.0.0") [] true 0).

(** The dump is granted to the admin role, then the plugin is disabled. *)
Definition plugin_granted : Manager unit unit MemoryStorage :=
  mg_store first_boot (exec_store (m_store first_boot) (CmdAddOperation 1 2)).
Definition plugin_disabled : Manager unit unit MemoryStorage :=
  exec_sample plugin_granted (CmdDisable "mysql@1.0.0").

(** The process starts again on the same store, and loads the plugin. *)
Definition restarted : Manager unit unit MemoryStorage :=
  exec_sample (NewManager sample_registry (m_store plugin_disabled)) (CmdDiscoverAndLoad (sample_loader "1.0.0") [] 1).

(** What a registration makes of the rows of a disabled plugin after a restart,
    in the whole of [Bootstrap] with the safe policy. *)
Lemma restart_revives :
  Authorize (m_store plugin_granted) "root" "plugin.mysql.db.dump" = None /\
  Authorize (m_store plugin_disabled) "root" "plugin.mysql.db.dump" = Some ErrOperationDisabled /\
  let again := exec_sample (NewManager sample_registry (m_store plugin_disabled)) (CmdBootstrap (sample_loader "1.0.0") [] false 1) in
  state_of again "mysql@1.0.0" = Some StateRegistered /\
  Authorize (m_store again) "root" "plugin.mysql.db.dump" = None.
Proof. vm_compute. done. Qed.

(** Discovery puts a plugin that is enabled back to "loaded", a move that the state
    machine does not have. *)
Example rediscovered_loaded :
  state_of first_boot "mysql@1.0.0" = Some StateEnabled /\ CanTransition StateEnabled StateLoaded = false /\
  state_of (exec_sample first_boot (CmdDiscoverAndLoad (sample_loader "1.0.0") [] 1)) "mysql@1.0.0" = Some StateLoaded.
Proof. vm_compute. repeat split. Qed.

(** ** Witnesses *)

Lemma manager_lifecycle_witness :
  state_of first_boot "mysql@1.0.0" = Some StateEnabled /\
  exec_sample first_boot (CmdUnload "mysql@1.0.0") = first_boot /\
  state_of (exec_sample first_boot (CmdReload "mysql@1.0.0" (sample_loader "1.0.1") [] 1)) "mysql@1.0.0" = Some StateEnabled.
Proof.
  assert (Hs : state_of first_boot "mysql@1.0.0" = Some StateEnabled) by (vm_compute; reflexivity). split; [exact Hs|].
  assert (Hc : Forall honest_cmd [CmdBootstrap (sample_loader "1.0.0") [] true 0])
    by (constructor; [exact (file_loader_honest _ _ _ _)|constructor]).
  split.
  - destruct (manager_lifecycle default_gate sample_kernel SyncPlugin sample_registry sample_store _ (CmdUnload "mysql@1.0.0") Hc I)
      as (_ & _ & H).
    exact (proj2 (H "mysql@1.0.0" Hs) eq_refl).
  - destruct (manager_lifecycle default_gate sample_kernel SyncPlugin sample_registry sample_store _
      (CmdReload "mysql@1.0.0" (sample_loader "1.0.1") [] 1) Hc (file_loader_honest _ _ _ _)) as (_ & H & _).
    exact (eq_trans (H "mysql@1.0.0") Hs).
Defined.

(** A reload of the same version succeeds; of a new one it is refused. *)
Lemma reload_all_or_nothing_witness :
  (exists m', Reload default_gate sample_kernel SyncPlugin first_boot "mysql@1.0.0" (sample_loader "1.0.0") [] 1
     = (m', None, [HookBefore; HookCommit]) /\ ReloadCount m' "mysql@1.0.0" = 1) /\
  (exists m' e, Reload default_gate sample_kernel SyncPlugin first_boot "mysql@1.0.0" (sample_loader "1.1.0") [] 1
     = (m', Some e, [HookRollback]) /\ m_descs m' = m_descs first_boot).
Proof.
  split.
  - destruct (Reload default_gate sample_kernel SyncPlugin first_boot "mysql@1.0.0" (sample_loader "1.0.0") [] 1) as [[m' err] hooks] eqn:E.
    pose proof (reload_all_or_nothing default_gate sample_kernel SyncPlugin first_boot "mysql@1.0.0" _ _ _ _ _ _ E) as H.
    assert (He : err = None) by (apply (f_equal (fun x => snd (fst x))) in E; cbn [fst snd] in E; rewrite <- E; vm_compute; reflexivity).
    rewrite He in H |- *. destruct H as (old & nd & nmod & _ & _ & _ & _ & _ & _ & Hg & ->). exists m'. split; [reflexivity|].
    rewrite (Hg "mysql@1.0.0"). vm_compute. reflexivity.
  - destruct (Reload default_gate sample_kernel SyncPlugin first_boot "mysql@1.0.0" (sample_loader "1.1.0") [] 1) as [[m' err] hooks] eqn:E.
    pose proof (reload_all_or_nothing default_gate sample_kernel SyncPlugin first_boot "mysql@1.0.0" _ _ _ _ _ _ E) as H.
    assert (He : exists e, err = Some e /\ hooks = [HookRollback]).
    { pose proof (f_equal (fun x => snd (fst x)) E) as E1. pose proof (f_equal snd E) as E2. cbn [fst snd] in E1, E2.
      rewrite <- E1, <- E2. eexists. split; vm_compute; reflexivity. }
    destruct He as (e & -> & ->). exists m', e. split; [reflexivity|exact (proj1 (proj1 H))].
Defined.

Lemma plugin_granted_wf : storage_wf (m_store plugin_granted).
Proof.
  apply (exec_store_wf (m_store first_boot) (CmdAddOperation 1 2)).
  assert (E : m_store first_boot = run_list exec_store sample_store
    [CmdUpsertPlugin (MkPlugin "mysql@1.0.0" "mysql" "1.0.0" "loaded" false 0);
     CmdSaveOperation (ControlStore.MkOperation 0 "plugin.mysql.db.dump" "db" "dump" "medium" "plugin:mysql@1.0.0" true);
     CmdSaveOperation (ControlStore.MkOperation 0 "plugin.mysql.db.drop" "db" "drop" "high" "plugin:mysql@1.0.0" true);
     CmdSetPluginStatus "mysql@1.0.0" "registered"; CmdSetOperationEnabled "plugin.mysql.db.dump" true;
     CmdSetOperationEnabled "plugin.mysql.db.drop" true; CmdSetPluginEnabled "mysql@1.0.0" true;
     CmdSetPluginStatus "mysql@1.0.0" "enabled"]) by (vm_compute; reflexivity).
  rewrite E. apply run_list_invariant; [intros; by apply exec_store_wf|apply sample_store_wf].
Qed.

Lemma plugin_access_witness :
  Authorize (m_store plugin_granted) "root" "plugin.mysql.db.dump" = None /\
  Authorize (m_store plugin_disabled) "root" "plugin.mysql.db.dump" <> None.
Proof.
  split; [vm_compute; reflexivity|].
  destruct (m_descs plugin_granted !! "mysql@1.0.0") as [d|] eqn:Ed; [|vm_compute in Ed; discriminate Ed].
  destruct (plugin_access plugin_granted "mysql@1.0.0" d plugin_granted_wf Ed) as (_ & H & _).
  assert (Hdis : Disable plugin_granted "mysql@1.0.0" = (plugin_disabled, None)) by (vm_compute; reflexivity).
  refine (proj2 (proj2 (H plugin_disabled (or_introl Hdis))) "root" "plugin.mysql.db.dump" _).
  vm_compute in Ed. injection Ed as <-. vm_compute. left.
Defined.

Lemma restarted_wf : storage_wf (m_store restarted).
Proof.
  assert (E : m_store restarted = exec_store (m_store plugin_disabled)
    (CmdUpsertPlugin (MkPlugin "mysql@1.0.0" "mysql" "1.0.0" "loaded" false 1))) by (vm_compute; reflexivity).
  rewrite E. apply exec_store_wf. destruct (m_descs plugin_granted !! "mysql@1.0.0") as [d|] eqn:Ed; [|vm_compute in Ed; discriminate Ed].
  assert (Hdis : Disable plugin_granted "mysql@1.0.0" = (plugin_disabled, None)) by (vm_compute; reflexivity).
  exact (fl_wf _ _ _ _ (Disable_flagged _ _ _ _ Ed Hdis) plugin_granted_wf).
Qed.

(** After the restart the plugin is only registered, and yet its dump runs. *)
Lemma registered_is_executable_witness :
  exists m', Manager_Register SyncPlugin restarted "mysql@1.0.0" = (m', None) /\
    state_of m' "mysql@1.0.0" = Some StateRegistered /\ Authorize (m_store m') "root" "plugin.mysql.db.dump" = None.
Proof.
  destruct (m_modules restarted !! "mysql@1.0.0") as [md|] eqn:Emd; [|vm_compute in Emd; discriminate Emd].
  destruct (Manager_Register SyncPlugin restarted "mysql@1.0.0") as [m' [e|]] eqn:Er.
  { apply (f_equal snd) in Er. vm_compute in Er. discriminate Er. }
  destruct (registered_is_executable restarted m' "mysql@1.0.0" md restarted_wf Emd Er) as [Hs Ha].
  exists m'. split; [reflexivity|]. split; [exact Hs|].
  assert (Hop : exists op, op ∈ mod_Operations md /\ Dispatch.op_Name op = "plugin.mysql.db.dump").
  { vm_compute in Emd. injection Emd as <-. eexists. split; [left|reflexivity]. }
  destruct Hop as (op & Hin & Hname). rewrite <- Hname.
  assert (Hold : exists old, row (m_store restarted) (Dispatch.op_Name op) = Some old /\ op_ID old = 2)
    by (rewrite Hname; eexists; split; vm_compute; reflexivity).
  destruct Hold as (old & Hold & Hid). refine (Ha "root" op old Hin Hold _). rewrite Hid.
  exists (MkUser 1 "root" "hash" 0), 1. split; [vm_compute; reflexivity|]. split; [vm_compute; left|]. split; [eexists; vm_compute; reflexivity|].
  vm_compute. left.
Defined.
