(* ===== verification/Tokens.v ===== *)
(** * Tokens and sessions
      (internal/controlplane/auth: token.go, service.go, password.go)

    HS256 tokens, registration and login, and the rotation of refresh tokens
    under the two revocations: a floor per user and a denylist of single tokens.
    The MAC, base64, the JSON of claims and bcrypt are classes; the clock's
    seconds and the random ids are arguments. *)

From Stdlib Require Import Ascii.
From S2P Require Import Prelude GoStrings Ledger ControlStore.

(** ** Tokens (token.go) *)

Record Claims : Type := MkClaims {
  c_Sub : string;
  c_Iat : Z;
  c_Exp : Z;
  c_Jti : string }.

(** [mac] is HMAC-SHA-256 of a secret and a message; the claims of a valid
    subject and id survive JSON. *)
Class TokenCrypto := {
  b64 : string -> string;
  unb64 : string -> option string;
  mac : string -> string -> string;
  header_json : string;
  claims_json : Claims -> string;
  claims_decode : string -> option Claims;
  unb64_b64 : forall s, unb64 (b64 s) = Some s;
  b64_no_dot : forall s, has_byte "." (b64 s) = false;
  claims_roundtrip : forall c, ValidString (c_Sub c) = true -> ValidString (c_Jti c) = true ->
    claims_decode (claims_json c) = Some c }.

Section Tokens.
Context `{TokenCrypto}.

Definition sign (segments secret : string) : string := b64 (mac secret segments).

(** Marshalling strings and integers does not fail. *)
Definition SignToken (claims : Claims) (secret : string) : string :=
  let seg := b64 header_json +:+ "." +:+ b64 (claims_json claims) in
  seg +:+ "." +:+ sign seg secret.

Definition ParseToken (token secret : string) (now : Z) : result error Claims :=
  match Split token "." with
  | [p0; p1; p2] =>
      if negb (String.eqb (sign (p0 +:+ "." +:+ p1) secret) p2) then Err "auth: invalid signature"
      else match unb64 p1 with
        | None => Err "illegal base64 data"
        | Some payload =>
            match claims_decode payload with
            | None => Err "invalid JSON"
            | Some c => if (0 <? c_Exp c) && (c_Exp c <? now) then Err "auth: token expired" else Ok c
            end
        end
  | _ => Err "auth: malformed token"
  end.

Definition NewClaims (sub : string) (ttlSeconds now : Z) (jti : string) : Claims :=
  MkClaims sub now (wrap64 (now + ttlSeconds)) jti.

End Tokens.

(** ** Passwords (password.go) *)

(** bcrypt, by its salt. *)
Class Bcrypt := {
  HashPassword : string -> string -> result error string;
  VerifyPassword : string -> string -> bool;
  Verify_Hash : forall salt pw h, HashPassword salt pw = Ok h -> VerifyPassword h pw = true }.

(** ** The service (service.go) *)

(** What the service uses of the storage. *)
Class AuthStorage (S : Type) := {
  Users_GetByUsername : S -> string -> result error User;
  Users_Save : S -> User -> S * result error User;
  Config_Get : S -> string -> result error (option string);
  Config_Set : S -> string -> string -> S * option error }.

#[export] Instance memory_auth_storage : AuthStorage MemoryStorage := {|
  Users_GetByUsername s n := memUserStore_GetByUsername (st_user s) n;
  Users_Save s u := let '(x, u) := memUserStore_Save (st_user s) u in (with_users s x, Ok u);
  Config_Get s k := Ok (memConfigStore_Get (st_cfg s) k);
  Config_Set s k v := (with_config s (memConfigStore_Set (st_cfg s) k v), None) |}.

Definition ErrInvalidCredentials : error := "auth: invalid credentials".
Definition ErrUserExists : error := "auth: user already exists".
Definition ErrTokenRevoked : error := "auth: refresh token revoked".

Record AuthService : Type := MkAuthService {
  accessSecret : string;
  refreshSecret : string;
  accessTTL : Z;
  refreshTTL : Z }.

Definition defaultAccessTTL : Z := 15 * 60.
Definition defaultRefreshTTL : Z := 7 * 24 * 3600.

Definition NewAuthService (access refresh : string) : AuthService :=
  MkAuthService access refresh defaultAccessTTL defaultRefreshTTL.

Definition tokenFloorKey (username : string) : string := "auth:token-floor:" +:+ username.
Definition tokenDenyKey (jti : string) : string := "auth:token-denylist:" +:+ jti.

Section Service.
Context `{TokenCrypto, Bcrypt} {S : Type} `{!AuthStorage S} (svc : AuthService).

(** [now] is the clock in seconds, [created] the same instant. *)
Definition Register (s : S) (username password salt : string) (created : Time) : S * result error User :=
  if String.eqb username "" || String.eqb password "" then (s, Err "auth: username and password required")
  else match Users_GetByUsername s username with
  | Ok _ => (s, Err ErrUserExists)
  | Err e =>
      if negb (String.eqb e ErrNotFound) then (s, Err e)
      else match HashPassword salt password with
        | Err e => (s, Err e)
        | Ok hash => Users_Save s (MkUser 0 username hash created)
        end
  end.

(** The pair of tokens for a subject. *)
Definition token_pair (sub : string) (now : Z) (jtiAccess jtiRefresh : string) : string * string :=
  (SignToken (NewClaims sub (accessTTL svc) now jtiAccess) (accessSecret svc),
   SignToken (NewClaims sub (refreshTTL svc) now jtiRefresh) (refreshSecret svc)).

Definition Login (s : S) (username password : string) (now : Z) (jtiAccess jtiRefresh : string)
  : result error (string * string * User) :=
  match Users_GetByUsername s username with
  | Err e => Err (if String.eqb e ErrNotFound then ErrInvalidCredentials else e)
  | Ok u =>
      if negb (VerifyPassword (u_PasswordHash u) password) then Err ErrInvalidCredentials
      else Ok (token_pair (u_Username u) now jtiAccess jtiRefresh, u)
  end.

Definition RevokeRefresh (s : S) (username : string) (now : Z) : S * option error :=
  if String.eqb username "" then (s, Some "auth: username required")
  else Config_Set s (tokenFloorKey username) (pretty now).

Definition refreshFloor (s : S) (username : string) : result error (option Z) :=
  match Config_Get s (tokenFloorKey username) with
  | Err e => Err e
  | Ok None => Ok None
  | Ok (Some v) => match ParseInt v with None => Err "strconv.ParseInt: parsing" | Some floor => Ok (Some floor) end
  end.

Definition DenyRefreshToken (s : S) (jti : string) (exp : Z) : S * option error :=
  if String.eqb jti "" then (s, Some "auth: jti required") else Config_Set s (tokenDenyKey jti) (pretty exp).

Definition refreshDenied (s : S) (jti : string) : result error bool :=
  match Config_Get s (tokenDenyKey jti) with
  | Err e => Err e
  | Ok v => Ok (match v with Some v => negb (String.eqb v "") | None => false end)
  end.

Definition ParseRefreshClaims (token : string) (now : Z) : result error Claims := ParseToken token (refreshSecret svc) now.

Definition Refresh (s : S) (refreshToken : string) (now : Z) (jtiAccess jtiRefresh : string) : result error (string * string) :=
  match ParseToken refreshToken (refreshSecret svc) now with
  | Err e => Err e
  | Ok claims =>
      match refreshFloor s (c_Sub claims) with
      | Err e => Err e
      | Ok floor =>
          if match floor with Some f => c_Iat claims <=? f | None => false end then Err ErrTokenRevoked
          else
            match (if String.eqb (c_Jti claims) "" then Ok false else refreshDenied s (c_Jti claims)) with
            | Err e => Err e
            | Ok true => Err ErrTokenRevoked
            | Ok false => Ok (token_pair (c_Sub claims) now jtiAccess jtiRefresh)
            end
      end
  end.

Definition Authenticate (accessToken : string) (now : Z) : result error string :=
  match ParseToken accessToken (accessSecret svc) now with Err e => Err e | Ok claims => Ok (c_Sub claims) end.

End Service.

(** ** Lemmas *)

Lemma join_Split c s : join_byte c (Split s c) = s.
Proof.
  assert (Hne : forall cur s, split_byte c cur s <> []).
  { intros cur s0. revert cur. induction s0 as [|a s0 IH]; intros cur; cbn; [done|]. by destruct (Ascii.eqb a c). }
  assert (Hj : forall s cur, join_byte c (split_byte c cur s) = string_rev cur +:+ s).
  { intros s0. induction s0 as [|a s0 IH]; intros cur; cbn [split_byte]; [by rewrite append_nil_r|].
    destruct (Ascii.eqb_spec a c) as [->|Hac].
    - specialize (IH ""). pose proof (Hne "" s0) as Hn. destruct (split_byte c "" s0) as [|x l] eqn:E; [done|].
      change (join_byte c (string_rev cur :: x :: l)) with (string_rev cur +:+ String c (join_byte c (x :: l))). by rewrite IH.
    - by rewrite IH, string_rev_cons, append_assoc. }
  apply Hj.
Qed.

Section TokenLemmas.
Context `{TokenCrypto}.

Lemma Split_token p0 p1 p2 :
  has_byte "." p0 = false -> has_byte "." p1 = false -> has_byte "." p2 = false ->
  Split ((p0 +:+ "." +:+ p1) +:+ "." +:+ p2) "." = [p0; p1; p2].
Proof.
  intros H0 H1 H2. pose proof (Split_join "." [p0; p1; p2] ltac:(done) ltac:(repeat constructor; done)) as E.
  cbn [join_byte] in E. by rewrite append_assoc, append_assoc in *.
Qed.

(** A claim that survives JSON. *)
Definition faithful (c : Claims) : Prop := ValidString (c_Sub c) = true /\ ValidString (c_Jti c) = true.

Lemma Parse_Sign c secret now :
  faithful c -> ParseToken (SignToken c secret) secret now = if (0 <? c_Exp c) && (c_Exp c <? now) then Err "auth: token expired" else Ok c.
Proof.
  intros [Hs Hj]. unfold ParseToken, SignToken. cbv zeta. rewrite Split_token by apply b64_no_dot.
  rewrite String.eqb_refl, unb64_b64. cbn [negb]. by rewrite claims_roundtrip.
Qed.

(** What parsing accepts. *)
Lemma Parse_ok token secret now c :
  ParseToken token secret now = Ok c ->
  exists p0 p1 payload, token = (p0 +:+ "." +:+ p1) +:+ "." +:+ sign (p0 +:+ "." +:+ p1) secret /\
    unb64 p1 = Some payload /\ claims_decode payload = Some c /\ (c_Exp c <= 0 \/ now <= c_Exp c).
Proof.
  unfold ParseToken. pose proof (join_Split "." token) as Ej. destruct (Split token ".") as [|p0 [|p1 [|p2 [|? ?]]]]; try done.
  destruct (String.eqb_spec (sign (p0 +:+ "." +:+ p1) secret) p2) as [Es|]; [|done]. cbn [negb].
  destruct (unb64 p1) as [payload|] eqn:Eu; [|done]. destruct (claims_decode payload) as [c'|] eqn:Ec; [|done].
  destruct (_ && _) eqn:Ee; [done|]. intros [= ->]. exists p0, p1, payload. split_and!; try done.
  - rewrite <- Ej, Es. cbn [join_byte]. by rewrite !append_assoc.
  - apply andb_false_iff in Ee as [Ee|Ee]; apply Z.ltb_ge in Ee; lia.
Qed.

End TokenLemmas.

(** ** Revocation on the store in memory *)

Lemma keys_differ u j : tokenFloorKey u <> tokenDenyKey j.
Proof. discriminate. Qed.

Lemma floor_key_inj u v : tokenFloorKey u = tokenFloorKey v -> u = v.
Proof. unfold tokenFloorKey. intros E. by apply (f_equal (fun s => TrimPrefix s "auth:token-floor:")) in E; rewrite !TrimPrefix_app in E. Qed.

Lemma deny_key_inj u v : tokenDenyKey u = tokenDenyKey v -> u = v.
Proof. unfold tokenDenyKey. intros E. by apply (f_equal (fun s => TrimPrefix s "auth:token-denylist:")) in E; rewrite !TrimPrefix_app in E. Qed.

Lemma pretty_nonempty (z : Z) : pretty z <> "".
Proof.
  destruct z as [|p|p]; [done| |done]. destruct (pretty_digits (Z.pos p) ltac:(lia)) as (_ & _ & a & r & E & _). by rewrite E.
Qed.

Section Sessions.
Context `{TokenCrypto, Bcrypt}.

(** What happens to the store: registrations, revocations, and other settings
    of the control plane, whose keys are not the service's. *)
Inductive AuthCmd : Type :=
| AcRegister (username password salt : string)
| AcRevoke (username : string)
| AcDeny (jti : string) (exp : Z)
| AcSetting (key value : string).

Definition exec_auth (s : MemoryStorage) (c : Z * AuthCmd) : MemoryStorage :=
  match snd c with
  | AcRegister u p salt => fst (Register s u p salt (fst c))
  | AcRevoke u => fst (RevokeRefresh s u (fst c))
  | AcDeny jti exp => fst (DenyRefreshToken s jti exp)
  | AcSetting k v => fst (Config_Set s k v)
  end.

Definition own_key (c : Z * AuthCmd) : Prop :=
  0 <= fst c <= max_int64 /\ match snd c with AcSetting k _ => HasPrefix k "auth:token-" = false | _ => True end.

Definition cfg (s : MemoryStorage) (key : string) : option string := cs_items (st_cfg s) !! key.

(** The last time a user was revoked. *)
Definition floor_of (cs : list (Z * AuthCmd)) (u : string) : option Z :=
  foldl (fun f c => match snd c with AcRevoke v => if decide (v = u) then Some (fst c) else f | _ => f end) None cs.

Definition denied (cs : list (Z * AuthCmd)) (jti : string) : Prop := exists t e, (t, AcDeny jti e) ∈ cs.

(** The store holds exactly the floors and denials of the history. *)
Record revocations (cs : list (Z * AuthCmd)) (s : MemoryStorage) : Prop := {
  rv_floor : forall u, u <> "" -> cfg s (tokenFloorKey u) = pretty <$> floor_of cs u;
  rv_deny : forall j, j <> "" -> is_Some (cfg s (tokenDenyKey j)) <-> denied cs j;
  rv_deny_text : forall j v, cfg s (tokenDenyKey j) = Some v -> v <> "" }.

Lemma denied_snoc cs c j :
  denied (cs ++ [c]) j <-> denied cs j \/ exists e, snd c = AcDeny j e.
Proof.
  unfold denied. setoid_rewrite elem_of_app. setoid_rewrite list_elem_of_singleton. split.
  - intros (t & e & [Hin|<-]); [left; eauto|right; by exists e].
  - intros [(t & e & Hin)|[e He]]; [eauto|]. exists (fst c), e. right. destruct c. cbn in *. by subst.
Qed.

Lemma Register_cfg (s : MemoryStorage) u p salt t : st_cfg (fst (Register s u p salt t)) = st_cfg s.
Proof.
  unfold Register. destruct (_ || _); [done|]. destruct (Users_GetByUsername s u); [done|].
  destruct (negb _); [done|]. destruct (HashPassword salt p); [|done]. cbn. by destruct (memUserStore_Save _ _).
Qed.

Lemma revocations_step cs s c : own_key c -> revocations cs s -> revocations (cs ++ [c]) (exec_auth s c).
Proof.
  intros [Ht Hk] [Hf Hd Hx]. destruct c as [t [u p salt|u|j e|k v]]; cbn [fst snd] in *; unfold exec_auth; cbn [fst snd].
  - assert (E : forall key, cfg (fst (Register s u p salt t)) key = cfg s key) by (intros key; unfold cfg; by rewrite Register_cfg).
    split; [intros v Hv; rewrite E, Hf by done; unfold floor_of; by rewrite foldl_app|
      intros j Hj; rewrite E, Hd, denied_snoc by done; split; [by left|by intros [?|[? ?]]]|intros j w; rewrite E; apply Hx].
  - unfold RevokeRefresh. destruct (String.eqb_spec u "") as [->|Hu].
    { split; [intros v Hv; rewrite Hf by done; unfold floor_of; rewrite foldl_app; cbn; by rewrite decide_False by done|
        intros j Hj; rewrite Hd, denied_snoc by done; split; [by left|by intros [?|[? ?]]]|apply Hx]. }
    cbn. split; unfold cfg; cbn.
    + intros v Hv. unfold floor_of. rewrite foldl_app. cbn. case_decide as E.
      * subst v. by rewrite lookup_insert_eq.
      * rewrite lookup_insert_ne by (intros ?%floor_key_inj; done). by apply Hf.
    + intros j Hj. rewrite lookup_insert_ne by apply keys_differ. rewrite denied_snoc. unfold cfg in Hd. rewrite Hd by done.
      split; [by left|by intros [?|[? ?]]].
    + intros j v. rewrite lookup_insert_ne by apply keys_differ. apply Hx.
  - unfold DenyRefreshToken. destruct (String.eqb_spec j "") as [->|Hj].
    { split; [intros v Hv; rewrite Hf by done; unfold floor_of; by rewrite foldl_app|
        intros i Hi; rewrite Hd, denied_snoc by done; split; [by left|by intros [?|[? [= ? ?]]]]|apply Hx]. }
    cbn. split; unfold cfg; cbn.
    + intros v Hv. unfold floor_of. rewrite foldl_app. cbn. rewrite lookup_insert_ne by (intros E; by apply (keys_differ v j)).
      by apply Hf.
    + intros i Hi. rewrite denied_snoc. destruct (decide (i = j)) as [->|Hne].
      * rewrite lookup_insert_eq. split; [right; by exists e|by eexists].
      * rewrite lookup_insert_ne by (intros ?%deny_key_inj; done). unfold cfg in Hd. rewrite Hd by done.
        split; [by left|]. by intros [?|[? [= ? ?]]].
    + intros i v. rewrite lookup_insert_Some. intros [[_ <-]|[_ ?]]; [by apply pretty_nonempty|by eapply Hx].
  - assert (Hff : forall u, tokenFloorKey u <> k).
    { intros u <-. unfold tokenFloorKey in Hk. change ("auth:token-floor:" +:+ u) with ("auth:token-" +:+ ("floor:" +:+ u)) in Hk.
      by rewrite HasPrefix_app in Hk. }
    assert (Hdd : forall j, tokenDenyKey j <> k).
    { intros j <-. unfold tokenDenyKey in Hk. change ("auth:token-denylist:" +:+ j) with ("auth:token-" +:+ ("denylist:" +:+ j)) in Hk.
      by rewrite HasPrefix_app in Hk. }
    cbn. split; unfold cfg; cbn.
    + intros u Hu. unfold floor_of. rewrite foldl_app. cbn. rewrite lookup_insert_ne by (intros E; by apply (Hff u)). by apply Hf.
    + intros j Hj. rewrite denied_snoc, lookup_insert_ne by (intros E; by apply (Hdd j)). unfold cfg in Hd. rewrite Hd by done.
      split; [by left|by intros [?|[? ?]]].
    + intros j w. rewrite lookup_insert_ne by (intros E; by apply (Hdd j)). apply Hx.
Qed.

Lemma revocations_run cs : Forall own_key cs -> revocations cs (run_list exec_auth NewMemoryStorage cs).
Proof.
  intros Hc. induction cs as [|c cs IH] using rev_ind.
  - split; unfold cfg; cbn; [intros u _; by rewrite lookup_empty| |intros j v; by rewrite lookup_empty].
    intros j _. rewrite lookup_empty. split; [by intros [? ?]|]. by intros (? & ? & ?%elem_of_nil).
  - apply Forall_app in Hc as [Hc [Hk _]%Forall_cons]. rewrite run_list_snoc. by apply revocations_step, IH.
Qed.

Lemma floor_range cs u f : Forall own_key cs -> floor_of cs u = Some f -> 0 <= f <= max_int64.
Proof.
  intros Hk. induction cs as [|[t c] cs IH] using rev_ind; [done|]. apply Forall_app in Hk as [Hk [[Ht _] _]%Forall_cons].
  unfold floor_of in *. rewrite foldl_app. cbn. destruct c as [n p salt|v|j e|k v]; [by apply IH| |by apply IH|by apply IH].
  case_decide; [by intros [= <-]|by apply IH].
Qed.

(** The times of a history on a clock that never runs back. *)
Definition clock_ok (cs : list (Z * AuthCmd)) : Prop := StronglySorted Z.le (map fst cs).

(** On such a clock the floor is the greatest time of a revocation. *)
Lemma floor_of_spec cs u iat :
  clock_ok cs -> match floor_of cs u with Some f => iat <= f | None => False end <-> exists t, (t, AcRevoke u) ∈ cs /\ iat <= t.
Proof.
  unfold clock_ok. induction cs as [|[t c] cs IH] using rev_ind.
  { cbn. split; [done|]. by intros (? & ?%elem_of_nil & _). }
  rewrite map_app. intros Hs. cbn in Hs. apply StronglySorted_snoc in Hs as [Hs Hle]. specialize (IH Hs).
  assert (Hsnoc : (exists t', (t', AcRevoke u) ∈ cs ++ [(t, c)] /\ iat <= t') <->
    (exists t', (t', AcRevoke u) ∈ cs /\ iat <= t') \/ (c = AcRevoke u /\ iat <= t)).
  { setoid_rewrite elem_of_app. setoid_rewrite list_elem_of_singleton. split.
    - intros (t' & [?|[= -> ->]] & ?); [left; eauto|by right].
    - intros [(t' & ? & ?)|[-> ?]]; eauto. }
  rewrite Hsnoc. unfold floor_of in *. rewrite foldl_app. cbn. destruct c as [n p salt|v|j e|k v]; cbn.
  1,3,4: rewrite IH; split; [by left|by intros [?|[? _]]].
  case_decide as E.
  - subst v. split; [by right|]. intros [(t' & Hin & Hi)|[_ Hi]]; [|done].
    rewrite Forall_forall in Hle. specialize (Hle t'). enough (t' <= t) by lia. apply Hle, list_elem_of_fmap. by exists (t', AcRevoke u).
  - rewrite IH. split; [by left|]. intros [?|[[= ?] _]]; [done|by subst].
Qed.

(** ** Properties *)

(** C30. Sessions end exactly when they are revoked (P1-2, P54): over any history of
    registrations, revocations and other settings, on a clock that does not run
    back, a refresh token is honoured at [now] if and only if it has not expired,
    its user was never revoked at or after the second it was issued, and its id
    was never denied. *)
Theorem refresh_exact svc cs c now ja jr :
  Forall own_key cs -> clock_ok cs -> faithful c -> c_Sub c <> "" -> c_Jti c <> "" ->
  is_ok (Refresh svc (run_list exec_auth NewMemoryStorage cs) (SignToken c (refreshSecret svc)) now ja jr) = true <->
  (c_Exp c <= 0 \/ now <= c_Exp c) /\
  (forall t, (t, AcRevoke (c_Sub c)) ∈ cs -> t < c_Iat c) /\
  ~ denied cs (c_Jti c).
Proof.
  intros Hk Hc Hf Hsub Hjti. destruct (revocations_run cs Hk) as [Hfl Hde Htx]. set (s := run_list _ _ _) in *.
  pose proof (floor_of_spec cs (c_Sub c) (c_Iat c) Hc) as Hspec. unfold Refresh. rewrite Parse_Sign by done.
  destruct (_ && _) eqn:Ee.
  { apply andb_true_iff in Ee as [E1%Z.ltb_lt E2%Z.ltb_lt]. split; [done|]. intros [? _]. lia. }
  apply andb_false_iff in Ee. rewrite !Z.ltb_ge in Ee.
  assert (Hfloor : refreshFloor s (c_Sub c) = Ok (floor_of cs (c_Sub c))).
  { unfold refreshFloor. cbn [Config_Get memory_auth_storage]. unfold memConfigStore_Get. fold (cfg s (tokenFloorKey (c_Sub c))). rewrite Hfl by done.
    destruct (floor_of cs (c_Sub c)) as [f|] eqn:Ef; [|done]. cbn. by rewrite (ParseInt_text _ (floor_range cs _ _ Hk Ef)). }
  rewrite Hfloor.
  assert (Hrev : match floor_of cs (c_Sub c) with Some f => c_Iat c <=? f | None => false end = true <->
    exists t, (t, AcRevoke (c_Sub c)) ∈ cs /\ c_Iat c <= t).
  { rewrite <- Hspec. destruct (floor_of cs (c_Sub c)); [by rewrite Z.leb_le|done]. }
  destruct (match floor_of cs (c_Sub c) with Some f => _ | None => _ end).
  { split; [done|]. intros (_ & Hno & _). destruct (proj1 Hrev eq_refl) as (t & Hin & Hle). specialize (Hno t Hin). lia. }
  destruct (String.eqb_spec (c_Jti c) "") as [|_]; [done|].
  assert (Hd : refreshDenied s (c_Jti c) = Ok (bool_decide (is_Some (cfg s (tokenDenyKey (c_Jti c)))))).
  { unfold refreshDenied. cbn [Config_Get memory_auth_storage]. unfold memConfigStore_Get. fold (cfg s (tokenDenyKey (c_Jti c))).
    specialize (Htx (c_Jti c)). destruct (cfg s (tokenDenyKey (c_Jti c))) as [v|]; [|done].
    destruct (String.eqb_spec v "") as [->|]; [by destruct (Htx "")|done]. }
  rewrite Hd. specialize (Hde (c_Jti c) Hjti). case_bool_decide as Hb; cbn.
  - split; [done|]. intros (_ & _ & Hno). destruct Hno. by apply Hde.
  - split; [|done]. intros _. split; [lia|]. split; [|by rewrite <- Hde]. intros t Hin. apply Z.nle_gt. intros Hle.
    enough (false = true) by done. apply Hrev. by exists t.
Qed.

(** A token is not accepted without its MAC: what parsing accepts is a text of
    three parts that ends in the MAC of the first two under that secret, whose
    second part decodes to the claims, unexpired; and the claims that were signed
    are the claims that are read back until they expire. *)
Theorem token_integrity token secret now :
  (forall c, ParseToken token secret now = Ok c -> exists p0 p1 payload,
     token = (p0 +:+ "." +:+ p1) +:+ "." +:+ sign (p0 +:+ "." +:+ p1) secret /\
     unb64 p1 = Some payload /\ claims_decode payload = Some c /\ (c_Exp c <= 0 \/ now <= c_Exp c)) /\
  (forall c, faithful c -> token = SignToken c secret ->
     (ParseToken token secret now = Ok c <-> c_Exp c <= 0 \/ now <= c_Exp c)).
Proof.
  split; [intros c; apply Parse_ok|]. intros c Hf ->. rewrite Parse_Sign by done.
  destruct (Z.ltb_spec 0 (c_Exp c)), (Z.ltb_spec (c_Exp c) now); cbn; split; intros Hx; first [done|lia].
Qed.

(** From registration to session, on the store in memory: a user registers once;
    who knows the password, and by the hash only who does, gets a pair of tokens;
    the access token names the user for its fifteen minutes and not a second
    longer. *)
Theorem login_session access refresh (s : MemoryStorage) u p salt created now ja jr :
  let svc := NewAuthService access refresh in
  let '(s', r) := Register s u p salt created in
  ValidString u = true -> ValidString ja = true -> 0 <= now <= 2 ^ 62 ->
  match r with
  | Err e => s' = s
  | Ok user =>
      u_Username user = u /\ memUserStore_GetByUsername (st_user s') u = Ok user /\
      snd (Register s' u p salt created) = Err ErrUserExists /\
      (forall q, is_ok (Login svc s' u q now ja jr) = VerifyPassword (u_PasswordHash user) q) /\
      exists at_ rt, Login svc s' u p now ja jr = Ok (at_, rt, user) /\
        forall later, Authenticate svc at_ later = (if later <=? now + 900 then Ok u else Err "auth: token expired")
  end.
Proof.
  intros svc. unfold Register. destruct (_ || _) eqn:Eb; [by intros _ _ _|]. cbn [Users_GetByUsername Users_Save memory_auth_storage].
  unfold memUserStore_GetByUsername. destruct (us_byName (st_user s) !! u) as [old|] eqn:Eu; [by intros _ _ _|].
  rewrite String.eqb_refl. cbn [negb]. destruct (HashPassword salt p) as [hash|e] eqn:Eh; [|by intros _ _ _].
  unfold memUserStore_Save at 1. cbn [u_Username]. rewrite Eu. cbv zeta iota beta. cbn [st_user with_users us_byName with_user_id u_Username].
  intros Hu Hj Hnow. rewrite lookup_insert_eq. split; [done|]. split; [done|]. split; [done|]. split.
  - intros q. unfold Login, memory_auth_storage, Users_GetByUsername, memUserStore_GetByUsername. cbn [st_user with_users us_byName].
    rewrite lookup_insert_eq. cbn [u_PasswordHash with_user_id]. by destruct (VerifyPassword hash q).
  - unfold Login, memory_auth_storage, Users_GetByUsername, memUserStore_GetByUsername. cbn [st_user with_users us_byName].
    rewrite lookup_insert_eq. cbn [u_PasswordHash with_user_id u_Username]. rewrite (Verify_Hash _ _ _ Eh). cbn [negb].
    eexists _, _. split; [reflexivity|]. intros later. unfold Authenticate, token_pair. cbn [fst snd].
    rewrite Parse_Sign by (by split). unfold NewClaims. cbn [c_Exp c_Sub accessTTL svc NewAuthService].
    rewrite wrap64_id by (unfold in_int64, min_int64, max_int64, defaultAccessTTL; lia). unfold defaultAccessTTL.
    destruct (Z.ltb_spec 0 (now + 15 * 60)), (Z.ltb_spec (now + 15 * 60) later), (Z.leb_spec later (now + 900)); cbn; (lia || done).
Qed.

End Sessions.

(** ** Witnesses *)

Lemma plain_no_dot s : plain s = true -> has_byte "." s = false.
Proof.
  induction s as [|a s IH]; [done|]. cbn. intros [Ha Hs]%andb_true_iff. rewrite IH, orb_false_r by done.
  by apply orb_true_iff in Ha as [->%Ascii.eqb_eq| ->%Ascii.eqb_eq].
Qed.

Lemma plain_field s : plain (bfield s "") = true.
Proof. apply (plain_bfields [s]). Qed.

(** Bits for base64, a plain concatenation for the MAC. *)
Definition sample_token_crypto : TokenCrypto.
Proof.
  refine {| b64 s := bfield s ""; unb64 s := fst <$> parse_field s; mac secret m := secret +:+ "|" +:+ m;
    header_json := "{HS256}";
    claims_json c := foldr bfield "" [c_Sub c; Z_str (c_Iat c); Z_str (c_Exp c); c_Jti c];
    claims_decode s := match parse_fields 5 s with
      | [u; i; e; j] => Some (MkClaims u (str_Z i) (str_Z e) j)
      | _ => None
      end |}.
  - intros s. by rewrite parse_bfield.
  - intros s. apply plain_no_dot, plain_field.
  - intros [u i e j] _ _. rewrite parse_fields_all by (cbn; lia). cbn [c_Sub c_Iat c_Exp c_Jti]. by rewrite !str_Z_str.
Defined.

Definition sample_bcrypt : Bcrypt.
Proof.
  refine {| HashPassword salt pw := if (72 <? String.length pw)%nat then Err "bcrypt: password length exceeds 72 bytes" else Ok (salt +:+ "$" +:+ pw);
    VerifyPassword h pw := existsb (fun n => String.eqb (drop_bytes n h) (String "$" pw)) (seq 0 (S (String.length h))) |}.
  intros salt pw h. destruct (_ <? _)%nat; [done|]. intros [= <-]. apply existsb_exists. exists (String.length salt). split.
  - apply in_seq. rewrite string_length_app. lia.
  - apply String.eqb_eq. rewrite drop_bytes_app. done.
Defined.

#[local] Existing Instance sample_token_crypto.
#[local] Existing Instance sample_bcrypt.

Definition sample_service : AuthService := NewAuthService "access-secret" "refresh-secret".
Definition sample_history : list (Z * AuthCmd) :=
  [(100, AcRegister "ann" "hunter2" "s"); (200, AcRevoke "ann"); (250, AcSetting "ui:theme" "dark"); (300, AcDeny "j7" 900)].
Definition sample_claims (iat : Z) (jti : string) : Claims := MkClaims "ann" iat (iat + defaultRefreshTTL) jti.

(** A token of before the revocation dies, one of after it lives, a denied one
    dies. *)
Lemma refresh_exact_witness :
  let honoured c := is_ok (Refresh sample_service (run_list exec_auth NewMemoryStorage sample_history)
    (SignToken c (refreshSecret sample_service)) 400 "a" "r") in
  honoured (sample_claims 200 "j1") = false /\ honoured (sample_claims 201 "j2") = true /\
  honoured (sample_claims 300 "j7") = false.
Proof.
  intros honoured. assert (Hk : Forall own_key sample_history).
  { repeat constructor; vm_compute; first [discriminate|reflexivity]. }
  assert (Hc : clock_ok sample_history).
  { unfold clock_ok. repeat constructor; vm_compute; discriminate. }
  assert (H : forall iat jti, ValidString jti = true -> jti <> "" -> honoured (sample_claims iat jti) = true <-> _)
    by (intros iat jti Hv Hj; exact (refresh_exact sample_service sample_history (sample_claims iat jti) 400 "a" "r" Hk Hc
      (conj eq_refl Hv) ltac:(discriminate) Hj)).
  split; [|split].
  - apply not_true_iff_false. intros Hx. apply (H 200 "j1" eq_refl ltac:(discriminate)) in Hx as (_ & Hr & _).
    specialize (Hr 200 ltac:(right; left)). cbn in Hr. lia.
  - apply (H 201 "j2" eq_refl ltac:(discriminate)). split; [right; vm_compute; discriminate|]. split.
    + intros t Hin. apply list_elem_of_In in Hin. cbn in Hin. destruct Hin as [E|[E|[E|[E|[]]]]]; try discriminate E. injection E as <-. cbn. lia.
    + intros (t & e & Hin). apply list_elem_of_In in Hin. cbn in Hin. destruct Hin as [E|[E|[E|[E|[]]]]]; discriminate E.
  - apply not_true_iff_false. intros Hx. apply (H 300 "j7" eq_refl ltac:(discriminate)) in Hx as (_ & _ & Hd).
    apply Hd. exists 300, 900. right; right; right; left.
Defined.

Lemma token_integrity_witness :
  ParseToken (SignToken (sample_claims 200 "j1") "s1") "s1" 300 = Ok (sample_claims 200 "j1") /\
  exists c p0 p1, ParseToken (SignToken (sample_claims 200 "j1") "s1") "s1" 300 = Ok c /\
    SignToken (sample_claims 200 "j1") "s1" = (p0 +:+ "." +:+ p1) +:+ "." +:+ sign (p0 +:+ "." +:+ p1) "s1".
Proof.
  destruct (token_integrity (SignToken (sample_claims 200 "j1") "s1") "s1" 300) as [H1 H2].
  assert (Hp : ParseToken (SignToken (sample_claims 200 "j1") "s1") "s1" 300 = Ok (sample_claims 200 "j1")).
  { apply (H2 (sample_claims 200 "j1") (conj eq_refl eq_refl) eq_refl). right. vm_compute. discriminate. }
  split; [exact Hp|]. destruct (H1 _ Hp) as (p0 & p1 & payload & E & _). exists (sample_claims 200 "j1"), p0, p1. split; [exact Hp|exact E].
Defined.

Lemma login_session_witness :
  exists s' user at_ rt, Register NewMemoryStorage "ann" "hunter2" "s" 0 = (s', Ok user) /\
    Login sample_service s' "ann" "hunter2" 1000 "ja" "jr" = Ok (at_, rt, user) /\
    Authenticate sample_service at_ 1900 = Ok "ann" /\ Authenticate sample_service at_ 1901 = Err "auth: token expired" /\
    is_ok (Login sample_service s' "ann" "letmein" 1000 "ja" "jr") = false.
Proof.
  pose proof (login_session "access-secret" "refresh-secret" NewMemoryStorage "ann" "hunter2" "s" 0 1000 "ja" "jr") as H. cbv zeta in H.
  destruct (Register NewMemoryStorage "ann" "hunter2" "s" 0) as [s' [user|e]] eqn:E; [|vm_compute in E; discriminate E].
  destruct (H eq_refl eq_refl ltac:(lia)) as (_ & _ & _ & Hq & at_ & rt & Hl & Ha).
  exists s', user, at_, rt. split; [reflexivity|]. split; [exact Hl|]. split; [exact (Ha 1900)|]. split; [exact (Ha 1901)|].
  unfold sample_service. rewrite (Hq "letmein"). vm_compute in E. injection E as _ <-. vm_compute. reflexivity.
Defined.
