(* ===== verification/TransitionStore.v ===== *)
(** * The durable alert-transition file
      (internal/controlplane/server/file_transition_store.go)

    The store behind the alert tracker: one file of JSON lines, a metadata line
    first, a sequence number in every record. Opening and migrating it, scanning,
    appending with eviction, and the bounded and paged reads. The file is a
    string of bytes; the outcome of every system call is an input. No acceptance
    recorder is installed. *)

From Stdlib Require Import Ascii.
From S2P Require Import Prelude GoStrings AppendLog Ledger ProtectionTypes RateHistory Alerting.

(** ** Records *)

Record fileMetaRecord : Type := MkFileMeta {
  fm_Meta : bool;
  fm_FileDropped : Z;
  fm_LastSeq : Z;
  fm_MetaInconsistent : bool }.

Record persistedTransition : Type := MkPersisted {
  pt_Seq : Z;
  pt_rec : AlertTransition }.

Definition newPersisted (seq : Z) (t : AlertTransition) : persistedTransition := MkPersisted seq t.

Definition FileTransitionCapacity : Z := 10000.
Definition fileCap : nat := Z.to_nat FileTransitionCapacity.
Definition DurableReadMaxLimit : Z := 1000.
Definition durableReadMaxBytes : Z := 8 * 2 ^ 20.

(** The JSON of the lines and the base64 of cursors. A record's JSON is one
    line of text, reads back, is no metadata, and no part of it short of the end
    parses, whatever record's JSON follows. The [Time] of a record stands for an
    instant of the years 0 to 9999, which is all that the JSON of [time.Time] can
    write: outside them [json.Marshal] refuses and [Append] answers its error
    before it has touched the file. *)
Class TransitionCodec := {
  tx_json : persistedTransition -> string;
  tx_decode : string -> option persistedTransition;
  fm_json : fileMetaRecord -> string;
  fm_decode : string -> option fileMetaRecord;
  cursor_enc : string -> string;
  cursor_dec : string -> option string;
  tx_roundtrip : forall p, tx_decode (tx_json p) = Some p;
  fm_roundtrip : forall m, fm_decode (fm_json m) = Some m;
  tx_no_meta : forall p m, fm_decode (tx_json p) = Some m -> fm_Meta m = false;
  tx_one_line : forall p, has_byte newline (tx_json p) = false;
  fm_one_line : forall m, has_byte newline (fm_json m) = false;
  fm_text : forall m, TrimSpace (fm_json m) <> "";
  tx_text : forall p, TrimSpace (tx_json p) <> "";
  tx_torn : forall p q n, (0 < n < String.length (tx_json p))%nat ->
    tx_decode (take_bytes n (tx_json p)) = None /\ tx_decode (take_bytes n (tx_json p) +:+ tx_json q) = None /\
    TrimSpace (take_bytes n (tx_json p)) <> "" /\ TrimSpace (take_bytes n (tx_json p) +:+ tx_json q) <> "";
  cursor_roundtrip : forall s, cursor_dec (cursor_enc s) = Some s;
  cursor_empty : cursor_dec "" = Some "" }.

Section TransitionStore.
Context `{TransitionCodec}.

Definition metaLine (fileDropped lastSeq : Z) (metaInconsistent : bool) : string :=
  fm_json (MkFileMeta true fileDropped lastSeq metaInconsistent).

(** ** Scanning *)

Record scannedRecord : Type := MkScanned { sr_rec : AlertTransition; sr_seq : Z }.

Record Scan : Type := MkScan {
  sc_records : list scannedRecord;
  sc_fileDropped : Z;
  sc_metaLastSeq : Z;
  sc_metaInconsistent : bool;
  sc_corrupt : bool;
  sc_legacy : bool }.

(** [strings.TrimRight(raw, newline)]. *)
Fixpoint drop_newlines (s : string) : string :=
  match s with String a s' => if Ascii.eqb a newline then drop_newlines s' else s | EmptyString => "" end.
Definition trim_newlines (s : string) : string := string_rev (drop_newlines (string_rev s)).

Definition ends_in_newline (s : string) : bool :=
  match string_rev s with String a _ => Ascii.eqb a newline | EmptyString => false end.

(** The metadata slot: the values of the metadata, and whether the first line
    is consumed. *)
Definition scan_meta (line : string) : Z * Z * bool * bool :=
  match fm_decode line with
  | Some m => if fm_Meta m then (fm_FileDropped m, fm_LastSeq m, fm_MetaInconsistent m, true) else
      (0, 0, true, match tx_decode line with Some p => time_is_zero (at_At (pt_rec p)) | None => true end)
  | None => (0, 0, true, match tx_decode line with Some p => time_is_zero (at_At (pt_rec p)) | None => true end)
  end.

Definition parse_transition (line : string) : option persistedTransition :=
  match tx_decode line with
  | Some p => if time_is_zero (at_At (pt_rec p)) then None else Some p
  | None => None
  end.

(** The records, and whether one has no sequence; none for corruption. *)
Fixpoint scan_transitions (partialTrailing : bool) (lines : list string) : option (list scannedRecord * bool) :=
  match lines with
  | [] => Some ([], false)
  | line :: rest =>
      match parse_transition line with
      | None => match rest with [] => if partialTrailing then Some ([], false) else None | _ => None end
      | Some p =>
          match scan_transitions partialTrailing rest with
          | None => None
          | Some (rs, legacy) => Some (MkScanned (pt_rec p) (pt_Seq p) :: rs, (pt_Seq p =? 0) || legacy)
          end
      end
  end.

Definition not_blank (line : string) : bool := negb (String.eqb (TrimSpace line) "").

(** What the bytes say, and what becomes of the mirrors of the count and of
    [file_dropped]; a corrupt file leaves the latter. *)
Definition scan_bytes (raw : string) : Scan * Z * option Z :=
  let trimmed := trim_newlines raw in
  if String.eqb trimmed "" then (MkScan [] 0 0 false false false, 0, Some 0)
  else
    let lines := Split trimmed newline in
    let '(fd, lastSeq, inc, consumed) := match lines with [] => (0, 0, false, false) | l :: _ => scan_meta l end in
    let txLines := List.filter not_blank (if consumed then drop 1 lines else lines) in
    match scan_transitions (negb (ends_in_newline raw)) txLines with
    | None => (MkScan [] 0 lastSeq inc true false, Z.of_nat (length txLines), None)
    | Some (rs, legacy) => (MkScan rs fd lastSeq inc false legacy, Z.of_nat (length rs), Some fd)
    end.

(** ** The store *)

(** The file, absent or with its bytes, and the fields. *)
Record FileBackedTransitionStore : Type := MkFileStore {
  ts_file : option string;
  ts_count : Z;
  ts_fileDropped : Z;
  ts_lastSeq : Z;
  ts_openErr : option error }.

Definition with_file (s : FileBackedTransitionStore) (f : option string) : FileBackedTransitionStore :=
  MkFileStore f (ts_count s) (ts_fileDropped s) (ts_lastSeq s) (ts_openErr s).
Definition with_openErr (s : FileBackedTransitionStore) (e : error) : FileBackedTransitionStore :=
  MkFileStore (ts_file s) (ts_count s) (ts_fileDropped s) (ts_lastSeq s) (Some e).

(** [scanRecords]; [read] is the failure of reading the file. *)
Definition scanRecords (read : option error) (s : FileBackedTransitionStore) : FileBackedTransitionStore * result error Scan :=
  match read with
  | Some e => (s, Err e)
  | None =>
      let '(sc, count, fd) := match ts_file s with
        | None => (MkScan [] 0 0 false false false, 0, Some 0)
        | Some raw => scan_bytes raw
        end in
      (MkFileStore (ts_file s) count (default (ts_fileDropped s) fd) (ts_lastSeq s) (ts_openErr s), Ok sc)
  end.

Definition lines_text (ls : list string) : string := foldr (fun l t => l +:+ String newline t) "" ls.

Definition record_lines (rs : list scannedRecord) : list string := map (fun r => tx_json (newPersisted (sr_seq r) (sr_rec r))) rs.

(** [migrateLocked]: the failures of the read and of any step up to the rename,
    before which the file is untouched. *)
Definition migrateLocked (read publish : option error) (s : FileBackedTransitionStore) (fileDropped : Z) (metaInconsistent : bool)
  : FileBackedTransitionStore * option error :=
  match scanRecords read s with
  | (s, Err e) => (s, Some e)
  | (s, Ok sc) =>
      if sc_corrupt sc then (s, Some "refusing to migrate a corrupt legacy file")
      else match publish with
        | Some e => (s, Some e)
        | None =>
            let recs := imap (fun i r => MkScanned (sr_rec r) (Z.of_nat i + 1)) (sc_records sc) in
            let meta := metaLine (if metaInconsistent then 0 else fileDropped) (Z.of_nat (length recs)) metaInconsistent in
            (with_file s (Some (lines_text (meta :: record_lines recs))), None)
        end
  end.

(** The failures of opening a store: of the directory, the open and the stat; of
    writing the metadata of a new file, with the bytes written; of its fsync; of
    the three reads and of the migration. *)
Record OpenIO : Type := MkOpenIO {
  oi_setup : option error;
  oi_write : option (nat * error);
  oi_sync : option error;
  oi_read : option error;
  oi_migrate_read : option error;
  oi_migrate : option error;
  oi_reread : option error }.

Definition max_seq (metaSeq : Z) (rs : list scannedRecord) : Z := foldl (fun m r => Z.max m (sr_seq r)) metaSeq rs.

(** Open on the bytes left there; the file is the second answer where no store
    is made. *)
Definition NewFileBackedTransitionStore (io : OpenIO) (file : option string)
  : result error FileBackedTransitionStore * option string :=
  match oi_setup io with
  | Some e => (Err e, file)
  | None =>
      let raw := default "" file in
      let init := metaLine 0 0 false +:+ String newline "" in
      match (if String.eqb raw "" then
               match oi_write io with
               | Some (n, e) => (take_bytes n init, Some e)
               | None => (init, oi_sync io)
               end
             else (raw, None)) with
      | (raw, Some e) => (Err e, Some raw)
      | (raw, None) =>
          let s := MkFileStore (Some raw) 0 0 0 None in
          let finish s sc :=
            MkFileStore (ts_file s) (Z.of_nat (length (sc_records sc))) (sc_fileDropped sc)
              (max_seq (sc_metaLastSeq sc) (sc_records sc)) None in
          let s := match scanRecords (oi_read io) s with
            | (s, Err e) => with_openErr s e
            | (s, Ok sc) =>
                if sc_corrupt sc then
                  MkFileStore (ts_file s) (Z.of_nat (length (sc_records sc))) (sc_fileDropped sc) (ts_lastSeq s) None
                else if sc_legacy sc then
                  match migrateLocked (oi_migrate_read io) (oi_migrate io) s (sc_fileDropped sc) (sc_metaInconsistent sc) with
                  | (s, Some e) => with_openErr s ("legacy transition migration: " +:+ e)
                  | (s, None) =>
                      match scanRecords (oi_reread io) s with
                      | (s, Err e) => with_openErr s "post-migration verification failed"
                      | (s, Ok sc) =>
                          if sc_corrupt sc || sc_legacy sc then with_openErr s "post-migration verification failed"
                          else finish s sc
                      end
                  end
                else finish s sc
            end in
          (Ok s, ts_file s)
      end
  end.

(** ** Appending *)

(** The failures of an append: the open, the write with the bytes that got
    through, the fsync, the close, and the eviction's steps up to its rename. *)
Record TransitionIO : Type := MkTransitionIO {
  ti_open : option error;
  ti_write : option (nat * error);
  ti_sync : option error;
  ti_close : option error;
  ti_evict : option error }.

Definition evictLocked (io : option error) (s : FileBackedTransitionStore) : FileBackedTransitionStore * option error :=
  match io with
  | Some e => (s, Some e)
  | None =>
      let raw := trim_newlines (default "" (ts_file s)) in
      let lines := if String.eqb raw "" then [] else Split raw newline in
      let '(start, metaInc) := match lines with
        | [] => (0%nat, false)
        | l :: _ => match fm_decode l with
            | Some m => if fm_Meta m then (1%nat, fm_MetaInconsistent m) else (0%nat, false)
            | None => (0%nat, false)
            end
        end in
      let txLines := drop start lines in
      if (length txLines <=? fileCap)%nat then (s, None)
      else
        let evicted := (length txLines - fileCap)%nat in
        let fd := if metaInc then 0 else ts_fileDropped s in
        (MkFileStore
           (Some (lines_text (metaLine (fd + Z.of_nat evicted) (ts_lastSeq s) metaInc :: drop evicted txLines)))
           FileTransitionCapacity (ts_fileDropped s + Z.of_nat evicted) (ts_lastSeq s) (ts_openErr s), None)
  end.

(** [Append]: a file that is gone is made anew. *)
Definition FileBacked_Append (io : TransitionIO) (s : FileBackedTransitionStore) (t : AlertTransition)
  : FileBackedTransitionStore * option error :=
  match ts_openErr s with
  | Some e => (s, Some e)
  | None =>
      let seq := wrap64 (ts_lastSeq s + 1) in
      let out := tx_json (newPersisted seq t) +:+ String newline "" in
      match ti_open io with
      | Some e => (s, Some e)
      | None =>
          let old := default "" (ts_file s) in
          match ti_write io with
          | Some (n, e) => (with_file s (Some (old +:+ take_bytes n out)), Some e)
          | None =>
              let s := with_file s (Some (old +:+ out)) in
              match ti_sync io with
              | Some e => (s, Some e)
              | None =>
                  let s := MkFileStore (ts_file s) (ts_count s + 1) (ts_fileDropped s) seq (ts_openErr s) in
                  let '(s, evictErr) := if FileTransitionCapacity <? ts_count s
                    then evictLocked (ti_evict io) s else (s, None) in
                  (s, match ti_close io with Some e => Some e | None => evictErr end)
              end
          end
      end
  end.

(** ** Reading *)

Definition empty_load (e : option error) (corrupt : bool) : TransitionLoadResult := MkTransitionLoadResult [] 0 false corrupt e.

Definition FileBacked_Load (read : option error) (s : FileBackedTransitionStore) : FileBackedTransitionStore * TransitionLoadResult :=
  match ts_openErr s with
  | Some e => (s, empty_load (Some e) false)
  | None =>
      match scanRecords read s with
      | (s, Err e) => (s, empty_load (Some e) false)
      | (s, Ok sc) =>
          if sc_corrupt sc then (s, MkTransitionLoadResult [] 0 (sc_metaInconsistent sc) true None)
          else (s, MkTransitionLoadResult (map sr_rec (sc_records sc)) (sc_fileDropped sc) (sc_metaInconsistent sc) false None)
      end
  end.

(** The failures of a read: of the context before and after the stat, of the
    stat, of reading the file. *)
Record ReadIO : Type := MkReadIO {
  ri_ctx : option error;
  ri_stat : option error;
  ri_ctx2 : option error;
  ri_read : option error }.

Definition ErrDurableBudgetExceeded : error := "durable transition read budget exceeded".

(** The common part of the reads: the scan, or what to answer. *)
Definition read_scan (io : ReadIO) (s : FileBackedTransitionStore)
  : FileBackedTransitionStore * result (option error) Scan :=
  match ts_openErr s with
  | Some e => (s, Err (Some e))
  | None =>
      match ri_stat io, ts_file s with
      | Some e, _ => (s, Err (Some ("durable read stat: " +:+ e)))
      | None, None => (s, Err (Some "durable read stat: no such file or directory"))
      | None, Some raw =>
          if durableReadMaxBytes <? Z.of_nat (String.length raw) then (s, Err (Some ErrDurableBudgetExceeded))
          else match ri_ctx2 io with
            | Some e => (s, Err (Some e))
            | None =>
                match scanRecords (ri_read io) s with
                | (s, Err e) => (s, Err (Some e))
                | (s, Ok sc) => if sc_corrupt sc then (s, Err None) else (s, Ok sc)
                end
            end
      end
  end.

Definition clamp_limit (n : Z) : Z :=
  let n := if DurableReadMaxLimit <? n then DurableReadMaxLimit else n in
  if FileTransitionCapacity <? n then FileTransitionCapacity else n.

Definition failed_read (r : option error) : TransitionLoadResult :=
  match r with Some e => empty_load (Some e) false | None => empty_load None true end.

Definition ReadRecent (io : ReadIO) (s : FileBackedTransitionStore) (n : Z) : FileBackedTransitionStore * TransitionLoadResult :=
  match ri_ctx io with
  | Some e => (s, empty_load (Some e) false)
  | None =>
      if n <=? 0 then (s, empty_load None false)
      else match read_scan io s with
        | (s, Err e) => (s, failed_read e)
        | (s, Ok sc) =>
            let sel := lastn (Z.to_nat (clamp_limit n)) (sc_records sc) in
            (s, MkTransitionLoadResult (rev (map sr_rec sel)) (sc_fileDropped sc) (sc_metaInconsistent sc) false None)
        end
  end.

(** [ReadAll] with its sequences and their range. *)
Definition ReadAll (io : ReadIO) (s : FileBackedTransitionStore)
  : FileBackedTransitionStore * TransitionLoadResult * list Z * Z * Z :=
  match ri_ctx io with
  | Some e => (s, empty_load (Some e) false, [], 0, 0)
  | None =>
      match read_scan io s with
      | (s, Err e) => (s, failed_read e, [], 0, 0)
      | (s, Ok sc) =>
          let recs := rev (sc_records sc) in
          let seqs := map sr_seq recs in
          (s, MkTransitionLoadResult (map sr_rec recs) (sc_fileDropped sc) (sc_metaInconsistent sc) false None, seqs,
           match seqs with [] => 0 | x :: l => foldl Z.min x l end, foldl Z.max 0 seqs)
      end
  end.

(** ** Pages *)

Definition ErrInvalidCursor : error := "invalid durable cursor".
Definition ErrCursorExpired : error := "durable cursor expired: record evicted".

Definition mintCursor (seq : Z) : string := cursor_enc ("v2:" +:+ pretty seq).

Definition parseCursor (cur : string) : result error Z :=
  match cursor_dec cur with
  | None => Err (ErrInvalidCursor +:+ ": undecodable")
  | Some s =>
      if negb (HasPrefix s "v2:") then Err (ErrInvalidCursor +:+ ": unsupported cursor version")
      else match ParseInt (TrimPrefix s "v2:") with
        | None => Err (ErrInvalidCursor +:+ ": bad sequence")
        | Some seq => if seq <=? 0 then Err (ErrInvalidCursor +:+ ": bad sequence") else Ok seq
        end
  end.

Fixpoint resolveCursor (records : list scannedRecord) (seq : Z) : result error nat :=
  match records with
  | [] => Err (ErrCursorExpired +:+ ": sequence " +:+ pretty seq +:+ " no longer retained")
  | r :: rs => if sr_seq r =? seq then Ok 0%nat else match resolveCursor rs seq with Ok i => Ok (S i) | Err e => Err e end
  end.

Record TransitionPageResult : Type := MkPage {
  pg_Transitions : list AlertTransition;
  pg_FileDropped : Z;
  pg_RetentionMetaInconsistent : bool;
  pg_Corrupt : bool;
  pg_LoadErr : option error;
  pg_HasMore : bool;
  pg_NextCursor : string }.

Definition failed_page (r : option error) : TransitionPageResult :=
  match r with
  | Some e => MkPage [] 0 false false (Some e) false ""
  | None => MkPage [] 0 false true None false ""
  end.

(** The page of the records before the index [end_]. *)
Definition page_of (sc : Scan) (end_ : nat) (n : Z) : TransitionPageResult :=
  let start := (end_ - Z.to_nat n)%nat in
  let sel := take (end_ - start) (drop start (sc_records sc)) in
  let hasMore := (0 <? start)%nat in
  MkPage (rev (map sr_rec sel)) (sc_fileDropped sc) (sc_metaInconsistent sc) false None hasMore
    (if hasMore then match sc_records sc !! start with Some r => mintCursor (sr_seq r) | None => "" end else "").

Definition ReadBefore (io : ReadIO) (s : FileBackedTransitionStore) (cursor : string) (n : Z)
  : FileBackedTransitionStore * TransitionPageResult :=
  match ri_ctx io with
  | Some e => (s, failed_page (Some e))
  | None =>
      if n <=? 0 then (s, MkPage [] 0 false false None false "")
      else
        let n := clamp_limit n in
        match (if String.eqb cursor "" then Ok None
               else match parseCursor cursor with Ok seq => Ok (Some seq) | Err e => Err e end) with
        | Err e => (s, failed_page (Some e))
        | Ok seq =>
            match read_scan io s with
            | (s, Err e) => (s, failed_page e)
            | (s, Ok sc) =>
                match (match seq with
                       | None => Ok (length (sc_records sc))
                       | Some seq => resolveCursor (sc_records sc) seq
                       end) with
                | Err e => (s, failed_page (Some e))
                | Ok end_ => (s, page_of sc end_ n)
                end
            end
        end
  end.

(** ** The store that stands for a file that could not be opened *)

Record FailedTransitionStore : Type := MkFailedStore { fs_path : string; fs_err : error }.
Definition NewFailedTransitionStore (path : string) (err : error) : FailedTransitionStore := MkFailedStore path err.
Definition Failed_Append (s : FailedTransitionStore) (t : AlertTransition) : option error := Some (fs_err s).
Definition Failed_Load (s : FailedTransitionStore) : TransitionLoadResult := empty_load (Some (fs_err s)) false.
Definition Failed_ReadRecent (s : FailedTransitionStore) (n : Z) : TransitionLoadResult := empty_load (Some (fs_err s)) false.
Definition Failed_ReadAll (s : FailedTransitionStore) : TransitionLoadResult * list Z * Z * Z :=
  (empty_load (Some (fs_err s)) false, [], 0, 0).
Definition Failed_ReadBefore (s : FailedTransitionStore) (cursor : string) (n : Z) : TransitionPageResult :=
  failed_page (Some (fs_err s)).

(** ** Lemmas: the text of a file *)

(** A file as the store writes it. *)
Definition encode (fd lastSeq : Z) (inc : bool) (rs : list scannedRecord) : string :=
  lines_text (metaLine fd lastSeq inc :: record_lines rs).

Definition good_record (r : scannedRecord) : Prop := sr_seq r <> 0 /\ time_is_zero (at_At (sr_rec r)) = false.

(** A line of text. *)
Definition text_line (l : string) : Prop := has_byte newline l = false /\ TrimSpace l <> "".

Lemma line_ok_nonempty l : text_line l -> l <> "".
Proof. by intros [_ H0] ->. Qed.

Lemma lines_text_app l1 l2 : lines_text (l1 ++ l2) = lines_text l1 +:+ lines_text l2.
Proof. induction l1 as [|l l1 IH]; [done|]. cbn [app lines_text foldr]. fold (lines_text (l1 ++ l2)) (lines_text l1). by rewrite IH, append_assoc. Qed.

Lemma lines_text_join l ls : lines_text (l :: ls) = join_byte newline (l :: ls) +:+ String newline "".
Proof.
  revert l. induction ls as [|l' ls IH]; intros l; [done|].
  change (l +:+ String newline (lines_text (l' :: ls)) = (l +:+ String newline (join_byte newline (l' :: ls))) +:+ String newline "").
  by rewrite IH, append_assoc, append_cons.
Qed.

Lemma drop_newlines_line l t : has_byte newline l = false -> l <> "" -> drop_newlines (string_rev l +:+ t) = string_rev l +:+ t.
Proof.
  intros Hn Hl. rewrite <- has_byte_rev in Hn. destruct (string_rev l) as [|a r] eqn:E.
  - apply (f_equal string_rev) in E. rewrite string_rev_involutive in E. by subst.
  - cbn in Hn. apply orb_false_iff in Hn as [Ha _]. rewrite append_cons. cbn. by rewrite Ha.
Qed.

Lemma trim_newlines_line a l : has_byte newline l = false -> l <> "" ->
  trim_newlines (a +:+ l) = a +:+ l /\ trim_newlines (a +:+ l +:+ String newline "") = a +:+ l.
Proof.
  intros Hn Hl. unfold trim_newlines. assert (E : drop_newlines (string_rev (a +:+ l)) = string_rev (a +:+ l))
    by (rewrite string_rev_append; by apply drop_newlines_line).
  split; [by rewrite E, string_rev_involutive|]. rewrite <- append_assoc, string_rev_append.
  change (string_rev (String newline "")) with (String newline ""). rewrite append_cons, append_nil_l. cbn [drop_newlines].
  rewrite Ascii.eqb_refl. by rewrite E, string_rev_involutive.
Qed.

(** The last line of a join, alone. *)
Lemma join_snoc c ls l : join_byte c (ls ++ [l]) = match ls with [] => l | _ => join_byte c ls +:+ String c l end.
Proof.
  induction ls as [|x ls IH]; [done|]. destruct ls as [|y ls]; [done|].
  change (join_byte c ((x :: y :: ls) ++ [l])) with (x +:+ String c (join_byte c ((y :: ls) ++ [l]))). rewrite IH.
  change (join_byte c (x :: y :: ls)) with (x +:+ String c (join_byte c (y :: ls))). by rewrite append_assoc, append_cons.
Qed.

(** Lines come back, whether the last one is ended or not. *)
Lemma text_lines ls l :
  Forall text_line ls -> has_byte newline l = false -> l <> "" ->
  let raw := join_byte newline (ls ++ [l]) in
  trim_newlines raw = raw /\ trim_newlines (raw +:+ String newline "") = raw /\ raw <> "" /\ Split raw newline = ls ++ [l].
Proof.
  intros Hls Hn Hl raw. assert (Hraw : exists a, raw = a +:+ l).
  { unfold raw. rewrite join_snoc. destruct ls as [|x ls]; [by exists ""|]. exists (join_byte newline (x :: ls) +:+ String newline "").
    by rewrite append_assoc, append_cons. }
  destruct Hraw as [a Ea]. destruct (trim_newlines_line a l Hn Hl) as [T1 T2]. rewrite Ea at 1 2 3 4. rewrite append_assoc.
  split; [done|]. split; [done|]. split.
  - rewrite Ea. destruct a; [by destruct l|done].
  - apply Split_join; [by destruct ls|]. apply Forall_app. split; [|by constructor].
    eapply Forall_impl; [exact Hls|]. by intros x [? _].
Qed.

Lemma ends_in_newline_line a l : has_byte newline l = false -> l <> "" ->
  ends_in_newline (a +:+ l) = false /\ ends_in_newline (a +:+ l +:+ String newline "") = true.
Proof.
  intros Hn Hl. unfold ends_in_newline. split.
  - rewrite string_rev_append. rewrite <- has_byte_rev in Hn. destruct (string_rev l) as [|b r] eqn:E.
    + apply (f_equal string_rev) in E. rewrite string_rev_involutive in E. by subst.
    + rewrite append_cons. cbn in Hn. by apply orb_false_iff in Hn as [? _].
  - rewrite <- append_assoc, string_rev_append. done.
Qed.

(** The scan of lines, the last one ended or not. *)
Definition scan_result (ended : bool) (lines : list string) : Scan * Z * option Z :=
  let '(fd, lastSeq, inc, consumed) := match lines with [] => (0, 0, false, false) | l :: _ => scan_meta l end in
  let txLines := if consumed then drop 1 lines else lines in
  match scan_transitions (negb ended) txLines with
  | None => (MkScan [] 0 lastSeq inc true false, Z.of_nat (length txLines), None)
  | Some (rs, legacy) => (MkScan rs fd lastSeq inc false legacy, Z.of_nat (length rs), Some fd)
  end.

Lemma filter_blank ls : Forall text_line ls -> List.filter not_blank ls = ls.
Proof.
  induction 1 as [|l ls [_ Hl] _ IH]; [done|]. cbn. unfold not_blank at 1. rewrite (proj2 (String.eqb_neq _ _) Hl). cbn. by rewrite IH.
Qed.

Lemma scan_text ls l (ended : bool) :
  Forall text_line (ls ++ [l]) ->
  scan_bytes (join_byte newline (ls ++ [l]) +:+ (if ended then String newline "" else "")) = scan_result ended (ls ++ [l]).
Proof.
  intros Hall. destruct (proj1 (Forall_app _ _ _) Hall) as [Hls Hl]. rewrite Forall_singleton in Hl. pose proof (line_ok_nonempty _ Hl) as Hne. destruct Hl as [Hn Ht].
  destruct (text_lines ls l Hls Hn Hne) as (T1 & T2 & T3 & T4). set (raw := join_byte newline (ls ++ [l])) in *.
  assert (Ea : exists a, raw = a +:+ l).
  { unfold raw. rewrite join_snoc. destruct ls as [|x ls']; [by exists ""|]. exists (join_byte newline (x :: ls') +:+ String newline "").
    by rewrite append_assoc, append_cons. }
  destruct Ea as [a Ea]. destruct (ends_in_newline_line a l Hn Hne) as [E1 E2].
  assert (Htrim : trim_newlines (raw +:+ (if ended then String newline "" else "")) = raw) by (destruct ended; [done|by rewrite append_nil_r]).
  assert (Hend : ends_in_newline (raw +:+ (if ended then String newline "" else "")) = ended).
  { rewrite Ea. destruct ended; [by rewrite append_assoc|by rewrite append_nil_r]. }
  unfold scan_bytes, scan_result. rewrite Htrim, Hend. destruct (String.eqb_spec raw "") as [|_]; [done|]. rewrite T4.
  destruct (match ls ++ [l] with [] => (0, 0, false, false) | x :: _ => scan_meta x end) as [[[? ?] ?] consumed].
  rewrite filter_blank; [done|]. destruct consumed; [by apply Forall_drop|done].
Qed.

Lemma tx_line p : text_line (tx_json p).
Proof. split; [apply tx_one_line|apply tx_text]. Qed.

Lemma meta_line fd q inc : text_line (metaLine fd q inc).
Proof. split; [apply fm_one_line|apply fm_text]. Qed.

Lemma record_lines_ok rs : Forall text_line (record_lines rs).
Proof. apply Forall_map, Forall_true. intros r. apply tx_line. Qed.

Lemma scan_meta_line fd q inc : scan_meta (metaLine fd q inc) = (fd, q, inc, true).
Proof. unfold scan_meta, metaLine. by rewrite fm_roundtrip. Qed.

Lemma parse_record r : time_is_zero (at_At (sr_rec r)) = false ->
  parse_transition (tx_json (newPersisted (sr_seq r) (sr_rec r))) = Some (newPersisted (sr_seq r) (sr_rec r)).
Proof. intros Ht. unfold parse_transition. rewrite tx_roundtrip. cbn. by rewrite Ht. Qed.

Lemma scan_records partial rs tail :
  Forall good_record rs ->
  scan_transitions partial (record_lines rs ++ tail) =
    match scan_transitions partial tail with Some (l, legacy) => Some (rs ++ l, legacy) | None => None end.
Proof.
  induction 1 as [|r rs [Hs Ht] _ IH]; cbn [record_lines map app scan_transitions].
  { by destruct (scan_transitions partial tail) as [[? ?]|]. }
  rewrite (parse_record r Ht). fold (record_lines rs). rewrite IH. destruct (scan_transitions partial tail) as [[l lg]|]; [|done].
  cbn. destruct (Z.eqb_spec (sr_seq r) 0); [done|]. by destruct r.
Qed.

Lemma encode_join fd q inc rs : encode fd q inc rs = join_byte newline (metaLine fd q inc :: record_lines rs) +:+ String newline "".
Proof. apply lines_text_join. Qed.

Lemma lines_snoc l ls : exists ls' l', (l :: ls : list string) = ls' ++ [l'].
Proof. destruct (exists_last (l := l :: ls) ltac:(done)) as (ls' & l' & E). by exists ls', l'. Qed.

Lemma scan_encode fd q inc rs :
  Forall good_record rs -> scan_bytes (encode fd q inc rs) = (MkScan rs fd q inc false false, Z.of_nat (length rs), Some fd).
Proof.
  intros Hg. rewrite encode_join. destruct (lines_snoc (metaLine fd q inc) (record_lines rs)) as (ls & l & E).
  assert (Hall : Forall text_line (ls ++ [l])) by (rewrite <- E; constructor; [apply meta_line|apply record_lines_ok]).
  pose proof (scan_text ls l true Hall) as Hs. rewrite E, Hs, <- E. unfold scan_result. rewrite scan_meta_line. cbn [drop].
  pose proof (scan_records false rs [] Hg) as Hr. rewrite app_nil_r in Hr. rewrite drop_0. cbn [negb]. rewrite Hr. cbn. by rewrite app_nil_r.
Qed.

Lemma encode_nonempty fd q inc rs : encode fd q inc rs <> "".
Proof.
  unfold encode. cbn. intros E. pose proof (meta_line fd q inc) as [_ Hm]. destruct (metaLine fd q inc); [done|discriminate E].
Qed.

(** One more record. *)
Lemma encode_snoc fd q inc rs r :
  encode fd q inc rs +:+ (tx_json (newPersisted (sr_seq r) (sr_rec r)) +:+ String newline "") = encode fd q inc (rs ++ [r]).
Proof.
  unfold encode, record_lines. rewrite map_app, app_comm_cons. rewrite lines_text_app. done.
Qed.

(** Eviction keeps the newest. *)
Lemma evict_encode fd q rs s :
  ts_file s = Some (encode fd q false rs) -> (fileCap < length rs)%nat ->
  evictLocked None s =
    (MkFileStore (Some (encode (ts_fileDropped s + Z.of_nat (length rs - fileCap)) (ts_lastSeq s) false (lastn fileCap rs)))
       FileTransitionCapacity (ts_fileDropped s + Z.of_nat (length rs - fileCap)) (ts_lastSeq s) (ts_openErr s), None).
Proof.
  intros Hf Hlen. unfold evictLocked. rewrite Hf. cbn [default]. rewrite encode_join.
  destruct (lines_snoc (metaLine fd q false) (record_lines rs)) as (ls & l & E).
  assert (Hall : Forall text_line (ls ++ [l])) by (rewrite <- E; constructor; [apply meta_line|apply record_lines_ok]).
  destruct (proj1 (Forall_app _ _ _) Hall) as [Hls Hl]. rewrite Forall_singleton in Hl. pose proof (line_ok_nonempty _ Hl) as Hne. destruct Hl as [Hn _].
  destruct (text_lines ls l Hls Hn Hne) as (_ & T2 & T3 & T4). rewrite E. cbv zeta. unfold id. rewrite T2, (proj2 (String.eqb_neq _ _) T3), T4, <- E.
  unfold metaLine at 1. rewrite fm_roundtrip. cbn [fm_Meta fm_MetaInconsistent]. rewrite skipn_cons, drop_0.
  assert (Hlr : length (record_lines rs) = length rs) by apply length_map. rewrite Hlr.
  rewrite (proj2 (Nat.leb_gt _ _) Hlen). do 2 f_equal. unfold encode, lastn. f_equal. f_equal.
  f_equal. unfold record_lines. by rewrite !skipn_map.
Qed.

(** ** Specification: the history a file stands for *)

Lemma fileCap_Z : Z.of_nat fileCap = 10000.
Proof. unfold fileCap. by apply Z2Nat.id. Qed.

#[local] Opaque fileCap.

(** The transitions [l] with the sequences that follow [k]. *)
Definition numbered (k : nat) (l : list AlertTransition) : list scannedRecord :=
  imap (fun i t => MkScanned t (Z.of_nat (k + i) + 1)) l.

Inductive TransitionOp : Type :=
| TAppend (io : TransitionIO) (t : AlertTransition)
| TRestart (io : OpenIO).

(** What an append adds to the history. *)
Definition landed (s : FileBackedTransitionStore) (io : TransitionIO) (t : AlertTransition) : list AlertTransition :=
  match ts_openErr s, ti_open io, ti_write io with None, None, None => [t] | _, _, _ => [] end.

(** A store and the history it has taken; a restart opens the file anew. *)
Definition log_step (st : FileBackedTransitionStore * list AlertTransition) (op : TransitionOp)
  : FileBackedTransitionStore * list AlertTransition :=
  let '(s, h) := st in
  match op with
  | TAppend io t => (fst (FileBacked_Append io s t), h ++ landed s io t)
  | TRestart io => match fst (NewFileBackedTransitionStore io (ts_file s)) with Ok s' => (s', h) | Err _ => (s, h) end
  end.

(** A write gets nothing or everything through, and what is written is synced. *)
Definition whole (op : TransitionOp) : Prop :=
  match op with
  | TAppend io t => time_is_zero (at_At t) = false /\ ti_sync io = None /\ from_option (fun w => fst w = 0%nat) True (ti_write io)
  | TRestart io => oi_setup io = None
  end.

Definition evicts (op : TransitionOp) : Prop :=
  match op with TAppend io _ => ti_evict io = None | TRestart _ => True end.

(** The file holds the history [h] but for its first [k]; the mirrors agree. *)
Record log_inv (k : nat) (h : list AlertTransition) (s : FileBackedTransitionStore) : Prop := MkLogInv {
  li_le : (k <= length h - fileCap)%nat;
  li_times : Forall (fun t => time_is_zero (at_At t) = false) h;
  li_file : exists q, ts_file s = Some (encode (Z.of_nat k) q false (numbered k (drop k h))) /\
    0 <= q <= Z.of_nat (length h) /\ ((k < length h)%nat \/ q = Z.of_nat (length h));
  li_mirrors : ts_openErr s = None ->
    ts_count s = Z.of_nat (length h - k) /\ ts_fileDropped s = Z.of_nat k /\ ts_lastSeq s = Z.of_nat (length h) }.

Lemma numbered_drop k n l : drop n (numbered k l) = numbered (k + n) (drop n l).
Proof.
  unfold numbered. revert k l. induction n as [|n IH]; intros k l; [by rewrite Nat.add_0_r, !drop_0|].
  destruct l as [|x l]; [done|]. cbn [imap]. rewrite !skipn_cons.
  rewrite (imap_ext _ (fun i t => MkScanned t (Z.of_nat (S k + i) + 1)) l) by (intros; cbn; do 2 f_equal; lia).
  rewrite IH. by replace (S k + n)%nat with (k + S n)%nat by lia.
Qed.

Lemma numbered_snoc k l t : numbered k (l ++ [t]) = numbered k l ++ [MkScanned t (Z.of_nat (k + length l) + 1)].
Proof. unfold numbered. rewrite imap_app. cbn. by rewrite Nat.add_0_r. Qed.

Lemma numbered_length k l : length (numbered k l) = length l.
Proof. apply length_imap. Qed.

Lemma numbered_recs k l : map sr_rec (numbered k l) = l.
Proof.
  change (map sr_rec (numbered k l)) with (sr_rec <$> numbered k l). unfold numbered. rewrite fmap_imap. cbn.
  clear. revert k. induction l as [|x l IH]; intros k; [done|]. rewrite imap_cons. f_equal. apply (IH k).
Qed.

Lemma numbered_good k l : Forall (fun t => time_is_zero (at_At t) = false) l -> Forall good_record (numbered k l).
Proof.
  intros Hl. apply Forall_lookup. intros i r Hi. apply list_lookup_imap_Some in Hi as (t & Ht & ->).
  split; [cbn; lia|]. exact (proj1 (Forall_lookup _ _) Hl i t Ht).
Qed.

Lemma numbered_max m k l : m <= Z.of_nat (k + length l) -> (l <> [] \/ m = Z.of_nat k) ->
  max_seq m (numbered k l) = Z.of_nat (k + length l).
Proof.
  intros Hm. induction l as [|t l _] using rev_ind; intros Hl.
  { destruct Hl as [|Hl]; [done|]. cbn. lia. }
  clear Hl. rewrite numbered_snoc, length_app in *. cbn [length] in *. unfold max_seq. rewrite foldl_app. cbn.
  assert (Hb : foldl (fun m r => Z.max m (sr_seq r)) m (numbered k l) <= Z.of_nat (k + (length l + 1))).
  { clear t. assert (Hall : Forall (fun r => sr_seq r <= Z.of_nat (k + (length l + 1))) (numbered k l)).
    { apply Forall_lookup. intros i r Hi. apply list_lookup_imap_Some in Hi as (x & Hx & ->).
      apply lookup_lt_Some in Hx. cbn. lia. }
    revert m Hm. induction (numbered k l) as [|r rs IH]; intros m Hm; [done|].
    apply Forall_cons in Hall as [Hr Hall]. cbn. apply IH; [done|lia]. }
  lia.
Qed.

(** What a scan of such a file says. *)
Lemma scan_holds k h q s :
  Forall (fun t => time_is_zero (at_At t) = false) h ->
  ts_file s = Some (encode (Z.of_nat k) q false (numbered k (drop k h))) ->
  scanRecords None s =
    (MkFileStore (ts_file s) (Z.of_nat (length h - k)) (Z.of_nat k) (ts_lastSeq s) (ts_openErr s),
     Ok (MkScan (numbered k (drop k h)) (Z.of_nat k) q false false false)).
Proof.
  intros Ht Hf. unfold scanRecords. rewrite Hf, scan_encode by by apply numbered_good, Forall_drop.
  by rewrite numbered_length, length_drop.
Qed.

Lemma scan_keeps read s : ts_file (fst (scanRecords read s)) = ts_file s /\ ts_openErr (fst (scanRecords read s)) = ts_openErr s.
Proof. unfold scanRecords. destruct read; [done|]. by destruct (match ts_file s with None => _ | Some _ => _ end) as [[? ?] ?]. Qed.

(** Reading changes nothing. *)
Lemma inv_scan k h s : log_inv k h s -> forall read, log_inv k h (fst (scanRecords read s)).
Proof.
  intros Hi read. pose proof Hi as [Hle Ht (q & Hf & Hq) Hm]. destruct read as [e|]; [done|].
  rewrite (scan_holds k h q s Ht Hf). constructor; cbn; [done|done|by exists q|].
  intros Ho. destruct (Hm Ho) as (_ & _ & ->). done.
Qed.

Lemma open_inv k h s io :
  log_inv k h s -> oi_setup io = None ->
  exists s', NewFileBackedTransitionStore io (ts_file s) = (Ok s', ts_file s) /\ ts_file s' = ts_file s /\ log_inv k h s' /\
    (oi_read io = None -> ts_openErr s' = None).
Proof.
  intros [Hle Ht (q & Hf & Hq & Hk) _] Hio. unfold NewFileBackedTransitionStore. rewrite Hio, Hf. cbn [from_option]. unfold id.
  rewrite (proj2 (String.eqb_neq _ _) (encode_nonempty _ _ _ _)). set (raw := encode _ _ _ _) in *. cbv zeta iota beta.
  destruct (oi_read io) as [e|] eqn:Er.
  { cbn. eexists. split; [done|]. split; [done|]. split; [|done]. constructor; cbn; [done|done|by exists q|done]. }
  set (s0 := MkFileStore (Some raw) 0 0 0 None). rewrite (scan_holds k h q s0 Ht eq_refl).
  cbn [sc_corrupt sc_legacy ts_file ts_lastSeq s0]. eexists. split; [done|]. split; [done|]. split; [|done].
  constructor; cbn; [done|done|by exists q|]. intros _. rewrite numbered_length, length_drop. split; [done|]. split; [done|].
  rewrite numbered_max; rewrite ?length_drop; [lia|lia|]. destruct Hk as [Hk| ->]; [left|].
  - intros E. apply (f_equal length) in E. rewrite length_drop in E. cbn in E. lia.
  - destruct (decide (k = length h)) as [->|]; [by right|left]. intros E. apply (f_equal length) in E.
    rewrite length_drop in E. cbn in E. lia.
Qed.

Lemma append_inv k h s io t :
  log_inv k h s -> whole (TAppend io t) -> Z.of_nat (length h) < max_int64 ->
  let st := log_step (s, h) (TAppend io t) in
  exists k', (k <= k')%nat /\ log_inv k' (snd st) (fst st) /\
    (ti_evict io = None -> k = (length h - fileCap)%nat -> k' = (length (snd st) - fileCap)%nat).
Proof.
  intros Hi (Htt & Hsy & Hw) Hlen. pose proof Hi as [Hle Ht (q & Hf & Hq & Hk) Hm]. cbn [log_step fst snd].
  pose proof fileCap_Z as Hfc.
  unfold landed, FileBacked_Append. destruct (ts_openErr s) as [e|] eqn:Ho.
  { exists k. rewrite app_nil_r. split; [lia|]. split; [exact Hi|exact (fun _ E => E)]. }
  destruct (Hm eq_refl) as (Hc & Hd & Hl). rewrite Hl, wrap64_id by (unfold in_int64, min_int64, max_int64 in *; lia).
  destruct (ti_open io) as [e|]; [exists k; rewrite app_nil_r; split; [lia|]; split; [exact Hi|exact (fun _ E => E)]|].
  destruct (ti_write io) as [[n e]|].
  { cbn in Hw. subst n. exists k. rewrite app_nil_r. split; [lia|]. split; [|exact (fun _ E => E)]. cbn [fst].
    assert (Hz : forall u, take_bytes 0 u = "") by (by intros []). rewrite Hf, Hz. cbn [from_option]. unfold id.
    rewrite append_nil_r. destruct s; cbn in *; subst. done. }
  rewrite Hsy, Hf. cbn [from_option with_file ts_file ts_count ts_fileDropped ts_openErr ts_lastSeq]. unfold id.
  set (r := MkScanned t (Z.of_nat (length h) + 1)).
  change (tx_json (newPersisted (Z.of_nat (length h) + 1) t)) with (tx_json (newPersisted (sr_seq r) (sr_rec r))).
  rewrite encode_snoc. assert (Hkl : (k <= length h)%nat) by lia.
  assert (Hnum : numbered k (drop k h) ++ [r] = numbered k (drop k (h ++ [t]))).
  { rewrite drop_app_le by done. rewrite numbered_snoc, length_drop. do 3 f_equal. lia. }
  rewrite Hnum, Hc, Hd. assert (Hht : Forall (fun t => time_is_zero (at_At t) = false) (h ++ [t])) by (apply Forall_app; by repeat constructor).
  set (s1 := MkFileStore (Some _) _ _ _ _).
  assert (H1 : log_inv k (h ++ [t]) s1).
  { constructor; cbn; rewrite ?length_app; cbn; [lia|done| |intros _; lia]. exists q. split; [done|]. lia. }
  destruct (Z.ltb_spec FileTransitionCapacity (Z.of_nat (length h - k) + 1)) as [Hcap|Hcap].
  2: { exists k. split; [lia|]. split; [exact H1|]. intros _ ->. rewrite length_app. cbn.
    unfold FileTransitionCapacity in Hcap. lia. }
  unfold FileTransitionCapacity in Hcap.
  destruct (ti_evict io) as [e|]; [exists k; split; [lia|]; split; [exact H1|intros [=]]|].
  rewrite (evict_encode (Z.of_nat k) q (numbered k (drop k (h ++ [t]))) s1 eq_refl)
    by (rewrite numbered_length, length_drop, length_app; cbn; lia).
  assert (Hln : lastn fileCap (numbered k (drop k (h ++ [t]))) =
    numbered (length (h ++ [t]) - fileCap) (drop (length (h ++ [t]) - fileCap) (h ++ [t]))).
  { unfold lastn. rewrite numbered_drop, numbered_length, drop_drop, length_drop, length_app. cbn.
    replace (k + (length h + 1 - k - fileCap))%nat with (length h + 1 - fileCap)%nat by lia. done. }
  exists (length (h ++ [t]) - fileCap)%nat. split; [rewrite length_app; cbn; lia|]. split; [|by intros].
  cbn [ts_fileDropped ts_lastSeq ts_openErr s1 fst]. rewrite Hln, numbered_length, length_drop, length_app. cbn [length].
  replace (Z.of_nat k + Z.of_nat (length h + 1 - k - fileCap)) with (Z.of_nat (length h + 1 - fileCap)) by lia.
  constructor; cbn; rewrite ?length_app; cbn; [lia|done| |intros _; unfold FileTransitionCapacity; lia].
  eexists. split; [done|]. lia.
Qed.

Lemma new_inv io s : fst (NewFileBackedTransitionStore io None) = Ok s -> log_inv 0 [] s.
Proof.
  unfold NewFileBackedTransitionStore. destruct (oi_setup io); [done|]. cbn [from_option].
  destruct (oi_write io) as [[n e]|]; [done|]. destruct (oi_sync io); [done|].
  change (metaLine 0 0 false +:+ String newline "") with (encode (Z.of_nat 0) 0 false (numbered 0 (drop 0 []))).
  cbn [String.eqb]. set (raw := encode _ _ _ _).
  destruct (oi_read io) as [e|].
  { intros [= <-]. constructor; cbn; [lia|done|exists 0; split; [done|lia]|done]. }
  rewrite (scan_holds 0 [] 0 (MkFileStore (Some raw) 0 0 0 None) ltac:(done) eq_refl). intros [= <-].
  constructor; cbn; [lia|done|exists 0; split; [done|lia]|done].
Qed.

Lemma step_inv k st op :
  log_inv k (snd st) (fst st) -> whole op -> Z.of_nat (length (snd st)) < max_int64 ->
  exists k' more, (k <= k')%nat /\ log_inv k' (snd (log_step st op)) (fst (log_step st op)) /\
    snd (log_step st op) = snd st ++ more /\ (length more <= 1)%nat /\
    (evicts op -> k = (length (snd st) - fileCap)%nat -> k' = (length (snd (log_step st op)) - fileCap)%nat).
Proof.
  destruct st as [s h]. cbn [fst snd]. intros Hi Hw Hlen. destruct op as [io t|io].
  - destruct (append_inv k h s io t Hi Hw Hlen) as (k' & Hk & Hi' & He). exists k', (landed s io t).
    split; [done|]. split; [done|]. split; [done|]. split; [|done].
    unfold landed. by destruct (ts_openErr s), (ti_open io), (ti_write io); cbn; lia.
  - destruct (open_inv k h s io Hi Hw) as (s' & E & _ & Hi' & _). exists k, []. cbn [log_step]. rewrite E, app_nil_r. cbn [fst snd].
    split; [lia|]. split; [done|]. split; [done|]. split; [cbn; lia|done].
Qed.

Lemma run_inv ops : forall k st,
  log_inv k (snd st) (fst st) -> Forall whole ops -> Z.of_nat (length (snd st)) + Z.of_nat (length ops) <= max_int64 ->
  let st' := run_list log_step st ops in
  exists k' more, (k <= k')%nat /\ log_inv k' (snd st') (fst st') /\ snd st' = snd st ++ more /\ (length more <= length ops)%nat /\
    (Forall evicts ops -> k = (length (snd st) - fileCap)%nat -> k' = (length (snd st') - fileCap)%nat).
Proof.
  induction ops as [|op ops IH]; intros k st Hi Hw Hlen; cbn zeta.
  { exists k, []. rewrite app_nil_r. cbn. done. }
  apply Forall_cons in Hw as [Hw Hws]. cbn [length] in Hlen.
  destruct (step_inv k st op Hi Hw ltac:(lia)) as (k1 & m1 & Hk1 & Hi1 & Hm1 & Hl1 & He1).
  destruct (IH k1 (log_step st op) Hi1 Hws) as (k' & m2 & Hk' & Hi' & Hm2 & Hl2 & He2).
  { rewrite Hm1, length_app. lia. }
  exists k', (m1 ++ m2). split; [lia|]. split; [exact Hi'|]. split.
  { cbn zeta in Hm2. cbn [run_list foldl]. unfold run_list in Hm2. rewrite Hm2, Hm1. by rewrite app_assoc. }
  split; [rewrite length_app; cbn; lia|]. intros [Ho Hos]%Forall_cons E. by apply He2, He1.
Qed.

Lemma numbered_seqs k l : map sr_seq (numbered k l) = map Z.of_nat (seq (S k) (length l)).
Proof.
  apply list_eq. intros i. rewrite !list_lookup_fmap. unfold numbered. rewrite list_lookup_imap.
  destruct (decide (i < length l)%nat) as [Hi|Hi].
  - rewrite lookup_seq_lt by done. destruct (lookup_lt_is_Some_2 _ _ Hi) as [t ->]. cbn. f_equal. lia.
  - rewrite lookup_seq_ge by lia. rewrite lookup_ge_None_2 by lia. done.
Qed.

Lemma load_holds k h s : log_inv k h s -> ts_openErr s = None ->
  snd (FileBacked_Load None s) = MkTransitionLoadResult (drop k h) (Z.of_nat k) false false None.
Proof.
  intros [_ Ht (q & Hf & _) _] Ho. unfold FileBacked_Load. rewrite Ho, (scan_holds k h q s Ht Hf). cbn. by rewrite numbered_recs.
Qed.

(** *** Cursors and pages *)

Lemma read_scan_inv io k h s : log_inv k h s ->
  exists s' r, read_scan io s = (s', r) /\ log_inv k h s' /\
    ((exists q, r = Ok (MkScan (numbered k (drop k h)) (Z.of_nat k) q false false false)) \/ exists e, r = Err (Some e)).
Proof.
  intros Hi. pose proof Hi as [_ Ht (q & Hf & _) _]. unfold read_scan.
  destruct (ts_openErr s) as [e|] eqn:Ho; [eexists _, _; split; [done|]; split; [done|by right; eexists]|].
  destruct (ri_stat io); [eexists _, _; split; [done|]; split; [done|by right; eexists]|]. rewrite Hf.
  destruct (durableReadMaxBytes <? _); [eexists _, _; split; [done|]; split; [done|by right; eexists]|].
  destruct (ri_ctx2 io); [eexists _, _; split; [done|]; split; [done|by right; eexists]|].
  pose proof (inv_scan k h s Hi (ri_read io)) as Hi'. destruct (ri_read io) as [e|].
  - eexists _, _; split; [done|]; split; [exact Hi'|by right; eexists].
  - rewrite (scan_holds k h q s Ht Hf) in *. eexists _, _; split; [done|]; split; [exact Hi'|left; by exists q].
Qed.

Lemma mint_parse e : 0 < e <= max_int64 -> mintCursor e <> "" /\ parseCursor (mintCursor e) = Ok e.
Proof.
  intros He. unfold mintCursor, parseCursor. rewrite cursor_roundtrip. split.
  { intros E. pose proof (cursor_roundtrip ("v2:" +:+ pretty e)) as Hr. by rewrite E, cursor_empty in Hr. }
  rewrite HasPrefix_app, TrimPrefix_app. cbn [negb]. rewrite ParseInt_text by lia. by rewrite (proj2 (Z.leb_gt _ _)) by lia.
Qed.

Lemma resolve_numbered l : forall k e, (k <= e)%nat ->
  resolveCursor (numbered k l) (Z.of_nat e + 1) =
    if decide (e < k + length l)%nat then Ok (e - k)%nat
    else Err (ErrCursorExpired +:+ ": sequence " +:+ pretty (Z.of_nat e + 1) +:+ " no longer retained").
Proof.
  induction l as [|t l IH]; intros k e Hke; [cbn; by rewrite decide_False by lia|].
  assert (E : numbered k (t :: l) = MkScanned t (Z.of_nat k + 1) :: numbered (S k) l).
  { unfold numbered. cbn [imap]. f_equal; [do 2 f_equal; lia|]. apply imap_ext. intros; cbn. do 2 f_equal; lia. }
  rewrite E. cbn [resolveCursor sr_seq]. destruct (Z.eqb_spec (Z.of_nat k + 1) (Z.of_nat e + 1)) as [Hs|Hs].
  - rewrite decide_True by (cbn; lia). f_equal. lia.
  - rewrite (IH (S k) e) by lia. destruct (decide (e < S k + length l)%nat); [rewrite decide_True by (cbn; lia); f_equal; lia|].
    rewrite decide_False by (cbn; lia). done.
Qed.

Lemma resolve_before l : forall k e, (e < k)%nat ->
  resolveCursor (numbered k l) (Z.of_nat e + 1) = Err (ErrCursorExpired +:+ ": sequence " +:+ pretty (Z.of_nat e + 1) +:+ " no longer retained").
Proof.
  intros k e Hke. assert (Hn : Forall (fun r => sr_seq r <> Z.of_nat e + 1) (numbered k l)).
  { apply Forall_lookup. intros i r Hi. apply list_lookup_imap_Some in Hi as (t & Ht & ->). cbn. lia. }
  induction Hn as [|r rs Hr _ IH]; [done|]. cbn. rewrite (proj2 (Z.eqb_neq _ _) Hr), IH. done.
Qed.

(** The page before the place [e] of the history. *)
Definition page_before (k e : nat) (h : list AlertTransition) (n : Z) : TransitionPageResult :=
  let start := (k `max` (e - Z.to_nat n))%nat in
  MkPage (rev (drop start (take e h))) (Z.of_nat k) false false None (k <? start)%nat
    (if (k <? start)%nat then mintCursor (Z.of_nat start + 1) else "").

Lemma page_holds k e h q n : (k <= e <= length h)%nat -> 1 <= n ->
  page_of (MkScan (numbered k (drop k h)) (Z.of_nat k) q false false false) (e - k) n = page_before k e h n.
Proof.
  intros He Hn. unfold page_of, page_before. cbn [sc_records sc_fileDropped sc_metaInconsistent].
  set (n' := Z.to_nat n). assert (Hn' : (1 <= n')%nat) by lia.
  assert (Hs : (k `max` (e - n') = k + (e - k - n'))%nat) by lia. rewrite Hs.
  assert (Hsel : map sr_rec (take (e - k - (e - k - n')) (drop (e - k - n') (numbered k (drop k h)))) =
    drop (k + (e - k - n')) (take e h)).
  { rewrite numbered_drop, drop_drop. rewrite <- firstn_map, numbered_recs, firstn_skipn_comm. f_equal. f_equal. lia. }
  rewrite Hsel. assert (Hb : (0 <? e - k - n')%nat = (k <? k + (e - k - n'))%nat).
  { destruct (Nat.ltb_spec 0 (e - k - n')), (Nat.ltb_spec k (k + (e - k - n'))); try done; lia. }
  rewrite Hb. destruct (Nat.ltb_spec k (k + (e - k - n'))); [|done]. f_equal.
  unfold numbered. rewrite list_lookup_imap, lookup_drop.
  destruct (lookup_lt_is_Some_2 h (k + (e - k - n'))) as [t ->]; [lia|]. done.
Qed.

(** A page that answers an error is empty and final. *)
Definition page_failed (p : TransitionPageResult) : Prop :=
  pg_Transitions p = [] /\ pg_HasMore p = false /\ pg_LoadErr p <> None.

(** [cur] is the place [e]: the empty cursor the end, one handed out a record's place. *)
Definition cursor_at (cur : string) (e : nat) (h : list AlertTransition) : Prop :=
  (cur = "" /\ e = length h) \/ (cur = mintCursor (Z.of_nat e + 1) /\ (e < length h)%nat).

Lemma clamp_pos n : 0 < n -> 1 <= clamp_limit n <= DurableReadMaxLimit.
Proof. unfold clamp_limit, DurableReadMaxLimit, FileTransitionCapacity. intros. go_cases; go_bools; lia. Qed.

Lemma read_before_holds io k h s cur e n :
  log_inv k h s -> cursor_at cur e h -> 0 < n -> Z.of_nat (length h) <= max_int64 ->
  exists s' p, ReadBefore io s cur n = (s', p) /\ log_inv k h s' /\
    (((k <= e)%nat /\ p = page_before k e h (clamp_limit n)) \/ page_failed p).
Proof.
  intros Hi Hc Hn Hlen. pose proof (clamp_pos n Hn) as Hcl. pose proof (li_le _ _ _ Hi) as Hkh.
  unfold ReadBefore. destruct (ri_ctx io) as [er|]; [by eexists _, _; split; [done|]; split; [done|right]|].
  rewrite (proj2 (Z.leb_gt _ _)) by lia.
  destruct (read_scan_inv io k h s Hi) as (s' & r & -> & Hi' & Hr).
  assert (Hcur : (if String.eqb cur "" then Ok None else match parseCursor cur with Ok seq => Ok (Some seq) | Err e => Err e end) =
    Ok (E := error) (if String.eqb cur "" then None else Some (Z.of_nat e + 1)) /\
    (cur = "" -> e = length h) /\ (e <= length h)%nat /\ (cur <> "" -> (e < length h)%nat)).
  { destruct Hc as [[-> ->]|[-> He]]; [done|]. destruct (mint_parse (Z.of_nat e + 1)) as [Hne Hp]; [lia|].
    rewrite (proj2 (String.eqb_neq _ _) Hne), Hp. split; [done|]. split; [done|]. split; [lia|done]. }
  destruct Hcur as (-> & Hce & Hle & Hlt).
  destruct Hr as [[q ->]|[er ->]]; [|by eexists _, _; split; [done|]; split; [done|right]].
  destruct (String.eqb_spec cur "") as [E|E].
  - cbn [sc_records]. rewrite numbered_length, length_drop. specialize (Hce E). subst e.
    eexists _, _. split; [done|]. split; [done|]. left. split; [lia|]. apply page_holds; lia.
  - cbn [sc_records]. destruct (decide (k <= e)%nat) as [Hke|Hke].
    + rewrite resolve_numbered by done. rewrite length_drop, decide_True by (specialize (Hlt E); lia).
      eexists _, _. split; [done|]. split; [done|]. left. split; [done|]. apply page_holds; lia.
    + rewrite resolve_before by lia. by eexists _, _; split; [done|]; split; [done|right].
Qed.

(** A client that reads page after page, each at the cursor of the one before,
    with what happens to the store in between; the last page, if it is reached. *)
Fixpoint browse (n : Z) (cur : string) (st : FileBackedTransitionStore * list AlertTransition)
    (turns : list (list TransitionOp * ReadIO)) : list AlertTransition * option TransitionPageResult :=
  match turns with
  | [] => ([], None)
  | (ops, io) :: turns =>
      let '(s, h) := run_list log_step st ops in
      let '(s, p) := ReadBefore io s cur n in
      if pg_HasMore p then
        let '(ts, lastp) := browse n (pg_NextCursor p) (s, h) turns in (pg_Transitions p ++ ts, lastp)
      else (pg_Transitions p, Some p)
  end.

Definition turn_ops (turns : list (list TransitionOp * ReadIO)) : list TransitionOp := concat (map fst turns).

Lemma browse_from n turns : forall cur e k st,
  0 < n -> log_inv k (snd st) (fst st) ->
  (match turns with [] => True | (ops, _) :: _ => cur = "" -> ops = [] end) -> cursor_at cur e (snd st) ->
  Forall whole (turn_ops turns) -> Z.of_nat (length (snd st)) + Z.of_nat (length (turn_ops turns)) <= max_int64 ->
  let '(ts, lastp) := browse n cur st turns in
  exists m, (m <= e)%nat /\ ts = rev (drop m (take e (snd st))) /\
    match lastp with Some p => pg_LoadErr p = None -> pg_Corrupt p = false /\ pg_FileDropped p = Z.of_nat m | None => True end.
Proof.
  induction turns as [|[ops io] turns IH]; intros cur e k st Hn Hi Hempty Hc Hw Hlen.
  { exists e. rewrite drop_ge by (rewrite length_take; lia). done. }
  unfold turn_ops in Hw, Hlen. cbn [map concat fst] in Hw, Hlen. rewrite Forall_app in Hw. destruct Hw as [Hw Hws].
  rewrite length_app in Hlen. fold (turn_ops turns) in *. cbn [browse].
  destruct (run_inv ops k st Hi Hw) as (k' & more & Hkk & Hi' & Hm & Hml & _); [lia|].
  destruct (run_list log_step st ops) as [s h] eqn:Erun. cbn [fst snd] in *.
  assert (Hc' : cursor_at cur e h /\ (e <= length (snd st))%nat).
  { destruct Hc as [[-> ->]|[-> He]].
    - rewrite (Hempty eq_refl) in Erun. cbn in Erun. subst st. split; [by left|done].
    - rewrite Hm. split; [right|lia]. rewrite length_app. split; [done|lia]. }
  destruct Hc' as [Hc' Hle]. assert (Htake : take e h = take e (snd st)) by (rewrite Hm; by rewrite take_app_le).
  destruct (read_before_holds io k' h s cur e n Hi' Hc' Hn) as (s' & p & -> & Hi2 & [[Hke ->]|(Hp1 & Hp2 & Hp3)]).
  { rewrite Hm, length_app. lia. }
  2: { rewrite Hp1, Hp2. exists e. rewrite drop_ge by (rewrite length_take; lia). split; [lia|]. split; [done|]. done. }
  unfold page_before. set (start := (k' `max` (e - Z.to_nat (clamp_limit n)))%nat). cbn [pg_HasMore pg_NextCursor pg_Transitions].
  pose proof (clamp_pos n Hn) as Hcl. destruct (Nat.ltb_spec k' start) as [Hks|Hks].
  2: { exists start. rewrite Htake. split; [lia|]. split; [done|]. cbn. intros _. split; [done|]. lia. }
  assert (Hse : (start < e)%nat) by lia.
  specialize (IH (mintCursor (Z.of_nat start + 1)) start k' (s', h) Hn Hi2). cbn [fst snd] in IH.
  destruct (browse n (mintCursor (Z.of_nat start + 1)) (s', h) turns) as [ts lastp].
  destruct IH as (m & Hms & -> & Hlast); [|right; split; [done|rewrite Hm, length_app; lia]|done|rewrite Hm, length_app; lia|].
  { destruct turns as [|[? ?] ?]; [done|]. intros E. exfalso. revert E. apply mint_parse. lia. }
  exists m. split; [lia|]. split; [|exact Hlast]. rewrite Htake, <- rev_app_distr. f_equal.
  rewrite <- (take_drop start (take e (snd st))) at 2. rewrite take_take, Nat.min_l by lia.
  assert (Ht2 : take start h = take start (snd st)) by (rewrite Hm; by rewrite take_app_le by lia). rewrite Ht2.
  rewrite (drop_app_le (take start (snd st))) by (rewrite length_take; lia). done.
Qed.

(** *** Torn tails *)

Lemma encode_tail fd q inc rs t : encode fd q inc rs +:+ t = join_byte newline ((metaLine fd q inc :: record_lines rs) ++ [t]).
Proof. rewrite encode_join, join_snoc. by rewrite append_assoc, append_cons. Qed.

Lemma take_has_byte c n s : has_byte c s = false -> has_byte c (take_bytes n s) = false.
Proof.
  unfold take_bytes. revert n. induction s as [|a s IH]; intros [|n] Hs; try done. cbn in *. apply orb_false_iff in Hs as [-> Hs]. by apply IH.
Qed.

Lemma take_front n s t : (n <= String.length s)%nat -> take_bytes n (s +:+ t) = take_bytes n s.
Proof.
  unfold take_bytes. revert n. induction s as [|a s IH]; intros [|n] Hn; cbn in Hn; try lia; [by destruct t|done|].
  rewrite append_cons. cbn. f_equal. apply IH. lia.
Qed.

(** A tail that is no record: left out where it is not ended, corruption where it is. *)
Lemma scan_tail fd q rs t :
  Forall good_record rs -> text_line t -> tx_decode t = None ->
  scan_bytes (encode fd q false rs +:+ t) = (MkScan rs fd q false false false, Z.of_nat (length rs), Some fd) /\
  scan_bytes (encode fd q false rs +:+ t +:+ String newline "") = (MkScan [] 0 q false true false, Z.of_nat (length rs) + 1, None).
Proof.
  intros Hg Ht Hd. rewrite <- append_assoc, encode_tail.
  assert (Hall : Forall text_line ((metaLine fd q false :: record_lines rs) ++ [t])).
  { apply Forall_app. split; [|by constructor]. constructor; [apply meta_line|apply record_lines_ok]. }
  pose proof (scan_text _ _ false Hall) as Hf. pose proof (scan_text _ _ true Hall) as Hs. cbv iota in Hf, Hs.
  rewrite append_nil_r in Hf. rewrite Hf, Hs. unfold scan_result. cbn [app]. rewrite scan_meta_line, skipn_cons, drop_0.
  assert (Hp : parse_transition t = None) by (unfold parse_transition; by rewrite Hd).
  cbn [negb]. rewrite !(scan_records _ _ _ Hg). cbn. rewrite Hp. rewrite app_nil_r, length_app. cbn.
  unfold record_lines. rewrite length_map. split; [done|]. do 2 f_equal. lia.
Qed.

Definition no_failure : TransitionIO := MkTransitionIO None None None None None.
Definition no_open_failure : OpenIO := MkOpenIO None None None None None None None.

(** The file with a torn tail, and the store that left it or opened it. *)
Record torn (h : list AlertTransition) (tail : string) (s : FileBackedTransitionStore) : Prop := MkTorn {
  to_file : exists q, ts_file s = Some (encode 0 q false (numbered 0 h) +:+ tail);
  to_open : ts_openErr s = None;
  to_count : ts_count s = Z.of_nat (length h) }.

Lemma torn_load h tail s :
  torn h tail s -> Forall (fun t => time_is_zero (at_At t) = false) h -> text_line tail -> tx_decode tail = None ->
  snd (FileBacked_Load None s) = MkTransitionLoadResult h 0 false false None.
Proof.
  intros [(q & Hf) Ho _] Ht Hl Hd. unfold FileBacked_Load, scanRecords. rewrite Ho, Hf.
  rewrite (proj1 (scan_tail 0 q (numbered 0 h) tail (numbered_good _ _ Ht) Hl Hd)). cbn. by rewrite numbered_recs.
Qed.

Lemma torn_open h tail s s' :
  torn h tail s -> Forall (fun t => time_is_zero (at_At t) = false) h -> text_line tail -> tx_decode tail = None ->
  fst (NewFileBackedTransitionStore no_open_failure (ts_file s)) = Ok s' -> torn h tail s'.
Proof.
  intros [(q & Hf) Ho _] Ht Hl Hd. unfold NewFileBackedTransitionStore. rewrite Hf. cbn [oi_setup oi_read no_open_failure from_option]. unfold id.
  rewrite (proj2 (String.eqb_neq _ _)).
  2: { pose proof (encode_nonempty 0 q false (numbered 0 h)). by destruct (encode 0 q false (numbered 0 h)). }
  unfold scanRecords. cbn [ts_file].
  rewrite (proj1 (scan_tail 0 q (numbered 0 h) tail (numbered_good _ _ Ht) Hl Hd)). intros [= <-].
  constructor; cbn; [by exists q|done|by rewrite numbered_length].
Qed.

(** One more append on a torn tail. *)
Lemma torn_append h tail s t' :
  torn h tail s -> Forall (fun t => time_is_zero (at_At t) = false) h -> Z.of_nat (length h) < FileTransitionCapacity ->
  (forall p, text_line (tail +:+ tx_json p) /\ tx_decode (tail +:+ tx_json p) = None) ->
  let '(s', r) := FileBacked_Append no_failure s t' in
  r = None /\ snd (FileBacked_Load None s') = empty_load None true /\
  exists s'', fst (NewFileBackedTransitionStore no_open_failure (ts_file s')) = Ok s'' /\ snd (FileBacked_Load None s'') = empty_load None true.
Proof.
  intros [(q & Hf) Ho Hc] Ht Hlen Hglue. unfold FileBacked_Append. rewrite Ho, Hf. cbn [no_failure ti_open ti_write ti_sync ti_close ti_evict].
  cbn [from_option with_file ts_file ts_count ts_fileDropped ts_openErr]. unfold id. rewrite Hc.
  rewrite (proj2 (Z.ltb_ge _ _)) by lia. split; [done|].
  set (p := newPersisted _ t'). destruct (Hglue p) as [Hl Hd].
  rewrite append_assoc, <- (append_assoc tail). set (raw := _ +:+ _ +:+ String newline "").
  pose proof (proj2 (scan_tail 0 q (numbered 0 h) _ (numbered_good _ _ Ht) Hl Hd)) as Hs. fold raw in Hs.
  split. { unfold FileBacked_Load, scanRecords. cbn [ts_openErr ts_file]. by rewrite Ho, Hs. }
  unfold NewFileBackedTransitionStore. cbn [oi_setup oi_read no_open_failure from_option ts_file]. unfold id.
  rewrite (proj2 (String.eqb_neq _ _)).
  2: { pose proof (encode_nonempty 0 q false (numbered 0 h)). unfold raw. by destruct (encode 0 q false (numbered 0 h)). }
  unfold scanRecords. cbn [ts_file]. rewrite Hs. cbn [sc_corrupt sc_records sc_fileDropped ts_file ts_lastSeq default from_option length].
  eexists. split; [reflexivity|]. unfold FileBacked_Load, scanRecords. cbn [ts_openErr ts_file]. by rewrite Hs.
Qed.

(** ** Properties *)

(** C25. The durable history is exact: over any history of appends, of which
    some fail to open or to write anything, fail on close or fail to evict, and of
    restarts, the file holds the appends that landed but for the oldest ones, in
    order, numbered 1, 2, 3, … by their place in the whole history, with the number
    of those dropped; never more is dropped than the capacity demands, and exactly
    that many where no eviction failed; a clean restart finds all of this again and
    the next sequence is the next number; an append that answers success has
    landed. (The instants are those that JSON can write, see [TransitionCodec].) *)
Theorem transition_log_exact io0 s0 ops :
  fst (NewFileBackedTransitionStore io0 None) = Ok s0 -> Forall whole ops -> Z.of_nat (length ops) <= max_int64 ->
  let '(s, h) := run_list log_step (s0, []) ops in
  exists k, (k <= length h - fileCap)%nat /\ (Forall evicts ops -> k = (length h - fileCap)%nat) /\
    let content := MkTransitionLoadResult (drop k h) (Z.of_nat k) false false None in
    (ts_openErr s = None -> snd (FileBacked_Load None s) = content /\ ts_lastSeq s = Z.of_nat (length h)) /\
    (forall io, oi_setup io = None -> oi_read io = None -> exists s',
      NewFileBackedTransitionStore io (ts_file s) = (Ok s', ts_file s) /\
      snd (FileBacked_Load None s') = content /\ ts_lastSeq s' = Z.of_nat (length h)) /\
    (forall io s' r seqs lo hi, ReadAll io s = (s', r, seqs, lo, hi) -> tl_LoadErr r = None ->
      tl_Corrupt r = false /\ tl_Transitions r = rev (drop k h) /\ seqs = rev (map Z.of_nat (seq (S k) (length h - k)))) /\
    (forall io t, snd (FileBacked_Append io s t) = None -> landed s io t = [t]).
Proof.
  intros H0 Hw Hlen. pose proof (run_inv ops 0 (s0, []) (new_inv io0 s0 H0) Hw ltac:(cbn; lia)) as (k & more & _ & Hi & _ & _ & He).
  destruct (run_list log_step (s0, []) ops) as [s h]. cbn [fst snd] in *. exists k.
  split; [exact (li_le _ _ _ Hi)|]. split; [intros E; apply He; [exact E|cbn; lia]|]. cbv zeta.
  split. { intros Ho. split; [by apply load_holds|]. by apply (li_mirrors _ _ _ Hi Ho). }
  split.
  { intros io Hs Hr. destruct (open_inv k h s io Hi Hs) as (s' & E & _ & Hi' & Ho). exists s'. specialize (Ho Hr).
    split; [done|]. split; [by apply load_holds|]. by apply (li_mirrors _ _ _ Hi' Ho). }
  split.
  - intros io s' r seqs lo hi. unfold ReadAll. destruct (ri_ctx io); [by intros [= <- <- <- <- <-]|].
    destruct (read_scan_inv io k h s Hi) as (s1 & rs & -> & _ & [[q ->]|[e ->]]); [|by intros [= <- <- <- <- <-]].
    intros [= <- <- <- _ _] _. cbn. rewrite !map_rev, numbered_recs, numbered_seqs, length_drop. done.
  - intros io t. unfold FileBacked_Append, landed. destruct (ts_openErr s); [done|]. destruct (ti_open io); [done|].
    by destruct (ti_write io) as [[? ?]|].
Qed.

(** Paging is stable (P32-I11, P32-I12): a client that starts at the newest
    record and follows the cursors reads the history backwards without a gap or a
    repetition, whatever is appended, evicted, restarted or fails to be read in
    between; a page that ends the walk without an error ends it at the oldest
    record retained, and a record evicted under the client is an error, not a gap. *)
Theorem transition_pages_exact io0 s0 ops n io turns :
  fst (NewFileBackedTransitionStore io0 None) = Ok s0 -> 0 < n -> Forall whole (ops ++ turn_ops turns) ->
  Z.of_nat (length (ops ++ turn_ops turns)) <= max_int64 ->
  let st := run_list log_step (s0, []) ops in
  let '(ts, lastp) := browse n "" st (([], io) :: turns) in
  exists m, ts = rev (drop m (snd st)) /\
    match lastp with
    | Some p => pg_LoadErr p = None -> pg_Corrupt p = false /\ pg_FileDropped p = Z.of_nat m
    | None => True
    end.
Proof.
  intros H0 Hn Hw Hlen. rewrite Forall_app in Hw. destruct Hw as [Hw Hws]. rewrite length_app in Hlen. cbv zeta.
  destruct (run_inv ops 0 (s0, []) (new_inv io0 s0 H0) Hw ltac:(cbn; lia)) as (k & more & _ & Hi & Hm & Hml & _).
  cbn [snd app] in Hm. set (st := run_list log_step (s0, []) ops) in *.
  pose proof (browse_from n (([], io) :: turns) "" (length (snd st)) k st Hn Hi ltac:(done) ltac:(by left) Hws) as Hb.
  destruct (browse n "" st (([], io) :: turns)) as [ts lastp]. rewrite firstn_all in Hb.
  destruct Hb as (m & _ & Hts & Hp); [unfold turn_ops in *; cbn [map fst concat app]; rewrite Hm; lia|]. by exists m.
Qed.

(** A torn write is recovered, but not appended to: where a write of a new
    record stops short, the store and a restart still load exactly the history
    before it; the next append answers success, and from then on the file is
    corrupt and no record of it is served, after a restart too. *)
Theorem torn_append_corrupts io0 s0 ops n e t t' :
  fst (NewFileBackedTransitionStore io0 None) = Ok s0 -> Forall whole ops -> Z.of_nat (length ops) < FileTransitionCapacity ->
  let '(s, h) := run_list log_step (s0, []) ops in
  ts_openErr s = None -> (0 < n < String.length (tx_json (newPersisted (Z.of_nat (length h) + 1) t)))%nat ->
  let torn_write := MkTransitionIO None (Some (n, e)) None None None in
  let s1 := fst (FileBacked_Append torn_write s t) in
  forall s2, s2 = s1 \/ fst (NewFileBackedTransitionStore no_open_failure (ts_file s1)) = Ok s2 ->
  snd (FileBacked_Load None s2) = MkTransitionLoadResult h 0 false false None /\
  let '(s3, answer) := FileBacked_Append no_failure s2 t' in
  answer = None /\ snd (FileBacked_Load None s3) = empty_load None true /\
  exists s4, fst (NewFileBackedTransitionStore no_open_failure (ts_file s3)) = Ok s4 /\ snd (FileBacked_Load None s4) = empty_load None true.
Proof.
  intros H0 Hw Hlen. assert (Hl0 : Z.of_nat (length ops) <= max_int64) by (unfold FileTransitionCapacity, max_int64 in *; lia).
  destruct (run_inv ops 0 (s0, []) (new_inv io0 s0 H0) Hw ltac:(cbn; lia)) as (k & more & _ & Hi & Hm & Hml & _).
  destruct (run_list log_step (s0, []) ops) as [s h]. cbn [fst snd app] in *. subst more. intros Ho Hn. cbv zeta. intros s2 Hs2.
  pose proof Hi as [Hk Ht (q & Hf & _) Hmi]. destruct (Hmi Ho) as (Hc & _ & Hls). pose proof fileCap_Z.
  unfold FileTransitionCapacity in *. assert (k = 0%nat) as -> by lia. rewrite drop_0, Nat.sub_0_r in *.
  set (p := newPersisted (Z.of_nat (length h) + 1) t) in *. destruct (tx_torn p p n Hn) as (Hd & _ & Htext & _).
  assert (Hline : text_line (take_bytes n (tx_json p))) by (split; [apply take_has_byte, tx_one_line|done]).
  assert (Htake : take_bytes n (tx_json p +:+ String newline "") = take_bytes n (tx_json p)) by (apply take_front; lia).
  set (s1 := fst (FileBacked_Append _ _ _)) in *. assert (Ht1 : torn h (take_bytes n (tx_json p)) s1).
  { unfold s1, FileBacked_Append. rewrite Ho, Hls, wrap64_id by (unfold in_int64, min_int64, max_int64 in *; lia).
    cbn [ti_open ti_write fst]. rewrite Hf. cbn [from_option]. unfold id. fold p. rewrite Htake. constructor; cbn; [by exists q|done|done]. }
  assert (H2 : torn h (take_bytes n (tx_json p)) s2) by (destruct Hs2 as [->|Hs2]; [done|by eapply torn_open]).
  split; [by eapply torn_load|]. apply (torn_append h _ s2 t' H2 Ht); [unfold FileTransitionCapacity; lia|].
  intros p'. destruct (tx_torn p p' n Hn) as (_ & Hd' & _ & Ht'). split; [|done]. split; [|done].
  rewrite has_byte_append, tx_one_line, take_has_byte; [done|apply tx_one_line].
Qed.

(** ** The tracker on the file *)

#[export] Instance FileBacked_AlertTransitionStore : AlertTransitionStore FileBackedTransitionStore := {
  store_Append := FileBacked_Append no_failure;
  store_Load s := snd (FileBacked_Load None s) }.

Lemma append_all_inv es : forall k h s,
  log_inv k h s -> ts_openErr s = None -> k = (length h - fileCap)%nat ->
  Forall (fun t => time_is_zero (at_At t) = false) es -> Z.of_nat (length h) + Z.of_nat (length es) <= max_int64 ->
  log_inv (length (h ++ es) - fileCap) (h ++ es) (append_all s es) /\ ts_openErr (append_all s es) = None.
Proof.
  induction es as [|t es IH]; intros k h s Hi Ho -> Ht Hlen; [by rewrite app_nil_r|].
  apply Forall_cons in Ht as [Ht Hts]. cbn [length] in Hlen.
  destruct (append_inv _ h s no_failure t Hi ltac:(done) ltac:(lia)) as (k' & _ & Hi' & He).
  cbn [log_step fst snd] in *. unfold landed in *. rewrite Ho in *. cbn [no_failure ti_open ti_write ti_evict] in *. rewrite (He eq_refl eq_refl) in Hi'.
  assert (Ho' : ts_openErr (fst (FileBacked_Append no_failure s t)) = None).
  { unfold FileBacked_Append. rewrite Ho. cbn [no_failure ti_open ti_write ti_sync ti_close ti_evict]. cbn [with_file ts_file ts_count ts_fileDropped ts_openErr].
    destruct (FileTransitionCapacity <? _); [|done]. unfold evictLocked.
    destruct (match (if String.eqb _ "" then [] else _) with [] => _ | l :: _ => _ end) as [? ?]. by destruct (_ <=? fileCap)%nat. }
  destruct (IH _ (h ++ [t]) (fst (FileBacked_Append no_failure s t)) Hi' Ho' eq_refl Hts) as [H1 H2].
  { rewrite length_app. cbn. lia. }
  rewrite <- app_assoc in H1. done.
Qed.

Lemma edges_times f obs : Forall (fun o : AlertCondition * Time => time_is_zero (snd o) = false) obs ->
  Forall (fun t => time_is_zero (at_At t) = false) (edges f obs) /\ (length (edges f obs) <= length obs)%nat.
Proof.
  revert f. induction obs as [|[c now] obs IH]; intros f; [by split|]. intros [Hn Hns]%Forall_cons. cbn [edges].
  destruct (IH (ac_Firing c) Hns) as [H1 H2]. rewrite length_app. destruct (Bool.eqb _ _); cbn; [split; [done|lia]|].
  split; [by constructor|lia].
Qed.

(** The alert outlives its process: a tracker that has observed any stream
    of conditions on a file opened as new, and one built after a kill from the file
    it leaves, have the same alert state and the same ring; the count of evicted
    edges is the number beyond the file's capacity; and the condition in force
    records no edge when it is observed again. *)
Theorem alert_survives_restart io0 s0 obs io :
  fst (NewFileBackedTransitionStore io0 None) = Ok s0 -> ts_openErr s0 = None ->
  Forall (fun o => time_is_zero (snd o) = false) obs -> Z.of_nat (length obs) <= max_int64 ->
  oi_setup io = None -> oi_read io = None ->
  let t := run_list observe (NewAlertTrackerWithStore (Some s0)) obs in
  exists s s', at_store t = Some s /\ fst (NewFileBackedTransitionStore io (ts_file s)) = Ok s' /\
    let t' := NewAlertTrackerWithStore (Some s') in
    firing t = firing_after false obs /\ firing t' = firing t /\ transitions t' = transitions t /\ transitions t = lastn 256 (edges false obs) /\
    fileDropped t' = Z.of_nat (length (edges false obs) - fileCap) /\
    forall cond now, ac_Firing cond = firing t -> transitions (observe t' (cond, now)) = transitions t'.
Proof.
  intros H0 Ho0 Ht Hlen Hio Hr. cbv zeta. pose proof (new_inv io0 s0 H0) as Hi0. pose proof fileCap_Z as Hcap.
  pose proof (load_holds 0 [] s0 Hi0 Ho0) as Hl0. destruct (edges_times false obs Ht) as [Hte Hle].
  assert (Hcl0 : clean (store_Load s0)) by (change (clean (snd (FileBacked_Load None s0))); rewrite Hl0; split; reflexivity).
  pose proof (observe_all_tracking _ _ _ _ _ obs (new_tracking s0 Hcl0)) as Htr.
  assert (E0 : tl_Transitions (store_Load s0) = []) by (cbn; by rewrite Hl0). rewrite E0 in Htr. cbn [last_state last] in Htr.
  destruct Htr as [Hf _ Hring _ Hst]. cbn [app fmap option_fmap option_map] in Hst, Hring.
  destruct (append_all_inv (edges false obs) 0 [] s0 Hi0 Ho0 ltac:(done) Hte) as [Hi Ho]; [cbn; lia|]. cbn [app] in Hi.
  set (s := append_all s0 (edges false obs)) in *. set (k := (length (edges false obs) - fileCap)%nat) in *.
  destruct (open_inv k _ s io Hi Hio) as (s' & Eo & _ & Hi' & Ho'). specialize (Ho' Hr).
  pose proof (load_holds _ _ s' Hi' Ho') as Hl'. exists s, s'. split; [done|]. split; [by rewrite Eo|].
  assert (Hcl : clean (store_Load s')) by (change (clean (snd (FileBacked_Load None s'))); rewrite Hl'; split; reflexivity).
  pose proof (new_tracking s' Hcl) as [Hf' Hld' Hring' _ _].
  assert (E' : tl_Transitions (store_Load s') = drop k (edges false obs)) by (cbn; by rewrite Hl'). rewrite E' in Hf', Hring'.
  assert (Hlast : last (drop k (edges false obs)) = last (edges false obs)).
  { rewrite !last_lookup, lookup_drop, length_drop. destruct (decide (length (edges false obs) = 0%nat)); [f_equal; lia|]. f_equal. lia. }
  assert (H256 : Z.to_nat TransitionHistoryCapacity = 256%nat) by done. rewrite H256 in *.
  assert (Hln : lastn 256 (lastn 256 (drop k (edges false obs)) ++ []) = lastn 256 (edges false obs)).
  { rewrite app_nil_r, (lastn_all 256 (lastn 256 _)) by (rewrite lastn_length; lia).
    unfold lastn. rewrite drop_drop, length_drop. f_equal. lia. }
  rewrite Hln in Hring'. change (lastn 256 [] ++ edges false obs) with (edges false obs) in Hring.
  assert (Hff : firing (NewAlertTrackerWithStore (Some s')) = firing_after false obs).
  { rewrite Hf', firing_after_edges. unfold last_state. by rewrite Hlast. }
  split; [done|]. split; [by rewrite Hff|]. split; [by rewrite Hring', Hring|]. split; [done|]. split.
  - unfold NewAlertTrackerWithStore. cbn [store_Load FileBacked_AlertTransitionStore]. rewrite Hl'. cbn. by destruct (last (drop k _)).
  - intros cond now Hc. rewrite Hf, <- Hff in Hc. unfold observe, AlertTracker_Observe. cbn [fst snd].
    rewrite Hld', andb_false_r, Hc. by destruct (firing (NewAlertTrackerWithStore (Some s'))).
Qed.

End TransitionStore.

(** ** An instance, and witnesses

    A record is its fields between braces, metadata between brackets; a line
    reads as what writes it. *)

Definition framed (a b : ascii) (l : list string) : string := String a (foldr bfield (String b "") l).

Definition tx_fields (p : persistedTransition) : list string :=
  let flag (x : bool) := if x then "1" else "" in
  [Z_str (pt_Seq p); Z_str (at_At (pt_rec p)); flag (at_From (pt_rec p)); flag (at_To (pt_rec p));
   Z_str (at_UnknownRate (pt_rec p)); Z_str (at_Threshold (pt_rec p))].

Definition fm_fields (m : fileMetaRecord) : list string :=
  let flag (x : bool) := if x then "1" else "" in
  [flag (fm_Meta m); Z_str (fm_FileDropped m); Z_str (fm_LastSeq m); flag (fm_MetaInconsistent m)].

Definition tx_sample (p : persistedTransition) : string := framed "{" "}" (tx_fields p).
Definition fm_sample (m : fileMetaRecord) : string := framed "[" "]" (fm_fields m).

Definition same_text {A} (write : A -> string) (s : string) (x : A) : option A :=
  if String.eqb (write x) s then Some x else None.

Definition tx_unsample (s : string) : option persistedTransition :=
  match parse_fields 6 (drop_bytes 1 s) with
  | [q; t; f; g; u; h] => same_text tx_sample s
      (MkPersisted (str_Z q) (MkAlertTransition (str_Z t) (String.eqb f "1") (String.eqb g "1") (str_Z u) (str_Z h)))
  | _ => None
  end.

Definition fm_unsample (s : string) : option fileMetaRecord :=
  match parse_fields 4 (drop_bytes 1 s) with
  | [m; d; q; i] => same_text fm_sample s (MkFileMeta (String.eqb m "1") (str_Z d) (str_Z q) (String.eqb i "1"))
  | _ => None
  end.

Lemma parse_framed a b l : parse_fields (length l) (drop_bytes 1 (framed a b l)) = l.
Proof.
  change (drop_bytes 1 (framed a b l)) with (foldr bfield (String b "") l).
  induction l as [|x l IH]; [done|]. cbn [length parse_fields foldr]. rewrite parse_bfield. by f_equal.
Qed.

Lemma tx_read p : tx_unsample (tx_sample p) = Some p.
Proof.
  unfold tx_unsample. pose proof (parse_framed "{" "}" (tx_fields p)) as E. cbn [length tx_fields] in E.
  unfold tx_sample at 1. rewrite E. cbn [tx_fields]. rewrite !str_Z_str. destruct p as [q [t f g u h]]. cbn [pt_rec pt_Seq at_At at_From at_To at_UnknownRate at_Threshold].
  assert (Hf : forall x : bool, String.eqb (if x then "1" else "") "1" = x) by (by intros []). rewrite !Hf.
  unfold same_text. by rewrite String.eqb_refl.
Qed.

Lemma fm_read m : fm_unsample (fm_sample m) = Some m.
Proof.
  unfold fm_unsample. pose proof (parse_framed "[" "]" (fm_fields m)) as E. cbn [length fm_fields] in E.
  unfold fm_sample at 1. rewrite E. cbn [fm_fields]. rewrite !str_Z_str. destruct m as [x d q y]. cbn.
  assert (Hf : forall x : bool, String.eqb (if x then "1" else "") "1" = x) by (by intros []). rewrite !Hf.
  unfold same_text. by rewrite String.eqb_refl.
Qed.

Lemma unsample_text {A} (write : A -> string) s x y : same_text write s x = Some y -> write y = s.
Proof. unfold same_text. destruct (String.eqb_spec (write x) s); [by intros [= <-]|done]. Qed.

Lemma tx_unread s p : tx_unsample s = Some p -> tx_sample p = s.
Proof.
  unfold tx_unsample. destruct (parse_fields 6 (drop_bytes 1 s)) as [|q [|t [|f [|g [|u [|h [|? ?]]]]]]]; try done. apply unsample_text.
Qed.

Lemma fm_unread s m : fm_unsample s = Some m -> fm_sample m = s.
Proof.
  unfold fm_unsample. destruct (parse_fields 4 (drop_bytes 1 s)) as [|q [|t [|f [|g [|? ?]]]]]; try done. apply unsample_text.
Qed.

(** The frame of a text: its first and last bytes are nowhere else in it. *)
Lemma framed_split a b l : framed a b l = String a (foldr bfield "" l) +:+ String b "".
Proof.
  unfold framed. rewrite append_cons. f_equal. induction l as [|x l IH]; [done|]. cbn [foldr]. rewrite IH.
  clear IH. generalize (foldr bfield "" l) as r. intros r.
  induction x as [|[? ? ? ? ? ? ? ?] x IH]; [done|]. cbn [bfield]. rewrite IH. by rewrite !append_cons.
Qed.

Lemma plain_has_byte c s : plain s = true -> Ascii.eqb "0" c = false -> Ascii.eqb "1" c = false -> has_byte c s = false.
Proof.
  intros Hp H0 H1. induction s as [|a s IH]; [done|]. cbn in *. apply andb_true_iff in Hp as [Ha Hp]. rewrite (IH Hp), orb_false_r.
  by apply orb_true_iff in Ha as [->%Ascii.eqb_eq| ->%Ascii.eqb_eq].
Qed.

Lemma plain_graphic s : plain s = true -> all_graphic s = true.
Proof.
  intros Hp. induction s as [|a s IH]; [done|]. cbn [plain all_graphic] in *. apply andb_true_iff in Hp as [Ha Hp].
  rewrite (IH Hp), andb_true_r. by apply orb_true_iff in Ha as [->%Ascii.eqb_eq| ->%Ascii.eqb_eq].
Qed.

Lemma framed_graphic a b l : is_graphic a = true -> is_graphic b = true -> all_graphic (framed a b l) = true.
Proof.
  intros Ha Hb. rewrite framed_split, graphic_append. cbn [all_graphic]. by rewrite Ha, Hb, plain_graphic by apply plain_bfields.
Qed.

Lemma graphic_line s : all_graphic s = true -> s <> "" -> has_byte newline s = false /\ TrimSpace s <> "".
Proof.
  intros Hg Hs. rewrite TrimSpace_graphic by done. split; [|done]. destruct (graphic_trim s Hg) as [_ Hn].
  rewrite <- Hn. clear. induction s as [|a s IH]; [done|]. cbn. by rewrite IH.
Qed.

Lemma take_graphic n s : all_graphic s = true -> all_graphic (take_bytes n s) = true.
Proof.
  unfold take_bytes. revert n. induction s as [|a s IH]; intros [|n] Hs; try done. cbn in *. apply andb_true_iff in Hs as [-> Hs]. by apply IH.
Qed.

#[local] Instance sample_transitions : TransitionCodec.
Proof.
  refine {| tx_json := tx_sample; tx_decode := tx_unsample; fm_json := fm_sample; fm_decode := fm_unsample;
    cursor_enc s := String "c" s; cursor_dec s := match s with String _ s => Some s | EmptyString => Some "" end |}.
  - exact tx_read.
  - exact fm_read.
  - intros p m E%fm_unread. discriminate E.
  - intros p. apply graphic_line; [by apply framed_graphic|done].
  - intros m. apply graphic_line; [by apply framed_graphic|done].
  - intros m. apply graphic_line; [by apply framed_graphic|done].
  - intros p. apply graphic_line; [by apply framed_graphic|done].
  - intros p q n Hn. unfold tx_sample in *. set (F := tx_fields p) in *. set (G := tx_fields q). clearbody F G.
    assert (Hg1 : all_graphic (take_bytes n (framed "{" "}" F)) = true) by (apply take_graphic, framed_graphic; done).
    assert (Hg2 : all_graphic (take_bytes n (framed "{" "}" F) +:+ framed "{" "}" G) = true).
    { rewrite graphic_append, Hg1. by apply framed_graphic. }
    assert (Hne : exists r, take_bytes n (framed "{" "}" F) = String "{" r) by (destruct n; [lia|]; by eexists).
    destruct Hne as [r Er]. assert (Hopen : forall l, has_byte "{" (foldr bfield "" l) = false).
    { intros l. by apply plain_has_byte; [apply plain_bfields| |]. }
    split; [|split; [|split]].
    + destruct (tx_unsample _) as [p'|] eqn:E; [|done]. apply tx_unread in E. exfalso.
      assert (Hc : has_byte "}" (take_bytes n (framed "{" "}" F)) = false).
      { rewrite framed_split in *. rewrite string_length_app in Hn. cbn [String.length] in Hn.
        rewrite take_front by (cbn [String.length]; lia). apply take_has_byte. cbn. by apply plain_has_byte; [apply plain_bfields| |]. }
      rewrite <- E in Hc. unfold tx_sample in Hc. rewrite framed_split, has_byte_append in Hc. by apply orb_false_iff in Hc as [_ ?].
    + destruct (tx_unsample _) as [p'|] eqn:E; [|done]. apply tx_unread in E. exfalso. rewrite Er, append_cons in E.
      unfold tx_sample in E. rewrite !framed_split, append_cons in E. apply (f_equal (fun s => has_byte "{" (drop_bytes 1 s))) in E. cbn [drop_bytes] in E. rewrite append_cons in E. cbn [drop_bytes] in E.
      rewrite !has_byte_append, Hopen in E. cbn in E. by rewrite orb_true_r in E.
    + apply graphic_line; [done|by rewrite Er].
    + apply graphic_line; [done|by rewrite Er].
  - done.
  - done.
Defined.

Definition sample_store : FileBackedTransitionStore := MkFileStore (Some (encode 0 0 false [])) 0 0 0 None.

Definition sample_edge (at_ : Time) (up : bool) : AlertTransition := MkAlertTransition at_ (negb up) up 60 50.

(** An append, one that cannot open, one whose close fails, a restart, an append. *)
Definition sample_ops : list TransitionOp :=
  [TAppend no_failure (sample_edge 5 true);
   TAppend (MkTransitionIO (Some "EMFILE") None None None None) (sample_edge 6 false);
   TAppend (MkTransitionIO None None None (Some "EIO") None) (sample_edge 7 false);
   TRestart no_open_failure;
   TAppend no_failure (sample_edge 9 true)].

Lemma sample_opens : fst (NewFileBackedTransitionStore no_open_failure None) = Ok sample_store.
Proof. vm_compute. reflexivity. Qed.

Lemma sample_whole : Forall whole sample_ops.
Proof. repeat constructor. Qed.

Example transition_log_exact_witness :
  exists s k, run_list log_step (sample_store, []) sample_ops =
    (s, [sample_edge 5 true; sample_edge 7 false; sample_edge 9 true]) /\ k = 0%nat /\ ts_lastSeq s = 3 /\
    snd (FileBacked_Load None s) =
      MkTransitionLoadResult (drop k [sample_edge 5 true; sample_edge 7 false; sample_edge 9 true]) (Z.of_nat k) false false None.
Proof.
  pose proof (transition_log_exact no_open_failure sample_store sample_ops sample_opens sample_whole ltac:(vm_compute; discriminate)) as Hx.
  assert (E : run_list log_step (sample_store, []) sample_ops =
    (fst (run_list log_step (sample_store, []) sample_ops), [sample_edge 5 true; sample_edge 7 false; sample_edge 9 true]))
    by (vm_compute; reflexivity).
  assert (Ho : ts_openErr (fst (run_list log_step (sample_store, []) sample_ops)) = None) by (vm_compute; reflexivity).
  rewrite E in Hx. destruct Hx as (k & Hk & _ & Hl & _). destruct (Hl Ho) as [Hl1 Hl2].
  pose proof fileCap_Z. cbn [length] in Hk. assert (k = 0%nat) as -> by lia.
  exists (fst (run_list log_step (sample_store, []) sample_ops)), 0%nat. split; [exact E|]. split; [done|]. by split.
Defined.

(** Two pages of one record, an append between them, then the last. *)
Definition sample_read : ReadIO := MkReadIO None None None None.
Definition sample_turns : list (list TransitionOp * ReadIO) :=
  [([TAppend no_failure (sample_edge 11 false)], sample_read); ([], sample_read)].

Example transition_pages_exact_witness :
  exists p, browse 1 "" (run_list log_step (sample_store, []) sample_ops) (([], sample_read) :: sample_turns) =
    ([sample_edge 9 true; sample_edge 7 false; sample_edge 5 true], Some p) /\ pg_LoadErr p = None /\ pg_FileDropped p = 0.
Proof.
  pose proof (transition_pages_exact no_open_failure sample_store sample_ops 1 sample_read sample_turns sample_opens ltac:(done)
    ltac:(repeat constructor) ltac:(vm_compute; discriminate)) as Hx. cbv zeta in Hx.
  destruct (browse 1 "" (run_list log_step (sample_store, []) sample_ops) (([], sample_read) :: sample_turns)) as [ts lastp] eqn:E.
  destruct Hx as (m & Hts & Hp). vm_compute in E. injection E as <- <-.
  eexists. split; [reflexivity|]. split; [reflexivity|]. reflexivity.
Defined.

Example torn_append_corrupts_witness :
  exists s, snd (FileBacked_Load None s) = empty_load None true.
Proof.
  assert (E : run_list log_step (sample_store, []) sample_ops =
    (fst (run_list log_step (sample_store, []) sample_ops), [sample_edge 5 true; sample_edge 7 false; sample_edge 9 true]))
    by (vm_compute; reflexivity).
  pose proof (torn_append_corrupts no_open_failure sample_store sample_ops 10 "ENOSPC" (sample_edge 11 false) (sample_edge 12 false)
    sample_opens sample_whole ltac:(vm_compute; reflexivity)) as Hx. rewrite E in Hx.
  specialize (Hx ltac:(vm_compute; reflexivity) ltac:(vm_compute; lia) _ (or_introl eq_refl)) as (_ & Hx).
  destruct (FileBacked_Append _ _ _) as [s3 answer]. destruct Hx as (_ & Hx & _). by exists s3.
Defined.

Definition sample_conditions : list (AlertCondition * Time) :=
  [(MkAlertCondition true 60 50 Minute, 5); (MkAlertCondition true 70 50 Minute, 6); (MkAlertCondition false 3 50 Minute, 7);
   (MkAlertCondition true 80 50 Minute, 9)].

Example alert_survives_restart_witness :
  exists s s', at_store (run_list observe (NewAlertTrackerWithStore (Some sample_store)) sample_conditions) = Some s /\
    fst (NewFileBackedTransitionStore no_open_failure (ts_file s)) = Ok s' /\
    firing (NewAlertTrackerWithStore (Some s')) = true /\ length (transitions (NewAlertTrackerWithStore (Some s'))) = 3%nat.
Proof.
  pose proof (alert_survives_restart no_open_failure sample_store sample_conditions no_open_failure sample_opens eq_refl
    ltac:(repeat constructor) ltac:(vm_compute; discriminate) eq_refl eq_refl) as (s & s' & Hs & Ho & Hf & Hf' & Ht & Hl & _).
  exists s, s'. split; [exact Hs|]. split; [exact Ho|]. rewrite Hf', Hf, Ht, Hl. split; vm_compute; reflexivity.
Defined.
