(* ===== verification/SignedLog.v ===== *)
(** * Logs of entries

    What the append-only logs of the control plane share: a log holds one entry
    to a line, each entry its own group; how such a file reads, grows and is
    compacted. The acceptance ledger, the key life cycle and the other evidence
    logs instantiate it. *)

From Stdlib Require Import Ascii.
From S2P Require Import Prelude GoStrings Manifest AppendLog Ledger.

(** The JSON of an entry is one line of text without space around it, and is
    read back if its strings are valid UTF-8 ([text]). *)
Class LineCodec (E : Type) (text : E -> bool) := {
  line_json : E -> string;
  line_decode : string -> option E;
  line_single e : has_newline (line_json e) = false;
  line_nonblank e : line_json e <> "";
  line_bare e : TrimSpace (line_json e +:+ String newline "") = line_json e;
  line_roundtrip e : text e = true -> line_decode (line_json e) = Some e }.

Section SignedLog.
Context {E : Type} {text : E -> bool} {codec : LineCodec E text} (group : E -> Z).

Definition groupOf (raw : string) : Z * bool :=
  match line_decode raw with None => (0, false) | Some e => (group e, true) end.

Definition serialize (e : E) : string := line_json e +:+ String newline "".

Definition decode_lines (lines : list logLine) : option (list E) := mapM (fun l => line_decode (ll_raw l)) lines.

(** ** A log on disk *)

Definition fits (e : E) : Prop := text e = true /\ Z.of_nat (String.length (line_json e)) < max_token.

Definition fitsb (e : E) : bool := text e && (Z.of_nat (String.length (line_json e)) <? max_token).

Lemma fitsb_fits (l : list E) : forallb fitsb l = true -> Forall fits l.
Proof.
  intros Hl. apply Forall_forall. intros e He. rewrite forallb_forall in Hl. apply list_elem_of_In in He. specialize (Hl e He).
  unfold fitsb in Hl. apply andb_true_iff in Hl as [Hu Hz%Z.ltb_lt]. by split.
Qed.

Definition entry_line (e : E) : logLine := classify_line groupOf (line_json e).

Definition disk_bytes (es : list E) : string := lines_bytes (map entry_line es).

Record log_on (d : LogDisk) (es : list E) : Prop := MkLogOn {
  lo_file : default (MkLogFile "" 0) (ld_log d) = synced (disk_bytes es);
  lo_fits : Forall fits es }.

Definition log_size (d : LogDisk) : Z := Z.of_nat (String.length (default "" (lf_data <$> ld_log d))).

Lemma log_on_empty d : ld_log d = None -> log_on d [].
Proof. intros Hd. split; [by rewrite Hd|apply Forall_nil_2]. Qed.

Lemma entry_line_ok e : fits e -> line_ok groupOf (entry_line e).
Proof.
  intros [_ Hl]. split; cbn; [rewrite <- (line_bare e); apply TrimSpace_idem|apply line_nonblank|apply line_single|done|done].
Qed.

Lemma entry_line_group e : fits e -> ll_group (entry_line e) = group e /\ ll_classified (entry_line e) = true.
Proof. intros [Hu _]. cbn. unfold groupOf. by rewrite line_roundtrip. Qed.

Lemma entry_lines es : Forall fits es ->
  Forall (line_ok groupOf) (map entry_line es) /\ map ll_group (map entry_line es) = map group es /\
  forallb ll_classified (map entry_line es) = true /\ decode_lines (map entry_line es) = Some es.
Proof.
  induction 1 as [|e es He _ (IH1 & IH2 & IH3 & IH4)]; [done|]. destruct (entry_line_group e He) as [Hg Hc].
  cbn [map forallb]. split; [constructor; [by apply entry_line_ok|done]|]. rewrite Hg, Hc, IH2. split; [done|]. split; [done|].
  unfold decode_lines in *. cbn [mapM]. cbn. destruct He as [Hu _]. rewrite line_roundtrip by done. cbn. by rewrite IH4.
Qed.

Lemma log_on_log d es : log_on d es -> ld_log d = None /\ es = [] \/ ld_log d = Some (synced (disk_bytes es)).
Proof.
  intros [Hf _]. destruct (ld_log d) as [f|]; cbn in Hf; [right; by f_equal|left]. split; [done|].
  unfold synced in Hf. injection Hf as Hb. destruct es as [|e es]; [done|]. unfold disk_bytes in Hb. cbn in Hb.
  symmetry in Hb. apply (f_equal String.length) in Hb. unfold line_bytes in Hb. rewrite !string_length_app in Hb. cbn in Hb. lia.
Qed.

Lemma log_on_size d es : log_on d es -> log_size d = Z.of_nat (String.length (disk_bytes es)).
Proof. intros Hd. unfold log_size. by destruct (log_on_log _ _ Hd) as [[-> ->]| ->]. Qed.

Lemma log_on_read io d es : log_on d es -> io_read io = None -> readLogLines io groupOf d = Ok (map entry_line es, true).
Proof.
  intros Hd Hio. pose proof (lo_fits _ _ Hd) as Hf. destruct (entry_lines es Hf) as (Hok & _ & Hc & _).
  destruct (log_on_log _ _ Hd) as [[Hl ->]|Hl]; [by unfold readLogLines; rewrite Hl|].
  destruct d as [lg tmp]. cbn in Hl. subst lg. rewrite (read_written io groupOf _ tmp (map entry_line es)); try done. by rewrite Hc.
Qed.

(** A read is of all of it, or an error. *)
Lemma log_on_reads io d es : log_on d es ->
  readLogLines io groupOf d = Ok (map entry_line es, true) \/ exists e, readLogLines io groupOf d = Err e /\ io_read io = Some e.
Proof.
  intros Hd. destruct (io_read io) as [e|] eqn:Hio; [|left; by apply log_on_read].
  destruct (log_on_log _ _ Hd) as [[Hl ->]|Hl]; [left; by unfold readLogLines; rewrite Hl|].
  right. exists e. unfold readLogLines. by rewrite Hl, Hio.
Qed.

Lemma disk_bytes_app a b : disk_bytes (a ++ b) = disk_bytes a +:+ disk_bytes b.
Proof.
  unfold disk_bytes, lines_bytes. rewrite map_app, foldr_app. induction (map entry_line a) as [|l ls IH]; [done|]. cbn [foldr].
  by rewrite IH, append_assoc.
Qed.

Lemma disk_bytes_snoc es e : disk_bytes (es ++ [e]) = disk_bytes es +:+ line_json e +:+ String newline "".
Proof. rewrite disk_bytes_app. unfold disk_bytes at 2. cbn. unfold line_bytes. cbn. by rewrite append_nil_r. Qed.

Lemma disk_bytes_pos es : es <> [] -> (0 < String.length (disk_bytes es))%nat.
Proof.
  destruct es as [|e es]; [done|]. intros _. unfold disk_bytes. cbn. unfold line_bytes. rewrite !string_length_app. cbn. lia.
Qed.

(** What fails writes nothing: an append may fail when the file is opened, or with
    a write that leaves no byte there. [appendLogLine] can also fail with a part of
    the line in the file, or, in the sync or the close, with all of it. The histories
    of the signed logs leave these out; [lifecycle_append_fails],
    [destruction_append_fails] and [verification_append_fails] show what they do: the
    log is refused from then on, or has an entry that was answered with an error. *)
Definition clean_io (io : LogIO) : Prop :=
  io_sync io = None /\ io_close io = None /\ from_option (fun w => fst w = 0%nat) True (io_write io).

Lemma log_on_append io d es e states err :
  log_on d es -> clean_io io -> appendLogLine io d (serialize e) = (states, err) ->
  match err with
  | Some _ => log_on (final d states) es
  | None => fits e -> log_on (final d states) (es ++ [e])
  end.
Proof.
  intros Hd (Hsy & Hcl & Hw) Ha. pose proof (lo_file _ _ Hd) as Hfile. unfold appendLogLine, serialize in Ha.
  rewrite line_bare, (proj2 (String.eqb_neq _ _) (line_nonblank e)), Hsy, Hcl in Ha.
  destruct (io_open io); [by simplify_eq|]. rewrite Hfile in Ha. destruct (io_write io) as [[n er]|].
  - cbn in Hw. subst n. simplify_eq. split; [|by destruct Hd]. cbn. unfold synced. f_equal.
    assert (Hz : forall u, take_bytes 0 u = "") by (by intros []). by rewrite Hz, append_nil_r.
  - simplify_eq. intros Hf. split; [cbn; by rewrite disk_bytes_snoc|]. apply Forall_app_2; [exact (lo_fits _ _ Hd)|by constructor].
Qed.

(** Dropping the oldest entries: a compaction leaves the log alone or keeps the
    newest [keep] entries. *)
Lemma log_on_compact {W} io d (w : W) es keep observe states w' err :
  log_on d es -> NoDup (map group es) -> 0 < keep ->
  compactLogPrefixGroupsObserved io d w keep groupOf observe = (states, w', err) ->
  log_on (final d states) es /\ (err = None -> Z.of_nat (length es) <= keep) \/
  log_on (final d states) (lastn (Z.to_nat keep) es).
Proof.
  intros Hd Hn Hk Hcomp. destruct (log_on_reads io d es Hd) as [Hread|(er & Hread & _)].
  2: { unfold compactLogPrefixGroupsObserved in Hcomp. rewrite Hread in Hcomp. destruct (Z.leb_spec keep 0); [lia|]. simplify_eq. by left. }
  pose proof (lo_fits _ _ Hd) as Hf. destruct (entry_lines es Hf) as (_ & Hg & _ & _).
  destruct (compaction_result _ _ _ _ _ _ _ _ _ _ Hcomp Hk Hread) as (_ & _ & Hres). rewrite plan_single in Hres by (done || by rewrite Hg).
  assert (Hl : lastn (Z.to_nat keep) (map entry_line es) = map entry_line (lastn (Z.to_nat keep) es)).
  { unfold lastn. by rewrite length_map, skipn_map. }
  rewrite Hl in Hres. destruct Hres as [[Hsame Hall]|Hnew].
  - left. split; [split; [by rewrite Hsame; apply Hd|done]|]. intros E0. specialize (Hall E0).
    apply (f_equal length) in Hall. rewrite !length_map, lastn_length in Hall. lia.
  - right. split; [by rewrite Hnew|]. unfold lastn. by apply Forall_drop.
Qed.

End SignedLog.

(** ** Windows of sequences *)

(** The smallest and the largest sequence, their number, and whether each
    follows the one before. *)
Record logWindow : Type := MkWindow { lw_Min : Z; lw_Max : Z; lw_Entries : Z; lw_Continuous : bool }.

Fixpoint consecutive (seqs : list Z) : bool :=
  match seqs with x :: (y :: _) as l => (y =? x + 1) && consecutive l | _ => true end.

Definition window_of (seqs : list Z) : logWindow :=
  match seqs with
  | [] => MkWindow 0 0 0 false
  | x :: l => MkWindow (foldl Z.min x l) (foldl Z.max x l) (Z.of_nat (length seqs)) (consecutive seqs)
  end.

Lemma window_seq k n : (0 < n)%nat -> window_of (map Z.of_nat (seq (S k) n)) = MkWindow (Z.of_nat k + 1) (Z.of_nat (k + n)) (Z.of_nat n) true.
Proof.
  intros Hn. destruct n as [|n]; [lia|]. clear Hn. cbn [seq map window_of].
  assert (Hc : forall m j, consecutive (map Z.of_nat (seq j m)) = true).
  { induction m as [|m IH]; intros j; [done|]. destruct m as [|m]; [done|].
    change (consecutive (map Z.of_nat (seq j (S (S m))))) with ((Z.of_nat (S j) =? Z.of_nat j + 1) && consecutive (map Z.of_nat (seq (S j) (S m)))).
    rewrite IH, andb_true_r. apply Z.eqb_eq. lia. }
  assert (Hb : forall m j x, x < Z.of_nat j -> foldl Z.min x (map Z.of_nat (seq j m)) = x /\
    foldl Z.max x (map Z.of_nat (seq j m)) = if (m =? 0)%nat then x else Z.of_nat (j + m - 1)).
  { induction m as [|m IH]; intros j x Hx; [done|]. cbn [seq map foldl]. rewrite Z.min_l, Z.max_r by lia.
    destruct (IH (S j) x ltac:(lia)) as [-> _]. destruct (IH (S j) (Z.of_nat j) ltac:(lia)) as [_ ->]. split; [done|].
    destruct m as [|m]; cbn [Nat.eqb]; f_equal; lia. }
  destruct (Hb n (S (S k)) (Z.of_nat (S k)) ltac:(lia)) as [-> ->].
  pose proof (Hc (S n) (S k)) as Hcc. cbn [seq map] in Hcc. rewrite Hcc. f_equal; [lia| |cbn [length]; rewrite length_map, length_seq; lia].
  destruct n; cbn [Nat.eqb]; lia.
Qed.

Lemma nodup_seq k n : NoDup (map Z.of_nat (seq k n)).
Proof. apply (NoDup_fmap_2 Z.of_nat), NoDup_seq. Qed.

(** ** Entries signed by the key authority *)

Section Signatures.
Context `{ManifestCrypto}.

(** The key authority: its signing half and its verifying half. *)
Record keyAuthority : Type := MkKeyAuthority { ka_signer : option exportSigner; ka_trust : option exportTrustStore }.

Definition ka_writable (ka : option keyAuthority) : bool :=
  match ka with Some (MkKeyAuthority (Some _) (Some _)) => true | _ => false end.

Definition ka_verifiable (ka : option keyAuthority) : bool :=
  match ka with Some (MkKeyAuthority _ (Some t)) => bool_decide (ts_keys t <> ∅) | _ => false end.

(** The signature block of [payload]; [none] and [bad] are the texts of the
    errors. *)
Definition sign_block (none bad : error) (s : option exportSigner) (payload at_ : string) : result error signatureBlock :=
  match s with
  | None => Err none
  | Some s =>
      if negb (es_priv_size s) then Err bad
      else Ok (MkSignature signatureAlgEd25519 (es_keyID s) (base64_Encode (Sign (es_priv s) payload)) at_)
  end.

(** The verdict on a block over [payload] of an entry that names [authority];
    [kind] and [noun] are the words of the texts, [absentID] the key reported for
    an entry without a block. *)
Definition verify_block (kind noun absentID authority payload : string) (sig : option signatureBlock) (trust : option exportTrustStore)
  : SignatureVerdict :=
  match sig with
  | None => MkSignatureVerdict sigVerdictAbsent absentID (kind +:+ " " +:+ noun +:+ " carries no signature")
  | Some sb =>
      let verdict v detail := MkSignatureVerdict v (sb_KeyID sb) detail in
      if String.eqb (sb_Alg sb) "" || String.eqb (sb_KeyID sb) "" || String.eqb (sb_Sig sb) "" || String.eqb (sb_SignedAt sb) ""
      then verdict sigVerdictMalformed (kind +:+ " signature block is incomplete")
      else match base64_Decode (sb_Sig sb) with
        | None => verdict sigVerdictMalformed (kind +:+ " signature is not valid base64")
        | Some rawSig =>
            let keys := match trust with Some t => ts_keys t | None => ∅ end in
            if decide (keys = ∅) then verdict sigVerdictKeyUnknown "no trusted key-authority keys are configured"
            else match keys !! sb_KeyID sb with
              | None => verdict sigVerdictKeyUnknown (kind +:+ " authority_key_id is not in the trusted KAK set")
              | Some pub =>
                  if negb (String.eqb authority "") && negb (String.eqb authority (sb_KeyID sb))
                  then verdict sigVerdictMalformed (kind +:+ " authority_key_id disagrees with the signing key id")
                  else if negb (Verify pub payload rawSig)
                  then verdict sigVerdictInvalid (kind +:+ " signature does not verify against the trusted KAK")
                  else verdict sigVerdictOK ""
              end
        end
  end.

(** What the authority signs verifies. *)
Lemma sign_verifies kind noun absentID none bad signer trust payload at_ sb :
  sign_block none bad (Some signer) payload at_ = Ok sb -> ts_keys trust !! es_keyID signer = Some (Public (es_priv signer)) ->
  es_keyID signer <> "" -> at_ <> "" ->
  verify_block kind noun absentID (es_keyID signer) payload (Some sb) (Some trust) = MkSignatureVerdict sigVerdictOK (es_keyID signer) "".
Proof.
  unfold sign_block. destruct (es_priv_size signer); [|done]. cbn [negb]. intros [= <-] Htr Hk Hat.
  unfold verify_block. cbn [sb_Alg sb_KeyID sb_Sig sb_SignedAt].
  rewrite (proj2 (String.eqb_neq _ _) Hk), (proj2 (String.eqb_neq _ _) (sign_nonempty _ _)), (proj2 (String.eqb_neq _ _) Hat).
  cbn [orb String.eqb signatureAlgEd25519]. rewrite base64_roundtrip.
  rewrite decide_False by (intros E; by rewrite E, lookup_empty in Htr). rewrite Htr, String.eqb_refl, andb_false_r.
  by rewrite verify_sign.
Qed.

End Signatures.

(** ** Chains of entries

    Good entries, numbered one after the other from [k], each naming the digest
    of the one before. *)

Section Chains.
Context {E : Type} (seqno : E -> Z) (prev digest : E -> string) (good : E -> Prop).

Record chained (k : nat) (es : list E) : Prop := MkChained {
  ch_good : Forall good es;
  ch_seqs : map seqno es = map Z.of_nat (seq (S k) (length es));
  ch_links i e e' : es !! i = Some e -> es !! S i = Some e' -> prev e' = digest e }.

Definition last_digest (es : list E) : string := from_option digest "" (last es).

Lemma last_digest_snoc es e : last_digest (es ++ [e]) = digest e.
Proof. unfold last_digest. by rewrite last_snoc. Qed.

Lemma last_digest_drop k h : (k < length h)%nat -> last_digest (drop k h) = last_digest h.
Proof. intros Hk. unfold last_digest. rewrite !last_lookup, lookup_drop, length_drop. do 2 f_equal. lia. Qed.

Lemma chained_nil k : chained k [].
Proof. split; [apply Forall_nil_2|done|done]. Qed.

Lemma chained_prefix k es e : chained k (es ++ [e]) -> chained k es.
Proof.
  intros [Hg Hs Hl]. split.
  - by apply Forall_app in Hg as [Hg _].
  - rewrite map_app, length_app in Hs. cbn [length] in Hs. rewrite seq_app, map_app in Hs. by apply app_inj_tail in Hs as [Hs _].
  - intros i a b Ha Hb. eapply (Hl i); by apply lookup_app_l_Some.
Qed.

Lemma chained_last k es e : chained k (es ++ [e]) ->
  good e /\ seqno e = Z.of_nat (S k + length es) /\ (es <> [] -> prev e = last_digest es).
Proof.
  intros [Hg Hs Hl]. apply Forall_app in Hg as [_ Hg]. apply Forall_cons in Hg as [Hg _]. split; [done|]. split.
  - rewrite map_app, length_app in Hs. cbn [length] in Hs. rewrite seq_app, map_app in Hs. by apply app_inj_tail in Hs as [_ Hs].
  - intros Hne. destruct es as [|x es _] using rev_ind; [done|]. rewrite last_digest_snoc.
    apply (Hl (length es)); rewrite <- app_assoc; cbn.
    + by rewrite list_lookup_middle.
    + rewrite lookup_app_r by lia. by replace (S (length es) - length es)%nat with 1%nat by lia.
Qed.

Lemma chained_extend k es e : chained k es -> good e -> seqno e = Z.of_nat (S k + length es) ->
  (es <> [] -> prev e = last_digest es) -> chained k (es ++ [e]).
Proof.
  intros [Hg Hs Hl] He Hq Hp. split.
  - apply Forall_app. by repeat constructor.
  - rewrite map_app, length_app. cbn [length]. rewrite seq_app, map_app, Hs. cbn. by rewrite Hq.
  - intros i a b Ha Hb. apply lookup_snoc_Some in Hb as [[Hi Hb]|[Hi <-]].
    + rewrite lookup_app_l in Ha by (apply lookup_lt_Some in Hb; lia). by eapply Hl.
    + rewrite lookup_app_l in Ha by lia. rewrite Hp by (by intros ->). unfold last_digest. rewrite last_lookup, <- Hi. cbn. by rewrite Ha.
Qed.

Lemma chained_snoc k es e : chained k es -> good e -> seqno e = Z.of_nat (S k + length es) -> prev e = last_digest es -> chained k (es ++ [e]).
Proof. intros Hc He Hq Hp. by apply chained_extend. Qed.

(** The last entry gives way to one in its place. *)
Lemma chained_replace k es e e' : chained k (es ++ [e]) -> good e' -> seqno e' = seqno e -> prev e' = prev e -> chained k (es ++ [e']).
Proof.
  intros Hc He Hq Hp. destruct (chained_last _ _ _ Hc) as (_ & Hs & Hl). apply chained_extend; [by eapply chained_prefix|done|congruence|].
  intros Hne. rewrite Hp. by apply Hl.
Qed.

Lemma chained_drop k n es : chained k es -> chained (k + n) (drop n es).
Proof.
  intros [Hg Hs Hl]. split.
  - by apply Forall_drop.
  - rewrite <- skipn_map, Hs, skipn_map, length_drop. f_equal. destruct (Nat.le_gt_cases n (length es)).
    + replace (length es) with (n + (length es - n))%nat at 1 by lia. rewrite seq_app, drop_app_length' by by rewrite length_seq.
      done.
    + rewrite skipn_all2 by (rewrite length_seq; lia). by replace (length es - n)%nat with 0%nat by lia.
  - intros i a b. rewrite !lookup_drop. replace (n + S i)%nat with (S (n + i)) by lia. apply Hl.
Qed.

Lemma chained_bound k es q : chained k es -> q ∈ map seqno es -> Z.of_nat k < q <= Z.of_nat (k + length es).
Proof. intros [_ -> _] Hq. apply list_elem_of_In, in_map_iff in Hq as (n & <- & Hn%in_seq). lia. Qed.

Lemma chained_fresh k es e : chained k (es ++ [e]) -> seqno e ∉ map seqno es.
Proof.
  intros Hc Hin. destruct (chained_last _ _ _ Hc) as (_ & Hq & _).
  pose proof (chained_bound _ _ _ (chained_prefix _ _ _ Hc) Hin). lia.
Qed.

Lemma chained_nodup k es : chained k es -> NoDup (map seqno es).
Proof. intros [_ -> _]. apply nodup_seq. Qed.

End Chains.

(** ** Chains on disk

    What an append and a compaction keep, where [h] has been appended and the log
    has dropped its first [k]: with a capacity [cap], never more than that leaves
    [cap] of them. *)

Section Growing.
Context {E : Type} {text : E -> bool} {codec : LineCodec E text} (seqno : E -> Z) (prev digest : E -> string) (good : E -> Prop) (cap : Z).

Record chain_on (k : nat) (h : list E) (d : LogDisk) : Prop := MkChainOn {
  co_chain : chained seqno prev digest good 0 h;
  co_k : (h = [] /\ k = 0 \/ k < length h)%nat;
  co_keep : k = 0%nat \/ 0 < cap /\ Z.of_nat k + cap <= Z.of_nat (length h);
  co_disk : log_on seqno d (drop k h) }.

Lemma chain_on_start d : ld_log d = None -> chain_on 0 [] d.
Proof. intros Hd. split; [apply chained_nil|by left|by left|by apply log_on_empty]. Qed.

Lemma chain_on_survivors k h d : chain_on k h d -> chained seqno prev digest good k (drop k h).
Proof. intros [Hc _ _ _]. by pose proof (chained_drop _ _ _ _ _ k _ Hc). Qed.

Lemma chain_on_snoc k h d d' e : chain_on k h d -> log_on seqno d' (drop k h ++ [e]) ->
  good e -> seqno e = Z.of_nat (S (length h)) -> prev e = last_digest digest h -> chain_on k (h ++ [e]) d'.
Proof.
  intros [Hc Hk Hkeep _] Hd' Hg Hq Hp. split; [by apply chained_snoc|right; rewrite length_app; cbn; lia| |].
  - rewrite length_app. cbn. destruct Hkeep; [by left|right; lia].
  - rewrite drop_app_le by (destruct Hk as [[-> ->]|]; cbn; lia). done.
Qed.

Lemma chain_on_compact {W} io k h d (w : W) observe states w' err : chain_on k h d -> 0 < cap ->
  compactLogPrefixGroupsObserved io d w cap (groupOf seqno) observe = (states, w', err) ->
  exists k', (k <= k')%nat /\ chain_on k' h (final d states).
Proof.
  intros Hon Hcap Hcomp. pose proof (chained_nodup _ _ _ _ _ _ (chain_on_survivors _ _ _ Hon)) as Hn. destruct Hon as [Hc Hk Hkeep Hd].
  destruct (log_on_compact seqno io d w _ cap observe states w' err Hd Hn Hcap Hcomp) as [[Hs _]|Hnew]; [by exists k|].
  unfold lastn in Hnew. rewrite drop_drop, length_drop in Hnew. exists (k + (length h - k - Z.to_nat cap))%nat. split; [lia|].
  split; [done| | |done]; destruct Hk as [[-> ->]|Hk]; cbn [length] in *; [by left|right; lia|by left|].
  destruct (decide (length h - k - Z.to_nat cap = 0)%nat) as [->|]; [rewrite Nat.add_0_r; done|right; lia].
Qed.

End Growing.

(** ** Instances

    An entry is its fields, one after the other: a field is its bytes, each a "."
    and the byte, or a "1" and eight bits if it does not show, and a "0" at the
    end. A digest is a short checksum. *)

Definition cbyte (x : ascii) (rest : string) : string :=
  if is_graphic x then String "." (String x rest)
  else match x with
  | Ascii a b c d e f g h =>
      String "1" (String (bit a) (String (bit b) (String (bit c) (String (bit d) (String (bit e)
        (String (bit f) (String (bit g) (String (bit h) rest))))))))
  end.

Fixpoint cfield (s rest : string) : string :=
  match s with
  | EmptyString => String "0" rest
  | String x s' => cbyte x (cfield s' rest)
  end.

Definition pack (l : list string) : string := foldr cfield "" l.

Fixpoint parse_cfield (s : string) : option (string * string) :=
  match s with
  | String "0" rest => Some ("", rest)
  | String "." (String a s') => match parse_cfield s' with Some (x, rest) => Some (String a x, rest) | None => None end
  | String "1" (String a (String b (String c (String d (String e (String f (String g (String h s')))))))) =>
      match parse_cfield s' with
      | Some (x, rest) =>
          Some (String (Ascii (unbit a) (unbit b) (unbit c) (unbit d) (unbit e) (unbit f) (unbit g) (unbit h)) x, rest)
      | None => None
      end
  | _ => None
  end.

Fixpoint parse_cfields (fuel : nat) (s : string) : list string :=
  match fuel with
  | O => []
  | S fuel => match parse_cfield s with Some (x, rest) => x :: parse_cfields fuel rest | None => [] end
  end.

Lemma parse_cfield_cfield s rest : parse_cfield (cfield s rest) = Some (s, rest).
Proof.
  induction s as [|x s IH]; [done|]. cbn [cfield]. unfold cbyte. destruct (is_graphic x); [cbn; by rewrite IH|].
  destruct x as [a b c d e f g h]. cbn. rewrite IH. by destruct a, b, c, d, e, f, g, h.
Qed.

Lemma parse_cfields_pack l n : (length l < n)%nat -> parse_cfields n (pack l) = l.
Proof.
  revert n. induction l as [|x l IH]; intros [|n] Hn; cbn in Hn; try lia; [done|].
  cbn [parse_cfields pack foldr]. fold (pack l). rewrite parse_cfield_cfield, IH by lia. done.
Qed.

Lemma graphic_pack l : all_graphic (pack l) = true.
Proof.
  assert (Hb : forall x r, all_graphic (cbyte x r) = all_graphic r).
  { intros x r. unfold cbyte. destruct (is_graphic x) eqn:E; [cbn [all_graphic]; by rewrite E|]. destruct x as [a b c d e f g h].
    by destruct a, b, c, d, e, f, g, h. }
  assert (Hf : forall s r, all_graphic (cfield s r) = all_graphic r).
  { induction s as [|x s IH]; intros r; [done|]. cbn [cfield]. by rewrite Hb, IH. }
  induction l as [|x l IH]; [done|]. cbn [pack foldr]. by rewrite Hf.
Qed.

Lemma pack_length l : (length l <= String.length (pack l))%nat.
Proof.
  assert (Hb : forall s r, (S (String.length r) <= String.length (cfield s r))%nat).
  { induction s as [|x s IHs]; intros r; cbn [cfield String.length]; [lia|]. specialize (IHs r). unfold cbyte.
    destruct (is_graphic x); [|destruct x]; cbn [String.length]; lia. }
  induction l as [|x l IH]; [cbn; lia|]. cbn [pack foldr length]. fold (pack l). specialize (Hb x (pack l)). lia.
Qed.

Definition unpack (s : string) : list string := parse_cfields (S (String.length s)) s.

Lemma unpack_pack l : unpack (pack l) = l.
Proof. apply parse_cfields_pack. pose proof (pack_length l). lia. Qed.

Definition fields_codec {E : Type} {text : E -> bool} (flds : E -> list string) (unflds : list string -> option E)
  (back : forall e, unflds (flds e) = Some e) (some : forall e, flds e <> []) : LineCodec E text.
Proof.
  refine {| line_json e := pack (flds e); line_decode s := unflds (unpack s) |}.
  - intros e. exact (proj2 (graphic_trim _ (graphic_pack _))).
  - intros e E0. pose proof (pack_length (flds e)) as Hl. rewrite E0 in Hl. specialize (some e). by destruct (flds e); cbn in Hl; [|lia].
  - intros e. exact (proj1 (graphic_trim _ (graphic_pack _))).
  - intros e _. by rewrite unpack_pack.
Defined.

Definition mix (x y z : ascii) : ascii :=
  match x, y, z with
  | Ascii x0 x1 x2 x3 x4 x5 x6 x7, Ascii y0 y1 y2 y3 y4 y5 y6 y7, Ascii z0 z1 z2 z3 z4 z5 z6 z7 =>
      Ascii (xorb x0 (xorb y1 z0)) (xorb x1 (xorb y2 z1)) (xorb x2 (xorb y3 z2)) (xorb x3 (xorb y4 z3)) (xorb x4 (xorb y5 z4))
        (xorb x5 (xorb y6 z5)) (xorb x6 (xorb y7 z6)) (xorb x7 (xorb y0 (negb z7)))
  end.

Fixpoint checksum (a b c d e f : ascii) (s : string) : string :=
  match s with
  | EmptyString => String a (String b (String c (String d (String e (String f "")))))
  | String x s' => checksum b c d e f (mix a f x) s'
  end.

Definition short_digest (s : string) : string := checksum "a" "b" "c" "d" "e" "f" s.

Definition checksum_crypto : ManifestCrypto.
Proof.
  refine {| PrivKey := string; PubKey := string; Public k := k; Sign k p := k +:+ hex_EncodeToString (short_digest p);
    Verify k p raw := String.eqb raw (k +:+ hex_EncodeToString (short_digest p)); Sum256 := short_digest;
    base64_Encode s := String "="%char s;
    base64_Decode s := match s with String _ s' => Some s' | EmptyString => None end;
    manifest_json m := fields (manifest_fields m) |}.
  - intros k p. apply String.eqb_refl.
  - done.
  - done.
  - intros m1 m2 _ _ E. by apply manifest_fields_inj, fields_inj.
Defined.

Definition kak : exportSigner := MkSigner (H := checksum_crypto) "root" true "kak-1".
Definition kak_trust : exportTrustStore := MkTrust (H := checksum_crypto) {[ "kak-1" := "root" ]}.
Definition io_open_fails : LogIO := MkLogIO None (Some "EMFILE") None None None None None None None None None.
Definition io_sync_fails : LogIO := MkLogIO None None None (Some "EIO") None None None None None None None.
