(* ===== verification/GoTime.v ===== *)
(** * Instants as text

    [time.Parse] with the layout [time.RFC3339Nano], as the Standard Library of
    Go reads it: a fraction of any length is truncated to nanoseconds, an hour may
    have one digit, an offset may be of 24 hours. An instant is the nanoseconds
    since the first of January of the year 1 (the zero time). *)

From Stdlib Require Import Ascii.
From S2P Require Import Prelude GoStrings.

Definition digit (a : ascii) : option Z :=
  if is_digit a then Some (Z.of_N (N_of_ascii a) - 48) else None.

(** [getnum]: two digits, or one where that is allowed. *)
Definition getnum (fixed : bool) (s : string) : option (Z * string) :=
  match s with
  | String a rest =>
      match digit a with
      | None => None
      | Some x =>
          match rest with
          | String b rest' =>
              match digit b with
              | Some y => Some (10 * x + y, rest')
              | None => if fixed then None else Some (x, rest)
              end
          | EmptyString => if fixed then None else Some (x, "")
          end
      end
  | EmptyString => None
  end.

Definition skip (c : ascii) (s : string) : option string :=
  match s with String a s' => if Ascii.eqb a c then Some s' else None | EmptyString => None end.

Fixpoint span_digits (s : string) : list Z * string :=
  match s with
  | String a s' => match digit a with Some x => let '(l, r) := span_digits s' in (x :: l, r) | None => ([], s) end
  | EmptyString => ([], "")
  end.

(** The value of the first [n] digits, zeros for those that are not there. *)
Fixpoint scaled (n : nat) (acc : Z) (l : list Z) : Z :=
  match n with
  | O => acc
  | S n => match l with x :: l => scaled n (10 * acc + x) l | [] => scaled n (10 * acc) [] end
  end.

Definition parse_fraction (s : string) : Z * string :=
  match s with
  | String a (String b _ as s') =>
      if (Ascii.eqb a "." || Ascii.eqb a ",") && is_digit b then
        let '(l, r) := span_digits s' in (scaled 9 0 l, r)
      else (0, s)
  | _ => (0, s)
  end.

(** The offset in seconds; nothing may follow. *)
Definition parse_zone (s : string) : option Z :=
  match s with
  | String "Z" EmptyString => Some 0
  | String sign (String h1 (String h2 (String ":" (String m1 (String m2 EmptyString))))) =>
      match digit h1, digit h2, digit m1, digit m2 with
      | Some a, Some b, Some c, Some d =>
          let hr := 10 * a + b in
          let mm := 10 * c + d in
          if (24 <? hr) || (60 <? mm) then None
          else if Ascii.eqb sign "+" then Some ((hr * 60 + mm) * 60)
          else if Ascii.eqb sign "-" then Some (- ((hr * 60 + mm) * 60)) else None
      | _, _, _, _ => None
      end
  | _ => None
  end.

Definition leap (y : Z) : bool := (y mod 4 =? 0) && (negb (y mod 100 =? 0) || (y mod 400 =? 0)).

Definition days_in (month year : Z) : Z :=
  if month =? 2 then (if leap year then 29 else 28)
  else if (month =? 4) || (month =? 6) || (month =? 9) || (month =? 11) then 30 else 31.

(** Days from the first of January of the year 1. *)
Definition days_to (year month day : Z) : Z :=
  let y := year - 1 in
  365 * y + y / 4 - y / 100 + y / 400 +
  foldl (fun n m => n + (if m <? month then days_in m year else 0)) 0 [1; 2; 3; 4; 5; 6; 7; 8; 9; 10; 11; 12] + (day - 1).

#[local] Notation "'let*' x := a 'in' b" := (match a with Some x => b | None => None end)
  (at level 10, x pattern, b at level 200).

Definition parse_instant (s : string) : option Time :=
  let* (y1, s) := getnum true s in
  let* (y2, s) := getnum true s in
  let* s := skip "-" s in
  let* (month, s) := getnum true s in
  let* s := skip "-" s in
  let* (day, s) := getnum true s in
  let* s := skip "T" s in
  let* (hour, s) := getnum false s in
  let* s := skip ":" s in
  let* (minute, s) := getnum true s in
  let* s := skip ":" s in
  let* (second, s) := getnum true s in
  let '(nano, s) := parse_fraction s in
  let* zone := parse_zone s in
  let year := 100 * y1 + y2 in
  if (1 <=? month) && (month <=? 12) && (hour <? 24) && (minute <? 60) && (second <? 60) &&
     (1 <=? day) && (day <=? days_in month year)
  then Some ((days_to year month day * 86400 + hour * 3600 + minute * 60 + second - zone) * Second + nano)
  else None.

(** [time.Parse(time.RFC3339Nano, strings.TrimSpace(s))]. *)
Definition parseRFC3339Nano (s : string) : option Time := parse_instant (TrimSpace s).

Example instants :
  parseRFC3339Nano "0001-01-01T00:00:00Z" = Some zero_time /\
  parseRFC3339Nano "1970-01-01T00:00:00Z" = Some (62135596800 * Second) /\
  parseRFC3339Nano " 2024-02-29T23:59:59.5+02:00" = Some (63844840799 * Second + 500000000) /\
  parseRFC3339Nano "2023-02-29T00:00:00Z" = None /\ parseRFC3339Nano "2024-01-01 00:00:00Z" = None /\
  parseRFC3339Nano "2024-01-01T24:00:00Z" = None /\ parseRFC3339Nano "2024-01-01T7:00:00,25Z" = parseRFC3339Nano "2024-01-01T07:00:00.250000000Z".
Proof. vm_compute. repeat split. Qed.
