(* ===== verification/KeyLifecycle.v ===== *)
(** * The life cycle of signing keys
      (internal/controlplane/server/snapshot_key_lifecycle.go,
      snapshot_lifecycle_domain.go)

    A ledger of facts, signed by the key authority, that says from when and until
    when a key may sign: appending a fact under the state machine of its key,
    loading and verifying the ledger, resolving the interval of a key, judging a
    signature by it; and the domain, manifests or verification reports, a key is
    authorized for. *)

From Stdlib Require Import Ascii.
From S2P Require Import Prelude GoStrings GoTime Manifest AppendLog Ledger SignedLog.

(** ** Data *)

Definition lifecycleEventActivated : string := "activated".
Definition lifecycleEventRotatedOut : string := "rotated_out".
Definition lifecycleEventRevoked : string := "revoked".

Definition lifecycleSourceLedger : string := "lifecycle_ledger".
Definition lifecycleSourceUnbounded : string := "unbounded".

Definition lifecycleDomainSigning : string := "signing".
Definition lifecycleDomainVerifier : string := "verifier".
Definition lifecycleDomainUndeclared : string := "undeclared".
Definition lifecycleDomainConflict : string := "conflict".
Definition lifecycleDomainStateMigrated : string := "migrated".
Definition lifecycleDomainStateDeclared : string := "declared".

Record keyLifecycleEntry : Type := MkLifecycle {
  ke_V : Z;
  ke_EventSeq : Z;
  ke_EventType : string;
  ke_KeyID : string;
  ke_PubkeyFingerprint : string;
  ke_NotBefore : string;
  ke_NotAfter : string;
  ke_RecordedAt : string;
  ke_AuthorityKeyID : string;
  ke_StreamID : string;
  ke_PrevEventDigest : string;
  ke_EventDigest : string;
  ke_Signature : option signatureBlock;
  ke_Role : string }.

Record keyLifecycleSigned : Type := MkLifecycleSigned {
  ks_V : Z;
  ks_EventSeq : Z;
  ks_EventType : string;
  ks_KeyID : string;
  ks_PubkeyFingerprint : string;
  ks_NotBefore : string;
  ks_NotAfter : string;
  ks_RecordedAt : string;
  ks_AuthorityKeyID : string;
  ks_StreamID : string;
  ks_PrevEventDigest : string;
  ks_Role : string }.

Definition keyLifecycleSignedFields (e : keyLifecycleEntry) : keyLifecycleSigned :=
  MkLifecycleSigned (ke_V e) (ke_EventSeq e) (ke_EventType e) (ke_KeyID e) (ke_PubkeyFingerprint e) (ke_NotBefore e) (ke_NotAfter e)
    (ke_RecordedAt e) (ke_AuthorityKeyID e) (ke_StreamID e) (ke_PrevEventDigest e) (ke_Role e).

Definition lifecycle_utf8 (e : keyLifecycleEntry) : bool :=
  forallb ValidString [ke_EventType e; ke_KeyID e; ke_PubkeyFingerprint e; ke_NotBefore e; ke_NotAfter e; ke_RecordedAt e;
    ke_AuthorityKeyID e; ke_StreamID e; ke_PrevEventDigest e; ke_EventDigest e; ke_Role e] &&
  from_option signature_utf8 true (ke_Signature e).

(** The JSON of an event and of its signed fields, the bytes of a public key. *)
Class LifecycleCodec `{ManifestCrypto} := {
  lifecycle_signed_json : keyLifecycleSigned -> string;
  pub_bytes : PubKey -> string;
  lifecycle_lines :: LineCodec keyLifecycleEntry lifecycle_utf8 }.

Section KeyLifecycle.
Context `{LifecycleCodec}.

Definition canonicalLifecyclePayload (e : keyLifecycleEntry) : string := lifecycle_signed_json (keyLifecycleSignedFields e).
Definition lifecycleEventDigest (e : keyLifecycleEntry) : string := hex_EncodeToString (Sum256 (canonicalLifecyclePayload e)).
Definition keyLifecycleGroupOf : string -> Z * bool := groupOf ke_EventSeq.
Definition serializeKeyLifecycleEntryBytes (e : keyLifecycleEntry) : string := serialize e.
Definition fingerprintOfPublicKey (pub : PubKey) : string :=
  if String.eqb (pub_bytes pub) "" then "" else hex_EncodeToString (Sum256 (pub_bytes pub)).

(** ** Signatures *)

Definition with_event_signature (e : keyLifecycleEntry) (s : option signatureBlock) : keyLifecycleEntry :=
  MkLifecycle (ke_V e) (ke_EventSeq e) (ke_EventType e) (ke_KeyID e) (ke_PubkeyFingerprint e) (ke_NotBefore e) (ke_NotAfter e)
    (ke_RecordedAt e) (ke_AuthorityKeyID e) (ke_StreamID e) (ke_PrevEventDigest e) (ke_EventDigest e) s (ke_Role e).

Definition signKeyLifecycleEntry (s : option exportSigner) (e : keyLifecycleEntry) (at_ : string) : result error keyLifecycleEntry :=
  match sign_block "key authority: no KAK private key configured" "key authority: private key is not a valid Ed25519 key" s
          (canonicalLifecyclePayload e) at_ with
  | Err err => Err err
  | Ok sb => Ok (with_event_signature e (Some sb))
  end.

Definition verifyKeyLifecycleEntrySignature (e : keyLifecycleEntry) (trust : option exportTrustStore) : SignatureVerdict :=
  verify_block "lifecycle" "event" (ke_KeyID e) (ke_AuthorityKeyID e) (canonicalLifecyclePayload e) (ke_Signature e) trust.

Definition event_signed (ka : keyAuthority) (e : keyLifecycleEntry) : bool :=
  String.eqb (sv_Verdict (verifyKeyLifecycleEntrySignature e (ka_trust ka))) sigVerdictOK.
Definition event_sealed (e : keyLifecycleEntry) : bool := String.eqb (lifecycleEventDigest e) (ke_EventDigest e).

(** ** Configuration *)

Record keyLifecycleConfig : Type := MkLifecycleConfig {
  kc_capacity : Z;
  kc_ka : option keyAuthority;
  kc_signingTrust : option exportTrustStore;
  kc_verifierTrust : option exportTrustStore;
  kc_streamID : string }.

Definition kc_enabled (c : keyLifecycleConfig) : bool := ka_verifiable (kc_ka c).
Definition kc_writable (c : keyLifecycleConfig) : bool := ka_writable (kc_ka c).

(** An event of another stream, where both name theirs. *)
Definition foreign (c : keyLifecycleConfig) (e : keyLifecycleEntry) : bool :=
  negb (String.eqb (kc_streamID c) "") && negb (String.eqb (ke_StreamID e) "") && negb (String.eqb (ke_StreamID e) (kc_streamID c)).

Definition trust_keys (t : option exportTrustStore) : gmap string PubKey := match t with Some t => ts_keys t | None => ∅ end.

(** ** Loading *)

Record keyLifecycleState : Type := MkLifecycleState {
  kls_entries : list keyLifecycleEntry;
  kls_byKey : gmap string (list keyLifecycleEntry);
  kls_window : logWindow;
  kls_verifiable : bool;
  kls_errs : list string;
  kls_total : Z }.

Definition empty_lifecycle : keyLifecycleState := MkLifecycleState [] ∅ (MkWindow 0 0 0 false) true [] 0.

Definition lifecycle_problem (st : keyLifecycleState) (e : keyLifecycleEntry) (err : string) : keyLifecycleState :=
  MkLifecycleState (kls_entries st) (kls_byKey st) (kls_window st) false
    (kls_errs st ++ ["event_seq " +:+ pretty (ke_EventSeq e) +:+ ": " +:+ err]) (kls_total st).

(** One line: the state, the digest that the next event must name, whether this
    is the first line. *)
Definition load_lifecycle_line (c : keyLifecycleConfig) (ka : keyAuthority) (acc : keyLifecycleState * string * bool) (e : keyLifecycleEntry)
  : keyLifecycleState * string * bool :=
  let '(st, prevDigest, first) := acc in
  let st := MkLifecycleState (kls_entries st) (kls_byKey st) (kls_window st) (kls_verifiable st) (kls_errs st) (kls_total st + 1) in
  let v := verifyKeyLifecycleEntrySignature e (ka_trust ka) in
  if negb (event_signed ka e) then (lifecycle_problem st e (sv_Verdict v +:+ " (" +:+ sv_Detail v +:+ ")"), "", false)
  else if negb (event_sealed e) then (lifecycle_problem st e "event_digest does not match its canonical payload", "", false)
  else if negb first && negb (String.eqb (ke_PrevEventDigest e) prevDigest) then
    (lifecycle_problem st e "prev_event_digest breaks the hash chain", "", false)
  else if foreign c e then
    (lifecycle_problem st e ("belongs to stream " +:+ ke_StreamID e +:+ ", not this export directory (" +:+ kc_streamID c +:+ ")"), "", false)
  else
    (MkLifecycleState (kls_entries st ++ [e]) (<[ke_KeyID e := default [] (kls_byKey st !! ke_KeyID e) ++ [e]]> (kls_byKey st))
       (kls_window st) (kls_verifiable st) (kls_errs st) (kls_total st), ke_EventDigest e, false).

(** The callers come with a key authority ([enabled]). *)
Definition loadKeyLifecycleState (io : LogIO) (d : LogDisk) (c : keyLifecycleConfig) (ka : keyAuthority) : result error keyLifecycleState :=
  match readLogLines io keyLifecycleGroupOf d with
  | Err e => Err e
  | Ok (lines, ok) =>
      if negb ok then
        Err ("key lifecycle log holds " +:+ pretty (countUnclassified lines) +:+ " unclassifiable line(s); refusing to evaluate it")
      else match decode_lines lines with
        | None => Err "key lifecycle line is not readable"
        | Some [] => Ok empty_lifecycle
        | Some es =>
            let '(st, _, _) := run_list (load_lifecycle_line c ka) (empty_lifecycle, "", true) es in
            let w := window_of (map ke_EventSeq es) in
            Ok (if lw_Continuous w
                then MkLifecycleState (kls_entries st) (kls_byKey st) w (kls_verifiable st) (kls_errs st) (kls_total st)
                else MkLifecycleState (kls_entries st) (kls_byKey st) w false
                       (kls_errs st ++ ["window_discontinuous: the surviving event_seq run has a hole — no interval may be asserted"])
                       (kls_total st))
        end
  end.

(** ** The interval of a key *)

Record keyAuthorization : Type := MkAuthorization {
  an_KeyID : string;
  an_NotBefore : string;
  an_NotAfter : string;
  an_Terminal : string;
  an_Complete : bool;
  an_Source : string;
  an_Evaluable : bool }.

Definition unboundedKeyAuthorization (keyID : string) : keyAuthorization :=
  MkAuthorization keyID "" "" "" false lifecycleSourceUnbounded false.

(** Unparseable sorts last. *)
Definition compareRFC3339 (a b : string) : Z :=
  match parseRFC3339Nano a, parseRFC3339Nano b with
  | None, None => 0
  | None, Some _ => 1
  | Some _, None => -1
  | Some ta, Some tb => if ta <? tb then -1 else if tb <? ta then 1 else 0
  end.

Definition keyEventsInside (evts : list keyLifecycleEntry) (w : logWindow) : bool :=
  negb (bool_decide (evts = [])) && forallb (fun e => negb ((ke_EventSeq e <? lw_Min w) || (lw_Max w <? ke_EventSeq e))) evts.

Definition is_terminal (ty : string) : bool := String.eqb ty lifecycleEventRotatedOut || String.eqb ty lifecycleEventRevoked.

(** One event of the key: whether it was activated, its bound below, the bounds
    above and the kind of the end. *)
Definition authorization_event (acc : bool * string * list string * string) (e : keyLifecycleEntry) : bool * string * list string * string :=
  let '(activated, notBefore, notAfters, terminal) := acc in
  if String.eqb (ke_EventType e) lifecycleEventActivated then
    (true, if String.eqb (ke_NotBefore e) "" then notBefore else ke_NotBefore e, notAfters, terminal)
  else if is_terminal (ke_EventType e) then
    if String.eqb (ke_NotAfter e) "" then acc
    else (activated, notBefore, notAfters ++ [ke_NotAfter e],
          if String.eqb terminal lifecycleEventRevoked then terminal else ke_EventType e)
  else acc.

Definition earliest (notAfters : list string) : string :=
  match notAfters with [] => "" | x :: l => foldl (fun best v => if compareRFC3339 v best <? 0 then v else best) x l end.

Definition authorization_of (evts : list keyLifecycleEntry) (w : logWindow) (keyID : string) : keyAuthorization :=
  let unbounded := MkAuthorization keyID "" "" "" false lifecycleSourceUnbounded true in
  let '(activated, notBefore, notAfters, terminal) := run_list authorization_event (false, "", [], "") evts in
  if negb activated then unbounded
  else if negb (lw_Continuous w && keyEventsInside evts w) then unbounded
  else MkAuthorization keyID notBefore (earliest notAfters) terminal true lifecycleSourceLedger true.

Definition authorizationFor (st : option keyLifecycleState) (keyID : string) : keyAuthorization :=
  match st with
  | None => unboundedKeyAuthorization keyID
  | Some st =>
      if negb (kls_verifiable st) || String.eqb keyID "" then unboundedKeyAuthorization keyID
      else match default [] (kls_byKey st !! keyID) with
        | [] => unboundedKeyAuthorization keyID
        | evts => authorization_of evts (kls_window st) keyID
        end
  end.

(** ** Judging a signature *)

Record signatureValidity : Type := MkValidity {
  vy_AuthorizedFrom : string;
  vy_AuthorizedUntil : string;
  vy_TerminalEvent : string;
  vy_Source : string }.

Definition validityOf (a : keyAuthorization) : option signatureValidity :=
  if negb (an_Evaluable a) then None else Some (MkValidity (an_NotBefore a) (an_NotAfter a) (an_Terminal a) (an_Source a)).

(** The verdict and its validity; a verdict that comes in has none. *)
Definition authorizeByLifecycle (v : SignatureVerdict) (signedAt : string) (a : keyAuthorization)
  : SignatureVerdict * option signatureValidity :=
  if negb (String.eqb (sv_Verdict v) sigVerdictOK) || negb (an_Evaluable a) then (v, None)
  else
    let narrowed verdict detail := (MkSignatureVerdict verdict (sv_KeyID v) detail, validityOf a) in
    match parseRFC3339Nano signedAt with
    | None => narrowed sigVerdictTimeUnparseable
        "signature signed_at is not a parseable RFC3339Nano timestamp: the time declaration itself is defective, so no authorization interval can be evaluated"
    | Some t =>
        if negb (String.eqb (an_Source a) lifecycleSourceLedger) || negb (an_Complete a) then (v, validityOf a)
        else if match parseRFC3339Nano (an_NotBefore a) with
                | Some nb => negb (String.eqb (an_NotBefore a) "") && (t <? nb) | None => false end
        then narrowed sigVerdictBeforeActivation "signed before the key was activated"
        else if match parseRFC3339Nano (an_NotAfter a) with
                | Some na => negb (String.eqb (an_NotAfter a) "") && negb (t <? na) | None => false end
        then
          if String.eqb (an_Terminal a) lifecycleEventRevoked then
            narrowed sigVerdictAfterRevocation "signed at or after the key was revoked"
          else if String.eqb (an_Terminal a) lifecycleEventRotatedOut then
            narrowed sigVerdictAfterRotation "signed at or after the key was rotated out"
          else (v, validityOf a)
        else (v, validityOf a)
    end.

(** ** Appending *)

Record keyLifecycleRequest : Type := MkLifecycleRequest {
  kr_EventType : string;
  kr_KeyID : string;
  kr_NotBefore : string;
  kr_NotAfter : string }.

Definition lifecycleRoleOf (inSigning inVerifier : bool) : string :=
  if inSigning then lifecycleDomainSigning else if inVerifier then lifecycleDomainVerifier else "".

(** The key a request is about and the domain it is in. *)
Definition lifecycle_subject (c : keyLifecycleConfig) (req : keyLifecycleRequest) : result error (PubKey * string) :=
  if bool_decide (trust_keys (kc_signingTrust c) = ∅) && bool_decide (trust_keys (kc_verifierTrust c) = ∅) then
    Err "key lifecycle: neither the signing trust anchor nor the verifier trust anchor is configured — cannot bind a key identity"
  else
    match trust_keys (kc_signingTrust c) !! kr_KeyID req, trust_keys (kc_verifierTrust c) !! kr_KeyID req with
    | Some _, Some _ => Err ("key lifecycle: key_id " +:+ kr_KeyID req +:+
        " is in BOTH the signing trust anchor and the verifier trust anchor — its domain is undecidable, so no window may be opened for it")
    | Some pub, None => Ok (pub, lifecycleRoleOf true false)
    | None, Some pub => Ok (pub, lifecycleRoleOf false true)
    | None, None => Err ("key lifecycle: key_id " +:+ kr_KeyID req +:+ " is in neither the signing trust anchor nor the verifier trust anchor")
    end.

(** The bounds of a request: an activation gives the one below, any other event
    the one above. *)
Definition request_bounds (req : keyLifecycleRequest) : option error :=
  if String.eqb (kr_EventType req) lifecycleEventActivated then
    if negb (String.eqb (TrimSpace (kr_NotAfter req)) "") then Some "key lifecycle: an activated event must not carry not_after"
    else match parseRFC3339Nano (kr_NotBefore req) with
      | None => Some ("key lifecycle: not_before " +:+ kr_NotBefore req +:+ " is not a parseable RFC3339Nano timestamp")
      | Some _ => None
      end
  else if negb (String.eqb (TrimSpace (kr_NotBefore req)) "") then
    Some ("key lifecycle: a " +:+ kr_EventType req +:+ " event must not carry not_before")
  else match parseRFC3339Nano (kr_NotAfter req) with
    | None => Some ("key lifecycle: not_after " +:+ kr_NotAfter req +:+ " is not a parseable RFC3339Nano timestamp")
    | Some _ => None
    end.

(** One line of the ledger read before an append: the entries, the greatest
    sequence and its digest. *)
Definition append_event_line (c : keyLifecycleConfig) (ka : keyAuthority) (req : keyLifecycleRequest)
    (acc : result error (list keyLifecycleEntry * Z * string)) (e : keyLifecycleEntry) : result error (list keyLifecycleEntry * Z * string) :=
  match acc with
  | Err err => Err err
  | Ok (history, maxSeq, prevDigest) =>
      let v := verifyKeyLifecycleEntrySignature e (ka_trust ka) in
      if negb (event_signed ka e) then
        Err ("key lifecycle: refusing to append — event_seq " +:+ pretty (ke_EventSeq e) +:+ " is " +:+ sv_Verdict v +:+ " (" +:+ sv_Detail v +:+ ")")
      else if foreign c e then
        Err ("key lifecycle: refusing to append — event_seq " +:+ pretty (ke_EventSeq e) +:+ " belongs to another export directory")
      else if String.eqb (ke_KeyID e) (kr_KeyID req) && String.eqb (ke_EventType e) (kr_EventType req) &&
              String.eqb (ke_NotAfter e) (kr_NotAfter req) then
        Err ("key lifecycle: duplicate submission — (" +:+ kr_KeyID req +:+ ", " +:+ kr_EventType req +:+ ", " +:+ kr_NotAfter req +:+
             ") is already recorded at event_seq " +:+ pretty (ke_EventSeq e))
      else Ok (history ++ [e], if maxSeq <? ke_EventSeq e then ke_EventSeq e else maxSeq,
               if maxSeq <? ke_EventSeq e then ke_EventDigest e else prevDigest)
  end.

Definition events_of (key : string) (es : list keyLifecycleEntry) : list keyLifecycleEntry :=
  List.filter (fun e => String.eqb (ke_KeyID e) key) es.

(** Whether the key was activated, and the kind of its end. *)
Definition machine_state (mine : list keyLifecycleEntry) : bool * string :=
  foldl (fun '(activated, terminal) e =>
    if String.eqb (ke_EventType e) lifecycleEventActivated then (true, terminal)
    else if is_terminal (ke_EventType e) then (activated, if String.eqb terminal lifecycleEventRevoked then terminal else ke_EventType e)
    else (activated, terminal)) (false, "") mine.

Definition validateLifecycleTransition (history : list keyLifecycleEntry) (req : keyLifecycleRequest) (newRole : string) : option error :=
  let key := kr_KeyID req in
  let mine := events_of key history in
  match List.find (fun e => negb (String.eqb newRole "") && negb (String.eqb (ke_Role e) "") && negb (String.eqb (ke_Role e) newRole)) mine with
  | Some e => Some ("key lifecycle: key " +:+ key +:+ " already carries a " +:+ ke_Role e +:+
      "-domain row — a subject's domain is fixed by its first declared row, and a " +:+ newRole +:+
      "-domain event would make the frozen Phase 41 verdict face fold two domains into one interval; use a new key_id")
  | None =>
      let '(activated, terminal) := machine_state mine in
      let activation := String.eqb (kr_EventType req) lifecycleEventActivated in
      if negb activated && negb activation then
        Some ("key lifecycle: key " +:+ key +:+ " has no activated event — the first event must be activated")
      else if activation && activated then Some ("key lifecycle: key " +:+ key +:+ " is already activated — resurrection is refused")
      else if activation && negb (String.eqb terminal "") then
        Some ("key lifecycle: key " +:+ key +:+ " is " +:+ terminal +:+ " — resurrection is refused")
      else if activation then None
      else match List.find (fun e => String.eqb (ke_EventType e) lifecycleEventActivated && negb (String.eqb (ke_NotBefore e) "") &&
                                     (compareRFC3339 (kr_NotAfter req) (ke_NotBefore e) <? 0)) mine with
        | Some e => Some ("key lifecycle: not_after " +:+ kr_NotAfter req +:+ " precedes the activation not_before " +:+ ke_NotBefore e)
        | None => None
        end
  end.

Definition new_event (c : keyLifecycleConfig) (signer : exportSigner) (req : keyLifecycleRequest) (pub : PubKey) (role : string)
    (maxSeq : Z) (prevDigest at_ : string) : keyLifecycleEntry :=
  let e := MkLifecycle 1 (wrap64 (maxSeq + 1)) (kr_EventType req) (kr_KeyID req) (fingerprintOfPublicKey pub) (kr_NotBefore req)
             (kr_NotAfter req) at_ (es_keyID signer) (kc_streamID c) prevDigest "" None role in
  MkLifecycle 1 (wrap64 (maxSeq + 1)) (kr_EventType req) (kr_KeyID req) (fingerprintOfPublicKey pub) (kr_NotBefore req)
    (kr_NotAfter req) at_ (es_keyID signer) (kc_streamID c) prevDigest (lifecycleEventDigest e) None role.

Definition known_event (ty : string) : bool := String.eqb ty lifecycleEventActivated || is_terminal ty.

(** Everything before the append: the entry to record, or why not; [at_] is the
    text of the time of submission. *)
Definition lifecycle_prepare (io : LogIO) (d : LogDisk) (c : keyLifecycleConfig) (req : keyLifecycleRequest) (at_ : string)
  : result error keyLifecycleEntry :=
  match kc_ka c with
  | Some (MkKeyAuthority (Some signer) (Some trust) as ka) =>
      if negb (known_event (kr_EventType req)) then Err ("key lifecycle: unknown event_type " +:+ kr_EventType req)
      else match lifecycle_subject c req with
        | Err e => Err e
        | Ok (pub, role) =>
            match request_bounds req with
            | Some e => Err e
            | None =>
                match readLogLines io keyLifecycleGroupOf d with
                | Err e => Err e
                | Ok (lines, ok) =>
                    if negb ok then
                      Err ("key lifecycle log holds " +:+ pretty (countUnclassified lines) +:+ " unclassifiable line(s); refusing to append")
                    else match decode_lines lines with
                      | None => Err "key lifecycle line is not readable"
                      | Some es =>
                          match run_list (append_event_line c ka req) (Ok ([], 0, "")) es with
                          | Err e => Err e
                          | Ok (history, maxSeq, prevDigest) =>
                              match validateLifecycleTransition history req role with
                              | Some e => Err e
                              | None => signKeyLifecycleEntry (Some signer) (new_event c signer req pub role maxSeq prevDigest at_) at_
                              end
                          end
                      end
                end
            end
        end
  | _ => Err "key lifecycle: no key-authority key configured (writes disabled)"
  end.

(** The failures of an append: of its reading, its writing, its compaction. *)
Record LifecycleIO : Type := MkLifecycleIO { lio_read : LogIO; lio_append : LogIO; lio_compact : LogIO }.

Definition appendKeyLifecycleEvent {W} (observe : option (compactionObserver W)) (io : LifecycleIO) (c : keyLifecycleConfig)
    (d : LogDisk) (w : W) (req : keyLifecycleRequest) (at_ : string) : list LogDisk * W * result error keyLifecycleEntry :=
  match lifecycle_prepare (lio_read io) d c req at_ with
  | Err e => ([], w, Err e)
  | Ok e =>
      match appendLogLine (lio_append io) d (serializeKeyLifecycleEntryBytes e) with
      | (states, Some err) => (states, w, Err err)
      | (states, None) =>
          if 0 <? kc_capacity c then
            match compactLogPrefixGroupsObserved (lio_compact io) (final d states) w (kc_capacity c) keyLifecycleGroupOf observe with
            | (states', w, Some err) => (states ++ states', w, Err err)
            | (states', w, None) => (states ++ states', w, Ok e)
            end
          else (states, w, Ok e)
      end
  end.

(** ** Domains *)

Record domainStatus : Type := MkDomainStatus { ds_Domain : string; ds_Migrated : bool }.

Definition declared_role (role : string) : bool := String.eqb role lifecycleDomainSigning || String.eqb role lifecycleDomainVerifier.

Definition rows_of (st : keyLifecycleState) (keyID : string) : list keyLifecycleEntry := default [] (kls_byKey st !! keyID).

(** Whether two rows of one event differ in their domain, given what each event
    seen so far says. *)
Fixpoint torn_group (seen : gmap Z string) (rows : list keyLifecycleEntry) : bool :=
  match rows with
  | [] => false
  | e :: rows =>
      match seen !! ke_EventSeq e with
      | Some prev => negb (String.eqb prev (ke_Role e)) || torn_group seen rows
      | None => torn_group (<[ke_EventSeq e := ke_Role e]> seen) rows
      end
  end.

Definition domainOf (st : option keyLifecycleState) (keyID : string) : domainStatus :=
  match st with
  | None => MkDomainStatus lifecycleDomainUndeclared false
  | Some st =>
      let rows := rows_of st keyID in
      if existsb (fun e => negb (String.eqb (ke_Role e) "") && negb (declared_role (ke_Role e))) rows then
        MkDomainStatus lifecycleDomainConflict false
      else if torn_group ∅ rows then MkDomainStatus lifecycleDomainConflict false
      else
        let last := foldl (fun last e => if declared_role (ke_Role e) then ke_Role e else last) "" rows in
        if String.eqb last "" then MkDomainStatus lifecycleDomainUndeclared false
        else MkDomainStatus last (existsb (fun e => String.eqb (ke_Role e) lifecycleDomainSigning) rows &&
                                  existsb (fun e => String.eqb (ke_Role e) lifecycleDomainVerifier) rows)
  end.

Definition domainRows (c : keyLifecycleConfig) (st : option keyLifecycleState) (keyID want : string) : list keyLifecycleEntry :=
  match st with
  | None => []
  | Some st =>
      if String.eqb keyID "" then []
      else
        let rows := rows_of st keyID in
        let out := List.filter (fun e => String.eqb (ke_Role e) want) rows in
        let undeclared := List.filter (fun e => negb (String.eqb (ke_Role e) want) && String.eqb (ke_Role e) "") rows in
        if String.eqb want lifecycleDomainSigning then
          match trust_keys (kc_verifierTrust c) !! keyID with None => out ++ undeclared | Some _ => out end
        else if String.eqb want lifecycleDomainVerifier then out ++ undeclared
        else out
  end.

Definition rowsForDomain (c : keyLifecycleConfig) (st : option keyLifecycleState) (keyID want : string) : Z :=
  Z.of_nat (length (domainRows c st keyID want)).

Definition authorizationForDomain (c : keyLifecycleConfig) (st : option keyLifecycleState) (keyID want : string) : keyAuthorization * Z :=
  let n := rowsForDomain c st keyID want in
  match st with
  | Some s =>
      if n =? 0 then (unboundedKeyAuthorization keyID, 0)
      else (authorizationFor (Some (MkLifecycleState (kls_entries s) {[ keyID := domainRows c st keyID want ]} (kls_window s)
              (kls_verifiable s) (kls_errs s) (kls_total s))) keyID, n)
  | None => (unboundedKeyAuthorization keyID, 0)
  end.

(** ** What the status says *)

Record keyLifecycleStatusSummary : Type := MkLifecycleSummary {
  lss_Enabled : bool;
  lss_Writable : bool;
  lss_EventCount : Z;
  lss_Error : string;
  lss_Window : option logWindow;
  lss_Authorities : list keyAuthorization;
  lss_ActiveKeyID : string }.

Definition key_ids (st : keyLifecycleState) : list string := sort_strings (elements (dom (kls_byKey st))).

Definition summary_key (c : keyLifecycleConfig) (st : keyLifecycleState) (acc : list keyAuthorization * string) (k : string)
  : list keyAuthorization * string :=
  let '(a, n) := authorizationForDomain c (Some st) k lifecycleDomainSigning in
  if n =? 0 then acc
  else (fst acc ++ [a],
        if String.eqb (an_Source a) lifecycleSourceLedger && String.eqb (an_NotAfter a) "" then k else snd acc).

Definition keyLifecycleSummaryFromState (c : keyLifecycleConfig) (loaded : result error keyLifecycleState) : keyLifecycleStatusSummary :=
  if negb (kc_enabled c) then MkLifecycleSummary false false 0 "" None [] ""
  else match loaded with
    | Err e => MkLifecycleSummary true (kc_writable c) 0 e None [] ""
    | Ok st =>
        if negb (kls_verifiable st) then
          MkLifecycleSummary true (kc_writable c) (kls_total st)
            ("key lifecycle ledger is not verifiable — every key is treated as unbounded (" +:+ String.concat "; " (kls_errs st) +:+ ")")
            (Some (kls_window st)) [] ""
        else
          let '(authorities, active) := run_list (summary_key c st) ([], "") (key_ids st) in
          MkLifecycleSummary true (kc_writable c) (kls_total st) "" (Some (kls_window st)) authorities active
    end.

Record lifecycleDomainSubjectStatus : Type := MkSubject {
  sj_Domain : string;
  sj_Migrated : bool;
  sj_Events : Z;
  sj_DeclaredEvents : Z;
  sj_UndeclaredEvents : Z;
  sj_Validity : option signatureValidity;
  sj_Reason : string }.

Record lifecycleDomainStatusSummary : Type := MkDomainSummary {
  dsum_Enabled : bool;
  dsum_Subjects : list (string * lifecycleDomainSubjectStatus);
  dsum_State : string;
  dsum_Events : Z;
  dsum_DeclaredEvents : Z;
  dsum_UndeclaredEvents : Z;
  dsum_MigratedKeys : list string;
  dsum_ConflictKeys : list string;
  dsum_Reason : string }.

Definition dsum_Declared (s : lifecycleDomainStatusSummary) : bool := String.eqb (dsum_State s) lifecycleDomainStateDeclared.

Definition count_rows (p : keyLifecycleEntry -> bool) (rows : list keyLifecycleEntry) : Z := Z.of_nat (length (List.filter p rows)).

(** The row of one subject. *)
Definition domain_subject (c : keyLifecycleConfig) (st : keyLifecycleState) (k : string) : lifecycleDomainSubjectStatus :=
  let rows := rows_of st k in
  let d := domainOf (Some st) k in
  let subject domain migrated := MkSubject domain migrated (Z.of_nat (length rows)) (count_rows (fun e => declared_role (ke_Role e)) rows)
    (count_rows (fun e => String.eqb (ke_Role e) "") rows) in
  if negb (kls_verifiable st) then
    subject lifecycleDomainConflict false None "the key lifecycle ledger is not verifiable — no domain is asserted for this subject"
  else
    subject (ds_Domain d) (ds_Migrated d) (validityOf (fst (authorizationForDomain c (Some st) k (ds_Domain d))))
      (if String.eqb (ds_Domain d) lifecycleDomainConflict then
         "the subject's rows declare two domains inside one event group, or carry a role outside {signing, verifier} — the domain is undecidable, so neither is asserted"
       else if String.eqb (ds_Domain d) lifecycleDomainUndeclared then
         pretty (Z.of_nat (length rows)) +:+ " row(s) of this subject declare no domain (written before the domain carrier existed) — the domain is permanently unassertable from this evidence"
       else if ds_Migrated d then
         "the subject holds rows in BOTH domains (a sequential migration) — the current domain is the last declared one, and both intervals remain assertable"
       else "").

Definition sum_by {A} (f : A -> Z) (l : list A) : Z := foldl (fun n x => n + f x) 0 l.

Definition keyLifecycleDomainSummaryFromState (c : keyLifecycleConfig) (loaded : result error keyLifecycleState) : lifecycleDomainStatusSummary :=
  if negb (kc_enabled c) then MkDomainSummary false [] "" 0 0 0 [] [] ""
  else match loaded with
    | Err e => MkDomainSummary true [] lifecycleDomainConflict 0 0 0 [] [] ("the key lifecycle ledger cannot be evaluated: " +:+ e)
    | Ok st =>
        let subjects := map (fun k => (k, domain_subject c st k)) (key_ids st) in
        let conflicts := map fst (List.filter (fun s => String.eqb (sj_Domain (snd s)) lifecycleDomainConflict) subjects) in
        let migrated := map fst (List.filter (fun s => sj_Migrated (snd s)) subjects) in
        let undeclared := sum_by (fun s => sj_UndeclaredEvents (snd s)) subjects in
        let summary state reason := MkDomainSummary true subjects state (sum_by (fun s => sj_Events (snd s)) subjects)
          (sum_by (fun s => sj_DeclaredEvents (snd s)) subjects) undeclared migrated conflicts reason in
        if negb (kls_verifiable st) then
          summary lifecycleDomainConflict
            ("the key lifecycle ledger is not verifiable — no domain assertion is made (" +:+ String.concat "; " (kls_errs st) +:+ ")")
        else if negb (bool_decide (conflicts = [])) then
          summary lifecycleDomainConflict
            (pretty (length conflicts) +:+ " subject(s) carry a conflicting or invalid domain declaration: " +:+ String.concat ", " conflicts)
        else if negb (bool_decide (migrated = [])) then
          summary lifecycleDomainStateMigrated
            (pretty (length migrated) +:+ " subject(s) migrated between the two domains: " +:+ String.concat ", " migrated)
        else if existsb (fun s => declared_role (sj_Domain (snd s))) subjects then summary lifecycleDomainStateDeclared ""
        else summary lifecycleDomainUndeclared ("no subject in the ledger declares a domain (" +:+ pretty undeclared +:+
          " row(s) carry none) — the empty set is not a declaration")
    end.

(** ** Entries of the ledger *)

Definition good_event (c : keyLifecycleConfig) (ka : keyAuthority) (e : keyLifecycleEntry) : Prop :=
  event_signed ka e = true /\ event_sealed e = true /\ foreign c e = false.

#[local] Abbreviation event_chain c ka := (chained ke_EventSeq ke_PrevEventDigest ke_EventDigest (good_event c ka)).
#[local] Abbreviation event_digest := (last_digest ke_EventDigest).
#[local] Abbreviation ledger_on := (log_on ke_EventSeq).

(** Each kind carries its bound, and the domains are the two. *)
Definition event_shape (e : keyLifecycleEntry) : Prop :=
  declared_role (ke_Role e) = true /\
  (ke_EventType e = lifecycleEventActivated /\ parseRFC3339Nano (ke_NotBefore e) <> None \/
   is_terminal (ke_EventType e) = true /\ parseRFC3339Nano (ke_NotAfter e) <> None).

Lemma parse_nonempty s : parseRFC3339Nano s <> None -> s <> "".
Proof. by intros Hs ->. Qed.

Lemma events_of_app key a b : events_of key (a ++ b) = events_of key a ++ events_of key b.
Proof. apply List.filter_app. Qed.

Lemma events_of_elem key e es : In e (events_of key es) <-> In e es /\ ke_KeyID e = key.
Proof. unfold events_of. by rewrite filter_In, String.eqb_eq. Qed.

(** What the walk before an append finds. *)
Lemma append_events_walk c ka req k es history maxSeq prev :
  event_chain c ka k es -> run_list (append_event_line c ka req) (Ok ([], 0, "")) es = Ok (history, maxSeq, prev) ->
  history = es /\ maxSeq = (if bool_decide (es = []) then 0 else Z.of_nat (k + length es)) /\ prev = event_digest es.
Proof.
  revert history maxSeq prev. induction es as [|e es IH] using rev_ind; intros history maxSeq prev Hc Hw; [by simplify_eq/=|].
  destruct (chained_last _ _ _ _ _ _ _ Hc) as ((Hs & _ & Hf) & Hq & _). rewrite run_list_snoc in Hw.
  destruct (run_list _ _ es) as [[[h m] p]|] eqn:E; [|done]. destruct (IH _ _ _ (chained_prefix _ _ _ _ _ _ _ Hc) eq_refl) as (-> & -> & ->).
  cbn in Hw. rewrite Hs, Hf in Hw. cbn [negb] in Hw. destruct (_ && _ && _); [done|].
  assert (((if bool_decide (es = []) then 0 else Z.of_nat (k + length es)) <? ke_EventSeq e) = true) as Hlt.
  { apply Z.ltb_lt. rewrite Hq. case_bool_decide; lia. }
  rewrite Hlt in Hw. simplify_eq. rewrite last_digest_snoc, bool_decide_eq_false_2 by by destruct es.
  split; [done|]. split; [|done]. rewrite Hq, length_app. cbn. lia.
Qed.

Definition index_events (es : list keyLifecycleEntry) : gmap string (list keyLifecycleEntry) :=
  foldl (fun m e => <[ke_KeyID e := default [] (m !! ke_KeyID e) ++ [e]]> m) ∅ es.

Lemma index_events_lookup es key : default [] (index_events es !! key) = events_of key es.
Proof.
  unfold index_events. induction es as [|e es IH] using rev_ind; [cbn; by rewrite lookup_empty|].
  rewrite foldl_app, events_of_app. cbn. set (m := foldl _ _ es) in *. destruct (String.eqb_spec (ke_KeyID e) key) as [<-|Hk].
  - rewrite lookup_insert_eq. cbn. by rewrite IH.
  - rewrite lookup_insert_ne by done. by rewrite IH, app_nil_r.
Qed.

Lemma load_events_walk c ka k es : event_chain c ka k es ->
  run_list (load_lifecycle_line c ka) (empty_lifecycle, "", true) es =
    (MkLifecycleState es (index_events es) (MkWindow 0 0 0 false) true [] (Z.of_nat (length es)), event_digest es, bool_decide (es = [])).
Proof.
  induction es as [|e es IH] using rev_ind; intros Hc; [done|].
  destruct (chained_last _ _ _ _ _ _ _ Hc) as ((Hs & Hd & Hf) & _ & Hp).
  rewrite run_list_snoc, IH by by eapply chained_prefix. unfold load_lifecycle_line. rewrite Hs, Hd, Hf. cbn [negb].
  rewrite (bool_decide_eq_false_2 (es ++ [e] = [])) by (by destruct es).
  assert (negb (bool_decide (es = [])) && negb (String.eqb (ke_PrevEventDigest e) (event_digest es)) = false) as ->.
  { case_bool_decide; [done|]. by rewrite Hp, String.eqb_refl. }
  rewrite last_digest_snoc. cbn [kls_entries kls_byKey kls_window kls_verifiable kls_errs kls_total]. unfold index_events.
  rewrite foldl_app, length_app. cbn [foldl length]. do 3 f_equal. lia.
Qed.

(** ** The machine of a key *)

Definition activation (e : keyLifecycleEntry) : bool := String.eqb (ke_EventType e) lifecycleEventActivated.
Definition terminal (e : keyLifecycleEntry) : bool := is_terminal (ke_EventType e).
Definition revoked (e : keyLifecycleEntry) : bool := String.eqb (ke_EventType e) lifecycleEventRevoked.

(** The instant of a text that is one. *)
Definition instant (s : string) : Time := default 0 (parseRFC3339Nano s).

(** Nothing, or an activation and then ends that do not precede it. *)
Definition key_shape (l : list keyLifecycleEntry) : Prop :=
  match l with
  | [] => True
  | a :: l => activation a = true /\ Forall (fun e => terminal e = true /\ instant (ke_NotBefore a) <= instant (ke_NotAfter e)) l
  end.

(** What a compaction leaves of it. *)
Definition visible_shape (l : list keyLifecycleEntry) : Prop := key_shape l \/ Forall (fun e => terminal e = true) l.

Lemma activation_terminal e : activation e = true -> terminal e = false.
Proof. unfold activation, terminal, is_terminal. intros Ha%String.eqb_eq. by rewrite Ha. Qed.

Lemma shape_kind e : event_shape e -> activation e = negb (terminal e).
Proof.
  unfold activation, terminal. intros [_ [[Hk _]|[Hk _]]]; [by rewrite Hk|]. rewrite Hk. unfold is_terminal in Hk.
  apply orb_true_iff in Hk as [Hk|Hk]; apply String.eqb_eq in Hk; by rewrite Hk.
Qed.

Lemma compare_instants a b : parseRFC3339Nano a <> None -> parseRFC3339Nano b <> None -> (compareRFC3339 a b <? 0) = (instant a <? instant b).
Proof.
  unfold compareRFC3339, instant. destruct (parseRFC3339Nano a) as [x|]; [|done]. destruct (parseRFC3339Nano b) as [y|]; [|done].
  intros _ _. cbn. destruct (Z.ltb_spec x y); [done|]. by destruct (Z.ltb_spec y x).
Qed.

Lemma machine_state_spec mine :
  fst (machine_state mine) = existsb activation mine /\ (snd (machine_state mine) = "" -> existsb terminal mine = false).
Proof.
  unfold machine_state. induction mine as [|e mine [IH1 IH2]] using rev_ind; [done|]. rewrite foldl_app, !existsb_app. cbn.
  destruct (foldl _ _ mine) as [act term]. cbn [fst snd] in *. rewrite <- IH1. fold (activation e) (terminal e).
  destruct (activation e) eqn:Ea.
  - rewrite (activation_terminal _ Ea), !orb_false_r, orb_true_r. by split.
  - rewrite !orb_false_r. destruct (terminal e) eqn:Et; [|by rewrite orb_false_r]. split; [done|].
    destruct (String.eqb_spec term lifecycleEventRevoked) as [->|_]; [done|]. cbn. intros He. unfold terminal in Et. by rewrite He in Et.
Qed.

Lemma shape_drop l x : visible_shape (x :: l) -> visible_shape l.
Proof.
  intros [[_ Hl]|Hl]; right; [|by inversion Hl]. eapply Forall_impl; [exact Hl|]. by intros e [He _].
Qed.

(** A transition that is allowed keeps the machine, and the domain. *)
Lemma transition_shape es req role e :
  Forall event_shape es -> visible_shape (events_of (kr_KeyID req) es) -> event_shape e ->
  ke_KeyID e = kr_KeyID req -> ke_EventType e = kr_EventType req -> ke_NotAfter e = kr_NotAfter req ->
  validateLifecycleTransition es req role = None ->
  key_shape (events_of (kr_KeyID req) es ++ [e]).
Proof.
  intros Hes Hv He Hk Ht Hn Hval. unfold validateLifecycleTransition in Hval.
  destruct (List.find _ _); [done|]. set (mine := events_of (kr_KeyID req) es) in *.
  assert (Hmine : Forall event_shape mine).
  { apply List.Forall_forall. intros x [Hx _]%events_of_elem. rewrite List.Forall_forall in Hes. by apply Hes. }
  destruct (machine_state_spec mine) as [Hact Hterm]. destruct (machine_state mine) as [act term]. cbn [fst snd] in *.
  assert (Hae : String.eqb (kr_EventType req) lifecycleEventActivated = activation e) by (unfold activation; by rewrite Ht).
  rewrite Hae, <- Hn in Hval. rewrite (shape_kind _ He) in Hval.
  destruct (terminal e) eqn:Ete; cbn [negb andb] in Hval; rewrite ?andb_true_r, ?andb_false_r in Hval.
  - destruct act; [|done]. cbn in Hval. destruct (List.find _ mine) eqn:Ef; [done|].
    destruct Hv as [Hv|Hv].
    2: { symmetry in Hact. apply existsb_exists in Hact as (x & Hx & Hax). rewrite List.Forall_forall in Hv. specialize (Hv _ Hx).
         by rewrite (activation_terminal _ Hax) in Hv. }
    destruct mine as [|a l]; [done|]. destruct Hv as [Ha Hl]. cbn. split; [done|]. apply Forall_app_2; [done|]. apply Forall_singleton.
    split; [done|]. pose proof (find_none _ _ Ef a (or_introl eq_refl)) as Hfa. cbn in Hfa. fold (activation a) in Hfa. rewrite Ha in Hfa.
    cbn [andb] in Hfa. apply Forall_cons in Hmine as [[_ [[_ Hpa]|[Hta _]]] _]; [|fold (terminal a) in Hta; by rewrite (activation_terminal _ Ha) in Hta].
    destruct He as [_ [[Hx _]|[_ Hpe]]]; [by rewrite (activation_terminal e) in Ete by (unfold activation; rewrite Hx; done)|].
    rewrite (proj2 (String.eqb_neq _ _) (parse_nonempty _ Hpa)), compare_instants in Hfa by done. apply Z.ltb_ge in Hfa. exact Hfa.
  - destruct act; cbn in Hval; [done|]. destruct (String.eqb_spec term "") as [E|]; cbn in Hval; [|done]. specialize (Hterm E).
    assert (mine = []) as ->; [|cbn; split; [by rewrite (shape_kind _ He), Ete|done]].
    destruct mine as [|a l]; [done|]. apply Forall_cons in Hmine as [Ha _]. cbn in Hact, Hterm. apply orb_false_iff in Hterm as [Hta _].
    rewrite (shape_kind _ Ha), Hta in Hact. done.
Qed.

Definition one_role (es : list keyLifecycleEntry) : Prop := forall e e', In e es -> In e' es -> ke_KeyID e = ke_KeyID e' -> ke_Role e = ke_Role e'.

Lemma transition_role es req e :
  Forall event_shape es -> one_role es -> event_shape e -> ke_KeyID e = kr_KeyID req ->
  validateLifecycleTransition es req (ke_Role e) = None -> one_role (es ++ [e]).
Proof.
  intros Hes Ho He Hk Hval. assert (Hne : forall x, event_shape x -> ke_Role x <> "") by (intros x [Hr _] E; by rewrite E in Hr).
  assert (Hx : forall x, In x es -> ke_KeyID x = ke_KeyID e -> ke_Role x = ke_Role e).
  { intros x Hx Hkx. unfold validateLifecycleTransition in Hval. destruct (List.find _ _) eqn:Ef; [done|].
    assert (Hin : In x (events_of (kr_KeyID req) es)) by (apply events_of_elem; split; [done|congruence]).
    pose proof (find_none _ _ Ef x Hin) as Hf. cbn in Hf. rewrite List.Forall_forall in Hes.
    rewrite (proj2 (String.eqb_neq _ _) (Hne _ He)), (proj2 (String.eqb_neq _ _) (Hne _ (Hes _ Hx))) in Hf. cbn in Hf.
    by apply negb_false_iff, String.eqb_eq in Hf. }
  intros a b [Ha|[<-|[]]]%in_app_iff [Hb|[<-|[]]]%in_app_iff Hab; [by apply Ho|by apply Hx| |done].
  symmetry. apply Hx; [done|congruence].
Qed.

(** ** The interval of a key, exactly *)

(** The verdict on a good signature of the key of [evts]: what was signed
    before the activation or from the first of the ends on is not good; any
    revocation makes it the stronger accusation. *)
Definition lifecycle_verdict (evts : list keyLifecycleEntry) (signedAt : string) : string :=
  match evts with
  | [] => sigVerdictOK
  | _ =>
      match parseRFC3339Nano signedAt with
      | None => sigVerdictTimeUnparseable
      | Some t =>
          match List.find activation evts with
          | None => sigVerdictOK
          | Some a =>
              if t <? instant (ke_NotBefore a) then sigVerdictBeforeActivation
              else if existsb (fun e => terminal e && (instant (ke_NotAfter e) <=? t)) evts then
                if existsb revoked evts then sigVerdictAfterRevocation else sigVerdictAfterRotation
              else sigVerdictOK
          end
      end
  end.

Definition end_kind (l : list keyLifecycleEntry) : string :=
  match l with [] => "" | _ => if existsb revoked l then lifecycleEventRevoked else lifecycleEventRotatedOut end.

Lemma shape_bound e : event_shape e -> terminal e = true -> parseRFC3339Nano (ke_NotAfter e) <> None.
Proof.
  intros [_ [[Hk _]|[_ Hp]]] Ht; [|done]. by rewrite (activation_terminal e) in Ht by (unfold activation; rewrite Hk; done).
Qed.

Lemma authorization_ends act nb l :
  Forall event_shape l -> Forall (fun e => terminal e = true) l ->
  run_list authorization_event (act, nb, [], "") l = (act, nb, map ke_NotAfter l, end_kind l).
Proof.
  induction l as [|e l IH] using rev_ind; intros Hs Ht; [done|]. apply Forall_app in Hs as [Hs [He _]%Forall_cons].
  apply Forall_app in Ht as [Ht [Hte _]%Forall_cons]. rewrite run_list_snoc, IH by done. pose proof (shape_kind _ He) as Hk. rewrite Hte in Hk.
  unfold authorization_event. fold (activation e) (terminal e). rewrite Hk, Hte. cbn [negb].
  rewrite (proj2 (String.eqb_neq _ _) (parse_nonempty _ (shape_bound _ He Hte))), map_app. cbn [map]. f_equal.
  assert (Htt : ke_EventType e = if revoked e then lifecycleEventRevoked else lifecycleEventRotatedOut).
  { unfold revoked. unfold terminal, is_terminal in Hte. destruct (String.eqb_spec (ke_EventType e) lifecycleEventRevoked); [done|].
    rewrite orb_false_r in Hte. by apply String.eqb_eq. }
  unfold end_kind. rewrite existsb_app, Htt. cbn [existsb]. rewrite orb_false_r.
  destruct l as [|x l]; cbn [app]; [by destruct (revoked e)|]. by destruct (existsb revoked (x :: l)), (revoked e).
Qed.

Lemma earliest_spec l : l <> [] -> Forall (fun s => parseRFC3339Nano s <> None) l ->
  In (earliest l) l /\ forall s, In s l -> instant (earliest l) <= instant s.
Proof.
  destruct l as [|x l]; [done|]. intros _ [Hx Hl]%Forall_cons. cbn [earliest].
  set (f := fun best v => if compareRFC3339 v best <? 0 then v else best).
  induction l as [|y l IH] using rev_ind; [by split; [left|intros s [->|[]]]|].
  apply Forall_app in Hl as [Hl [Hy _]%Forall_cons]. destruct (IH Hl) as [Hin Hmin]. rewrite foldl_app. cbn [foldl]. set (b := foldl f x l) in *.
  assert (Hb : parseRFC3339Nano b <> None) by (destruct Hin as [<-|Hin]; [done|]; rewrite List.Forall_forall in Hl; by apply Hl).
  unfold f. rewrite compare_instants by done. destruct (Z.ltb_spec (instant y) (instant b)).
  - split; [right; apply in_or_app; by right; left|]. intros s [<-|[Hs|[<-|[]]]%in_app_iff]; [|..|lia].
    + specialize (Hmin x (or_introl eq_refl)). lia.
    + specialize (Hmin s (or_intror Hs)). lia.
  - split; [destruct Hin as [Hin|Hin]; [by left|right; apply in_or_app; by left]|].
    intros s [<-|[Hs|[<-|[]]]%in_app_iff]; [by apply Hmin; left|by apply Hmin; right|lia].
Qed.

Lemma find_activation l : key_shape l -> List.find activation l = head l.
Proof. destruct l as [|a l]; [done|]. intros [Ha _]. cbn. by rewrite Ha. Qed.

Lemma ends_parse l : Forall event_shape l -> Forall (fun e => terminal e = true) l ->
  Forall (fun s => parseRFC3339Nano s <> None) (map ke_NotAfter l).
Proof.
  intros Hs Ht. apply List.Forall_forall. intros s (e & <- & He)%in_map_iff. rewrite List.Forall_forall in Hs, Ht. apply shape_bound; auto.
Qed.

Lemma existsb_terminal t l : Forall event_shape l -> Forall (fun e => terminal e = true) l -> l <> [] ->
  existsb (fun e => terminal e && (instant (ke_NotAfter e) <=? t)) l = (instant (earliest (map ke_NotAfter l)) <=? t).
Proof.
  intros Hs Ht Hne. destruct (earliest_spec (map ke_NotAfter l)) as [Hin Hmin]; [by destruct l|by apply ends_parse|].
  apply in_map_iff in Hin as (e & He & Hin). destruct (Z.leb_spec (instant (earliest (map ke_NotAfter l))) t) as [Hle|Hlt].
  - apply existsb_exists. exists e. split; [done|]. rewrite List.Forall_forall in Ht. rewrite (Ht _ Hin), He. by apply Z.leb_le.
  - apply not_true_is_false. intros (x & Hx & Hxt)%existsb_exists. apply andb_true_iff in Hxt as [_ Hxt%Z.leb_le].
    specialize (Hmin _ (in_map ke_NotAfter _ _ Hx)). lia.
Qed.

(** The interval of a key whose events are visible in a window. *)
Lemma verdict_of_authorization evts lo hi n key v signedAt :
  sv_Verdict v = sigVerdictOK -> evts <> [] -> Forall event_shape evts -> visible_shape evts ->
  Forall (fun e => lo <= ke_EventSeq e <= hi) evts ->
  sv_Verdict (fst (authorizeByLifecycle v signedAt (authorization_of evts (MkWindow lo hi n true) key))) = lifecycle_verdict evts signedAt.
Proof.
  intros Hv Hne Hs Hshape Hw. unfold authorizeByLifecycle, authorization_of.
  assert (Hin : keyEventsInside evts (MkWindow lo hi n true) = true).
  { unfold keyEventsInside. rewrite bool_decide_eq_false_2 by done. apply forallb_forall. intros e He. rewrite List.Forall_forall in Hw.
    specialize (Hw _ He). cbn. apply negb_true_iff, orb_false_iff. split; apply Z.ltb_ge; lia. }
  rewrite Hin, Hv. cbn [lw_Continuous andb negb String.eqb orb].
  assert (Hout : lifecycle_verdict evts signedAt = match parseRFC3339Nano signedAt with None => sigVerdictTimeUnparseable | Some t =>
      match List.find activation evts with None => sigVerdictOK | Some a =>
        if t <? instant (ke_NotBefore a) then sigVerdictBeforeActivation
        else if existsb (fun e => terminal e && (instant (ke_NotAfter e) <=? t)) evts then
          if existsb revoked evts then sigVerdictAfterRevocation else sigVerdictAfterRotation
        else sigVerdictOK end end) by by destruct evts.
  rewrite Hout. clear Hout. destruct Hshape as [Hshape|Hends].
  - rewrite find_activation by done. destruct evts as [|a l]; [done|]. destruct Hshape as [Ha Hl]. apply Forall_cons in Hs as [Hsa Hsl].
    cbn [run_list foldl head].
    assert (Ht : Forall (fun e => terminal e = true) l) by (eapply Forall_impl; [exact Hl|]; by intros e [He _]).
    assert (Hpa : parseRFC3339Nano (ke_NotBefore a) <> None).
    { destruct Hsa as [_ [[_ Hp]|[Hx _]]]; [done|]. fold (terminal a) in Hx. by rewrite (activation_terminal _ Ha) in Hx. }
    change (authorization_event (false, "", [], "") a) with
      (if activation a then (true, if String.eqb (ke_NotBefore a) "" then "" else ke_NotBefore a, @nil string, "") else
       if terminal a then (if String.eqb (ke_NotAfter a) "" then (false, "", @nil string, "") else (false, "", [] ++ [ke_NotAfter a], ke_EventType a))
       else (false, "", @nil string, "")).
    rewrite Ha, (proj2 (String.eqb_neq _ _) (parse_nonempty _ Hpa)). change (foldl authorization_event) with (run_list authorization_event).
    rewrite authorization_ends by done. cbn [an_Evaluable an_Source an_Complete an_NotBefore an_NotAfter an_Terminal negb orb].
    destruct (parseRFC3339Nano signedAt) as [t|]; [|done]. cbn [String.eqb lifecycleSourceLedger negb orb].
    rewrite (proj2 (String.eqb_neq _ _) (parse_nonempty _ Hpa)). unfold instant at 1. destruct (parseRFC3339Nano (ke_NotBefore a)) as [nb|]; [|done].
    cbn [negb andb default from_option id]. destruct (t <? nb); [done|]. cbn [existsb]. rewrite (activation_terminal _ Ha). cbn [andb orb].
    assert (Hra : revoked a = false) by (unfold revoked, activation in *; by apply String.eqb_eq in Ha as ->). rewrite Hra. cbn [orb].
    destruct l as [|x l]; [done|]. rewrite existsb_terminal by done. set (b := earliest (map ke_NotAfter (x :: l))).
    assert (Hb : parseRFC3339Nano b <> None).
    { pose proof (ends_parse _ Hsl Ht) as Hp. destruct (earliest_spec (map ke_NotAfter (x :: l)) ltac:(discriminate) Hp) as [Hb _].
      rewrite List.Forall_forall in Hp. by apply Hp. }
    rewrite (proj2 (String.eqb_neq _ _) (parse_nonempty _ Hb)). unfold instant. destruct (parseRFC3339Nano b) as [nb'|]; [|done].
    cbn [negb andb default from_option id]. rewrite Z.leb_antisym. destruct (negb (t <? nb')); [|done]. unfold end_kind. by destruct (existsb revoked (x :: l)).
  - rewrite authorization_ends by done. cbn [negb an_Evaluable an_Source an_Complete orb].
    destruct (parseRFC3339Nano signedAt) as [t|]; [|done]. cbn. assert (List.find activation evts = None) as ->; [|done].
    destruct (List.find activation evts) as [a|] eqn:E; [|done]. apply find_some in E as [E1 E2]. rewrite List.Forall_forall in Hends.
    specialize (Hends _ E1). by rewrite (activation_terminal _ E2) in Hends.
Qed.

(** ** Histories of submissions

    The key authority and the directory stay; the anchors may hold other keys at
    each submission. *)

Section Histories.
Context (signer : exportSigner) (trust : exportTrustStore) (cap : Z) (stream : string).
Context {W : Type} (observe : option (compactionObserver W)).
Hypothesis trusted : ts_keys trust !! es_keyID signer = Some (Public (es_priv signer)).
Hypothesis key_named : es_keyID signer <> "".

Let ka : keyAuthority := MkKeyAuthority (Some signer) (Some trust).

Definition conf (signing verifier : option exportTrustStore) : keyLifecycleConfig := MkLifecycleConfig cap (Some ka) signing verifier stream.

#[local] Abbreviation chain := (event_chain (conf None None) ka).

(** A submission, at a time whose text is [at_]. *)
Record LifecycleOp : Type := MkLifecycleOp {
  op_io : LifecycleIO;
  op_signing : option exportTrustStore;
  op_verifier : option exportTrustStore;
  op_req : keyLifecycleRequest;
  op_at : string }.

(** The event that a submission puts into the ledger. *)
Definition landed_event (d : LogDisk) (op : LifecycleOp) : list keyLifecycleEntry :=
  match lifecycle_prepare (lio_read (op_io op)) d (conf (op_signing op) (op_verifier op)) (op_req op) (op_at op) with
  | Err _ => []
  | Ok e => match appendLogLine (lio_append (op_io op)) d (serializeKeyLifecycleEntryBytes e) with (_, None) => [e] | (_, Some _) => [] end
  end.

(** The directory, the world of the observer, the events that landed, those
    answered. *)
Definition lifecycle_step (st : LogDisk * W * list keyLifecycleEntry * list keyLifecycleEntry) (op : LifecycleOp)
  : LogDisk * W * list keyLifecycleEntry * list keyLifecycleEntry :=
  let '(d, w, landed, answered) := st in
  let '(states, w, r) := appendKeyLifecycleEvent observe (op_io op) (conf (op_signing op) (op_verifier op)) d w (op_req op) (op_at op) in
  (final d states, w, landed ++ landed_event d op, match r with Ok e => answered ++ [e] | Err _ => answered end).

Definition lifecycle_start (w0 : W) : LogDisk * W * list keyLifecycleEntry * list keyLifecycleEntry := (MkLogDisk None None, w0, [], []).

Definition whole_op (op : LifecycleOp) : Prop := clean_io (lio_append (op_io op)) /\ op_at op <> "".

(** What a submission keeps, where [h] has landed and the ledger has dropped
    its first [k]. *)
Record life_inv (k : nat) (h : list keyLifecycleEntry) (d : LogDisk) : Prop := MkLifeInv {
  li_chain : chain 0 h;
  li_k : (h = [] /\ k = 0 \/ k < length h)%nat;
  li_free : cap <= 0 -> k = 0%nat;
  li_disk : ledger_on d (drop k h);
  li_shapes : Forall event_shape h;
  li_machine : forall key, visible_shape (events_of key (drop k h));
  li_all : k = 0%nat -> forall key, key_shape (events_of key h);
  li_roles : one_role (drop k h) }.

Lemma prepared k h d io st vt req at_ e :
  life_inv k h d -> Z.of_nat (length h) < max_int64 -> at_ <> "" ->
  lifecycle_prepare io d (conf st vt) req at_ = Ok e ->
  good_event (conf None None) ka e /\ ke_EventSeq e = Z.of_nat (S (length h)) /\ ke_PrevEventDigest e = event_digest h /\ event_shape e /\
  ke_KeyID e = kr_KeyID req /\ ke_EventType e = kr_EventType req /\ ke_NotAfter e = kr_NotAfter req /\
  validateLifecycleTransition (drop k h) req (ke_Role e) = None.
Proof using trusted key_named.
  intros Hi Hlen Hat. pose proof Hi as [Hc Hk _ Hd _ _ _ _]. unfold lifecycle_prepare. cbn [kc_ka conf]. cbv iota beta delta [ka]. fold ka.
  destruct (known_event (kr_EventType req)) eqn:Ety; [|done]. cbn [negb].
  destruct (lifecycle_subject _ _) as [[pub role]|] eqn:Es; [|done]. destruct (request_bounds req) eqn:Eb; [done|].
  unfold keyLifecycleGroupOf. destruct (log_on_reads ke_EventSeq io d _ Hd) as [->|(er & -> & _)]; [|done]. cbn [negb].
  rewrite (proj2 (proj2 (proj2 (entry_lines _ _ (lo_fits _ _ _ Hd))))).
  destruct (run_list _ _ _) as [[[history maxSeq] prev]|] eqn:Ew; [|done].
  pose proof (chained_drop _ _ _ _ _ k _ Hc) as Hcd. cbn [Nat.add] in Hcd.
  destruct (append_events_walk (conf st vt) ka req k (drop k h) _ _ _ Hcd Ew) as (-> & -> & ->).
  destruct (validateLifecycleTransition _ _ _) eqn:Ev; [done|]. unfold signKeyLifecycleEntry.
  destruct (sign_block _ _ _ _ _) as [sb|] eqn:Esb; [|done]. intros [= <-].
  assert (Hmax : (if bool_decide (drop k h = []) then 0 else Z.of_nat (k + length (drop k h))) = Z.of_nat (length h)).
  { rewrite length_drop. case_bool_decide as E; [|lia]. apply (f_equal length) in E. rewrite length_drop in E. cbn in E.
    destruct Hk as [[-> ->]|Hk]; [done|lia]. }
  rewrite Hmax in *. split; [|split; [|split; [|split; [|done]]]].
  - split; [|split; [by unfold event_sealed; rewrite String.eqb_refl|]].
    + unfold event_signed, verifyKeyLifecycleEntrySignature. cbn [with_event_signature ke_Signature new_event ke_AuthorityKeyID ka_trust ka].
      by rewrite (sign_verifies _ _ _ _ _ _ _ _ _ _ Esb trusted key_named Hat).
    + unfold foreign. cbn. by rewrite String.eqb_refl, andb_false_r.
  - cbn. rewrite wrap64_id; [lia|]. unfold in_int64, min_int64, max_int64 in *. lia.
  - cbn. destruct Hk as [[-> ->]|Hk]; [done|]. by apply last_digest_drop.
  - split.
    + cbn. unfold lifecycle_subject in Es. destruct (_ && _); [done|].
      destruct (_ !! kr_KeyID req), (trust_keys _ !! kr_KeyID req); by simplify_eq.
    + unfold event_shape. cbn. unfold request_bounds in Eb. unfold known_event in Ety.
      destruct (String.eqb_spec (kr_EventType req) lifecycleEventActivated) as [Ha|Ha].
      * left. split; [done|]. destruct (negb _); [done|]. by destruct (parseRFC3339Nano (kr_NotBefore req)).
      * right. split; [done|]. destruct (negb _); [done|]. by destruct (parseRFC3339Nano (kr_NotAfter req)).
Qed.

Lemma visible_drop key n es : visible_shape (events_of key es) -> visible_shape (events_of key (drop n es)).
Proof.
  revert es. induction n as [|n IH]; intros es Hv; [done|]. destruct es as [|e es]; [done|]. cbn [drop]. apply IH. cbn in Hv.
  destruct (String.eqb (ke_KeyID e) key); [by eapply shape_drop|done].
Qed.

Lemma inv_append k h d d' req e :
  life_inv k h d -> ledger_on d' (drop k h ++ [e]) ->
  good_event (conf None None) ka e /\ ke_EventSeq e = Z.of_nat (S (length h)) /\ ke_PrevEventDigest e = event_digest h /\ event_shape e /\
  ke_KeyID e = kr_KeyID req /\ ke_EventType e = kr_EventType req /\ ke_NotAfter e = kr_NotAfter req /\
  validateLifecycleTransition (drop k h) req (ke_Role e) = None ->
  life_inv k (h ++ [e]) d'.
Proof.
  intros [Hc Hk Hf _ Hs Hm Ha Hr] Hd' (Hg & Hq & Hp & He & Hkey & Hty & Hna & Hval).
  assert (Hkl : (k <= length h)%nat) by (destruct Hk as [[-> ->]|]; [done|lia]).
  assert (Hdrop : drop k (h ++ [e]) = drop k h ++ [e]) by by rewrite drop_app_le.
  assert (Hsd : Forall event_shape (drop k h)) by by apply Forall_drop.
  assert (Hother : forall key l, ke_KeyID e <> key -> events_of key (l ++ [e]) = events_of key l).
  { intros key l Hne. rewrite events_of_app. cbn. by rewrite (proj2 (String.eqb_neq _ _) Hne), app_nil_r. }
  assert (Hown : forall l, events_of (ke_KeyID e) (l ++ [e]) = events_of (ke_KeyID e) l ++ [e]).
  { intros l. rewrite events_of_app. cbn. by rewrite String.eqb_refl. }
  pose proof (transition_shape _ _ _ _ Hsd (Hm _) He Hkey Hty Hna Hval) as Hshape. rewrite <- Hkey, <- Hown in Hshape.
  split; rewrite ?Hdrop; [by apply chained_snoc|right; rewrite length_app; cbn; lia|done|done| | | |].
  - apply Forall_app_2; [done|by apply Forall_singleton].
  - intros key. destruct (String.eqb_spec (ke_KeyID e) key) as [<-|Hne]; [by left|]. rewrite Hother by done. apply Hm.
  - intros -> key. cbn [drop] in Hshape. destruct (String.eqb_spec (ke_KeyID e) key) as [<-|Hne]; [done|]. rewrite Hother by done. by apply Ha.
  - by eapply transition_role.
Qed.

Lemma inv_drop k k' h d d' : life_inv k h d -> 0 < cap -> (k <= k')%nat -> (k' < length h)%nat -> ledger_on d' (drop k' h) -> life_inv k' h d'.
Proof.
  intros [Hc Hk Hf _ Hs Hm Ha Hr] Hcap Hle Hlt Hd'. assert (Hdrop : drop k' h = drop (k' - k) (drop k h)) by (rewrite drop_drop; f_equal; lia).
  assert (Hin : forall e, In e (drop k' h) -> In e (drop k h)).
  { intros e. rewrite Hdrop, <- (take_drop (k' - k) (drop k h)) at 1. rewrite take_drop. intros He.
    rewrite <- (take_drop (k' - k) (drop k h)). apply in_or_app. by right. }
  split; [done|by right|lia|done|done| | |].
  - intros key. rewrite Hdrop. by apply visible_drop.
  - intros ->. assert (k = 0%nat) as -> by lia. by apply Ha.
  - intros e e' He He'. apply Hr; by apply Hin.
Qed.

Lemma lifecycle_step_inv k d w landed answered op :
  life_inv k landed d -> whole_op op -> Z.of_nat (length landed) < max_int64 ->
  let '(d', w', landed', answered') := lifecycle_step (d, w, landed, answered) op in
  Forall fits landed' -> (cap <= 0 -> answered = landed -> answered' = landed') /\ exists k', (k <= k')%nat /\ life_inv k' landed' d'.
Proof using trusted key_named.
  intros Hi [Hio Hat] Hlen. unfold lifecycle_step, landed_event, appendKeyLifecycleEvent.
  destruct (lifecycle_prepare _ _ _ _ _) as [e|er] eqn:Ep.
  2: { rewrite app_nil_r. intros _. split; [done|by exists k]. }
  pose proof (prepared _ _ _ _ _ _ _ _ _ Hi Hlen Hat Ep) as Hpr. pose proof Hi as [Hc Hk _ Hd _ _ _ _].
  destruct (appendLogLine _ _ _) as [st [er|]] eqn:Ea; pose proof (log_on_append ke_EventSeq _ _ _ _ _ _ Hd Hio Ea) as Hd'.
  { rewrite app_nil_r. intros _. split; [done|]. exists k. split; [done|]. by destruct Hi. }
  cbn [kc_capacity conf]. destruct (Z.ltb_spec 0 cap) as [Hcap|Hcap].
  2: { intros Hf. apply Forall_app in Hf as [_ Hf]. apply Forall_cons in Hf as [Hf _]. split; [by intros _ ->|]. exists k.
       split; [done|]. eapply inv_append; [exact Hi|by apply Hd'|exact Hpr]. }
  destruct (compactLogPrefixGroupsObserved _ _ _ _ _ _) as [[st2 w2] e2] eqn:Ec.
  assert (Hfinal : final d (st ++ st2) = final (final d st) st2) by by unfold final; rewrite last_app.
  assert (Hgoal : Forall fits (landed ++ [e]) -> exists k', (k <= k')%nat /\ life_inv k' (landed ++ [e]) (final d (st ++ st2))).
  { intros Hf. apply Forall_app in Hf as [_ Hf]. apply Forall_cons in Hf as [Hf _]. specialize (Hd' Hf).
    pose proof (inv_append _ _ _ _ _ _ Hi Hd' Hpr) as Hi1. pose proof Hi1 as [Hc1 Hk1 _ Hd1 _ _ _ _].
    pose proof (chained_nodup _ _ _ _ _ _ (chained_drop _ _ _ _ _ k _ Hc1)) as Hn. rewrite Hfinal.
    destruct (log_on_compact ke_EventSeq _ _ _ _ _ _ _ _ _ Hd1 Hn Hcap Ec) as [[Hs _]|Hnew]; [exists k; split; [done|by destruct Hi1]|].
    set (h := landed ++ [e]) in *. assert (Hl : (0 < length h)%nat) by (unfold h; rewrite length_app; cbn; lia).
    assert (Hlast : lastn (Z.to_nat cap) (drop k h) = drop (k + (length h - k - Z.to_nat cap)) h).
    { unfold lastn. by rewrite drop_drop, length_drop. }
    rewrite Hlast in Hnew. exists (k + (length h - k - Z.to_nat cap))%nat. split; [lia|].
    eapply (inv_drop k); [exact Hi1|done|lia| |done]. destruct Hk1 as [[Hn1 _]|Hk1]; [rewrite Hn1 in Hl; cbn in Hl; lia|lia]. }
  destruct e2 as [e2|]; intros Hf; (split; [lia|by apply Hgoal]).
Qed.

Lemma lifecycle_step_lands st op : exists more, (lifecycle_step st op).1.2 = st.1.2 ++ more /\ (length more <= 1)%nat.
Proof.
  destruct st as [[[d w] landed] answered]. unfold lifecycle_step.
  destruct (appendKeyLifecycleEvent _ _ _ _ _ _ _) as [[states w'] r]. cbn [fst snd]. eexists. split; [done|]. unfold landed_event.
  destruct (lifecycle_prepare _ _ _ _ _); [|cbn; lia]. destruct (appendLogLine _ _ _) as [? []]; cbn; lia.
Qed.

Lemma life_start w0 : life_inv 0 (lifecycle_start w0).1.2 (lifecycle_start w0).1.1.1.
Proof. cbn. split; [apply chained_nil|by left|done|split; [done|apply Forall_nil_2]|apply Forall_nil_2|by left|done|by intros e e' []]. Qed.

Lemma lifecycle_run_inv ops w0 :
  Forall whole_op ops -> Z.of_nat (length ops) <= max_int64 ->
  let '(d, w, landed, answered) := run_list lifecycle_step (lifecycle_start w0) ops in
  Forall fits landed -> (length landed <= length ops)%nat /\ (cap <= 0 -> answered = landed) /\ exists k, life_inv k landed d.
Proof using trusted key_named.
  induction ops as [|op ops IH] using rev_ind; intros Hw Hlen.
  { cbn. intros _. do 2 (split; [done|]). exists 0%nat. apply (life_start w0). }
  rewrite run_list_snoc. apply Forall_app in Hw as [Hws [Hw _]%Forall_cons]. rewrite length_app in *. cbn [length] in *.
  specialize (IH Hws ltac:(lia)). destruct (run_list _ _ ops) as [[[d w] landed] answered].
  pose proof (lifecycle_step_lands (d, w, landed, answered) op) as (more & Hm & Hm1).
  pose proof (lifecycle_step_inv) as Hstep. specialize (Hstep).
  destruct (lifecycle_step (d, w, landed, answered) op) as [[[d' w'] landed'] answered'] eqn:E. cbn [fst snd] in Hm. subst landed'.
  intros Hf. pose proof Hf as [Hf0 _]%Forall_app. destruct (IH Hf0) as (Hl & Ha & k & Hi).
  specialize (Hstep k d w landed answered op Hi Hw ltac:(lia)). rewrite E in Hstep. destruct (Hstep Hf) as (Ha' & k' & _ & Hi').
  split; [rewrite length_app; lia|]. split; [|by exists k']. intros Hcap. apply Ha'; auto.
Qed.

(** What is loaded when [h] has landed and its first [k] are dropped. *)
Definition sound_lifecycle (k : nat) (h : list keyLifecycleEntry) : keyLifecycleState :=
  if decide (h = []) then empty_lifecycle
  else MkLifecycleState (drop k h) (index_events (drop k h)) (MkWindow (Z.of_nat k + 1) (Z.of_nat (length h)) (Z.of_nat (length h - k)) true)
         true [] (Z.of_nat (length h - k)).

Lemma load_events_exact k h d st vt io : life_inv k h d -> io_read io = None -> loadKeyLifecycleState io d (conf st vt) ka = Ok (sound_lifecycle k h).
Proof.
  intros [Hc Hk _ Hd _ _ _ _] Hio. pose proof (chained_drop _ _ _ _ _ k _ Hc) as Hcd. cbn [Nat.add] in Hcd.
  unfold loadKeyLifecycleState, keyLifecycleGroupOf. rewrite (log_on_read _ _ _ _ Hd Hio). cbn [negb].
  rewrite (proj2 (proj2 (proj2 (entry_lines _ _ (lo_fits _ _ _ Hd))))). unfold sound_lifecycle.
  destruct Hk as [[-> ->]|Hk]; [done|]. rewrite decide_False by (intros ->; cbn in Hk; lia).
  pose proof (length_drop h k) as Hl. set (es := drop k h) in *. clearbody es. destruct es as [|e es]; [cbn in Hl; lia|].
  rewrite (load_events_walk (conf st vt) ka k _ Hcd), (ch_seqs _ _ _ _ _ _ Hcd), window_seq by (cbn; lia).
  cbn [lw_Continuous kls_entries kls_byKey kls_verifiable kls_errs kls_total]. rewrite Hl. do 2 f_equal. f_equal. lia.
Qed.

Lemma sound_rows k h d key : life_inv k h d -> rows_of (sound_lifecycle k h) key = events_of key (drop k h).
Proof.
  intros Hi. unfold rows_of, sound_lifecycle. destruct (decide (h = [])) as [->|]; [by rewrite drop_nil|]. apply index_events_lookup.
Qed.

Lemma sound_verifiable k h : kls_verifiable (sound_lifecycle k h) = true /\ kls_entries (sound_lifecycle k h) = drop k h.
Proof. unfold sound_lifecycle. destruct (decide (h = [])) as [->|]; [by rewrite drop_nil|done]. Qed.

Lemma verdict_exact k h d key v signedAt :
  life_inv k h d -> key <> "" -> sv_Verdict v = sigVerdictOK ->
  sv_Verdict (fst (authorizeByLifecycle v signedAt (authorizationFor (Some (sound_lifecycle k h)) key))) =
  lifecycle_verdict (events_of key (drop k h)) signedAt.
Proof.
  intros Hi Hkey Hv. pose proof (sound_rows _ _ _ key Hi) as Hr. unfold rows_of in Hr. unfold authorizationFor.
  rewrite (proj1 (sound_verifiable _ _)), (proj2 (String.eqb_neq _ _) Hkey), Hr. cbn [negb orb].
  destruct (events_of key (drop k h)) as [|e l] eqn:E.
  { unfold authorizeByLifecycle. cbn [unboundedKeyAuthorization an_Evaluable]. by rewrite orb_true_r. }
  rewrite <- E. unfold sound_lifecycle. rewrite decide_False by (intros ->; by rewrite drop_nil in E).
  cbn [kls_window]. pose proof Hi as [Hc _ _ _ Hs Hm _ _].
  apply verdict_of_authorization; [done|by rewrite E| |apply Hm|].
  - apply List.Forall_forall. intros x [Hx _]%events_of_elem. apply (Forall_drop _ k) in Hs. rewrite List.Forall_forall in Hs. by apply Hs.
  - apply List.Forall_forall. intros x [Hx _]%events_of_elem.
    pose proof (chained_drop _ _ _ _ _ k _ Hc) as Hcd. cbn [Nat.add] in Hcd.
    pose proof (chained_bound _ _ _ _ _ _ (ke_EventSeq x) Hcd) as Hb. rewrite length_drop in Hb.
    apply (in_map ke_EventSeq), list_elem_of_In in Hx. specialize (Hb Hx).
    assert (k <= length h)%nat by (destruct (Nat.le_gt_cases k (length h)); [done|]; rewrite drop_ge in Hx by lia; cbn in Hx; by apply elem_of_nil in Hx). lia.
Qed.

(** C14. The window of a key is exactly what was recorded: after any history of
    submissions, under changing anchors, some of which are refused, fail before
    a byte is written ([clean_io]: no torn write, no failing sync or close;
    [lifecycle_append_fails] shows what these do) or meet a failing compaction,
    if what landed are lines of text short enough for the scanner ([fits]), the ledger loads as verifiable, holds what landed but for a prefix that only a
    capacity drops, every key's visible events are an activation and then ends not
    before it (or, where the activation was dropped, ends), and a good signature
    of a key is judged as the table of its visible events says: before the
    activation, from the earliest end on, or good. From the earliest end on the
    verdict names a revocation if any of the visible ends is one, be it a later
    one ([later_revocation_names_rotation]); the code's comment and ADR-055 promise
    that word for a tie only. *)
Theorem lifecycle_window_exact ops w0 :
  Forall whole_op ops -> Z.of_nat (length ops) <= max_int64 ->
  let '(d, w, landed, answered) := run_list lifecycle_step (lifecycle_start w0) ops in
  Forall fits landed ->
  exists k, (cap <= 0 -> k = 0%nat /\ answered = landed) /\
    (forall key, visible_shape (events_of key (drop k landed))) /\
    forall signing verifier io, io_read io = None ->
      exists st, loadKeyLifecycleState io d (conf signing verifier) ka = Ok st /\
        kls_verifiable st = true /\ kls_entries st = drop k landed /\
        forall key v signedAt, key <> "" -> sv_Verdict v = sigVerdictOK ->
          sv_Verdict (fst (authorizeByLifecycle v signedAt (authorizationFor (Some st) key))) =
          lifecycle_verdict (events_of key (drop k landed)) signedAt.
Proof using trusted key_named.
  intros Hops Hlen. pose proof (lifecycle_run_inv ops w0 Hops Hlen) as Hrun. destruct (run_list _ _ ops) as [[[d w] landed] answered]. intros Hf.
  destruct (Hrun Hf) as (_ & Ha & k & Hi). exists k. split; [intros Hcap; split; [apply (li_free _ _ _ Hi Hcap)|by apply Ha]|].
  split; [apply (li_machine _ _ _ Hi)|]. intros st vt io Hio. exists (sound_lifecycle k landed).
  split; [by apply load_events_exact|]. split; [apply sound_verifiable|]. split; [apply sound_verifiable|]. intros key v at_ Hkey Hv. by eapply verdict_exact.
Qed.

(** Submissions only add. *)
Lemma run_lands ops st : exists more, (run_list lifecycle_step st ops).1.2 = st.1.2 ++ more.
Proof.
  induction ops as [|op ops IH] using rev_ind; [exists []; by rewrite app_nil_r|]. rewrite run_list_snoc.
  destruct IH as [more Hm]. destruct (lifecycle_step_lands (run_list lifecycle_step st ops) op) as (more' & -> & _). exists (more ++ more').
  by rewrite Hm, app_assoc.
Qed.

Lemma ended_key e l signedAt t :
  key_shape l -> In e l -> terminal e = true -> parseRFC3339Nano signedAt = Some t -> instant (ke_NotAfter e) <= t ->
  lifecycle_verdict l signedAt = if existsb revoked l then sigVerdictAfterRevocation else sigVerdictAfterRotation.
Proof.
  intros Hs Hin Ht Hp Hle. unfold lifecycle_verdict. destruct l as [|a l]; [done|]. destruct Hs as [Ha Hl]. cbn [List.find].
  rewrite Hp, Ha. destruct Hin as [<-|Hin]; [by rewrite (activation_terminal _ Ha) in Ht|].
  rewrite List.Forall_forall in Hl. destruct (Hl _ Hin) as [_ Hb]. destruct (Z.ltb_spec t (instant (ke_NotBefore a))); [lia|].
  assert (existsb (fun e => terminal e && (instant (ke_NotAfter e) <=? t)) (a :: l) = true) as ->; [|done].
  apply existsb_exists. exists e. split; [by right|]. rewrite Ht. by apply Z.leb_le.
Qed.

(** An activated key is not activated again. *)
Lemma no_resurrection h d e st vt io req at_ :
  life_inv 0 h d -> In e h -> ke_KeyID e = kr_KeyID req -> kr_EventType req = lifecycleEventActivated ->
  exists err, lifecycle_prepare io d (conf st vt) req at_ = Err err.
Proof using trusted key_named.
  intros Hi Hin Hkey Hty. pose proof Hi as [_ _ _ Hd Hsh _ Ha _]. cbn [drop] in Hd.
  unfold lifecycle_prepare. cbn [kc_ka conf]. cbv iota beta delta [ka]. fold ka.
  destruct (known_event _); cbn [negb]; [|by eexists].
  destruct (lifecycle_subject _ _) as [[pub role]|]; [|by eexists]. destruct (request_bounds req); [by eexists|].
  unfold keyLifecycleGroupOf. destruct (log_on_reads ke_EventSeq io d _ Hd) as [->|(er & -> & _)]; [|by eexists]. cbn [negb].
  rewrite (proj2 (proj2 (proj2 (entry_lines _ _ (lo_fits _ _ _ Hd))))).
  destruct (run_list _ _ _) as [[[history maxSeq] prev]|] eqn:Ew; [|by eexists].
  destruct (append_events_walk (conf st vt) ka req 0 h _ _ _ (li_chain _ _ _ Hi) Ew) as (-> & _ & _).
  unfold validateLifecycleTransition. destruct (List.find _ _); [by eexists|].
  pose proof (machine_state_spec (events_of (kr_KeyID req) h)) as [Hact _]. specialize (Ha eq_refl (kr_KeyID req)).
  assert (He : In e (events_of (kr_KeyID req) h)) by by apply events_of_elem.
  destruct (events_of (kr_KeyID req) h) as [|a l]; [done|]. destruct Ha as [Haa _]. cbn [existsb] in Hact. rewrite Haa in Hact. cbn [orb] in Hact.
  destruct (machine_state (a :: l)) as [act term]. cbn [fst] in Hact. subst act. rewrite Hty, String.eqb_refl. cbn. by eexists.
Qed.


Lemma uniform_group (role : string) rows seen :
  Forall (fun e => ke_Role e = role) rows -> (forall q r, seen !! q = Some r -> r = role) -> torn_group seen rows = false.
Proof.
  revert seen. induction rows as [|e rows IH]; intros seen Hr Hs; [done|]. apply Forall_cons in Hr as [He Hr]. cbn.
  destruct (seen !! ke_EventSeq e) as [r|] eqn:E.
  - rewrite (Hs _ _ E), He, String.eqb_refl. cbn. by apply IH.
  - apply IH; [done|]. intros q r Hq. rewrite He in Hq. apply lookup_insert_Some in Hq as [[_ <-]|[_ Hq]]; [done|by eapply Hs].
Qed.

Lemma filter_const {A} (p : A -> bool) (b : bool) l : Forall (fun x => p x = b) l -> List.filter p l = if b then l else [].
Proof. induction 1 as [|x l Hx _ IH]; cbn; [by destruct b|]. rewrite Hx, IH. by destruct b. Qed.

Lemma existsb_const {A} (p : A -> bool) (b : bool) l : Forall (fun x => p x = b) l -> l <> [] -> existsb p l = b.
Proof. intros Hl Hne. destruct Hl as [|x l Hx Hl]; [done|]. cbn. rewrite Hx. destruct b; [done|]. cbn. clear Hne. induction Hl as [|y l Hy _ IH]; [done|]. cbn. by rewrite Hy, IH. Qed.

(** The domain of a key whose rows are of one declared domain. *)
Lemma domain_uniform st key role :
  declared_role role = true -> Forall (fun e => ke_Role e = role) (rows_of st key) -> rows_of st key <> [] ->
  domainOf (Some st) key = MkDomainStatus role false.
Proof.
  intros Hd Hr Hne. unfold domainOf. set (rows := rows_of st key) in *.
  assert (Hall : forall (p : string -> bool), existsb (fun e => p (ke_Role e)) rows = p role).
  { intros p. apply existsb_const; [|done]. eapply Forall_impl; [exact Hr|]. by intros e ->. }
  rewrite (Hall (fun r => negb (String.eqb r "") && negb (declared_role r))), Hd, andb_false_r, (uniform_group role) by done.
  assert (foldl (fun last e => if declared_role (ke_Role e) then ke_Role e else last) "" rows = role) as ->.
  { clear Hall. clearbody rows. destruct rows as [|e rows _] using rev_ind; [done|]. rewrite foldl_app. cbn.
    apply Forall_app in Hr as [_ [-> _]%Forall_cons]. by rewrite Hd. }
  rewrite (Hall (fun r => String.eqb r lifecycleDomainSigning)), (Hall (fun r => String.eqb r lifecycleDomainVerifier)).
  unfold declared_role in Hd. apply orb_true_iff in Hd as [Hd|Hd]; by apply String.eqb_eq in Hd as ->.
Qed.

(** One key, one domain: after any history under changing anchors, with or
    without a capacity, no key is in conflict or migrated; the domain of a key with
    events left is that of every one of them, its interval in that domain is the
    interval the verify surface uses, and it has no rows in the other. The migrated
    keys the status speaks of cannot come from this writer. *)
Theorem one_domain ops w0 :
  Forall whole_op ops -> Z.of_nat (length ops) <= max_int64 ->
  let '(d, w, landed, answered) := run_list lifecycle_step (lifecycle_start w0) ops in
  Forall fits landed ->
  forall signing verifier io st, io_read io = None -> loadKeyLifecycleState io d (conf signing verifier) ka = Ok st ->
  forall key, key <> "" ->
    match events_of key (kls_entries st) with
    | [] => domainOf (Some st) key = MkDomainStatus lifecycleDomainUndeclared false
    | (e :: _) as evts =>
        let c := conf signing verifier in
        domainOf (Some st) key = MkDomainStatus (ke_Role e) false /\ Forall (fun e' => ke_Role e' = ke_Role e) evts /\
        authorizationForDomain c (Some st) key (ke_Role e) = (authorizationFor (Some st) key, Z.of_nat (length evts)) /\
        forall want, declared_role want = true -> want <> ke_Role e -> authorizationForDomain c (Some st) key want = (unboundedKeyAuthorization key, 0)
    end.
Proof using trusted key_named.
  intros Hops Hlen. pose proof (lifecycle_run_inv ops w0 Hops Hlen) as Hrun. destruct (run_list _ _ ops) as [[[d w] landed] answered]. intros Hf.
  destruct (Hrun Hf) as (_ & _ & k & Hi). intros signing verifier io st Hio Hload key Hkey.
  rewrite (load_events_exact _ _ _ _ _ _ Hi Hio) in Hload. injection Hload as <-.
  destruct (sound_verifiable k landed) as [Hver Hent]. rewrite Hent. pose proof (sound_rows _ _ _ key Hi) as Hrows.
  set (st := sound_lifecycle k landed) in *.
  destruct (events_of key (drop k landed)) as [|e l] eqn:E.
  { unfold domainOf. by rewrite Hrows. }
  assert (Hin : forall x, In x (e :: l) -> In x (drop k landed) /\ ke_KeyID x = key) by (intros x; rewrite <- E; apply events_of_elem).
  assert (Hr : Forall (fun e' => ke_Role e' = ke_Role e) (e :: l)).
  { apply List.Forall_forall. intros x Hx. destruct (Hin x Hx) as [Hx1 Hx2], (Hin e (or_introl eq_refl)) as [He1 He2].
    apply (li_roles _ _ _ Hi); [done..|congruence]. }
  assert (Hd : declared_role (ke_Role e) = true).
  { pose proof (Forall_drop _ k _ (li_shapes _ _ _ Hi)) as Hs. rewrite List.Forall_forall in Hs.
    by apply (Hs e), (Hin e (or_introl eq_refl)). }
  cbv zeta. split; [apply domain_uniform; [done|by rewrite Hrows|rewrite Hrows; discriminate]|]. split; [exact Hr|].
  assert (Hdom : forall want, declared_role want = true ->
    domainRows (conf signing verifier) (Some st) key want = if String.eqb (ke_Role e) want then e :: l else []).
  { intros want Hw. unfold domainRows. rewrite (proj2 (String.eqb_neq _ _) Hkey), Hrows.
    rewrite (filter_const _ (String.eqb (ke_Role e) want)) by (eapply Forall_impl; [exact Hr|]; by intros x ->).
    rewrite (filter_const _ false).
    - destruct (String.eqb (ke_Role e) want); rewrite ?app_nil_r; destruct (String.eqb want lifecycleDomainSigning),
        (trust_keys (kc_verifierTrust (conf signing verifier)) !! key), (String.eqb want lifecycleDomainVerifier); done.
    - eapply Forall_impl; [exact Hr|]. intros x ->. destruct (String.eqb_spec (ke_Role e) "") as [Ee|]; [by rewrite Ee in Hd|by rewrite andb_false_r]. }
  unfold authorizationForDomain, rowsForDomain. split.
  - rewrite Hdom, String.eqb_refl by done. destruct (Z.eqb_spec (Z.of_nat (length (e :: l))) 0); [cbn in *; lia|].
    f_equal. unfold authorizationFor. cbn [kls_verifiable kls_byKey kls_window]. rewrite lookup_singleton_eq. cbn [default from_option id].
    unfold rows_of in Hrows. by rewrite Hrows.
  - intros want Hw Hne. rewrite Hdom by done. by rewrite (proj2 (String.eqb_neq _ _)) by done.
Qed.

End Histories.

End KeyLifecycle.

(** ** An instance, and witnesses *)

#[local] Existing Instance checksum_crypto.

Definition lifecycle_fields (e : keyLifecycleEntry) : list string :=
  [Z_str (ke_V e); Z_str (ke_EventSeq e); ke_EventType e; ke_KeyID e; ke_PubkeyFingerprint e; ke_NotBefore e; ke_NotAfter e; ke_RecordedAt e;
   ke_AuthorityKeyID e; ke_StreamID e; ke_PrevEventDigest e; ke_EventDigest e; ke_Role e] ++ signature_fields (ke_Signature e).

Definition lifecycle_of_fields (l : list string) : option keyLifecycleEntry :=
  match l with
  | [v; q; ty; key; fp; nb; na; at_; auth; stream; prev; dg; role; ""] =>
      Some (MkLifecycle (str_Z v) (str_Z q) ty key fp nb na at_ auth stream prev dg None role)
  | [v; q; ty; key; fp; nb; na; at_; auth; stream; prev; dg; role; "+"; alg; kid; sg; sat] =>
      Some (MkLifecycle (str_Z v) (str_Z q) ty key fp nb na at_ auth stream prev dg (Some (MkSignature alg kid sg sat)) role)
  | _ => None
  end.

Lemma lifecycle_of_lifecycle_fields e : lifecycle_of_fields (lifecycle_fields e) = Some e.
Proof. destruct e as [? ? ? ? ? ? ? ? ? ? ? ? [[]|] ?]; cbn; by rewrite !str_Z_str. Qed.

Definition sample_lifecycle_lines : LineCodec keyLifecycleEntry lifecycle_utf8.
Proof.
  refine (fields_codec lifecycle_fields lifecycle_of_fields lifecycle_of_lifecycle_fields _). done.
Defined.

Definition sample_lifecycle : LifecycleCodec := {|
  lifecycle_signed_json e := pack [Z_str (ks_V e); Z_str (ks_EventSeq e); ks_EventType e; ks_KeyID e; ks_PubkeyFingerprint e;
    ks_NotBefore e; ks_NotAfter e; ks_RecordedAt e; ks_AuthorityKeyID e; ks_StreamID e; ks_PrevEventDigest e; ks_Role e];
  pub_bytes k := k;
  lifecycle_lines := sample_lifecycle_lines |}.

#[local] Existing Instance sample_lifecycle.

Definition signing_anchor : option exportTrustStore := Some (MkTrust (H := checksum_crypto) {[ "s1" := "one"; "s2" := "two" ]}).
Definition verifier_anchor : option exportTrustStore := Some (MkTrust (H := checksum_crypto) {[ "v1" := "three" ]}).
Definition lifecycle_ok : LifecycleIO := MkLifecycleIO io_ok io_ok io_ok.
Definition lifecycle_full : LifecycleIO := MkLifecycleIO io_ok io_open_fails io_ok.

Definition activate (io : LifecycleIO) (key from : string) : LifecycleOp :=
  MkLifecycleOp io signing_anchor verifier_anchor (MkLifecycleRequest lifecycleEventActivated key from "") "noon".
Definition finish (io : LifecycleIO) (kind key until : string) : LifecycleOp :=
  MkLifecycleOp io signing_anchor verifier_anchor (MkLifecycleRequest kind key "" until) "noon".

Definition life_run (cap : Z) (ops : list LifecycleOp) : LogDisk * unit * list keyLifecycleEntry * list keyLifecycleEntry :=
  run_list (lifecycle_step kak kak_trust cap "stream" None) (lifecycle_start tt) ops.

Definition life_state (cap : Z) (d : LogDisk) : result error keyLifecycleState :=
  loadKeyLifecycleState io_ok d (conf kak kak_trust cap "stream" signing_anchor verifier_anchor) (MkKeyAuthority (Some kak) (Some kak_trust)).

Definition good_signature : SignatureVerdict := MkSignatureVerdict sigVerdictOK "s1" "".

Definition judged (cap : Z) (ops : list LifecycleOp) (key signedAt : string) : result error string :=
  match life_state cap (life_run cap ops).1.1.1 with
  | Err e => Err e
  | Ok st => Ok (sv_Verdict (fst (authorizeByLifecycle good_signature signedAt (authorizationFor (Some st) key))))
  end.

Definition sample_life : list LifecycleOp :=
  [activate lifecycle_ok "s1" "2024-01-01T00:00:00Z"; activate lifecycle_full "s2" "2024-01-01T00:00:00Z";
   activate lifecycle_ok "v1" "2024-02-01T00:00:00Z"; finish lifecycle_ok lifecycleEventRotatedOut "s1" "2023-01-01T00:00:00Z";
   finish lifecycle_ok lifecycleEventRotatedOut "s1" "2024-06-01T00:00:00Z"; finish lifecycle_ok lifecycleEventRotatedOut "s1" "2024-06-01T00:00:00Z";
   finish lifecycle_ok lifecycleEventRevoked "s1" "2024-09-01T00:00:00Z"; activate lifecycle_ok "s1" "2025-01-01T00:00:00Z"].

Lemma sample_whole_life : Forall whole_op sample_life.
Proof. repeat (apply Forall_cons; split; [vm_compute; repeat split; discriminate|]). apply Forall_nil_2. Qed.

Lemma kak_trusted : ts_keys kak_trust !! es_keyID kak = Some (Public (es_priv kak)).
Proof. vm_compute. reflexivity. Qed.

Example lifecycle_window_exact_witness :
  length (life_run 0 sample_life).2 = 4%nat /\
  exists st, life_state 0 (life_run 0 sample_life).1.1.1 = Ok st /\
  map (fun t => sv_Verdict (fst (authorizeByLifecycle good_signature t (authorizationFor (Some st) "s1"))))
    ["2023-12-31T00:00:00Z"; "2024-05-31T23:59:59Z"; "2024-06-01T02:00:00+02:00"; "then"] =
  [sigVerdictBeforeActivation; sigVerdictOK; sigVerdictAfterRevocation; sigVerdictTimeUnparseable].
Proof.
  pose proof (lifecycle_window_exact kak kak_trust 0 "stream" None kak_trusted ltac:(discriminate) sample_life tt
    sample_whole_life ltac:(vm_compute; discriminate)) as Hx.
  assert (Hf : forallb fitsb (life_run 0 sample_life).1.2 = true) by (vm_compute; reflexivity).
  assert (Hn : length (life_run 0 sample_life).2 = 4%nat) by (vm_compute; reflexivity).
  assert (Hv : map (lifecycle_verdict (events_of "s1" (life_run 0 sample_life).1.2))
    ["2023-12-31T00:00:00Z"; "2024-05-31T23:59:59Z"; "2024-06-01T02:00:00+02:00"; "then"] =
    [sigVerdictBeforeActivation; sigVerdictOK; sigVerdictAfterRevocation; sigVerdictTimeUnparseable]) by (vm_compute; reflexivity).
  unfold life_run, life_state in *. destruct (run_list _ _ sample_life) as [[[d w] landed] answered]. cbn [fst snd] in *.
  destruct (Hx (fitsb_fits _ Hf)) as (k & Hk & _ & Hl). destruct (Hk ltac:(lia)) as [-> _].
  destruct (Hl signing_anchor verifier_anchor io_ok eq_refl) as (st & Hst & _ & _ & Hverd). split; [exact Hn|]. exists st. split; [exact Hst|].
  rewrite <- Hv. apply map_ext. intros t. apply (Hverd "s1" good_signature t); [discriminate|reflexivity].
Defined.

Definition the_end : keyLifecycleEntry := nth 2 (life_run 0 sample_life).2 (MkLifecycle 0 0 "" "" "" "" "" "" "" "" "" "" None "").


Example one_domain_witness :
  exists st, life_state 2 (life_run 2 sample_life).1.1.1 = Ok st /\ domainOf (Some st) "s1" = MkDomainStatus lifecycleDomainSigning false /\
  authorizationForDomain (conf kak kak_trust 2 "stream" signing_anchor verifier_anchor) (Some st) "s1" lifecycleDomainVerifier =
    (unboundedKeyAuthorization "s1", 0).
Proof.
  pose proof (one_domain kak kak_trust 2 "stream" None kak_trusted ltac:(discriminate) sample_life tt
    sample_whole_life ltac:(vm_compute; discriminate)) as Hx.
  assert (Hf : forallb fitsb (life_run 2 sample_life).1.2 = true) by (vm_compute; reflexivity).
  assert (Hst : match life_state 2 (life_run 2 sample_life).1.1.1 with Ok st => match events_of "s1" (kls_entries st) with
    | e :: _ => ke_Role e = lifecycleDomainSigning | [] => False end | Err _ => False end) by (vm_compute; reflexivity).
  unfold life_run in *. destruct (run_list _ _ sample_life) as [[[d w] landed] answered]. cbn [fst snd] in *.
  destruct (life_state 2 d) as [st|] eqn:E; [|done]. exists st. split; [done|].
  specialize (Hx (fitsb_fits _ Hf) signing_anchor verifier_anchor io_ok st eq_refl E "s1" ltac:(discriminate)).
  destruct (events_of "s1" (kls_entries st)) as [|e l]; [done|]. rewrite Hst in Hx. destruct Hx as (Hd & _ & _ & Hv). split; [exact Hd|].
  apply Hv; [reflexivity|discriminate].
Defined.

(** *** What a capacity does to a revocation

    A compaction drops the oldest events, whatever they say: once the activation
    of a revoked key is gone its signatures are good again, and once its revocation
    is gone too the key is activated anew. *)
Example compaction_resurrects :
  let revoked_key := [activate lifecycle_ok "s1" "2024-01-01T00:00:00Z"; finish lifecycle_ok lifecycleEventRevoked "s1" "2024-02-01T00:00:00Z"] in
  let others := [activate lifecycle_ok "s2" "2024-01-01T00:00:00Z"] in
  let more := [activate lifecycle_ok "v1" "2024-01-01T00:00:00Z"; activate lifecycle_ok "s1" "2024-03-01T00:00:00Z"] in
  judged 2 revoked_key "s1" "2024-03-01T00:00:00Z" = Ok sigVerdictAfterRevocation /\
  judged 2 (revoked_key ++ others) "s1" "2024-03-01T00:00:00Z" = Ok sigVerdictOK /\
  length (life_run 2 (revoked_key ++ others ++ more)).2 = 5%nat /\
  judged 3 (revoked_key ++ others ++ more) "s1" "2024-03-01T00:00:00Z" = Ok sigVerdictOK.
Proof. vm_compute. repeat split. Qed.

(** *** What a failing append may leave

    A write that stops within the line leaves one that cannot be read, and the
    ledger is refused from then on; a sync that fails leaves the event, though the
    submission was answered with an error. *)
Example lifecycle_append_fails :
  let after append := life_run 0 [activate lifecycle_ok "s1" "2024-01-01T00:00:00Z"; activate (MkLifecycleIO io_ok append io_ok) "s2" "2024-01-01T00:00:00Z"] in
  length (after io_torn).2 = 1%nat /\ is_ok (life_state 0 (after io_torn).1.1.1) = false /\
  length (after io_sync_fails).2 = 1%nat /\
  match life_state 0 (after io_sync_fails).1.1.1 with Ok st => length (kls_entries st) = 2%nat | Err _ => False end.
Proof. vm_compute. repeat split. Qed.

(** *** An earlier rotation is reported as a revocation

    Only a tie should take the stronger word; any revocation takes it. *)
Example later_revocation_names_rotation :
  judged 0 [activate lifecycle_ok "s1" "2024-01-01T00:00:00Z"; finish lifecycle_ok lifecycleEventRotatedOut "s1" "2024-02-01T00:00:00Z";
            finish lifecycle_ok lifecycleEventRevoked "s1" "2024-09-01T00:00:00Z"] "s1" "2024-03-01T00:00:00Z" = Ok sigVerdictAfterRevocation.
Proof. vm_compute. reflexivity. Qed.
