(* ===== verification/Destruction.v ===== *)
(** * The destruction log (internal/controlplane/server/snapshot_destruction.go)

    Whatever destroys evidence first writes down, signed by the key authority,
    what it is about to destroy, and then how it ended. A group of the log is an
    intent and at most one end. The loader, the writer with the log's own
    compaction, the observer that the compactions of the other logs install, and
    the reconciliation of what has disappeared with what is accounted for. *)

From Stdlib Require Import Ascii.
From S2P Require Import Prelude GoStrings GoTime Manifest AppendLog Ledger SignedLog KeyLifecycle.

(** ** Data *)

Definition destructionKindSnapshotRetention : string := "snapshot_retention".
Definition destructionKindLedgerCompaction : string := "ledger_compaction".
Definition destructionKindAnchorCompaction : string := "anchor_compaction".
Definition destructionKindKeyLifecycleCompaction : string := "key_lifecycle_compaction".
Definition destructionKindVerificationCompaction : string := "verification_compaction".
Definition destructionKindSelfCompaction : string := "self_compaction".
Definition destructionKindAcceptanceCompaction : string := "acceptance_compaction".

Definition destructionKinds : list string :=
  [destructionKindSnapshotRetention; destructionKindLedgerCompaction; destructionKindAnchorCompaction; destructionKindKeyLifecycleCompaction;
   destructionKindVerificationCompaction; destructionKindSelfCompaction; destructionKindAcceptanceCompaction].

Definition destructionStateIntended : string := "intended".
Definition destructionStateCompleted : string := "completed".
Definition destructionStateAborted : string := "aborted".

Definition destructionVerdictAccounted : string := "accounted".
Definition destructionVerdictUnaccounted : string := "unaccounted_disappearance".
Definition destructionVerdictUnconfirmed : string := "destruction_unconfirmed".
Definition destructionVerdictUnauthorized : string := "destruction_unauthorized".
Definition destructionVerdictConflict : string := "destruction_conflict".
Definition destructionVerdictChainBroken : string := "destruction_chain_broken".
Definition destructionVerdictWindowDiscontinuous : string := "destruction_window_discontinuous".
Definition destructionVerdictAbsent : string := "destruction_absent".

Record destructionTarget : Type := MkTarget {
  dt_PublicationID : Z;
  dt_ManifestDigest : string;
  dt_FromSeq : Z;
  dt_ToSeq : Z;
  dt_PrefixDigest : string }.

Record destructionEntry : Type := MkDestruction {
  de_V : Z;
  de_DestructionSeq : Z;
  de_Kind : string;
  de_Targets : list destructionTarget;
  de_DestroyedCount : Z;
  de_Policy : string;
  de_RecordedAt : string;
  de_AuthorityKeyID : string;
  de_StreamID : string;
  de_PrevDigest : string;
  de_TargetDigestUnavailable : list string;
  de_EntryDigest : string;
  de_Signature : option signatureBlock;
  de_State : string }.

Record destructionSigned : Type := MkDestructionSigned {
  dg_V : Z;
  dg_DestructionSeq : Z;
  dg_Kind : string;
  dg_Targets : list destructionTarget;
  dg_DestroyedCount : Z;
  dg_Policy : string;
  dg_RecordedAt : string;
  dg_AuthorityKeyID : string;
  dg_StreamID : string;
  dg_PrevDigest : string;
  dg_TargetDigestUnavailable : list string }.

Definition destructionSignedFields (e : destructionEntry) : destructionSigned :=
  MkDestructionSigned (de_V e) (de_DestructionSeq e) (de_Kind e) (de_Targets e) (de_DestroyedCount e) (de_Policy e) (de_RecordedAt e)
    (de_AuthorityKeyID e) (de_StreamID e) (de_PrevDigest e) (de_TargetDigestUnavailable e).

Definition target_utf8 (t : destructionTarget) : bool := ValidString (dt_ManifestDigest t) && ValidString (dt_PrefixDigest t).

Definition destruction_utf8 (e : destructionEntry) : bool :=
  forallb ValidString ([de_Kind e; de_Policy e; de_RecordedAt e; de_AuthorityKeyID e; de_StreamID e; de_PrevDigest e; de_EntryDigest e; de_State e] ++
    de_TargetDigestUnavailable e) && forallb target_utf8 (de_Targets e) && from_option signature_utf8 true (de_Signature e).

(** The JSON of a line and of its payload. *)
Class DestructionCodec `{ManifestCrypto} := {
  destruction_signed_json : destructionSigned -> string;
  destruction_lines :: LineCodec destructionEntry destruction_utf8 }.

Section Destruction.
Context `{DestructionCodec}.

Definition canonicalDestructionPayload (e : destructionEntry) : string := destruction_signed_json (destructionSignedFields e).
Definition destructionPayloadEqual (a b : destructionEntry) : bool := String.eqb (canonicalDestructionPayload a) (canonicalDestructionPayload b).
Definition destructionEntryDigest (e : destructionEntry) : string := hex_EncodeToString (Sum256 (canonicalDestructionPayload e)).
Definition destructionLineDigest (e : destructionEntry) : string :=
  hex_EncodeToString (Sum256 (de_PrevDigest e +:+ ":" +:+ de_EntryDigest e +:+ ":" +:+ de_State e)).
Definition serializeDestructionEntryBytes (e : destructionEntry) : string := serialize e.
Definition destructionGroupOf : string -> Z * bool := groupOf de_DestructionSeq.

(** ** Signatures *)

Definition with_seal (e : destructionEntry) (prev digest : string) (s : option signatureBlock) : destructionEntry :=
  MkDestruction (de_V e) (de_DestructionSeq e) (de_Kind e) (de_Targets e) (de_DestroyedCount e) (de_Policy e) (de_RecordedAt e)
    (de_AuthorityKeyID e) (de_StreamID e) prev (de_TargetDigestUnavailable e) digest s (de_State e).

Definition signDestructionEntry (s : option exportSigner) (e : destructionEntry) (at_ : string) : result error destructionEntry :=
  match sign_block "destruction: no key-authority (KAK) private key configured" "destruction: private key is not a valid Ed25519 key" s
          (canonicalDestructionPayload e) at_ with
  | Err err => Err err
  | Ok sb => Ok (with_seal e (de_PrevDigest e) (de_EntryDigest e) (Some sb))
  end.

Definition verifyDestructionEntrySignature (e : destructionEntry) (trust : option exportTrustStore) : SignatureVerdict :=
  verify_block "destruction" "record" (de_AuthorityKeyID e) (de_AuthorityKeyID e) (canonicalDestructionPayload e) (de_Signature e) trust.

Definition line_signed (ka : keyAuthority) (e : destructionEntry) : bool :=
  String.eqb (sv_Verdict (verifyDestructionEntrySignature e (ka_trust ka))) sigVerdictOK.

(** ** Configuration *)

(** [dc_anchored]: whether ends are handed to the anchors. *)
Record destructionConfig : Type := MkDestructionConfig {
  dc_capacity : Z;
  dc_ka : option keyAuthority;
  dc_streamID : string;
  dc_on : bool;
  dc_anchored : bool }.

Definition dc_enabled (c : destructionConfig) : bool := dc_on c && ka_verifiable (dc_ka c).
Definition dc_writable (c : destructionConfig) : bool := dc_on c && ka_writable (dc_ka c).

Definition foreign_line (c : destructionConfig) (e : destructionEntry) : bool :=
  negb (String.eqb (dc_streamID c) "") && negb (String.eqb (de_StreamID e) "") && negb (String.eqb (de_StreamID e) (dc_streamID c)).

(** ** Loading *)

Record destructionGroup : Type := MkGroup {
  gr_seq : Z;
  gr_state : string;
  gr_entry : destructionEntry;
  gr_lines : Z;
  gr_usable : bool;
  gr_verdict : string;
  gr_detail : string }.

Record destructionState : Type := MkDestructionState {
  dst_groups : list destructionGroup;
  dst_window : logWindow;
  dst_verifiable : bool;
  dst_errs : list string;
  dst_total : Z }.

Definition empty_destruction : destructionState := MkDestructionState [] (MkWindow 0 0 0 false) true [] 0.

Definition find_group (seq : Z) (gs : list destructionGroup) : option destructionGroup := List.find (fun g => gr_seq g =? seq) gs.

(** The group of a sequence is changed where it stands. *)
Definition alter_group (seq : Z) (f : destructionGroup -> destructionGroup) (gs : list destructionGroup) : list destructionGroup :=
  map (fun g => if gr_seq g =? seq then f g else g) gs.

Definition markProblem (seq : Z) (verdict detail : string) (st : destructionState) : destructionState :=
  MkDestructionState
    (alter_group seq (fun g => MkGroup (gr_seq g) (gr_state g) (gr_entry g) (gr_lines g) false
       (if String.eqb (gr_verdict g) "" then verdict else gr_verdict g) (if String.eqb (gr_verdict g) "" then detail else gr_detail g))
       (dst_groups st))
    (dst_window st) (dst_verifiable st)
    (dst_errs st ++ ["destruction_seq " +:+ pretty seq +:+ ": " +:+ verdict +:+ " (" +:+ detail +:+ ")"]) (dst_total st).

(** What the walks carry from line to line: the digest of the last line, the
    pointer that the lines of the group carry, whether the group is the first, the
    sequence of the group. *)
Record lineWalk : Type := MkWalk { lk_prevLine : string; lk_groupPrev : string; lk_exempt : bool; lk_seq : option Z }.

Definition walk_start : lineWalk := MkWalk "" "" true None.

Definition walk_line (w : lineWalk) (first : bool) (seq : Z) : lineWalk :=
  match lk_seq w with
  | Some s => if s =? seq then w else MkWalk (lk_prevLine w) (lk_prevLine w) first (Some seq)
  | None => MkWalk (lk_prevLine w) (lk_prevLine w) first (Some seq)
  end.

(** The line joins its group, or opens it. *)
Definition join_group (e : destructionEntry) (st : destructionState) : destructionState :=
  MkDestructionState
    (match find_group (de_DestructionSeq e) (dst_groups st) with
     | None => dst_groups st ++ [MkGroup (de_DestructionSeq e) (de_State e) e 1 true "" ""]
     | Some _ => alter_group (de_DestructionSeq e) (fun g => MkGroup (gr_seq g) (gr_state g) (gr_entry g) (gr_lines g + 1) (gr_usable g)
                   (gr_verdict g) (gr_detail g)) (dst_groups st)
     end) (dst_window st) (dst_verifiable st) (dst_errs st) (dst_total st + 1).

Definition check_authority (c : destructionConfig) (ka : keyAuthority) (e : destructionEntry) (st : destructionState) : destructionState :=
  let v := verifyDestructionEntrySignature e (ka_trust ka) in
  let problem := markProblem (de_DestructionSeq e) in
  if negb (line_signed ka e) then problem destructionVerdictUnauthorized (sv_Verdict v +:+ ": " +:+ sv_Detail v) st
  else if foreign_line c e then problem destructionVerdictUnauthorized ("belongs to stream " +:+ de_StreamID e +:+ ", not this export directory") st
  else if negb (String.eqb (destructionEntryDigest e) (de_EntryDigest e)) then
    problem destructionVerdictChainBroken "entry_digest does not match its canonical payload" st
  else st.

Definition check_order (w : lineWalk) (e : destructionEntry) (st : destructionState) : destructionState :=
  if negb (lk_exempt w) && negb (String.eqb (de_PrevDigest e) (lk_groupPrev w)) then
    let st := markProblem (de_DestructionSeq e) destructionVerdictChainBroken "prev_digest breaks the line chain" st in
    MkDestructionState (dst_groups st) (dst_window st) false
      (dst_errs st ++ ["destruction_seq " +:+ pretty (de_DestructionSeq e) +:+ ": prev_digest breaks the line chain"]) (dst_total st)
  else st.

Definition terminal_state (s : string) : bool := String.eqb s destructionStateCompleted || String.eqb s destructionStateAborted.

Definition check_machine (e : destructionEntry) (st : destructionState) : destructionState :=
  let problem := markProblem (de_DestructionSeq e) destructionVerdictConflict in
  match find_group (de_DestructionSeq e) (dst_groups st) with
  | None => st
  | Some g =>
      if gr_lines g =? 1 then
        if negb (String.eqb (de_State e) destructionStateIntended) then
          problem ("the first line of a group must be intended, got " +:+ de_State e) st
        else st
      else if 2 <? gr_lines g then problem "a third line after a terminal state is a conflict" st
      else if negb (String.eqb (gr_state g) destructionStateIntended) then problem ("cannot advance from terminal state " +:+ gr_state g) st
      else if negb (destructionPayloadEqual (gr_entry g) e) then problem "a second line with a different payload is a conflict" st
      else if negb (terminal_state (de_State e)) then problem (de_State e +:+ " is not a legal advance from intended") st
      else MkDestructionState (alter_group (de_DestructionSeq e) (fun g => MkGroup (gr_seq g) (de_State e) (gr_entry g) (gr_lines g)
             (gr_usable g) (gr_verdict g) (gr_detail g)) (dst_groups st)) (dst_window st) (dst_verifiable st) (dst_errs st) (dst_total st)
  end.

Definition load_destruction_line (c : destructionConfig) (ka : keyAuthority) (acc : destructionState * lineWalk * bool) (e : destructionEntry)
  : destructionState * lineWalk * bool :=
  let '(st, w, first) := acc in
  let w := walk_line w first (de_DestructionSeq e) in
  let st := check_machine e (check_order w e (check_authority c ka e (join_group e st))) in
  (st, MkWalk (destructionLineDigest e) (lk_groupPrev w) (lk_exempt w) (lk_seq w), false).

Definition destruction_window (st : destructionState) : destructionState :=
  let w := window_of (map gr_seq (dst_groups st)) in
  if lw_Continuous w then MkDestructionState (dst_groups st) w (dst_verifiable st) (dst_errs st) (dst_total st)
  else MkDestructionState (dst_groups st) w false
         (dst_errs st ++ ["window_discontinuous: the surviving destruction_seq run has a hole — no disappearance may be asserted"]) (dst_total st).

Definition loadDestructionState (io : LogIO) (d : LogDisk) (c : destructionConfig) : result error destructionState :=
  match dc_ka c with
  | Some ka =>
      if negb (dc_enabled c) then Ok empty_destruction
      else match readLogLines io destructionGroupOf d with
        | Err e => Err e
        | Ok (lines, ok) =>
            if negb ok then
              Err ("destruction log holds " +:+ pretty (countUnclassified lines) +:+ " unclassifiable line(s); refusing to evaluate it")
            else match decode_lines lines with
              | None => Err "destruction line is not readable"
              | Some [] => Ok empty_destruction
              | Some es => let '(st, _, _) := run_list (load_destruction_line c ka) (empty_destruction, walk_start, true) es in
                           Ok (destruction_window st)
              end
        end
  | None => Ok empty_destruction
  end.

(** ** Writing

    The calls of an operation on the log, in their order: the directory, how many
    calls were made, and the ends to be handed to the anchors. [calls] are the
    failures that the calls meet. [dd_landed] only watches: the entries whose
    append succeeded. *)

Record DState : Type := MkDState {
  dd_disk : LogDisk;
  dd_calls : nat;
  dd_pending : list destructionEntry;
  dd_landed : list destructionEntry }.

Definition DM (A : Type) : Type := DState -> DState * result error A.

Definition d_ret {A} (x : A) : DM A := fun s => (s, Ok x).
Definition d_fail {A} (e : error) : DM A := fun s => (s, Err e).
Definition d_bind {A B} (m : DM A) (k : A -> DM B) : DM B := fun s => match m s with (s, Ok x) => k x s | (s, Err e) => (s, Err e) end.
Definition d_lift {A} (r : result error A) : DM A := fun s => (s, r).

#[local] Notation "'let!' x ':=' m 'in' k" := (d_bind m (fun x => k)) (at level 10, x pattern, m at level 100, k at level 200).
#[local] Notation "m1 ';;;' m2" := (d_bind m1 (fun _ => m2)) (at level 100, right associativity).

Section Writing.
Context (calls : nat -> LogIO).

Definition d_read : DM (list logLine * bool) := fun s =>
  (MkDState (dd_disk s) (S (dd_calls s)) (dd_pending s) (dd_landed s), readLogLines (calls (dd_calls s)) destructionGroupOf (dd_disk s)).

Definition d_append (e : destructionEntry) : DM unit := fun s =>
  let '(states, err) := appendLogLine (calls (dd_calls s)) (dd_disk s) (serializeDestructionEntryBytes e) in
  (MkDState (final (dd_disk s) states) (S (dd_calls s)) (dd_pending s) (dd_landed s ++ match err with Some _ => [] | None => [e] end),
   match err with Some e => Err e | None => Ok tt end).

Definition d_rewrite (lines : list logLine) : DM unit := fun s =>
  let '(states, err) := rewriteLogLines (calls (dd_calls s)) (dd_disk s) lines in
  (MkDState (final (dd_disk s) states) (S (dd_calls s)) (dd_pending s) (dd_landed s), match err with Some e => Err e | None => Ok tt end).

Definition d_load (c : destructionConfig) : DM destructionState := fun s =>
  (MkDState (dd_disk s) (S (dd_calls s)) (dd_pending s) (dd_landed s), loadDestructionState (calls (dd_calls s)) (dd_disk s) c).

Definition d_push (e : destructionEntry) : DM unit := fun s => (MkDState (dd_disk s) (dd_calls s) (dd_pending s ++ [e]) (dd_landed s), Ok tt).

(** The walk before an append: the greatest sequence, and of each group its
    lines, its payload, its state and the digest of its last line. *)
Record groupFacts : Type := MkFacts { gf_lines : Z; gf_payload : destructionEntry; gf_state : string; gf_lastLd : string }.

Record appendWalk : Type := MkAppendWalk { wk_walk : lineWalk; wk_maxSeq : Z; wk_groups : gmap Z groupFacts }.

Definition append_destruction_line (c : destructionConfig) (ka : keyAuthority) (acc : result error (appendWalk * bool)) (p : destructionEntry)
  : result error (appendWalk * bool) :=
  match acc with
  | Err e => Err e
  | Ok (a, first) =>
      let seq := de_DestructionSeq p in
      let w := walk_line (wk_walk a) first seq in
      let v := verifyDestructionEntrySignature p (ka_trust ka) in
      if negb (line_signed ka p) then
        Err ("destruction: refusing to append — destruction_seq " +:+ pretty seq +:+ " is " +:+ sv_Verdict v +:+ " (" +:+ sv_Detail v +:+ ")")
      else if foreign_line c p then
        Err ("destruction: refusing to append — destruction_seq " +:+ pretty seq +:+ " belongs to another export directory")
      else if negb (lk_exempt w) && negb (String.eqb (de_PrevDigest p) (lk_groupPrev w)) then
        Err ("destruction: refusing to append — destruction_seq " +:+ pretty seq +:+ " breaks the line chain")
      else
        let ld := destructionLineDigest p in
        let facts := match wk_groups a !! seq with
          | None => MkFacts 1 p (de_State p) ld
          | Some f => MkFacts (gf_lines f + 1) (gf_payload f) (de_State p) ld
          end in
        Ok (MkAppendWalk (MkWalk ld (lk_groupPrev w) (lk_exempt w) (lk_seq w)) (if wk_maxSeq a <? seq then seq else wk_maxSeq a)
              (<[seq := facts]> (wk_groups a)), false)
  end.

(** An intent becomes a group of its own. *)
Definition open_entry (c : destructionConfig) (signer : exportSigner) (a : appendWalk) (e : destructionEntry) (at_ : string)
  : result error destructionEntry :=
  let e := MkDestruction 1 (wrap64 (wk_maxSeq a + 1)) (de_Kind e) (de_Targets e) (de_DestroyedCount e) (de_Policy e) at_ (es_keyID signer)
    (dc_streamID c) (lk_prevLine (wk_walk a)) (de_TargetDigestUnavailable e) "" None (de_State e) in
  if negb (existsb (String.eqb (de_Kind e)) destructionKinds) then Err ("destruction: unknown kind " +:+ de_Kind e)
  else match de_Targets e with
    | [] => Err "destruction: refusing to record a destruction with no targets"
    | _ => signDestructionEntry (Some signer) (with_seal e (de_PrevDigest e) (destructionEntryDigest e) None) at_
    end.

(** An end takes over the payload and the signature of its intent, which must
    still be the last line. *)
Definition advance_entry (a : appendWalk) (e : destructionEntry) : result error destructionEntry :=
  let seq := pretty (de_DestructionSeq e) in
  match wk_groups a !! de_DestructionSeq e with
  | None => Err ("destruction: refusing to advance destruction_seq " +:+ seq +:+ " — no intended line exists")
  | Some f =>
      if 2 <=? gf_lines f then Err ("destruction: refusing to append — destruction_seq " +:+ seq +:+ " is already terminal")
      else if negb (String.eqb (gf_state f) destructionStateIntended) then
        Err ("destruction: refusing to append — destruction_seq " +:+ seq +:+ " is " +:+ gf_state f +:+ ", not intended")
      else if negb (destructionPayloadEqual (gf_payload f) e) then
        Err ("destruction: refusing to append — destruction_seq " +:+ seq +:+ " payload differs from its intended line")
      else if negb (String.eqb (lk_prevLine (wk_walk a)) (gf_lastLd f)) then
        Err ("destruction: refusing to advance destruction_seq " +:+ seq +:+ " — the group is no longer the chain tail (another destruction opened after it); it stays intended and will surface as destruction_unconfirmed")
      else Ok (with_seal e (de_PrevDigest (gf_payload f)) (de_EntryDigest (gf_payload f)) (de_Signature (gf_payload f)))
  end.

(** An append up to and including the line. *)
Definition append_core (c : destructionConfig) (e : destructionEntry) (at_ : string) : DM destructionEntry :=
  match dc_ka c with
  | Some (MkKeyAuthority (Some signer) (Some trust) as ka) =>
      if negb (dc_on c) then d_fail "destruction: no key-authority key configured (writes disabled)"
      else
        let! r := d_read in
        let '(lines, ok) := r in
        if negb ok then
          d_fail ("destruction log holds " +:+ pretty (countUnclassified lines) +:+ " unclassifiable line(s); refusing to append")
        else match decode_lines lines with
          | None => d_fail "destruction line is not readable"
          | Some es =>
              let! a := d_lift (run_list (append_destruction_line c ka) (Ok (MkAppendWalk walk_start 0 ∅, true)) es) in
              let! e := d_lift (if String.eqb (de_State e) destructionStateIntended then open_entry c signer (fst a) e at_
                                else advance_entry (fst a) e) in
              d_append e ;;; d_ret e
          end
  | _ => d_fail "destruction: no key-authority key configured (writes disabled)"
  end.

Definition beginDestructionLocked (c : destructionConfig) (kind policy : string) (unavailable : list string) (targets : list destructionTarget)
    (destroyedCount : Z) (at_ : string) : DM destructionEntry :=
  if negb (dc_writable c) then d_fail "destruction: not writable"
  else append_core c (MkDestruction 0 0 kind targets destroyedCount policy "" "" "" "" unavailable "" None destructionStateIntended) at_.

(** The rest takes the append of an end, which may itself compact the log. *)
Definition completeDestructionLocked (append : destructionEntry -> DM destructionEntry) (c : destructionConfig) (seq : Z) (state : string)
  : DM unit :=
  if negb (dc_writable c) then d_fail "destruction: not writable"
  else
    let! st := d_load c in
    match find_group seq (dst_groups st) with
    | None => d_fail ("destruction: group " +:+ pretty seq +:+ " vanished before it could be closed")
    | Some g =>
        let e := gr_entry g in
        let! e := append (MkDestruction (de_V e) (de_DestructionSeq e) (de_Kind e) (de_Targets e) (de_DestroyedCount e) (de_Policy e)
          (de_RecordedAt e) (de_AuthorityKeyID e) (de_StreamID e) (de_PrevDigest e) (de_TargetDigestUnavailable e) (de_EntryDigest e)
          (de_Signature e) state) in
        d_push e
    end.

(** The targets of a dropped prefix. *)
Definition prefix_digest (lines : list logLine) : string := hex_EncodeToString (Sum256 (lines_bytes lines)).

Definition range_target (groups : list Z) (lines : list logLine) : list destructionTarget :=
  match groups with
  | [] => []
  | g :: gs => [MkTarget 0 "" (foldl Z.min g gs) (foldl Z.max g gs) (prefix_digest lines)]
  end.

(** From the intent of a compaction on: the survivors and the intent become the
    log, and the intent is ended. *)
Definition self_rewrite (append : destructionEntry -> DM destructionEntry) (c : destructionConfig) (kept : list logLine)
    (intent : destructionEntry) : DM unit :=
  let! st := d_load c in
  match find_group (de_DestructionSeq intent) (dst_groups st) with
  | None => d_fail ("destruction: self_compaction group " +:+ pretty (de_DestructionSeq intent) +:+ " not found after append")
  | Some g =>
      let line := MkLogLine (TrimSpace (serializeDestructionEntryBytes (gr_entry g))) (de_DestructionSeq intent) true in
      d_rewrite (kept ++ [line]) ;;;
      completeDestructionLocked append c (de_DestructionSeq intent) destructionStateCompleted
  end.

Definition compactDestructionSelfLocked (append : destructionEntry -> DM destructionEntry) (c : destructionConfig) (at_ : string) : DM unit :=
  let! r := d_read in
  let '(lines, ok) := r in
  if negb ok then
    d_fail ("destruction self-compaction refused: " +:+ pretty (countUnclassified lines) +:+ " unclassifiable line(s) present")
  else
    let order := group_order ∅ lines in
    if Z.of_nat (length order) <=? dc_capacity c then d_ret tt
    else
      let keep := Z.to_nat (dc_capacity c - 1) in
      let drop : gset Z := list_to_set (take (length order - keep) order) in
      let kept := base.filter (fun l => ll_group l ∉ drop) lines in
      let dropped := dropped_lines drop lines in
      match dropped with
      | [] => d_ret tt
      | _ =>
          let! intent := beginDestructionLocked c destructionKindSelfCompaction ("capacity=" +:+ pretty (dc_capacity c)) []
            (range_target (map ll_group dropped) dropped) (Z.of_nat (length dropped)) at_ in
          self_rewrite append c kept intent
      end.

Definition out_of_fuel : error := "self-compaction: out of fuel".

(** An append in full: an end may compact the log, which appends an end itself. *)
Definition append_and_compact (append : destructionEntry -> DM destructionEntry) (c : destructionConfig) (at_ : string) (e : destructionEntry)
  : DM destructionEntry :=
  let! e := append_core c e at_ in
  if (0 <? dc_capacity c) && negb (String.eqb (de_State e) destructionStateIntended) then
    compactDestructionSelfLocked append c at_ ;;; d_ret e
  else d_ret e.

(** [fuel] bounds the appends inside appends. *)
Fixpoint appendDestructionEntryLocked (fuel : nat) (c : destructionConfig) (at_ : string) (e : destructionEntry) : DM destructionEntry :=
  match fuel with
  | O => d_fail out_of_fuel
  | S fuel => append_and_compact (appendDestructionEntryLocked fuel c at_) c at_ e
  end.

(** *** The public operations, under the mutex

    They answer the directory, what they hand to the anchors, what landed, and
    the result. *)

Definition beginDestruction (c : destructionConfig) (kind policy : string) (unavailable : list string) (targets : list destructionTarget)
    (destroyedCount : Z) (at_ : string) (d : LogDisk)
  : LogDisk * list destructionEntry * list destructionEntry * result error destructionEntry :=
  let '(s, r) := beginDestructionLocked c kind policy unavailable targets destroyedCount at_ (MkDState d 0 [] []) in
  (dd_disk s, if dc_anchored c then dd_pending s else [], dd_landed s, r).

(** The fuel that is enough ([compaction_once]). *)
Definition enough : nat := 2.

Definition completeDestruction (c : destructionConfig) (seq : Z) (state at_ : string) (d : LogDisk)
  : LogDisk * list destructionEntry * list destructionEntry * result error unit :=
  let '(s, r) := completeDestructionLocked (appendDestructionEntryLocked enough c at_) c seq state (MkDState d 0 [] []) in
  (dd_disk s, if dc_anchored c then dd_pending s else [], dd_landed s, r).

Definition compactDestructionSelf (c : destructionConfig) (at_ : string) (d : LogDisk)
  : LogDisk * list destructionEntry * list destructionEntry * result error unit :=
  let '(s, r) := compactDestructionSelfLocked (appendDestructionEntryLocked enough c at_) c at_ (MkDState d 0 [] []) in
  (dd_disk s, if dc_anchored c then dd_pending s else [], dd_landed s, r).

End Writing.

(** ** The observer of the other logs' compactions *)

(** The destruction log, what was handed to the anchors, what landed in the log,
    the scheduler's last error. *)
Record DestructionWorld : Type := MkDestructionWorld {
  dw_disk : LogDisk;
  dw_dispatched : list destructionEntry;
  dw_landed : list destructionEntry;
  dw_error : string }.

(** The failures and the times of the two halves. *)
Record ObserverIO : Type := MkObserverIO { oio_begin : nat -> LogIO; oio_at : string; oio_end : nat -> LogIO; oio_end_at : string }.

Definition record_error {A} (r : result error A) (w : string) : string := match r with Ok _ => w | Err e => e end.

Definition destructionObserver (c : destructionConfig) (kind : string) (io : ObserverIO) : option (compactionObserver DestructionWorld) :=
  if negb (dc_enabled c) then None
  else Some (fun w groups lines =>
    if negb (dc_writable c) then (w, Ok None)
    else match lines with
      | [] => (w, Ok None)
      | _ =>
          let '(d, out, landed, r) := beginDestruction (oio_begin io) c kind ("capacity=" +:+ pretty (dc_capacity c)) []
            (range_target groups lines) (Z.of_nat (length lines)) (oio_at io) (dw_disk w) in
          let w := MkDestructionWorld d (dw_dispatched w ++ out) (dw_landed w ++ landed) (record_error r (dw_error w)) in
          match r with
          | Err e => (w, Err e)
          | Ok intent =>
              (w, Ok (Some (fun w =>
                let '(d, out, landed, r) := completeDestruction (oio_end io) c (de_DestructionSeq intent) destructionStateCompleted (oio_end_at io) (dw_disk w) in
                (MkDestructionWorld d (dw_dispatched w ++ out) (dw_landed w ++ landed) (record_error r (dw_error w)),
                 match r with Ok _ => None | Err e => Some e end))))
          end
      end).

(** ** The reconciliation *)

Record knownPublication : Type := MkKnown { kp_digest : string; kp_publishedAt : string }.

Record destructionProblem : Type := MkDestructionProblem { dp_DestructionSeq : Z; dp_Verdict : string; dp_Detail : string }.

Record DestructionReport : Type := MkReport {
  dv_Enabled : bool;
  dv_Verdict : string;
  dv_Window : option logWindow;
  dv_Absent : bool;
  dv_WindowDiscontinuous : bool;
  dv_Missing : list Z;
  dv_Accounted : list Z;
  dv_Unaccounted : list Z;
  dv_NotAssertable : list Z;
  dv_Unconfirmed : list Z;
  dv_Problems : list destructionProblem;
  dv_Reason : string;
  dv_Error : string }.

Definition group_problems (st : destructionState) : list destructionProblem :=
  map (fun g => MkDestructionProblem (gr_seq g) (gr_verdict g) (gr_detail g)) (List.filter (fun g => negb (gr_usable g)) (dst_groups st)).

Definition open_groups (st : destructionState) : list Z :=
  map gr_seq (List.filter (fun g => gr_usable g && String.eqb (gr_state g) destructionStateIntended) (dst_groups st)).

(** Whether a target accounts for a publication of the census. *)
Definition target_covers (existed : gmap Z knownPublication) (t : destructionTarget) : bool :=
  negb (dt_PublicationID t =? 0) &&
  (String.eqb (dt_ManifestDigest t) "" ||
   match existed !! dt_PublicationID t with
   | Some known => String.eqb (kp_digest known) "" || String.eqb (kp_digest known) (dt_ManifestDigest t)
   | None => true
   end).

Definition covered_ids (existed : gmap Z knownPublication) (st : destructionState) : gset Z :=
  list_to_set (map dt_PublicationID (List.filter (target_covers existed)
    (concat (map (fun g => de_Targets (gr_entry g))
      (List.filter (fun g => gr_usable g && String.eqb (gr_state g) destructionStateCompleted) (dst_groups st)))))).

Inductive missingClass : Type := Accounted | Unaccounted | NoTime | Predates.

Definition classify_missing (existed : gmap Z knownPublication) (st : destructionState) (id : Z) : missingClass :=
  let oldest := match dst_groups st with [] => "" | g :: _ => de_RecordedAt (gr_entry g) end in
  let published := from_option kp_publishedAt "" (existed !! id) in
  if decide (id ∈ covered_ids existed st) then Accounted
  else if lw_Min (dst_window st) <=? 1 then Unaccounted
  else if String.eqb oldest "" || String.eqb published "" then NoTime
  else if 0 <=? compareRFC3339 published oldest then Unaccounted else Predates.

Definition missing_of (existed : gmap Z knownPublication) (present : gset Z) : list Z := sort_slice Z.ltb (elements (dom existed ∖ present)).

Definition class_is (k : missingClass -> bool) (existed : gmap Z knownPublication) (st : destructionState) (ids : list Z) : list Z :=
  List.filter (fun id => k (classify_missing existed st id)) ids.

Definition is_accounted (k : missingClass) : bool := match k with Accounted => true | _ => false end.
Definition is_unaccounted (k : missingClass) : bool := match k with Unaccounted => true | _ => false end.
Definition is_no_time (k : missingClass) : bool := match k with NoTime => true | _ => false end.
Definition is_not_assertable (k : missingClass) : bool := match k with NoTime | Predates => true | _ => false end.

(** What the census and a log that is in order give. *)
Definition reconcile_destruction (st : destructionState) (existed : gmap Z knownPublication) (present : gset Z) : DestructionReport :=
  let missing := missing_of existed present in
  let unaccounted := class_is is_unaccounted existed st missing in
  let notAssertable := class_is is_not_assertable existed st missing in
  let unconfirmed := open_groups st in
  let problems := group_problems st in
  let reasons :=
    map (fun id => "publication " +:+ pretty id +:+ " has no recoverable publish time — its covering record may predate the assertion boundary")
      (class_is is_no_time existed st missing) ++
    match notAssertable with
    | [] => []
    | _ => [pretty (length notAssertable) +:+ " missing publication(s) predate the oldest surviving destruction record (min_seq=" +:+
            pretty (lw_Min (dst_window st)) +:+ ") — a legal prefix compaction may have dropped their record"]
    end in
  let report verdict more := MkReport true verdict (Some (dst_window st)) false false missing (class_is is_accounted existed st missing) unaccounted
    notAssertable unconfirmed problems (String.concat "; " (reasons ++ more)) "" in
  match unaccounted, unconfirmed, problems, missing with
  | _ :: _, _, _, _ => report destructionVerdictUnaccounted []
  | [], _ :: _, _, _ => report destructionVerdictUnconfirmed
      ["at least one group is stuck at `intended`: the destruction may have happened but was never closed (crash or refusal)"]
  | [], [], _ :: _, _ => report destructionVerdictConflict []
  | [], [], [], [] => report destructionVerdictAccounted
      ["every publication known to have existed is still present, or its removal is covered by an authorized destruction record"]
  | [], [], [], _ => report destructionVerdictAccounted []
  end.

(** [DestructionView]; the two censuses of publications are what the other
    components answer. *)
Definition DestructionView (io : LogIO) (c : destructionConfig) (d : LogDisk) (existed : result error (gmap Z knownPublication))
    (present : result error (gset Z)) : result error DestructionReport :=
  let report verdict window absent discontinuous unconfirmed problems reason err :=
    MkReport true verdict window absent discontinuous [] [] [] [] unconfirmed problems reason err in
  if negb (dc_enabled c) then Ok (MkReport false "" None false false [] [] [] [] [] [] "" "")
  else match ld_log d with
    | None => Ok (report destructionVerdictAbsent None true false [] []
        "the destruction log is absent: an unrecorded disappearance and a deleted log are locally indistinguishable" "")
    | Some _ =>
        match loadDestructionState io d c with
        | Err e => Ok (report "" None false false [] [] "" e)
        | Ok st =>
            let w := Some (dst_window st) in
            let errs := String.concat "; " (dst_errs st) in
            if (0 <? dst_total st) && negb (lw_Continuous (dst_window st)) then
              Ok (report destructionVerdictWindowDiscontinuous w false true (open_groups st) (group_problems st)
                ("the surviving destruction_seq run has a hole — no disappearance may be asserted (" +:+ errs +:+ ")") "")
            else if negb (dst_verifiable st) then
              Ok (report destructionVerdictChainBroken w false false (open_groups st) (group_problems st) ""
                ("destruction log order is not verifiable — no disappearance is asserted (" +:+ errs +:+ ")"))
            else match existed, present with
              | Err e, _ => Err ("destruction: publication census unavailable — no disappearance is asserted: " +:+ e)
              | Ok _, Err e => Err ("destruction: on-disk publication census unavailable — no disappearance is asserted: " +:+ e)
              | Ok existed, Ok present => Ok (reconcile_destruction st existed present)
              end
        end
    end.

Record destructionStatusSummary : Type := MkDestructionSummary {
  dss_Enabled : bool;
  dss_Writable : bool;
  dss_Records : Z;
  dss_Window : option logWindow;
  dss_Error : string }.

Definition destructionSummary (io : LogIO) (c : destructionConfig) (d : LogDisk) : destructionStatusSummary :=
  if negb (dc_enabled c) then MkDestructionSummary false false 0 None ""
  else match loadDestructionState io d c with
    | Err e => MkDestructionSummary true (dc_writable c) 0 None e
    | Ok st => MkDestructionSummary true (dc_writable c) (dst_total st) (Some (dst_window st))
        (if dst_verifiable st then ""
         else "destruction log is not verifiable — no disappearance is asserted (" +:+ String.concat "; " (dst_errs st) +:+ ")")
    end.

End Destruction.
