(* ===== verification/DestructionSpec.v ===== *)
(** * What the destruction log keeps

    The log is the register of the destructions: a list of groups, each an intent
    and perhaps its end, that only grows at its last group. The operations refine
    steps of that register, and what the register says decides the reconciliation:
    an accounted disappearance was announced and carried out, and no destruction
    that was accounted for is ever called an unaccounted disappearance. *)

From Stdlib Require Import Ascii.
From S2P Require Import Prelude GoStrings GoTime Manifest AppendLog Ledger SignedLog KeyLifecycle Destruction.

Section Register.
Context `{DestructionCodec}.

(** ** Groups *)

Definition group : Type := destructionEntry * option string.

Definition with_state (e : destructionEntry) (s : string) : destructionEntry :=
  MkDestruction (de_V e) (de_DestructionSeq e) (de_Kind e) (de_Targets e) (de_DestroyedCount e) (de_Policy e) (de_RecordedAt e)
    (de_AuthorityKeyID e) (de_StreamID e) (de_PrevDigest e) (de_TargetDigestUnavailable e) (de_EntryDigest e) (de_Signature e) s.

Definition end_lines (g : group) : list destructionEntry := match snd g with None => [] | Some s => [with_state (fst g) s] end.
Definition group_lines (g : group) : list destructionEntry := fst g :: end_lines g.
Definition flat (gs : list group) : list destructionEntry := concat (map group_lines gs).

Definition g_seq (g : group) : Z := de_DestructionSeq (fst g).
Definition g_prev (g : group) : string := de_PrevDigest (fst g).
Definition last_line (g : group) : destructionEntry := match snd g with None => fst g | Some s => with_state (fst g) s end.
Definition g_digest (g : group) : string := destructionLineDigest (last_line g).

Definition good_group (c : destructionConfig) (ka : keyAuthority) (g : group) : Prop :=
  line_signed ka (fst g) = true /\ destructionEntryDigest (fst g) = de_EntryDigest (fst g) /\ foreign_line c (fst g) = false /\
  de_State (fst g) = destructionStateIntended /\ from_option (fun s => terminal_state s = true) True (snd g).

#[local] Abbreviation group_chain c ka := (chained g_seq g_prev g_digest (good_group c ka)).
#[local] Abbreviation ledger_on := (log_on de_DestructionSeq).

Lemma flat_app a b : flat (a ++ b) = flat a ++ flat b.
Proof. unfold flat. by rewrite map_app, concat_app. Qed.

Lemma flat_snoc gs g : flat (gs ++ [g]) = flat gs ++ group_lines g.
Proof. rewrite flat_app. cbn. by rewrite app_nil_r. Qed.

Lemma flat_length h : (length h <= length (flat h))%nat.
Proof.
  induction h as [|g h IH]; [done|]. change (flat (g :: h)) with (fst g :: end_lines g ++ flat h). cbn. rewrite length_app. lia.
Qed.

Lemma with_state_signed ka e s : line_signed ka (with_state e s) = line_signed ka e.
Proof. done. Qed.

(** ** The loader *)

Definition loaded_group (g : group) : destructionGroup :=
  MkGroup (g_seq g) (default destructionStateIntended (snd g)) (fst g) (match snd g with None => 1 | Some _ => 2 end) true "" "".

Definition tail_walk (gs : list group) (w : lineWalk) : Prop :=
  match last gs with
  | None => w = walk_start
  | Some g => lk_prevLine w = g_digest g /\ lk_seq w = Some (g_seq g)
  end.

Lemma find_group_fresh seq gs : seq ∉ map g_seq gs -> find_group seq (map loaded_group gs) = None.
Proof.
  induction gs as [|g gs IH]; [done|]. cbn. intros [Hne Hn]%not_elem_of_cons. unfold find_group in *. cbn. cbn in Hne.
  destruct (Z.eqb_spec (g_seq g) seq); [congruence|]. by apply IH.
Qed.

Lemma find_group_last gs G : gr_seq G ∉ map g_seq gs -> find_group (gr_seq G) (map loaded_group gs ++ [G]) = Some G.
Proof.
  induction gs as [|g gs IH]; unfold find_group in *; cbn; [by rewrite Z.eqb_refl|]. intros [Hne Hn]%not_elem_of_cons. cbn in Hne.
  destruct (Z.eqb_spec (g_seq g) (gr_seq G)); [congruence|]. by apply IH.
Qed.

Lemma alter_group_last gs G f : gr_seq G ∉ map g_seq gs -> alter_group (gr_seq G) f (map loaded_group gs ++ [G]) = map loaded_group gs ++ [f G].
Proof.
  induction gs as [|g gs IH]; unfold alter_group in *; cbn; [by rewrite Z.eqb_refl|]. intros [Hne Hn]%not_elem_of_cons. cbn in Hne.
  destruct (Z.eqb_spec (g_seq g) (gr_seq G)); [congruence|]. by rewrite IH.
Qed.

Definition loaded (gs : list group) : destructionState :=
  MkDestructionState (map loaded_group gs) (MkWindow 0 0 0 false) true [] (Z.of_nat (length (flat gs))).

Lemma check_authority_good c ka e st :
  line_signed ka e = true -> destructionEntryDigest e = de_EntryDigest e -> foreign_line c e = false -> check_authority c ka e st = st.
Proof. intros Hs Hd Hf. unfold check_authority. by rewrite Hs, Hf, Hd, String.eqb_refl. Qed.

Lemma walk_line_new w first seq : lk_seq w <> Some seq -> walk_line w first seq = MkWalk (lk_prevLine w) (lk_prevLine w) first (Some seq).
Proof. unfold walk_line. destruct (lk_seq w) as [s|]; [|done]. destruct (Z.eqb_spec s seq); [congruence|done]. Qed.

Lemma walk_line_same p q x seq first : walk_line (MkWalk p q x (Some seq)) first seq = MkWalk p q x (Some seq).
Proof. unfold walk_line. cbn. by rewrite Z.eqb_refl. Qed.

(** What the walk finds at the first line of the next group. *)
Lemma next_group c ka k gs g w :
  group_chain c ka k (gs ++ [g]) -> tail_walk gs w ->
  (g_seq g ∉ map g_seq gs) /\ lk_seq w <> Some (g_seq g) /\
  (negb (bool_decide (gs = [])) && negb (String.eqb (g_prev g) (lk_prevLine w))) = false.
Proof.
  intros Hc Hw. pose proof (chained_fresh _ _ _ _ _ _ _ Hc) as Hf. split; [done|].
  destruct (chained_last _ _ _ _ _ _ _ Hc) as (_ & _ & Hp). unfold tail_walk in Hw.
  destruct gs as [|x gs _] using rev_ind; [cbn in Hw; by subst w|]. rewrite last_snoc in Hw. destruct Hw as [Hw1 Hw2]. split.
  - rewrite Hw2. intros [= E]. apply Hf. rewrite map_app, elem_of_app. right. cbn. rewrite E. by left.
  - rewrite (Hp ltac:(by destruct gs)), last_digest_snoc, Hw1, String.eqb_refl. by rewrite andb_false_r.
Qed.

(** A group's second line is its end. *)
Lemma second_line c ka gs e s w :
  g_seq (e, Some s) ∉ map g_seq gs -> (negb (bool_decide (gs = [])) && negb (String.eqb (de_PrevDigest e) (lk_prevLine w))) = false ->
  line_signed ka e = true -> destructionEntryDigest e = de_EntryDigest e -> foreign_line c e = false -> terminal_state s = true ->
  load_destruction_line c ka (loaded (gs ++ [(e, None)]),
    MkWalk (destructionLineDigest e) (lk_prevLine w) (bool_decide (gs = [])) (Some (g_seq (e, Some s))), false) (with_state e s) =
  (loaded (gs ++ [(e, Some s)]),
   MkWalk (destructionLineDigest (with_state e s)) (lk_prevLine w) (bool_decide (gs = [])) (Some (g_seq (e, Some s))), false).
Proof.
  intros Hf Hord Hs Hd Hfo Ht.
  unfold load_destruction_line. change (de_DestructionSeq (with_state e s)) with (g_seq (e, Some s)). rewrite walk_line_same.
  unfold join_group. change (de_DestructionSeq (with_state e s)) with (g_seq (e, Some s)). unfold loaded at 1 2.
  rewrite map_app. cbn [map dst_groups dst_window dst_verifiable dst_errs dst_total]. set (G := loaded_group (e, None)).
  change (g_seq (e, Some s)) with (gr_seq G). rewrite find_group_last, alter_group_last by done.
  rewrite check_authority_good by done. unfold check_order. cbn [lk_exempt lk_groupPrev].
  change (de_PrevDigest (with_state e s)) with (de_PrevDigest e). rewrite Hord.
  unfold check_machine. change (de_DestructionSeq (with_state e s)) with (gr_seq G). cbn [dst_groups].
  set (G2 := MkGroup _ _ _ (gr_lines G + 1) _ _ _). change (gr_seq G) with (gr_seq G2). rewrite find_group_last by done.
  change (gr_lines G2 =? 1) with false. change (2 <? gr_lines G2) with false. change (String.eqb (gr_state G2) destructionStateIntended) with true. cbn [negb].
  assert (Hpe : destructionPayloadEqual (gr_entry G2) (with_state e s) = true) by apply String.eqb_refl.
  rewrite Hpe. change (de_State (with_state e s)) with s. rewrite Ht. cbn [negb].
  rewrite alter_group_last by done. unfold loaded. rewrite (map_app _ gs [(e, Some s)]), !flat_snoc, !length_app. cbn. do 3 f_equal. lia.
Qed.

Lemma load_groups_walk c ka k gs : group_chain c ka k gs ->
  exists w, run_list (load_destruction_line c ka) (empty_destruction, walk_start, true) (flat gs) = (loaded gs, w, bool_decide (gs = [])) /\
    tail_walk gs w.
Proof.
  induction gs as [|g gs IH] using rev_ind; intros Hc; [by exists walk_start|].
  destruct (IH (chained_prefix _ _ _ _ _ _ _ Hc)) as (w & Hrun & Hw). destruct (next_group _ _ _ _ _ _ Hc Hw) as (Hf & Hseq & Hord).
  destruct (chained_last _ _ _ _ _ _ _ Hc) as ((Hs & Hd & Hfo & Hi & Ht) & _ & _).
  rewrite flat_snoc. unfold run_list in *. rewrite foldl_app, Hrun. unfold group_lines. cbn [foldl].
  assert (Hfirst : load_destruction_line c ka (loaded gs, w, bool_decide (gs = [])) (fst g) =
    (loaded (gs ++ [(fst g, None)]), MkWalk (destructionLineDigest (fst g)) (lk_prevLine w) (bool_decide (gs = [])) (Some (g_seq g)), false)).
  { unfold load_destruction_line. fold (g_seq g). rewrite walk_line_new by done. cbn [lk_groupPrev lk_exempt lk_seq].
    unfold join_group. fold (g_seq g). cbn [loaded dst_groups dst_window dst_verifiable dst_errs dst_total]. rewrite find_group_fresh by done.
    rewrite check_authority_good by done. unfold check_order. cbn [lk_exempt lk_groupPrev]. fold (g_prev g). rewrite Hord.
    unfold check_machine. fold (g_seq g). cbn [dst_groups]. set (G := MkGroup _ _ _ _ _ _ _).
    change (g_seq g) with (gr_seq G) at 1. rewrite find_group_last by done. cbn [gr_lines G]. rewrite Hi. cbn [String.eqb negb Z.eqb Pos.eqb].
    unfold loaded. rewrite map_app, flat_snoc, length_app. cbn. unfold G, loaded_group, g_seq. cbn. rewrite Hi. do 3 f_equal. lia. }
  rewrite Hfirst, (bool_decide_eq_false_2 (gs ++ [g] = [])) by by destruct gs.
  unfold end_lines, tail_walk. rewrite last_snoc. destruct g as [e [s|]]; cbn [fst snd] in *.
  2: { eexists. split; [reflexivity|]. by split. }
  cbn [foldl]. eexists. rewrite (second_line c ka gs e s w) by done. split; [reflexivity|]. by split.
Qed.

(** ** The walk before an append *)

Definition fact_of (g : group) : groupFacts :=
  MkFacts (match snd g with None => 1 | Some _ => 2 end) (fst g) (de_State (last_line g)) (g_digest g).

Definition facts_of (gs : list group) : gmap Z groupFacts := foldl (fun m g => <[g_seq g := fact_of g]> m) ∅ gs.

Lemma facts_of_snoc gs g : facts_of (gs ++ [g]) = <[g_seq g := fact_of g]> (facts_of gs).
Proof. unfold facts_of. by rewrite foldl_app. Qed.

Lemma facts_of_some gs q f : facts_of gs !! q = Some f -> exists g, In g gs /\ g_seq g = q /\ f = fact_of g.
Proof.
  induction gs as [|g gs IH] using rev_ind; [done|]. rewrite facts_of_snoc. intros [[<- <-]|[_ Hf]]%lookup_insert_Some.
  - exists g. split; [apply in_or_app; right; by left|done].
  - destruct (IH Hf) as (g' & Hg & Hq & ->). exists g'. split; [apply in_or_app; by left|done].
Qed.

Lemma facts_of_none gs q : q ∉ map g_seq gs -> facts_of gs !! q = None.
Proof.
  intros Hq. destruct (facts_of gs !! q) as [f|] eqn:E; [|done]. destruct (facts_of_some _ _ _ E) as (g & Hg & Hs & _). destruct Hq.
  rewrite <- Hs. by apply list_elem_of_In, in_map.
Qed.

Definition max_seq (k : nat) (gs : list group) : Z := if bool_decide (gs = []) then 0 else Z.of_nat (k + length gs).

Lemma append_groups_walk c ka k gs : group_chain c ka k gs ->
  exists w, run_list (append_destruction_line c ka) (Ok (MkAppendWalk walk_start 0 ∅, true)) (flat gs) =
    Ok (MkAppendWalk w (max_seq k gs) (facts_of gs), bool_decide (gs = [])) /\ tail_walk gs w.
Proof.
  induction gs as [|g gs IH] using rev_ind; intros Hc; [by exists walk_start|].
  destruct (IH (chained_prefix _ _ _ _ _ _ _ Hc)) as (w & Hrun & Hw). destruct (next_group _ _ _ _ _ _ Hc Hw) as (Hf & Hseq & Hord).
  destruct (chained_last _ _ _ _ _ _ _ Hc) as ((Hs & Hd & Hfo & Hi & Ht) & Hq & _).
  rewrite flat_snoc. unfold run_list in *. rewrite foldl_app, Hrun. unfold group_lines. cbn [foldl].
  assert (Hmax : (if max_seq k gs <? g_seq g then g_seq g else max_seq k gs) = max_seq k (gs ++ [g])).
  { unfold max_seq. rewrite (bool_decide_eq_false_2 (gs ++ [g] = [])), length_app by by destruct gs. cbn [length].
    assert (Hlt : (if bool_decide (gs = []) then 0 else Z.of_nat (k + length gs)) < g_seq g) by (rewrite Hq; case_bool_decide; lia).
    rewrite (proj2 (Z.ltb_lt _ _) Hlt), Hq. lia. }
  assert (Hfirst : append_destruction_line c ka (Ok (MkAppendWalk w (max_seq k gs) (facts_of gs), bool_decide (gs = []))) (fst g) =
    Ok (MkAppendWalk (MkWalk (destructionLineDigest (fst g)) (lk_prevLine w) (bool_decide (gs = [])) (Some (g_seq g))) (max_seq k (gs ++ [g]))
      (<[g_seq g := MkFacts 1 (fst g) (de_State (fst g)) (destructionLineDigest (fst g))]> (facts_of gs)), false)).
  { unfold append_destruction_line. fold (g_seq g). cbn [wk_walk wk_maxSeq wk_groups]. rewrite walk_line_new by done.
    cbn [lk_exempt lk_groupPrev lk_seq]. rewrite Hs, Hfo. fold (g_prev g). rewrite Hord. cbn [negb]. rewrite facts_of_none by done. by rewrite Hmax. }
  rewrite Hfirst, (bool_decide_eq_false_2 (gs ++ [g] = [])) by by destruct gs.
  unfold end_lines, tail_walk. rewrite last_snoc. destruct g as [e [s|]]; cbn [fst snd] in *.
  2: { eexists. rewrite facts_of_snoc. split; [reflexivity|]. by split. }
  cbn [foldl]. unfold append_destruction_line at 1. change (de_DestructionSeq (with_state e s)) with (g_seq (e, Some s)).
  cbn [wk_walk wk_maxSeq wk_groups]. rewrite walk_line_same. cbn [lk_exempt lk_groupPrev lk_seq].
  rewrite with_state_signed, Hs. change (foreign_line c (with_state e s)) with (foreign_line c e).
  change (de_PrevDigest (with_state e s)) with (g_prev (e, Some s)). rewrite Hfo, Hord. cbn [negb]. rewrite lookup_insert_eq.
  assert (Hmax2 : (max_seq k (gs ++ @cons group (e, Some s) []) <? g_seq (e, Some s)) = false).
  { apply Z.ltb_ge. unfold max_seq. rewrite (bool_decide_eq_false_2 (gs ++ _ = [])), length_app by by destruct gs. cbn [length]. rewrite Hq. lia. }
  rewrite Hmax2, insert_insert_eq. eexists. rewrite facts_of_snoc. split; [reflexivity|]. by split.
Qed.

(** ** The register *)

(** An operation of the outside: what it announces or ends, and its time. *)
Inductive DestructionOp : Type :=
| OBegin (calls : nat -> LogIO) (kind policy : string) (unavailable : list string) (targets : list destructionTarget) (count : Z) (at_ : string)
| OEnd (calls : nat -> LogIO) (seq : Z) (state at_ : string).

Definition op_at (op : DestructionOp) : string := match op with OBegin _ _ _ _ _ _ at_ => at_ | OEnd _ _ _ at_ => at_ end.
Definition op_calls (op : DestructionOp) : nat -> LogIO := match op with OBegin calls _ _ _ _ _ _ => calls | OEnd calls _ _ _ => calls end.

(** The log's own compaction names no publication. *)
Definition self_record (e : destructionEntry) : Prop :=
  de_Kind e = destructionKindSelfCompaction /\ Forall (fun t => dt_PublicationID t = 0) (de_Targets e).

Definition opens (op : DestructionOp) (e : destructionEntry) : Prop :=
  match op with
  | OBegin _ kind policy _ targets count _ => de_Kind e = kind /\ de_Policy e = policy /\ de_Targets e = targets /\ de_DestroyedCount e = count
  | OEnd _ _ _ _ => self_record e
  end.

Definition ends (op : DestructionOp) (e : destructionEntry) (s : string) : Prop :=
  match op with
  | OBegin _ _ _ _ _ _ _ => False
  | OEnd _ seq state _ => de_DestructionSeq e = seq /\ s = state \/ self_record e /\ s = destructionStateCompleted
  end.

(** The register opens a group at its end, or ends its last group. *)
Inductive reg_step (op : DestructionOp) : list group -> list group -> Prop :=
| reg_open h e : opens op e -> de_RecordedAt e = op_at op -> reg_step op h (h ++ [(e, None)])
| reg_end h e s : ends op e s -> terminal_state s = true -> reg_step op (h ++ [(e, None)]) (h ++ [(e, Some s)]).

(** Lines of which each is short text, and no two share a digest. *)
Definition healthy (ls : list destructionEntry) : Prop := Forall fits ls /\ NoDup (map destructionLineDigest ls).

Lemma healthy_prefix a b : healthy (a ++ b) -> healthy a.
Proof. unfold healthy. rewrite Forall_app, map_app. intros [[Hf _] (Hn & _ & _)%NoDup_app]. by split. Qed.

Lemma nodup_map_eq {A} (f : A -> string) l x y : NoDup (map f l) -> In x l -> In y l -> f x = f y -> x = y.
Proof.
  induction l as [|a l IH]; [done|]. cbn. intros [Ha Hn]%NoDup_cons [<-|Hx] [<-|Hy] E; [done| | |by apply IH].
  - destruct Ha. rewrite E. by apply list_elem_of_In, in_map.
  - destruct Ha. rewrite <- E. by apply list_elem_of_In, in_map.
Qed.

Lemma last_line_in g gs : In g gs -> In (last_line g) (flat gs).
Proof.
  intros Hg. unfold flat. apply in_concat. exists (group_lines g). split; [by apply in_map|].
  destruct g as [e [s|]]; cbn; auto.
Qed.

Lemma in_drop {A} (x : A) k l : In x (drop k l) -> In x l.
Proof. rewrite <- (take_drop k l) at 2. intros Hx. apply in_or_app. by right. Qed.

Section Operations.
Context (c : destructionConfig) (signer : exportSigner) (trust : exportTrustStore).
Hypothesis configured : dc_ka c = Some (MkKeyAuthority (Some signer) (Some trust)).
Hypothesis switched_on : dc_on c = true.
Hypothesis trusted : ts_keys trust !! es_keyID signer = Some (Public (es_priv signer)).
Hypothesis key_named : es_keyID signer <> "".

Let ka : keyAuthority := MkKeyAuthority (Some signer) (Some trust).
#[local] Abbreviation chain := (group_chain c ka).

(** The log holds the register, but for the first [k] groups. *)
Record log_inv (k : nat) (h : list group) (d : LogDisk) : Prop := MkLogInv {
  gi_chain : chain 0 h;
  gi_k : (h = [] /\ k = 0 \/ k < length h)%nat;
  gi_free : dc_capacity c <= 0 -> k = 0%nat;
  gi_disk : ledger_on d (flat (drop k h)) }.

(** Inside an operation on a log that held [base]. *)
Definition inv (base : list destructionEntry) (k : nat) (h : list group) (s : DState) : Prop :=
  log_inv k h (dd_disk s) /\ flat h = base ++ dd_landed s.

Lemma seqs_unique k h g g' : chain k h -> In g h -> In g' h -> g_seq g = g_seq g' -> g = g'.
Proof.
  intros Hc Hg Hg' E. pose proof (chained_nodup _ _ _ _ _ _ Hc) as Hn. apply list_elem_of_In, list_elem_of_lookup in Hg as [i Hi].
  apply list_elem_of_In, list_elem_of_lookup in Hg' as [j Hj]. assert (i = j) as ->; [|congruence].
  apply (NoDup_lookup _ _ _ (g_seq g) Hn); [by rewrite list_lookup_fmap, Hi|by rewrite list_lookup_fmap, Hj, E].
Qed.

(** Equal digests are of one group. *)
Lemma digests_unique k h g g' : chain k h -> healthy (flat h) -> In g h -> In g' h -> g_digest g = g_digest g' -> g = g'.
Proof.
  intros Hc [_ Hn] Hg Hg' E. eapply seqs_unique; [done..|].
  pose proof (nodup_map_eq _ _ _ _ Hn (last_line_in _ _ Hg) (last_line_in _ _ Hg') E) as El.
  apply (f_equal de_DestructionSeq) in El. by destruct g as [? []], g' as [? []].
Qed.

Lemma healthy_drop k h : healthy (flat h) -> healthy (flat (drop k h)).
Proof.
  rewrite <- (take_drop k h) at 1. rewrite flat_app. unfold healthy. rewrite Forall_app, map_app. intros [[_ Hf] (_ & _ & Hn)%NoDup_app]. by split.
Qed.

Lemma kept_length k h d : log_inv k h d -> (k <= length h)%nat.
Proof. intros [_ [[-> ->]|Hk] _ _]; [done|lia]. Qed.

Lemma max_of k h d : log_inv k h d -> max_seq k (drop k h) = Z.of_nat (length h).
Proof.
  intros [_ Hk _ _]. unfold max_seq. rewrite length_drop. case_bool_decide as E; [|destruct Hk as [[-> ->]|]; [by rewrite drop_nil in E|lia]].
  apply (f_equal length) in E. rewrite length_drop in E. cbn in E. destruct Hk as [[-> ->]|Hk]; [done|lia].
Qed.

Lemma inv_open k h d d' e :
  log_inv k h d -> good_group c ka (e, None) -> de_DestructionSeq e = Z.of_nat (S (length h)) ->
  (drop k h <> [] -> de_PrevDigest e = last_digest g_digest (drop k h)) -> ledger_on d' (flat (drop k h) ++ [e]) ->
  log_inv k (h ++ [(e, None)]) d'.
Proof.
  intros Hi Hg Hq Hp Hd. pose proof (kept_length _ _ _ Hi) as Hkl. destruct Hi as [Hc Hk Hf _]. split.
  - apply chained_extend; [done|done|cbn; unfold g_seq; cbn; rewrite Hq; lia|]. intros Hne. cbn. unfold g_prev. cbn.
    destruct Hk as [[-> _]|Hk]; [done|]. rewrite Hp by (intros E; apply (f_equal length) in E; rewrite length_drop in E; cbn in E; lia).
    by apply last_digest_drop.
  - right. rewrite length_app. cbn. lia.
  - done.
  - rewrite drop_app_le, flat_snoc by done. exact Hd.
Qed.

Lemma inv_end k h d d' e s :
  log_inv k (h ++ [(e, None)]) d -> terminal_state s = true -> ledger_on d' (flat (drop k (h ++ [(e, None)])) ++ [with_state e s]) ->
  log_inv k (h ++ [(e, Some s)]) d'.
Proof.
  intros [Hc Hk Hf _] Ht Hd. rewrite length_app in Hk. cbn in Hk.
  assert (Hkl : (k <= length h)%nat) by (destruct Hk as [[E _]|Hk]; [by destruct h|lia]).
  split.
  - eapply chained_replace; [exact Hc| |done|done]. destruct (chained_last _ _ _ _ _ _ _ Hc) as ((H1 & H2 & H3 & H4 & _) & _). done.
  - right. rewrite length_app. cbn. lia.
  - done.
  - rewrite drop_app_le, flat_snoc in * by done. unfold group_lines in *. cbn [fst snd end_lines] in *. rewrite <- app_assoc in Hd. exact Hd.
Qed.

(** *** What landed stays *)

Definition growing {A} (m : DM A) : Prop := forall s, exists more, dd_landed (fst (m s)) = dd_landed s ++ more.

Lemma grow_same {A} (m : DM A) : (forall s, dd_landed (fst (m s)) = dd_landed s) -> growing m.
Proof. intros Hm s. exists []. by rewrite app_nil_r. Qed.

Lemma grow_bind {A B} (m : DM A) (f : A -> DM B) : growing m -> (forall x, growing (f x)) -> growing (d_bind m f).
Proof.
  intros Hm Hf s. unfold d_bind. destruct (Hm s) as [l1 E1]. destruct (m s) as [s1 [x|e]]; cbn in E1; [|by exists l1].
  destruct (Hf x s1) as [l2 E2]. exists (l1 ++ l2). by rewrite E2, E1, app_assoc.
Qed.

Lemma grow_append calls e : growing (d_append calls e).
Proof. intros s. unfold d_append. destruct (appendLogLine _ _ _) as [st er]. by eexists. Qed.

Lemma grow_rewrite calls lines : growing (d_rewrite calls lines).
Proof. apply grow_same. intros s. unfold d_rewrite. by destruct (rewriteLogLines _ _ _). Qed.

#[local] Hint Resolve grow_append grow_rewrite : opscore.
#[local] Ltac grow := repeat first
  [ apply grow_bind; [|intros ?] | solve [apply grow_same; done] | apply grow_append | apply grow_rewrite | case_match | done ].

Lemma grow_core calls e at_ : growing (append_core calls c e at_).
Proof using. clear configured. unfold append_core. grow. Qed.

Lemma grow_complete calls append seq st : (forall e, growing (append e)) -> growing (completeDestructionLocked calls append c seq st).
Proof. intros Ha. unfold completeDestructionLocked. grow. Qed.

Lemma grow_rest calls append kept e1 : (forall e, growing (append e)) -> growing (self_rewrite calls append c kept e1).
Proof. intros Ha. unfold self_rewrite. grow. by apply grow_complete. Qed.

Lemma grow_self calls append at_ : (forall e, growing (append e)) -> growing (compactDestructionSelfLocked calls append c at_).
Proof.
  intros Ha. unfold compactDestructionSelfLocked, beginDestructionLocked. grow; first [by apply grow_core|by apply grow_rest|by apply grow_complete].
Qed.

Lemma grow_rounds calls append at_ e : (forall e, growing (append e)) -> growing (append_and_compact calls append c at_ e).
Proof.
  intros Ha. apply grow_bind; [apply grow_core|intros x]. destruct (_ && _); [|by apply grow_same].
  apply grow_bind; [by apply grow_self|intros ?; by apply grow_same].
Qed.

Lemma grow_end calls fuel at_ e : growing (appendDestructionEntryLocked calls fuel c at_ e).
Proof. revert e. induction fuel as [|fuel IH]; intros e; [by apply grow_same|by apply grow_rounds]. Qed.

(** The run of an append in full: its line, and what follows. *)
Lemma rounds_split calls append at_ e s s' r : (forall e, growing (append e)) -> append_and_compact calls append c at_ e s = (s', r) ->
  exists s1 r1 more, append_core calls c e at_ s = (s1, r1) /\ dd_landed s' = dd_landed s1 ++ more /\
    match r1 with
    | Err er => s' = s1 /\ r = Err er
    | Ok e' => (if (0 <? dc_capacity c) && negb (String.eqb (de_State e') destructionStateIntended)
        then d_bind (compactDestructionSelfLocked calls append c at_) (fun _ => d_ret e') else d_ret e') s1 = (s', r)
    end.
Proof using.
  clear configured switched_on trusted key_named. intros Ha Hrun. unfold append_and_compact, d_bind at 1 in Hrun.
  destruct (append_core calls c e at_ s) as [s1 r1] eqn:Ec. exists s1, r1. destruct r1 as [e'|er].
  - assert (Hg : growing (if (0 <? dc_capacity c) && negb (String.eqb (de_State e') destructionStateIntended)
      then d_bind (compactDestructionSelfLocked calls append c at_) (fun _ => d_ret e') else d_ret e')).
    { destruct (_ && _); [|by apply grow_same]. apply grow_bind; [by apply grow_self|intros; by apply grow_same]. }
    destruct (Hg s1) as [more E]. rewrite Hrun in E. by exists more.
  - injection Hrun as <- <-. exists []. by rewrite app_nil_r.
Qed.

(** *** One append *)

Lemma inv_disk base k h s s' :
  inv base k h s -> ledger_on (dd_disk s') (flat (drop k h)) -> dd_landed s' = dd_landed s -> inv base k h s'.
Proof. intros [[Hc Hk Hf _] Hl] Hd E. split; [by split|by rewrite E]. Qed.

Definition clean_calls (calls : nat -> LogIO) : Prop := forall n, clean_io (calls n).

Lemma core_cases calls e at_ s s' r base k h :
  inv base k h s -> clean_calls calls -> append_core calls c e at_ s = (s', r) ->
  dd_pending s' = dd_pending s /\
  ((exists err, r = Err err) /\ inv base k h s' \/
   exists w e', tail_walk (drop k h) w /\
     (let a := MkAppendWalk w (Z.of_nat (length h)) (facts_of (drop k h)) in
      if String.eqb (de_State e) destructionStateIntended then open_entry c signer a e at_ else advance_entry a e) = Ok e' /\
     r = Ok e' /\ dd_landed s' = dd_landed s ++ [e'] /\ (fits e' -> ledger_on (dd_disk s') (flat (drop k h) ++ [e']))).
Proof using configured switched_on.
  intros Hi Hcl. pose proof Hi as [Hl _]. pose proof (gi_disk _ _ _ Hl) as Hd. unfold append_core. rewrite configured, switched_on. cbn [negb].
  unfold d_bind at 1, d_read. unfold destructionGroupOf.
  destruct (log_on_reads de_DestructionSeq (calls (dd_calls s)) _ _ Hd) as [->|(er & -> & _)].
  2: { intros [= <- <-]. split; [done|]. left. split; [by eexists|]. by eapply inv_disk. }
  cbn [negb]. rewrite (proj2 (proj2 (proj2 (entry_lines _ _ (lo_fits _ _ _ Hd))))).
  pose proof (chained_drop _ _ _ _ _ k _ (gi_chain _ _ _ Hl)) as Hcd. cbn [Nat.add] in Hcd.
  destruct (append_groups_walk _ _ _ _ Hcd) as (w & Hrun & Hw). rewrite (max_of _ _ _ Hl) in Hrun.
  unfold d_bind at 1, d_lift at 1. fold ka. rewrite Hrun. cbn [fst]. cbv zeta.
  unfold d_bind at 1, d_lift. destruct (if String.eqb _ _ then _ else _) as [e'|er] eqn:Ee.
  2: { intros [= <- <-]. split; [done|]. left. split; [by eexists|]. by eapply inv_disk. }
  unfold d_bind, d_append, d_ret. cbn [dd_disk dd_calls dd_pending dd_landed].
  destruct (appendLogLine _ _ _) as [states [er|]] eqn:Ea; intros [= <- <-]; (split; [done|]).
  - left. split; [by eexists|]. eapply inv_disk; [exact Hi| |cbn; by rewrite app_nil_r]. cbn.
    pose proof (log_on_append de_DestructionSeq _ _ _ _ _ _ Hd (Hcl _) Ea) as Hx. exact Hx.
  - right. exists w, e'. do 4 (split; [done|]). cbn. apply (log_on_append de_DestructionSeq _ _ _ _ _ _ Hd (Hcl _) Ea).
Qed.

Lemma open_spec a e at_ e' :
  open_entry c signer a e at_ = Ok e' -> at_ <> "" -> de_State e = destructionStateIntended -> in_int64 (wk_maxSeq a + 1) ->
  good_group c ka (e', None) /\ de_DestructionSeq e' = wk_maxSeq a + 1 /\ de_PrevDigest e' = lk_prevLine (wk_walk a) /\
  de_RecordedAt e' = at_ /\ de_Kind e' = de_Kind e /\ de_Policy e' = de_Policy e /\ de_Targets e' = de_Targets e /\
  de_DestroyedCount e' = de_DestroyedCount e /\ de_State e' = destructionStateIntended.
Proof using trusted key_named.
  intros Ho Hat Hst Hr. unfold open_entry in Ho. set (e1 := MkDestruction 1 _ _ _ _ _ _ _ _ _ _ _ _ _) in Ho.
  destruct (negb _); [done|]. destruct (de_Targets e) as [|t ts] eqn:Et; [done|]. unfold signDestructionEntry in Ho.
  destruct (sign_block _ _ _ _ _) as [sb|] eqn:Es; [|done]. injection Ho as <-. cbn [with_seal de_DestructionSeq de_PrevDigest de_RecordedAt
    de_Kind de_Policy de_Targets de_DestroyedCount de_State e1]. rewrite ?Et, Hst, wrap64_id by done.
  split; [|done]. split; [|split; [done|split; [|by split]]].
  - unfold line_signed, verifyDestructionEntrySignature. cbn [fst with_seal de_Signature de_AuthorityKeyID ka_trust ka e1].
    by rewrite (sign_verifies _ _ _ _ _ _ _ _ _ _ Es trusted key_named Hat).
  - unfold foreign_line. cbn. by rewrite String.eqb_refl, andb_false_r.
Qed.

(** Opening a group. *)
Lemma core_open calls e at_ s s' r base k h :
  inv base k h s -> clean_calls calls -> at_ <> "" -> de_State e = destructionStateIntended -> Z.of_nat (length h) < max_int64 ->
  append_core calls c e at_ s = (s', r) -> healthy (base ++ dd_landed s') ->
  dd_pending s' = dd_pending s /\
  match r with
  | Err _ => inv base k h s'
  | Ok e' => inv base k (h ++ [(e', None)]) s' /\ de_RecordedAt e' = at_ /\ de_Kind e' = de_Kind e /\ de_Policy e' = de_Policy e /\
      de_Targets e' = de_Targets e /\ de_DestroyedCount e' = de_DestroyedCount e
  end.
Proof using configured switched_on trusted key_named.
  intros Hi Hcl Hat Hst Hlen Hrun Hh. destruct (core_cases _ _ _ _ _ _ _ _ _ Hi Hcl Hrun) as [Hp [[[er ->] Hx]|(w & e' & Hw & He & -> & Hland & Hd)]].
  { split; [done|]. exact Hx. }
  split; [done|]. cbv zeta in He. rewrite Hst in He. rewrite String.eqb_refl in He.
  destruct (open_spec _ _ _ _ He Hat Hst) as (Hg & Hq & Hpr & Hrec); [cbn; unfold in_int64, min_int64, max_int64 in *; lia|].
  cbn [wk_maxSeq wk_walk] in *. split; [|tauto]. destruct Hi as [Hl Hf].
  rewrite Hland, app_assoc in Hh. destruct Hh as [[_ Hfe]%Forall_app _]. apply Forall_cons in Hfe as [Hfe _].
  split; [|rewrite flat_snoc, Hf, Hland; cbn; by rewrite app_assoc].
  eapply inv_open; [exact Hl|done|lia| |by apply Hd]. intros Hne. rewrite Hpr. unfold tail_walk in Hw.
  destruct (drop k h) as [|x gs _] using rev_ind; [done|]. rewrite last_snoc in Hw. rewrite last_digest_snoc. by destruct Hw.
Qed.

(** Ending a group: only the last one, and only once. *)
Lemma core_end calls e0 o st at_ s s' r base k h :
  inv base k h s -> clean_calls calls -> terminal_state st = true -> In (e0, o) (drop k h) ->
  append_core calls c (with_state e0 st) at_ s = (s', r) -> healthy (base ++ dd_landed s') ->
  dd_pending s' = dd_pending s /\
  match r with
  | Err _ => inv base k h s'
  | Ok e' => e' = with_state e0 st /\ exists h0, h = h0 ++ [(e0, None)] /\ inv base k (h0 ++ [(e0, Some st)]) s'
  end.
Proof using configured switched_on.
  intros Hi Hcl Ht Hin Hrun Hh. destruct (core_cases _ _ _ _ _ _ _ _ _ Hi Hcl Hrun) as [Hp [[[er ->] Hx]|(w & e' & Hw & He & -> & Hland & Hd)]].
  { split; [done|]. exact Hx. }
  split; [done|]. cbv zeta in He. change (de_State (with_state e0 st)) with st in He.
  destruct (String.eqb_spec st destructionStateIntended) as [->|_]; [done|].
  pose proof Hi as [Hl Hf]. pose proof (chained_drop _ _ _ _ _ k _ (gi_chain _ _ _ Hl)) as Hcd. cbn [Nat.add] in Hcd.
  assert (Hhh : healthy (flat h)) by (rewrite Hf; rewrite Hland, app_assoc in Hh; by eapply healthy_prefix).
  unfold advance_entry in He. cbn [wk_groups wk_walk] in He. change (de_DestructionSeq (with_state e0 st)) with (g_seq (e0, o)) in He.
  destruct (facts_of (drop k h) !! g_seq (e0, o)) as [f|] eqn:Ef; [|done].
  destruct (facts_of_some _ _ _ Ef) as (g & Hg & Hgq & ->). pose proof (seqs_unique _ _ _ _ Hcd Hg Hin Hgq) as ->.
  cbn [fact_of gf_lines gf_state gf_payload gf_lastLd fst snd] in He. destruct o as [s0|]; [done|]. cbn [Z.leb Z.compare Pos.compare Pos.compare_cont] in He.
  destruct (negb (String.eqb (de_State (last_line (e0, None))) destructionStateIntended)); [done|].
  destruct (negb (destructionPayloadEqual _ _)); [done|].
  destruct (String.eqb_spec (lk_prevLine w) (g_digest (e0, None))) as [Etail|]; cbn [negb] in He; [|done]. injection He as He.
  assert (He' : e' = with_state e0 st) by (rewrite <- He; by destruct e0). split; [done|].
  assert (Hsplit : exists h0, h = h0 ++ [(e0, None)]).
  { destruct h as [|x h0 _] using rev_ind; [by rewrite drop_nil in Hin|]. exists h0. f_equal.
    pose proof (gi_k _ _ _ Hl) as Hk. rewrite length_app in Hk. cbn in Hk.
    rewrite drop_app_le in Hw, Hg, Hcd by (destruct Hk as [[E _]|Hk]; [by destruct h0|lia]).
    unfold tail_walk in Hw. rewrite last_snoc in Hw. destruct Hw as [Hw _]. rewrite Hw in Etail. f_equal.
    apply (digests_unique _ _ _ _ Hcd); [|apply in_or_app; right; by left|done|done].
    rewrite <- drop_app_le by (destruct Hk as [[E _]|Hk]; [by destruct h0|lia]). by apply healthy_drop. }
  destruct Hsplit as [h0 ->]. exists h0. split; [done|]. split.
  - eapply inv_end; [exact Hl|done|]. rewrite <- He'. apply Hd. rewrite Hland, app_assoc in Hh. destruct Hh as [[_ Hfe]%Forall_app _].
    by apply Forall_cons in Hfe as [Hfe _].
  - rewrite flat_snoc in Hf |- *. unfold group_lines in *. cbn [fst snd end_lines] in *. rewrite Hland, app_assoc, <- Hf, He', <- app_assoc. done.
Qed.

(** *** The loaded register *)

Definition sound_destruction (k : nat) (h : list group) : destructionState :=
  if decide (h = []) then empty_destruction
  else MkDestructionState (map loaded_group (drop k h)) (MkWindow (Z.of_nat k + 1) (Z.of_nat (length h)) (Z.of_nat (length h - k)) true)
         true [] (Z.of_nat (length (flat (drop k h)))).

Lemma sound_groups k h : dst_groups (sound_destruction k h) = map loaded_group (drop k h).
Proof. unfold sound_destruction. destruct (decide (h = [])) as [->|]; [by rewrite drop_nil|done]. Qed.

Lemma enabled_on : dc_enabled c = true.
Proof using configured switched_on trusted.
  unfold dc_enabled. rewrite configured, switched_on. cbn. apply bool_decide_eq_true_2. intros E. by rewrite E, lookup_empty in trusted.
Qed.

Lemma load_register io k h d : log_inv k h d ->
  loadDestructionState io d c = Ok (sound_destruction k h) \/ exists er, loadDestructionState io d c = Err er /\ io_read io = Some er.
Proof using configured switched_on trusted.
  intros [Hc Hk _ Hd]. unfold loadDestructionState. rewrite configured. fold ka.
  rewrite enabled_on. cbn [negb]. unfold destructionGroupOf.
  destruct (log_on_reads de_DestructionSeq io _ _ Hd) as [->|(er & -> & Hio)]; [left|right; by exists er]. cbn [negb].
  rewrite (proj2 (proj2 (proj2 (entry_lines _ _ (lo_fits _ _ _ Hd))))).
  pose proof (chained_drop _ _ _ _ _ k _ Hc) as Hcd. cbn [Nat.add] in Hcd. unfold sound_destruction.
  destruct Hk as [[-> ->]|Hk]; [done|]. rewrite decide_False by (intros ->; cbn in Hk; lia).
  pose proof (length_drop h k) as Hl. set (gs := drop k h) in *. clearbody gs. destruct gs as [|g gs]; [cbn in Hl; lia|].
  destruct (load_groups_walk _ _ _ _ Hcd) as (w & Hrun & _). change (flat (g :: gs)) with (fst g :: end_lines g ++ flat gs) in Hrun |- *. rewrite Hrun.
  unfold destruction_window. cbn [loaded dst_groups dst_verifiable dst_errs dst_total]. f_equal.
  rewrite map_map. change (map (fun x => gr_seq (loaded_group x)) (g :: gs)) with (map g_seq (g :: gs)).
  rewrite (ch_seqs _ _ _ _ _ _ Hcd), window_seq by (cbn; lia). cbn [lw_Continuous]. rewrite Hl. do 2 f_equal. lia.
Qed.

Lemma find_group_some seq gs G : find_group seq (map loaded_group gs) = Some G -> exists g, In g gs /\ G = loaded_group g /\ g_seq g = seq.
Proof.
  unfold find_group. intros [Hin Hq]%find_some. apply in_map_iff in Hin as (g & <- & Hg). apply Z.eqb_eq in Hq. by exists g.
Qed.

Lemma writable_on : dc_writable c = true.
Proof using configured switched_on. unfold dc_writable. by rewrite configured, switched_on. Qed.

(** Ending a group comes to an append of its end, whatever that append does. *)
Lemma complete_cases calls seq st s base k h :
  inv base k h s ->
  (exists s' er, inv base k h s' /\ forall append, completeDestructionLocked calls append c seq st s = (s', Err er)) \/
  exists e0 o s1, inv base k h s1 /\ In (e0, o) (drop k h) /\ de_DestructionSeq e0 = seq /\
    forall append, completeDestructionLocked calls append c seq st s = d_bind (append (with_state e0 st)) d_push s1.
Proof using configured switched_on trusted.
  intros Hi. pose proof Hi as [Hl _].
  assert (Hi1 : inv base k h (MkDState (dd_disk s) (S (dd_calls s)) (dd_pending s) (dd_landed s))) by by eapply inv_disk; [exact Hi|apply Hl|].
  assert (Hun : forall append, completeDestructionLocked calls append c seq st s =
    match loadDestructionState (calls (dd_calls s)) (dd_disk s) c with
    | Err e => (MkDState (dd_disk s) (S (dd_calls s)) (dd_pending s) (dd_landed s), Err e)
    | Ok x => match find_group seq (dst_groups x) with
      | None => d_fail ("destruction: group " +:+ pretty seq +:+ " vanished before it could be closed")
      | Some g => d_bind (append (with_state (gr_entry g) st)) d_push
      end (MkDState (dd_disk s) (S (dd_calls s)) (dd_pending s) (dd_landed s))
    end).
  { intros append. unfold completeDestructionLocked. rewrite writable_on. cbn [negb]. unfold d_bind at 1, d_load.
    by destruct (loadDestructionState _ _ _). }
  destruct (load_register (calls (dd_calls s)) _ _ _ Hl) as [E|(er & E & _)].
  2: { left. eexists _, er. split; [exact Hi1|]. intros append. by rewrite Hun, E. }
  destruct (find_group seq (dst_groups (sound_destruction k h))) as [G|] eqn:Ef.
  2: { left. eexists _, _. split; [exact Hi1|]. intros append. rewrite Hun, E, Ef. reflexivity. }
  rewrite sound_groups in Ef. destruct (find_group_some _ _ _ Ef) as ([e0 o] & Hin & -> & Hq). right. exists e0, o. eexists. split; [exact Hi1|].
  split; [done|]. split; [exact Hq|]. intros append. rewrite Hun, E, sound_groups, Ef. reflexivity.
Qed.

(** *** The compaction of the log itself *)

Lemma flat_order (seen : gset Z) gs : Forall fits (flat gs) -> NoDup (map g_seq gs) -> (forall g, In g gs -> g_seq g ∉ seen) ->
  group_order seen (map (entry_line de_DestructionSeq) (flat gs)) = map g_seq gs.
Proof.
  revert seen. induction gs as [|g gs IH]; intros seen Hf Hn Hs; [done|]. cbn [map] in Hn |- *. apply NoDup_cons in Hn as [Hg Hn].
  change (flat (g :: gs)) with (fst g :: end_lines g ++ flat gs) in *. apply Forall_cons in Hf as [Hf1 [Hfe Hf]%Forall_app].
  cbn [map group_order]. destruct (entry_line_group de_DestructionSeq _ Hf1) as [-> _]. fold (g_seq g).
  rewrite decide_False by (apply Hs; by left). f_equal.
  assert (Hrest : group_order ({[g_seq g]} ∪ seen) (map (entry_line de_DestructionSeq) (flat gs)) = map g_seq gs).
  { apply IH; [done..|]. intros g' Hg' [E%elem_of_singleton|Hx]%elem_of_union; [|by eapply Hs; [right|]].
    apply Hg. rewrite <- E. by apply list_elem_of_In, in_map. }
  destruct g as [e [st|]]; cbn [end_lines snd app map fst] in *; [|done]. cbn [group_order].
  apply Forall_cons in Hfe as [Hfe _]. destruct (entry_line_group de_DestructionSeq _ Hfe) as [-> _].
  rewrite decide_True; [done|]. apply elem_of_union_l, elem_of_singleton. done.
Qed.

Lemma order_exact k h d : log_inv k h d ->
  group_order ∅ (map (entry_line de_DestructionSeq) (flat (drop k h))) = map g_seq (drop k h).
Proof.
  intros [Hc _ _ Hd]. apply flat_order; [apply Hd| |by intros]. eapply chained_nodup. apply (chained_drop _ _ _ _ _ k _ Hc).
Qed.

(** A log within its capacity is left alone, whatever an append would do. *)
Lemma self_small calls at_ s base k h :
  inv base k h s -> Z.of_nat (length (drop k h)) <= dc_capacity c ->
  exists r, forall append, compactDestructionSelfLocked calls append c at_ s =
    (MkDState (dd_disk s) (S (dd_calls s)) (dd_pending s) (dd_landed s), r).
Proof.
  intros [Hl _] Hle. pose proof Hl as [Hc _ _ Hd].
  destruct (readLogLines (calls (dd_calls s)) destructionGroupOf (dd_disk s)) as [[lines ok]|er] eqn:Er.
  - exists (Ok tt). intros append. unfold compactDestructionSelfLocked, d_bind at 1, d_read. rewrite Er.
    unfold destructionGroupOf in Er. destruct (log_on_reads de_DestructionSeq (calls (dd_calls s)) _ _ Hd) as [E|(er & E & _)]; [|congruence].
    rewrite E in Er. injection Er as <- <-. cbn [negb].
    rewrite (order_exact _ _ _ Hl).
    rewrite length_map, (proj2 (Z.leb_le _ _) Hle). done.
  - exists (Err er). intros append. unfold compactDestructionSelfLocked, d_bind at 1, d_read. by rewrite Er.
Qed.

Lemma line_group gs l : Forall fits (flat gs) -> In l (map (entry_line de_DestructionSeq) (flat gs)) -> ll_group l ∈ map g_seq gs.
Proof.
  intros Hf (e & <- & He)%in_map_iff. rewrite List.Forall_forall in Hf. destruct (entry_line_group de_DestructionSeq _ (Hf _ He)) as [-> _].
  apply in_concat in He as (ls & Hls & He). apply in_map_iff in Hls as (g & <- & Hg).
  assert (de_DestructionSeq e = g_seq g) as -> by (destruct g as [e0 [st|]]; cbn in He; destruct He as [<-|He]; [done|by destruct He as [<-|[]]|done|done]).
  by apply list_elem_of_In, in_map.
Qed.

Lemma filter_is {A} (Q : A -> Prop) `{forall x, Decision (Q x)} a b :
  (forall x, In x a -> ~ Q x) -> (forall x, In x b -> Q x) -> base.filter Q (a ++ b) = b.
Proof.
  intros Ha Hb. rewrite filter_app. assert (base.filter Q a = []) as ->.
  { induction a as [|x a IH]; [done|]. rewrite filter_cons_False by (apply Ha; by left). apply IH. intros y Hy. apply Ha. by right. }
  induction b as [|x b IH]; [done|]. cbn [app]. rewrite filter_cons_True by (apply Hb; by left). f_equal. apply IH. intros y Hy. apply Hb. by right.
Qed.

Lemma kept_lines n gs : Forall fits (flat gs) -> NoDup (map g_seq gs) ->
  base.filter (fun l => ll_group l ∉ (list_to_set (take n (map g_seq gs)) : gset Z)) (map (entry_line de_DestructionSeq) (flat gs)) =
  map (entry_line de_DestructionSeq) (flat (drop n gs)).
Proof.
  intros Hf Hn. rewrite firstn_map. assert (Hs : flat gs = flat (take n gs) ++ flat (drop n gs)) by by rewrite <- flat_app, take_drop.
  rewrite Hs in Hf |- *. rewrite <- (take_drop n gs), map_app in Hn. apply Forall_app in Hf as [Hf1 Hf2]. rewrite map_app. apply NoDup_app in Hn as (_ & Hd & _). apply filter_is.
  - intros l Hl Hx. apply Hx, elem_of_list_to_set. by apply line_group.
  - intros l Hl Hx%elem_of_list_to_set. apply (Hd _ Hx). by apply line_group.
Qed.

(** *** Ends, and the compaction that follows *)

(** An end after which the log is within its capacity: it comes to its line, and
    the compaction that follows to nothing, whatever it may append. *)
Lemma end_small calls append0 e0 o st at_ s s' r base k h :
  inv base k h s -> clean_calls calls -> terminal_state st = true -> In (e0, o) (drop k h) ->
  0 < dc_capacity c -> Z.of_nat (length (drop k h)) <= dc_capacity c -> (forall e, growing (append0 e)) ->
  append_and_compact calls append0 c at_ (with_state e0 st) s = (s', r) -> healthy (base ++ dd_landed s') ->
  (forall append, append_and_compact calls append c at_ (with_state e0 st) s = (s', r)) /\
  ((exists er, r = Err er) /\ inv base k h s' \/
   exists h0, h = h0 ++ [(e0, None)] /\ inv base k (h0 ++ [(e0, Some st)]) s').
Proof using configured switched_on.
  intros Hi Hcl Ht Hin Hcap Hle Hga Hrun Hh. destruct (rounds_split _ _ _ _ _ _ _ Hga Hrun) as (s1 & r1 & more & Ec & El & Hr1).
  rewrite El, app_assoc in Hh. pose proof (healthy_prefix _ _ Hh) as Hcore.
  destruct (core_end _ _ _ _ _ _ _ _ _ _ _ Hi Hcl Ht Hin Ec Hcore) as [_ Hr].
  assert (Hun : forall append, append_and_compact calls append c at_ (with_state e0 st) s = match r1 with
    | Err er => (s1, Err er)
    | Ok e' => (if (0 <? dc_capacity c) && negb (String.eqb (de_State e') destructionStateIntended)
        then d_bind (compactDestructionSelfLocked calls append c at_) (fun _ => d_ret e') else d_ret e') s1
    end) by (intros append; unfold append_and_compact, d_bind at 1; by rewrite Ec).
  destruct r1 as [e'|er].
  2: { destruct Hr1 as [-> ->]. split; [intros append; by rewrite Hun|]. left. split; [by eexists|done]. }
  destruct Hr as (-> & h0 & -> & Hi1).
  assert (Hle1 : Z.of_nat (length (drop k (h0 ++ [(e0, Some st)]))) <= dc_capacity c) by (rewrite length_drop, length_app in *; exact Hle).
  destruct (self_small calls at_ _ _ _ _ Hi1 Hle1) as [r2 Hs]. destruct (_ && _).
  - unfold d_bind at 1 in Hr1. rewrite Hs in Hr1. split.
    + intros append. rewrite Hun. unfold d_bind. by rewrite Hs.
    + right. exists h0. split; [done|]. assert (Hs' : s' = MkDState (dd_disk s1) (S (dd_calls s1)) (dd_pending s1) (dd_landed s1)) by (by destruct r2; injection Hr1 as <- <-).
      subst s'. by eapply inv_disk; [exact Hi1|apply Hi1|].
  - injection Hr1 as <- <-. split; [intros append; by rewrite Hun|]. right. by exists h0.
Qed.

Lemma dropped_some n gs : Forall fits (flat gs) -> (0 < n)%nat -> gs <> [] ->
  dropped_lines (list_to_set (take n (map g_seq gs))) (map (entry_line de_DestructionSeq) (flat gs)) <> [].
Proof.
  intros Hf Hn Hne E. destruct gs as [|g gs]; [done|]. destruct n as [|n]; [lia|].
  assert (Hin : entry_line de_DestructionSeq (fst g) ∈ dropped_lines (list_to_set (take (S n) (map g_seq (g :: gs)))) (map (entry_line de_DestructionSeq) (flat (g :: gs)))).
  { unfold dropped_lines. apply list_elem_of_filter. split; [|left]. apply Forall_cons in Hf as [Hf _].
    destruct (entry_line_group de_DestructionSeq _ Hf) as [-> _]. apply elem_of_list_to_set. cbn. by left. }
  rewrite E in Hin. by apply elem_of_nil in Hin.
Qed.

Lemma rewrite_log io d es es' states err : ledger_on d es -> Forall fits es' ->
  rewriteLogLines io d (map (entry_line de_DestructionSeq) es') = (states, err) ->
  ledger_on (final d states) (match err with None => es' | Some _ => es end).
Proof.
  intros Hd Hf Hw. destruct (rewrite_spec _ _ _ _ _ Hw) as [Hst Hfin]. destruct err as [er|].
  - assert (Hlog : ld_log (final d states) = ld_log d).
    { unfold final. destruct states as [|x l _] using rev_ind; [done|]. rewrite last_last.
      destruct (Hst x) as [Hx|[Hx _]]; [apply elem_of_app; right; by left|exact Hx|done]. }
    split; [rewrite Hlog; apply Hd|apply Hd].
  - split; [by rewrite Hfin|done].
Qed.

(** What a compaction of the log comes to, whatever the append of an end does:
    the register as it was or with an intent, or the append of the end of such an
    intent in a log within its capacity. *)
Definition self_outcome (op : DestructionOp) (base : list destructionEntry) (k : nat) (h : list group)
    (run : (destructionEntry -> DM destructionEntry) -> DState * result error unit) : Prop :=
  (exists s' r k' h', (forall append, run append = (s', r)) /\ (k <= k')%nat /\ rtc (reg_step op) h h' /\ inv base k' h' s' /\
     (r = Ok tt -> Z.of_nat (length (drop k' h')) <= dc_capacity c)) \/
  (exists e1 s5 k', (forall append, run append = d_bind (append (with_state e1 destructionStateCompleted)) d_push s5) /\ (k <= k')%nat /\
     rtc (reg_step op) h (h ++ [(e1, None)]) /\ inv base k' (h ++ [(e1, None)]) s5 /\ In (e1, None) (drop k' (h ++ [(e1, None)])) /\
     self_record e1 /\ Z.of_nat (length (drop k' (h ++ [(e1, None)]))) <= dc_capacity c).

(** From the intent on: the rewrite, and the end of the intent. *)
Lemma self_rest op calls k n h e1 base s2 :
  0 < dc_capacity c -> (n <= length h - k)%nat ->
  (length h - k - n <= Z.to_nat (dc_capacity c - 1))%nat -> self_record e1 -> rtc (reg_step op) h (h ++ [(e1, None)]) ->
  (k <= length h)%nat -> inv base k (h ++ [(e1, None)]) s2 ->
  self_outcome op base k h (fun append =>
    self_rewrite calls append c (map (entry_line de_DestructionSeq) (flat (drop n (drop k h)))) e1 s2).
Proof using configured switched_on trusted.
  intros Hcap Hn Hroom Hself Hstep Hkl Hi2. set (h1 := h ++ [(e1, None)]) in *. pose proof Hi2 as [Hl2 Hf2].
  unfold self_outcome. fold h1. unfold self_rewrite, d_bind, d_load. set (s3 := MkDState (dd_disk s2) (S (dd_calls s2)) (dd_pending s2) (dd_landed s2)) in *.
  assert (Hi3 : inv base k h1 s3) by by eapply inv_disk; [exact Hi2|apply Hl2|].
  destruct (load_register (calls (dd_calls s2)) _ _ _ Hl2) as [E|(er & E & _)]; rewrite E.
  2: { left. exists s3, (Err er), k, h1. by split_and!. }
  rewrite sound_groups. destruct (find_group _ _) as [G|] eqn:Ef.
  2: { left. eexists s3, (Err _), k, h1. by split_and!. }
  destruct (find_group_some _ _ _ Ef) as (g & Hg & -> & Hgq).
  assert (Hlast : In (e1, None) (drop k h1)) by (unfold h1; rewrite drop_app_le by done; apply in_or_app; right; by left).
  pose proof (chained_drop _ _ _ _ _ k _ (gi_chain _ _ _ Hl2)) as Hcd. cbn [Nat.add] in Hcd.
  pose proof (seqs_unique _ _ _ _ Hcd Hg Hlast Hgq) as ->. cbn [loaded_group gr_entry fst].
  set (k2 := (k + n)%nat). assert (Hdrop : drop k2 h1 = drop n (drop k h) ++ [(e1, None)]).
  { unfold k2, h1. by rewrite drop_app_le, <- drop_drop by lia. }
  pose proof (gi_disk _ _ _ Hl2) as Hd2.
  assert (Hfits2 : Forall fits (flat (drop k2 h1))).
  { pose proof (lo_fits _ _ _ Hd2) as Hf. unfold k2. rewrite <- drop_drop. rewrite <- (take_drop n (drop k h1)), flat_app in Hf. by apply Forall_app in Hf as [_ Hf]. }
  assert (Hfe : fits e1) by (rewrite Hdrop, flat_snoc in Hfits2; apply Forall_app in Hfits2 as [_ Hfe]; by apply Forall_cons in Hfe as [Hfe _]).
  assert (Hline : map (entry_line de_DestructionSeq) (flat (drop n (drop k h))) ++
      [MkLogLine (TrimSpace (serializeDestructionEntryBytes e1)) (de_DestructionSeq e1) true] = map (entry_line de_DestructionSeq) (flat (drop k2 h1))).
  { rewrite Hdrop, flat_snoc, map_app. f_equal. cbn. f_equal. unfold serializeDestructionEntryBytes, serialize. rewrite line_bare.
    destruct (entry_line_group de_DestructionSeq _ Hfe) as [Hgr Hcl']. unfold entry_line, classify_line in *. cbn in *. by rewrite Hgr, Hcl'. }
  rewrite Hline. unfold d_rewrite. destruct (rewriteLogLines _ _ _) as [states err] eqn:Ew.
  pose proof (rewrite_log _ _ _ _ _ _ Hd2 Hfits2 Ew) as Hd3. destruct err as [er|].
  { left. eexists _, (Err er), k, h1. split_and!; [done|done|done| |done]. by eapply inv_disk; [exact Hi2|exact Hd3|]. }
  set (s4 := MkDState (final (dd_disk s3) states) _ _ _) in *.
  assert (Hi4 : inv base k2 h1 s4).
  { split; [|exact Hf2]. split; [apply Hl2|right; unfold k2, h1; rewrite length_app; cbn; lia|lia|exact Hd3]. }
  assert (Hlen2 : Z.of_nat (length (drop k2 h1)) <= dc_capacity c) by (rewrite Hdrop, length_app, !length_drop; cbn; lia).
  destruct (complete_cases calls (de_DestructionSeq e1) destructionStateCompleted _ _ _ _ Hi4) as [(s5 & er & Hi5 & Hx)|(e0 & o & s5 & Hi5 & Hin5 & Hq5 & Hx)].
  { left. exists s5, (Err er), k2, h1. split_and!; [exact Hx|unfold k2; lia|done|done|done]. }
  assert (Hl1 : In (e1, None) (drop k2 h1)) by (rewrite Hdrop; apply in_or_app; right; by left).
  pose proof (chained_drop _ _ _ _ _ k2 _ (gi_chain _ _ _ Hl2)) as Hcd2. cbn [Nat.add] in Hcd2.
  pose proof (seqs_unique _ _ _ _ Hcd2 Hin5 Hl1 Hq5) as [= -> ->]. right. exists e1, s5, k2. split_and!; [exact Hx|unfold k2; lia|done..].
Qed.

Lemma self_cases op calls append0 at_ s base k h :
  (exists seq st, op = OEnd calls seq st at_) -> inv base k h s -> clean_calls calls -> at_ <> "" -> 0 < dc_capacity c ->
  Z.of_nat (length h) < max_int64 -> (forall e, growing (append0 e)) ->
  healthy (base ++ dd_landed (fst (compactDestructionSelfLocked calls append0 c at_ s))) ->
  self_outcome op base k h (fun append => compactDestructionSelfLocked calls append c at_ s).
Proof using configured switched_on trusted key_named.
  intros (sq & st & ->) Hi Hcl Hat Hcap Hlen Hga Hh. set (op := OEnd calls sq st at_). pose proof Hi as [Hl _]. pose proof Hl as [Hc _ _ Hd].
  pose proof (kept_length _ _ _ Hl) as Hkl. revert Hh. unfold compactDestructionSelfLocked, self_outcome.
  unfold d_bind, d_read, destructionGroupOf.
  set (s1 := MkDState (dd_disk s) (S (dd_calls s)) (dd_pending s) (dd_landed s)) in *.
  assert (Hi1 : inv base k h s1) by by eapply inv_disk; [exact Hi|apply Hl|].
  destruct (log_on_reads de_DestructionSeq (calls (dd_calls s)) _ _ Hd) as [E|(er & E & _)]; rewrite E.
  2: { intros _. left. exists s1, (Err er), k, h. by split_and!. }
  cbn [negb]. rewrite (order_exact _ _ _ Hl), length_map.
  destruct (Z.leb_spec (Z.of_nat (length (drop k h))) (dc_capacity c)) as [Hle|Hgt].
  { intros _. left. exists s1, (Ok tt), k, h. by split_and!. }
  set (n := (length (drop k h) - Z.to_nat (dc_capacity c - 1))%nat) in *.
  assert (Hseqs : NoDup (map g_seq (drop k h))) by (eapply chained_nodup; apply (chained_drop _ _ _ _ _ k _ Hc)).
  assert (Hn : (0 < n)%nat) by (unfold n; rewrite length_drop in *; lia).
  assert (Hne : drop k h <> []) by (intros En; rewrite En in Hgt; cbn in Hgt; lia).
  rewrite kept_lines by (try done; apply Hd).
  pose proof (dropped_some n _ (lo_fits _ _ _ Hd) Hn Hne) as Hdr. destruct (dropped_lines _ _) as [|l0 dropped]; [done|]. clear Hdr.
  set (m0 := beginDestructionLocked _ _ _ _ _ _ _ _).
  destruct (m0 s1) as [s2 [e1|er]] eqn:Em; unfold m0, beginDestructionLocked in Em; rewrite writable_on in Em; cbn [negb] in Em.
  2: { cbn [fst]. intros Hh. unshelve epose proof (core_open _ _ _ _ _ _ _ _ _ Hi1 Hcl Hat _ Hlen Em Hh) as [_ Hx]; [reflexivity|].
       left. exists s2, (Err er), k, h. by split_and!. }
  intros Hh. assert (Hh2 : healthy (base ++ dd_landed s2)).
  { match type of Hh with healthy (base ++ dd_landed (fst (?m s2))) => assert (Hg : growing m) end.
    { by apply grow_rest. }
    destruct (Hg s2) as [more Em']. rewrite Em', app_assoc in Hh. by eapply healthy_prefix. }
  unshelve epose proof (core_open _ _ _ _ _ _ _ _ _ Hi1 Hcl Hat _ Hlen Em Hh2) as (_ & Hi2 & Hrec & Hkind & _ & Htgt & _); [reflexivity|].
  cbn [de_Kind de_Targets] in Hkind, Htgt.
  assert (Hself : self_record e1).
  { split; [done|]. rewrite Htgt. unfold range_target. destruct (map ll_group _); [apply Forall_nil_2|by apply Forall_singleton]. }
  assert (Hstep : rtc (reg_step op) h (h ++ [(e1, None)])) by (apply rtc_once, reg_open; [exact Hself|done]).
  apply (self_rest op calls k n h e1 base s2); try done; unfold n; rewrite length_drop; lia.
Qed.

Lemma self_spec op calls append0 at_ s s' r base k h :
  (exists seq st, op = OEnd calls seq st at_) -> inv base k h s -> clean_calls calls -> at_ <> "" -> 0 < dc_capacity c ->
  Z.of_nat (length h) < max_int64 -> (forall e, growing (append0 e)) ->
  compactDestructionSelfLocked calls (append_and_compact calls append0 c at_) c at_ s = (s', r) -> healthy (base ++ dd_landed s') ->
  (forall append, compactDestructionSelfLocked calls (append_and_compact calls append c at_) c at_ s = (s', r)) /\
  exists k' h', (k <= k')%nat /\ rtc (reg_step op) h h' /\ inv base k' h' s' /\
    (r = Ok tt -> Z.of_nat (length (drop k' h')) <= dc_capacity c).
Proof using configured switched_on trusted key_named.
  intros Hop Hi Hcl Hat Hcap Hlen Hga Hrun Hh.
  pose proof Hh as Hh0. replace s' with (fst (s', r)) in Hh0 by done. rewrite <- Hrun in Hh0.
  destruct (self_cases op calls _ at_ s base k h Hop Hi Hcl Hat Hcap Hlen (fun e => grow_rounds _ _ _ _ Hga) Hh0) as
    [(s1 & r1 & k' & h' & Hx & Hrest)|(e1 & s5 & k' & Hx & Hk & Hrt & Hi5 & Hin & Hself & Hle)]; clear Hh0.
  { rewrite Hx in Hrun. injection Hrun as <- <-. split; [intros append; apply Hx|]. by exists k', h'. }
  rewrite Hx in Hrun. unfold d_bind, d_push in Hrun. destruct (append_and_compact _ _ _ _ _ s5) as [s6 r6] eqn:E6.
  assert (Hs6 : dd_disk s' = dd_disk s6 /\ dd_landed s' = dd_landed s6 /\ (forall er, r6 = Err er -> r = Err er)).
  { destruct r6 as [x6|x6]; injection Hrun as <- <-; cbn; (split; [done|split; [done|]]); intros er [= <-]; done. }
  destruct Hs6 as (Hsd & Hsl & Hsr). rewrite Hsl in Hh.
  destruct (end_small _ _ _ _ _ _ _ _ _ _ _ _ Hi5 Hcl (eq_refl : terminal_state destructionStateCompleted = true) Hin Hcap Hle Hga E6 Hh) as [Hany Hcases].
  split; [intros append; rewrite Hx; unfold d_bind, d_push; by rewrite Hany|]. destruct Hcases as [[[er ->] Hx6]|(h0 & Eh & Hx6)].
  { exists k', (h ++ [(e1, None)]). split_and!; [done|done| |by rewrite (Hsr _ eq_refl)]. eapply inv_disk; [exact Hx6|rewrite Hsd; apply Hx6|done]. }
  apply app_inj_tail in Eh as [<- _]. exists k', (h ++ [(e1, Some destructionStateCompleted)]). split_and!; [done| | |].
  - eapply rtc_r; [exact Hrt|]. destruct Hop as (sq & st & ->). apply reg_end; [right; by split|done].
  - eapply inv_disk; [exact Hx6|rewrite Hsd; apply Hx6|done].
  - intros _. rewrite length_drop, length_app in *. exact Hle.
Qed.

Lemma reg_keeps op h h' : rtc (reg_step op) h h' ->
  (forall e s, In (e, Some s) h -> In (e, Some s) h') /\ (forall e o, In (e, o) h -> exists o', In (e, o') h').
Proof.
  induction 1 as [h|h h1 h2 Hs _ [IH1 IH2]]; [split; [done|by intros e o Hin; exists o]|].
  assert (Hone : (forall e s, In (e, Some s) h -> In (e, Some s) h1) /\ (forall e o, In (e, o) h -> exists o', In (e, o') h1)).
  { destruct Hs as [h e0 _ _|h e0 s0 _ _].
    - split; [intros e s Hin; apply in_or_app; by left|intros e o Hin; exists o; apply in_or_app; by left].
    - split.
      + intros e s [Hin|[E|[]]]%in_app_iff; [apply in_or_app; by left|done].
      + intros e o [Hin|[E|[]]]%in_app_iff; [exists o; apply in_or_app; by left|]. injection E as <- _.
        exists (Some s0). apply in_or_app; right; by left. }
  destruct Hone as [H1' H2']. split; [by intros e s Hin; apply IH1, H1'|]. intros e o Hin. destruct (H2' _ _ Hin) as [o' Hin']. by eapply IH2.
Qed.

Lemma end_spec append0 calls e0 o st at_ s s' r base k h :
  inv base k h s -> clean_calls calls -> at_ <> "" -> terminal_state st = true -> In (e0, o) (drop k h) -> Z.of_nat (length h) < max_int64 ->
  (forall e, growing (append0 e)) ->
  append_and_compact calls (append_and_compact calls append0 c at_) c at_ (with_state e0 st) s = (s', r) -> healthy (base ++ dd_landed s') ->
  (forall append, append_and_compact calls (append_and_compact calls append c at_) c at_ (with_state e0 st) s = (s', r)) /\
  exists k' h', (k <= k')%nat /\ rtc (reg_step (OEnd calls (de_DestructionSeq e0) st at_)) h h' /\ inv base k' h' s' /\
    forall e', r = Ok e' -> In (e0, Some st) h' /\ (0 < dc_capacity c -> Z.of_nat (length (drop k' h')) <= dc_capacity c).
Proof using configured switched_on trusted key_named.
  intros Hi Hcl Hat Ht Hin Hlen Hga Hrun Hh. set (op := OEnd calls (de_DestructionSeq e0) st at_).
  destruct (rounds_split _ _ _ _ _ _ _ (fun e => grow_rounds _ _ _ _ Hga) Hrun) as (s1 & r1 & more & Ec & El & Hr1).
  pose proof Hh as Hcore. rewrite El, app_assoc in Hcore. apply healthy_prefix in Hcore.
  destruct (core_end _ _ _ _ _ _ _ _ _ _ _ Hi Hcl Ht Hin Ec Hcore) as [_ Hr].
  assert (Hun : forall append, append_and_compact calls append c at_ (with_state e0 st) s = match r1 with
    | Err er => (s1, Err er)
    | Ok e' => (if (0 <? dc_capacity c) && negb (String.eqb (de_State e') destructionStateIntended)
        then d_bind (compactDestructionSelfLocked calls append c at_) (fun _ => d_ret e') else d_ret e') s1
    end) by (intros append; unfold append_and_compact, d_bind at 1; by rewrite Ec).
  destruct r1 as [e'|er]; [|destruct Hr1 as [-> ->]; split; [intros append; by rewrite Hun|exists k, h; by split_and!]].
  destruct Hr as (-> & h0 & -> & Hi1).
  assert (Hstep : rtc (reg_step op) (h0 ++ [(e0, None)]) (h0 ++ [(e0, Some st)])) by (apply rtc_once, reg_end; [by left|done]).
  assert (Hended : In (e0, Some st) (h0 ++ [(e0, Some st)])) by (apply in_or_app; right; by left).
  destruct (Z.ltb_spec 0 (dc_capacity c)) as [Hcap|Hcap]; cbn [andb] in Hr1, Hun.
  2: { injection Hr1 as <- <-. split; [intros append; by rewrite Hun|]. exists k, (h0 ++ [(e0, Some st)]). split_and!; [lia|done|done|]. intros e' _. split; [done|lia]. }
  change (de_State (with_state e0 st)) with st in Hr1, Hun.
  assert (Hnot : String.eqb st destructionStateIntended = false) by (destruct (String.eqb_spec st destructionStateIntended) as [->|]; done).
  rewrite Hnot in Hr1, Hun. cbn [negb] in Hr1, Hun.
  unfold d_bind in Hr1. destruct (compactDestructionSelfLocked _ _ _ _ s1) as [s2 r2] eqn:Es.
  assert (Hs2 : s' = s2 /\ forall e', r = Ok e' -> r2 = Ok tt) by (destruct r2 as [[]|]; injection Hr1 as <- <-; by split).
  destruct Hs2 as [-> Hr2].
  destruct (self_spec op _ _ _ _ _ _ _ _ _ (ex_intro _ _ (ex_intro _ _ eq_refl)) Hi1 Hcl Hat Hcap ltac:(rewrite length_app in *; exact Hlen) Hga Es Hh)
    as (Hany & k' & h' & Hk & Hrt & Hi2 & Hle).
  split; [intros append; rewrite Hun; unfold d_bind; by rewrite Hany|].
  exists k', h'. split_and!; [done|by etrans|done|]. intros e' Hre. split; [|intros _; by apply Hle, (Hr2 e')].
  destruct (reg_keeps _ _ _ Hrt) as [Hkeep _]. by apply Hkeep.
Qed.

(** *** The operations of the outside *)

Definition whole_destruction (op : DestructionOp) : Prop :=
  clean_calls (op_calls op) /\ op_at op <> "" /\ match op with OBegin _ _ _ _ _ _ _ => True | OEnd _ _ st _ => terminal_state st = true end.

(** The directory, what was handed to the anchors, the lines that landed, the
    intents and the ends that were answered with success. *)
Record DestructionRun : Type := MkRun {
  rn_disk : LogDisk;
  rn_out : list destructionEntry;
  rn_landed : list destructionEntry;
  rn_opened : list destructionEntry;
  rn_closed : list (Z * string) }.

Definition destruction_start : DestructionRun := MkRun (MkLogDisk None None) [] [] [] [].

Definition destruction_step (st : DestructionRun) (op : DestructionOp) : DestructionRun :=
  match op with
  | OBegin calls kind policy unavailable targets count at_ =>
      let '(d, out, landed, r) := beginDestruction calls c kind policy unavailable targets count at_ (rn_disk st) in
      MkRun d (rn_out st ++ out) (rn_landed st ++ landed) (match r with Ok e => rn_opened st ++ [e] | Err _ => rn_opened st end) (rn_closed st)
  | OEnd calls seq state at_ =>
      let '(d, out, landed, r) := completeDestruction calls c seq state at_ (rn_disk st) in
      MkRun d (rn_out st ++ out) (rn_landed st ++ landed) (rn_opened st)
        (match r with Ok _ => rn_closed st ++ [(seq, state)] | Err _ => rn_closed st end)
  end.

(** The register stands behind the run. *)
Record run_inv (k : nat) (h : list group) (st : DestructionRun) : Prop := MkRunInv {
  rn_log : log_inv k h (rn_disk st);
  rn_lines : flat h = rn_landed st;
  rn_intents e : In e (rn_opened st) -> exists o, In (e, o) h;
  rn_ends q s : In (q, s) (rn_closed st) -> exists e, In (e, Some s) h /\ de_DestructionSeq e = q }.

Lemma answers_keep op k h h' k' d st opened closed :
  run_inv k h st -> rtc (reg_step op) h h' -> log_inv k' h' d ->
  (forall e, In e opened -> In e (rn_opened st) \/ exists o, In (e, o) h') ->
  (forall q s, In (q, s) closed -> In (q, s) (rn_closed st) \/ exists e, In (e, Some s) h' /\ de_DestructionSeq e = q) ->
  forall out, run_inv k' h' (MkRun d out (flat h') opened closed).
Proof.
  intros [_ _ Ho Hc] Hrt Hl Ho' Hc' out. destruct (reg_keeps _ _ _ Hrt) as [Hk1 Hk2]. split; [done|done| |]; cbn.
  - intros e [Hin|Hin]%Ho'; [|done]. destruct (Ho _ Hin) as [o Hin']. by eapply Hk2.
  - intros q s [Hin|Hin]%Hc'; [|done]. destruct (Hc _ _ Hin) as (e & Hin' & Hq). exists e. split; [by apply Hk1|done].
Qed.

Lemma begin_step calls kind policy unavailable targets count at_ d d' out landed r k h :
  beginDestruction calls c kind policy unavailable targets count at_ d = (d', out, landed, r) ->
  log_inv k h d -> clean_calls calls -> at_ <> "" -> Z.of_nat (length h) < max_int64 -> healthy (flat h ++ landed) ->
  match r with
  | Err _ => log_inv k h d' /\ flat h = flat h ++ landed
  | Ok e => log_inv k (h ++ [(e, None)]) d' /\ flat (h ++ [(e, None)]) = flat h ++ landed /\ de_RecordedAt e = at_ /\ de_Kind e = kind /\
      de_Policy e = policy /\ de_Targets e = targets /\ de_DestroyedCount e = count
  end.
Proof using configured switched_on trusted key_named.
  intros Hrun Hl Hcl Hat Hlen Hh. unfold beginDestruction, beginDestructionLocked in Hrun. rewrite writable_on in Hrun. cbn [negb] in Hrun.
  set (s0 := MkDState d 0 [] []) in *. assert (Hi0 : inv (flat h) k h s0) by (split; [done|cbn; by rewrite app_nil_r]).
  destruct (append_core _ _ _ _ s0) as [s1 r1] eqn:E. injection Hrun as <- <- <- <-.
  unshelve epose proof (core_open _ _ _ _ _ _ _ _ _ Hi0 Hcl Hat _ Hlen E Hh) as [_ Hr]; [reflexivity|].
  destruct r1 as [e|er]; [|exact Hr]. destruct Hr as ([Hl' Hf'] & Hrec & Hkind & Hpol & Htgt & Hcnt). by split_and!.
Qed.

Lemma enough_rounds calls at_ e :
  appendDestructionEntryLocked calls enough c at_ e =
  append_and_compact calls (append_and_compact calls (appendDestructionEntryLocked calls 0 c at_) c at_) c at_ e.
Proof. reflexivity. Qed.

Lemma complete_locked calls seq state at_ d s1 r1 k h :
  completeDestructionLocked calls (appendDestructionEntryLocked calls enough c at_) c seq state (MkDState d 0 [] []) = (s1, r1) ->
  log_inv k h d -> clean_calls calls -> at_ <> "" -> terminal_state state = true -> Z.of_nat (length h) < max_int64 ->
  healthy (flat h ++ dd_landed s1) ->
  (forall append, completeDestructionLocked calls (append_and_compact calls (append_and_compact calls append c at_) c at_) c seq state
     (MkDState d 0 [] []) = (s1, r1)) /\
  exists k' h', (k <= k')%nat /\ rtc (reg_step (OEnd calls seq state at_)) h h' /\ log_inv k' h' (dd_disk s1) /\ flat h' = flat h ++ dd_landed s1 /\
    forall x, r1 = Ok x -> exists e, In (e, Some state) h' /\ de_DestructionSeq e = seq.
Proof using configured switched_on trusted key_named.
  intros E Hl Hcl Hat Hst Hlen Hh. set (s0 := MkDState d 0 [] []) in *.
  assert (Hi0 : inv (flat h) k h s0) by (split; [done|cbn; by rewrite app_nil_r]).
  destruct (complete_cases calls seq state _ _ _ _ Hi0) as [(s2 & er & [Hl' Hf'] & Hx)|(e0 & o & s2 & Hi2 & Hin & Hq & Hx)]; rewrite Hx in E.
  { injection E as <- <-. split; [intros append; apply Hx|]. exists k, h. by split_and!. }
  pose proof E as E2. unfold d_bind, d_push in E2. destruct (appendDestructionEntryLocked _ _ _ _ _ s2) as [s3 r3] eqn:E3.
  assert (Hs3 : dd_disk s1 = dd_disk s3 /\ dd_landed s1 = dd_landed s3 /\ (forall x, r1 = Ok x -> exists e', r3 = Ok e')).
  { destruct r3 as [e'|er]; injection E2 as <- <-; cbn; (split; [done|split; [done|]]); [by intros _ _; exists e'|done]. }
  destruct Hs3 as (Hsd & Hsl & Hsr). rewrite Hsl in Hh.
  rewrite enough_rounds in E3.
  destruct (end_spec _ _ _ _ _ _ _ _ _ _ _ _ Hi2 Hcl Hat Hst Hin Hlen (grow_end calls 0 at_) E3 Hh)
    as (Hany & k' & h' & Hk & Hrt & [Hl' Hf'] & Hok).
  rewrite Hq in Hrt. split.
  - intros append. rewrite Hx. unfold d_bind, d_push. rewrite Hany. exact E2.
  - exists k', h'. rewrite Hsd, Hsl. split_and!; try done. intros x Hrx. destruct (Hsr _ Hrx) as [e' ->].
    exists e0. split; [|done]. by apply (Hok e').
Qed.

Lemma complete_step calls seq state at_ d d' out landed r k h :
  completeDestruction calls c seq state at_ d = (d', out, landed, r) ->
  log_inv k h d -> clean_calls calls -> at_ <> "" -> terminal_state state = true -> Z.of_nat (length h) < max_int64 -> healthy (flat h ++ landed) ->
  exists k' h', (k <= k')%nat /\ rtc (reg_step (OEnd calls seq state at_)) h h' /\ log_inv k' h' d' /\ flat h' = flat h ++ landed /\
    forall x, r = Ok x -> exists e, In (e, Some state) h' /\ de_DestructionSeq e = seq.
Proof using configured switched_on trusted key_named.
  intros Hrun Hl Hcl Hat Hst Hlen Hh. unfold completeDestruction in Hrun.
  destruct (completeDestructionLocked _ _ _ _ _ _) as [s1 r1] eqn:E. injection Hrun as <- <- <- <-.
  by destruct (complete_locked _ _ _ _ _ _ _ _ _ E Hl Hcl Hat Hst Hlen Hh) as [_ Hx].
Qed.

(** A destruction and its end: the register gets the intent, and its end if that
    is answered. *)
Lemma window_step calls kind policy unavailable targets count at_ calls' state at_' d d1 d2 out1 out2 landed1 landed2 e r2 k h :
  beginDestruction calls c kind policy unavailable targets count at_ d = (d1, out1, landed1, Ok e) ->
  completeDestruction calls' c (de_DestructionSeq e) state at_' d1 = (d2, out2, landed2, r2) ->
  log_inv k h d -> clean_calls calls -> at_ <> "" -> clean_calls calls' -> at_' <> "" -> terminal_state state = true ->
  healthy (flat h ++ landed1 ++ landed2) -> Z.of_nat (length (flat h ++ landed1 ++ landed2)) < max_int64 ->
  de_Kind e = kind /\ de_Targets e = targets /\ de_DestroyedCount e = count /\ ~ In (de_DestructionSeq e) (map g_seq h) /\
  exists k' h' o, log_inv k' h' d2 /\ flat h' = flat h ++ landed1 ++ landed2 /\ In (e, o) h' /\
    (forall x o', In (x, o') h -> exists o'', In (x, o'') h') /\ (forall x s, In (x, Some s) h -> In (x, Some s) h') /\
    (forall x, r2 = Ok x -> o = Some state).
Proof using configured switched_on trusted key_named.
  intros E1 E2 Hl Hcl1 Hat1 Hcl2 Hat2 Hst Hh Hlen. rewrite app_assoc in Hh, Hlen |- *. pose proof (flat_length h) as Hfl.
  rewrite !length_app in Hlen.
  destruct (begin_step _ _ _ _ _ _ _ _ _ _ _ _ _ _ E1 Hl Hcl1 Hat1 ltac:(lia) (healthy_prefix _ _ Hh))
    as (Hl1 & Hf1 & _ & Hk & _ & Ht & Hcnt).
  assert (Hlen1 : Z.of_nat (length (h ++ [(e, None)])) < max_int64).
  { pose proof (flat_length (h ++ [(e, None)])) as Hfl1. rewrite Hf1, !length_app in Hfl1. rewrite length_app. cbn in *. lia. }
  rewrite <- Hf1 in Hh |- *. assert (Hnew : ~ In (de_DestructionSeq e) (map g_seq h)).
  { intros Hin%list_elem_of_In. exact (chained_fresh _ _ _ _ _ _ _ (gi_chain _ _ _ Hl1) Hin). }
  destruct (complete_step _ _ _ _ _ _ _ _ _ _ _ E2 Hl1 Hcl2 Hat2 Hst Hlen1 Hh) as (k' & h' & _ & Hrt & Hl' & Hf' & Hok).
  destruct (reg_keeps _ _ _ Hrt) as [Hk1 Hk2]. destruct (Hk2 e None) as [o Ho]; [apply in_or_app; right; by left|].
  split_and!; [done..|]. exists k', h', o. split_and!; [done|done|done| | |].
  - intros x o' Hin. apply (Hk2 x o'), in_or_app. by left.
  - intros x s Hin. apply Hk1, in_or_app. by left.
  - intros x Hx. destruct (Hok _ Hx) as (e2 & Hin2 & Hq2).
    by pose proof (seqs_unique _ _ _ _ (gi_chain _ _ _ Hl') Ho Hin2 (eq_sym Hq2)) as [= <- ->].
Qed.

Lemma destruction_step_inv k h st op :
  run_inv k h st -> whole_destruction op -> Z.of_nat (length h) < max_int64 -> healthy (rn_landed (destruction_step st op)) ->
  exists k' h', (k <= k')%nat /\ rtc (reg_step op) h h' /\ run_inv k' h' (destruction_step st op).
Proof using configured switched_on trusted key_named.
  intros Hi (Hcl & Hat & Hst) Hlen Hh. pose proof Hi as [Hl Hf Ho Hc].
  destruct op as [calls kind policy unavailable targets count at_|calls seq state at_]; cbn [destruction_step op_calls op_at] in *.
  - destruct (beginDestruction _ _ _ _ _ _ _ _ _) as [[[d out] landed] r] eqn:E. cbn [rn_landed] in Hh. rewrite <- Hf in Hh |- *.
    pose proof (begin_step _ _ _ _ _ _ _ _ _ _ _ _ _ _ E Hl Hcl Hat Hlen Hh) as Hr. destruct r as [e|er].
    + destruct Hr as (Hl' & Hf' & Hrec & Hkind & Hpol & Htgt & Hcnt). exists k, (h ++ [(e, None)]). split; [done|].
      assert (Hrt : rtc (reg_step (OBegin calls kind policy unavailable targets count at_)) h (h ++ [(e, None)])).
      { apply rtc_once, reg_open; [by split_and!|done]. }
      split; [done|]. rewrite <- Hf'. eapply answers_keep; [exact Hi|exact Hrt|exact Hl'| |auto].
      intros x [Hx|[<-|[]]]%in_app_iff; [by left|right]. exists None. apply in_or_app. right. by left.
    + destruct Hr as [Hl' Hf']. exists k, h. split; [done|]. split; [done|]. rewrite <- Hf'.
      eapply (answers_keep (OEnd calls 0 "" "")); [exact Hi|reflexivity|exact Hl'|auto|auto].
  - destruct (completeDestruction _ _ _ _ _ _) as [[[d out] landed] r] eqn:E. cbn [rn_landed] in Hh. rewrite <- Hf in Hh |- *.
    destruct (complete_step _ _ _ _ _ _ _ _ _ _ _ E Hl Hcl Hat Hst Hlen Hh) as (k' & h' & Hk & Hrt & Hl' & Hf' & Hok).
    exists k', h'. split; [done|]. split; [done|]. rewrite <- Hf'. eapply answers_keep; [exact Hi|exact Hrt|exact Hl'|auto|].
    intros q x. destruct r as [y|er]; [|auto]. intros [Hx|[[= <- <-]|[]]]%in_app_iff; [by left|right]. by apply (Hok y).
Qed.

(** *** Histories *)

(** The register after some operations. *)
Inductive registers : list DestructionOp -> list group -> Prop :=
| registers_nil : registers [] []
| registers_snoc ops h op h' : registers ops h -> rtc (reg_step op) h h' -> registers (ops ++ [op]) h'.

Lemma destruction_step_lands st op : exists more, rn_landed (destruction_step st op) = rn_landed st ++ more.
Proof.
  destruct op as [calls kind policy unavailable targets count at_|calls seq state at_]; cbn [destruction_step].
  - destruct (beginDestruction _ _ _ _ _ _ _ _ _) as [[[d out] landed] r]. by exists landed.
  - destruct (completeDestruction _ _ _ _ _ _) as [[[d out] landed] r]. by exists landed.
Qed.

Lemma run_spec ops :
  let st := run_list destruction_step destruction_start ops in
  Forall whole_destruction ops -> healthy (rn_landed st) -> Z.of_nat (length (rn_landed st)) < max_int64 ->
  exists k h, run_inv k h st /\ registers ops h.
Proof using configured switched_on trusted key_named.
  cbv zeta. induction ops as [|op ops IH] using rev_ind; intros Hw Hh Hlen.
  { exists 0%nat, []. split; [|constructor]. split; [|done|done|done]. split; [apply chained_nil|by left|done|split; [done|apply Forall_nil_2]]. }
  rewrite run_list_snoc in *. apply Forall_app in Hw as [Hws [Hw _]%Forall_cons]. set (st := run_list _ _ ops) in *.
  destruct (destruction_step_lands st op) as [more Hm]. pose proof Hh as Hh0. rewrite Hm in Hh0, Hlen. rewrite length_app in Hlen.
  destruct (IH Hws (healthy_prefix _ _ Hh0) ltac:(lia)) as (k & h & Hi & Hreg).
  pose proof (flat_length h) as Hfl. rewrite (rn_lines _ _ _ Hi) in Hfl.
  destruct (destruction_step_inv k h st op Hi Hw ltac:(lia) Hh) as (k' & h' & _ & Hrt & Hi'). exists k', h'. split; [done|]. by econstructor.
Qed.

Definition clocked (ops : list DestructionOp) : Prop :=
  (forall op, In op ops -> parseRFC3339Nano (op_at op) <> None) /\
  forall i j a b, (i <= j)%nat -> ops !! i = Some a -> ops !! j = Some b -> instant (op_at a) <= instant (op_at b).

Lemma clocked_last ops op op' : clocked (ops ++ [op]) -> In op' (ops ++ [op]) -> instant (op_at op') <= instant (op_at op).
Proof.
  intros [_ Hc] Hin. apply list_elem_of_In, list_elem_of_lookup in Hin as [i Hi]. pose proof (lookup_lt_Some _ _ _ Hi) as Hlt.
  rewrite length_app in Hlt. cbn in Hlt. apply (Hc i (length ops)); [lia|done|by apply list_lookup_middle].
Qed.

(** What stands in the register comes from the operations, in their order. *)
Record from_ops (ops : list DestructionOp) (h : list group) : Prop := MkFromOps {
  fo_opened e o : In (e, o) h -> exists op, In op ops /\ opens op e /\ de_RecordedAt e = op_at op;
  fo_ended e s : In (e, Some s) h -> exists op, In op ops /\ ends op e s;
  fo_times : clocked ops -> forall i j a b, (i <= j)%nat -> h !! i = Some a -> h !! j = Some b ->
    instant (de_RecordedAt (fst a)) <= instant (de_RecordedAt (fst b)) }.

Lemma from_ops_step ops op h h' : from_ops (ops ++ [op]) h -> reg_step op h h' -> from_ops (ops ++ [op]) h'.
Proof.
  intros [Ho He Ht] Hs. assert (Hop : In op (ops ++ [op])) by (apply in_or_app; right; by left). destruct Hs as [h e Hopn Hrec|h e s Hend Hterm].
  - split.
    + intros x o [Hin|[E|[]]]%in_app_iff; [by eapply Ho|]. injection E as <- _. by exists op.
    + intros x s [Hin|[E|[]]]%in_app_iff; [by apply He|done].
    + intros Hcl i j a b Hij Ha Hb. apply lookup_snoc_Some in Hb as [[Hj Hb]|[Hj <-]].
      * rewrite lookup_app_l in Ha by lia. exact (Ht Hcl i j a b Hij Ha Hb).
      * cbn. rewrite Hrec. apply lookup_snoc_Some in Ha as [[_ Ha]|[_ <-]]; [|cbn; rewrite Hrec; lia]. destruct a as [x o].
        assert (Hin : In (x, o) h) by (apply list_elem_of_In, list_elem_of_lookup; by exists i).
        destruct (Ho _ _ Hin) as (op' & Hin' & _ & Hr). cbn. rewrite Hr. by eapply clocked_last.
  - assert (Hold : In (e, None) (h ++ [(e, None)])) by (apply in_or_app; right; by left). split.
    + intros x o [Hin|[E|[]]]%in_app_iff; [eapply Ho, in_or_app; by left|]. injection E as <- _. by eapply Ho.
    + intros x s' [Hin|[E|[]]]%in_app_iff; [apply He, in_or_app; by left|]. injection E as <- <-. by exists op.
    + intros Hcl i j a b Hij Ha Hb.
      assert (Hfst : forall n g, (h ++ [(e, Some s)]) !! n = Some g -> exists g', (h ++ [(e, None)]) !! n = Some g' /\ fst g' = fst g).
      { intros n g [[Hn Hg]|[Hn <-]]%lookup_snoc_Some; [exists g; by rewrite lookup_app_l|]. exists (e, None). split; [|done]. subst n. by apply list_lookup_middle. }
      destruct (Hfst _ _ Ha) as (a' & Ha' & <-), (Hfst _ _ Hb) as (b' & Hb' & <-). exact (Ht Hcl i j a' b' Hij Ha' Hb').
Qed.

Lemma registers_from ops h : registers ops h -> from_ops ops h.
Proof.
  induction 1 as [|ops h op h' _ [Ho He Ht] Hrt]; [by split|].
  assert (Hw : from_ops (ops ++ [op]) h).
  { split.
    - intros e o Hin. destruct (Ho _ _ Hin) as (op' & Hop & Hx). exists op'. split; [apply in_or_app; by left|done].
    - intros e s Hin. destruct (He _ _ Hin) as (op' & Hop & Hx). exists op'. split; [apply in_or_app; by left|done].
    - intros [Hp Hc]. apply Ht. split; [intros op' Hop; apply Hp, in_or_app; by left|].
      intros i j a b Hij Ha Hb. apply (Hc i j); [done|by apply lookup_app_l_Some..]. }
  clear Ho He Ht. induction Hrt as [h|h h1 h2 Hs _ IH]; [done|]. apply IH. by eapply from_ops_step.
Qed.

(** ** Properties *)

(** C11. The log refines the register. Over any history of intents and ends,
    whose reads and rewrites fail or not and whose appends fail, if they do, before
    a byte is written ([clean_io]: no torn write, no failing sync or close;
    [destruction_append_fails] shows what these do), if what landed are short lines
    of text, no two of one digest ([healthy]), the log holds a register that
    the operations reach step by step, an intent opening a group and an end closing
    the last open one, or the log's own compaction doing both; every answered
    intent and end is in it; and the log loads as the register but for a prefix
    that only a capacity drops: gapless, in order, with no problem in any group. *)
Theorem destruction_register ops :
  let st := run_list destruction_step destruction_start ops in
  Forall whole_destruction ops -> healthy (rn_landed st) -> Z.of_nat (length (rn_landed st)) < max_int64 ->
  exists k h, registers ops h /\ flat h = rn_landed st /\ (k <= length h)%nat /\ (dc_capacity c <= 0 -> k = 0%nat) /\
    (forall e, In e (rn_opened st) -> exists o, In (e, o) h) /\
    (forall q s, In (q, s) (rn_closed st) -> exists e, In (e, Some s) h /\ de_DestructionSeq e = q) /\
    forall io, io_read io = None -> loadDestructionState io (rn_disk st) c = Ok (sound_destruction k h).
Proof using configured switched_on trusted key_named.
  cbv zeta. intros Hw Hh Hlen. destruct (run_spec ops Hw Hh Hlen) as (k & h & [Hl Hf Ho Hc] & Hreg). exists k, h.
  split; [done|]. split; [done|]. split; [by eapply kept_length|]. split; [apply Hl|]. split; [done|]. split; [done|].
  intros io Hio. destruct (load_register io _ _ _ Hl) as [E|(er & _ & E)]; [done|congruence].
Qed.

Lemma view_cases io k h d existed present report :
  log_inv k h d -> DestructionView io c d (Ok existed) (Ok present) = Ok report ->
  dv_Accounted report = [] /\ dv_Unaccounted report = [] /\ (ld_log d = None \/ io_read io <> None) \/
  report = reconcile_destruction (sound_destruction k h) existed present.
Proof using configured switched_on trusted.
  intros Hl. unfold DestructionView. rewrite enabled_on. cbn [negb]. destruct (ld_log d); [|intros [= <-]; left; split_and!; auto].
  destruct (load_register io _ _ _ Hl) as [->|(er & -> & E)]; [|intros [= <-]; left; split_and!; [done|done|right; by rewrite E]].
  assert (Hs : (0 <? dst_total (sound_destruction k h)) && negb (lw_Continuous (dst_window (sound_destruction k h))) = false /\
    dst_verifiable (sound_destruction k h) = true).
  { unfold sound_destruction. destruct (decide (h = [])); split; try done; by rewrite andb_false_r. }
  destruct Hs as [-> ->]. cbn [negb]. intros [= <-]. by right.
Qed.

Lemma reconcile_lists st existed present :
  let r := reconcile_destruction st existed present in
  dv_Missing r = missing_of existed present /\ dv_Accounted r = class_is is_accounted existed st (missing_of existed present) /\
  dv_Unaccounted r = class_is is_unaccounted existed st (missing_of existed present) /\
  dv_NotAssertable r = class_is is_not_assertable existed st (missing_of existed present).
Proof.
  cbv zeta. unfold reconcile_destruction.
  destruct (class_is is_unaccounted existed st (missing_of existed present)), (open_groups st), (group_problems st), (missing_of existed present); done.
Qed.

Lemma classified id k existed st ids : In id (class_is k existed st ids) <-> In id ids /\ k (classify_missing existed st id) = true.
Proof. unfold class_is. apply filter_In. Qed.

Lemma covered_spec k h existed id :
  id ∈ covered_ids existed (sound_destruction k h) <->
  exists e t, In (e, Some destructionStateCompleted) (drop k h) /\ In t (de_Targets e) /\ target_covers existed t = true /\ dt_PublicationID t = id.
Proof.
  unfold covered_ids. rewrite elem_of_list_to_set, sound_groups, list_elem_of_In, in_map_iff. split.
  - intros (t & <- & [Hin Hcov]%filter_In). apply in_concat in Hin as (ts & Hts & Ht). apply in_map_iff in Hts as (G & <- & HG).
    apply filter_In in HG as [HG Hst]. apply in_map_iff in HG as ([e o] & <- & Hin). cbn in Hst, Ht. exists e, t. split_and!; try done.
    apply String.eqb_eq in Hst. destruct o as [s|]; cbn in Hst; [by subst s|done].
  - intros (e & t & Hin & Ht & Hcov & <-). exists t. split; [done|]. apply filter_In. split; [|done]. apply in_concat. exists (de_Targets e).
    split; [|done]. apply in_map_iff. exists (loaded_group (e, Some destructionStateCompleted)). split; [done|]. apply filter_In. split; [by apply in_map|done].
Qed.

(** C12. No false accusation: whatever a census finds, and whatever a capacity
    has dropped from the log, a publication whose destruction was announced and
    completed, both with success, is not called an unaccounted disappearance, under
    three conditions: the clock does not run backwards over the operations; the
    announced target has an id, and a digest that is empty or the one the census
    knows; and the publish time the census knows is empty, or can be read and lies
    before the record. A time that cannot be read does accuse
    ([unreadable_time_accuses]). The appends fail, if they do, before a byte is
    written, and what landed are short lines, no two of one digest ([healthy]). *)
Theorem no_false_accusation ops :
  let st := run_list destruction_step destruction_start ops in
  Forall whole_destruction ops -> healthy (rn_landed st) -> Z.of_nat (length (rn_landed st)) < max_int64 -> clocked ops ->
  forall io existed present report e t,
    DestructionView io c (rn_disk st) (Ok existed) (Ok present) = Ok report ->
    In e (rn_opened st) -> In (de_DestructionSeq e, destructionStateCompleted) (rn_closed st) ->
    In t (de_Targets e) -> target_covers existed t = true ->
    (forall known, existed !! dt_PublicationID t = Some known -> kp_publishedAt known <> "" ->
       parseRFC3339Nano (kp_publishedAt known) <> None /\ instant (kp_publishedAt known) < instant (de_RecordedAt e)) ->
    ~ In (dt_PublicationID t) (dv_Unaccounted report).
Proof using configured switched_on trusted key_named.
  cbv zeta. intros Hw Hh Hlen Hclock io existed present report e t Hview Hopen Hclosed Ht Hcov Hpub Hin.
  destruct (run_spec ops Hw Hh Hlen) as (k & h & Hi & Hreg). pose proof (registers_from _ _ Hreg) as [Hop _ Htimes].
  destruct (view_cases _ _ _ _ _ _ _ (rn_log _ _ _ Hi) Hview) as [(_ & E & _)| ->]; [by rewrite E in Hin|].
  destruct (reconcile_lists (sound_destruction k h) existed present) as (_ & _ & Hun & _). rewrite Hun in Hin.
  apply classified in Hin as [_ Hcl].
  destruct (rn_intents _ _ _ Hi _ Hopen) as [o He], (rn_ends _ _ _ Hi _ _ Hclosed) as (e' & He' & Hq).
  pose proof (gi_chain _ _ _ (rn_log _ _ _ Hi)) as Hc. pose proof (seqs_unique _ _ _ _ Hc He He' (eq_sym Hq)) as [= <- ->].
  unfold classify_missing in Hcl. destruct (decide _) as [Hx|Hncov]; [done|].
  apply list_elem_of_In, list_elem_of_lookup in He' as [i Hei].
  assert (Hik : (i < k)%nat).
  { destruct (Nat.lt_ge_cases i k) as [|Hge]; [done|]. destruct Hncov. apply covered_spec. exists e, t. split_and!; try done.
    apply list_elem_of_In, list_elem_of_lookup. exists (i - k)%nat. rewrite lookup_drop. by replace (k + (i - k))%nat with i by lia. }
  pose proof (gi_k _ _ _ (rn_log _ _ _ Hi)) as [[_ E]|Hk]; [lia|].
  assert (Hmin : lw_Min (dst_window (sound_destruction k h)) = Z.of_nat k + 1).
  { unfold sound_destruction. rewrite decide_False; [done|]. intros ->. cbn in Hk. lia. }
  rewrite Hmin, (proj2 (Z.leb_gt _ _)) in Hcl by lia.
  destruct (lookup_lt_is_Some_2 h k Hk) as [g Hg]. rewrite sound_groups, (drop_S _ _ _ Hg) in Hcl. cbn [map loaded_group gr_entry] in Hcl.
  destruct (String.eqb_spec (de_RecordedAt (fst g)) "") as [|_]; [done|]. cbn [orb] in Hcl.
  destruct (existed !! dt_PublicationID t) as [known|]; [|done]. cbn [from_option] in Hcl.
  destruct (String.eqb_spec (kp_publishedAt known) "") as [|Hne]; [done|]. destruct (Hpub known eq_refl Hne) as [Hparse Hlt].
  assert (Hgp : parseRFC3339Nano (de_RecordedAt (fst g)) <> None).
  { destruct g as [eg og]. destruct (Hop eg og) as (op & Hino & _ & Hrec); [apply list_elem_of_In, list_elem_of_lookup; by exists k|].
    cbn. rewrite Hrec. by apply Hclock. }
  pose proof (compare_instants _ _ Hparse Hgp) as Hcmp. pose proof (Htimes Hclock i k _ _ ltac:(lia) Hei Hg) as Hle. cbn [fst] in Hle.
  assert ((instant (kp_publishedAt known) <? instant (de_RecordedAt (fst g))) = true) as Hb by (apply Z.ltb_lt; lia).
  rewrite Hb in Hcmp. apply Z.ltb_lt in Hcmp. destruct (Z.leb_spec 0 (compareRFC3339 (kp_publishedAt known) (de_RecordedAt (fst g)))); [lia|done].
Qed.

(** C23. What is called accounted was announced and carried out: after any
    history, a missing publication is called accounted only if an intent of the
    history names it and an end of the history completes that intent's group; the
    missing ones are those of the census that are not present, each of them
    accounted, unaccounted or not assertable and nothing else. *)
Theorem accounted_announced ops :
  let st := run_list destruction_step destruction_start ops in
  Forall whole_destruction ops -> healthy (rn_landed st) -> Z.of_nat (length (rn_landed st)) < max_int64 ->
  forall io existed present report,
    DestructionView io c (rn_disk st) (Ok existed) (Ok present) = Ok report ->
    (forall id, In id (dv_Accounted report) -> exists calls kind policy unavailable targets count at_ t e calls' at_',
       In (OBegin calls kind policy unavailable targets count at_) ops /\ In t targets /\ dt_PublicationID t = id /\
       target_covers existed t = true /\ de_Targets e = targets /\ de_RecordedAt e = at_ /\
       In (OEnd calls' (de_DestructionSeq e) destructionStateCompleted at_') ops) /\
    (ld_log (rn_disk st) <> None -> io_read io = None -> forall id,
       id ∈ dom existed ∖ present <->
       In id (dv_Accounted report) \/ In id (dv_Unaccounted report) \/ In id (dv_NotAssertable report)).
Proof using configured switched_on trusted key_named.
  cbv zeta. intros Hw Hh Hlen io existed present report Hview.
  destruct (run_spec ops Hw Hh Hlen) as (k & h & Hi & Hreg). pose proof (registers_from _ _ Hreg) as [Hop Hend _].
  destruct (view_cases _ _ _ _ _ _ _ (rn_log _ _ _ Hi) Hview) as [(Ea & Eu & Hno)| ->]; [rewrite Ea, Eu; split; [done|intros Hlog Hio; destruct Hno; congruence]|].
  destruct (reconcile_lists (sound_destruction k h) existed present) as (_ & Ha & Hu & Hn). rewrite Ha, Hu, Hn. split.
  - intros id [_ Hcl]%classified. unfold classify_missing in Hcl. destruct (decide _) as [Hx|_].
    2: { destruct (_ <=? 1); [done|]. destruct (_ || _); [done|]. by destruct (0 <=? _). }
    apply covered_spec in Hx as (e & t & Hin & Ht & Hcov & <-). apply in_drop in Hin.
    assert (Hns : ~ self_record e).
    { intros [_ Hz]. rewrite List.Forall_forall in Hz. specialize (Hz _ Ht). unfold target_covers in Hcov. by rewrite Hz in Hcov. }
    destruct (Hop _ _ Hin) as (op & Hino & Hopn & Hrec), (Hend _ _ Hin) as (op' & Hino' & Hendn).
    destruct op as [calls kind policy unavailable targets count at_|]; [|by destruct (Hns Hopn)]. destruct Hopn as (_ & _ & Htgt & _).
    destruct op' as [|calls' seq state at_']; [done|]. destruct Hendn as [[<- <-]|[Hself _]]; [|by destruct (Hns Hself)].
    exists calls, kind, policy, unavailable, targets, count, at_, t, e, calls', at_'. split_and!; try done. by rewrite <- Htgt.
  - intros _ _ id. rewrite !classified. unfold missing_of. rewrite <- !list_elem_of_In, sort_slice_elem, elem_of_elements.
    split; [|tauto]. intros Hd. destruct (classify_missing existed (sound_destruction k h) id); tauto.
Qed.

(** In [h'], but not in [h], an intent states what was dropped; it is completed
    if there is no error. *)
Definition accounts (kind : string) (dropped : list logLine) (h h' : list group) (err : option error) : Prop :=
  exists g gs e o, group_order ∅ dropped = g :: gs /\ In (e, o) h' /\ ~ In (de_DestructionSeq e) (map g_seq h) /\ de_Kind e = kind /\
    de_DestroyedCount e = Z.of_nat (length dropped) /\
    de_Targets e = [MkTarget 0 "" (foldl Z.min g gs) (foldl Z.max g gs) (prefix_digest dropped)] /\
    (err = None -> o = Some destructionStateCompleted).

Lemma nothing_dropped (drop : gset Z) (lines : list logLine) :
  dropped_lines drop lines = [] -> base.filter (fun l => ll_group l ∉ drop) lines = lines.
Proof.
  unfold dropped_lines. induction lines as [|l lines IH]; [done|]. rewrite !filter_cons. destruct (decide (ll_group l ∈ drop)); [done|].
  intros E. by rewrite decide_True, IH by done.
Qed.

Lemma rewrite_touches io (d : LogDisk) lines err : rewriteLogLines io d lines = ([], err) -> err <> None.
Proof.
  unfold rewriteLogLines. destruct (io_tmp_open io) as [e|]; [by intros [= <-]|].
  destruct (tmp_write_error io lines) as [[[k0 n0] e0]|]; [done|].
  destruct (io_tmp_sync io); [done|]. destruct (io_tmp_close io); [done|]. by destruct (io_rename io).
Qed.

Lemma dropped_order (lines : list logLine) : lines <> [] -> exists g gs, group_order ∅ lines = g :: gs.
Proof. destruct lines as [|l lines]; [done|]. intros _. cbn. rewrite decide_False by apply not_elem_of_empty. by eexists _, _. Qed.

(** C26. No other log loses a prefix unaccounted: when a compaction with the
    observer installed has touched its log, the register has an intent, put there
    before the first call on that log, that states the kind, the range and the
    number of the dropped lines and the digest of their bytes; if the compaction
    succeeded that intent is completed, and a success that left the log alone
    recorded nothing. *)
Theorem accountable_compaction io d w keep classify kind oio states w' err k h :
  compactLogPrefixGroupsObserved io d w keep classify (destructionObserver c kind oio) = (states, w', err) ->
  log_inv k h (dw_disk w) -> flat h = dw_landed w -> healthy (dw_landed w') -> Z.of_nat (length (dw_landed w')) < max_int64 ->
  clean_calls (oio_begin oio) -> clean_calls (oio_end oio) -> oio_at oio <> "" -> oio_end_at oio <> "" ->
  exists k' h', log_inv k' h' (dw_disk w') /\ flat h' = dw_landed w' /\
    (states = [] \/ exists lines, readLogLines io classify d = Ok (lines, true) /\
       accounts kind (dropped_lines (fst (planLogPrefixDrop lines keep)) lines) h h' err) /\
    (err = None -> states = [] -> h' = h).
Proof using configured switched_on trusted key_named.
  intros Hrun Hl Hf Hh Hlen Hcl1 Hcl2 Hat1 Hat2. unfold compactLogPrefixGroupsObserved in Hrun.
  destruct (keep <=? 0); [simplify_eq; exists k, h; by split_and!; [..|left|]|].
  destruct (readLogLines io classify d) as [[lines ok]|er] eqn:Er; [|simplify_eq; exists k, h; by split_and!; [..|left|]].
  destruct (negb ok) eqn:Eok; [simplify_eq; exists k, h; by split_and!; [..|left|]|]. apply negb_false_iff in Eok as ->.
  destruct (planLogPrefixDrop lines keep) as [drop kept] eqn:Ep.
  destruct (Nat.eqb_spec (length kept) (length lines)) as [|Hlk]; [simplify_eq; exists k, h; by split_and!; [..|left|]|].
  assert (Hkept : kept = base.filter (fun l => ll_group l ∉ drop) lines).
  { unfold planLogPrefixDrop in Ep. destruct (keep <=? 0); [injection Ep as <- <-; done|]. injection Ep as <- <-. done. }
  set (dropped := dropped_lines drop lines) in *. assert (Hdr : dropped <> []) by (intros E; apply Hlk; rewrite Hkept, nothing_dropped; done).
  unfold destructionObserver in Hrun. rewrite enabled_on, writable_on in Hrun. cbn [negb] in Hrun.
  destruct (dropped_order _ Hdr) as (g & gs & Hord). rewrite Hord in Hrun.
  destruct dropped as [|l0 dropped'] eqn:Edr; [done|]. rewrite <- Edr in *. clear Edr l0 dropped' Hdr.
  destruct (beginDestruction _ _ _ _ _ _ _ _ _) as [[[d1 out1] landed1] r1] eqn:E1. cbn [range_target] in E1.
  destruct r1 as [e|er].
  2: { simplify_eq. cbn [dw_landed dw_disk] in *. rewrite <- Hf in Hh, Hlen |- *. rewrite length_app in Hlen. pose proof (flat_length h).
       destruct (begin_step _ _ _ _ _ _ _ _ _ _ _ _ _ _ E1 Hl Hcl1 Hat1 ltac:(lia) Hh) as [Hl' Hf'].
       exists k, h. by split_and!; [..|left|]. }
  destruct (rewriteLogLines io d kept) as [st2 [er|]] eqn:Ew.
  { simplify_eq. cbn [dw_landed dw_disk] in *. rewrite <- Hf in Hh, Hlen |- *. rewrite length_app in Hlen. pose proof (flat_length h).
    destruct (begin_step _ _ _ _ _ _ _ _ _ _ _ _ _ _ E1 Hl Hcl1 Hat1 ltac:(lia) Hh) as (Hl' & Hf' & _ & Hk & _ & Ht & Hcnt).
    exists k, (h ++ [(e, None)]). split_and!; [done|done| |done]. right. exists lines. split; [done|]. rewrite Ep. exists g, gs, e, None.
    split_and!; try done; [apply in_or_app; right; by left|]. intros Hin%list_elem_of_In.
    exact (chained_fresh _ _ _ _ _ _ _ (gi_chain _ _ _ Hl') Hin). }
  destruct (completeDestruction _ _ _ _ _ _) as [[[d2 out2] landed2] r2] eqn:E2. cbn [dw_disk dw_landed] in Hrun, E2.
  assert (Hw : states = st2 /\ dw_disk w' = d2 /\ dw_landed w' = flat h ++ landed1 ++ landed2 /\ (err = None -> exists x, r2 = Ok x)).
  { rewrite Hf, app_assoc. destruct r2 as [x|er]; injection Hrun as <- <- <-; cbn; split_and!; try done. intros _. by exists x. }
  destruct Hw as (-> & Hwd & Hwl & Herr). rewrite Hwl in Hh, Hlen.
  destruct (window_step _ _ _ _ _ _ _ _ _ _ _ _ _ _ _ _ _ _ _ _ _ E1 E2 Hl Hcl1 Hat1 Hcl2 Hat2 (eq_refl : terminal_state destructionStateCompleted = true)
    Hh Hlen) as (Hk & Ht & Hcnt & Hnew & k' & h' & o & Hl' & Hf' & Ho & _ & _ & Hok).
  exists k', h'. rewrite Hwd, Hwl, Hf'. split_and!; [done|done| |by intros _ ->; destruct (rewrite_touches _ _ _ _ Ew)].
  right. exists lines. split; [done|]. rewrite Ep. exists g, gs, e, o. split_and!; try done. intros En. destruct (Herr En) as [x Hx]. by apply (Hok x).
Qed.

(** C37. The recursion ends: an end appends, which may compact the log, which
    appends an end of its own; after any history the append inside that compaction
    compacts nothing, so that whatever a further append would do the answer is the
    one computed with two appends, and it is not short of fuel. *)
Theorem compaction_once ops calls seq state at_ :
  let st := run_list destruction_step destruction_start ops in
  let op := OEnd calls seq state at_ in
  Forall whole_destruction (ops ++ [op]) -> healthy (rn_landed (destruction_step st op)) -> Z.of_nat (length (rn_landed st)) < max_int64 ->
  let start := MkDState (rn_disk st) 0 [] [] in
  let answer := completeDestructionLocked calls (appendDestructionEntryLocked calls enough c at_) c seq state start in
  (forall append, completeDestructionLocked calls (append_and_compact calls (append_and_compact calls append c at_) c at_) c seq state start = answer) /\
  (forall fuel, (enough <= fuel)%nat ->
     completeDestructionLocked calls (appendDestructionEntryLocked calls fuel c at_) c seq state start = answer).
Proof using configured switched_on trusted key_named.
  cbv zeta. intros Hw Hh Hlen. apply Forall_app in Hw as [Hws [(Hcl & Hat & Hst) _]%Forall_cons].
  set (st := run_list _ _ ops) in *. destruct (destruction_step_lands st (OEnd calls seq state at_)) as [more Hm]. pose proof Hh as Hh0. rewrite Hm in Hh0.
  destruct (run_spec ops Hws (healthy_prefix _ _ Hh0) Hlen) as (k & h & Hi & _). fold st in Hi. clear Hm Hh0.
  pose proof (flat_length h) as Hfl. rewrite (rn_lines _ _ _ Hi) in Hfl.
  cbn [destruction_step] in Hh. unfold completeDestruction in Hh.
  destruct (completeDestructionLocked _ _ _ _ _ _) as [s1 r1] eqn:E. cbn [rn_landed] in Hh. rewrite <- (rn_lines _ _ _ Hi) in Hh.
  destruct (complete_locked _ _ _ _ _ _ _ _ _ E (rn_log _ _ _ Hi) Hcl Hat Hst ltac:(lia) Hh) as [Hany _]. split; [exact Hany|].
  intros [|[|fuel]] Hf; [unfold enough in Hf; lia..|]. exact (Hany (appendDestructionEntryLocked calls fuel c at_)).
Qed.

End Operations.

End Register.

(** ** An instance, and witnesses *)

#[local] Existing Instance checksum_crypto.

Definition target_fields (t : destructionTarget) : list string :=
  [Z_str (dt_PublicationID t); dt_ManifestDigest t; Z_str (dt_FromSeq t); Z_str (dt_ToSeq t); dt_PrefixDigest t].

Fixpoint targets_of (l : list string) : list destructionTarget :=
  match l with
  | id :: dg :: a :: b :: pd :: l => MkTarget (str_Z id) dg (str_Z a) (str_Z b) pd :: targets_of l
  | _ => []
  end.

Lemma targets_of_fields ts : targets_of (concat (map target_fields ts)) = ts.
Proof. induction ts as [|[] ts IH]; [done|]. cbn. by rewrite IH, !str_Z_str. Qed.

Definition destruction_fields (e : destructionEntry) : list string :=
  [Z_str (de_V e); Z_str (de_DestructionSeq e); de_Kind e; pack (concat (map target_fields (de_Targets e))); Z_str (de_DestroyedCount e);
   de_Policy e; de_RecordedAt e; de_AuthorityKeyID e; de_StreamID e; de_PrevDigest e; pack (de_TargetDigestUnavailable e); de_EntryDigest e;
   de_State e] ++ signature_fields (de_Signature e).

Definition destruction_of_fields (l : list string) : option destructionEntry :=
  match l with
  | [v; q; kind; ts; n; policy; at_; auth; stream; prev; un; dg; state; ""] =>
      Some (MkDestruction (str_Z v) (str_Z q) kind (targets_of (unpack ts)) (str_Z n) policy at_ auth stream prev (unpack un) dg None state)
  | [v; q; kind; ts; n; policy; at_; auth; stream; prev; un; dg; state; "+"; alg; kid; sg; sat] =>
      Some (MkDestruction (str_Z v) (str_Z q) kind (targets_of (unpack ts)) (str_Z n) policy at_ auth stream prev (unpack un) dg
              (Some (MkSignature alg kid sg sat)) state)
  | _ => None
  end.

Lemma destruction_of_destruction_fields e : destruction_of_fields (destruction_fields e) = Some e.
Proof.
  destruct e as [? ? ? ts ? ? ? ? ? ? un ? [[]|] ?]; cbn -[pack unpack targets_of concat Z_str str_Z]; by rewrite !unpack_pack, targets_of_fields, !str_Z_str.
Qed.

Definition sample_destruction_lines : LineCodec destructionEntry destruction_utf8.
Proof.
  refine (fields_codec destruction_fields destruction_of_fields destruction_of_destruction_fields _). done.
Defined.

Definition sample_destruction : DestructionCodec := {|
  destruction_signed_json e := pack [Z_str (dg_V e); Z_str (dg_DestructionSeq e); dg_Kind e; pack (concat (map target_fields (dg_Targets e)));
    Z_str (dg_DestroyedCount e); dg_Policy e; dg_RecordedAt e; dg_AuthorityKeyID e; dg_StreamID e; dg_PrevDigest e;
    pack (dg_TargetDigestUnavailable e)];
  destruction_lines := sample_destruction_lines |}.

#[local] Existing Instance sample_destruction.

Definition keep (cap : Z) : destructionConfig := MkDestructionConfig cap (Some (MkKeyAuthority (Some kak) (Some kak_trust))) "stream" true true.

Definition works : nat -> LogIO := fun _ => io_ok.
(** The second call of an operation, its append, fails. *)
Definition disk_full : nat -> LogIO := fun n => if (n =? 1)%nat then io_open_fails else io_ok.

Definition announce (calls : nat -> LogIO) (id : Z) (digest at_ : string) : DestructionOp :=
  OBegin calls destructionKindSnapshotRetention "keep=3" [] [MkTarget id digest 0 0 ""] 1 at_.
Definition close (seq : Z) (state at_ : string) : DestructionOp := OEnd works seq state at_.

Definition sample_destructions : list DestructionOp :=
  [announce works 1 "d1" "2024-03-01T00:00:00Z"; close 1 destructionStateCompleted "2024-03-02T00:00:00Z";
   announce works 2 "d2" "2024-03-03T00:00:00Z"; close 2 destructionStateAborted "2024-03-04T00:00:00Z";
   announce disk_full 3 "d3" "2024-03-05T00:00:00Z"; announce works 3 "d3" "2024-03-05T00:00:00Z";
   close 3 destructionStateCompleted "2024-03-06T00:00:00Z"; announce works 4 "d4" "2024-03-07T00:00:00Z"].

#[local] Abbreviation destroyed cap ops := (run_list (destruction_step (keep cap)) destruction_start ops).

Definition healthyb (ls : list destructionEntry) : bool := forallb fitsb ls && bool_decide (NoDup (map destructionLineDigest ls)).

Lemma healthyb_healthy ls : healthyb ls = true -> healthy ls.
Proof. intros [Hf Hn]%andb_true_iff. split; [by apply fitsb_fits|by apply bool_decide_eq_true_1 in Hn]. Qed.

Lemma whole_ops ops : forallb (fun op => negb (String.eqb (op_at op) "")) ops = true ->
  Forall (fun op => (clean_calls (op_calls op)) /\ match op with OBegin _ _ _ _ _ _ _ => True | OEnd _ _ st _ => terminal_state st = true end) ops ->
  Forall whole_destruction ops.
Proof.
  rewrite forallb_forall, !List.Forall_forall. intros Ha Hf op Hin. destruct (Hf op Hin) as [Hc He]. split; [done|]. split; [|done].
  specialize (Ha op Hin). by destruct (String.eqb_spec (op_at op) "").
Qed.

Lemma works_clean : clean_calls works.
Proof. by intros n. Qed.

Lemma disk_full_clean : clean_calls disk_full.
Proof. intros n. unfold disk_full. by destruct (n =? 1)%nat. Qed.

#[local] Ltac whole := apply whole_ops; [vm_compute; reflexivity|];
  repeat (apply Forall_cons; split; [split; [first [exact works_clean|exact disk_full_clean]|exact I || reflexivity]|]); apply Forall_nil_2.

Lemma sample_destructions_whole : Forall whole_destruction sample_destructions.
Proof. whole. Qed.

Lemma kak_is_trusted : ts_keys kak_trust !! es_keyID kak = Some (Public (es_priv kak)).
Proof. vm_compute. reflexivity. Qed.

Lemma sample_healthy : healthyb (rn_landed (destroyed 2 sample_destructions)) = true /\
  (Z.of_nat (length (rn_landed (destroyed 2 sample_destructions))) <? max_int64) = true.
Proof. vm_compute. by split. Qed.

Lemma sample_facts : healthy (rn_landed (destroyed 2 sample_destructions)) /\ Z.of_nat (length (rn_landed (destroyed 2 sample_destructions))) < max_int64.
Proof. destruct sample_healthy as [Hh Hl]. split; [exact (healthyb_healthy _ Hh)|exact (proj1 (Z.ltb_lt _ _) Hl)]. Qed.

Example destruction_register_witness :
  map de_DestructionSeq (rn_opened (destroyed 2 sample_destructions)) = [1; 2; 3; 5] /\
  exists k h, registers sample_destructions h /\ flat h = rn_landed (destroyed 2 sample_destructions) /\
    loadDestructionState io_ok (rn_disk (destroyed 2 sample_destructions)) (keep 2) = Ok (sound_destruction k h).
Proof.
  split; [vm_compute; reflexivity|]. destruct sample_facts as [Hh Hl].
  destruct (destruction_register (keep 2) kak kak_trust eq_refl eq_refl kak_is_trusted ltac:(discriminate) sample_destructions
    sample_destructions_whole Hh Hl) as (k & h & Hreg & Hf & _ & _ & _ & _ & Hload).
  exists k, h. split; [exact Hreg|]. split; [exact Hf|]. exact (Hload io_ok eq_refl).
Defined.

(** The census: the first publication is out of the reach of the log, the third
    is accounted for, the fifth is not. *)
Definition census : gmap Z knownPublication :=
  {[ 1 := MkKnown "d1" "2024-01-01T00:00:00Z"; 2 := MkKnown "d2" "2024-01-02T00:00:00Z"; 3 := MkKnown "d3" "2024-01-03T00:00:00Z";
     4 := MkKnown "d4" "2024-01-04T00:00:00Z"; 5 := MkKnown "d5" "2024-03-08T00:00:00Z" ]}.
Lemma census_first : census !! 1 = Some (MkKnown "d1" "2024-01-01T00:00:00Z").
Proof. vm_compute. reflexivity. Qed.

Definition on_disk : gset Z := {[ 2; 4 ]}.

#[local] Abbreviation sample_report := (
  DestructionView io_ok (keep 2) (rn_disk (destroyed 2 sample_destructions)) (Ok census) (Ok on_disk)).

Lemma sample_report_is :
  match sample_report with
  | Ok r => (dv_Verdict r, dv_Missing r, dv_Accounted r, dv_Unaccounted r, dv_NotAssertable r, dv_Unconfirmed r) =
      (destructionVerdictUnaccounted, [1; 3; 5], [3], [5], [1], [5])
  | Err _ => False
  end.
Proof. vm_compute. reflexivity. Qed.

Fixpoint ascending (l : list Z) : bool := match l with [] => true | x :: l => forallb (Z.leb x) l && ascending l end.

Lemma ascending_le l : ascending l = true -> forall i j x y, (i <= j)%nat -> l !! i = Some x -> l !! j = Some y -> x <= y.
Proof.
  induction l as [|z l IH]; [done|]. cbn [ascending]. intros [Hz Hl]%andb_true_iff [|i] [|j] x y Hij; cbn; try lia.
  - intros [= <-] [= <-]. lia.
  - intros [= <-] Hj. rewrite forallb_forall in Hz. apply Z.leb_le, Hz, list_elem_of_In, list_elem_of_lookup. by exists j.
  - intros Hi Hj. apply (IH Hl i j); [lia|done|done].
Qed.

Lemma clocked_check ops : forallb (fun op => match parseRFC3339Nano (op_at op) with Some _ => true | None => false end) ops = true ->
  ascending (map (fun op => instant (op_at op)) ops) = true -> clocked ops.
Proof.
  intros Hp Ha. split.
  - intros op Hin E. rewrite forallb_forall in Hp. specialize (Hp op Hin). by rewrite E in Hp.
  - intros i j a b Hij Hi Hj. apply (ascending_le _ Ha i j); [done|by rewrite list_lookup_fmap, Hi|by rewrite list_lookup_fmap, Hj].
Qed.

Lemma sample_clocked : clocked sample_destructions.
Proof. apply clocked_check; vm_compute; reflexivity. Qed.

Example no_false_accusation_witness :
  match sample_report with Ok r => ~ In 1 (dv_Unaccounted r) | Err _ => False end.
Proof.
  destruct sample_facts as [Hh Hl].
  assert (He : match rn_opened (destroyed 2 sample_destructions) with
    | e :: _ => (de_DestructionSeq e, de_Targets e, de_RecordedAt e) = (1, [MkTarget 1 "d1" 0 0 ""], "2024-03-01T00:00:00Z") | [] => False end)
    by (vm_compute; reflexivity).
  assert (Hc : existsb (fun p => (fst p =? 1) && String.eqb (snd p) destructionStateCompleted) (rn_closed (destroyed 2 sample_destructions)) = true)
    by (vm_compute; reflexivity).
  pose proof sample_report_is as Hr.
  pose proof (no_false_accusation (keep 2) kak kak_trust eq_refl eq_refl kak_is_trusted ltac:(discriminate) sample_destructions
    sample_destructions_whole Hh Hl sample_clocked io_ok census on_disk) as Hx. cbv zeta in Hx. clear Hh Hl.
  revert He Hc Hr Hx. generalize (destroyed 2 sample_destructions). intros st He Hc Hr Hx.
  destruct (DestructionView _ _ _ _ _) as [r|]; [|destruct Hr]. clear Hr.
  destruct (rn_opened _) as [|e es]; [done|]. injection He as Hq Ht Hat. apply existsb_exists in Hc as ([q s] & Hin & [Eq Es]%andb_true_iff).
  apply Z.eqb_eq in Eq. apply String.eqb_eq in Es. cbn in Eq, Es. subst q s.
  apply (Hx r e (MkTarget 1 "d1" 0 0 "") eq_refl); [by left|by rewrite Hq|rewrite Ht; by left|vm_compute; reflexivity|].
  intros known. change (dt_PublicationID (MkTarget 1 "d1" 0 0 "")) with 1. rewrite census_first. intros [= <-] _. rewrite Hat. split; vm_compute; [discriminate|reflexivity].
Defined.

Example accounted_announced_witness :
  match sample_report with
  | Ok r => dv_Accounted r = [3] /\ exists calls kind policy unavailable count at_ t e calls' at_',
      In (OBegin calls kind policy unavailable [t] count at_) sample_destructions /\ dt_PublicationID t = 3 /\
      In (OEnd calls' (de_DestructionSeq e) destructionStateCompleted at_') sample_destructions
  | Err _ => False
  end.
Proof.
  destruct sample_facts as [Hh Hl]. pose proof sample_report_is as Hr.
  pose proof (accounted_announced (keep 2) kak kak_trust eq_refl eq_refl kak_is_trusted ltac:(discriminate) sample_destructions
    sample_destructions_whole Hh Hl io_ok census on_disk) as Hx. cbv zeta in Hx. clear Hh Hl.
  revert Hr Hx. generalize (destroyed 2 sample_destructions). intros st Hr Hx.
  destruct (DestructionView _ _ _ _ _) as [r|]; [|destruct Hr]. injection Hr as _ _ Ha _ _ _. split; [exact Ha|].
  destruct (Hx r eq_refl) as [Hacc _]. rewrite Ha in Hacc. clear Hx Ha.
  destruct (Hacc 3 (or_introl eq_refl)) as (calls & kind & policy & un & ts & n & at_ & t & e & calls' & at_' & Hb & Ht & Hid & _ & _ & _ & He).
  assert (Hts : ts = [t]).
  { clear -Hb Ht. assert (Hone : Forall (fun op => match op with OBegin _ _ _ _ ts _ _ => exists t, ts = [t] | _ => True end) sample_destructions).
    { repeat (apply Forall_cons; split; [first [exact I|by eexists]|]). apply Forall_nil_2. }
    rewrite List.Forall_forall in Hone. destruct (Hone _ Hb) as [t' ->]. by destruct Ht as [<-|[]]. }
  subst ts. exists calls, kind, policy, un, n, at_, t, e, calls', at_'. split; [exact Hb|]. split; [exact Hid|exact He].
Defined.

Lemma log_inv_start c trust signer : log_inv c signer trust 0 [] (MkLogDisk None None).
Proof. split; [apply chained_nil|by left|done|split; [done|apply Forall_nil_2]]. Qed.

Definition no_destructions : DestructionWorld := MkDestructionWorld (MkLogDisk None None) [] [] "".
Definition observed_io : ObserverIO := MkObserverIO works "2024-03-01T00:00:00Z" works "2024-03-02T00:00:00Z".

(** Another log's compaction. *)
#[local] Abbreviation observed oio := (compactLogPrefixGroupsObserved io_ok sample_log no_destructions 2 sample_classify
  (destructionObserver (keep 2) destructionKindAnchorCompaction oio)).

Example accountable_compaction_witness :
  let '(states, w, err) := observed observed_io in
  err = None /\ states <> [] /\ exists k h e, log_inv (keep 2) kak kak_trust k h (dw_disk w) /\
    In (e, Some destructionStateCompleted) h /\ de_Kind e = destructionKindAnchorCompaction.
Proof.
  assert (Hf : healthyb (dw_landed (observed observed_io).1.2) = true /\ (Z.of_nat (length (dw_landed (observed observed_io).1.2)) <? max_int64) = true /\
    (observed observed_io).2 = None /\ (observed observed_io).1.1 <> []) by (vm_compute; repeat split; discriminate).
  destruct Hf as (Hh & Hl & He & Hne).
  pose proof (accountable_compaction (keep 2) kak kak_trust eq_refl eq_refl kak_is_trusted ltac:(discriminate) io_ok sample_log no_destructions 2
    sample_classify destructionKindAnchorCompaction observed_io) as Hx.
  destruct (compactLogPrefixGroupsObserved _ _ _ _ _ _) as [[states w] err]. cbn [fst snd] in *. subst err. split; [done|]. split; [done|].
  destruct (Hx states w None 0%nat [] eq_refl (log_inv_start _ _ _) eq_refl (healthyb_healthy _ Hh) (proj1 (Z.ltb_lt _ _) Hl) works_clean works_clean
    ltac:(discriminate) ltac:(discriminate)) as (k & h & Hlog & _ & [->|(lines & _ & g & gs & e & o & _ & Hin & _ & Hk & _ & _ & Ho)] & _); [done|].
  rewrite (Ho eq_refl) in Hin. by exists k, h, e.
Defined.

Definition opened_three : list DestructionOp := take 6 sample_destructions.

Example compaction_once_witness :
  let start := MkDState (rn_disk (destroyed 2 opened_three)) 0 [] [] in
  completeDestructionLocked works (appendDestructionEntryLocked works 100 (keep 2) "2024-03-06T00:00:00Z") (keep 2) 3 destructionStateCompleted start =
  completeDestructionLocked works (appendDestructionEntryLocked works enough (keep 2) "2024-03-06T00:00:00Z") (keep 2) 3 destructionStateCompleted start.
Proof.
  assert (Hw : Forall whole_destruction (opened_three ++ [OEnd works 3 destructionStateCompleted "2024-03-06T00:00:00Z"])) by whole.
  assert (Hh : healthyb (rn_landed (destruction_step (keep 2) (destroyed 2 opened_three) (OEnd works 3 destructionStateCompleted "2024-03-06T00:00:00Z"))) = true)
    by (vm_compute; reflexivity).
  assert (Hl : (Z.of_nat (length (rn_landed (destroyed 2 opened_three))) <? max_int64) = true) by (vm_compute; reflexivity).
  pose proof (compaction_once (keep 2) kak kak_trust eq_refl eq_refl kak_is_trusted ltac:(discriminate) opened_three works 3
    destructionStateCompleted "2024-03-06T00:00:00Z" Hw (healthyb_healthy _ Hh) (proj1 (Z.ltb_lt _ _) Hl)) as Hx. cbv zeta in Hx |- *.
  apply (proj2 Hx 100%nat). apply Nat.leb_le. reflexivity.
Defined.

(** *** An end whose compaction fails is never handed to the anchors

    The end is durable, so that ending the group again is refused; but the error of
    the compaction that followed comes back before the end is collected. *)
Definition fourth_read_fails : nat -> LogIO := fun n =>
  if (n =? 3)%nat then MkLogIO (Some "EIO") None None None None None None None None None None else io_ok.

Definition landed_unwitnessed (op : DestructionOp) (ops : list DestructionOp) : list (Z * string) * list (Z * string) * list (Z * string) :=
  let before := destroyed 2 ops in
  let st := destruction_step (keep 2) before op in
  let brief (es : list destructionEntry) := map (fun e => (de_DestructionSeq e, de_State e)) es in
  (brief (drop (length (rn_landed before)) (rn_landed st)), brief (drop (length (rn_out before)) (rn_out st)),
   drop (length (rn_closed before)) (rn_closed st)).

Example end_unwitnessed :
  landed_unwitnessed (OEnd fourth_read_fails 3 destructionStateCompleted "2024-03-06T00:00:00Z") opened_three = ([(3, destructionStateCompleted)], [], []) /\
  landed_unwitnessed (close 3 destructionStateCompleted "2024-03-06T00:00:00Z")
    (opened_three ++ [OEnd fourth_read_fails 3 destructionStateCompleted "2024-03-06T00:00:00Z"]) = ([], [], []).
Proof. vm_compute. split; reflexivity. Qed.

(** *** A publish time that cannot be read accuses

    A publication without a publish time is not assertable; one whose publish time
    is no time is taken for younger than every record. *)
Example unreadable_time_accuses :
  let view published := match DestructionView io_ok (keep 2) (rn_disk (destroyed 2 sample_destructions))
      (Ok {[ 1 := MkKnown "d1" published ]}) (Ok ∅) with Ok r => (dv_Unaccounted r, dv_NotAssertable r) | Err _ => ([], []) end in
  view "" = ([], [1]) /\ view "2024-01-01 00:00:00" = ([1], []).
Proof. vm_compute. split; reflexivity. Qed.

(** *** What a failing append may leave

    A write that stops within the line leaves one that cannot be read, and the
    register is refused from then on; a sync that fails leaves the intent, though
    it was answered with an error. *)
Example destruction_append_fails :
  let second append := fun n => if (n =? 1)%nat then append else io_ok in
  let after append := destroyed 0 [announce works 1 "d1" "2024-03-01T00:00:00Z"; close 1 destructionStateCompleted "2024-03-02T00:00:00Z";
    announce (second append) 2 "d2" "2024-03-03T00:00:00Z"] in
  length (rn_opened (after io_torn)) = 1%nat /\ is_ok (loadDestructionState io_ok (rn_disk (after io_torn)) (keep 0)) = false /\
  length (rn_opened (after io_sync_fails)) = 1%nat /\
  match loadDestructionState io_ok (rn_disk (after io_sync_fails)) (keep 0) with Ok st => length (open_groups st) = 1%nat | Err _ => False end.
Proof. vm_compute. repeat split. Qed.
