(* ===== verification/SnapshotFiles.v ===== *)
(** * The export directory (internal/controlplane/server/snapshot_owner.go,
    history_export_manifest.go, history_export_scheduler.go)

    What a file name says: the identity of a snapshot and the retention unit it
    belongs to; the discovery of the snapshots of the directory; the retention that
    removes the oldest units, each announced to the destruction log before its
    files go. *)

From Stdlib Require Import Ascii.
From S2P Require Import Prelude GoStrings GoTime Manifest AppendLog Ledger SignedLog KeyLifecycle Destruction DestructionSpec.

(** ** Names *)

Definition HasSuffix (s p : string) : bool := HasPrefix (string_rev s) (string_rev p).
Definition TrimSuffix (s p : string) : string :=
  if HasSuffix s p then string_rev (drop_bytes (String.length p) (string_rev s)) else s.

(** The text before and after the last [c]. *)
Fixpoint cut_last (c : ascii) (s : string) : option (string * string) :=
  match s with
  | EmptyString => None
  | String a s' =>
      match cut_last c s' with
      | Some (b, r) => Some (String a b, r)
      | None => if Ascii.eqb a c then Some ("", s') else None
      end
  end.

Inductive snapshotFileKind : Type := snapshotKindIgnore | snapshotKindArtifact | snapshotKindManifest.

Definition historyExportFileBase : string := "alert-transitions".
Definition publicationStateFile : string := "publication-seq.state".
Definition manifestSuffix : string := ".manifest.json".

Definition parseSnapshotFile (name : string) : string * snapshotFileKind :=
  let self := TrimPrefix name (historyExportFileBase +:+ "-") in
  if negb (HasPrefix name (historyExportFileBase +:+ "-")) then ("", snapshotKindIgnore)
  else if HasSuffix name ".tmp" || HasSuffix name ".reserve" then ("", snapshotKindIgnore)
  else if String.eqb name publicationStateFile then ("", snapshotKindIgnore)
  else if HasSuffix name manifestSuffix then (TrimSuffix self manifestSuffix, snapshotKindManifest)
  else if HasSuffix name ".json" then (TrimSuffix self ".json", snapshotKindArtifact)
  else if HasSuffix name ".csv" then (TrimSuffix self ".csv", snapshotKindArtifact)
  else ("", snapshotKindIgnore).

Fixpoint digits_n (n : nat) (s : string) : option string :=
  match n with
  | O => Some s
  | S n => match s with String a s' => if is_digit a then digits_n n s' else None | EmptyString => None end
  end.

Definition allDigits (s : string) : bool := negb (String.eqb s "") && all_digits s.

(** The end of an identity: the "Z" and perhaps an ordinal. *)
Definition zone_and_ordinal (s : string) : bool :=
  match s with
  | String "Z" EmptyString => true
  | String "Z" (String "." ds) => allDigits ds
  | _ => false
  end.

(** [validSnapshotIdentityRE] *)
Definition snapshotIdentityValid (self : string) : bool :=
  match digits_n 8 self with
  | Some (String "T" s) =>
      match digits_n 6 s with
      | Some (String "." s) =>
          let '(l, r) := span_digits s in (1 <=? length l)%nat && (length l <=? 9)%nat && zone_and_ordinal r
      | Some s => zone_and_ordinal s
      | None => false
      end
  | _ => false
  end.

(** One call is one turn of the loop. *)
Fixpoint valid_ancestor (fuel : nat) (cur : string) : string :=
  match fuel with
  | O => ""
  | S fuel =>
      if String.eqb cur "" then ""
      else if snapshotIdentityValid cur then cur
      else match cut_last "." cur with
        | None => ""
        | Some (b, _) => if String.eqb b "" then "" else valid_ancestor fuel b
        end
  end.

Definition nearestValidAncestor (self : string) : string := valid_ancestor (S (String.length self)) self.

Fixpoint parse_digits64 (n : Z) (s : string) : Z :=
  match s with
  | EmptyString => n
  | String a s' => parse_digits64 (wrap64 (n * 10 + (Z.of_N (Ascii.N_of_ascii a) - 48))) s'
  end.
Definition parseDigits (s : string) : Z := parse_digits64 0 s.

#[local] Notation "'let*' x := a 'in' b" := (match a with Some x => b | None => None end)
  (at level 10, x pattern, b at level 200).

(** [time.Parse] with [snapshotTSLayout]. *)
Definition parse_snapshot_ts (s : string) : option Time :=
  let* (y1, s) := getnum true s in
  let* (y2, s) := getnum true s in
  let* (month, s) := getnum true s in
  let* (day, s) := getnum true s in
  let* s := skip "T" s in
  let* (hour, s) := getnum false s in
  let* (minute, s) := getnum true s in
  let* (second, s) := getnum true s in
  let '(nano, s) := parse_fraction s in
  let year := 100 * y1 + y2 in
  if String.eqb s "Z" && (1 <=? month) && (month <=? 12) && (hour <? 24) && (minute <? 60) && (second <? 60) &&
     (1 <=? day) && (day <=? days_in month year)
  then Some ((days_to year month day * 86400 + hour * 3600 + minute * 60 + second) * Second + nano)
  else None.

(** The identity without its ordinal, and the ordinal. *)
Definition cut_ordinal (self : string) : string * option string :=
  match cut_last "." self with
  | Some (b, suffix) => if allDigits suffix then (b, Some suffix) else (self, None)
  | None => (self, None)
  end.

Definition parseSnapshotIdentity (self : string) : option (Time * Z) :=
  let '(body, ord) := cut_ordinal self in
  match parse_snapshot_ts body with
  | Some t => Some (t, from_option parseDigits 0 ord)
  | None => None
  end.

Definition snapshotIdentityLess (a b : string) : bool :=
  match parseSnapshotIdentity a, parseSnapshotIdentity b with
  | Some (ta, oa), Some (tb, ob) => if negb (ta =? tb) then ta <? tb else oa <? ob
  | _, _ => string_ltb a b
  end.

Definition snapshotGroupKeyFromIdentity (self : string) : string := fst (cut_ordinal self).

(** The owner of a file: its own identity if that is one, or the nearest that is;
    [""] if none is. *)
Definition canonical_owner (self : string) : string :=
  if snapshotIdentityValid self then self else nearestValidAncestor self.

Definition snapshotGroupKey (name : string) : string :=
  match parseSnapshotFile name with
  | (_, snapshotKindIgnore) => name
  | (self, _) =>
      if String.eqb self "" then name
      else let owner := canonical_owner self in
           if String.eqb owner "" then name else snapshotGroupKeyFromIdentity owner
  end.

(** ** The directory *)

(** An entry of the directory; [sf_inode] is what [os.SameFile] compares. *)
Record SnapshotFile : Type := MkFile { sf_dir : bool; sf_inode : Z; sf_data : string }.

Abbreviation SnapDir := (gmap string SnapshotFile).

(** [os.ReadDir], without the directories. *)
Definition file_names (d : SnapDir) : list string :=
  sort_strings (map fst (List.filter (fun p => negb (sf_dir (snd p))) (map_to_list d))).

(** ** Discovery *)

Record DirGroup : Type := MkDirGroup {
  sg_identity : string;
  sg_manifestFn : string;
  sg_artifacts : gmap string string;
  sg_extraFiles : list string }.

Definition update_group (id : string) (f : DirGroup -> DirGroup) (m : gmap string DirGroup) : gmap string DirGroup :=
  <[id := f (default (MkDirGroup id "" ∅ []) (m !! id))]> m.

Definition set_manifest (name : string) (g : DirGroup) : DirGroup := MkDirGroup (sg_identity g) name (sg_artifacts g) (sg_extraFiles g).
Definition set_artifact (name : string) (g : DirGroup) : DirGroup :=
  MkDirGroup (sg_identity g) (sg_manifestFn g) (<[(if HasSuffix name ".csv" then "csv" else "json") := name]> (sg_artifacts g)) (sg_extraFiles g).
Definition add_extra (name : string) (g : DirGroup) : DirGroup :=
  MkDirGroup (sg_identity g) (sg_manifestFn g) (sg_artifacts g) (sg_extraFiles g ++ [name]).

Definition register_file (m : gmap string DirGroup) (name : string) : gmap string DirGroup :=
  match parseSnapshotFile name with
  | (self, snapshotKindManifest) => update_group self (set_manifest name) m
  | (self, snapshotKindArtifact) => if snapshotIdentityValid self then update_group self (set_artifact name) m else m
  | (_, snapshotKindIgnore) => m
  end.

Definition attribute_file (domainVerify : bool) (acc : gmap string DirGroup * list string) (name : string)
  : gmap string DirGroup * list string :=
  let '(m, unattributed) := acc in
  match parseSnapshotFile name with
  | (self, snapshotKindArtifact) =>
      if snapshotIdentityValid self then acc
      else
        let owner := nearestValidAncestor self in
        if String.eqb owner "" then (m, unattributed ++ [name])
        else
          let g := default (MkDirGroup owner "" ∅ []) (m !! owner) in
          (update_group owner (if domainVerify && negb (String.eqb (sg_manifestFn g) "") then add_extra name else set_artifact name) m,
           unattributed)
  | _ => acc
  end.

Definition discoverSnapshotGroups (domainVerify : bool) (read_error : option error) (d : SnapDir)
  : result error (list DirGroup * list string) :=
  match read_error with
  | Some e => Err ("discover read dir: " +:+ e)
  | None =>
      let names := file_names d in
      let m := run_list register_file ∅ names in
      let '(m, unattributed) := run_list (attribute_file domainVerify) (m, []) names in
      let ids := sort_slice (fun a b => snapshotIdentityLess b a) (map fst (map_to_list m)) in
      Ok (List.filter (fun g => domainVerify || negb (String.eqb (sg_manifestFn g) ""))
            (map (fun id => default (MkDirGroup id "" ∅ []) (m !! id)) ids), unattributed)
  end.

(** ** Retention *)

Definition unit_of (name : string) : option string :=
  match parseSnapshotFile name with
  | (_, snapshotKindIgnore) => None
  | (self, _) =>
      if String.eqb self "" then None
      else let owner := canonical_owner self in
           if String.eqb owner "" then None else Some (snapshotGroupKeyFromIdentity owner)
  end.

(** The units in the order of their first file, and the files of each. *)
Definition collect_unit (acc : list string * gmap string (list string)) (name : string) : list string * gmap string (list string) :=
  match unit_of name with
  | None => acc
  | Some u =>
      let '(order, units) := acc in
      match units !! u with
      | None => (order ++ [u], <[u := [name]]> units)
      | Some l => (order, <[u := l ++ [name]]> units)
      end
  end.

Section Retention.
Context `{DestructionCodec} (decode : string -> result error snapshotManifest).

(** The failures that a unit meets, and the times of its records. *)
Record PruneIO : Type := MkPruneIO {
  pr_read : string -> option error;
  pr_remove : string -> option error;
  pr_record : ObserverIO }.

(** The target that a file of a unit is, and the id if its digest is not to be
    had. *)
Definition target_of_file (io : PruneIO) (d : SnapDir) (fn : string) : option (destructionTarget * list string) :=
  if negb (HasSuffix fn manifestSuffix) then None
  else match pr_read io fn, d !! fn with
    | None, Some f =>
        match decode (sf_data f) with
        | Ok m =>
            if m_PublicationID m =? 0 then None
            else match manifestDigest (Some m) with
              | Ok dg => if String.eqb dg "" then Some (MkTarget (m_PublicationID m) "" 0 0 "", [pretty (m_PublicationID m)])
                         else Some (MkTarget (m_PublicationID m) dg 0 0 "", [])
              | Err _ => Some (MkTarget (m_PublicationID m) "" 0 0 "", [pretty (m_PublicationID m)])
              end
        | Err _ => None
        end
    | _, _ => None
    end.

Definition destructionTargetsForUnit (io : PruneIO) (d : SnapDir) (names : list string) : list destructionTarget * list string :=
  let found := omap (target_of_file io d) names in (map fst found, concat (map snd found)).

(** The intent, if there is something to name. *)
Definition beginPruneDestruction (c : destructionConfig) (retain : Z) (io : PruneIO) (d : SnapDir) (names : list string) (w : DestructionWorld)
  : DestructionWorld * option (result error destructionEntry) :=
  if negb (dc_writable c) then (w, None)
  else
    let '(targets, unavailable) := destructionTargetsForUnit io d names in
    match targets with
    | [] => (w, None)
    | _ =>
        let '(disk, out, landed, r) := beginDestruction (oio_begin (pr_record io)) c destructionKindSnapshotRetention ("retain=" +:+ pretty retain)
          unavailable targets (Z.of_nat (length targets)) (oio_at (pr_record io)) (dw_disk w) in
        (MkDestructionWorld disk (dw_dispatched w ++ out) (dw_landed w ++ landed) (record_error r (dw_error w)), Some r)
    end.

Definition completePruneDestruction (c : destructionConfig) (io : PruneIO) (seq : Z) (state : string) (w : DestructionWorld)
  : DestructionWorld * result error unit :=
  let '(disk, out, landed, r) := completeDestruction (oio_end (pr_record io)) c seq state (oio_end_at (pr_record io)) (dw_disk w) in
  (MkDestructionWorld disk (dw_dispatched w ++ out) (dw_landed w ++ landed) (record_error r (dw_error w)), r).

Definition remove_files (io : PruneIO) (names : list string) (d : SnapDir) : SnapDir :=
  foldl (fun d fn => match pr_remove io fn with Some _ => d | None => delete fn d end) d names.

Definition removed_files (io : PruneIO) (names : list string) : list string :=
  List.filter (fun fn => match pr_remove io fn with Some _ => false | None => true end) names.

(** What the destruction log answered for a unit; it only watches. *)
Record PruneStep : Type := MkStep { st_intent : option (result error destructionEntry); st_end : option (result error unit) }.

Definition prune_unit (c : destructionConfig) (retain : Z) (io : PruneIO) (unit : string) (names : list string) (d : SnapDir) (w : DestructionWorld)
  : SnapDir * DestructionWorld * PruneStep * option error :=
  let '(w, intent) := beginPruneDestruction c retain io d names w in
  let seq := match intent with Some (Ok e) => de_DestructionSeq e | _ => 0 end in
  let d' := remove_files io names d in
  let removed := length (removed_files io names) in
  let failed := negb (removed =? length names)%nat in
  let '(w, ended) :=
    if 0 <? seq then
      let '(w, r) := completePruneDestruction c io seq (if failed then destructionStateAborted else destructionStateCompleted) w in (w, Some r)
    else (w, None) in
  (d', w, MkStep intent ended,
   if failed then Some ("prune remove unit " +:+ unit +:+ ": " +:+ pretty removed +:+ " of " +:+ pretty (length names) +:+ " file(s) removed")
   else None).

Fixpoint prune_units (c : destructionConfig) (retain : Z) (io : nat -> PruneIO) (i : nat) (us : list (string * list string)) (d : SnapDir)
    (w : DestructionWorld) : SnapDir * DestructionWorld * list PruneStep * option error :=
  match us with
  | [] => (d, w, [], None)
  | (u, names) :: us =>
      match prune_unit c retain (io i) u names d w with
      | (d, w, step, Some e) => (d, w, [step], Some e)
      | (d, w, step, None) => let '(d, w, steps, err) := prune_units c retain io (S i) us d w in (d, w, step :: steps, err)
      end
  end.

(** The units in their order, with their files. *)
Definition retention_units (names : list string) : list (string * list string) :=
  let '(order, units) := run_list collect_unit ([], ∅) names in
  map (fun u => (u, default [] (units !! u))) (sort_strings order).

Definition prune (c : destructionConfig) (retain : Z) (read_error : option error) (io : nat -> PruneIO) (d : SnapDir) (w : DestructionWorld)
  : SnapDir * DestructionWorld * list PruneStep * option error :=
  if retain <=? 0 then (d, w, [], None)
  else match read_error with
    | Some e => (d, w, [], Some ("prune read dir: " +:+ e))
    | None =>
        let us := retention_units (file_names d) in
        if Z.of_nat (length us) <=? retain then (d, w, [], None)
        else prune_units c retain io 0 (take (length us - Z.to_nat retain) us) d w
    end.

End Retention.

(** ** What is in the directory *)

Lemma file_names_spec d fn : fn ∈ file_names d <-> exists f, d !! fn = Some f /\ sf_dir f = false.
Proof.
  unfold file_names, sort_strings. rewrite sort_slice_elem, list_elem_of_In, in_map_iff. split.
  - intros ([n f] & <- & [Hin Hd]%filter_In). apply list_elem_of_In, elem_of_map_to_list in Hin. exists f. split; [done|]. by apply negb_true_iff in Hd.
  - intros (f & Hf & Hd). exists (fn, f). split; [done|]. apply filter_In. split; [by apply list_elem_of_In, elem_of_map_to_list|]. cbn. by rewrite Hd.
Qed.

(** The files of a unit. *)
Definition files_of (u : string) (names : list string) : list string := List.filter (fun n => bool_decide (unit_of n = Some u)) names.

Lemma files_of_spec u names n : In n (files_of u names) <-> In n names /\ unit_of n = Some u.
Proof. unfold files_of. by rewrite filter_In, bool_decide_eq_true. Qed.

Lemma files_of_snoc u names n : files_of u (names ++ [n]) = files_of u names ++ (if bool_decide (unit_of n = Some u) then [n] else []).
Proof. unfold files_of. rewrite List.filter_app. cbn. by case_bool_decide. Qed.

Record collected (names : list string) (order : list string) (units : gmap string (list string)) : Prop := MkCollected {
  co_nodup : NoDup order;
  co_units u : u ∈ order <-> exists n, In n names /\ unit_of n = Some u;
  co_files u : u ∈ order -> units !! u = Some (files_of u names);
  co_none u : (u ∉ order) -> units !! u = None }.

Lemma collect_spec names : let '(order, units) := run_list collect_unit ([], ∅) names in collected names order units.
Proof.
  induction names as [|n names IH] using rev_ind.
  { split; [apply NoDup_nil_2| | |done]; intros u; [|by intros Hu%elem_of_nil]. split; [by intros Hu%elem_of_nil|]. by intros (n & [] & _). }
  rewrite run_list_snoc. destruct (run_list collect_unit ([], ∅) names) as [order units]. destruct IH as [Hn Hu Hf Hno].
  assert (Hin : forall u, (exists n', In n' (names ++ [n]) /\ unit_of n' = Some u) <-> u ∈ order \/ unit_of n = Some u).
  { intros u. rewrite Hu. split.
    - intros (n' & [Hin|[<-|[]]]%in_app_iff & E); [left; by exists n'|by right].
    - intros [(n' & Hin & E)|E]; [exists n'; split; [apply in_or_app; by left|done]|exists n; split; [apply in_or_app; right; by left|done]]. }
  unfold collect_unit. destruct (unit_of n) as [u0|] eqn:E0.
  2: { split; [done| | |done]; intros u; [rewrite Hin; intuition congruence|]. intros Hx. rewrite files_of_snoc, E0.
       rewrite bool_decide_eq_false_2, app_nil_r by done. by apply Hf. }
  destruct (units !! u0) as [l|] eqn:El.
  - assert (Hu0 : u0 ∈ order) by (destruct (decide (u0 ∈ order)) as [|Hx]; [done|]; rewrite (Hno _ Hx) in El; done).
    split; [done| | |].
    + intros u. rewrite Hin. split; [by left|]. intros [|[= <-]]; done.
    + intros u Hx. rewrite files_of_snoc, E0. destruct (decide (u = u0)) as [->|Hne].
      * rewrite lookup_insert_eq, bool_decide_eq_true_2 by done. rewrite (Hf _ Hu0) in El. by injection El as <-.
      * rewrite lookup_insert_ne, bool_decide_eq_false_2, app_nil_r by congruence. by apply Hf.
    + intros u Hx. rewrite lookup_insert_ne by (intros ->; done). by apply Hno.
  - assert (Hu0 : u0 ∉ order) by (intros Hx; by rewrite (Hf _ Hx) in El).
    split.
    + apply NoDup_app. split; [done|]. split; [|by apply NoDup_singleton]. intros x Hx Hs%list_elem_of_singleton. by subst x.
    + intros u. rewrite Hin, elem_of_app, list_elem_of_singleton. split; intros [|]; auto; right; congruence.
    + intros u [Hx|Hx%list_elem_of_singleton]%elem_of_app; rewrite files_of_snoc, E0.
      * assert (u <> u0) by (intros ->; done). rewrite lookup_insert_ne, bool_decide_eq_false_2, app_nil_r by congruence. by apply Hf.
      * subst u. rewrite lookup_insert_eq, bool_decide_eq_true_2 by done. f_equal.
        assert (files_of u0 names = []) as ->; [|done]. destruct (files_of u0 names) as [|x l] eqn:Ex; [done|].
        assert (Hix : In x (files_of u0 names)) by (rewrite Ex; by left). apply files_of_spec in Hix as [Hix Hux]. destruct Hu0. apply Hu. by exists x.
    + intros u Hx. rewrite not_elem_of_app in Hx. destruct Hx as [Hx Hs%not_elem_of_cons]. rewrite lookup_insert_ne by (intros ->; by destruct Hs). by apply Hno.
Qed.

(** The retention units, oldest first by their names. *)
Definition unit_order (names : list string) : list string := map fst (retention_units names).

Lemma retention_units_spec names :
  retention_units names = map (fun u => (u, files_of u names)) (unit_order names) /\
  NoDup (unit_order names) /\ StronglySorted (sort_le string_ltb) (unit_order names) /\
  forall u, u ∈ unit_order names <-> exists n, In n names /\ unit_of n = Some u.
Proof.
  unfold unit_order, retention_units. pose proof (collect_spec names) as Hc. destruct (run_list _ _ names) as [order units].
  destruct Hc as [Hn Hu Hf _].
  assert (Hm : map fst (map (fun u => (u, default [] (units !! u))) (sort_strings order)) = sort_strings order).
  { rewrite map_map. cbn [fst]. apply map_id. }
  rewrite Hm. unfold sort_strings. split_and!.
  - apply map_ext_in. intros u Hin%list_elem_of_In. rewrite sort_slice_elem in Hin. by rewrite (Hf _ Hin).
  - by rewrite sort_slice_perm.
  - apply sort_slice_sorted; [exact string_ltb_asym|exact string_ltb_ntrans].
  - intros u. by rewrite sort_slice_elem.
Qed.

Lemma excess_file d u fn : fn ∈ files_of u (file_names d) <-> unit_of fn = Some u /\ exists f, d !! fn = Some f /\ sf_dir f = false.
Proof. rewrite list_elem_of_In, files_of_spec, <- list_elem_of_In, file_names_spec. tauto. Qed.

(** ** What the retention removes *)

Section RetentionLaws.
Context `{DestructionCodec} (decode : string -> result error snapshotManifest).

Lemma remove_files_spec io names d fn :
  remove_files io names d !! fn = if bool_decide (fn ∈ names /\ pr_remove io fn = None) then None else d !! fn.
Proof.
  revert d. induction names as [|n names IH]; intros d; cbn [remove_files foldl].
  { by rewrite bool_decide_eq_false_2 by (by intros [Hx%elem_of_nil _]). }
  fold (remove_files io names (match pr_remove io n with Some _ => d | None => delete n d end)). rewrite IH.
  case_bool_decide as Hb; [rewrite bool_decide_eq_true_2; [done|]; destruct Hb; split; [by right|done]|].
  destruct (pr_remove io n) as [e|] eqn:E.
  - rewrite bool_decide_eq_false_2; [done|]. intros [[->|Hin]%elem_of_cons Hr]; [congruence|by destruct Hb].
  - destruct (decide (fn = n)) as [->|Hne].
    + rewrite lookup_delete_eq, bool_decide_eq_true_2; [done|]. split; [by left|done].
    + rewrite lookup_delete_ne by done. rewrite bool_decide_eq_false_2; [done|]. intros [[->|Hin]%elem_of_cons Hr]; [done|by destruct Hb].
Qed.

Lemma all_removed io names : (length (removed_files io names) =? length names)%nat = true -> forall fn, fn ∈ names -> pr_remove io fn = None.
Proof.
  intros Hl%Nat.eqb_eq. assert (Hle : forall l, (length (removed_files io l) <= length l)%nat).
  { intros l. unfold removed_files. induction l as [|x l IH]; [done|]. cbn. destruct (pr_remove io x); cbn; lia. }
  induction names as [|n names IH]; intros fn; [by intros Hx%elem_of_nil|]. unfold removed_files in *. cbn in Hl. specialize (Hle names).
  destruct (pr_remove io n) eqn:E; [cbn in Hle, Hl; lia|]. intros [->|Hin]%elem_of_cons; [done|]. apply IH; [cbn in Hl; lia|done].
Qed.

Lemma prune_unit_files c retain io u names d w d' w' step err :
  prune_unit decode c retain io u names d w = (d', w', step, err) ->
  d' = remove_files io names d /\ (err = None -> forall fn, fn ∈ names -> d' !! fn = None).
Proof.
  unfold prune_unit. destruct (beginPruneDestruction _ _ _ _ _ _ _) as [w1 intent].
  destruct (if 0 <? _ then _ else _) as [w2 ended]. intros Hp. injection Hp as Hd Hw Hs He. split; [by rewrite Hd|].
  subst err. intros Hf fn Hin. destruct (length (removed_files io names) =? length names)%nat eqn:E; [|done].
  rewrite <- Hd, remove_files_spec, bool_decide_eq_true_2; [done|]. split; [done|]. by eapply all_removed.
Qed.

Lemma prune_units_files c retain io i us d w d' w' steps err :
  prune_units decode c retain io i us d w = (d', w', steps, err) ->
  (forall fn, d' !! fn = d !! fn \/ d' !! fn = None /\ exists u names, In (u, names) us /\ fn ∈ names) /\
  (err = None -> forall u names fn, In (u, names) us -> fn ∈ names -> d' !! fn = None).
Proof.
  revert i d w steps. induction us as [|[u names] us IH]; intros i d w steps; cbn [prune_units].
  { intros [= <- <- <- <-]. split; [by left|]. by intros _ u names fn []. }
  destruct (prune_unit _ _ _ _ _ _ _ _) as [[[d1 w1] step] [e|]] eqn:E; destruct (prune_unit_files _ _ _ _ _ _ _ _ _ _ _ E) as [-> Hall].
  - intros [= <- <- <- <-]. split; [|done]. intros fn. rewrite remove_files_spec. case_bool_decide as Hb; [|by left].
    right. split; [done|]. exists u, names. split; [by left|]. by destruct Hb.
  - destruct (prune_units _ _ _ _ _ _ _ _) as [[[d2 w2] steps2] err2] eqn:Hr. intros [= <- <- <- <-]. destruct (IH _ _ _ _ Hr) as [Hkeep Hgone]. split.
    + intros fn. destruct (Hkeep fn) as [->|[-> (u' & names' & Hin & Hf)]]; [|right; split; [done|]; exists u', names'; split; [by right|done]].
      rewrite remove_files_spec. case_bool_decide as Hb; [|by left]. right. split; [done|]. exists u, names. split; [by left|]. by destruct Hb.
    + intros Hn u' names' fn [[= <- <-]|Hin] Hf; [|by eapply Hgone]. destruct (Hkeep fn) as [->|[-> _]]; [|done]. by apply (Hall eq_refl).
Qed.

(** The units that are too many. *)
Definition excess_units (retain : Z) (d : SnapDir) : list string :=
  let us := unit_order (file_names d) in take (length us - Z.to_nat retain) us.

Definition unit_in (d : SnapDir) (u : string) : Prop := exists fn f, d !! fn = Some f /\ sf_dir f = false /\ unit_of fn = Some u.

Lemma unit_order_spec d u : u ∈ unit_order (file_names d) <-> unit_in d u.
Proof.
  destruct (retention_units_spec (file_names d)) as (_ & _ & _ & ->). split.
  - intros (fn & (f & Hf & Hd)%list_elem_of_In%file_names_spec & Hu). by exists fn, f.
  - intros (fn & f & Hf & Hd & Hu). exists fn. split; [|done]. apply list_elem_of_In, file_names_spec. by exists f.
Qed.

Lemma prune_runs c retain io d w d' w' steps err : 0 < retain -> prune decode c retain None io d w = (d', w', steps, err) ->
  prune_units decode c retain io 0 (map (fun u => (u, files_of u (file_names d))) (excess_units retain d)) d w = (d', w', steps, err).
Proof.
  intros Hr. unfold prune. rewrite (proj2 (Z.leb_gt _ _) Hr). unfold excess_units.
  destruct (retention_units_spec (file_names d)) as (-> & _). rewrite length_map.
  destruct (Z.leb_spec (Z.of_nat (length (unit_order (file_names d)))) retain) as [Hle|Hgt].
  - intros [= <- <- <- <-]. replace (length (unit_order (file_names d)) - Z.to_nat retain)%nat with 0%nat by lia. done.
  - by rewrite firstn_map.
Qed.

(** C15. What a prune does to the directory, whatever fails: it removes files of the
    units that are too many in the order of their names, and nothing else; without
    an error all of them, so that no more units are left than are to be kept. *)
Theorem prune_exact c retain io d w d' w' steps err :
  0 < retain -> prune decode c retain None io d w = (d', w', steps, err) ->
  NoDup (unit_order (file_names d)) /\ StronglySorted (sort_le string_ltb) (unit_order (file_names d)) /\
  (forall fn, d' !! fn = d !! fn \/
     d' !! fn = None /\ exists f u, d !! fn = Some f /\ sf_dir f = false /\ unit_of fn = Some u /\ u ∈ excess_units retain d) /\
  (err = None -> (forall u, unit_in d' u <-> u ∈ drop (length (unit_order (file_names d)) - Z.to_nat retain) (unit_order (file_names d))) /\
     Z.of_nat (length (unit_order (file_names d'))) <= retain).
Proof.
  intros Hr Hrun%prune_runs; [|done]. destruct (retention_units_spec (file_names d)) as (_ & Hn & Hs & _).
  destruct (prune_units_files _ _ _ _ _ _ _ _ _ _ _ Hrun) as [Hkeep Hgone].
  assert (Hk : forall fn, d' !! fn = d !! fn \/
     d' !! fn = None /\ exists f u, d !! fn = Some f /\ sf_dir f = false /\ unit_of fn = Some u /\ u ∈ excess_units retain d).
  { intros fn. destruct (Hkeep fn) as [|[Hd (u & names & Hin & Hf)]]; [by left|]. right. split; [done|].
    apply in_map_iff in Hin as (u' & [= -> <-] & Hu). apply excess_file in Hf as (Hu' & f & Hf & Hdir). exists f, u. split_and!; try done. by apply list_elem_of_In. }
  split_and!; [done|done|done|]. intros He.
  assert (Hunits : forall u, unit_in d' u <-> u ∈ drop (length (unit_order (file_names d)) - Z.to_nat retain) (unit_order (file_names d))).
  { intros u. set (n := (length (unit_order (file_names d)) - Z.to_nat retain)%nat).
    pose proof (take_drop n (unit_order (file_names d))) as Htd. pose proof Hn as Hnd. rewrite <- Htd in Hnd. apply NoDup_app in Hnd as (_ & Hdis & _). split.
    - intros (fn & f & Hf & Hdir & Hu). destruct (Hk fn) as [E|[E _]]; [|congruence]. rewrite E in Hf.
      assert (Hin : u ∈ unit_order (file_names d)) by (apply unit_order_spec; by exists fn, f). rewrite <- Htd in Hin.
      apply elem_of_app in Hin as [Hin|Hin]; [|done]. exfalso.
      assert (Hno : d' !! fn = None). { apply (Hgone He u (files_of u (file_names d))); [apply in_map_iff; exists u; split; [done|by apply list_elem_of_In]|].
        apply excess_file. split; [done|]. by exists f. }
      congruence.
    - intros Hin. assert (Hu : unit_in d u) by (apply unit_order_spec; rewrite <- Htd; apply elem_of_app; by right).
      destruct Hu as (fn & f & Hf & Hdir & Hu). exists fn, f. split_and!; try done. destruct (Hk fn) as [E|[_ (f' & u' & _ & _ & Hu' & Hex)]]; [by rewrite E|].
      rewrite Hu in Hu'. injection Hu' as <-. by destruct (Hdis _ Hex Hin). }
  split; [done|].
  assert (Hp : unit_order (file_names d') ≡ₚ drop (length (unit_order (file_names d)) - Z.to_nat retain) (unit_order (file_names d))).
  { apply NoDup_Permutation; [apply retention_units_spec| |].
    - rewrite <- (take_drop (length (unit_order (file_names d)) - Z.to_nat retain) (unit_order (file_names d))) in Hn. by apply NoDup_app in Hn as (_ & _ & Hn).
    - intros u. by rewrite unit_order_spec, Hunits. }
  rewrite Hp, length_drop. lia.
Qed.

Lemma prune_units_land c retain io i us d w d' w' steps err :
  prune_units decode c retain io i us d w = (d', w', steps, err) -> exists more, dw_landed w' = dw_landed w ++ more.
Proof.
  revert i d w steps. induction us as [|[u names] us IH]; intros i d w steps; cbn [prune_units].
  { intros [= <- <- <- <-]. exists []. by rewrite app_nil_r. }
  assert (Hone : forall d1 w1 step e, prune_unit decode c retain (io i) u names d w = (d1, w1, step, e) -> exists more, dw_landed w1 = dw_landed w ++ more).
  { intros d1 w1 step e. unfold prune_unit, beginPruneDestruction, completePruneDestruction.
    destruct (negb (dc_writable c)); [intros [= _ <- _ _]; exists []; by rewrite app_nil_r|].
    destruct (destructionTargetsForUnit _ _ _ _) as [[|t ts] un]; [intros [= _ <- _ _]; exists []; by rewrite app_nil_r|].
    destruct (beginDestruction _ _ _ _ _ _ _ _ _) as [[[d2 out] landed] r]. destruct (0 <? _); [|intros [= _ <- _ _]; by exists landed].
    destruct (completeDestruction _ _ _ _ _ _) as [[[d3 out2] landed2] r2]. intros [= _ <- _ _]. exists (landed ++ landed2). cbn. by rewrite app_assoc. }
  destruct (prune_unit _ _ _ _ _ _ _ _) as [[[d1 w1] step] [e|]]; destruct (Hone _ _ _ _ eq_refl) as [m1 E1].
  - intros [= _ <- _ _]. by exists m1.
  - destruct (prune_units _ _ _ _ _ _ _ _) as [[[d2 w2] steps2] err2] eqn:Hr. intros [= <- <- <- <-]. destruct (IH _ _ _ _ Hr) as [m2 E2].
    exists (m1 ++ m2). by rewrite E2, E1, app_assoc.
Qed.

(** *** The accounts of the retention *)

Context (c : destructionConfig) (signer : exportSigner) (trust : exportTrustStore).
Hypothesis configured : dc_ka c = Some (MkKeyAuthority (Some signer) (Some trust)).
Hypothesis switched_on : dc_on c = true.
Hypothesis trusted : ts_keys trust !! es_keyID signer = Some (Public (es_priv signer)).
Hypothesis key_named : es_keyID signer <> "".

Definition whole_prune (io : PruneIO) : Prop :=
  clean_calls (oio_begin (pr_record io)) /\ clean_calls (oio_end (pr_record io)) /\ oio_at (pr_record io) <> "" /\ oio_end_at (pr_record io) <> "" /\
  forall fn, pr_read io fn = None.

(** No call on the destruction log failed. *)
Definition answered (step : PruneStep) : Prop :=
  match st_intent step with Some (Err _) => False | _ => True end /\ match st_end step with Some (Err _) => False | _ => True end.

(** A manifest's record: a destruction of [h'] that names it, is not one of [h],
    and has ended so. *)
Definition recorded_as (h h' : list group) (m : snapshotManifest) (s : string) : Prop :=
  exists e t, In (e, Some s) h' /\ ~ In (de_DestructionSeq e) (map g_seq h) /\ de_Kind e = destructionKindSnapshotRetention /\ In t (de_Targets e) /\
    dt_PublicationID t = m_PublicationID m /\ (dt_ManifestDigest t = "" \/ manifestDigest (Some m) = Ok (dt_ManifestDigest t)).

(** How the destruction of files is recorded: completed if all of them are gone,
    else aborted. *)
Definition end_state (d' : SnapDir) (names : list string) : string :=
  if forallb (fun n => bool_decide (d' !! n = None)) names then destructionStateCompleted else destructionStateAborted.

Lemma end_state_same d1 d2 names : (forall n, n ∈ names -> d1 !! n = d2 !! n) -> end_state d1 names = end_state d2 names.
Proof.
  intros Hs. unfold end_state. assert (forallb (fun n => bool_decide (d1 !! n = None)) names = forallb (fun n => bool_decide (d2 !! n = None)) names) as ->; [|done].
  induction names as [|n names IH]; [done|]. cbn. rewrite (Hs n) by by left. rewrite IH; [done|]. intros x Hx. apply Hs. by right.
Qed.

Lemma removed_all io names : (forall n, n ∈ names -> pr_remove io n = None) -> (length (removed_files io names) =? length names)%nat = true.
Proof.
  intros Hr. apply Nat.eqb_eq. unfold removed_files. induction names as [|n names IH]; [done|]. cbn. rewrite (Hr n) by by left. cbn. f_equal.
  apply IH. intros x Hx. apply Hr. by right.
Qed.

(** The state that the code gives is the one the directory shows. *)
Lemma unit_end_state io names d : (forall n, n ∈ names -> is_Some (d !! n)) ->
  (if negb (length (removed_files io names) =? length names)%nat then destructionStateAborted else destructionStateCompleted) =
  end_state (remove_files io names d) names.
Proof.
  intros Hp. unfold end_state. destruct (length (removed_files io names) =? length names)%nat eqn:E; cbn [negb].
  - assert (forallb (fun n => bool_decide (remove_files io names d !! n = None)) names = true) as ->; [|done].
    apply forallb_forall. intros n Hn%list_elem_of_In. apply bool_decide_eq_true. rewrite remove_files_spec, bool_decide_eq_true_2; [done|].
    split; [done|]. by eapply all_removed.
  - destruct (forallb _ names) eqn:Eall; [|done]. rewrite forallb_forall in Eall. rewrite removed_all in E; [done|]. intros n Hn.
    specialize (Eall n (proj1 (list_elem_of_In _ _) Hn)). apply bool_decide_eq_true in Eall. rewrite remove_files_spec in Eall.
    case_bool_decide as Hb; [by destruct Hb|]. destruct (Hp n Hn). congruence.
Qed.

Definition log_inv := DestructionSpec.log_inv c signer trust.

Lemma target_found io d fn f m : pr_read io fn = None -> d !! fn = Some f -> HasSuffix fn manifestSuffix = true -> decode (sf_data f) = Ok m ->
  m_PublicationID m <> 0 -> exists t un, target_of_file decode io d fn = Some (t, un) /\ dt_PublicationID t = m_PublicationID m /\
    (dt_ManifestDigest t = "" \/ manifestDigest (Some m) = Ok (dt_ManifestDigest t)).
Proof.
  intros Hr Hf Hs Hm Hid. unfold target_of_file. rewrite Hs, Hr, Hf, Hm. cbn [negb]. rewrite (proj2 (Z.eqb_neq _ _) Hid).
  destruct (manifestDigest (Some m)) as [dg|e]; [|eexists _, _; split; [done|]; split; [done|by left]].
  destruct (String.eqb_spec dg "") as [->|]; eexists _, _; (split; [done|]); split; [done|by left|done|by right].
Qed.

Lemma prune_unit_accounted retain io u names d w d' w' step err k h :
  prune_unit decode c retain io u names d w = (d', w', step, err) -> whole_prune io -> (forall n, n ∈ names -> is_Some (d !! n)) ->
  log_inv k h (dw_disk w) -> flat h = dw_landed w -> healthy (dw_landed w') -> Z.of_nat (length (dw_landed w')) < max_int64 ->
  exists k' h', log_inv k' h' (dw_disk w') /\ flat h' = dw_landed w' /\ (forall x s, In (x, Some s) h -> In (x, Some s) h') /\
    (forall q, In q (map g_seq h) -> In q (map g_seq h')) /\
    (answered step -> forall fn f m, fn ∈ names -> d !! fn = Some f -> HasSuffix fn manifestSuffix = true -> decode (sf_data f) = Ok m ->
       m_PublicationID m <> 0 -> recorded_as h h' m (end_state d' names)).
Proof using configured switched_on trusted key_named.
  unfold prune_unit, beginPruneDestruction. rewrite (writable_on c signer trust configured switched_on). cbn [negb].
  intros Hrun (Hcl1 & Hcl2 & Hat1 & Hat2 & Hrd) Hpres Hl Hf Hh Hlen.
  assert (Hfound : forall fn f m, fn ∈ names -> d !! fn = Some f -> HasSuffix fn manifestSuffix = true -> decode (sf_data f) = Ok m ->
       m_PublicationID m <> 0 -> exists t, In t (fst (destructionTargetsForUnit decode io d names)) /\ dt_PublicationID t = m_PublicationID m /\
    (dt_ManifestDigest t = "" \/ manifestDigest (Some m) = Ok (dt_ManifestDigest t))).
  { intros fn f m Hin Hd Hs Hm Hid. destruct (target_found io d fn f m (Hrd fn) Hd Hs Hm Hid) as (t & un & Ht & Hx). exists t. split; [|done].
    unfold destructionTargetsForUnit. cbn. apply in_map_iff. exists (t, un). split; [done|]. apply list_elem_of_In, list_elem_of_omap. by exists fn. }
  destruct (destructionTargetsForUnit decode io d names) as [targets un]. cbn [fst] in Hfound. destruct targets as [|t0 ts].
  { injection Hrun as <- <- <- <-. exists k, h. split_and!; [done..|]. intros _ fn f m Hin Hd Hs Hm Hid. by destruct (Hfound fn f m Hin Hd Hs Hm Hid) as (t & [] & _). }
  set (targets := t0 :: ts) in *. clearbody targets. destruct (beginDestruction _ _ _ _ _ _ _ _ _) as [[[d1 out1] landed1] r1] eqn:E1.
  destruct r1 as [e|er].
  2: { injection Hrun as <- <- <- <-. cbn [dw_landed dw_disk] in *. rewrite <- Hf in Hh, Hlen |- *. rewrite length_app in Hlen.
       pose proof (flat_length h) as Hfl.
       destruct (begin_step c signer trust configured switched_on trusted key_named _ _ _ _ _ _ _ _ _ _ _ _ _ _ E1 Hl Hcl1 Hat1 ltac:(lia) Hh) as [Hl' Hf'].
       exists k, h. split_and!; [done|by rewrite <- Hf'|done|done|]. by intros [[] _]. }
  cbn [dw_disk dw_landed dw_dispatched dw_error] in Hrun.
  destruct (0 <? de_DestructionSeq e) eqn:Eq.
  2: { exfalso. injection Hrun as <- <- <- <-. cbn [dw_landed dw_disk] in *. rewrite <- Hf in Hh, Hlen. rewrite length_app in Hlen.
       pose proof (flat_length h) as Hfl.
       destruct (begin_step c signer trust configured switched_on trusted key_named _ _ _ _ _ _ _ _ _ _ _ _ _ _ E1 Hl Hcl1 Hat1 ltac:(lia) Hh) as [Hl' _].
       destruct (chained_last _ _ _ _ _ _ _ (gi_chain _ _ _ _ _ _ Hl')) as (_ & Hq & _). unfold g_seq in Hq. cbn in Hq. apply Z.ltb_ge in Eq. lia. }
  unfold completePruneDestruction in Hrun. destruct (completeDestruction _ _ _ _ _ _) as [[[d2 out2] landed2] r2] eqn:E2.
  cbn [dw_disk dw_landed] in E2. rewrite (unit_end_state io names d Hpres) in E2. set (state := end_state (remove_files io names d) names) in *.
  injection Hrun as <- <- <- Herr. cbn [dw_landed dw_disk] in *. rewrite <- Hf, <- app_assoc in Hh, Hlen |- *.
  assert (Hst : terminal_state state = true) by (unfold state, end_state; by destruct (forallb _ _)).
  destruct (window_step c signer trust configured switched_on trusted key_named _ _ _ _ _ _ _ _ _ _ _ _ _ _ _ _ _ _ _ _ _ E1 E2 Hl Hcl1 Hat1 Hcl2 Hat2 Hst
    Hh Hlen) as (Hk & Ht & _ & Hnew & k' & h' & o & Hl' & Hf' & Ho & Hgrow & Hkeep & Hok).
  exists k', h'. split_and!; [done|done|done| |].
  { intros q (x & <- & Hx)%in_map_iff. destruct x as [x o']. destruct (Hgrow x o' Hx) as [o'' Ho'']. apply in_map_iff. by exists (x, o''). }
  intros [_ Hans] fn f m Hin Hd Hs Hm Hid. cbn in Hans. destruct r2 as [x|]; [|done].
  rewrite (Hok x eq_refl) in Ho. destruct (Hfound fn f m Hin Hd Hs Hm Hid) as (t & Htin & Htid & Hdg).
  exists e, t. rewrite Ht. by split_and!.
Qed.

(** Files that are there, each name in the unit that it is listed with, each unit
    once. *)
Record listed_units (us : list (string * list string)) (d : SnapDir) : Prop := MkListedUnits {
  lu_nodup : NoDup (map fst us);
  lu_units : forall u names fn, In (u, names) us -> fn ∈ names -> unit_of fn = Some u;
  lu_there : forall u names fn, In (u, names) us -> fn ∈ names -> is_Some (d !! fn) }.

(** What one unit leaves of the files of the others. *)
Lemma listed_rest u0 names0 us io d : listed_units ((u0, names0) :: us) d ->
  (forall u names fn, In (u, names) us -> fn ∈ names -> remove_files io names0 d !! fn = d !! fn) /\ listed_units us (remove_files io names0 d).
Proof.
  intros [Hn Hu Ht]. cbn in Hn. apply NoDup_cons in Hn as [Hni Hn].
  assert (Hsame : forall u names fn, In (u, names) us -> fn ∈ names -> remove_files io names0 d !! fn = d !! fn).
  { intros u names fn Hin Hfn. rewrite remove_files_spec, bool_decide_eq_false_2; [done|]. intros [Hfn0 _].
    pose proof (Hu u0 names0 fn (or_introl eq_refl) Hfn0) as E0. rewrite (Hu u names fn (or_intror Hin) Hfn) in E0. injection E0 as ->.
    apply Hni, list_elem_of_In. by apply (in_map fst) in Hin. }
  split; [exact Hsame|]. split; [done|intros u names fn Hin; apply Hu; by right|].
  intros u names fn Hin Hfn. rewrite (Hsame u names fn Hin Hfn). apply (Ht u names fn); [by right|done].
Qed.

Lemma prune_units_accounted retain io i us d w d' w' steps err k h :
  prune_units decode c retain io i us d w = (d', w', steps, err) -> (forall i, whole_prune (io i)) -> listed_units us d ->
  log_inv k h (dw_disk w) -> flat h = dw_landed w -> healthy (dw_landed w') -> Z.of_nat (length (dw_landed w')) < max_int64 ->
  exists k' h', log_inv k' h' (dw_disk w') /\ flat h' = dw_landed w' /\ (forall x s, In (x, Some s) h -> In (x, Some s) h') /\
    (forall q, In q (map g_seq h) -> In q (map g_seq h')) /\
    (Forall answered steps -> forall u names fn f m, In (u, names) us -> fn ∈ names -> d !! fn = Some f -> HasSuffix fn manifestSuffix = true ->
       decode (sf_data f) = Ok m -> m_PublicationID m <> 0 -> (exists fn', fn' ∈ names /\ d' !! fn' = None) ->
       recorded_as h h' m (end_state d' names)).
Proof using configured switched_on trusted key_named.
  intros Hrun Hio. revert i d w steps k h Hrun. induction us as [|[u0 names0] us IH]; intros i d w steps k h Hrun Hus Hl Hf Hh Hlen; cbn [prune_units] in Hrun.
  { injection Hrun as <- <- <- <-. exists k, h. split_and!; [done..|]. by intros _ u names fn f m []. }
  destruct (listed_rest u0 names0 us (io i) d Hus) as [Hsame Hrest].
  assert (Hthere : forall n, n ∈ names0 -> is_Some (d !! n)) by (intros n; apply (lu_there _ _ Hus u0 names0 n); by left).
  destruct (prune_unit _ _ _ _ _ _ _ _) as [[[d1 w1] step] [e|]] eqn:E; destruct (prune_unit_files _ _ _ _ _ _ _ _ _ _ _ E) as [Ed _].
  - injection Hrun as <- <- <- <-. destruct (prune_unit_accounted _ _ _ _ _ _ _ _ _ _ _ _ E (Hio i) Hthere Hl Hf Hh Hlen) as (k' & h' & Hl' & Hf' & Hkeep & Hgrow & Hacc).
    exists k', h'. split_and!; [done..|]. intros [Ha _]%Forall_cons u names fn f m [[= <- <-]|Hin] Hfn Hd Hs Hm Hid Htouched; [by apply (Hacc Ha fn f m)|].
    destruct Htouched as (fn' & Hfn' & Hgone). rewrite Ed, (Hsame u names fn' Hin Hfn') in Hgone.
    destruct (lu_there _ _ Hus u names fn' (or_intror Hin) Hfn'). congruence.
  - destruct (prune_units _ _ _ _ _ _ _ _) as [[[d2 w2] steps2] err2] eqn:Hr. injection Hrun as <- <- <- <-.
    assert (Hmore : exists more, dw_landed w2 = dw_landed w1 ++ more) by (eapply prune_units_land; exact Hr).
    destruct Hmore as [more Em]. pose proof Hh as Hh1. rewrite Em in Hh1. apply healthy_prefix in Hh1.
    assert (Hlen1 : Z.of_nat (length (dw_landed w1)) < max_int64) by (rewrite Em, length_app in Hlen; lia).
    destruct (prune_unit_accounted _ _ _ _ _ _ _ _ _ _ _ _ E (Hio i) Hthere Hl Hf Hh1 Hlen1) as (k1 & h1 & Hl1 & Hf1 & Hkeep1 & Hgrow1 & Hacc1).
    rewrite <- Ed in Hrest. destruct (IH _ _ _ _ _ _ Hr Hrest Hl1 Hf1 Hh Hlen) as (k' & h' & Hl' & Hf' & Hkeep & Hgrow & Hacc).
    exists k', h'. split_and!; [done|done|auto|auto|].
    intros [Ha Has]%Forall_cons u names fn f m [[= <- <-]|Hin] Hfn Hd Hs Hm Hid Htouched.
    + assert (end_state d2 names0 = end_state d1 names0) as ->.
      { apply end_state_same. intros n Hn. destruct (prune_units_files _ _ _ _ _ _ _ _ _ _ _ Hr) as [Hk _].
        destruct (Hk n) as [|[_ (u' & names' & Hin' & Hn')]]; [done|].
        pose proof (lu_units _ _ Hus u0 names0 n (or_introl eq_refl) Hn) as E0. rewrite (lu_units _ _ Hus u' names' n (or_intror Hin') Hn') in E0.
        injection E0 as ->. pose proof (lu_nodup _ _ Hus) as Hnd. cbn in Hnd. apply NoDup_cons in Hnd as [Hni _]. destruct Hni.
        apply list_elem_of_In. by apply (in_map fst) in Hin'. }
      destruct (Hacc1 Ha fn f m Hfn Hd Hs Hm Hid) as (x & t & Hx & Hnew & Hk & Ht & Hti & Hdg). exists x, t. split_and!; auto.
    + assert (Hd1 : d1 !! fn = Some f) by (by rewrite Ed, (Hsame u names fn Hin Hfn)).
      destruct (Hacc Has u names fn f m Hin Hfn Hd1 Hs Hm Hid Htouched) as (x & t & Hx & Hnew & Hk & Ht & Hti & Hdg). exists x, t. split_and!; auto.
Qed.

Lemma excess_listed retain d : listed_units (map (fun u => (u, files_of u (file_names d))) (excess_units retain d)) d.
Proof.
  destruct (retention_units_spec (file_names d)) as (_ & Hn & _ & _). split.
  - rewrite map_map. cbn [fst]. rewrite map_id. unfold excess_units. rewrite <- (take_drop (length (unit_order (file_names d)) - Z.to_nat retain) (unit_order (file_names d))) in Hn.
    by apply NoDup_app in Hn as (Hn & _).
  - intros u names fn (u' & [= -> <-] & _)%in_map_iff Hfn. by apply excess_file in Hfn as [? _].
  - intros u names fn (u' & [= -> <-] & _)%in_map_iff Hfn. apply excess_file in Hfn as (_ & f & Hf & _). by exists f.
Qed.

(** C27. The retention is accounted for. On a destruction log that holds a register,
    when every intent and every end of the prune was answered without an error (a
    sync or close never failing, a write that fails writing nothing), what landed are
    short lines, no two of one digest ([healthy]), and no read of a manifest failed: of each retention unit of which a file was removed, every
    manifest that can be decoded and has an id is named, with its digest where it
    has one, by a destruction that this prune has added to the register; and that
    has ended as completed if all the files of the unit are gone, and as aborted if
    one is left. *)
Theorem prune_accounted retain io d w d' w' steps err k h :
  0 < retain -> prune decode c retain None io d w = (d', w', steps, err) -> (forall i, whole_prune (io i)) ->
  log_inv k h (dw_disk w) -> flat h = dw_landed w -> healthy (dw_landed w') -> Z.of_nat (length (dw_landed w')) < max_int64 ->
  Forall answered steps ->
  exists k' h', log_inv k' h' (dw_disk w') /\ flat h' = dw_landed w' /\
    forall u fn f m, d !! fn = Some f -> sf_dir f = false -> unit_of fn = Some u -> HasSuffix fn manifestSuffix = true ->
      decode (sf_data f) = Ok m -> m_PublicationID m <> 0 ->
      (exists fn', unit_of fn' = Some u /\ is_Some (d !! fn') /\ d' !! fn' = None) ->
      (~ unit_in d' u -> recorded_as h h' m destructionStateCompleted) /\
      (unit_in d' u -> recorded_as h h' m destructionStateAborted).
Proof using configured switched_on trusted key_named.
  intros Hr Hrun Hio Hl Hf Hh Hlen Ha. apply prune_runs in Hrun; [|done].
  destruct (prune_units_accounted _ _ _ _ _ _ _ _ _ _ _ _ Hrun Hio (excess_listed retain d) Hl Hf Hh Hlen) as (k' & h' & Hl' & Hf' & _ & _ & Hacc).
  destruct (prune_units_files _ _ _ _ _ _ _ _ _ _ _ Hrun) as [Hkeep _].
  exists k', h'. split_and!; [done|done|]. intros u fn f m Hd Hdir Hu Hs Hm Hid (fn' & Hu' & [f' Hf''] & Hgone).
  assert (Hex : In (u, files_of u (file_names d)) (map (fun u => (u, files_of u (file_names d))) (excess_units retain d)) /\ fn' ∈ files_of u (file_names d)).
  { destruct (Hkeep fn') as [E|[_ (u1 & names & Hin & Hfn)]]; [congruence|]. pose proof Hin as Hin0. apply in_map_iff in Hin0 as (u2 & [= -> <-] & _).
    pose proof Hfn as Hfn0. apply excess_file in Hfn0 as [E0 _]. rewrite Hu' in E0. by injection E0 as ->. }
  destruct Hex as [Hex Hfn']. assert (Hfn : fn ∈ files_of u (file_names d)) by (apply excess_file; split; [done|by exists f]).
  pose proof (Hacc Ha _ _ _ _ _ Hex Hfn Hd Hs Hm Hid (ex_intro _ fn' (conj Hfn' Hgone))) as Hrec.
  assert (Hstate : forall n, n ∈ files_of u (file_names d) -> d' !! n <> None -> unit_in d' u).
  { intros n (Hn & g & Hg & Hgd)%excess_file Hleft. exists n, g. destruct (Hkeep n) as [E|[E _]]; [|done]. by rewrite E. }
  unfold end_state in Hrec. destruct (forallb _ _) eqn:Eall.
  - split; [done|]. intros (n & g & Hg & Hgd & Hn). exfalso. rewrite forallb_forall in Eall.
    assert (Hin : n ∈ files_of u (file_names d)).
    { apply excess_file. split; [done|]. exists g. split; [|done]. destruct (Hkeep n) as [E|[E _]]; congruence. }
    specialize (Eall n (proj1 (list_elem_of_In _ _) Hin)). apply bool_decide_eq_true in Eall. congruence.
  - split; [|done]. intros Hnone. exfalso. apply not_true_iff_false in Eall. apply Eall, forallb_forall. intros n Hn%list_elem_of_In.
    apply bool_decide_eq_true. destruct (d' !! n) eqn:E; [|done]. destruct Hnone. apply (Hstate n Hn). by rewrite E.
Qed.

End RetentionLaws.

(** ** The names of an export *)

(** The identity of the export of an instant at an ordinal, and the names of its
    files. *)
Definition snapshot_identity (ts : string) (ordinal : Z) : string := if 0 <? ordinal then ts +:+ "." +:+ pretty ordinal else ts.
Definition snapshot_base (ts : string) (ordinal : Z) : string := historyExportFileBase +:+ "-" +:+ snapshot_identity ts ordinal.
Definition format_name (base fmt : string) : string := base +:+ "." +:+ fmt.

Lemma HasSuffix_app s p : HasSuffix (s +:+ p) p = true.
Proof. unfold HasSuffix. rewrite string_rev_append. apply HasPrefix_app. Qed.

Lemma TrimSuffix_app s p : TrimSuffix (s +:+ p) p = s.
Proof.
  unfold TrimSuffix. rewrite HasSuffix_app, string_rev_append. assert (Hl : String.length p = String.length (string_rev p)).
  { assert (Hr : forall a b, String.length (string_rev_app a b) = (String.length a + String.length b)%nat).
    { induction a as [|x a IH]; intros b; [done|]. cbn. rewrite IH. cbn. lia. }
    unfold string_rev. rewrite Hr. cbn. lia. }
  rewrite Hl, drop_bytes_app. apply string_rev_involutive.
Qed.

Lemma cut_last_none c s : has_byte c s = false -> cut_last c s = None.
Proof.
  induction s as [|a s IH]; [done|]. cbn. intros [Ha Hs]%orb_false_iff. rewrite (IH Hs). by rewrite Ha.
Qed.

Lemma cut_last_app c s t : has_byte c t = false -> cut_last c (s +:+ String c t) = Some (s, t).
Proof.
  intros Ht. induction s as [|a s IH]; [change ("" +:+ String c t) with (String c t); cbn [cut_last]; by rewrite (cut_last_none _ _ Ht), Ascii.eqb_refl|].
  rewrite append_cons. cbn [cut_last]. by rewrite IH.
Qed.

Lemma cut_last_split c s b r : cut_last c s = Some (b, r) -> s = b +:+ String c r.
Proof.
  revert b. induction s as [|a s IH]; [done|]. intros b. cbn [cut_last]. destruct (cut_last c s) as [[b' r']|].
  - intros [= <- ->]. by rewrite append_cons, <- (IH _ eq_refl).
  - destruct (Ascii.eqb_spec a c) as [->|]; [|done]. by intros [= <- <-].
Qed.

Lemma digits_n_app n s r t : digits_n n s = Some r -> digits_n n (s +:+ t) = Some (r +:+ t) /\ exists p, s = p +:+ r.
Proof.
  revert s. induction n as [|n IH]; intros s; cbn [digits_n]; [intros [= <-]; split; [done|by exists ""]|].
  destruct s as [|a s]; [done|]. rewrite append_cons. destruct (is_digit a); [|done]. intros Hd. destruct (IH _ Hd) as [E [p ->]].
  split; [done|]. by exists (String a p).
Qed.

Lemma span_digits_app s l a r t : span_digits s = (l, String a r) -> span_digits (s +:+ t) = (l, String a r +:+ t) /\ exists p, s = p +:+ String a r.
Proof.
  revert l. induction s as [|x s IH]; intros l; cbn [span_digits]; [done|]. rewrite append_cons. cbn [span_digits]. destruct (digit x) as [v|].
  - destruct (span_digits s) as [l' r']. intros [= <- ->]. destruct (IH _ eq_refl) as [-> [p ->]]. split; [done|]. by exists (String x p).
  - intros [= <- -> ->]. split; [done|]. by exists "".
Qed.

(** An identity is something and its zone, perhaps with an ordinal. *)
Lemma valid_split s : snapshotIdentityValid s = true -> exists p z, s = p +:+ z /\ zone_and_ordinal z = true /\
  forall t, zone_and_ordinal (z +:+ t) = true -> snapshotIdentityValid (s +:+ t) = true.
Proof.
  unfold snapshotIdentityValid. destruct (digits_n 8 s) as [[|a1 s1]|] eqn:E1; [done| |done].
  destruct (Ascii.eqb_spec a1 "T") as [->|Hne].
  2: { intros Hx. exfalso. revert Hx Hne. clear. destruct a1 as [[][][][][][][][]]; cbn; intros; congruence. }
  destruct (digits_n 6 s1) as [s2|] eqn:E2; [|done]. intros Hv.
  assert (Hcases : (exists s3 l r, s2 = String "." s3 /\ span_digits s3 = (l, r) /\ ((1 <=? length l)%nat && (length l <=? 9)%nat) = true /\ zone_and_ordinal r = true) \/
    zone_and_ordinal s2 = true /\ forall s3, s2 <> String "." s3).
  { destruct s2 as [|a2 s3]; [by right|]. destruct (Ascii.eqb_spec a2 ".") as [->|Hne].
    - left. destruct (span_digits s3) as [l r] eqn:E. apply andb_true_iff in Hv as [Hl Hz]. by exists s3, l, r.
    - right. split; [|intros s4 [= -> _]; done]. revert Hv Hne. clear. destruct a2 as [[][][][][][][][]]; cbn; intros; congruence. }
  destruct (digits_n_app _ _ _ "" E1) as [_ [p1 ->]]. destruct (digits_n_app _ _ _ "" E2) as [_ [p2 ->]].
  destruct Hcases as [(s3 & l & r & -> & E3 & Hl & Hz)|[Hz Hnd]].
  - destruct r as [|z r]; [done|]. destruct (span_digits_app _ _ _ _ "" E3) as [_ [p3 ->]].
    exists (p1 +:+ String "T" (p2 +:+ String "." p3)), (String z r). split; [by rewrite ?append_assoc, ?append_cons, ?append_assoc, ?append_cons, ?append_assoc|].
    split; [done|]. intros t Ht. destruct (digits_n_app _ _ _ t E1) as [-> _]. rewrite append_cons. cbn iota.
    destruct (digits_n_app _ _ _ t E2) as [-> _]. rewrite append_cons. cbn iota. destruct (span_digits_app _ _ _ _ t E3) as [-> _]. by rewrite Hl.
  - exists (p1 +:+ String "T" p2), s2. split; [by rewrite append_assoc, append_cons|]. split; [done|]. intros t Ht.
    destruct (digits_n_app _ _ _ t E1) as [-> _]. rewrite append_cons. cbn iota. destruct (digits_n_app _ _ _ t E2) as [-> _].
    destruct s2 as [|a2 s2]; [done|]. rewrite append_cons in *. destruct (Ascii.eqb_spec a2 ".") as [->|Hne]; [by destruct (Hnd s2)|].
    revert Ht Hne. clear. destruct a2 as [[][][][][][][][]]; cbn; intros; congruence.
Qed.

Lemma zone_cases z : zone_and_ordinal z = true -> z = "Z" \/ exists ds, z = String "Z" (String "." ds) /\ allDigits ds = true.
Proof.
  destruct z as [|a [|b ds]]; [done| |]; cbn.
  - destruct (Ascii.eqb_spec a "Z") as [->|Hne]; [by left|]. intros Hz. exfalso. revert Hz Hne. clear. destruct a as [[][][][][][][][]]; cbn; intros; congruence.
  - intros Hz. right. exists ds. destruct (Ascii.eqb_spec a "Z") as [->|Hne].
    2: { exfalso. revert Hz Hne. clear. destruct a as [[][][][][][][][]]; cbn; intros; congruence. }
    destruct (Ascii.eqb_spec b ".") as [->|Hne]; [done|]. exfalso. revert Hz Hne. clear. destruct b as [[][][][][][][][]]; cbn; intros; congruence.
Qed.

Lemma digits_no_dot s : all_digits s = true -> has_byte "." s = false.
Proof.
  induction s as [|a s IH]; [done|]. cbn [all_digits has_byte]. intros [Ha Hs]%andb_true_iff. rewrite (IH Hs), orb_false_r.
  destruct (Ascii.eqb_spec a ".") as [->|]; [|done]. by vm_compute in Ha.
Qed.

(** A time without an ordinal is its own unit. *)
Definition export_time (ts : string) : Prop := snapshotIdentityValid ts = true /\ snapshotGroupKeyFromIdentity ts = ts.

Lemma export_time_zone ts : export_time ts -> exists p, ts = p +:+ "Z" /\
  forall ds, allDigits ds = true -> snapshotIdentityValid (ts +:+ String "." ds) = true.
Proof.
  intros [Hv Hk]. destruct (valid_split _ Hv) as (p & z & -> & Hz & Hext). destruct (zone_cases _ Hz) as [->|(ds & -> & Hd)].
  - exists p. split; [done|]. intros ds Hds. apply Hext. exact Hds.
  - exfalso. unfold snapshotGroupKeyFromIdentity, cut_ordinal in Hk. revert Hk.
    replace (p +:+ String "Z" (String "." ds)) with ((p +:+ "Z") +:+ String "." ds) by by rewrite append_assoc.
    pose proof Hd as [_ Hd']%andb_true_iff. rewrite cut_last_app by by apply digits_no_dot. rewrite Hd. cbn. intros E.
    apply (f_equal String.length) in E. rewrite !string_length_app in E. cbn in E. lia.
Qed.

Lemma ordinal_text n : 0 < n < 100 -> allDigits (pretty n) = true /\ parseDigits (pretty n) = n.
Proof.
  intros Hn. assert (Hall : Forall (fun k => allDigits (pretty (Z.of_nat k)) = true /\ parseDigits (pretty (Z.of_nat k)) = Z.of_nat k) (seq 1 99)).
  { rewrite List.Forall_forall. intros k Hk. assert (Hb : forallb (fun k => allDigits (pretty (Z.of_nat k)) && (parseDigits (pretty (Z.of_nat k)) =? Z.of_nat k)) (seq 1 99) = true) by (vm_compute; reflexivity).
    rewrite forallb_forall in Hb. specialize (Hb k Hk). apply andb_true_iff in Hb as [Hd He]. split; [done|by apply Z.eqb_eq]. }
  rewrite List.Forall_forall in Hall. specialize (Hall (Z.to_nat n)). rewrite Z2Nat.id in Hall by lia. apply Hall, in_seq. clear -Hn. lia.
Qed.

(** The identity of an export: valid, of the unit of its time, at its ordinal. *)
Lemma identity_facts ts n : export_time ts -> 0 <= n < 100 ->
  snapshotIdentityValid (snapshot_identity ts n) = true /\ snapshotGroupKeyFromIdentity (snapshot_identity ts n) = ts /\
  parseSnapshotIdentity (snapshot_identity ts n) = (fun t => (t, n)) <$> parse_snapshot_ts ts /\
  exists p a, snapshot_identity ts n = p +:+ String a "" /\ (a = "Z"%char \/ is_digit a = true).
Proof.
  intros Ht Hn. pose proof Ht as [Hv Hk]. destruct (export_time_zone _ Ht) as (p & Ep & Hext). unfold snapshot_identity.
  destruct (Z.ltb_spec 0 n) as [Hp|Hp].
  - destruct (ordinal_text n) as [Hd Hpd]; [lia|]. pose proof Hd as [Hne Hd']%andb_true_iff.
    replace (ts +:+ "." +:+ pretty n) with (ts +:+ String "." (pretty n)) by done.
    unfold snapshotGroupKeyFromIdentity, parseSnapshotIdentity, cut_ordinal. rewrite cut_last_app by by apply digits_no_dot. rewrite Hd. cbn [fst].
    split_and!; [by apply Hext|done| |].
    + destruct (parse_snapshot_ts ts); [|done]. cbn. by rewrite Hpd.
    + clear -Hd' Hne. assert (Hl : forall s, all_digits s = true -> s <> "" -> exists q a, s = q +:+ String a "" /\ is_digit a = true).
      { induction s as [|a s IH]; [done|]. cbn [all_digits]. intros [Ha Hs]%andb_true_iff _. destruct s as [|b s]; [by exists "", a|].
        destruct (IH Hs) as (q & x & E & Hx); [done|]. exists (String a q), x. by rewrite append_cons, <- E. }
      destruct (Hl _ Hd') as (q & a & E & Ha); [by intros E; rewrite E in Hne|].
      exists (ts +:+ String "." q), a. split; [|by right]. rewrite append_assoc, append_cons. by rewrite E.
  - replace n with 0 by lia. split_and!; [done|done| |exists p, "Z"%char; split; [done|by left]].
    unfold parseSnapshotIdentity, snapshotGroupKeyFromIdentity, cut_ordinal in *. destruct (cut_last "." ts) as [[b s]|] eqn:E.
    + destruct (allDigits s); [|by destruct (parse_snapshot_ts ts)]. cbn in Hk. exfalso. subst b.
      apply cut_last_split in E. apply (f_equal String.length) in E. rewrite string_length_app in E. cbn in E. lia.
    + by destruct (parse_snapshot_ts ts).
Qed.

(** The end of a name decides which suffixes it has. *)
Lemma suffix_differs s p q : HasPrefix (string_rev p +:+ string_rev s) (string_rev q) = false -> HasSuffix (s +:+ p) q = false.
Proof. unfold HasSuffix. by rewrite string_rev_append. Qed.

Lemma HasPrefix_cancel p x q : HasPrefix (p +:+ x) (p +:+ q) = HasPrefix x q.
Proof. unfold HasPrefix. induction p as [|a p IH]; [done|]. rewrite !append_cons. cbn. by destruct (Ascii.ascii_dec a a). Qed.

Lemma HasPrefix_head a b s q : a <> b -> HasPrefix (String a s) (String b q) = false.
Proof. intros Hne. unfold HasPrefix. cbn. by destruct (Ascii.ascii_dec b a) as [->|]. Qed.

Lemma not_manifest id fmt a p : id = p +:+ String a "" -> (a = "Z"%char \/ is_digit a = true) -> fmt = ".json" \/ fmt = ".csv" ->
  HasSuffix (id +:+ fmt) manifestSuffix = false.
Proof.
  intros -> Ha Hf. apply suffix_differs. rewrite string_rev_append. change (string_rev (String a "")) with (String a ""). rewrite append_cons.
  destruct Hf as [->| ->]; [|reflexivity]. change (string_rev manifestSuffix) with ("nosj." +:+ "tsefinam."). change (string_rev ".json") with "nosj.".
  rewrite HasPrefix_cancel. apply HasPrefix_head. by intros ->; destruct Ha.
Qed.

(** What publication writes retention and verification find again: the name of a
    format or of the manifest of an export, at whatever ordinal, parses to that
    export's identity, which is valid, orders by the time and the ordinal as a
    number, and lies in the retention unit of the time. *)
Theorem published_names_resolve ts n fmt : export_time ts -> 0 <= n < 100 -> fmt = "json" \/ fmt = "csv" \/ fmt = "manifest.json" ->
  let name := format_name (snapshot_base ts n) fmt in
  parseSnapshotFile name = (snapshot_identity ts n, if String.eqb fmt "manifest.json" then snapshotKindManifest else snapshotKindArtifact) /\
  snapshotIdentityValid (snapshot_identity ts n) = true /\
  parseSnapshotIdentity (snapshot_identity ts n) = (fun t => (t, n)) <$> parse_snapshot_ts ts /\
  unit_of name = Some ts.
Proof.
  intros Ht Hn Hf. cbv zeta. destruct (identity_facts ts n Ht Hn) as (Hv & Hk & Hp & p & a & Ha & Hz).
  assert (Hparse : parseSnapshotFile (format_name (snapshot_base ts n) fmt) =
    (snapshot_identity ts n, if String.eqb fmt "manifest.json" then snapshotKindManifest else snapshotKindArtifact)).
  { unfold parseSnapshotFile, format_name, snapshot_base. set (id := snapshot_identity ts n) in *.
    replace ((historyExportFileBase +:+ "-" +:+ id) +:+ "." +:+ fmt) with ((historyExportFileBase +:+ "-") +:+ (id +:+ "." +:+ fmt)) by by rewrite !append_assoc.
    rewrite HasPrefix_app, TrimPrefix_app. cbn [negb]. set (pre := historyExportFileBase +:+ "-").
    assert (Hno : String.eqb (pre +:+ id +:+ "." +:+ fmt) publicationStateFile = false) by done. rewrite Hno. clear Hno.
    assert (Hend : forall q, HasPrefix (string_rev ("." +:+ fmt) +:+ string_rev (pre +:+ id)) (string_rev q) = false ->
      HasSuffix (pre +:+ id +:+ "." +:+ fmt) q = false).
    { intros q Hq. rewrite <- append_assoc. by apply suffix_differs. }
    destruct Hf as [->|[->| ->]].
    - rewrite (Hend ".tmp"), (Hend ".reserve") by reflexivity. cbn [orb]. rewrite <- append_assoc. change ("." +:+ "json") with ".json".
      rewrite (not_manifest (pre +:+ id) ".json" a (pre +:+ p)) by first [done|by rewrite Ha, append_assoc|by left].
      by rewrite HasSuffix_app, TrimSuffix_app.
    - rewrite (Hend ".tmp"), (Hend ".reserve") by reflexivity. cbn [orb]. rewrite <- append_assoc. change ("." +:+ "csv") with ".csv".
      rewrite (not_manifest (pre +:+ id) ".csv" a (pre +:+ p)) by first [done|by rewrite Ha, append_assoc|by right].
      rewrite (append_assoc pre id ".csv"). change ".csv" with ("." +:+ "csv") at 1. rewrite (Hend ".json") by reflexivity.
      rewrite <- append_assoc. by rewrite HasSuffix_app, TrimSuffix_app.
    - rewrite (Hend ".tmp"), (Hend ".reserve") by reflexivity. cbn [orb]. rewrite <- append_assoc.
      change ("." +:+ "manifest.json") with manifestSuffix. by rewrite HasSuffix_app, TrimSuffix_app. }
  split_and!; [exact Hparse|exact Hv|exact Hp|]. unfold unit_of. rewrite Hparse.
  assert (Hne : String.eqb (snapshot_identity ts n) "" = false) by (rewrite Ha; by destruct p). rewrite Hne.
  unfold canonical_owner. rewrite Hv, Hne, Hk. by destruct (String.eqb fmt _).
Qed.

(** ** The nearest identity of a name *)

(** [p] is [self], or [self] up to one of its dots. *)
Definition at_dot (p self : string) : Prop := p = self \/ exists rest, self = p +:+ String "." rest.

(** The longest of these that is an identity. *)
Definition owner_of (self id : string) : Prop :=
  at_dot id self /\ snapshotIdentityValid id = true /\
  forall p, at_dot p self -> snapshotIdentityValid p = true -> (String.length p <= String.length id)%nat.

Lemma at_dot_length p s : at_dot p s -> (String.length p <= String.length s)%nat.
Proof. intros [->|[rest ->]]; [done|]. rewrite string_length_app. lia. Qed.

Lemma cut_last_tail c s b r : cut_last c s = Some (b, r) -> has_byte c r = false.
Proof.
  revert b. induction s as [|a s IH]; [done|]. intros b. cbn [cut_last]. destruct (cut_last c s) as [[b' r']|] eqn:E.
  - intros [= _ ->]. by apply (IH b').
  - destruct (Ascii.eqb_spec a c) as [->|]; [|done]. intros [= _ <-]. clear IH. revert E. induction s as [|x s IH]; [done|]. cbn.
    destruct (cut_last c s) as [[]|]; [done|]. destruct (Ascii.eqb x c); [done|]. by apply IH.
Qed.

Lemma cut_last_dot p rest : cut_last "." (p +:+ String "." rest) <> None.
Proof.
  induction p as [|a p IH]; [change ("" +:+ String "." rest) with (String "." rest)|rewrite append_cons]; cbn [cut_last].
  - by destruct (cut_last "." rest) as [[]|].
  - by destruct (cut_last "." (p +:+ String "." rest)) as [[]|].
Qed.

Lemma dot_before p rest b r : has_byte "." r = false -> p +:+ String "." rest = b +:+ String "." r -> at_dot p b.
Proof.
  intros Hr. revert p. induction b as [|x b IH]; intros p E.
  - change ("" +:+ String "." r) with (String "." r) in E. destruct p as [|a p]; [by left|]. rewrite append_cons in E. injection E as -> E.
    rewrite <- E, has_byte_append in Hr. apply orb_false_iff in Hr as [_ Hr]. cbn in Hr. done.
  - rewrite append_cons in E. destruct p as [|a p].
    + change ("" +:+ String "." rest) with (String "." rest) in E. injection E as <- E. right. by exists b.
    + rewrite append_cons in E. injection E as -> E. destruct (IH p E) as [->|[rest' ->]]; [by left|right]. exists rest'. by rewrite append_cons.
Qed.

Lemma at_dot_cut self p b r : cut_last "." self = Some (b, r) -> at_dot p self <-> p = self \/ at_dot p b.
Proof.
  intros Hc. pose proof (cut_last_split _ _ _ _ Hc) as Hs. pose proof (cut_last_tail _ _ _ _ Hc) as Hr. split.
  - intros [->|[rest E]]; [by left|right]. rewrite Hs in E. by apply (dot_before p rest b r).
  - intros [->|[->|[rest ->]]]; [by left|right; by exists r|right]. exists (rest +:+ String "." r). by rewrite Hs, append_assoc, append_cons.
Qed.

(** The loop finds the longest, if there is one. *)
Lemma valid_ancestor_spec fuel self : (String.length self < fuel)%nat ->
  if String.eqb (valid_ancestor fuel self) "" then forall p, at_dot p self -> snapshotIdentityValid p = false
  else owner_of self (valid_ancestor fuel self).
Proof.
  assert (Hempty : forall p, at_dot p "" -> snapshotIdentityValid p = false).
  { intros p Hp%at_dot_length. destruct p; [done|cbn in Hp; lia]. }
  revert self. induction fuel as [|fuel IH]; intros self Hf; [lia|]. cbn [valid_ancestor]. destruct (String.eqb_spec self "") as [->|Hne]; [exact Hempty|].
  destruct (snapshotIdentityValid self) eqn:Ev.
  { rewrite (proj2 (String.eqb_neq _ _) Hne). split; [by left|]. split; [done|]. by intros p Hp%at_dot_length _. }
  destruct (cut_last "." self) as [[b r]|] eqn:Ec.
  2:{ intros p [->|[rest ->]]; [done|]. by destruct (cut_last_dot p rest). }
  assert (Hb : if String.eqb (valid_ancestor fuel b) "" then forall p, at_dot p b -> snapshotIdentityValid p = false else owner_of b (valid_ancestor fuel b)).
  { apply IH. apply cut_last_split in Ec. rewrite Ec, string_length_app in Hf. cbn in Hf. lia. }
  destruct (String.eqb_spec b "") as [->|Hbne]; [intros p [->|Hp]%(at_dot_cut _ p _ _ Ec); [done|by apply Hempty]|].
  destruct (String.eqb (valid_ancestor fuel b) ""); [intros p [->|Hp]%(at_dot_cut _ p _ _ Ec); [done|by apply Hb]|].
  destruct Hb as (Hat & Hv & Hmax). split; [apply (at_dot_cut _ _ _ _ Ec); by right|]. split; [done|].
  intros p [->|Hp]%(at_dot_cut _ p _ _ Ec) Hpv; [congruence|by apply Hmax].
Qed.

Lemma nearest_spec self :
  if String.eqb (nearestValidAncestor self) "" then forall p, at_dot p self -> snapshotIdentityValid p = false
  else owner_of self (nearestValidAncestor self).
Proof. apply valid_ancestor_spec. lia. Qed.

(** ** What discovery finds *)

Definition group_file (g : DirGroup) (fn : string) : Prop :=
  sg_manifestFn g = fn /\ fn <> "" \/ (exists k, sg_artifacts g !! k = Some fn) \/ In fn (sg_extraFiles g).

(** The group that a file belongs to. *)
Definition owned_by (id fn : string) : Prop :=
  match parseSnapshotFile fn with
  | (self, snapshotKindManifest) => self = id
  | (self, snapshotKindArtifact) => if snapshotIdentityValid self then self = id else nearestValidAncestor self = id /\ id <> ""
  | (_, snapshotKindIgnore) => False
  end.

Definition unattributable (fn : string) : Prop :=
  match parseSnapshotFile fn with
  | (self, snapshotKindArtifact) => snapshotIdentityValid self = false /\ nearestValidAncestor self = ""
  | _ => False
  end.

Definition groups_ok (names : list string) (m : gmap string DirGroup) : Prop :=
  forall id g, m !! id = Some g -> sg_identity g = id /\ forall fn, group_file g fn -> In fn names /\ owned_by id fn.

Lemma empty_group_file id fn : ~ group_file (MkDirGroup id "" ∅ []) fn.
Proof. intros [[<- Hne]|[[k Hk]|[]]]; [done|cbn in Hk; by rewrite lookup_empty in Hk]. Qed.

Lemma update_ok names m id name f :
  groups_ok names m -> In name names -> owned_by id name ->
  (forall g, sg_identity (f g) = sg_identity g) -> (forall g fn, group_file (f g) fn -> group_file g fn \/ fn = name) ->
  groups_ok names (update_group id f m).
Proof.
  intros Hm Hin Ho Hid Hf id' g. unfold update_group. intros [[-> <-]|[_ Hg]]%lookup_insert_Some; [|by apply Hm].
  destruct (m !! id') as [g|] eqn:E; cbn [default from_option id].
  - destruct (Hm _ _ E) as [Hi Hfiles]. split; [by rewrite Hid|]. intros fn [Hg| ->]%Hf; [by apply Hfiles|done].
  - split; [by rewrite Hid|]. intros fn [Hg| ->]%Hf; [by apply empty_group_file in Hg|done].
Qed.

Lemma set_manifest_file name g fn : group_file (set_manifest name g) fn -> group_file g fn \/ fn = name.
Proof. intros [[<- _]|Hx]; [by right|left; by right]. Qed.

Lemma set_artifact_file name g fn : group_file (set_artifact name g) fn -> group_file g fn \/ fn = name.
Proof.
  intros [Hx|[[k Hk]|Hx]]; [left; by left| |left; right; by right]. cbn in Hk.
  apply lookup_insert_Some in Hk as [[_ <-]|[_ Hk]]; [by right|]. left. right. left. by exists k.
Qed.

Lemma add_extra_file name g fn : group_file (add_extra name g) fn -> group_file g fn \/ fn = name.
Proof.
  intros [Hx|[Hx|Hx]]; [left; by left|left; right; by left|]. cbn in Hx. apply in_app_iff in Hx as [Hx|[<-|[]]]; [|by right].
  left. right. by right.
Qed.

Lemma register_ok names m name : groups_ok names m -> In name names -> groups_ok names (register_file m name).
Proof.
  intros Hm Hin. unfold register_file. destruct (parseSnapshotFile name) as [self []] eqn:E; [done| |].
  - destruct (snapshotIdentityValid self) eqn:Ev; [|done]. apply (update_ok _ _ _ name); try done; [unfold owned_by; by rewrite E, Ev|by apply set_artifact_file].
  - apply (update_ok _ _ _ name); try done; [unfold owned_by; by rewrite E|by apply set_manifest_file].
Qed.

Lemma attribute_ok dv names m un name : groups_ok names m -> In name names -> groups_ok names (fst (attribute_file dv (m, un) name)).
Proof.
  intros Hm Hin. unfold attribute_file. destruct (parseSnapshotFile name) as [self []] eqn:E; [done| |done].
  destruct (snapshotIdentityValid self) eqn:Ev; [done|]. destruct (String.eqb_spec (nearestValidAncestor self) "") as [|Hne]; [done|]. cbn [fst].
  apply (update_ok _ _ _ name); try done; [unfold owned_by; by rewrite E, Ev|intros g; by destruct (_ && _)|].
  intros g fn. destruct (_ && _); [apply add_extra_file|apply set_artifact_file].
Qed.

(** A group that has a manifest keeps one. *)
Definition has_manifest (id : string) (m : gmap string DirGroup) : Prop := exists g, m !! id = Some g /\ sg_manifestFn g <> "".

Lemma update_manifest id id' f m : has_manifest id m -> (forall g, sg_manifestFn g <> "" -> sg_manifestFn (f g) <> "") -> has_manifest id (update_group id' f m).
Proof.
  intros (g & Hg & Hn) Hf. unfold has_manifest, update_group. destruct (decide (id = id')) as [->|Hne].
  - rewrite lookup_insert_eq, Hg. eexists. split; [done|]. by apply Hf.
  - rewrite lookup_insert_ne by done. by exists g.
Qed.

Lemma attribute_manifest dv id m un name : has_manifest id m -> has_manifest id (fst (attribute_file dv (m, un) name)).
Proof.
  intros Hm. unfold attribute_file. destruct (parseSnapshotFile name) as [self []]; [done| |done].
  destruct (snapshotIdentityValid self); [done|]. destruct (String.eqb _ ""); [done|]. cbn [fst]. apply update_manifest; [done|].
  intros g Hg. by destruct (_ && _).
Qed.

Lemma register_manifest id m name : has_manifest id m \/ parseSnapshotFile name = (id, snapshotKindManifest) -> has_manifest id (register_file m name).
Proof.
  intros Hor. unfold register_file. destruct (parseSnapshotFile name) as [self kind] eqn:E.
  assert (Hne : kind = snapshotKindManifest -> name <> "") by (intros -> ->; by vm_compute in E).
  destruct Hor as [Hm|[= -> ->]].
  - destruct kind; [done| |apply update_manifest; [done|by intros; apply Hne]]. destruct (snapshotIdentityValid self); [|done]. by apply update_manifest.
  - unfold has_manifest, update_group. rewrite lookup_insert_eq. eexists. split; [done|]. by apply Hne.
Qed.

Lemma register_all_files names : groups_ok names (run_list register_file ∅ names) /\
  forall fn id, In fn names -> parseSnapshotFile fn = (id, snapshotKindManifest) -> has_manifest id (run_list register_file ∅ names).
Proof.
  assert (Hgen : forall l, incl l names -> groups_ok names (run_list register_file ∅ l) /\
    forall fn id, In fn l -> parseSnapshotFile fn = (id, snapshotKindManifest) -> has_manifest id (run_list register_file ∅ l)).
  { induction l as [|n l IH] using rev_ind; intros Hl; [split; [intros id g Hg; cbn in Hg; by rewrite lookup_empty in Hg|done]|].
    destruct IH as [Hok Hm]; [intros x Hx; apply Hl, in_or_app; by left|]. rewrite run_list_snoc. split.
    - apply register_ok; [done|]. apply Hl, in_or_app. right. by left.
    - intros fn id Hin Hp. apply register_manifest. apply in_app_iff in Hin as [Hin|[->|[]]]; [left; by eapply Hm|by right]. }
  apply Hgen. by intros x.
Qed.

Lemma attribute_all dv names m : groups_ok names m ->
  let '(m', un) := run_list (attribute_file dv) (m, []) names in
  groups_ok names m' /\ (forall id, has_manifest id m -> has_manifest id m') /\
  forall fn, In fn un <-> In fn names /\ unattributable fn.
Proof.
  intros Hm. assert (Hgen : forall l, incl l names -> let '(m', un) := run_list (attribute_file dv) (m, []) l in
    groups_ok names m' /\ (forall id, has_manifest id m -> has_manifest id m') /\ forall fn, In fn un <-> In fn l /\ unattributable fn).
  { induction l as [|n l IH] using rev_ind; intros Hl; [split_and!; [done|done|]; intros fn; split; [done|by intros [[] _]]|].
    assert (Hincl : incl l names) by (intros x Hx; apply Hl, in_or_app; by left). specialize (IH Hincl).
    rewrite run_list_snoc. destruct (run_list (attribute_file dv) (m, []) l) as [m1 un1]. destruct IH as (Hok & Hkeep & Hun).
    assert (Hin : In n names) by (apply Hl, in_or_app; right; by left).
    pose proof (attribute_ok dv _ _ un1 _ Hok Hin) as Hok'. pose proof (fun id => attribute_manifest dv id m1 un1 n) as Hkeep'.
    assert (Hun' : forall fn, In fn (snd (attribute_file dv (m1, un1) n)) <-> In fn un1 \/ fn = n /\ unattributable n).
    { intros fn. unfold attribute_file, unattributable. destruct (parseSnapshotFile n) as [self []]; [tauto| |tauto].
      destruct (snapshotIdentityValid self); [intuition congruence|]. destruct (String.eqb_spec (nearestValidAncestor self) "") as [->|Hne]; cbn [snd].
      - rewrite in_app_iff. cbn. intuition congruence.
      - tauto. }
    destruct (attribute_file dv (m1, un1) n) as [m2 un2]. cbn [fst snd] in *. split_and!; [done|auto|].
    intros fn. rewrite Hun', Hun, in_app_iff. cbn. intuition (subst; auto). }
  apply Hgen. by intros x.
Qed.

Lemma discovered_nodup dv d groups un : discoverSnapshotGroups dv None d = Ok (groups, un) -> NoDup (map sg_identity groups).
Proof.
  unfold discoverSnapshotGroups. destruct (register_all_files (file_names d)) as [Hok Hman]. set (m0 := run_list register_file ∅ (file_names d)) in *.
  pose proof (attribute_all dv (file_names d) m0 Hok) as Hatt. destruct (run_list (attribute_file dv) (m0, []) (file_names d)) as [m un0].
  destruct Hatt as (Hok' & _). intros [= <- <-].
  set (ids := sort_slice _ (map fst (map_to_list m))). assert (Hids : forall id, In id ids -> is_Some (m !! id)).
  { intros id. unfold ids. rewrite <- list_elem_of_In, sort_slice_elem, list_elem_of_In, in_map_iff.
    intros ([id' g] & <- & Hg%list_elem_of_In%elem_of_map_to_list). by exists g. }
  assert (Hmap : forall id, is_Some (m !! id) -> sg_identity (default (MkDirGroup id "" ∅ []) (m !! id)) = id).
  { intros id [g Hg]. rewrite Hg. cbn. by destruct (Hok' _ _ Hg). }
  assert (Hnd : NoDup ids) by (unfold ids; rewrite sort_slice_perm; apply NoDup_fst_map_to_list).
  revert Hids Hnd. generalize ids. clear ids. intros l. induction l as [|id l IH]; intros Hl Hn; [apply NoDup_nil_2|].
  apply NoDup_cons in Hn as [Hni Hn]. cbn [map List.filter].
  assert (Hrest := IH (fun x Hx => Hl x (or_intror Hx)) Hn). destruct (_ || _); [|done]. cbn [map]. apply NoDup_cons. split; [|done].
  rewrite Hmap by by apply Hl; left. intros Hin. apply list_elem_of_In, in_map_iff in Hin as (g & Eg & Hg).
  apply filter_In in Hg as [Hg _]. apply in_map_iff in Hg as (id' & <- & Hid'). rewrite Hmap in Eg by by apply Hl; right. subst id'.
  apply Hni. by apply list_elem_of_In.
Qed.

(** What a file of a group is to it: its manifest, which names the group; or an
    artifact, whose name up to one of its dots, the longest that is an identity,
    is the group, and which retention puts in the unit of the group. *)
Definition belongs (g : DirGroup) (fn : string) : Prop :=
  match parseSnapshotFile fn with
  | (self, snapshotKindManifest) => sg_identity g = self /\ (snapshotIdentityValid self = true -> unit_of fn = Some (snapshotGroupKeyFromIdentity self))
  | (self, snapshotKindArtifact) => owner_of self (sg_identity g) /\ unit_of fn = Some (snapshotGroupKeyFromIdentity (sg_identity g))
  | (_, snapshotKindIgnore) => False
  end.

Lemma owned_belongs g fn : owned_by (sg_identity g) fn -> belongs g fn.
Proof.
  unfold owned_by, belongs, unit_of, canonical_owner. set (id := sg_identity g).
  assert (Hne : forall s, snapshotIdentityValid s = true -> String.eqb s "" = false) by (by intros []).
  destruct (parseSnapshotFile fn) as [self []]; [done| |].
  - destruct (snapshotIdentityValid self) eqn:Ev.
    + intros <-. rewrite (Hne self Ev). split; [|done]. split; [by left|]. split; [done|]. by intros p Hp%at_dot_length _.
    + intros [<- Hn]. pose proof (nearest_spec self) as Hs. rewrite (proj2 (String.eqb_neq _ _) Hn) in Hs |- *. split; [done|].
      by destruct (String.eqb_spec self "") as [->|_].
  - intros <-. split; [done|]. intros Hv. by rewrite Hv, (Hne self Hv).
Qed.

(** C40. Who owns what (R171, R172): discovery gives each identity one group. Each
    file of a group is in the directory and is its manifest, which has the
    identity in its name, or an artifact, and then the group is the longest part
    of its name up to a dot that is an identity, and is in the retention unit of
    that identity; so is a manifest whose name is an identity (another's group
    bears a name that is none: [manifest_drifts]). No manifest's identity is
    without a group that has a manifest. What is listed as unattributed is the
    artifacts no part of whose name is an identity, which of the artifacts are
    exactly those in no retention unit. *)
Theorem discovery_owner dv d groups un :
  discoverSnapshotGroups dv None d = Ok (groups, un) ->
  NoDup (map sg_identity groups) /\
  (forall g fn, In g groups -> group_file g fn -> In fn (file_names d) /\ belongs g fn) /\
  (forall fn id, In fn (file_names d) -> parseSnapshotFile fn = (id, snapshotKindManifest) ->
     exists g, In g groups /\ sg_identity g = id /\ sg_manifestFn g <> "") /\
  (forall fn self, In fn (file_names d) -> parseSnapshotFile fn = (self, snapshotKindArtifact) ->
     (In fn un <-> forall p, at_dot p self -> snapshotIdentityValid p = false) /\ (In fn un <-> unit_of fn = None)) /\
  (forall fn, In fn un -> In fn (file_names d) /\ snd (parseSnapshotFile fn) = snapshotKindArtifact).
Proof.
  intros Hd. pose proof (discovered_nodup _ _ _ _ Hd) as Hnd. revert Hd.
  unfold discoverSnapshotGroups. destruct (register_all_files (file_names d)) as [Hok Hman]. set (m0 := run_list register_file ∅ (file_names d)) in *.
  pose proof (attribute_all dv (file_names d) m0 Hok) as Hatt. destruct (run_list (attribute_file dv) (m0, []) (file_names d)) as [m un0].
  destruct Hatt as (Hok' & Hkeep & Hun). intros [= <- <-].
  set (ids := sort_slice _ (map fst (map_to_list m))). assert (Hids : forall id, In id ids <-> is_Some (m !! id)).
  { intros id. unfold ids. rewrite <- list_elem_of_In, sort_slice_elem, list_elem_of_In, in_map_iff. split.
    - intros ([id' g] & <- & Hg%list_elem_of_In%elem_of_map_to_list). by exists g.
    - intros [g Hg]. exists (id, g). split; [done|]. by apply list_elem_of_In, elem_of_map_to_list. }
  assert (Hmap : forall id, is_Some (m !! id) -> sg_identity (default (MkDirGroup id "" ∅ []) (m !! id)) = id).
  { intros id [g Hg]. rewrite Hg. cbn. by destruct (Hok' _ _ Hg). }
  split_and!.
  - done.
  - intros g fn Hg Hfile. apply filter_In in Hg as [Hg _]. apply in_map_iff in Hg as (id & <- & Hid). apply Hids in Hid.
    destruct Hid as [g Eg]. rewrite Eg in Hfile |- *. cbn in Hfile. destruct (Hok' _ _ Eg) as [_ Hf]. destruct (Hf _ Hfile) as [Hin Ho]. split; [done|].
    apply owned_belongs. destruct (Hok' _ _ Eg) as [E _]. cbn. by rewrite E.
  - intros fn id Hin Hp. destruct (Hkeep id (Hman fn id Hin Hp)) as (g & Hg & Hn). exists g. split_and!; [|by destruct (Hok' _ _ Hg)|done].
    apply filter_In. split; [|apply orb_true_iff; right; apply negb_true_iff; by apply String.eqb_neq]. apply in_map_iff. exists id. split; [by rewrite Hg|].
    apply Hids. by exists g.
  - intros fn self Hin Hp. rewrite Hun. unfold unattributable, unit_of, canonical_owner. rewrite Hp. pose proof (nearest_spec self) as Hs.
    assert (Hself : snapshotIdentityValid self = true -> String.eqb self "" = false) by (by destruct self).
    destruct (String.eqb_spec (nearestValidAncestor self) "") as [->|Hne].
    + rewrite (Hs self (or_introl eq_refl)) in *. split; [by split; [intros _|]|]. split; [|done]. intros _. by destruct (String.eqb self "").
    + destruct Hs as (Hat & Hv & _). split; (split; [by intros (_ & _ & ?)|]).
      * intros Hnone. by rewrite (Hnone _ Hat) in Hv.
      * assert (String.eqb self "" = false) as ->. { destruct (String.eqb_spec self ""); [by subst self|done]. }
        assert (String.eqb (if snapshotIdentityValid self then self else nearestValidAncestor self) "" = false) as ->; [|done].
        destruct (snapshotIdentityValid self); [by apply Hself|by apply String.eqb_neq].
  - intros fn [Hin Hu]%Hun. split; [done|]. unfold unattributable in Hu. by destruct (parseSnapshotFile fn) as [self []].
Qed.

(** ** Witnesses *)

#[local] Existing Instance checksum_crypto.
#[local] Existing Instance sample_destruction.

(** A manifest is written as its publication id. *)
Definition sample_decode (s : string) : result error snapshotManifest :=
  match ParseInt s with Some id => Ok (sample_manifest id "s" None) | None => Err "invalid character" end.

Definition sample_dir (l : list (string * string)) : SnapDir := list_to_map (map (fun p => (p.1, MkFile false 1 p.2)) l).
Definition records_io (calls : nat -> LogIO) (at_ : string) : ObserverIO := MkObserverIO calls at_ works at_.
Definition prune_ok : PruneIO := MkPruneIO (fun _ => None) (fun _ => None) (records_io works "2026-01-02T00:00:00Z").

Definition three_exports : SnapDir := sample_dir
  [("alert-transitions-20260101T000000Z.json", "[]"); ("alert-transitions-20260101T000000Z.manifest.json", "1");
   ("alert-transitions-20260101T000000Z.1.json", "[]"); ("alert-transitions-20260101T000000Z.1.manifest.json", "2");
   ("alert-transitions-20260102T000000Z.json", "[]"); ("alert-transitions-20260102T000000Z.manifest.json", "3");
   ("alert-transitions-notes.json", "x"); ("alert-transitions-20260101T000000Z.json.tmp", ""); ("publication-seq.state", "3")].

#[local] Abbreviation pruned := (prune sample_decode (keep 0) 1 None (fun _ => prune_ok) three_exports no_destructions).

Example prune_exact_witness :
  unit_order (file_names three_exports) = ["20260101T000000Z"; "20260102T000000Z"] /\
  file_names pruned.1.1.1 = ["alert-transitions-20260101T000000Z.json.tmp"; "alert-transitions-20260102T000000Z.json";
    "alert-transitions-20260102T000000Z.manifest.json"; "alert-transitions-notes.json"; "publication-seq.state"] /\
  Z.of_nat (length (unit_order (file_names pruned.1.1.1))) <= 1.
Proof.
  split; [vm_compute; reflexivity|]. split; [vm_compute; reflexivity|].
  assert (He : pruned.2 = None) by (vm_compute; reflexivity).
  pose proof (prune_exact sample_decode (keep 0) 1 (fun _ => prune_ok) three_exports no_destructions) as Hx.
  revert He Hx. generalize pruned. intros [[[d w] steps] err] He Hx. cbn [fst snd] in *.
  destruct (Hx d w steps err ltac:(lia) eq_refl) as (_ & _ & _ & Hok). exact (proj2 (Hok He)).
Defined.

Lemma prune_ok_whole : forall i : nat, whole_prune ((fun _ => prune_ok) i).
Proof. intros i. split_and!; [exact works_clean|exact works_clean|discriminate|discriminate|reflexivity]. Qed.

(** One more export; the JSON of the second cannot be removed. *)
Definition four_exports : SnapDir :=
  <["alert-transitions-20260103T000000Z.manifest.json" := MkFile false 1 "4"]> (<["alert-transitions-20260103T000000Z.json" := MkFile false 1 "[]"]> three_exports).
Definition busy_ok : PruneIO :=
  MkPruneIO (fun _ => None) (fun fn => if String.eqb fn "alert-transitions-20260102T000000Z.json" then Some "EBUSY" else None) (records_io works "2026-01-03T00:00:00Z").
#[local] Abbreviation half_pruned := (prune sample_decode (keep 0) 1 None (fun _ => busy_ok) four_exports no_destructions).

Lemma busy_ok_whole : forall i : nat, whole_prune ((fun _ => busy_ok) i).
Proof. intros i. split_and!; [exact works_clean|exact works_clean|discriminate|discriminate|reflexivity]. Qed.

Example prune_accounted_witness :
  unit_order (file_names half_pruned.1.1.1) = ["20260102T000000Z"; "20260103T000000Z"] /\
  exists k h, log_inv (keep 0) kak kak_trust k h (dw_disk half_pruned.1.1.2) /\
    recorded_as [] h (sample_manifest 1 "s" None) destructionStateCompleted /\ recorded_as [] h (sample_manifest 2 "s" None) destructionStateCompleted /\
    recorded_as [] h (sample_manifest 3 "s" None) destructionStateAborted.
Proof.
  assert (Hf : healthyb (dw_landed half_pruned.1.1.2) = true /\ (Z.of_nat (length (dw_landed half_pruned.1.1.2)) <? max_int64) = true /\
    forallb (fun s => match st_intent s, st_end s with Some (Err _), _ => false | _, Some (Err _) => false | _, _ => true end) half_pruned.1.2 = true)
    by (vm_compute; repeat split).
  assert (Hg : half_pruned.1.1.1 !! "alert-transitions-20260101T000000Z.json" = None /\
    half_pruned.1.1.1 !! "alert-transitions-20260102T000000Z.manifest.json" = None) by (vm_compute; repeat split).
  assert (Hu : unit_order (file_names half_pruned.1.1.1) = ["20260102T000000Z"; "20260103T000000Z"]) by (vm_compute; reflexivity).
  split; [exact Hu|].
  pose proof (prune_accounted sample_decode (keep 0) kak kak_trust eq_refl eq_refl kak_is_trusted ltac:(discriminate) 1 (fun _ => busy_ok) four_exports
    no_destructions) as Hx.
  revert Hf Hg Hu Hx. generalize half_pruned. intros [[[d w] steps] err] (Hh & Hl & Ha) [Hg1 Hg2] Hu Hx. cbn [fst snd] in *.
  assert (Hans : Forall answered steps).
  { rewrite List.Forall_forall. intros s Hs. rewrite forallb_forall in Ha. specialize (Ha s Hs). unfold answered.
    by destruct s as [[[]|] [[]|]]. }
  destruct (Hx d w steps err 0%nat [] ltac:(lia) eq_refl busy_ok_whole (log_inv_start _ _ _) eq_refl (healthyb_healthy _ Hh) (proj1 (Z.ltb_lt _ _) Hl) Hans)
    as (k & h & Hlog & _ & Hrec). exists k, h. split; [exact Hlog|].
  assert (Hin : forall u, unit_in d u <-> u ∈ ["20260102T000000Z"; "20260103T000000Z"]) by (intros u; by rewrite <- unit_order_spec, Hu).
  assert (Hno : ~ unit_in d "20260101T000000Z") by (rewrite Hin; apply (bool_decide_unpack _); vm_compute; exact I).
  assert (Hyes : unit_in d "20260102T000000Z") by (rewrite Hin; apply (bool_decide_unpack _); vm_compute; exact I).
  split; [|split].
  - exact (proj1 (Hrec "20260101T000000Z" _ (MkFile false 1 "1") (sample_manifest 1 "s" None) (eq_refl : four_exports !! "alert-transitions-20260101T000000Z.manifest.json" = _)
      eq_refl eq_refl eq_refl eq_refl ltac:(discriminate) (ex_intro _ "alert-transitions-20260101T000000Z.json" (conj eq_refl (conj (ex_intro _ _ eq_refl) Hg1)))) Hno).
  - exact (proj1 (Hrec "20260101T000000Z" _ (MkFile false 1 "2") (sample_manifest 2 "s" None) (eq_refl : four_exports !! "alert-transitions-20260101T000000Z.1.manifest.json" = _)
      eq_refl eq_refl eq_refl eq_refl ltac:(discriminate) (ex_intro _ "alert-transitions-20260101T000000Z.json" (conj eq_refl (conj (ex_intro _ _ eq_refl) Hg1)))) Hno).
  - exact (proj2 (Hrec "20260102T000000Z" _ (MkFile false 1 "3") (sample_manifest 3 "s" None) (eq_refl : four_exports !! "alert-transitions-20260102T000000Z.manifest.json" = _)
      eq_refl eq_refl eq_refl eq_refl ltac:(discriminate) (ex_intro _ "alert-transitions-20260102T000000Z.manifest.json" (conj eq_refl (conj (ex_intro _ _ eq_refl) Hg2)))) Hyes).
Defined.

Example published_names_resolve_witness :
  parseSnapshotFile "alert-transitions-20260101T000000.5Z.12.manifest.json" = ("20260101T000000.5Z.12", snapshotKindManifest) /\
  unit_of "alert-transitions-20260101T000000.5Z.12.manifest.json" = Some "20260101T000000.5Z".
Proof.
  destruct (published_names_resolve "20260101T000000.5Z" 12 "manifest.json" ltac:(split; vm_compute; reflexivity) ltac:(lia) ltac:(auto)) as (Hp & _ & _ & Hu).
  split; [exact Hp|exact Hu].
Defined.

Example discovery_owner_witness :
  match discoverSnapshotGroups true None three_exports with
  | Ok (groups, un) => map sg_identity groups = ["20260102T000000Z"; "20260101T000000Z.1"; "20260101T000000Z"] /\ un = ["alert-transitions-notes.json"] /\
      NoDup (map sg_identity groups)
  | Err _ => False
  end.
Proof.
  assert (Hf : match discoverSnapshotGroups true None three_exports with
    | Ok (groups, un) => map sg_identity groups = ["20260102T000000Z"; "20260101T000000Z.1"; "20260101T000000Z"] /\ un = ["alert-transitions-notes.json"]
    | Err _ => False end) by (vm_compute; split; reflexivity).
  destruct (discoverSnapshotGroups true None three_exports) as [[groups un]|] eqn:E; [|destruct Hf]. destruct Hf as [Hi Hu].
  split; [exact Hi|]. split; [exact Hu|]. exact (proj1 (discovery_owner true three_exports groups un E)).
Defined.

(** *** Retention goes by the names

    Identities are compared as times and numbers everywhere else; retention
    compares the names of its units. A fraction sorts before the "Z" of the whole
    second, so that the older of two exports of a second is kept and the newer one
    removed. *)
Example retention_drops_newer :
  let older := "alert-transitions-20260101T000000Z.json" in
  let newer := "alert-transitions-20260101T000000.5Z.json" in
  snapshotIdentityLess "20260101T000000Z" "20260101T000000.5Z" = true /\
  file_names (prune sample_decode (keep 0) 1 None (fun _ => prune_ok) (sample_dir [(older, "[]"); (newer, "[]")]) no_destructions).1.1.1 = [older].
Proof. vm_compute. split; reflexivity. Qed.

(** *** Retention destroys what it could not announce

    The compactions of the logs refuse when their destruction cannot be recorded;
    retention goes on, with nothing in the log, and so it does for a manifest that
    cannot be read, which is no target at all. *)
Definition one_old : SnapDir := sample_dir
  [("alert-transitions-20260101T000000Z.manifest.json", "1"); ("alert-transitions-20260102T000000Z.manifest.json", "2")].

Definition prune_brief (io : PruneIO) : list string * nat * option error :=
  let '(d, w, _, err) := prune sample_decode (keep 0) 1 None (fun _ => io) one_old no_destructions in (file_names d, length (dw_landed w), err).

Example retention_unrecorded :
  prune_brief (MkPruneIO (fun _ => None) (fun _ => None) (records_io disk_full "2026-01-02T00:00:00Z")) =
    (["alert-transitions-20260102T000000Z.manifest.json"], 0%nat, None) /\
  prune_brief (MkPruneIO (fun _ => Some "EIO") (fun _ => None) (records_io works "2026-01-02T00:00:00Z")) =
    (["alert-transitions-20260102T000000Z.manifest.json"], 0%nat, None).
Proof. vm_compute. split; reflexivity. Qed.

(** *** A manifest may own itself

    Discovery takes the name of a manifest for an identity as it is; retention
    puts the same file with the nearest identity that is one. *)
Example manifest_drifts :
  let name := "alert-transitions-20260101T000000Z.old.manifest.json" in
  unit_of name = Some "20260101T000000Z" /\
  match discoverSnapshotGroups true None (sample_dir [(name, "1")]) with
  | Ok (groups, _) => map sg_identity groups = ["20260101T000000Z.old"]
  | Err _ => False
  end.
Proof. vm_compute. split; reflexivity. Qed.

(** *** An extra artifact hides the artifact of its group

    Without a manifest a second file of a format takes the place of the first, so
    that verification does not list it. *)
Example artifact_hidden :
  match discoverSnapshotGroups true None (sample_dir [("alert-transitions-20260101T000000Z.json", "[]"); ("alert-transitions-20260101T000000Z.x.json", "[]")]) with
  | Ok (groups, un) => map (fun g => map_to_list (sg_artifacts g)) groups = [[("json", "alert-transitions-20260101T000000Z.x.json")]] /\ un = []
  | Err _ => False
  end.
Proof. vm_compute. split; reflexivity. Qed.
