(* ===== verification/SnapshotVerify.v ===== *)
(** * Listing and verification of the export directory
    (internal/controlplane/server/history_export_manifest.go,
    snapshot_destruction.go)

    The pages of the manifest list, the verification of every snapshot against its
    manifest, its signature and the publication chain, and the two censuses of
    publications that the destruction log is reconciled with. *)

From Stdlib Require Import Ascii.
From S2P Require Import Prelude GoStrings GoTime Manifest AppendLog Ledger Chain SignedLog KeyLifecycle Destruction DestructionSpec SnapshotFiles.

(** Cursors: what [encoding/base64] does with and without padding; the JSON of an
    artifact and the reader of its rows. *)
Class CursorCodec := {
  url_encode : string -> string;
  url_decode : string -> option string;
  url_decode_padded : string -> option string;
  url_roundtrip s : url_decode (url_encode s) = Some s;
  url_text s : s <> "" -> url_encode s <> "" }.

Class ArtifactCodec := {
  json_transitions : string -> result error Z;
  csv_rows : string -> result error Z }.

Section Listing.
Context `{ManifestCrypto} `{CursorCodec} `{ArtifactCodec}.
Context (decode : string -> result error snapshotManifest).

Definition base64urlEncode (s : string) : string := url_encode s.
Definition base64urlDecode (s : string) : option string :=
  match url_decode s with Some b => Some b | None => url_decode_padded s end.

(** [os.ReadFile] *)
Definition read_file (read : string -> option error) (d : SnapDir) (fn : string) : result error string :=
  match read fn with
  | Some e => Err e
  | None => match d !! fn with Some f => Ok (sf_data f) | None => Err ("open " +:+ fn +:+ ": no such file or directory") end
  end.

Definition load_manifest (read : string -> option error) (d : SnapDir) (fn : string) : result error snapshotManifest :=
  match read_file read d fn with Ok data => parseSnapshotManifest (decode data) | Err e => Err e end.

(** ** The list *)

Record ManifestListEntry : Type := MkListEntry {
  me_Snapshot : string;
  me_PublicationID : Z;
  me_ExportedAt : string;
  me_GeneratedAt : string;
  me_Formats : list string;
  me_ManifestFile : string }.

Definition ErrCursorInvalid : error := "invalid_cursor".
Definition ErrCursorExpired : error := "cursor_expired".
Definition ErrCursorAmbiguous : error := "cursor_ambiguous".

(** The manifests that can be listed, with their groups. *)
Definition listable (read : string -> option error) (d : SnapDir) (groups : list DirGroup) : list (DirGroup * snapshotManifest) :=
  omap (fun g => match load_manifest read d (sg_manifestFn g) with Ok m => Some (g, m) | Err _ => None end) groups.

Definition id_of (p : DirGroup * snapshotManifest) : Z := m_PublicationID (snd p).
Definition times_seen (id : Z) (ids : list Z) : nat := length (List.filter (fun i => i =? id) ids).

Definition list_entry (p : DirGroup * snapshotManifest) : ManifestListEntry :=
  let '(g, m) := p in MkListEntry (m_Snapshot m) (m_PublicationID m) (m_ExportedAt m) (m_GeneratedAt m) (map mf_Format (m_Formats m)) (sg_manifestFn g).

Definition clamp_limit (limit : Z) : Z :=
  let limit := if limit <=? 0 then 10 else limit in if 100 <? limit then 100 else limit.

(** The position of the first entry of an id. *)
Fixpoint position (id : Z) (l : list Z) : option nat :=
  match l with [] => None | x :: l => if x =? id then Some O else S <$> position id l end.

Definition cursor_of (id : Z) : string := base64urlEncode ("v2:" +:+ pretty id).

(** Where the page of a cursor starts. *)
Definition page_start (ids : list Z) (before : string) : result error nat :=
  if String.eqb before "" then Ok O
  else match base64urlDecode before with
    | None => Err ErrCursorInvalid
    | Some raw =>
        if negb (HasPrefix raw "v2:") then Err ErrCursorInvalid
        else match ParseInt (TrimPrefix raw "v2:") with
          | None => Err ErrCursorInvalid
          | Some anchorID =>
              match position anchorID ids with
              | Some pos => Ok (S pos)
              | None =>
                  if (0 <? times_seen anchorID ids)%nat then Err (ErrCursorAmbiguous +:+ ": publication_id " +:+ pretty anchorID +:+ " ambiguous")
                  else Err (ErrCursorExpired +:+ ": publication_id " +:+ pretty anchorID +:+ " no longer exists")
              end
          end
    end.

Definition ListManifests (read_error : option error) (read : string -> option error) (d : SnapDir) (limit : Z) (before : string)
  : result error (list ManifestListEntry * string) :=
  match discoverSnapshotGroups false read_error d with
  | Err e => Err e
  | Ok (groups, _) =>
      let loaded := listable read d groups in
      let ids := map id_of loaded in
      match List.find (fun id => (1 <? times_seen id ids)%nat) ids with
      | Some id => Err (ErrCursorAmbiguous +:+ ": publication_id " +:+ pretty id +:+ " claimed by " +:+ pretty (times_seen id ids) +:+ " manifests")
      | None =>
          match page_start ids before with
          | Err e => Err e
          | Ok start =>
              let page := take (Z.to_nat (clamp_limit limit)) (drop start loaded) in
              Ok (map list_entry page, from_option (fun p => cursor_of (id_of p)) "" (last page))
          end
      end
  end.

(** All pages, as both censuses take them; one call is one page. *)
Fixpoint list_pages (fuel : nat) (read_error : option error) (read : string -> option error) (d : SnapDir) (limit : Z) (cursor : string)
  : option (result error (list ManifestListEntry)) :=
  match fuel with
  | O => None
  | S fuel =>
      match ListManifests read_error read d limit cursor with
      | Err e => Some (Err e)
      | Ok (entries, next) =>
          if String.eqb next "" || match entries with [] => true | _ => false end then Some (Ok entries)
          else match list_pages fuel read_error read d limit next with
            | Some (Ok more) => Some (Ok (entries ++ more))
            | other => other
            end
      end
  end.

(** More pages than there are. *)
Definition page_fuel (read_error : option error) (d : SnapDir) : nat :=
  match discoverSnapshotGroups false read_error d with Ok (groups, _) => S (S (length groups)) | Err _ => 1%nat end.

Definition all_manifests (read_error : option error) (read : string -> option error) (d : SnapDir) : result error (list ManifestListEntry) :=
  default (Err "out of fuel") (list_pages (page_fuel read_error d) read_error read d 100 "").

(** ** The censuses *)

Definition diskPublications (read_error : option error) (read : string -> option error) (d : SnapDir) : result error (gset Z) :=
  match all_manifests read_error read d with
  | Err e => Err e
  | Ok entries => Ok (list_to_set (List.filter (fun id => negb (id =? 0)) (map me_PublicationID entries)))
  end.

Definition known_from_ledger (usable : gmap Z ledgerEntry) : gmap Z knownPublication :=
  foldl (fun out p =>
    let '(id, e) := p in
    if id =? 0 then out
    else
      let out := <[id := MkKnown (le_ManifestDigest e) ""]> out in
      if (0 <? le_PrevPublicationID e) && bool_decide (out !! le_PrevPublicationID e = None)
      then <[le_PrevPublicationID e := MkKnown (le_PrevManifestDigest e) ""]> out else out) ∅ (map_to_list usable).

(** A source that only adds what is not known yet. *)
Definition add_known (out : gmap Z knownPublication) (p : Z * string) : gmap Z knownPublication :=
  if fst p <=? 0 then out
  else match out !! fst p with Some _ => out | None => <[fst p := MkKnown (snd p) ""]> out end.

Definition add_listed (out : gmap Z knownPublication) (e : ManifestListEntry) : gmap Z knownPublication :=
  if me_PublicationID e =? 0 then out
  else <[me_PublicationID e := MkKnown (from_option kp_digest "" (out !! me_PublicationID e)) (me_GeneratedAt e)]> out.

(** [anchored]: the publications that the anchors hold, with their digests;
    [verified]: those of the verification reports, if verification is on. *)
Definition knownPublications (ledger : result error ledgerState) (anchored : result error (list (Z * string)))
    (verified : option (result error (list Z))) (listed : result error (list ManifestListEntry)) : result error (gmap Z knownPublication) :=
  match ledger with
  | Err e => Err ("ledger source: " +:+ e)
  | Ok ls =>
      match anchored with
      | Err e => Err ("anchor source: " +:+ e)
      | Ok anchored =>
          match verified with
          | Some (Err e) => Err ("verification source: " +:+ e)
          | _ =>
              match listed with
              | Err e => Err ("manifest source: " +:+ e)
              | Ok entries =>
                  let out := foldl add_known (known_from_ledger (ls_usable ls)) anchored in
                  let out := match verified with Some (Ok ids) => foldl add_known out (map (fun id => (id, "")) ids) | _ => out end in
                  Ok (foldl add_listed out entries)
              end
          end
      end
  end.

(** ** Verification *)

Definition verifyStatusMissing : string := "missing".
Definition verifyStatusOrphanArtifact : string := "orphan_artifact".
Definition verifyStatusOrphanManifest : string := "orphan_manifest".

Record VerifyFormatResult : Type := MkFormatResult {
  vf_Format : string;
  vf_Status : string;
  vf_DeclaredSHA256 : string;
  vf_ActualSHA256 : string;
  vf_DeclaredBytes : Z;
  vf_ActualBytes : Z;
  vf_DeclaredRecords : Z;
  vf_ActualRecords : Z;
  vf_Detail : string }.

Record VerifyResult : Type := MkVerifyResult {
  vr_Snapshot : string;
  vr_Status : string;
  vr_ExportedAt : string;
  vr_MinSeq : Z;
  vr_MaxSeq : Z;
  vr_Records : Z;
  vr_SeqContinuity : string;
  vr_Formats : list VerifyFormatResult;
  vr_ExtraFiles : list string;
  vr_Signature : option SignatureVerdict;
  vr_Chain : string;
  vr_ChainSource : string;
  vr_Detail : string }.

(** A line of the CSV that is data. *)
Definition csv_data (line : string) : bool :=
  let trimmed := TrimSpace line in negb (String.eqb trimmed "" || HasPrefix trimmed "#").

Definition csv_cleaned (data : string) : string :=
  foldr (fun line rest => line +:+ String newline "" +:+ rest) "" (List.filter csv_data (Split data newline)).

Definition countArtifactRecords (data : string) (format : string) : result error Z :=
  if String.eqb format "json" then json_transitions data
  else if String.eqb format "csv" then
    match csv_rows (csv_cleaned data) with
    | Err e => Err e
    | Ok rows => Ok (if 0 <? rows then rows - 1 else rows)
    end
  else Err ("unknown format " +:+ format).

Definition hash_data (data : string) : string * Z := (hex_EncodeToString (Sum256 data), Z.of_nat (String.length data)).

(** A declared format against the disk: its result, the status of the snapshot
    after it, and the note. *)
Definition verify_format (read : string -> option error) (d : SnapDir) (artifacts : gmap string string) (status : string) (f : manifestFormatInfo)
  : VerifyFormatResult * string * list string :=
  let result st sha bytes records detail := MkFormatResult (mf_Format f) st (mf_SHA256 f) sha (mf_Bytes f) bytes (mf_Records f) records detail in
  let mismatched := if String.eqb status verifyStatusOK || String.eqb status verifyStatusMissing then verifyStatusMismatch else status in
  match artifacts !! mf_Format f with
  | None => (result verifyStatusMissing "" 0 0 "declared artifact not found on disk",
             if String.eqb status verifyStatusOK then verifyStatusMissing else status, [mf_Format f +:+ ": missing"])
  | Some fn =>
      match read_file read d fn with
      | Err e => (result verifyStatusUnknown "" 0 0 ("artifact unreadable: " +:+ e), verifyStatusUnknown, [])
      | Ok data =>
          match countArtifactRecords data (mf_Format f) with
          | Err e => (result verifyStatusUnknown "" 0 0 ("artifact unparseable: " +:+ e), verifyStatusUnknown, [])
          | Ok actualRecords =>
              let '(sum, size) := hash_data data in
              if negb (String.eqb sum (mf_SHA256 f)) || negb (size =? mf_Bytes f) then
                (result verifyStatusMismatch sum size actualRecords "digest/size differ from manifest-generation observation", mismatched,
                 [mf_Format f +:+ ": digest mismatch"])
              else if negb (actualRecords =? mf_Records f) then
                (result verifyStatusMismatch sum size actualRecords "record count differs from manifest declaration", mismatched,
                 [mf_Format f +:+ ": record count mismatch"])
              else (result verifyStatusOK sum size actualRecords "", status, [])
          end
      end
  end.

Fixpoint verify_formats (read : string -> option error) (d : SnapDir) (artifacts : gmap string string) (status : string) (fs : list manifestFormatInfo)
  : list VerifyFormatResult * string * list string :=
  match fs with
  | [] => ([], status, [])
  | f :: fs =>
      let '(r, status, note) := verify_format read d artifacts status f in
      let '(rs, status, notes) := verify_formats read d artifacts status fs in
      (r :: rs, status, note ++ notes)
  end.

(** The files that the manifest does not declare. *)
Definition undeclared (artifacts : gmap string string) (extra : list string) (fs : list manifestFormatInfo) : list string :=
  sort_strings
    ((if (length fs <? size artifacts)%nat
      then map snd (List.filter (fun p => negb (existsb (String.eqb (fst p)) (map mf_Format fs))) (map_to_list artifacts)) else []) ++ extra).

(** What the artifacts say of a snapshot with a manifest: formats, extra files,
    status, detail. *)
Definition verify_artifacts (read : string -> option error) (d : SnapDir) (g : DirGroup) (m : snapshotManifest)
  : list VerifyFormatResult * list string * string * string :=
  let '(formats, status, notes) := verify_formats read d (sg_artifacts g) verifyStatusOK (m_Formats m) in
  let extra := undeclared (sg_artifacts g) (sg_extraFiles g) (m_Formats m) in
  let '(status, notes) :=
    match extra with
    | [] => (status, notes)
    | _ => (if String.eqb status verifyStatusOK then verifyStatusMismatch else status,
            notes ++ ["undeclared artifact(s): " +:+ String.concat ", " extra])
    end in
  let '(status, notes) :=
    if String.eqb status verifyStatusOK && match m_Formats m with [] => true | _ => false end
    then (verifyStatusUnknown, notes ++ ["manifest declares no formats"]) else (status, notes) in
  (formats, extra, status, String.concat "; " notes).

(** The dimensions that are evaluated over all groups before any is reported. *)
Record Evidence : Type := MkEvidence {
  ev_ids : list Z;
  ev_signatures : gmap string SignatureVerdict;
  ev_positions : gmap string string;
  ev_sources : gmap string string }.

Definition verify_group (read : string -> option error) (d : SnapDir) (ev : Evidence) (g : DirGroup) : VerifyResult :=
  let id := sg_identity g in
  let plain status detail := MkVerifyResult id status "" 0 0 0 seqContinuityValue [] [] None "" "" detail in
  let finish (r : VerifyResult) (m : option snapshotManifest) :=
    let signature := match m with Some _ => ev_signatures ev !! id | None => None end in
    let '(status, detail) :=
      match signature, m with
      | Some v, Some m =>
          let status := if String.eqb (vr_Status r) "" then verifyStatusUnknown else vr_Status r in
          let note := "signature: " +:+ sv_Verdict v +:+ (if String.eqb (sv_Detail v) "" then "" else " (" +:+ sv_Detail v +:+ ")") in
          (applySignatureVerdict status v (m_SchemaVersion m),
           if negb (String.eqb (sv_Verdict v) sigVerdictOK) && negb (String.eqb (sv_Verdict v) sigVerdictAbsent)
           then if String.eqb (vr_Detail r) "" then note else vr_Detail r +:+ "; " +:+ note
           else vr_Detail r)
      | _, _ => (vr_Status r, vr_Detail r)
      end in
    MkVerifyResult id status (vr_ExportedAt r) (vr_MinSeq r) (vr_MaxSeq r) (vr_Records r) (vr_SeqContinuity r) (vr_Formats r) (vr_ExtraFiles r)
      signature (default "" (ev_positions ev !! id)) (default "" (ev_sources ev !! id)) detail in
  if String.eqb (sg_manifestFn g) "" then
    finish (MkVerifyResult id verifyStatusOrphanArtifact "" 0 0 0 seqContinuityValue
      (map (fun fmt => MkFormatResult fmt "present" "" "" 0 0 0 0 "artifact without manifest") (sort_strings (map fst (map_to_list (sg_artifacts g)))))
      [] None "" "" (pretty (size (sg_artifacts g)) +:+ " artifact file(s) with no manifest")) None
  else match read_file read d (sg_manifestFn g) with
    | Err e => plain verifyStatusUnknown ("manifest unreadable: " +:+ e)
    | Ok data =>
        match parseSnapshotManifest (decode data) with
        | Err e => plain verifyStatusUnknown ("manifest provenance insufficient: " +:+ e)
        | Ok m =>
            if (1 <? times_seen (m_PublicationID m) (ev_ids ev))%nat then plain verifyStatusUnknown "duplicate_publication_id"
            else if negb (String.eqb (m_Snapshot m) id) then
              plain verifyStatusUnknown ("manifest snapshot " +:+ m_Snapshot m +:+ " does not match its file identity " +:+ id)
            else if (size (sg_artifacts g) =? 0)%nat && match sg_extraFiles g with [] => true | _ => false end then
              finish (plain verifyStatusOrphanManifest "manifest present but no artifact files exist") (Some m)
            else
              let '(formats, extra, status, detail) := verify_artifacts read d g m in
              finish (MkVerifyResult id status (m_ExportedAt m) (m_MinSeq m) (m_MaxSeq m) (m_Records m) seqContinuityValue formats extra None "" "" detail)
                (Some m)
        end
    end.

(** [signedAtOfManifest] *)
Definition signedAtOfManifest (m : snapshotManifest) : string := from_option sb_SignedAt "" (m_Signature m).

(** The verdict on a manifest's signature, by the time it was made if the life of
    keys is known. *)
Definition manifest_verdict (trust : option exportTrustStore) (lifecycle : option keyLifecycleState) (m : snapshotManifest) : SignatureVerdict :=
  let v := verifyManifestSignature (Some m) trust in
  match lifecycle with
  | None => v
  | Some _ => fst (authorizeByLifecycle v (signedAtOfManifest m) (authorizationFor lifecycle (sv_KeyID v)))
  end.

Definition bears_chain (m : snapshotManifest) : bool :=
  (manifestSchemaVersionV4 <=? m_SchemaVersion m) && match m_Chain m with Some _ => true | None => false end.

Definition node_of_group (p : DirGroup * snapshotManifest) : option chainNode :=
  let '(g, m) := p in
  match m_Chain m, manifestDigest (Some m) with
  | Some c, Ok dg => Some (MkChainNode (m_PublicationID m) dg (mc_PrevPublicationID c) (mc_PrevManifestDigest c) (sg_identity g))
  | _, _ => None
  end.

Definition backing (ls : ledgerState) (m : snapshotManifest) : string :=
  match ls_usable ls !! m_PublicationID m with
  | Some e => match manifestDigest (Some m) with
              | Ok dg => if String.eqb dg (le_ManifestDigest e) then "disk+ledger" else "disk"
              | Err _ => "disk"
              end
  | None => "disk"
  end.

(** Over the full set, whatever is reported. *)
Definition gather_evidence (trust : option exportTrustStore) (lifecycle : option keyLifecycleState) (ls : ledgerState)
    (loaded : list (DirGroup * snapshotManifest)) : Evidence * ChainVerdict :=
  let verdict p := manifest_verdict trust lifecycle (snd p) in
  let bearing := List.filter (fun p => bears_chain (snd p)) loaded in
  let trusted p := String.eqb (sv_Verdict (verdict p)) sigVerdictOK in
  let '(cv, positions) :=
    verifyChainWithLedger (omap node_of_group (List.filter trusted bearing)) (Z.of_nat (length bearing)) (Some ls) in
  let positions := foldl (fun m p => <[sg_identity (fst p) := chainPosBroken]> m) positions (List.filter (fun p => negb (trusted p)) bearing) in
  (MkEvidence (map id_of loaded) (list_to_map (map (fun p => (sg_identity (fst p), verdict p)) loaded)) positions
     (list_to_map (map (fun p => (sg_identity (fst p), backing ls (snd p))) loaded)), cv).

Definition unattributed_result (fn : string) : VerifyResult :=
  MkVerifyResult fn verifyStatusUnknown "" 0 0 0 seqContinuityValue [] [] None "" "" "unattributable snapshot-dir file (no valid identity prefix)".

(** [ledger]: what loading the ledger gives; [lifecycle]: the state of the keys,
    if it is configured and could be loaded. *)
Definition VerifySnapshotsDetailed (read_error : option error) (read : string -> option error) (d : SnapDir) (trust : option exportTrustStore)
    (lifecycle : option keyLifecycleState) (ledger : result error ledgerState) (limit : Z) : result error (list VerifyResult * ChainVerdict) :=
  match discoverSnapshotGroups true read_error d with
  | Err e => Err e
  | Ok (groups, unattributed) =>
      match ledger with
      | Err e => Err ("chain ledger: " +:+ e)
      | Ok ls =>
          let loaded := listable read d (List.filter (fun g => negb (String.eqb (sg_manifestFn g) "")) groups) in
          let '(ev, cv) := gather_evidence trust lifecycle ls loaded in
          Ok (map unattributed_result unattributed ++ map (verify_group read d ev) (take (Z.to_nat (clamp_limit limit)) groups), cv)
      end
  end.

Definition VerifySnapshots (read_error : option error) (read : string -> option error) (d : SnapDir) (trust : option exportTrustStore)
    (lifecycle : option keyLifecycleState) (ledger : result error ledgerState) (limit : Z) : result error (list VerifyResult) :=
  match VerifySnapshotsDetailed read_error read d trust lifecycle ledger limit with Ok (rs, _) => Ok rs | Err e => Err e end.

(** ** The list is paged without loss *)

Lemma times_seen_cons id x l : times_seen id (x :: l) = ((if (x =? id)%Z then 1 else 0) + times_seen id l)%nat.
Proof. unfold times_seen. cbn. by destruct (x =? id). Qed.

Lemma times_seen_none id l : times_seen id l = O <-> ~ In id l.
Proof. induction l as [|x l IH]; [by split; [intros _ []|]|]. rewrite times_seen_cons. cbn. destruct (Z.eqb_spec x id); cbn.
  - split; [done|]. intros Hx. by destruct Hx; left.
  - rewrite IH. split; [intros Hl [?|?]; [done|by apply Hl]|intros Hl ?; apply Hl; by right].
Qed.

Lemma seen_once l : NoDup l <-> forall id, In id l -> (times_seen id l <= 1)%nat.
Proof.
  induction l as [|x l IH]; [split; [done|]; intros; apply NoDup_nil_2|]. rewrite NoDup_cons, IH, list_elem_of_In. split.
  - intros [Hx Hl] id Hid. rewrite times_seen_cons. destruct (Z.eqb_spec x id) as [->|].
    + apply times_seen_none in Hx. lia.
    + apply Hl. by destruct Hid.
  - intros Hid. split.
    + intros Hx. specialize (Hid x (or_introl eq_refl)). rewrite times_seen_cons, Z.eqb_refl in Hid. apply (proj1 (times_seen_none x l)); [lia|done].
    + intros id Hin. specialize (Hid id (or_intror Hin)). rewrite times_seen_cons in Hid. lia.
Qed.

Lemma duplicated_id l :
  match List.find (fun id => (1 <? times_seen id l)%nat) l with
  | Some id => ~ NoDup l /\ (1 < times_seen id l)%nat
  | None => NoDup l
  end.
Proof.
  destruct (List.find _ l) as [id|] eqn:E.
  - apply List.find_some in E as [Hin Hs%Nat.ltb_lt]. split; [|done]. intros Hn. apply seen_once with (id := id) in Hn; [lia|done].
  - apply seen_once. intros id Hin. apply (List.find_none _ _ E) in Hin. apply Nat.ltb_ge in Hin. lia.
Qed.

Lemma position_spec id l : match position id l with Some k => l !! k = Some id | None => ~ In id l end.
Proof.
  induction l as [|x l IH]; [by intros []|]. cbn. destruct (Z.eqb_spec x id) as [->|Hx]; [done|]. destruct (position id l); cbn; [done|by intros [?|?]].
Qed.

Lemma position_of l k id : NoDup l -> l !! k = Some id -> position id l = Some k.
Proof.
  intros Hn Hk. pose proof (position_spec id l) as Hp. destruct (position id l) as [j|].
  - f_equal. by eapply NoDup_lookup.
  - destruct Hp. apply list_elem_of_In. by eapply list_elem_of_lookup_2.
Qed.

(** The publication that a cursor names. *)
Definition cursor_id (before : string) : option Z :=
  raw ← base64urlDecode before; if HasPrefix raw "v2:" then ParseInt (TrimPrefix raw "v2:") else None.

Lemma cursor_id_of id : 0 <= id <= max_int64 -> cursor_id (cursor_of id) = Some id.
Proof.
  intros Hid. unfold cursor_id, cursor_of, base64urlDecode, base64urlEncode. rewrite url_roundtrip. cbn [mbind option_bind].
  by rewrite HasPrefix_app, TrimPrefix_app, ParseInt_text.
Qed.

Lemma cursor_text id : String.eqb (cursor_of id) "" = false.
Proof. apply String.eqb_neq. by apply url_text. Qed.

(** What a cursor asks for: the entry it stands behind. *)
Lemma page_start_spec ids before : NoDup ids ->
  match page_start ids before with
  | Ok k => before = "" /\ k = O \/ before <> "" /\ exists j id, k = S j /\ cursor_id before = Some id /\ ids !! j = Some id
  | Err e => before <> "" /\ (cursor_id before = None /\ e = ErrCursorInvalid \/
      exists id, cursor_id before = Some id /\ ~ In id ids /\ e = ErrCursorExpired +:+ ": publication_id " +:+ pretty id +:+ " no longer exists")
  end.
Proof.
  intros Hn. unfold page_start, cursor_id. destruct (String.eqb_spec before "") as [->|Hb]; [by left|].
  destruct (base64urlDecode before) as [raw|]; cbn [mbind option_bind]; [|by auto].
  destruct (HasPrefix raw "v2:"); cbn [negb]; [|by auto]. destruct (ParseInt _) as [id|]; [|by auto].
  pose proof (position_spec id ids) as Hp. destruct (position id ids) as [j|]; [right; split; [done|]; by exists j, id|].
  rewrite (proj2 (times_seen_none id ids) Hp). cbn. split; [done|]. right. by exists id.
Qed.

Lemma page_start_at ids k id : NoDup ids -> 0 <= id <= max_int64 -> ids !! k = Some id -> page_start ids (cursor_of id) = Ok (S k).
Proof.
  intros Hn Hid Hk. pose proof (page_start_spec ids (cursor_of id) Hn) as Hs. rewrite (cursor_id_of id Hid) in Hs.
  destruct (page_start ids (cursor_of id)) as [j|e].
  - destruct Hs as [[Hb _]|(_ & i & id' & -> & [= <-] & Hi)].
    + pose proof (cursor_text id) as Ht. by rewrite Hb in Ht.
    + do 2 f_equal. by eapply NoDup_lookup.
  - destruct Hs as (_ & [[? _]|(id' & [= <-] & Hni & _)]); [done|]. destruct Hni. apply list_elem_of_In. by eapply list_elem_of_lookup_2.
Qed.

Lemma clamp_positive limit : (1 <= Z.to_nat (clamp_limit limit) <= 100)%nat.
Proof. unfold clamp_limit. destruct (limit <=? 0) eqn:E; destruct (100 <? _) eqn:E2; lia. Qed.

(** C22. The answers of the list (A8-MANIFEST-1, v4): while two manifests claim one
    publication id there is no page at all; otherwise a cursor fails exactly if
    it is malformed or names a publication that cannot be listed any more, and a
    page is the entries right behind the one that the cursor names, however the
    ids are ordered, with the cursor of its last entry. *)
Theorem listing_answers read d limit before groups un :
  discoverSnapshotGroups false None d = Ok (groups, un) ->
  let loaded := listable read d groups in
  let ids := map id_of loaded in
  match ListManifests None read d limit before with
  | Err e =>
      ~ NoDup ids /\ (exists id, (1 < times_seen id ids)%nat /\
        e = ErrCursorAmbiguous +:+ ": publication_id " +:+ pretty id +:+ " claimed by " +:+ pretty (times_seen id ids) +:+ " manifests") \/
      NoDup ids /\ before <> "" /\
        (cursor_id before = None /\ e = ErrCursorInvalid \/
         exists id, cursor_id before = Some id /\ ~ In id ids /\ e = ErrCursorExpired +:+ ": publication_id " +:+ pretty id +:+ " no longer exists")
  | Ok (entries, next) =>
      NoDup ids /\ exists k,
        (before = "" /\ k = O \/ before <> "" /\ exists j id, k = S j /\ cursor_id before = Some id /\ ids !! j = Some id) /\
        let page := take (Z.to_nat (clamp_limit limit)) (drop k loaded) in
        entries = map list_entry page /\ next = from_option (fun p => cursor_of (id_of p)) "" (last page)
  end.
Proof.
  intros Hd loaded ids. unfold ListManifests. rewrite Hd. fold loaded. fold ids. pose proof (duplicated_id ids) as Hdup.
  destruct (List.find _ ids) as [id|]; [left; destruct Hdup; split; [done|]; by exists id|].
  pose proof (page_start_spec ids before Hdup) as Hs. destruct (page_start ids before) as [k|e]; [|right; by split].
  split; [done|]. by exists k.
Qed.

Lemma list_from read d limit groups un fuel k cursor :
  discoverSnapshotGroups false None d = Ok (groups, un) ->
  let loaded := listable read d groups in
  NoDup (map id_of loaded) -> (forall p, In p loaded -> 0 <= id_of p <= max_int64) ->
  page_start (map id_of loaded) cursor = Ok k -> (k <= length loaded)%nat -> (length loaded - k + 1 < fuel)%nat ->
  list_pages fuel None read d limit cursor = Some (Ok (map list_entry (drop k loaded))).
Proof.
  intros Hd loaded Hn Hids. revert k cursor. induction fuel as [|fuel IH]; intros k cursor Hc Hk Hf; [lia|]. cbn [list_pages].
  unfold ListManifests. rewrite Hd. fold loaded. pose proof (duplicated_id (map id_of loaded)) as Hdup.
  destruct (List.find _ _); [by destruct Hdup|]. rewrite Hc. pose proof (clamp_positive limit) as Hl. revert Hl. generalize (Z.to_nat (clamp_limit limit)). intros n Hl.
  set (page := take n (drop k loaded)). destruct (last page) as [p|] eqn:El; cbn [from_option].
  - rewrite cursor_text. cbn [orb]. assert (Hne : page <> []) by by intros ->. destruct (map list_entry page) as [|x xs] eqn:Em; [by destruct page|]. rewrite <- Em.
    assert (Hp : exists j, page !! j = Some p /\ S j = length page).
    { exists (pred (length page)). rewrite <- last_lookup. split; [done|]. destruct page; [done|cbn; lia]. }
    destruct Hp as (j & Hj & Hlen). assert (Hjl : loaded !! (k + j)%nat = Some p).
    { unfold page in Hj. apply lookup_take_Some in Hj as [Hj _]. by rewrite lookup_drop in Hj. }
    assert (Hb := lookup_lt_Some _ _ _ Hjl).
    rewrite (IH (S (k + j)) (cursor_of (id_of p))); [| |lia..].
    + do 2 f_equal. rewrite <- map_app. f_equal. replace (S (k + j)) with (k + length page)%nat by lia.
      assert (drop (k + length page) loaded = drop (length page) (drop k loaded)) as -> by by rewrite drop_drop.
      rewrite <- (take_drop n (drop k loaded)) at 2. fold page. f_equal.
      destruct (decide (n <= length (drop k loaded))%nat) as [Hle|Hgt].
      * unfold page. by rewrite (length_take_le _ _ Hle).
      * unfold page. rewrite !drop_ge; [done|lia|rewrite length_take; lia].
    + apply page_start_at; [done| |by rewrite list_lookup_fmap, Hjl]. apply Hids. apply list_elem_of_In. by eapply list_elem_of_lookup_2.
  - apply last_None in El. assert (drop k loaded = []) as ->.
    { unfold page in El. apply nil_length_inv. apply (f_equal length) in El. rewrite length_take in El. cbn in El. lia. }
    by rewrite El.
Qed.

(** C21. Paging loses nothing and repeats nothing: following the cursors from the top
    ends, and gives every manifest that can be listed once, in the order of the
    directory, for every page size. *)
Theorem listing_exhausts read d limit groups un :
  discoverSnapshotGroups false None d = Ok (groups, un) ->
  let loaded := listable read d groups in
  NoDup (map id_of loaded) -> (forall p, In p loaded -> id_of p <= max_int64) ->
  list_pages (page_fuel None d) None read d limit "" = Some (Ok (map list_entry loaded)).
Proof.
  intros Hd loaded Hn Hids. unfold page_fuel. rewrite Hd.
  assert (Hlen : (length loaded <= length groups)%nat).
  { unfold loaded, listable. clear. induction groups as [|g gs IH]; [done|]. cbn. destruct (load_manifest _ _ _); cbn; lia. }
  refine (list_from read d limit groups un _ 0 "" Hd Hn _ eq_refl _ _); [|fold loaded; lia..].
  intros p Hp. split; [|by apply Hids]. unfold loaded, listable in Hp. apply list_elem_of_In, list_elem_of_omap in Hp as (g & _ & Hg).
  unfold load_manifest in Hg. destruct (read_file _ _ _); [|done]. destruct (parseSnapshotManifest _) as [m|] eqn:Em; [|done].
  injection Hg as <-. apply parse_decoded in Em as [_ Hm]. unfold id_of. cbn. lia.
Qed.

(** ** What "ok" means *)

(** A declared format is on disk the way the manifest saw it. *)
Definition format_matches (read : string -> option error) (d : SnapDir) (artifacts : gmap string string) (f : manifestFormatInfo) : Prop :=
  exists fn data, artifacts !! mf_Format f = Some fn /\ read_file read d fn = Ok data /\
    hash_data data = (mf_SHA256 f, mf_Bytes f) /\ countArtifactRecords data (mf_Format f) = Ok (mf_Records f).

Record intact (read : string -> option error) (d : SnapDir) (trust : option exportTrustStore) (lifecycle : option keyLifecycleState)
    (loaded : list (DirGroup * snapshotManifest)) (g : DirGroup) (m : snapshotManifest) : Prop := MkIntact {
  in_manifest : sg_manifestFn g <> "" /\ load_manifest read d (sg_manifestFn g) = Ok m;
  in_named : m_Snapshot m = sg_identity g;
  in_unique : times_seen (m_PublicationID m) (map id_of loaded) = 1%nat;
  in_declared : m_Formats m <> [] /\ Forall (format_matches read d (sg_artifacts g)) (m_Formats m);
  in_only : sg_extraFiles g = [] /\
    ((size (sg_artifacts g) <= length (m_Formats m))%nat \/
     forall fmt fn, sg_artifacts g !! fmt = Some fn -> In fmt (map mf_Format (m_Formats m)));
  in_signed : let verdict := sv_Verdict (manifest_verdict trust lifecycle m) in
    verdict = sigVerdictOK \/ verdict = sigVerdictAbsent /\ m_SchemaVersion m < manifestSchemaVersionV3 }.

Lemma verify_format_ok read d artifacts status f :
  snd (fst (verify_format read d artifacts status f)) = verifyStatusOK <-> status = verifyStatusOK /\ format_matches read d artifacts f.
Proof.
  unfold verify_format, format_matches. destruct (artifacts !! mf_Format f) as [fn|] eqn:Ef; cbn [fst snd].
  2:{ split; [destruct (String.eqb_spec status verifyStatusOK); done|intros (_ & ? & ? & ? & _); congruence]. }
  destruct (read_file read d fn) as [data|e] eqn:Er; cbn [fst snd]; [|split; [done|intros (_ & ? & ? & ? & ? & _); congruence]].
  destruct (countArtifactRecords data (mf_Format f)) as [n|e] eqn:Ec; cbn [fst snd]; [|split; [done|intros (_ & ? & ? & ? & ? & _ & ?); congruence]].
  assert (Hmm : (if String.eqb status verifyStatusOK || String.eqb status verifyStatusMissing then verifyStatusMismatch else status) <> verifyStatusOK).
  { destruct (String.eqb_spec status verifyStatusOK); [done|]. by destruct (String.eqb status verifyStatusMissing). }
  destruct (hash_data data) as [sum bytes] eqn:Eh.
  assert (Hother : forall X, X <> verifyStatusOK -> sum <> mf_SHA256 f \/ bytes <> mf_Bytes f \/ n <> mf_Records f -> X = verifyStatusOK <-> status = verifyStatusOK /\
    exists fn' data', Some fn = Some fn' /\ read_file read d fn' = Ok data' /\ hash_data data' = (mf_SHA256 f, mf_Bytes f) /\
      countArtifactRecords data' (mf_Format f) = Ok (mf_Records f)).
  { intros X HX Hd. split; [done|]. intros (_ & fn' & data' & [= <-] & Er' & Eh' & Ec'). destruct Hd as [?|[?|?]]; congruence. }
  destruct (String.eqb_spec sum (mf_SHA256 f)) as [->|Hs]; cbn [negb orb fst snd]; [|apply Hother; auto].
  destruct (Z.eqb_spec bytes (mf_Bytes f)) as [->|Hb]; cbn [negb orb fst snd]; [|apply Hother; auto].
  destruct (Z.eqb_spec n (mf_Records f)) as [->|Hn]; cbn [negb orb fst snd]; [|apply Hother; auto].
  split; [|by intros [-> _]]. intros ->. split; [done|]. by exists fn, data.
Qed.

Lemma verify_formats_ok read d artifacts fs status :
  snd (fst (verify_formats read d artifacts status fs)) = verifyStatusOK <-> status = verifyStatusOK /\ Forall (format_matches read d artifacts) fs.
Proof.
  revert status. induction fs as [|f fs IH]; intros status; [cbn; split; [by split|by intros [-> _]]|]. cbn [verify_formats].
  pose proof (verify_format_ok read d artifacts status f) as Hf. destruct (verify_format read d artifacts status f) as [[r st] note].
  specialize (IH st). destruct (verify_formats read d artifacts st fs) as [[rs st'] notes]. cbn [fst snd] in *.
  rewrite IH, Hf, Forall_cons. symmetry. apply assoc, _.
Qed.

Lemma sort_strings_nil l : sort_strings l = [] <-> l = [].
Proof.
  split; [|by intros ->]. intros E. apply Permutation_nil. rewrite <- E. apply (sort_slice_perm string_ltb).
Qed.

Lemma undeclared_nil artifacts extra fs :
  undeclared artifacts extra fs = [] <-> extra = [] /\
    ((size artifacts <= length fs)%nat \/ forall fmt fn, artifacts !! fmt = Some fn -> In fmt (map mf_Format fs)).
Proof.
  unfold undeclared. rewrite sort_strings_nil, app_nil. destruct (Nat.ltb_spec (length fs) (size artifacts)) as [Hl|Hl].
  - split.
    + intros [Hu ->]. split; [done|]. right. intros fmt fn Hf. apply map_eq_nil in Hu.
      destruct (existsb (String.eqb fmt) (map mf_Format fs)) eqn:Ee; [by apply existsb_exists in Ee as (x & Hx & ->%String.eqb_eq)|].
      assert (Hin : In (fmt, fn) (List.filter (fun p => negb (existsb (String.eqb (fst p)) (map mf_Format fs))) (map_to_list artifacts))).
      { apply filter_In. split; [by apply list_elem_of_In, elem_of_map_to_list|]. cbn. by rewrite Ee. }
      by rewrite Hu in Hin.
    + intros [-> [?|Hall]]; [lia|]. split; [|done]. destruct (List.filter _ (map_to_list artifacts)) as [|[fmt fn] rest] eqn:Ef; [done|].
      assert (Hin : In (fmt, fn) (List.filter (fun p => negb (existsb (String.eqb (fst p)) (map mf_Format fs))) (map_to_list artifacts))) by (rewrite Ef; by left).
      apply filter_In in Hin as [Hin%list_elem_of_In%elem_of_map_to_list Hn]. apply Hall in Hin. cbn in Hn.
      apply negb_true_iff in Hn. assert (existsb (String.eqb fmt) (map mf_Format fs) = true) as Ht by (apply existsb_exists; exists fmt; by rewrite String.eqb_refl).
      by rewrite Ht in Hn.
  - split; [intros [_ ->]; by auto|intros [-> _]; done].
Qed.

Lemma verify_artifacts_ok read d g m :
  snd (fst (verify_artifacts read d g m)) = verifyStatusOK <->
  (m_Formats m <> [] /\ Forall (format_matches read d (sg_artifacts g)) (m_Formats m)) /\ undeclared (sg_artifacts g) (sg_extraFiles g) (m_Formats m) = [].
Proof.
  unfold verify_artifacts. pose proof (verify_formats_ok read d (sg_artifacts g) (m_Formats m) verifyStatusOK) as Hf.
  destruct (verify_formats _ _ _ _ _) as [[rs st] notes]. cbn [fst snd] in Hf.
  destruct (undeclared _ _ _) as [|x xs] eqn:Eu.
  - destruct (String.eqb_spec st verifyStatusOK) as [->|Hst]; cbn [andb].
    + destruct (m_Formats m) eqn:Em; cbn [fst snd]; [split; [done|by intros [[? _] _]]|]. destruct Hf as [Hf _]. split; [|done]. intros _.
      by destruct (Hf eq_refl).
    + cbn [fst snd]. split; [done|]. intros [[_ Ha] _]. apply Hf. by split.
  - split; [|by intros [_ ?]]. destruct (String.eqb_spec st verifyStatusOK) as [->|Hst]; cbn [andb fst snd]; [done|].
    destruct (String.eqb_spec st verifyStatusOK); [done|]. by cbn.
Qed.

Definition known_verdicts : list string :=
  [sigVerdictOK; sigVerdictInvalid; sigVerdictAbsent; sigVerdictMalformed; sigVerdictKeyUnknown;
   sigVerdictBeforeActivation; sigVerdictAfterRotation; sigVerdictAfterRevocation; sigVerdictTimeUnparseable].

Lemma manifest_verdict_known trust lifecycle m : sv_Verdict (manifest_verdict trust lifecycle m) ∈ known_verdicts.
Proof.
  assert (Hk : forall v, existsb (String.eqb v) known_verdicts = true -> v ∈ known_verdicts).
  { intros v (x & Hx & ->%String.eqb_eq)%existsb_exists. by apply list_elem_of_In. }
  assert (Hv : sv_Verdict (verifyManifestSignature (Some m) trust) ∈ known_verdicts).
  { unfold verifyManifestSignature. repeat case_match; by apply Hk. }
  unfold manifest_verdict. destruct lifecycle as [st|]; [|done].
  unfold authorizeByLifecycle. repeat case_match; cbn [fst sv_Verdict]; first [exact Hv | by apply Hk].
Qed.

Lemma listable_spec read d groups g m :
  In (g, m) (listable read d groups) <-> In g groups /\ load_manifest read d (sg_manifestFn g) = Ok m.
Proof.
  unfold listable. rewrite <- !list_elem_of_In, list_elem_of_omap. split.
  - intros (g' & Hg & E). destruct (load_manifest _ _ _) eqn:El; [|done]. by injection E as -> ->.
  - intros [Hg E]. exists g. by rewrite E.
Qed.

Lemma listable_nodup read d groups : NoDup (map sg_identity groups) -> NoDup (map (fun p => sg_identity (fst p)) (listable read d groups)).
Proof.
  induction groups as [|g gs IH]; intros Hn; [apply NoDup_nil_2|]. cbn in Hn. apply NoDup_cons in Hn as [Hni Hn]. unfold listable. cbn [omap list_omap].
  destruct (load_manifest _ _ _) as [m|]; [|by apply IH]. cbn [map fst]. apply NoDup_cons. split; [|by apply IH].
  intros Hin. apply Hni. apply list_elem_of_In, in_map_iff in Hin as ([g' m'] & <- & Hin). apply listable_spec in Hin as [Hin _].
  by apply list_elem_of_In, in_map.
Qed.

Lemma nodup_filtered (f : DirGroup -> bool) gs : NoDup (map sg_identity gs) -> NoDup (map sg_identity (List.filter f gs)).
Proof.
  induction gs as [|g gs IH]; intros Hn; [done|]. cbn in Hn. apply NoDup_cons in Hn as [Hni Hn]. cbn. destruct (f g); [|by apply IH].
  cbn. apply NoDup_cons. split; [|by apply IH]. intros Hin. apply Hni. apply list_elem_of_In, in_map_iff in Hin as (g' & <- & [Hin _]%filter_In).
  by apply list_elem_of_In, in_map.
Qed.

Lemma evidence_spec trust lifecycle ls loaded :
  NoDup (map (fun p => sg_identity (fst p)) loaded) ->
  let ev := fst (gather_evidence trust lifecycle ls loaded) in
  ev_ids ev = map id_of loaded /\
  forall g m, In (g, m) loaded -> ev_signatures ev !! sg_identity g = Some (manifest_verdict trust lifecycle m).
Proof.
  intros Hn. unfold gather_evidence. destruct (verifyChainWithLedger _ _ _) as [cv positions]. cbn [fst ev_ids ev_signatures]. split; [done|].
  intros g m Hin. apply elem_of_list_to_map.
  - rewrite <- list_fmap_compose. exact Hn.
  - apply list_elem_of_In, in_map_iff. by exists (g, m).
Qed.

Lemma applied_ok status v schema : sv_Verdict v ∈ known_verdicts ->
  applySignatureVerdict status v schema = verifyStatusOK <->
  status = verifyStatusOK /\ (sv_Verdict v = sigVerdictOK \/ sv_Verdict v = sigVerdictAbsent /\ schema < manifestSchemaVersionV3).
Proof. intros Hv. by apply (signature_never_upgrades status v schema Hv). Qed.

Lemma verify_group_ok read d trust lifecycle ls groups g :
  NoDup (map sg_identity groups) -> In g groups ->
  let loaded := listable read d (List.filter (fun g => negb (String.eqb (sg_manifestFn g) "")) groups) in
  vr_Status (verify_group read d (fst (gather_evidence trust lifecycle ls loaded)) g) = verifyStatusOK <->
  exists m, intact read d trust lifecycle loaded g m.
Proof.
  intros Hnd Hg loaded. destruct (evidence_spec trust lifecycle ls loaded) as [Hids Hsig]; [by apply listable_nodup, nodup_filtered|].
  revert Hids Hsig. generalize (fst (gather_evidence trust lifecycle ls loaded)). intros ev Hids Hsig.
  assert (Hin : forall m, sg_manifestFn g <> "" -> load_manifest read d (sg_manifestFn g) = Ok m -> In (g, m) loaded).
  { intros m Hne Hl. apply listable_spec. split; [|done]. apply filter_In. split; [done|]. by apply negb_true_iff, String.eqb_neq. }
  unfold verify_group. destruct (String.eqb_spec (sg_manifestFn g) "") as [He|Hne].
  { cbn. split; [done|]. by intros (m & [[? _] _ _ _ _ _]). }
  assert (Hl : load_manifest read d (sg_manifestFn g) =
    match read_file read d (sg_manifestFn g) with Ok data => parseSnapshotManifest (decode data) | Err e => Err e end) by done.
  destruct (read_file _ _ (sg_manifestFn g)) as [data|e]; [|cbn; split; [done|intros (m & [[_ ?] _ _ _ _ _]); congruence]].
  destruct (parseSnapshotManifest (decode data)) as [m|e]; [|cbn; split; [done|intros (m & [[_ ?] _ _ _ _ _]); congruence]].
  assert (Hm : forall m', intact read d trust lifecycle loaded g m' -> m' = m) by (intros m' [[_ ?] _ _ _ _ _]; congruence).
  specialize (Hin m Hne Hl). rewrite Hids.
  assert (Honce : (1 <= times_seen (m_PublicationID m) (map id_of loaded))%nat).
  { destruct (times_seen _ _) eqn:Et; [|lia]. apply times_seen_none in Et. destruct Et. by apply (in_map id_of) in Hin. }
  destruct (Nat.ltb_spec 1 (times_seen (m_PublicationID m) (map id_of loaded))) as [Hdup|Hdup].
  { cbn. split; [done|]. intros (m' & Hi). pose proof (Hm m' Hi) as ->. pose proof (in_unique _ _ _ _ _ _ _ Hi). lia. }
  destruct (String.eqb_spec (m_Snapshot m) (sg_identity g)) as [Hname|Hname]; cbn [negb].
  2:{ cbn. split; [done|]. intros (m' & Hi). pose proof (Hm m' Hi) as ->. by pose proof (in_named _ _ _ _ _ _ _ Hi). }
  cbn [vr_Status]. rewrite (Hsig g m Hin). 
  pose proof (fun st => applied_ok st (manifest_verdict trust lifecycle m) (m_SchemaVersion m) (manifest_verdict_known trust lifecycle m)) as Happ.
  destruct (((size (sg_artifacts g) =? 0)%nat && _)) eqn:Eempty.
  - cbn [vr_Status]. split; [intros E; by apply Happ in E as [? _]|]. intros (m' & Hi). pose proof (Hm m' Hi) as ->.
    apply andb_true_iff in Eempty as [Es%Nat.eqb_eq _]. apply map_size_empty_iff in Es.
    destruct (in_declared _ _ _ _ _ _ _ Hi) as [Hne' Hall]. destruct (m_Formats m) as [|f fs]; [done|].
    apply Forall_cons in Hall as [(fn & data' & Hf & _) _]. by rewrite Es in Hf.
  - pose proof (verify_artifacts_ok read d g m) as Hart. destruct (verify_artifacts read d g m) as [[[formats extra] status] detail].
    cbn [vr_Status fst snd] in *. rewrite Happ. rewrite undeclared_nil in Hart.
    assert (Hst : (if String.eqb status "" then verifyStatusUnknown else status) = verifyStatusOK <-> status = verifyStatusOK)
      by (by destruct (String.eqb_spec status "") as [->|]).
    rewrite Hst, Hart. split.
    + intros [[[Hf Hall] Honly] Hs]. exists m. constructor; try done. lia.
    + intros (m' & Hi). pose proof (Hm m' Hi) as ->. destruct Hi. by split.
Qed.

(** A listing has the line of each group that it is asked for. *)
Lemma verified_lines read d trust lifecycle ls limit groups un :
  discoverSnapshotGroups true None d = Ok (groups, un) ->
  let loaded := listable read d (List.filter (fun g => negb (String.eqb (sg_manifestFn g) "")) groups) in
  exists rs cv, VerifySnapshotsDetailed None read d trust lifecycle (Ok ls) limit = Ok (rs, cv) /\
    forall i g, groups !! i = Some g -> Z.of_nat i < clamp_limit limit ->
      In (verify_group read d (fst (gather_evidence trust lifecycle ls loaded)) g) rs.
Proof.
  intros Hd loaded. unfold VerifySnapshotsDetailed. rewrite Hd. fold loaded. destruct (gather_evidence trust lifecycle ls loaded) as [ev cv].
  eexists _, _. split; [reflexivity|]. intros i g Hi Hl. apply in_or_app. right. apply in_map. apply list_elem_of_In, (list_elem_of_lookup_2 _ i).
  rewrite lookup_take_lt; [done|lia].
Qed.

Lemma verify_group_names read d ev g : vr_Snapshot (verify_group read d ev g) = sg_identity g.
Proof. unfold verify_group. repeat case_match; done. Qed.

(** Where no format is declared twice, an intact group has the declared
    artifacts and no other. *)
Lemma intact_declared read d trust lifecycle loaded g m :
  intact read d trust lifecycle loaded g m -> NoDup (map mf_Format (m_Formats m)) ->
  dom (sg_artifacts g) = list_to_set (map mf_Format (m_Formats m)) /\ sg_extraFiles g = [].
Proof.
  intros [_ _ _ [_ Hdecl] [Hextra Honly] _] Hn. split; [|done]. set (F := map mf_Format (m_Formats m)) in *.
  assert (Hsub : list_to_set F ⊆ dom (sg_artifacts g)).
  { intros fmt Hf. apply elem_of_list_to_set, list_elem_of_In, in_map_iff in Hf as (f & <- & Hf). rewrite List.Forall_forall in Hdecl.
    destruct (Hdecl f Hf) as (fn & data & Ha & _). apply elem_of_dom. by exists fn. }
  destruct Honly as [Hsize|Hall].
  - symmetry. apply set_eq_subseteq. apply set_subseteq_size_eq in Hsub as ->; [done|]. rewrite size_list_to_set by done.
    rewrite size_dom. unfold F. by rewrite length_map.
  - apply set_eq_subseteq. split; [|done]. intros fmt [fn Hfn]%elem_of_dom. apply elem_of_list_to_set, list_elem_of_In. by apply (Hall fmt fn).
Qed.

(** C6. What verification reports (M5, R177/B): a line for every file that belongs to no
    snapshot, and one for each of the newest groups, in their order. Of these
    exactly those are "ok" that are [intact]: the manifest can be read and names
    the group; no other manifest of the whole directory claims its publication id;
    it declares something, and each declared artifact is there with the declared
    digest, size and number of records; no file is left over beside the formats,
    and either there are no more artifacts than declarations or each artifact is
    declared; and the signature is good, or absent in a manifest of a schema below
    the signed one (version 2, whoever wrote it). So where no format is declared
    twice, an "ok" group has the declared artifacts and no other; a format declared
    twice can hide one ([undeclared_hidden]). How many groups are asked for changes
    neither a result nor the verdict on the chain. *)
Theorem verified_exact read d trust lifecycle ls limit groups un rs cv :
  discoverSnapshotGroups true None d = Ok (groups, un) ->
  VerifySnapshotsDetailed None read d trust lifecycle (Ok ls) limit = Ok (rs, cv) ->
  let loaded := listable read d (List.filter (fun g => negb (String.eqb (sg_manifestFn g) "")) groups) in
  exists results, rs = map unattributed_result un ++ results /\
    (length results = Nat.min (Z.to_nat (clamp_limit limit)) (length groups)) /\
    (forall i g, (i < length results)%nat -> groups !! i = Some g -> exists r, results !! i = Some r /\ vr_Snapshot r = sg_identity g /\
       (vr_Status r = verifyStatusOK <-> exists m, intact read d trust lifecycle loaded g m) /\
       forall m, intact read d trust lifecycle loaded g m -> NoDup (map mf_Format (m_Formats m)) ->
         dom (sg_artifacts g) = list_to_set (map mf_Format (m_Formats m)) /\ sg_extraFiles g = []) /\
    forall limit' rs' cv', VerifySnapshotsDetailed None read d trust lifecycle (Ok ls) limit' = Ok (rs', cv') ->
      cv' = cv /\ (clamp_limit limit <= clamp_limit limit' -> rs `prefix_of` rs').
Proof.
  intros Hd Hv loaded. pose proof (discovered_nodup _ _ _ _ Hd) as Hn. revert Hv. unfold VerifySnapshotsDetailed. rewrite Hd. fold loaded.
  pose proof (fun g => verify_group_ok read d trust lifecycle ls groups g Hn) as Hok. fold loaded in Hok. cbv zeta in Hok.
  destruct (gather_evidence trust lifecycle ls loaded) as [ev cv0]. cbn [fst] in Hok. intros [= <- <-].
  eexists. split; [reflexivity|]. split_and!.
  - by rewrite length_map, length_take.
  - intros i g Hi Hg. rewrite length_map, length_take in Hi. exists (verify_group read d ev g). split_and!.
    + rewrite list_lookup_fmap, lookup_take_lt by lia. by rewrite Hg.
    + apply verify_group_names.
    + apply Hok. apply list_elem_of_In. by eapply list_elem_of_lookup_2.
    + intros m. apply intact_declared.
  - intros limit' rs' cv' [= <- <-]. split; [done|]. intros Hle. apply prefix_app. 
    exists (map (verify_group read d ev) (drop (Z.to_nat (clamp_limit limit)) (take (Z.to_nat (clamp_limit limit')) groups))).
    rewrite <- map_app. f_equal. rewrite <- (take_drop (Z.to_nat (clamp_limit limit)) (take (Z.to_nat (clamp_limit limit')) groups)) at 1.
    f_equal. rewrite take_take. f_equal. lia.
Qed.

(** ** What the censuses can say *)

Lemma filter_all_false {A} (f : A -> bool) l : (forall x, In x l -> f x = false) -> List.filter f l = [].
Proof. intros Hf. induction l as [|x l IH]; [done|]. cbn. rewrite Hf by by left. apply IH. intros y Hy. apply Hf. by right. Qed.

Definition timed (out : gmap Z knownPublication) (id : Z) : Prop := exists known, out !! id = Some known /\ kp_publishedAt known <> "".

Lemma timed_insert out id id' known : timed (<[id' := known]> out) id -> timed out id \/ id = id' /\ kp_publishedAt known <> "".
Proof.
  intros (known' & Hk & Hp). destruct (decide (id = id')) as [->|Hne].
  - rewrite lookup_insert_eq in Hk. injection Hk as <-. by right.
  - rewrite lookup_insert_ne in Hk by done. left. by exists known'.
Qed.

Lemma ledger_untimed usable id : ~ timed (known_from_ledger usable) id.
Proof.
  unfold known_from_ledger. assert (Hstart : forall id, ~ timed ∅ id) by (intros ? (? & Hk & _); by rewrite lookup_empty in Hk).
  revert Hstart. generalize (∅ : gmap Z knownPublication). induction (map_to_list usable) as [|[i e] l IH]; intros out Hout; cbn [foldl]; [apply Hout|].
  apply IH. intros id'. destruct (i =? 0); [apply Hout|]. destruct (_ && _); intros Ht; repeat apply timed_insert in Ht as [Ht|[_ ?]]; try done; by apply Hout in Ht.
Qed.

Lemma added_untimed l out id : ~ timed out id -> ~ timed (foldl add_known out l) id.
Proof.
  revert out. induction l as [|p l IH]; intros out Hout; cbn [foldl]; [done|]. apply IH. unfold add_known.
  destruct (fst p <=? 0); [done|]. destruct (out !! fst p); [done|]. intros Ht. by apply timed_insert in Ht as [Ht|[_ ?]].
Qed.

Lemma listed_timed l out id : timed (foldl add_listed out l) id -> timed out id \/ id <> 0 /\ In id (map me_PublicationID l).
Proof.
  revert out. induction l as [|e l IH]; intros out Ht; cbn [foldl] in Ht; [by left|]. apply IH in Ht as [Ht|[Hz Hin]]; [|right; split; [done|by right]].
  unfold add_listed in Ht. destruct (Z.eqb_spec (me_PublicationID e) 0) as [|Hz]; [by left|].
  apply timed_insert in Ht as [Ht|[-> _]]; [by left|]. right. split; [done|by left].
Qed.

(** What reconciling the destruction log with the directory can find: as long as
    the log is whole, a publication that is known and gone is accused exactly if no
    completed record covers it; once the log has compacted itself, none is ever
    accused again, because only a publication that is still on disk has a publish
    time to compare with the oldest record. *)
Theorem census_assertable read_error read d ledger anchored verified existed present st :
  knownPublications ledger anchored verified (all_manifests read_error read d) = Ok existed ->
  diskPublications read_error read d = Ok present ->
  dv_Unaccounted (reconcile_destruction st existed present) =
    if lw_Min (dst_window st) <=? 1
    then List.filter (fun id => negb (bool_decide (id ∈ covered_ids existed st))) (missing_of existed present)
    else [].
Proof.
  intros Hknown Hdisk. rewrite (proj1 (proj2 (proj2 (reconcile_lists st existed present)))). unfold class_is.
  assert (Hgone : lw_Min (dst_window st) <= 1 \/ forall id, In id (missing_of existed present) -> ~ timed existed id).
  { right. intros id Hid Ht. unfold missing_of in Hid. apply list_elem_of_In, sort_slice_elem, elem_of_elements, elem_of_difference in Hid as [_ Hni].
    apply Hni. revert Hknown Hdisk. unfold knownPublications, diskPublications. destruct ledger as [ls|]; [|done]. destruct anchored as [an|]; [|done].
    destruct (all_manifests read_error read d) as [entries|]; [|by destruct verified as [[]|]]. intros Hknown [= <-].
    assert (Hlisted : id <> 0 /\ In id (map me_PublicationID entries)).
    { destruct verified as [[ids|]|]; [|done|]; injection Hknown as <-; (apply listed_timed in Ht as [Ht|?]; [|done]);
        exfalso; revert Ht; repeat apply added_untimed; apply ledger_untimed. }
    apply elem_of_list_to_set, list_elem_of_In, filter_In. split; [by apply Hlisted|]. apply negb_true_iff, Z.eqb_neq, Hlisted. }
  destruct (Z.leb_spec (lw_Min (dst_window st)) 1) as [Hm|Hm].
  - apply filter_ext_in. intros id _. unfold classify_missing. rewrite (proj2 (Z.leb_le _ _) Hm). unfold bool_decide.
    by destruct (decide _); destruct (decide_rel _ _ _).
  - destruct Hgone as [?|Hgone]; [lia|]. apply filter_all_false. intros id Hid. specialize (Hgone id Hid).
    unfold classify_missing. destruct (decide _); [done|]. rewrite (proj2 (Z.leb_gt _ _) Hm).
    assert (from_option kp_publishedAt "" (existed !! id) = "") as ->.
    { destruct (existed !! id) as [known|] eqn:Ek; [|done]. cbn. destruct (decide (kp_publishedAt known = "")) as [|Hp]; [done|]. destruct Hgone. by exists known. }
    by rewrite orb_true_r.
Qed.

End Listing.

(** ** Witnesses *)

#[local] Existing Instance checksum_crypto.
#[local] Existing Instance sample_destruction.

Definition sample_cursor : CursorCodec.
Proof.
  refine {| url_encode s := String "="%char s; url_decode s := match s with String _ r => Some r | EmptyString => None end;
    url_decode_padded _ := None |}; done.
Defined.

(** An artifact of [n] records is a text of [n] bytes, or has [n] lines after the
    first. *)
Definition sample_artifacts : ArtifactCodec :=
  {| json_transitions s := Ok (Z.of_nat (String.length s)); csv_rows s := Ok (Z.of_nat (length (List.filter csv_data (Split s newline)))) |}.

#[local] Existing Instance sample_cursor.
#[local] Existing Instance sample_artifacts.

Definition two_formats (id : Z) (snapshot json csv : string) : snapshotManifest :=
  MkManifest 2 id snapshot "2026-01-01T00:00:00Z" "2026-01-01T00:00:01Z" "durable" false seqContinuityValue 1 2 2
    [MkFormatInfo "json" "" (hex_EncodeToString (Sum256 json)) (Z.of_nat (String.length json)) (Z.of_nat (String.length json));
     MkFormatInfo "csv" "" (hex_EncodeToString (Sum256 csv)) (Z.of_nat (String.length csv)) 2] None None.

Definition csv_text : string := "h" +:+ String newline ("a" +:+ String newline ("b" +:+ String newline "# total")).

(** A manifest is written as the name of its snapshot and its publication id. *)
Definition named_manifest (s : string) : result error snapshotManifest :=
  match cut_last "#" s with
  | Some (name, rest) => match ParseInt rest with Some id => Ok (two_formats id name "[]" csv_text) | None => Err "invalid character" end
  | _ => Err "invalid character"
  end.

Definition three_snapshots : SnapDir := sample_dir
  [("alert-transitions-20260101T000000Z.manifest.json", "20260101T000000Z#7"); ("alert-transitions-20260101T000000Z.json", "[]");
   ("alert-transitions-20260101T000000Z.csv", csv_text);
   ("alert-transitions-20260102T000000Z.manifest.json", "20260102T000000Z#3"); ("alert-transitions-20260102T000000Z.json", "xx");
   ("alert-transitions-20260102T000000Z.csv", csv_text);
   ("alert-transitions-20260103T000000Z.json", "[]"); ("alert-transitions-20260104T000000Z.manifest.json", "20260104T000000Z#9");
   ("alert-transitions-notes.json", "")].

Definition readable : string -> option error := fun _ => None.

Example listing_exhausts_witness :
  (forall limit, match list_pages named_manifest (page_fuel None three_snapshots) None readable three_snapshots limit "" with
     | Some (Ok entries) => map me_PublicationID entries = [9; 3; 7] | _ => False end) /\
  match ListManifests named_manifest None readable three_snapshots 2 "" with Ok (_, next) => next = cursor_of 3 | Err _ => False end.
Proof.
  split; [|vm_compute; reflexivity]. intros limit.
  assert (Hf : match discoverSnapshotGroups false None three_snapshots with
    | Ok (groups, _) => map id_of (listable named_manifest readable three_snapshots groups) = [9; 3; 7] /\
        map me_PublicationID (map list_entry (listable named_manifest readable three_snapshots groups)) = [9; 3; 7]
    | Err _ => False end) by (vm_compute; split; reflexivity).
  destruct (discoverSnapshotGroups false None three_snapshots) as [[groups un]|] eqn:E; [|destruct Hf]. destruct Hf as [Hids He].
  assert (Hn : NoDup (map id_of (listable named_manifest readable three_snapshots groups))).
  { rewrite Hids. apply (bool_decide_unpack _). vm_compute. exact I. }
  assert (Hb : forall p, In p (listable named_manifest readable three_snapshots groups) -> id_of p <= max_int64).
  { intros p Hp. apply (in_map id_of) in Hp. rewrite Hids in Hp. unfold max_int64. destruct Hp as [<-|[<-|[<-|[]]]]; lia. }
  pose proof (listing_exhausts named_manifest readable three_snapshots limit groups un E Hn Hb) as Hx. rewrite Hx. exact He.
Defined.

(** A cursor of a publication that is not there, one of another version, and one
    behind the oldest snapshot. *)
Example listing_answers_witness :
  match discoverSnapshotGroups false None three_snapshots with
  | Ok (groups, _) => NoDup (map id_of (listable named_manifest readable three_snapshots groups))
  | Err _ => False
  end /\
  match ListManifests named_manifest None readable three_snapshots 10 (cursor_of 4) with
  | Err e => e = "cursor_expired: publication_id 4 no longer exists" | Ok _ => False end /\
  ListManifests named_manifest None readable three_snapshots 10 "=v1:7" = Err ErrCursorInvalid /\
  ListManifests named_manifest None readable three_snapshots 10 (cursor_of 7) = Ok ([], "").
Proof.
  split; [|vm_compute; repeat split]. 
  assert (Hd : match discoverSnapshotGroups false None three_snapshots with Ok _ => true | Err _ => false end = true) by (vm_compute; reflexivity).
  destruct (discoverSnapshotGroups false None three_snapshots) as [[groups un]|e] eqn:E; [clear Hd|discriminate Hd].
  pose proof (listing_answers named_manifest readable three_snapshots 10 (cursor_of 7) groups un E) as Hx. cbv zeta in Hx.
  assert (He : ListManifests named_manifest None readable three_snapshots 10 (cursor_of 7) = Ok ([], "")) by (vm_compute; reflexivity).
  rewrite He in Hx. exact (proj1 Hx).
Defined.

#[local] Abbreviation verified := (VerifySnapshotsDetailed named_manifest None readable three_snapshots None None (Ok empty_ledger)).

Example verified_exact_witness :
  match verified 10 with
  | Ok (rs, _) => map (fun r => (vr_Snapshot r, vr_Status r)) rs = [("alert-transitions-notes.json", verifyStatusUnknown);
      ("20260104T000000Z", verifyStatusOrphanManifest); ("20260103T000000Z", verifyStatusOrphanArtifact);
      ("20260102T000000Z", verifyStatusMismatch); ("20260101T000000Z", verifyStatusOK)]
  | Err _ => False
  end /\
  match verified 2, verified 10 with Ok (rs, cv), Ok (rs', cv') => cv' = cv /\ rs `prefix_of` rs' | _, _ => False end.
Proof.
  split; [vm_compute; reflexivity|].
  
  assert (Hd : match discoverSnapshotGroups true None three_snapshots with Ok _ => true | Err _ => false end = true) by (vm_compute; reflexivity).
  destruct (discoverSnapshotGroups true None three_snapshots) as [[groups un]|e] eqn:E; [clear Hd|discriminate Hd].
  pose proof (fun rs cv => verified_exact named_manifest readable three_snapshots None None empty_ledger 2 groups un rs cv E) as Hx.
  assert (Hok : (match verified 2 with Ok _ => true | Err _ => false end && match verified 10 with Ok _ => true | Err _ => false end) = true) by (vm_compute; reflexivity).
  revert Hx Hok. destruct (verified 2) as [[rs cv]|]; [|discriminate]. intros Hx Hok.
  specialize (Hx rs cv eq_refl). cbv zeta in Hx. destruct Hx as (results & _ & _ & _ & Hw). specialize (Hw 10).
  revert Hok Hw. destruct (verified 10) as [[rs' cv']|]; [|discriminate]. intros _ Hw. destruct (Hw rs' cv' eq_refl) as [Hc Hp].
  split; [exact Hc|]. apply Hp. vm_compute. discriminate.
Defined.

(** The log that has compacted itself, with a publication of the ledger that is
    gone and in no record. *)
#[local] Abbreviation compacted_log := (loadDestructionState io_ok (rn_disk (run_list (destruction_step (keep 2)) destruction_start sample_destructions)) (keep 2)).

Definition ledger_of (ids : list Z) : ledgerState :=
  MkLedgerState (list_to_map (map (fun id => (id, MkLedgerEntry id "" 0 "" "2026-01-09T00:00:00Z" None)) ids)) [] ∅ (Z.of_nat (length ids)).

#[local] Abbreviation census_known := (knownPublications (Ok (ledger_of [3; 88])) (Ok []) None
  (all_manifests named_manifest None readable three_snapshots)).

Example census_assertable_witness :
  match compacted_log, census_known, diskPublications named_manifest None readable three_snapshots with
  | Ok st, Ok existed, Ok present =>
      2 < lw_Min (dst_window st) /\ dv_Unaccounted (reconcile_destruction st existed present) = [] /\
      dv_NotAssertable (reconcile_destruction st existed present) = [88] /\
      dv_Unaccounted (reconcile_destruction empty_destruction existed present) = [88]
  | _, _, _ => False
  end.
Proof.
  assert (Hf : match compacted_log, census_known, diskPublications named_manifest None readable three_snapshots with
    | Ok st, Ok existed, Ok present => (2 <? lw_Min (dst_window st)) = true /\ dv_NotAssertable (reconcile_destruction st existed present) = [88] /\
        dv_Unaccounted (reconcile_destruction empty_destruction existed present) = [88]
    | _, _, _ => False end) by (vm_compute; repeat split).
  pose proof (fun existed present st => census_assertable named_manifest None readable three_snapshots (Ok (ledger_of [3; 88])) (Ok []) None existed present st) as Hx.
  revert Hf Hx. generalize compacted_log census_known (diskPublications named_manifest None readable three_snapshots).
  intros [st|] [existed|] [present|]; try contradiction. intros (Hm & Hn & Hu) Hx. apply Z.ltb_lt in Hm.
  split; [exact Hm|]. split; [|by split]. specialize (Hx existed present st eq_refl eq_refl).
  destruct (Z.leb_spec (lw_Min (dst_window st)) 1) as [Hl|Hl]; [lia|exact Hx].
Defined.

(** *** A format declared twice hides a file

    The files that no format declares are looked for only when there are more
    files than declarations. *)
Definition declared_twice (s : string) : result error snapshotManifest :=
  match named_manifest s with
  | Ok m =>
      match m_Formats m with
      | json :: _ => Ok (MkManifest 2 (m_PublicationID m) (m_Snapshot m) (m_ExportedAt m) (m_GeneratedAt m) (m_Source m) false seqContinuityValue 1 2 2
          [json; json] None None)
      | [] => Ok m
      end
  | Err e => Err e
  end.

Example undeclared_hidden :
  let dir := sample_dir [("alert-transitions-20260101T000000Z.manifest.json", "20260101T000000Z#7"); ("alert-transitions-20260101T000000Z.json", "[]");
    ("alert-transitions-20260101T000000Z.csv", "anything")] in
  match VerifySnapshots declared_twice None readable dir None None (Ok empty_ledger) 10 with
  | Ok rs => map (fun r => (vr_Status r, vr_ExtraFiles r)) rs = [(verifyStatusOK, [])]
  | Err _ => False
  end.
Proof. vm_compute. reflexivity. Qed.
