(* ===== verification/Acceptance.v ===== *)
(** * The acceptance ledger (internal/controlplane/server/snapshot_acceptance.go)

    Every durable append of the alert-transition file is also recorded in a
    signed, chained, append-only ledger; reconciling the two tells whether a
    retained record was changed, removed or slipped in. The loader that verifies
    the whole ledger, the recorder with its cached tail, the reconciliation, and
    the store with the recorder installed. *)

From Stdlib Require Import Ascii.
From S2P Require Import Prelude GoStrings Manifest AppendLog Ledger SignedLog.

(** ** Data *)

Record acceptanceEntry : Type := MkAcceptance {
  ae_V : Z;
  ae_EntrySeq : Z;
  ae_RecordSeq : Z;
  ae_RecordDigest : string;
  ae_RecordedAt : string;
  ae_AuthorityKeyID : string;
  ae_PrevEntryDigest : string;
  ae_EntryDigest : string;
  ae_Signature : option signatureBlock }.

Record acceptanceSigned : Type := MkAcceptanceSigned {
  as_V : Z;
  as_EntrySeq : Z;
  as_RecordSeq : Z;
  as_RecordDigest : string;
  as_RecordedAt : string;
  as_AuthorityKeyID : string;
  as_PrevEntryDigest : string }.

Definition acceptanceSignedFields (e : acceptanceEntry) : acceptanceSigned :=
  MkAcceptanceSigned (ae_V e) (ae_EntrySeq e) (ae_RecordSeq e) (ae_RecordDigest e) (ae_RecordedAt e) (ae_AuthorityKeyID e) (ae_PrevEntryDigest e).

Definition acceptance_utf8 (e : acceptanceEntry) : bool :=
  ValidString (ae_RecordDigest e) && ValidString (ae_RecordedAt e) && ValidString (ae_AuthorityKeyID e) &&
  ValidString (ae_PrevEntryDigest e) && ValidString (ae_EntryDigest e) && from_option signature_utf8 true (ae_Signature e).

(** The JSON of an entry and of its signed fields. *)
Class AcceptanceCodec := {
  signed_json : acceptanceSigned -> string;
  acceptance_lines :: LineCodec acceptanceEntry acceptance_utf8 }.

Definition acceptanceVerdictConflict : string := "conflict".
Definition destructionVerdictChainBroken : string := "chain_broken".

Section Recording.
Context `{ManifestCrypto} `{AcceptanceCodec}.

Definition canonicalAcceptancePayload (e : acceptanceEntry) : string := signed_json (acceptanceSignedFields e).
Definition acceptanceEntryDigest (e : acceptanceEntry) : string := hex_EncodeToString (Sum256 (canonicalAcceptancePayload e)).
Definition acceptanceDigestOfLine (line : string) : string := hex_EncodeToString (Sum256 line).
Definition serializeAcceptanceEntryBytes (e : acceptanceEntry) : string := serialize e.

Definition acceptanceGroupOf : string -> Z * bool := groupOf ae_EntrySeq.

(** ** Signatures *)

Definition with_acceptance_signature (e : acceptanceEntry) (s : option signatureBlock) : acceptanceEntry :=
  MkAcceptance (ae_V e) (ae_EntrySeq e) (ae_RecordSeq e) (ae_RecordDigest e) (ae_RecordedAt e) (ae_AuthorityKeyID e)
    (ae_PrevEntryDigest e) (ae_EntryDigest e) s.

Definition signAcceptanceEntry (s : option exportSigner) (e : acceptanceEntry) (at_ : string) : result error acceptanceEntry :=
  match sign_block "acceptance: no key-authority (KAK) private key configured" "acceptance: private key is not a valid Ed25519 key" s
          (canonicalAcceptancePayload e) at_ with
  | Err err => Err err
  | Ok sb => Ok (with_acceptance_signature e (Some sb))
  end.

Definition verifyAcceptanceEntrySignature (e : acceptanceEntry) (trust : option exportTrustStore) : SignatureVerdict :=
  verify_block "acceptance" "entry" (ae_AuthorityKeyID e) (ae_AuthorityKeyID e) (canonicalAcceptancePayload e) (ae_Signature e) trust.

Definition entry_signed (ka : keyAuthority) (e : acceptanceEntry) : bool :=
  String.eqb (sv_Verdict (verifyAcceptanceEntrySignature e (ka_trust ka))) sigVerdictOK.
Definition entry_sealed (e : acceptanceEntry) : bool := String.eqb (acceptanceEntryDigest e) (ae_EntryDigest e).

(** ** Loading *)

Record acceptanceProblem : Type := MkAcceptanceProblem { ap_EntrySeq : Z; ap_Verdict : string; ap_Detail : string }.

Record acceptanceState : Type := MkAcceptanceState {
  acs_entries : list acceptanceEntry;
  acs_window : logWindow;
  acs_verifiable : bool;
  acs_errs : list string;
  acs_problems : list acceptanceProblem;
  acs_total : Z }.

Definition empty_acceptance : acceptanceState := MkAcceptanceState [] (MkWindow 0 0 0 false) true [] [] 0.

Definition with_problem (st : acceptanceState) (e : acceptanceEntry) (verdict detail err : string) : acceptanceState :=
  MkAcceptanceState (acs_entries st) (acs_window st) false (acs_errs st ++ ["entry_seq " +:+ pretty (ae_EntrySeq e) +:+ ": " +:+ err])
    (acs_problems st ++ [MkAcceptanceProblem (ae_EntrySeq e) verdict detail]) (acs_total st).

(** One line of the loop: the state, the digest the next entry must name, the
    sequences seen, and whether it is the first line. *)
Definition load_acceptance_line (ka : keyAuthority) (acc : acceptanceState * string * gset Z * bool) (e : acceptanceEntry)
  : acceptanceState * string * gset Z * bool :=
  let '(st, prevDigest, seen, first) := acc in
  let st := MkAcceptanceState (acs_entries st) (acs_window st) (acs_verifiable st) (acs_errs st) (acs_problems st) (acs_total st + 1) in
  if decide (ae_EntrySeq e ∈ seen) then
    (with_problem st e acceptanceVerdictConflict
       "a second line for the same entry_seq is a conflict (an acceptance entry is a fact, not a state)"
       "a second line for the same entry_seq is a conflict", "", seen, false)
  else
    let seen := {[ ae_EntrySeq e ]} ∪ seen in
    let v := verifyAcceptanceEntrySignature e (ka_trust ka) in
    if negb (entry_signed ka e) then
      (with_problem st e (sv_Verdict v) (sv_Detail v) (sv_Verdict v +:+ " (" +:+ sv_Detail v +:+ ")"), "", seen, false)
    else if negb (entry_sealed e) then
      (with_problem st e destructionVerdictChainBroken "entry_digest does not match its canonical payload"
         "entry_digest does not match its canonical payload", "", seen, false)
    else if negb first && negb (String.eqb (ae_PrevEntryDigest e) prevDigest) then
      (with_problem st e destructionVerdictChainBroken "prev_entry_digest breaks the hash chain" "prev_entry_digest breaks the hash chain",
       "", seen, false)
    else
      (MkAcceptanceState (acs_entries st ++ [e]) (acs_window st) (acs_verifiable st) (acs_errs st) (acs_problems st) (acs_total st),
       ae_EntryDigest e, seen, false).

Definition ErrUnusableTrust : error := "acceptance: the ledger cannot be verified (no usable KAK trust anchor)".

Definition unclassifiable (lines : list logLine) : error := pretty (countUnclassified lines) +:+ " unclassifiable line(s)".

Definition loadAcceptanceState (io : LogIO) (d : LogDisk) (ka : option keyAuthority) : result error acceptanceState :=
  match ka with
  | Some k =>
      if negb (ka_verifiable ka) then Err ErrUnusableTrust
      else match readLogLines io acceptanceGroupOf d with
        | Err e => Err e
        | Ok (lines, ok) =>
            if negb ok then Err ("acceptance ledger holds " +:+ unclassifiable lines +:+ "; refusing to evaluate it")
            else match decode_lines lines with
              | None => Err "acceptance line is not readable"
              | Some [] => Ok empty_acceptance
              | Some es =>
                  let '(st, _, _, _) := run_list (load_acceptance_line k) (empty_acceptance, "", ∅, true) es in
                  let w := window_of (map ae_EntrySeq es) in
                  Ok (if lw_Continuous w
                      then MkAcceptanceState (acs_entries st) w (acs_verifiable st) (acs_errs st) (acs_problems st) (acs_total st)
                      else MkAcceptanceState (acs_entries st) w false
                             (acs_errs st ++ ["window_discontinuous: the surviving entry_seq run has a hole — the ledger cannot be trusted"])
                             (acs_problems st) (acs_total st))
              end
        end
  | None => Err ErrUnusableTrust
  end.

(** ** Recording *)

Record acceptanceTailState : Type := MkTail {
  tl_valid : bool;
  tl_size : Z;
  tl_prevDigest : string;
  tl_maxEntry : Z;
  tl_entries : Z }.

Record acceptanceRecorder : Type := MkRecorder {
  ar_capacity : Z;
  ar_ka : option keyAuthority;
  ar_tail : acceptanceTailState }.

(** A process starts without a tail. *)
Definition newRecorder (capacity : Z) (ka : option keyAuthority) : acceptanceRecorder :=
  MkRecorder capacity ka (MkTail false 0 "" 0 0).

Definition with_tail (a : acceptanceRecorder) (t : acceptanceTailState) : acceptanceRecorder := MkRecorder (ar_capacity a) (ar_ka a) t.

Definition refuse (e : acceptanceEntry) (why : string) : error :=
  "acceptance: refusing to append — entry_seq " +:+ pretty (ae_EntrySeq e) +:+ " " +:+ why.
Definition refuse_suffix (e : acceptanceEntry) (why : string) : error :=
  "acceptance: refusing to append — suffix entry_seq " +:+ pretty (ae_EntrySeq e) +:+ " " +:+ why.
Definition unsigned_text (ka : keyAuthority) (e : acceptanceEntry) : string :=
  let v := verifyAcceptanceEntrySignature e (ka_trust ka) in "is " +:+ sv_Verdict v +:+ " (" +:+ sv_Detail v +:+ ")".

(** The walk of a full read: the digest, the greatest sequence, the count. *)
Definition full_line (ka : keyAuthority) (acc : result error (string * Z * gset Z * bool)) (e : acceptanceEntry)
  : result error (string * Z * gset Z * bool) :=
  match acc with
  | Err err => Err err
  | Ok (prev, maxEntry, seen, first) =>
      if decide (ae_EntrySeq e ∈ seen) then Err (refuse e "already carries a second line (conflict)")
      else if negb (entry_signed ka e) then Err (refuse e (unsigned_text ka e))
      else if negb (entry_sealed e) then Err (refuse e "entry_digest does not match its canonical payload")
      else if negb first && negb (String.eqb (ae_PrevEntryDigest e) prev) then Err (refuse e "breaks the hash chain")
      else Ok (ae_EntryDigest e, Z.max maxEntry (ae_EntrySeq e), {[ ae_EntrySeq e ]} ∪ seen, false)
  end.

(** The walk of a suffix. *)
Definition suffix_line (ka : keyAuthority) (acc : result error (string * Z * Z * bool)) (raw : string) : result error (string * Z * Z * bool) :=
  match acc with
  | Err err => Err err
  | Ok (prev, maxEntry, entries, first) =>
      match line_decode raw with
      | None => Err "acceptance: refusing to append — suffix line is not readable; the ledger stays byte-identical"
      | Some e =>
          if ae_EntrySeq e <=? maxEntry then Err (refuse_suffix e "already exists (conflict)")
          else if negb (entry_signed ka e) then Err (refuse_suffix e (unsigned_text ka e))
          else if negb (entry_sealed e) then Err (refuse_suffix e "entry_digest does not match its canonical payload")
          else if negb first && negb (String.eqb (ae_PrevEntryDigest e) prev) then Err (refuse_suffix e "breaks the hash chain")
          else Ok (ae_EntryDigest e, ae_EntrySeq e, entries + 1, false)
      end
  end.

(** The failures of a record: of its three stats, of the suffix's reading, and
    of the log operations. *)
Record RecordIO : Type := MkRecordIO {
  rio_stat : option error;
  rio_suffix : option error;
  rio_read : LogIO;
  rio_compact : LogIO;
  rio_stat2 : bool;
  rio_append : LogIO;
  rio_stat3 : bool }.

Definition verifySuffix (io : option error) (ka : keyAuthority) (t : acceptanceTailState) (d : LogDisk) : result error (string * Z * Z) :=
  match io with
  | Some e => Err e
  | None =>
      match scan_lines (drop_bytes (Z.to_nat (tl_size t)) (default "" (lf_data <$> ld_log d))) with
      | Err e => Err e
      | Ok pieces =>
          match run_list (suffix_line ka) (Ok (tl_prevDigest t, tl_maxEntry t, tl_entries t, tl_entries t =? 0))
                  (List.filter (fun x => negb (String.eqb x "")) (map TrimSpace pieces)) with
          | Err e => Err e
          | Ok (prev, maxEntry, entries, _) => Ok (prev, maxEntry, entries)
          end
      end
  end.

Definition full_read (io : LogIO) (ka : keyAuthority) (d : LogDisk) : result error (string * Z * Z) :=
  match readLogLines io acceptanceGroupOf d with
  | Err e => Err e
  | Ok (lines, ok) =>
      if negb ok then Err ("acceptance: ledger holds " +:+ unclassifiable lines +:+ "; refusing to append")
      else match decode_lines lines with
        | None => Err "acceptance line is not readable"
        | Some es =>
            match run_list (full_line ka) (Ok ("", 0, ∅, true)) es with
            | Err e => Err e
            | Ok (prev, maxEntry, seen, _) => Ok (prev, maxEntry, Z.of_nat (size seen))
            end
        end
  end.

(** The tail that the next entry continues: nothing of a missing file, the
    cached one of a file of the cached size, the cached one and the new lines of a
    file that has grown, a full read otherwise. *)
Definition read_tail (io : RecordIO) (ka : keyAuthority) (t : acceptanceTailState) (d : LogDisk)
  : acceptanceTailState * result error (string * Z * Z) :=
  match rio_stat io with
  | Some e => (t, Err e)
  | None =>
      match ld_log d with
      | None => (MkTail true 0 "" 0 0, Ok ("", 0, 0))
      | Some _ =>
          let size := log_size d in
          if tl_valid t && (size =? tl_size t) then (t, Ok (tl_prevDigest t, tl_maxEntry t, tl_entries t))
          else if tl_valid t && (tl_size t <? size) then
            match verifySuffix (rio_suffix io) ka t d with
            | Err e => (t, Err e)
            | Ok r => (MkTail true size (tl_prevDigest t) (tl_maxEntry t) (tl_entries t), Ok r)
            end
          else match full_read (rio_read io) ka d with
            | Err e => (t, Err e)
            | Ok (prev, maxEntry, entries) => (MkTail true size prev maxEntry entries, Ok (prev, maxEntry, entries))
            end
      end
  end.

(** The times the two readings of the clock give. *)
Record RecordTimes : Type := MkTimes { rt_recorded : string; rt_signed : string }.

Definition new_entry (ka : keyAuthority) (keyID : string) (times : RecordTimes) (maxEntry : Z) (prev : string) (seq : Z) (line : string)
  : acceptanceEntry :=
  let e := MkAcceptance 1 (wrap64 (maxEntry + 1)) seq (acceptanceDigestOfLine line) (rt_recorded times) keyID prev "" None in
  MkAcceptance (ae_V e) (ae_EntrySeq e) (ae_RecordSeq e) (ae_RecordDigest e) (ae_RecordedAt e) (ae_AuthorityKeyID e) (ae_PrevEntryDigest e)
    (acceptanceEntryDigest e) None.

(** The rotation before an append (I7): a ledger at its capacity drops its
    oldest entries or refuses. It answers the states, the tail, the count. *)
Definition acceptance_rotate {W} (observe : option (compactionObserver W)) (io : RecordIO) (cap : Z) (t : acceptanceTailState)
    (d : LogDisk) (w : W) (entries : Z) : list LogDisk * acceptanceTailState * W * Z * option error :=
  if (0 <? cap) && (cap <? entries + 1) then
    let keep := cap - 1 in
    if keep <=? 0 then
      ([], t, w, entries, Some ("acceptance: capacity " +:+ pretty cap +:+
         " cannot rotate (the shared compaction primitive always keeps at least one group); refusing the new entry (I7)"))
    else match compactLogPrefixGroupsObserved (rio_compact io) d w keep acceptanceGroupOf observe with
      | (states, w, Some e) =>
          (states, t, w, entries, Some ("acceptance: compaction refused (" +:+ e +:+
             ") — new acceptance entries are refused until accounting recovers (I7)"))
      | (states, w, None) =>
          (states, MkTail (tl_valid t) (if rio_stat2 io then log_size (final d states) else tl_size t) (tl_prevDigest t) (tl_maxEntry t) keep,
           w, keep, None)
      end
  else ([], t, w, entries, None).

(** The entry itself: built, sealed, signed, appended; the tail follows. *)
Definition acceptance_append {W} (onAnchor : W -> acceptanceEntry -> W) (io : RecordIO) (times : RecordTimes) (ka : keyAuthority)
    (signer : exportSigner) (a : acceptanceRecorder) (d : LogDisk) (w : W) (prev : string) (maxEntry entries seq : Z) (line : string)
  : list LogDisk * acceptanceRecorder * W * option error :=
  match signAcceptanceEntry (Some signer) (new_entry ka (es_keyID signer) times maxEntry prev seq line) (rt_signed times) with
  | Err err => ([], a, w, Some err)
  | Ok e =>
      match appendLogLine (rio_append io) d (serializeAcceptanceEntryBytes e) with
      | (states, Some err) => (states, a, w, Some err)
      | (states, None) =>
          let size := if rio_stat3 io then log_size (final d states) else tl_size (ar_tail a) in
          (states, with_tail a (MkTail true size (ae_EntryDigest e) (ae_EntrySeq e) (entries + 1)), onAnchor w e, None)
      end
  end.

(** [record]; it answers the states of the directory, the recorder, the world of
    the scheduler's closures [observe] and [onAnchor], and the error. *)
Definition acceptance_record {W} (observe : option (compactionObserver W)) (onAnchor : W -> acceptanceEntry -> W)
    (io : RecordIO) (times : RecordTimes) (a : acceptanceRecorder) (d : LogDisk) (w : W) (seq : Z) (line : string)
  : list LogDisk * acceptanceRecorder * W * option error :=
  match ar_ka a with
  | Some (MkKeyAuthority (Some signer) (Some trust) as ka) =>
      match read_tail io ka (ar_tail a) d with
      | (t, Err e) => ([], with_tail a t, w, Some e)
      | (t, Ok (prev, maxEntry, entries)) =>
          match acceptance_rotate observe io (ar_capacity a) t d w entries with
          | (states, t, w, _, Some e) => (states, with_tail a t, w, Some e)
          | (states, t, w, entries, None) =>
              let '(states', a, w, err) :=
                acceptance_append onAnchor io times ka signer (with_tail a t) (final d states) w prev maxEntry entries seq line in
              (states ++ states', a, w, err)
          end
      end
  | _ => ([], a, w, Some "acceptance: no key-authority key configured (writes disabled)")
  end.

(** ** Entries the recorder makes *)

#[local] Abbreviation chain_of ka :=
  (chained ae_EntrySeq ae_PrevEntryDigest ae_EntryDigest (fun e => entry_signed ka e = true /\ entry_sealed e = true)).
#[local] Abbreviation last_digest := (last_digest ae_EntryDigest).
#[local] Abbreviation ledger_on := (log_on ae_EntrySeq).
#[local] Abbreviation disk_bytes := (disk_bytes ae_EntrySeq).

(** What a whole walk finds. *)
Lemma full_walk ka k es : chain_of ka k es ->
  run_list (full_line ka) (Ok ("", 0, ∅, true)) es =
    Ok (last_digest es, if bool_decide (es = []) then 0 else Z.of_nat (k + length es),
        list_to_set (map ae_EntrySeq es), bool_decide (es = [])).
Proof.
  induction es as [|e es IH] using rev_ind; intros Hc; [done|].
  destruct (chained_last _ _ _ _ _ _ _ Hc) as ([Hs Hd] & Hq & Hp). pose proof (chained_fresh _ _ _ _ _ _ _ Hc) as Hf.
  rewrite run_list_snoc, IH by by eapply chained_prefix. unfold full_line.
  rewrite decide_False by by rewrite elem_of_list_to_set. rewrite Hs, Hd. cbn [negb].
  rewrite (bool_decide_eq_false_2 (es ++ [e] = [])) by (by destruct es).
  assert (negb (bool_decide (es = [])) && negb (String.eqb (ae_PrevEntryDigest e) (last_digest es)) = false) as ->.
  { case_bool_decide; [done|]. by rewrite Hp, String.eqb_refl. }
  rewrite last_digest_snoc, map_app, list_to_set_app_L. cbn [map list_to_set].
  f_equal. rewrite !pair_equal_spec. rewrite length_app. cbn [length].
  split; [split; [split; [done|]|by rewrite union_empty_r_L, (comm_L (∪))]|done]. case_bool_decide; lia.
Qed.

Lemma load_walk ka k es : chain_of ka k es ->
  run_list (load_acceptance_line ka) (empty_acceptance, "", ∅, true) es =
    (MkAcceptanceState es (MkWindow 0 0 0 false) true [] [] (Z.of_nat (length es)), last_digest es,
     list_to_set (map ae_EntrySeq es), bool_decide (es = [])).
Proof.
  induction es as [|e es IH] using rev_ind; intros Hc; [done|].
  destruct (chained_last _ _ _ _ _ _ _ Hc) as ([Hs Hd] & Hq & Hp). pose proof (chained_fresh _ _ _ _ _ _ _ Hc) as Hf.
  rewrite run_list_snoc, IH by by eapply chained_prefix. unfold load_acceptance_line.
  rewrite decide_False by by rewrite elem_of_list_to_set. rewrite Hs, Hd. cbn [negb].
  rewrite (bool_decide_eq_false_2 (es ++ [e] = [])) by (by destruct es).
  assert (negb (bool_decide (es = [])) && negb (String.eqb (ae_PrevEntryDigest e) (last_digest es)) = false) as ->.
  { case_bool_decide; [done|]. by rewrite Hp, String.eqb_refl. }
  rewrite last_digest_snoc, map_app, list_to_set_app_L. cbn [map list_to_set].
  rewrite !pair_equal_spec. split; [split; [split; [|done]|by rewrite union_empty_r_L, (comm_L (∪))]|done].
  cbn [acs_entries acs_window acs_verifiable acs_errs acs_problems acs_total]. f_equal. rewrite length_app. cbn. lia.
Qed.

(** ** Histories of records *)

(** The closures of the scheduler, and the entries it has been given. *)
Definition observer_keeps {W} (collected : W -> list acceptanceEntry) (observe : option (compactionObserver W)) : Prop :=
  match observe with
  | None => True
  | Some o => forall w gs ls w' r, o w gs ls = (w', r) -> collected w' = collected w /\
      forall c, r = Ok (Some c) -> forall w1, collected (fst (c w1)) = collected w1
  end.

Lemma compaction_keeps {W} (collected : W -> list acceptanceEntry) observe io d w keep classify states w' err :
  observer_keeps collected observe ->
  compactLogPrefixGroupsObserved io d w keep classify observe = (states, w', err) -> collected w' = collected w.
Proof.
  intros Ho Hc. unfold compactLogPrefixGroupsObserved in Hc. destruct (keep <=? 0); [by simplify_eq|].
  destruct (readLogLines io classify d) as [[lines ok]|e0]; [|by simplify_eq]. destruct (negb ok); [by simplify_eq|].
  destruct (planLogPrefixDrop lines keep) as [drop kept]. destruct (_ =? _)%nat; [by simplify_eq|].
  set (dr := dropped_lines drop lines) in *.
  destruct observe as [o|].
  - destruct (o w (group_order ∅ dr) dr) as [w1 r] eqn:Eo. destruct (Ho _ _ _ _ _ Eo) as [Hw Hcp].
    destruct r as [complete|e1]; [|by simplify_eq]. destruct (rewriteLogLines io d kept) as [st [e2|]]; [by simplify_eq|].
    destruct complete as [c|]; [|by simplify_eq]. pose proof (Hcp c eq_refl w1) as Hc1. destruct (c w1). simplify_eq/=. congruence.
  - destruct (rewriteLogLines io d kept) as [st [e2|]]; by simplify_eq.
Qed.

Section Histories.
Context (signer : exportSigner) (trust : exportTrustStore) (cap : Z).
Context {W : Type} (observe : option (compactionObserver W)) (onAnchor : W -> acceptanceEntry -> W) (collected : W -> list acceptanceEntry).
Hypothesis trusted : ts_keys trust !! es_keyID signer = Some (Public (es_priv signer)).
Hypothesis key_named : es_keyID signer <> "".
Hypothesis collects : forall w e, collected (onAnchor w e) = collected w ++ [e].
Hypothesis observes : observer_keeps collected observe.

Let ka : keyAuthority := MkKeyAuthority (Some signer) (Some trust).

Lemma made_entry times maxEntry prev seq line at_ e :
  at_ <> "" -> signAcceptanceEntry (Some signer) (new_entry ka (es_keyID signer) times maxEntry prev seq line) at_ = Ok e ->
  entry_signed ka e = true /\ entry_sealed e = true /\ ae_EntrySeq e = wrap64 (maxEntry + 1) /\ ae_PrevEntryDigest e = prev /\
  ae_RecordSeq e = seq /\ ae_RecordDigest e = acceptanceDigestOfLine line.
Proof using trusted key_named.
  intros Hat. unfold signAcceptanceEntry. destruct (sign_block _ _ _ _ _) as [sb|] eqn:Es; [|done]. intros [= <-].
  split; [|split; [by unfold entry_sealed; rewrite String.eqb_refl|done]].
  unfold entry_signed, verifyAcceptanceEntrySignature. cbn [with_acceptance_signature ae_Signature new_entry ae_AuthorityKeyID ka_trust ka].
  by rewrite (sign_verifies _ _ _ _ _ _ _ _ _ _ Es trusted key_named Hat).
Qed.

(** What a record keeps true, where [h] is every entry given so far and the
    ledger has dropped its first [k]. *)
Record rec_inv (k : nat) (h : list acceptanceEntry) (a : acceptanceRecorder) (d : LogDisk) : Prop := MkRecInv {
  rv_chain : chain_of ka 0 h;
  rv_k : (k <= length h)%nat /\ (h <> [] -> (k < length h)%nat);
  rv_free : cap <= 0 -> k = 0%nat;
  rv_cap : 0 < cap -> Z.of_nat (length h - k) <= cap /\ (k = 0%nat \/ cap - 1 <= Z.of_nat (length h - k));
  rv_disk : ledger_on d (drop k h);
  rv_rec : ar_ka a = Some ka /\ ar_capacity a = cap }.

Definition tail_of (k : nat) (h : list acceptanceEntry) (d : LogDisk) : acceptanceTailState :=
  MkTail true (log_size d) (last_digest h) (Z.of_nat (length h)) (Z.of_nat (length h - k)).

(** A tail that is valid is exact, or is of a file that has shrunk since. *)
Definition tail_inv (k : nat) (h : list acceptanceEntry) (a : acceptanceRecorder) (d : LogDisk) : Prop :=
  tl_valid (ar_tail a) = true -> log_size d < tl_size (ar_tail a) \/ ar_tail a = tail_of k h d.

Lemma full_read_exact io k h d :
  chain_of ka 0 h -> ledger_on d (drop k h) -> (h = [] /\ k = 0 \/ k < length h)%nat -> io_read io = None ->
  full_read io ka d = Ok (last_digest h, Z.of_nat (length h), Z.of_nat (length h - k)).
Proof.
  intros Hc Hd Hk Hio. pose proof (chained_drop _ _ _ _ _ k _ Hc) as Hcd. cbn [Nat.add] in Hcd. unfold full_read, acceptanceGroupOf.
  rewrite (log_on_read _ _ _ _ Hd Hio). cbn [negb]. rewrite (proj2 (proj2 (proj2 (entry_lines _ _ (lo_fits _ _ _ Hd))))).
  rewrite (full_walk _ _ _ Hcd), (ch_seqs _ _ _ _ _ _ Hcd), size_list_to_set by (apply (NoDup_fmap_2 Z.of_nat), NoDup_seq).
  rewrite length_map, length_seq, length_drop. destruct Hk as [[-> ->]|Hk]; [done|].
  rewrite bool_decide_eq_false_2, last_digest_drop; [|done|].
  - do 3 f_equal. lia.
  - intros E. apply (f_equal length) in E. rewrite length_drop in E. cbn in E. lia.
Qed.

Lemma kept_some k h a d : rec_inv k h a d -> (h = [] /\ k = 0 \/ k < length h)%nat.
Proof. intros [_ [Hk Hk'] _ _ _ _]. destruct h as [|x h]; [left; cbn in Hk; split; [done|lia]|right; by apply Hk']. Qed.

(** Reading the tail finds the truth, however much is cached. *)
Lemma read_tail_exact k h a d io :
  rec_inv k h a d -> tail_inv k h a d ->
  (exists e, read_tail io ka (ar_tail a) d = (ar_tail a, Err e)) /\ (rio_stat io <> None \/ io_read (rio_read io) <> None) \/
  read_tail io ka (ar_tail a) d = (tail_of k h d, Ok (last_digest h, Z.of_nat (length h), Z.of_nat (length h - k))).
Proof.
  intros Hi Ht. pose proof (kept_some _ _ _ _ Hi) as Hk. pose proof Hi as [Hc _ _ _ Hd _].
  unfold read_tail. destruct (rio_stat io) as [e|]; [left; by split; [exists e|left]|].
  destruct (log_on_log _ _ _ Hd) as [[Hl Hn]|Hl]; rewrite Hl.
  { destruct Hk as [[-> ->]|Hk]; [|apply (f_equal length) in Hn; rewrite length_drop in Hn; cbn in Hn; lia].
    right. unfold tail_of, log_size. by rewrite Hl. }
  assert (Hfull : let r := match full_read (rio_read io) ka d with
      | Err e => (ar_tail a, Err e)
      | Ok (prev, maxEntry, entries) => (MkTail true (log_size d) prev maxEntry entries, Ok (prev, maxEntry, entries))
      end in (exists e, r = (ar_tail a, Err e)) /\ (@None error <> None \/ io_read (rio_read io) <> None) \/
      r = (tail_of k h d, Ok (last_digest h, Z.of_nat (length h), Z.of_nat (length h - k)))).
  { cbv zeta. destruct (io_read (rio_read io)) as [e|] eqn:Er; [left|right; by rewrite (full_read_exact _ _ _ _ Hc Hd Hk Er)].
    unfold full_read, readLogLines. rewrite Hl, Er. split; [by eexists|by right]. }
  destruct (tl_valid (ar_tail a)) eqn:Ev; cbn [andb]; [|exact Hfull]. destruct (Ht Ev) as [Hlt|Hx].
  - rewrite (proj2 (Z.eqb_neq _ _)), (proj2 (Z.ltb_ge _ _)) by lia. exact Hfull.
  - right. rewrite Hx. cbn [tail_of tl_size tl_prevDigest tl_maxEntry tl_entries]. by rewrite Z.eqb_refl.
Qed.

(** An unsuccessful write gets nothing through; the stats after the writes
    succeed. *)
Definition whole_record (io : RecordIO) (times : RecordTimes) : Prop :=
  clean_io (rio_append io) /\ rio_stat2 io = true /\ rio_stat3 io = true /\ rt_signed times <> "".

Lemma rec_inv_tail k h a d t : rec_inv k h a d -> rec_inv k h (with_tail a t) d.
Proof. by intros []. Qed.

Lemma rotate_step k h a d w io states t w' entries err :
  rec_inv k h a d -> rio_stat2 io = true ->
  acceptance_rotate observe io cap (tail_of k h d) d w (Z.of_nat (length h - k)) = (states, t, w', entries, err) ->
  collected w' = collected w /\ exists k', (k <= k')%nat /\ rec_inv k' h a (final d states) /\ tail_inv k' h (with_tail a t) (final d states) /\
  (err = None -> t = tail_of k' h (final d states) /\ entries = Z.of_nat (length h - k') /\ (0 < cap -> Z.of_nat (length h - k') < cap)).
Proof using observes.
  intros Hi Hs2 Hr. pose proof Hi as [Hc [Hk Hk'] Hfree Hcap Hd Hrec]. unfold acceptance_rotate in Hr.
  assert (Hsame : tail_inv k h (with_tail a (tail_of k h d)) d) by (intros _; by right).
  destruct (Z.ltb_spec 0 cap) as [Hp|Hp]; cbn [andb] in Hr;
    [destruct (Z.ltb_spec cap (Z.of_nat (length h - k) + 1)) as [Hx|Hx]|].
  2,3: simplify_eq; split; [done|]; exists k; do 3 (split; [done|]); intros _; do 2 (split; [done|]); lia.
  destruct (Z.leb_spec (cap - 1) 0); [simplify_eq; split; [done|]; by exists k|].
  destruct (compactLogPrefixGroupsObserved _ _ _ _ _ _) as [[st w1] e1] eqn:E.
  assert (states = st /\ w' = w1) as [-> ->] by (by destruct e1; simplify_eq).
  split; [by eapply compaction_keeps|]. pose proof (chained_drop _ _ _ _ _ k _ Hc) as Hcd.
  destruct (log_on_compact ae_EntrySeq _ _ _ _ _ _ _ _ _ Hd (chained_nodup _ _ _ _ _ _ Hcd) ltac:(done) E) as [[Hd' He]|Hd'].
  - destruct e1 as [e1|]; [|specialize (He eq_refl); rewrite length_drop in He; lia]. simplify_eq. exists k. split; [done|]. split; [by split|]. split; [|done].
    intros _. right. cbn [with_tail ar_tail]. unfold tail_of. by rewrite (log_on_size _ _ _ Hd), (log_on_size _ _ _ Hd').
  - destruct (Hcap Hp) as [Hle _]. set (k' := (length h - Z.to_nat (cap - 1))%nat).
    assert (Hlast : lastn (Z.to_nat (cap - 1)) (drop k h) = drop k' h).
    { unfold lastn, k'. rewrite drop_drop, length_drop. f_equal. lia. }
    rewrite Hlast in Hd'. assert (Hlen : Z.of_nat (length h - k') = cap - 1) by (unfold k'; lia). exists k'.
    split; [lia|]. split; [split; try done; [split; [lia|intros _; lia]|lia|intros _; lia]|].
    destruct e1 as [e1|]; simplify_eq.
    + split; [|done]. intros _. left. cbn [with_tail ar_tail tail_of tl_size]. rewrite (log_on_size _ _ _ Hd), (log_on_size _ _ _ Hd').
      assert (Hsplit : drop k h = take (k' - k) (drop k h) ++ drop k' h).
      { rewrite <- (take_drop (k' - k) (drop k h)) at 1. rewrite drop_drop. do 2 f_equal. lia. }
      rewrite Hsplit, disk_bytes_app, string_length_app.
      assert (Hne : take (k' - k) (drop k h) <> []) by (intros E0; apply (f_equal length) in E0; rewrite length_take, length_drop in E0; cbn in E0; lia).
      pose proof (disk_bytes_pos ae_EntrySeq _ Hne). lia.
    + rewrite Hs2. assert (Ht : MkTail (tl_valid (tail_of k h d)) (log_size (final d st)) (tl_prevDigest (tail_of k h d))
        (tl_maxEntry (tail_of k h d)) (cap - 1) = tail_of k' h (final d st)) by (unfold tail_of; cbn; by rewrite Hlen).
      rewrite Ht. split; [intros _; by right|]. intros _. do 2 (split; [done|]). lia.
Qed.

Lemma append_step k h a d w io times states a' w' seq line err :
  rec_inv k h a d -> ar_tail a = tail_of k h d -> (0 < cap -> Z.of_nat (length h - k) < cap) -> whole_record io times ->
  collected w = h -> Z.of_nat (length h) < max_int64 ->
  acceptance_append onAnchor io times ka signer a d w (last_digest h) (Z.of_nat (length h)) (Z.of_nat (length h - k)) seq line =
    (states, a', w', err) -> Forall fits (collected w') ->
  rec_inv k (collected w') a' (final d states) /\ tail_inv k (collected w') a' (final d states) /\
  match err with
  | Some _ => collected w' = h
  | None => exists e, collected w' = h ++ [e] /\ ae_RecordSeq e = seq /\ ae_RecordDigest e = acceptanceDigestOfLine line
  end.
Proof using trusted key_named collects.
  intros Hi Ht Hroom (Hio & _ & Hs3 & Hat) Hw Hlen Ha Hfit. pose proof Hi as [Hc [Hk Hk'] Hfree Hcap Hd Hrec].
  unfold acceptance_append in Ha.
  destruct (signAcceptanceEntry _ _ _) as [e|er] eqn:Es; [|simplify_eq; by split; [|split; [intros _; right|]]].
  destruct (made_entry _ _ _ _ _ _ _ Hat Es) as (Hsg & Hse & Hq & Hp & Hrs & Hrd).
  rewrite wrap64_id in Hq by (unfold in_int64, min_int64, max_int64 in *; lia).
  destruct (appendLogLine _ _ _) as [st er] eqn:Eap. pose proof (log_on_append ae_EntrySeq _ _ _ _ _ _ Hd Hio Eap) as Hd'.
  destruct er as [er|].
  - simplify_eq. split; [by split|]. split; [|done]. intros _. right. rewrite Ht. unfold tail_of.
    by rewrite (log_on_size _ _ _ Hd), (log_on_size _ _ _ Hd').
  - simplify_eq. rewrite collects in Hfit |- *. set (h := collected w) in *. apply Forall_app in Hfit as [_ Hf]. apply Forall_cons in Hf as [Hf _].
    specialize (Hd' Hf). rewrite Hs3.
    assert (Hdrop : drop k h ++ [e] = drop k (h ++ [e])) by by rewrite drop_app_le.
    rewrite Hdrop in Hd'. assert (Hl : length (h ++ [e]) = S (length h)) by (rewrite length_app; cbn; lia).
    split; [|split; [|by exists e]].
    + split; rewrite ?Hl; [|split; [lia|intros _; lia]|done|lia|done|done].
      apply chained_snoc; [done..|cbn; lia|done].
    + intros _. right. cbn [with_tail ar_tail]. unfold tail_of. rewrite last_digest_snoc, Hq, Hl. f_equal; lia.
Qed.

Lemma record_step k h a d w io times states a' w' seq line err :
  rec_inv k h a d -> tail_inv k h a d -> whole_record io times -> collected w = h -> Z.of_nat (length h) < max_int64 ->
  acceptance_record observe onAnchor io times a d w seq line = (states, a', w', err) -> Forall fits (collected w') ->
  exists k', (k <= k')%nat /\ rec_inv k' (collected w') a' (final d states) /\ tail_inv k' (collected w') a' (final d states) /\
  match err with
  | Some _ => collected w' = h
  | None => exists e, collected w' = h ++ [e] /\ ae_RecordSeq e = seq /\ ae_RecordDigest e = acceptanceDigestOfLine line
  end.
Proof using trusted key_named collects observes.
  intros Hi Ht Hwhole Hw Hlen Ha Hfit. unfold acceptance_record in Ha. destruct (rv_rec _ _ _ _ Hi) as [Hka Hcap]. rewrite Hka in Ha.
  cbv zeta iota beta delta [ka] in Ha. fold ka in Ha. rewrite Hcap in Ha.
  destruct (read_tail_exact k h a d io Hi Ht) as [[[e E] _]|E]; rewrite E in Ha.
  { simplify_eq. exists k. split; [done|]. split; [by apply rec_inv_tail|]. split; [exact Ht|done]. }
  destruct (acceptance_rotate _ _ _ _ _ _ _) as [[[[st t] w1] entries] er] eqn:Er.
  destruct (rotate_step _ _ _ _ _ _ _ _ _ _ _ Hi ltac:(by destruct Hwhole as (_ & ? & _)) Er) as (Hw1 & k1 & Hk1 & Hi1 & Ht1 & Hok).
  destruct er as [er|].
  { simplify_eq. rewrite Hw1. exists k1. split; [done|]. split; [by apply rec_inv_tail|]. by split. }
  destruct (Hok eq_refl) as (-> & -> & Hroom).
  destruct (acceptance_append _ _ _ _ _ _ _ _ _ _ _ _ _) as [[[st' a2] w2] er2] eqn:Ea. injection Ha as <- <- <- <-.
  exists k1. split; [done|]. unfold final in *. rewrite last_app. fold (final d st) in *.
  eapply (append_step k1 h (with_tail a (tail_of k1 h (final d st))) (final d st) w1); [by apply rec_inv_tail|done..|by rewrite Hw1|done|exact Ea|done].
Qed.

Lemma record_collects io times a d w seq line states a' w' err :
  acceptance_record observe onAnchor io times a d w seq line = (states, a', w', err) ->
  exists more, collected w' = collected w ++ more /\ (length more <= 1)%nat.
Proof using collects observes.
  intros Ha. assert (Hnil : exists more, collected w = collected w ++ more /\ (length more <= 1)%nat)
    by (exists []; rewrite app_nil_r; split; [done|cbn; lia]).
  unfold acceptance_record in Ha. destruct (ar_ka a) as [[[sg|] [tr|]]|]; try by simplify_eq.
  destruct (read_tail _ _ _ _) as [t [[[prev mx] en]|e]]; [|by simplify_eq].
  destruct (acceptance_rotate _ _ _ _ _ _ _) as [[[[st t1] w1] en1] er] eqn:Er.
  assert (Hw1 : collected w1 = collected w).
  { unfold acceptance_rotate in Er. destruct (_ && _); [|by simplify_eq]. destruct (_ <=? _); [by simplify_eq|].
    destruct (compactLogPrefixGroupsObserved _ _ _ _ _ _) as [[st2 w2] e2] eqn:E. rewrite <- (compaction_keeps _ _ _ _ _ _ _ _ _ _ observes E).
    by destruct e2; simplify_eq. }
  destruct er as [er|]; [simplify_eq; by rewrite Hw1|].
  unfold acceptance_append in Ha. destruct (signAcceptanceEntry _ _ _) as [e|er]; [|simplify_eq; by rewrite Hw1].
  destruct (appendLogLine _ _ _) as [st2 [e2|]]; simplify_eq; [by rewrite Hw1|]. rewrite collects, Hw1. by exists [e].
Qed.

(** A record, or a restart: the ledger stays, the tail is gone. *)
Inductive AcceptOp : Type :=
| ARecord (io : RecordIO) (times : RecordTimes) (seq : Z) (line : string)
| ARestart.

(** The recorder, the directory, the closures' world, and the records for which
    [record] answered success. *)
Definition accept_step (st : acceptanceRecorder * LogDisk * W * list (Z * string)) (op : AcceptOp)
  : acceptanceRecorder * LogDisk * W * list (Z * string) :=
  let '(a, d, w, acc) := st in
  match op with
  | ARecord io times seq line =>
      let '(states, a, w, err) := acceptance_record observe onAnchor io times a d w seq line in
      (a, final d states, w, match err with None => acc ++ [(seq, line)] | Some _ => acc end)
  | ARestart => (newRecorder cap (Some ka), d, w, acc)
  end.

Definition whole_accept (op : AcceptOp) : Prop :=
  match op with ARecord io times _ _ => whole_record io times | ARestart => True end.

Definition accepts (h : list acceptanceEntry) (acc : list (Z * string)) : Prop :=
  map (fun e => (ae_RecordSeq e, ae_RecordDigest e)) h = map (fun p => (fst p, acceptanceDigestOfLine (snd p))) acc.

Definition accept_start (w0 : W) : acceptanceRecorder * LogDisk * W * list (Z * string) :=
  (newRecorder cap (Some ka), MkLogDisk None None, w0, []).

Definition accept_inv (k : nat) (st : acceptanceRecorder * LogDisk * W * list (Z * string)) : Prop :=
  let '(a, d, w, acc) := st in
  rec_inv k (collected w) a d /\ tail_inv k (collected w) a d /\ accepts (collected w) acc.

Lemma accept_start_inv w0 : collected w0 = [] -> accept_inv 0 (accept_start w0).
Proof.
  intros Hw. unfold accept_inv, accept_start. rewrite Hw. split; [|done].
  assert (Hn : chain_of ka 0 []) by (split; [apply Forall_nil_2|done|done]).
  split; [done|done|done|intros; cbn; lia|split; [done|apply Forall_nil_2]|done].
Qed.

Lemma accept_step_inv k st op :
  accept_inv k st -> whole_accept op -> Forall fits (collected (accept_step st op).1.2) ->
  Z.of_nat (length (collected st.1.2)) < max_int64 ->
  exists k', (k <= k')%nat /\ accept_inv k' (accept_step st op).
Proof using trusted key_named collects observes.
  destruct st as [[[a d] w] acc]. intros (Hi & Ht & Hacc) Hw Hf Hlen. cbn [fst snd] in *. destruct op as [io times seq line|].
  - cbn [accept_step] in *. destruct (acceptance_record _ _ _ _ _ _ _ _ _) as [[[states a'] w'] err] eqn:E. cbn [fst snd] in *.
    destruct (record_step _ _ _ _ _ _ _ _ _ _ _ _ _ Hi Ht Hw eq_refl Hlen E Hf) as (k' & Hk & Hi' & Ht' & Hres).
    destruct err as [er|].
    + exists k'. split; [done|]. split; [done|]. split; [done|]. by rewrite Hres.
    + destruct Hres as (e & He & Hrs & Hrd). exists k'. split; [done|].
      split; [done|]. split; [done|]. unfold accepts in *. rewrite He, !map_app, Hacc. cbn. by rewrite Hrs, Hrd.
  - cbn [accept_step fst snd] in *. exists k. split; [done|].
    split; [by destruct Hi|]. by split.
Qed.

Lemma accept_run_inv ops w0 :
  collected w0 = [] -> Forall whole_accept ops -> Z.of_nat (length ops) <= max_int64 ->
  let st := run_list accept_step (accept_start w0) ops in
  Forall fits (collected st.1.2) -> (length (collected st.1.2) <= length ops)%nat /\ exists k, accept_inv k st.
Proof using trusted key_named collects observes.
  intros Hw0. cbv zeta. induction ops as [|op ops IH] using rev_ind; intros Hw Hlen Hf.
  { cbn [run_list foldl accept_start fst snd]. rewrite Hw0. split; [done|]. exists 0%nat. by apply accept_start_inv. }
  rewrite run_list_snoc in *. apply Forall_app in Hw as [Hws Hw]. apply Forall_cons in Hw as [Hw _]. rewrite length_app in *. cbn [length] in *.
  set (st := run_list accept_step (accept_start w0) ops) in *.
  assert (Hpre : exists more, collected (accept_step st op).1.2 = collected st.1.2 ++ more /\ (length more <= 1)%nat).
  { clear IH Hf. clearbody st. destruct st as [[[a d] w] acc], op as [io times seq line|]; cbn [accept_step fst snd].
    - destruct (acceptance_record _ _ _ _ _ _ _ _ _) as [[[states a'] w'] err] eqn:E. cbn [fst snd]. by eapply record_collects.
    - exists []. rewrite app_nil_r. split; [done|cbn; lia]. }
  destruct Hpre as (more & Hm & Hm1). assert (Hf0 : Forall fits (collected st.1.2)) by (rewrite Hm in Hf; by apply Forall_app in Hf as [? _]).
  destruct (IH Hws ltac:(lia) Hf0) as [Hl [k Hi]].
  destruct (accept_step_inv k st op Hi Hw Hf ltac:(lia)) as (k' & _ & Hi').
  split; [rewrite Hm, length_app; lia|]. by exists k'.
Qed.

(** *** Properties *)

(** What a load of the ledger finds that holds [h] but for its first [k]. *)
Definition sound_state (k : nat) (h : list acceptanceEntry) : acceptanceState :=
  if decide (h = []) then empty_acceptance
  else MkAcceptanceState (drop k h) (MkWindow (Z.of_nat k + 1) (Z.of_nat (length h)) (Z.of_nat (length h - k)) true)
         true [] [] (Z.of_nat (length h - k)).

Lemma load_exact io k h a d : rec_inv k h a d -> io_read io = None -> loadAcceptanceState io d (Some ka) = Ok (sound_state k h).
Proof using trusted.
  intros Hi Hio. pose proof (kept_some _ _ _ _ Hi) as Hk. pose proof Hi as [Hc _ _ _ Hd _].
  pose proof (chained_drop _ _ _ _ _ k _ Hc) as Hcd. cbn [Nat.add] in Hcd. unfold loadAcceptanceState, ka_verifiable, acceptanceGroupOf. cbn [ka].
  rewrite bool_decide_eq_true_2 by (intros Hn; rewrite Hn, lookup_empty in trusted; done). cbn [negb]. fold ka.
  rewrite (log_on_read _ _ _ _ Hd Hio). cbn [negb]. rewrite (proj2 (proj2 (proj2 (entry_lines _ _ (lo_fits _ _ _ Hd))))).
  unfold sound_state. destruct Hk as [[-> ->]|Hk]; [done|]. rewrite decide_False by (intros ->; cbn in Hk; lia).
  pose proof (length_drop h k) as Hl. set (es := drop k h) in *. clearbody es. destruct es as [|e es]; [cbn in Hl; lia|].
  pose proof (load_walk _ _ _ Hcd) as Hlw. unfold ka in Hlw |- *. cbv beta iota. rewrite Hlw, (ch_seqs _ _ _ _ _ _ Hcd), window_seq by (cbn; lia).
  cbn [lw_Continuous acs_entries acs_verifiable acs_errs acs_problems acs_total]. rewrite Hl. do 2 f_equal. f_equal. lia.
Qed.

(** The acceptance ledger is exact: over any history of records, of which
    some fail before or with nothing written, are refused or meet a failing
    compaction or observer, and of restarts, its entries are those of the records
    that were answered with success, in order, numbered 1, 2, 3, …; it loads as
    verifiable, with a window without a hole; it never exceeds its capacity and
    drops no more than one entry below it. *)
Theorem acceptance_ledger_exact ops w0 :
  collected w0 = [] -> Forall whole_accept ops -> Z.of_nat (length ops) <= max_int64 ->
  let '(a, d, w, acc) := run_list accept_step (accept_start w0) ops in
  Forall fits (collected w) ->
  accepts (collected w) acc /\ length (collected w) = length acc /\
  map ae_EntrySeq (collected w) = map Z.of_nat (seq 1 (length acc)) /\
  exists k, (k <= length acc)%nat /\ (cap <= 0 -> k = 0%nat) /\
    (0 < cap -> Z.of_nat (length acc - k) <= cap /\ (k = 0%nat \/ cap - 1 <= Z.of_nat (length acc - k))) /\
    forall io, io_read io = None -> loadAcceptanceState io d (Some ka) = Ok (sound_state k (collected w)).
Proof using trusted key_named collects observes.
  intros Hw Hops Hlen. pose proof (accept_run_inv ops w0 Hw Hops Hlen) as Hrun. cbv zeta in Hrun.
  destruct (run_list accept_step (accept_start w0) ops) as [[[a d] w] acc]. cbn [fst snd] in Hrun. intros Hf.
  destruct (Hrun Hf) as [_ [k (Hi & _ & Hacc)]].
  assert (Hla : length (collected w) = length acc) by (apply (f_equal length) in Hacc; by rewrite !length_map in Hacc).
  split; [done|]. split; [done|]. rewrite <- Hla. split; [by apply (ch_seqs _ _ _ _ _ _ (rv_chain _ _ _ _ Hi))|].
  exists k. split; [apply (rv_k _ _ _ _ Hi)|]. split; [apply (rv_free _ _ _ _ Hi)|]. split; [apply (rv_cap _ _ _ _ Hi)|].
  intros io Hio. by eapply load_exact.
Qed.

(** The cached tail is an optimisation and nothing else: after any such
    history, recording with the tail in memory does to the directory, the recorder
    and the scheduler exactly what recording after a verification of the whole
    ledger does. *)
Theorem acceptance_cache_exact ops w0 :
  collected w0 = [] -> Forall whole_accept ops -> Z.of_nat (length ops) <= max_int64 ->
  let '(a, d, w, acc) := run_list accept_step (accept_start w0) ops in
  Forall fits (collected w) ->
  forall io times seq line, rio_stat io = None -> io_read (rio_read io) = None ->
    acceptance_record observe onAnchor io times a d w seq line =
    acceptance_record observe onAnchor io times (newRecorder cap (Some ka)) d w seq line.
Proof using trusted key_named collects observes.
  intros Hw Hops Hlen. pose proof (accept_run_inv ops w0 Hw Hops Hlen) as Hrun. cbv zeta in Hrun.
  destruct (run_list accept_step (accept_start w0) ops) as [[[a d] w] acc]. cbn [fst snd] in Hrun. intros Hf io times seq line Hst Hrd.
  destruct (Hrun Hf) as [_ [k (Hi & Ht & _)]].
  assert (Hi0 : rec_inv k (collected w) (newRecorder cap (Some ka)) d) by by destruct Hi.
  destruct (read_tail_exact _ _ _ _ io Hi Ht) as [[_ [?|?]]|E]; [done..|].
  destruct (read_tail_exact _ _ _ _ io Hi0 ltac:(done)) as [[_ [?|?]]|E0]; [done..|].
  destruct (rv_rec _ _ _ _ Hi) as [Hka Hcap]. destruct a as [c ka' t]. cbn in Hka, Hcap. subst c ka'.
  unfold acceptance_record, with_tail. cbn [newRecorder ar_ka ar_capacity]. cbv iota beta delta [ka]. fold ka. by rewrite E, E0.
Qed.

End Histories.

End Recording.

(** ** An instance, and witnesses

    An entry is its fields, as in the ledger's sample. *)

#[local] Existing Instance checksum_crypto.

Definition acceptance_fields (e : acceptanceEntry) : list string :=
  [Z_str (ae_V e); Z_str (ae_EntrySeq e); Z_str (ae_RecordSeq e); ae_RecordDigest e; ae_RecordedAt e; ae_AuthorityKeyID e;
   ae_PrevEntryDigest e; ae_EntryDigest e] ++ signature_fields (ae_Signature e).

Definition acceptance_of_fields (l : list string) : option acceptanceEntry :=
  match l with
  | [v; q; r; dg; at_; key; prev; ed; ""] => Some (MkAcceptance (str_Z v) (str_Z q) (str_Z r) dg at_ key prev ed None)
  | [v; q; r; dg; at_; key; prev; ed; "+"; alg; kid; sg; sat] =>
      Some (MkAcceptance (str_Z v) (str_Z q) (str_Z r) dg at_ key prev ed (Some (MkSignature alg kid sg sat)))
  | _ => None
  end.

Lemma acceptance_of_acceptance_fields e : acceptance_of_fields (acceptance_fields e) = Some e.
Proof. destruct e as [v q r dg at_ key prev ed [[]|]]; cbn; by rewrite !str_Z_str. Qed.

Definition sample_acceptance_lines : LineCodec acceptanceEntry acceptance_utf8.
Proof.
  refine (fields_codec acceptance_fields acceptance_of_fields acceptance_of_acceptance_fields _). done.
Defined.

Definition sample_acceptance : AcceptanceCodec := {|
  signed_json e := pack [Z_str (as_V e); Z_str (as_EntrySeq e); Z_str (as_RecordSeq e); as_RecordDigest e;
    as_RecordedAt e; as_AuthorityKeyID e; as_PrevEntryDigest e];
  acceptance_lines := sample_acceptance_lines |}.

#[local] Existing Instance sample_acceptance.

Definition collect (w : list acceptanceEntry) (e : acceptanceEntry) : list acceptanceEntry := w ++ [e].

Definition record_ok : RecordIO := MkRecordIO None None io_ok io_ok true io_ok true.
Definition record_append (io : LogIO) : RecordIO := MkRecordIO None None io_ok io_ok true io true.
Definition at_noon : RecordTimes := MkTimes "noon" "noon".

Definition sample_accepts : list AcceptOp :=
  [ARecord record_ok at_noon 1 "one"; ARecord (record_append io_open_fails) at_noon 2 "two"; ARestart;
   ARecord record_ok at_noon 3 "three"; ARecord record_ok at_noon 4 "four"].

Definition accept_run (cap : Z) (ops : list AcceptOp) : acceptanceRecorder * LogDisk * list acceptanceEntry * list (Z * string) :=
  run_list (accept_step kak kak_trust cap None collect) (accept_start kak kak_trust cap []) ops.

Lemma sample_trusted : ts_keys kak_trust !! es_keyID kak = Some (Public (es_priv kak)).
Proof. vm_compute. reflexivity. Qed.

Lemma sample_whole_accepts : Forall whole_accept sample_accepts.
Proof. repeat (apply Forall_cons; split; [vm_compute; repeat split; discriminate|]). apply Forall_nil_2. Qed.

Example acceptance_ledger_exact_witness :
  exists k, (0 < k)%nat /\ map fst (accept_run 2 sample_accepts).2 = [1; 3; 4] /\
    loadAcceptanceState io_ok (accept_run 2 sample_accepts).1.1.2 (Some (MkKeyAuthority (Some kak) (Some kak_trust))) =
    Ok (sound_state k (accept_run 2 sample_accepts).1.2).
Proof.
  pose proof (acceptance_ledger_exact kak kak_trust 2 None collect (fun w => w) sample_trusted ltac:(discriminate) ltac:(done) I
    sample_accepts [] eq_refl sample_whole_accepts ltac:(vm_compute; discriminate)) as Hx.
  assert (Hf : forallb fitsb (accept_run 2 sample_accepts).1.2 = true) by (vm_compute; reflexivity).
  assert (Ha : map fst (accept_run 2 sample_accepts).2 = [1; 3; 4]) by (vm_compute; reflexivity).
  unfold accept_run in *. destruct (run_list _ _ sample_accepts) as [[[a d] w] acc]. cbn [fst snd] in *.
  destruct (Hx (fitsb_fits _ Hf)) as (_ & _ & _ & k & Hk & _ & Hb & Hl). apply (f_equal length) in Ha as Hn. rewrite length_map in Hn.
  cbn in Hn. exists k. split; [destruct (Hb ltac:(lia)); lia|]. split; [exact Ha|]. by apply Hl.
Defined.

Example acceptance_cache_exact_witness :
  let '(a, d, w, _) := accept_run 2 sample_accepts in
  acceptance_record None collect record_ok at_noon a d w 5 "five" =
  acceptance_record None collect record_ok at_noon (newRecorder 2 (Some (MkKeyAuthority (Some kak) (Some kak_trust)))) d w 5 "five".
Proof.
  pose proof (acceptance_cache_exact kak kak_trust 2 None collect (fun w => w) sample_trusted ltac:(discriminate) ltac:(done) I
    sample_accepts [] eq_refl sample_whole_accepts ltac:(vm_compute; discriminate)) as Hx.
  assert (Hf : forallb fitsb (accept_run 2 sample_accepts).1.2 = true) by (vm_compute; reflexivity).
  unfold accept_run in *. destruct (run_list _ _ sample_accepts) as [[[a d] w] acc]. cbn [fst snd] in *.
  by apply (Hx (fitsb_fits _ Hf)).
Defined.

(** *** What the cached tail does not survive *)

(** A record whose fsync fails leaves its line; the next record verifies it as a
    suffix and advances the cached size alone; if its own append then fails, the
    one after that continues the old tail: a second line with the same entry_seq,
    answered with success, and the ledger is in conflict from then on. *)
Example stale_tail_poisons :
  let st := accept_run 0 [ARecord record_ok at_noon 1 "one"; ARecord (record_append io_sync_fails) at_noon 2 "two";
                          ARecord (record_append io_open_fails) at_noon 3 "three"; ARecord record_ok at_noon 4 "four"] in
  map fst st.2 = [1; 4] /\ map ae_EntrySeq st.1.2 = [1; 2] /\
  match loadAcceptanceState io_ok st.1.1.2 (Some (MkKeyAuthority (Some kak) (Some kak_trust))) with
  | Ok s => acs_verifiable s = false /\ map ap_Verdict (acs_problems s) = [acceptanceVerdictConflict]
  | Err _ => False
  end.
Proof. vm_compute. repeat split. Qed.

(** A record whose last stat fails answers success and advances the cached
    sequence but not the size: every later record of the process takes its line
    for a conflicting suffix and is refused. *)
Example failed_stat_wedges :
  map fst (accept_run 0 [ARecord (MkRecordIO None None io_ok io_ok true io_ok false) at_noon 1 "one"; ARecord record_ok at_noon 2 "two";
                         ARecord record_ok at_noon 3 "three"]).2 = [1].
Proof. vm_compute. reflexivity. Qed.
