(* ===== verification/InputIntegrity.v ===== *)
(** * Input integrity (internal/controlplane/server/snapshot_acceptance.go)

    The reconciliation of the acceptance ledger with the durable store, and the
    store with the recorder of acceptances installed
    (file_transition_store.go). *)

From stdpp Require Import sorting.
From S2P Require Import Prelude GoStrings Manifest AppendLog SignedLog ProtectionTypes RateHistory Alerting TransitionStore Acceptance.

Section Integrity.
Context `{ManifestCrypto} `{AcceptanceCodec} `{TransitionCodec}.

Definition acceptanceCanonicalRecordBytes (seq : Z) (t : AlertTransition) : string := tx_json (newPersisted seq t).

(** ** Reconciliation *)

Definition inputVerdictAbsent : string := "input_absent".
Definition inputVerdictOK : string := "input_ok".
Definition inputVerdictModified : string := "input_modified".
Definition inputVerdictIncomplete : string := "input_incomplete".
Definition inputVerdictUnverifiable : string := "input_unverifiable".
Definition inputTrustLedgerUnverifiable : string := "acceptance_ledger_unverifiable".
Definition inputTrustStoreUnverifiable : string := "store_unverifiable".

Record InputIntegrity : Type := MkInputIntegrity {
  iv_Enabled : bool;
  iv_Verdict : string;
  iv_TrustReason : string;
  iv_Window : option logWindow;
  iv_WindowDiscontinuous : bool;
  iv_CoverageFloor : Z;
  iv_ModifiedIDs : list Z;
  iv_MissingInSpanIDs : list Z;
  iv_UnacceptedIDs : list Z;
  iv_OutsideSpanCount : Z;
  iv_OutsideCoverageCount : Z;
  iv_Problems : list acceptanceProblem;
  iv_Reason : string;
  iv_InputError : string }.

Definition no_view : InputIntegrity := MkInputIntegrity false inputVerdictAbsent "" None false 0 [] [] [] 0 0 [] "" "".

Definition unverifiable_view (st : option acceptanceState) (reason : string) (problems : list acceptanceProblem) (err : string) : InputIntegrity :=
  let w := match st with Some st => if 0 <? acs_total st then Some (acs_window st) else None | None => None end in
  MkInputIntegrity true inputVerdictUnverifiable reason w (match w with Some w => negb (lw_Continuous w) | None => false end)
    0 [] [] [] 0 0 problems "" err.

Definition join_errs (l : list string) : string := match l with [] => "" | x :: l => foldl (fun s w => s +:+ "; " +:+ w) x l end.

(** A snapshot of the store: [ReadAll] with the sequences and their range. *)
Record StoreSnapshot : Type := MkStoreSnapshot { sn_load : TransitionLoadResult; sn_Seqs : list Z; sn_MinSeq : Z; sn_MaxSeq : Z }.

Definition ledger_map (es : list acceptanceEntry) : gmap Z string := foldl (fun m e => <[ae_RecordSeq e := ae_RecordDigest e]> m) ∅ es.

Definition reconcile (st : acceptanceState) (snap : StoreSnapshot) : InputIntegrity :=
  let ledger := ledger_map (acs_entries st) in
  let floor := match acs_entries st with e :: _ => ae_RecordSeq e - 1 | [] => 0 end in
  let recs := zip (sn_Seqs snap) (tl_Transitions (sn_load snap)) in
  let digest p := acceptanceDigestOfLine (acceptanceCanonicalRecordBytes (fst p) (snd p)) in
  let modified := List.filter (fun p => match ledger !! fst p with Some dg => negb (String.eqb dg (digest p)) | None => false end) recs in
  let unknown := List.filter (fun p => match ledger !! fst p with Some _ => false | None => true end) recs in
  let outside_cov := List.filter (fun p => fst p <=? floor) unknown in
  let unaccepted := List.filter (fun p => negb (fst p <=? floor)) unknown in
  let ids := (map_to_list ledger).*1 in
  let outside_span := List.filter (fun q => q <? sn_MinSeq snap) ids in
  let missing := List.filter (fun q => negb (q <? sn_MinSeq snap) && ((sn_MaxSeq snap <? q) || negb (bool_decide (q ∈ sn_Seqs snap)))) ids in
  let sorted := sort_slice Z.ltb in
  let verdict := if negb (bool_decide (modified = [])) || negb (bool_decide (missing = [])) then inputVerdictModified
    else if negb (bool_decide (unaccepted = [])) then inputVerdictIncomplete else inputVerdictOK in
  MkInputIntegrity true verdict "" (Some (acs_window st)) (negb (lw_Continuous (acs_window st))) floor
    (sorted (map fst modified)) (sorted missing) (sorted (map fst unaccepted))
    (Z.of_nat (length outside_span)) (Z.of_nat (length outside_cov)) [] "" "".

Definition InputIntegrityView (enabled : bool) (io : LogIO) (d : LogDisk) (ka : option keyAuthority) (snap : StoreSnapshot) : InputIntegrity :=
  if negb enabled then no_view
  else match loadAcceptanceState io d ka with
    | Err e => unverifiable_view None inputTrustLedgerUnverifiable [] e
    | Ok st =>
        if (0 <? acs_total st) && negb (acs_verifiable st) then
          unverifiable_view (Some st) inputTrustLedgerUnverifiable (acs_problems st) (join_errs (acs_errs st))
        else if acs_total st =? 0 then
          MkInputIntegrity true inputVerdictAbsent "" None false 0 [] [] [] 0 0 []
            "the acceptance ledger is absent or empty: no record was ever accepted (or the ledger was deleted — locally indistinguishable)" ""
        else match tl_LoadErr (sn_load snap) with
          | Some e => unverifiable_view (Some st) inputTrustStoreUnverifiable [] ("store read: " +:+ e)
          | None =>
              if tl_Corrupt (sn_load snap) then
                unverifiable_view (Some st) inputTrustStoreUnverifiable []
                  "durable transition history is corrupt — the snapshot cannot be reconciled (never input_ok)"
              else if negb (length (sn_Seqs snap) =? length (tl_Transitions (sn_load snap)))%nat then
                unverifiable_view (Some st) inputTrustStoreUnverifiable []
                  "store snapshot lacks per-record seq alignment — reconciliation is impossible"
              else reconcile st snap
          end
    end.

(** ** The store with the recorder installed *)

Record AcceptedStore : Type := MkAcceptedStore {
  sa_store : FileBackedTransitionStore;
  sa_acceptance : option acceptanceRecorder;
  sa_acceptanceErr : string }.

Definition installAcceptanceRecorder (s : AcceptedStore) (r : option acceptanceRecorder) : AcceptedStore :=
  MkAcceptedStore (sa_store s) r (sa_acceptanceErr s).
Definition AcceptanceError (s : AcceptedStore) : string := sa_acceptanceErr s.

(** The recorder is reached when the record is synced. *)
Definition reaches_recorder (s : FileBackedTransitionStore) (io : TransitionIO) : bool :=
  match ts_openErr s, ti_open io, ti_write io, ti_sync io with None, None, None, None => true | _, _, _, _ => false end.

(** [Append] with a recorder: what the recorder answers is kept for the status
    and changes nothing that [Append] answers. *)
Definition Append_accepted {W} (observe : option (compactionObserver W)) (onAnchor : W -> acceptanceEntry -> W)
    (io : TransitionIO) (rio : RecordIO) (times : RecordTimes) (s : AcceptedStore) (d : LogDisk) (w : W) (t : AlertTransition)
  : AcceptedStore * LogDisk * W * option error :=
  let '(st, err) := FileBacked_Append io (sa_store s) t in
  match sa_acceptance s with
  | Some a =>
      if reaches_recorder (sa_store s) io then
        let seq := wrap64 (ts_lastSeq (sa_store s) + 1) in
        let '(states, a, w, aerr) := acceptance_record observe onAnchor rio times a d w seq (acceptanceCanonicalRecordBytes seq t) in
        (MkAcceptedStore st (Some a) (default "" aerr), final d states, w, err)
      else (MkAcceptedStore st (Some a) (sa_acceptanceErr s), d, w, err)
  | None => (MkAcceptedStore st None (sa_acceptanceErr s), d, w, err)
  end.

(** What construction of the scheduler asks before it installs a recorder. *)
Definition acceptance_config (enabled : bool) (signer : option exportSigner) (trust : option exportTrustStore)
    (destructionLog : bool) (capacity : Z) (fileBacked : bool) : result error (option acceptanceRecorder) :=
  let enabled_ok :=
    if negb enabled then None
    else match signer with
      | None => Some "history export: --export-acceptance-log is set but no --export-key-authority is configured — acceptance entries could never be signed"
      | Some sg =>
          let keys := match trust with Some t => ts_keys t | None => ∅ end in
          if decide (keys = ∅) then
            Some "history export: --export-acceptance-log is set but no --export-key-authority-trust is configured — acceptance entries could never be verified"
          else match keys !! es_keyID sg with
            | None => Some ("history export: key authority " +:+ es_keyID sg +:+ " is absent from the configured KAK trust keys — acceptance entries would verify as unauthorized")
            | Some _ =>
                if negb destructionLog then
                  Some "history export: --export-acceptance-log requires --export-destruction-log — the acceptance ledger's own compaction is evidence destruction and must be accounted (G4)"
                else None
            end
      end in
  match enabled_ok with
  | Some e => Err e
  | None =>
      if capacity <? 0 then Err ("history export: acceptance capacity " +:+ pretty capacity +:+ " is negative")
      else if negb enabled then Ok None
      else if negb fileBacked then
        Err "history export: --export-acceptance-log requires the durable file-backed transition store — input integrity has no meaning without durable records to commit"
      else Ok (Some (newRecorder capacity (Some (MkKeyAuthority signer trust))))
  end.

(** ** What a reconciliation finds *)

Definition records (snap : StoreSnapshot) : list (Z * AlertTransition) := zip (sn_Seqs snap) (tl_Transitions (sn_load snap)).
Definition record_digest (q : Z) (t : AlertTransition) : string := acceptanceDigestOfLine (acceptanceCanonicalRecordBytes q t).

(** The entry of a record in a ledger that has one per record. *)
Lemma ledger_map_lookup es q dg : NoDup (map ae_RecordSeq es) ->
  ledger_map es !! q = Some dg <-> exists e, e ∈ es /\ ae_RecordSeq e = q /\ ae_RecordDigest e = dg.
Proof.
  unfold ledger_map. induction es as [|e es IH] using rev_ind; intros Hn.
  - cbn. rewrite lookup_empty. split; [done|]. by intros (e & He%elem_of_nil & _).
  - rewrite foldl_app. cbn [foldl]. rewrite map_app in Hn. apply NoDup_app in Hn as (Hn & Hd & _).
    rewrite lookup_insert_Some, IH by done. split.
    + intros [[<- <-]|[Hne (x & Hx & E)]]; [exists e|exists x]; (split; [|done]); apply elem_of_app; [right; by apply list_elem_of_singleton|by left].
    + intros (x & [Hx|Hx]%elem_of_app & Hq & Hg).
      * right. split; [|by exists x]. intros E. apply (Hd q); [|cbn; rewrite E; left].
        apply list_elem_of_In, in_map_iff. exists x. split; [done|by apply list_elem_of_In].
      * apply list_elem_of_singleton in Hx as ->. by left.
Qed.

Lemma filter_In' {A} (f : A -> bool) l (x : A) : x ∈ List.filter f l <-> x ∈ l /\ f x = true.
Proof. rewrite !list_elem_of_In. apply filter_In. Qed.

Lemma elem_of_reverse_rev {A} (x : A) l : x ∈ rev l <-> x ∈ l.
Proof. rewrite !list_elem_of_In. symmetry. apply in_rev. Qed.

Lemma in_map' {A B} (f : A -> B) l y : y ∈ map f l <-> exists x, y = f x /\ x ∈ l.
Proof.
  rewrite list_elem_of_In, in_map_iff. setoid_rewrite list_elem_of_In. split; intros (x & E & Hx); exists x; by split.
Qed.

Record reconciled (es : list acceptanceEntry) (snap : StoreSnapshot) (v : InputIntegrity) : Prop := MkReconciled {
  rc_modified q : q ∈ iv_ModifiedIDs v <-> exists t e, (q, t) ∈ records snap /\ e ∈ es /\ ae_RecordSeq e = q /\ ae_RecordDigest e <> record_digest q t;
  rc_missing q : q ∈ iv_MissingInSpanIDs v <-> (exists e, e ∈ es /\ ae_RecordSeq e = q) /\ sn_MinSeq snap <= q /\ (sn_MaxSeq snap < q \/ q ∉ sn_Seqs snap);
  rc_unaccepted q : q ∈ iv_UnacceptedIDs v <-> exists t, (q, t) ∈ records snap /\ iv_CoverageFloor v < q /\ forall e, e ∈ es -> ae_RecordSeq e <> q;
  rc_floor e es' : es = e :: es' -> iv_CoverageFloor v = ae_RecordSeq e - 1;
  rc_verdict : iv_Verdict v =
    if bool_decide (iv_ModifiedIDs v = [] /\ iv_MissingInSpanIDs v = []) then
      if bool_decide (iv_UnacceptedIDs v = []) then inputVerdictOK else inputVerdictIncomplete
    else inputVerdictModified }.

Lemma sort_nil {A} less (l : list A) : sort_slice less l = [] <-> l = [].
Proof. split; intros E; [|by subst]. apply (f_equal length) in E. rewrite sort_slice_length in E. by destruct l. Qed.

Lemma map_nil' {A B} (f : A -> B) l : map f l = [] <-> l = [].
Proof. by destruct l. Qed.

Lemma reconcile_spec st snap : NoDup (map ae_RecordSeq (acs_entries st)) -> reconciled (acs_entries st) snap (reconcile st snap).
Proof.
  intros Hn. pose proof (fun q dg => ledger_map_lookup (acs_entries st) q dg Hn) as Hl.
  assert (Hnone : forall q, ledger_map (acs_entries st) !! q = None <-> forall e, e ∈ acs_entries st -> ae_RecordSeq e <> q).
  { intros q. rewrite eq_None_not_Some. split.
    - intros Hx e He E. apply Hx. exists (ae_RecordDigest e). apply Hl. by exists e.
    - intros Hx [dg (e & He & E & _)%Hl]. by apply (Hx e). }
  unfold reconcile. split; cbn [iv_ModifiedIDs iv_MissingInSpanIDs iv_UnacceptedIDs iv_CoverageFloor iv_Verdict].
  - intros q. rewrite sort_slice_elem, in_map'. setoid_rewrite filter_In'. split.
    + intros ([q' t] & -> & Hin & Hx). cbn [fst snd] in *. destruct (ledger_map _ !! q') as [dg|] eqn:E; [|done].
      apply Hl in E as (e & He & Eq & <-). apply negb_true_iff, String.eqb_neq in Hx. by exists t, e.
    + intros (t & e & Hin & He & Eq & Hx). exists (q, t). split; [done|]. split; [done|]. cbn [fst snd].
      rewrite (proj2 (Hl q (ae_RecordDigest e))) by by exists e. by apply negb_true_iff, String.eqb_neq.
  - intros q. rewrite sort_slice_elem, filter_In', andb_true_iff, orb_true_iff, !negb_true_iff, Z.ltb_ge, Z.ltb_lt, bool_decide_eq_false.
    assert (Hid : q ∈ (map_to_list (ledger_map (acs_entries st))).*1 <-> exists e, e ∈ acs_entries st /\ ae_RecordSeq e = q).
    { rewrite list_elem_of_fmap. split.
      - intros ([q' dg] & -> & Hin%elem_of_map_to_list). apply Hl in Hin as (e & He & E & _). by exists e.
      - intros (e & He & E). exists (q, ae_RecordDigest e). split; [done|]. apply elem_of_map_to_list, Hl. by exists e. }
    by rewrite Hid.
  - intros q. rewrite sort_slice_elem, in_map'. setoid_rewrite filter_In'. setoid_rewrite filter_In'. split.
    + intros ([q' t] & -> & [Hin Hx] & Hf). cbn [fst] in *. apply negb_true_iff, Z.leb_gt in Hf. exists t. split; [done|]. split; [done|].
      apply Hnone. by destruct (ledger_map _ !! q').
    + intros (t & Hin & Hf & Hx). exists (q, t). split; [done|]. cbn [fst]. rewrite (proj2 (Hnone q)) by done.
      split; [done|]. by apply negb_true_iff, Z.leb_gt.
  - by intros e es' ->.
  - rewrite !(bool_decide_ext (sort_slice _ _ = []) _ (sort_nil _ _)).
    set (m := List.filter _ (zip _ _)). set (ms := List.filter _ _). set (un := List.filter _ (List.filter _ _)).
    rewrite (bool_decide_ext (sort_slice Z.ltb (map fst m) = [] /\ sort_slice Z.ltb ms = []) (m = [] /\ ms = []))
      by by rewrite !sort_nil, map_nil'.
    rewrite (bool_decide_ext (map fst un = []) (un = [])) by by rewrite map_nil'.
    rewrite bool_decide_and. by destruct (bool_decide (m = [])), (bool_decide (ms = [])), (bool_decide (un = [])).
Qed.

(** ** An accepting verdict *)

(** The same text, or two that collide under SHA-256. *)
Definition same_text (a b : string) : Prop := a = b \/ a <> b /\ Sum256 a = Sum256 b.

Lemma digest_same a b : acceptanceDigestOfLine a = acceptanceDigestOfLine b -> same_text a b.
Proof.
  intros E%hex_inj. destruct (decide (a = b)); [by left|by right].
Qed.

Lemma accepts_drop k h acc : accepts h acc -> accepts (drop k h) (drop k acc).
Proof. unfold accepts. intros E. by rewrite <- !skipn_map, E. Qed.

Lemma accepts_entry h acc e : accepts h acc -> e ∈ h ->
  exists line, (ae_RecordSeq e, line) ∈ acc /\ ae_RecordDigest e = acceptanceDigestOfLine line.
Proof.
  intros Ha [i Hi]%list_elem_of_lookup. apply (f_equal (fun l => l !! i)) in Ha. rewrite !list_lookup_fmap, Hi in Ha.
  destruct (acc !! i) as [[q line]|] eqn:E; [|done]. cbn in Ha. injection Ha as Hq Hd. exists line.
  split; [rewrite Hq; by eapply list_elem_of_lookup_2|done].
Qed.

Lemma accepts_record h acc q line : accepts h acc -> (q, line) ∈ acc ->
  exists e, e ∈ h /\ ae_RecordSeq e = q /\ ae_RecordDigest e = acceptanceDigestOfLine line.
Proof.
  intros Ha [i Hi]%list_elem_of_lookup. apply (f_equal (fun l => l !! i)) in Ha. rewrite !list_lookup_fmap, Hi in Ha.
  destruct (h !! i) as [e|] eqn:E; [|done]. cbn in Ha. injection Ha as Hq Hd. exists e.
  split; [by eapply list_elem_of_lookup_2|done].
Qed.

Lemma accepts_seqs h acc : accepts h acc -> map ae_RecordSeq h = map fst acc.
Proof. intros Ha. apply (f_equal (map fst)) in Ha. by rewrite !map_map in Ha. Qed.

(** What the view answers of a ledger that loads as sound. *)
Lemma view_sound ka io d k h snap :
  loadAcceptanceState io d (Some ka) = Ok (sound_state k h) -> h <> [] -> (k < length h)%nat -> NoDup (map ae_RecordSeq h) ->
  let v := InputIntegrityView true io d (Some ka) snap in
  if bool_decide (tl_LoadErr (sn_load snap) = None) && negb (tl_Corrupt (sn_load snap)) &&
     (length (sn_Seqs snap) =? length (tl_Transitions (sn_load snap)))%nat
  then reconciled (drop k h) snap v else iv_Verdict v = inputVerdictUnverifiable.
Proof.
  intros Hl Hne Hk Hn. unfold InputIntegrityView. rewrite Hl. cbn [negb]. unfold sound_state. rewrite decide_False by done.
  cbn [acs_total acs_verifiable]. rewrite andb_false_r, (proj2 (Z.eqb_neq _ 0)) by lia.
  destruct (tl_LoadErr (sn_load snap)); [by rewrite bool_decide_eq_false_2|rewrite bool_decide_eq_true_2 by done]. destruct (tl_Corrupt (sn_load snap)); [done|]. cbn [negb andb].
  destruct (_ =? _)%nat; [|done]. cbn [negb]. match goal with |- reconciled _ _ (reconcile ?st _) => apply (reconcile_spec st) end. cbn [acs_entries].
  rewrite <- skipn_map. rewrite <- (take_drop k (map ae_RecordSeq h)) in Hn. by apply NoDup_app in Hn as (_ & _ & Hn).
Qed.

Section Verdicts.
Context (signer : exportSigner) (trust : exportTrustStore) (cap : Z).
Context {W : Type} (observe : option (compactionObserver W)) (onAnchor : W -> acceptanceEntry -> W) (collected : W -> list acceptanceEntry).
Hypothesis trusted : ts_keys trust !! es_keyID signer = Some (Public (es_priv signer)).
Hypothesis key_named : es_keyID signer <> "".
Hypothesis collects : forall w e, collected (onAnchor w e) = collected w ++ [e].
Hypothesis observes : observer_keeps collected observe.

Let ka : keyAuthority := MkKeyAuthority (Some signer) (Some trust).


(** *** The store and its recorder *)

Inductive StoreOp : Type :=
| SAppend (io : TransitionIO) (rio : RecordIO) (times : RecordTimes) (t : AlertTransition)
| SRestart (io : OpenIO).

(** A restart reopens the store and installs a new recorder. *)
Definition store_step (st : AcceptedStore * LogDisk * W * list AlertTransition) (op : StoreOp)
  : AcceptedStore * LogDisk * W * list AlertTransition :=
  let '(s, d, w, h) := st in
  match op with
  | SAppend io rio times t =>
      let '(s', d, w, _) := Append_accepted observe onAnchor io rio times s d w t in (s', d, w, h ++ landed (sa_store s) io t)
  | SRestart io =>
      match fst (NewFileBackedTransitionStore io (ts_file (sa_store s))) with
      | Ok s' => (installAcceptanceRecorder (MkAcceptedStore s' None "") (Some (newRecorder cap (Some ka))), d, w, h)
      | Err _ => (s, d, w, h)
      end
  end.

Definition whole_store (op : StoreOp) : Prop :=
  match op with
  | SAppend io rio times t => whole (TAppend io t) /\ whole_record rio times
  | SRestart io => whole (TRestart io)
  end.

Definition store_start (s : FileBackedTransitionStore) (w0 : W) : AcceptedStore * LogDisk * W * list AlertTransition :=
  (installAcceptanceRecorder (MkAcceptedStore s None "") (Some (newRecorder cap (Some ka))), MkLogDisk None None, w0, []).

(** Each entry is of a record of the history, each record has one at most. *)
Record covers (h : list AlertTransition) (c : list acceptanceEntry) : Prop := MkCovers {
  cv_rising : StronglySorted Z.lt (map ae_RecordSeq c);
  cv_true e : e ∈ c -> exists i t, h !! i = Some t /\ ae_RecordSeq e = Z.of_nat i + 1 /\ ae_RecordDigest e = record_digest (Z.of_nat i + 1) t }.

Lemma covers_more h c t : covers h c -> covers (h ++ [t]) c.
Proof.
  intros [Hr Ht]. split; [done|]. intros e He. destruct (Ht e He) as (i & u & Hi & E). exists i, u. split; [|done]. by apply lookup_app_l_Some.
Qed.

Lemma covers_snoc h c t e : covers h c -> ae_RecordSeq e = Z.of_nat (length h) + 1 ->
  ae_RecordDigest e = record_digest (Z.of_nat (length h) + 1) t -> covers (h ++ [t]) (c ++ [e]).
Proof.
  intros Hc Hq Hd. destruct (covers_more h c t Hc) as [Hr Ht]. split.
  - rewrite map_app. apply StronglySorted_snoc. split; [done|]. apply Forall_forall. intros q (x & -> & Hx)%in_map'.
    destruct (cv_true _ _ Hc x Hx) as (i & u & Hi & -> & _). apply lookup_lt_Some in Hi. lia.
  - intros x [Hx| ->%list_elem_of_singleton]%elem_of_app; [by apply Ht|]. exists (length h), t. by rewrite list_lookup_middle.
Qed.

Definition store_inv (k k' : nat) (st : AcceptedStore * LogDisk * W * list AlertTransition) : Prop :=
  let '(s, d, w, h) := st in
  log_inv k h (sa_store s) /\ covers h (collected w) /\
  exists a, sa_acceptance s = Some a /\ rec_inv signer trust cap k' (collected w) a d /\ tail_inv k' (collected w) a d.

Lemma rising_nodup (l : list Z) : StronglySorted Z.lt l -> NoDup l.
Proof.
  induction 1 as [|q l _ IH Hl]; [constructor|]. constructor; [|done].
  intros Hin. rewrite Forall_forall in Hl. specialize (Hl q Hin). lia.
Qed.

Lemma rising_prefix k c e e' : StronglySorted Z.lt (map ae_RecordSeq c) -> e ∈ take k c -> e' ∈ drop k c -> ae_RecordSeq e < ae_RecordSeq e'.
Proof.
  rewrite <- (take_drop k c) at 1. rewrite map_app. intros Hs He He'.
  apply (StronglySorted_app_1_elem_of Z.lt _ _ _ _ Hs); apply in_map'; [by exists e|by exists e'].
Qed.

Lemma covers_length h c : covers h c -> (length c <= length h)%nat.
Proof.
  intros [Hr Ht]. pose proof (rising_nodup _ Hr) as Hn.
  assert (Hl : length (map Z.of_nat (seq 1 (length h))) = length h) by by rewrite length_map, length_seq.
  rewrite <- Hl, <- (length_map ae_RecordSeq c). apply submseteq_length, NoDup_submseteq; [done|].
  intros q (e & -> & He)%in_map'. destruct (Ht e He) as (i & t & Hi & -> & _).
  apply in_map'. exists (S i). split; [lia|]. apply lookup_lt_Some in Hi. apply elem_of_seq. lia.
Qed.

Lemma store_step_inv k k' st op :
  store_inv k k' st -> whole_store op -> Forall fits (collected (store_step st op).1.2) -> Z.of_nat (length st.2) < max_int64 ->
  exists k1 k1', (k <= k1)%nat /\ store_inv k1 k1' (store_step st op).
Proof using trusted key_named collects observes.
  destruct st as [[[s d] w] h]. intros (Hi & Hc & a & Ha & Hr & Ht) Hw Hf Hlen. cbn [fst snd] in *.
  destruct op as [io rio times t|io]; cbn [store_step] in *.
  - destruct Hw as [Hw Hwr]. unfold Append_accepted in *. rewrite Ha in *.
    destruct (append_inv k h (sa_store s) io t Hi Hw Hlen) as (k1 & Hk1 & Hi1 & _). cbn [log_step fst snd] in Hi1.
    destruct (FileBacked_Append io (sa_store s) t) as [s1 err]. cbn [fst] in Hi1. destruct Hw as (_ & Hsy & _).
    destruct (reaches_recorder (sa_store s) io) eqn:Er.
    + unfold reaches_recorder, landed in *. destruct (ts_openErr (sa_store s)) eqn:Eo; [done|]. destruct (ti_open io); [done|].
      destruct (ti_write io); [done|]. clear Er. destruct (li_mirrors _ _ _ Hi Eo) as (_ & _ & Hl). rewrite Hl in *.
      rewrite wrap64_id in * by (unfold in_int64, min_int64, max_int64 in *; lia).
      destruct (acceptance_record _ _ _ _ _ _ _ _ _) as [[[states a1] w1] aerr] eqn:E. cbn [fst snd] in *.
      pose proof (covers_length _ _ Hc). destruct (record_step signer trust cap observe onAnchor collected trusted key_named collects observes
        k' _ a d w rio times _ _ _ _ _ _ Hr Ht Hwr eq_refl ltac:(lia) E Hf) as (k1' & _ & Hr1 & Ht1 & Hres).
      exists k1, k1'. split; [done|]. split; [done|]. split; [|by exists a1].
      destruct aerr as [er|]; [rewrite Hres; by apply covers_more|]. destruct Hres as (e & -> & Hq & Hd). by apply covers_snoc.
    + exists k1, k'. split; [done|]. cbn [fst snd] in *. split; [done|]. split; [|by exists a].
      unfold landed. destruct (ts_openErr (sa_store s)); [by rewrite app_nil_r|]. destruct (ti_open io); [by rewrite app_nil_r|].
      destruct (ti_write io); [by rewrite app_nil_r|]. by apply covers_more.
  - destruct (open_inv k h (sa_store s) io Hi Hw) as (s' & E & _ & Hi' & _). rewrite E in *. exists k, k'. split; [done|].
    split; [done|]. split; [done|]. eexists. split; [done|]. split; [by destruct Hr|done].
Qed.

Lemma store_step_grows st op :
  exists more, collected (store_step st op).1.2 = collected st.1.2 ++ more /\ (length (store_step st op).2 <= S (length st.2))%nat.
Proof using collects observes.
  assert (Hnil : forall w, collected w = collected w ++ []) by (intros w; by rewrite app_nil_r).
  destruct st as [[[s d] w] h], op as [io rio times t|io]; cbn [store_step fst snd].
  - assert (Hl : (length (h ++ landed (sa_store s) io t) <= S (length h))%nat).
    { rewrite length_app. unfold landed. destruct (ts_openErr _), (ti_open io), (ti_write io); cbn; lia. }
    unfold Append_accepted. destruct (FileBacked_Append _ _ _) as [s1 err]. destruct (sa_acceptance s) as [a|]; [|exists []; by split].
    destruct (reaches_recorder _ _); [|exists []; by split].
    destruct (acceptance_record _ _ _ _ _ _ _ _ _) as [[[states a1] w1] aerr] eqn:E. cbn [fst snd].
    destruct (record_collects observe onAnchor collected collects observes _ _ _ _ _ _ _ _ _ _ _ E) as (more & -> & _). by exists more.
  - exists []. destruct (NewFileBackedTransitionStore io (ts_file (sa_store s))) as [[s1|e] f]; cbn [fst snd]; (split; [apply Hnil|lia]).
Qed.

Lemma store_run_inv io0 s0 ops w0 :
  fst (NewFileBackedTransitionStore io0 None) = Ok s0 -> collected w0 = [] -> Forall whole_store ops -> Z.of_nat (length ops) <= max_int64 ->
  let st := run_list store_step (store_start s0 w0) ops in
  Forall fits (collected st.1.2) -> (length st.2 <= length ops)%nat /\ exists k k', store_inv k k' st.
Proof using trusted key_named collects observes.
  intros H0' Hw0. cbv zeta. induction ops as [|op ops IH] using rev_ind; intros Hw Hlen Hf.
  - split; [done|]. exists 0%nat, 0%nat. split; [by eapply new_inv|]. cbn [store_start sa_store]. rewrite Hw0.
    split; [split; [constructor|by intros e ?%elem_of_nil]|]. eexists. split; [done|].
    destruct (accept_start_inv signer trust cap collected w0 Hw0) as (Hr & Ht & _). rewrite Hw0 in *. by split.
  - rewrite run_list_snoc in *. apply Forall_app in Hw as [Hws Hw]. apply Forall_cons in Hw as [Hw _]. rewrite length_app in *. cbn [length] in *.
    set (st := run_list store_step (store_start s0 w0) ops) in *. destruct (store_step_grows st op) as (more & Hm & Hl).
    assert (Hf0 : Forall fits (collected st.1.2)) by (rewrite Hm in Hf; by apply Forall_app in Hf as [? _]).
    destruct (IH Hws ltac:(lia) Hf0) as [Hl0 (k & k' & Hi)]. split; [lia|].
    destruct (store_step_inv k k' st op Hi Hw Hf ltac:(lia)) as (k1 & k1' & _ & Hi'). by exists k1, k1'.
Qed.

Lemma foldl_min_in l : forall x, foldl Z.min x l ∈ x :: l.
Proof.
  induction l as [|y l IH]; intros x; [left|]. cbn [foldl]. specialize (IH (Z.min x y)). apply elem_of_cons in IH as [E|E].
  - rewrite E. destruct (Z.min_spec x y) as [[_ ->]|[_ ->]]; [by left|right; by left].
  - right. by right.
Qed.

Lemma foldl_max_ge l : forall x q, q ∈ x :: l -> q <= foldl Z.max x l.
Proof.
  induction l as [|y l IH]; intros x q Hq; [apply list_elem_of_singleton in Hq; cbn; lia|]. cbn [foldl].
  assert (Hb : Z.max x y <= foldl Z.max (Z.max x y) l) by (apply IH; left).
  apply elem_of_cons in Hq as [->|Hq]; [lia|]. apply elem_of_cons in Hq as [->|Hq]; [lia|]. apply IH. by right.
Qed.

Lemma zip_maps {A B C} (f : A -> B) (g : A -> C) l : zip (map f l) (map g l) = map (fun x => (f x, g x)) l.
Proof. induction l as [|x l IH]; [done|]. cbn. by rewrite IH. Qed.

(** What a read of an honest store serves. *)
Lemma snapshot_honest k h s rio s' r seqs lo hi :
  log_inv k h s -> h <> [] -> ReadAll rio s = (s', r, seqs, lo, hi) -> tl_LoadErr r = None ->
  let snap := MkStoreSnapshot r seqs lo hi in
  tl_Corrupt r = false /\ length seqs = length (tl_Transitions r) /\
  (forall q, q ∈ seqs <-> Z.of_nat k < q <= Z.of_nat (length h)) /\ Z.of_nat k < lo /\ (forall q, q ∈ seqs -> q <= hi) /\
  (forall q t, (q, t) ∈ records snap -> q ∈ seqs /\ exists i, q = Z.of_nat i + 1 /\ h !! i = Some t) /\
  (forall q, q ∈ seqs -> exists t, (q, t) ∈ records snap).
Proof.
  intros Hi Hne. unfold ReadAll. destruct (ri_ctx rio); [by intros [= <- <- <- <- <-]|].
  destruct (read_scan_inv rio k h s Hi) as (s1 & rs & -> & _ & [[q0 ->]|[e ->]]); [|by intros [= <- <- <- <- <-]].
  intros [= <- <- <- <- <-] _. cbn [tl_Corrupt tl_Transitions sc_records sc_fileDropped sc_metaInconsistent].
  assert (Hseq : forall q, q ∈ map sr_seq (rev (numbered k (drop k h))) <-> Z.of_nat k < q <= Z.of_nat (length h)).
  { intros q. rewrite map_rev, elem_of_reverse_rev, numbered_seqs, in_map', length_drop. split.
    - intros (n & -> & Hn%elem_of_seq). lia.
    - intros Hq. exists (Z.to_nat q). split; [lia|]. apply elem_of_seq. lia. }
  split; [done|]. split; [by rewrite !length_map|]. split; [exact Hseq|].
  assert (Hk : (k < length h)%nat) by (pose proof (li_le _ _ _ Hi); pose proof fileCap_Z; destruct h; [done|cbn in *; lia]).
  split; [|split; [|split]].
  - destruct (map sr_seq _) as [|x l] eqn:El.
    + exfalso. assert (Hin : Z.of_nat (length h) ∈ ([] : list Z)) by (apply Hseq; lia). by apply elem_of_nil in Hin.
    + apply Hseq, foldl_min_in.
  - intros q Hq. apply foldl_max_ge. by right.
  - unfold records. cbn [sn_Seqs sn_load tl_Transitions]. rewrite zip_maps. intros q t (x & [= -> ->] & Hx)%in_map'.
    split; [apply in_map'; by exists x|]. apply (proj1 (elem_of_reverse_rev _ _)) in Hx. apply list_elem_of_lookup in Hx as [i Hx].
    apply list_lookup_imap_Some in Hx as (u & Hu & ->). rewrite lookup_drop in Hu. exists (k + i)%nat. by split.
  - unfold records. cbn [sn_Seqs sn_load tl_Transitions]. rewrite zip_maps. intros q (x & -> & Hx)%in_map'. exists (sr_rec x).
    apply in_map'. by exists x.
Qed.

(** Nothing is accused that nobody touched: over any history of appends to the
    store, of which some fail before they write, are evicted late or find the
    recorder refusing, and of restarts, the view of what the store serves names no
    record as modified or missing; it is [input_ok] when every record served and not
    older than the ledger's first was accepted, and names exactly the others. *)
Theorem input_honest_exact io0 s0 ops w0 :
  fst (NewFileBackedTransitionStore io0 None) = Ok s0 -> collected w0 = [] -> Forall whole_store ops -> Z.of_nat (length ops) <= max_int64 ->
  let '(s, d, w, h) := run_list store_step (store_start s0 w0) ops in
  Forall fits (collected w) ->
  forall rio s' r seqs lo hi io, ReadAll rio (sa_store s) = (s', r, seqs, lo, hi) -> tl_LoadErr r = None -> io_read io = None ->
    let v := InputIntegrityView true io d (Some ka) (MkStoreSnapshot r seqs lo hi) in
    iv_ModifiedIDs v = [] /\ iv_MissingInSpanIDs v = [] /\
    iv_Verdict v = (if decide (collected w = []) then inputVerdictAbsent
                    else if decide (iv_UnacceptedIDs v = []) then inputVerdictOK else inputVerdictIncomplete) /\
    (forall q, q ∈ iv_UnacceptedIDs v <->
       collected w <> [] /\ q ∈ seqs /\ iv_CoverageFloor v < q /\ q ∉ map ae_RecordSeq (collected w)).
Proof using trusted key_named collects observes.
  intros H0' Hw Hops Hlen. pose proof (store_run_inv io0 s0 ops w0 H0' Hw Hops Hlen) as Hrun. cbv zeta in Hrun.
  destruct (run_list store_step (store_start s0 w0) ops) as [[[s d] w] h]. cbn [fst snd] in Hrun. intros Hf.
  destruct (Hrun Hf) as [_ (k & k' & Hi & Hc & a & _ & Hr & _)]. set (c := collected w) in *.
  intros rio s' r seqs lo hi io Hread Hle Hio. cbv zeta. pose proof (load_exact signer trust cap trusted io k' c a d Hr Hio) as Hl. fold ka in Hl.
  destruct (decide (c = [])) as [Hnil|Hne].
  { unfold InputIntegrityView. rewrite Hl, Hnil. cbn. do 3 (split; [done|]). intros q. split; [by intros ?%elem_of_nil|]. intros [Hx _]. exfalso. by apply Hx. }
  destruct (kept_some _ _ _ _ _ _ _ Hr) as [[Hh _]|Hk]; [done|].
  assert (Hh : h <> []) by (intros E; pose proof (covers_length _ _ Hc) as Hx; rewrite E in Hx; cbn in Hx; lia).
  destruct (snapshot_honest k h (sa_store s) rio s' r seqs lo hi Hi Hh Hread Hle) as (Hcor & Hlens & Hseq & Hlo & Hhi & Hrec & Hrec').
  pose proof (view_sound ka io d k' c (MkStoreSnapshot r seqs lo hi) Hl Hne Hk (rising_nodup _ (cv_rising _ _ Hc))) as Hview. cbv zeta in Hview.
  cbn [sn_load sn_Seqs] in Hview. rewrite Hle, Hcor, Hlens, Nat.eqb_refl, bool_decide_eq_true_2 in Hview by done. cbn [negb andb] in Hview.
  set (v := InputIntegrityView _ _ _ _ _) in *. destruct Hview as [Hm Hms Hun Hfl Hvd].
  assert (Hin : forall e, e ∈ drop k' c -> e ∈ c) by (intros e He; rewrite <- (take_drop k' c); apply elem_of_app; by right).
  assert (Hm0 : iv_ModifiedIDs v = []).
  { apply elem_of_nil_inv. intros q (t & e & Ht & He & Hq & Hd)%Hm. destruct (Hrec q t Ht) as (_ & i & -> & Hx).
    destruct (cv_true _ _ Hc e (Hin e He)) as (j & u & Hj & Hqj & Hdj). assert (j = i) as -> by lia. apply Hd. rewrite Hdj. congruence. }
  assert (Hms0 : iv_MissingInSpanIDs v = []).
  { apply elem_of_nil_inv. cbn [sn_MinSeq sn_MaxSeq sn_Seqs] in Hms. intros q ((e & He & Hq) & Hmin & Hbad)%Hms.
    destruct (cv_true _ _ Hc e (Hin e He)) as (j & u & Hj & Hqj & _). apply lookup_lt_Some in Hj.
    assert (Hqs : q ∈ seqs) by (apply Hseq; lia). destruct Hbad as [Hbad|Hbad]; [pose proof (Hhi q Hqs); lia|done]. }
  split; [done|]. split; [done|]. split.
  - rewrite Hvd, (bool_decide_eq_true_2 (_ /\ _)) by done. destruct (decide (iv_UnacceptedIDs v = [])); [by rewrite bool_decide_eq_true_2|by rewrite bool_decide_eq_false_2].
  - intros q. rewrite Hun. split.
    + intros (t & Ht & Hq & Hno). destruct (Hrec q t Ht) as [Hqs _]. split; [done|]. split; [done|]. split; [done|].
      intros (e & Hqe & He)%in_map'. destruct (drop k' c) as [|e0 es0] eqn:Ed; [apply (f_equal length) in Ed; rewrite length_drop in Ed; cbn in Ed; lia|].
      rewrite (Hfl e0 es0 eq_refl) in Hq. rewrite <- (take_drop k' c) in He. apply elem_of_app in He as [He|He]; [|rewrite Ed in He; by apply (Hno e)].
      pose proof (rising_prefix k' c e e0 (cv_rising _ _ Hc) He ltac:(rewrite Ed; left)). lia.
    + intros (_ & Hqs & Hq & Hno). destruct (Hrec' q Hqs) as [t Ht]. exists t. split; [done|]. split; [done|].
      intros e He Hqe. apply Hno, in_map'. exists e. split; [done|by apply Hin].
Qed.

End Verdicts.

End Integrity.

(** ** Witnesses *)

#[local] Existing Instance checksum_crypto.
#[local] Existing Instance sample_acceptance.
#[local] Existing Instance sample_transitions.

Definition edge1 : AlertTransition := sample_edge 5 true.
Definition edge2 : AlertTransition := sample_edge 7 false.
Definition edge3 : AlertTransition := sample_edge 9 true.

Definition two_accepts : list AcceptOp :=
  [ARecord record_ok at_noon 1 (acceptanceCanonicalRecordBytes 1 edge1); ARecord record_ok at_noon 2 (acceptanceCanonicalRecordBytes 2 edge2)].

Definition served (ts : list (Z * AlertTransition)) (lo hi : Z) : StoreSnapshot :=
  MkStoreSnapshot (MkTransitionLoadResult (map snd ts) 0 false false None) (map fst ts) lo hi.

Definition kak_authority : keyAuthority := MkKeyAuthority (Some kak) (Some kak_trust).
Definition two_ledger : LogDisk := (accept_run 0 two_accepts).1.1.2.

Lemma two_whole : Forall whole_accept two_accepts.
Proof. repeat (apply Forall_cons; split; [vm_compute; repeat split; discriminate|]). apply Forall_nil_2. Qed.


(** A served record that was changed, or one that was deleted, shows. *)
Example tampering_shows :
  iv_ModifiedIDs (InputIntegrityView true io_ok two_ledger (Some kak_authority) (served [(2, edge3); (1, edge1)] 1 2)) = [2] /\
  iv_MissingInSpanIDs (InputIntegrityView true io_ok two_ledger (Some kak_authority) (served [(1, edge1)] 1 1)) = [2].
Proof. vm_compute. split; reflexivity. Qed.

(** Three appends; the recorder cannot write the second. *)
Definition three_appends : list StoreOp :=
  [SAppend no_failure record_ok at_noon edge1; SAppend no_failure (record_append io_open_fails) at_noon edge2;
   SAppend no_failure record_ok at_noon edge3].

Definition store_run (ops : list StoreOp) : AcceptedStore * LogDisk * list acceptanceEntry * list AlertTransition :=
  run_list (store_step kak kak_trust 0 None collect) (store_start kak kak_trust 0 sample_store []) ops.

Definition view_of (st : AcceptedStore * LogDisk * list acceptanceEntry * list AlertTransition) : InputIntegrity :=
  let '(_, r, seqs, lo, hi) := ReadAll sample_read (sa_store st.1.1.1) in
  InputIntegrityView true io_ok st.1.1.2 (Some kak_authority) (MkStoreSnapshot r seqs lo hi).

Lemma three_whole : Forall whole_store three_appends.
Proof. repeat (apply Forall_cons; split; [vm_compute; repeat split; discriminate|]). apply Forall_nil_2. Qed.

Example input_honest_exact_witness :
  iv_ModifiedIDs (view_of (store_run three_appends)) = [] /\ iv_MissingInSpanIDs (view_of (store_run three_appends)) = [] /\
  2 ∈ iv_UnacceptedIDs (view_of (store_run three_appends)).
Proof.
  pose proof (input_honest_exact kak kak_trust 0 None collect (fun w => w) sample_trusted ltac:(discriminate) ltac:(done) I
    no_open_failure sample_store three_appends [] sample_opens eq_refl three_whole ltac:(vm_compute; discriminate)) as Hx.
  assert (Hf : forallb fitsb (store_run three_appends).1.2 = true) by (vm_compute; reflexivity).
  assert (Hq : map ae_RecordSeq (store_run three_appends).1.2 = [1; 3]) by (vm_compute; reflexivity).
  assert (Hc : iv_CoverageFloor (view_of (store_run three_appends)) = 0) by (vm_compute; reflexivity).
  assert (Hr : tl_LoadErr (ReadAll sample_read (sa_store (store_run three_appends).1.1.1)).1.1.1.2 = None) by (vm_compute; reflexivity).
  assert (Hs : (ReadAll sample_read (sa_store (store_run three_appends).1.1.1)).1.1.2 = [3; 2; 1]) by (vm_compute; reflexivity).
  change (MkKeyAuthority (Some kak) (Some kak_trust)) with kak_authority in Hx. cbv beta in Hx.
  unfold view_of, store_run in *. destruct (run_list _ _ three_appends) as [[[s d] w] h]. cbn [fst snd] in *.
  destruct (ReadAll sample_read (sa_store s)) as [[[[s' r] seqs] lo] hi] eqn:E. cbn [fst snd] in *.
  destruct (Hx (fitsb_fits _ Hf) sample_read s' r seqs lo hi io_ok E Hr eq_refl) as (Hm & Hms & _ & Hun).
  split; [exact Hm|]. split; [exact Hms|]. apply (proj2 (Hun 2)). split; [intros E0; rewrite E0 in Hq; discriminate Hq|]. split; [rewrite Hs; right; left|].
  split; [rewrite Hc; lia|]. rewrite Hq. clear. intros Hbad. by repeat (apply elem_of_cons in Hbad as [Hbad|Hbad]; [done|]); apply elem_of_nil in Hbad.
Defined.

(** An append whose fsync fails leaves its record in the file and does not
    consume the sequence: the next record is given the same one, and the view
    accuses a store that nobody touched. *)
Example failed_sync_accuses :
  iv_ModifiedIDs (view_of (store_run
    [SAppend (MkTransitionIO None None (Some "EIO") None None) record_ok at_noon edge1; SAppend no_failure record_ok at_noon edge2])) = [1].
Proof. vm_compute. reflexivity. Qed.
