(* ===== verification/Platform.v ===== *)
(** * Hosts and what they can do (internal/core: snapshot, capability.go,
      context.go, the probe of ssh.go; internal/platform/resolver.go)

    Snapshots of the capabilities and the identity of a host, the context that
    caches them per target, their discovery over a connection, and the resolver
    that picks the tool for an intent. The caches of contexts are objects in a
    heap: a context made by [WithExecutionID] shares its parent's. Commands run
    on a host are a function from the command to its trimmed output, the empty
    string where it failed. *)

From Stdlib Require Import Ascii.
From S2P Require Import Prelude GoStrings Executor Remote.

(** ** Snapshots (core/snapshot/snapshot.go) *)

Inductive SnapshotSource : Type := SourceLocal | SourceSSH | SourceCache.

Record CapabilityInfo : Type := MkCapabilityInfo {
  ci_Name : string;
  ci_Available : bool;
  ci_Version : string;
  ci_Details : gmap string string }.

Record CapabilitySnapshot : Type := MkCapabilitySnapshot {
  cs_HostID : string;
  cs_Version : Z;
  cs_Items : gmap string CapabilityInfo;
  cs_CollectedAt : Time;
  cs_Source : SnapshotSource }.

Definition Available (s : option CapabilitySnapshot) (name : string) : bool :=
  match s with
  | None => false
  | Some s => match cs_Items s !! name with Some i => ci_Available i | None => false end
  end.

Definition Get (s : option CapabilitySnapshot) (name : string) : option CapabilityInfo := s ≫= fun s => cs_Items s !! name.

(** What [Hash] writes to SHA-256, and the hash. *)
Definition hash_text (s : CapabilitySnapshot) : string :=
  foldr (fun k t => match cs_Items s !! k with
    | Some i => k +:+ ci_Name i +:+ (if ci_Available i then "1" else "0") +:+ ci_Version i +:+ t
    | None => t end) "" (sort_slice string_ltb (map_to_list (cs_Items s)).*1).

Definition CapabilitySnapshot_Hash (sha256 : string -> string) (s : option CapabilitySnapshot) : string :=
  match s with
  | None => ""
  | Some s => String.substring 0 16 (hex_EncodeToString (sha256 (hash_text s)))
  end.

Definition Sorted_ (s : option CapabilitySnapshot) : list CapabilityInfo :=
  match s with
  | None => []
  | Some s => sort_slice (fun a b => string_ltb (ci_Name a) (ci_Name b)) (map_to_list (cs_Items s)).*2
  end.

Record HostSnapshot : Type := MkHostSnapshot {
  hs_ID : string;
  hs_Name : string;
  hs_Address : string;
  hs_OS : string;
  hs_Arch : string;
  hs_Platform : string;
  hs_Version : string;
  hs_Kernel : string;
  hs_User : string;
  hs_CollectedAt : Time;
  hs_Source : SnapshotSource }.

(** ** The decisioning surface (core/capability.go) *)

Record CapabilityContext : Type := MkCapabilityContext {
  cc_OS : string;
  cc_Arch : string;
  cc_ServiceManager : string;
  HasSystemctl : bool;
  HasFirewalld : bool;
  HasUFW : bool;
  HasIptables : bool;
  HasDocker : bool;
  HasJournalctl : bool;
  IsRoot : bool }.

(** The machine of the control plane: [runtime.GOOS] and [GOARCH], [LookPath],
    the effective user, [Hostname], [localUser] and the clock. *)
Record Machine : Type := MkMachine {
  mc_GOOS : string;
  mc_GOARCH : string;
  mc_LookPath : string -> bool;
  mc_IsRoot : bool;
  mc_Hostname : option string;
  mc_localUser : string;
  mc_now : Time }.

Definition NewCapabilityContext (m : Machine) (s : option CapabilitySnapshot) : CapabilityContext :=
  MkCapabilityContext (mc_GOOS m) (mc_GOARCH m)
    (if Available s "systemd" then "systemctl" else if Available s "service" then "service" else "")
    (Available s "systemd") (Available s "firewalld") (Available s "ufw") (Available s "iptables")
    (Available s "docker") (Available s "journalctl") (mc_IsRoot m).

Definition plain_info (name : string) (avail : bool) : CapabilityInfo := MkCapabilityInfo name avail "" ∅.

Definition localHostID (m : Machine) : string :=
  match mc_Hostname m with Some h => if String.eqb h "" then "local" else h | None => "local" end.

Definition detectLocalCapabilitySnapshot (m : Machine) : CapabilitySnapshot :=
  let mark name avail (items : gmap string CapabilityInfo) := <[name := plain_info name avail]> items in
  let items := if mc_LookPath m "systemctl" then mark "systemd" true ∅
    else if mc_LookPath m "service" then mark "service" true ∅ else ∅ in
  MkCapabilitySnapshot (localHostID m) 1
    (mark "journalctl" (mc_LookPath m "journalctl") (mark "docker" (mc_LookPath m "docker")
      (mark "iptables" (mc_LookPath m "iptables") (mark "ufw" (mc_LookPath m "ufw")
        (mark "firewalld" (mc_LookPath m "firewall-cmd") items)))))
    (mc_now m) SourceLocal.

Definition DetectCapability (m : Machine) : CapabilityContext := NewCapabilityContext m (Some (detectLocalCapabilitySnapshot m)).

(** ** The context (core/context.go)

    Cancellation, the logger and the trace's start are elsewhere. *)

Record UserContext : Type := MkUserContext { uc_ID : string; uc_Name : string; uc_Role : string }.
Record HostContext : Type := MkHostContext { hc_Hostname : string; hc_OS : string; hc_Arch : string }.

Record targetState : Type := MkTargetState {
  st_cap : option CapabilitySnapshot;
  st_host : option HostSnapshot }.

Definition empty_state : targetState := MkTargetState None None.

(** The heap of caches: each maps the key of a target to what is known of it. *)
Abbreviation Caches := (gmap nat (gmap string targetState)).

Record Context_ : Type := MkContext {
  cx_user : UserContext;
  cx_host : HostContext;
  cx_target : TargetHost;
  cx_capability : CapabilityContext;
  cx_states : nat;
  cx_traceID : string;
  cx_executionID : string }.

Definition cache_of (w : Caches) (c : Context_) : gmap string targetState := default ∅ (w !! cx_states c).
Definition state_of (w : Caches) (c : Context_) (t : TargetHost) : option targetState := cache_of w c !! TargetHost_Key t.

Definition Context_Snapshot (w : Caches) (c : Context_) (t : TargetHost) : option CapabilitySnapshot := state_of w c t ≫= st_cap.
Definition Context_HostSnapshotFor (w : Caches) (c : Context_) (t : TargetHost) : option HostSnapshot := state_of w c t ≫= st_host.
Definition Context_CapabilitySnapshot (w : Caches) (c : Context_) : option CapabilitySnapshot := Context_Snapshot w c (cx_target c).
Definition Context_HostSnapshot (w : Caches) (c : Context_) : option HostSnapshot := Context_HostSnapshotFor w c (cx_target c).

Definition put_state (w : Caches) (c : Context_) (t : TargetHost) (f : targetState -> targetState) : Caches :=
  <[cx_states c := <[TargetHost_Key t := f (default empty_state (state_of w c t))]> (cache_of w c)]> w.

Definition with_capability (c : Context_) (cap : CapabilityContext) : Context_ :=
  MkContext (cx_user c) (cx_host c) (cx_target c) cap (cx_states c) (cx_traceID c) (cx_executionID c).

Definition Context_SetSnapshot (m : Machine) (w : Caches) (c : Context_) (t : TargetHost) (s : option CapabilitySnapshot)
  : Caches * Context_ :=
  (put_state w c t (fun st => MkTargetState s (st_host st)),
   if String.eqb (TargetHost_Key t) (TargetHost_Key (cx_target c)) then with_capability c (NewCapabilityContext m s) else c).

Definition Context_SetHostSnapshot (w : Caches) (c : Context_) (t : TargetHost) (h : option HostSnapshot) : Caches :=
  put_state w c t (fun st => MkTargetState (st_cap st) h).

Definition Context_WithExecutionID (c : Context_) (id : string) : Context_ :=
  MkContext (cx_user c) (cx_host c) (cx_target c) (cx_capability c) (cx_states c) (cx_traceID c) id.

(** A fresh, empty cache. *)
Definition new_cache (w : Caches) : Caches * nat := let l := fresh (dom w) in (<[l := ∅]> w, l).

Definition derive_context (w : Caches) (c : Context_) (t : TargetHost) : Caches * Context_ :=
  let '(w, l) := new_cache w in
  (w, MkContext (cx_user c) (cx_host c) t (cx_capability c) l (cx_traceID c) (cx_executionID c)).

Definition WithCancel (w : Caches) (parent : Context_) : Caches * Context_ := derive_context w parent (cx_target parent).
Definition WithTarget (w : Caches) (parent : Context_) (t : TargetHost) : Caches * Context_ := derive_context w parent t.

(** *** The builder *)

Record ContextBuilder : Type := MkBuilder {
  cb_user : UserContext;
  cb_host : HostContext;
  cb_target : TargetHost;
  cb_capability : CapabilityContext;
  cb_capSnap : option CapabilitySnapshot;
  cb_hostSnap : option HostSnapshot;
  cb_traceID : string;
  cb_executionID : string;
  cb_autoDetect : bool }.

Definition no_target : TargetHost := MkTargetHost "" 0 "" "" "" "" false false.
Definition no_capability : CapabilityContext := MkCapabilityContext "" "" "" false false false false false false false.

Definition NewContext (traceID : string) : ContextBuilder :=
  MkBuilder (MkUserContext "" "" "") (MkHostContext "" "" "") no_target no_capability None None traceID "" true.

Definition WithUser (b : ContextBuilder) (u : UserContext) : ContextBuilder :=
  MkBuilder u (cb_host b) (cb_target b) (cb_capability b) (cb_capSnap b) (cb_hostSnap b) (cb_traceID b) (cb_executionID b) (cb_autoDetect b).
Definition Builder_WithTarget (b : ContextBuilder) (t : TargetHost) : ContextBuilder :=
  MkBuilder (cb_user b) (cb_host b) t (cb_capability b) (cb_capSnap b) (cb_hostSnap b) (cb_traceID b) (cb_executionID b) (cb_autoDetect b).
Definition WithCapability (b : ContextBuilder) (c : CapabilityContext) : ContextBuilder :=
  MkBuilder (cb_user b) (cb_host b) (cb_target b) c (cb_capSnap b) (cb_hostSnap b) (cb_traceID b) (cb_executionID b) false.
Definition WithCapabilitySnapshot (m : Machine) (b : ContextBuilder) (s : option CapabilitySnapshot) : ContextBuilder :=
  match s with
  | None => MkBuilder (cb_user b) (cb_host b) (cb_target b) (cb_capability b) None (cb_hostSnap b) (cb_traceID b) (cb_executionID b) (cb_autoDetect b)
  | Some _ => MkBuilder (cb_user b) (cb_host b) (cb_target b) (NewCapabilityContext m s) s (cb_hostSnap b) (cb_traceID b) (cb_executionID b) false
  end.
Definition WithHostSnapshot (b : ContextBuilder) (h : option HostSnapshot) : ContextBuilder :=
  MkBuilder (cb_user b) (cb_host b) (cb_target b) (cb_capability b) (cb_capSnap b) h (cb_traceID b) (cb_executionID b) (cb_autoDetect b).

(** [Build]: what is detected is of this machine, and is kept from the cache of
    a remote target. *)
Definition Build (m : Machine) (w : Caches) (b : ContextBuilder) : Caches * Context_ :=
  let host := if String.eqb (hc_Hostname (cb_host b)) ""
    then MkHostContext (default "" (mc_Hostname m)) (mc_GOOS m) (mc_GOARCH m) else cb_host b in
  let detected := match cb_capSnap b with Some s => Some s | None => Some (detectLocalCapabilitySnapshot m) end in
  let capSnap := if cb_autoDetect b then detected else cb_capSnap b in
  let cap := if cb_autoDetect b then NewCapabilityContext m capSnap else cb_capability b in
  let hostSnap := match cb_hostSnap b with
    | Some h => Some h
    | None => Some (MkHostSnapshot (localHostID m) (hc_Hostname host) (hc_Hostname host) (hc_OS host) (hc_Arch host)
        "" "" "" (mc_localUser m) (mc_now m) SourceLocal)
    end in
  let local := TargetHost_IsZero (cb_target b) in
  let seedCap := if negb local && (if cb_capSnap b is None then true else false) then None else capSnap in
  let seedHost := if negb local && (if cb_hostSnap b is None then true else false) then None else hostSnap in
  let seeds := local || (if seedCap is Some _ then true else false) || (if seedHost is Some _ then true else false) in
  let states := if seeds then {[ TargetHost_Key (cb_target b) := MkTargetState seedCap seedHost ]} else ∅ in
  let l := fresh (dom w) in
  (<[l := states]> w, MkContext (cb_user b) host (cb_target b) cap l (cb_traceID b) (cb_executionID b)).

(** ** Discovery over a connection (core/ssh.go) *)

(** [firstField], the second word where there is one; nothing calls it. *)
Definition firstField (s : string) : string :=
  match Fields s with _ :: x :: _ => x | [x] => x | [] => "" end.

Definition quote : ascii := "034"%char.

Definition with_os_release (hs : HostSnapshot) (key val : string) : HostSnapshot :=
  if String.eqb key "ID" then
    MkHostSnapshot (hs_ID hs) (hs_Name hs) (hs_Address hs) (hs_OS hs) (hs_Arch hs) val (hs_Version hs) (hs_Kernel hs) (hs_User hs) (hs_CollectedAt hs) (hs_Source hs)
  else if String.eqb key "VERSION_ID" then
    MkHostSnapshot (hs_ID hs) (hs_Name hs) (hs_Address hs) (hs_OS hs) (hs_Arch hs) (hs_Platform hs) val (hs_Kernel hs) (hs_User hs) (hs_CollectedAt hs) (hs_Source hs)
  else hs.

(** [parseRemoteOSRelease], and [parseOSRelease] of core/capability, the same text. *)
Definition parseOSRelease (dump : string) (hs : HostSnapshot) : HostSnapshot :=
  foldl (fun hs line =>
    let line := TrimSpace line in
    let key := before_byte "=" line in
    if has_byte "=" line && negb (String.eqb key "") then
      with_os_release hs key (Trim (TrimPrefix (drop_bytes (S (String.length key)) line) (String quote "")) quote)
    else hs) hs (Split dump newline).

(** The OS and the architecture that [uname -srm] names. *)
Definition uname_os (out : string) : string := match Fields out with x :: _ => ToLower x | [] => "" end.
Definition uname_arch (out : string) : string :=
  let f := Fields out in if (3 <=? length f)%nat then default "" (last f) else "".

(** The commands of the probe, by the capability they look for. *)
Definition cap_probes : list (string * string * string) :=
  [("systemd", "command -v systemctl", "systemctl --version"); ("service", "command -v service", "");
   ("firewalld", "command -v firewalld", "firewall-cmd --version"); ("ufw", "command -v ufw", "");
   ("iptables", "command -v iptables", "iptables -V"); ("docker", "command -v docker", "docker version --format '{{.Server.Version}}'");
   ("journalctl", "command -v journalctl", "")].

Definition probe_one (run : string -> string) (items : gmap string CapabilityInfo) (p : string * string * string) : gmap string CapabilityInfo :=
  let '(name, probeCmd, verCmd) := p in
  let avail := negb (String.eqb (run probeCmd) "") in
  <[name := MkCapabilityInfo name avail (if avail then (if String.eqb verCmd "" then "" else run verCmd) else "") ∅]> items.

Definition probeRemoteCapability (now : Time) (run : string -> string) (t : TargetHost) : CapabilitySnapshot * HostSnapshot :=
  let osArch := run "uname -srm" in
  (MkCapabilitySnapshot (th_Address t) 1 (foldl (probe_one run) ∅ cap_probes) now SourceSSH,
   parseOSRelease (run "cat /etc/os-release 2>/dev/null")
     (MkHostSnapshot (th_Address t) (th_Address t) (th_Address t) (uname_os osArch) (uname_arch osArch) "" ""
        (run "uname -r") (run "whoami") now SourceSSH)).

(** [run] is none where the host cannot be reached. *)
Definition EnrichContextForTarget (m : Machine) (run : option (string -> string)) (w : Caches) (c : Context_) (t : TargetHost)
  : Caches * Context_ :=
  if TargetHost_IsZero t || (if Context_CapabilitySnapshot w c is Some _ then true else false) then (w, c)
  else match run with
  | None => (w, c)
  | Some run =>
      let '(caps, host) := probeRemoteCapability (mc_now m) run t in
      let '(w, child) := WithTarget w c t in
      let '(w, child) := Context_SetSnapshot m w child t (Some caps) in
      (Context_SetHostSnapshot w child t (Some host), child)
  end.

(** ** The resolver (platform/resolver.go) *)

Definition ErrCapabilityMissing (what : string) : error := "required capability missing: " +:+ what.

Section Resolver.
Context (w : Caches) (c : Context_).

Definition ServiceManager (remote : bool) : result error string :=
  if negb remote then
    if negb (String.eqb (cc_ServiceManager (cx_capability c)) "") then Ok (cc_ServiceManager (cx_capability c))
    else Err (ErrCapabilityMissing "no service manager (need systemctl or service)")
  else
    let snap := Context_CapabilitySnapshot w c in
    if Available snap "systemd" then Ok "systemctl" else if Available snap "service" then Ok "service" else Ok "systemctl".

Definition PacketFilter (remote : bool) : result error string :=
  if negb remote then
    let cap := cx_capability c in
    if HasFirewalld cap then Ok "firewall-cmd" else if HasUFW cap then Ok "ufw" else if HasIptables cap then Ok "iptables"
    else Err (ErrCapabilityMissing "no packet filter (need firewalld, ufw, or iptables)")
  else
    let snap := Context_CapabilitySnapshot w c in
    if Available snap "firewalld" then Ok "firewall-cmd" else if Available snap "ufw" then Ok "ufw" else Ok "iptables".

Definition LogReader (remote : bool) : result error string :=
  if negb remote then
    if HasJournalctl (cx_capability c) then Ok "journalctl" else Err (ErrCapabilityMissing "no log reader (journalctl) available")
  else Ok "journalctl".

Definition one_of (s : string) (l : list string) : bool := existsb (String.eqb s) l.

Definition packageManagerFor (os platform : string) : string :=
  if one_of platform ["debian"; "ubuntu"; "kali"; "linuxmint"; "pop"; "raspbian"] then "apt-get"
  else if String.eqb platform "fedora" then "dnf"
  else if one_of platform ["rhel"; "centos"; "rocky"; "almalinux"; "ol"; "amzn"] then "dnf"
  else if String.eqb platform "alpine" then "apk"
  else if one_of platform ["opensuse"; "sles"; "suse"] then "zypper"
  else if one_of platform ["arch"; "manjaro"; "endeavouros"] then "pacman"
  else if String.eqb os "darwin" then "brew"
  else if String.eqb os "freebsd" then "pkg"
  else "".

Definition PackageManager : result error string :=
  match Context_HostSnapshot w c with
  | None => Err (ErrCapabilityMissing "no host identity available to select a package manager")
  | Some h =>
      let pm := packageManagerFor (hs_OS h) (hs_Platform h) in
      if String.eqb pm "" then Err (ErrCapabilityMissing ("no package manager for os=" +:+ hs_OS h +:+ " platform=" +:+ hs_Platform h))
      else Ok pm
  end.

Inductive PackageVerb : Type := PkgInstall | PkgRemove | PkgUpdate | PkgList.

Definition verb_text (v : PackageVerb) : string :=
  match v with PkgInstall => "install" | PkgRemove => "remove" | PkgUpdate => "update" | PkgList => "list" end.

Definition packageArgs (pm : string) (verb : PackageVerb) (pkgs : list string) : result error (list string) :=
  let dnf_like := one_of pm ["apt-get"; "dnf"; "yum"; "zypper"] in
  let pm_is x := String.eqb pm x in
  let unsupported := Err (ErrCapabilityMissing ("unsupported package verb " +:+ verb_text verb +:+ " for " +:+ pm)) in
  match verb with
  | PkgInstall =>
      if dnf_like then Ok (["install"; "-y"] ++ pkgs) else if pm_is "apk" then Ok (["add"] ++ pkgs)
      else if pm_is "pacman" then Ok (["-S"; "--noconfirm"] ++ pkgs) else if pm_is "brew" then Ok (["install"] ++ pkgs) else unsupported
  | PkgRemove =>
      if dnf_like then Ok (["remove"; "-y"] ++ pkgs) else if pm_is "apk" then Ok (["del"] ++ pkgs)
      else if pm_is "pacman" then Ok (["-R"; "--noconfirm"] ++ pkgs) else if pm_is "brew" then Ok (["uninstall"] ++ pkgs) else unsupported
  | PkgUpdate =>
      if pm_is "apt-get" || pm_is "apk" then Ok ["update"] else if pm_is "dnf" || pm_is "yum" then Ok ["makecache"]
      else if pm_is "zypper" then Ok ["refresh"] else if pm_is "pacman" then Ok ["-Sy"] else if pm_is "brew" then Ok ["update"] else unsupported
  | PkgList =>
      if pm_is "apt-get" then Ok ["list"; "--installed"] else if pm_is "dnf" || pm_is "yum" then Ok ["list"; "installed"]
      else if pm_is "apk" then Ok ["info"] else if pm_is "zypper" then Ok ["search"; "--installed-only"]
      else if pm_is "pacman" then Ok ["-Q"] else if pm_is "brew" then Ok ["list"] else unsupported
  end.

Definition first_unsafe (pkgs : list string) : option error :=
  foldr (fun p r => match SafeToken p with Some e => Some e | None => r end) None pkgs.

Definition PackageCommand (verb : PackageVerb) (pkgs : list string) : result error (string * list string) :=
  match first_unsafe pkgs with
  | Some e => Err (ErrCapabilityMissing e)
  | None =>
      match PackageManager with
      | Err e => Err e
      | Ok pm => match packageArgs pm verb pkgs with Err e => Err e | Ok args => Ok (pm, args) end
      end
  end.

End Resolver.

(** ** Lemmas: the caches *)

Lemma new_cache_fresh (w : Caches) : fresh (dom w) ∉ dom w.
Proof. apply is_fresh. Qed.

(** A write through a cache is seen through that cache and no other. *)
Lemma state_of_insert w (c c' : Context_) m t :
  cx_states c' <> cx_states c -> state_of (<[cx_states c := m]> w) c' t = state_of w c' t.
Proof. intros Hn. unfold state_of, cache_of. by rewrite lookup_insert_ne. Qed.

Lemma state_of_put w c t f t' :
  state_of (put_state w c t f) c t' =
    if String.eqb (TargetHost_Key t') (TargetHost_Key t) then Some (f (default empty_state (state_of w c t))) else state_of w c t'.
Proof.
  unfold state_of at 1, put_state, cache_of at 1. rewrite lookup_insert_eq. cbn.
  destruct (String.eqb_spec (TargetHost_Key t') (TargetHost_Key t)) as [E|E]; [by rewrite E, lookup_insert_eq|].
  by rewrite lookup_insert_ne by done.
Qed.

(** The caches that were there before. *)
Definition unchanged (w w' : Caches) : Prop := forall c t, cx_states c ∈ dom w -> state_of w' c t = state_of w c t.

Lemma unchanged_fresh w l m : l ∉ dom w -> unchanged w (<[l := m]> w).
Proof.
  intros Hl c t Hc. unfold state_of, cache_of. rewrite lookup_insert_ne; [done|]. by intros ->.
Qed.

Lemma unchanged_trans w1 w2 w3 : dom w1 ⊆ dom w2 -> unchanged w1 w2 -> unchanged w2 w3 -> unchanged w1 w3.
Proof. intros Hd H1 H2 c t Hc. rewrite H2 by by apply Hd. by apply H1. Qed.

Lemma unchanged_put w c t f : forall w0, unchanged w0 w -> cx_states c ∉ dom w0 -> unchanged w0 (put_state w c t f).
Proof.
  intros w0 H Hc c' t' Hc'. unfold put_state. rewrite state_of_insert; [by apply H|]. intros E. by rewrite E in Hc'.
Qed.

Lemma probe_available run name probeCmd verCmd :
  (name, probeCmd, verCmd) ∈ cap_probes ->
  match foldl (probe_one run) ∅ cap_probes !! name with Some i => ci_Available i | None => false end = negb (String.eqb (run probeCmd) "").
Proof.
  unfold cap_probes. intros Hin. cbn [foldl probe_one].
  repeat (apply elem_of_cons in Hin as [[= -> -> ->]|Hin]; [by simplify_map_eq|]). by apply not_elem_of_nil in Hin.
Qed.

(** ** Properties *)

(** The facts of this machine are never another's: a context built for a
    remote target of which nothing was given knows nothing of it; enriching it
    gives it what the target itself answered, each capability exactly when its
    probe answered, and where the target cannot be reached it still knows nothing;
    no other context learns or forgets anything. *)
Theorem remote_context_honest m w b run :
  let t := cb_target b in
  TargetHost_IsZero t = false -> cb_capSnap b = None -> cb_hostSnap b = None ->
  let '(w1, c1) := Build m w b in
  let '(w2, c2) := EnrichContextForTarget m run w1 c1 t in
  Context_CapabilitySnapshot w1 c1 = None /\ Context_HostSnapshot w1 c1 = None /\ cx_target c2 = t /\ unchanged w w2 /\
  match run with
  | None => Context_CapabilitySnapshot w2 c2 = None /\ Context_HostSnapshot w2 c2 = None
  | Some run =>
      let '(caps, host) := probeRemoteCapability (mc_now m) run t in
      Context_CapabilitySnapshot w2 c2 = Some caps /\ Context_HostSnapshot w2 c2 = Some host /\
      cx_capability c2 = NewCapabilityContext m (Some caps) /\
      forall name probeCmd verCmd, (name, probeCmd, verCmd) ∈ cap_probes ->
        Available (Some caps) name = negb (String.eqb (run probeCmd) "")
  end.
Proof.
  cbv zeta. intros Hz Hc Hh. unfold Build. rewrite Hz, Hc, Hh. cbn [negb andb orb].
  set (l := fresh (dom w)). set (c1 := MkContext _ _ _ _ l _ _). set (w1 := <[l := ∅]> w).
  assert (Hempty : forall t, state_of w1 c1 t = None) by (intros t; unfold state_of, cache_of, w1; cbn; by rewrite lookup_insert_eq).
  assert (Hu1 : unchanged w w1) by (apply unchanged_fresh, new_cache_fresh).
  unfold EnrichContextForTarget, Context_CapabilitySnapshot, Context_HostSnapshot, Context_Snapshot, Context_HostSnapshotFor.
  change (cx_target c1) with (cb_target b). rewrite Hz, (Hempty (cb_target b)). cbn [orb mbind option_bind].
  destruct run as [run|]; [|change (cx_target c1) with (cb_target b); rewrite (Hempty (cb_target b)); by split_and!].
  destruct (probeRemoteCapability (mc_now m) run (cb_target b)) as [caps host] eqn:Ep.
  cbn [WithTarget derive_context new_cache]. set (l2 := fresh (dom w1)). set (c2 := MkContext _ _ _ _ l2 _ _). set (w2 := <[l2 := ∅]> w1).
  unfold Context_SetSnapshot, Context_SetHostSnapshot. change (cx_target c2) with (cb_target b). rewrite String.eqb_refl. cbv iota beta.
  change (cx_target (with_capability c2 (NewCapabilityContext m (Some caps)))) with (cb_target b).
  change (put_state (put_state w2 c2 (cb_target b) (fun st => MkTargetState (Some caps) (st_host st)))
    (with_capability c2 (NewCapabilityContext m (Some caps)))) with (put_state (put_state w2 c2 (cb_target b) (fun st => MkTargetState (Some caps) (st_host st))) c2).
  set (w3 := put_state _ _ _ _). assert (Hst : state_of w3 c2 (cb_target b) = Some (MkTargetState (Some caps) (Some host))).
  { unfold w3. rewrite !state_of_put, String.eqb_refl. done. }
  change (state_of w3 (with_capability c2 (NewCapabilityContext m (Some caps)))) with (state_of w3 c2). rewrite Hst.
  split; [done|]. split; [done|]. split; [done|]. split; [|split; [done|split; [done|split; [done|]]]].
  - assert (Hl : l2 ∉ dom w1) by apply new_cache_fresh. assert (Hd : dom w ⊆ dom w1) by (unfold w1; set_solver).
    assert (H2 : unchanged w w2) by (eapply unchanged_trans; [exact Hd|exact Hu1|by apply unchanged_fresh]).
    unfold w3. apply unchanged_put; [apply unchanged_put; [done|]|]; cbn; intros Hin; by apply Hl, Hd.
  - intros name probeCmd verCmd Hin. injection Ep as <- <-. cbn [Available cs_Items]. by apply (probe_available run name probeCmd verCmd).
Qed.

(** What a resolver picks from a snapshot does not depend on where the snapshot
    comes from: for the same snapshot the local surface and the remote cache give
    the same tool wherever the local one gives any; where it gives none the remote
    one falls back to the usual tool. *)
Theorem resolver_agrees m wl cl wr cr s :
  cx_capability cl = NewCapabilityContext m (Some s) -> Context_CapabilitySnapshot wr cr = Some s ->
  let agree (l r : result error string) (usual : string) := match l with Ok tool => r = Ok tool | Err _ => r = Ok usual end in
  agree (ServiceManager wl cl false) (ServiceManager wr cr true) "systemctl" /\
  agree (PacketFilter wl cl false) (PacketFilter wr cr true) "iptables" /\
  agree (LogReader cl false) (LogReader cr true) "journalctl".
Proof.
  intros Hl Hr. unfold ServiceManager, PacketFilter, LogReader. rewrite Hl, Hr. cbn [negb NewCapabilityContext cc_ServiceManager HasFirewalld HasUFW HasIptables HasJournalctl].
  split; [|split].
  - destruct (Available (Some s) "systemd"); [done|]. by destruct (Available (Some s) "service").
  - destruct (Available (Some s) "firewalld"); [done|]. destruct (Available (Some s) "ufw"); [done|]. by destruct (Available (Some s) "iptables").
  - by destruct (Available (Some s) "journalctl").
Qed.

Lemma first_unsafe_none pkgs : first_unsafe pkgs = None <-> Forall (fun p => SafeToken p = None) pkgs.
Proof.
  induction pkgs as [|p pkgs IH]; cbn; [by split|]. rewrite Forall_cons, <- IH. destruct (SafeToken p); [|by split; [split|intros []]].
  split; [done|by intros []].
Qed.

(** The managers of the table, and the words they put before the packages. *)
Definition known_managers : list string := ["apt-get"; "dnf"; "apk"; "zypper"; "pacman"; "brew"; "pkg"].

Lemma package_manager_known os platform : packageManagerFor os platform = "" \/ packageManagerFor os platform ∈ known_managers.
Proof.
  unfold packageManagerFor. repeat (match goal with |- context [if ?b then _ else _] => destruct b end; [right; set_solver|]). by left.
Qed.

Lemma package_manager_in w c pm : PackageManager w c = Ok pm -> pm ∈ known_managers.
Proof.
  unfold PackageManager. destruct (Context_HostSnapshot w c) as [h|]; [|done].
  destruct (package_manager_known (hs_OS h) (hs_Platform h)) as [E|E]; [by rewrite E|].
  destruct (String.eqb _ ""); [done|]. by intros [= <-].
Qed.

(** A package command is exact: it comes out exactly when every name is a
    safe token, the host is known and its manager supports the verb, which every
    manager of the table but FreeBSD's does; the words before the names are fixed
    by manager and verb, and the names follow, as they are, for the verbs that
    take them. *)
Theorem package_command_exact w c verb pkgs :
  let named := match verb with PkgInstall | PkgRemove => pkgs | PkgUpdate | PkgList => [] end in
  match PackageCommand w c verb pkgs with
  | Ok (pm, args) =>
      Forall (fun p => SafeToken p = None) pkgs /\ PackageManager w c = Ok pm /\ pm <> "pkg" /\
      exists flags, packageArgs pm verb [] = Ok flags /\ args = flags ++ named
  | Err _ => ~ Forall (fun p => SafeToken p = None) pkgs \/ (forall pm, PackageManager w c = Ok pm -> pm = "pkg")
  end.
Proof.
  cbv zeta. unfold PackageCommand. destruct (first_unsafe pkgs) as [e|] eqn:Ef.
  { left. rewrite <- first_unsafe_none, Ef. done. }
  apply first_unsafe_none in Ef. destruct (PackageManager w c) as [pm|e] eqn:Ep; [|by right].
  pose proof (package_manager_in w c pm Ep) as Hpm.
  unfold known_managers in Hpm.
  repeat (apply elem_of_cons in Hpm as [->|Hpm]; [destruct verb; cbn; first
    [by right; intros ? [= <-] | by split; [exact Ef|split; [done|split; [done|eexists; split; [reflexivity|]]]]]|]).
  by apply not_elem_of_nil in Hpm.
Qed.

(** Packages are never managed on the local machine: the context of a local
    run on Linux names no distribution, so every package command is refused,
    whatever the machine has. *)
Theorem local_packages_unresolved m w b verb pkgs :
  TargetHost_IsZero (cb_target b) = true -> cb_hostSnap b = None -> hc_Hostname (cb_host b) = "" -> mc_GOOS m = "linux" ->
  let '(w1, c1) := Build m w b in is_ok (PackageCommand w1 c1 verb pkgs) = false.
Proof.
  intros Hz Hh Hn Hos. unfold Build. rewrite Hz, Hh, Hn, Hos. cbn [negb andb orb String.eqb].
  unfold PackageCommand. destruct (first_unsafe pkgs); [done|]. unfold PackageManager, Context_HostSnapshot, Context_HostSnapshotFor, state_of, cache_of.
  cbn [cx_states cx_target]. rewrite lookup_insert_eq. cbn [default from_option id]. by rewrite lookup_singleton_eq.
Qed.

(** The fingerprint does not determine the capabilities: it hashes names and
    versions with nothing between them, and two sets that differ in what is
    available have the same one, whatever the hash function. *)
Theorem capability_hash_ambiguous :
  exists s1 s2, Available (Some s1) "b" = true /\ Available (Some s2) "b" = false /\
    forall sha256, CapabilitySnapshot_Hash sha256 (Some s1) = CapabilitySnapshot_Hash sha256 (Some s2).
Proof.
  exists (MkCapabilitySnapshot "h" 1 (<["a" := plain_info "a" true]> {["b" := plain_info "b" true]}) 0 SourceSSH),
    (MkCapabilitySnapshot "h" 1 {["a" := MkCapabilityInfo "a" true "bb1" ∅]} 0 SourceSSH).
  split; [done|]. split; [done|]. intros sha. unfold CapabilitySnapshot_Hash. f_equal.
Qed.

(** ** Witnesses *)

Definition sample_machine : Machine :=
  MkMachine "linux" "amd64" (fun tool => one_of tool ["systemctl"; "iptables"; "apt-get"]) true (Some "control") "root" 100.

Definition sample_target : TargetHost := MkTargetHost "web-01" 0 "root" "" "" "" false false.

(** A host with ufw and Debian. *)
Definition sample_run (cmd : string) : string :=
  if String.eqb cmd "command -v ufw" then "/usr/sbin/ufw"
  else if String.eqb cmd "uname -srm" then "Linux 6.1.0 x86_64"
  else if String.eqb cmd "cat /etc/os-release 2>/dev/null" then "NAME=Debian" +:+ String newline "ID=debian" else "".

Example remote_context_honest_witness :
  let '(w1, c1) := Build sample_machine ∅ (Builder_WithTarget (NewContext "t") sample_target) in
  let '(w2, c2) := EnrichContextForTarget sample_machine (Some sample_run) w1 c1 sample_target in
  Context_CapabilitySnapshot w1 c1 = None /\ cx_target c2 = sample_target /\
  PacketFilter w2 c2 true = Ok "ufw" /\ PackageCommand w2 c2 PkgInstall ["nginx"] = Ok ("apt-get", ["install"; "-y"; "nginx"]).
Proof.
  pose proof (remote_context_honest sample_machine ∅ (Builder_WithTarget (NewContext "t") sample_target) (Some sample_run) eq_refl eq_refl eq_refl) as Hx.
  destruct (Build sample_machine ∅ (Builder_WithTarget (NewContext "t") sample_target)) as [w1 c1] eqn:E1.
  change (cb_target (Builder_WithTarget (NewContext "t") sample_target)) with sample_target in Hx.
  destruct (EnrichContextForTarget sample_machine (Some sample_run) w1 c1 sample_target) as [w2 c2] eqn:E2.
  destruct Hx as (H1 & _ & H3 & _ & H5). destruct (probeRemoteCapability _ sample_run sample_target) as [caps host] eqn:Ep.
  destruct H5 as (H5 & H6 & _). split; [exact H1|]. split; [exact H3|]. unfold PacketFilter, PackageCommand, PackageManager. rewrite H5, H6.
  injection Ep as <- <-. split; vm_compute; reflexivity.
Defined.

Definition sample_caps : CapabilitySnapshot :=
  MkCapabilitySnapshot "web-01" 1 (<["service" := plain_info "service" true]> {["ufw" := plain_info "ufw" true]}) 0 SourceSSH.

Definition sample_remote (cap : CapabilityContext) : Context_ :=
  MkContext (MkUserContext "" "" "") (MkHostContext "" "" "") sample_target cap 0 "" "".

Example resolver_agrees_witness :
  ServiceManager {[0%nat := {[TargetHost_Key sample_target := MkTargetState (Some sample_caps) None]}]} (sample_remote no_capability) true = Ok "service".
Proof.
  assert (E : ServiceManager ∅ (sample_remote (NewCapabilityContext sample_machine (Some sample_caps))) false = Ok "service") by (vm_compute; reflexivity).
  pose proof (resolver_agrees sample_machine ∅ (sample_remote (NewCapabilityContext sample_machine (Some sample_caps)))
    {[0%nat := {[TargetHost_Key sample_target := MkTargetState (Some sample_caps) None]}]} (sample_remote no_capability) sample_caps
    eq_refl eq_refl) as (H & _).
  rewrite E in H. exact H.
Defined.

Example local_packages_unresolved_witness :
  let '(w1, c1) := Build sample_machine ∅ (NewContext "t") in is_ok (PackageCommand w1 c1 PkgInstall ["nginx"]) = false.
Proof. exact (local_packages_unresolved sample_machine ∅ (NewContext "t") PkgInstall ["nginx"] eq_refl eq_refl eq_refl eq_refl). Defined.
