(* ===== verification/Builtin.v ===== *)
(** * Builtin operations (internal/builtin, internal/core/step.go)

    The handlers that turn the input of a builtin operation into a plan of
    command steps, their registration, and what a command step answers. A handler
    is pure: it reads the context and the input, and the resolver picks the tool.
    The decoding of the input into a request is JSON, a class. *)

From Stdlib Require Import Floats.SpecFloat.
From S2P Require Import Prelude GoStrings GoFloat Executor Remote Dispatch Platform.

(** ** Command steps (core/step.go) *)

Record CommandStep : Type := MkCommandStep {
  cmd_Name : string;
  cmd_ID : string;
  cmd_Index : Z;
  cmd_Executable : string;
  cmd_Args : list string;
  cmd_Env : gmap string string;
  cmd_WorkingDir : string;
  cmd_Timeout : Duration }.

Definition command (name exe : string) (args : list string) (timeout : Duration) : CommandStep :=
  MkCommandStep name "" 0 exe args ∅ "" timeout.

Definition join_words (l : list string) : string := match l with [] => "" | x :: l => foldl (fun s w => s +:+ " " +:+ w) x l end.

Definition CommandStep_Describe (s : CommandStep) : string :=
  cmd_Name s +:+ ": " +:+ join_words (cmd_Executable s :: cmd_Args s).

Definition step_timeout (s : CommandStep) : Duration := if cmd_Timeout s =? 0 then 30 * Second else cmd_Timeout s.

(** The answer of [Execute], local or remote, given what the process did; the
    command line that a remote host gets is [buildRemoteCommand]. *)
Definition CommandStep_result (s : CommandStep) (stdout stderr : string) (err : option error) (duration : Duration) : StepResult :=
  MkStepResult (cmd_Name s) (if String.eqb (cmd_ID s) "" then "step-" +:+ pretty (cmd_Index s) else cmd_ID s) (cmd_Index s)
    (if err is None then true else false)
    (match err with Some _ => if String.eqb stderr "" then stdout else stderr | None => stdout end) err duration.

Definition remote_command (t : TargetHost) (s : CommandStep) : string := buildRemoteCommand t (cmd_Executable s) (cmd_Args s).

(** A step of a builtin plan; [CollectStep] reads the capabilities in process. *)
Inductive Step : Type := Command (s : CommandStep) | CollectStep.

Definition Step_Describe (s : Step) : string :=
  match s with Command s => CommandStep_Describe s | CollectStep => "collect_capability" end.

(** ** Input *)

(** The values of an input map that a handler looks at itself. *)
Inductive Any : Type :=
| AnyFloat (n : float64)
| AnyInt (n : Z)
| AnyString (s : string)
| AnyOther.

Definition Input : Type := gmap string Any.
Definition Ctx : Type := Caches * Context_.

Record InstallRequest : Type := MkInstallRequest { ir_Names : list string }.
Record RemoveRequest : Type := MkRemoveRequest { rr_Names : list string }.
Record RestartServiceRequest : Type := MkRestartServiceRequest { rs_Name : string }.
Record StartServiceRequest : Type := MkStartServiceRequest { ss_Name : string }.
Record StopServiceRequest : Type := MkStopServiceRequest { sp_Name : string }.
Record CreateRequest : Type := MkCreateRequest { cr_Name : string; cr_Group : string; cr_Shell : string; cr_System : bool }.
Record DeleteRequest : Type := MkDeleteRequest { dr_Name : string; dr_Recursive : bool }.
Record JournalLogRequest : Type := MkJournalLogRequest { jl_Unit : string; jl_Lines : Z; jl_Since : string }.
Record FirewallRuleRequest : Type := MkFirewallRuleRequest { fr_Port : Z; fr_Protocol : string; fr_Action : string; fr_Source : string }.

(** [DecodeInput] at the types of requests. *)
Class DecodeInput := {
  decode_install : Input -> result error InstallRequest;
  decode_remove : Input -> result error RemoveRequest;
  decode_restart : Input -> result error RestartServiceRequest;
  decode_start : Input -> result error StartServiceRequest;
  decode_stop : Input -> result error StopServiceRequest;
  decode_create : Input -> result error CreateRequest;
  decode_delete : Input -> result error DeleteRequest;
  decode_journal : Input -> result error JournalLogRequest;
  decode_rule : Input -> result error FirewallRuleRequest }.

(** ** Plans *)

Record BuiltinPlan : Type := MkBuiltinPlan {
  bp_OperationName : string;
  bp_Permission : Permission;
  bp_Risk : RiskLevel;
  bp_Steps : list Step }.

Definition core_plan (p : BuiltinPlan) : ExecutionPlan :=
  MkExecutionPlan (bp_OperationName p) (map Step_Describe (bp_Steps p)) (bp_Permission p) (bp_Risk p) 0 "" "".

Definition one_step (name : string) (perm : Permission) (risk : RiskLevel) (s : CommandStep) : result error BuiltinPlan :=
  Ok (MkBuiltinPlan name perm risk [Command s]).

Definition ErrInvalidInput (what : string) : error := "invalid input: " +:+ what.
Definition missing_name : error := ErrInvalidInput "missing required parameter name".
Definition missing_names : error := ErrInvalidInput "missing required parameter names".

Section Builtin.
Context `{DecodeInput}.

Definition PlanFn : Type := Ctx -> Input -> result error BuiltinPlan.

Definition remote (ctx : Ctx) : bool := negb (TargetHost_IsZero (cx_target (snd ctx))).
Definition service_manager (ctx : Ctx) : result error string := ServiceManager (fst ctx) (snd ctx) (remote ctx).

(** *** capability, host, disk, process *)

Definition capability_ListHandler_Plan : PlanFn := fun _ _ =>
  Ok (MkBuiltinPlan "system.host.capability.list" (MkPermission "system.host" "read") RiskLow [CollectStep]).

Definition InfoHandler_Plan : PlanFn := fun _ _ =>
  Ok (MkBuiltinPlan "system.host.info" (MkPermission "system.host" "info") RiskLow
    [Command (command "uptime" "uptime" [] (10 * Second)); Command (command "kernel" "uname" ["-a"] (10 * Second));
     Command (command "memory" "free" ["-h"] (10 * Second)); Command (command "disk" "df" ["-h"; "/"] (10 * Second))]).

Definition RebootHandler_Plan : PlanFn := fun _ _ =>
  one_step "system.host.reboot" (MkPermission "system.host" "reboot") RiskCritical (command "reboot" "reboot" [] (30 * Second)).

Definition UsageHandler_Plan : PlanFn := fun _ _ =>
  one_step "system.disk.usage" (MkPermission "system.disk" "usage") RiskLow (command "disk-usage" "df" ["-h"] (15 * Second)).

Definition disk_ListHandler_Plan : PlanFn := fun _ _ =>
  one_step "system.disk.list" (MkPermission "system.disk" "list") RiskLow
    (command "list-block-devices" "lsblk" ["-o"; "NAME,SIZE,TYPE,MOUNTPOINT,FSTYPE"] (15 * Second)).

Definition MountsHandler_Plan : PlanFn := fun _ _ =>
  one_step "system.disk.mounts" (MkPermission "system.disk" "mounts") RiskLow
    (command "list-mounts" "findmnt" ["-o"; "TARGET,SOURCE,FSTYPE,OPTIONS"] (15 * Second)).

Definition process_ListHandler_Plan : PlanFn := fun _ _ =>
  one_step "system.process.list" (MkPermission "system.process" "list") RiskLow
    (command "ps" "ps" ["-eo"; "pid,user,comm,%cpu,%mem,etime"; "--sort=-%cpu"] (10 * Second)).

(** [int(n)] of a float that is no int64 compares unequal to it. *)
Definition toPositiveInt (v : option Any) : option Z :=
  match v with
  | Some (AnyFloat n) =>
      let i := f64_to_Z n in
      if f64_gtb n f64_zero && (i <=? max_int64) && SFeqb n (f64_of_Z i) then Some i else None
  | Some (AnyInt n) => if 0 <? n then Some n else None
  | Some (AnyString s) => match ParseInt (TrimSpace s) with Some i => if 0 <? i then Some i else None | None => None end
  | _ => None
  end.

Definition normalizeSignal (s : string) : string :=
  if one_of s ["9"; "KILL"; "kill"; "SIGKILL"] then "9"
  else if one_of s ["15"; "TERM"; "term"; "SIGTERM"] then "TERM"
  else if one_of s ["2"; "INT"; "int"; "SIGINT"] then "INT"
  else if one_of s ["1"; "HUP"; "hup"; "SIGHUP"] then "HUP"
  else s.

Definition KillHandler_Plan : PlanFn := fun _ input =>
  match toPositiveInt (input !! "pid") with
  | None => Err (ErrInvalidInput "pid must be a positive integer")
  | Some pid =>
      let signal := match input !! "signal" with
        | Some (AnyString s) => if String.eqb s "" then "TERM" else normalizeSignal s
        | _ => "TERM"
        end in
      one_step "system.process.kill" (MkPermission "system.process" "kill") RiskHigh
        (command "kill" "kill" ["-" +:+ signal; pretty pid] (10 * Second))
  end.

(** *** journal *)

Definition LogHandler_Plan : PlanFn := fun ctx input =>
  match decode_journal input with
  | Err e => Err e
  | Ok req =>
      if jl_Lines req <? 0 then Err (ErrInvalidInput "lines must not be negative")
      else
        let lines := if jl_Lines req =? 0 then 100 else jl_Lines req in
        match LogReader (snd ctx) (remote ctx) with
        | Err e => Err e
        | Ok reader =>
            one_step "system.journal.log" (MkPermission "system.journal" "read") RiskLow
              (command "journal" reader
                ((if String.eqb (jl_Unit req) "" then [] else ["-u"; jl_Unit req]) ++
                 (if String.eqb (jl_Since req) "" then [] else ["--since"; jl_Since req]) ++
                 ["-n"; pretty lines; "--no-pager"]) (15 * Second))
        end
  end.

(** *** packages *)

Definition package_plan (op : string) (risk : RiskLevel) (step : string) (timeout : Duration) (cmd : result error (string * list string))
  : result error BuiltinPlan :=
  match cmd with
  | Err e => Err e
  | Ok (pm, args) => one_step ("system.package." +:+ op) (MkPermission "system.package" op) risk (command step pm args timeout)
  end.

Definition InstallHandler_Plan : PlanFn := fun ctx input =>
  match decode_install input with
  | Err e => Err e
  | Ok req => if (length (ir_Names req) =? 0)%nat then Err missing_names else
      package_plan "install" RiskMedium "install-packages" (10 * Minute) (PackageCommand (fst ctx) (snd ctx) PkgInstall (ir_Names req))
  end.

Definition RemoveHandler_Plan : PlanFn := fun ctx input =>
  match decode_remove input with
  | Err e => Err e
  | Ok req => if (length (rr_Names req) =? 0)%nat then Err missing_names else
      package_plan "remove" RiskHigh "remove-packages" (10 * Minute) (PackageCommand (fst ctx) (snd ctx) PkgRemove (rr_Names req))
  end.

Definition UpdateHandler_Plan : PlanFn := fun ctx _ =>
  package_plan "update" RiskMedium "update-package-cache" (5 * Minute) (PackageCommand (fst ctx) (snd ctx) PkgUpdate []).

Definition package_ListHandler_Plan : PlanFn := fun ctx _ =>
  package_plan "list" RiskLow "list-packages" (30 * Second) (PackageCommand (fst ctx) (snd ctx) PkgList []).

(** *** services *)

Definition service_ListHandler_Plan : PlanFn := fun ctx _ =>
  match service_manager ctx with
  | Err e => Err e
  | Ok mgr => one_step "system.service.list" (MkPermission "system.service" "list") RiskLow
      (command "list-units" mgr ["list-units"; "--no-pager"; "--no-legend"] (10 * Second))
  end.

Definition RestartHandler_Plan : PlanFn := fun ctx input =>
  match decode_restart input with
  | Err e => Err e
  | Ok req => if String.eqb (rs_Name req) "" then Err missing_name else
      match service_manager ctx with
      | Err e => Err e
      | Ok mgr => Ok (MkBuiltinPlan "system.service.restart" (MkPermission "system.service" "restart") RiskMedium
          [Command (command "check-active" mgr ["is-active"; rs_Name req] (5 * Second));
           Command (command "restart" mgr ["restart"; rs_Name req] (30 * Second));
           Command (command "verify-active" mgr ["is-active"; rs_Name req] (5 * Second))])
      end
  end.

Definition StartHandler_Plan : PlanFn := fun ctx input =>
  match decode_start input with
  | Err e => Err e
  | Ok req => if String.eqb (ss_Name req) "" then Err missing_name else
      match service_manager ctx with
      | Err e => Err e
      | Ok mgr => one_step "system.service.start" (MkPermission "system.service" "start") RiskMedium
          (command "start" mgr ["start"; ss_Name req] (30 * Second))
      end
  end.

Definition StopHandler_Plan : PlanFn := fun ctx input =>
  match decode_stop input with
  | Err e => Err e
  | Ok req => if String.eqb (sp_Name req) "" then Err missing_name else
      match service_manager ctx with
      | Err e => Err e
      | Ok mgr => one_step "system.service.stop" (MkPermission "system.service" "stop") RiskMedium
          (command "stop" mgr ["stop"; sp_Name req] (30 * Second))
      end
  end.

(** *** users *)

Definition token_ok (f : string) : bool := String.eqb f "" || String.eqb f "-" || (if SafeToken f is None then true else false).

Definition CreateHandler_Plan : PlanFn := fun _ input =>
  match decode_create input with
  | Err e => Err e
  | Ok req =>
      if String.eqb (cr_Name req) "" then Err missing_name
      else if negb (forallb token_ok [cr_Name req; cr_Group req; cr_Shell req]) then Err (ErrInvalidInput ErrUnsafeArgument)
      else one_step "system.user.create" (MkPermission "system.user" "create") RiskHigh
        (command "create-user" "useradd"
          (["-m"] ++ (if cr_System req then ["-r"] else []) ++ (if String.eqb (cr_Shell req) "" then [] else ["-s"; cr_Shell req]) ++
           (if String.eqb (cr_Group req) "" then [] else ["-g"; cr_Group req]) ++ [cr_Name req]) (30 * Second))
  end.

Definition DeleteHandler_Plan : PlanFn := fun _ input =>
  match decode_delete input with
  | Err e => Err e
  | Ok req =>
      if String.eqb (dr_Name req) "" then Err missing_name
      else one_step "system.user.delete" (MkPermission "system.user" "delete") RiskHigh
        (command "delete-user" "userdel" ((if dr_Recursive req then ["-r"] else []) ++ [dr_Name req]) (30 * Second))
  end.

Definition user_ListHandler_Plan : PlanFn := fun _ _ =>
  one_step "system.user.list" (MkPermission "system.user" "list") RiskLow (command "list-users" "getent" ["passwd"] (15 * Second)).

(** *** firewall *)

Definition normalize (r : FirewallRuleRequest) : result error FirewallRuleRequest :=
  if (fr_Port r <=? 0) || (65535 <? fr_Port r) then Err (ErrInvalidInput "port must be between 1 and 65535")
  else if negb (one_of (fr_Protocol r) [""; "tcp"; "udp"]) then Err (ErrInvalidInput "protocol must be tcp or udp")
  else if negb (one_of (fr_Action r) [""; "allow"; "deny"]) then Err (ErrInvalidInput "action must be allow or deny")
  else Ok (MkFirewallRuleRequest (fr_Port r) (if String.eqb (fr_Protocol r) "" then "tcp" else fr_Protocol r)
    (if String.eqb (fr_Action r) "" then "allow" else fr_Action r) (fr_Source r)).

Definition buildRuleArgs (tool : string) (req : FirewallRuleRequest) (remove : bool) : list string :=
  let port := pretty (fr_Port req) in
  let portproto := port +:+ "/" +:+ fr_Protocol req in
  if String.eqb tool "firewall-cmd" then [if remove then "--remove-port" else "--add-port"; portproto]
  else if String.eqb tool "ufw" then
    (if remove then ["delete"; "allow"] else ["allow"]) ++
    (if String.eqb (fr_Source req) "" then [portproto]
     else ["from"; fr_Source req; "to"; "any"; "port"; port; "proto"; fr_Protocol req])
  else if String.eqb tool "iptables" then
    [if remove then "-D" else "-A"; "INPUT"; "-p"; fr_Protocol req; "--dport"; port] ++
    (if String.eqb (fr_Source req) "" then [] else ["-s"; fr_Source req]) ++
    ["-j"; if remove then "ACCEPT" else if String.eqb (fr_Action req) "deny" then "DROP" else "ACCEPT"]
  else [].

Definition RuleHandler_Plan (remove : bool) : PlanFn := fun ctx input =>
  match decode_rule input with
  | Err e => Err e
  | Ok req =>
      match normalize req with
      | Err e => Err e
      | Ok req =>
          match PacketFilter (fst ctx) (snd ctx) (remote ctx) with
          | Err e => Err e
          | Ok tool =>
              let action := if remove then "remove" else "add" in
              one_step ("firewall.rule." +:+ action) (MkPermission "firewall.rule" action) RiskHigh
                (command (action +:+ "-rule") tool (buildRuleArgs tool req remove) (15 * Second))
          end
      end
  end.

Definition firewall_ListHandler_Plan : PlanFn := fun ctx _ =>
  match PacketFilter (fst ctx) (snd ctx) (remote ctx) with
  | Err e => Err e
  | Ok tool => one_step "firewall.rule.list" (MkPermission "firewall.rule" "list") RiskLow
      (command "list-rules" tool
        (if String.eqb tool "firewall-cmd" then ["--list-all"] else if String.eqb tool "ufw" then ["status"] else ["-L"; "-n"]) (10 * Second))
  end.

(** ** Registration (the modules) *)

Record Registration : Type := MkRegistration {
  reg_Name : string;
  reg_Permission : Permission;
  reg_Risk : RiskLevel;
  reg_Plan : PlanFn }.

Definition reg (name res action : string) (risk : RiskLevel) (plan : PlanFn) : Registration :=
  MkRegistration name (MkPermission res action) risk plan.

Definition capability_module : list Registration :=
  [reg "system.host.capability.list" "system.host" "read" RiskLow capability_ListHandler_Plan].
Definition host_module : list Registration :=
  [reg "system.host.info" "system.host" "info" RiskLow InfoHandler_Plan;
   reg "system.host.reboot" "system.host" "reboot" RiskCritical RebootHandler_Plan].
Definition disk_module : list Registration :=
  [reg "system.disk.usage" "system.disk" "usage" RiskLow UsageHandler_Plan;
   reg "system.disk.list" "system.disk" "list" RiskLow disk_ListHandler_Plan;
   reg "system.disk.mounts" "system.disk" "mounts" RiskLow MountsHandler_Plan].
Definition process_module : list Registration :=
  [reg "system.process.list" "system.process" "list" RiskLow process_ListHandler_Plan;
   reg "system.process.kill" "system.process" "kill" RiskHigh KillHandler_Plan].
Definition journal_module : list Registration :=
  [reg "system.journal.log" "system.journal" "read" RiskLow LogHandler_Plan].
Definition package_module : list Registration :=
  [reg "system.package.install" "system.package" "install" RiskMedium InstallHandler_Plan;
   reg "system.package.remove" "system.package" "remove" RiskHigh RemoveHandler_Plan;
   reg "system.package.update" "system.package" "update" RiskMedium UpdateHandler_Plan;
   reg "system.package.list" "system.package" "list" RiskLow package_ListHandler_Plan].
Definition service_module : list Registration :=
  [reg "system.service.restart" "system.service" "restart" RiskMedium RestartHandler_Plan;
   reg "system.service.list" "system.service" "list" RiskLow service_ListHandler_Plan;
   reg "system.service.start" "system.service" "start" RiskMedium StartHandler_Plan;
   reg "system.service.stop" "system.service" "stop" RiskMedium StopHandler_Plan].
Definition user_module : list Registration :=
  [reg "system.user.create" "system.user" "create" RiskHigh CreateHandler_Plan;
   reg "system.user.delete" "system.user" "delete" RiskHigh DeleteHandler_Plan;
   reg "system.user.list" "system.user" "list" RiskLow user_ListHandler_Plan].
Definition firewall_module : list Registration :=
  [reg "firewall.rule.add" "firewall.rule" "add" RiskHigh (RuleHandler_Plan false);
   reg "firewall.rule.remove" "firewall.rule" "remove" RiskHigh (RuleHandler_Plan true);
   reg "firewall.rule.list" "firewall.rule" "list" RiskLow firewall_ListHandler_Plan].

Definition handler_of (plan : PlanFn) : Handler (Ctx := Ctx) (Input := Input) :=
  fun ctx input => match plan ctx input with Ok p => Ok (core_plan p) | Err e => Err e end.

Definition operation_of (b : Registration) : Operation Ctx Input :=
  MkOperation (reg_Name b) (reg_Permission b) (reg_Risk b) (handler_of (reg_Plan b)) "".

(** [RegisterAll] *)
Definition RegisterAll (r : Registry Ctx Input) (modules : list (list Registration)) : Registry Ctx Input :=
  foldl (fun r m => foldl (fun r b => Registry_Register r (operation_of b)) r m) r modules.

(** The modules in the order of cmd/opscore. *)
Definition builtin_modules : list (list Registration) :=
  [service_module; firewall_module; journal_module; host_module; process_module; capability_module; package_module; user_module; disk_module].

Definition builtins : list Registration := concat builtin_modules.

(** ** Lemmas *)

Definition registered (r : Registry Ctx Input) (l : list Registration) : Registry Ctx Input :=
  foldl (fun r b => Registry_Register r (operation_of b)) r l.

Lemma register_all r ms : RegisterAll r ms = registered r (concat ms).
Proof.
  unfold RegisterAll, registered. revert r. induction ms as [|m ms IH]; intros r; [done|]. cbn [foldl concat]. by rewrite IH, foldl_app.
Qed.

Lemma registered_lookup l r name op : registered r l !! name = Some op ->
  (exists b, b ∈ l /\ op = operation_of b /\ reg_Name b = name) \/ r !! name = Some op.
Proof.
  revert r. induction l as [|b l IH]; intros r Hl; [by right|].
  destruct (IH _ Hl) as [(b' & Hb & -> & Hn)|Hr]; [left; exists b'; split; [by right|done]|].
  unfold Registry_Register in Hr. unfold Registry in *. destruct (decide (op_Name (operation_of b) = name)) as [E|E].
  - rewrite E, lookup_insert_eq in Hr. injection Hr as <-. left. exists b. split; [left|done].
  - rewrite lookup_insert_ne in Hr by done. by right.
Qed.

(** What a registration and its plans agree on. *)
Definition declared (b : Registration) : Prop :=
  forall ctx input p, reg_Plan b ctx input = Ok p ->
  bp_OperationName p = reg_Name b /\ bp_Permission p = reg_Permission b /\ bp_Risk p = reg_Risk b /\ bp_Steps p <> [].

(** Open the tests in front of a plan. *)
Ltac plan_cases Hp :=
  repeat (match type of Hp with (match ?x with _ => _ end) = Ok _ => destruct x eqn:? end; try discriminate Hp); injection Hp as <-.

Lemma builtins_declared : Forall declared builtins.
Proof.
  unfold builtins, builtin_modules. cbn [concat app service_module firewall_module journal_module host_module process_module capability_module package_module user_module disk_module].
  repeat match goal with |- Forall _ (_ :: _) => apply Forall_cons_2 | |- Forall _ [] => apply Forall_nil_2 end;
  intros ctx input p; cbn [reg reg_Name reg_Permission reg_Risk reg_Plan];
  unfold RestartHandler_Plan, service_ListHandler_Plan, StartHandler_Plan, StopHandler_Plan, RuleHandler_Plan, firewall_ListHandler_Plan,
    LogHandler_Plan, InfoHandler_Plan, RebootHandler_Plan, process_ListHandler_Plan, KillHandler_Plan, capability_ListHandler_Plan,
    InstallHandler_Plan, RemoveHandler_Plan, UpdateHandler_Plan, package_ListHandler_Plan, CreateHandler_Plan, DeleteHandler_Plan,
    user_ListHandler_Plan, UsageHandler_Plan, disk_ListHandler_Plan, MountsHandler_Plan, package_plan, one_step; cbn [fst snd];
  intros Hp; plan_cases Hp; done.
Qed.

(** The programs that builtin plans run. *)
Definition tools : list string :=
  ["systemctl"; "service"; "firewall-cmd"; "ufw"; "iptables"; "journalctl"; "uptime"; "uname"; "free"; "df"; "reboot"; "ps"; "kill";
   "apt-get"; "dnf"; "apk"; "zypper"; "pacman"; "brew"; "pkg"; "useradd"; "userdel"; "getent"; "lsblk"; "findmnt"].

Lemma tool_words exe t args : exe ∈ tools ->
  shell_words (buildRemoteCommand t exe args) = Some ((if th_Sudo t then ["sudo"; "-n"] else []) ++ exe :: args).
Proof.
  intros Hin. unfold tools in Hin.
  repeat (apply elem_of_cons in Hin as [->|Hin]; [apply remote_words; reflexivity|]). by apply not_elem_of_nil in Hin.
Qed.

(** A capability surface that was derived, as every context's is. *)
Definition derived (ctx : Ctx) : Prop := exists m s, cx_capability (snd ctx) = NewCapabilityContext m s.

Lemma service_manager_tool ctx mgr : derived ctx -> service_manager ctx = Ok mgr -> mgr = "systemctl" \/ mgr = "service".
Proof.
  intros (m & s & Hc). unfold service_manager, ServiceManager. rewrite Hc. unfold NewCapabilityContext. cbn [cc_ServiceManager].
  destruct (negb (remote ctx)).
  - destruct (Available s "systemd"); [intros [= <-]; auto|]. destruct (Available s "service"); [intros [= <-]; auto|done].
  - destruct (Available _ "systemd"); [intros [= <-]; auto|]. destruct (Available _ "service"); intros [= <-]; auto.
Qed.

Lemma packet_filter_tool w c r tool : PacketFilter w c r = Ok tool -> tool = "firewall-cmd" \/ tool = "ufw" \/ tool = "iptables".
Proof. unfold PacketFilter. intros Hp. repeat case_match; try discriminate Hp; injection Hp as <-; auto. Qed.

Lemma log_reader_tool c r tool : LogReader c r = Ok tool -> tool = "journalctl".
Proof. unfold LogReader. intros Hp. repeat case_match; try discriminate Hp; by injection Hp as <-. Qed.

Lemma package_command_tool w c verb pkgs pm args : PackageCommand w c verb pkgs = Ok (pm, args) -> pm ∈ known_managers.
Proof.
  unfold PackageCommand. destruct (first_unsafe pkgs); [done|]. destruct (PackageManager w c) as [pm'|] eqn:Ep; [|done].
  destruct (packageArgs pm' verb pkgs); [|done]. intros [= <- <-]. by eapply package_manager_in.
Qed.

(** A step that is a known program with its own words. *)
Definition step_exact (s : Step) : Prop :=
  match s with
  | Command s => cmd_Executable s ∈ tools /\
      forall t, shell_words (remote_command t s) = Some ((if th_Sudo t then ["sudo"; "-n"] else []) ++ cmd_Executable s :: cmd_Args s)
  | CollectStep => True
  end.

Lemma exact_command name exe args timeout : exe ∈ tools -> step_exact (Command (command name exe args timeout)).
Proof. intros Hin. split; [done|]. intros t. by apply tool_words. Qed.

Lemma exact_one name perm risk s p : one_step name perm risk s = Ok p -> cmd_Executable s ∈ tools -> s = command (cmd_Name s) (cmd_Executable s) (cmd_Args s) (cmd_Timeout s) ->
  Forall step_exact (bp_Steps p).
Proof. intros [= <-] Hin ->. cbn. constructor; [|constructor]. by apply exact_command. Qed.

(** A closed membership. *)
Ltac in_list := apply (bool_decide_unpack _); vm_compute; exact I.

Lemma tools_manager m : m = "systemctl" \/ m = "service" -> m ∈ tools.
Proof. intros [-> | ->]; in_list. Qed.
Lemma tools_filter m : m = "firewall-cmd" \/ m = "ufw" \/ m = "iptables" -> m ∈ tools.
Proof. intros [-> |[-> | ->]]; in_list. Qed.
Lemma tools_package m : m ∈ known_managers -> m ∈ tools.
Proof.
  unfold known_managers. intros Hin. repeat (apply elem_of_cons in Hin as [->|Hin]; [in_list|]). by apply not_elem_of_nil in Hin.
Qed.

Lemma builtins_exact : Forall (fun b => forall ctx input p, derived ctx -> reg_Plan b ctx input = Ok p -> Forall step_exact (bp_Steps p)) builtins.
Proof.
  unfold builtins, builtin_modules. cbn [concat app service_module firewall_module journal_module host_module process_module capability_module package_module user_module disk_module].
  repeat match goal with |- Forall _ (_ :: _) => apply Forall_cons_2 | |- Forall _ [] => apply Forall_nil_2 end;
  intros ctx input p Hd; cbn [reg reg_Plan];
  unfold RestartHandler_Plan, service_ListHandler_Plan, StartHandler_Plan, StopHandler_Plan, RuleHandler_Plan, firewall_ListHandler_Plan,
    LogHandler_Plan, InfoHandler_Plan, RebootHandler_Plan, process_ListHandler_Plan, KillHandler_Plan, capability_ListHandler_Plan,
    InstallHandler_Plan, RemoveHandler_Plan, UpdateHandler_Plan, package_ListHandler_Plan, CreateHandler_Plan, DeleteHandler_Plan,
    user_ListHandler_Plan, UsageHandler_Plan, disk_ListHandler_Plan, MountsHandler_Plan, package_plan, one_step; cbn [fst snd];
  intros Hp; plan_cases Hp; cbn [bp_Steps];
  repeat match goal with |- Forall _ (_ :: _) => apply Forall_cons_2 | |- Forall _ [] => apply Forall_nil_2 end; try exact I; apply exact_command;
  first [ eapply tools_manager, service_manager_tool; eassumption | eapply tools_filter, packet_filter_tool; eassumption
        | eapply tools_package, package_command_tool; eassumption
        | match goal with Hl : LogReader _ _ = Ok _ |- _ => apply log_reader_tool in Hl as -> end; in_list
        | in_list ].
Qed.

(** ** Properties *)

(** Builtin registration is exact: the registry holds every builtin under
    its own name and nothing else, and whatever plan a handler makes carries the
    registered name, permission and risk, and has a step: what was authorized is
    what is run. *)
Theorem builtin_registered :
  let r := RegisterAll NewRegistry builtin_modules in
  (forall b, b ∈ builtins -> Registry_Get r (reg_Name b) = Some (operation_of b)) /\
  (forall name op, Registry_Get r name = Some op ->
    op_Name op = name /\ name ∈ map reg_Name builtins /\
    forall ctx input plan, op_Handler op ctx input = Ok plan ->
      plan_OperationName plan = name /\ plan_Permission plan = op_Permission op /\ plan_Risk plan = op_Risk op /\ plan_Steps plan <> []).
Proof.
  cbv zeta. rewrite register_all. fold builtins. unfold Registry_Get. split.
  - intros b Hb. assert (Hnd : NoDup (map reg_Name builtins)) by (apply (bool_decide_unpack _); vm_compute; exact I).
    enough (Hl : forall l, NoDup (map reg_Name l) -> b ∈ l -> forall r, registered r l !! reg_Name b = Some (operation_of b)) by by apply Hl.
    clear Hb Hnd. induction l as [|b' l IH]; intros Hnd Hb r; [by apply not_elem_of_nil in Hb|].
    cbn [map] in Hnd. apply NoDup_cons in Hnd as [Hni Hnd]. cbn [registered foldl]. fold (registered (Registry_Register r (operation_of b')) l).
    apply elem_of_cons in Hb as [->|Hb]; [|by apply IH].
    destruct (registered (Registry_Register r (operation_of b')) l !! reg_Name b') as [op|] eqn:E.
    + apply registered_lookup in E as [(b2 & Hb2 & _ & Hn)|E].
      { destruct Hni. rewrite <- Hn. by apply list_elem_of_fmap_2. }
      unfold Registry_Register, Registry in *. by rewrite lookup_insert_eq in E.
    + exfalso. assert (Hk : forall l r name, is_Some (r !! name) -> is_Some (registered r l !! name)).
      { clear. induction l as [|b l IH]; intros r name Hr; [done|]. apply IH. unfold Registry_Register, Registry in *.
        destruct (decide (op_Name (operation_of b) = name)) as [<-|]; [rewrite lookup_insert_eq|rewrite lookup_insert_ne by done]; done. }
      destruct (Hk l (Registry_Register r (operation_of b')) (reg_Name b')) as [x Hx]; [|by rewrite E in Hx].
      unfold Registry_Register, Registry. cbn [op_Name operation_of]. rewrite lookup_insert_eq. done.
  - intros name op Hop. apply registered_lookup in Hop as [(b & Hb & -> & Hn)|Hop]; [|done].
    split; [done|]. split; [rewrite <- Hn; by apply list_elem_of_fmap_2|]. cbn [op_Handler operation_of op_Permission op_Risk].
    intros ctx input plan. unfold handler_of. destruct (reg_Plan b ctx input) as [p|] eqn:Ep; [|done]. intros [= <-].
    destruct (proj1 (Forall_forall _ _) builtins_declared b Hb ctx input p Ep) as (H1 & H2 & H3 & H4).
    cbn. split; [by rewrite H1|]. split; [done|]. split; [done|]. by destruct (bp_Steps p).
Qed.

(** No builtin runs anything but its tool with its words: in every plan of
    every builtin, on a context with a derived capability surface, each command
    step runs one of a fixed list of programs, and the shell of a managed host
    reads the command line as that program and exactly the step's arguments, one
    word each, whatever the request holds. *)
Theorem builtin_argv_exact b ctx input p s :
  b ∈ builtins -> derived ctx -> reg_Plan b ctx input = Ok p -> Command s ∈ bp_Steps p ->
  cmd_Executable s ∈ tools /\
  forall t, shell_words (remote_command t s) = Some ((if th_Sudo t then ["sudo"; "-n"] else []) ++ cmd_Executable s :: cmd_Args s).
Proof.
  intros Hb Hd Hp Hs. pose proof (proj1 (Forall_forall _ _) builtins_exact b Hb ctx input p Hd Hp) as Hall.
  exact (proj1 (Forall_forall _ _) Hall _ Hs).
Qed.

(** Denying a port opens it: where the host has firewalld or ufw, the plan
    that adds a deny rule is the plan that adds an allow rule; firewalld ignores
    the source too, so a rule for one network opens the port to all; and with
    iptables removing a deny rule removes the allow rule instead. *)
Theorem firewall_deny_opens ctx deny allow port proto source tool remove_ :
  decode_rule deny = Ok (MkFirewallRuleRequest port proto "deny" source) ->
  decode_rule allow = Ok (MkFirewallRuleRequest port proto "allow" source) ->
  PacketFilter (fst ctx) (snd ctx) (remote ctx) = Ok tool -> tool <> "iptables" \/ remove_ = true ->
  RuleHandler_Plan remove_ ctx deny = RuleHandler_Plan remove_ ctx allow /\
  forall anyone, decode_rule anyone = Ok (MkFirewallRuleRequest port proto "allow" "") -> tool = "firewall-cmd" ->
    RuleHandler_Plan remove_ ctx allow = RuleHandler_Plan remove_ ctx anyone.
Proof.
  intros Hd Ha Ht Hr. unfold RuleHandler_Plan. rewrite Hd, Ha. unfold normalize. cbn [fr_Port fr_Protocol fr_Action fr_Source].
  destruct ((port <=? 0) || (65535 <? port)) eqn:Eport.
  { split; [done|]. intros anyone -> _. cbn [fr_Port]. by rewrite Eport. }
  destruct (one_of proto [""; "tcp"; "udp"]) eqn:Eproto; cbn [negb].
  2: { split; [done|]. intros anyone -> _. cbn [fr_Port fr_Protocol]. rewrite Eport, Eproto. done. }
  change (one_of "deny" [""; "allow"; "deny"]) with true. change (one_of "allow" [""; "allow"; "deny"]) with true. cbn [negb String.eqb]. cbv iota. rewrite Ht.
  set (proto' := if String.eqb proto "" then "tcp" else proto). split.
  - assert (E : buildRuleArgs tool (MkFirewallRuleRequest port proto' "deny" source) remove_ =
      buildRuleArgs tool (MkFirewallRuleRequest port proto' "allow" source) remove_); [|by rewrite E].
    destruct (packet_filter_tool _ _ _ _ Ht) as [-> |[-> | ->]]; [done|done|]. destruct Hr as [|Hr]; [done|]. by subst.
  - intros anyone -> ->. cbn [fr_Port fr_Protocol fr_Action fr_Source]. rewrite Eport, Eproto. done.
Qed.

(** A kill reaches one process: the plan's last word is a positive number
    in digits, which [kill] takes for a single process, never for a group or for
    every process; where no positive number is given there is no plan. *)
Theorem kill_one_process ctx input :
  match KillHandler_Plan ctx input with
  | Ok p => exists pid signal, toPositiveInt (input !! "pid") = Some pid /\ 0 < pid /\
      bp_Steps p = [Command (command "kill" "kill" ["-" +:+ signal; pretty pid] (10 * Second))] /\
      all_digits (pretty pid) = true
  | Err _ => toPositiveInt (input !! "pid") = None
  end.
Proof.
  unfold KillHandler_Plan. destruct (toPositiveInt (input !! "pid")) as [pid|] eqn:E; [|done]. unfold one_step.
  eexists pid, _. split; [done|]. assert (Hpos : 0 < pid).
  { unfold toPositiveInt in E. destruct (input !! "pid") as [[n|n|s|]|]; try done.
    - destruct (f64_gtb n f64_zero) eqn:Eg; [|done]. cbn [andb] in E. destruct (_ && _) eqn:Eb; [|done]. injection E as <-.
      apply andb_true_iff in Eb as [_ Eq]. unfold f64_to_Z in *. destruct n as [s0|s0| |sg m e]; [by destruct s0|by destruct s0|done|].
      destruct sg; [discriminate Eg|]. destruct (Z.leb_spec 0 e); [apply Z.mul_pos_pos; lia|].
      assert (0 <= Z.pos m / 2 ^ (- e)) by (apply Z.div_pos; lia). destruct (decide (Z.pos m / 2 ^ (- e) = 0)) as [Hz|]; [|lia].
      rewrite Hz in Eq. done.
    - destruct (Z.ltb_spec 0 n); [by injection E as <-|done].
    - destruct (ParseInt (TrimSpace s)) as [i|]; [|done]. destruct (Z.ltb_spec 0 i); [by injection E as <-|done]. }
  split; [done|]. split; [done|]. apply (pretty_digits pid). lia.
Qed.

(** A user name that is no safe token is refused by the creation and
    accepted by the deletion: the words of userdel are the name as it is, an
    option where it starts with a dash. *)
Theorem user_delete_unchecked ctx input name recursive group shell system input' :
  name <> "" -> name <> "-" -> SafeToken name <> None ->
  decode_delete input = Ok (MkDeleteRequest name recursive) -> decode_create input' = Ok (MkCreateRequest name group shell system) ->
  is_ok (CreateHandler_Plan ctx input') = false /\
  exists p, DeleteHandler_Plan ctx input = Ok p /\
    bp_Steps p = [Command (command "delete-user" "userdel" ((if recursive then ["-r"] else []) ++ [name]) (30 * Second))].
Proof.
  intros Hn Hdash Hu Hd Hc. unfold CreateHandler_Plan, DeleteHandler_Plan. rewrite Hd, Hc. cbn [cr_Name cr_Group cr_Shell dr_Name dr_Recursive].
  rewrite (proj2 (String.eqb_neq _ _) Hn). split; [|by eexists].
  cbn [forallb]. unfold token_ok at 1. rewrite (proj2 (String.eqb_neq _ _) Hn), (proj2 (String.eqb_neq _ _) Hdash). by destruct (SafeToken name).
Qed.

End Builtin.

(** ** An instance, and witnesses *)

Definition text_of (input : Input) (k : string) : string := match input !! k with Some (AnyString s) => s | _ => "" end.

#[local] Instance sample_decoder : DecodeInput := {|
  decode_install i := Ok (MkInstallRequest [text_of i "names"]);
  decode_remove i := Ok (MkRemoveRequest [text_of i "names"]);
  decode_restart i := Ok (MkRestartServiceRequest (text_of i "name"));
  decode_start i := Ok (MkStartServiceRequest (text_of i "name"));
  decode_stop i := Ok (MkStopServiceRequest (text_of i "name"));
  decode_create i := Ok (MkCreateRequest (text_of i "name") (text_of i "group") (text_of i "shell") false);
  decode_delete i := Ok (MkDeleteRequest (text_of i "name") false);
  decode_journal i := Ok (MkJournalLogRequest (text_of i "unit") 0 (text_of i "since"));
  decode_rule i := Ok (MkFirewallRuleRequest 22 (text_of i "protocol") (text_of i "action") (text_of i "source")) |}.

(** A remote host with ufw, and one with firewalld. *)
Definition host_with (cap : string) : Ctx :=
  ({[0%nat := {[TargetHost_Key sample_target :=
      MkTargetState (Some (MkCapabilitySnapshot "web-01" 1 {[cap := plain_info cap true]} 0 SourceSSH)) None]}]},
   sample_remote (NewCapabilityContext sample_machine None)).

Example builtin_argv_exact_witness :
  shell_words (remote_command sample_target (command "start" "systemctl" ["start"; "a b; reboot"] (30 * Second))) =
    Some ["systemctl"; "start"; "a b; reboot"].
Proof.
  destruct (builtin_argv_exact (reg "system.service.start" "system.service" "start" RiskMedium StartHandler_Plan) (host_with "ufw")
    {["name" := AnyString "a b; reboot"]}
    (MkBuiltinPlan "system.service.start" (MkPermission "system.service" "start") RiskMedium
       [Command (command "start" "systemctl" ["start"; "a b; reboot"] (30 * Second))])
    (command "start" "systemctl" ["start"; "a b; reboot"] (30 * Second))) as [_ H].
  - unfold builtins, builtin_modules. cbn [concat app service_module]. do 2 right. left.
  - by exists sample_machine, None.
  - reflexivity.
  - left.
  - exact (H sample_target).
Defined.

Example firewall_deny_opens_witness :
  RuleHandler_Plan false (host_with "firewalld") {["action" := AnyString "deny"]} =
    RuleHandler_Plan false (host_with "firewalld") {["action" := AnyString "allow"]} /\
  is_ok (RuleHandler_Plan false (host_with "firewalld") {["action" := AnyString "deny"]}) = true.
Proof.
  assert (Hd : decode_rule {["action" := AnyString "deny"]} = Ok (MkFirewallRuleRequest 22 "" "deny" "")) by (vm_compute; reflexivity).
  assert (Ha : decode_rule {["action" := AnyString "allow"]} = Ok (MkFirewallRuleRequest 22 "" "allow" "")) by (vm_compute; reflexivity).
  assert (Ht : PacketFilter (fst (host_with "firewalld")) (snd (host_with "firewalld")) (remote (host_with "firewalld")) = Ok "firewall-cmd") by (vm_compute; reflexivity).
  split; [|vm_compute; reflexivity].
  assert (Hn : "firewall-cmd" <> "iptables" \/ false = true) by (left; discriminate).
  pose proof (firewall_deny_opens _ _ _ 22 "" "" "firewall-cmd" false Hd Ha Ht Hn) as [H _]. exact H.
Defined.

Example user_delete_unchecked_witness :
  exists p, DeleteHandler_Plan (host_with "ufw") {["name" := AnyString "--root=/x"]} = Ok p /\
    bp_Steps p = [Command (command "delete-user" "userdel" ["--root=/x"] (30 * Second))].
Proof.
  assert (Hn : text_of {["name" := AnyString "--root=/x"]} "name" = "--root=/x") by (vm_compute; reflexivity).
  assert (Hu : SafeToken "--root=/x" <> None) by (vm_compute; discriminate).
  apply (user_delete_unchecked (host_with "ufw") {["name" := AnyString "--root=/x"]} "--root=/x" false
    (text_of {["name" := AnyString "--root=/x"]} "group") (text_of {["name" := AnyString "--root=/x"]} "shell") false {["name" := AnyString "--root=/x"]}
    ltac:(discriminate) ltac:(discriminate) Hu); unfold decode_delete, decode_create; cbn [sample_decoder]; by rewrite Hn.
Defined.
