(* ===== verification/SchedulerConfig.v ===== *)
(** * Building the export scheduler
    (internal/controlplane/server/history_export_scheduler.go
     NewHistoryExportScheduler, snapshot_signature.go, snapshot_anchor.go)

    Three keys sign what the scheduler leaves behind, each checked against an anchor
    of its own: snapshots and their ledger by the signing key, the life of keys, the
    destructions and the acceptances by the key authority, and the reports of
    verification by the verifier. Building a scheduler is where the keys and the
    anchors are told apart. What a key file holds is an input. *)

From Stdlib Require Import Ascii.
From S2P Require Import Prelude GoStrings Manifest AppendLog Ledger Chain SignedLog Publish.

(** What the key files hold, and the bytes of a public key. *)
Class KeyFiles `{ManifestCrypto} := {
  loadEd25519PrivateKey : string -> result error PrivKey;
  loadEd25519PublicKey : string -> result error PubKey;
  public_bytes : PubKey -> string }.

Inductive anchorTransport : Type := FileTransport (dir : string) | HTTPTransport (endpoint : string) (timeout : Z).

(** What the guards read; the store is there or not, and kept in a file or not. *)
Record HistoryExportConfig : Type := MkExportConfig {
  xc_Store : option bool;
  xc_Dir : string;
  xc_Interval : Z;
  xc_Formats : list string;
  xc_Retain : Z;
  xc_SignKeyPath : string;
  xc_SignKeyID : string;
  xc_TrustKeyPaths : list string;
  xc_LedgerCapacity : Z;
  xc_AnchorEndpoint : string;
  xc_AnchorTimeout : Z;
  xc_AnchorCapacity : Z;
  xc_KeyAuthorityPath : string;
  xc_KeyAuthorityTrustPaths : list string;
  xc_KeyLifecycleCapacity : Z;
  xc_VerifyAttest : bool;
  xc_VerifyInterval : Z;
  xc_VerifyCapacity : Z;
  xc_VerifierKeyPath : string;
  xc_VerifierTrustPaths : list string;
  xc_DestructionLog : bool;
  xc_DestructionCapacity : Z;
  xc_AcceptanceLog : bool;
  xc_AcceptanceCapacity : Z }.

Section Build.
Context `{KeyFiles}.

(** ** Keys *)

Definition keyIDForPublicKey (pub : PubKey) : string := hex_EncodeToString (String.substring 0 8 (Sum256 (public_bytes pub))).

Definition newExportSigner (path wantKeyID : string) : result error (option exportSigner) :=
  if String.eqb path "" then Ok None
  else match loadEd25519PrivateKey path with
    | Err e => Err e
    | Ok priv =>
        let derived := keyIDForPublicKey (Public priv) in
        if negb (String.eqb wantKeyID "") && negb (String.eqb wantKeyID derived)
        then Err ("sign key: configured key id " +:+ wantKeyID +:+ " does not match the derived key id " +:+ derived +:+
                  " (key_id is derived from the private key and is never configurable)")
        else Ok (Some (MkSigner priv true derived))
    end.

Fixpoint trust_keys (paths : list string) (keys : gmap string PubKey) : result error (gmap string PubKey) :=
  match paths with
  | [] => Ok keys
  | p :: paths =>
      match loadEd25519PublicKey p with
      | Err e => Err e
      | Ok pub =>
          let id := keyIDForPublicKey pub in
          match keys !! id with
          | Some _ => Err ("trust key: duplicate key id " +:+ id +:+ " (" +:+ p +:+ ")")
          | None => trust_keys paths (<[id := pub]> keys)
          end
      end
  end.

Definition newExportTrustStore (paths : list string) : result error (option exportTrustStore) :=
  match paths with
  | [] => Ok None
  | _ => match trust_keys paths ∅ with Ok keys => Ok (Some (MkTrust keys)) | Err e => Err e end
  end.

(** The directory of a [file://] endpoint, before it is cleaned. *)
Definition parseFileEndpoint (endpoint : string) : option string :=
  if negb (HasPrefix endpoint "file://") then None
  else
    let rest := TrimPrefix endpoint "file://" in
    let rest := match rest with String "/" (String a (String ":" r)) => String a (String ":" r) | _ => rest end in
    let rest := TrimSpace rest in
    if String.eqb rest "" then None else Some rest.

Definition defaultAnchorTimeout : Z := 5 * Second.

Definition newAnchorTransport (endpoint : string) (timeout : Z) : result error (option anchorTransport) :=
  if String.eqb (TrimSpace endpoint) "" then Ok None
  else match parseFileEndpoint endpoint with
    | Some dir => Ok (Some (FileTransport dir))
    | None =>
        if negb (HasPrefix endpoint "http://") && negb (HasPrefix endpoint "https://")
        then Err ("anchor endpoint " +:+ endpoint +:+ " is not http(s):// or file://")
        else Ok (Some (HTTPTransport endpoint (if timeout <=? 0 then defaultAnchorTimeout else timeout)))
    end.

(** ** The guards *)

Definition trusts (t : option exportTrustStore) (id : string) : bool :=
  match t with Some t => bool_decide (is_Some (ts_keys t !! id)) | None => false end.
Definition no_keys (t : option exportTrustStore) : bool :=
  match t with Some t => bool_decide (ts_keys t = ∅) | None => true end.
Definition same_key (a b : option exportSigner) : bool :=
  match a, b with Some a, Some b => String.eqb (es_keyID a) (es_keyID b) | _, _ => false end.

(** The first guard that fails. *)
Definition refuse (guards : list (bool * error)) : option error := snd <$> List.find fst guards.

Definition named (text : string) : error := "history export: " +:+ text.

Definition unsupported (f : string) : bool := negb (String.eqb f "json" || String.eqb f "csv").

Definition basic_guards (cfg : HistoryExportConfig) : list (bool * error) :=
  [(xc_Interval cfg <=? 0, named "interval must be > 0");
   (String.eqb (xc_Dir cfg) "", named "dir must be set");
   (match xc_Formats cfg with [] => true | _ => false end, named "at least one format required")] ++
  map (fun f => (unsupported f, named ("unsupported format " +:+ f +:+ " (use json|csv)"))) (xc_Formats cfg) ++
  [(xc_Retain cfg <? 0, named "retain must be >= 0 (0 = keep all)");
   (match xc_Store cfg with None => true | Some _ => false end, named "store is required (durable-only export)")].

Definition signer_guards (signer : option exportSigner) (trust : option exportTrustStore) : list (bool * error) :=
  match signer with
  | None => []
  | Some s =>
      [(match trust with None => true | Some _ => false end,
        named ("sign key configured (" +:+ es_keyID s +:+ ") but no trust anchor — also configure --export-trust-keys so published snapshots can actually be verified"));
       (negb (trusts trust (es_keyID s)),
        named ("sign key " +:+ es_keyID s +:+ " is absent from the configured trust keys — signed snapshots would verify as key_unknown"))]
  end.

Definition anchor_guards (cfg : HistoryExportConfig) (transport : option anchorTransport) (signer : option exportSigner) : list (bool * error) :=
  match transport with
  | None => []
  | Some _ =>
      [(match signer with None => true | Some _ => false end,
        named "--export-anchor-endpoint is set but no --export-sign-key is configured — anchor records would be unsigned");
       (xc_AnchorCapacity cfg <? 0, named ("anchor capacity " +:+ pretty (xc_AnchorCapacity cfg) +:+ " is negative"))]
  end.

Definition authority_guards (cfg : HistoryExportConfig) (signer kak : option exportSigner) (kakTrust : option exportTrustStore) : list (bool * error) :=
  match kak with
  | None => []
  | Some k =>
      [(no_keys kakTrust,
        named "--export-key-authority is set but no --export-key-authority-trust is configured — the lifecycle ledger could never be verified");
       (negb (trusts kakTrust (es_keyID k)),
        named ("key authority " +:+ es_keyID k +:+ " is absent from the configured KAK trust keys — its events would verify as key_unknown"));
       (same_key signer kak,
        named ("key authority " +:+ es_keyID k +:+ " is the SAME key as the signing key — the authorization chain would be self-asserted"))]
  end ++ [(xc_KeyLifecycleCapacity cfg <? 0, named ("key lifecycle capacity " +:+ pretty (xc_KeyLifecycleCapacity cfg) +:+ " is negative"))].

Definition attest_guards (cfg : HistoryExportConfig) (signer : option exportSigner) (trust : option exportTrustStore) : list (bool * error) :=
  [(xc_VerifyAttest cfg && match signer with None => true | Some _ => false end,
    named "--export-verify-attest is set but no --export-sign-key is configured — an unsigned verification report is indistinguishable from a forged one");
   (xc_VerifyAttest cfg && no_keys trust,
    named "--export-verify-attest is set but no --export-trust-keys is configured — the verification log could never be verified");
   ((0 <? xc_VerifyInterval cfg) && negb (xc_VerifyAttest cfg),
    named "--export-verify-interval is set but --export-verify-attest is not — enable attestation or drop the interval");
   (xc_VerifyCapacity cfg <? 0, named ("verification capacity " +:+ pretty (xc_VerifyCapacity cfg) +:+ " is negative"))].

Definition log_guards (on : bool) (log records : string) (kak : option exportSigner) (kakTrust : option exportTrustStore) : list (bool * error) :=
  if on then
    [(match kak with None => true | Some _ => false end,
      named (log +:+ " is set but no --export-key-authority is configured — " +:+ records +:+ " could never be signed"));
     (no_keys kakTrust,
      named (log +:+ " is set but no --export-key-authority-trust is configured — " +:+ records +:+ " could never be verified"));
     (match kak with Some k => negb (trusts kakTrust (es_keyID k)) | None => false end,
      named ("key authority " +:+ from_option es_keyID "" kak +:+ " is absent from the configured KAK trust keys — " +:+ records +:+ " would verify as unauthorized"))]
  else [].

(** The verifier: its anchor, its key apart from the others (V1, V3), the keys and
    the anchors apart from each other (V2), attestation on (V4). *)
Definition verifier_guards (cfg : HistoryExportConfig) (signer kak vak : option exportSigner) (trust kakTrust verifierTrust : option exportTrustStore)
  : list (bool * error) :=
  match vak with
  | None => []
  | Some v =>
      [(no_keys verifierTrust,
        named "--export-verifier-key is set but no --export-verifier-trust is configured — verification reports could never be verified against the verifier's own anchor");
       (negb (trusts verifierTrust (es_keyID v)),
        named ("verifier key " +:+ es_keyID v +:+ " is absent from the configured verifier trust keys — its reports would verify as key_unknown"));
       (same_key signer vak,
        named ("verifier key " +:+ es_keyID v +:+ " is the SAME key as the signing key — the verification judgement would be self-asserted"));
       (same_key kak vak,
        named ("verifier key " +:+ es_keyID v +:+ " is the SAME key as the key authority — the observation identity would collapse into the authorization identity"));
       (from_option (fun s => trusts verifierTrust (es_keyID s)) false signer,
        named ("signing key " +:+ from_option es_keyID "" signer +:+
               " must not appear in the verifier trust anchor — the evidence signer would authorize its own verification"));
       (from_option (fun s => trusts verifierTrust (es_keyID s)) false kak,
        named ("key authority " +:+ from_option es_keyID "" kak +:+
               " must not appear in the verifier trust anchor — the authorization identity would judge observations"));
       (trusts trust (es_keyID v),
        named ("verifier key " +:+ es_keyID v +:+ " must not appear in the manifest trust anchor — the verifier would be able to sign evidence"));
       (trusts kakTrust (es_keyID v),
        named ("verifier key " +:+ es_keyID v +:+ " must not appear in the KAK trust anchor — the observer would hold authorization power"))] ++
      concat (map (fun id =>
        [(trusts trust id, named ("verifier trust key " +:+ id +:+ " is also a manifest trust key — one key must never sit in two trust anchors (I1)"));
         (trusts kakTrust id, named ("verifier trust key " +:+ id +:+ " is also a KAK trust key — one key must never sit in two trust anchors (I1)"))])
        (match verifierTrust with Some t => map fst (map_to_list (ts_keys t)) | None => [] end)) ++
      [(negb (xc_VerifyAttest cfg),
        named "--export-verifier-key is set but --export-verify-attest is not — the verifier identity only matters for recorded verification reports")]
  end.

Definition acceptance_guards (cfg : HistoryExportConfig) : list (bool * error) :=
  [(xc_AcceptanceLog cfg && negb (xc_DestructionLog cfg),
    named "--export-acceptance-log requires --export-destruction-log — the acceptance ledger's own compaction is evidence destruction and must be accounted (G4)");
   (xc_AcceptanceCapacity cfg <? 0, named ("acceptance capacity " +:+ pretty (xc_AcceptanceCapacity cfg) +:+ " is negative"))].

(** ** The constructor *)

Record HistoryExportScheduler : Type := MkScheduler {
  hs_cfg : HistoryExportConfig;
  hs_signer : option exportSigner;
  hs_trust : option exportTrustStore;
  hs_transport : option anchorTransport;
  hs_keyAuthority : keyAuthority;
  hs_verifierSigner : option exportSigner;
  hs_verifierTrust : option exportTrustStore;
  hs_recorder : bool }.

Definition wrapped {A} (what : string) (r : result error A) : result error A :=
  match r with Ok a => Ok a | Err e => Err (named (what +:+ e)) end.

Definition after {A} (r : result error A) (k : A -> result error HistoryExportScheduler) : result error HistoryExportScheduler :=
  match r with Ok a => k a | Err e => Err e end.

Definition guarded (guards : list (bool * error)) (r : result error HistoryExportScheduler) : result error HistoryExportScheduler :=
  match refuse guards with Some e => Err e | None => r end.

Definition build_keys (cfg : HistoryExportConfig) (signer : option exportSigner) (trust : option exportTrustStore) : result error HistoryExportScheduler :=
  after (wrapped "" (newAnchorTransport (xc_AnchorEndpoint cfg) (xc_AnchorTimeout cfg))) (fun transport =>
  guarded (anchor_guards cfg transport signer) (
  after (wrapped "key authority: " (newExportSigner (xc_KeyAuthorityPath cfg) "")) (fun kak =>
  after (wrapped "key authority trust: " (newExportTrustStore (xc_KeyAuthorityTrustPaths cfg))) (fun kakTrust =>
  guarded (authority_guards cfg signer kak kakTrust ++ attest_guards cfg signer trust ++
    log_guards (xc_DestructionLog cfg) "--export-destruction-log" "destruction records" kak kakTrust ++
    [(xc_DestructionCapacity cfg <? 0, named ("destruction capacity " +:+ pretty (xc_DestructionCapacity cfg) +:+ " is negative"))]) (
  after (wrapped "verifier key: " (newExportSigner (xc_VerifierKeyPath cfg) "")) (fun vak =>
  after (wrapped "verifier trust: " (newExportTrustStore (xc_VerifierTrustPaths cfg))) (fun verifierTrust =>
  guarded (verifier_guards cfg signer kak vak trust kakTrust verifierTrust ++
    log_guards (xc_AcceptanceLog cfg) "--export-acceptance-log" "acceptance entries" kak kakTrust ++ acceptance_guards cfg ++
    [(xc_AcceptanceLog cfg && negb (from_option id false (xc_Store cfg)),
      named "--export-acceptance-log requires the durable file-backed transition store — input integrity has no meaning without durable records to commit")])
    (Ok (MkScheduler cfg signer trust transport (MkKeyAuthority kak kakTrust) vak verifierTrust (xc_AcceptanceLog cfg)))))))))).

(** A fresh directory is given its watermark once the signer is in order. *)
Definition NewHistoryExportScheduler (cfg : HistoryExportConfig) (discover_err : option error) (written : bool) (d : ExportDir)
  : ExportDir * result error HistoryExportScheduler :=
  match refuse (basic_guards cfg) with
  | Some e => (d, Err e)
  | None =>
      match wrapped "" (newExportSigner (xc_SignKeyPath cfg) (xc_SignKeyID cfg)), wrapped "" (newExportTrustStore (xc_TrustKeyPaths cfg)) with
      | Err e, _ => (d, Err e)
      | Ok _, Err e => (d, Err e)
      | Ok signer, Ok trust =>
          match refuse (signer_guards signer trust) with
          | Some e => (d, Err e)
          | None => (ensurePublicationState discover_err written d, build_keys cfg signer trust)
          end
      end
  end.

End Build.

(** ** What a scheduler that could be built has *)

Section BuildLaws.
Context `{KeyFiles}.

Lemma refuse_none guards : refuse guards = None <-> Forall (fun g => fst g = false) guards.
Proof.
  unfold refuse. induction guards as [|[b e] l IH]; [by split|]. cbn [List.find fst]. rewrite Forall_cons. cbn [fst].
  destruct b; cbn; [split; [done|by intros [? _]]|]. rewrite IH. split; [by split|by intros [_ ?]].
Qed.

(** The key that a signer has is the one that its id is derived from, and so is a
    trusted one. *)
Definition derived_signer (s : exportSigner) : Prop := es_keyID s = keyIDForPublicKey (Public (es_priv s)) /\ es_priv_size s = true.
Definition derived_keys (t : exportTrustStore) : Prop := forall id pub, ts_keys t !! id = Some pub -> id = keyIDForPublicKey pub.

Lemma signer_derived path want r : newExportSigner path want = Ok r ->
  from_option derived_signer True r /\ (want <> "" -> from_option (fun s => es_keyID s = want) True r) /\ (r = None <-> path = "").
Proof.
  unfold newExportSigner. destruct (String.eqb_spec path "") as [->|Hp]; [by intros [= <-]|]. destruct (loadEd25519PrivateKey path) as [priv|]; [|done].
  destruct (String.eqb_spec want ""); destruct (String.eqb_spec want (keyIDForPublicKey (Public priv))); cbn; intros E; try discriminate; injection E as <-; by split_and!.
Qed.

Lemma trust_derived paths t : newExportTrustStore paths = Ok (Some t) -> derived_keys t.
Proof.
  assert (Hk : forall ps keys keys', (forall id pub, keys !! id = Some pub -> id = keyIDForPublicKey pub) -> trust_keys ps keys = Ok keys' ->
    forall id pub, keys' !! id = Some pub -> id = keyIDForPublicKey pub).
  { induction ps as [|p ps IH]; cbn; intros keys keys' Hkeys; [by intros [= <-]|]. destruct (loadEd25519PublicKey p) as [pub|]; [|done].
    destruct (keys !! _); [done|]. apply IH. intros id pub'. destruct (decide (id = keyIDForPublicKey pub)) as [->|Hne].
    - rewrite lookup_insert_eq. by intros [= <-].
    - rewrite lookup_insert_ne by done. apply Hkeys. }
  unfold newExportTrustStore. destruct paths as [|p ps]; [done|]. destruct (trust_keys (p :: ps) ∅) eqn:E; [|done]. intros [= <-].
  unfold derived_keys. cbn [ts_keys]. by apply (Hk _ _ _ (fun id pub Hl => ltac:(by rewrite lookup_empty in Hl)) E).
Qed.

Definition trusted_by (s : exportSigner) (t : option exportTrustStore) : Prop :=
  exists pub, (t ≫= fun t => ts_keys t !! es_keyID s) = Some pub /\
    keyIDForPublicKey pub = es_keyID s /\ es_keyID s = keyIDForPublicKey (Public (es_priv s)).

Lemma trusted_signer paths t s : newExportTrustStore paths = Ok t -> derived_signer s -> negb (trusts t (es_keyID s)) = false -> trusted_by s t.
Proof.
  intros Ht [Hs _] Hin. apply negb_false_iff in Hin. destruct t as [t|]; [|done]. cbn in Hin. apply bool_decide_eq_true in Hin as [pub Hp].
  exists pub. cbn. split; [done|]. split; [|done]. symmetry. by apply (trust_derived _ _ Ht).
Qed.

(** No key of the verifier's anchor is in one of the other two. *)
Definition apart (t u : option exportTrustStore) : Prop := forall id, trusts t id = true -> trusts u id = false.

Lemma wrapped_ok {A} what (r : result error A) a : wrapped what r = Ok a -> r = Ok a.
Proof. destruct r; [|done]. by intros [= ->]. Qed.

Lemma after_ok {A} (r : result error A) k s : after r k = Ok s -> exists a, r = Ok a /\ k a = Ok s.
Proof. destruct r as [a|]; [|done]. by exists a. Qed.

Lemma guarded_ok guards r s : guarded guards r = Ok s -> Forall (fun g => fst g = false) guards /\ r = Ok s.
Proof. unfold guarded. destruct (refuse guards) eqn:E; [done|]. by split; [apply refuse_none|]. Qed.

Lemma log_guards_ok on log records kak kakTrust : Forall (fun g => fst g = false) (log_guards on log records kak kakTrust) -> on = true ->
  exists k, kak = Some k /\ trusts kakTrust (es_keyID k) = true.
Proof.
  intros Hg ->. unfold log_guards in Hg. rewrite !Forall_cons in Hg. cbn [fst] in Hg. destruct Hg as (Hk & _ & Ht & _). destruct kak as [k|]; [|done].
  exists k. split; [done|]. by apply negb_false_iff.
Qed.

Lemma verifier_apart cfg signer kak v trust kakTrust verifierTrust :
  Forall (fun g => fst g = false) (verifier_guards cfg signer kak (Some v) trust kakTrust verifierTrust) ->
  apart verifierTrust trust /\ apart verifierTrust kakTrust.
Proof.
  intros Hg. unfold verifier_guards in Hg. rewrite !Forall_app in Hg. destruct Hg as (_ & Hc & _). rewrite List.Forall_forall in Hc.
  destruct verifierTrust as [t|]; [|by split]. split; intros id Hid; cbn in Hid; apply bool_decide_eq_true in Hid as [pub Hp].
  - apply (Hc (trusts trust id, named ("verifier trust key " +:+ id +:+ " is also a manifest trust key — one key must never sit in two trust anchors (I1)"))).
    apply in_concat. eexists. split; [apply in_map_iff; exists id; split; [reflexivity|]|by left]. apply in_map_iff. exists (id, pub).
    split; [done|]. by apply list_elem_of_In, elem_of_map_to_list.
  - apply (Hc (trusts kakTrust id, named ("verifier trust key " +:+ id +:+ " is also a KAK trust key — one key must never sit in two trust anchors (I1)"))).
    apply in_concat. eexists. split; [apply in_map_iff; exists id; split; [reflexivity|]|right; by left]. apply in_map_iff. exists (id, pub).
    split; [done|]. by apply list_elem_of_In, elem_of_map_to_list.
Qed.

(** C17. A scheduler is built only from keys that can do their work (T79b, P41, V1-V4,
    G1-G4): every key that signs is in its own anchor, under the id of its public
    key; the keys that are configured differ pairwise; with a verifier's private
    key, its anchor has no key in common with the other two; and what is switched
    on has the key it signs with. That is less than the disjoint anchors of the
    comment on I1: without a verifier's private key its anchor is compared with
    none, and those of the signer and of the key authority never are
    ([anchors_overlap], [verifier_anchor_overlaps]). *)
Theorem scheduler_keys cfg discover_err written d d' s :
  NewHistoryExportScheduler cfg discover_err written d = (d', Ok s) ->
  d' = ensurePublicationState discover_err written d /\
  (0 < xc_Interval cfg /\ xc_Dir cfg <> "" /\ xc_Formats cfg <> [] /\ 0 <= xc_Retain cfg /\ Forall (fun f => f = "json" \/ f = "csv") (xc_Formats cfg)) /\
  from_option (fun k => trusted_by k (hs_trust s)) True (hs_signer s) /\
  from_option (fun k => trusted_by k (ka_trust (hs_keyAuthority s)) /\ same_key (hs_signer s) (Some k) = false) True (ka_signer (hs_keyAuthority s)) /\
  from_option (fun k => trusted_by k (hs_verifierTrust s) /\ same_key (hs_signer s) (Some k) = false /\
    same_key (ka_signer (hs_keyAuthority s)) (Some k) = false /\ apart (hs_verifierTrust s) (hs_trust s) /\
    apart (hs_verifierTrust s) (ka_trust (hs_keyAuthority s)) /\ xc_VerifyAttest cfg = true) True (hs_verifierSigner s) /\
  (xc_VerifyAttest cfg = true \/ hs_transport s <> None -> hs_signer s <> None) /\
  (xc_AcceptanceLog cfg = true -> xc_DestructionLog cfg = true /\ xc_Store cfg = Some true /\ hs_recorder s = true) /\
  (xc_DestructionLog cfg = true -> ka_writable (Some (hs_keyAuthority s)) = true).
Proof.
  unfold NewHistoryExportScheduler. destruct (refuse (basic_guards cfg)) eqn:Eb; [done|]. apply refuse_none in Eb.
  destruct (wrapped "" (newExportSigner _ _)) as [signer|] eqn:Es; [|done]. destruct (wrapped "" (newExportTrustStore _)) as [trust|] eqn:Et; [|done].
  apply wrapped_ok in Es, Et. destruct (refuse (signer_guards signer trust)) eqn:Eg; [done|]. apply refuse_none in Eg. intros [= <- Hk].
  unfold build_keys in Hk. apply after_ok in Hk as (transport & Htr & Hk). apply guarded_ok in Hk as [Ga Hk].
  apply after_ok in Hk as (kak & Hkak%wrapped_ok & Hk). apply after_ok in Hk as (kakTrust & HkakT%wrapped_ok & Hk). apply guarded_ok in Hk as [Gk Hk].
  apply after_ok in Hk as (vak & Hvak%wrapped_ok & Hk). apply after_ok in Hk as (verifierTrust & HvakT%wrapped_ok & Hk). apply guarded_ok in Hk as [Gv [= <-]].
  cbn [hs_signer hs_trust hs_transport hs_keyAuthority hs_verifierSigner hs_verifierTrust hs_recorder ka_signer ka_trust].
  rewrite !Forall_app in Gk. destruct Gk as (Gkak & Gatt & Gdes & _). rewrite !Forall_app in Gv. destruct Gv as (Gver & Gacc & Gacc2 & Gstore). unfold authority_guards in Gkak. apply Forall_app in Gkak as [Gkak _].
  assert (Hdes : xc_DestructionLog cfg = true -> ka_writable (Some (MkKeyAuthority kak kakTrust)) = true).
  { intros Hon. destruct (log_guards_ok _ _ _ _ _ Gdes Hon) as (k & -> & Hin). by destruct kakTrust. }
  split; [done|]. split; [|split; [|split; [|split; [|split; [|split; [|exact Hdes]]]]]].
  - unfold basic_guards in Eb. rewrite !Forall_app, !Forall_cons, Forall_map in Eb. cbn [fst] in Eb. destruct Eb as ((Hi & Hd & Hf & _) & Hfs & Hr & _).
    split_and!; [lia|by apply String.eqb_neq|by destruct (xc_Formats cfg)|lia|]. eapply Forall_impl; [exact Hfs|]. cbn. intros f Hu.
    unfold unsupported in Hu. apply negb_false_iff, orb_true_iff in Hu. by destruct Hu as [?%String.eqb_eq|?%String.eqb_eq]; [left|right].
  - destruct signer as [k|]; [|done]. unfold signer_guards in Eg. rewrite !Forall_cons in Eg. cbn [fst] in Eg.
    eapply trusted_signer; [done|by apply (signer_derived _ _ _ Es)|apply Eg].
  - destruct kak as [k|]; [|done]. rewrite !Forall_cons in Gkak. cbn [fst] in Gkak. destruct Gkak as (_ & Hin & Hsame & _). split; [|done].
    eapply trusted_signer; [done|by apply (signer_derived _ _ _ Hkak)|done].
  - destruct vak as [k|]; [|done]. destruct (verifier_apart _ _ _ _ _ _ _ Gver) as [Hap1 Hap2]. unfold verifier_guards in Gver.
    rewrite !Forall_app, !Forall_cons in Gver. cbn [fst] in Gver. destruct Gver as ((_ & Hin & Hs1 & Hs2 & _) & _ & Hatt & _). cbn [from_option].
    split_and!; [|done..|by apply negb_false_iff]. eapply trusted_signer; [done|by apply (signer_derived _ _ _ Hvak)|done].
  - intros Hon Hnone. destruct Hon as [Hon|Htran].
    + unfold attest_guards in Gatt. rewrite !Forall_cons in Gatt. cbn [fst] in Gatt. destruct Gatt as (Ha & _). rewrite Hon, Hnone in Ha. done.
    + destruct transport; [|done]. unfold anchor_guards in Ga. rewrite !Forall_cons in Ga. cbn [fst] in Ga. destruct Ga as [Ga _]. by rewrite Hnone in Ga.
  - intros Hon. unfold acceptance_guards in Gacc2. rewrite !Forall_cons in Gacc2, Gstore. cbn [fst] in Gacc2, Gstore. destruct Gacc2 as (Ha & _).
    destruct Gstore as [Hst _]. rewrite Hon in Ha, Hst. cbn in Ha, Hst. apply negb_false_iff in Ha, Hst. split_and!; [done| |done].
    destruct (xc_Store cfg) as [[]|]; done.
Qed.

End BuildLaws.

(** ** Witnesses *)

#[local] Existing Instance checksum_crypto.

(** A key file holds its own name. *)
Definition sample_files : KeyFiles := {| loadEd25519PrivateKey p := Ok p; loadEd25519PublicKey p := Ok p; public_bytes p := p |}.

#[local] Existing Instance sample_files.

Definition full_config (authority_trust : list string) : HistoryExportConfig :=
  MkExportConfig (Some true) "/exports" Minute ["json"; "csv"] 96 "signer" "" ["signer"; "old"] 0 "file:///C:/witness" 0 0 "authority" authority_trust 0
    true 0 0 "verifier" ["verifier"] true 0 true 0.

Definition empty_dir : ExportDir := MkExportDir [] None (MkLogDisk None None).

Definition built (cfg : HistoryExportConfig) : ExportDir * result error HistoryExportScheduler := NewHistoryExportScheduler cfg None true empty_dir.

Example scheduler_keys_witness :
  match built (full_config ["authority"]) with
  | (d, Ok s) => xd_state d = Some ("0" +:+ String newline "") /\ from_option (fun k => trusted_by k (hs_verifierTrust s)) False (hs_verifierSigner s)
  | (_, Err _) => False
  end /\
  match built (full_config ["authority"; "verifier"]) with
  | (d, Err e) => xd_state d = Some ("0" +:+ String newline "") /\ HasPrefix e "history export: verifier key " = true
  | (_, Ok _) => False
  end.
Proof.
  split; [|vm_compute; split; reflexivity].
  assert (Hf : match built (full_config ["authority"]) with
    | (d, Ok s) => xd_state d = Some ("0" +:+ String newline "") /\ bool_decide (is_Some (hs_verifierSigner s)) = true
    | (_, Err _) => False end) by (vm_compute; split; reflexivity).
  pose proof (fun d' s => scheduler_keys (full_config ["authority"]) None true empty_dir d' s) as Hx. change (NewHistoryExportScheduler _ _ _ _) with (built (full_config ["authority"])) in Hx.
  revert Hf Hx. generalize (built (full_config ["authority"])). intros [d [s|e]]; [|contradiction]. intros [Hd Hs] Hx.
  destruct (Hx d s eq_refl) as (_ & _ & _ & _ & Hv & _). split; [exact Hd|]. destruct (hs_verifierSigner s) as [k|]; [exact (proj1 Hv)|discriminate Hs].
Defined.

(** *** Two of the three anchors may overlap

    Only the verifier's anchor is compared with the others: a deployment that
    trusts its signing key as a key authority is accepted, so that the key that
    signs the evidence can also speak about the life of keys and about
    destructions. *)
Example anchors_overlap :
  match built (full_config ["authority"; "signer"]) with
  | (_, Ok s) => from_option (fun k => trusts (hs_trust s) (es_keyID k) && trusts (ka_trust (hs_keyAuthority s)) (es_keyID k)) false (hs_signer s) = true
  | (_, Err _) => False
  end.
Proof. vm_compute. reflexivity. Qed.

(** And the verifier's is compared only if there is a key for it. *)
Example verifier_anchor_overlaps :
  let cfg := MkExportConfig (Some true) "/exports" Minute ["json"; "csv"] 96 "signer" "" ["signer"; "old"] 0 "file:///C:/witness" 0 0 "authority" ["authority"] 0
    true 0 0 "" ["signer"; "authority"] true 0 true 0 in
  match built cfg with
  | (_, Ok s) => trusts (hs_trust s) (default "" (es_keyID <$> hs_signer s)) && trusts (hs_verifierTrust s) (default "" (es_keyID <$> hs_signer s)) = true
  | (_, Err _) => False
  end.
Proof. vm_compute. reflexivity. Qed.
