(* ===== verification/Scheduler.v ===== *)
(** * Publishing a snapshot
    (internal/controlplane/server/history_export_scheduler.go publishSnapshot,
     publishManifest, writeTmp, cleanupArtifacts, removeOwnArtifact, Tick;
     history_export_manifest.go allocatePublicationID)

    One export puts all its formats and then its manifest into the directory under
    one base name, reserving the names first and linking at the end, beside whatever
    other processes do to the same directory. Every system call that changes the
    directory is a step, and so is every look at a name: what others did since the
    last one comes first, then the call fails or does its work. What publication
    reads between two such calls (the digests; the watermark and the manifests in
    sight; the predecessor; the ledger) is one step each. *)

From Stdlib Require Import Ascii.
From S2P Require Import Prelude GoStrings GoTime Manifest AppendLog Ledger Chain SignedLog Publish SnapshotFiles SnapshotVerify SchedulerConfig.

(** ** System calls *)

(** [CallSeen] is the look at the name that was just linked, [CallRemove] the
    removal that follows a look at the name or is by the name alone,
    [CallManifest] what a publication reads. *)
Inductive Call : Type := CallOpen | CallFstat | CallWrite | CallSync | CallClose | CallLstat | CallLink | CallSeen | CallRename | CallRemove | CallManifest.

Inductive FsError : Type := FsExists | FsNotExist | FsOther (e : error).

(** What a call did to a name, with the inode that was there, or is there now. *)
Inductive FsEvent : Type := Created (name : string) (inode : Z) | Wrote (inode : Z) | Linked (name : string) (inode : Z) | Removed (name : string) (inode : Z) | Replaced (name : string) (inode : Z).

(** Per call, counted: what the others did just before it, its failure, the inode
    of a file it creates, and what a failing write leaves. *)
Record FsIO : Type := MkFsIO {
  fs_foreign : nat -> Call -> SnapDir -> SnapDir;
  fs_fail : nat -> Call -> option error;
  fs_inode : nat -> Z;
  fs_partial : nat -> string }.

Record World : Type := MkWorld {
  w_dir : SnapDir;
  w_ledger : LogDisk;
  w_calls : nat;
  w_log : list FsEvent }.

Definition FS (A : Type) : Type := World -> World * A.
Definition fs_ret {A} (a : A) : FS A := fun w => (w, a).
Definition fs_bind {A B} (m : FS A) (k : A -> FS B) : FS B := fun w => let '(w, a) := m w in k a w.
#[local] Notation "x <~ m ; k" := (fs_bind m (fun x => k)) (at level 100, m at next level, k at level 200, right associativity).

Section Calls.
Context (io : FsIO).

Definition sys {A} (c : Call) (failed : error -> A) (run : nat -> SnapDir -> SnapDir * list FsEvent * A) : FS A := fun w =>
  let n := w_calls w in
  let d := fs_foreign io n c (w_dir w) in
  match fs_fail io n c with
  | Some e => (MkWorld d (w_ledger w) (S n) (w_log w), failed e)
  | None => let '(d, events, a) := run n d in (MkWorld d (w_ledger w) (S n) (w_log w ++ events), a)
  end.

(** [os.OpenFile] with [O_CREATE|O_EXCL]: the new file's inode. *)
Definition create_excl (name : string) : FS (result FsError Z) :=
  sys CallOpen (fun e => Err (FsOther e)) (fun n d =>
    match d !! name with
    | Some _ => (d, [], Err FsExists)
    | None => (<[name := MkFile false (fs_inode io n) ""]> d, [Created name (fs_inode io n)], Ok (fs_inode io n))
    end).

(** [File.Stat]: what it is asked of is the open file. *)
Definition fstat (inode : Z) : FS (option Z) := sys CallFstat (fun _ => None) (fun _ d => (d, [], Some inode)).

Definition set_data (inode : Z) (data : string) (d : SnapDir) : SnapDir :=
  (fun f => if sf_inode f =? inode then MkFile (sf_dir f) (sf_inode f) data else f) <$> d.

(** The serializer's text written through the open file; it may have an error of
    its own. *)
Definition write_text (inode : Z) (text : result error string) : FS (option error) := fun w =>
  let n := w_calls w in
  let d := fs_foreign io n CallWrite (w_dir w) in
  let '(data, err) := match text, fs_fail io n CallWrite with
    | Err e, _ => (fs_partial io n, Some e)
    | Ok _, Some e => (fs_partial io n, Some e)
    | Ok data, None => (data, None)
    end in
  (MkWorld (set_data inode data d) (w_ledger w) (S n) (w_log w ++ [Wrote inode]), err).

Definition plain_call (c : Call) : FS (option error) := sys c Some (fun _ d => (d, [], None)).

Definition lstat (c : Call) (name : string) : FS (result FsError Z) :=
  sys c (fun e => Err (FsOther e)) (fun _ d => (d, [], match d !! name with Some f => Ok (sf_inode f) | None => Err FsNotExist end)).

Definition link (old new : string) : FS (option FsError) :=
  sys CallLink (fun e => Some (FsOther e)) (fun _ d =>
    match d !! old, d !! new with
    | None, _ => (d, [], Some FsNotExist)
    | Some _, Some _ => (d, [], Some FsExists)
    | Some f, None => (<[new := f]> d, [Linked new (sf_inode f)], None)
    end).

Definition remove (name : string) : FS (option FsError) :=
  sys CallRemove (fun e => Some (FsOther e)) (fun _ d =>
    match d !! name with
    | Some f => (delete name d, [Removed name (sf_inode f)], None)
    | None => (d, [], Some FsNotExist)
    end).

(** [os.Rename]: what was at the new name is gone. *)
Definition rename (old new : string) : FS (option FsError) :=
  sys CallRename (fun e => Some (FsOther e)) (fun _ d =>
    match d !! old with
    | None => (d, [], Some FsNotExist)
    | Some f =>
        if from_option sf_dir false (d !! new) then (d, [], Some FsExists)
        else (<[new := f]> (delete old d), [Replaced new (sf_inode f)], None)
    end).

(** What is read at one time of the directory and the ledger; it may append to
    the ledger. *)
Definition look {A} (f : SnapDir -> LogDisk -> LogDisk * A) : FS A := fun w =>
  let d := fs_foreign io (w_calls w) CallManifest (w_dir w) in
  let '(ledger, a) := f d (w_ledger w) in
  (MkWorld d ledger (S (w_calls w)) (w_log w), a).

Definition fs_error (what name : string) (e : FsError) : error :=
  what +:+ " " +:+ name +:+ ": " +:+ match e with FsExists => "file exists" | FsNotExist => "no such file or directory" | FsOther e => e end.

(** ** Ownership *)

(** [removeOwnArtifact]; [want] is the file that was published. *)
Definition removeOwnArtifact (path : string) (want : Z) : FS (option error) :=
  cur <~ lstat CallLstat path;
  match cur with
  | Err FsNotExist => fs_ret None
  | Err e => fs_ret (Some (fs_error "lstat" path e))
  | Ok inode =>
      if negb (inode =? want) then fs_ret (Some ("refusing to remove " +:+ path +:+ ": no longer the artifact we published"))
      else r <~ remove path; fs_ret (fs_error "remove" path <$> r)
  end.

(** Files by the name they were made under, with what was made. *)
Fixpoint remove_all (files : list (string * Z)) : FS unit :=
  match files with
  | [] => fs_ret tt
  | (path, want) :: files => _ <~ removeOwnArtifact path want; remove_all files
  end.

(** ** The names of one ordinal *)

Section Ordinal.
Context (ts : string) (ordinal : Z).

Definition slot (key : string) : string := format_name (snapshot_base ts ordinal) (if String.eqb key "manifest" then "manifest.json" else key).
Definition tmp_of (key : string) : string := slot key +:+ ".tmp".
Definition reserve_of (key : string) : string := slot key +:+ ".reserve".

(** Keys with the files that were made for them. *)
Abbreviation Infos := (list (string * Z)).

Definition cleanupArtifacts (tmpInfo sentinelInfo : Infos) : FS unit :=
  _ <~ remove_all (map (fun p => (tmp_of (fst p), snd p)) tmpInfo);
  remove_all (map (fun p => (reserve_of (fst p), snd p)) sentinelInfo).

(** The sentinels in turn, up to the first that cannot be made. *)
Fixpoint reserve (keys : list string) : FS (Infos * option (string * bool)) :=
  match keys with
  | [] => fs_ret ([], None)
  | key :: keys =>
      r <~ create_excl (reserve_of key);
      match r with
      | Err e => fs_ret ([], Some (key +:+ ": reserve slot: " +:+ fs_error "open" (reserve_of key) e, match e with FsExists => true | _ => false end))
      | Ok inode =>
          info <~ fstat inode;
          _ <~ plain_call CallClose;
          rest <~ reserve keys;
          let '(infos, failed) := rest in
          fs_ret (match info with Some i => (key, i) :: infos | None => infos end, failed)
      end
  end.

(** [writeTmp]: the file it made, or the error. *)
Definition writeTmp (tmpPath : string) (text : result error string) : FS (option Z * option error) :=
  r <~ create_excl tmpPath;
  match r with
  | Err e => fs_ret (None, Some (fs_error "open" tmpPath e))
  | Ok inode =>
      werr <~ write_text inode text;
      serr <~ match werr with Some e => fs_ret (Some e) | None => plain_call CallSync end;
      info <~ fstat inode;
      cerr <~ plain_call CallClose;
      fs_ret (info, match serr with Some e => Some e | None => cerr end)
  end.

(** The formats that could be written, with their files, and the errors. *)
Fixpoint write_formats (text : string -> result error string) (formats : list string) : FS (Infos * gmap string error) :=
  match formats with
  | [] => fs_ret ([], ∅)
  | f :: formats =>
      r <~ writeTmp (tmp_of f) (text f);
      rest <~ write_formats text formats;
      let '(infos, errs) := rest in
      fs_ret match r with
      | (_, Some e) => (infos, <[f := e]> errs)
      | (Some i, None) => ((f, i) :: infos, errs)
      | (None, None) => (infos, errs)
      end
  end.

Definition failed_on (errs : gmap string error) (f : string) : bool := bool_decide (is_Some (errs !! f)).

(** Whether a target is taken, and the targets that cannot be looked at. *)
Fixpoint precheck (writeErrs : gmap string error) (formats : list string) : FS (bool * gmap string error) :=
  match formats with
  | [] => fs_ret (false, ∅)
  | f :: formats =>
      if failed_on writeErrs f then precheck writeErrs formats
      else
        cur <~ lstat CallLstat (slot f);
        match cur with
        | Ok _ => fs_ret (true, ∅)
        | Err FsNotExist => precheck writeErrs formats
        | Err e =>
            rest <~ precheck writeErrs formats;
            let '(occupied, errs) := rest in
            fs_ret (occupied, <[f := fs_error "lstat" (slot f) e]> errs)
        end
  end.

(** A link, and the file as it looks afterwards. *)
Definition publish_link (old new : string) : FS (result FsError (option Z)) :=
  r <~ link old new;
  match r with
  | Some e => fs_ret (Err e)
  | None => seen <~ lstat CallSeen new; fs_ret (Ok match seen with Ok i => Some i | Err _ => None end)
  end.

(** The links, up to the first target that has appeared: whether there was one, the
    files that were linked as they look afterwards, the errors. *)
Fixpoint link_formats (writeErrs linkErrs : gmap string error) (formats : list string) : FS (bool * Infos * gmap string error) :=
  match formats with
  | [] => fs_ret (false, [], linkErrs)
  | f :: formats =>
      if failed_on writeErrs f || failed_on linkErrs f then link_formats writeErrs linkErrs formats
      else
        r <~ publish_link (tmp_of f) (slot f);
        match r with
        | Err FsExists => fs_ret (true, [], linkErrs)
        | Err e => link_formats writeErrs (<[f := fs_error "link" (slot f) e]> linkErrs) formats
        | Ok info =>
            rest <~ link_formats writeErrs linkErrs formats;
            let '(collided, linked, errs) := rest in
            fs_ret (collided, match info with Some i => (f, i) :: linked | None => linked end, errs)
        end
  end.

Definition format_errors (writeErrs linkErrs : gmap string error) (formats : list string) : list error :=
  omap (fun f => match writeErrs !! f, linkErrs !! f with
    | Some e, _ => Some (f +:+ ": write tmp: " +:+ e)
    | None, Some e => Some (f +:+ ": link snapshot: " +:+ e)
    | None, None => None
    end) formats.

Definition only (key : string) (infos : Infos) : Infos := List.filter (fun p => String.eqb (fst p) key) infos.
Definition all_but (key : string) (infos : Infos) : Infos := List.filter (fun p => negb (String.eqb (fst p) key)) infos.

End Ordinal.

(** ** One export *)

Record SnapshotOutcome : Type := MkOutcome { so_errs : list error; so_manifestErr : string; so_pubStateErr : string; so_ledgerErr : option error }.

Definition outcome_of_errors (errs : list error) : SnapshotOutcome := MkOutcome errs "" "" None.

(** [publishManifest] comes in as a step of its own. *)
Definition publish_at (publish_manifest : Z -> FS Published) (ts : string) (formats : list string) (text : string -> result error string) (ordinal : Z)
  : FS (option SnapshotOutcome) :=
  reserved <~ reserve ts ordinal (formats ++ ["manifest"]);
  let '(sentinels, reserveErr) := reserved in
  match reserveErr with
  | Some (e, taken) =>
      _ <~ cleanupArtifacts ts ordinal [] sentinels;
      fs_ret (if taken then None else Some (outcome_of_errors [e]))
  | None =>
      written <~ write_formats ts ordinal text formats;
      let '(tmps, writeErrs) := written in
      checked <~ precheck ts ordinal writeErrs formats;
      let '(occupied, lookErrs) := checked in
      linked <~ (if occupied then fs_ret (false, [], lookErrs) else link_formats ts ordinal writeErrs lookErrs formats);
      let '(collided, links, linkErrs) := linked in
      if occupied then
        _ <~ cleanupArtifacts ts ordinal tmps sentinels;
        fs_ret None
      else if collided then
        _ <~ remove_all (map (fun p => (slot ts ordinal (fst p), snd p)) links);
        _ <~ cleanupArtifacts ts ordinal tmps sentinels;
        fs_ret None
      else
        match format_errors writeErrs linkErrs formats with
        | e :: errs =>
            _ <~ cleanupArtifacts ts ordinal tmps sentinels;
            fs_ret (Some (outcome_of_errors (e :: errs)))
        | [] =>
            _ <~ cleanupArtifacts ts ordinal tmps (all_but "manifest" sentinels);
            pb <~ publish_manifest ordinal;
            _ <~ cleanupArtifacts ts ordinal [] (only "manifest" sentinels);
            fs_ret (Some (MkOutcome [] (pb_manifestErr pb) (pb_pubStateErr pb) (pb_ledgerErr pb)))
        end
  end.

(** The ordinals from [ordinal] on, [tries] of them. *)
Fixpoint publish_from (publish_manifest : Z -> FS Published) (ts : string) (formats : list string) (text : string -> result error string)
    (tries : nat) (ordinal : Z) : FS SnapshotOutcome :=
  match tries with
  | O => fs_ret (outcome_of_errors ["could not reserve a free snapshot slot after 100 retries"])
  | S tries =>
      r <~ publish_at publish_manifest ts formats text ordinal;
      match r with
      | Some outcome => fs_ret outcome
      | None => publish_from publish_manifest ts formats text tries (ordinal + 1)
      end
  end.

End Calls.

(** ** The manifest of an export *)

Section Exporting.
Context `{ManifestCrypto} `{LedgerCodec}.
Context (decode : string -> result error snapshotManifest) (encode : snapshotManifest -> string).

Definition no_such_file (name : string) : error := "open " +:+ name +:+ ": no such file or directory".

(** The groups that publication looks at, with what their manifests hold. *)
Definition export_groups (d : SnapDir) : list snapshotGroup :=
  match discoverSnapshotGroups false None d with
  | Ok (groups, _) =>
      map (fun g => discovered (sg_identity g) (sg_manifestFn g)
        match d !! sg_manifestFn g with Some f => decode (sf_data f) | None => Err (no_such_file (sg_manifestFn g)) end) groups
  | Err _ => []
  end.

Definition export_dir (d : SnapDir) (ledger : LogDisk) : ExportDir :=
  MkExportDir (export_groups d) (sf_data <$> d !! publicationStateFile) ledger.

(** The calls of a publication that reads the formats from the directory, where
    that does not fail. *)
Definition hashing (pio : PublishIO) (d : SnapDir) : PublishIO :=
  MkPublishIO (pio_state_read pio) (pio_discover pio) (pio_state_open pio) (pio_state_write pio) (pio_state_sync pio) (pio_state_close pio)
    (pio_state_rename pio)
    (fun fn => match pio_hash pio fn, d !! fn with
      | Err e, _ => Err e
      | Ok _, Some f => Ok (hash_data (sf_data f))
      | Ok _, None => Err (no_such_file fn)
      end)
    (pio_tmp_open pio) (pio_tmp_write pio) (pio_link pio) 0 (pio_ledger_prev pio) (pio_ledger pio).

(** *** The watermark

    Of the outcomes in [pio] only those of the reads and of the ledger count here. *)
Definition watermark_tmp : string := publicationStateFile +:+ ".tmp".

(** [allocatePublicationID], once the next id is known. Its temporary file is
    removed by its name. *)
Definition write_watermark (io : FsIO) (next : Z) : FS (result error Z) :=
  let failed what e := Err ("publication watermark " +:+ what +:+ ": " +:+ e) in
  r <~ create_excl io watermark_tmp;
  match r with
  | Err e => fs_ret (failed "write" (fs_error "open" watermark_tmp e))
  | Ok inode =>
      werr <~ write_text io inode (Ok (pretty next +:+ String newline ""));
      match werr with
      | Some e => _ <~ plain_call io CallClose; _ <~ remove io watermark_tmp; fs_ret (failed "write" e)
      | None =>
          serr <~ plain_call io CallSync;
          match serr with
          | Some e => _ <~ plain_call io CallClose; _ <~ remove io watermark_tmp; fs_ret (failed "sync" e)
          | None =>
              cerr <~ plain_call io CallClose;
              match cerr with
              | Some e => _ <~ remove io watermark_tmp; fs_ret (failed "close" e)
              | None =>
                  rerr <~ rename io watermark_tmp publicationStateFile;
                  match rerr with
                  | Some e => _ <~ remove io watermark_tmp; fs_ret (failed "commit" (fs_error "rename" watermark_tmp e))
                  | None => fs_ret (Ok next)
                  end
              end
          end
      end
  end.

Definition allocate (io : FsIO) (pio : PublishIO) : FS (result error Z) :=
  next <~ look io (fun d l => (l, next_publication_id pio (export_dir d l)));
  match next with Err e => fs_ret (Err e) | Ok next => write_watermark io next end.

(** *** [publishManifest] *)

Definition extend_chain (io : FsIO) (cfg : PublishConfig) (pio : PublishIO) (m : snapshotManifest) (at_ : string)
  : FS (result error snapshotManifest * option error) :=
  look io (fun d l => let '(after, r, lerr) := chain_and_sign cfg pio (export_dir d l) m at_ in (xd_ledger after, (r, lerr))).

(** The write, the sync and the close of the manifest: the error that counts. *)
Definition write_manifest (io : FsIO) (inode : Z) (data : string) : FS (option error) :=
  werr <~ write_text io inode (Ok data);
  serr <~ match werr with Some _ => fs_ret None | None => plain_call io CallSync end;
  cerr <~ plain_call io CallClose;
  fs_ret match werr, cerr with Some e, _ => Some e | None, Some e => Some e | None, None => serr end.

(** The manifest put in place; its temporary file is removed by its name. *)
Definition place_manifest (io : FsIO) (target : string) (data : string) : FS (option string) :=
  let tmpPath := target +:+ ".tmp" in
  r <~ create_excl io tmpPath;
  match r with
  | Err e => fs_ret (Some ("manifest: write tmp: " +:+ fs_error "open" tmpPath e))
  | Ok inode =>
      werr <~ write_manifest io inode data;
      match werr with
      | Some e => _ <~ remove io tmpPath; fs_ret (Some ("manifest: write tmp: " +:+ e))
      | None =>
          lerr <~ link io tmpPath target;
          _ <~ remove io tmpPath;
          fs_ret match lerr with
            | Some FsExists => Some ("manifest: link target occupied: " +:+ target)
            | Some e => Some ("manifest: link: " +:+ fs_error "link" target e)
            | None => None
            end
      end
  end.

Definition publish_manifest (io : FsIO) (cfg : PublishConfig) (pio : PublishIO) (x : ExportInfo) : FS Published :=
  hashed <~ look io (fun d l => (l, hash_formats (hashing pio d) x (pc_formats cfg)));
  match hashed with
  | Err e => fs_ret (MkPublished e "" None)
  | Ok formats =>
      allocated <~ allocate io pio;
      match allocated with
      | Err e => fs_ret (MkPublished "" e None)
      | Ok pubID =>
          signed <~ extend_chain io cfg pio (export_manifest x pubID formats) (xi_generatedAt x);
          match signed with
          | (Err e, lerr) => fs_ret (MkPublished e "" lerr)
          | (Ok m, lerr) =>
              perr <~ place_manifest io (xi_file x "manifest") (encode m);
              match perr with
              | Some e => fs_ret (MkPublished e "" lerr)
              | None =>
                  lerr' <~ look io (fun _ l => recordLedgerEntry cfg (pio_ledger pio) l m (xi_generatedAt x));
                  fs_ret (MkPublished "" "" (match lerr' with Some e => Some e | None => lerr end))
              end
          end
      end
  end.

(** What one read of the store gives to an export: the time as names have it, as
    manifests have it, and the rest. *)
Record TransitionRead : Type := MkRead {
  tr_LoadErr : option error;
  tr_Corrupt : bool;
  tr_stamp : string;
  tr_ExportedAt : string;
  tr_FileDropped : Z;
  tr_RetentionMetaInconsistent : bool;
  tr_MinSeq : Z;
  tr_MaxSeq : Z;
  tr_count : Z }.

(** [Truncated] of [historyExportStats] *)
Definition read_truncated (res : TransitionRead) : bool := (0 <? tr_FileDropped res) || tr_RetentionMetaInconsistent res.

Definition export_info (res : TransitionRead) (generatedAt : string) (ordinal : Z) : ExportInfo :=
  MkExportInfo (snapshot_identity (tr_stamp res) ordinal) (slot (tr_stamp res) ordinal) (tr_ExportedAt res) generatedAt
    (read_truncated res) (tr_MinSeq res) (tr_MaxSeq res) (tr_count res).

(** [publishSnapshot]; [text]: what the serializer of a format writes. *)
Definition publishSnapshot (io : FsIO) (cfg : PublishConfig) (pio : PublishIO) (text : string -> result error string) (res : TransitionRead)
    (generatedAt : string) : FS SnapshotOutcome :=
  publish_from io (fun ordinal => publish_manifest io cfg pio (export_info res generatedAt ordinal)) (tr_stamp res) (pc_formats cfg) text 100 0.

(** ** The tick *)

Record TickState : Type := MkTick {
  tk_running : bool;
  tk_skipCount : Z;
  tk_lastRunAt : string;
  tk_lastExportedAt : string;
  tk_lastError : string;
  tk_pruneError : string;
  tk_manifestError : string;
  tk_pubStateError : string;
  tk_ledgerError : string;
  tk_published : Z;
  tk_failed : Z }.

Definition with_errors (s : TickState) (lastError manifestError pubStateError ledgerError : string) (published failed : Z) (exportedAt : string) : TickState :=
  MkTick (tk_running s) (tk_skipCount s) (tk_lastRunAt s) exportedAt lastError (tk_pruneError s) manifestError pubStateError ledgerError published failed.

Definition with_prune (s : TickState) (err : option error) : TickState :=
  MkTick (tk_running s) (tk_skipCount s) (tk_lastRunAt s) (tk_lastExportedAt s) (tk_lastError s) (default "" err) (tk_manifestError s)
    (tk_pubStateError s) (tk_ledgerError s) (tk_published s) (tk_failed s).

Definition started (s : TickState) (now : string) : TickState :=
  MkTick true (tk_skipCount s) now (tk_lastExportedAt s) (tk_lastError s) (tk_pruneError s) (tk_manifestError s) (tk_pubStateError s)
    (tk_ledgerError s) (tk_published s) (tk_failed s).

Definition finished (s : TickState) : TickState :=
  MkTick false (tk_skipCount s) (tk_lastRunAt s) (tk_lastExportedAt s) (tk_lastError s) (tk_pruneError s) (tk_manifestError s) (tk_pubStateError s)
    (tk_ledgerError s) (tk_published s) (tk_failed s).

Definition skipped (s : TickState) : TickState :=
  MkTick (tk_running s) (tk_skipCount s + 1) (tk_lastRunAt s) (tk_lastExportedAt s) (tk_lastError s) (tk_pruneError s) (tk_manifestError s)
    (tk_pubStateError s) (tk_ledgerError s) (tk_published s) (tk_failed s).

(** What an export leaves in the state. The error of the ledger is only ever set
    here, not cleared. *)
Definition record_export (s : TickState) (formats : list string) (res : TransitionRead) (o : SnapshotOutcome) : TickState :=
  let ledgerError := default (tk_ledgerError s) (so_ledgerErr o) in
  if negb (String.eqb (so_pubStateErr o) "") then with_errors s (so_pubStateErr o) "" (so_pubStateErr o) ledgerError 0 0 (tk_lastExportedAt s)
  else
    let lines := String.concat "; " (so_errs o) in
    let '(lastError, exportedAt) :=
      if (length (so_errs o) =? 0)%nat then ("", tr_ExportedAt res)
      else if (length (so_errs o) <? length formats)%nat then ("partial export: " +:+ lines, tr_ExportedAt res)
      else ("export failed: " +:+ lines, tk_lastExportedAt s) in
    with_errors s lastError (so_manifestErr o) (so_pubStateErr o) ledgerError (Z.of_nat (length formats) - Z.of_nat (length (so_errs o)))
      (Z.of_nat (length (so_errs o))) exportedAt.

(** [Tick], no anchor, acceptance ledger or decision sink configured: one export,
    then retention, which comes in as [pruned]. *)
Definition Tick (io : FsIO) (cfg : PublishConfig) (pio : PublishIO) (text : string -> result error string) (now generatedAt : string) (res : TransitionRead)
    (pruned : SnapDir -> SnapDir * option error) (s : TickState) : FS TickState :=
  if tk_running s then fs_ret (skipped s)
  else
    let s := started s now in
    match tr_LoadErr res with
    | Some e => fs_ret (finished (with_errors s ("read error: " +:+ e) "" "" "" 0 0 (tk_lastExportedAt s)))
    | None =>
        if tr_Corrupt res then fs_ret (finished (with_errors s "durable history corrupt — skipped" "" "" "" 0 0 (tk_lastExportedAt s)))
        else fun w =>
          let '(w, o) := publishSnapshot io cfg pio text res generatedAt w in
          let '(d, err) := pruned (w_dir w) in
          (MkWorld d (w_ledger w) (w_calls w) (w_log w), finished (with_prune (record_export s (pc_formats cfg) res o) err))
    end.

End Exporting.

(** ** Only its own files *)

Definition made (log : list FsEvent) (inode : Z) : Prop := exists name, In (Created name inode) log.

(** What publication removes by the name alone. *)
Definition by_name (name : string) : Prop := name = watermark_tmp \/ exists ts ordinal, name = tmp_of ts ordinal "manifest".

(** A file is written only if it was made here; a name is removed only if its file
    was made here, if it was linked to it here, or if it is one of the two that go
    by their name and were made here; and only the watermark is replaced. *)
Definition own_event (log : list FsEvent) (e : FsEvent) : Prop :=
  match e with
  | Wrote inode => made log inode
  | Removed name inode => made log inode \/ In (Linked name inode) log \/ by_name name /\ exists inode', In (Created name inode') log
  | Replaced name _ => name = publicationStateFile
  | _ => True
  end.

Definition own_log (log : list FsEvent) : Prop := forall e, In e log -> own_event log e.

(** The others do nothing between a look at a name and the call that trusts it. *)
Definition unseparated (io : FsIO) : Prop := forall n d, fs_foreign io n CallRemove d = d /\ fs_foreign io n CallSeen d = d.

Definition growing (P : list FsEvent -> Prop) : Prop := forall l l', P l -> P (l ++ l').

Definition safe {A} (Pre : list FsEvent -> Prop) (m : FS A) (Post : A -> list FsEvent -> Prop) : Prop :=
  forall w, own_log (w_log w) -> Pre (w_log w) ->
    let '(w', a) := m w in (exists more, w_log w' = w_log w ++ more) /\ own_log (w_log w') /\ Post a (w_log w').

Lemma made_grows i : growing (fun l => made l i).
Proof. intros l l' [name Hn]. exists name. apply in_or_app. by left. Qed.

Lemma own_event_grows e : growing (fun l => own_event l e).
Proof.
  intros l l' He. destruct e; cbn in *; try done; [by apply made_grows|].
  destruct He as [?|[?|(? & i & ?)]]; [left; by apply made_grows|right; left; apply in_or_app; by left|right; right; split; [done|]; exists i; apply in_or_app; by left].
Qed.

Lemma own_log_app l l' : own_log l -> (forall e, In e l' -> own_event (l ++ l') e) -> own_log (l ++ l').
Proof. intros Hl Hl' e [He|He]%in_app_or; [apply own_event_grows; by apply Hl|by apply Hl']. Qed.

Lemma safe_ret {A} (a : A) Pre Post : (forall l, Pre l -> Post a l) -> safe Pre (fs_ret a) Post.
Proof. intros Ha w Ho Hp. cbn. split; [exists []; by rewrite app_nil_r|]. split; [done|by apply Ha]. Qed.

Lemma safe_bind {A B} (m : FS A) (k : A -> FS B) Pre Mid Post :
  growing Pre -> safe Pre m Mid -> (forall a, safe (fun l => Pre l /\ Mid a l) (k a) Post) -> safe Pre (fs_bind m k) Post.
Proof.
  intros Hg Hm Hk w Ho Hp. unfold fs_bind. specialize (Hm w Ho Hp). destruct (m w) as [w1 a]. destruct Hm as ((l1 & E1) & Ho1 & Ha).
  specialize (Hk a w1 Ho1). destruct (k a w1) as [w2 b]. destruct Hk as ((l2 & E2) & Ho2 & Hb); [split; [rewrite E1; by apply Hg|done]|].
  split; [exists (l1 ++ l2); by rewrite E2, E1, app_assoc|]. by split.
Qed.

Lemma safe_weaken {A} (m : FS A) (Pre Pre' : list FsEvent -> Prop) Post Post' :
  safe Pre m Post -> (forall l, Pre' l -> Pre l) -> (forall a l, Post a l -> Post' a l) -> safe Pre' m Post'.
Proof. intros Hm Hpre Hpost w Ho Hp. specialize (Hm w Ho (Hpre _ Hp)). destruct (m w) as [w' a]. destruct Hm as (? & ? & ?). split_and!; auto. Qed.

Lemma safe_seq {A B} (m : FS A) (k : A -> FS B) Pre Post :
  growing Pre -> safe Pre m (fun _ _ => True) -> (forall a, safe Pre (k a) Post) -> safe Pre (fs_bind m k) Post.
Proof. intros Hg Hm Hk. eapply safe_bind; [done|exact Hm|]. intros a. eapply safe_weaken; [apply (Hk a)|by intros l [? _]|done]. Qed.

Lemma growing_and P Q : growing P -> growing Q -> growing (fun l => P l /\ Q l).
Proof. intros HP HQ l l' [? ?]. split; [by apply HP|by apply HQ]. Qed.

Lemma growing_True : growing (fun _ => True).
Proof. done. Qed.

Create HintDb growing.
#[export] Hint Resolve made_grows growing_and growing_True : growing.

Section Ownership.
Context (io : FsIO).
Hypothesis atomic : unseparated io.

(** A call that is no removal, writes nothing and makes nothing. *)
Lemma safe_sys {A} c (failed : error -> A) run Post :
  (forall n d, match run n d with (_, events, a) => forall l, (forall e, In e events -> own_event (l ++ events) e) /\ Post a (l ++ events) end) ->
  (forall e l, Post (failed e) l) -> safe (fun _ => True) (sys io c failed run) Post.
Proof.
  intros Hr Hf w Ho _. unfold sys. destruct (fs_fail io (w_calls w) c); cbn; [split_and!; [exists []; by rewrite app_nil_r|done|done]|].
  specialize (Hr (w_calls w) (fs_foreign io (w_calls w) c (w_dir w))). destruct (run _ _) as [[d events] a]. cbn.
  destruct (Hr (w_log w)) as [He Hp]. split; [by exists events|]. split; [by apply own_log_app|done].
Qed.

Definition of_file (r : option Z) (l : list FsEvent) : Prop := match r with Some i => made l i | None => True end.

Lemma of_file_grows r : growing (of_file r).
Proof. destruct r; [apply made_grows|done]. Qed.
#[local] Hint Resolve of_file_grows : growing.

Lemma safe_create name : safe (fun _ => True) (create_excl io name) (fun r l => match r with Ok i => made l i | Err _ => True end).
Proof.
  apply safe_sys; [|done]. intros n d. destruct (d !! name); intros l; [split; [by intros ? []|done]|]. split; [by intros e [<-|[]]|].
  exists name. apply in_or_app. right. by left.
Qed.

Lemma safe_create_name name :
  safe (fun _ => True) (create_excl io name) (fun r l => match r with Ok i => made l i /\ In (Created name i) l | Err _ => True end).
Proof.
  apply safe_sys; [|done]. intros n d. destruct (d !! name); intros l; [split; [by intros ? []|done]|]. split; [by intros e [<-|[]]|].
  assert (Hc : In (Created name (fs_inode io n)) (l ++ [Created name (fs_inode io n)])) by (apply in_or_app; right; by left).
  split; [by exists name|done].
Qed.

(** A removal by the name alone. *)
Lemma safe_remove_name name :
  safe (fun l => by_name name /\ exists i, In (Created name i) l) (remove io name) (fun _ _ => True).
Proof.
  intros w Ho (Hn & i & Hi). unfold remove, sys. destruct (fs_fail io _ _); cbn; [split_and!; [exists []; by rewrite app_nil_r|done|done]|].
  destruct (fs_foreign io _ _ _ !! name) as [f|]; cbn.
  2: { split_and!; [by exists []|by rewrite app_nil_r|done]. }
  split; [by eexists|]. split; [|done].
  apply own_log_app; [done|]. intros x [<-|[]]. right. right. split; [done|]. exists i. apply in_or_app. by left.
Qed.

Lemma safe_link old new : safe (fun _ => True) (link io old new) (fun _ _ => True).
Proof.
  apply safe_sys; [|done]. intros n d. destruct (d !! old); [destruct (d !! new)|]; intros l; (split; [|done]); [by intros ? []|by intros x [<-|[]]|by intros ? []].
Qed.

Lemma safe_rename old : safe (fun _ => True) (rename io old publicationStateFile) (fun _ _ => True).
Proof.
  apply safe_sys; [|done]. intros n d. destruct (d !! old); [destruct (from_option sf_dir false _)|]; intros l; (split; [|done]); [by intros ? []|by intros x [<-|[]]|by intros ? []].
Qed.

Lemma safe_look {A} (f : SnapDir -> LogDisk -> LogDisk * A) : safe (fun _ => True) (look io f) (fun _ _ => True).
Proof. intros w Ho _. unfold look. destruct (f _ _). cbn. split_and!; [exists []; by rewrite app_nil_r|done|done]. Qed.

Lemma safe_fstat i : safe (fun l => made l i) (fstat io i) of_file.
Proof.
  intros w Ho Hm. unfold fstat, sys. destruct (fs_fail _ _ _); cbn; (split; [exists []; by rewrite ?app_nil_r|]); split; rewrite ?app_nil_r; done.
Qed.

Lemma safe_plain c : safe (fun _ => True) (plain_call io c) (fun _ _ => True).
Proof. apply safe_sys; [|done]. intros n d l. by split. Qed.

Lemma safe_lstat c name : safe (fun _ => True) (lstat io c name) (fun _ _ => True).
Proof. apply safe_sys; [|done]. intros n d l. by split. Qed.

Lemma safe_write i text : safe (fun l => made l i) (write_text io i text) (fun _ _ => True).
Proof.
  intros w Ho Hm. unfold write_text. destruct text as [data|e]; [destruct (fs_fail _ _ _)|]; cbn;
    (split; [by eexists|split; [|done]]; apply own_log_app; [done|]; intros x [<-|[]]; by apply made_grows).
Qed.

(** A removal takes away the very file that was looked for. *)
Lemma safe_remove_own path want :
  safe (fun l => made l want \/ In (Linked path want) l) (removeOwnArtifact io path want) (fun _ _ => True).
Proof using atomic.
  intros w Ho Hw. unfold removeOwnArtifact, fs_bind, lstat, sys at 1. destruct (fs_fail io (w_calls w) CallLstat) as [e|]; cbn.
  { split_and!; [exists []; by rewrite app_nil_r|done|done]. }
  set (d := fs_foreign io _ _ _). destruct (d !! path) as [f|] eqn:Ef; cbn; [|split_and!; [by eexists|by rewrite app_nil_r|done]].
  destruct (Z.eqb_spec (sf_inode f) want) as [Hi|]; cbn; [|split_and!; [by eexists|by rewrite app_nil_r|done]].
  unfold fs_bind, remove, sys. cbn. destruct (fs_fail io _ CallRemove); cbn; [split_and!; [by eexists|by rewrite app_nil_r|done]|].
  rewrite (proj1 (atomic _ _)), Ef. cbn. split; [eexists; by rewrite app_nil_r|]. split; [|done]. rewrite app_nil_r. apply own_log_app; [done|].
  intros x [<-|[]]. subst want. destruct Hw as [?|?]; [left; by apply made_grows|right; left; apply in_or_app; by left].
Qed.

Definition removable (files : list (string * Z)) (l : list FsEvent) : Prop :=
  Forall (fun p => made l (snd p) \/ In (Linked (fst p) (snd p)) l) files.

Lemma removable_grows files : growing (removable files).
Proof.
  intros l l' Hr. eapply Forall_impl; [exact Hr|]. cbn. intros p [?|?]; [left; by apply made_grows|right; apply in_or_app; by left].
Qed.

Lemma safe_remove_all files : safe (removable files) (remove_all io files) (fun _ _ => True).
Proof using atomic.
  induction files as [|[path want] files IH]; [by apply safe_ret|]. cbn [remove_all]. eapply safe_bind; [apply removable_grows| |].
  - eapply safe_weaken; [apply safe_remove_own| |done]. intros l Hr. by apply Forall_cons in Hr as [? _].
  - intros a. eapply safe_weaken; [exact IH| |done]. intros l [Hr _]. by apply Forall_cons in Hr as [_ ?].
Qed.

Definition infos_made (infos : list (string * Z)) (l : list FsEvent) : Prop := Forall (fun p => made l (snd p)) infos.

Lemma infos_made_grows infos : growing (infos_made infos).
Proof. intros l l' Hr. eapply Forall_impl; [exact Hr|]. cbn. intros p ?. by apply made_grows. Qed.
#[local] Hint Resolve infos_made_grows removable_grows : growing.

Lemma infos_removable (name : string -> string) infos l : infos_made infos l -> removable (map (fun p => (name (fst p), snd p)) infos) l.
Proof. intros Hi. apply Forall_map. eapply Forall_impl; [exact Hi|]. intros p ?. by left. Qed.

Lemma safe_cleanup ts o tmps sents : safe (fun l => infos_made tmps l /\ infos_made sents l) (cleanupArtifacts io ts o tmps sents) (fun _ _ => True).
Proof using atomic.
  unfold cleanupArtifacts. eapply safe_bind; [auto with growing|eapply safe_weaken; [apply safe_remove_all| |done]|].
  - intros l [? _]. by apply infos_removable.
  - intros a. eapply safe_weaken; [apply safe_remove_all| |done]. intros l [[_ ?] _]. by apply infos_removable.
Qed.

Lemma safe_reserve ts o keys : safe (fun _ => True) (reserve io ts o keys) (fun r l => infos_made (fst r) l).
Proof.
  induction keys as [|key keys IH]; [apply safe_ret; intros; apply Forall_nil; done|]. cbn [reserve].
  eapply safe_bind; [done|apply safe_create|]. intros [i|e]; [|apply safe_ret; intros; by apply Forall_nil].
  eapply safe_bind; [auto with growing|eapply safe_weaken; [apply safe_fstat|by intros ? [_ ?]|intros a l Hp; exact Hp]|]. intros info.
  assert (Hg : growing (fun l => (True /\ made l i) /\ of_file info l)) by auto with growing.
  eapply safe_bind; [exact Hg|eapply safe_weaken; [apply safe_plain|done|done]|]. intros u.
  eapply safe_bind; [by apply growing_and|eapply safe_weaken; [exact IH|done|intros a l Hp; exact Hp]|]. intros [infos failed].
  apply safe_ret. cbn. intros l ((([_ _] & Hof) & _) & Hi). destruct info; [by apply Forall_cons|done].
Qed.

Lemma safe_writeTmp path text : safe (fun _ => True) (writeTmp io path text) (fun r l => of_file (fst r) l).
Proof.
  unfold writeTmp. eapply safe_bind; [done|apply safe_create|]. intros [i|e]; [|by apply safe_ret].
  eapply safe_bind; [auto with growing|eapply safe_weaken; [apply safe_write|by intros ? [_ ?]|done]|]. intros werr. 
  set (Pre := fun l => (True /\ made l i) /\ True). assert (Hg : growing Pre) by (unfold Pre; auto with growing).
  eapply (safe_bind _ _ Pre (fun _ _ => True)); [exact Hg|destruct werr; [by apply safe_ret|eapply safe_weaken; [apply safe_plain|done|done]]|]. intros serr.
  eapply safe_bind; [auto with growing|eapply safe_weaken; [apply safe_fstat|by intros ? [[[_ ?] _] _]|intros a l Hp; exact Hp]|]. intros info.
  eapply safe_bind; [auto with growing|eapply safe_weaken; [apply safe_plain|done|done]|]. intros cerr.
  apply safe_ret. cbn. by intros l [[_ ?] _].
Qed.

Lemma safe_write_formats ts o text formats : safe (fun _ => True) (write_formats io ts o text formats) (fun r l => infos_made (fst r) l).
Proof.
  induction formats as [|f formats IH]; [apply safe_ret; intros; by apply Forall_nil|]. cbn [write_formats].
  eapply safe_bind; [done|apply safe_writeTmp|]. intros [info err].
  eapply safe_bind; [auto with growing|eapply safe_weaken; [exact IH|done|intros a l Hp; exact Hp]|]. intros [infos errs].
  apply safe_ret. cbn. intros l [[_ Hof] Hi]. destruct info, err; cbn; try done. by apply Forall_cons.
Qed.

Lemma safe_precheck ts o errs formats : safe (fun _ => True) (precheck io ts o errs formats) (fun _ _ => True).
Proof.
  induction formats as [|f formats IH]; [by apply safe_ret|]. cbn [precheck]. destruct (failed_on errs f); [done|].
  eapply safe_bind; [done|apply safe_lstat|]. assert (IH' : forall Q : list FsEvent -> Prop, safe Q (precheck io ts o errs formats) (fun _ _ => True)).
  { intros Q. by eapply safe_weaken; [exact IH|done|done]. }
  intros [i|[]]; [by apply safe_ret| |exact (IH' _)|]; (eapply safe_bind; [auto with growing|apply IH'|]; intros [b m]; by apply safe_ret).
Qed.

Definition linked_slots (ts : string) (o : Z) (infos : list (string * Z)) (l : list FsEvent) : Prop :=
  removable (map (fun p => (slot ts o (fst p), snd p)) infos) l.

(** What is seen at a name right after it was linked is what was linked. *)
Lemma safe_publish_link old new :
  safe (fun _ => True) (publish_link io old new) (fun r l => match r with Ok (Some i) => In (Linked new i) l | _ => True end).
Proof using atomic.
  intros w Ho _. unfold publish_link, fs_bind, link, sys at 1. destruct (fs_fail io (w_calls w) CallLink); cbn; [split_and!; [exists []; by rewrite app_nil_r|done|done]|].
  set (d := fs_foreign io _ CallLink _). destruct (d !! old) as [fo|]; cbn; [|split_and!; [by eexists|by rewrite app_nil_r|done]].
  destruct (d !! new) as [fn|]; cbn; [split_and!; [by eexists|by rewrite app_nil_r|done]|].
  unfold lstat, sys. cbn. destruct (fs_fail io _ CallSeen); cbn.
  - split_and!; [by eexists|apply own_log_app; [done|by intros ev [<-|[]]]|done].
  - rewrite (proj2 (atomic _ _)), lookup_insert_eq. cbn. rewrite app_nil_r. split_and!; [by eexists|apply own_log_app; [done|by intros ev [<-|[]]]|].
    apply in_or_app. right. by left.
Qed.

Lemma safe_link_formats ts o werrs errs formats :
  safe (fun _ => True) (link_formats io ts o werrs errs formats) (fun r l => linked_slots ts o (snd (fst r)) l).
Proof using atomic.
  revert errs. induction formats as [|f formats IH]; intros errs; [apply safe_ret; intros; by apply Forall_nil|]. cbn [link_formats].
  destruct (failed_on werrs f || failed_on errs f); [done|]. eapply safe_bind; [done|apply safe_publish_link|]. intros [info|e].
  - assert (Hg : growing (fun l => True /\ match info with Some i => In (Linked (slot ts o f) i) l | None => True end)).
    { intros l l' [_ Hi]. split; [done|]. destruct info; [|done]. apply in_or_app. by left. }
    eapply safe_bind; [destruct info; exact Hg|eapply safe_weaken; [apply IH|done|intros a l Hp; exact Hp]|]. intros [[collided linked] errs'].
    apply safe_ret. cbn. intros l [[_ Hi] Hl]. destruct info; [|done]. apply Forall_cons. split; [by right|done].
  - destruct e; [apply safe_ret; intros; by apply Forall_nil|..]; (eapply safe_weaken; [apply IH|done|done]).
Qed.

(** ** One export *)

Lemma safe_publish_at (publish : Z -> FS Published) ts formats text o :
  (forall o, safe (fun _ => True) (publish o) (fun _ _ => True)) -> safe (fun _ => True) (publish_at io publish ts formats text o) (fun _ _ => True).
Proof using atomic.
  intros Hpub. unfold publish_at. eapply safe_bind; [done|apply safe_reserve|]. intros [sents [[e taken]|]]; cbn [fst].
  { eapply safe_bind; [auto with growing|eapply safe_weaken; [apply safe_cleanup| |done]|intros u; by apply safe_ret].
    intros l [_ ?]. split; [by apply Forall_nil|done]. }
  eapply safe_bind; [auto with growing|eapply safe_weaken; [apply safe_write_formats|done|intros a l Hp; exact Hp]|]. intros [tmps werrs]. cbn [fst].
  set (Pre := fun l => (True /\ infos_made sents l) /\ infos_made tmps l). assert (Hg : growing Pre) by (unfold Pre; auto with growing).
  eapply (safe_bind _ _ Pre (fun _ _ => True)); [exact Hg|eapply safe_weaken; [apply safe_precheck|done|done]|]. intros [occupied lerrs].
  eapply (safe_bind _ _ _ (fun r l => linked_slots ts o (snd (fst r)) l)); [auto with growing| |].
  { destruct occupied; [apply safe_ret; intros; by apply Forall_nil|]. eapply safe_weaken; [apply safe_link_formats|done|done]. }
  intros [[collided links] errs]. cbn [fst snd].
  assert (Hg2 : growing (fun l => (Pre l /\ True) /\ linked_slots ts o links l)) by (unfold linked_slots; auto with growing).
  assert (Hclean : forall sub, (forall l, infos_made sents l -> infos_made sub l) -> forall tm, (forall l, infos_made tmps l -> infos_made tm l) ->
    safe (fun l => (Pre l /\ True) /\ linked_slots ts o links l) (cleanupArtifacts io ts o tm sub) (fun _ _ => True)).
  { intros sub Hsub tm Htm. eapply safe_weaken; [apply safe_cleanup| |done]. intros l [[[[_ Hs] Ht] _] _]. split; auto. }
  assert (Hfilter : forall (f : string * Z -> bool) l, infos_made sents l -> infos_made (List.filter f sents) l).
  { intros f l Hi. unfold infos_made in *. rewrite List.Forall_forall in *. intros p [Hp _]%filter_In. by apply Hi. }
  destruct occupied; [eapply safe_bind; [done|by apply Hclean|intros u; by apply safe_ret]|].
  destruct collided.
  { eapply safe_bind; [done|eapply safe_weaken; [apply safe_remove_all| |done]|]. { by intros l [_ Hl]. }
    intros u. eapply safe_bind; [by apply growing_and|eapply safe_weaken; [by apply Hclean|by intros l [? _]|done]|intros v; by apply safe_ret]. }
  destruct (format_errors _ _ _); [|eapply safe_bind; [done|by apply Hclean|intros u; by apply safe_ret]].
  eapply safe_bind; [done|apply Hclean; [intros l; apply Hfilter|done]|]. intros u.
  eapply safe_bind; [by apply growing_and|eapply safe_weaken; [apply Hpub|done|done]|]. intros pb.
  eapply safe_bind; [apply growing_and; [by apply growing_and|done]|eapply safe_weaken; [apply Hclean; [intros l; apply (Hfilter _ l)|intros l _; by apply Forall_nil]|by intros l [[? _] _]|done]|].
  intros v. by apply safe_ret.
Qed.

Lemma safe_publish_from (publish : Z -> FS Published) ts formats text tries o :
  (forall o, safe (fun _ => True) (publish o) (fun _ _ => True)) -> safe (fun _ => True) (publish_from io publish ts formats text tries o) (fun _ _ => True).
Proof using atomic.
  intros Hpub. revert o. induction tries as [|tries IH]; intros o; [by apply safe_ret|]. cbn [publish_from].
  eapply safe_bind; [done|by apply safe_publish_at|]. intros [outcome|]; [by apply safe_ret|]. eapply safe_weaken; [apply IH|done|done].
Qed.

End Ownership.

Section ExportLaws.
Context `{ManifestCrypto} `{LedgerCodec}.
Context (decode : string -> result error snapshotManifest) (encode : snapshotManifest -> string) (io : FsIO).

Lemma safe_watermark next : safe (fun _ => True) (write_watermark io next) (fun _ _ => True).
Proof.
  unfold write_watermark. eapply safe_bind; [done|apply safe_create_name|]. intros [i|e]; [|by apply safe_ret].
  set (Pre := fun l => True /\ made l i /\ In (Created watermark_tmp i) l). assert (Hg : growing Pre).
  { intros l l' (_ & [n Hn] & Hc). split; [done|]. split; [exists n|]; apply in_or_app; by left. }
  assert (Hrm : safe Pre (remove io watermark_tmp) (fun _ _ => True)).
  { eapply safe_weaken; [apply (safe_remove_name io)|intros l (_ & _ & Hc); split; [by left|by exists i]|done]. }
  assert (Hplain : forall c, safe Pre (plain_call io c) (fun _ _ => True)) by (intros c; by eapply safe_weaken; [apply safe_plain|done|done]).
  assert (Hclean : forall (a : result error Z), safe Pre (fs_bind (remove io watermark_tmp) (fun _ => fs_ret a)) (fun _ _ => True)).
  { intros a. eapply safe_bind; [exact Hg|exact Hrm|]. intros r. by apply safe_ret. }
  assert (Hclose : forall (a : result error Z), safe Pre (fs_bind (plain_call io CallClose) (fun _ => fs_bind (remove io watermark_tmp) (fun _ => fs_ret a))) (fun _ _ => True)).
  { intros a. eapply safe_seq; [exact Hg|apply Hplain|]. intros u. apply Hclean. }
  eapply safe_seq; [exact Hg|eapply safe_weaken; [apply (safe_write io i)|by intros l (_ & ? & _)|done]|]. intros [e|]; [apply Hclose|].
  eapply safe_seq; [exact Hg|apply Hplain|]. intros [e|]; [apply Hclose|].
  eapply safe_seq; [exact Hg|apply Hplain|]. intros [e|]; [apply Hclean|].
  eapply safe_seq; [exact Hg|eapply safe_weaken; [apply safe_rename|done|done]|]. intros [e|]; [apply Hclean|by apply safe_ret].
Qed.

Lemma safe_place ts ordinal data : safe (fun _ => True) (place_manifest io (slot ts ordinal "manifest") data) (fun _ _ => True).
Proof.
  unfold place_manifest. change (slot ts ordinal "manifest" +:+ ".tmp") with (tmp_of ts ordinal "manifest"). set (tmp := tmp_of ts ordinal "manifest").
  eapply safe_bind; [done|apply safe_create_name|]. intros [i|e]; [|by apply safe_ret].
  set (Pre := fun l => True /\ made l i /\ In (Created tmp i) l). assert (Hg : growing Pre).
  { intros l l' (_ & [n Hn] & Hc). split; [done|]. split; [exists n|]; apply in_or_app; by left. }
  assert (Hrm : forall (a : option string), safe Pre (fs_bind (remove io tmp) (fun _ => fs_ret a)) (fun _ _ => True)).
  { intros a. eapply safe_seq; [exact Hg| |intros r; by apply safe_ret].
    eapply safe_weaken; [apply (safe_remove_name io)|intros l (_ & _ & Hc); split; [right; by exists ts, ordinal|by exists i]|done]. }
  eapply (safe_seq _ _ Pre); [exact Hg| |].
  { unfold write_manifest. eapply safe_seq; [exact Hg|eapply safe_weaken; [apply (safe_write io i)|by intros l (_ & ? & _)|done]|]. intros werr.
    eapply safe_seq; [exact Hg|destruct werr; [by apply safe_ret|by eapply safe_weaken; [apply safe_plain|done|done]]|]. intros serr.
    eapply safe_seq; [exact Hg|by eapply safe_weaken; [apply safe_plain|done|done]|]. intros cerr. by apply safe_ret. }
  intros [e|]; [apply Hrm|]. eapply safe_seq; [exact Hg|eapply safe_weaken; [apply safe_link|done|done]|]. intros lerr. apply Hrm.
Qed.

Lemma safe_publish_manifest cfg pio x ts ordinal : xi_file x "manifest" = slot ts ordinal "manifest" ->
  safe (fun _ => True) (publish_manifest decode encode io cfg pio x) (fun _ _ => True).
Proof.
  intros Hx. unfold publish_manifest. rewrite Hx. eapply safe_seq; [done|apply safe_look|]. intros [formats|e]; [|by apply safe_ret].
  eapply safe_seq; [done| |].
  { unfold allocate. eapply safe_seq; [done|apply safe_look|]. intros [next|e]; [apply safe_watermark|by apply safe_ret]. }
  intros [id|e]; [|by apply safe_ret]. eapply safe_seq; [done|apply safe_look|]. intros [[m|e] lerr]; [|by apply safe_ret].
  eapply safe_seq; [done|apply safe_place|]. intros [e|]; [by apply safe_ret|]. eapply safe_seq; [done|apply safe_look|]. intros lerr'. by apply safe_ret.
Qed.


End ExportLaws.

(** ** Witnesses *)

#[local] Existing Instance sample_crypto.
#[local] Existing Instance sample_codec.

Definition given_inode (n : nat) : Z := 1000 + Z.of_nat n.
Definition no_one (_ : nat) (_ : Call) (d : SnapDir) : SnapDir := d.
Definition works_always (_ : nat) (_ : Call) : option error := None.
Definition calm_io : FsIO := MkFsIO no_one works_always given_inode (fun _ => "").

Definition both_formats (signer : option exportSigner) : PublishConfig := MkPublishConfig signer (Some sample_trust) ["json"; "csv"] 100.
Definition second_read : TransitionRead := MkRead None false "20260102T000000Z" "2026-01-02T00:00:00Z" 0 false 1 2 2.
Definition start_world (d : SnapDir) : World := MkWorld d empty_log 0 [].
Definition marked_dir : SnapDir := sample_dir [("publication-seq.state", "4" +:+ String newline "")].

#[local] Abbreviation exporting io := (publishSnapshot (fun _ => Err "invalid character") (fun _ => "manifest") io (both_formats None) (sample_io 0 None)
  (fun f => Ok f) second_read "2026-01-02T00:00:01Z" (start_world marked_dir)).

(** Another process makes the CSV once the JSON is linked. *)
Definition their_csv (c : Call) (d : SnapDir) : SnapDir :=
  let name := "alert-transitions-20260102T000000Z.csv" in
  match c, d !! "alert-transitions-20260102T000000Z.json", d !! name with
  | CallLink, Some _, None => <[name := MkFile false 7 "theirs"]> d
  | _, _, _ => d
  end.
Definition racing_io : FsIO := MkFsIO (fun _ => their_csv) works_always given_inode (fun _ => "").


(** *** Between the look and the removal

    The look at a name and its removal are two calls, and so are a link and the
    look that is to prove it: a file that takes the name in between is removed. *)
Definition not_own (log : list FsEvent) : list FsEvent :=
  List.filter (fun e => match e with
    | Removed name i => negb (existsb (fun e => match e with Created _ j => i =? j | Linked n j => String.eqb n name && (i =? j) | _ => false end) log)
    | _ => false end) log.

(** The name of the JSON, once it is there, is taken over at the calls of a kind,
    and the CSV made as above. *)
Definition taken_over (at_ : Call -> bool) (c : Call) (d : SnapDir) : SnapDir :=
  let name := "alert-transitions-20260102T000000Z.json" in
  if at_ c then match d !! name with Some _ => <[name := MkFile false 8 "theirs too"]> d | None => d end else their_csv c d.
Definition taking_io (at_ : Call -> bool) : FsIO := MkFsIO (fun _ => taken_over at_) works_always given_inode (fun _ => "").

Example foreign_removed :
  let name := "alert-transitions-20260102T000000Z.json" in
  not_own (w_log (fst (exporting (taking_io (fun c => match c with CallRemove => true | _ => false end))))) = [Removed name 8] /\
  not_own (w_log (fst (exporting (taking_io (fun c => match c with CallSeen => true | _ => false end))))) = [Removed name 8].
Proof. vm_compute. split; reflexivity. Qed.

(** *** The temporary of the manifest goes by its name

    It is removed without a look, so a file that took its name meanwhile goes with
    it, though no one comes between a look and a call that trusts it. *)
Definition tmp_taken (c : Call) (d : SnapDir) : SnapDir :=
  let name := "alert-transitions-20260102T000000Z.manifest.json.tmp" in
  match c, d !! name with CallLink, Some _ => <[name := MkFile false 9 "theirs as well"]> d | _, _ => d end.

Example temporary_of_others :
  let io := MkFsIO (fun _ => tmp_taken) works_always given_inode (fun _ => "") in
  unseparated io /\ not_own (w_log (fst (exporting io))) = [Removed "alert-transitions-20260102T000000Z.manifest.json.tmp" 9] /\
  sf_data <$> w_dir (fst (exporting io)) !! "alert-transitions-20260102T000000Z.manifest.json" = Some "theirs as well" /\
  so_manifestErr (snd (exporting io)) = "".
Proof. cbv zeta. split; [by intros n d|]. vm_compute. split_and!; reflexivity. Qed.

(** *** A refused rollback is not reported

    The name was taken over before the rollback looks at it: the rollback refuses,
    leaves the file, and the error goes with the ordinal. *)
Example rollback_refusal_lost :
  let run := exporting (taking_io (fun c => match c with CallLstat => true | _ => false end)) in
  so_errs (snd run) = [] /\ not_own (w_log (fst run)) = [] /\
  sf_data <$> w_dir (fst run) !! "alert-transitions-20260102T000000Z.json" = Some "theirs too".
Proof. vm_compute. repeat split. Qed.

(** *** A failed write leaves its temporary file

    Only a file that was written without an error is taken to be the export's own;
    nothing ever removes the others, since retention ignores temporary files. *)
Definition failing_io (c : Call -> bool) (e : error) : FsIO := MkFsIO no_one (fun _ c' => if c c' then Some e else None) given_inode (fun _ => "half").

Example temporary_left :
  let run := exporting (failing_io (fun c => match c with CallWrite => true | _ => false end) "no space left on device") in
  length (so_errs (snd run)) = 2%nat /\
  file_names (w_dir (fst run)) = ["alert-transitions-20260102T000000Z.csv.tmp"; "alert-transitions-20260102T000000Z.json.tmp"; "publication-seq.state"] /\
  unit_of "alert-transitions-20260102T000000Z.json.tmp" = None.
Proof. vm_compute. repeat split. Qed.

(** *** An export of nothing is half a success

    What goes wrong before the formats is one error, and the success of a tick is
    counted by errors and formats. *)
Definition idle : TickState := MkTick false 0 "" "" "" "" "" "" "" 0 0.
#[local] Abbreviation ticking io formats s := (Tick (fun _ => Err "invalid character") (fun _ => "manifest") io (MkPublishConfig None None formats 100)
  (sample_io 0 None) (fun f => Ok f) "now" "2026-01-02T00:00:01Z" second_read (fun d => (d, None)) s (start_world marked_dir)).

Example nothing_is_partial :
  let '(w, s) := ticking (failing_io (fun c => match c with CallOpen => true | _ => false end) "permission denied") ["json"; "csv"] idle in
  file_names (w_dir w) = ["publication-seq.state"] /\ (tk_published s, tk_failed s) = (1, 1) /\ tk_lastExportedAt s = "2026-01-02T00:00:00Z" /\ HasPrefix (tk_lastError s) "partial export: " = true.
Proof. vm_compute. split_and!; reflexivity. Qed.

(** The constructor takes a format twice, which no tick can then export. *)
Example format_twice :
  let '(w, s) := ticking calm_io ["json"; "json"] idle in
  file_names (w_dir w) = ["publication-seq.state"] /\ (tk_published s, tk_failed s) = (1, 1) /\
  tk_lastError s = "partial export: could not reserve a free snapshot slot after 100 retries".
Proof. vm_compute. split_and!; reflexivity. Qed.

(** *** The error of the ledger stays

    Nothing clears it but a tick that cannot read the store. *)
Example ledger_error_sticks :
  let failed := record_export idle ["json"] second_read (MkOutcome [] "" "" (Some "ledger: EIO")) in
  let recovered := record_export failed ["json"] second_read (MkOutcome [] "" "" None) in
  tk_lastError recovered = "" /\ tk_ledgerError recovered = "ledger: EIO" /\
  tk_ledgerError (snd (Tick (fun _ => Err "") (fun _ => "") calm_io (both_formats None) (sample_io 0 None) (fun f => Ok f) "now" "at"
    (MkRead (Some "EIO") false "" "" 0 false 0 0 0) (fun d => (d, None)) recovered (start_world marked_dir))) = "".
Proof. vm_compute. split_and!; reflexivity. Qed.
