(* ===== verification/ExportSpec.v ===== *)
(** * A published snapshot verifies
    (history_export_scheduler.go publishSnapshot, history_export_manifest.go
     VerifySnapshotsDetailed)

    What an undisturbed export leaves in the directory, and that verification finds
    it intact. *)

From Stdlib Require Import Ascii.
From S2P Require Import Prelude GoStrings GoTime Manifest AppendLog Ledger Chain SignedLog KeyLifecycle Publish SnapshotFiles SnapshotVerify SchedulerConfig Scheduler.

(** ** What a group holds *)

Definition format_of (fn : string) : string := if HasSuffix fn ".csv" then "csv" else "json".

Record shaped (id : string) (g : DirGroup) : Prop := MkShaped {
  sh_artifacts : forall k fn, sg_artifacts g !! k = Some fn -> k = format_of fn /\ exists self, parseSnapshotFile fn = (self, snapshotKindArtifact);
  sh_extra : forall fn, In fn (sg_extraFiles g) -> exists self, parseSnapshotFile fn = (self, snapshotKindArtifact) /\ snapshotIdentityValid self = false;
  sh_manifest : sg_manifestFn g <> "" -> parseSnapshotFile (sg_manifestFn g) = (id, snapshotKindManifest) }.

Definition all_shaped (m : gmap string DirGroup) : Prop := forall id g, m !! id = Some g -> shaped id g.

Lemma shaped_empty id : shaped id (MkDirGroup id "" ∅ []).
Proof. constructor; cbn; [intros k fn Hk; by rewrite lookup_empty in Hk|done|done]. Qed.

Lemma update_shaped id f m : all_shaped m -> (forall g, shaped id g -> shaped id (f g)) -> all_shaped (update_group id f m).
Proof.
  intros Hm Hf id' g. unfold update_group. intros [[-> <-]|[_ Hg]]%lookup_insert_Some; [|by apply Hm]. apply Hf.
  destruct (m !! id') as [g|] eqn:E; [by apply Hm|apply shaped_empty].
Qed.

Lemma set_artifact_shaped id self name g : parseSnapshotFile name = (self, snapshotKindArtifact) -> shaped id g -> shaped id (set_artifact name g).
Proof.
  intros Hp [Ha He Hm]. constructor; [|exact He|exact Hm]. intros k fn. unfold set_artifact. cbn.
  intros [[<- <-]|[_ Hk]]%lookup_insert_Some; [by split; [|exists self]|by apply Ha].
Qed.

Lemma register_shaped m name : all_shaped m -> all_shaped (register_file m name).
Proof.
  intros Hm. unfold register_file. destruct (parseSnapshotFile name) as [self []] eqn:E; [done| |].
  - destruct (snapshotIdentityValid self); [|done]. apply update_shaped; [done|]. intros g. by eapply set_artifact_shaped.
  - apply update_shaped; [done|]. intros g [Ha He _]. by constructor.
Qed.

Lemma attribute_shaped dv m un name : all_shaped m -> all_shaped (fst (attribute_file dv (m, un) name)).
Proof.
  intros Hm. unfold attribute_file. destruct (parseSnapshotFile name) as [self []] eqn:E; [done| |done].
  destruct (snapshotIdentityValid self) eqn:Ev; [done|]. destruct (String.eqb _ ""); [done|]. cbn [fst]. apply update_shaped; [done|]. intros g Hg.
  destruct (dv && _); [|by eapply set_artifact_shaped]. destruct Hg as [Ha He Hmf]. constructor; [done| |done]. cbn.
  intros fn [Hfn|[<-|[]]]%in_app_or; [by apply He|by exists self].
Qed.

(** A registered artifact of a valid identity leaves its format in the group. *)
Definition has_format (id k : string) (m : gmap string DirGroup) : Prop := exists g, m !! id = Some g /\ is_Some (sg_artifacts g !! k).

Lemma update_format id id' k f m : has_format id k m -> (forall g, is_Some (sg_artifacts g !! k) -> is_Some (sg_artifacts (f g) !! k)) ->
  has_format id k (update_group id' f m).
Proof.
  intros (g & Hg & Hn) Hf. unfold has_format, update_group. destruct (decide (id = id')) as [->|Hne].
  - rewrite lookup_insert_eq, Hg. eexists. split; [done|]. by apply Hf.
  - rewrite lookup_insert_ne by done. by exists g.
Qed.

Lemma set_artifact_format name g k : is_Some (sg_artifacts g !! k) \/ k = format_of name -> is_Some (sg_artifacts (set_artifact name g) !! k).
Proof.
  intros Hk. unfold set_artifact. cbn. fold (format_of name). destruct (decide (k = format_of name)) as [->|Hne].
  - rewrite lookup_insert_eq. by eexists.
  - rewrite lookup_insert_ne by done. by destruct Hk.
Qed.

Lemma register_format m name id k :
  has_format id k m \/ parseSnapshotFile name = (id, snapshotKindArtifact) /\ snapshotIdentityValid id = true /\ k = format_of name ->
  has_format id k (register_file m name).
Proof.
  unfold register_file. destruct (parseSnapshotFile name) as [self kind] eqn:E. intros [Hm|([= -> ->] & -> & ->)].
  - destruct kind; [done| |by apply update_format]. destruct (snapshotIdentityValid self); [|done].
    apply update_format; [done|]. intros g Hg. apply set_artifact_format. by left.
  - unfold has_format, update_group. rewrite lookup_insert_eq. eexists. split; [done|]. apply set_artifact_format. by right.
Qed.

Lemma attribute_format dv m un name id k : has_format id k m -> has_format id k (fst (attribute_file dv (m, un) name)).
Proof.
  intros Hm. unfold attribute_file. destruct (parseSnapshotFile name) as [self []]; [done| |done]. destruct (snapshotIdentityValid self); [done|].
  destruct (String.eqb _ ""); [done|]. cbn [fst]. apply update_format; [done|]. intros g Hg. destruct (dv && _); [done|]. apply set_artifact_format. by left.
Qed.

(** The group of a valid identity that has a manifest. *)
Lemma discovered_group d groups un id mfn :
  discoverSnapshotGroups true None d = Ok (groups, un) -> In mfn (file_names d) -> parseSnapshotFile mfn = (id, snapshotKindManifest) ->
  exists g, In g groups /\ sg_identity g = id /\ shaped id g /\ sg_manifestFn g <> "" /\
    (forall fn, group_file g fn -> In fn (file_names d) /\ owned_by id fn) /\
    forall fn, In fn (file_names d) -> parseSnapshotFile fn = (id, snapshotKindArtifact) -> snapshotIdentityValid id = true ->
      is_Some (sg_artifacts g !! format_of fn).
Proof.
  unfold discoverSnapshotGroups. destruct (register_all_files (file_names d)) as [Hok Hman].
  assert (Hreg : forall l, incl l (file_names d) -> all_shaped (run_list register_file ∅ l) /\
    forall fn id, In fn l -> parseSnapshotFile fn = (id, snapshotKindArtifact) -> snapshotIdentityValid id = true -> has_format id (format_of fn) (run_list register_file ∅ l)).
  { induction l as [|n l IH] using rev_ind; intros Hl; [split; [intros i g Hg; cbn in Hg; by rewrite lookup_empty in Hg|done]|].
    destruct IH as [Hs Hf]; [intros x Hx; apply Hl, in_or_app; by left|]. rewrite run_list_snoc. split; [by apply register_shaped|].
    intros fn i Hin Hp Hv. apply register_format. apply in_app_iff in Hin as [Hin|[->|[]]]; [left; by apply Hf|by right]. }
  destruct (Hreg (file_names d)) as [Hshape Hfmt]; [by intros x|]. clear Hreg. set (m0 := run_list register_file ∅ (file_names d)) in *.
  assert (Hatt2 : forall l, let '(m, _) := run_list (attribute_file true) (m0, []) l in all_shaped m /\ forall i k, has_format i k m0 -> has_format i k m).
  { induction l as [|n l IH] using rev_ind; [by split|]. rewrite run_list_snoc. destruct (run_list (attribute_file true) (m0, []) l) as [m1 un1].
    destruct IH as [Hs Hf]. pose proof (attribute_shaped true m1 un1 n Hs) as Hs'. pose proof (fun i k => attribute_format true m1 un1 n i k) as Hf'.
    destruct (attribute_file true (m1, un1) n) as [m2 un2]. cbn in *. split; [done|]. intros i k Hik. by apply Hf', Hf. }
  specialize (Hatt2 (file_names d)). pose proof (attribute_all true (file_names d) m0 Hok) as Hatt.
  destruct (run_list (attribute_file true) (m0, []) (file_names d)) as [m un0]. destruct Hatt as (Hok' & Hkeep & _). destruct Hatt2 as [Hs Hf].
  intros [= <- <-] Hin Hp. destruct (Hkeep id (Hman mfn id Hin Hp)) as (g & Hg & Hne). exists g. split_and!.
  - apply filter_In. split; [|done]. apply in_map_iff. exists id. split; [by rewrite Hg|].
    apply list_elem_of_In, sort_slice_elem, list_elem_of_In, in_map_iff. exists (id, g). split; [done|]. by apply list_elem_of_In, elem_of_map_to_list.
  - by destruct (Hok' _ _ Hg).
  - by apply Hs.
  - done.
  - intros fn Hfn. destruct (Hok' _ _ Hg) as [_ Ho]. by apply Ho.
  - intros fn Hfn Hpf Hv. destruct (Hf id (format_of fn) (Hfmt fn id Hfn Hpf Hv)) as (g' & Hg' & Hk). rewrite Hg in Hg'. by injection Hg' as <-.
Qed.

(** The manifest file of a group is the one that gives it its identity. *)
Lemma manifest_of_group d groups un g :
  discoverSnapshotGroups true None d = Ok (groups, un) -> In g groups -> sg_manifestFn g <> "" ->
  In (sg_manifestFn g) (file_names d) /\ parseSnapshotFile (sg_manifestFn g) = (sg_identity g, snapshotKindManifest).
Proof.
  intros Hd Hg Hne. pose proof Hd as Hd0. revert Hd. unfold discoverSnapshotGroups. destruct (register_all_files (file_names d)) as [Hok _].
  set (m0 := run_list register_file ∅ (file_names d)) in *. pose proof (attribute_all true (file_names d) m0 Hok) as Hatt.
  assert (Hs : all_shaped (fst (run_list (attribute_file true) (m0, []) (file_names d)))).
  { assert (Hr : forall l, all_shaped (run_list register_file ∅ l)).
    { induction l as [|n l IH] using rev_ind; [intros i g' Hg'; cbn in Hg'; by rewrite lookup_empty in Hg'|]. rewrite run_list_snoc. by apply register_shaped. }
    assert (Ha : forall l, all_shaped (fst (run_list (attribute_file true) (m0, []) l))); [|by apply Ha].
    induction l as [|n l IH] using rev_ind; [apply Hr|]. rewrite run_list_snoc. destruct (run_list (attribute_file true) (m0, []) l) as [m1 un1].
    by apply attribute_shaped. }
  destruct (run_list (attribute_file true) (m0, []) (file_names d)) as [m un0]. destruct Hatt as (Hok' & _). cbn [fst] in Hs. intros [= <- <-].
  apply filter_In in Hg as [Hg _]. apply in_map_iff in Hg as (id & <- & Hid).
  apply list_elem_of_In, sort_slice_elem, list_elem_of_In, in_map_iff in Hid as ([id' g'] & E & Hin). cbn in E. subst id'.
  apply list_elem_of_In, elem_of_map_to_list in Hin. rewrite Hin in Hne |- *. cbn in *. destruct (Hok' _ _ Hin) as [Hi Hf]. rewrite Hi.
  split; [apply Hf; by left|]. by apply (sh_manifest _ _ (Hs _ _ Hin)).
Qed.

(** ** An undisturbed run *)

#[local] Abbreviation files_map L := (list_to_map (M := gmap string SnapshotFile) L).

Definition over (L : list (string * SnapshotFile)) (d : SnapDir) : SnapDir := files_map L ∪ d.

Definition off (L : list (string * SnapshotFile)) (d : SnapDir) : Prop := forall n, In n (map fst L) -> d !! n = None.

Lemma over_cons n f L d : over ((n, f) :: L) d = <[n := f]> (over L d).
Proof. unfold over. cbn. by rewrite insert_union_l. Qed.

Lemma over_insert n f L d : ~ In n (map fst L) -> over L (<[n := f]> d) = <[n := f]> (over L d).
Proof.
  intros Hn. unfold over. apply map_eq. intros x. destruct (decide (x = n)) as [->|Hne].
  - rewrite lookup_insert_eq, lookup_union_r, lookup_insert_eq; [done|]. apply not_elem_of_list_to_map. by rewrite list_elem_of_In.
  - rewrite lookup_insert_ne by done. by rewrite !lookup_union, lookup_insert_ne by done.
Qed.

Lemma over_lookup L d n : over L d !! n = match files_map L !! n with Some f => Some f | None => d !! n end.
Proof. unfold over. rewrite lookup_union. by destruct (files_map L !! n), (d !! n). Qed.

Lemma over_off L d n : ~ In n (map fst L) -> over L d !! n = d !! n.
Proof. intros Hn. rewrite over_lookup. by rewrite (proj1 (not_elem_of_list_to_map _ _)) by by rewrite list_elem_of_In. Qed.

Lemma over_in L d n f : NoDup (map fst L) -> In (n, f) L -> over L d !! n = Some f.
Proof. intros Hn Hin. rewrite over_lookup. by rewrite (elem_of_list_to_map_1 _ _ _ Hn (proj2 (list_elem_of_In _ _) Hin)). Qed.

Lemma over_comm L L' d : (forall n, In n (map fst L) -> ~ In n (map fst L')) -> over L (over L' d) = over L' (over L d).
Proof.
  intros Hd. apply map_eq. intros n. rewrite !over_lookup. destruct (files_map L !! n) as [f|] eqn:E; [|done].
  assert (files_map L' !! n = None) as ->; [|done]. apply not_elem_of_list_to_map. rewrite list_elem_of_In. apply Hd.
  apply elem_of_list_to_map_2, list_elem_of_In in E. by apply (in_map fst) in E.
Qed.

Section Calm.
Context (io : FsIO).
Hypothesis alone : forall n c d, fs_foreign io n c d = d.
Hypothesis no_failure : forall n c, fs_fail io n c = None.
Hypothesis inodes : forall n n', fs_inode io n = fs_inode io n' -> n = n'.

(** No file has an inode that is still to be given. *)
Definition fresh (w : World) : Prop := forall n name f, (w_calls w <= n)%nat -> w_dir w !! name = Some f -> sf_inode f <> fs_inode io n.

Definition calm_run {A} (m : FS A) (w : World) (a : A) (d : SnapDir) : Prop :=
  let '(w', a') := m w in a' = a /\ w_dir w' = d /\ w_ledger w' = w_ledger w /\ fresh w'.

Lemma calm_ret {A} (a : A) w : fresh w -> calm_run (fs_ret a) w a (w_dir w).
Proof. intros Hf. by split_and!. Qed.

Lemma calm_bind {A B} (m : FS A) (k : A -> FS B) w a d b d' :
  calm_run m w a d -> (forall w', w_dir w' = d -> w_ledger w' = w_ledger w -> fresh w' -> calm_run (k a) w' b d') -> calm_run (fs_bind m k) w b d'.
Proof.
  unfold calm_run, fs_bind. destruct (m w) as [w1 a1]. intros (-> & Hd & Hl & Hf) Hk. specialize (Hk w1 Hd Hl Hf).
  destruct (k a w1) as [w2 b2]. destruct Hk as (-> & Hd2 & Hl2 & Hf2). split_and!; [done..|by rewrite Hl2|done].
Qed.

Lemma calm_sys {A} c (failed : error -> A) run w a d events :
  run (w_calls w) (w_dir w) = (d, events, a) ->
  (forall name f, d !! name = Some f -> (exists name', w_dir w !! name' = Some f) \/ sf_inode f = fs_inode io (w_calls w)) ->
  fresh w -> calm_run (sys io c failed run) w a d.
Proof using alone no_failure inodes.
  intros Hr Hd Hf. unfold calm_run, sys. rewrite no_failure, alone, Hr. split_and!; [done..|]. intros n name f Hn Hl. cbn in Hn, Hl.
  destruct (Hd name f Hl) as [[name' Hl']| ->]; [by apply (Hf n name' f); [lia|]|]. intros E%inodes. lia.
Qed.

Lemma calm_same {A} c (failed : error -> A) run w a :
  (forall n, run n (w_dir w) = (w_dir w, [], a)) -> fresh w -> calm_run (sys io c failed run) w a (w_dir w).
Proof using alone no_failure inodes. intros Hr Hf. eapply calm_sys; [apply Hr| |done]. intros name f Hl. left. by exists name. Qed.

Lemma calm_create name w : fresh w -> w_dir w !! name = None ->
  calm_run (create_excl io name) w (Ok (fs_inode io (w_calls w))) (<[name := MkFile false (fs_inode io (w_calls w)) ""]> (w_dir w)).
Proof using alone no_failure inodes.
  intros Hf Hn. eapply calm_sys; [by rewrite Hn| |done]. intros x f [[_ <-]|[_ Hx]]%lookup_insert_Some; [by right|left; by exists x].
Qed.

Lemma calm_write name i text w : fresh w -> (forall n, (w_calls w <= n)%nat -> i <> fs_inode io n) ->
  (forall x f, w_dir w !! x = Some f -> sf_inode f = i -> x = name) -> w_dir w !! name = Some (MkFile false i "") ->
  calm_run (write_text io i (Ok text)) w None (<[name := MkFile false i text]> (w_dir w)).
Proof using alone no_failure inodes.
  intros Hf Hi Hu Hn. unfold calm_run, write_text. rewrite no_failure, alone. cbn. split_and!; [done| |done|].
  - unfold set_data. apply map_eq. intros x. rewrite lookup_fmap. destruct (decide (x = name)) as [->|Hne].
    + rewrite lookup_insert_eq, Hn. cbn. by rewrite Z.eqb_refl.
    + rewrite lookup_insert_ne by done. destruct (w_dir w !! x) as [f|] eqn:E; [|done]. cbn. destruct (Z.eqb_spec (sf_inode f) i) as [Hx|]; [|done].
      by apply Hu in E.
  - intros n x f Hn'. cbn [w_dir w_calls] in *. unfold set_data. rewrite lookup_fmap. destruct (w_dir w !! x) as [f'|] eqn:E; [|done]. cbn. intros [= <-].
    destruct (Z.eqb_spec (sf_inode f') i) as [Hx|]; cbn; [rewrite Hx; apply Hi; lia|]. apply (Hf n x); [lia|done].
Qed.

Lemma calm_remove_all L d w : fresh w -> NoDup (map fst L) -> off L d -> w_dir w = over L d ->
  calm_run (remove_all io (map (fun q => (fst q, sf_inode (snd q))) L)) w tt d.
Proof using alone no_failure inodes.
  revert w. induction L as [|[name f] L IH]; intros w Hf Hn Hoff Hw.
  { cbn. split_and!; [done| |done|done]. rewrite Hw. unfold over. apply map_empty_union. }
  cbn [map fst snd remove_all]. rewrite over_cons in Hw. cbn in Hn. apply NoDup_cons in Hn as [Hni Hn].
  assert (Hd : delete name (w_dir w) = over L d).
  { rewrite Hw, delete_insert_id; [done|]. rewrite over_off by by rewrite <- list_elem_of_In. apply Hoff. by left. }
  eapply (calm_bind _ _ _ None (over L d)).
  - unfold removeOwnArtifact. eapply (calm_bind _ _ _ (Ok (sf_inode f)) (w_dir w)).
    + unfold lstat. apply calm_same; [|done]. intros n. by rewrite Hw, lookup_insert_eq.
    + intros w' Hw' _ Hf'. rewrite Z.eqb_refl. cbn [negb]. eapply (calm_bind _ _ _ None (over L d)).
      * unfold remove. eapply calm_sys; [|intros x fx Hx; left; exists x|done].
        { rewrite Hw', Hw, lookup_insert_eq, <- Hw. by rewrite Hd. }
        rewrite Hw', <- Hd in *. by apply lookup_delete_Some in Hx as [_ ?].
      * intros w'' Hw'' _ Hf''. rewrite <- Hw''. by apply calm_ret.
  - intros w' Hw' _ Hf'. apply IH; [done|done| |done]. intros n Hin. apply Hoff. by right.
Qed.

Lemma calm_inv {A} (m : FS A) w a d : calm_run m w a d -> exists w', m w = (w', a) /\ w_dir w' = d /\ w_ledger w' = w_ledger w /\ fresh w'.
Proof. unfold calm_run. destruct (m w) as [w' a']. intros (-> & ?). by exists w'. Qed.

Lemma calm_enter {A B} (m : FS A) (k : A -> FS B) w w1 a b d :
  m w = (w1, a) -> w_ledger w1 = w_ledger w -> calm_run (k a) w1 b d -> calm_run (fs_bind m k) w b d.
Proof. unfold calm_run, fs_bind. intros -> <-. done. Qed.

Lemma calm_plain c w : fresh w -> calm_run (plain_call io c) w None (w_dir w).
Proof using alone no_failure inodes. intros Hf. by apply calm_same. Qed.

Lemma calm_remove name f w : fresh w -> w_dir w !! name = Some f -> calm_run (remove io name) w None (delete name (w_dir w)).
Proof using alone no_failure inodes.
  intros Hf Hn. unfold remove. eapply calm_sys; [by rewrite Hn| |done]. intros x fx [_ Hx]%lookup_delete_Some. left. by exists x.
Qed.

Lemma calm_rename old new f w : fresh w -> w_dir w !! old = Some f -> from_option sf_dir false (w_dir w !! new) = false ->
  calm_run (rename io old new) w None (<[new := f]> (delete old (w_dir w))).
Proof using alone no_failure inodes.
  intros Hf Ho Hn. unfold rename. eapply calm_sys; [by rewrite Ho, Hn| |done]. intros x fx.
  intros [[_ <-]|[_ [_ Hx]%lookup_delete_Some]]%lookup_insert_Some; left; [by exists old|by exists x].
Qed.

Lemma calm_link old new f w : fresh w -> w_dir w !! old = Some f -> w_dir w !! new = None ->
  calm_run (link io old new) w None (<[new := f]> (w_dir w)).
Proof using alone no_failure inodes.
  intros Hf Ho Hn. unfold link. eapply calm_sys; [by rewrite Ho, Hn| |done]. intros x fx [[_ <-]|[_ Hx]]%lookup_insert_Some; left; [by exists old|by exists x].
Qed.

(** A name that is taken cannot be created. *)
Lemma calm_taken name f w : fresh w -> w_dir w !! name = Some f -> calm_run (create_excl io name) w (Err FsExists) (w_dir w).
Proof using alone no_failure inodes. intros Hf Hn. unfold create_excl. apply calm_same; [|done]. intros n. by rewrite Hn. Qed.

(** A file that is made and written. *)
Lemma calm_created path data w : fresh w -> w_dir w !! path = None ->
  exists i w1 w2, create_excl io path w = (w1, Ok i) /\ w_ledger w1 = w_ledger w /\ write_text io i (Ok data) w1 = (w2, None) /\
    w_dir w2 = <[path := MkFile false i data]> (w_dir w) /\ w_ledger w2 = w_ledger w1 /\ fresh w2.
Proof using alone no_failure inodes.
  intros Hf Hn. set (i := fs_inode io (w_calls w)). exists i.
  pose proof (calm_create path w Hf Hn) as Hc. fold i in Hc. unfold calm_run in Hc.
  assert (Hcalls : w_calls (create_excl io path w).1 = S (w_calls w)).
  { unfold create_excl, sys. rewrite no_failure. by destruct (fs_foreign _ _ _ _ !! path). }
  destruct (create_excl io path w) as [w1 r]. destruct Hc as (-> & Hd1 & Hl1 & Hf1). cbn [fst] in Hcalls.
  assert (Hw : calm_run (write_text io i (Ok data)) w1 None (<[path := MkFile false i data]> (w_dir w1))).
  { apply calm_write; [done| | |].
    - intros n Hle E. apply inodes in E. lia.
    - intros x f. rewrite Hd1. intros [[<- _]|[_ Hx]]%lookup_insert_Some; [done|]. intros Hi. exfalso. by apply (Hf (w_calls w) x f).
    - rewrite Hd1. by rewrite lookup_insert_eq. }
  rewrite Hd1, insert_insert_eq in Hw. apply calm_inv in Hw as (w2 & E2 & Hd2 & Hl2 & Hf2). by exists w1, w2.
Qed.

(** *** The steps of one ordinal *)

(** *** The names of one ordinal are different *)

Definition keys : list string := ["json"; "csv"; "manifest"].

Lemma slot_end ts o k q : HasPrefix (string_rev (if String.eqb k "manifest" then "manifest.json" else k) +:+ "." +:+ string_rev (snapshot_base ts o)) (string_rev q) = false ->
  HasSuffix (slot ts o k) q = false.
Proof.
  intros Hq. unfold slot, format_name. rewrite <- append_assoc. apply suffix_differs. by rewrite string_rev_append.
Qed.

Lemma slot_not ts o k q : In k keys -> q = ".tmp" \/ q = ".reserve" -> HasSuffix (slot ts o k) q = false.
Proof. intros Hk Hq. apply slot_end. destruct Hk as [<-|[<-|[<-|[]]]]; destruct Hq as [->| ->]; reflexivity. Qed.

Lemma slot_inj ts o k k' : In k keys -> In k' keys -> slot ts o k = slot ts o k' -> k = k'.
Proof.
  intros Hk Hk' E. unfold slot, format_name in E. assert (Hc : forall a b c : string, a +:+ b = a +:+ c -> b = c).
  { induction a as [|x a IH]; intros b c; [done|]. rewrite !append_cons. intros [= E']. by apply IH. }
  apply Hc in E. destruct Hk as [<-|[<-|[<-|[]]]]; destruct Hk' as [<-|[<-|[<-|[]]]]; by vm_compute in E.
Qed.

Lemma suffix_inj (p s s' : string) : s +:+ p = s' +:+ p -> s = s'.
Proof. intros E. rewrite <- (TrimSuffix_app s p), <- (TrimSuffix_app s' p). by rewrite E. Qed.

Lemma tmp_not_reserve ts o k k' : tmp_of ts o k <> reserve_of ts o k'.
Proof.
  intros E. apply (f_equal (fun s => HasSuffix s ".reserve")) in E. unfold reserve_of in E. rewrite HasSuffix_app in E.
  unfold tmp_of in E. rewrite suffix_differs in E; [done|reflexivity].
Qed.

Lemma slot_not_tmp ts o k k' : In k keys -> slot ts o k <> tmp_of ts o k'.
Proof. intros Hk E. pose proof (slot_not ts o k ".tmp" Hk (or_introl eq_refl)) as Hs. rewrite E in Hs. unfold tmp_of in Hs. by rewrite HasSuffix_app in Hs. Qed.

Lemma slot_not_reserve ts o k k' : In k keys -> slot ts o k <> reserve_of ts o k'.
Proof. intros Hk E. pose proof (slot_not ts o k ".reserve" Hk (or_intror eq_refl)) as Hs. rewrite E in Hs. unfold reserve_of in Hs. by rewrite HasSuffix_app in Hs. Qed.

Lemma nodup_names (name : string -> string) l : (forall k k', In k l -> In k' l -> name k = name k' -> k = k') -> NoDup l -> NoDup (map name l).
Proof.
  intros Hinj. induction l as [|k l IH]; intros Hn; [apply NoDup_nil_2|]. apply NoDup_cons in Hn as [Hni Hn]. cbn. apply NoDup_cons. split.
  - rewrite list_elem_of_In, in_map_iff. intros (k' & E & Hin). apply Hni, list_elem_of_In. rewrite <- (Hinj k' k); [done|by right|by left|done].
  - apply IH; [|done]. intros k1 k2 H1 H2. apply Hinj; by right.
Qed.

Section Slots.
Context (ts : string) (o : Z) (text : string -> string).

Definition sentinels (infos : list (string * Z)) : list (string * SnapshotFile) := map (fun p => (reserve_of ts o (fst p), MkFile false (snd p) "")) infos.
Definition temporaries (infos : list (string * Z)) : list (string * SnapshotFile) := map (fun p => (tmp_of ts o (fst p), MkFile false (snd p) (text (fst p)))) infos.
Definition published (infos : list (string * Z)) : list (string * SnapshotFile) := map (fun p => (slot ts o (fst p), MkFile false (snd p) (text (fst p)))) infos.

Lemma calm_reserve keys w : fresh w -> NoDup (map (reserve_of ts o) keys) -> (forall k, In k keys -> w_dir w !! reserve_of ts o k = None) ->
  exists infos, map fst infos = keys /\ calm_run (reserve io ts o keys) w (infos, None) (over (sentinels infos) (w_dir w)).
Proof using alone no_failure inodes.
  revert w. induction keys as [|k keys IH]; intros w Hf Hn Hfree.
  { exists []. split; [done|]. cbn. split_and!; [done| |done|done]. symmetry. apply map_empty_union. }
  cbn in Hn. apply NoDup_cons in Hn as [Hni Hn]. rewrite list_elem_of_In in Hni. set (i := fs_inode io (w_calls w)). set (d1 := <[reserve_of ts o k := MkFile false i ""]> (w_dir w)).
  assert (Hfree1 : forall k', In k' keys -> d1 !! reserve_of ts o k' = None).
  { intros k' Hk'. unfold d1. rewrite lookup_insert_ne; [apply Hfree; by right|]. intros E. apply Hni. rewrite E. by apply in_map. }
  assert (Hex : forall w', w_dir w' = d1 -> fresh w' -> exists infos, map fst infos = keys /\ calm_run (reserve io ts o keys) w' (infos, None) (over (sentinels infos) d1)).
  { intros w' Hw' Hf'. destruct (IH w' Hf' Hn) as (infos & Hi & Hr); [by rewrite Hw'|]. exists infos. by rewrite Hw' in Hr. }
  pose proof (calm_create (reserve_of ts o k) w Hf (Hfree k (or_introl eq_refl))) as Hc. fold i d1 in Hc.
  unfold calm_run in Hc |- *. cbn [reserve]. unfold fs_bind at 1. destruct (create_excl io (reserve_of ts o k) w) as [w1 r]. destruct Hc as (-> & Hd1 & Hl1 & Hf1).
  assert (Hst : calm_run (fstat io i) w1 (Some i) d1) by (rewrite <- Hd1; by apply calm_same).
  unfold fs_bind at 1. unfold calm_run in Hst. destruct (fstat io i w1) as [w2 r]. destruct Hst as (-> & Hd2 & Hl2 & Hf2).
  assert (Hcl : calm_run (plain_call io CallClose) w2 None d1) by (rewrite <- Hd2; by apply calm_same).
  unfold fs_bind at 1. unfold calm_run in Hcl. destruct (plain_call io CallClose w2) as [w3 r]. destruct Hcl as (-> & Hd3 & Hl3 & Hf3).
  destruct (Hex w3 Hd3 Hf3) as (infos & Hi & Hr). exists ((k, i) :: infos). split; [cbn; by rewrite Hi|]. unfold calm_run in Hr. unfold fs_bind.
  destruct (reserve io ts o keys w3) as [w4 [infos' failed]]. destruct Hr as ([= -> ->] & Hd4 & Hl4 & Hf4). cbn [fs_ret].
  split_and!; [done| |by rewrite Hl4, Hl3, Hl2, Hl1|done]. rewrite Hd4. unfold d1. rewrite over_insert; [by rewrite <- over_cons|].
  unfold sentinels. rewrite map_map. cbn [fst]. intros Hin. apply Hni. rewrite <- Hi, map_map. exact Hin.
Qed.

Lemma calm_writeTmp path data w : fresh w -> w_dir w !! path = None ->
  exists i, calm_run (writeTmp io path (Ok data)) w (Some i, None) (<[path := MkFile false i data]> (w_dir w)).
Proof using alone no_failure inodes.
  intros Hf Hn. destruct (calm_created path data w Hf Hn) as (i & w1 & w2 & E1 & Hl1 & E2 & Hd2 & Hl2 & Hf2). exists i. rewrite <- Hd2.
  unfold writeTmp. eapply calm_enter; [exact E1|done|]. eapply calm_enter; [exact E2|done|].
  eapply calm_bind; [by apply calm_plain|]. intros w3 Hd3 _ Hf3. rewrite <- Hd3.
  eapply (calm_bind _ _ _ (Some i)); [by apply calm_same|]. intros w4 Hd4 _ Hf4. rewrite <- Hd4.
  eapply calm_bind; [by apply calm_plain|]. intros w5 Hd5 _ Hf5. rewrite <- Hd5. by apply calm_ret.
Qed.

Lemma calm_write_formats formats w : fresh w -> NoDup (map (tmp_of ts o) formats) -> (forall f, In f formats -> w_dir w !! tmp_of ts o f = None) ->
  exists infos, map fst infos = formats /\
    calm_run (write_formats io ts o (fun f => Ok (text f)) formats) w (infos, ∅) (over (temporaries infos) (w_dir w)).
Proof using alone no_failure inodes.
  revert w. induction formats as [|f formats IH]; intros w Hf Hn Hfree.
  { exists []. split; [done|]. cbn. split_and!; [done| |done|done]. symmetry. apply map_empty_union. }
  cbn in Hn. apply NoDup_cons in Hn as [Hni Hn]. rewrite list_elem_of_In in Hni.
  destruct (calm_writeTmp (tmp_of ts o f) (text f) w Hf (Hfree f (or_introl eq_refl))) as (i & Hw). unfold calm_run in Hw |- *. cbn [write_formats]. unfold fs_bind at 1.
  destruct (writeTmp io (tmp_of ts o f) (Ok (text f)) w) as [w1 r]. destruct Hw as (-> & Hd1 & Hl1 & Hf1).
  destruct (IH w1 Hf1 Hn) as (infos & Hi & Hr).
  { intros f' Hin. rewrite Hd1, lookup_insert_ne; [apply Hfree; by right|]. intros E. apply Hni. rewrite E. by apply in_map. }
  exists ((f, i) :: infos). split; [cbn; by rewrite Hi|]. unfold calm_run in Hr. unfold fs_bind.
  destruct (write_formats io ts o _ formats w1) as [w2 [infos' errs]]. destruct Hr as ([= -> ->] & Hd2 & Hl2 & Hf2). cbn [fs_ret].
  split_and!; [done| |by rewrite Hl2, Hl1|done]. rewrite Hd2, Hd1, over_insert; [by rewrite <- over_cons|].
  unfold temporaries. rewrite map_map. cbn [fst]. intros Hin. apply Hni. rewrite <- Hi, map_map. exact Hin.
Qed.

Lemma calm_precheck formats w : fresh w -> (forall f, In f formats -> w_dir w !! slot ts o f = None) ->
  calm_run (precheck io ts o ∅ formats) w (false, ∅) (w_dir w).
Proof using alone no_failure inodes.
  revert w. induction formats as [|f formats IH]; intros w Hf Hfree; [by apply calm_ret|]. cbn [precheck].
  assert (failed_on ∅ f = false) as ->. { unfold failed_on. apply bool_decide_eq_false. rewrite lookup_empty. by intros [? ?]. }
  eapply (calm_bind _ _ _ (Err FsNotExist) (w_dir w)); [apply calm_same; [|done]; intros n; by rewrite (Hfree f (or_introl eq_refl))|].
  intros w' Hw' _ Hf'. rewrite <- Hw'. apply IH; [done|]. intros f' Hin. rewrite Hw'. apply Hfree. by right.
Qed.

Lemma calm_links infos w : fresh w -> NoDup (map (slot ts o) (map fst infos)) ->
  (forall f i, In (f, i) infos -> w_dir w !! tmp_of ts o f = Some (MkFile false i (text f))) ->
  (forall f, In f (map fst infos) -> w_dir w !! slot ts o f = None) ->
  (forall f g, In f (map fst infos) -> In g (map fst infos) -> slot ts o f <> tmp_of ts o g) ->
  calm_run (link_formats io ts o ∅ ∅ (map fst infos)) w (false, infos, ∅) (over (published infos) (w_dir w)).
Proof using alone no_failure inodes.
  revert w. induction infos as [|[f i] rest IH]; intros w Hf Hn Htmp Hfree Hdis.
  { cbn. split_and!; [done| |done|done]. symmetry. apply map_empty_union. }
  cbn [map fst link_formats]. assert (failed_on ∅ f = false) as ->. { unfold failed_on. apply bool_decide_eq_false. rewrite lookup_empty. by intros [? ?]. }
  cbn [orb]. cbn in Hn. apply NoDup_cons in Hn as [Hni Hn]. rewrite list_elem_of_In in Hni.
  set (d1 := <[slot ts o f := MkFile false i (text f)]> (w_dir w)).
  assert (Hlink : calm_run (publish_link io (tmp_of ts o f) (slot ts o f)) w (Ok (Some i)) d1).
  { unfold publish_link. eapply (calm_bind _ _ _ None d1).
    - unfold link. eapply calm_sys; [by rewrite (Htmp f i (or_introl eq_refl)), (Hfree f (or_introl eq_refl))| |done].
      intros x fx [[_ <-]|[_ Hx]]%lookup_insert_Some; left; [exists (tmp_of ts o f); by apply Htmp; left|by exists x].
    - intros w1 Hw1 _ Hf1. eapply (calm_bind _ _ _ (Ok i) d1).
      + rewrite <- Hw1. apply calm_same; [|done]. intros n. rewrite Hw1. unfold d1. by rewrite lookup_insert_eq.
      + intros w2 Hw2 _ Hf2. rewrite <- Hw2. by apply calm_ret. }
  eapply calm_bind; [exact Hlink|]. intros w1 Hw1 _ Hf1. cbn beta iota.
  eapply (calm_bind _ _ _ (false, rest, ∅) (over (published rest) d1)).
  - rewrite <- Hw1. apply IH; [done|done| | |intros x y Hx Hy; apply Hdis; by right].
    + intros g j Hg. rewrite Hw1. unfold d1. rewrite lookup_insert_ne; [apply Htmp; by right|]. apply Hdis; [by left|right]. apply in_map_iff. by exists (g, j).
    + intros g Hg. rewrite Hw1. unfold d1. rewrite lookup_insert_ne; [apply Hfree; by right|]. intros E. apply Hni. rewrite E. by apply in_map.
  - intros w2 Hw2 _ Hf2. cbn beta iota. unfold calm_run. cbn. split_and!; [done| |done|done]. rewrite Hw2. unfold d1.
    rewrite over_insert; [by rewrite <- over_cons|]. unfold published. rewrite !map_map in Hni |- *. exact Hni.
Qed.

(** No file has a name of this ordinal. *)
Definition free_slot (d : SnapDir) : Prop :=
  forall k, In k keys -> d !! slot ts o k = None /\ d !! tmp_of ts o k = None /\ d !! reserve_of ts o k = None.

Definition export_formats (formats : list string) : Prop := NoDup formats /\ Forall (fun f => f = "json" \/ f = "csv") formats.

Lemma format_key formats f : export_formats formats -> In f formats -> In f keys /\ f <> "manifest".
Proof. intros [_ Hf] Hin. rewrite List.Forall_forall in Hf. destruct (Hf f Hin) as [->| ->]; split; cbn; auto; discriminate. Qed.

Lemma sentinel_names infos : map fst (sentinels infos) = map (reserve_of ts o) (map fst infos).
Proof. unfold sentinels. by rewrite !map_map. Qed.

Lemma temporary_names infos : map fst (temporaries infos) = map (tmp_of ts o) (map fst infos).
Proof. unfold temporaries. by rewrite !map_map. Qed.

Lemma published_names infos : map fst (published infos) = map (slot ts o) (map fst infos).
Proof. unfold published. by rewrite !map_map. Qed.

Lemma calm_cleanup tmps sents d w : fresh w -> w_dir w = over (temporaries tmps) (over (sentinels sents) d) ->
  NoDup (map (tmp_of ts o) (map fst tmps)) -> NoDup (map (reserve_of ts o) (map fst sents)) ->
  off (temporaries tmps) d -> off (sentinels sents) d -> calm_run (cleanupArtifacts io ts o tmps sents) w tt d.
Proof using alone no_failure inodes.
  intros Hf Hw Hnt Hns Hot Hos. unfold cleanupArtifacts. eapply (calm_bind _ _ _ tt (over (sentinels sents) d)).
  - assert (map (fun p => (tmp_of ts o (fst p), snd p)) tmps = map (fun q => (fst q, sf_inode (snd q))) (temporaries tmps)) as ->
      by (unfold temporaries; by rewrite map_map).
    apply calm_remove_all; [done|by rewrite temporary_names| |done].
    intros n Hn. rewrite over_off; [by apply Hot|]. rewrite temporary_names in Hn. rewrite sentinel_names.
    intros Hr. apply in_map_iff in Hn as (k & <- & _). apply in_map_iff in Hr as (k' & E & _). by apply (tmp_not_reserve ts o k k').
  - intros w' Hw' _ Hf'. assert (map (fun p => (reserve_of ts o (fst p), snd p)) sents = map (fun q => (fst q, sf_inode (snd q))) (sentinels sents)) as ->
      by (unfold sentinels; by rewrite map_map).
    apply calm_remove_all; [done|by rewrite sentinel_names|done|done].
Qed.

Lemma format_keys formats : export_formats formats ->
  (forall f, In f formats -> In f keys) /\ NoDup (formats ++ ["manifest"]) /\ (forall k, In k (formats ++ ["manifest"]) -> In k keys) /\ ~ In "manifest" formats.
Proof.
  intros Hfmt. assert (Hman : ~ In "manifest" formats) by (intros Hin; by apply (format_key _ _ Hfmt) in Hin as [_ ?]).
  assert (Hin : forall f, In f formats -> In f keys) by (intros f Hf; by apply (format_key formats)). split_and!; [done| | |done].
  - apply NoDup_app. split; [apply Hfmt|]. split; [|apply NoDup_singleton]. intros k Hk ->%list_elem_of_singleton. by apply Hman, list_elem_of_In.
  - intros k [Hk|[<-|[]]]%in_app_or; [by apply Hin|cbn; auto].
Qed.

Lemma key_suffix_inj p k k' : In k keys -> In k' keys -> slot ts o k +:+ p = slot ts o k' +:+ p -> k = k'.
Proof. intros Hk Hk' E%suffix_inj. by apply (slot_inj ts o). Qed.

(** The sentinels, the temporary files and the links of the formats, and the
    sentinel of the manifest. *)
Lemma calm_linked formats w : fresh w -> export_formats formats -> free_slot (w_dir w) ->
  exists tmps sents im w1 w2 w3 w4,
    reserve io ts o (formats ++ ["manifest"]) w = (w1, (sents ++ [("manifest", im)], None)) /\
    write_formats io ts o (fun f => Ok (text f)) formats w1 = (w2, (tmps, ∅)) /\
    precheck io ts o ∅ formats w2 = (w3, (false, ∅)) /\ link_formats io ts o ∅ ∅ formats w3 = (w4, (false, tmps, ∅)) /\
    map fst tmps = formats /\ map fst sents = formats /\ w_ledger w4 = w_ledger w /\ fresh w4 /\
    w_dir w4 = over (temporaries tmps) (over (sentinels sents) (over (published tmps) (<[reserve_of ts o "manifest" := MkFile false im ""]> (w_dir w)))).
Proof using alone no_failure inodes.
  intros Hf Hfmt Hfree. set (d := w_dir w) in *. pose proof Hfmt as [Hnd _].
  destruct (format_keys _ Hfmt) as (Hin_keys & Hall & Hkeys & Hman). pose proof key_suffix_inj as Hinj.
  assert (Hfs : forall k, In k keys -> d !! slot ts o k = None) by (intros k Hk; exact (proj1 (Hfree k Hk))).
  assert (Hft : forall k, In k keys -> d !! tmp_of ts o k = None) by (intros k Hk; exact (proj1 (proj2 (Hfree k Hk)))).
  assert (Hfr : forall k, In k keys -> d !! reserve_of ts o k = None) by (intros k Hk; exact (proj2 (proj2 (Hfree k Hk)))).
  clear Hfree. destruct (calm_reserve (formats ++ ["manifest"]) w Hf) as (sents & Hs & Hr).
  { apply nodup_names; [|done]. intros k k' Hk Hk'. apply (Hinj ".reserve"); auto. }
  { intros k Hk. exact (Hfr k (Hkeys k Hk)). }
  fold d in Hr. apply calm_inv in Hr as (w1 & E1 & Hd1 & Hl1 & Hf1).
  destruct (calm_write_formats formats w1 Hf1) as (tmps & Ht & Hw).
  { apply nodup_names; [|done]. intros k k' Hk Hk'. apply (Hinj ".tmp"); by apply Hin_keys. }
  { intros f Hin. rewrite Hd1, over_off; [exact (Hft f (Hin_keys f Hin))|]. rewrite sentinel_names.
    intros Hr. apply in_map_iff in Hr as (k' & E & _). by apply (tmp_not_reserve ts o f k'). }
  apply calm_inv in Hw as (w2 & E2 & Hd2 & Hl2 & Hf2).
  assert (Hslot : forall f, In f formats -> w_dir w2 !! slot ts o f = None).
  { intros f Hin. pose proof (Hin_keys f Hin) as Hk. rewrite Hd2, over_off, Hd1, over_off; [exact (Hfs f Hk)| |].
    - rewrite sentinel_names. intros Hr. apply in_map_iff in Hr as (k' & E & _). by apply (slot_not_reserve ts o f k').
    - rewrite temporary_names. intros Hr. apply in_map_iff in Hr as (k' & E & _). by apply (slot_not_tmp ts o f k'). }
  pose proof (calm_precheck formats w2 Hf2 Hslot) as Hp. apply calm_inv in Hp as (w3 & E3 & Hd3 & Hl3 & Hf3).
  assert (Hnt : NoDup (map (tmp_of ts o) (map fst tmps))).
  { rewrite Ht. apply nodup_names; [|done]. intros k k' Hk Hk'. apply (Hinj ".tmp"); by apply Hin_keys. }
  pose proof (calm_links tmps w3 Hf3) as Hlk. rewrite Ht in Hlk.
  assert (Hl' : calm_run (link_formats io ts o ∅ ∅ formats) w3 (false, tmps, ∅) (over (published tmps) (w_dir w3))).
  { apply Hlk.
    - apply nodup_names; [|done]. intros k k' Hk Hk' E. apply (slot_inj ts o k k'); [by apply Hin_keys|by apply Hin_keys|done].
    - intros f i Hin. rewrite Hd3, Hd2. apply over_in; [by rewrite temporary_names|]. unfold temporaries. apply in_map_iff. by exists (f, i).
    - intros f Hin. rewrite Hd3. by apply Hslot.
    - intros f g Hin _. apply slot_not_tmp. by apply Hin_keys. }
  apply calm_inv in Hl' as (w4 & E4 & Hd4 & Hl4 & Hf4).
  assert (Hsp : exists l1 im, sents = l1 ++ [("manifest", im)] /\ map fst l1 = formats).
  { apply map_eq_app in Hs as (l1 & l2 & -> & H1 & H2). destruct l2 as [|[k im] [|]]; try discriminate. injection H2 as ->. by exists l1, im. }
  destruct Hsp as (l1 & im & -> & Hl1'). set (r := reserve_of ts o "manifest") in *. set (dm := <[r := MkFile false im ""]> d).
  assert (Hsent : over (sentinels (l1 ++ [("manifest", im)])) d = over (sentinels l1) dm).
  { unfold sentinels, over, dm. rewrite map_app, list_to_map_app, <- map_union_assoc. cbn. by rewrite <- insert_union_l, (map_empty_union d). }
  assert (Hdir : w_dir w4 = over (temporaries tmps) (over (sentinels l1) (over (published tmps) dm))).
  { rewrite Hd4, Hd3, Hd2, Hd1, Hsent. rewrite over_comm.
    - f_equal. apply over_comm. intros n. rewrite published_names, sentinel_names. intros Hp Hq. apply in_map_iff in Hp as (k & <- & Hk).
      apply in_map_iff in Hq as (k' & E & _). apply (slot_not_reserve ts o k k'); [|done]. apply Hin_keys. by rewrite <- Ht.
    - intros n. rewrite published_names, temporary_names. intros Hp Hq. apply in_map_iff in Hp as (k & <- & Hk).
      apply in_map_iff in Hq as (k' & E & _). apply (slot_not_tmp ts o k k'); [|done]. apply Hin_keys. by rewrite <- Ht. }
  exists tmps, l1, im, w1, w2, w3, w4. split_and!; try done. by rewrite Hl4, Hl3, Hl2, Hl1.
Qed.

Lemma calm_publish_at (publish : Z -> FS Published) formats w :
  fresh w -> export_formats formats -> free_slot (w_dir w) ->
  exists infos i w1, map fst infos = formats /\ fresh w1 /\ w_ledger w1 = w_ledger w /\
    w_dir w1 = over (published infos) (<[reserve_of ts o "manifest" := MkFile false i ""]> (w_dir w)) /\
    forall w2 pb, publish o w1 = (w2, pb) -> fresh w2 -> w_dir w2 !! reserve_of ts o "manifest" = Some (MkFile false i "") ->
      exists w3, publish_at io publish ts formats (fun f => Ok (text f)) o w =
          (w3, Some (MkOutcome [] (pb_manifestErr pb) (pb_pubStateErr pb) (pb_ledgerErr pb))) /\
        w_dir w3 = delete (reserve_of ts o "manifest") (w_dir w2).
Proof using alone no_failure inodes.
  intros Hf Hfmt Hfree. set (d := w_dir w) in *. destruct (format_keys _ Hfmt) as (Hin_keys & _ & _ & Hman). pose proof key_suffix_inj as Hinj. pose proof Hfmt as [Hnd _].
  destruct (calm_linked formats w Hf Hfmt Hfree) as (tmps & l1 & im & w1 & w2 & w3 & w4 & E1 & E2 & E3 & E4 & Ht & Hl1' & Hl4 & Hf4 & Hdir).
  fold d in Hdir. set (r := reserve_of ts o "manifest") in *. set (dm := <[r := MkFile false im ""]> d) in *.
  assert (Hfree' : forall k, In k keys -> d !! tmp_of ts o k = None /\ d !! reserve_of ts o k = None) by (intros k Hk; exact (proj2 (Hfree k Hk))). clear Hfree.
  assert (Hft : forall k, In k keys -> d !! tmp_of ts o k = None) by (intros k Hk; exact (proj1 (Hfree' k Hk))).
  assert (Hfr : forall k, In k keys -> d !! reserve_of ts o k = None) by (intros k Hk; exact (proj2 (Hfree' k Hk))).
  assert (Hno : forall k, In k formats -> reserve_of ts o k <> r).
  { intros k Hk E. apply Hman. rewrite <- (Hinj ".reserve" k "manifest"); [done|by apply Hin_keys|cbn; auto|done]. }
  assert (Hnt : NoDup (map (tmp_of ts o) (map fst tmps))) by (rewrite Ht; apply nodup_names; [intros k k' Hk Hk'; apply (Hinj ".tmp"); by apply Hin_keys|done]).
  destruct (calm_inv _ _ _ _ (calm_cleanup tmps l1 (over (published tmps) dm) w4 Hf4 Hdir Hnt
    ltac:(rewrite Hl1'; apply nodup_names; [intros k k' Hk Hk'; apply (Hinj ".reserve"); by apply Hin_keys|done])
    ltac:(intros n; rewrite temporary_names, Ht; intros Hn; apply in_map_iff in Hn as (k & <- & Hk); rewrite over_off;
      [unfold dm; rewrite lookup_insert_ne; [exact (Hft k (Hin_keys k Hk))|intros E; by apply (tmp_not_reserve ts o k "manifest")]|
       rewrite published_names, Ht; intros Hp; apply in_map_iff in Hp as (k' & E & Hk'); apply (slot_not_tmp ts o k' k); [by apply Hin_keys|done]])
    ltac:(intros n; rewrite sentinel_names, Hl1'; intros Hn; apply in_map_iff in Hn as (k & <- & Hk); rewrite over_off;
      [unfold dm; rewrite lookup_insert_ne; [exact (Hfr k (Hin_keys k Hk))|intros E; by apply (Hno k Hk)]|
       rewrite published_names, Ht; intros Hp; apply in_map_iff in Hp as (k' & E & Hk'); apply (slot_not_reserve ts o k' k); [by apply Hin_keys|done]])))
    as (w5 & E5 & Hd5 & Hl5 & Hf5).
  exists tmps, im, w5. split; [exact Ht|]. split; [exact Hf5|]. split; [by rewrite Hl5, Hl4|]. split; [exact Hd5|].
  intros w6 pb Hpub Hf6 Hr6.
  destruct (calm_inv _ _ _ _ (calm_cleanup [] [("manifest", im)] (delete r (w_dir w6)) w6 Hf6
    ltac:(unfold over; cbn; rewrite (map_empty_union (M := gmap string)), <- insert_union_l, (map_empty_union (delete r (w_dir w6))); symmetry; by apply insert_delete_id)
    ltac:(apply NoDup_nil_2) ltac:(apply NoDup_singleton) ltac:(by intros n) ltac:(intros n [<-|[]]; apply lookup_delete_eq))) as (w7 & E7 & Hd7 & _).
  exists w7. split; [|exact Hd7].
  assert (Hfe : format_errors ∅ ∅ formats = []).
  { unfold format_errors. clear. induction formats as [|f l IH]; [done|]. cbn. by rewrite !lookup_empty. }
  assert (Hbut : all_but "manifest" (l1 ++ [("manifest", im)]) = l1 /\ only "manifest" (l1 ++ [("manifest", im)]) = [("manifest", im)]).
  { assert (Hne : Forall (fun p => fst p <> "manifest") l1).
    { rewrite List.Forall_forall. intros [k j] Hin. cbn. intros ->. apply Hman. rewrite <- Hl1'. by apply (in_map fst) in Hin. }
    unfold all_but, only. rewrite !List.filter_app. cbn. clear -Hne. induction l1 as [|[k j] l IH]; [done|]. apply Forall_cons in Hne as [Hk Hl]. cbn in Hk |- *.
    destruct (String.eqb_spec k "manifest"); [done|]. cbn. destruct (IH Hl) as [-> ->]. done. }
  unfold publish_at, fs_bind. rewrite E1, E2, E3, E4. cbn beta iota. rewrite Hfe. rewrite (proj1 Hbut), (proj2 Hbut), E5, Hpub. by rewrite E7.
Qed.

End Slots.

(** *** The watermark and the manifest *)

Lemma calm_watermark next w : fresh w ->
  exists r d, calm_run (write_watermark io next) w r d /\
    match r with
    | Ok id => id = next /\ exists i, d = <[publicationStateFile := MkFile false i (pretty next +:+ String newline "")]> (w_dir w)
    | Err e => e <> "" /\ d = w_dir w
    end.
Proof using alone no_failure inodes.
  intros Hf. set (data := pretty next +:+ String newline ""). unfold write_watermark. destruct (w_dir w !! watermark_tmp) as [f|] eqn:Et.
  { eexists (Err _), (w_dir w). split.
    + eapply calm_bind; [by eapply calm_taken|]. intros w1 Hd1 _ Hf1. rewrite <- Hd1. by apply calm_ret.
    + by split. }
  destruct (calm_created watermark_tmp data w Hf Et) as (i & w1 & w2 & E1 & Hl1 & E2 & Hd2 & Hl2 & Hf2).
  assert (Hne : publicationStateFile <> watermark_tmp) by done.
  assert (Htmp : w_dir w2 !! watermark_tmp = Some (MkFile false i data)) by (rewrite Hd2; apply lookup_insert_eq).
  destruct (from_option sf_dir false (w_dir w !! publicationStateFile)) eqn:Edir.
  - exists (Err ("publication watermark " +:+ "commit" +:+ ": " +:+ fs_error "rename" watermark_tmp FsExists)), (w_dir w). split; [|by split].
    eapply calm_enter; [exact E1|done|]. eapply calm_enter; [exact E2|done|].
    eapply calm_bind; [by apply calm_plain|]. intros w3 Hd3 _ Hf3. eapply calm_bind; [by apply calm_plain|]. intros w4 Hd4 _ Hf4.
    eapply (calm_bind _ _ _ (Some FsExists)).
    { unfold rename. apply calm_same; [|done]. intros n. rewrite Hd4, Hd3, Htmp, Hd2, lookup_insert_ne, Edir by done. done. }
    intros w5 Hd5 _ Hf5. assert (Hd : w_dir w5 = w_dir w2) by by rewrite Hd5, Hd4, Hd3.
    eapply calm_bind; [eapply calm_remove; [done|by rewrite Hd]|]. intros w6 Hd6 _ Hf6.
    assert (w_dir w = w_dir w6) as ->; [|by apply calm_ret]. rewrite Hd6, Hd, Hd2, delete_insert_id; done.
  - eexists (Ok next), _. split; [|split; [done|by exists i]].
    eapply calm_enter; [exact E1|done|]. eapply calm_enter; [exact E2|done|].
    eapply calm_bind; [by apply calm_plain|]. intros w3 Hd3 _ Hf3. eapply calm_bind; [by apply calm_plain|]. intros w4 Hd4 _ Hf4.
    assert (Hd : w_dir w4 = w_dir w2) by by rewrite Hd4, Hd3.
    eapply calm_bind; [eapply calm_rename; [done|by rewrite Hd|by rewrite Hd, Hd2, lookup_insert_ne]|]. intros w5 Hd5 _ Hf5.
    rewrite Hd, Hd2, delete_insert_id in Hd5 by done. rewrite <- Hd5. by apply calm_ret.
Qed.

Lemma calm_write_manifest i data w w' : write_text io i (Ok data) w = (w', None) -> w_ledger w' = w_ledger w -> fresh w' ->
  calm_run (write_manifest io i data) w None (w_dir w').
Proof using alone no_failure inodes.
  intros E Hl Hf. unfold write_manifest. eapply calm_enter; [exact E|done|]. eapply calm_bind; [by apply calm_plain|]. intros w1 Hd1 _ Hf1. rewrite <- Hd1.
  eapply calm_bind; [by apply calm_plain|]. intros w2 Hd2 _ Hf2. rewrite <- Hd2. by apply calm_ret.
Qed.

Lemma calm_place target data w : fresh w ->
  exists r d, calm_run (place_manifest io target data) w r d /\
    match r with Some e => e <> "" /\ d = w_dir w | None => exists i, d = <[target := MkFile false i data]> (w_dir w) end.
Proof using alone no_failure inodes.
  intros Hf. unfold place_manifest. set (tmp := target +:+ ".tmp"). assert (Hne : target <> tmp).
  { intros E%(f_equal String.length). unfold tmp in E. rewrite string_length_app in E. cbn in E. lia. }
  destruct (w_dir w !! tmp) as [f|] eqn:Et.
  { eexists (Some _), (w_dir w). split.
    + eapply calm_bind; [by eapply calm_taken|]. intros w1 Hd1 _ Hf1. rewrite <- Hd1. by apply calm_ret.
    + by split. }
  destruct (calm_created tmp data w Hf Et) as (i & w1 & w2 & E1 & Hl1 & E2 & Hd2 & Hl2 & Hf2).
  assert (Htmp : w_dir w2 !! tmp = Some (MkFile false i data)) by (rewrite Hd2; apply lookup_insert_eq).
  assert (Htarget : w_dir w2 !! target = w_dir w !! target) by (by rewrite Hd2, lookup_insert_ne).
  destruct (w_dir w !! target) as [f|] eqn:Ef.
  - exists (Some ("manifest: link target occupied: " +:+ target)), (w_dir w). split; [|by split]. eapply calm_enter; [exact E1|done|].
    eapply calm_bind; [eapply calm_write_manifest; [exact E2|done|done]|]. intros w3 Hd3 _ Hf3.
    eapply (calm_bind _ _ _ (Some FsExists)).
    { unfold link. apply calm_same; [|done]. intros n. by rewrite Hd3, Htmp, Htarget. }
    intros w4 Hd4 _ Hf4. eapply calm_bind; [eapply calm_remove; [done|by rewrite Hd4, Hd3]|]. intros w5 Hd5 _ Hf5.
    rewrite Hd4, Hd3, Hd2, delete_insert_id in Hd5 by done. rewrite <- Hd5. by apply calm_ret.
  - eexists None, _. split; [|by exists i]. eapply calm_enter; [exact E1|done|].
    eapply calm_bind; [eapply calm_write_manifest; [exact E2|done|done]|]. intros w3 Hd3 _ Hf3.
    eapply calm_bind; [eapply calm_link; [done|by rewrite Hd3|by rewrite Hd3]|]. intros w4 Hd4 _ Hf4.
    eapply calm_bind; [eapply calm_remove; [done|by rewrite Hd4, lookup_insert_ne, Hd3]|]. intros w5 Hd5 _ Hf5.
    rewrite Hd4, delete_insert_ne, Hd3, Hd2, delete_insert_id in Hd5 by done. rewrite <- Hd5. by apply calm_ret.
Qed.

Lemma look_calm {A} (f : SnapDir -> LogDisk -> LogDisk * A) w w' a : look io f w = (w', a) ->
  w_dir w' = w_dir w /\ f (w_dir w) (w_ledger w) = (w_ledger w', a) /\ (fresh w -> fresh w').
Proof using alone.
  unfold look. rewrite alone. destruct (f (w_dir w) (w_ledger w)) as [l x]. intros [= <- <-]. split_and!; [done..|].
  intros Hf n name g Hn. apply Hf. cbn in Hn. lia.
Qed.

End Calm.

(** ** The manifest that is put in place *)

Section Placed.
Context `{ManifestCrypto} `{LedgerCodec}.

(** The manifest with its place in the chain. *)
Definition with_chain (m : snapshotManifest) (c : manifestChain) : snapshotManifest :=
  MkManifest manifestSchemaVersionV4 (m_PublicationID m) (m_Snapshot m) (m_ExportedAt m) (m_GeneratedAt m) (m_Source m) (m_Truncated m)
    (m_SeqContinuity m) (m_MinSeq m) (m_MaxSeq m) (m_Records m) (m_Formats m) (m_Signature m) (Some c).

Lemma chain_and_sign_ok cfg io d m at_ d' m' lerr : chain_and_sign cfg io d m at_ = (d', Ok m', lerr) ->
  match pc_signer cfg with
  | None => m' = m
  | Some s => exists c, signManifest (Some s) (with_chain m c) at_ = Ok m'
  end.
Proof.
  unfold chain_and_sign. destruct (pc_signer cfg) as [s|]; [|by intros [= _ <- _]]. destruct (latestVerifiedChainPredecessor _ _ _) as [[prev|]|e]; [| |done].
  - destruct (recordLedgerEntry _ _ _ _ _) as [ledger le]. destruct (manifestDigest (Some prev)) as [dg|]; [|done].
    destruct (signManifest _ _ _) as [m1|e] eqn:E; intros [= _ <- _]. by eexists.
  - destruct (signManifest _ _ _) as [m1|e] eqn:E; intros [= _ <- _]. by eexists.
Qed.

Lemma next_text io d e : next_publication_id io d = Err e -> e <> "".
Proof.
  unfold next_publication_id. destruct (match pio_state_read io with Some e => Err e | None => _ end) as [raw|e0]; [|by intros [= <-]].
  destruct (ParseInt _) as [l|]; [|by intros [= <-]]. destruct (l <? 0); [by intros [= <-]|].
  destruct (match pio_discover io with None => _ | Some _ => _ end); [by intros [= <-]|done].
Qed.

Lemma hash_text io x formats e : hash_formats io x formats = Err e -> e <> "".
Proof.
  revert e. induction formats as [|f l IH]; intros e; [done|]. cbn. destruct (pio_hash _ _) as [[sum size]|e0]; [|by intros [= <-]].
  destruct (hash_formats io x l) as [fs|e0]; [done|]. intros [= <-]. by apply IH.
Qed.

Lemma chain_text cfg io d m at_ d' e lerr : chain_and_sign cfg io d m at_ = (d', Err e, lerr) -> e <> "".
Proof.
  unfold chain_and_sign. destruct (pc_signer cfg) as [s|]; [|done]. destruct (latestVerifiedChainPredecessor _ _ _) as [[prev|]|e0]; [| |by intros [= _ <- _]].
  - destruct (recordLedgerEntry _ _ _ _ _) as [ledger le]. destruct (manifestDigest (Some prev)) as [dg|]; [|by intros [= _ <- _]].
    destruct (signManifest _ _ _); [done|by intros [= _ <- _]].
  - destruct (signManifest _ _ _); [done|by intros [= _ <- _]].
Qed.

Lemma signed_fields s m at_ m' : signManifest (Some s) m at_ = Ok m' ->
  m_SchemaVersion m' = m_SchemaVersion m /\ m_PublicationID m' = m_PublicationID m /\ m_Snapshot m' = m_Snapshot m /\
  m_SeqContinuity m' = m_SeqContinuity m /\ m_Formats m' = m_Formats m.
Proof. unfold signManifest. destruct (es_priv_size s); [|done]. cbn. by intros [= <-]. Qed.

Lemma hashed_formats io d x formats fs :
  hash_formats (hashing io d) x formats = Ok fs ->
  map mf_Format fs = formats /\ forall fi, In fi fs -> exists f, d !! xi_file x (mf_Format fi) = Some f /\
    hash_data (sf_data f) = (mf_SHA256 fi, mf_Bytes fi) /\ mf_Records fi = xi_records x.
Proof.
  revert fs. induction formats as [|f l IH]; intros fs; cbn; [by intros [= <-]|]. destruct (pio_hash io (xi_file x f)); [|done].
  destruct (d !! xi_file x f) as [file|] eqn:Ef; [|done].
  destruct (hash_data (sf_data file)) as [sum size] eqn:Eh. destruct (hash_formats (hashing io d) x l) as [fs'|]; [|done]. intros [= <-].
  destruct (IH fs' eq_refl) as [Hm Hf]. split; [cbn; by rewrite Hm|]. intros fi [<-|Hin]; [|by apply Hf]. by exists file.
Qed.

End Placed.

(** ** An undisturbed export is found intact *)

Section Verified.
Context `{ManifestCrypto} `{LedgerCodec} `{CursorCodec} `{ArtifactCodec}.
Context (decode : string -> result error snapshotManifest) (encode : snapshotManifest -> string).
Context (io : FsIO).
Hypothesis decode_encode : forall m, decode (encode m) = Ok m.
Hypothesis alone : forall n c d, fs_foreign io n c d = d.
Hypothesis no_failure : forall n c, fs_fail io n c = None.
Hypothesis inodes : forall n n', fs_inode io n = fs_inode io n' -> n = n'.

(** What the two kinds of manifest say, whoever signed. *)
Definition manifest_says (cfg : PublishConfig) (x : ExportInfo) (id : Z) (formats : list manifestFormatInfo) (m : snapshotManifest) : Prop :=
  m_PublicationID m = id /\ m_Snapshot m = xi_identity x /\ m_SeqContinuity m = seqContinuityValue /\ m_Formats m = formats /\
  match pc_signer cfg with
  | None => m_SchemaVersion m = manifestSchemaVersionV2 /\ m_Signature m = None
  | Some s => m_SchemaVersion m = manifestSchemaVersionV4 /\ exists m0, signManifest (Some s) m0 (xi_generatedAt x) = Ok m
  end.

Lemma chained_says cfg pio d x id formats d' m lerr :
  chain_and_sign cfg pio d (export_manifest x id formats) (xi_generatedAt x) = (d', Ok m, lerr) -> manifest_says cfg x id formats m.
Proof.
  intros E%chain_and_sign_ok. unfold manifest_says. destruct (pc_signer cfg) as [s|]; [|by subst m].
  destruct E as [c Hm]. destruct (signed_fields _ _ _ _ Hm) as (S1 & S2 & S3 & S4 & S5). rewrite S1, S2, S3, S4, S5. split_and!; [done..|by eexists].
Qed.

(** What a publication that nothing disturbs does to the directory. *)
Definition publication_effect (cfg : PublishConfig) (pio : PublishIO) (x : ExportInfo) (w w2 : World) (pb : Published) : Prop :=
  fresh io w2 /\
  (forall n, n <> xi_file x "manifest" -> n <> publicationStateFile -> w_dir w2 !! n = w_dir w !! n) /\
  (pb_manifestErr pb = "" -> pb_pubStateErr pb = "" ->
    exists formats id m i, hash_formats (hashing pio (w_dir w)) x (pc_formats cfg) = Ok formats /\
      next_publication_id pio (export_dir decode (w_dir w) (w_ledger w)) = Ok id /\ manifest_says cfg x id formats m /\
      w_dir w2 !! xi_file x "manifest" = Some (MkFile false i (encode m))).

Lemma publish_manifest_effect cfg pio x w w2 pb :
  fresh io w -> publish_manifest decode encode io cfg pio x w = (w2, pb) -> publication_effect cfg pio x w w2 pb.
Proof using alone no_failure inodes.
  intros Hf. unfold publish_manifest, fs_bind at 1. destruct (look _ _ w) as [w1 hashed] eqn:E1. apply look_calm in E1 as (Hd1 & E1 & Hf1); [|done].
  injection E1 as El1 E1. specialize (Hf1 Hf). destruct hashed as [formats|e].
  2:{ intros [= <- <-]. split; [done|]. split; [intros n _ _; by rewrite Hd1|]. cbn. intros ->. by apply hash_text in E1. }
  unfold fs_bind at 1, allocate, fs_bind at 1. destruct (look _ _ w1) as [w2' next] eqn:E2. apply look_calm in E2 as (Hd2 & E2 & Hf2); [|done].
  injection E2 as El2 E2. specialize (Hf2 Hf1). rewrite Hd1, <- El1 in E2. rewrite Hd1 in Hd2. destruct next as [id|e].
  2:{ intros [= <- <-]. split; [done|]. split; [intros n _ _; by rewrite Hd2|]. cbn. intros _ ->. by apply next_text in E2. }
  destruct (calm_watermark io alone no_failure inodes id w2' Hf2) as (r & d3 & Hw & Hr).
  apply calm_inv in Hw as (w3 & -> & Hd3 & _ & Hf3). rewrite Hd2 in Hr. destruct r as [id'|e].
  2:{ destruct Hr as [He ->]. intros [= <- <-]. split; [done|]. split; [intros n _ _; by rewrite Hd3|]. done. }
  destruct Hr as [-> [j ->]]. assert (Hst : forall n, n <> publicationStateFile -> w_dir w3 !! n = w_dir w !! n) by (intros n Hn; by rewrite Hd3, lookup_insert_ne).
  unfold fs_bind at 1, extend_chain. destruct (look _ _ w3) as [w4 signed] eqn:E4. apply look_calm in E4 as (Hd4 & E4 & Hf4); [|done]. specialize (Hf4 Hf3).
  destruct (chain_and_sign _ _ _ _ _) as [[after r] lerr] eqn:Ec. injection E4 as El4 <-. destruct r as [m|e].
  2:{ intros [= <- <-]. split; [done|]. split; [intros n _ Hn; rewrite Hd4; by apply Hst|]. cbn. intros ->. by apply chain_text in Ec. }
  apply chained_says in Ec. destruct (calm_place io alone no_failure inodes (xi_file x "manifest") (encode m) w4 Hf4) as (r & d5 & Hw & Hr).
  apply calm_inv in Hw as (w5 & E5 & Hd5 & _ & Hf5). unfold fs_bind at 1. rewrite E5. rewrite Hd4 in Hr. destruct r as [e|].
  { destruct Hr as [He ->]. intros [= <- <-]. split; [done|]. split; [intros n _ Hn; rewrite Hd5; by apply Hst|]. done. }
  destruct Hr as [i ->]. unfold fs_bind. destruct (look _ _ w5) as [w6 lerr'] eqn:E6. apply look_calm in E6 as (Hd6 & _ & Hf6); [|done].
  intros [= <- <-]. split; [by apply Hf6|]. split; [intros n Hn1 Hn2; rewrite Hd6, Hd5, lookup_insert_ne by done; by apply Hst|].
  intros _ _. exists formats, id, m, i. split_and!; [done|done|done|]. by rewrite Hd6, Hd5, lookup_insert_eq.
Qed.

(** A signature that the trust store of the configuration accepts. *)
Definition accepted_signer (cfg : PublishConfig) (at_ : string) : Prop :=
  match pc_signer cfg with
  | None => True
  | Some s => at_ <> "" /\ es_keyID s <> "" /\ exists t, pc_trust cfg = Some t /\ ts_keys t !! es_keyID s = Some (Public (es_priv s))
  end.

Lemma says_signed cfg x id formats m : manifest_says cfg x id formats m -> accepted_signer cfg (xi_generatedAt x) ->
  let verdict := sv_Verdict (manifest_verdict (pc_trust cfg) None m) in
  verdict = sigVerdictOK \/ verdict = sigVerdictAbsent /\ m_SchemaVersion m < manifestSchemaVersionV3.
Proof.
  intros (_ & _ & _ & _ & Hs) Ha. cbv zeta. unfold manifest_verdict. unfold accepted_signer in Ha. destruct (pc_signer cfg) as [s|].
  - left. destruct Hs as (_ & m0 & Hm). destruct Ha as (Hat & Hk & t & -> & Ht). by rewrite (proj1 (manifest_sign_verify _ _ _ _ _ Hm Hk Hat Ht)).
  - right. destruct Hs as [Hv Hn]. unfold verifyManifestSignature. rewrite Hn, Hv. by split.
Qed.

Lemma says_parses cfg x id formats m : manifest_says cfg x id formats m -> 0 < id -> parseSnapshotManifest (Ok m) = Ok m.
Proof.
  intros (Hid & _ & Hc & _ & Hs) Hp. unfold parseSnapshotManifest.
  assert (negb (m_SchemaVersion m =? manifestSchemaVersionV2) && negb (m_SchemaVersion m =? manifestSchemaVersionV3) &&
    negb (m_SchemaVersion m =? manifestSchemaVersionV4) = false) as ->.
  { destruct (pc_signer cfg); destruct Hs as [-> _]; reflexivity. }
  rewrite Hid, Hc. destruct (Z.leb_spec id 0); [lia|]. by rewrite String.eqb_refl.
Qed.

(** No file of the directory belongs to the identity. *)
Definition unclaimed (d : SnapDir) (id : string) : Prop := forall fn, fn ∈ file_names d -> ~ owned_by id fn.

(** No manifest of the directory is ahead of the watermark, which is [mark]. *)
Definition marked (d : SnapDir) (mark : Z) : Prop :=
  0 <= mark < max_int64 /\ sf_data <$> d !! publicationStateFile = state_of mark /\
  forall fn id m, fn ∈ file_names d -> parseSnapshotFile fn = (id, snapshotKindManifest) -> load_manifest decode (fun _ => None) d fn = Ok m ->
    m_PublicationID m <= mark.

Lemma seen_once_here id l (p0 : DirGroup * snapshotManifest) : NoDup (map (fun p => sg_identity (fst p)) l) -> In p0 l -> id_of p0 = id ->
  (forall p, In p l -> id_of p = id -> sg_identity (fst p) = sg_identity (fst p0)) -> times_seen id (map id_of l) = 1%nat.
Proof.
  intros Hn Hin Hid Hu. induction l as [|p l IH]; [done|]. cbn [map] in *. rewrite times_seen_cons. apply NoDup_cons in Hn as [Hni Hn].
  assert (Hnone : forall q, In q l -> sg_identity (fst q) <> sg_identity (fst p)).
  { intros q Hq E. apply Hni. rewrite <- E. apply list_elem_of_In. apply in_map_iff. by exists q. }
  destruct (Z.eqb_spec (id_of p) id) as [Hp|Hp].
  - assert (times_seen id (map id_of l) = O) as ->; [|done]. apply times_seen_none. intros (q & Eq & Hq)%in_map_iff.
    apply (Hnone q Hq). by rewrite (Hu q (or_intror Hq) Eq), (Hu p (or_introl eq_refl) Hp).
  - destruct Hin as [->|Hin]; [done|]. rewrite IH; [done|done|done|]. intros q Hq. apply Hu. by right.
Qed.

Section Final.
Context (cfg : PublishConfig) (ts : string) (x : ExportInfo) (text : string -> string) (d D : SnapDir) (m : snapshotManifest) (i id mark : Z)
  (fs : list manifestFormatInfo).
#[local] Abbreviation formats := (pc_formats cfg).
#[local] Abbreviation ident := (snapshot_identity ts 0).
Hypothesis time_ok : export_time ts.
Hypothesis formats_ok : export_formats formats.
Hypothesis names : xi_identity x = ident.
Hypothesis others : unclaimed d ident.
Hypothesis watermark : marked d mark.
Hypothesis next_id : id = mark + 1.
Hypothesis says : manifest_says cfg x id fs m.
Hypothesis placed_manifest : D !! slot ts 0 "manifest" = Some (MkFile false i (encode m)).
Hypothesis placed_formats : forall f, In f formats -> exists j, D !! slot ts 0 f = Some (MkFile false j (text f)).
Hypothesis elsewhere : forall n, (forall k, In k formats \/ k = "manifest" -> n <> slot ts 0 k) -> n <> publicationStateFile -> D !! n = d !! n.

Lemma slot_parses k : In k formats \/ k = "manifest" ->
  parseSnapshotFile (slot ts 0 k) = (ident, if String.eqb k "manifest" then snapshotKindManifest else snapshotKindArtifact) /\
  snapshotIdentityValid ident = true.
Proof using time_ok formats_ok.
  intros Hk. unfold slot. destruct (published_names_resolve ts 0 (if String.eqb k "manifest" then "manifest.json" else k) time_ok ltac:(lia)) as (Hp & Hv & _).
  { destruct Hk as [Hk| ->]; [|by auto]. destruct formats_ok as [_ Hf]. rewrite List.Forall_forall in Hf. destruct (Hf k Hk) as [->| ->]; cbn; auto. }
  split; [|done]. rewrite Hp. destruct Hk as [Hk| ->]; [|done]. destruct (format_key _ _ formats_ok Hk) as [_ Hne].
  destruct (String.eqb_spec k "manifest"); [done|]. destruct formats_ok as [_ Hf]. rewrite List.Forall_forall in Hf. by destruct (Hf k Hk) as [->| ->].
Qed.

Lemma owned_slot fn : In fn (file_names D) -> owned_by ident fn -> exists k, (In k formats \/ k = "manifest") /\ fn = slot ts 0 k.
Proof using others elsewhere.
  intros Hin Ho. destruct (decide (Exists (fun k => fn = slot ts 0 k) (formats ++ ["manifest"]))) as [He|He].
  - apply Exists_exists in He as (k & Hk & ->). exists k. split; [|done]. apply list_elem_of_In in Hk. apply in_app_iff in Hk as [?|[<-|[]]]; auto.
  - exfalso. assert (Hne : forall k, In k formats \/ k = "manifest" -> fn <> slot ts 0 k).
    { intros k Hk ->. apply He, Exists_exists. exists k. split; [|done]. apply list_elem_of_In, in_or_app. destruct Hk as [?| ->]; [by left|right; by left]. }
    destruct (decide (fn = publicationStateFile)) as [->|Hs]; [by vm_compute in Ho|]. apply (others fn); [|done].
    apply list_elem_of_In, file_names_spec in Hin as (f & Hf & Hd). apply file_names_spec. exists f. by rewrite elsewhere in Hf.
Qed.

Lemma format_of_slot k : In k formats -> format_of (slot ts 0 k) = k.
Proof using formats_ok.
  intros Hk. destruct formats_ok as [_ Hf]. rewrite List.Forall_forall in Hf. unfold format_of. destruct (Hf k Hk) as [->| ->].
  - by rewrite slot_end.
  - assert (slot ts 0 "csv" = (snapshot_base ts 0) +:+ ".csv") as -> by done. by rewrite HasSuffix_app.
Qed.

(** What is known of the files that were hashed. *)
Hypothesis hashed : map mf_Format fs = formats /\ forall fi, In fi fs ->
  hash_data (text (mf_Format fi)) = (mf_SHA256 fi, mf_Bytes fi) /\ mf_Records fi = xi_records x.
Hypothesis counted : forall f, In f formats -> countArtifactRecords (text f) f = Ok (xi_records x).
Hypothesis some_format : formats <> [].
Hypothesis accepted : accepted_signer cfg (xi_generatedAt x).

Lemma slot_manifest_here : In (slot ts 0 "manifest") (file_names D).
Proof using placed_manifest. apply list_elem_of_In, file_names_spec. by eexists. Qed.

Lemma mark_range : 0 <= mark < max_int64.
Proof using watermark. by destruct watermark. Qed.

Lemma here_loaded : load_manifest decode (fun _ => None) D (slot ts 0 "manifest") = Ok m.
Proof using placed_manifest says next_id watermark decode_encode.
  unfold load_manifest, read_file. rewrite placed_manifest. cbn [sf_data]. rewrite decode_encode. pose proof mark_range. eapply says_parses; [exact says|]. lia.
Qed.

Lemma export_intact groups un :
  discoverSnapshotGroups true None D = Ok (groups, un) ->
  exists g, In g groups /\ sg_identity g = ident /\
    intact decode (fun _ => None) D (pc_trust cfg) None (listable decode (fun _ => None) D (List.filter (fun g => negb (String.eqb (sg_manifestFn g) "")) groups)) g m.
Proof using All.
  intros Hd. destruct (slot_parses "manifest" (or_intror eq_refl)) as [Hpm Hvalid]. cbn in Hpm.
  destruct (discovered_group D groups un ident _ Hd slot_manifest_here Hpm) as (g & Hg & Hident & Hshape & Hmfn & Hfiles & Hformats).
  exists g. split; [done|]. split; [done|].
  assert (Hfn : sg_manifestFn g = slot ts 0 "manifest").
  { destruct (Hfiles (sg_manifestFn g)) as [Hin Ho]; [by left|]. destruct (owned_slot _ Hin Ho) as (k & Hk & E). rewrite E. destruct Hk as [Hk| ->]; [|done].
    pose proof (sh_manifest _ _ Hshape Hmfn) as Hp. rewrite E, (proj1 (slot_parses k (or_introl Hk))) in Hp.
    destruct (format_key _ _ formats_ok Hk) as [_ Hne]. by destruct (String.eqb_spec k "manifest"). }
  assert (Hart : forall k fn, sg_artifacts g !! k = Some fn -> In k formats /\ fn = slot ts 0 k).
  { intros k fn Hk. destruct (sh_artifacts _ _ Hshape _ _ Hk) as [Ek [self Hp]]. destruct (Hfiles fn) as [Hin Ho]; [right; left; by exists k|].
    destruct (owned_slot _ Hin Ho) as (f & [Hf| ->] & ->).
    - rewrite (format_of_slot f Hf) in Ek. by subst f.
    - rewrite Hpm in Hp. discriminate. }
  assert (Hhas : forall f, In f formats -> sg_artifacts g !! f = Some (slot ts 0 f)).
  { intros f Hf. destruct (placed_formats f Hf) as [j Hj]. assert (Hin : In (slot ts 0 f) (file_names D)) by (apply list_elem_of_In, file_names_spec; by eexists).
    pose proof (proj1 (slot_parses f (or_introl Hf))) as Hp. destruct (format_key _ _ formats_ok Hf) as [_ Hne].
    destruct (String.eqb_spec f "manifest"); [done|]. destruct (Hformats _ Hin Hp Hvalid) as [fn Hfn']. rewrite (format_of_slot f Hf) in Hfn'.
    destruct (Hart _ _ Hfn') as [_ ->]. done. }
  pose proof (discovered_nodup _ _ _ _ Hd) as Hnd. destruct says as (Hid & Hsnap & Hcont & Hfs & _). destruct hashed as [Hmap Hhash].
  assert (Hload : load_manifest decode (fun _ => None) D (sg_manifestFn g) = Ok m) by (rewrite Hfn; apply here_loaded).
  constructor.
  - by split.
  - by rewrite Hsnap, names, Hident.
  - rewrite Hid. apply (seen_once_here id _ (g, m)); [by apply listable_nodup, nodup_filtered| |done|].
    + apply listable_spec. split; [|done]. apply filter_In. split; [done|]. by apply negb_true_iff, String.eqb_neq.
    + intros [g' m'] Hin Hid'. cbn [fst]. apply listable_spec in Hin as [Hg' Hl']. apply filter_In in Hg' as [Hg' Hne'].
      apply negb_true_iff, String.eqb_neq in Hne'. rewrite Hident. destruct (decide (sg_identity g' = ident)) as [|Hother]; [done|]. exfalso.
      assert (Hown : In (sg_manifestFn g') (file_names D) /\ parseSnapshotFile (sg_manifestFn g') = (sg_identity g', snapshotKindManifest)).
      { exact (manifest_of_group D groups un g' Hd Hg' Hne'). }
      destruct Hown as [Hin' Hp']. assert (Hsame : D !! sg_manifestFn g' = d !! sg_manifestFn g').
      { apply elsewhere; [|intros E; rewrite E in Hp'; by vm_compute in Hp']. intros k Hk E. rewrite E, (proj1 (slot_parses k Hk)) in Hp'. injection Hp' as Hp' _. apply Hother. by symmetry. }
      destruct watermark as (_ & _ & Hmark). apply list_elem_of_In, file_names_spec in Hin' as (f & Hf & Hdir). rewrite Hsame in Hf.
      assert (m_PublicationID m' <= mark); [|unfold id_of in Hid'; cbn in Hid'; lia]. apply (Hmark (sg_manifestFn g') (sg_identity g') m'); [apply file_names_spec; by exists f|done|].
      revert Hl'. unfold load_manifest, read_file. by rewrite Hsame.
  - rewrite Hfs. split.
    + intros E. apply some_format. by rewrite <- Hmap, E.
    + apply List.Forall_forall. intros fi Hin. assert (Hf : In (mf_Format fi) formats) by (rewrite <- Hmap; by apply in_map).
      destruct (placed_formats _ Hf) as [j Hj]. exists (slot ts 0 (mf_Format fi)), (text (mf_Format fi)). destruct (Hhash fi Hin) as [Hh Hr].
      split_and!; [by apply Hhas|unfold read_file; by rewrite Hj|done|rewrite Hr; by apply counted].
  - split.
    + destruct (sg_extraFiles g) as [|fn l] eqn:Ee; [done|]. exfalso. assert (Hin : In fn (sg_extraFiles g)) by (rewrite Ee; by left).
      destruct (sh_extra _ _ Hshape fn Hin) as (self & Hp & Hv). destruct (Hfiles fn) as [Hin' Ho]; [right; by right|].
      destruct (owned_slot _ Hin' Ho) as (k & Hk & ->). rewrite (proj1 (slot_parses k Hk)) in Hp. injection Hp as <- _. by rewrite Hvalid in Hv.
    + right. intros k fn Hk. destruct (Hart _ _ Hk) as [Hf _]. by rewrite Hfs, Hmap.
  - by eapply says_signed.
Qed.

End Final.

(** *** The directory after an undisturbed export *)

Record exported (cfg : PublishConfig) (x : ExportInfo) (ts : string) (text : string -> string) (mark : Z) (d D : SnapDir) : Prop := MkExported {
  ex_formats : forall f, In f (pc_formats cfg) -> exists j, D !! slot ts 0 f = Some (MkFile false j (text f));
  ex_elsewhere : forall n, (forall k, In k (pc_formats cfg) \/ k = "manifest" -> n <> slot ts 0 k) -> n <> publicationStateFile -> D !! n = d !! n;
  ex_manifest : exists m i fs, D !! slot ts 0 "manifest" = Some (MkFile false i (encode m)) /\ manifest_says cfg x (mark + 1) fs m /\
    map mf_Format fs = pc_formats cfg /\ forall fi, In fi fs ->
      hash_data (text (mf_Format fi)) = (mf_SHA256 fi, mf_Bytes fi) /\ mf_Records fi = xi_records x }.

(** The formats are linked, and the sentinel of the manifest still there. *)
Lemma linked_names cfg ts text (infos : list (string * Z)) i0 d w1 :
  export_formats (pc_formats cfg) -> map fst infos = pc_formats cfg ->
  w_dir w1 = over (published ts 0 text infos) (<[reserve_of ts 0 "manifest" := MkFile false i0 ""]> d) ->
  (forall k, In k (pc_formats cfg) -> exists j, w_dir w1 !! slot ts 0 k = Some (MkFile false j (text k))) /\
  forall n, (forall k, In k (pc_formats cfg) -> n <> slot ts 0 k) -> w_dir w1 !! n = <[reserve_of ts 0 "manifest" := MkFile false i0 ""]> d !! n.
Proof.
  intros Hfmt Hinfos Hd1. rewrite Hd1. split.
  - intros k Hk. assert (Hinf : exists j, In (k, j) infos) by (rewrite <- Hinfos in Hk; apply in_map_iff in Hk as ([k' j] & <- & Hin); by exists j).
    destruct Hinf as [j Hj]. exists j. apply over_in; [rewrite published_names, Hinfos|unfold published; apply in_map_iff; by exists (k, j)].
    apply nodup_names; [|by apply Hfmt]. intros a b Ha Hb. apply slot_inj; by apply (format_key _ _ Hfmt).
  - intros n Hn. apply over_off. rewrite published_names, Hinfos. intros (k & <- & Hk)%in_map_iff. by apply (Hn k Hk).
Qed.

Lemma export_directory cfg pio text res generatedAt mark w w' o :
  let ts := tr_stamp res in
  fresh io w -> export_formats (pc_formats cfg) -> free_slot ts 0 (w_dir w) -> marked (w_dir w) mark ->
  publishSnapshot decode encode io cfg pio (fun f => Ok (text f)) res generatedAt w = (w', o) ->
  so_manifestErr o = "" -> so_pubStateErr o = "" ->
  so_errs o = [] /\ exported cfg (export_info res generatedAt 0) ts text mark (w_dir w) (w_dir w').
Proof using alone no_failure inodes.
  intros ts Hf Hfmt Hfree Hmark E He1 He2. set (d := w_dir w) in *.
  set (publish := fun ordinal => publish_manifest decode encode io cfg pio (export_info res generatedAt ordinal)).
  destruct (calm_publish_at io alone no_failure inodes ts 0 text publish (pc_formats cfg) w Hf Hfmt Hfree) as (infos & i0 & w1 & Hinfos & Hf1 & Hl1 & Hd1 & Hrun).
  destruct (publish 0 w1) as [w2 pb] eqn:Ep. destruct (publish_manifest_effect _ _ _ _ _ _ Hf1 Ep) as (Hf2 & Hframe & Hput).
  fold d in Hd1. destruct (linked_names cfg ts text infos i0 d w1 Hfmt Hinfos Hd1) as [Hlinks Hrest]. set (r := reserve_of ts 0 "manifest") in *.
  assert (Hkey : forall k, In k (pc_formats cfg) -> In k keys) by (intros k Hk; by apply (format_key _ _ Hfmt)).
  assert (Hrs : forall k, In k keys -> r <> slot ts 0 k) by (intros k Hk E'; by apply (slot_not_reserve ts 0 k "manifest")).
  assert (Hrst : r <> publicationStateFile) by done.
  assert (Hsent : w_dir w2 !! r = Some (MkFile false i0 "")).
  { rewrite Hframe; [|apply Hrs; cbn; auto|done]. rewrite Hrest; [by rewrite lookup_insert_eq|]. intros k Hk. by apply Hrs, Hkey. }
  destruct (Hrun w2 pb eq_refl Hf2 Hsent) as (w3 & E3 & Hd3). unfold publishSnapshot in E. cbn [publish_from] in E. unfold fs_bind in E.
  fold publish in E. fold ts in E. rewrite E3 in E. injection E as <- <-. cbn [so_errs so_manifestErr so_pubStateErr] in *. split; [done|].
  destruct (Hput He1 He2) as (fs & id & m & i & Hh & Ha & Hsays & Hd2). clear Hput.
  cbn [xi_file export_info] in Hd2, Hframe. fold ts in Hd2, Hframe. destruct (hashed_formats _ _ _ _ _ Hh) as [Hmap Hhash].
  assert (Hid : id = mark + 1).
  { destruct Hmark as (Hr & Hs & _). eapply (next_id _ _ mark) in Ha; [|lia|].
    - rewrite Ha. unfold wrap64. unfold max_int64 in Hr. rewrite Z.mod_small; lia.
    - unfold export_dir. cbn [xd_state]. rewrite <- Hs, Hrest, lookup_insert_ne; [done|done|]. intros k _ E'. unfold slot in E'. by vm_compute in E'. }
  subst id. constructor.
  - intros f Hk. destruct (Hlinks f Hk) as (j & Hj). exists j. rewrite Hd3, lookup_delete_ne, Hframe; [done| |intros E'; unfold slot in E'; by vm_compute in E'|by apply Hrs, Hkey].
    intros E'. apply (slot_inj ts 0) in E'; [by subst f; apply (format_key _ _ Hfmt) in Hk as [_ ?]|by apply Hkey|cbn; auto].
  - intros n Hn Hst. rewrite Hd3. destruct (decide (n = r)) as [->|Hnr]; [rewrite lookup_delete_eq; symmetry; by apply (Hfree "manifest"); cbn; auto|].
    rewrite lookup_delete_ne, Hframe, Hrest, lookup_insert_ne; try done; [intros k Hk; by apply Hn; left|intros E'; by apply (Hn "manifest" (or_intror eq_refl))].
  - exists m, i, fs. split_and!; [|done|done|].
    + rewrite Hd3, lookup_delete_ne by (apply Hrs; cbn; auto). exact Hd2.
    + intros fi Hin. destruct (Hhash fi Hin) as (file & Hfile & Hsum & Hrec). split; [|done].
      assert (Hk : In (mf_Format fi) (pc_formats cfg)) by (rewrite <- Hmap; by apply in_map). destruct (Hlinks _ Hk) as (j & Hj).
      cbn [xi_file export_info] in Hfile. fold ts in Hfile. rewrite Hj in Hfile. by injection Hfile as <-.
Qed.


End Verified.

(** ** Witnesses *)

#[local] Existing Instance sample_crypto.
#[local] Existing Instance sample_codec.
#[local] Existing Instance sample_cursor.
#[local] Existing Instance sample_artifacts.

(** A manifest as a text of bits. *)
#[local] Instance format_eq : EqDecision manifestFormatInfo.
Proof. solve_decision. Defined.
#[local] Instance signature_eq : EqDecision signatureBlock.
Proof. solve_decision. Defined.
#[local] Instance chain_eq : EqDecision manifestChain.
Proof. solve_decision. Defined.
#[local] Instance manifest_eq : EqDecision snapshotManifest.
Proof. solve_decision. Defined.
#[local] Instance format_countable : Countable manifestFormatInfo.
Proof.
  apply (inj_countable' (fun f => (mf_Format f, mf_File f, mf_SHA256 f, mf_Bytes f, mf_Records f))
    (fun '(a, b, c, d, e) => MkFormatInfo a b c d e)). by intros [].
Defined.
#[local] Instance signature_countable : Countable signatureBlock.
Proof.
  apply (inj_countable' (fun s => (sb_Alg s, sb_KeyID s, sb_Sig s, sb_SignedAt s)) (fun '(a, b, c, d) => MkSignature a b c d)). by intros [].
Defined.
#[local] Instance chain_countable : Countable manifestChain.
Proof. apply (inj_countable' (fun c => (mc_PrevPublicationID c, mc_PrevManifestDigest c)) (fun '(a, b) => MkManifestChain a b)). by intros []. Defined.
#[local] Instance manifest_countable : Countable snapshotManifest.
Proof.
  apply (inj_countable' (fun m => (m_SchemaVersion m, m_PublicationID m, m_Snapshot m, m_ExportedAt m, m_GeneratedAt m, m_Source m, m_Truncated m,
      (m_SeqContinuity m, m_MinSeq m, m_MaxSeq m, m_Records m, m_Formats m, m_Signature m, m_Chain m)))
    (fun '(a, b, c, d, e, f, g, (h, i, j, k, l, n, o)) => MkManifest a b c d e f g h i j k l n o)). by intros [].
Defined.

Fixpoint bits (p : positive) : string := match p with xH => "" | xO p => String "0" (bits p) | xI p => String "1" (bits p) end.
Fixpoint of_bits (s : string) : positive :=
  match s with EmptyString => xH | String a s => if Ascii.eqb a "0" then xO (of_bits s) else xI (of_bits s) end.

Lemma of_bits_bits p : of_bits (bits p) = p.
Proof. induction p as [p IH|p IH|]; cbn; by rewrite ?IH. Qed.

Definition bits_encode (m : snapshotManifest) : string := bits (encode m).
Definition bits_decode (s : string) : result error snapshotManifest :=
  match decode (of_bits s) with Some m => Ok m | None => Err "invalid character" end.

Lemma bits_roundtrip m : bits_decode (bits_encode m) = Ok m.
Proof. unfold bits_decode, bits_encode. by rewrite of_bits_bits, decode_encode. Qed.

Definition one_snapshot : SnapDir := sample_dir [("publication-seq.state", "4" +:+ String newline ""); ("alert-transitions-20260101T000000Z.json", "[]")].
Definition sample_text (f : string) : string := if String.eqb f "json" then "[]" else csv_text.

#[local] Abbreviation exporting io text := (publishSnapshot bits_decode bits_encode io (both_formats (Some sample_signer)) (sample_io 0 None) text second_read "2026-01-02T00:00:01Z").
#[local] Abbreviation calm_export := (exporting calm_io (fun f => Ok (sample_text f)) (start_world one_snapshot)).

Lemma start_fresh : fresh calm_io (start_world one_snapshot).
Proof.
  intros n name f _ Hl. change (one_snapshot !! name = Some f) in Hl. unfold one_snapshot, sample_dir in Hl.
  apply elem_of_list_to_map_2, list_elem_of_In in Hl. change (fs_inode calm_io n) with (1000 + Z.of_nat n).
  destruct Hl as [E|[E|[]]]; injection E as _ <-; cbn; lia.
Qed.

