(* ===== verification/Anchor.v ===== *)
(** * Anchors: the publications outside the host
    (internal/controlplane/server/snapshot_anchor.go, snapshot_anchor_delivery.go)

    Each publication is recorded in an append-only log as pending and handed to a
    witness outside the host; what the witness answers is recorded as a further line
    of the same record. The four other families of evidence have a log each under the
    same rules. What the witness answers, and how the calls on the files end, are
    inputs; [ae_events] is what an operation has done, in order. *)

From Stdlib Require Import Ascii.
From S2P Require Import Prelude GoStrings GoTime Manifest AppendLog Ledger SignedLog SchedulerConfig.

(** ** Data *)

Definition anchorKindPublication : string := "".
Definition anchorKindKeyLifecycle : string := "key_lifecycle".
Definition anchorKindVerification : string := "verification".
Definition anchorKindDestruction : string := "destruction".
Definition anchorKindAcceptance : string := "acceptance".

Definition anchorStatePending : string := "pending".
Definition anchorStateAnchored : string := "anchored".
Definition anchorStateUnanchored : string := "unanchored".

Definition sigVerdictForeignStream : string := "foreign_stream".

(** What the signature covers. *)
Record anchorSigned : Type := MkAnchorSigned {
  ay_PublicationID : Z;
  ay_AnchorSeq : Z;
  ay_ManifestDigest : string;
  ay_PrevPublicationID : Z;
  ay_PrevManifestDigest : string;
  ay_RecordedAt : string;
  ay_KeyID : string;
  ay_StreamID : string;
  ay_Kind : string;
  ay_EventSeq : Z;
  ay_EventDigest : string;
  ay_EventType : string;
  ay_NotAfter : string;
  ay_ReportSeq : Z;
  ay_ReportDigest : string;
  ay_Overall : string;
  ay_DestructionSeq : Z;
  ay_DestructionDigest : string;
  ay_DestructionVerdict : string;
  ay_AcceptanceSeq : Z;
  ay_AcceptanceDigest : string;
  ay_AcceptanceRecordSeq : Z }.

#[export] Instance anchorSigned_eq_dec : EqDecision anchorSigned.
Proof. solve_decision. Defined.

(** The delivery state is not signed. The fields that are, are one record here. *)
Record anchorEntry : Type := MkAnchor {
  an_signed : anchorSigned;
  an_State : string;
  an_Attempts : Z;
  an_AckID : string;
  an_LastError : string;
  an_AnchoredAt : string;
  an_Sig : string }.

#[export] Instance anchorEntry_eq_dec : EqDecision anchorEntry.
Proof. solve_decision. Defined.

Definition anchorSignedFields (e : anchorEntry) : anchorSigned := an_signed e.

Definition an_AnchorSeq (e : anchorEntry) : Z := ay_AnchorSeq (an_signed e).

Definition anchor_utf8 (e : anchorEntry) : bool :=
  let s := an_signed e in
  forallb ValidString [ay_ManifestDigest s; ay_PrevManifestDigest s; ay_RecordedAt s; ay_KeyID s; ay_StreamID s; ay_Kind s; ay_EventDigest s;
    ay_EventType s; ay_NotAfter s; ay_ReportDigest s; ay_Overall s; ay_DestructionDigest s; ay_DestructionVerdict s; ay_AcceptanceDigest s;
    an_State e; an_AckID e; an_LastError e; an_AnchoredAt e; an_Sig e].

(** The JSON of an entry and of what is signed of it. *)
Class AnchorCodec := {
  anchor_signed_json : anchorSigned -> string;
  anchor_lines :: LineCodec anchorEntry anchor_utf8 }.

Definition identityID (e : anchorEntry) : Z :=
  let s := an_signed e in
  if String.eqb (ay_Kind s) anchorKindKeyLifecycle then ay_EventSeq s
  else if String.eqb (ay_Kind s) anchorKindDestruction then ay_DestructionSeq s
  else if String.eqb (ay_Kind s) anchorKindAcceptance then ay_AcceptanceSeq s
  else ay_PublicationID s.

Definition anchorPayloadEqual (a b : anchorEntry) : bool := bool_decide (anchorSignedFields a = anchorSignedFields b).

(** [json.Marshal] of these fields does not fail. *)
Definition canonicalAnchorPayload `{AnchorCodec} (e : anchorEntry) : string := anchor_signed_json (anchorSignedFields e).

Record anchorProblem : Type := MkAnchorProblem { az_AnchorSeq : Z; az_PublicationID : Z; az_Verdict : string; az_Detail : string }.

Record anchorState : Type := MkAnchorState {
  as_latest : gmap Z anchorEntry;
  as_byID : gmap Z anchorEntry;
  as_unusable : list anchorProblem;
  as_conflicts : list Z;
  as_window : logWindow;
  as_total : Z }.

Definition sortInt64s (l : list Z) : list Z := sort_slice Z.ltb l.

Definition keys_of {A} (m : gmap Z A) : list Z := sortInt64s (map fst (map_to_list m)).

Lemma keys_of_elem {A} (m : gmap Z A) i : i ∈ keys_of m <-> is_Some (m !! i).
Proof.
  unfold keys_of, sortInt64s. rewrite sort_slice_elem. rewrite (list_elem_of_fmap fst). split.
  - intros ([j x] & -> & Hj). apply elem_of_map_to_list in Hj. by exists x.
  - intros [x Hx]. exists (i, x). split; [done|]. by apply elem_of_map_to_list.
Qed.

Definition anchor_seqs (st : anchorState) : list Z := keys_of (as_latest st).

(** ** The identity of the stream, and signatures *)

Section Anchor.
Context `{HC : ManifestCrypto} {HF : KeyFiles} {HA : AnchorCodec}.

(** [abs]: the absolute path of the directory, with slashes. *)
Definition streamIDForPublicKey (pub : PubKey) (abs : result error string) : result error string :=
  match abs with
  | Err e => Err ("stream id: cannot resolve the export directory: " +:+ e)
  | Ok dir => Ok (hex_EncodeToString (String.substring 0 8 (Sum256 (public_bytes pub +:+ String zero dir))))
  end.

Definition streamIDFor (s : option exportSigner) (abs : result error string) : result error string :=
  match s with
  | None => Err "stream id: no signing key configured"
  | Some s => if negb (es_priv_size s) then Err "stream id: no signing key configured" else streamIDForPublicKey (Public (es_priv s)) abs
  end.

Record anchorIdentity : Type := MkIdentity { id_KeyID : string; id_StreamID : string; id_accepted : gset string }.

Definition pair_id (keyID streamID : string) : string := keyID +:+ "|" +:+ streamID.

Definition accepts (id : anchorIdentity) (keyID streamID : string) : bool := bool_decide (pair_id keyID streamID ∈ id_accepted id).

Definition knowsKey (id : anchorIdentity) (keyID : string) : bool :=
  if negb (String.eqb (id_KeyID id) "") then String.eqb keyID (id_KeyID id)
  else existsb (fun p => HasPrefix p (keyID +:+ "|")) (elements (id_accepted id)).

Definition trusted_keys (t : option exportTrustStore) : gmap string PubKey := match t with Some t => ts_keys t | None => ∅ end.

Fixpoint accept_keys (abs : result error string) (keys : list (string * PubKey)) : result error (gset string) :=
  match keys with
  | [] => Ok ∅
  | (id, pub) :: keys =>
      match streamIDForPublicKey pub abs with
      | Err e => Err e
      | Ok sid => match accept_keys abs keys with Err e => Err e | Ok acc => Ok ({[ pair_id id sid ]} ∪ acc) end
      end
  end.

Definition deriveAnchorIdentity (signer : option exportSigner) (trust : option exportTrustStore) (abs : result error string)
  : result error anchorIdentity :=
  match signer with
  | Some s =>
      match streamIDFor signer abs with
      | Err e => Err e
      | Ok sid => Ok (MkIdentity (es_keyID s) sid {[ pair_id (es_keyID s) sid ]})
      end
  | None =>
      let keys := map_to_list (trusted_keys trust) in
      match accept_keys abs keys with
      | Err e => Err e
      | Ok acc =>
          match keys with
          | [(id, pub)] => Ok (MkIdentity id (match streamIDForPublicKey pub abs with Ok sid => sid | Err _ => "" end) acc)
          | _ => Ok (MkIdentity "" "" acc)
          end
      end
  end.

Definition with_stream (s : anchorSigned) (keyID streamID : string) : anchorSigned :=
  MkAnchorSigned (ay_PublicationID s) (ay_AnchorSeq s) (ay_ManifestDigest s) (ay_PrevPublicationID s) (ay_PrevManifestDigest s) (ay_RecordedAt s)
    keyID streamID (ay_Kind s) (ay_EventSeq s) (ay_EventDigest s) (ay_EventType s) (ay_NotAfter s) (ay_ReportSeq s) (ay_ReportDigest s)
    (ay_Overall s) (ay_DestructionSeq s) (ay_DestructionDigest s) (ay_DestructionVerdict s) (ay_AcceptanceSeq s) (ay_AcceptanceDigest s)
    (ay_AcceptanceRecordSeq s).

Definition signAnchorEntry (s : option exportSigner) (e : anchorEntry) (abs : result error string) : result error anchorEntry :=
  match s with
  | None => Err "no signer configured"
  | Some k =>
      if negb (es_priv_size k) then Err "sign key: private key is not a valid Ed25519 key"
      else match streamIDFor s abs with
        | Err err => Err err
        | Ok sid =>
            let body := with_stream (an_signed e) (es_keyID k) sid in
            Ok (MkAnchor body (an_State e) (an_Attempts e) (an_AckID e) (an_LastError e) (an_AnchoredAt e)
                  (base64_Encode (Sign (es_priv k) (anchor_signed_json body))))
        end
  end.

Definition verifyAnchorEntrySignature (e : anchorEntry) (trust : option exportTrustStore) (abs : result error string) : SignatureVerdict :=
  let s := an_signed e in
  if String.eqb (an_Sig e) "" || String.eqb (ay_KeyID s) "" || String.eqb (ay_StreamID s) ""
  then MkSignatureVerdict sigVerdictAbsent "" "anchor entry carries no usable signature block"
  else
    let verdict v detail := MkSignatureVerdict v (ay_KeyID s) detail in
    match base64_Decode (an_Sig e) with
    | None => verdict sigVerdictMalformed "anchor signature is not valid base64"
    | Some rawSig =>
        if decide (trusted_keys trust = ∅) then verdict sigVerdictKeyUnknown "no trusted public keys are configured"
        else match trusted_keys trust !! ay_KeyID s with
          | None => verdict sigVerdictKeyUnknown "anchor key_id is not in the trusted key set"
          | Some pub =>
              match streamIDForPublicKey pub abs with
              | Err err => verdict sigVerdictMalformed err
              | Ok want =>
                  if negb (String.eqb (ay_StreamID s) want)
                  then verdict sigVerdictForeignStream
                    "anchor stream_id does not belong to this export directory (foreign stream, not tamper evidence)"
                  else if negb (Verify pub (canonicalAnchorPayload e) rawSig)
                  then verdict sigVerdictInvalid "anchor signature does not verify against the trusted key"
                  else verdict sigVerdictOK ""
              end
          end
    end.

Definition anchor_good (trust : option exportTrustStore) (abs : result error string) (e : anchorEntry) : bool :=
  String.eqb (sv_Verdict (verifyAnchorEntrySignature e trust abs)) sigVerdictOK.

(** ** Loading the log *)

Definition anchorGroupOf : string -> Z * bool := groupOf an_AnchorSeq.
Definition serializeAnchorEntryBytes (e : anchorEntry) : string := serialize e.
Definition anchorDigestOf (e : anchorEntry) : string := hex_EncodeToString (Sum256 (canonicalAnchorPayload e)).

Definition load_anchor_line (acc : gmap Z anchorEntry * gset Z) (e : anchorEntry) : gmap Z anchorEntry * gset Z :=
  let '(latest, conflicted) := acc in
  let seq := an_AnchorSeq e in
  (<[seq := e]> latest,
   match latest !! seq with Some prev => if anchorPayloadEqual prev e then conflicted else {[ seq ]} ∪ conflicted | None => conflicted end).

(** Records that cannot be trusted, and the others by what they are about. *)
Definition judge_anchor (trust : option exportTrustStore) (abs : result error string) (acc : gmap Z anchorEntry * list anchorProblem) (e : anchorEntry)
  : gmap Z anchorEntry * list anchorProblem :=
  let '(byID, unusable) := acc in
  let v := verifyAnchorEntrySignature e trust abs in
  if negb (String.eqb (sv_Verdict v) sigVerdictOK)
  then (byID, unusable ++ [MkAnchorProblem (an_AnchorSeq e) (identityID e) (sv_Verdict v) (sv_Detail v)])
  else (<[identityID e := e]> byID, unusable).

Definition anchor_state_of (trust : option exportTrustStore) (abs : result error string) (es : list anchorEntry) : anchorState :=
  let '(all, conflicted) := foldl load_anchor_line (∅, ∅) es in
  let latest := base.filter (fun p => p.1 ∉ conflicted) all in
  let seqs := keys_of latest in
  let '(byID, unusable) := foldl (judge_anchor trust abs) (∅, []) (omap (fun seq => latest !! seq) seqs) in
  MkAnchorState latest byID unusable (sortInt64s (elements conflicted)) (window_of seqs) (Z.of_nat (length seqs)).

Definition loadAnchorStatePath (io : LogIO) (d : LogDisk) (trust : option exportTrustStore) (abs : result error string) : result error anchorState :=
  match readLogLines io anchorGroupOf d with
  | Err e => Err e
  | Ok (lines, ok) =>
      if negb ok
      then Err ("anchor log holds " +:+ pretty (countUnclassified lines) +:+ " unclassifiable line(s); refusing to evaluate it")
      else match decode_lines lines with
        | None => Err "anchor line is not readable"
        | Some es => Ok (anchor_state_of trust abs es)
        end
  end.

Definition nextAnchorSeqPath (io : LogIO) (d : LogDisk) (abs : result error string) : result error Z :=
  match loadAnchorStatePath io d None abs with
  | Err e => Err e
  | Ok st => if decide (as_latest st = ∅) then Ok 1 else Ok (wrap64 (lw_Max (as_window st) + 1))
  end.

(** ** Operations *)

Record Answer : Type := MkAnswer { rs_status : Z; rs_AckID : string; rs_Reason : string; rs_err : option error }.

#[export] Instance Answer_eq_dec : EqDecision Answer.
Proof. solve_decision. Defined.

Record anchorRequest : Type := MkRequest {
  rq_V : Z;
  rq_KeyID : string;
  rq_StreamID : string;
  rq_PublicationID : Z;
  rq_AnchorSeq : Z;
  rq_AnchorDigest : string;
  rq_ManifestDigest : string;
  rq_PrevPublicationID : Z;
  rq_PrevManifestDigest : string;
  rq_RecordedAt : string;
  rq_Sig : string }.

#[export] Instance anchorRequest_eq_dec : EqDecision anchorRequest.
Proof. solve_decision. Defined.

Inductive AnchorEvent : Type := Wrote (e : anchorEntry) | Sent (r : anchorRequest) (a : Answer).

#[export] Instance AnchorEvent_eq_dec : EqDecision AnchorEvent.
Proof. solve_decision. Defined.

(** The log, the state of the observer of its compactions, what was done. *)
Record AnchorWorld (W : Type) : Type := MkAnchorWorld { aw_disk : LogDisk; aw_obs : W; aw_events : list AnchorEvent }.
#[global] Arguments MkAnchorWorld {W}.
#[global] Arguments aw_disk {W}.
#[global] Arguments aw_obs {W}.
#[global] Arguments aw_events {W}.

Record AnchorConfig : Type := MkAnchorConfig {
  ac_enabled : bool;
  ac_signer : option exportSigner;
  ac_trust : option exportTrustStore;
  ac_abs : result error string;
  ac_capacity : Z;
  ac_maxAttempts : Z }.

Definition anchorMaxAttempts (c : AnchorConfig) : Z := if ac_maxAttempts c <=? 0 then 8 else ac_maxAttempts c.

Record AppendIO : Type := MkAppendIO { ap_read : LogIO; ap_append : LogIO; ap_load : LogIO; ap_compact : LogIO }.

Section Worlds.
Context {W : Type} (c : AnchorConfig).

(** The oldest record is not confirmed. *)
Definition oldest_unconfirmed (st : anchorState) : option anchorEntry :=
  match as_latest st !! lw_Min (as_window st) with
  | Some e => if String.eqb (an_State e) anchorStateAnchored then None else Some e
  | None => None
  end.

Definition compactAnchorPrefixPathObserved (observe : option (compactionObserver W)) (io : AppendIO) (w : AnchorWorld W) : AnchorWorld W * option error :=
  match loadAnchorStatePath (ap_load io) (aw_disk w) None (ac_abs c) with
  | Err e => (w, Some e)
  | Ok st =>
      if lw_Entries (as_window st) <=? ac_capacity c then (w, None)
      else match oldest_unconfirmed st with
        | Some e => (w, Some ("anchor capacity " +:+ pretty (ac_capacity c) +:+ " exceeded (" +:+ pretty (lw_Entries (as_window st)) +:+
            " groups) but seq " +:+ pretty (lw_Min (as_window st)) +:+ " is still " +:+ an_State e +:+ " — refusing to evict an unconfirmed group"))
        | None =>
            let '(states, obs, err) := compactLogPrefixGroupsObserved (ap_compact io) (aw_disk w) (aw_obs w) (ac_capacity c) anchorGroupOf observe in
            (MkAnchorWorld (final (aw_disk w) states) obs (aw_events w), err)
        end
  end.

Definition appendAnchorEntryPathObserved (observe : option (compactionObserver W)) (io : AppendIO) (e : anchorEntry) (w : AnchorWorld W) : AnchorWorld W * option error :=
  match readLogLines (ap_read io) anchorGroupOf (aw_disk w) with
  | Err err => (w, Some err)
  | Ok (lines, _) =>
      let mine := List.filter (fun l => ll_classified l && (ll_group l =? an_AnchorSeq e)) lines in
      match decode_lines mine with
      | None => (w, Some ("anchor line for seq " +:+ pretty (an_AnchorSeq e) +:+ " is not readable"))
      | Some es =>
          if (0 <? countUnclassified lines)%nat then
            (w, Some ("anchor log holds " +:+ pretty (countUnclassified lines) +:+
              " unclassifiable line(s); refusing to append — rewriting the file would silently discard that evidence"))
          else if from_option (fun prev => negb (anchorPayloadEqual prev e)) false (last es) then
            (w, Some ("anchor conflict: anchor_seq " +:+ pretty (an_AnchorSeq e) +:+ " already recorded with a different payload"))
          else
            let '(states, err) := appendLogLine (ap_append io) (aw_disk w) (serializeAnchorEntryBytes e) in
            match err with
            | Some _ => (MkAnchorWorld (final (aw_disk w) states) (aw_obs w) (aw_events w), err)
            | None =>
                let w := MkAnchorWorld (final (aw_disk w) states) (aw_obs w) (aw_events w ++ [Wrote e]) in
                if 0 <? ac_capacity c then compactAnchorPrefixPathObserved observe io w else (w, None)
            end
      end
  end.

(** ** Delivery *)

Record anchorDeliveryResult : Type := MkDelivery { dr_State : string; dr_Conflict : bool; dr_AckID : string; dr_Detail : string }.

Definition classifyAnchorResponse (a : Answer) : anchorDeliveryResult :=
  match rs_err a with
  | Some e => MkDelivery anchorStatePending false "" ("transport: " +:+ e)
  | None =>
      if rs_status a =? 409 then
        if String.eqb (rs_Reason a) "duplicate" then MkDelivery anchorStateAnchored false (rs_AckID a) "duplicate"
        else if String.eqb (rs_Reason a) "conflict" then MkDelivery "" true "" "witness reported a conflicting digest"
        else MkDelivery anchorStateUnanchored false "" ("witness refused (409, reason=" +:+ rs_Reason a +:+ ")")
      else if (200 <=? rs_status a) && (rs_status a <? 300) then
        if String.eqb (TrimSpace (rs_AckID a)) ""
        then MkDelivery anchorStatePending false "" (pretty (rs_status a) +:+ " without an ack_id — a response code is not a confirmation")
        else MkDelivery anchorStateAnchored false (rs_AckID a) ""
      else if 500 <=? rs_status a then MkDelivery anchorStatePending false "" ("witness " +:+ pretty (rs_status a))
      else MkDelivery anchorStateUnanchored false "" ("witness " +:+ pretty (rs_status a))
  end.

Definition request_of (e : anchorEntry) : anchorRequest :=
  let s := an_signed e in
  MkRequest 1 (ay_KeyID s) (ay_StreamID s) (ay_PublicationID s) (ay_AnchorSeq s) (anchorDigestOf e) (ay_ManifestDigest s) (ay_PrevPublicationID s)
    (ay_PrevManifestDigest s) (ay_RecordedAt s) (an_Sig e).

(** The line that follows an answer. *)
Definition advance (e : anchorEntry) (res : anchorDeliveryResult) (now : string) : anchorEntry :=
  let attempts := an_Attempts e + 1 in
  if String.eqb (dr_State res) anchorStateAnchored
  then MkAnchor (an_signed e) anchorStateAnchored attempts (dr_AckID res) (an_LastError e) now (an_Sig e)
  else if String.eqb (dr_State res) anchorStateUnanchored
  then MkAnchor (an_signed e) anchorStateUnanchored attempts (an_AckID e) (dr_Detail res) (an_AnchoredAt e) (an_Sig e)
  else if anchorMaxAttempts c <=? attempts
  then MkAnchor (an_signed e) anchorStateUnanchored attempts (an_AckID e)
         ("attempts exhausted (" +:+ pretty attempts +:+ "): " +:+ dr_Detail res) (an_AnchoredAt e) (an_Sig e)
  else MkAnchor (an_signed e) anchorStatePending attempts (an_AckID e) (dr_Detail res) (an_AnchoredAt e) (an_Sig e).

Record DispatchIO : Type := MkDispatchIO { di_answer : Answer; di_now : string; di_append : AppendIO }.

Definition with_event (w : AnchorWorld W) (ev : AnchorEvent) : AnchorWorld W := MkAnchorWorld (aw_disk w) (aw_obs w) (aw_events w ++ [ev]).

(** [dispatchAnchorPath], and [dispatchAnchorPathObserved], which differ by the
    observer. *)
Definition dispatchAnchorPath (observe : option (compactionObserver W)) (io : DispatchIO) (e : anchorEntry) (w : AnchorWorld W) : AnchorWorld W * option error :=
  let w := with_event w (Sent (request_of e) (di_answer io)) in
  let res := classifyAnchorResponse (di_answer io) in
  if dr_Conflict res
  then (w, Some ("anchor: witness reported a conflict for publication " +:+ pretty (ay_PublicationID (an_signed e)) +:+ " (seq " +:+
          pretty (an_AnchorSeq e) +:+ ")"))
  else
    let next := advance e res (di_now io) in
    match appendAnchorEntryPathObserved observe (di_append io) next w with
    | (w, Some err) => (w, Some err)
    | (w, None) =>
        if String.eqb (an_State next) anchorStateAnchored then (w, None)
        else (w, Some ("anchor: seq " +:+ pretty (an_AnchorSeq next) +:+ " is " +:+ an_State next +:+ " (attempt " +:+ pretty (an_Attempts next) +:+
               "): " +:+ an_LastError next))
    end.

(** Redelivery of what is pending, in the order of the sequence; [errs] are the
    errors of the steps. *)
Definition redeliver_one (observe : option (compactionObserver W)) (io : Z -> DispatchIO) (e : anchorEntry) (w : AnchorWorld W) : AnchorWorld W * option error :=
  if negb (String.eqb (an_State e) anchorStatePending) then (w, None)
  else if anchorMaxAttempts c <=? an_Attempts e then
    appendAnchorEntryPathObserved observe (di_append (io (an_AnchorSeq e)))
      (MkAnchor (an_signed e) anchorStateUnanchored (an_Attempts e) (an_AckID e) ("attempts exhausted (" +:+ pretty (an_Attempts e) +:+ ")")
        (an_AnchoredAt e) (an_Sig e)) w
  else dispatchAnchorPath observe (io (an_AnchorSeq e)) e w.

Fixpoint redeliver (observe : option (compactionObserver W)) (io : Z -> DispatchIO) (es : list anchorEntry) (w : AnchorWorld W) : AnchorWorld W * list error :=
  match es with
  | [] => (w, [])
  | e :: es =>
      let '(w, err) := redeliver_one observe io e w in
      let '(w, errs) := redeliver observe io es w in
      (w, option_list err ++ errs)
  end.

Definition in_order (st : anchorState) : list anchorEntry := omap (fun seq => as_latest st !! seq) (anchor_seqs st).

(** [anchorHousekeeping]; the last of the errors is what the status shows. *)
Definition anchorHousekeeping (load : LogIO) (io : Z -> DispatchIO) (w : AnchorWorld W) : AnchorWorld W * list error :=
  if negb (ac_enabled c) then (w, [])
  else match loadAnchorStatePath load (aw_disk w) (ac_trust c) (ac_abs c) with
    | Err e => (w, [e])
    | Ok st => redeliver None io (in_order st) w
    end.

(** [sweepAnchorDelivery] on one stream: a log with conflicts is left alone. *)
Definition sweep_stream (observe : option (compactionObserver W)) (load : LogIO) (io : Z -> DispatchIO) (w : AnchorWorld W) : AnchorWorld W * list error :=
  if negb (ac_enabled c) then (w, [])
  else match loadAnchorStatePath load (aw_disk w) (ac_trust c) (ac_abs c) with
    | Err e => (w, ["anchor log holds unclassifiable line(s); the stream is not swept: " +:+ e])
    | Ok st =>
        match as_conflicts st with
        | [] => redeliver observe io (in_order st) w
        | l => (w, ["anchor log holds " +:+ pretty (Z.of_nat (length l)) +:+ " conflicting anchor_seq(s); the stream is not swept"])
        end
    end.

(** ** Recording *)

Definition blank_signed (seq : Z) (at_ : string) : anchorSigned :=
  MkAnchorSigned 0 seq "" 0 "" at_ "" "" "" 0 "" "" "" 0 "" "" 0 "" "" 0 "" 0.

Definition fresh_anchor (s : anchorSigned) (state lastError : string) : anchorEntry := MkAnchor s state 0 "" lastError "" "".

Definition entryForAnchor (m : snapshotManifest) (seq : Z) (at_ : string) : result error anchorSigned :=
  match manifestDigest (Some m) with
  | Err e => Err e
  | Ok dg =>
      let '(prev, prevDigest) := match m_Chain m with Some ch => (mc_PrevPublicationID ch, mc_PrevManifestDigest ch) | None => (0, "") end in
      Ok (MkAnchorSigned (m_PublicationID m) seq dg prev prevDigest at_ "" "" "" 0 "" "" "" 0 "" "" 0 "" "" 0 "" 0)
  end.

Definition anchorBacklogBlocks (st : anchorState) (capacity : Z) : bool :=
  if (capacity <=? 0) || (lw_Entries (as_window st) <? capacity) then false else bool_decide (is_Some (oldest_unconfirmed st)).

Definition backlog_error (st : anchorState) : error :=
  "anchor capacity " +:+ pretty (ac_capacity c) +:+ " reached while seq " +:+ pretty (lw_Min (as_window st)) +:+ " is still " +:+
  from_option an_State "" (as_latest st !! lw_Min (as_window st)) +:+ " — refusing to evict an unconfirmed group".

Record RecordAnchorIO : Type := MkRecordAnchorIO { ri_next : LogIO; ri_gate : LogIO; ri_append : AppendIO; ri_dispatch : DispatchIO }.

(** Sign, write, hand over: what follows in each family. Only the compaction of the
    first line is observed, if at all. *)
Definition sign_and_dispatch (observe : option (compactionObserver W)) (io : RecordAnchorIO) (e : anchorEntry) (w : AnchorWorld W) : AnchorWorld W * option error :=
  match signAnchorEntry (ac_signer c) e (ac_abs c) with
  | Err err => (w, Some err)
  | Ok e =>
      match appendAnchorEntryPathObserved observe (ri_append io) e w with
      | (w, Some err) => (w, Some err)
      | (w, None) => dispatchAnchorPath None (ri_dispatch io) e w
      end
  end.

Definition record_unanchored (io : RecordAnchorIO) (s : anchorSigned) (why : string) (w : AnchorWorld W) : AnchorWorld W * option error :=
  match signAnchorEntry (ac_signer c) (fresh_anchor s anchorStateUnanchored why) (ac_abs c) with
  | Err err => (w, Some err)
  | Ok e =>
      match appendAnchorEntryPathObserved None (ri_append io) e w with
      | (w, Some err) => (w, Some err)
      | (w, None) => (w, Some ("anchor: " +:+ why))
      end
  end.

Definition recordAnchorEntry (observe : option (compactionObserver W)) (io : RecordAnchorIO) (m : snapshotManifest) (at_ : string) (w : AnchorWorld W) : AnchorWorld W * option error :=
  if negb (ac_enabled c) then (w, None)
  else match ac_signer c with
    | None => (w, Some "anchor: no signing key configured")
    | Some _ =>
        let v := verifyManifestSignature (Some m) (ac_trust c) in
        if negb (String.eqb (sv_Verdict v) sigVerdictOK)
        then (w, Some ("anchor: refusing to record publication " +:+ pretty (m_PublicationID m) +:+ " (" +:+ sv_Verdict v +:+ ")"))
        else match nextAnchorSeqPath (ri_next io) (aw_disk w) (ac_abs c) with
          | Err e => (w, Some e)
          | Ok seq =>
              match entryForAnchor m seq at_ with
              | Err e => (w, Some e)
              | Ok s =>
                  if 0 <? ac_capacity c then
                    match loadAnchorStatePath (ri_gate io) (aw_disk w) (ac_trust c) (ac_abs c) with
                    | Err e => (w, Some e)
                    | Ok st =>
                        if anchorBacklogBlocks st (ac_capacity c) then record_unanchored io s (backlog_error st) w
                        else sign_and_dispatch observe io (fresh_anchor s anchorStatePending "") w
                    end
                  else sign_and_dispatch observe io (fresh_anchor s anchorStatePending "") w
              end
          end
    end.

(** The producers of the other families, which have no gate. *)
Definition record_family (observe : option (compactionObserver W)) (body : Z -> string -> anchorSigned) (io : RecordAnchorIO) (at_ : string) (w : AnchorWorld W) : AnchorWorld W * option error :=
  if negb (ac_enabled c) || bool_decide (ac_signer c = None) then (w, None)
  else match nextAnchorSeqPath (ri_next io) (aw_disk w) (ac_abs c) with
    | Err e => (w, Some e)
    | Ok seq => sign_and_dispatch observe io (fresh_anchor (body seq at_) anchorStatePending "") w
    end.

Definition destruction_body (destructionSeq : Z) (entryDigest state : string) (seq : Z) (at_ : string) : anchorSigned :=
  MkAnchorSigned 0 seq "" 0 "" at_ "" "" anchorKindDestruction 0 "" "" "" 0 "" "" destructionSeq entryDigest state 0 "" 0.

Definition acceptance_body (entrySeq : Z) (entryDigest : string) (recordSeq : Z) (seq : Z) (at_ : string) : anchorSigned :=
  MkAnchorSigned 0 seq "" 0 "" at_ "" "" anchorKindAcceptance 0 "" "" "" 0 "" "" 0 "" "" entrySeq entryDigest recordSeq.

Definition lifecycle_body (eventSeq : Z) (eventDigest eventType notAfter : string) (seq : Z) (at_ : string) : anchorSigned :=
  MkAnchorSigned 0 seq "" 0 "" at_ "" "" anchorKindKeyLifecycle eventSeq eventDigest eventType notAfter 0 "" "" 0 "" "" 0 "" 0.
End Worlds.

(** ** The counts *)

Definition count_state (state : string) (es : list anchorEntry) : Z :=
  Z.of_nat (length (List.filter (fun e => String.eqb (an_State e) state) es)).

Definition summarizeAnchor (st : anchorState) : Z * Z * Z :=
  let es := map snd (map_to_list (as_latest st)) in
  (count_state anchorStateAnchored es, count_state anchorStatePending es, count_state anchorStateUnanchored es).

Record anchorDeliveryStreamStatus : Type := MkStreamStatus {
  ss_Present : bool;
  ss_Anchored : Z;
  ss_Unanchored : Z;
  ss_Pending : Z;
  ss_PendingRetryable : Z;
  ss_PendingExhausted : Z;
  ss_Conflicts : list Z;
  ss_OldestPendingRecordedAt : string;
  ss_LastUnanchoredReason : string;
  ss_Converged : bool;
  ss_Error : string }.

(** The first pending record with the earliest time that can be read. *)
Definition oldest_step (acc : string * Time) (e : anchorEntry) : string * Time :=
  match parse_instant (ay_RecordedAt (an_signed e)) with
  | Some t => if String.eqb (fst acc) "" || (t <? snd acc) then (ay_RecordedAt (an_signed e), t) else acc
  | None => acc
  end.

(** One row of [AnchorDeliveryStatus]. *)
Definition stream_status (c : AnchorConfig) (load : LogIO) (d : LogDisk) : anchorDeliveryStreamStatus :=
  let present := bool_decide (is_Some (ld_log d)) in
  match loadAnchorStatePath load d (ac_trust c) (ac_abs c) with
  | Err e => MkStreamStatus present 0 0 0 0 0 [] "" "" false e
  | Ok st =>
      let es := in_order st in
      let pending := List.filter (fun e => String.eqb (an_State e) anchorStatePending) es in
      let gone := List.filter (fun e => String.eqb (an_State e) anchorStateUnanchored) es in
      let exhausted := Z.of_nat (length (List.filter (fun e => anchorMaxAttempts c <=? an_Attempts e) pending)) in
      let err := match as_conflicts st with
        | [] => ""
        | l => "anchor log holds " +:+ pretty (Z.of_nat (length l)) +:+ " conflicting anchor_seq(s); the stream is not swept"
        end in
      MkStreamStatus present (count_state anchorStateAnchored es) (Z.of_nat (length gone)) (Z.of_nat (length pending))
        (Z.of_nat (length pending) - exhausted) exhausted (as_conflicts st) (fst (foldl oldest_step ("", zero_time) pending))
        (from_option an_LastError "" (last gone))
        ((length pending =? 0)%nat && bool_decide (as_conflicts st = []) && String.eqb err "") err
  end.

(** ** The witness that keeps a file *)

Record witnessItem : Type := MkWitness { wi_PublicationID : Z; wi_AnchorSeq : Z; wi_AnchorDigest : string; wi_KeyID : string; wi_StreamID : string }.

Definition item_of (r : anchorRequest) : witnessItem :=
  MkWitness (rq_PublicationID r) (rq_AnchorSeq r) (rq_AnchorDigest r) (rq_KeyID r) (rq_StreamID r).

(** [fileAnchorTransport.deliver]; [json], [parse]: a request as a line, and a line as
    an item; [ctx] and [mkdir] are the errors of the first two steps. *)
Definition file_deliver (json : anchorRequest -> string) (parse : string -> option witnessItem) (ctx mkdir : option error) (append read : LogIO)
    (d : LogDisk) (r : anchorRequest) : LogDisk * Answer :=
  let failed d e := (d, MkAnswer 0 "" "" (Some e)) in
  match ctx, mkdir with
  | Some e, _ => failed d e
  | None, Some e => failed d e
  | None, None =>
      let '(states, err) := appendLogLine append d (json r) in
      let d := final d states in
      match err with
      | Some e => failed d e
      | None =>
          let classify raw := match parse raw with Some w => (wi_AnchorSeq w, true) | None => (0, false) end in
          let n := match readLogLines read classify d with
            | Ok (lines, _) => Z.of_nat (length (List.filter (fun l => ll_group l =? rq_AnchorSeq r) lines))
            | Err _ => 0
            end in
          (d, MkAnswer 200 (pretty (rq_AnchorSeq r) +:+ "-" +:+ pretty (1 + n)) "" None)
      end
  end.

(** ** Reconciliation *)

Definition anchorVerdictAbsent : string := "anchor_absent".
Definition anchorVerdictOK : string := "anchor_ok".
Definition anchorVerdictIncomplete : string := "anchor_incomplete".
Definition anchorVerdictBroken : string := "anchor_broken".
Definition anchorVerdictUnverifiable : string := "anchor_unverifiable".

Definition anchorTrustNotProvided : string := "not_provided".
Definition anchorTrustUntrusted : string := "untrusted".
Definition anchorTrustDivergent : string := "divergent".
Definition anchorTrustAligned : string := "aligned".

Definition trustReasonForeignKey : string := "foreign_key_id".
Definition trustReasonForeignStrm : string := "foreign_stream".
Definition trustReasonNoOverlap : string := "no_overlap".
Definition trustReasonMalformed : string := "malformed_sequence".
Definition trustReasonNoWindow : string := "no_local_window".

Definition witnessStateWitnessed : string := "witnessed".
Definition witnessStateDigestMismatch : string := "digest_mismatch".
Definition witnessStateMissing : string := "missing_witness".
Definition witnessStateOrphan : string := "orphan_witness".
Definition witnessStateOutsideWindow : string := "witness_outside_window".
Definition witnessStateAheadOfWindow : string := "witness_ahead_of_window".
Definition witnessStateUnconfirmed : string := "witnessed_unconfirmed".
Definition witnessStateNotEvaluated : string := "not_evaluated".

Record anchorItemResult : Type := MkAnchorItem {
  ai_PublicationID : Z;
  ai_AnchorState : string;
  ai_AnchorSeq : Z;
  ai_AnchorDigest : string;
  ai_Witness : string }.

Record anchorReconcileResult : Type := MkReconcile {
  rr_Enabled : bool;
  rr_WitnessTrust : string;
  rr_TrustReason : string;
  rr_Verdict : string;
  rr_Window : option logWindow;
  rr_OrphanWitnessIDs : list Z;
  rr_OutsideWindowIDs : list Z;
  rr_AheadOfWindowIDs : list Z;
  rr_DivergentIDs : list Z;
  rr_MissingWitnessIDs : list Z;
  rr_MismatchIDs : list Z;
  rr_PendingIDs : list Z;
  rr_UnanchoredIDs : list Z;
  rr_UnusableIDs : list Z;
  rr_LocalEntries : Z;
  rr_AnchorError : string;
  rr_Items : list anchorItemResult }.

(** A record here and an item there are the same statement. *)
Definition agrees (e : anchorEntry) (w : witnessItem) : bool :=
  (wi_AnchorSeq w =? an_AnchorSeq e) && String.eqb (wi_AnchorDigest w) (anchorDigestOf e).

(** [walkAnchorUnion]: the state of one id. *)
Definition witness_state (window : logWindow) (loc : option anchorEntry) (wit : option witnessItem) : string :=
  match loc, wit with
  | Some e, Some w =>
      if String.eqb (an_State e) anchorStateAnchored then if agrees e w then witnessStateWitnessed else witnessStateDigestMismatch
      else witnessStateUnconfirmed
  | Some e, None => if String.eqb (an_State e) anchorStateAnchored then witnessStateMissing else witnessStateNotEvaluated
  | None, Some w =>
      if (lw_Min window <=? wi_AnchorSeq w) && (wi_AnchorSeq w <=? lw_Max window) then witnessStateOrphan
      else if wi_AnchorSeq w <? lw_Min window then witnessStateOutsideWindow
      else witnessStateAheadOfWindow
  | None, None => witnessStateNotEvaluated
  end.

Definition item_result (local : gmap Z anchorEntry) (id : Z) (state : string) : anchorItemResult :=
  match local !! id with
  | Some e => MkAnchorItem id (an_State e) (an_AnchorSeq e) (anchorDigestOf e) state
  | None => MkAnchorItem id "" 0 "" state
  end.

Definition union_ids (local : gmap Z anchorEntry) (witness : gmap Z witnessItem) : list Z :=
  sortInt64s (elements (dom local ∪ dom witness)).

Definition walkAnchorUnion (window : logWindow) (local : gmap Z anchorEntry) (witness : gmap Z witnessItem) : list anchorItemResult :=
  map (fun id => item_result local id (witness_state window (local !! id) (witness !! id))) (union_ids local witness).

Definition localItemsOnly (local : gmap Z anchorEntry) : list anchorItemResult :=
  map (fun id => item_result local id witnessStateNotEvaluated) (keys_of local).

(** The ids in a state of the witness, or of delivery. *)
Definition ids_in (state : string) (items : list anchorItemResult) : list Z :=
  map ai_PublicationID (List.filter (fun i => String.eqb (ai_Witness i) state) items).

Definition local_in (state : string) (local : gmap Z anchorEntry) : list Z :=
  List.filter (fun id => String.eqb (from_option an_State "" (local !! id)) state) (keys_of local).

Definition malformed_item (w : witnessItem) : bool :=
  (wi_PublicationID w <=? 0) || (wi_AnchorSeq w <=? 0) || String.eqb (TrimSpace (wi_AnchorDigest w)) "".

(** The first item that is not of this stream, and why. *)
Fixpoint foreign_item (id : anchorIdentity) (items : list witnessItem) : option string :=
  match items with
  | [] => None
  | w :: items =>
      if negb (knowsKey id (wi_KeyID w)) then Some trustReasonForeignKey
      else if negb (accepts id (wi_KeyID w) (wi_StreamID w)) then Some trustReasonForeignStrm
      else foreign_item id items
  end.

Definition witness_by_id (items : list witnessItem) : gmap Z witnessItem :=
  foldl (fun m w => <[wi_PublicationID w := w]> m) ∅ items.

(** The confirmed records that the witness holds too. *)
Definition shared_ids (local : gmap Z anchorEntry) (witness : gmap Z witnessItem) : list Z :=
  List.filter (fun id => bool_decide (is_Some (witness !! id))) (local_in anchorStateAnchored local).

Definition aligned_on (local : gmap Z anchorEntry) (witness : gmap Z witnessItem) (id : Z) : bool :=
  match local !! id, witness !! id with Some e, Some w => agrees e w | _, _ => false end.

(** What is reported of the log whatever the witness says. *)
Definition local_result (st : anchorState) (trust reason verdict err : string) (items : list anchorItemResult) : anchorReconcileResult :=
  MkReconcile true trust reason verdict (Some (as_window st)) [] [] [] [] [] [] (local_in anchorStatePending (as_byID st))
    (local_in anchorStateUnanchored (as_byID st)) (sortInt64s (map az_PublicationID (as_unusable st))) (lw_Entries (as_window st)) err items.

(** The result of the comparison. *)
Definition compared (st : anchorState) (trust : string) (divergent : list Z) (verdict : list anchorItemResult -> string)
    (witness : gmap Z witnessItem) : anchorReconcileResult :=
  let items := walkAnchorUnion (as_window st) (as_byID st) witness in
  MkReconcile true trust "" (verdict items) (Some (as_window st)) (ids_in witnessStateOrphan items) (ids_in witnessStateOutsideWindow items)
    (ids_in witnessStateAheadOfWindow items) divergent (ids_in witnessStateMissing items) (ids_in witnessStateDigestMismatch items)
    (local_in anchorStatePending (as_byID st)) (local_in anchorStateUnanchored (as_byID st))
    (sortInt64s (map az_PublicationID (as_unusable st))) (lw_Entries (as_window st)) "" items.

Definition some_ids (state : string) (items : list anchorItemResult) : bool := negb (bool_decide (ids_in state items = [])).

Definition aligned_verdict (st : anchorState) (items : list anchorItemResult) : string :=
  if some_ids witnessStateDigestMismatch items || some_ids witnessStateOrphan items || some_ids witnessStateAheadOfWindow items ||
     negb (lw_Continuous (as_window st)) then anchorVerdictBroken
  else if negb (bool_decide (local_in anchorStatePending (as_byID st) = [])) || negb (bool_decide (local_in anchorStateUnanchored (as_byID st) = [])) ||
     some_ids witnessStateMissing items || some_ids witnessStateOutsideWindow items then anchorVerdictIncomplete
  else anchorVerdictOK.

Definition nothing_compared (enabled : bool) (trust reason verdict err : string) : anchorReconcileResult :=
  MkReconcile enabled trust reason verdict None [] [] [] [] [] [] [] [] [] 0 err [].

Definition ReconcileAnchor (c : AnchorConfig) (load : LogIO) (d : LogDisk) (items : list witnessItem) : anchorReconcileResult :=
  if negb (ac_enabled c) then nothing_compared false anchorTrustNotProvided "" anchorVerdictAbsent ""
  else match loadAnchorStatePath load d (ac_trust c) (ac_abs c) with
    | Err e => nothing_compared true anchorTrustUntrusted trustReasonNoWindow anchorVerdictUnverifiable e
    | Ok st =>
        let refused reason err := local_result st anchorTrustUntrusted reason anchorVerdictUnverifiable err [] in
        match items with
        | [] =>
            local_result st anchorTrustNotProvided ""
              (if lw_Entries (as_window st) =? 0 then anchorVerdictAbsent else anchorVerdictIncomplete) "" (localItemsOnly (as_byID st))
        | _ =>
            if existsb malformed_item items then refused trustReasonMalformed ""
            else match deriveAnchorIdentity (ac_signer c) (ac_trust c) (ac_abs c) with
              | Err e => refused trustReasonNoWindow e
              | Ok id =>
                  match foreign_item id items with
                  | Some reason => refused reason ""
                  | None =>
                      let witness := witness_by_id items in
                      match shared_ids (as_byID st) witness with
                      | [] => refused trustReasonNoOverlap ""
                      | shared =>
                          if existsb (aligned_on (as_byID st) witness) shared
                          then compared st anchorTrustAligned [] (aligned_verdict st) witness
                          else compared st anchorTrustDivergent shared (fun _ => anchorVerdictBroken) witness
                      end
                  end
              end
        end
    end.
End Anchor.
