(* ===== verification/AnchorLog.v ===== *)
(** * The log of anchors, and what a witness proves by it

    The log of an undisturbed host: what its records look like after any number of
    publications and redeliveries, whatever the witness answers, and the comparison
    with what the witness has been sent. *)

From Stdlib Require Import Ascii.
From S2P Require Import Prelude GoStrings GoTime Manifest AppendLog Ledger SignedLog SchedulerConfig Anchor.

(** ** Logs as lists of entries *)

Definition trace (i : Z) (es : list anchorEntry) : list anchorEntry := base.filter (fun e => an_AnchorSeq e = i) es.

Definition written (evs : list AnchorEvent) : list anchorEntry := omap (fun ev => match ev with Wrote e => Some e | _ => None end) evs.

Definition order (es : list anchorEntry) : list Z := group_order ∅ (map (fun e => MkLogLine "" (an_AnchorSeq e) true) es).

Lemma group_order_ext seen ls ls' : map ll_group ls = map ll_group ls' -> group_order seen ls = group_order seen ls'.
Proof.
  revert seen ls'. induction ls as [|l ls IH]; intros seen [|l' ls'] E; try done. injection E as E1 E2. cbn. rewrite E1.
  case_decide; [by apply IH|]. f_equal. by apply IH.
Qed.

Lemma group_order_app seen a b :
  group_order seen (a ++ b) = group_order seen a ++ group_order (list_to_set (map ll_group a) ∪ seen) b.
Proof.
  revert seen. induction a as [|l a IH]; intros seen; cbn [app group_order map list_to_set].
  { by rewrite (left_id_L ∅ (∪)). }
  case_decide as Hs.
  - rewrite IH. do 2 f_equal. apply set_eq. intros x. rewrite !elem_of_union, elem_of_singleton. split; intros Hx; [destruct Hx as [?|?]|destruct Hx as [[->|?]|?]]; auto.
  - rewrite IH. cbn. do 2 f_equal. f_equal. apply set_eq. intros x. rewrite !elem_of_union, elem_of_singleton. tauto.
Qed.

Lemma order_groups es : map ll_group (map (fun e => MkLogLine "" (an_AnchorSeq e) true) es) = map an_AnchorSeq es.
Proof. rewrite map_map. done. Qed.

Lemma order_elem es i : i ∈ order es <-> i ∈ map an_AnchorSeq es.
Proof. unfold order. destruct (group_order_spec ∅ (map (fun e => MkLogLine "" (an_AnchorSeq e) true) es)) as [_ Ho]. rewrite Ho, order_groups. split; [tauto|]. intros Hi. split; [apply not_elem_of_empty|done]. Qed.

Lemma order_snoc_old es e : an_AnchorSeq e ∈ map an_AnchorSeq es -> order (es ++ [e]) = order es.
Proof.
  intros He. unfold order. rewrite map_app, group_order_app. cbn [map group_order ll_group]. rewrite decide_True; [apply app_nil_r|].
  apply elem_of_union_l, elem_of_list_to_set. by rewrite order_groups.
Qed.

Lemma order_snoc_new es e : ~ (an_AnchorSeq e ∈ map an_AnchorSeq es) -> order (es ++ [e]) = order es ++ [an_AnchorSeq e].
Proof.
  intros He. unfold order. rewrite map_app, group_order_app. cbn [map group_order ll_group]. rewrite decide_False; [done|].
  rewrite elem_of_union, elem_of_list_to_set, order_groups. intros [Hin|Hin%elem_of_empty]; done.
Qed.

Lemma trace_elem i es e : e ∈ trace i es <-> an_AnchorSeq e = i /\ e ∈ es.
Proof. unfold trace. by rewrite list_elem_of_filter. Qed.

Lemma trace_snoc i es e : trace i (es ++ [e]) = trace i es ++ (if decide (an_AnchorSeq e = i) then [e] else []).
Proof. unfold trace. rewrite filter_app, filter_cons, filter_nil. by case_decide. Qed.

Definition above (k : nat) (es : list anchorEntry) : list anchorEntry := base.filter (fun e => Z.of_nat k < an_AnchorSeq e) es.

Lemma above_elem k es e : e ∈ above k es <-> Z.of_nat k < an_AnchorSeq e /\ e ∈ es.
Proof. unfold above. by rewrite list_elem_of_filter. Qed.

Lemma trace_above i k es : Z.of_nat k < i -> trace i (above k es) = trace i es.
Proof.
  intros Hi. unfold trace, above. induction es as [|e es IH]; [done|]. rewrite (filter_cons _ e es). case_decide as Hk.
  - rewrite !filter_cons, IH. done.
  - rewrite filter_cons, IH. rewrite decide_False by lia. done.
Qed.

Lemma above_above k k' es : (k <= k')%nat -> above k' (above k es) = above k' es.
Proof. intros Hk. unfold above. rewrite list_filter_filter. apply list_filter_iff. intros e. lia. Qed.

Lemma above_snoc k es e : above k (es ++ [e]) = above k es ++ (if decide (Z.of_nat k < an_AnchorSeq e) then [e] else []).
Proof. unfold above. rewrite filter_app, filter_cons, filter_nil. by case_decide. Qed.

Lemma above_0 es : (forall e, e ∈ es -> 0 < an_AnchorSeq e) -> above 0 es = es.
Proof.
  intros He. unfold above. induction es as [|e es IH]; [done|]. rewrite filter_cons, decide_True by (apply He; by left).
  f_equal. apply IH. intros e' He'. apply He. by right.
Qed.

Lemma filter_seq k n m : (k <= m)%nat -> base.filter (fun i => Z.of_nat m < i) (map Z.of_nat (seq (S k) n)) = map Z.of_nat (seq (S m) (n - (m - k))).
Proof.
  revert k. induction n as [|n IH]; intros k Hk; [done|]. cbn [seq map]. rewrite filter_cons. case_decide as Hd.
  - assert (m = k) as -> by lia. replace (S n - (k - k))%nat with (S n) by lia. cbn [seq map]. f_equal.
    clear. assert (Hall : forall l : list Z, Forall (fun i => Z.of_nat k < i) l -> base.filter (fun i => Z.of_nat k < i) l = l).
    { induction 1 as [|x l Hx _ IH]; [done|]. rewrite filter_cons, decide_True by done. by f_equal. }
    apply Hall, Forall_forall. intros x Hx. apply list_elem_of_fmap in Hx as (y & -> & Hy). apply elem_of_seq in Hy. lia.
  - rewrite IH by lia. do 2 f_equal. lia.
Qed.

Lemma order_above k es : order (above k es) = base.filter (fun i => Z.of_nat k < i) (order es).
Proof.
  induction es as [|e es IH] using rev_ind; [done|]. rewrite above_snoc.
  destruct (decide (an_AnchorSeq e ∈ map an_AnchorSeq es)) as [Hin|Hin].
  - rewrite (order_snoc_old es e Hin). case_decide as Hk; [|by rewrite app_nil_r]. rewrite order_snoc_old; [done|].
    apply list_elem_of_fmap in Hin as (e' & E & He'). apply list_elem_of_fmap. exists e'. split; [done|]. apply above_elem. split; [lia|done].
  - rewrite (order_snoc_new es e Hin), filter_app, filter_cons, filter_nil. case_decide as Hk; [|by rewrite !app_nil_r].
    rewrite order_snoc_new, IH; [done|]. intros Hin'. apply Hin. apply list_elem_of_fmap in Hin' as (e' & E & He').
    apply above_elem in He' as [_ He']. apply list_elem_of_fmap. by exists e'.
Qed.

(** ** The state of a log *)

Definition uniform (es : list anchorEntry) : Prop :=
  forall e e', e ∈ es -> e' ∈ es -> an_AnchorSeq e = an_AnchorSeq e' -> an_signed e = an_signed e'.

Lemma latest_exact es : let '(latest, conflicted) := foldl load_anchor_line (∅, ∅) es in
  (forall i, latest !! i = last (trace i es)) /\ (uniform es -> conflicted = ∅).
Proof.
  induction es as [|e es IH] using rev_ind; [done|]. rewrite foldl_app. cbn [foldl].
  destruct (foldl load_anchor_line (∅, ∅) es) as [latest conflicted]. destruct IH as [IHl IHc]. cbn. split.
  - intros i. destruct (decide (i = an_AnchorSeq e)) as [->|Hi].
    + rewrite lookup_insert_eq, trace_snoc, decide_True by done. by rewrite last_snoc.
    + rewrite lookup_insert_ne by done. rewrite trace_snoc, decide_False, app_nil_r by congruence. apply IHl.
  - intros Hu. assert (Hc : conflicted = ∅).
    { apply IHc. intros a b Ha Hb. apply Hu; apply elem_of_app; by left. }
    rewrite Hc. rewrite IHl. destruct (last (trace (an_AnchorSeq e) es)) as [prev|] eqn:El; [|done].
    apply last_Some_elem_of in El. apply trace_elem in El as [Es Hp]. unfold anchorPayloadEqual. rewrite bool_decide_true; [done|].
    apply Hu; [apply elem_of_app; by left|apply elem_of_app; right; by left|done].
Qed.

Lemma sorted_seq k m : StronglySorted (sort_le Z.ltb) (map Z.of_nat (seq k m)).
Proof.
  revert k. induction m as [|m IH]; intros k; [constructor|]. cbn. constructor; [apply IH|].
  apply Forall_forall. intros x Hx. apply list_elem_of_fmap in Hx as (y & -> & Hy). apply elem_of_seq in Hy.
  unfold sort_le. apply Z.ltb_ge. lia.
Qed.

Lemma sortInt64s_exact l l' : StronglySorted (sort_le Z.ltb) l' -> l ≡ₚ l' -> sortInt64s l = l'.
Proof.
  intros Hs Hp. unfold sortInt64s. apply (sorted_perm_unique (sort_le Z.ltb)).
  - unfold sort_le. intros x y _ _ Hx%Z.ltb_ge Hy%Z.ltb_ge. lia.
  - apply sort_slice_sorted; intros x y; [|intros z]; rewrite ?Z.ltb_lt, ?Z.ltb_ge; lia.
  - done.
  - by rewrite sort_slice_perm.
Qed.

Lemma keys_of_seq {A} (m : gmap Z A) k n :
  (forall i, is_Some (m !! i) <-> i ∈ map Z.of_nat (seq k n)) -> keys_of m = map Z.of_nat (seq k n).
Proof.
  intros Hm. apply sortInt64s_exact; [apply sorted_seq|]. apply NoDup_Permutation; [apply NoDup_fst_map_to_list|apply nodup_seq|].
  intros i. rewrite <- Hm, (list_elem_of_fmap fst). split.
  - intros ([j x] & -> & Hj). apply elem_of_map_to_list in Hj. by exists x.
  - intros [x Hx]. exists (i, x). split; [done|]. by apply elem_of_map_to_list.
Qed.

Lemma last_trace_some i es : i ∈ map an_AnchorSeq es <-> is_Some (last (trace i es)).
Proof.
  rewrite last_is_Some. rewrite (list_elem_of_fmap an_AnchorSeq). split.
  - intros (e & -> & He) E. apply (not_elem_of_nil e). rewrite <- E. by apply trace_elem.
  - intros Hne. destruct (trace i es) as [|e tr] eqn:Et; [done|]. exists e.
    assert (He : e ∈ trace i es) by (rewrite Et; by left). apply trace_elem in He as [<- He]. done.
Qed.

(** The log of records [k+1 .. k+m]. *)
Section State.
Context `{HC : ManifestCrypto} {HF : KeyFiles} {HA : AnchorCodec}.
Context (trust : option exportTrustStore) (abs : result error string) (es : list anchorEntry) (k m : nat).
Context (Huni : uniform es) (Hord : order es = map Z.of_nat (seq (S k) m)).

Let st := anchor_state_of trust abs es.

Lemma order_range i : i ∈ map an_AnchorSeq es <-> Z.of_nat k < i <= Z.of_nat (k + m).
Proof using Hord.
  rewrite <- order_elem, Hord. rewrite (list_elem_of_fmap Z.of_nat). split.
  - intros (y & -> & Hy). apply elem_of_seq in Hy. lia.
  - intros Hi. exists (Z.to_nat i). split; [lia|]. apply elem_of_seq. lia.
Qed.

Lemma state_latest i : as_latest st !! i = last (trace i es).
Proof using Huni Hord.
  unfold st, anchor_state_of. pose proof (latest_exact es) as Hl. destruct (foldl load_anchor_line (∅, ∅) es) as [latest conflicted].
  destruct Hl as [Hl Hc]. rewrite (Hc Huni). destruct (foldl (judge_anchor trust abs) _ _). cbn.
  rewrite <- Hl. destruct (latest !! i) as [e|] eqn:E.
  - apply map_lookup_filter_Some. split; [done|]. cbn. apply not_elem_of_empty.
  - apply map_lookup_filter_None. by left.
Qed.

Lemma state_seqs : anchor_seqs st = map Z.of_nat (seq (S k) m).
Proof using Huni Hord.
  apply keys_of_seq. intros i. rewrite state_latest, <- last_trace_some, order_range. rewrite (list_elem_of_fmap Z.of_nat). split.
  - intros Hi. exists (Z.to_nat i). split; [lia|]. apply elem_of_seq. lia.
  - intros (y & -> & Hy). apply elem_of_seq in Hy. lia.
Qed.

Lemma state_conflicts : as_conflicts st = [].
Proof using Huni Hord.
  unfold st, anchor_state_of. pose proof (latest_exact es) as Hl. destruct (foldl load_anchor_line (∅, ∅) es) as [latest conflicted].
  destruct Hl as [_ Hc]. rewrite (Hc Huni). destruct (foldl (judge_anchor trust abs) _ _). cbn. by rewrite elements_empty.
Qed.

Lemma state_window : as_window st = window_of (anchor_seqs st).
Proof.
  unfold st, anchor_state_of, anchor_seqs. destruct (foldl load_anchor_line (∅, ∅) es) as [latest conflicted].
  by destruct (foldl (judge_anchor trust abs) _ _).
Qed.

Lemma state_window_exact : (0 < m)%nat -> as_window st = MkWindow (Z.of_nat k + 1) (Z.of_nat (k + m)) (Z.of_nat m) true.
Proof using Huni Hord. intros Hm. rewrite state_window, state_seqs. by apply window_seq. Qed.

Lemma state_entries : lw_Entries (as_window st) = Z.of_nat m.
Proof using Huni Hord.
  rewrite state_window, state_seqs. unfold window_of. destruct (map Z.of_nat (seq (S k) m)) as [|x l] eqn:E; apply (f_equal length) in E;
    rewrite length_map, length_seq in E; cbn [length lw_Entries] in *; [by rewrite E|by rewrite E].
Qed.

Lemma state_in_order e : e ∈ in_order st <-> exists i, last (trace i es) = Some e.
Proof using Huni Hord.
  unfold in_order. rewrite list_elem_of_omap. split.
  - intros (i & _ & Hi). exists i. by rewrite <- state_latest.
  - intros (i & Hi). exists i. rewrite state_latest. split; [|done]. apply keys_of_elem. rewrite state_latest, Hi. done.
Qed.

Lemma in_order_seqs : map an_AnchorSeq (in_order st) = map Z.of_nat (seq (S k) m).
Proof using Huni Hord.
  rewrite <- state_seqs. unfold in_order.
  assert (Hall : forall l, (forall i, i ∈ l -> is_Some (as_latest st !! i)) -> map an_AnchorSeq (omap (fun i => as_latest st !! i) l) = l).
  { induction l as [|i l IH]; intros Hl; [done|]. destruct (Hl i ltac:(by left)) as [e He].
    change (omap (fun i => as_latest st !! i) (i :: l)) with
      (match as_latest st !! i with Some y => y :: omap (fun i => as_latest st !! i) l | None => omap (fun i => as_latest st !! i) l end).
    rewrite He. cbn [map]. rewrite IH by (intros j Hj; apply Hl; by right). f_equal.
    rewrite state_latest in He. apply last_Some_elem_of, trace_elem in He. apply He. }
  apply Hall. intros i Hi. by apply keys_of_elem.
Qed.

End State.

(** ** The log on disk *)

Section Disk.
Context `{HC : ManifestCrypto} {HF : KeyFiles} {HA : AnchorCodec}.
Context {W : Type} (c : AnchorConfig).

Definition anchor_log (d : LogDisk) (es : list anchorEntry) : Prop := log_on an_AnchorSeq d es.

Lemma load_cases io d es trust abs : anchor_log d es ->
  loadAnchorStatePath io d trust abs = Ok (anchor_state_of trust abs es) \/ exists e, loadAnchorStatePath io d trust abs = Err e.
Proof.
  intros Hd. unfold loadAnchorStatePath, anchorGroupOf. destruct (log_on_reads an_AnchorSeq io d es Hd) as [Hr|(e & Hr & _)].
  - rewrite Hr. cbn [negb]. destruct (entry_lines an_AnchorSeq es (lo_fits _ _ _ Hd)) as (_ & _ & _ & Hdec). rewrite Hdec. by left.
  - rewrite Hr. right. by eexists.
Qed.

Lemma load_on io d es trust abs : anchor_log d es -> io_read io = None ->
  loadAnchorStatePath io d trust abs = Ok (anchor_state_of trust abs es).
Proof.
  intros Hd Hio. unfold loadAnchorStatePath, anchorGroupOf. rewrite (log_on_read an_AnchorSeq io d es Hd Hio). cbn [negb].
  destruct (entry_lines an_AnchorSeq es (lo_fits _ _ _ Hd)) as (_ & _ & _ & Hdec). by rewrite Hdec.
Qed.

Lemma mine_lines i es : Forall fits es ->
  decode_lines (List.filter (fun l => ll_classified l && (ll_group l =? i)) (map (entry_line an_AnchorSeq) es)) = Some (trace i es).
Proof.
  induction 1 as [|e es He _ IH]; [done|]. destruct (entry_line_group an_AnchorSeq e He) as [Hg Hc].
  cbn [map List.filter]. rewrite Hg, Hc. unfold trace. rewrite filter_cons. cbn [andb].
  destruct (Z.eqb_spec (an_AnchorSeq e) i) as [Hi|Hi]; [rewrite decide_True by done|by rewrite decide_False by done].
  unfold decode_lines in *. cbn [mapM]. change (ll_raw (entry_line an_AnchorSeq e)) with (line_json e). destruct He as [Hu _].
  rewrite line_roundtrip by done. cbn. by rewrite IH.
Qed.

(** The lines that a compaction to [C] records keeps. *)
Definition planned (C : Z) (es : list anchorEntry) : list anchorEntry :=
  let drop : gset Z := if C <? Z.of_nat (length (order es)) then list_to_set (take (Z.to_nat (Z.of_nat (length (order es)) - C)) (order es)) else ∅ in
  base.filter (fun e => an_AnchorSeq e ∉ drop) es.

Lemma filter_lines (drop : gset Z) es : Forall fits es ->
  base.filter (fun l => ll_group l ∉ drop) (map (entry_line an_AnchorSeq) es) =
  map (entry_line an_AnchorSeq) (base.filter (fun e => an_AnchorSeq e ∉ drop) es).
Proof.
  induction 1 as [|e es He _ IH]; [done|]. destruct (entry_line_group an_AnchorSeq e He) as [Hg _]. cbn [map].
  rewrite !filter_cons, Hg, IH. by case_decide.
Qed.

Lemma planned_lines C es : 0 < C -> Forall fits es ->
  snd (planLogPrefixDrop (map (entry_line an_AnchorSeq) es) C) = map (entry_line an_AnchorSeq) (planned C es).
Proof.
  intros HC0 Hf. unfold planLogPrefixDrop. destruct (Z.leb_spec C 0); [lia|]. cbn [snd].
  rewrite (group_order_ext ∅ _ (map (fun e => MkLogLine "" (an_AnchorSeq e) true) es)).
  - by apply filter_lines.
  - rewrite order_groups. apply (entry_lines an_AnchorSeq es Hf).
Qed.

Lemma compact_cases (observe : option (compactionObserver W)) io w w' err es :
  anchor_log (aw_disk w) es -> 0 < ac_capacity c -> compactAnchorPrefixPathObserved c observe io w = (w', err) ->
  aw_events w' = aw_events w /\
  (anchor_log (aw_disk w') es \/
   let st := anchor_state_of None (ac_abs c) es in
   ac_capacity c < lw_Entries (as_window st) /\ oldest_unconfirmed st = None /\ anchor_log (aw_disk w') (planned (ac_capacity c) es)).
Proof.
  intros Hd Hcap. unfold compactAnchorPrefixPathObserved.
  destruct (load_cases (ap_load io) (aw_disk w) es None (ac_abs c) Hd) as [->|[e ->]]; [|intros [= <- <-]; by auto].
  destruct (Z.leb_spec (lw_Entries (as_window (anchor_state_of None (ac_abs c) es))) (ac_capacity c)); [intros [= <- <-]; by auto|].
  destruct (oldest_unconfirmed _) eqn:Eo; [intros [= <- <-]; by auto|].
  destruct (compactLogPrefixGroupsObserved _ _ _ _ _ _) as [[states obs] cerr] eqn:Ec. intros [= <- <-]. cbn. split; [done|].
  destruct (log_on_reads an_AnchorSeq (ap_compact io) _ es Hd) as [Hr|(er & Hr & _)].
  - destruct (compaction_result _ _ _ _ _ _ _ _ _ _ Ec Hcap Hr) as (_ & _ & [[Hsame _]|Hnew]).
    + left. split; [rewrite Hsame; apply Hd|apply (lo_fits _ _ _ Hd)].
    + right. rewrite planned_lines in Hnew by (done || apply (lo_fits _ _ _ Hd)). split; [lia|]. split; [done|].
      split; [rewrite Hnew; done|]. unfold planned. apply filter_Forall, (lo_fits _ _ _ Hd).
  - unfold compactLogPrefixGroupsObserved, anchorGroupOf in Ec. rewrite Hr in Ec. destruct (Z.leb_spec (ac_capacity c) 0); [lia|].
    simplify_eq. by left.
Qed.

(** An append writes nothing and fails, or writes the line, after which the oldest
    records may be dropped. *)
Lemma append_cases (observe : option (compactionObserver W)) io e w w' err es :
  anchor_log (aw_disk w) es -> clean_io (ap_append io) ->
  (fits e \/ ~ (Wrote e ∈ aw_events w')) -> appendAnchorEntryPathObserved c observe io e w = (w', err) ->
  (aw_events w' = aw_events w /\ anchor_log (aw_disk w') es /\ err <> None) \/
  (aw_events w' = aw_events w ++ [Wrote e] /\ fits e /\
   (anchor_log (aw_disk w') (es ++ [e]) \/
    0 < ac_capacity c /\
    let st := anchor_state_of None (ac_abs c) (es ++ [e]) in
    ac_capacity c < lw_Entries (as_window st) /\ oldest_unconfirmed st = None /\ anchor_log (aw_disk w') (planned (ac_capacity c) (es ++ [e])))).
Proof.
  intros Hd Hio Hfit. unfold appendAnchorEntryPathObserved, anchorGroupOf.
  destruct (log_on_reads an_AnchorSeq (ap_read io) _ es Hd) as [Hr|(er & Hr & _)]; [|rewrite Hr; intros [= <- <-]; by left].
  rewrite Hr, mine_lines by apply (lo_fits _ _ _ Hd).
  case_match; [intros [= <- <-]; by left|]. case_match; [intros [= <- <-]; by left|].
  destruct (appendLogLine _ _ _) as [states aerr] eqn:Ea.
  pose proof (log_on_append an_AnchorSeq _ _ es e states aerr Hd Hio Ea) as Hlog.
  destruct aerr as [aerr|]; [intros [= <- <-]; by left|].
  set (w1 := MkAnchorWorld (final (aw_disk w) states) (aw_obs w) (aw_events w ++ [Wrote e])) in *.
  assert (Hin : forall w2, aw_events w2 = aw_events w1 -> w' = w2 -> fits e).
  { intros w2 E2 ->. destruct Hfit as [|Hn]; [done|]. destruct Hn. rewrite E2. apply elem_of_app. right. by left. }
  destruct (Z.ltb_spec 0 (ac_capacity c)) as [Hcap|Hcap].
  - intros Hc. assert (Hev : aw_events w' = aw_events w1).
    { clear -Hc. unfold compactAnchorPrefixPathObserved in Hc. repeat case_match; by simplify_eq. }
    assert (Hf : fits e) by (by apply (Hin w')).
    destruct (compact_cases observe io w1 w' err (es ++ [e]) (Hlog Hf) Hcap Hc) as (_ & Hcases). right. split; [done|]. split; [done|].
    destruct Hcases as [|(? & ? & ?)]; [by left|right; by auto].
  - intros [= <- <-]. right. assert (Hf : fits e) by (by apply (Hin w1)). split; [done|]. split; [done|]. left. by apply Hlog.
Qed.

End Disk.

(** ** Journals *)

Section Honest.
Context `{HC : ManifestCrypto} {HF : KeyFiles} {HA : AnchorCodec}.
Context {W : Type} (c : AnchorConfig) (observe : option (compactionObserver W)).

Definition delivery_states : list string := [anchorStatePending; anchorStateAnchored; anchorStateUnanchored].

(** The lines of one record: one statement, the attempts counted, pending until the
    last line, and an end to the attempts. *)
Record trace_ok (tr : list anchorEntry) : Prop := MkTraceOk {
  tr_same : forall e e', e ∈ tr -> e' ∈ tr -> an_signed e = an_signed e' /\ an_Sig e = an_Sig e';
  tr_counted : map an_Attempts tr = map Z.of_nat (seq 0 (length tr));
  tr_open : forall init e, tr = init ++ [e] -> Forall (fun e => an_State e = anchorStatePending) init;
  tr_last : forall e, last tr = Some e -> an_State e ∈ delivery_states /\ (an_State e = anchorStatePending -> an_Attempts e < anchorMaxAttempts c);
  tr_bound : Z.of_nat (length tr) <= anchorMaxAttempts c + 1 }.

Lemma max_positive : 0 < anchorMaxAttempts c.
Proof. unfold anchorMaxAttempts. destruct (Z.leb_spec (ac_maxAttempts c) 0); lia. Qed.

Lemma trace_start e : an_State e = anchorStatePending -> an_Attempts e = 0 -> trace_ok [e].
Proof.
  intros Hs Ha. pose proof max_positive as Hm. split.
  - intros x y Hx%list_elem_of_singleton Hy%list_elem_of_singleton. by subst.
  - cbn. by rewrite Ha.
  - intros init x E. destruct init as [|y [|]]; [constructor|by simplify_eq..].
  - intros x [= <-]. rewrite Hs. split; [left|]. intros _. lia.
  - cbn. lia.
Qed.

(** [e] follows [p]. *)
Definition follows (p e : anchorEntry) : Prop :=
  an_signed e = an_signed p /\ an_Sig e = an_Sig p /\ an_Attempts e = an_Attempts p + 1 /\ an_State p = anchorStatePending /\
  an_Attempts p < anchorMaxAttempts c /\ an_State e ∈ delivery_states /\ (an_State e = anchorStatePending -> an_Attempts e < anchorMaxAttempts c).

Lemma trace_attempts tr e : trace_ok tr -> last tr = Some e -> an_Attempts e = Z.of_nat (length tr) - 1.
Proof.
  intros Ht Hl. apply last_Some in Hl as [init ->]. pose proof (tr_counted _ Ht) as Hc. rewrite map_app, length_app, Nat.add_1_r, seq_S, map_app in Hc.
  apply (app_inj_tail (map an_Attempts init)) in Hc as [_ Hc]. rewrite length_app. cbn in *. lia.
Qed.

Lemma trace_extend tr p e : trace_ok tr -> last tr = Some p -> follows p e -> trace_ok (tr ++ [e]).
Proof.
  intros Ht Hl (Hs & Hg & Ha & Hp & Hlt & Hst & Hmax). pose proof (trace_attempts _ _ Ht Hl) as Hn.
  assert (Hp_in : p ∈ tr) by by apply last_Some_elem_of. split.
  - assert (Hall : forall x, x ∈ tr ++ [e] -> an_signed x = an_signed p /\ an_Sig x = an_Sig p).
    { intros x [Hx|Hx%list_elem_of_singleton]%elem_of_app; [by apply (tr_same _ Ht)|by subst]. }
    intros x y Hx Hy. destruct (Hall x Hx) as [-> ->], (Hall y Hy) as [-> ->]. done.
  - rewrite map_app, (tr_counted _ Ht), length_app, Nat.add_1_r, seq_S, map_app. cbn. do 2 f_equal. lia.
  - intros init x E. apply app_inj_tail in E as [<- <-]. apply last_Some in Hl as [init ->].
    apply Forall_app_2; [by apply (tr_open _ Ht init p)|by constructor].
  - intros x. rewrite last_snoc. intros [= <-]. done.
  - rewrite length_app. cbn. lia.
Qed.

(** What has been written, ever: records [1 .. n]. *)
Record journal (n : nat) (J : list anchorEntry) : Prop := MkJournal {
  jn_order : order J = map Z.of_nat (seq 1 n);
  jn_trace : forall i, i ∈ map an_AnchorSeq J -> trace_ok (trace i J);
  jn_good : forall e, e ∈ J -> anchor_good (ac_trust c) (ac_abs c) e = true /\ ay_Kind (an_signed e) = anchorKindPublication;
  jn_pubs : forall e e', e ∈ J -> e' ∈ J -> ay_PublicationID (an_signed e) = ay_PublicationID (an_signed e') -> an_AnchorSeq e = an_AnchorSeq e' }.

Lemma journal_range n J e : journal n J -> e ∈ J -> 0 < an_AnchorSeq e <= Z.of_nat n.
Proof.
  intros HJ He. assert (Hin : an_AnchorSeq e ∈ map an_AnchorSeq J) by (apply list_elem_of_fmap; by exists e).
  rewrite <- order_elem, (jn_order _ _ HJ) in Hin. apply list_elem_of_fmap in Hin as (y & -> & Hy). apply elem_of_seq in Hy. lia.
Qed.

Lemma journal_uniform n J : journal n J -> uniform J.
Proof.
  intros HJ e e' He He' E. assert (Hin : an_AnchorSeq e ∈ map an_AnchorSeq J) by (apply list_elem_of_fmap; by exists e).
  apply (tr_same _ (jn_trace _ _ HJ _ Hin)); apply trace_elem; [done|by rewrite E].
Qed.

Lemma uniform_above k J : uniform J -> uniform (above k J).
Proof. intros HJ e e' [_ He]%above_elem [_ He']%above_elem. by apply HJ. Qed.

Lemma journal_kept k n J : journal n J -> (k <= n)%nat -> order (above k J) = map Z.of_nat (seq (S k) (n - k)).
Proof. intros HJ Hk. rewrite order_above, (jn_order _ _ HJ), filter_seq by lia. do 2 f_equal. lia. Qed.

Lemma journal_nil : journal 0 [].
Proof. split; [done|intros e He|intros e He|intros e e' He]; by apply not_elem_of_nil in He. Qed.

Lemma journal_continue n J p e : journal n J -> last (trace (an_AnchorSeq p) J) = Some p -> follows p e -> journal n (J ++ [e]).
Proof.
  intros HJ Hp Hf. pose proof Hf as (Hs & Hg & _). assert (Hpj : p ∈ J) by (apply last_Some_elem_of, trace_elem in Hp; apply Hp).
  assert (Hseq : an_AnchorSeq e = an_AnchorSeq p) by (unfold an_AnchorSeq; by rewrite Hs).
  assert (Hin : an_AnchorSeq p ∈ map an_AnchorSeq J) by (apply list_elem_of_fmap; by exists p). split.
  - rewrite order_snoc_old by by rewrite Hseq. apply HJ.
  - intros i Hi. rewrite trace_snoc. case_decide as Hd.
    + rewrite Hseq in Hd. subst i. apply (trace_extend _ p); [by apply HJ|done|done].
    + rewrite app_nil_r. apply HJ. rewrite map_app in Hi. apply elem_of_app in Hi as [Hi|Hi%list_elem_of_singleton]; [done|]. by subst.
  - intros x [Hx|Hx%list_elem_of_singleton]%elem_of_app; [by apply HJ|]. subst x. destruct (jn_good _ _ HJ p Hpj) as [Hgood Hk].
    rewrite Hs. split; [|done]. unfold anchor_good, verifyAnchorEntrySignature, canonicalAnchorPayload, anchorSignedFields in *. by rewrite Hs, Hg.
  - assert (Hsame : forall x, x ∈ J ++ [e] -> exists y, y ∈ J /\ an_signed x = an_signed y).
    { intros x [Hx|Hx%list_elem_of_singleton]%elem_of_app; [by exists x|subst; by exists p]. }
    intros x y Hx Hy E. destruct (Hsame x Hx) as (x' & Hx' & Ex), (Hsame y Hy) as (y' & Hy' & Ey). unfold an_AnchorSeq in *.
    rewrite Ex, Ey in *. by apply (jn_pubs _ _ HJ).
Qed.

Lemma journal_new n J e : journal n J -> an_AnchorSeq e = Z.of_nat (S n) -> an_State e = anchorStatePending -> an_Attempts e = 0 ->
  anchor_good (ac_trust c) (ac_abs c) e = true -> ay_Kind (an_signed e) = anchorKindPublication ->
  (forall x, x ∈ J -> ay_PublicationID (an_signed x) <> ay_PublicationID (an_signed e)) -> journal (S n) (J ++ [e]).
Proof.
  intros HJ Hq Hs Ha Hg Hk Hnew.
  assert (Hfresh : ~ (an_AnchorSeq e ∈ map an_AnchorSeq J)).
  { intros (x & E & Hx)%list_elem_of_fmap. apply (journal_range _ _ _ HJ) in Hx. lia. } split.
  - rewrite order_snoc_new by done. by rewrite (jn_order _ _ HJ), Hq, seq_S, map_app.
  - intros i Hi. rewrite trace_snoc. case_decide as Hd.
    + assert (E : trace i J = []).
      { destruct (trace i J) as [|x tr] eqn:E; [done|]. assert (Hx : x ∈ trace i J) by (rewrite E; by left).
        apply trace_elem in Hx as [Ex Hx]. destruct Hfresh. rewrite Hd. apply list_elem_of_fmap. by exists x. }
      rewrite E. by apply trace_start.
    + rewrite app_nil_r. apply HJ. rewrite map_app in Hi. apply elem_of_app in Hi as [Hi|Hi%list_elem_of_singleton]; [done|]. by subst.
  - intros x [Hx|Hx%list_elem_of_singleton]%elem_of_app; [by apply HJ|by subst].
  - intros x y [Hx|Hx%list_elem_of_singleton]%elem_of_app [Hy|Hy%list_elem_of_singleton]%elem_of_app E; subst; [by apply (jn_pubs _ _ HJ)|..|done].
    + by destruct (Hnew x Hx).
    + by destruct (Hnew y Hy).
Qed.

(** Everything that was handed over had been written before. *)
Fixpoint sent_after (seen : list anchorEntry) (evs : list AnchorEvent) : Prop :=
  match evs with
  | [] => True
  | Wrote e :: evs => sent_after (seen ++ [e]) evs
  | Sent r _ :: evs => (exists e, e ∈ seen /\ r = request_of e) /\ sent_after seen evs
  end.

Lemma sent_after_app seen a b : sent_after seen (a ++ b) <-> sent_after seen a /\ sent_after (seen ++ written a) b.
Proof.
  revert seen. induction a as [|[e|r an] a IH]; intros seen; cbn [app sent_after].
  - cbn. rewrite app_nil_r. tauto.
  - rewrite IH. cbn. by rewrite <- app_assoc.
  - rewrite IH. cbn. tauto.
Qed.

Lemma written_app a b : written (a ++ b) = written a ++ written b.
Proof. unfold written. apply omap_app. Qed.

Record anchor_inv (k n : nat) (w : AnchorWorld W) : Prop := MkAnchorInv {
  av_log : anchor_log (aw_disk w) (above k (written (aw_events w)));
  av_journal : journal n (written (aw_events w));
  av_kept : n = 0%nat /\ k = 0%nat \/ (k < n)%nat;
  av_dropped : forall i e, 0 < i <= Z.of_nat k -> last (trace i (written (aw_events w))) = Some e -> an_State e = anchorStateAnchored;
  av_sent : sent_after [] (aw_events w) }.

Lemma planned_above k J C : order (above k J) = map Z.of_nat (seq (S k) (S (Z.to_nat C))) -> 0 < C -> planned C (above k J) = above (S k) J.
Proof.
  intros Ho HC0. unfold planned. rewrite Ho, length_map, length_seq. destruct (Z.ltb_spec C (Z.of_nat (S (Z.to_nat C)))); [|lia].
  replace (Z.to_nat (Z.of_nat (S (Z.to_nat C)) - C)) with 1%nat by lia. cbn [seq map take list_to_set].
  rewrite <- (above_above k (S k) J) by lia. unfold above at 2.
  assert (Hall : forall l, Forall (fun e => Z.of_nat k < an_AnchorSeq e) l ->
    base.filter (fun e => an_AnchorSeq e ∉ ({[Z.of_nat (S k)]} ∪ ∅ : gset Z)) l = base.filter (fun e => Z.of_nat (S k) < an_AnchorSeq e) l).
  { induction 1 as [|e l He _ IH]; [done|]. rewrite !filter_cons, IH. destruct (decide (Z.of_nat (S k) < an_AnchorSeq e)) as [Hd|Hd].
    - rewrite decide_True; [done|]. rewrite elem_of_union, elem_of_singleton. intros [E|E%elem_of_empty]; [lia|done].
    - rewrite decide_False; [done|]. intros Hn. apply Hn, elem_of_union_l, elem_of_singleton. lia. }
  apply Hall, Forall_forall. intros e He. apply above_elem in He as [He _]. exact He.
Qed.

(** One more line: nothing, or the line, and at most the oldest record gone. *)
Lemma anchor_append_step (obs : option (compactionObserver W)) io e w w' err k n n' :
  anchor_inv k n w -> (n <= n')%nat -> (0 < n')%nat -> journal n' (written (aw_events w) ++ [e]) -> Z.of_nat k < an_AnchorSeq e ->
  clean_io (ap_append io) -> (fits e \/ ~ (Wrote e ∈ aw_events w')) ->
  (0 < ac_capacity c -> Z.of_nat n' - Z.of_nat k <= ac_capacity c + 1) ->
  appendAnchorEntryPathObserved c obs io e w = (w', err) ->
  (aw_events w' = aw_events w /\ anchor_inv k n w' /\ err <> None) \/
  (aw_events w' = aw_events w ++ [Wrote e] /\ exists k', anchor_inv k' n' w' /\
   (k' = k \/ (0 < ac_capacity c < Z.of_nat n' - Z.of_nat k /\ k' = S k))).
Proof.
  intros Hw Hn Hn0 HJ Hke Hio Hfit Hcap Happ. set (J := written (aw_events w)) in *.
  destruct (append_cases c obs io e w w' err _ (av_log _ _ _ Hw) Hio Hfit Happ) as [(Hev & Hlog & Herr)|(Hev & _ & Hcases)].
  { left. split; [done|]. split; [|done]. destruct Hw. by split; rewrite ?Hev. }
  right. split; [done|].
  assert (HJ' : written (aw_events w') = J ++ [e]) by (rewrite Hev, written_app; done).
  assert (Habove : above k J ++ [e] = above k (J ++ [e])) by (rewrite above_snoc, decide_True by done; done).
  assert (Hkn : (k < n')%nat).
  { assert (He : e ∈ J ++ [e]) by (apply elem_of_app; right; by left). apply (journal_range _ _ _ HJ) in He. lia. }
  assert (Hsent : sent_after [] (aw_events w')) by (rewrite Hev; apply sent_after_app; split; [apply Hw|done]).
  assert (Hold : forall i x, 0 < i <= Z.of_nat k -> last (trace i (J ++ [e])) = Some x -> an_State x = anchorStateAnchored).
  { intros i x Hi. rewrite trace_snoc, decide_False, app_nil_r by lia. by apply (av_dropped _ _ _ Hw). }
  fold J in Hcases. rewrite Habove in Hcases. destruct Hcases as [Hlog|(Hc0 & Hlt & Hunc & Hlog)].
  - exists k. split; [|by left]. split; rewrite ?HJ'; try done. by right.
  - pose proof (journal_kept k n' _ HJ ltac:(lia)) as Hord. pose proof (uniform_above k _ (journal_uniform _ _ HJ)) as Huni.
    rewrite (state_entries None (ac_abs c) _ k (n' - k) Huni Hord) in Hlt. specialize (Hcap Hc0).
    assert (Hm : (n' - k)%nat = S (Z.to_nat (ac_capacity c))) by lia. rewrite Hm in Hord.
    rewrite (planned_above _ _ _ Hord Hc0) in Hlog.
    exists (S k). split; [|right; split; [lia|done]]. split; rewrite ?HJ'; try done; [by right; lia|].
    intros i x Hi Hx. destruct (decide (i <= Z.of_nat k)) as [Hik|Hik]; [by apply (Hold i x); [lia|]|].
    unfold oldest_unconfirmed in Hunc.
    rewrite (state_window_exact None (ac_abs c) _ k _ Huni Hord ltac:(lia)), (state_latest None (ac_abs c) _ k _ Huni Hord) in Hunc. cbn [lw_Min] in Hunc.
    rewrite trace_above in Hunc by lia. assert (i = Z.of_nat k + 1) as -> by lia. rewrite Hx in Hunc.
    destruct (String.eqb_spec (an_State x) anchorStateAnchored); done.
Qed.

(** ** Operations *)

Definition whole_events (evs : list AnchorEvent) : Prop := Forall fits (written evs).

Lemma fits_or evs evs' e : whole_events evs -> evs' `prefix_of` evs -> fits e \/ ~ (Wrote e ∈ evs').
Proof.
  intros Hf [r ->]. destruct (decide (Wrote e ∈ evs')) as [Hin|]; [left|by right].
  unfold whole_events in Hf. rewrite written_app in Hf. apply Forall_app in Hf as [Hf _]. rewrite Forall_forall in Hf. apply Hf.
  unfold written. apply list_elem_of_omap. exists (Wrote e). done.
Qed.

Lemma append_grows (obs : option (compactionObserver W)) io e w w' err : appendAnchorEntryPathObserved c obs io e w = (w', err) -> aw_events w `prefix_of` aw_events w'.
Proof.
  unfold appendAnchorEntryPathObserved, compactAnchorPrefixPathObserved. intros Ha.
  repeat (case_match; simplify_eq; cbn); first [reflexivity | apply prefix_app_r; reflexivity].
Qed.

Lemma dispatch_grows (obs : option (compactionObserver W)) io e w w' err : dispatchAnchorPath c obs io e w = (w', err) -> aw_events w `prefix_of` aw_events w'.
Proof.
  unfold dispatchAnchorPath. intros Hd. assert (Hs : forall ev, aw_events w `prefix_of` aw_events (with_event w ev)) by (intros ev; cbn; by apply prefix_app_r).
  case_match; [by simplify_eq|]. destruct (appendAnchorEntryPathObserved _ _ _ _ _) as [w1 aerr] eqn:Ea. apply append_grows in Ea.
  repeat case_match; simplify_eq; (etrans; [apply Hs|exact Ea]).
Qed.

Lemma redeliver_one_grows (obs : option (compactionObserver W)) io e w w' err : redeliver_one c obs io e w = (w', err) -> aw_events w `prefix_of` aw_events w'.
Proof.
  unfold redeliver_one. repeat case_match; [intros [= <- <-]; done|apply append_grows|apply dispatch_grows].
Qed.

Lemma redeliver_grows (obs : option (compactionObserver W)) io es w w' errs : redeliver c obs io es w = (w', errs) -> aw_events w `prefix_of` aw_events w'.
Proof.
  revert w w' errs. induction es as [|e es IH]; intros w w' errs; cbn [redeliver]; [by intros [= <- <-]|].
  destruct (redeliver_one c obs io e w) as [w1 e1] eqn:E1. destruct (redeliver c obs io es w1) as [w2 e2] eqn:E2. intros [= <- <-].
  etrans; [by eapply redeliver_one_grows|by eapply IH].
Qed.

Lemma advance_follows e res now : an_State e = anchorStatePending -> an_Attempts e < anchorMaxAttempts c -> follows e (advance c e res now).
Proof.
  intros Hs Ha. unfold follows, advance, delivery_states.
  destruct (String.eqb_spec (dr_State res) anchorStateAnchored); cbn; [split_and!; try done; by right; left|].
  destruct (String.eqb_spec (dr_State res) anchorStateUnanchored); cbn; [split_and!; try done; by do 2 right; left|].
  destruct (Z.leb_spec (anchorMaxAttempts c) (an_Attempts e + 1)); cbn; split_and!; try done; [by do 2 right; left|by left].
Qed.

Definition within_one (k n : nat) : Prop := 0 < ac_capacity c -> Z.of_nat n - Z.of_nat k <= ac_capacity c + 1.

Definition moved (k k' n : nat) : Prop := k' = k \/ (0 < ac_capacity c < Z.of_nat n - Z.of_nat k /\ k' = S k).

Definition clean_dispatch (io : DispatchIO) : Prop := clean_io (ap_append (di_append io)).

Definition same_others (i : Z) (J J' : list anchorEntry) : Prop := forall j, j <> i -> trace j J' = trace j J.

Lemma dispatch_step (obs : option (compactionObserver W)) io e w w' err k n evs :
  anchor_inv k n w -> last (trace (an_AnchorSeq e) (written (aw_events w))) = Some e -> an_State e = anchorStatePending ->
  Z.of_nat k < an_AnchorSeq e -> clean_dispatch io -> whole_events evs -> aw_events w' `prefix_of` evs -> within_one k n ->
  dispatchAnchorPath c obs io e w = (w', err) ->
  exists k', anchor_inv k' n w' /\ moved k k' n /\ same_others (an_AnchorSeq e) (written (aw_events w)) (written (aw_events w')).
Proof.
  intros Hw Hl Hs Hk Hio Hf Hpre Hone Hd. pose proof (av_journal _ _ _ Hw) as HJ.
  assert (Hej : e ∈ written (aw_events w)) by (apply last_Some_elem_of, trace_elem in Hl; apply Hl).
  assert (Ha : an_Attempts e < anchorMaxAttempts c).
  { apply (tr_last (trace (an_AnchorSeq e) (written (aw_events w)))); [|done|done]. apply HJ. apply list_elem_of_fmap. by exists e. }
  unfold dispatchAnchorPath in Hd. set (w1 := with_event w (Sent (request_of e) (di_answer io))) in *.
  assert (Hw1 : written (aw_events w1) = written (aw_events w)) by (cbn; rewrite written_app; cbn; apply app_nil_r).
  assert (Hinv1 : anchor_inv k n w1).
  { destruct Hw. split; rewrite ?Hw1; try done. cbn. apply sent_after_app. split; [done|]. cbn. split; [|done]. by exists e. }
  destruct (dr_Conflict _); [simplify_eq; exists k; split_and!; [done|by left|by rewrite Hw1]|].
  pose proof (advance_follows e (classifyAnchorResponse (di_answer io)) (di_now io) Hs Ha) as Hfol.
  set (next := advance c e _ _) in *. assert (Hseq : an_AnchorSeq next = an_AnchorSeq e) by (unfold an_AnchorSeq; by rewrite (proj1 Hfol)).
  destruct (appendAnchorEntryPathObserved c obs (di_append io) next w1) as [w2 aerr] eqn:Ea.
  assert (w' = w2) as -> by (repeat case_match; by simplify_eq). clear Hd.
  pose proof (journal_range _ _ _ HJ Hej) as Hr.
  assert (HJ' : journal n (written (aw_events w1) ++ [next])) by (rewrite Hw1; by apply (journal_continue _ _ e)).
  destruct (anchor_append_step _ _ _ _ _ _ k n n Hinv1 ltac:(lia) ltac:(lia) HJ' ltac:(by rewrite Hseq) Hio (fits_or _ _ _ Hf Hpre) Hone Ea) as
    [(Hev & Hinv & _)|(Hev & k' & Hinv & Hk')].
  - exists k. rewrite Hev, Hw1. split_and!; [done|by left|done].
  - exists k'. split_and!; [done|exact Hk'|]. intros j Hj. rewrite Hev, written_app, Hw1. cbn [written]. change (written [Wrote next]) with [next].
    rewrite trace_snoc, decide_False, app_nil_r by congruence. done.
Qed.

Lemma redeliver_step (obs : option (compactionObserver W)) io es w w' errs k n evs :
  anchor_inv k n w -> (0 < ac_capacity c -> Z.of_nat n - Z.of_nat k <= ac_capacity c) -> NoDup (map an_AnchorSeq es) ->
  (forall e, e ∈ es -> last (trace (an_AnchorSeq e) (written (aw_events w))) = Some e /\ Z.of_nat k < an_AnchorSeq e) ->
  (forall i, clean_dispatch (io i)) -> whole_events evs -> aw_events w' `prefix_of` evs ->
  redeliver c obs io es w = (w', errs) -> anchor_inv k n w'.
Proof.
  intros Hw Hcap. revert w w' errs Hw. induction es as [|e es IH]; intros w w' errs Hw Hnd Hes Hio Hf Hpre; cbn [redeliver]; [by intros [= <- <-]|].
  destruct (redeliver_one c obs io e w) as [w1 e1] eqn:E1. destruct (redeliver c obs io es w1) as [w2 e2] eqn:E2. intros [= <- <-].
  apply NoDup_cons in Hnd as [Hne Hnd]. destruct (Hes e ltac:(by left)) as [Hl Hk].
  assert (Hpre1 : aw_events w1 `prefix_of` evs) by (etrans; [by eapply redeliver_grows|done]).
  assert (Hej : e ∈ written (aw_events w)) by (apply last_Some_elem_of, trace_elem in Hl; apply Hl).
  assert (Hstep : anchor_inv k n w1 /\ same_others (an_AnchorSeq e) (written (aw_events w)) (written (aw_events w1))).
  { unfold redeliver_one in E1. destruct (String.eqb_spec (an_State e) anchorStatePending) as [Hs|Hs]; cbn [negb] in E1; [|by simplify_eq].
    assert (Ha : an_Attempts e < anchorMaxAttempts c).
    { apply (tr_last (trace (an_AnchorSeq e) (written (aw_events w)))); [|done|done]. apply (av_journal _ _ _ Hw). apply list_elem_of_fmap. by exists e. }
    destruct (Z.leb_spec (anchorMaxAttempts c) (an_Attempts e)); [lia|].
    destruct (dispatch_step _ _ _ _ _ _ k n evs Hw Hl Hs Hk (Hio _) Hf Hpre1 ltac:(intros HC0; specialize (Hcap HC0); lia) E1) as (k' & Hinv & Hm & Hsame).
    destruct Hm as [->|[Hm _]]; [done|]. specialize (Hcap ltac:(lia)). lia. }
  destruct Hstep as [Hw1 Hsame]. eapply (IH w1 w2 e2); try done. intros x Hx. destruct (Hes x ltac:(by right)) as [Hlx Hkx]. split; [|done].
  rewrite Hsame; [done|]. intros E. apply Hne. rewrite <- E. apply list_elem_of_fmap. by exists x.
Qed.

(** The capacity is kept to. *)
Definition within_capacity (w : AnchorWorld W) : bool :=
  (ac_capacity c <=? 0) || match loadAnchorStatePath io_ok (aw_disk w) None (ac_abs c) with
    | Ok st => lw_Entries (as_window st) <=? ac_capacity c
    | Err _ => false
    end.

Lemma inv_entries trust k n w : anchor_inv k n w ->
  lw_Entries (as_window (anchor_state_of trust (ac_abs c) (above k (written (aw_events w))))) = Z.of_nat n - Z.of_nat k.
Proof.
  intros Hw. pose proof (av_journal _ _ _ Hw) as HJ. assert (Hk : (k <= n)%nat) by (destruct (av_kept _ _ _ Hw) as [[-> ->]|]; lia).
  rewrite (state_entries trust (ac_abs c) _ k (n - k) (uniform_above _ _ (journal_uniform _ _ HJ)) (journal_kept _ _ _ HJ Hk)). lia.
Qed.

Lemma within_inv k n w : anchor_inv k n w -> within_capacity w = true -> 0 < ac_capacity c -> Z.of_nat n - Z.of_nat k <= ac_capacity c.
Proof.
  intros Hw Hin HC0. unfold within_capacity in Hin. destruct (Z.leb_spec (ac_capacity c) 0); [lia|]. cbn [orb] in Hin.
  rewrite (load_on io_ok _ _ None (ac_abs c) (av_log _ _ _ Hw) eq_refl), (inv_entries None _ _ _ Hw) in Hin. by apply Z.leb_le in Hin.
Qed.

Lemma group_order_length seen ls : (length (group_order seen ls) <= length ls)%nat.
Proof. revert seen. induction ls as [|l ls IH]; intros seen; cbn; [lia|]. case_decide; cbn; [specialize (IH seen)|specialize (IH ({[ll_group l]} ∪ seen))]; lia. Qed.

Lemma journal_short n J : journal n J -> (n <= length J)%nat.
Proof.
  intros HJ. pose proof (f_equal length (jn_order _ _ HJ)) as E. rewrite length_map, length_seq in E. rewrite <- E. unfold order.
  etrans; [apply group_order_length|]. by rewrite length_map.
Qed.

Lemma written_length evs : (length (written evs) <= length evs)%nat.
Proof.
  induction evs as [|[e|r a] evs IH]; [done|change (written (Wrote e :: evs)) with (e :: written evs)|
    change (written (Sent r a :: evs)) with (written evs)]; cbn [length]; lia.
Qed.

Lemma next_seq io k n w seq : anchor_inv k n w -> Z.of_nat (length (aw_events w)) < max_int64 ->
  nextAnchorSeqPath io (aw_disk w) (ac_abs c) = Ok seq -> seq = Z.of_nat (S n).
Proof.
  intros Hw Hlen Hnext. unfold nextAnchorSeqPath in Hnext. pose proof (av_journal _ _ _ Hw) as HJ.
  destruct (load_cases io _ _ None (ac_abs c) (av_log _ _ _ Hw)) as [Hl|[e Hl]]; rewrite Hl in Hnext; [|done].
  assert (Hk : (k <= n)%nat) by (destruct (av_kept _ _ _ Hw) as [[-> ->]|]; lia).
  pose proof (journal_kept _ _ _ HJ Hk) as Hord. pose proof (uniform_above k _ (journal_uniform _ _ HJ)) as Huni.
  destruct (av_kept _ _ _ Hw) as [[-> ->]|Hkn].
  - rewrite decide_True in Hnext; [by simplify_eq|]. apply map_empty. intros i. rewrite (state_latest None (ac_abs c) _ 0 _ Huni Hord).
    destruct (last (trace i _)) as [e|] eqn:E; [|done]. apply last_Some_elem_of, trace_elem in E as [_ E]. apply above_elem in E as [_ E].
    apply (journal_range _ _ _ HJ) in E. lia.
  - rewrite (state_window_exact None (ac_abs c) _ k _ Huni Hord ltac:(lia)) in Hnext. cbn [lw_Max] in Hnext.
    pose proof (journal_short _ _ HJ) as Hs. pose proof (written_length (aw_events w)) as Hs2.
    rewrite wrap64_id in Hnext by (unfold in_int64, min_int64, max_int64 in *; lia). case_decide as He; [|injection Hnext as <-; lia].
    exfalso. assert (Hin : Z.of_nat n ∈ map an_AnchorSeq (above k (written (aw_events w)))).
    { rewrite <- order_elem, Hord. apply list_elem_of_fmap. exists n. split; [done|]. apply elem_of_seq. lia. }
    apply last_trace_some in Hin as [x Hx]. rewrite <- (state_latest None (ac_abs c) _ k _ Huni Hord), He in Hx. done.
Qed.

(** ** A host that signs for its own stream *)

Record own_stream (s : exportSigner) (sid : string) : Prop := MkOwn {
  ow_signer : ac_signer c = Some s;
  ow_size : es_priv_size s = true;
  ow_key : es_keyID s <> "";
  ow_stream : streamIDForPublicKey (Public (es_priv s)) (ac_abs c) = Ok sid;
  ow_named : sid <> "";
  ow_trusted : trusted_keys (ac_trust c) !! es_keyID s = Some (Public (es_priv s)) }.

Lemma signed_good s sid e e' : own_stream s sid -> signAnchorEntry (ac_signer c) e (ac_abs c) = Ok e' ->
  anchor_good (ac_trust c) (ac_abs c) e' = true /\ an_signed e' = with_stream (an_signed e) (es_keyID s) sid /\
  an_State e' = an_State e /\ an_Attempts e' = an_Attempts e.
Proof.
  intros [Hs Hz Hk Hst Hn Ht]. unfold signAnchorEntry, streamIDFor. rewrite Hs, Hz, Hst. cbn [negb]. intros [= <-]. cbn. split; [|done].
  unfold anchor_good, verifyAnchorEntrySignature, canonicalAnchorPayload, anchorSignedFields. cbn.
  rewrite (proj2 (String.eqb_neq _ _) (sign_nonempty _ _)), (proj2 (String.eqb_neq _ _) Hk), (proj2 (String.eqb_neq _ _) Hn). cbn [orb].
  rewrite base64_roundtrip. rewrite decide_False by (intros E; by rewrite E in Ht). rewrite Ht, Hst, String.eqb_refl. cbn [negb].
  rewrite verify_sign. done.
Qed.

Record clean_record (io : RecordAnchorIO) : Prop := MkCleanRecord { cr_append : clean_io (ap_append (ri_append io)); cr_dispatch : clean_dispatch (ri_dispatch io) }.

Definition new_publication (w : AnchorWorld W) (id : Z) : Prop := forall x, x ∈ written (aw_events w) -> ay_PublicationID (an_signed x) <> id.

Lemma with_stream_seq a kid sid : ay_AnchorSeq (with_stream a kid sid) = ay_AnchorSeq a /\ ay_PublicationID (with_stream a kid sid) = ay_PublicationID a /\
  ay_Kind (with_stream a kid sid) = ay_Kind a.
Proof. done. Qed.

Lemma sign_and_dispatch_grows (obs : option (compactionObserver W)) io e w w' err : sign_and_dispatch c obs io e w = (w', err) -> aw_events w `prefix_of` aw_events w'.
Proof.
  unfold sign_and_dispatch. destruct (signAnchorEntry _ _ _); [|by intros [= <- <-]].
  destruct (appendAnchorEntryPathObserved _ _ _ _ _) as [w1 [aerr|]] eqn:Ea; apply append_grows in Ea; [by intros [= <- <-]|].
  intros Hd. apply dispatch_grows in Hd. by etrans.
Qed.

Lemma record_new s sid io sg w w' err k n evs :
  own_stream s sid -> anchor_inv k n w -> (0 < ac_capacity c -> Z.of_nat n - Z.of_nat k <= ac_capacity c) -> clean_record io ->
  ay_AnchorSeq sg = Z.of_nat (S n) -> ay_Kind sg = anchorKindPublication -> new_publication w (ay_PublicationID sg) ->
  whole_events evs -> aw_events w' `prefix_of` evs ->
  sign_and_dispatch c observe io (fresh_anchor sg anchorStatePending "") w = (w', err) -> exists k' n', anchor_inv k' n' w'.
Proof.
  intros Hown Hw Hcap [Hio Hdio] Hseq Hkind Hpub Hf Hpre Hr. pose proof (av_journal _ _ _ Hw) as HJ. unfold sign_and_dispatch in Hr.
  destruct (signAnchorEntry _ _ _) as [e|serr] eqn:Es; [|simplify_eq; by exists k, n].
  destruct (signed_good _ _ _ _ Hown Es) as (Hgood & Hbody & Hst & Hat). cbn in Hbody, Hst, Hat.
  assert (Heq : an_AnchorSeq e = Z.of_nat (S n)) by (unfold an_AnchorSeq; by rewrite Hbody).
  assert (HJ' : journal (S n) (written (aw_events w) ++ [e])).
  { apply journal_new; try done; [by rewrite Hbody|]. intros x Hx. rewrite Hbody. by apply Hpub. }
  assert (Hk : (k <= n)%nat) by (destruct (av_kept _ _ _ Hw) as [[-> ->]|]; lia).
  destruct (appendAnchorEntryPathObserved c observe (ri_append io) e w) as [w1 aerr] eqn:Ea.
  assert (Hpre1 : aw_events w1 `prefix_of` evs).
  { destruct aerr as [aerr|]; [by simplify_eq|]. apply dispatch_grows in Hr. by etrans. }
  destruct (anchor_append_step _ _ _ _ _ _ k n (S n) Hw ltac:(lia) ltac:(lia) HJ' ltac:(lia) Hio (fits_or _ _ _ Hf Hpre1)
    ltac:(intros HC0; specialize (Hcap HC0); lia) Ea) as [(Hev & Hinv & Herr)|(Hev & k1 & Hinv & Hk1)].
  - destruct aerr as [aerr|]; [|done]. simplify_eq. by exists k, n.
  - destruct aerr as [aerr|]; [simplify_eq; by exists k1, (S n)|].
    assert (Hw1 : written (aw_events w1) = written (aw_events w) ++ [e]) by (rewrite Hev, written_app; done).
    assert (Hlast : last (trace (an_AnchorSeq e) (written (aw_events w1))) = Some e).
    { rewrite Hw1, trace_snoc, decide_True by done. by rewrite last_snoc. }
    destruct (dispatch_step None (ri_dispatch io) e w1 w' err k1 (S n) evs Hinv Hlast Hst ltac:(destruct Hk1 as [->|[? ->]]; lia) Hdio Hf Hpre
      ltac:(intros HC0; specialize (Hcap HC0); destruct Hk1 as [->|[? ->]]; lia) Hr) as (k' & Hinv' & _).
    by exists k', (S n).
Qed.

(** A record refused for the backlog leaves more than the capacity. *)
Lemma record_blocked s sid io sg why w w' err k n :
  own_stream s sid -> anchor_inv k n w -> clean_record io -> ay_AnchorSeq sg = Z.of_nat (S n) -> ay_Kind sg = anchorKindPublication ->
  anchorBacklogBlocks (anchor_state_of (ac_trust c) (ac_abs c) (above k (written (aw_events w)))) (ac_capacity c) = true ->
  whole_events (aw_events w') ->
  record_unanchored c io sg why w = (w', err) -> within_capacity w' = true -> exists k' n', anchor_inv k' n' w'.
Proof.
  intros Hown Hw [Hio _] Hseq Hkind Hblock Hf Hr Hin. pose proof (av_journal _ _ _ Hw) as HJ. unfold record_unanchored in Hr.
  destruct (signAnchorEntry _ _ _) as [e|serr] eqn:Es; [|simplify_eq; by exists k, n].
  destruct (signed_good _ _ _ _ Hown Es) as (_ & Hbody & _ & _). cbn in Hbody.
  assert (Heq : an_AnchorSeq e = Z.of_nat (S n)) by (unfold an_AnchorSeq; by rewrite Hbody).
  destruct (appendAnchorEntryPathObserved c None (ri_append io) e w) as [w1 aerr] eqn:Ea.
  assert (w' = w1) as -> by (destruct aerr; by simplify_eq). clear Hr.
  destruct (append_cases c None _ _ _ _ _ _ (av_log _ _ _ Hw) Hio (fits_or _ _ _ Hf ltac:(done)) Ea) as [(Hev & Hlog & _)|(Hev & _ & Hcases)].
  { exists k, n. destruct Hw. by split; rewrite ?Hev. }
  exfalso. unfold anchorBacklogBlocks in Hblock. destruct (Z.leb_spec (ac_capacity c) 0) as [|HC0]; [done|]. cbn [orb] in Hblock.
  rewrite (inv_entries (ac_trust c) _ _ _ Hw) in Hblock. destruct (Z.ltb_spec (Z.of_nat n - Z.of_nat k) (ac_capacity c)) as [|Hge]; [done|].
  assert (Hk : (k < n)%nat) by (destruct (av_kept _ _ _ Hw) as [[-> ->]|]; lia).
  pose proof (journal_kept _ _ _ HJ (Nat.lt_le_incl _ _ Hk)) as Hord. pose proof (uniform_above k _ (journal_uniform _ _ HJ)) as Huni.
  set (es := above k (written (aw_events w))) in *.
  assert (Hnew : ~ (an_AnchorSeq e ∈ map an_AnchorSeq es)).
  { rewrite (order_range es k (n - k) Hord), Heq. lia. }
  assert (Hord' : order (es ++ [e]) = map Z.of_nat (seq (S k) (S (n - k)))).
  { rewrite order_snoc_new, Hord, Heq, seq_S, map_app by done. do 3 f_equal. cbn. f_equal. lia. }
  assert (Huni' : uniform (es ++ [e])).
  { intros x y [Hx|Hx%list_elem_of_singleton]%elem_of_app [Hy|Hy%list_elem_of_singleton]%elem_of_app E; subst; [by apply Huni|..|done];
      destruct Hnew; apply list_elem_of_fmap; [exists x|exists y]; done. }
  destruct Hcases as [Hlog|(_ & _ & Hunc & _)].
  - unfold within_capacity in Hin. destruct (Z.leb_spec (ac_capacity c) 0); [lia|]. cbn [orb] in Hin.
    rewrite (load_on io_ok _ _ None (ac_abs c) Hlog eq_refl), (state_entries None (ac_abs c) _ k _ Huni' Hord') in Hin. apply Z.leb_le in Hin. lia.
  - apply bool_decide_eq_true in Hblock as [x Hx]. unfold oldest_unconfirmed in *.
    rewrite (state_window_exact _ _ _ k _ Huni' Hord' ltac:(lia)), (state_latest _ _ _ k _ Huni' Hord'), trace_snoc in Hunc.
    rewrite (state_window_exact _ _ _ k _ Huni Hord ltac:(lia)), (state_latest _ _ _ k _ Huni Hord) in Hx. cbn [lw_Min] in *.
    rewrite decide_False, app_nil_r in Hunc by lia. by rewrite Hx in Hunc.
Qed.

Lemma anchor_record_step s sid io m at_ w w' err k n :
  own_stream s sid -> anchor_inv k n w -> within_capacity w = true -> clean_record io -> new_publication w (m_PublicationID m) ->
  Z.of_nat (length (aw_events w)) < max_int64 -> whole_events (aw_events w') ->
  recordAnchorEntry c observe io m at_ w = (w', err) -> within_capacity w' = true -> exists k' n', anchor_inv k' n' w'.
Proof.
  intros Hown Hw Hin Hio Hpub Hlen Hf Hr Hin'. pose proof (within_inv _ _ _ Hw Hin) as Hcap. unfold recordAnchorEntry in Hr.
  case_match; [simplify_eq; by exists k, n|]. case_match; [|simplify_eq; by exists k, n]. case_match; [simplify_eq; by exists k, n|].
  destruct (nextAnchorSeqPath _ _ _) as [q|] eqn:Hq; [|simplify_eq; by exists k, n]. apply (next_seq _ k n w q Hw Hlen) in Hq. subst q.
  destruct (entryForAnchor _ _ _) as [sg|] eqn:Hsg; [|simplify_eq; by exists k, n].
  assert (Hbody : ay_AnchorSeq sg = Z.of_nat (S n) /\ ay_Kind sg = anchorKindPublication /\ ay_PublicationID sg = m_PublicationID m).
  { unfold entryForAnchor in Hsg. destruct (manifestDigest _); [|done]. destruct (m_Chain m); by simplify_eq. }
  destruct Hbody as (Hseq & Hkind & Hid). rewrite <- Hid in Hpub.
  destruct (Z.ltb_spec 0 (ac_capacity c)) as [HC0|HC0].
  - destruct (load_cases (ri_gate io) _ _ (ac_trust c) (ac_abs c) (av_log _ _ _ Hw)) as [Hl|[le Hl]]; rewrite Hl in Hr; [|simplify_eq; by exists k, n].
    destruct (anchorBacklogBlocks _ _) eqn:Hb; [by eapply record_blocked|by eapply record_new].
  - by eapply record_new.
Qed.

Lemma redeliver_inv (obs : option (compactionObserver W)) io load_st w w' errs k n :
  anchor_inv k n w -> within_capacity w = true -> (forall i, clean_dispatch (io i)) -> whole_events (aw_events w') ->
  load_st = anchor_state_of (ac_trust c) (ac_abs c) (above k (written (aw_events w))) ->
  redeliver c obs io (in_order load_st) w = (w', errs) -> anchor_inv k n w'.
Proof.
  intros Hw Hin Hio Hf -> Hr. pose proof (av_journal _ _ _ Hw) as HJ.
  assert (Hk : (k <= n)%nat) by (destruct (av_kept _ _ _ Hw) as [[-> ->]|]; lia).
  pose proof (journal_kept _ _ _ HJ Hk) as Hord. pose proof (uniform_above k _ (journal_uniform _ _ HJ)) as Huni.
  eapply (redeliver_step obs io _ w w' errs k n (aw_events w')); try done.
  - by apply (within_inv k n w).
  - rewrite (in_order_seqs _ _ _ k (n - k) Huni Hord). apply nodup_seq.
  - intros e He. apply (state_in_order _ _ _ k (n - k) Huni Hord) in He as [i Hi]. pose proof Hi as Hi'.
    apply last_Some_elem_of, trace_elem in Hi' as [<- He]. apply above_elem in He as [Hke _]. split; [|done]. by rewrite trace_above in Hi.
Qed.

Inductive AnchorOp : Type :=
  | OpRecord (io : RecordAnchorIO) (m : snapshotManifest) (at_ : string)
  | OpHousekeep (load : LogIO) (io : Z -> DispatchIO)
  | OpSweep (load : LogIO) (io : Z -> DispatchIO).

Definition anchor_step (w : AnchorWorld W) (op : AnchorOp) : AnchorWorld W :=
  match op with
  | OpRecord io m at_ => fst (recordAnchorEntry c observe io m at_ w)
  | OpHousekeep load io => fst (anchorHousekeeping c load io w)
  | OpSweep load io => fst (sweep_stream c observe load io w)
  end.

(** Writes that fail leave nothing behind, and a publication is recorded once. *)
Definition usable (w : AnchorWorld W) (op : AnchorOp) : Prop :=
  match op with
  | OpRecord io m _ => clean_record io /\ new_publication w (m_PublicationID m)
  | OpHousekeep _ io | OpSweep _ io => forall i, clean_dispatch (io i)
  end.

(** What a host comes to that keeps within its capacity. *)
Inductive reach : AnchorWorld W -> Prop :=
  | reach_start d obs : ld_log d = None -> reach (MkAnchorWorld d obs [])
  | reach_step w op : reach w -> usable w op -> whole_events (aw_events (anchor_step w op)) -> within_capacity (anchor_step w op) = true ->
      Z.of_nat (length (aw_events w)) < max_int64 -> reach (anchor_step w op).

(** The conditions on a run, checked as it goes. *)
Definition clean_op (op : AnchorOp) : Prop :=
  match op with OpRecord io _ _ => clean_record io | OpHousekeep _ io | OpSweep _ io => forall i, clean_dispatch (io i) end.

Definition step_checked (w : AnchorWorld W) (op : AnchorOp) : bool :=
  let w' := anchor_step w op in
  match op with
  | OpRecord _ m _ => forallb (fun x => negb (ay_PublicationID (an_signed x) =? m_PublicationID m)) (written (aw_events w))
  | _ => true
  end && forallb fitsb (written (aw_events w')) && within_capacity w' && (Z.of_nat (length (aw_events w)) <? max_int64).

Fixpoint run_checked (w : AnchorWorld W) (ops : list AnchorOp) : bool :=
  match ops with [] => true | op :: ops => step_checked w op && run_checked (anchor_step w op) ops end.

Lemma run_checked_reach ops w : Forall clean_op ops -> reach w -> run_checked w ops = true -> reach (foldl anchor_step w ops).
Proof.
  intros Hops. revert w. induction Hops as [|op ops Hop _ IH]; intros w Hw Hr; [done|]. cbn [run_checked] in Hr. apply andb_true_iff in Hr as [Hs Hr].
  cbn [foldl]. apply IH; [|done]. unfold step_checked in Hs. apply andb_true_iff in Hs as [Hs Hlen%Z.ltb_lt].
  apply andb_true_iff in Hs as [Hs Hin]. apply andb_true_iff in Hs as [Hnew Hf%fitsb_fits]. apply reach_step; try done.
  destruct op as [io m at_| |]; [|done..]. split; [done|]. intros x Hx. rewrite forallb_forall in Hnew.
  apply list_elem_of_In in Hx. specialize (Hnew x Hx). apply negb_true_iff, Z.eqb_neq in Hnew. done.
Qed.

Lemma reach_inv s sid w : own_stream s sid -> reach w -> within_capacity w = true /\ exists k n, anchor_inv k n w.
Proof.
  intros Hown. induction 1 as [d obs Hd|w op Hreach (Hin & k & n & Hw) Hop Hf Hin' Hlen].
  - split.
    + unfold within_capacity. destruct (Z.leb_spec (ac_capacity c) 0); [done|]. cbn [orb aw_disk].
      rewrite (load_on io_ok d [] None (ac_abs c) (log_on_empty _ _ Hd) eq_refl).
      rewrite (state_entries None (ac_abs c) [] 0 0); [apply Z.leb_le; lia| |done]. intros e e' He. by apply not_elem_of_nil in He.
    + exists 0%nat, 0%nat. split; [by apply log_on_empty|apply journal_nil|by left|intros i e Hi; lia|done].
  - split; [done|]. destruct op as [io m at_|load io|load io]; cbn [anchor_step] in *.
    + destruct Hop as [Hio Hpub]. destruct (recordAnchorEntry c observe io m at_ w) as [w' err] eqn:Er. cbn [fst] in *. by eapply anchor_record_step.
    + destruct (anchorHousekeeping c load io w) as [w' errs] eqn:Er. cbn [fst] in *. exists k, n. unfold anchorHousekeeping in Er.
      case_match; [by simplify_eq|].
      destruct (load_cases load _ _ (ac_trust c) (ac_abs c) (av_log _ _ _ Hw)) as [Hl|[le Hl]]; rewrite Hl in Er; [|by simplify_eq].
      by eapply redeliver_inv.
    + destruct (sweep_stream c observe load io w) as [w' errs] eqn:Er. cbn [fst] in *. exists k, n. unfold sweep_stream in Er.
      case_match; [by simplify_eq|].
      destruct (load_cases load _ _ (ac_trust c) (ac_abs c) (av_log _ _ _ Hw)) as [Hl|[le Hl]]; rewrite Hl in Er; [|by simplify_eq].
      case_match; [by eapply redeliver_inv|by simplify_eq].
Qed.

(** ** What the records are about *)

Lemma state_byID trust abs es : foldl (judge_anchor trust abs) (∅, []) (in_order (anchor_state_of trust abs es)) =
  (as_byID (anchor_state_of trust abs es), as_unusable (anchor_state_of trust abs es)).
Proof.
  unfold in_order, anchor_seqs, anchor_state_of. destruct (foldl load_anchor_line (∅, ∅) es) as [latest conflicted].
  set (l := base.filter _ latest). destruct (foldl (judge_anchor trust abs) (∅, []) (omap (fun seq => l !! seq) (keys_of l))) as [byID unusable] eqn:E.
  exact E.
Qed.

Lemma judge_good trust abs l :
  Forall (fun e => anchor_good trust abs e = true /\ ay_Kind (an_signed e) = anchorKindPublication) l ->
  let '(byID, unusable) := foldl (judge_anchor trust abs) (∅, []) l in
  unusable = [] /\
  (forall id e, byID !! id = Some e -> e ∈ l /\ ay_PublicationID (an_signed e) = id) /\
  (forall e, e ∈ l -> is_Some (byID !! ay_PublicationID (an_signed e))).
Proof.
  induction l as [|e l IH] using rev_ind; intros Hl; [split; [done|]; split; [done|]; intros e He; by apply not_elem_of_nil in He|].
  apply Forall_app in Hl as [Hl He]. apply Forall_singleton in He as [Hg Hk]. specialize (IH Hl). rewrite foldl_app. cbn [foldl].
  destruct (foldl (judge_anchor trust abs) (∅, []) l) as [byID unusable]. destruct IH as (-> & Hin & Hout).
  unfold judge_anchor, anchor_good in *. rewrite Hg. cbn [negb].
  assert (Hid : identityID e = ay_PublicationID (an_signed e)) by (unfold identityID; by rewrite Hk). rewrite Hid.
  split; [done|]. split.
  - intros id x Hx. apply lookup_insert_Some in Hx as [[<- <-]|[_ Hx]]; [split; [apply elem_of_app; right; by left|done]|].
    destruct (Hin id x Hx). split; [apply elem_of_app; by left|done].
  - intros x [Hx|Hx%list_elem_of_singleton]%elem_of_app; [|subst x; by rewrite lookup_insert_eq].
    destruct (decide (ay_PublicationID (an_signed x) = ay_PublicationID (an_signed e))) as [->|Hne]; [by rewrite lookup_insert_eq|].
    rewrite lookup_insert_ne by done. by apply Hout.
Qed.

Definition kept_state (k : nat) (w : AnchorWorld W) : anchorState :=
  anchor_state_of (ac_trust c) (ac_abs c) (above k (written (aw_events w))).

Lemma inv_state k n w : anchor_inv k n w ->
  anchor_seqs (kept_state k w) = map Z.of_nat (seq (S k) (n - k)) /\ as_conflicts (kept_state k w) = [] /\ as_unusable (kept_state k w) = [] /\
  (forall i, Z.of_nat k < i -> as_latest (kept_state k w) !! i = last (trace i (written (aw_events w)))) /\
  (forall id e, as_byID (kept_state k w) !! id = Some e ->
     e ∈ written (aw_events w) /\ Z.of_nat k < an_AnchorSeq e /\ ay_PublicationID (an_signed e) = id) /\
  (forall e, e ∈ written (aw_events w) -> Z.of_nat k < an_AnchorSeq e -> is_Some (as_byID (kept_state k w) !! ay_PublicationID (an_signed e))).
Proof.
  intros Hw. pose proof (av_journal _ _ _ Hw) as HJ. assert (Hk : (k <= n)%nat) by (destruct (av_kept _ _ _ Hw) as [[-> ->]|]; lia).
  pose proof (journal_kept _ _ _ HJ Hk) as Hord. pose proof (uniform_above k _ (journal_uniform _ _ HJ)) as Huni.
  unfold kept_state. set (es := above k (written (aw_events w))) in *.
  assert (Hes : forall e, e ∈ in_order (anchor_state_of (ac_trust c) (ac_abs c) es) -> e ∈ written (aw_events w) /\ Z.of_nat k < an_AnchorSeq e).
  { intros e He. apply (state_in_order _ _ _ k (n - k) Huni Hord) in He as [i Hi]. apply last_Some_elem_of, trace_elem in Hi as [_ Hi].
    by apply above_elem in Hi as [? ?]. }
  pose proof (judge_good (ac_trust c) (ac_abs c) (in_order (anchor_state_of (ac_trust c) (ac_abs c) es))) as Hj. rewrite state_byID in Hj.
  destruct Hj as (Hu & Hin & Hout); [apply Forall_forall; intros e He; apply (jn_good _ _ HJ); by apply Hes|].
  split; [apply (state_seqs _ _ _ k _ Huni Hord)|]. split; [apply (state_conflicts _ _ _ k _ Huni Hord)|]. split; [done|]. split; [|split].
  - intros i Hi. rewrite (state_latest _ _ _ k _ Huni Hord). unfold es. by rewrite trace_above.
  - intros id e He. destruct (Hin id e He) as [He1 He2]. destruct (Hes e He1). done.
  - intros e He Hke. assert (Hseq : an_AnchorSeq e ∈ map an_AnchorSeq es) by (apply list_elem_of_fmap; exists e; split; [done|]; by apply above_elem).
    apply last_trace_some in Hseq as [x Hx]. pose proof Hx as Hx'. apply last_Some_elem_of, trace_elem in Hx' as [Hxs Hxe].
    assert (Hxin : x ∈ in_order (anchor_state_of (ac_trust c) (ac_abs c) es)) by (apply (state_in_order _ _ _ k (n - k) Huni Hord); by eexists).
    replace (ay_PublicationID (an_signed e)) with (ay_PublicationID (an_signed x)); [by apply Hout|]. f_equal. apply Huni; [done|by apply above_elem|done].
Qed.

Lemma sent_written seen pre r a post : sent_after seen (pre ++ Sent r a :: post) -> exists e, e ∈ seen ++ written pre /\ r = request_of e.
Proof. intros Hs. apply sent_after_app in Hs as [_ Hs]. cbn in Hs. apply Hs. Qed.

(** C9. As long as a host keeps within its capacity, and whatever the witness answers and
    whichever calls fail without leaving half a line: the log can be read and holds the
    newest records without a gap, none in conflict and each of them trusted; the lines
    of a record are one statement, its attempts counted one by one up to the limit,
    every line but the last pending; a record that has left the log was confirmed; and
    nothing was handed to the witness that had not been written before. *)
Theorem anchor_log_exact s sid w :
  own_stream s sid -> reach w ->
  exists k n,
    (forall io, io_read io = None -> loadAnchorStatePath io (aw_disk w) (ac_trust c) (ac_abs c) = Ok (kept_state k w)) /\
    anchor_seqs (kept_state k w) = map Z.of_nat (seq (S k) (n - k)) /\
    as_conflicts (kept_state k w) = [] /\ as_unusable (kept_state k w) = [] /\
    (forall e, e ∈ written (aw_events w) -> 0 < an_AnchorSeq e <= Z.of_nat n /\ trace_ok (trace (an_AnchorSeq e) (written (aw_events w)))) /\
    (forall i, Z.of_nat k < i -> as_latest (kept_state k w) !! i = last (trace i (written (aw_events w)))) /\
    (forall i e, i <= Z.of_nat k -> last (trace i (written (aw_events w))) = Some e -> an_State e = anchorStateAnchored) /\
    (forall pre r a post, aw_events w = pre ++ Sent r a :: post -> exists e, e ∈ written pre /\ r = request_of e).
Proof.
  intros Hown Hreach. destruct (reach_inv s sid w Hown Hreach) as (_ & k & n & Hw). exists k, n. pose proof (av_journal _ _ _ Hw) as HJ.
  destruct (inv_state k n w Hw) as (Hseqs & Hconf & Hun & Hlat & _). split_and!; try done.
  - intros io Hio. by apply load_on; [apply Hw|].
  - intros e He. split; [by apply (journal_range _ _ _ HJ)|]. apply HJ. apply list_elem_of_fmap. by exists e.
  - intros i e Hi He. apply (av_dropped _ _ _ Hw i e); [|done]. apply last_Some_elem_of, trace_elem in He as [<- He].
    apply (journal_range _ _ _ HJ) in He. lia.
  - intros pre r a post E. apply (sent_written [] pre r a post). rewrite <- E. apply Hw.
Qed.

(** What a witness holds that was handed it by this host. *)
Definition heard (w : AnchorWorld W) (items : list witnessItem) : Prop :=
  Forall (fun i => exists r a, Sent r a ∈ aw_events w /\ i = item_of r) items.

Lemma witness_by_id_in items id w : witness_by_id items !! id = Some w -> w ∈ items /\ wi_PublicationID w = id.
Proof.
  unfold witness_by_id. induction items as [|i items IH] using rev_ind; [done|]. rewrite foldl_app. cbn [foldl].
  intros [[<- <-]|[_ Hw]]%lookup_insert_Some; [split; [apply elem_of_app; right; by left|done]|].
  destruct (IH Hw). split; [apply elem_of_app; by left|done].
Qed.

Lemma heard_record k n w items i : anchor_inv k n w -> heard w items -> i ∈ items ->
  exists e, e ∈ written (aw_events w) /\ wi_PublicationID i = ay_PublicationID (an_signed e) /\ wi_AnchorSeq i = an_AnchorSeq e /\
    wi_AnchorDigest i = anchorDigestOf e.
Proof.
  intros Hw Hh Hi. unfold heard in Hh. rewrite Forall_forall in Hh. destruct (Hh i Hi) as (r & a & Hin & ->).
  apply list_elem_of_split in Hin as (pre & post & E).
  pose proof (av_sent _ _ _ Hw) as Hs. rewrite E in Hs. apply sent_written in Hs as (e & He & ->). exists e. split; [|done].
  rewrite E, written_app. apply elem_of_app. by left.
Qed.

Lemma same_agrees e e' i : an_signed e = an_signed e' -> wi_AnchorSeq i = an_AnchorSeq e' -> wi_AnchorDigest i = anchorDigestOf e' -> agrees e i = true.
Proof.
  intros Es Hq Hd. unfold agrees. rewrite Hq, Hd. unfold an_AnchorSeq, anchorDigestOf, canonicalAnchorPayload, anchorSignedFields.
  rewrite Es, Z.eqb_refl, String.eqb_refl. done.
Qed.

Lemma ids_in_none state items : (forall i, i ∈ items -> ai_Witness i <> state) -> ids_in state items = [].
Proof.
  intros Hi. unfold ids_in. induction items as [|i items IH]; [done|]. cbn [List.filter].
  rewrite (proj2 (String.eqb_neq _ _) (Hi i ltac:(by left))). apply IH. intros j Hj. apply Hi. by right.
Qed.

Lemma walk_state window local witness i : i ∈ walkAnchorUnion window local witness ->
  exists id, ai_Witness i = witness_state window (local !! id) (witness !! id).
Proof.
  intros (id & -> & _)%list_elem_of_fmap. exists id. unfold item_result. by destruct (local !! id).
Qed.

(** C2. The comparison with what this host has handed over never finds it broken: it
    accuses nobody of what failed deliveries, redeliveries and compaction do. *)
Theorem reconcile_honest s sid w load items :
  own_stream s sid -> reach w -> heard w items -> rr_Verdict (ReconcileAnchor c load (aw_disk w) items) <> anchorVerdictBroken.
Proof.
  intros Hown Hreach Hh. destruct (reach_inv s sid w Hown Hreach) as (_ & k & n & Hw). pose proof (av_journal _ _ _ Hw) as HJ.
  pose proof (journal_uniform _ _ HJ) as Huni.
  unfold ReconcileAnchor. destruct (ac_enabled c); [cbn [negb]|done].
  destruct (load_cases load _ _ (ac_trust c) (ac_abs c) (av_log _ _ _ Hw)) as [Hl|[e Hl]]; rewrite Hl; [|done]. clear Hl.
  fold (kept_state k w). destruct (inv_state k n w Hw) as (_ & _ & _ & _ & Hin & Hout). set (st := kept_state k w) in *.
  destruct items as [|i0 items0] eqn:Ei; [cbn; by destruct (_ =? 0)|]. rewrite <- Ei in *. clear Ei i0 items0.
  destruct (existsb malformed_item items); [done|]. destruct (deriveAnchorIdentity _ _ _) as [ident|]; [|done].
  destruct (foreign_item ident items); [done|].
  assert (Hagree : forall id e i, as_byID st !! id = Some e -> witness_by_id items !! id = Some i -> agrees e i = true).
  { intros id e i He [Hi Hid]%witness_by_id_in. destruct (Hin id e He) as (HeJ & _ & Hpub).
    destruct (heard_record k n w items i Hw Hh Hi) as (e' & HeJ' & Hpub' & Hq & Hd). apply (same_agrees e e'); [|done|done].
    apply Huni; [done|done|]. apply (jn_pubs _ _ HJ); [done|done|]. congruence. }
  destruct (shared_ids (as_byID st) (witness_by_id items)) as [|id0 shared] eqn:Es; [done|].
  assert (H0 : id0 ∈ shared_ids (as_byID st) (witness_by_id items)) by (rewrite Es; by left).
  unfold shared_ids in H0. apply list_elem_of_In, filter_In in H0 as [Hloc Hwit]. apply bool_decide_eq_true in Hwit as [i1 Hi1].
  unfold local_in in Hloc. apply filter_In in Hloc as [Hloc _]. apply list_elem_of_In, keys_of_elem in Hloc as [e0 He0].
  assert (Hal : existsb (aligned_on (as_byID st) (witness_by_id items)) (id0 :: shared) = true).
  { cbn. unfold aligned_on at 1. rewrite He0, Hi1. by rewrite (Hagree id0 e0 i1). }
  rewrite Hal. cbn [compared rr_Verdict]. set (all := walkAnchorUnion _ _ _).
  assert (Hkn : (k < n)%nat).
  { destruct (Hin _ _ He0) as (HeJ & Hk & _). apply (journal_range _ _ _ HJ) in HeJ. lia. }
  assert (Hwin : as_window st = MkWindow (Z.of_nat k + 1) (Z.of_nat (k + (n - k))) (Z.of_nat (n - k)) true).
  { apply (state_window_exact _ _ _ k _ (uniform_above _ _ Huni) (journal_kept k n _ HJ (Nat.lt_le_incl _ _ Hkn))). lia. }
  assert (Hstates : forall i, i ∈ all -> ai_Witness i <> witnessStateDigestMismatch /\ ai_Witness i <> witnessStateOrphan /\ ai_Witness i <> witnessStateAheadOfWindow).
  { intros i (id & ->)%walk_state. unfold witness_state. destruct (as_byID st !! id) as [e|] eqn:He, (witness_by_id items !! id) as [j|] eqn:Hj.
    - rewrite (Hagree id e j He Hj). by destruct (String.eqb _ _).
    - by destruct (String.eqb _ _).
    - apply witness_by_id_in in Hj as [Hj Hid]. destruct (heard_record k n w items j Hw Hh Hj) as (e' & HeJ' & Hpub' & Hq & _).
      destruct (decide (Z.of_nat k < an_AnchorSeq e')) as [Hk|Hk].
      { destruct (Hout e' HeJ' Hk) as [x Hx]. rewrite <- Hpub', Hid, He in Hx. done. }
      rewrite Hwin, Hq. cbn [lw_Min lw_Max]. destruct (Z.leb_spec (Z.of_nat k + 1) (an_AnchorSeq e')); [lia|]. cbn [andb].
      destruct (Z.ltb_spec (an_AnchorSeq e') (Z.of_nat k + 1)); [done|lia].
    - done. }
  unfold aligned_verdict, some_ids. rewrite !(ids_in_none _ all) by (intros i Hi; by apply Hstates). rewrite Hwin. cbn [lw_Continuous].
  rewrite !bool_decide_true by done. cbn [negb orb]. by repeat case_match.
Qed.
End Honest.

(** ** What each verdict means *)

Section Reconcile.
Context `{HC : ManifestCrypto} {HF : KeyFiles} {HA : AnchorCodec}.

Lemma union_ids_elem (local : gmap Z anchorEntry) (witness : gmap Z witnessItem) id :
  id ∈ union_ids local witness <-> is_Some (local !! id) \/ is_Some (witness !! id).
Proof. unfold union_ids, sortInt64s. rewrite sort_slice_elem, elem_of_elements, elem_of_union, !elem_of_dom. done. Qed.

Lemma some_ids_spec state window local witness : state <> witnessStateNotEvaluated ->
  some_ids state (walkAnchorUnion window local witness) = true <-> exists id, witness_state window (local !! id) (witness !! id) = state.
Proof.
  intros Hne. unfold some_ids. rewrite negb_true_iff, bool_decide_eq_false. split.
  - intros Hn. destruct (List.filter (fun i => String.eqb (ai_Witness i) state) (walkAnchorUnion window local witness)) as [|i l] eqn:E.
    + destruct Hn. unfold ids_in. by rewrite E.
    + assert (Hi : In i (i :: l)) by by left. rewrite <- E in Hi. apply filter_In in Hi as [Hi Hs%String.eqb_eq].
      apply list_elem_of_In, walk_state in Hi as [id Hid]. exists id. congruence.
  - intros [id Hid] E.
    assert (Hin : item_result local id state ∈ walkAnchorUnion window local witness).
    { unfold walkAnchorUnion. apply list_elem_of_fmap. exists id. rewrite Hid. split; [done|]. apply union_ids_elem.
      destruct (local !! id); [by left; eexists|]. destruct (witness !! id); [by right; eexists|]. by destruct Hne. }
    apply list_elem_of_In in Hin. assert (Hf : In (item_result local id state) (List.filter (fun i => String.eqb (ai_Witness i) state) (walkAnchorUnion window local witness))).
    { apply filter_In. split; [done|]. apply String.eqb_eq. unfold item_result. by destruct (local !! id). }
    unfold ids_in in E. by destruct (List.filter _ _).
Qed.

Lemma local_in_elem state local id : state <> "" -> id ∈ local_in state local <-> exists e, local !! id = Some e /\ an_State e = state.
Proof.
  intros Hs. unfold local_in. rewrite list_elem_of_In, filter_In, <- list_elem_of_In, keys_of_elem, String.eqb_eq. split.
  - intros [[e He] E]. rewrite He in E. by exists e.
  - intros (e & He & E). rewrite He. by split; [eexists|].
Qed.

Lemma local_in_nil state local : state <> "" -> local_in state local = [] <-> forall id e, local !! id = Some e -> an_State e <> state.
Proof.
  intros Hs. split.
  - intros E id e He Hst. apply (not_elem_of_nil id). rewrite <- E. apply local_in_elem; [done|by exists e].
  - intros Hall. destruct (local_in state local) as [|id l] eqn:E; [done|]. assert (Hid : id ∈ local_in state local) by (rewrite E; by left).
    apply local_in_elem in Hid as (e & He & Hst); [|done]. by destruct (Hall id e He).
Qed.

Definition disagrees (local : gmap Z anchorEntry) (witness : gmap Z witnessItem) : Prop :=
  exists id e w, local !! id = Some e /\ an_State e = anchorStateAnchored /\ witness !! id = Some w /\ agrees e w = false.

(** The witness has a record that is not here and is not older than all there are. *)
Definition forgotten (window : logWindow) (local : gmap Z anchorEntry) (witness : gmap Z witnessItem) : Prop :=
  exists id w, local !! id = None /\ witness !! id = Some w /\ lw_Min window <= wi_AnchorSeq w.

Lemma mismatch_spec window local witness :
  some_ids witnessStateDigestMismatch (walkAnchorUnion window local witness) = true <-> disagrees local witness.
Proof.
  rewrite some_ids_spec by done. unfold disagrees, witness_state. split.
  - intros [id Hid]. destruct (local !! id) as [e|] eqn:He, (witness !! id) as [w|] eqn:Hw; try done.
    + destruct (String.eqb_spec (an_State e) anchorStateAnchored); [|done]. destruct (agrees e w) eqn:Ha; [done|]. by exists id, e, w.
    + by destruct (String.eqb _ _).
    + by repeat case_match.
  - intros (id & e & w & He & Hs & Hw & Ha). exists id. by rewrite He, Hw, Hs, Ha.
Qed.

Lemma forgotten_spec window local witness :
  some_ids witnessStateOrphan (walkAnchorUnion window local witness) || some_ids witnessStateAheadOfWindow (walkAnchorUnion window local witness) = true <->
  forgotten window local witness.
Proof.
  rewrite orb_true_iff, !some_ids_spec by done. unfold forgotten, witness_state. split.
  - intros [[id Hid]|[id Hid]]; destruct (local !! id) as [e|] eqn:He, (witness !! id) as [w|] eqn:Hw; try by repeat case_match.
    + exists id, w. split_and!; [done|done|]. destruct (Z.leb_spec (lw_Min window) (wi_AnchorSeq w)); [done|]. cbn [andb] in Hid. by repeat case_match.
    + exists id, w. split_and!; [done|done|]. destruct (Z.ltb_spec (wi_AnchorSeq w) (lw_Min window)); [|done]. by repeat case_match.
  - intros (id & w & He & Hw & Hm). destruct (Z.leb_spec (wi_AnchorSeq w) (lw_Max window)); [left|right]; exists id; rewrite He, Hw.
    + by rewrite (proj2 (Z.leb_le _ _) Hm), (proj2 (Z.leb_le _ _)).
    + rewrite (proj2 (Z.leb_le _ _) Hm), (proj2 (Z.leb_gt _ _)) by done. cbn [andb]. by rewrite (proj2 (Z.ltb_ge _ _)).
Qed.

Lemma unwitnessed_spec window local witness :
  some_ids witnessStateMissing (walkAnchorUnion window local witness) = true <->
  exists id e, local !! id = Some e /\ an_State e = anchorStateAnchored /\ witness !! id = None.
Proof.
  rewrite some_ids_spec by done. unfold witness_state. split.
  - intros [id Hid]. destruct (local !! id) as [e|] eqn:He, (witness !! id) as [w|] eqn:Hw; try by repeat case_match.
    exists id, e. destruct (String.eqb_spec (an_State e) anchorStateAnchored); done.
  - intros (id & e & He & Hs & Hw). exists id. by rewrite He, Hw, Hs.
Qed.

Lemma outside_spec window local witness :
  some_ids witnessStateOutsideWindow (walkAnchorUnion window local witness) = true <->
  exists id w, local !! id = None /\ witness !! id = Some w /\ wi_AnchorSeq w < lw_Min window.
Proof.
  rewrite some_ids_spec by done. unfold witness_state. split.
  - intros [id Hid]. destruct (local !! id) as [e|] eqn:He, (witness !! id) as [w|] eqn:Hw; try by repeat case_match.
    exists id, w. split_and!; [done|done|]. destruct (Z.ltb_spec (wi_AnchorSeq w) (lw_Min window)); [done|]. by repeat case_match.
  - intros (id & w & He & Hw & Hm). exists id. rewrite He, Hw, (proj2 (Z.leb_gt _ _) Hm). cbn [andb]. by rewrite (proj2 (Z.ltb_lt _ _) Hm).
Qed.

(** A comparison is made of a well-formed sequence of this stream that shares a
    confirmed record with the log. *)
Definition comparable (c : AnchorConfig) (st : anchorState) (items : list witnessItem) : Prop :=
  existsb malformed_item items = false /\
  (exists id, deriveAnchorIdentity (ac_signer c) (ac_trust c) (ac_abs c) = Ok id /\ foreign_item id items = None) /\
  exists id, id ∈ shared_ids (as_byID st) (witness_by_id items).

Lemma shared_elem local witness id : id ∈ shared_ids local witness <->
  exists e w, local !! id = Some e /\ an_State e = anchorStateAnchored /\ witness !! id = Some w.
Proof.
  unfold shared_ids. rewrite list_elem_of_In, filter_In, <- list_elem_of_In, local_in_elem, bool_decide_eq_true by done. split.
  - intros [(e & He & Hs) [w Hw]]. by exists e, w.
  - intros (e & w & He & Hs & Hw). split; [by exists e|by exists w].
Qed.

(** No record is pending or given up, each one in state "anchored" is witnessed as
    it is, and the witness has no other. *)
Definition none_open (local : gmap Z anchorEntry) (witness : gmap Z witnessItem) : Prop :=
  (forall id e, local !! id = Some e -> an_State e <> anchorStatePending /\ an_State e <> anchorStateUnanchored /\
     (an_State e = anchorStateAnchored -> exists w, witness !! id = Some w /\ agrees e w = true)) /\
  (forall id w, witness !! id = Some w -> is_Some (local !! id)).

(** The states that the log is written with. *)
Definition known_states (local : gmap Z anchorEntry) : Prop :=
  forall id e, local !! id = Some e -> In (an_State e) [anchorStatePending; anchorStateAnchored; anchorStateUnanchored].

(** Every record is confirmed, and witnessed as it is, and the witness has no
    other. *)
Definition all_witnessed (local : gmap Z anchorEntry) (witness : gmap Z witnessItem) : Prop :=
  (forall id e, local !! id = Some e -> an_State e = anchorStateAnchored /\ exists w, witness !! id = Some w /\ agrees e w = true) /\
  (forall id w, witness !! id = Some w -> is_Some (local !! id)).

Lemma none_open_known local witness : known_states local -> none_open local witness <-> all_witnessed local witness.
Proof.
  intros Hk. split; intros [Hl Hw]; (split; [|exact Hw]); intros id e He; destruct (Hl id e He) as [H1 H2].
  - destruct H2 as [H2 H3], (Hk id e He) as [E|[E|[E|[]]]]; [congruence|by auto|congruence].
  - rewrite H1. done.
Qed.

Lemma aligned_verdict_exact st witness :
  let verdict := aligned_verdict st (walkAnchorUnion (as_window st) (as_byID st) witness) in
  let broken := lw_Continuous (as_window st) = false \/ disagrees (as_byID st) witness \/ forgotten (as_window st) (as_byID st) witness in
  (verdict = anchorVerdictBroken <-> broken) /\
  (verdict = anchorVerdictOK <-> lw_Continuous (as_window st) = true /\ none_open (as_byID st) witness).
Proof.
  intros verdict broken. unfold verdict, aligned_verdict. rewrite <- orb_assoc, <- (orb_assoc (some_ids witnessStateDigestMismatch _)).
  pose proof (mismatch_spec (as_window st) (as_byID st) witness) as Hm. pose proof (forgotten_spec (as_window st) (as_byID st) witness) as Hf.
  pose proof (unwitnessed_spec (as_window st) (as_byID st) witness) as Hu. pose proof (outside_spec (as_window st) (as_byID st) witness) as Ho.
  set (all := walkAnchorUnion _ _ _) in *. rewrite (orb_assoc (some_ids witnessStateOrphan _)).
  destruct (some_ids witnessStateDigestMismatch all || _) eqn:Eb.
  - assert (Hb : broken).
    { apply orb_true_iff in Eb as [Eb|Eb]; [right; left; by apply Hm|]. apply orb_true_iff in Eb as [Eb|Eb]; [right; right; by apply Hf|].
      left. by apply negb_true_iff. }
    split; [done|]. split; [done|]. intros [Hc [Hl Hw]]. destruct Hb as [Hb|[(id & e & w & He & Hs & Hwi & Ha)|(id & w & He & Hwi & _)]].
    + congruence.
    + destruct (Hl id e He) as (_ & _ & Hx). destruct (Hx Hs) as (w' & Hw' & Ha'). congruence.
    + destruct (Hw id w Hwi). congruence.
  - apply orb_false_iff in Eb as [Em Eb]. apply orb_false_iff in Eb as [Ef Ec]. apply negb_false_iff in Ec.
    assert (Hnb : ~ broken).
    { intros [Hb|[Hb|Hb]]; [congruence|apply Hm in Hb; congruence|apply Hf in Hb; congruence]. }
    rewrite <- orb_assoc, <- orb_assoc. destruct (negb _ || _) eqn:Ei.
    + split; [split; [done|by intros ?%Hnb]|]. split; [done|]. intros [_ [Hl Hw]]. exfalso.
      apply orb_true_iff in Ei as [Ei|Ei].
      { apply negb_true_iff, bool_decide_eq_false in Ei. apply Ei, local_in_nil; [done|]. intros id e He. by apply (Hl id e He). }
      apply orb_true_iff in Ei as [Ei|Ei].
      { apply negb_true_iff, bool_decide_eq_false in Ei. apply Ei, local_in_nil; [done|]. intros id e He. by apply (Hl id e He). }
      apply orb_true_iff in Ei as [Ei|Ei].
      { apply Hu in Ei as (id & e & He & Hs & Hn). destruct (Hl id e He) as (_ & _ & Hx). destruct (Hx Hs) as (w & Hw' & _). congruence. }
      apply Ho in Ei as (id & w & He & Hwi & _). destruct (Hw id w Hwi). congruence.
    + split; [split; [done|by intros ?%Hnb]|]. split; [|done]. intros _. split; [done|].
      apply orb_false_iff in Ei as [Ep Ei]. apply orb_false_iff in Ei as [Eu Ei]. apply orb_false_iff in Ei as [Eun Eo].
      apply negb_false_iff, bool_decide_eq_true in Ep, Eu. rewrite local_in_nil in Ep, Eu by done. split.
      * intros id e He. split; [by apply (Ep id)|]. split; [by apply (Eu id)|]. intros Hs. destruct (witness !! id) as [w|] eqn:Hw.
        -- exists w. split; [done|]. destruct (agrees e w) eqn:Ha; [done|]. rewrite (proj2 Hm) in Em; [done|]. by exists id, e, w.
        -- rewrite (proj2 Hu) in Eun; [done|]. by exists id, e.
      * intros id w Hw. destruct (as_byID st !! id) as [e|] eqn:He; [by eexists|]. exfalso.
        destruct (Z.leb_spec (lw_Min (as_window st)) (wi_AnchorSeq w)); [rewrite (proj2 Hf) in Ef; [done|]|rewrite (proj2 Ho) in Eo; [done|]]; by exists id, w.
Qed.

End Reconcile.

(** ** An instance, witnesses and findings *)

#[local] Existing Instance checksum_crypto.
#[local] Existing Instance sample_files.

Definition signed_fields (s : anchorSigned) : list string :=
  [Z_str (ay_PublicationID s); Z_str (ay_AnchorSeq s); ay_ManifestDigest s; Z_str (ay_PrevPublicationID s); ay_PrevManifestDigest s; ay_RecordedAt s; ay_KeyID s; ay_StreamID s; ay_Kind s; Z_str (ay_EventSeq s); ay_EventDigest s; ay_EventType s; ay_NotAfter s; Z_str (ay_ReportSeq s); ay_ReportDigest s; ay_Overall s; Z_str (ay_DestructionSeq s); ay_DestructionDigest s; ay_DestructionVerdict s; Z_str (ay_AcceptanceSeq s); ay_AcceptanceDigest s; Z_str (ay_AcceptanceRecordSeq s)].

Definition anchor_fields (e : anchorEntry) : list string :=
  [an_State e; Z_str (an_Attempts e); an_AckID e; an_LastError e; an_AnchoredAt e; an_Sig e] ++ signed_fields (an_signed e).

Definition anchor_of_fields (l : list string) : option anchorEntry :=
  match l with
  | [st; n; ack; err; at_; sg; x0; x1; x2; x3; x4; x5; x6; x7; x8; x9; x10; x11; x12; x13; x14; x15; x16; x17; x18; x19; x20; x21] =>
      Some (MkAnchor (MkAnchorSigned (str_Z x0) (str_Z x1) x2 (str_Z x3) x4 x5 x6 x7 x8 (str_Z x9) x10 x11 x12 (str_Z x13) x14 x15 (str_Z x16) x17 x18 (str_Z x19) x20 (str_Z x21))
        st (str_Z n) ack err at_ sg)
  | _ => None
  end.

Lemma anchor_of_anchor_fields e : anchor_of_fields (anchor_fields e) = Some e.
Proof. destruct e as [[] ? ? ? ? ? ?]; cbn; by rewrite !str_Z_str. Qed.

Definition sample_anchor_lines : LineCodec anchorEntry anchor_utf8.
Proof. refine (fields_codec anchor_fields anchor_of_fields anchor_of_anchor_fields _). done. Defined.

Definition sample_anchors : AnchorCodec := {| anchor_signed_json s := pack (signed_fields s); anchor_lines := sample_anchor_lines |}.

#[local] Existing Instance sample_anchors.

Definition anchor_config (capacity attempts : Z) : AnchorConfig := MkAnchorConfig true (Some kak) (Some kak_trust) (Ok "/exports") capacity attempts.

Definition publication (id : Z) : snapshotManifest :=
  match signManifest (Some kak) (sample_manifest id ("s" +:+ Z_str id) None) "noon" with Ok m => m | Err _ => sample_manifest id "" None end.

Definition append_ok : AppendIO := MkAppendIO io_ok io_ok io_ok io_ok.
Definition acked : Answer := MkAnswer 200 "a-1" "" None.
Definition down : Answer := MkAnswer 503 "" "" None.
Definition answering (a : Answer) : DispatchIO := MkDispatchIO a "noon" append_ok.
Definition recording (a : Answer) : RecordAnchorIO := MkRecordAnchorIO io_ok io_ok append_ok (answering a).

Definition anchor_start : AnchorWorld unit := MkAnchorWorld (MkLogDisk None None) tt [].

Definition anchor_run (capacity attempts : Z) (ops : list AnchorOp) : AnchorWorld unit :=
  foldl (anchor_step (anchor_config capacity attempts) None) anchor_start ops.

Definition sample_ops : list AnchorOp :=
  [OpRecord (recording acked) (publication 1) "noon"; OpRecord (recording down) (publication 2) "noon";
   OpHousekeep io_ok (fun _ => answering acked); OpRecord (recording acked) (publication 3) "noon"].

Definition lines_of (w : AnchorWorld unit) : list (Z * string * Z) :=
  map (fun e => (an_AnchorSeq e, an_State e, an_Attempts e)) (written (aw_events w)).

Definition items_of (w : AnchorWorld unit) : list witnessItem :=
  omap (fun ev => match ev with Sent r a => if String.eqb (rs_AckID a) "" then None else Some (item_of r) | _ => None end) (aw_events w).

Definition verdict_of (capacity attempts : Z) (w : AnchorWorld unit) : string :=
  rr_Verdict (ReconcileAnchor (anchor_config capacity attempts) io_ok (aw_disk w) (items_of w)).

Example anchors_run : lines_of (anchor_run 2 3 sample_ops) =
  [(1, anchorStatePending, 0); (1, anchorStateAnchored, 1); (2, anchorStatePending, 0); (2, anchorStatePending, 1); (2, anchorStateAnchored, 2);
   (3, anchorStatePending, 0); (3, anchorStateAnchored, 1)] /\ verdict_of 2 3 (anchor_run 2 3 sample_ops) = anchorVerdictIncomplete.
Proof. vm_compute. split; reflexivity. Qed.

Lemma clean_answering a : clean_dispatch (answering a).
Proof. split_and!; reflexivity || exact I. Qed.

Lemma clean_recording a : clean_record (recording a).
Proof. split; [split_and!; reflexivity || exact I|apply clean_answering]. Qed.

Lemma sample_clean : Forall clean_op sample_ops.
Proof.
  repeat apply Forall_cons_2; [apply clean_recording|apply clean_recording|intros i; apply clean_answering|apply clean_recording|apply Forall_nil_2].
Qed.

Lemma start_reached capacity attempts : reach (anchor_config capacity attempts) None anchor_start.
Proof. by apply reach_start. Qed.

Lemma sample_own capacity attempts : own_stream (anchor_config capacity attempts) kak (hex_EncodeToString (String.substring 0 8 (Sum256 ("root" +:+ String zero "/exports")))).
Proof. split; try reflexivity; vm_compute; discriminate. Qed.

Lemma sample_reached : reach (anchor_config 2 3) None (anchor_run 2 3 sample_ops).
Proof. apply run_checked_reach; [apply sample_clean|apply start_reached|vm_compute; reflexivity]. Qed.

Example anchor_log_exact_witness : exists k n, (0 < k < n)%nat /\
  loadAnchorStatePath io_ok (aw_disk (anchor_run 2 3 sample_ops)) (Some kak_trust) (Ok "/exports") = Ok (kept_state (anchor_config 2 3) k (anchor_run 2 3 sample_ops)) /\
  anchor_seqs (kept_state (anchor_config 2 3) k (anchor_run 2 3 sample_ops)) = map Z.of_nat (seq (S k) (n - k)).
Proof.
  destruct (anchor_log_exact (anchor_config 2 3) None kak _ (anchor_run 2 3 sample_ops) (sample_own 2 3) sample_reached) as
    (k & n & Hload & Hseqs & _).
  exists k, n. split; [|split; [exact (Hload io_ok eq_refl)|exact Hseqs]].
  assert (Hl : match loadAnchorStatePath io_ok (aw_disk (anchor_run 2 3 sample_ops)) (Some kak_trust) (Ok "/exports") with
    | Ok st => anchor_seqs st | Err _ => [] end = [2; 3]) by (vm_compute; reflexivity).
  specialize (Hload io_ok eq_refl). cbn [ac_trust ac_abs anchor_config] in Hload. rewrite Hload in Hl. rewrite Hseqs in Hl.
  pose proof (f_equal length Hl) as Hn. rewrite length_map, length_seq in Hn. cbn [length] in Hn. rewrite Hn in Hl. cbn [seq map] in Hl.
  assert (Hk : Z.of_nat (S k) = 2) by congruence. lia.
Defined.

Lemma sample_heard : heard (anchor_run 2 3 sample_ops) (items_of (anchor_run 2 3 sample_ops)).
Proof.
  unfold heard, items_of. apply Forall_forall. intros i Hi. apply list_elem_of_omap in Hi as ([e|r a] & Hin & Hi); [done|].
  exists r, a. split; [done|]. by destruct (String.eqb (rs_AckID a) ""); simplify_eq.
Qed.

Example reconcile_honest_witness :
  length (items_of (anchor_run 2 3 sample_ops)) = 3%nat /\ verdict_of 2 3 (anchor_run 2 3 sample_ops) = anchorVerdictIncomplete /\
  verdict_of 2 3 (anchor_run 2 3 sample_ops) <> anchorVerdictBroken.
Proof.
  split; [vm_compute; reflexivity|]. split; [vm_compute; reflexivity|].
  exact (reconcile_honest (anchor_config 2 3) None kak _ (anchor_run 2 3 sample_ops) io_ok _ (sample_own 2 3) sample_reached sample_heard).
Defined.

(** The newest of three records is taken out of the log; the witness has it. *)
Definition three : AnchorWorld unit := anchor_run 0 3 (map (fun id => OpRecord (recording acked) (publication id) "noon") [1; 2; 3]).

Definition cut_log (w : AnchorWorld unit) : LogDisk :=
  MkLogDisk (Some (synced (disk_bytes an_AnchorSeq (base.filter (fun e => an_AnchorSeq e <> 3) (written (aw_events w)))))) None.


(** Findings. Only the oldest record is looked at before a compaction, which drops all
    that is over the capacity: a record that is pending is dropped, its redelivery
    comes back behind newer ones, the next compaction goes by the order of the file,
    and the log has a gap that its own host is accused of. *)
Definition late_ops : list AnchorOp :=
  [OpRecord (recording down) (publication 1) "noon"; OpRecord (recording down) (publication 2) "noon";
   OpRecord (recording acked) (publication 3) "noon"; OpRecord (recording acked) (publication 4) "noon"].

Example backlog_breaks :
  let recovered := anchor_run 2 8 (late_ops ++ [OpHousekeep io_ok (fun _ => answering acked)]) in
  lines_of recovered = [(1, anchorStatePending, 0); (1, anchorStatePending, 1); (2, anchorStatePending, 0); (2, anchorStatePending, 1);
    (3, anchorStateUnanchored, 0); (4, anchorStateUnanchored, 0); (1, anchorStateAnchored, 2); (2, anchorStateAnchored, 2)] /\
  match loadAnchorStatePath io_ok (aw_disk recovered) (Some kak_trust) (Ok "/exports") with
  | Ok st => anchor_seqs st = [2; 4]
  | Err _ => False
  end /\ verdict_of 2 8 recovered = anchorVerdictBroken.
Proof. vm_compute. split_and!; reflexivity. Qed.

(** One refusal by the witness, and with the capacity used up nothing is ever handed
    over again. *)
Definition refusal : Answer := MkAnswer 400 "" "" None.

Example backlog_permanent : lines_of (anchor_run 1 8 ([OpRecord (recording refusal) (publication 1) "noon"] ++
    map (fun id => OpRecord (recording acked) (publication id) "noon") [2; 3; 4] ++ [OpHousekeep io_ok (fun _ => answering acked)])) =
  [(1, anchorStatePending, 0); (1, anchorStateUnanchored, 1); (2, anchorStateUnanchored, 0); (3, anchorStateUnanchored, 0); (4, anchorStateUnanchored, 0)].
Proof. vm_compute. reflexivity. Qed.

(** A conflicting answer is no attempt: the record is handed over at every tick. *)
Example conflict_forever : let conflict := MkAnswer 409 "" "conflict" None in
  let w := anchor_run 0 2 (OpRecord (recording conflict) (publication 1) "noon" :: replicate 20 (OpHousekeep io_ok (fun _ => answering conflict))) in
  lines_of w = [(1, anchorStatePending, 0)] /\ length (aw_events w) = 22%nat.
Proof. vm_compute. split; reflexivity. Qed.

(** "Only a non-empty ack_id is a confirmation": a duplicate is one without. *)
Example duplicate_unacknowledged : classifyAnchorResponse (MkAnswer 409 "" "duplicate" None) = MkDelivery anchorStateAnchored false "" "duplicate".
Proof. reflexivity. Qed.

(** A record in conflict does not occupy its number: the next one is given it, and is
    refused. *)
Definition forged (w : AnchorWorld unit) : LogDisk :=
  let es := written (aw_events w) in
  MkLogDisk (Some (synced (disk_bytes an_AnchorSeq (es ++ [MkAnchor (blank_signed 3 "noon") anchorStateAnchored 0 "" "" "" ""])))) None.

Example conflict_blocks :
  nextAnchorSeqPath io_ok (forged three) (Ok "/exports") = Ok 3 /\
  snd (recordAnchorEntry (anchor_config 0 3) None (recording acked) (publication 4) "noon" (MkAnchorWorld (forged three) tt [])) =
  Some "anchor conflict: anchor_seq 3 already recorded with a different payload" /\
  rr_Verdict (ReconcileAnchor (anchor_config 0 3) io_ok (forged three) []) = anchorVerdictIncomplete.
Proof. vm_compute. split_and!; reflexivity. Qed.

(** The delivery state is not signed: in a state of its own, a record that nobody
    confirmed no longer stands in the way of "ok". *)
Definition restated (w : AnchorWorld unit) : LogDisk :=
  MkLogDisk (Some (synced (disk_bytes an_AnchorSeq (map (fun e =>
    if an_AnchorSeq e =? 2 then MkAnchor (an_signed e) "x" (an_Attempts e) "" "" "" (an_Sig e) else e) (written (aw_events w)))))) None.

Example unknown_state_ok :
  let w := anchor_run 0 3 [OpRecord (recording acked) (publication 1) "noon"; OpRecord (recording down) (publication 2) "noon"] in
  verdict_of 0 3 w = anchorVerdictIncomplete /\
  rr_Verdict (ReconcileAnchor (anchor_config 0 3) io_ok (restated w) (items_of w)) = anchorVerdictOK.
Proof. vm_compute. split; reflexivity. Qed.

(** The records of verification reports are all about the same id. *)
Example verification_ids : let report seq := fresh_anchor (MkAnchorSigned 0 seq "" 0 "" "noon" "" "" anchorKindVerification 0 "" "" "" seq "" "attested" 0 "" "" 0 "" 0) anchorStatePending "" in
  map identityID [report 1; report 2] = [0; 0].
Proof. reflexivity. Qed.

(** The digest is "derived on both sides, never transmitted as a claim": of what the
    other families record, the request has only the digest. *)
Example request_claims :
  let entry dg := fresh_anchor (destruction_body 7 dg "completed" 1 "noon") anchorStatePending "" in
  let blank r := MkRequest (rq_V r) (rq_KeyID r) (rq_StreamID r) (rq_PublicationID r) (rq_AnchorSeq r) "" (rq_ManifestDigest r)
    (rq_PrevPublicationID r) (rq_PrevManifestDigest r) (rq_RecordedAt r) (rq_Sig r) in
  blank (request_of (entry "aa")) = blank (request_of (entry "bb")) /\ request_of (entry "aa") <> request_of (entry "bb").
Proof. split; [vm_compute; reflexivity|vm_compute; discriminate]. Qed.
