(* ===== verification/Verification.v ===== *)
(** * Verification reports
      (internal/controlplane/server/snapshot_verification.go)

    What a verification run states: seven dimensions of each publication, judged by
    what the deployment can evaluate, merged to a verdict of the publication and of
    the report; and the comparison of the reports that survive, publication by
    publication. *)

From Stdlib Require Import Ascii.
From S2P Require Import Prelude GoStrings GoTime Manifest Coverage Chain AppendLog Ledger SignedLog KeyLifecycle Destruction SnapshotFiles SnapshotVerify SchedulerConfig Anchor.

(** ** Data *)

Definition verificationSubjectLimit : Z := 100.

Definition verificationAttested : string := "attested".
Definition verificationUnattested : string := "unattested".
Definition verificationContradicted : string := "contradicted".

Definition classOK : string := "ok".
Definition classContradicted : string := "contradicted".
Definition classUnattested : string := "unattested".
Definition classUnavailable : string := "unavailable".

Definition dimStatus : string := "status".
Definition dimSignature : string := "signature".
Definition dimChain : string := "chain".
Definition dimChainSource : string := "chain_source".
Definition dimAnchor : string := "anchor".
Definition dimLifecycle : string := "lifecycle".
Definition dimCoverage : string := "coverage".

Definition verificationDimensions : list string :=
  [dimStatus; dimSignature; dimChain; dimChainSource; dimAnchor; dimLifecycle; dimCoverage].

Definition reportScopeLedger : string := "scope=ledger".
Definition reportScopeReport : string := "scope=report".

Record VerificationItem : Type := MkItem {
  vi_PublicationID : Z;
  vi_Status : string;
  vi_Signature : string;
  vi_Chain : string;
  vi_ChainSource : string;
  vi_Anchor : string;
  vi_Lifecycle : string;
  vi_Coverage : string;
  vi_Overall : string }.

#[export] Instance VerificationItem_eq_dec : EqDecision VerificationItem.
Proof. solve_decision. Defined.

Record DimensionAvailability : Type := MkAvailability {
  da_Status : bool;
  da_Signature : bool;
  da_Chain : bool;
  da_ChainSource : bool;
  da_Anchor : bool;
  da_Lifecycle : bool;
  da_Coverage : bool }.

#[export] Instance DimensionAvailability_eq_dec : EqDecision DimensionAvailability.
Proof. solve_decision. Defined.

Definition get (d : DimensionAvailability) (dim : string) : bool :=
  if String.eqb dim dimStatus then da_Status d
  else if String.eqb dim dimSignature then da_Signature d
  else if String.eqb dim dimChain then da_Chain d
  else if String.eqb dim dimChainSource then da_ChainSource d
  else if String.eqb dim dimAnchor then da_Anchor d
  else if String.eqb dim dimLifecycle then da_Lifecycle d
  else if String.eqb dim dimCoverage then da_Coverage d
  else false.

Definition value (it : VerificationItem) (dim : string) : string :=
  if String.eqb dim dimStatus then vi_Status it
  else if String.eqb dim dimSignature then vi_Signature it
  else if String.eqb dim dimChain then vi_Chain it
  else if String.eqb dim dimChainSource then vi_ChainSource it
  else if String.eqb dim dimAnchor then vi_Anchor it
  else if String.eqb dim dimLifecycle then vi_Lifecycle it
  else if String.eqb dim dimCoverage then vi_Coverage it
  else "".

Record VerificationSubject : Type := MkVerificationSubject {
  sj_Publications : list Z;
  sj_MinID : Z;
  sj_MaxID : Z;
  sj_Limit : Z;
  sj_Truncated : bool;
  sj_Unattributed : Z }.

#[export] Instance VerificationSubject_eq_dec : EqDecision VerificationSubject.
Proof. solve_decision. Defined.

Record VerificationReason : Type := MkReason {
  rn_Dimension : string;
  rn_Value : string;
  rn_Evaluable : bool;
  rn_Blocking : bool;
  rn_Scope : string }.

#[export] Instance VerificationReason_eq_dec : EqDecision VerificationReason.
Proof. solve_decision. Defined.

(** What [canonicalVerificationPayload] serializes: the report but for its anchor
    and its signature. *)
Record verificationSigned : Type := MkVerificationSigned {
  vs_ReportSeq : Z;
  vs_Subject : VerificationSubject;
  vs_Evaluable : DimensionAvailability;
  vs_Items : list VerificationItem;
  vs_Overall : string;
  vs_Reasons : list VerificationReason;
  vs_VerifiedAt : string }.

#[export] Instance verificationSigned_eq_dec : EqDecision verificationSigned.
Proof. solve_decision. Defined.

Record verificationAnchorRef : Type := MkAnchorRef { rf_AnchorSeq : Z; rf_State : string; rf_Digest : string }.

Record VerificationReport : Type := MkReport {
  rp_signed : verificationSigned;
  rp_Anchor : option verificationAnchorRef;
  rp_Signature : option signatureBlock }.

Definition verificationSignedFields (r : VerificationReport) : verificationSigned := rp_signed r.

(** ** Classes and the merge *)

Definition listed_value (value : string) (l : list string) : bool := existsb (String.eqb value) l.

Definition classOf (dim value : string) : string :=
  if String.eqb value "" then classUnattested
  else if String.eqb dim dimStatus then
    if String.eqb value verifyStatusOK then classOK else if String.eqb value verifyStatusMismatch then classContradicted else classUnattested
  else if String.eqb dim dimSignature then
    if String.eqb value sigVerdictOK then classOK
    else if listed_value value [sigVerdictInvalid; sigVerdictBeforeActivation; sigVerdictAfterRotation; sigVerdictAfterRevocation; sigVerdictTimeUnparseable]
    then classContradicted else classUnattested
  else if String.eqb dim dimChain then
    if listed_value value [chainPosPredecessorVerified; chainPosRetentionBoundary] then classOK
    else if String.eqb value chainVerdictBroken then classContradicted else classUnattested
  else if String.eqb dim dimChainSource then if listed_value value ["disk"; "ledger"; "disk+ledger"] then classOK else classUnattested
  else if String.eqb dim dimAnchor then if String.eqb value anchorStateAnchored then classOK else classUnattested
  else if String.eqb dim dimLifecycle then if String.eqb value "bounded" then classOK else classUnattested
  else if String.eqb dim dimCoverage then if String.eqb value completenessComplete then classOK else classUnattested
  else classUnattested.

Fixpoint merge_classes (weak : bool) (classes : list string) : string :=
  match classes with
  | [] => if weak then verificationUnattested else verificationAttested
  | c :: classes =>
      if String.eqb c classContradicted then verificationContradicted
      else merge_classes (if String.eqb c classOK then weak else true) classes
  end.

Definition mergeOverall (classes : list string) : string := merge_classes false classes.

Definition classesOfItem (it : VerificationItem) (ev : DimensionAvailability) : list string :=
  map (fun d => if negb (get ev d) then classUnavailable else classOf d (value it d)) verificationDimensions.

Definition mapItemOverall (v : string) : string :=
  if String.eqb v verificationAttested then classOK else if String.eqb v verificationContradicted then classContradicted else classUnattested.

Definition reportOverallClasses (items : list VerificationItem) : list string := map (fun it => mapItemOverall (vi_Overall it)) items.

(** Contradicted over unattested over ok. *)
Definition rank (c : string) : Z :=
  if String.eqb c classContradicted then 2
  else if String.eqb c classUnattested || String.eqb c classUnavailable then 1 else 0.

Definition worse (a b : string) : bool := rank b <? rank a.

(** ** Building a report *)

Definition coverageVerdictOf (cov : option CoverageResult) : string :=
  match cov with
  | None => ""
  | Some cov =>
      match cr_Gaps cov, cr_PublicationGaps cov with
      | [], gaps =>
          if String.eqb (cr_Completeness cov) completenessComplete then completenessComplete
          else match gaps with [] => "unknown" | _ => "indeterminate" end
      | _ :: _, _ => "gap"
      end
  end.

Definition sigKeyIDOf (res : VerifyResult) : string := from_option sv_KeyID "" (vr_Signature res).

Definition lifecycleRulerOf (st : option keyLifecycleState) (keyID : string) : string :=
  match st with
  | None => ""
  | Some s =>
      if negb (kls_verifiable s) || String.eqb keyID "" then ""
      else
        let a := authorizationFor st keyID in
        if negb (an_Evaluable a) || negb (an_Complete a) || negb (String.eqb (an_Source a) lifecycleSourceLedger) then "unbounded" else "bounded"
  end.

Record verificationInputs : Type := MkInputs {
  in_results : list VerifyResult;
  in_idOf : gmap string Z;
  in_coverage : option CoverageResult;
  in_anchor : option anchorState;
  in_lifecycle : option keyLifecycleState;
  in_limit : Z;
  in_now : string;
  in_signerTrustKeys : Z;
  in_anchorEnabled : bool;
  in_lifecycleEnabled : bool }.

(** What this deployment can evaluate. *)
Definition ruler (input : verificationInputs) : DimensionAvailability :=
  MkAvailability true (0 <? in_signerTrustKeys input) true true (in_anchorEnabled input) (in_lifecycleEnabled input)
    (bool_decide (is_Some (in_coverage input))).

Definition with_overall (it : VerificationItem) (overall : string) : VerificationItem :=
  MkItem (vi_PublicationID it) (vi_Status it) (vi_Signature it) (vi_Chain it) (vi_ChainSource it) (vi_Anchor it) (vi_Lifecycle it) (vi_Coverage it) overall.

(** The publication of a result, if it has one. *)
Definition attributed (idOf : gmap string Z) (res : VerifyResult) : option Z :=
  match idOf !! vr_Snapshot res with Some id => if id =? 0 then None else Some id | None => None end.

Definition item_of_result (input : verificationInputs) (res : VerifyResult) : option VerificationItem :=
  match attributed (in_idOf input) res with
  | None => None
  | Some id =>
      let anchor := match in_anchor input with Some st => from_option an_State "" (as_byID st !! id) | None => "" end in
      let it := MkItem id (vr_Status res) (from_option sv_Verdict "" (vr_Signature res)) (vr_Chain res) (vr_ChainSource res) anchor
        (lifecycleRulerOf (in_lifecycle input) (sigKeyIDOf res)) (coverageVerdictOf (in_coverage input)) "" in
      Some (with_overall it (mergeOverall (classesOfItem it (ruler input))))
  end.

(** The worst class of a dimension and the first value that has it; the search ends
    where nothing can be worse. *)
Fixpoint worst_value (d : string) (worst found : string) (items : list VerificationItem) : string * string :=
  match items with
  | [] => (worst, found)
  | it :: items =>
      let c := classOf d (value it d) in
      let '(worst, found) := if worse c worst then (c, value it d) else (worst, found) in
      if String.eqb worst classContradicted then (worst, found) else worst_value d worst found items
  end.

Definition reason_of (items : list VerificationItem) (ev : DimensionAvailability) (coverageValue d : string) : VerificationReason :=
  let scope := if String.eqb d dimLifecycle then reportScopeLedger else if String.eqb d dimCoverage then reportScopeReport else "" in
  if negb (get ev d) then MkReason d (if String.eqb d dimCoverage then coverageValue else "") false false scope
  else
    let '(worst, found) := worst_value d classOK "" items in
    MkReason d (if String.eqb d dimCoverage then coverageValue else found) true (String.eqb worst classContradicted) scope.

Definition buildVerificationReasons (items : list VerificationItem) (ev : DimensionAvailability) (coverageValue : string) : list VerificationReason :=
  map (reason_of items ev coverageValue) verificationDimensions.

Definition by_publication (a b : VerificationItem) : bool := vi_PublicationID a <? vi_PublicationID b.

Definition subject_of (pubs : list Z) (limit unattributed : Z) : VerificationSubject :=
  match pubs with
  | [] => MkVerificationSubject [] 0 0 limit false unattributed
  | p :: _ =>
      MkVerificationSubject pubs (foldl (fun lo q => if q <? lo then q else lo) p pubs) (foldl (fun hi q => if hi <? q then q else hi) p pubs)
        limit (limit <=? Z.of_nat (length pubs)) unattributed
  end.

Definition buildVerificationReport (input : verificationInputs) : result error VerificationReport :=
  let ev := ruler input in
  let coverageValue := coverageVerdictOf (in_coverage input) in
  let found := omap (item_of_result input) (in_results input) in
  let items := sort_slice by_publication found in
  let pubs := sort_slice Z.ltb (map vi_PublicationID found) in
  let unattributed := Z.of_nat (length (List.filter (fun res => bool_decide (attributed (in_idOf input) res = None)) (in_results input))) in
  match buildVerificationReasons items ev coverageValue with
  | [] => Err "verification: refusing to produce a verdict with an empty reason chain (fail-closed)"
  | reasons =>
      Ok (MkReport (MkVerificationSigned 0 (subject_of pubs (in_limit input) unattributed) ev items (mergeOverall (reportOverallClasses items)) reasons
           (in_now input)) None None)
  end.

(** ** The entries of the log *)

(** The bytes that the signature of an entry covers. *)
Record verificationSignedEntry : Type := MkSignedEntry {
  vh_V : Z;
  vh_report : verificationSigned;
  vh_StreamID : string;
  vh_KeyID : string;
  vh_PrevDigest : string }.

#[export] Instance verificationSignedEntry_eq_dec : EqDecision verificationSignedEntry.
Proof. solve_decision. Defined.

Record verificationLogEntry : Type := MkVerification {
  ve_signed : verificationSignedEntry;
  ve_Digest : string;
  ve_Signature : option signatureBlock }.

Definition verificationSignedEntryFields (e : verificationLogEntry) : verificationSignedEntry := ve_signed e.

Definition ve_report (e : verificationLogEntry) : verificationSigned := vh_report (ve_signed e).
Definition ve_ReportSeq (e : verificationLogEntry) : Z := vs_ReportSeq (ve_report e).
Definition ve_Items (e : verificationLogEntry) : list VerificationItem := vs_Items (ve_report e).
Definition ve_VerifiedAt (e : verificationLogEntry) : string := vs_VerifiedAt (ve_report e).
Definition ve_PrevDigest (e : verificationLogEntry) : string := vh_PrevDigest (ve_signed e).

Record verificationProblem : Type := MkProblem { vp_ReportSeq : Z; vp_Verdict : string; vp_Detail : string }.

Record verificationState : Type := MkVerificationState {
  vst_entries : list verificationLogEntry;
  vst_window : logWindow;
  vst_verifiable : bool;
  vst_errs : list string;
  vst_total : Z;
  vst_problems : list verificationProblem }.

(** ** The comparison of two reports *)

Definition item_about (e : verificationLogEntry) (p : Z) : option VerificationItem := List.find (fun it => vi_PublicationID it =? p) (ve_Items e).

Definition valueOfEntry (e : verificationLogEntry) (p : Z) (dim : string) : string := from_option (fun it => value it dim) "" (item_about e p).

Definition overallOfEntry (e : verificationLogEntry) (p : Z) : string := from_option vi_Overall "" (item_about e p).

Definition availabilityOf (e : verificationLogEntry) (p : Z) (dim : string) : bool :=
  get (vs_Evaluable (ve_report e)) dim && negb (String.eqb (valueOfEntry e p dim) "").

Definition sameAvailability (a b : string -> bool) : bool := forallb (fun d => Bool.eqb (a d) (b d)) verificationDimensions.

Definition changeConsistent : string := "consistent".
Definition changeDivergent : string := "divergent".
Definition changeScopeChanged : string := "scope_changed".

(** The kind of a change, the dimension, the dimensions that came or went. *)
Definition classifyChange (r1 r2 : verificationLogEntry) (p : Z) : string * string * list string :=
  let a1 := availabilityOf r1 p in
  let a2 := availabilityOf r2 p in
  match List.find (fun d => a1 d && a2 d && negb (String.eqb (valueOfEntry r1 p d) (valueOfEntry r2 p d))) verificationDimensions with
  | Some d => (changeDivergent, d, [])
  | None =>
      if sameAvailability a1 a2 && negb (String.eqb (overallOfEntry r1 p) (overallOfEntry r2 p)) then (changeDivergent, "", [])
      else if negb (sameAvailability a1 a2)
      then (changeScopeChanged, "", List.filter (fun d => negb (Bool.eqb (a1 d) (a2 d))) verificationDimensions)
      else (changeConsistent, "", [])
  end.

Record VerificationChange : Type := MkChange {
  vc_PublicationID : Z;
  vc_FromReportSeq : Z;
  vc_ToReportSeq : Z;
  vc_Dimension : string;
  vc_ChangedDimensions : list string;
  vc_FromOverall : string;
  vc_ToOverall : string;
  vc_Reasons : list VerificationReason }.

Definition entryBySeq (st : verificationState) (seq : Z) : option verificationLogEntry :=
  List.find (fun e => ve_ReportSeq e =? seq) (vst_entries st).

(** The reports about each publication, in the order of the log. *)
Definition note_item (seq : Z) (byPub : gmap Z (list Z)) (it : VerificationItem) : gmap Z (list Z) :=
  <[vi_PublicationID it := default [] (byPub !! vi_PublicationID it) ++ [seq]]> byPub.

Definition reports_by_publication (es : list verificationLogEntry) : gmap Z (list Z) :=
  foldl (fun byPub e => foldl (note_item (ve_ReportSeq e)) byPub (ve_Items e)) ∅ es.

(** One pair of neighbours. *)
Definition compare_reports (st : verificationState) (p s1 s2 : Z) : list (string * VerificationChange) :=
  match entryBySeq st s1, entryBySeq st s2 with
  | Some r1, Some r2 =>
      if (s1 <? lw_Min (vst_window st)) || (lw_Max (vst_window st) <? s2) then []
      else
        let '(kind, dim, changed) := classifyChange r1 r2 p in
        if String.eqb kind changeConsistent then []
        else [(kind, MkChange p (ve_ReportSeq r1) (ve_ReportSeq r2) dim changed (overallOfEntry r1 p) (overallOfEntry r2 p) (vs_Reasons (ve_report r2)))]
  | _, _ => []
  end.

Fixpoint compare_neighbours (st : verificationState) (p : Z) (rs : list Z) : list (string * VerificationChange) :=
  match rs with
  | s1 :: (s2 :: _) as rs => compare_reports st p s1 s2 ++ compare_neighbours st p rs
  | _ => []
  end.

Definition all_changes (st : verificationState) : list (string * VerificationChange) :=
  let byPub := reports_by_publication (vst_entries st) in
  mjoin (map (fun p => compare_neighbours st p (sortInt64s (default [] (byPub !! p)))) (keys_of byPub)).

(** The divergent changes, and those of the scope. *)
Definition deriveVerificationChanges (st : verificationState) : list VerificationChange * list VerificationChange :=
  if negb (lw_Continuous (vst_window st)) then ([], [])
  else
    let pick kind := map snd (List.filter (fun c => String.eqb (fst c) kind) (all_changes st)) in
    (pick changeDivergent, pick changeScopeChanged).

(** ** Merging *)

Lemma merge_classes_spec cs weak :
  (merge_classes weak cs = verificationContradicted <-> In classContradicted cs) /\
  (merge_classes weak cs = verificationAttested <-> weak = false /\ Forall (fun c => c = classOK) cs).
Proof.
  revert weak. induction cs as [|c cs IH]; intros weak; cbn [merge_classes].
  { destruct weak; (split; [split; [done|by intros []]|split; [by intros|by intros [? _]]]). }
  destruct (String.eqb_spec c classContradicted) as [->|Hc].
  - split; [split; [by left|done]|]. split; [done|]. by intros [_ [? _]%Forall_cons].
  - destruct (IH (if String.eqb c classOK then weak else true)) as [IH1 IH2]. split.
    + rewrite IH1. split; [by right|]. by intros [->|?].
    + rewrite IH2, Forall_cons. destruct (String.eqb_spec c classOK); [tauto|]. split; [by intros [? _]|tauto].
Qed.

Lemma merge_values cs : In (mergeOverall cs) [verificationAttested; verificationUnattested; verificationContradicted].
Proof.
  unfold mergeOverall. generalize false. induction cs as [|c cs IH]; intros weak; cbn [merge_classes]; [destruct weak; cbn; tauto|].
  destruct (String.eqb c classContradicted); [cbn; tauto|apply IH].
Qed.

(** A dimension of a publication speaks against it, or for it. *)
Definition speaks_against (ev : DimensionAvailability) (it : VerificationItem) (d : string) : Prop :=
  get ev d = true /\ classOf d (value it d) = classContradicted.

Definition speaks_for (ev : DimensionAvailability) (it : VerificationItem) (d : string) : Prop :=
  get ev d = true /\ classOf d (value it d) = classOK.

Lemma item_overall it ev :
  (mergeOverall (classesOfItem it ev) = verificationContradicted <-> exists d, In d verificationDimensions /\ speaks_against ev it d) /\
  (mergeOverall (classesOfItem it ev) = verificationAttested <-> forall d, In d verificationDimensions -> speaks_for ev it d).
Proof.
  destruct (merge_classes_spec (classesOfItem it ev) false) as [Hc Ha]. unfold mergeOverall. rewrite Hc, Ha. unfold classesOfItem, speaks_against, speaks_for. split.
  - rewrite in_map_iff. split.
    + intros (d & Hd & Hin). exists d. split; [done|]. by destruct (get ev d).
    + intros (d & Hin & Hev & Hd). exists d. by rewrite Hev.
  - rewrite List.Forall_map, List.Forall_forall. split.
    + intros [_ Hall] d Hd. specialize (Hall d Hd). by destruct (get ev d).
    + intros Hall. split; [done|]. intros d Hd. destruct (Hall d Hd) as [-> ->]. done.
Qed.

Lemma dims_nodup : NoDup verificationDimensions.
Proof. by apply (bool_decide_unpack _). Qed.

Lemma class_cases d v : In (classOf d v) [classOK; classContradicted; classUnattested].
Proof. unfold classOf. repeat case_match; cbn; tauto. Qed.

Lemma class_rank d v : (rank (classOf d v) = 2 <-> classOf d v = classContradicted) /\ (rank (classOf d v) = 0 <-> classOf d v = classOK).
Proof. by destruct (class_cases d v) as [<-|[<-|[<-|[]]]]. Qed.

(** The worst class, and a value that has it. *)
Lemma worst_spec d items worst found :
  In worst [classOK; classContradicted; classUnattested] ->
  let '(w, v) := worst_value d worst found items in
  In w [classOK; classContradicted; classUnattested] /\ rank worst <= rank w /\
  Forall (fun it => rank (classOf d (value it d)) <= rank w) items /\
  ((w, v) = (worst, found) \/ exists it, In it items /\ v = value it d /\ w = classOf d v).
Proof.
  revert worst found. induction items as [|it items IH]; intros worst found Hw; cbn [worst_value]; [by auto using Forall_nil_2, Z.le_refl|].
  pose proof (class_cases d (value it d)) as Hc. unfold worse. destruct (Z.ltb_spec (rank worst) (rank (classOf d (value it d)))) as [Hlt|Hge].
  - destruct (String.eqb_spec (classOf d (value it d)) classContradicted) as [E|E].
    + rewrite E in *. split; [done|]. split; [lia|]. split.
      * constructor; [by rewrite E|]. apply List.Forall_forall. intros x _. by destruct (class_cases d (value x d)) as [<-|[<-|[<-|[]]]].
      * right. exists it. split; [by left|done].
    + specialize (IH _ (value it d) Hc). destruct (worst_value _ _ _ _) as [w v]. destruct IH as (H1 & H2 & H3 & H4). split; [done|].
      split; [lia|]. split; [by constructor|]. right. destruct H4 as [[= -> ->]|(x & Hx & Hv)]; [exists it|exists x]; cbn; tauto.
  - destruct (String.eqb_spec worst classContradicted) as [->|E].
    + split; [done|]. split; [done|]. split; [|by left]. constructor; [done|]. apply List.Forall_forall. intros x _.
      by destruct (class_cases d (value x d)) as [<-|[<-|[<-|[]]]].
    + specialize (IH _ found Hw). destruct (worst_value _ _ _ _) as [w v]. destruct IH as (H1 & H2 & H3 & H4). split; [done|].
      split; [done|]. split; [constructor; [lia|done]|]. destruct H4 as [|(x & Hx & Hv)]; [by left|right; exists x; cbn; tauto].
Qed.

Lemma publications_sorted items : sort_slice Z.ltb (map vi_PublicationID items) = map vi_PublicationID (sort_slice by_publication items).
Proof.
  apply (sorted_perm_unique (sort_le Z.ltb)).
  - unfold sort_le. intros x y _ _ Hx%Z.ltb_ge Hy%Z.ltb_ge. lia.
  - apply sort_slice_sorted; intros x y; [|intros z]; rewrite ?Z.ltb_lt, ?Z.ltb_ge; lia.
  - assert (Hs : StronglySorted (sort_le by_publication) (sort_slice by_publication items)).
    { apply sort_slice_sorted; unfold by_publication; intros x y; [|intros z]; rewrite ?Z.ltb_lt, ?Z.ltb_ge; lia. }
    induction Hs as [|x l _ IH Hx]; [constructor|]. cbn. constructor; [done|]. apply List.Forall_map. eapply Forall_impl; [exact Hx|]. done.
  - by rewrite sort_slice_perm, (sort_slice_perm by_publication items).
Qed.

Lemma subject_bounds pubs limit un :
  let s := subject_of pubs limit un in
  sj_Publications s = pubs /\ sj_Unattributed s = un /\ forall p, p ∈ pubs -> sj_MinID s <= p <= sj_MaxID s.
Proof.
  destruct pubs as [|p pubs]; [do 2 (split; [done|]); by intros p Hp%elem_of_nil|]. cbn zeta. do 2 (split; [done|]). unfold subject_of. cbn [sj_MinID sj_MaxID]. intros q Hq.
  assert (Hall : forall l lo hi, foldl (fun lo q => if q <? lo then q else lo) lo l <= lo /\ hi <= foldl (fun hi q => if hi <? q then q else hi) hi l /\
    forall q, q ∈ l -> foldl (fun lo q => if q <? lo then q else lo) lo l <= q <= foldl (fun hi q => if hi <? q then q else hi) hi l).
  { clear. induction l as [|x l IH]; intros lo hi; [split; [done|]; split; [done|]; by intros q Hq%elem_of_nil|]. cbn [foldl].
    destruct (IH (if x <? lo then x else lo) (if hi <? x then x else hi)) as (H1 & H2 & H3). destruct (Z.ltb_spec x lo), (Z.ltb_spec hi x).
    all: split; [lia|]; split; [lia|]; intros q [->|Hq]%elem_of_cons; [lia|by apply H3]. }
  by apply Hall.
Qed.

(** ** What a report says *)

Definition report_items (input : verificationInputs) : list VerificationItem := sort_slice by_publication (omap (item_of_result input) (in_results input)).

Lemma item_made input res it : item_of_result input res = Some it ->
  attributed (in_idOf input) res = Some (vi_PublicationID it) /\ vi_Overall it = mergeOverall (classesOfItem it (ruler input)) /\
  vi_Status it = vr_Status res /\ vi_Signature it = from_option sv_Verdict "" (vr_Signature res) /\ vi_Chain it = vr_Chain res.
Proof. unfold item_of_result. destruct (attributed _ _) as [id|]; [|done]. by intros [= <-]. Qed.

Lemma items_from input it : In it (report_items input) -> exists res, In res (in_results input) /\ item_of_result input res = Some it.
Proof.
  unfold report_items. rewrite <- list_elem_of_In, sort_slice_elem. rewrite list_elem_of_omap. intros (res & Hr & Hi). exists res. by rewrite <- list_elem_of_In.
Qed.

Lemma publication_order input : StronglySorted (sort_le Z.ltb) (map vi_PublicationID (report_items input)).
Proof. unfold report_items. rewrite <- publications_sorted. apply sort_slice_sorted; intros x y; [|intros z]; rewrite ?Z.ltb_lt, ?Z.ltb_ge; lia. Qed.

Lemma items_counted input :
  Z.of_nat (length (report_items input)) +
  Z.of_nat (length (List.filter (fun res => bool_decide (attributed (in_idOf input) res = None)) (in_results input))) = Z.of_nat (length (in_results input)).
Proof.
  unfold report_items. rewrite sort_slice_length. induction (in_results input) as [|res rs IH]; [done|].
  cbn [omap list_omap List.filter length]. unfold item_of_result at 1. destruct (attributed (in_idOf input) res); cbn [length]; [rewrite bool_decide_false by done|rewrite bool_decide_true by done; cbn [length]]; lia.
Qed.

Lemma publications_attributed input :
  map vi_PublicationID (omap (item_of_result input) (in_results input)) = omap (attributed (in_idOf input)) (in_results input).
Proof.
  induction (in_results input) as [|res rs IH]; [done|]. cbn [omap list_omap]. unfold item_of_result at 1.
  destruct (attributed _ res) as [id|]; cbn [map]; by rewrite IH.
Qed.

Lemma reason_made items ev cov d : In d verificationDimensions ->
  let r := reason_of items ev cov d in
  rn_Dimension r = d /\ rn_Evaluable r = get ev d /\
  (rn_Blocking r = true <-> exists it, In it items /\ speaks_against ev it d) /\
  (get ev d = true -> d <> dimCoverage ->
    rn_Value r = "" /\ (forall it, In it items -> speaks_for ev it d) \/
    exists it, In it items /\ rn_Value r = value it d /\
      forall it', In it' items -> rank (classOf d (value it' d)) <= rank (classOf d (rn_Value r))).
Proof.
  intros Hd. unfold reason_of, speaks_against, speaks_for.
  destruct (get ev d) eqn:Eev; cbn [negb]; [|cbn; do 2 (split; [done|]); split; [|done]; split; [done|by intros (it & _ & ? & _)]].
  pose proof (worst_spec d items classOK "" ltac:(by left)) as Hw. destruct (worst_value _ _ _ _) as [w v]. destruct Hw as (Hcl & _ & Hall & Hfrom).
  rewrite List.Forall_forall in Hall. cbn [rn_Dimension rn_Evaluable rn_Blocking rn_Value]. do 2 (split; [done|]). split.
  - rewrite String.eqb_eq. split.
    + intros ->. destruct Hfrom as [[= ]|(it & Hin & -> & E)]. exists it. by rewrite <- E.
    + intros (it & Hin & _ & E). specialize (Hall it Hin). rewrite E in Hall. by destruct Hcl as [<-|[<-|[<-|[]]]].
  - intros _ Hcov. rewrite (proj2 (String.eqb_neq d dimCoverage) Hcov). destruct Hfrom as [[= -> ->]|(it & Hin & -> & ->)].
    + left. split; [done|]. intros it Hin. split; [done|]. specialize (Hall it Hin). apply class_rank.
      change (rank classOK) with 0 in Hall. by destruct (class_cases d (value it d)) as [E|[E|[E|[]]]]; rewrite <- E in *.
    + right. exists it. auto.
Qed.

Lemma overall_of_items items ev :
  (forall it, In it items -> vi_Overall it = mergeOverall (classesOfItem it ev)) ->
  (mergeOverall (reportOverallClasses items) = verificationContradicted <->
     exists it d, In it items /\ In d verificationDimensions /\ speaks_against ev it d) /\
  (mergeOverall (reportOverallClasses items) = verificationAttested <->
     forall it d, In it items -> In d verificationDimensions -> speaks_for ev it d).
Proof.
  intros Hit. destruct (merge_classes_spec (reportOverallClasses items) false) as [Hc Ha]. unfold mergeOverall. rewrite Hc, Ha. unfold reportOverallClasses. split.
  - rewrite in_map_iff. split.
    + intros (it & E & Hin). destruct (item_overall it ev) as [Hic _]. rewrite <- Hit in Hic by done.
      assert (Ec : vi_Overall it = verificationContradicted).
      { unfold mapItemOverall in E. destruct (String.eqb_spec (vi_Overall it) verificationAttested); [done|].
        by destruct (String.eqb_spec (vi_Overall it) verificationContradicted). }
      destruct (proj1 Hic Ec) as (d & Hd & Hs). by exists it, d.
    + intros (it & d & Hin & Hd & Hs). exists it. split; [|done]. rewrite Hit by done.
      rewrite (proj2 (proj1 (item_overall it ev))); [done|by exists d].
  - rewrite List.Forall_map, List.Forall_forall. split.
    + intros [_ Hall] it d Hin Hd. apply (item_overall it ev); [|done]. rewrite <- Hit by done. specialize (Hall it Hin).
      unfold mapItemOverall in Hall. destruct (String.eqb_spec (vi_Overall it) verificationAttested); [done|].
      by destruct (String.eqb_spec (vi_Overall it) verificationContradicted).
    + intros Hall. split; [done|]. intros it Hin. rewrite Hit by done. rewrite (proj2 (proj2 (item_overall it ev))); [done|]. intros d Hd. by apply Hall.
Qed.

(** The report, as it comes out. *)
Definition report_body (input : verificationInputs) : verificationSigned :=
  let items := report_items input in
  MkVerificationSigned 0
    (subject_of (map vi_PublicationID items) (in_limit input)
       (Z.of_nat (length (List.filter (fun res => bool_decide (attributed (in_idOf input) res = None)) (in_results input)))))
    (ruler input) items (mergeOverall (reportOverallClasses items))
    (map (reason_of items (ruler input) (coverageVerdictOf (in_coverage input))) verificationDimensions) (in_now input).

Lemma report_made input : buildVerificationReport input = Ok (MkReport (report_body input) None None).
Proof. unfold buildVerificationReport, report_body. rewrite publications_sorted. reflexivity. Qed.

(** C4. What a report says is what was found: it never fails; each result that has
    a publication gives one item, in the order of the publications, and the others
    are counted. A publication is contradicted exactly if a dimension that could be
    evaluated speaks against it, and attested exactly if every dimension could be
    evaluated and speaks for it. A report is contradicted exactly if one of its
    publications is, and attested exactly if all of them are: with one item at
    least that takes every dimension to be evaluable, while without any item the
    report is always attested, whatever could be evaluated ([empty_attested] of
    VerificationLog; the code says that with an incomplete ruler it never is). There
    is a reason for each dimension, which blocks exactly if the dimension speaks
    against a publication and otherwise names the worst value there is; so the
    report is contradicted exactly if a reason blocks. *)
Theorem report_exact input :
  exists s, buildVerificationReport input = Ok (MkReport s None None) /\
  let ev := vs_Evaluable s in
  let items := vs_Items s in
  let subject := vs_Subject s in
  ev = ruler input /\
  sj_Publications subject = map vi_PublicationID items /\ StronglySorted (sort_le Z.ltb) (sj_Publications subject) /\
  sj_Publications subject ≡ₚ omap (attributed (in_idOf input)) (in_results input) /\
  Z.of_nat (length items) + sj_Unattributed subject = Z.of_nat (length (in_results input)) /\
  (forall it, In it items -> sj_MinID subject <= vi_PublicationID it <= sj_MaxID subject /\
     (exists res, In res (in_results input) /\ attributed (in_idOf input) res = Some (vi_PublicationID it) /\
        vi_Status it = vr_Status res /\ vi_Signature it = from_option sv_Verdict "" (vr_Signature res) /\ vi_Chain it = vr_Chain res) /\
     (vi_Overall it = verificationContradicted <-> exists d, In d verificationDimensions /\ speaks_against ev it d) /\
     (vi_Overall it = verificationAttested <-> forall d, In d verificationDimensions -> speaks_for ev it d)) /\
  In (vs_Overall s) [verificationAttested; verificationUnattested; verificationContradicted] /\
  (vs_Overall s = verificationContradicted <-> exists it d, In it items /\ In d verificationDimensions /\ speaks_against ev it d) /\
  (vs_Overall s = verificationAttested <-> forall it d, In it items -> In d verificationDimensions -> speaks_for ev it d) /\
  (items <> [] -> vs_Overall s = verificationAttested -> forall d, In d verificationDimensions -> get ev d = true) /\
  (items = [] -> vs_Overall s = verificationAttested) /\
  map rn_Dimension (vs_Reasons s) = verificationDimensions /\
  (vs_Overall s = verificationContradicted <-> exists r, In r (vs_Reasons s) /\ rn_Blocking r = true) /\
  (forall r, In r (vs_Reasons s) -> let d := rn_Dimension r in
     rn_Evaluable r = get ev d /\ (rn_Blocking r = true <-> exists it, In it items /\ speaks_against ev it d) /\
     (get ev d = true -> d <> dimCoverage ->
       rn_Value r = "" /\ (forall it, In it items -> speaks_for ev it d) \/
       exists it, In it items /\ rn_Value r = value it d /\
         forall it', In it' items -> rank (classOf d (value it' d)) <= rank (classOf d (rn_Value r)))).
Proof.
  exists (report_body input). split; [apply report_made|]. unfold report_body. cbn [vs_Evaluable vs_Items vs_Subject vs_Overall vs_Reasons].
  set (ev := ruler input). set (items := report_items input).
  assert (Hover : forall it, In it items -> vi_Overall it = mergeOverall (classesOfItem it ev)).
  { intros it (res & _ & Hres)%items_from. apply (item_made input res it Hres). }
  destruct (overall_of_items items ev Hover) as [Hc Ha].
  match goal with |- context [subject_of ?p ?l ?u] => destruct (subject_bounds p l u) as (-> & -> & Hb) end.
  pose proof (reason_made items ev (coverageVerdictOf (in_coverage input))) as Hr.
  split; [done|]. split; [done|]. split; [apply publication_order|].
  split; [unfold items, report_items; by rewrite <- publications_sorted, sort_slice_perm, publications_attributed|].
  split; [apply items_counted|]. split.
  { intros it Hin. split; [apply Hb, list_elem_of_In, in_map, Hin|]. rewrite (Hover it Hin). split; [|apply item_overall].
    destruct (items_from input it Hin) as (res & Hres & Hmade). exists res. destruct (item_made input res it Hmade) as (H1 & _ & H2 & H3 & H4). auto. }
  split; [apply merge_values|]. split; [done|]. split; [done|].
  split. { intros Hsome Hatt d Hd. destruct items as [|it its]; [done|]. by destruct (proj1 Ha Hatt it d (or_introl eq_refl) Hd). }
  split. { intros Hnone. apply Ha. by rewrite Hnone. }
  split; [rewrite map_map; etransitivity; [apply map_ext_in; intros d Hd; exact (proj1 (Hr d Hd))|apply map_id]|].
  split.
  - rewrite Hc. split.
    + intros (it & d & Hin & Hd & Hs). exists (reason_of items ev (coverageVerdictOf (in_coverage input)) d). split; [by apply in_map|].
      apply (Hr d Hd). by exists it.
    + intros (r & (d & <- & Hd)%in_map_iff & Hblock). destruct (Hr d Hd) as (_ & _ & Hbl & _). destruct (proj1 Hbl Hblock) as (it & Hin & Hs). by exists it, d.
  - intros r (d & <- & Hd)%in_map_iff. destruct (Hr d Hd) as (-> & H1 & H2 & H3). auto.
Qed.

(** ** Agreement of two reports on a publication

    They could evaluate the same of it, found the same, and concluded the same. *)

Definition agree (p : Z) (r1 r2 : verificationLogEntry) : Prop :=
  Forall (fun d => availabilityOf r1 p d = availabilityOf r2 p d /\
                   (availabilityOf r1 p d = true -> valueOfEntry r1 p d = valueOfEntry r2 p d)) verificationDimensions /\
  overallOfEntry r1 p = overallOfEntry r2 p.

#[export] Instance agree_dec p r1 r2 : Decision (agree p r1 r2).
Proof. solve_decision. Defined.

#[export] Instance agree_equivalence p : Equivalence (agree p).
Proof.
  split.
  - intros r. split; [|done]. apply List.Forall_forall. done.
  - intros r1 r2 [Hd Ho]. split; [|done]. eapply Forall_impl; [exact Hd|]. intros d [Ha Hv]. split; [done|]. rewrite <- Ha. intros E. symmetry. auto.
  - intros r1 r2 r3 [Hd Ho] [Hd' Ho']. split; [|congruence]. rewrite List.Forall_forall in *. intros d Hin.
    destruct (Hd d Hin) as [Ha Hv], (Hd' d Hin) as [Ha' Hv']. split; [congruence|]. intros E. rewrite Hv by done. apply Hv'. congruence.
Qed.

(** A dimension that both could evaluate and that came out otherwise. *)
Definition disagree_on (p : Z) (r1 r2 : verificationLogEntry) (d : string) : Prop :=
  availabilityOf r1 p d = true /\ availabilityOf r2 p d = true /\ valueOfEntry r1 p d <> valueOfEntry r2 p d.

Lemma same_availability a b : sameAvailability a b = true <-> forall d, In d verificationDimensions -> a d = b d.
Proof. unfold sameAvailability. rewrite forallb_forall. split; intros Hd d Hin; specialize (Hd d Hin); [by apply eqb_prop|by rewrite Hd, eqb_reflx]. Qed.

Lemma classify_spec r1 r2 p :
  let '(kind, dim, changed) := classifyChange r1 r2 p in
  (kind = changeConsistent /\ agree p r1 r2 /\ changed = []) \/
  (kind = changeDivergent /\ ~ agree p r1 r2 /\ changed = [] /\
     (In dim verificationDimensions /\ disagree_on p r1 r2 dim \/
      dim = "" /\ (forall d, In d verificationDimensions -> availabilityOf r1 p d = availabilityOf r2 p d) /\ overallOfEntry r1 p <> overallOfEntry r2 p)) \/
  (kind = changeScopeChanged /\ ~ agree p r1 r2 /\ dim = "" /\ changed <> [] /\
     (forall d, In d changed <-> In d verificationDimensions /\ availabilityOf r1 p d <> availabilityOf r2 p d) /\
     (forall d, In d verificationDimensions -> ~ disagree_on p r1 r2 d)).
Proof.
  unfold classifyChange. destruct (List.find _ verificationDimensions) as [d|] eqn:Ef.
  { apply List.find_some in Ef as [Hin Hd]. apply andb_true_iff in Hd as [[H1 H2]%andb_true_iff Hv]. apply negb_true_iff, String.eqb_neq in Hv.
    right; left. split; [done|]. split; [|split; [done|]; left; done]. intros [Hall _]. rewrite List.Forall_forall in Hall. by apply Hv, Hall. }
  assert (Hno : forall d, In d verificationDimensions -> ~ disagree_on p r1 r2 d).
  { intros d Hin (H1 & H2 & Hv). pose proof (List.find_none _ _ Ef d Hin) as Hd. cbv beta in Hd. rewrite H1, H2 in Hd. cbn [andb] in Hd.
    apply negb_false_iff, String.eqb_eq in Hd. done. }
  destruct (sameAvailability (availabilityOf r1 p) (availabilityOf r2 p)) eqn:Es; cbn [andb negb].
  - pose proof (proj1 (same_availability _ _) Es) as Ha. destruct (String.eqb_spec (overallOfEntry r1 p) (overallOfEntry r2 p)) as [Ho|Ho]; cbn [negb].
    + left. split; [done|]. split; [|done]. split; [|done]. apply List.Forall_forall. intros d Hin. split; [by apply Ha|]. intros E.
      destruct (decide (valueOfEntry r1 p d = valueOfEntry r2 p d)) as [|Hv]; [done|]. destruct (Hno d Hin). repeat split; [done| |done]. by rewrite <- Ha.
    + right; left. split; [done|]. split; [by intros [_ ?]|]. split; [done|]. by right.
  - right; right. assert (Hch : forall d, In d (List.filter (fun d => negb (Bool.eqb (availabilityOf r1 p d) (availabilityOf r2 p d))) verificationDimensions) <->
      In d verificationDimensions /\ availabilityOf r1 p d <> availabilityOf r2 p d).
    { intros d. rewrite List.filter_In, negb_true_iff, eqb_false_iff. done. }
    assert (Hex : ~ forall d, In d verificationDimensions -> availabilityOf r1 p d = availabilityOf r2 p d).
    { intros Hall. apply same_availability in Hall. congruence. }
    split; [done|]. split; [|split; [done|split; [|by split]]].
    + intros [Hall _]. apply Hex. rewrite List.Forall_forall in Hall. intros d Hin. by apply Hall.
    + intros E. apply Hex. intros d Hin. destruct (decide (availabilityOf r1 p d = availabilityOf r2 p d)) as [|Hd]; [done|].
      pose proof (proj2 (Hch d) (conj Hin Hd)) as Hc. rewrite E in Hc. destruct Hc.
Qed.

(** ** What is compared *)

Definition about (p : Z) (e : verificationLogEntry) : Prop := exists it, In it (ve_Items e) /\ vi_PublicationID it = p.

Lemma note_items_elem seq items byPub p s :
  s ∈ default [] (foldl (note_item seq) byPub items !! p) <->
  s ∈ default [] (byPub !! p) \/ s = seq /\ exists it, In it items /\ vi_PublicationID it = p.
Proof.
  revert byPub. induction items as [|it items IH]; intros byPub; cbn [foldl]; [split; [by left|by intros [?|(_ & it & [] & _)]]|].
  rewrite IH. unfold note_item. destruct (decide (vi_PublicationID it = p)) as [<-|Hp].
  - rewrite lookup_insert_eq. cbn [default from_option id]. rewrite elem_of_app, list_elem_of_singleton. split.
    + intros [[?| ->]|(-> & x & Hx & E)]; [by left|right; split; [done|]; exists it; cbn; tauto|right; split; [done|]; exists x; cbn; tauto].
    + intros [?|(-> & _)]; [by left; left|by left; right].
  - rewrite lookup_insert_ne by done. split.
    + intros [?|(-> & x & Hx & E)]; [by left|right; split; [done|]; exists x; cbn; tauto].
    + intros [?|(-> & x & [->|Hx] & E)]; [by left|done|right; split; [done|]; by exists x].
Qed.

Lemma reports_elem es p s : s ∈ default [] (reports_by_publication es !! p) <-> exists e, In e es /\ ve_ReportSeq e = s /\ about p e.
Proof.
  unfold reports_by_publication.
  assert (Hall : forall byPub, s ∈ default [] (foldl (fun byPub e => foldl (note_item (ve_ReportSeq e)) byPub (ve_Items e)) byPub es !! p) <->
    s ∈ default [] (byPub !! p) \/ exists e, In e es /\ ve_ReportSeq e = s /\ about p e).
  { induction es as [|e es IH]; intros byPub; cbn [foldl]; [split; [by left|by intros [?|(e & [] & _)]]|].
    rewrite IH, note_items_elem. split.
    - intros [[?|[-> Hp]]|(x & Hx & Hs)]; [by left|right; exists e; cbn; auto|right; exists x; cbn; tauto].
    - intros [?|(x & [->|Hx] & <- & Hp)]; [by left; left|left; right; split; [done|exact Hp]|right; by exists x]. }
  rewrite Hall, lookup_empty. cbn. split; [intros [Hs%elem_of_nil|?]; done|by right].
Qed.

Lemma neighbours_elem st p rs x : In x (compare_neighbours st p rs) <->
  exists i s1 s2, rs !! i = Some s1 /\ rs !! S i = Some s2 /\ In x (compare_reports st p s1 s2).
Proof.
  induction rs as [|s1 rs IH]; [split; [done|by intros (i & ? & ? & ? & _)]|].
  destruct rs as [|s2 rs]; [split; [done|]; by intros ([|i] & ? & ? & ? & ? & _)|].
  change (compare_neighbours st p (s1 :: s2 :: rs)) with (compare_reports st p s1 s2 ++ compare_neighbours st p (s2 :: rs)). rewrite in_app_iff, IH. split.
  - intros [Hx|(i & a & b & Ha & Hb & Hx)]; [by exists 0%nat, s1, s2|by exists (S i), a, b].
  - intros ([|i] & a & b & Ha & Hb & Hx); [left; by simplify_eq/=|right; by exists i, a, b].
Qed.

(** The reports about a publication, in order. *)
Definition reports_about (st : verificationState) (p : Z) : list Z := sortInt64s (default [] (reports_by_publication (vst_entries st) !! p)).

Lemma reports_about_elem st p s : s ∈ reports_about st p <-> exists e, In e (vst_entries st) /\ ve_ReportSeq e = s /\ about p e.
Proof. unfold reports_about, sortInt64s. by rewrite sort_slice_elem, reports_elem. Qed.

Lemma reports_about_sorted st p i j a b : reports_about st p !! i = Some a -> reports_about st p !! j = Some b -> (i <= j)%nat -> a <= b.
Proof.
  assert (Hs : StronglySorted (sort_le Z.ltb) (reports_about st p)) by (apply sort_slice_sorted; intros x y; [|intros z]; rewrite ?Z.ltb_lt, ?Z.ltb_ge; lia).
  revert i j. induction Hs as [|x l _ IH Hx]; intros [|i] [|j] Ha Hb Hij; cbn in *; simplify_eq; try lia.
  - rewrite Forall_forall in Hx. apply list_elem_of_lookup_2 in Hb. by apply Z.ltb_ge, (Hx b).
  - apply (IH i j); [done|done|lia].
Qed.

Lemma changes_elem st x : In x (all_changes st) <->
  exists p i s1 s2, reports_about st p !! i = Some s1 /\ reports_about st p !! S i = Some s2 /\ In x (compare_reports st p s1 s2).
Proof.
  unfold all_changes. rewrite <- list_elem_of_In. unfold mjoin. rewrite list_elem_of_join. split.
  - intros (l & Hx & Hl). apply list_elem_of_fmap in Hl as (p & -> & Hp). apply list_elem_of_In, neighbours_elem in Hx as (i & s1 & s2 & Hx).
    by exists p, i, s1, s2.
  - intros (p & i & s1 & s2 & H1 & H2 & Hx). eexists. split; [|apply list_elem_of_fmap; exists p; split; [done|]].
    + apply list_elem_of_In, neighbours_elem. by exists i, s1, s2.
    + apply keys_of_elem. apply list_elem_of_lookup_2 in H1. unfold reports_about, sortInt64s in H1. rewrite sort_slice_elem in H1.
      destruct (reports_by_publication (vst_entries st) !! p); [done|]. by apply elem_of_nil in H1.
Qed.

(** ** The comparison is exact *)

Section Changes.
Context (st : verificationState).
Context (Hnd : NoDup (map ve_ReportSeq (vst_entries st))).
Context (Hwin : forall e, In e (vst_entries st) -> lw_Min (vst_window st) <= ve_ReportSeq e <= lw_Max (vst_window st)).

Lemma entry_found e : In e (vst_entries st) -> entryBySeq st (ve_ReportSeq e) = Some e.
Proof using Hnd.
  unfold entryBySeq. clear Hwin. revert Hnd. induction (vst_entries st) as [|x es IH]; [done|]. cbn [map List.find]. rewrite NoDup_cons. intros [Hx Hn] [->|Hin].
  - by rewrite Z.eqb_refl.
  - destruct (Z.eqb_spec (ve_ReportSeq x) (ve_ReportSeq e)) as [E|_]; [|by apply IH]. destruct Hx. rewrite E. by apply list_elem_of_In, in_map.
Qed.

(** A change is of two neighbours that do not agree, and says how. *)
Definition genuine (x : string * VerificationChange) (r1 r2 : verificationLogEntry) : Prop :=
  let p := vc_PublicationID (snd x) in
  In r1 (vst_entries st) /\ In r2 (vst_entries st) /\ about p r1 /\ about p r2 /\ ve_ReportSeq r1 < ve_ReportSeq r2 /\
  (forall e, In e (vst_entries st) -> about p e -> ve_ReportSeq e <= ve_ReportSeq r1 \/ ve_ReportSeq r2 <= ve_ReportSeq e) /\
  ~ agree p r1 r2 /\ classifyChange r1 r2 p = (fst x, vc_Dimension (snd x), vc_ChangedDimensions (snd x)) /\
  vc_FromReportSeq (snd x) = ve_ReportSeq r1 /\ vc_ToReportSeq (snd x) = ve_ReportSeq r2 /\
  vc_FromOverall (snd x) = overallOfEntry r1 p /\ vc_ToOverall (snd x) = overallOfEntry r2 p /\ vc_Reasons (snd x) = vs_Reasons (ve_report r2).

Lemma compared_pair p i r1 r2 :
  reports_about st p !! i = Some (ve_ReportSeq r1) -> reports_about st p !! S i = Some (ve_ReportSeq r2) ->
  In r1 (vst_entries st) -> In r2 (vst_entries st) ->
  agree p r1 r2 /\ compare_reports st p (ve_ReportSeq r1) (ve_ReportSeq r2) = [] \/
  exists x, compare_reports st p (ve_ReportSeq r1) (ve_ReportSeq r2) = [x] /\ vc_PublicationID (snd x) = p /\ genuine x r1 r2.
Proof using Hnd Hwin.
  intros Hi Hi' H1 H2. unfold compare_reports. rewrite (entry_found r1 H1), (entry_found r2 H2).
  destruct (Z.ltb_spec (ve_ReportSeq r1) (lw_Min (vst_window st))) as [Hlo|_]; [by apply Hwin in H1; lia|].
  destruct (Z.ltb_spec (lw_Max (vst_window st)) (ve_ReportSeq r2)) as [Hhi|_]; [by apply Hwin in H2; lia|]. cbn [orb].
  pose proof (classify_spec r1 r2 p) as Hc. destruct (classifyChange r1 r2 p) as [[kind dim] changed] eqn:Ec.
  assert (Habout : forall r, ve_ReportSeq r ∈ reports_about st p -> In r (vst_entries st) -> about p r).
  { intros r Hr Hin. apply reports_about_elem in Hr as (e & He & Es & Ha). pose proof (entry_found e He) as Ee. rewrite Es, entry_found in Ee by done. by simplify_eq. }
  assert (Hle : ve_ReportSeq r1 <= ve_ReportSeq r2) by (eapply reports_about_sorted; [exact Hi|exact Hi'|lia]).
  destruct (String.eqb_spec kind changeConsistent) as [->|Hk].
  { left. split; [|done]. by destruct Hc as [(_ & ? & _)|[(? & _)|(? & _)]]. }
  right. eexists. split; [reflexivity|]. split; [done|]. unfold genuine. cbn [snd fst vc_PublicationID vc_Dimension vc_ChangedDimensions vc_FromReportSeq vc_ToReportSeq vc_FromOverall vc_ToOverall vc_Reasons].
  assert (Hag : ~ agree p r1 r2) by (by destruct Hc as [(-> & _)|[(_ & ? & _)|(_ & ? & _)]]).
  split; [done|]. split; [done|]. split; [apply Habout; [by eapply list_elem_of_lookup_2|done]|]. split; [apply Habout; [by eapply list_elem_of_lookup_2|done]|].
  split. { destruct (decide (ve_ReportSeq r1 = ve_ReportSeq r2)) as [E|]; [|lia]. destruct Hag.
    pose proof (entry_found r1 H1) as E1. rewrite E, entry_found in E1 by done. simplify_eq. reflexivity. }
  split; [|by repeat split].
  intros e He Hab. assert (Hel : ve_ReportSeq e ∈ reports_about st p) by (apply reports_about_elem; by exists e).
  apply list_elem_of_lookup in Hel as [j Hj]. destruct (Nat.le_gt_cases j i).
  - left. eapply reports_about_sorted; [exact Hj|exact Hi|done].
  - right. eapply reports_about_sorted; [exact Hi'|exact Hj|lia].
Qed.

Lemma entry_at p i s : reports_about st p !! i = Some s -> exists r, In r (vst_entries st) /\ ve_ReportSeq r = s /\ about p r.
Proof. intros Hi. apply reports_about_elem. by eapply list_elem_of_lookup_2. Qed.

Lemma changes_genuine x : In x (all_changes st) -> exists r1 r2, genuine x r1 r2.
Proof using Hnd Hwin.
  intros (p & i & s1 & s2 & H1 & H2 & Hx)%changes_elem.
  destruct (entry_at _ _ _ H1) as (r1 & Hr1 & <- & _), (entry_at _ _ _ H2) as (r2 & Hr2 & <- & _).
  destruct (compared_pair p i r1 r2 H1 H2 Hr1 Hr2) as [[_ E]|(y & E & _ & Hy)]; rewrite E in Hx; [done|].
  destruct Hx as [<-|[]]. by exists r1, r2.
Qed.

(** No change is left out: between two reports that do not agree, there is one. *)
Lemma changes_complete p r1 r2 :
  In r1 (vst_entries st) -> In r2 (vst_entries st) -> about p r1 -> about p r2 -> ve_ReportSeq r1 <= ve_ReportSeq r2 -> ~ agree p r1 r2 ->
  exists x, In x (all_changes st) /\ vc_PublicationID (snd x) = p /\
    ve_ReportSeq r1 <= vc_FromReportSeq (snd x) /\ vc_ToReportSeq (snd x) <= ve_ReportSeq r2.
Proof using Hnd Hwin.
  intros H1 H2 A1 A2 Hle Hag.
  assert (E1 : ve_ReportSeq r1 ∈ reports_about st p) by (apply reports_about_elem; by exists r1).
  assert (E2 : ve_ReportSeq r2 ∈ reports_about st p) by (apply reports_about_elem; by exists r2).
  apply list_elem_of_lookup in E1 as [i Hi], E2 as [j Hj].
  destruct (Nat.le_gt_cases i j) as [Hij|Hij].
  2: { assert (ve_ReportSeq r2 <= ve_ReportSeq r1) by (eapply reports_about_sorted; [exact Hj|exact Hi|lia]).
       destruct Hag. assert (E : ve_ReportSeq r1 = ve_ReportSeq r2) by lia. pose proof (entry_found r1 H1) as Ee. rewrite E, entry_found in Ee by done.
       simplify_eq. reflexivity. }
  clear Hle. revert j r2 H2 A2 Hag Hj Hij. induction j as [|j IH]; intros r2 H2 A2 Hag Hj Hij.
  { assert (i = 0)%nat as -> by lia. rewrite Hi in Hj. injection Hj as E. pose proof (entry_found r1 H1) as Ee. rewrite E, entry_found in Ee by done.
    destruct Hag. simplify_eq. reflexivity. }
  destruct (decide (i = S j)) as [->|Hne].
  { rewrite Hi in Hj. injection Hj as E. pose proof (entry_found r1 H1) as Ee. rewrite E, entry_found in Ee by done. destruct Hag. simplify_eq. reflexivity. }
  destruct (lookup_lt_is_Some_2 (reports_about st p) j) as [s Hs]; [apply lookup_lt_Some in Hj; lia|].
  destruct (entry_at _ _ _ Hs) as (r & Hr & <- & Ar).
  destruct (decide (agree p r1 r)) as [Ha|Ha].
  - destruct (compared_pair p j r r2 Hs Hj Hr H2) as [[Hb _]|(x & E & Hp & Hx)]; [destruct Hag; by transitivity r|].
    exists x. split; [apply changes_elem; exists p, j, (ve_ReportSeq r), (ve_ReportSeq r2); rewrite E; cbn; tauto|]. split; [done|].
    destruct Hx as (_ & _ & _ & _ & _ & _ & _ & _ & -> & -> & _). split; [|done]. eapply reports_about_sorted; [exact Hi|exact Hs|lia].
  - destruct (IH r Hr Ar Ha Hs ltac:(lia)) as (x & Hx & Hp & Hlo & Hhi). exists x. do 3 (split; [done|]).
    transitivity (ve_ReportSeq r); [done|]. eapply reports_about_sorted; [exact Hs|exact Hj|lia].
Qed.

End Changes.
