(* ===== verification/VerificationLog.v ===== *)
(** * The log of verification reports
      (internal/controlplane/server/snapshot_verification.go)

    Reports are signed, chained and appended to a log of their own, by the verifier's
    key where it has one; how the log is loaded, extended and compacted, the run
    that makes a report, and what is derived from the reports that survive: which
    publications were never verified. *)

From Stdlib Require Import Ascii.
From S2P Require Import Prelude GoStrings GoTime Manifest Coverage Chain AppendLog Ledger SignedLog KeyLifecycle Destruction SnapshotFiles SnapshotVerify SchedulerConfig Anchor AnchorLog Verification.

(** ** Codecs *)

Definition item_texts (it : VerificationItem) : list string :=
  [vi_Status it; vi_Signature it; vi_Chain it; vi_ChainSource it; vi_Anchor it; vi_Lifecycle it; vi_Coverage it; vi_Overall it].

Definition reason_texts (r : VerificationReason) : list string := [rn_Dimension r; rn_Value r; rn_Scope r].

Definition verification_utf8 (e : verificationLogEntry) : bool :=
  let h := ve_signed e in
  let s := vh_report h in
  forallb ValidString [vs_Overall s; vs_VerifiedAt s; vh_StreamID h; vh_KeyID h; vh_PrevDigest h; ve_Digest e] &&
  forallb (fun it => forallb ValidString (item_texts it)) (vs_Items s) && forallb (fun r => forallb ValidString (reason_texts r)) (vs_Reasons s) &&
  from_option signature_utf8 true (ve_Signature e).

(** The JSON of a report, of what is signed of an entry, of an entry. *)
Class VerificationCodec := {
  report_json : verificationSigned -> string;
  entry_signed_json : verificationSignedEntry -> string;
  verification_lines :: LineCodec verificationLogEntry verification_utf8 }.

Section VerificationLog.
Context `{HC : ManifestCrypto} {HF : KeyFiles} {HA : AnchorCodec} {HV : VerificationCodec}.

(** [json.Marshal] of these fields does not fail. *)
Definition canonicalVerificationPayload (r : VerificationReport) : string := report_json (verificationSignedFields r).
Definition reportDigest (r : VerificationReport) : string := hex_EncodeToString (Sum256 (canonicalVerificationPayload r)).
Definition canonicalVerificationEntryPayload (e : verificationLogEntry) : string := entry_signed_json (verificationSignedEntryFields e).
Definition verificationEntryDigest (e : verificationLogEntry) : string := hex_EncodeToString (Sum256 (canonicalVerificationEntryPayload e)).
Definition serializeVerificationEntryBytes (e : verificationLogEntry) : string := serialize e.
Definition verificationGroupOf : string -> Z * bool := groupOf ve_ReportSeq.

(** ** Configuration *)

Record verificationConfig : Type := MkVerificationConfig {
  vcf_capacity : Z;
  vcf_signer : option exportSigner;
  vcf_trust : option exportTrustStore;
  vcf_streamID : string;
  vcf_on : bool;
  vcf_verifierSigner : option exportSigner;
  vcf_verifierTrust : option exportTrustStore;
  vcf_foreignKeys : gset string }.

Definition is_some {A} (o : option A) : bool := match o with Some _ => true | None => false end.

Definition has_keys (t : option exportTrustStore) : bool := bool_decide (trusted_keys t <> ∅).

Definition vcf_enabled (c : verificationConfig) : bool := vcf_on c && is_some (vcf_signer c) && has_keys (vcf_trust c).
Definition independent (c : verificationConfig) : bool := is_some (vcf_verifierSigner c) && has_keys (vcf_verifierTrust c).
Definition verifySigner (c : verificationConfig) : option exportSigner := if independent c then vcf_verifierSigner c else vcf_signer c.
Definition verifyTrackFor (c : verificationConfig) : option exportTrustStore * gset string :=
  if independent c then (vcf_verifierTrust c, vcf_foreignKeys c) else (vcf_trust c, ∅).

(** The keys of the deployment's other anchors. *)
Definition verifierForeignKeys (verifierTrust trust : option exportTrustStore) (keyAuthority : option keyAuthority) : gset string :=
  if negb (has_keys verifierTrust) then ∅
  else dom (trusted_keys trust) ∪ match keyAuthority with Some ka => dom (trusted_keys (ka_trust ka)) | None => ∅ end.

(** ** Signatures *)

Definition verificationVerdictUnauthorized : string := "verification_unauthorized".

Definition with_report_signature (e : verificationLogEntry) (s : signatureBlock) : verificationLogEntry := MkVerification (ve_signed e) (ve_Digest e) (Some s).

Definition signVerificationEntry (s : option exportSigner) (e : verificationLogEntry) (at_ : string) : result error verificationLogEntry :=
  match sign_block "verification: no signing key configured" "verification: private key is not a valid Ed25519 key" s
          (canonicalVerificationEntryPayload e) at_ with
  | Err err => Err err
  | Ok sb => Ok (with_report_signature e sb)
  end.

Definition verifyVerificationEntrySignatureIn (e : verificationLogEntry) (trust : option exportTrustStore) (foreign : gset string) : SignatureVerdict :=
  match ve_Signature e with
  | None => MkSignatureVerdict sigVerdictAbsent (vh_KeyID (ve_signed e)) "verification report carries no signature"
  | Some sb =>
      let verdict v detail := MkSignatureVerdict v (sb_KeyID sb) detail in
      let unknown detail :=
        if bool_decide (sb_KeyID sb ∈ foreign)
        then verdict verificationVerdictUnauthorized
          "verification key_id belongs to another trust anchor of this deployment and is not authorized to sign verification reports"
        else verdict sigVerdictKeyUnknown detail in
      if String.eqb (sb_Alg sb) "" || String.eqb (sb_KeyID sb) "" || String.eqb (sb_Sig sb) "" || String.eqb (sb_SignedAt sb) ""
      then verdict sigVerdictMalformed "verification signature block is incomplete"
      else match base64_Decode (sb_Sig sb) with
        | None => verdict sigVerdictMalformed "verification signature is not valid base64"
        | Some rawSig =>
            if decide (trusted_keys trust = ∅) then unknown "no trusted export keys are configured"
            else match trusted_keys trust !! sb_KeyID sb with
              | None => unknown "verification key_id is not in the trusted set"
              | Some pub =>
                  if negb (Verify pub (canonicalVerificationEntryPayload e) rawSig)
                  then verdict sigVerdictInvalid "verification signature does not verify against the trust anchor"
                  else verdict sigVerdictOK ""
              end
        end
  end.

Definition verifyVerificationEntrySignature (e : verificationLogEntry) (trust : option exportTrustStore) : SignatureVerdict :=
  verifyVerificationEntrySignatureIn e trust ∅.

Definition entry_verdict (c : verificationConfig) (e : verificationLogEntry) : SignatureVerdict :=
  verifyVerificationEntrySignatureIn e (fst (verifyTrackFor c)) (snd (verifyTrackFor c)).

Definition entry_verified (c : verificationConfig) (e : verificationLogEntry) : bool := String.eqb (sv_Verdict (entry_verdict c e)) sigVerdictOK.
Definition report_sealed (e : verificationLogEntry) : bool := String.eqb (verificationEntryDigest e) (ve_Digest e).
Definition other_stream (c : verificationConfig) (e : verificationLogEntry) : bool :=
  let sid := vh_StreamID (ve_signed e) in negb (String.eqb (vcf_streamID c) "") && negb (String.eqb sid "") && negb (String.eqb sid (vcf_streamID c)).

(** ** Loading *)

Definition empty_verification : verificationState := MkVerificationState [] (MkWindow 0 0 0 false) true [] 0 [].

Definition unverifiable (st : verificationState) (errs : list string) (problems : list verificationProblem) : verificationState :=
  MkVerificationState (vst_entries st) (vst_window st) false (vst_errs st ++ errs) (vst_total st) (vst_problems st ++ problems).

Record LoadState : Type := MkLoadState { ld_state : verificationState; ld_prev : string; ld_first : bool; ld_seen : gset Z }.

(** One line: what is wrong with it breaks the chain as well. *)
Definition load_verification_line (c : verificationConfig) (acc : LoadState) (e : verificationLogEntry) : LoadState :=
  let st := ld_state acc in
  let st := MkVerificationState (vst_entries st) (vst_window st) (vst_verifiable st) (vst_errs st) (vst_total st + 1) (vst_problems st) in
  let seq := ve_ReportSeq e in
  let seen := {[ seq ]} ∪ ld_seen acc in
  let bad err problems := MkLoadState (unverifiable st ["report_seq " +:+ pretty seq +:+ err] problems) "" false seen in
  let v := entry_verdict c e in
  if bool_decide (seq ∈ ld_seen acc) then bad " appears more than once: a verification report is a fact, so a duplicate is a conflict — fail-closed" []
  else if negb (entry_verified c e) then
    bad (": " +:+ sv_Verdict v +:+ " (" +:+ sv_Detail v +:+ ")") (if independent c then [MkProblem seq (sv_Verdict v) (sv_Detail v)] else [])
  else if negb (report_sealed e) then bad ": digest does not match its canonical payload" []
  else if negb (ld_first acc) && negb (String.eqb (ve_PrevDigest e) (ld_prev acc)) then bad ": prev_digest breaks the hash chain" []
  else if other_stream c e then
    bad (": belongs to stream " +:+ vh_StreamID (ve_signed e) +:+ ", not this export directory (" +:+ vcf_streamID c +:+ ")") []
  else
    MkLoadState (MkVerificationState (vst_entries st ++ [e]) (vst_window st) (vst_verifiable st) (vst_errs st) (vst_total st) (vst_problems st))
      (ve_Digest e) false seen.

Definition verification_state_of (c : verificationConfig) (es : list verificationLogEntry) : verificationState :=
  match es with
  | [] => empty_verification
  | _ =>
      let st := ld_state (run_list (load_verification_line c) (MkLoadState empty_verification "" true ∅) es) in
      let w := window_of (map ve_ReportSeq es) in
      let st := MkVerificationState (vst_entries st) w (vst_verifiable st) (vst_errs st) (vst_total st) (vst_problems st) in
      if lw_Continuous w then st
      else unverifiable st ["window_discontinuous: the surviving report_seq run has a hole — no verdict may be asserted"] []
  end.

Definition loadVerificationState (io : LogIO) (d : LogDisk) (c : verificationConfig) : result error verificationState :=
  match readLogLines io verificationGroupOf d with
  | Err e => Err e
  | Ok (lines, ok) =>
      if negb ok
      then Err ("verification log holds " +:+ pretty (countUnclassified lines) +:+ " unclassifiable line(s); refusing to evaluate it")
      else match decode_lines lines with None => Err "verification line is not readable" | Some es => Ok (verification_state_of c es) end
  end.

(** ** Appending *)

(** A line read before an append: the sequences seen, the greatest, its digest. *)
Definition append_report_line (c : verificationConfig) (acc : result error (gset Z * Z * string)) (e : verificationLogEntry)
  : result error (gset Z * Z * string) :=
  match acc with
  | Err err => Err err
  | Ok (seen, maxSeq, prevDigest) =>
      let seq := ve_ReportSeq e in
      let v := entry_verdict c e in
      let refused why := Err ("verification: refusing to append — report_seq " +:+ pretty seq +:+ why) in
      if bool_decide (seq ∈ seen) then refused " already recorded (a report is a fact, so a duplicate is a conflict)"
      else if negb (entry_verified c e) then refused (" is " +:+ sv_Verdict v +:+ " (" +:+ sv_Detail v +:+ ")")
      else if other_stream c e then refused " belongs to another export directory"
      else Ok ({[ seq ]} ∪ seen, if maxSeq <? seq then seq else maxSeq, if maxSeq <? seq then ve_Digest e else prevDigest)
  end.

Definition with_seq (s : verificationSigned) (seq : Z) : verificationSigned :=
  MkVerificationSigned seq (vs_Subject s) (vs_Evaluable s) (vs_Items s) (vs_Overall s) (vs_Reasons s) (vs_VerifiedAt s).

Definition new_report_entry (c : verificationConfig) (s : verificationSigned) (seq : Z) (prevDigest : string) : verificationLogEntry :=
  let body := MkSignedEntry 1 (with_seq s seq) (vcf_streamID c) (from_option es_keyID "" (verifySigner c)) prevDigest in
  MkVerification body (verificationEntryDigest (MkVerification body "" None)) None.

(** Everything before the append; [at_] is the time of the signature. *)
Definition verification_prepare (io : LogIO) (d : LogDisk) (c : verificationConfig) (s : verificationSigned) (at_ : string) : result error verificationLogEntry :=
  if negb (vcf_enabled c) then Err "verification: no signing key / trust anchor configured (writes disabled)"
  else match readLogLines io verificationGroupOf d with
    | Err e => Err e
    | Ok (lines, ok) =>
        if negb ok
        then Err ("verification log holds " +:+ pretty (countUnclassified lines) +:+ " unclassifiable line(s); refusing to append")
        else match decode_lines lines with
          | None => Err "verification line is not readable"
          | Some es =>
              match run_list (append_report_line c) (Ok (∅, 0, "")) es with
              | Err e => Err e
              | Ok (_, maxSeq, prevDigest) => signVerificationEntry (verifySigner c) (new_report_entry c s (wrap64 (maxSeq + 1)) prevDigest) at_
              end
          end
    end.

Record VerificationIO : Type := MkVerificationIO { vio_read : LogIO; vio_append : LogIO; vio_compact : LogIO }.

Definition appendVerificationReport {W} (observe : option (compactionObserver W)) (io : VerificationIO) (c : verificationConfig) (d : LogDisk) (w : W)
    (r : VerificationReport) (at_ : string) : list LogDisk * W * result error VerificationReport :=
  match verification_prepare (vio_read io) d c (rp_signed r) at_ with
  | Err e => ([], w, Err e)
  | Ok e =>
      match appendLogLine (vio_append io) d (serializeVerificationEntryBytes e) with
      | (states, Some err) => (states, w, Err err)
      | (states, None) =>
          let r := MkReport (with_seq (rp_signed r) (ve_ReportSeq e)) (rp_Anchor r) (rp_Signature r) in
          if 0 <? vcf_capacity c then
            match compactLogPrefixGroupsObserved (vio_compact io) (final d states) w (vcf_capacity c) verificationGroupOf observe with
            | (states', w, Some err) => (states ++ states', w, Err err)
            | (states', w, None) => (states ++ states', w, Ok r)
            end
          else (states, w, Ok r)
      end
  end.

(** ** A run *)

Definition verification_body (r : VerificationReport) (seq : Z) (at_ : string) : anchorSigned :=
  MkAnchorSigned 0 seq "" 0 "" at_ "" "" anchorKindVerification 0 "" "" "" (vs_ReportSeq (rp_signed r)) (reportDigest r) (vs_Overall (rp_signed r)) 0 "" "" 0 "" 0.

(** The report is given the reference when it has been handed over. *)
Definition anchorVerificationReport {W} (ac : AnchorConfig) (observe : option (compactionObserver W)) (io : RecordAnchorIO) (r : VerificationReport)
    (at_ : string) (w : AnchorWorld W) : AnchorWorld W * VerificationReport * option error :=
  match record_family ac observe (verification_body r) io at_ w with
  | (w', Some e) => (w', r, Some e)
  | (w', None) =>
      match nextAnchorSeqPath (ri_next io) (aw_disk w) (ac_abs ac) with
      | Ok seq =>
          if negb (ac_enabled ac) || bool_decide (ac_signer ac = None) then (w', r, None)
          else (w', MkReport (rp_signed r) (Some (MkAnchorRef seq anchorStatePending (reportDigest r))) (rp_Signature r), None)
      | Err _ => (w', r, None)
      end
  end.

(** The directory as a call sees it, and how its reads end. *)
Record Seen : Type := MkSeen { sn_dir : SnapDir; sn_error : option error; sn_read : string -> option error }.

Record AttestIO : Type := MkAttestIO {
  at_limit : Z;
  at_now : string;
  at_verify : Seen;
  at_list : Seen;
  at_coverage : Seen;
  at_keys : option keyLifecycleState;
  at_ledger : result error ledgerState;
  at_anchor_log : LogDisk;
  at_anchor_load : LogIO;
  at_lifecycle : option (result error keyLifecycleState);
  at_append : VerificationIO;
  at_record : RecordAnchorIO;
  at_recorded : string }.

Record VerifyWorld (W : Type) : Type := MkVerifyWorld { vw_disk : LogDisk; vw_anchors : AnchorWorld W }.
#[global] Arguments MkVerifyWorld {W}.
#[global] Arguments vw_disk {W}.
#[global] Arguments vw_anchors {W}.

Section Attest.
Context {HCu : CursorCodec} {HAr : ArtifactCodec} (decode : string -> result error snapshotManifest).

(** The groups as the coverage reads them. *)
Definition coverage_group (s : Seen) (g : DirGroup) : snapshotGroup :=
  discovered (sg_identity g) (sg_manifestFn g) (match read_file (sn_read s) (sn_dir s) (sg_manifestFn g) with Ok data => decode data | Err e => Err e end).

Definition coverage_of (s : Seen) (limit : Z) : option CoverageResult :=
  match discoverSnapshotGroups false (sn_error s) (sn_dir s) with
  | Err _ => None
  | Ok (groups, _) => Some (Coverage (map (coverage_group s) groups) None None limit)
  end.

Definition publication_ids (entries : list ManifestListEntry) : gmap string Z :=
  foldl (fun m e => <[me_Snapshot e := me_PublicationID e]> m) ∅ entries.

(** What a run reads before it reports, and the errors that it only notes. *)
Definition gather (c : verificationConfig) (ac : AnchorConfig) (io : AttestIO) : result error (verificationInputs * list error) :=
  let limit := if (at_limit io <=? 0) || (verificationSubjectLimit <? at_limit io) then verificationSubjectLimit else at_limit io in
  let v := at_verify io in
  match VerifySnapshotsDetailed decode (sn_error v) (sn_read v) (sn_dir v) (vcf_trust c) (at_keys io) (at_ledger io) limit with
  | Err e => Err e
  | Ok (results, _) =>
      let l := at_list io in
      match ListManifests decode (sn_error l) (sn_read l) (sn_dir l) limit "" with
      | Err e => Err e
      | Ok (manifests, _) =>
          let '(anchors, errs) :=
            if ac_enabled ac then
              match loadAnchorStatePath (at_anchor_load io) (at_anchor_log io) (vcf_trust c) (ac_abs ac) with
              | Ok st => (Some st, [])
              | Err e => (None, [e])
              end
            else (None, []) in
          let '(keys, errs') := match at_lifecycle io with Some (Ok st) => (Some st, []) | Some (Err e) => (None, [e]) | None => (None, []) end in
          Ok (MkInputs results (publication_ids manifests) (coverage_of (at_coverage io) limit) anchors keys limit (at_now io)
                (Z.of_nat (size (trusted_keys (vcf_trust c)))) (ac_enabled ac) (is_some keys), errs ++ errs')
      end
  end.

Definition AttestVerification {W} (observe observe_anchor : option (compactionObserver W)) (c : verificationConfig) (ac : AnchorConfig) (io : AttestIO)
    (w : VerifyWorld W) : VerifyWorld W * list error * result error VerificationReport :=
  if negb (vcf_enabled c)
  then (w, [], Err "verification: attestation is not enabled (--export-verify-attest with a signing key and trust anchor)")
  else match gather c ac io with
    | Err e => (w, [], Err e)
    | Ok (input, errs) =>
        match buildVerificationReport input with
        | Err e => (w, errs, Err e)
        | Ok r =>
            let aw := vw_anchors w in
            match appendVerificationReport observe (at_append io) c (vw_disk w) (aw_obs aw) r (at_now io) with
            | (states, obs, Err e) => (MkVerifyWorld (final (vw_disk w) states) (MkAnchorWorld (aw_disk aw) obs (aw_events aw)), errs, Err e)
            | (states, obs, Ok r) =>
                let aw := MkAnchorWorld (aw_disk aw) obs (aw_events aw) in
                let '(aw, r, err) := if ac_enabled ac then anchorVerificationReport ac observe_anchor (at_record io) r (at_recorded io) aw else (aw, r, None) in
                (MkVerifyWorld (final (vw_disk w) states) aw, errs ++ option_list err, Ok r)
            end
        end
    end.

(** [running]: a run is under way. *)
Definition verifyTick {W} (observe observe_anchor : option (compactionObserver W)) (c : verificationConfig) (ac : AnchorConfig) (running : bool) (io : AttestIO)
    (w : VerifyWorld W) : VerifyWorld W * list error :=
  if negb (vcf_enabled c) || running then (w, [])
  else let '(w, errs, r) := AttestVerification observe observe_anchor c ac io w in (w, errs ++ match r with Err e => [e] | Ok _ => [] end).

(** ** What was never verified *)

Record observablePublication : Type := MkObservable { op_ID : Z; op_PublishedAt : string }.

Definition observablePublications (s : Seen) : result error (list observablePublication) :=
  match ListManifests decode (sn_error s) (sn_read s) (sn_dir s) verificationSubjectLimit "" with
  | Err e => Err e
  | Ok (entries, _) =>
      Ok (sort_slice (fun a b => op_ID a <? op_ID b)
            (map (fun e => MkObservable (me_PublicationID e) (me_GeneratedAt e)) (List.filter (fun e => negb (me_PublicationID e =? 0)) entries)))
  end.
End Attest.

Record verificationGapView : Type := MkGapView {
  gv_Gaps : list Z;
  gv_NotAssertable : list Z;
  gv_Indeterminate : bool;
  gv_AssertableFrom : string;
  gv_Reason : string }.

Definition covers (e : verificationLogEntry) (id : Z) : bool := existsb (fun it => vi_PublicationID it =? id) (ve_Items e).

(** The last entry with the smallest sequence. *)
Definition oldest_verified_at (st : verificationState) : string :=
  from_option ve_VerifiedAt "" (last (List.filter (fun e => ve_ReportSeq e =? lw_Min (vst_window st)) (vst_entries st))).

(** A report about the publication cannot have left the log: nothing has, or the
    publication is not older than the oldest report. *)
Definition gap_assertable (st : verificationState) (p : observablePublication) : bool :=
  if lw_Min (vst_window st) =? 1 then true
  else match parseRFC3339Nano (oldest_verified_at st) with
    | None => false
    | Some boundary =>
        if String.eqb (op_PublishedAt p) "" then false
        else match parseRFC3339Nano (op_PublishedAt p) with None => false | Some t => negb (t <? boundary) end
    end.

Definition deriveVerificationGap (st : verificationState) (pubs : result error (list observablePublication)) : verificationGapView :=
  match vst_entries st with
  | [] => MkGapView [] [] true "" "no verification report survives — coverage cannot be asserted"
  | es =>
      if negb (lw_Continuous (vst_window st))
      then MkGapView [] [] true "" "window_discontinuous: the surviving report_seq run has a hole — coverage cannot be asserted"
      else
        let full := lw_Min (vst_window st) =? 1 in
        let oldest := oldest_verified_at st in
        let from := if full then "" else oldest in
        match pubs with
        | Err e => MkGapView [] [] true from ("publication set unavailable: " +:+ e)
        | Ok pubs =>
            let uncovered := List.filter (fun p => negb (existsb (fun e => covers e (op_ID p)) es)) pubs in
            let gaps := map op_ID (List.filter (gap_assertable st) uncovered) in
            let rest := map op_ID (List.filter (fun p => negb (gap_assertable st p)) uncovered) in
            let reason := match rest with
              | _ :: _ => pretty (Z.of_nat (length rest)) +:+ " publication(s) predate the assertion boundary " +:+ oldest +:+
                  " — their covering report may have been legally compacted away, so their coverage is not assertable"
              | [] => if full
                  then "window starts at report_seq 1 — no report was ever compacted away, so every uncovered publication is assertably never verified"
                  else "coverage is assertable only from " +:+ oldest +:+ " (the earliest surviving report's verified_at); " +:+
                    pretty (Z.of_nat (length gaps)) +:+ " publication(s) are uncovered"
              end in
            MkGapView gaps rest (negb (bool_decide (rest = []))) from reason
        end
  end.

(** ** The view *)

Record VerificationViewOf : Type := MkVerificationView {
  vv_Enabled : bool;
  vv_Window : option logWindow;
  vv_Absent : bool;
  vv_Gap : option verificationGapView;
  vv_Divergent : list VerificationChange;
  vv_ScopeChanged : list VerificationChange;
  vv_WindowDiscontinuous : bool;
  vv_Error : string;
  vv_VerifierKeyID : string;
  vv_VerifierIndependent : bool;
  vv_Problems : list verificationProblem }.

Definition not_verifiable (st : verificationState) : string :=
  "verification log is not verifiable — no verdict is asserted (" +:+ String.concat "; " (vst_errs st) +:+ ")".

Definition verifier_key (c : verificationConfig) : string := if independent c then from_option es_keyID "" (vcf_verifierSigner c) else "".

Definition VerificationView (c : verificationConfig) (load : LogIO) (d : LogDisk) (pubs : result error (list observablePublication)) : VerificationViewOf :=
  if negb (vcf_enabled c) then MkVerificationView false None false None [] [] false "" "" false []
  else match loadVerificationState load d c with
    | Err e => MkVerificationView true None false None [] [] false e (verifier_key c) (independent c) []
    | Ok st =>
        let view gap divergent scope err :=
          MkVerificationView true (Some (vst_window st)) (vst_total st =? 0) gap divergent scope
            (negb (lw_Continuous (vst_window st)) && (0 <? vst_total st)) err (verifier_key c) (independent c) (vst_problems st) in
        if negb (vst_verifiable st) then view None [] [] (not_verifiable st)
        else let '(divergent, scope) := deriveVerificationChanges st in view (Some (deriveVerificationGap st pubs)) divergent scope ""
    end.

Record verificationStatusSummary : Type := MkVerificationSummary {
  vm_Enabled : bool;
  vm_ReportCount : Z;
  vm_Window : option logWindow;
  vm_LastOverall : string;
  vm_Error : string;
  vm_VerifierKeyID : string;
  vm_VerifierIndependent : bool }.

Definition verificationSummary (c : verificationConfig) (load : LogIO) (d : LogDisk) : verificationStatusSummary :=
  if negb (vcf_enabled c) then MkVerificationSummary false 0 None "" "" "" false
  else match loadVerificationState load d c with
    | Err e => MkVerificationSummary true 0 None "" e (verifier_key c) (independent c)
    | Ok st =>
        MkVerificationSummary true (vst_total st) (Some (vst_window st)) (from_option (fun e => vs_Overall (ve_report e)) "" (last (vst_entries st)))
          (if vst_verifiable st then "" else not_verifiable st) (verifier_key c) (independent c)
    end.
End VerificationLog.

(** ** What is loaded *)

Section Load.
Context `{HC : ManifestCrypto} {HF : KeyFiles} {HA : AnchorCodec} {HV : VerificationCodec}.
Context (c : verificationConfig).

(** An entry that can be relied on; each names the one before. *)
Definition good_entry (e : verificationLogEntry) : Prop := entry_verified c e = true /\ report_sealed e = true /\ other_stream c e = false.

Definition linked_entries (es : list verificationLogEntry) : Prop :=
  forall i e e', es !! i = Some e -> es !! S i = Some e' -> ve_PrevDigest e' = ve_Digest e.

#[local] Abbreviation seqs := (map ve_ReportSeq).
#[local] Abbreviation tip := (last_digest ve_Digest).

Lemma links_snoc es e : linked_entries (es ++ [e]) <-> linked_entries es /\ (es <> [] -> ve_PrevDigest e = tip es).
Proof.
  split.
  - intros Hl. split.
    + intros i a b Ha Hb. eapply (Hl i); by apply lookup_app_l_Some.
    + intros Hne. destruct es as [|x es _] using rev_ind; [done|]. rewrite last_digest_snoc. apply (Hl (length es)); rewrite <- app_assoc; cbn.
      * by rewrite list_lookup_middle.
      * rewrite lookup_app_r by lia. by replace (S (length es) - length es)%nat with 1%nat by lia.
  - intros [Hl Hp] i a b Ha Hb. apply lookup_snoc_Some in Hb as [[Hi Hb]|[Hi <-]].
    + rewrite lookup_app_l in Ha by (apply lookup_lt_Some in Hb; lia). by eapply Hl.
    + rewrite lookup_app_l in Ha by lia. rewrite Hp by (by intros ->). unfold last_digest. rewrite last_lookup, <- Hi. cbn. by rewrite Ha.
Qed.

Lemma load_reports_walk es :
  let a := run_list (load_verification_line c) (MkLoadState empty_verification "" true ∅) es in
  let st := ld_state a in
  ld_seen a = list_to_set (seqs es) /\ ld_first a = bool_decide (es = []) /\ vst_total st = Z.of_nat (length es) /\
  (vst_verifiable st = true <-> NoDup (seqs es) /\ Forall good_entry es /\ linked_entries es) /\
  (vst_verifiable st = true -> vst_entries st = es /\ ld_prev a = tip es /\ vst_errs st = [] /\ vst_problems st = []).
Proof.
  induction es as [|e es IH] using rev_ind.
  { cbn. do 3 (split; [done|]). split; [|done]. split; [|done]. intros _. split; [apply NoDup_nil_2|]. split; [apply Forall_nil_2|done]. }
  cbn zeta. rewrite run_list_snoc. destruct (run_list _ _ es) as [st prev first seen]. cbn zeta in IH. cbn [ld_seen ld_first ld_state ld_prev] in IH.
  destruct IH as (Hseen & Hfirst & Htotal & Hver & Hgood). unfold load_verification_line. cbn [ld_state ld_seen ld_first ld_prev vst_entries vst_window vst_verifiable vst_errs vst_total vst_problems].
  assert (Hs : ({[ve_ReportSeq e]} ∪ seen : gset Z) = list_to_set (seqs (es ++ [e]))).
  { rewrite Hseen, map_app, list_to_set_app_L. cbn. rewrite (right_id_L ∅ (∪)). apply (comm_L (∪)). }
  assert (Hf : false = bool_decide (es ++ [e] = [])) by (rewrite bool_decide_false; [done|]; by destruct es).
  assert (Ht : vst_total st + 1 = Z.of_nat (length (es ++ [e]))) by (rewrite length_app; cbn; lia).
  assert (Hiff : NoDup (seqs (es ++ [e])) /\ Forall good_entry (es ++ [e]) /\ linked_entries (es ++ [e]) <->
    vst_verifiable st = true /\ (ve_ReportSeq e ∉ seen) /\ good_entry e /\ (first = false -> ve_PrevDigest e = prev)).
  { rewrite map_app, NoDup_app, Forall_app, Forall_singleton, links_snoc, Hseen, elem_of_list_to_set. cbn [map]. split.
    - intros ((Hn & Hx & _) & (Hg & He) & Hl & Hp). assert (Hv : vst_verifiable st = true) by by apply Hver.
      split; [done|]. split; [|split; [done|]]. { intros Hin. apply (Hx _ Hin). by left. }
      intros Hfst. destruct (Hgood Hv) as (_ & -> & _). apply Hp. intros ->. by rewrite Hfirst in Hfst.
    - intros (Hv & Hx & He & Hp). destruct (proj1 Hver Hv) as (Hn & Hg & Hl). destruct (Hgood Hv) as (_ & Hpr & _). split.
      + split; [done|]. split; [|apply NoDup_singleton]. intros x Hin Hx'%list_elem_of_singleton. by subst x.
      + split; [done|]. split; [done|]. intros Hne. rewrite <- Hpr. apply Hp. rewrite Hfirst. by apply bool_decide_false. }
  rewrite Hiff. unfold good_entry.
  repeat (case_match; cbn [ld_seen ld_first ld_state ld_prev vst_entries vst_verifiable vst_errs vst_total vst_problems unverifiable];
    [do 3 (split; [done|]); split; [split; [done|]|done]; repeat match goal with
      | Hb : bool_decide _ = true |- _ => apply bool_decide_eq_true in Hb
      | Hb : negb _ = true |- _ => apply negb_true_iff in Hb
      | Hb : _ && _ = true |- _ => apply andb_true_iff in Hb as [? ?]
      | Hb : String.eqb _ _ = false |- _ => apply String.eqb_neq in Hb end;
      intros (_ & ? & (? & ? & ?) & Hp); try congruence; try done; try (by rewrite Hp in *)|]).
  cbn [ld_seen ld_first ld_state ld_prev vst_entries vst_verifiable vst_errs vst_total vst_problems].
  do 3 (split; [done|]). split.
  - split; [|by intros [? _]]. intros Hv. split; [done|].
    repeat match goal with
      | Hb : bool_decide _ = false |- _ => apply bool_decide_eq_false in Hb
      | Hb : negb _ = false |- _ => apply negb_false_iff in Hb end.
    split; [done|]. split; [done|]. intros ->. cbn [negb andb] in *.
    match goal with Hb : negb (String.eqb _ _) = false |- _ => by apply negb_false_iff, String.eqb_eq in Hb end.
  - intros Hv. destruct (Hgood Hv) as (-> & _ & -> & ->). rewrite last_digest_snoc. done.
Qed.

(** A sequence without a hole. *)
Lemma consecutive_lookup x l i y : consecutive (x :: l) = true -> (x :: l) !! i = Some y -> y = x + Z.of_nat i.
Proof.
  revert x i. induction l as [|z l IH]; intros x [|i] Hc Hi; cbn in Hi; simplify_eq; try lia.
  change (consecutive (x :: z :: l)) with ((z =? x + 1) && consecutive (z :: l)) in Hc. apply andb_true_iff in Hc as [Hz%Z.eqb_eq Hc].
  rewrite (IH z i Hc Hi). lia.
Qed.

Lemma consecutive_nodup l : consecutive l = true -> NoDup l.
Proof.
  destruct l as [|x l]; [intros _; apply NoDup_nil_2|]. intros Hc. apply NoDup_alt. intros i j y Hi Hj.
  pose proof (consecutive_lookup _ _ _ _ Hc Hi). pose proof (consecutive_lookup _ _ _ _ Hc Hj). lia.
Qed.

Lemma window_bounds l x : x ∈ l -> lw_Min (window_of l) <= x <= lw_Max (window_of l).
Proof.
  destruct l as [|y l]; [by intros Hx%elem_of_nil|]. cbn [window_of lw_Min lw_Max].
  assert (Hall : forall m lo hi, foldl Z.min lo m <= lo /\ hi <= foldl Z.max hi m /\ forall z, z ∈ m -> foldl Z.min lo m <= z <= foldl Z.max hi m).
  { induction m as [|w m IH]; intros lo hi; [split; [done|]; split; [done|]; by intros z Hz%elem_of_nil|]. cbn [foldl].
    destruct (IH (Z.min lo w) (Z.max hi w)) as (H1 & H2 & H3). split; [lia|]. split; [lia|]. intros z [->|Hz]%elem_of_cons; [lia|by apply H3]. }
  destruct (Hall l y y) as (H1 & H2 & H3). intros [->|Hx]%elem_of_cons; [lia|by apply H3].
Qed.

(** A log that can be relied on: good entries, one after the other, linked. *)
Definition sound_log (es : list verificationLogEntry) : Prop := Forall good_entry es /\ consecutive (seqs es) = true /\ linked_entries es.

Lemma state_sound es :
  let st := verification_state_of c es in
  vst_window st = match es with [] => MkWindow 0 0 0 false | _ => window_of (seqs es) end /\ vst_total st = Z.of_nat (length es) /\
  (vst_verifiable st = true <-> sound_log es) /\
  (vst_verifiable st = true -> vst_entries st = es /\ vst_errs st = [] /\ vst_problems st = []).
Proof.
  unfold verification_state_of, sound_log. destruct es as [|e es].
  { cbn. do 2 (split; [done|]). split; [|done]. split; [|done]. intros _. split; [apply Forall_nil_2|]. by split. }
  set (l := e :: es). pose proof (load_reports_walk l) as Hw. cbn zeta in *. set (st := ld_state _) in *. destruct Hw as (_ & _ & Ht & Hv & Hg).
  change (lw_Continuous (window_of (seqs l))) with (consecutive (seqs l)). destruct (consecutive (seqs l)) eqn:Ec;
    cbn [vst_window vst_total vst_verifiable vst_entries vst_errs vst_problems unverifiable]; (split; [done|]); (split; [done|]).
  - split; [|intros E; destruct (Hg E) as (-> & _ & -> & ->); done]. rewrite Hv. pose proof (consecutive_nodup _ Ec). tauto.
  - split; [|done]. split; [done|]. by intros (_ & ? & _).
Qed.

Lemma load_errs es acc : (vst_verifiable (ld_state acc) = false -> vst_errs (ld_state acc) <> []) ->
  let st := ld_state (run_list (load_verification_line c) acc es) in vst_verifiable st = false -> vst_errs st <> [].
Proof.
  intros Hacc. cbn zeta. apply (run_list_invariant _ (fun acc => vst_verifiable (ld_state acc) = false -> vst_errs (ld_state acc) <> [])); [|done].
  clear acc Hacc. intros acc e Ha. unfold load_verification_line.
  assert (Hbad : forall (l : list string) (m : string), l ++ [m] <> []) by (by intros l m [_ ?]%app_eq_nil).
  repeat (case_match; [by intros _; apply Hbad|]). exact Ha.
Qed.

Lemma errs_given es : vst_verifiable (verification_state_of c es) = false -> vst_errs (verification_state_of c es) <> [].
Proof.
  unfold verification_state_of. destruct es as [|e es]; [done|]. set (l := e :: es). cbn zeta.
  destruct (lw_Continuous (window_of (seqs l))); cbn [vst_verifiable vst_errs unverifiable].
  - by apply load_errs.
  - by intros _ [_ ?]%app_eq_nil.
Qed.

Lemma load_readable io d es : log_on ve_ReportSeq d es -> io_read io = None -> loadVerificationState io d c = Ok (verification_state_of c es).
Proof.
  intros Hd Hio. unfold loadVerificationState, verificationGroupOf. rewrite (log_on_read ve_ReportSeq io d es Hd Hio). cbn [negb].
  by rewrite (proj2 (proj2 (proj2 (entry_lines ve_ReportSeq es (lo_fits _ _ _ Hd))))).
Qed.


(** C7. The comparison of the surviving reports is exact: on any log that can be
    relied on, a divergent change is of two neighbours about the publication that
    found otherwise in the dimension it names, or, where both could evaluate the
    same, concluded otherwise; a change of the scope is of two neighbours that
    differ in exactly the dimensions it names, which are not none, and in no
    dimension that both could evaluate; and no change is silent: between any two
    reports that do not agree on a publication there is one. *)
Theorem changes_exact es :
  sound_log es ->
  let st := verification_state_of c es in
  let '(divergent, scope) := deriveVerificationChanges st in
  (forall x, In x divergent -> exists r1 r2, genuine st (changeDivergent, x) r1 r2 /\
     let p := vc_PublicationID x in
     (In (vc_Dimension x) verificationDimensions /\ disagree_on p r1 r2 (vc_Dimension x) \/
      vc_Dimension x = "" /\ (forall d, In d verificationDimensions -> availabilityOf r1 p d = availabilityOf r2 p d) /\
        vc_FromOverall x <> vc_ToOverall x)) /\
  (forall x, In x scope -> exists r1 r2, genuine st (changeScopeChanged, x) r1 r2 /\
     let p := vc_PublicationID x in
     vc_ChangedDimensions x <> [] /\
     (forall d, In d (vc_ChangedDimensions x) <-> In d verificationDimensions /\ availabilityOf r1 p d <> availabilityOf r2 p d) /\
     (forall d, In d verificationDimensions -> ~ disagree_on p r1 r2 d)) /\
  (forall p r1 r2, In r1 es -> In r2 es -> about p r1 -> about p r2 -> ve_ReportSeq r1 <= ve_ReportSeq r2 -> ~ agree p r1 r2 ->
     exists x, In x (divergent ++ scope) /\ vc_PublicationID x = p /\ ve_ReportSeq r1 <= vc_FromReportSeq x /\ vc_ToReportSeq x <= ve_ReportSeq r2).
Proof.
  intros Hs. cbn zeta. destruct (decide (es = [])) as [->|Hne].
  { cbn. split; [by intros x []|]. split; [by intros x []|]. by intros p r1 r2 []. }
  destruct (state_sound es) as (Hw & _ & Hv & Hg). cbn zeta in *. destruct (Hg (proj2 Hv Hs)) as (He & _ & _).
  set (st := verification_state_of c es) in *. destruct Hs as (_ & Hc & _).
  assert (Hwin : vst_window st = window_of (seqs es)).
  { rewrite Hw. clear -Hne. destruct es; done. }
  assert (Hnd : NoDup (seqs (vst_entries st))) by (rewrite He; by apply consecutive_nodup).
  assert (Hin : forall e, In e (vst_entries st) -> lw_Min (vst_window st) <= ve_ReportSeq e <= lw_Max (vst_window st)).
  { intros e Hel. rewrite He in Hel. rewrite Hwin. by apply window_bounds, list_elem_of_In, in_map. }
  pose proof (changes_genuine st Hnd Hin) as Hsound. pose proof (changes_complete st Hnd Hin) as Hcompl.
  assert (Hcont : lw_Continuous (vst_window st) = true) by (rewrite Hwin; clear -Hne Hc; by destruct es).
  unfold deriveVerificationChanges. rewrite Hcont. cbn [negb].
  assert (Hpick : forall kind x, In x (map snd (List.filter (fun y => String.eqb (fst y) kind) (all_changes st))) <-> In (kind, x) (all_changes st)).
  { intros kind x. rewrite in_map_iff. split.
    - intros ([k y] & <- & [Hy E%String.eqb_eq]%filter_In). cbn in E. rewrite <- E. exact Hy.
    - intros Hy. exists (kind, x). split; [done|]. apply filter_In. split; [done|]. apply String.eqb_refl. }
  split; [|split].
  - intros x Hx%Hpick. destruct (Hsound _ Hx) as (r1 & r2 & Hgen). exists r1, r2. split; [done|].
    destruct Hgen as (_ & _ & _ & _ & _ & _ & _ & Hcl & _ & _ & Hf & Ht & _). cbn [fst snd] in *.
    pose proof (classify_spec r1 r2 (vc_PublicationID x)) as Hk. rewrite Hcl in Hk. rewrite Hf, Ht.
    destruct Hk as [(? & _)|[(_ & _ & _ & Hk)|(? & _)]]; done.
  - intros x Hx%Hpick. destruct (Hsound _ Hx) as (r1 & r2 & Hgen). exists r1, r2. split; [done|].
    destruct Hgen as (_ & _ & _ & _ & _ & _ & _ & Hcl & _). cbn [fst snd] in *.
    pose proof (classify_spec r1 r2 (vc_PublicationID x)) as Hk. rewrite Hcl in Hk.
    destruct Hk as [(? & _)|[(? & _)|(_ & _ & _ & H1 & H2 & H3)]]; done.
  - intros p r1 r2 H1 H2 A1 A2 Hle Hag. rewrite <- He in H1, H2. destruct (Hcompl p r1 r2 H1 H2 A1 A2 Hle Hag) as ([kind x] & Hx & Hp & Hlo & Hhi).
    exists x. split; [|done]. rewrite in_app_iff, !Hpick. destruct (Hsound _ Hx) as (s1 & s2 & Hgen).
    destruct Hgen as (_ & _ & _ & _ & _ & _ & Hna & Hcl & _). cbn [fst snd] in *.
    pose proof (classify_spec s1 s2 (vc_PublicationID x)) as Hk. rewrite Hcl in Hk.
    destruct Hk as [(_ & Ha & _)|[(-> & _)|(-> & _)]]; [done|by left|by right].
Qed.
End Load.

(** ** Histories

    Runs over an undisturbed log, whatever is in the directory, whatever the witness
    answers and whichever reads, openings and compactions fail. *)

Section Histories.
Context `{HC : ManifestCrypto} {HF : KeyFiles} {HA : AnchorCodec} {HV : VerificationCodec} {HCu : CursorCodec} {HAr : ArtifactCodec}.
Context (decode : string -> result error snapshotManifest) {W : Type} (observe observe_anchor : option (compactionObserver W)).
Context (c : verificationConfig) (ac : AnchorConfig) (signer : exportSigner).
Context (Hsigner : verifySigner c = Some signer) (Hnamed : es_keyID signer <> "").
Context (Htrusted : trusted_keys (fst (verifyTrackFor c)) !! es_keyID signer = Some (Public (es_priv signer))).

#[local] Abbreviation seqs := (map ve_ReportSeq).
#[local] Abbreviation tip := (last_digest ve_Digest).
#[local] Abbreviation log_chain := (chain_on ve_ReportSeq ve_PrevDigest ve_Digest (good_entry c) (vcf_capacity c)).

(** The entry that a run puts into the log. *)
Definition landed_report (d : LogDisk) (io : AttestIO) : list verificationLogEntry :=
  match gather decode c ac io with
  | Err _ => []
  | Ok (input, _) =>
      match buildVerificationReport input with
      | Err _ => []
      | Ok r =>
          match verification_prepare (vio_read (at_append io)) d c (rp_signed r) (at_now io) with
          | Err _ => []
          | Ok e => match appendLogLine (vio_append (at_append io)) d (serializeVerificationEntryBytes e) with (_, None) => [e] | (_, Some _) => [] end
          end
      end
  end.

(** The world, the entries that landed, the reports answered. *)
Definition attest_step (st : VerifyWorld W * list verificationLogEntry * list VerificationReport) (io : AttestIO)
  : VerifyWorld W * list verificationLogEntry * list VerificationReport :=
  let '(w, landed, answered) := st in
  let '(w', _, r) := AttestVerification decode observe observe_anchor c ac io w in
  (w', landed ++ landed_report (vw_disk w) io, match r with Ok r => answered ++ [r] | Err _ => answered end).

Definition attest_run (aw : AnchorWorld W) (ios : list AttestIO) : VerifyWorld W * list verificationLogEntry * list VerificationReport :=
  run_list attest_step (MkVerifyWorld (MkLogDisk None None) aw, [], []) ios.

Definition whole_attest (io : AttestIO) : Prop := clean_io (vio_append (at_append io)) /\ at_now io <> "".

Lemma signed_verifies e at_ sb : at_ <> "" ->
  sign_block "verification: no signing key configured" "verification: private key is not a valid Ed25519 key" (Some signer) (canonicalVerificationEntryPayload e) at_ = Ok sb ->
  entry_verified c (with_report_signature e sb) = true.
Proof using Hnamed Htrusted.
  intros Hat. unfold sign_block. destruct (es_priv_size signer); [|done]. cbn [negb]. intros [= <-].
  unfold entry_verified, entry_verdict, verifyVerificationEntrySignatureIn. cbn [with_report_signature ve_Signature sb_Alg sb_KeyID sb_Sig sb_SignedAt].
  rewrite (proj2 (String.eqb_neq _ _) Hnamed), (proj2 (String.eqb_neq _ _) (sign_nonempty _ _)), (proj2 (String.eqb_neq _ _) Hat).
  cbn [orb String.eqb signatureAlgEd25519]. rewrite base64_roundtrip. rewrite decide_False by (intros E; by rewrite E, lookup_empty in Htrusted).
  rewrite Htrusted. unfold canonicalVerificationEntryPayload, verificationSignedEntryFields. cbn [ve_signed]. by rewrite verify_sign.
Qed.

(** What the walk before an append finds. *)
Lemma append_walk k es : chained ve_ReportSeq ve_PrevDigest ve_Digest (good_entry c) k es ->
  run_list (append_report_line c) (Ok (∅, 0, "")) es =
    Ok (list_to_set (seqs es), if bool_decide (es = []) then 0 else Z.of_nat (k + length es), tip es).
Proof.
  induction es as [|e es IH] using rev_ind; intros Hc; [done|].
  destruct (chained_last _ _ _ _ _ _ _ Hc) as ((Hs & _ & Hf) & Hq & _). rewrite run_list_snoc, IH by by eapply chained_prefix.
  unfold append_report_line. rewrite Hs, Hf. pose proof (chained_fresh _ _ _ _ _ _ _ Hc) as Hx. cbn [negb].
  rewrite bool_decide_false by by rewrite elem_of_list_to_set.
  assert (((if bool_decide (es = []) then 0 else Z.of_nat (k + length es)) <? ve_ReportSeq e) = true) as ->.
  { apply Z.ltb_lt. rewrite Hq. case_bool_decide; lia. }
  rewrite last_digest_snoc, (bool_decide_eq_false_2 (es ++ [e] = [])) by by destruct es. do 3 f_equal.
  - rewrite map_app, list_to_set_app_L. cbn. rewrite (right_id_L ∅ (∪)). apply (comm_L (∪)).
  - rewrite Hq, length_app. cbn. lia.
Qed.

Lemma report_prepared k h d io s at_ e :
  log_chain k h d -> Z.of_nat (length h) < max_int64 -> at_ <> "" -> verification_prepare io d c s at_ = Ok e ->
  good_entry c e /\ ve_ReportSeq e = Z.of_nat (S (length h)) /\ ve_PrevDigest e = tip h /\ ve_report e = with_seq s (ve_ReportSeq e).
Proof using Hsigner Hnamed Htrusted.
  intros Hon Hlen Hat. pose proof (chain_on_survivors _ _ _ _ _ _ _ _ Hon) as Hcd. destruct Hon as [Hc Hk _ Hd]. unfold verification_prepare.
  destruct (vcf_enabled c); [|done]. cbn [negb]. unfold verificationGroupOf.
  destruct (log_on_reads ve_ReportSeq io d _ Hd) as [->|(er & -> & _)]; [|done]. cbn [negb].
  rewrite (proj2 (proj2 (proj2 (entry_lines _ _ (lo_fits _ _ _ Hd))))), (append_walk k (drop k h) Hcd). unfold signVerificationEntry. rewrite Hsigner.
  destruct (sign_block _ _ _ _ _) as [sb|] eqn:Esb; [|done]. intros [= <-].
  assert (Hmax : (if bool_decide (drop k h = []) then 0 else Z.of_nat (k + length (drop k h))) = Z.of_nat (length h)).
  { rewrite length_drop. case_bool_decide as E; [|lia]. apply (f_equal length) in E. rewrite length_drop in E. cbn in E.
    destruct Hk as [[-> ->]|Hk]; [done|lia]. }
  rewrite Hmax in *. split; [|split; [|split; [|done]]].
  - split; [by eapply signed_verifies|]. split; [apply String.eqb_refl|].
    unfold other_stream. cbn. by rewrite String.eqb_refl, andb_false_r.
  - cbn. rewrite wrap64_id; [lia|]. unfold in_int64, min_int64, max_int64 in *. lia.
  - cbn. destruct Hk as [[-> ->]|Hk]; [done|]. by apply last_digest_drop.
Qed.

(** An append keeps the log, and answers what it wrote. *)
Lemma report_appended k h d io (w : W) r at_ states w' res :
  log_chain k h d -> Z.of_nat (length h) < max_int64 -> at_ <> "" -> clean_io (vio_append io) ->
  appendVerificationReport observe io c d w r at_ = (states, w', res) ->
  let more := match verification_prepare (vio_read io) d c (rp_signed r) at_ with
    | Err _ => []
    | Ok e => match appendLogLine (vio_append io) d (serializeVerificationEntryBytes e) with (_, None) => [e] | (_, Some _) => [] end
    end in
  Forall (fun e => ve_report e = with_seq (rp_signed r) (ve_ReportSeq e)) more /\ (length more <= 1)%nat /\
  match res with Ok r' => exists e, e ∈ more /\ ve_report e = rp_signed r' | Err _ => True end /\
  (Forall fits more -> exists k', (k <= k')%nat /\ log_chain k' (h ++ more) (final d states)).
Proof using Hsigner Hnamed Htrusted.
  intros Hon Hlen Hat Hio. unfold appendVerificationReport.
  destruct (verification_prepare _ _ _ _ _) as [e|er] eqn:Ep.
  2: { intros [= <- <- <-]. split; [apply Forall_nil_2|]. split; [cbn; lia|]. split; [done|]. intros _. rewrite app_nil_r. by exists k. }
  destruct (report_prepared _ _ _ _ _ _ _ Hon Hlen Hat Ep) as (Hg & Hq & Hp & Hr).
  destruct (appendLogLine _ _ _) as [st [er|]] eqn:Ea; pose proof (log_on_append ve_ReportSeq _ _ _ _ _ _ (co_disk _ _ _ _ _ _ _ _ Hon) Hio Ea) as Hd'.
  { intros [= <- <- <-]. split; [apply Forall_nil_2|]. split; [cbn; lia|]. split; [done|]. intros _. rewrite app_nil_r. exists k. split; [done|].
    destruct Hon. by split. }
  assert (Hon' : fits e -> log_chain k (h ++ [e]) (final d st)) by (intros Hf; by eapply chain_on_snoc; [exact Hon|apply Hd'| | |]).
  assert (Hin : exists e0, e0 ∈ [e] /\ ve_report e0 = with_seq (rp_signed r) (ve_ReportSeq e)) by (exists e; split; [by left|done]).
  cbn zeta. destruct (Z.ltb_spec 0 (vcf_capacity c)) as [Hcap|Hcap].
  - destruct (compactLogPrefixGroupsObserved _ _ _ _ _ _) as [[st2 w2] e2] eqn:Ec. intros E.
    assert (Hst : states = st ++ st2) by (destruct e2; by simplify_eq). subst states.
    split; [by apply Forall_singleton|]. split; [cbn; lia|]. split; [destruct e2; by simplify_eq|]. intros [Hf _]%Forall_cons.
    assert (Hfinal : final d (st ++ st2) = final (final d st) st2) by (unfold final; by rewrite last_app). rewrite Hfinal.
    by eapply chain_on_compact; [apply Hon'|..].
  - intros [= <- <- <-]. split; [by apply Forall_singleton|]. split; [cbn; lia|]. split; [done|]. intros [Hf _]%Forall_cons. exists k. split; [done|]. by apply Hon'.
Qed.

(** An entry states a report that was made. *)
Definition honest (e : verificationLogEntry) : Prop := exists input, ve_report e = with_seq (report_body input) (ve_ReportSeq e).

Lemma attest_step_inv k w landed answered io :
  log_chain k landed (vw_disk w) -> Z.of_nat (length landed) < max_int64 -> whole_attest io ->
  let '(w', landed', answered') := attest_step (w, landed, answered) io in
  let more := landed_report (vw_disk w) io in
  (length more <= 1)%nat /\ Forall honest more /\
  (forall r, r ∈ answered' -> r ∈ answered \/ exists e, e ∈ more /\ ve_report e = rp_signed r) /\
  (Forall fits more -> exists k', (k <= k')%nat /\ log_chain k' landed' (vw_disk w')).
Proof using Hsigner Hnamed Htrusted.
  intros Hon Hlen [Hio Hat].
  assert (Hnone : (length (@nil verificationLogEntry) <= 1)%nat /\ Forall honest [] /\
    (forall r, r ∈ answered -> r ∈ answered \/ exists e, e ∈ [] /\ ve_report e = rp_signed r) /\
    (Forall fits (@nil verificationLogEntry) -> exists k', (k <= k')%nat /\ log_chain k' (landed ++ []) (vw_disk w))).
  { rewrite app_nil_r. split; [cbn; lia|]. split; [apply Forall_nil_2|]. split; [by left|]. intros _. by exists k. }
  unfold attest_step, AttestVerification, landed_report. destruct (vcf_enabled c) eqn:Een; cbn [negb].
  2: { unfold verification_prepare. rewrite Een. cbn [negb].
       by destruct (gather decode c ac io) as [[input errs]|]; [destruct (buildVerificationReport input)|]. }
  destruct (gather decode c ac io) as [[input errs]|er]; [|done]. rewrite report_made. cbn [rp_signed].
  destruct (appendVerificationReport _ _ _ _ _ _ _) as [[states obs] res] eqn:Ea.
  pose proof (report_appended k landed (vw_disk w) (at_append io) _ _ _ _ _ _ Hon Hlen Hat Hio Ea) as Hap. cbn zeta in Hap. cbn [rp_signed] in Hap.
  set (more := match verification_prepare _ _ _ _ _ with Ok _ => _ | Err _ => _ end) in *. destruct Hap as (Hrep & Hm & Hres & Hlog).
  assert (Hh : Forall honest more) by (eapply Forall_impl; [exact Hrep|]; intros e He; by exists input).
  destruct res as [r|er].
  - set (aw := MkAnchorWorld _ _ _).
    assert (Hr : forall aw' r' err, (if ac_enabled ac then anchorVerificationReport ac observe_anchor (at_record io) r (at_recorded io) aw else (aw, r, None)) = (aw', r', err) ->
      rp_signed r' = rp_signed r).
    { intros aw' r' err. unfold anchorVerificationReport. intros E. repeat case_match; by simplify_eq/=. }
    destruct (if ac_enabled ac then _ else _) as [[aw' r'] err]. specialize (Hr _ _ _ eq_refl). cbn [vw_disk].
    split; [done|]. split; [done|]. split; [|done].
    intros r0 [?| ->%list_elem_of_singleton]%elem_of_app; [by left|right]. destruct Hres as (e & He & E). exists e. by rewrite Hr.
  - split; [done|]. split; [done|]. split; [by left|done].
Qed.

Lemma attest_run_inv aw ios :
  Forall whole_attest ios -> Z.of_nat (length ios) <= max_int64 ->
  let '(w, landed, answered) := attest_run aw ios in
  Forall fits landed -> (length landed <= length ios)%nat /\ Forall honest landed /\
  (forall r, r ∈ answered -> exists e, e ∈ landed /\ ve_report e = rp_signed r) /\ exists k, log_chain k landed (vw_disk w).
Proof using Hsigner Hnamed Htrusted.
  unfold attest_run. induction ios as [|io ios IH] using rev_ind; intros Hw Hlen.
  { cbn. intros _. split; [done|]. split; [apply Forall_nil_2|]. split; [by intros r Hr%elem_of_nil|]. exists 0%nat. by apply chain_on_start. }
  rewrite run_list_snoc. apply Forall_app in Hw as [Hws [Hw _]%Forall_cons]. rewrite length_app in *. cbn [length] in *.
  specialize (IH Hws ltac:(lia)). destruct (run_list _ _ ios) as [[w landed] answered].
  pose proof (fun k => attest_step_inv k w landed answered io) as Hstep.
  assert (Hl : (attest_step (w, landed, answered) io).1.2 = landed ++ landed_report (vw_disk w) io).
  { unfold attest_step. by destruct (AttestVerification _ _ _ _ _ _ _) as [[? ?] ?]. }
  destruct (attest_step _ _) as [[w' landed'] answered']. cbn [fst snd] in Hl. subst landed'. set (more := landed_report (vw_disk w) io) in *.
  intros [Hf0 Hf]%Forall_app. destruct (IH Hf0) as (Hlen' & Hh & Hans & k & Hon).
  destruct (Hstep k Hon ltac:(lia) Hw) as (Hm & Hhm & Ha & Hlog). split; [rewrite length_app; lia|]. split; [by apply Forall_app_2|]. split.
  - intros r [Hr|(e & He & E)]%Ha; [destruct (Hans r Hr) as (e & He & E)|]; exists e; (split; [apply elem_of_app|done]); [by left|by right].
  - destruct (Hlog Hf) as (k' & _ & Hon'). by exists k'.
Qed.

(** What is loaded where [h] has landed and the log has dropped its first [k]. *)
Definition surviving (k : nat) (h : list verificationLogEntry) : verificationState :=
  if decide (h = []) then empty_verification
  else MkVerificationState (drop k h) (MkWindow (Z.of_nat k + 1) (Z.of_nat (length h)) (Z.of_nat (length h - k)) true) true [] (Z.of_nat (length h - k)) [].

Lemma load_surviving k h d io : log_chain k h d -> io_read io = None -> loadVerificationState io d c = Ok (surviving k h).
Proof.
  intros Hon Hio. pose proof (chain_on_survivors _ _ _ _ _ _ _ _ Hon) as Hcd. destruct Hon as [_ Hk _ Hd]. rewrite (load_readable c io d _ Hd Hio).
  unfold surviving. destruct Hk as [[-> ->]|Hk]; [done|]. rewrite decide_False by (intros ->; cbn in Hk; lia).
  destruct (state_sound c (drop k h)) as (Hw & Ht & Hv & Hg). cbn zeta in *. pose proof (length_drop h k) as Hl.
  assert (Hs : sound_log c (drop k h)).
  { destruct Hcd as [Hgood Hseq Hlink]. split; [done|]. split; [|done]. rewrite Hseq.
    pose proof (window_seq k (length (drop k h)) ltac:(lia)) as Hws. apply (f_equal lw_Continuous) in Hws. cbn [lw_Continuous] in Hws.
    rewrite <- Hws. destruct (drop k h); [cbn in Hl; lia|]. done. }
  destruct (Hg (proj2 Hv Hs)) as (He & Her & Hp). apply Hv in Hs. destruct (verification_state_of c (drop k h)) as [es w ver errs total problems].
  cbn [vst_entries vst_window vst_verifiable vst_errs vst_total vst_problems] in *. subst. rewrite Hl. f_equal. f_equal.
  rewrite (ch_seqs _ _ _ _ _ _ Hcd). destruct (drop k h) as [|e l] eqn:E; [cbn in Hl; lia|]. rewrite <- E, window_seq by (rewrite E; cbn; lia).
  rewrite E, Hl. f_equal. lia.
Qed.

(** C10. The log of reports is exactly what was reported: after any history of runs,
    in which every read, the compaction and the append may fail, the append before
    a byte is written ([clean_io]: no torn write, no failing sync or close;
    [verification_append_fails] shows what these do), if what landed are lines of
    text short enough for the scanner ([fits]), the log loads as verifiable
    and without a hole, holds the newest reports, none dropped without a capacity
    and never fewer than the capacity for one dropped, each signed, sealed, numbered
    and linked to the one before; every entry states a report that was made of what
    was found, and what a run answered is in it. *)
Theorem verification_log_exact aw ios :
  Forall whole_attest ios -> Z.of_nat (length ios) <= max_int64 ->
  let '(w, landed, answered) := attest_run aw ios in
  Forall fits landed ->
  exists k, (k = 0%nat \/ 0 < vcf_capacity c /\ Z.of_nat k + vcf_capacity c <= Z.of_nat (length landed)) /\
  (forall io, io_read io = None -> loadVerificationState io (vw_disk w) c = Ok (surviving k landed)) /\
  vst_verifiable (surviving k landed) = true /\ vst_entries (surviving k landed) = drop k landed /\
  seqs landed = map Z.of_nat (seq 1 (length landed)) /\ Forall (good_entry c) landed /\ linked_entries landed /\ Forall honest landed /\
  (forall r, r ∈ answered -> exists e, e ∈ landed /\ ve_report e = rp_signed r).
Proof using Hsigner Hnamed Htrusted.
  intros Hw Hlen. pose proof (attest_run_inv aw ios Hw Hlen) as Hrun. destruct (attest_run aw ios) as [[w landed] answered].
  intros Hf. destruct (Hrun Hf) as (_ & Hh & Ha & k & Hon). exists k. split; [exact (co_keep _ _ _ _ _ _ _ _ Hon)|].
  split; [intros io Hio; by apply load_surviving|]. unfold surviving.
  split; [by case_decide|]. split; [case_decide as E; [subst; by rewrite drop_nil|done]|].
  destruct (co_chain _ _ _ _ _ _ _ _ Hon) as [Hg Hq Hl]. done.
Qed.

(** Every report about a publication was made, the next one being started, after
    the publication: what holds of runs one after the other. *)
Definition one_after_another (landed : list verificationLogEntry) (pubs : list observablePublication) : Prop :=
  forall i j e1 e2 p t v, landed !! i = Some e1 -> landed !! j = Some e2 -> (i < j)%nat -> In p pubs -> about (op_ID p) e1 ->
    parseRFC3339Nano (op_PublishedAt p) = Some t -> parseRFC3339Nano (ve_VerifiedAt e2) = Some v -> t < v.

Lemma covers_about e id : covers e id = true <-> about id e.
Proof.
  unfold covers, about. rewrite existsb_exists. split; intros (it & Hin & E); exists it; (split; [done|]); [by apply Z.eqb_eq|by apply Z.eqb_eq].
Qed.

Lemma surviving_oldest k landed e : map ve_ReportSeq landed = map Z.of_nat (seq 1 (length landed)) -> landed !! k = Some e ->
  oldest_verified_at (surviving k landed) = ve_VerifiedAt e.
Proof.
  intros Hq He. assert (Hne : landed <> []) by (by intros ->). unfold oldest_verified_at, surviving. rewrite decide_False by done.
  cbn [vst_window vst_entries lw_Min].
  assert (Hseq : forall i x, landed !! i = Some x -> ve_ReportSeq x = Z.of_nat (S i)).
  { intros i x Hx. assert (Hm : map ve_ReportSeq landed !! i = Some (ve_ReportSeq x)) by (change (map ve_ReportSeq landed) with (ve_ReportSeq <$> landed); by rewrite list_lookup_fmap, Hx).
    rewrite Hq in Hm. change (map Z.of_nat (seq 1 (length landed))) with (Z.of_nat <$> seq 1 (length landed)) in Hm. rewrite list_lookup_fmap in Hm.
    apply fmap_Some in Hm as (n & Hn & E). apply lookup_seq in Hn as [-> _]. lia. }
  rewrite (drop_S _ _ _ He). cbn [List.filter]. rewrite (Hseq k e He), (proj2 (Z.eqb_eq _ _)) by lia.
  assert (Hnil : List.filter (fun e0 => ve_ReportSeq e0 =? Z.of_nat k + 1) (drop (S k) landed) = []).
  { destruct (List.filter _ _) as [|y l] eqn:Ey; [done|]. assert (Hy : In y (y :: l)) by (by left). rewrite <- Ey in Hy. apply filter_In in Hy as [Hy Hs%Z.eqb_eq].
    apply list_elem_of_In, list_elem_of_lookup in Hy as [i Hi]. rewrite lookup_drop in Hi. rewrite (Hseq _ _ Hi) in Hs. lia. }
  by rewrite Hnil.
Qed.

End Histories.

(** ** An instance, witnesses and findings *)

#[local] Existing Instance checksum_crypto.
#[local] Existing Instance sample_files.
#[local] Existing Instance sample_cursor.
#[local] Existing Instance sample_artifacts.

Definition bool_str (b : bool) : string := if b then "t" else "f".
Definition str_bool (s : string) : bool := String.eqb s "t".

Lemma str_bool_str b : str_bool (bool_str b) = b.
Proof. by destruct b. Qed.

(** Lists are written with their length in front. *)
Definition item_fields (it : VerificationItem) : list string := Z_str (vi_PublicationID it) :: item_texts it.
Definition reason_fields (r : VerificationReason) : list string := [bool_str (rn_Evaluable r); bool_str (rn_Blocking r)] ++ reason_texts r.
Definition listed {A} (f : A -> list string) (l : list A) : list string := Z_str (Z.of_nat (length l)) :: concat (map f l).

Fixpoint take_items (n : nat) (l : list string) : option (list VerificationItem * list string) :=
  match n, l with
  | O, l => Some ([], l)
  | S n, id :: a :: b :: c :: d :: e :: f :: g :: o :: l =>
      match take_items n l with Some (its, l) => Some (MkItem (str_Z id) a b c d e f g o :: its, l) | None => None end
  | _, _ => None
  end.

Fixpoint take_reasons (n : nat) (l : list string) : option (list VerificationReason * list string) :=
  match n, l with
  | O, l => Some ([], l)
  | S n, ev :: bl :: d :: v :: sc :: l =>
      match take_reasons n l with Some (rs, l) => Some (MkReason d v (str_bool ev) (str_bool bl) sc :: rs, l) | None => None end
  | _, _ => None
  end.

Lemma take_items_back its rest : take_items (length its) (concat (map item_fields its) ++ rest) = Some (its, rest).
Proof. induction its as [|it its IH]; [done|]. destruct it. cbn in *. by rewrite IH, str_Z_str. Qed.

Lemma take_reasons_back rs rest : take_reasons (length rs) (concat (map reason_fields rs) ++ rest) = Some (rs, rest).
Proof. induction rs as [|r rs IH]; [done|]. destruct r. cbn in *. by rewrite IH, !str_bool_str. Qed.

Definition report_fields (s : verificationSigned) : list string :=
  let j := vs_Subject s in
  let d := vs_Evaluable s in
  [Z_str (vs_ReportSeq s); vs_Overall s; vs_VerifiedAt s; Z_str (sj_MinID j); Z_str (sj_MaxID j); Z_str (sj_Limit j); bool_str (sj_Truncated j);
   Z_str (sj_Unattributed j); bool_str (da_Status d); bool_str (da_Signature d); bool_str (da_Chain d); bool_str (da_ChainSource d);
   bool_str (da_Anchor d); bool_str (da_Lifecycle d); bool_str (da_Coverage d)] ++
  listed item_fields (vs_Items s) ++ listed reason_fields (vs_Reasons s) ++ listed (fun p => [Z_str p]) (sj_Publications j).

Definition signed_entry_fields (h : verificationSignedEntry) : list string :=
  [Z_str (vh_V h); vh_StreamID h; vh_KeyID h; vh_PrevDigest h] ++ report_fields (vh_report h).

Definition verification_fields (e : verificationLogEntry) : list string :=
  match ve_Signature e with
  | None => ["-"; ""; ""; ""; ""]
  | Some sb => ["+"; sb_Alg sb; sb_KeyID sb; sb_Sig sb; sb_SignedAt sb]
  end ++ ve_Digest e :: signed_entry_fields (ve_signed e).

Definition verification_of_fields (l : list string) : option verificationLogEntry :=
  match l with
  | sg :: alg :: kid :: raw :: sat :: dg :: v :: stream :: key :: prev :: seq :: overall :: at_ :: lo :: hi :: lim :: tr :: un ::
      b1 :: b2 :: b3 :: b4 :: b5 :: b6 :: b7 :: n :: l =>
      match take_items (Z.to_nat (str_Z n)) l with
      | Some (items, m :: l) =>
          match take_reasons (Z.to_nat (str_Z m)) l with
          | Some (reasons, _ :: pubs) =>
              Some (MkVerification
                (MkSignedEntry (str_Z v)
                  (MkVerificationSigned (str_Z seq)
                    (MkVerificationSubject (map str_Z pubs) (str_Z lo) (str_Z hi) (str_Z lim) (str_bool tr) (str_Z un))
                    (MkAvailability (str_bool b1) (str_bool b2) (str_bool b3) (str_bool b4) (str_bool b5) (str_bool b6) (str_bool b7))
                    items overall reasons at_)
                  stream key prev) dg
                (if String.eqb sg "+" then Some (MkSignature alg kid raw sat) else None))
          | _ => None
          end
      | _ => None
      end
  | _ => None
  end.

Lemma verification_of_verification_fields e : verification_of_fields (verification_fields e) = Some e.
Proof.
  destruct e as [[v [seq [pubs lo hi lim tr un] [b1 b2 b3 b4 b5 b6 b7] items overall reasons at_] stream key prev] dg sig].
  assert (Hp : map str_Z (concat (map (fun p => [Z_str p]) pubs)) = pubs) by (induction pubs as [|p pubs IH]; [done|]; cbn in *; by rewrite IH, str_Z_str).
  assert (Hitems : forall rest, take_items (Z.to_nat (str_Z (Z_str (Z.of_nat (length items))))) (concat (map item_fields items) ++ rest) = Some (items, rest)).
  { intros rest. by rewrite str_Z_str, Nat2Z.id, take_items_back. }
  assert (Hreasons : forall rest, take_reasons (Z.to_nat (str_Z (Z_str (Z.of_nat (length reasons))))) (concat (map reason_fields reasons) ++ rest) = Some (reasons, rest)).
  { intros rest. by rewrite str_Z_str, Nat2Z.id, take_reasons_back. }
  unfold verification_of_fields, verification_fields, signed_entry_fields, report_fields, listed.
  destruct sig as [[alg kid raw sat]|]; cbn [ve_Signature ve_Digest ve_signed vh_V vh_StreamID vh_KeyID vh_PrevDigest vh_report vs_ReportSeq vs_Overall vs_VerifiedAt vs_Subject
    vs_Evaluable vs_Items vs_Reasons sj_MinID sj_MaxID sj_Limit sj_Truncated sj_Unattributed sj_Publications da_Status da_Signature da_Chain da_ChainSource
    da_Anchor da_Lifecycle da_Coverage app sb_Alg sb_KeyID sb_Sig sb_SignedAt]; rewrite Hitems, Hreasons, Hp, !str_Z_str, !str_bool_str; done.
Qed.

Definition sample_verification_lines : LineCodec verificationLogEntry verification_utf8.
Proof.
  refine (fields_codec verification_fields verification_of_fields verification_of_verification_fields _).
  intros e. unfold verification_fields. by destruct (ve_Signature e).
Defined.

Definition sample_verifications : VerificationCodec := {|
  report_json s := pack (report_fields s);
  entry_signed_json h := pack (signed_entry_fields h);
  verification_lines := sample_verification_lines |}.

#[local] Existing Instance sample_anchors.
#[local] Existing Instance sample_verifications.

Definition verification_config (capacity : Z) : verificationConfig := MkVerificationConfig capacity (Some kak) (Some kak_trust) "st" true None None ∅.
Definition anchors_off : AnchorConfig := MkAnchorConfig false None None (Ok "/exports") 0 0.

Definition read_fails : LogIO := MkLogIO (Some "EIO") None None None None None None None None None None.

Definition see (d : SnapDir) : Seen := MkSeen d None readable.

(** A run over a directory, which fails at most at its compaction. *)
Definition attesting (compaction : LogIO) (verified listed_dir : SnapDir) (now : string) : AttestIO :=
  MkAttestIO 0 now (see verified) (see listed_dir) (see verified) None (Ok empty_ledger) (MkLogDisk None None) io_ok None
    (MkVerificationIO io_ok io_ok compaction) (recording acked) now.

Definition one_snapshot : SnapDir := sample_dir
  [("alert-transitions-20260101T000000Z.manifest.json", "20260101T000000Z#7"); ("alert-transitions-20260101T000000Z.json", "[]");
   ("alert-transitions-20260101T000000Z.csv", csv_text)].

Definition changed_snapshot : SnapDir := sample_dir
  [("alert-transitions-20260101T000000Z.manifest.json", "20260101T000000Z#7"); ("alert-transitions-20260101T000000Z.json", "xx");
   ("alert-transitions-20260101T000000Z.csv", csv_text)].

Definition verify_run (capacity : Z) (ios : list AttestIO) : VerifyWorld unit * list verificationLogEntry * list VerificationReport :=
  attest_run named_manifest None None (verification_config capacity) anchors_off anchor_start ios.

Definition state_after (capacity : Z) (ios : list AttestIO) : result error verificationState :=
  loadVerificationState io_ok (vw_disk (verify_run capacity ios).1.1) (verification_config capacity).

Definition sample_runs : list AttestIO :=
  [attesting io_ok one_snapshot one_snapshot "2026-01-02T00:00:00Z"; attesting io_ok changed_snapshot changed_snapshot "2026-01-03T00:00:00Z";
   attesting read_fails changed_snapshot changed_snapshot "2026-01-04T00:00:00Z"].

Lemma whole_sample io : In io sample_runs -> whole_attest io.
Proof. intros [<-|[<-|[<-|[]]]]; (split; [|discriminate]); by split. Qed.

Lemma kak_named : es_keyID kak <> "".
Proof. discriminate. Qed.

Lemma kak_trusts capacity : trusted_keys (fst (verifyTrackFor (verification_config capacity))) !! es_keyID kak = Some (Public (es_priv kak)).
Proof. vm_compute. reflexivity. Qed.

Example verification_log_exact_witness :
  let '(w, landed, answered) := verify_run 2 sample_runs in
  map ve_ReportSeq landed = [1; 2; 3] /\ map (fun e => vs_Overall (ve_report e)) landed = [verificationUnattested; verificationContradicted; verificationContradicted] /\
  map (fun r => vs_ReportSeq (rp_signed r)) answered = [1; 2] /\
  exists k, loadVerificationState io_ok (vw_disk w) (verification_config 2) = Ok (surviving k landed) /\
    vst_verifiable (surviving k landed) = true /\ Forall (good_entry (verification_config 2)) landed /\ linked_entries landed.
Proof.
  assert (Hw : Forall whole_attest sample_runs) by (apply List.Forall_forall; exact whole_sample).
  assert (Hl : Z.of_nat (length sample_runs) <= max_int64) by (vm_compute; discriminate).
  assert (Hf : forallb fitsb (verify_run 2 sample_runs).1.2 = true) by (vm_compute; reflexivity).
  assert (Hc : map ve_ReportSeq (verify_run 2 sample_runs).1.2 = [1; 2; 3] /\
    map (fun e => vs_Overall (ve_report e)) (verify_run 2 sample_runs).1.2 = [verificationUnattested; verificationContradicted; verificationContradicted] /\
    map (fun r => vs_ReportSeq (rp_signed r)) (verify_run 2 sample_runs).2 = [1; 2]) by (vm_compute; repeat split).
  pose proof (verification_log_exact named_manifest (W := unit) None None (verification_config 2) anchors_off kak eq_refl kak_named (kak_trusts 2)
    anchor_start sample_runs Hw Hl) as Hx.
  fold (verify_run 2 sample_runs) in Hx. revert Hf Hc Hx. generalize (verify_run 2 sample_runs). intros [[w landed] answered]. cbn [fst snd].
  intros Hf (H1 & H2 & H3) Hx. split; [exact H1|]. split; [exact H2|]. split; [exact H3|].
  destruct (Hx (fitsb_fits _ Hf)) as (k & _ & Hload & Hv & _ & _ & Hg & Hlinks & _). exists k. split; [by apply Hload|]. split; [exact Hv|]. by split.
Defined.

(** Two reports, and a third that is out of the line. *)
Definition sample_entries : list verificationLogEntry := (verify_run 0 sample_runs).1.2.
Definition torn_entries : list verificationLogEntry := match sample_entries with [e1; _; e3] => [e1; e3] | _ => [] end.
Definition log_of (es : list verificationLogEntry) : LogDisk := MkLogDisk (Some (synced (disk_bytes ve_ReportSeq es))) None.

Lemma log_of_on es : forallb fitsb es = true -> log_on ve_ReportSeq (log_of es) es.
Proof. intros Hf. split; [reflexivity|]. by apply fitsb_fits. Qed.

Lemma sound_of c es : vst_verifiable (verification_state_of c es) = true -> sound_log c es.
Proof. intros Hv. by apply (state_sound c es). Qed.


Example changes_exact_witness :
  let '(divergent, scope) := deriveVerificationChanges (verification_state_of (verification_config 0) sample_entries) in
  map (fun x => (vc_PublicationID x, vc_FromReportSeq x, vc_ToReportSeq x, vc_Dimension x, vc_FromOverall x, vc_ToOverall x)) divergent =
    [(7, 1, 2, dimStatus, verificationUnattested, verificationContradicted)] /\ scope = [] /\
  Forall (fun x => exists r1 r2, disagree_on (vc_PublicationID x) r1 r2 dimStatus /\ ve_ReportSeq r1 = 1 /\ ve_ReportSeq r2 = 2) divergent.
Proof.
  assert (Hs : vst_verifiable (verification_state_of (verification_config 0) sample_entries) = true) by (vm_compute; reflexivity).
  assert (Hd : map (fun x => (vc_PublicationID x, vc_FromReportSeq x, vc_ToReportSeq x, vc_Dimension x, vc_FromOverall x, vc_ToOverall x))
      (fst (deriveVerificationChanges (verification_state_of (verification_config 0) sample_entries))) =
      [(7, 1, 2, dimStatus, verificationUnattested, verificationContradicted)] /\
    snd (deriveVerificationChanges (verification_state_of (verification_config 0) sample_entries)) = []) by (vm_compute; split; reflexivity).
  pose proof (changes_exact (verification_config 0) sample_entries) as Hx. revert Hs Hd Hx. generalize sample_entries. intros es Hs Hd Hx.
  specialize (Hx (sound_of _ _ Hs)). cbv zeta in Hx. revert Hd Hx. destruct (deriveVerificationChanges _) as [divergent scope]. cbn [fst snd].
  intros [Hd Hsc] [Hx _]. split; [exact Hd|]. split; [exact Hsc|]. apply List.Forall_forall. intros x Hin.
  destruct (Hx x Hin) as (r1 & r2 & Hg & Hdim). destruct Hg as (_ & _ & _ & _ & _ & _ & _ & _ & Hf & Ht & _). cbn [snd] in Hf, Ht.
  apply (in_map (fun x => (vc_PublicationID x, vc_FromReportSeq x, vc_ToReportSeq x, vc_Dimension x, vc_FromOverall x, vc_ToOverall x))) in Hin.
  rewrite Hd in Hin. destruct Hin as [E|[]]. injection E as _ E1 E2 E3 _ _. exists r1, r2. rewrite <- Hf, <- Ht, <- E1, <- E2, <- E3 in *.
  destruct Hdim as [[_ Hdim]|[Hdim _]]; [by split|done].
Defined.

(** Without a report in between, a run that reads later. *)
Fixpoint afterb (landed : list verificationLogEntry) (pubs : list observablePublication) : bool :=
  match landed with
  | [] => true
  | e1 :: rest =>
      forallb (fun e2 => forallb (fun p =>
        negb (covers e1 (op_ID p)) ||
        match parseRFC3339Nano (op_PublishedAt p), parseRFC3339Nano (ve_VerifiedAt e2) with Some t, Some v => t <? v | _, _ => true end) pubs) rest &&
      afterb rest pubs
  end.

Lemma afterb_after landed pubs : afterb landed pubs = true -> one_after_another landed pubs.
Proof.
  induction landed as [|e landed IH]; intros Ha i j e1 e2 p t v Hi Hj Hij Hp Hab Ht Hv; [done|].
  cbn in Ha. apply andb_true_iff in Ha as [He Ha]. destruct i as [|i], j as [|j]; [lia| |lia|].
  - cbn in Hi, Hj. injection Hi as ->. rewrite forallb_forall in He. apply list_elem_of_lookup_2, list_elem_of_In in Hj. specialize (He _ Hj).
    rewrite forallb_forall in He. specialize (He _ Hp). apply covers_about in Hab. rewrite Hab, Ht, Hv in He. cbn in He. by apply Z.ltb_lt.
  - apply (IH Ha i j e1 e2 p); [exact Hi|exact Hj|lia|done..].
Qed.

Definition gap_runs : list AttestIO :=
  [attesting io_ok one_snapshot one_snapshot "2026-01-02T00:00:00Z"; attesting io_ok ∅ ∅ "2026-01-03T00:00:00Z"].

Definition sample_publications : list observablePublication :=
  [MkObservable 7 "2026-01-01T00:00:01Z"; MkObservable 9 "2026-01-04T00:00:00Z"].

Definition gap_of (st : result error verificationState) : list Z * list Z :=
  match st with Ok st => let g := deriveVerificationGap st (Ok sample_publications) in (gv_Gaps g, gv_NotAssertable g) | Err _ => ([], []) end.


(** ** What comes out otherwise *)

(** A write that stops within the line leaves one that cannot be read, and the log
    is refused from then on; a sync that fails leaves the report, though the run
    was answered with an error. *)
Definition appending (append : LogIO) : AttestIO :=
  MkAttestIO 0 "2026-01-03T00:00:00Z" (see one_snapshot) (see one_snapshot) (see one_snapshot) None (Ok empty_ledger) (MkLogDisk None None) io_ok None
    (MkVerificationIO io_ok append io_ok) (recording acked) "2026-01-03T00:00:00Z".

Example verification_append_fails :
  let first := attesting io_ok one_snapshot one_snapshot "2026-01-02T00:00:00Z" in
  length (verify_run 0 [first; appending io_torn]).2 = 1%nat /\ is_ok (state_after 0 [first; appending io_torn]) = false /\
  length (verify_run 0 [first; appending io_sync_fails]).2 = 1%nat /\
  match state_after 0 [first; appending io_sync_fails] with Ok st => length (vst_entries st) = 2%nat | Err _ => False end.
Proof. vm_compute. repeat split. Qed.

(** A report about nothing is attested, though the deployment can evaluate next to
    nothing. *)
Example empty_attested :
  let input := MkInputs [] ∅ None None None 100 "2026-01-02T00:00:00Z" 0 false false in
  da_Signature (ruler input) = false /\ da_Coverage (ruler input) = false /\
  match buildVerificationReport input with Ok r => vs_Overall (rp_signed r) = verificationAttested | Err _ => False end.
Proof. vm_compute. repeat split. Qed.

(** A publication whose chain is broken is not contradicted: the item has the
    position, the class looks for the verdict. *)
Example broken_chain_unattested :
  let result := MkVerifyResult "s7" verifyStatusOK "" 0 0 0 "" [] [] (Some (MkSignatureVerdict sigVerdictOK "k" "")) chainPosBroken "disk" "" in
  let input := MkInputs [result] {[ "s7" := 7 ]} None None None 100 "2026-01-02T00:00:00Z" 1 false false in
  match buildVerificationReport input with
  | Ok r => map (fun it => (vi_Chain it, vi_Overall it)) (vs_Items (rp_signed r)) = [("broken", verificationUnattested)] /\
      vs_Overall (rp_signed r) = verificationUnattested /\ existsb rn_Blocking (vs_Reasons (rp_signed r)) = false
  | Err _ => False
  end /\ forall v, classOf dimChain v = classContradicted <-> v = chainVerdictBroken.
Proof.
  split; [vm_compute; repeat split|]. intros v. unfold classOf. cbn [String.eqb]. split; [|by intros ->].
  repeat case_match; try done. intros _. by apply String.eqb_eq.
Qed.

(** A log that nothing is asserted from is extended all the same. *)
Example unverifiable_extended :
  vst_verifiable (verification_state_of (verification_config 0) torn_entries) = false /\
  match verification_prepare io_ok (log_of torn_entries) (verification_config 0) (report_body (MkInputs [] ∅ None None None 100 "now" 0 false false)) "now" with
  | Ok e => ve_ReportSeq e = 4
  | Err _ => False
  end.
Proof. split; vm_compute; reflexivity. Qed.

(** Two runs at once: the second has listed the directory before the publication
    and appends after the first, which is dropped. The publication, which has been
    verified, is a gap. *)
Example concurrent_gap :
  let ios := [attesting io_ok one_snapshot one_snapshot "2026-01-01T00:00:00Z"; attesting io_ok ∅ ∅ "2026-01-01T00:00:00.5Z"] in
  map (fun e => covers e 7) (verify_run 1 ios).1.2 = [true; false] /\ fst (gap_of (state_after 1 ios)) = [7; 9].
Proof. split; vm_compute; reflexivity. Qed.

(** The reference to an anchor says pending when the witness has confirmed, and
    there is none while it is pending. *)
Example reference_inverted :
  let attest a :=
    AttestVerification named_manifest None None (verification_config 0) (anchor_config 0 8)
      (MkAttestIO 0 "2026-01-02T00:00:00Z" (see one_snapshot) (see one_snapshot) (see one_snapshot) None (Ok empty_ledger) (MkLogDisk None None) io_ok None
        (MkVerificationIO io_ok io_ok io_ok) (recording a) "noon") (MkVerifyWorld (MkLogDisk None None) anchor_start) in
  let reference a := match (attest a).2 with Ok r => rf_State <$> rp_Anchor r | Err _ => None end in
  let recorded a := last (map an_State (written (aw_events (vw_anchors (attest a).1.1)))) in
  reference acked = Some anchorStatePending /\ recorded acked = Some anchorStateAnchored /\
  reference down = None /\ recorded down = Some anchorStatePending.
Proof. vm_compute. repeat split. Qed.
